(* ===== verification/_CoqProject ===== *)
-Q . S2P
Prelude.v
Scanner.v
Paths.v
Breaker.v
Redis.v
Net.v
KvClient.v
StaleDetector.v
FleetStore.v
DaemonConfig.v
TaskRouter.v
AgentErr.v
Concurrency.v
Supervisor.v
Pool.v
SseHub.v
EnvSubst.v
IssueTypes.v
Spawn.v
Rotation.v
Bufio.v
EventLog.v
WorktreeLock.v
Recovery.v
Subscription.v
Metrics.v
Observability.v
Rpc.v
DaemonProbe.v
FileAccess.v
LogStreamer.v
WebAuth.v
Terminal.v
FleetHandlers.v
FleetKeys.v
AutoMode.v
LogRouter.v
DaemonCalls.v
IssueApi.v
RateLimit.v
TabMeta.v
GitCalls.v
GitFlow.v
GitApi.v
Resolver.v
ConfigCheck.v
DaemonGit.v
DaemonLife.v
Monitor.v
TmuxSession.v
Workspaces.v
Backends.v
Secrets.v
Usage.v
