(* ===== verification/Prelude.v ===== *)
(** * loom: a verification library for the Go code of loomcli

    loom runs coding agents. A daemon keeps one agent per worktree alive, picks
    tasks for it from an issue tracker, and restarts it when it ends; workers
    of a fleet claim tasks through Redis; a web server shows the tracker's
    state live. This library models the Go code under [src/internal] that makes
    these decisions, one file per component, and proves what makes each
    component correct. Definitions keep the names of the Go functions, types and
    constants they translate; a method [T.M] is [M] or [T_M].

    ** Files

    Shared ground:

    - [Prelude]: 64-bit integers with their wrap-around ([GoInt]), errors as
      chains of [%w] wrappings ([GoErr]), results ([res]), byte strings
      with [strings.ReplaceAll] and its laws ([GoString]), UTF-8 and what JSON makes of
      text that is not ([Utf8]), decimal numbers ([GoNum]), [sort.Slice] as the
      class [SliceSort] (any sorted permutation; an instance by insertion), and
      traces of step functions ([steps]).
    - [Scanner]: [bufio.Scanner] with the limit of 1 MiB. [Paths]:
      [filepath.Clean], [Join], [Dir], [Base], the checks of names of worktrees,
      agents and tasks ([cli/worktree.go], [logrouter/router.go]) and what they
      mean for paths. [Bufio]: [bufio.Writer] over any writer.
    - [Redis]: the class [RedisServer], the laws of the server that the scripts
      rely on, with the instance [mem_redis]; Lua scripts as trees of commands.
      [Net]: the world of a client, [IO], with delays, other clients' scripts
      and lost requests or replies at every round trip.

    Claims of tasks and the fleet:

    - [Breaker], for [circuitbreaker/breaker.go]: the breaker's methods as
      critical sections, [Execute] as the pair [beforeRequest]/[afterRequest]
      that other calls interleave with.
    - [KvClient], for [kv/scripts.go] and [kv/client.go]: the four scripts
      (claim, release, heartbeat, complete) and the client's operations behind
      the breaker.
    - [StaleDetector], for [kv/stale.go] and [kv/reconcile.go]: election,
      detection, clean-up and the reset of tasks in the tracker.
    - [FleetStore], for [webui/fleet]: claims with a time to live,
      registrations, cached results and the timeout enforcer.
    - [FleetHandlers], for [webui/fleet_handlers.go] and [jwt.go]: the endpoints
      over the store, a client of the daemon and the tokens of workers.
    - [FleetKeys], for [webui/fleet/signing_key.go] and its use in
      [cli/serve.go]: the key that servers share to sign those tokens.
    - [RateLimit], for [webui/fleet_ratelimit.go] and [ratelimit.go]: the sliding
      window of registrations, and token buckets for each address.

    The daemon and its agents:

    - [DaemonConfig], for [cli/daemon_config.go] and [daemon_role_merge.go]: the
      layers of settings and roles. [ConfigCheck], for [config_validate.go],
      [config_migrate.go] and [config.go]: validation with every report,
      migration with its backup, the choice of a back end.
    - [TaskRouter], for [cli/taskfilter.go], [task_router.go] and
      [automode_poller.go]: which issue an agent takes, and when it looks again.
    - [AgentErr], for [agenterr]: the classification of a failed run from the
      end of its log, with the regular expressions and a matcher.
    - [Concurrency], for [cli/concurrency.go]: slots per role, as a system of
      goroutines around a condition variable.
    - [Supervisor], for [cli/daemon.go], [daemon_restart.go],
      [daemon_backend.go], [daemon_classify.go] and [daemon_epic.go]: one
      agent's loop over the class [AgentHost] (slots, git, tracker, processes).
    - [Recovery], for [cli/recover.go], [checkpoint.go] and what
      [daemon_classify.go], [claim.go] and [complete.go] do with checkpoints: what
      a failed run leaves, and how the next one gets it.
    - [Spawn], for [cli/daemon_spawn.go]: the command and the environment of an
      agent, and how the agent reads its constraints back.
    - [AutoMode], for [cli/automode.go] and the loop of [automode_tmux.go]: an
      agent's own loop over tasks and sessions, over [AutoEnv] and [TmuxEnv].
    - [TmuxSession], for the rest of [automode_tmux.go] and
      [signal_dir_unix.go]: the command lines of a session, the loop that shows its
      log, and the signal by which an agent says that it is done.
    - [Backends], for [cli/backend*.go] and [process_guard.go]: how each program
      is started, plug-ins on the search path, readiness, the guard of a process.
    - [WorktreeLock], for [cli/lock.go] and [lockfile/process_unix.go]: the lock
      of a worktree, as processes that make one system call at a time.
    - [DaemonLife], for [cli/daemon_cmd.go], [daemon_health.go] and the start of
      [daemon.go]: that one daemon runs, how it is asked to stop, its snapshot,
      and the watchdog of silent agents. [Monitor], for [cli/monitor.go]: the
      queues of tasks and the problems that it reports.
    - [EnvSubst], for [cli/config_envsubst.go] and [envfilter.go]: environment
      variables in configuration files and in spawned processes. [Secrets], for
      [cli/secrets.go] and [secrets_resolve.go]: references to secrets in
      those files, and the masking of their values.
    - [Usage], for [usage] and [cli/usage_cmd.go], [serve_usage.go]: the records of
      tokens and costs that several processes append to one file.

    Git:

    - [GitCalls], for [cli/git.go], [deps.go] and [exec.go]: a monad of calls of
      outside programs that records them, over the class [Shell].
    - [GitFlow], for [cli/merge.go], [git_api.go], [push.go], [pull.go],
      [sync.go], [pr.go], [reset.go]: the workflows, each undone with [defer].
    - [Resolver], for [cli/worktree.go]: where worktrees are, and which branch is
      the integration branch. [Workspaces], for [cli/workspace_cmd.go]: a
      directory with a worktree of each repository, made and removed.
    - [GitApi], for [webui/handlers_git.go] and [cli/gitops_impl.go]: the workflows
      over HTTP. [DaemonGit], for [cli/daemon_branch.go] and [daemon_pr.go]:
      the branch of an epic and its request.

    Logs, events and metrics:

    - [Rotation], for [logrouter/rotation.go]: a file system in which every call
      can fail ([Files]), the abstract rotated log ([Log]), the rotating writer.
    - [LogRouter], for [logrouter/router.go] and [watcher.go]: an agent's output
      in its own log and in the log of the current task.
    - [EventLog], for [events/jsonl_writer.go]: a buffered, rotated file a day.
    - [Metrics], for [events/event.go], [emitter.go], [metrics.go] and
      [metrics_query.go]: the bus, the store and the snapshot.
    - [Observability], for [events/replay.go] and
      [cli/serve_observability.go]: the replay of the files and pages of events.
    - [FileAccess], for [webui/handlers_files.go] and [log_open_unix.go]: path
      checks and files over a tree with symbolic links that others change.
    - [LogStreamer], for [webui/log_streamer.go] and [handlers_logs.go]: the last
      lines of a log, pages before a line, and following a log.

    The web server and its daemon connection:

    - [Pool], for [webui/daemon]: the connection pool as a system of goroutines.
    - [Rpc], for [rpc/client.go] and [protocol.go]: one connection as lines out
      and lines in. [DaemonProbe], for [lockfile/lock.go],
      [rpc/socket_path.go] and [rpc/client.go]: finding a daemon and its socket.
    - [SseHub], for [webui/sse.go]: the hub of the event stream as a system of
      clients, broadcasters and the hub's loop. [Subscription], for
      [webui/subscription.go]: the loops that feed it from the daemon.
    - [WebAuth], for [webui/auth.go], [cors.go], [security.go],
      [fleet_auth.go], [jwt.go] and [routes.go]: middlewares and routes.
    - [Terminal], for [webui/terminal.go], [terminal_auth.go] and the handlers of
      terminals: one-time tokens and sessions of tmux. [TabMeta], for
      [webui/tabmeta] and its handlers: the tabs' labels and order in Redis.
    - [DaemonCalls], for the calls of [rpc/protocol.go] and [client.go], the
      interface between the server and the daemon; [IssueApi], for
      [webui/handlers_issues*.go], [handlers_deps.go], [handlers_comments.go],
      [handlers_ready.go], [handlers_graph.go]: the handlers of issues over it.
    - [IssueTypes], for [types]: issues, validation, content hash, identifiers,
      and the exclusive lock of a database.

    ** How the components meet

    [KvClient] and [StaleDetector] run their scripts over [Net] on any
    [RedisServer], and share its keys: what [claimTask] writes is what the
    detector reads and cleans. [KvClient] passes through a [Breaker]; [Pool]'s
    errors are classified for another. [FleetHandlers] calls [FleetStore], and
    the tokens it signs are what [WebAuth] checks. [Supervisor] uses the
    settings of [DaemonConfig], classifies ends of runs by [AgentErr], and takes
    the slots that [Concurrency] hands out through [AgentHost]; the
    environment that [Spawn] gives an agent is read by [TaskRouter] in the
    agent. [LogRouter] is [Bufio] over [Rotation] under names checked by [Paths];
    [EventLog] uses the same file system and its own rotation. [Observability]
    replays through [Scanner] into [Metrics] what [EventLog] wrote.
    [LogStreamer]'s handlers use the path checks of [FileAccess]. [Recovery]
    writes what [Supervisor] hands to the next run, and frees the locks of
    [WorktreeLock]. [IssueApi] asks through [DaemonCalls], whose client is that
    of [Rpc], on connections from a pool that promises what [Pool] proves.
    [GitFlow], [GitApi], [DaemonGit], [Resolver], [Workspaces] and [TmuxSession]
    are programs of [GitCalls]; [GitApi] implements its interface [GitOps] by
    [GitFlow]. [Secrets] runs on the YAML trees of [EnvSubst] and the files of
    [FileAccess]; [ConfigCheck] checks what [DaemonConfig] merges.

    What the source leaves to other programs, or to code that is not in the
    repository, enters as a class or an argument, and the theorems name what
    they rely on: [AgentHost], [AutoEnv], [TmuxEnv], [Tmux], [Daemon] with the
    promises [MutationServer] and [IssueServer], [Server] (the daemon behind one
    connection), [FleetClaimClient], [DataCodecs], [JsonCodec] and [JsonBody]
    (JSON: what was marshalled is read back), [Base64], [Jwt], [Float64],
    [LuaNumbers], [TimeText], [Limiter] (a token bucket), [DaemonClient] and
    [DaemonPool] with the texts [AnswerJson] and [ListJson], [UsageJson],
    [EpicJson], [Yaml], [MigrationHost], [WorkspaceHost], [Beads], [GitTools] and
    [Tracker] (what recovery calls), [Shell] (git, gh, tmux and the agents),
    [Repository], [WorktreeLaws] and [HubLaws] (what is relied on of git and gh),
    [GitOps]. Each is instantiated where a theorem with such a hypothesis is
    applied.

    ** What the theorems show

    - Mutual exclusion: a worker that neither completes its task nor is cleaned up
      from it owns it until its lease expires ([lease_exclusion]); one daemon
      supervises at a time ([one_daemon]); no role runs
      more agents than its limit ([slots_respected]); no connection is used
      twice ([pool_exact]), and every handler gives back the one it took
      ([connections_given_back]); while processes live one of them holds a
      worktree ([lock_exclusive]); servers that share a Redis share one signing
      key ([signing_key_shared]); an epic gets one request
      ([one_request_per_branch]).
    - Confinement: where there is [/proc], a file read through the web server is
      inside the worktree when the kernel is asked for its name, whatever others
      do ([read_stays_inside]); files written when nobody
      interferes ([write_stays_inside]); the handlers without authentication are
      the listed ones ([open_endpoints_exact]); a terminal's token is accepted
      once ([terminal_token_once]); pushing, pulling and opening a request run
      only commands that force and reset nothing ([nothing_forced]); known
      secrets do not appear in a masked text ([secrets_masked]); registrations
      within a window are bounded ([rate_bounded]).
    - Refinement: the rotating writer, the event log and the log router
      implement abstract logs ([rotating_refines_log], [jsonl_refines_logs],
      [router_refines_logs]); the checkpoint file implements a cell
      ([checkpoint_refines_cell]); the subscription implements a delivery from the
      daemon's bounded buffer in order and at most once ([subscription_refines]).
    - Functional behaviour of the operations on every branch: claims and
      heartbeats ([claimTask_functional], [heartbeat_functional]), a
      detector's cycle ([cycle_recovers]), the fleet's endpoints
      ([registered_worker_passes], [done_functional], [claim_takes_first]), task
      choice ([SelectBestTask_best]), substitution ([ExpandEnvVars_spec]),
      validation of issues ([ValidateWithCustom_functional]), the counts of the
      auto mode ([completions_exact]), reading logs ([log_tail_functional]), the
      ready issues and the board ([ready_exact], [board_exact]), the monitor's
      queues ([queues_exact]), the watchdog ([watchdog_exact]), references to
      secrets ([references_replaced]), plug-ins ([discovery_exact]), the order of
      tabs ([every_session_has_one_tab]), the integration branch
      ([integration_branch_closest]), the log shown while a session runs
      ([log_shown_whole]).
    - Errors: a failed run hands its work to the next ([failed_run_hands_over]);
      the worktrees of a workspace that fails are each asked to be removed
      ([worktrees_all_or_none]); a
      migration keeps the file or its backup ([migration_loses_nothing]); a
      configuration that is accepted has no problem of the listed kinds
      ([daemon_config_accepted]); what a workflow changed is undone
      ([push_undone], [detached_never_taken], [conflict_stays_on_target]).
    - Accounting: every mutation given to the hub is taken by its loop, waiting or
      counted ([mutations_accounted]; what a client's full buffer drops is not
      counted by the code); nothing makes the hub panic ([hub_safe]).
    - Progress and termination: an agent that keeps failing is given up after
      exactly the configured number of restarts ([counted_failures_stop]); the
      auto mode ends within a computed number of rounds ([loop_terminates]); a
      client that follows a log gets all of it ([follow_complete]).
    - Bounds: back-off without overflow ([computeBackoff_functional]), counters
      of the breaker ([breaker_invariant]), sessions of the auto mode
      ([sessions_bounded]).
    - Round trips: what is written to the event log, with no rotation and closed, is
      what the metrics are computed from ([replay_recovers]); a spawned agent routes as the daemon
      would ([spawned_agent_routes_alike]); the shell reads a command line back as
      the words it was made of ([commands_read_back]); records of usage survive
      torn writes ([usage_survives]); the content hash does not depend on
      the order of lists ([content_hash_canonical]).
    - Limits of the code, each a theorem on a run of it: an answer that comes
      late shifts every later one ([answers_match_or_shift]), a stale lock lets
      two processes in ([stale_lock_two_holders]), a client's clean-up takes a
      new daemon's socket ([unplugged_daemon]), no result of the fleet is ever
      recorded ([nothing_completed]), the session shown for an agent can be
      another's ([latest_agent_session]). Plain theorems beside them are of
      the same kind: [invalid_id_wedges_client], [reclaimed_task_is_reset],
      [enforcer_never_fires], [close_races_panic], [content_hash_ambiguous],
      [rotation_loses_text], [leftover_lock_counts], [refused_task_forgets] and
      others.

    ** Conventions, bounds and fuel

    Times are nanoseconds in [Z], Redis expiries milliseconds; a clock is read
    where the code reads it. Go's [int] is 64 bits wide, and its operations wrap
    wherever a value can come near the ends; lengths of lists in memory cannot.
    Strings are bytes; case folding and the regular expressions' classes are
    exact on ASCII. Goroutines are systems of atomic steps with explicit
    interleavings, one step per critical section or channel operation. Where
    other processes act between two system calls of a function, the function
    takes what they do as an argument ([others], [at_]), and theorems quantify
    over it.

    Loops over lists are structural. The supervisor's loop runs over the list of
    what the agent's runs do, one element per iteration, and a run of the model
    that uses it up is told apart from one that ended. The fuel of the regular
    expression matcher is the length of the text ([MatchString_spec] shows it is
    enough), and so is that of the loops that read a log backwards; the fuel of
    the auto mode's loop is a bound that [loop_terminates] computes. Resolving a
    path follows as many links as Linux and Go do, 40 and 255.

    ** Not modelled

    The TypeScript front end and [third_party] (vendored; of the daemon there only
    the buffer of mutations, for what [Subscription] relies on). The codecs of JSON,
    YAML and TOML, the token and cryptographic libraries, fsnotify and the
    OpenTelemetry exporter, which calls its library: they are classes or
    arguments where they matter. What is only shown (the displays of status,
    monitor and lists, the tables of the command line, templates of prompts) and
    what only arranges the other parts: the setting-up of a machine (doctor,
    init, setup), the parsing of a command's arguments, the server's start and
    shutdown, the configuration and editor pages. The variants for Windows. *)
From Stdlib Require Export Ascii.
From stdpp Require Export base gmap sets list strings sorting pretty relations.
From Stdlib Require Export ZArith Lia.


Declare Scope go_scope.
Delimit Scope go_scope with go.
Create HintDb go discriminated.

(** ** Machine integers: Go's [int] and [int64] are 64-bit two's complement. *)
Module GoInt.
Definition min_int64 : Z := - 2 ^ 63.
Definition max_int64 : Z := 2 ^ 63 - 1.

(** Wrap-around of an exact result to a signed 64-bit value. *)
Definition wrap64 (z : Z) : Z := (z + 2 ^ 63) mod 2 ^ 64 - 2 ^ 63.

Definition in_int64 (z : Z) : Prop := (min_int64 <= z <= max_int64)%Z.

Definition add64 (x y : Z) : Z := wrap64 (x + y).
Definition sub64 (x y : Z) : Z := wrap64 (x - y).
Definition mul64 (x y : Z) : Z := wrap64 (x * y).

(** [x++] and [x--]. *)
Definition inc64 (x : Z) : Z := add64 x 1.
Definition dec64 (x : Z) : Z := sub64 x 1.

(** [x << n] on an [int]: bits shifted out are lost. *)
Definition shl64 (x n : Z) : Z := wrap64 (Z.shiftl x n).

(** [time.Time.Sub] and [time.Since] saturate at the ends of [Duration]. *)
Definition sat64 (z : Z) : Z := Z.max min_int64 (Z.min max_int64 z).
Definition time_sub (t u : Z) : Z := sat64 (t - u).

#[export] Instance in_int64_dec z : Decision (in_int64 z).
Proof. unfold in_int64. apply _. Defined.

Lemma wrap64_in z : in_int64 (wrap64 z).
Proof.
  unfold in_int64, wrap64, min_int64, max_int64.
  pose proof (Z.mod_pos_bound (z + 2 ^ 63) (2 ^ 64) ltac:(lia)). lia.
Qed.

Lemma wrap64_id z : in_int64 z -> wrap64 z = z.
Proof.
  unfold in_int64, wrap64, min_int64, max_int64. intros H.
  rewrite Z.mod_small; lia.
Qed.

Lemma add64_id x y : in_int64 (x + y) -> add64 x y = (x + y)%Z.
Proof. apply wrap64_id. Qed.

Lemma sub64_id x y : in_int64 (x - y) -> sub64 x y = (x - y)%Z.
Proof. apply wrap64_id. Qed.

Lemma inc64_id x : (min_int64 <= x < max_int64)%Z -> inc64 x = (x + 1)%Z.
Proof. intros ?. apply add64_id. unfold in_int64, min_int64, max_int64 in *. lia. Qed.

Lemma dec64_id x : (min_int64 < x <= max_int64)%Z -> dec64 x = (x - 1)%Z.
Proof. intros ?. apply sub64_id. unfold in_int64, min_int64, max_int64 in *. lia. Qed.

Lemma inc64_in x : in_int64 (inc64 x).
Proof. apply wrap64_in. Qed.

(** Saturation never changes a comparison with a representable bound. *)
Lemma sat64_ge d z : (min_int64 < d <= max_int64)%Z -> (d <= sat64 z)%Z <-> (d <= z)%Z.
Proof. unfold in_int64, sat64, min_int64, max_int64. lia. Qed.
End GoInt.
Export GoInt.

Ltac int64_lia := unfold in_int64, min_int64, max_int64 in *; lia.

#[export] Hint Resolve wrap64_in inc64_in : go.

(** ** Go errors: [errors.New] sentinels, formatted errors, [%w] wrapping, and
    the values of the standard library that implement [net.Error]. *)
Inductive goerror : Type :=
| Sentinel (name : string)
| Msg (text : string)
| NetError (text : string)
| Wrapf (prefix : string) (cause : goerror) (suffix : string).

#[export] Instance goerror_eq_dec : EqDecision goerror.
Proof. solve_decision. Defined.

Module GoErr.
Local Open Scope string_scope.

(** The text [Error()] returns. *)
Fixpoint error_text (e : goerror) : string :=
  match e with
  | Sentinel s | Msg s | NetError s => s
  | Wrapf p c s => p +:+ error_text c +:+ s
  end.

(** [errors.Is]: the target occurs in the chain. *)
Fixpoint errors_is (e target : goerror) : bool :=
  bool_decide (e = target) ||
  match e with
  | Wrapf _ c _ => errors_is c target
  | _ => false
  end.

Definition context_canceled : goerror := Sentinel "context canceled".
Definition context_deadline_exceeded : goerror := Sentinel "context deadline exceeded".

(** [errors.As] with a [net.Error] target: [context.DeadlineExceeded] has the
    [Timeout] and [Temporary] methods, hence implements the interface. *)
Fixpoint as_net_error (e : goerror) : bool :=
  match e with
  | NetError _ => true
  | Sentinel s => bool_decide (e = context_deadline_exceeded)
  | Msg _ => false
  | Wrapf _ c _ => as_net_error c
  end.

Lemma errors_is_wrap p c s t : errors_is c t = true -> errors_is (Wrapf p c s) t = true.
Proof. intros H. simpl. rewrite H. apply orb_true_r. Qed.
End GoErr.
Export GoErr.

(** ** Results of fallible functions *)
Inductive res (A : Type) : Type :=
| Ok (a : A)
| Err (e : goerror).
Arguments Ok {A} a.
Arguments Err {A} e.

#[export] Instance res_eq_dec {A} `{EqDecision A} : EqDecision (res A).
Proof. solve_decision. Defined.

Definition res_bind {A B} (r : res A) (k : A -> res B) : res B :=
  match r with
  | Ok a => k a
  | Err e => Err e
  end.

Notation "'let?' x ':=' m 'in' k" := (res_bind m (fun x => k))
  (at level 10, x binder, m at level 100, k at level 200) : go_scope.

(** ** Strings *)
Module GoString.
Local Open Scope string_scope.

Definition has_prefix (s p : string) : bool := String.prefix p s.

(** [strings.Index]: the position of the first occurrence, [None] for -1. *)
Definition index_of (s sub : string) : option nat := String.index 0 sub s.

Definition contains (s sub : string) : bool :=
  match index_of s sub with Some _ => true | None => false end.

Fixpoint contains_byte (s : string) (c : Ascii.ascii) : bool :=
  match s with
  | EmptyString => false
  | String a s' => bool_decide (a = c) || contains_byte s' c
  end.

(** [strings.ContainsAny] for a set of ASCII characters. *)
Fixpoint contains_any (s chars : string) : bool :=
  match s with
  | EmptyString => false
  | String a s' => contains_byte chars a || contains_any s' chars
  end.

(** [s[:n]] and [s[n:]] for an index in range. *)
Fixpoint str_take (n : nat) (s : string) : string :=
  match n, s with
  | S n', String a s' => String a (str_take n' s')
  | _, _ => ""
  end.
Fixpoint str_drop (n : nat) (s : string) : string :=
  match n, s with
  | S n', String _ s' => str_drop n' s'
  | _, _ => s
  end.

(** [strings.IndexByte]. *)
Fixpoint index_byte (s : string) (c : Ascii.ascii) : option nat :=
  match s with
  | EmptyString => None
  | String a s' => if bool_decide (a = c) then Some 0 else S <$> index_byte s' c
  end.

(** [len(s)]. *)
Definition len (s : string) : Z := Z.of_nat (String.length s).

(** Go compares strings byte by byte. *)
Definition str_lt (s t : string) : bool :=
  match String.compare s t with Lt => true | _ => false end.

Definition itoa (n : Z) : string := pretty n.

(** [%q] for text without control characters beyond tab and newline. *)
Definition dquote : string := String (Ascii.ascii_of_nat 34) "".
Definition quote (s : string) : string := dquote +:+ s +:+ dquote.

(** [unicode.IsSpace] on ASCII, and [strings.TrimSpace]. *)
Definition is_space (c : ascii) : bool := let n := nat_of_ascii c in (9 <=? n)%nat && (n <=? 13)%nat || (n =? 32)%nat.
Fixpoint trim_left (s : string) : string :=
  match s with EmptyString => "" | String c s' => if is_space c then trim_left s' else s end.
Fixpoint trim_right (s : string) : string :=
  match s with
  | EmptyString => ""
  | String c s' => match trim_right s' with EmptyString => if is_space c then "" else String c "" | t => String c t end
  end.
Definition TrimSpace (s : string) : string := trim_right (trim_left s).

(** [strings.ToUpper] on ASCII. *)
Definition upper (c : ascii) : ascii :=
  let n := nat_of_ascii c in if ((97 <=? n) && (n <=? 122))%nat then ascii_of_nat (n - 32) else c.
Fixpoint ToUpper (s : string) : string :=
  match s with EmptyString => ""%string | String c s' => String (upper c) (ToUpper s') end.

Lemma contains_any_app s t cs :
  contains_any (s +:+ t) cs = contains_any s cs || contains_any t cs.
Proof. induction s as [|a s IH]; simpl; [done|]. by rewrite IH, orb_assoc. Qed.

Lemma str_take_drop n s : str_take n s +:+ str_drop n s = s.
Proof.
  revert s; induction n as [|n IH]; intros [|a s]; simpl; [done..|].
  change (String a (str_take n s +:+ str_drop n s) = String a s). by rewrite IH.
Qed.

Lemma append_assoc s t u : (s +:+ t) +:+ u = s +:+ (t +:+ u).
Proof.
  induction s as [|a s IH]; [done|].
  change (String a ((s +:+ t) +:+ u) = String a (s +:+ (t +:+ u))). by rewrite IH.
Qed.

Lemma length_append s t : String.length (s +:+ t) = String.length s + String.length t.
Proof.
  induction s as [|a s IH]; [done|].
  change (S (String.length (s +:+ t)) = S (String.length s + String.length t)).
  by rewrite IH.
Qed.

Lemma len_nonneg s : (0 <= len s)%Z.
Proof. apply Nat2Z.is_nonneg. Qed.
Lemma len_app s t : len (s +:+ t) = (len s + len t)%Z.
Proof. unfold len. rewrite length_append. lia. Qed.

Lemma append_inv_len s1 s2 t1 t2 :
  String.length s1 = String.length s2 -> s1 +:+ t1 = s2 +:+ t2 -> s1 = s2 /\ t1 = t2.
Proof.
  revert s2; induction s1 as [|a s1 IH]; intros [|b s2] Hl E; try discriminate Hl; [done|].
  change (String a (s1 +:+ t1) = String b (s2 +:+ t2)) in E.
  injection E as -> E. injection Hl as Hl. by destruct (IH s2 Hl E) as [-> ->].
Qed.

Lemma append_cons c s t : String c s +:+ t = String c (s +:+ t).
Proof. done. Qed.
Lemma append_nil_l t : "" +:+ t = t.
Proof. done. Qed.
Ltac str_simpl := repeat (simpl; rewrite ?append_cons, ?append_nil_l, ?append_assoc).

Lemma str_take_length n s : n <= String.length s -> String.length (str_take n s) = n.
Proof.
  revert s; induction n as [|n IH]; intros [|a s] H; simpl in *; [done..|lia|]. f_equal. apply IH. lia.
Qed.
Lemma str_take_append s t : str_take (String.length s) (s +:+ t) = s.
Proof. induction s as [|c s IH]; [by destruct t|]. str_simpl. by rewrite IH. Qed.
Lemma str_drop_append s t : str_drop (String.length s) (s +:+ t) = t.
Proof. induction s as [|c s IH]; [by destruct t|]. str_simpl. done. Qed.

Lemma append_empty s : (s +:+ "" = s)%string.
Proof. induction s as [|a s IH]; [done|]. rewrite append_cons. by rewrite IH. Qed.

Lemma str_take_bound n s : String.length (str_take n s) <= n.
Proof. revert s. induction n as [|n IH]; intros [|a s]; simpl; [lia..|]. specialize (IH s). lia. Qed.

Lemma str_take_all n s : String.length s <= n -> str_take n s = s.
Proof. revert n. induction s as [|c s IH]; intros [|n] Hn; simpl in *; [done..|lia|]. by rewrite IH by lia. Qed.

Lemma str_drop_all n s : String.length s <= n -> str_drop n s = "".
Proof. revert n. induction s as [|c s IH]; intros [|n] Hn; simpl in *; [done..|lia|]. apply IH. lia. Qed.

Lemma str_take_add a b s : str_take (a + b) s = str_take a s +:+ str_take b (str_drop a s).
Proof.
  revert s. induction a as [|a IH]; intros s; [by destruct s|]. destruct s as [|c s]; [by destruct b|].
  simpl. by rewrite append_cons, IH.
Qed.

Lemma str_drop_add a b s : str_drop (a + b) s = str_drop b (str_drop a s).
Proof. revert s. induction a as [|a IH]; intros s; [done|]. destruct s as [|c s]; [by destruct b|]. apply IH. Qed.

Lemma length_str_drop n s : String.length (str_drop n s) = String.length s - n.
Proof. revert n. induction s as [|c s IH]; intros [|n]; simpl; [done..|]. apply IH. Qed.

Lemma index_byte_spec s c n :
  index_byte s c = Some n <->
  exists p v, s = p +:+ String c v /\ String.length p = n /\ contains_byte p c = false.
Proof.
  revert n. induction s as [|a s IH]; intros n; simpl.
  - split; [done|]. intros (p & v & E & _). by destruct p.
  - case_bool_decide as Ha; [subst a|].
    + split; [intros [= <-]; by exists "", s|]. intros ([|b p] & v & E & <- & Hp); [done|].
      change (String c s = String b (p +:+ String c v)) in E. injection E as <- _. simpl in Hp.
      by rewrite bool_decide_true in Hp.
    + split.
      * destruct (index_byte s c) as [m|] eqn:E; [|done]. intros [= <-].
        destruct (proj1 (IH m) eq_refl) as (p & v & -> & Hl & Hp).
        exists (String a p), v. rewrite append_cons. simpl. by rewrite bool_decide_false, Hl.
      * intros ([|b p] & v & E & <- & Hp); [by injection E|].
        change (String a s = String b (p +:+ String c v)) in E. injection E as <- ->. simpl in *.
        apply orb_false_iff in Hp as [_ Hp].
        by rewrite (proj2 (IH (String.length p))) by eauto.
Qed.

Lemma has_prefix_spec s p : has_prefix s p = true <-> exists rest, s = p +:+ rest.
Proof.
  unfold has_prefix. revert s. induction p as [|c p IH]; intros s.
  - split; [by exists s|by destruct s].
  - destruct s as [|d s]; simpl; [split; [done|by intros [r E]]|].
    destruct (ascii_dec c d) as [->|Hcd].
    + rewrite IH. split; intros [r Hr]; exists r.
      * change (String d s = String d (p +:+ r)). by rewrite Hr.
      * change (String d s = String d (p +:+ r)) in Hr. by injection Hr.
    + split; [done|]. intros [r Hr]. change (String d s = String c (p +:+ r)) in Hr. by injection Hr as ->.
Qed.

(** [strings.Contains]: a text contains its end, and only texts whose bytes are its own. *)
Lemma contains_byte_app a b c : contains_byte (a +:+ b) c = contains_byte a c || contains_byte b c.
Proof. induction a as [|x a IH]; [done|]. change (contains_byte (String x (a +:+ b)) c = contains_byte (String x a) c || contains_byte b c). cbn [contains_byte]. by rewrite IH, orb_assoc. Qed.
Lemma contains_suffix s t : contains (s +:+ t) t = true.
Proof.
  unfold contains, index_of. induction s as [|c s IH].
  - change ("" +:+ t)%string with t. assert (String.prefix t t = true) as E by (apply has_prefix_spec; exists ""%string; by rewrite append_empty).
    destruct t as [|c t]; [done|]. cbn [String.index]. by rewrite E.
  - change (String c s +:+ t) with (String c (s +:+ t)). cbn [String.index]. destruct (String.prefix t (String c (s +:+ t))); [done|].
    by destruct (String.index 0 t (s +:+ t)).
Qed.
Lemma contains_bytes s t c : contains s t = true -> contains_byte t c = true -> contains_byte s c = true.
Proof.
  intros H Hc. unfold contains, index_of in H. induction s as [|x s IH]; [by destruct t|].
  cbn [String.index] in H. destruct (String.prefix t (String x s)) eqn:E.
  - apply has_prefix_spec in E as [rest ->]. by rewrite contains_byte_app, Hc.
  - cbn [contains_byte]. rewrite IH; [apply orb_true_r|]. by destruct (String.index 0 t s).
Qed.

(** A common suffix can be cancelled. *)
Lemma append_inj_r s1 s2 t : s1 +:+ t = s2 +:+ t -> s1 = s2.
Proof.
  intros E. assert (String.length (s1 +:+ t) = String.length (s2 +:+ t)) as L by congruence.
  rewrite !length_append in L. by destruct (append_inv_len s1 s2 t t ltac:(lia) E).
Qed.

(** [str_lt] is a strict total order. *)
Lemma str_lt_irrefl s : str_lt s s = false.
Proof.
  unfold str_lt. pose proof (String.compare_antisym s s) as E.
  by destruct (String.compare s s).
Qed.

Lemma ascii_compare_lt_trans a b c :
  Ascii.compare a b = Lt -> Ascii.compare b c = Lt -> Ascii.compare a c = Lt.
Proof. unfold Ascii.compare. rewrite !N.compare_lt_iff. lia. Qed.

Lemma ascii_compare_refl a : Ascii.compare a a = Eq.
Proof. unfold Ascii.compare. apply N.compare_refl. Qed.

Lemma str_compare_trans s t u :
  String.compare s t = Lt -> String.compare t u = Lt -> String.compare s u = Lt.
Proof.
  revert t u; induction s as [|a s IH]; intros [|b t] [|c u] H1 H2; simpl in *; try congruence.
  destruct (Ascii.compare a b) eqn:E1; try congruence.
  - apply Ascii.compare_eq_iff in E1 as ->. destruct (Ascii.compare b c) eqn:E2; try congruence. eauto.
  - destruct (Ascii.compare b c) eqn:E2; try congruence.
    + apply Ascii.compare_eq_iff in E2 as ->. by rewrite E1.
    + by rewrite (ascii_compare_lt_trans a b c).
Qed.

Lemma str_lt_trans s t u : str_lt s t = true -> str_lt t u = true -> str_lt s u = true.
Proof.
  unfold str_lt. destruct (String.compare s t) eqn:E1, (String.compare t u) eqn:E2; try done.
  by rewrite (str_compare_trans s t u).
Qed.

Lemma str_lt_total s t : str_lt s t = false -> str_lt t s = false -> s = t.
Proof.
  unfold str_lt. rewrite (String.compare_antisym t s).
  destruct (String.compare s t) eqn:E; try done. intros _ _. by apply String.compare_eq_iff in E.
Qed.

Lemma str_lt_negtrans s t u : str_lt s t = false -> str_lt t u = false -> str_lt s u = false.
Proof.
  intros H1 H2. destruct (str_lt s u) eqn:E; [|done].
  destruct (str_lt t s) eqn:E1.
  - pose proof (str_lt_trans _ _ _ E1 E). congruence.
  - by rewrite (str_lt_total _ _ H1 E1) in E; congruence.
Qed.
(** [strings.Split] and [strings.Join] for a one-byte separator. *)
Fixpoint Split (c : ascii) (s : string) : list string :=
  match s with
  | EmptyString => [""%string]
  | String a s' =>
      if bool_decide (a = c) then ""%string :: Split c s'
      else match Split c s' with
           | [] => [String a ""]
           | w :: l => String a w :: l
           end
  end.

Fixpoint Join (c : ascii) (l : list string) : string :=
  match l with
  | [] => ""
  | [w] => w
  | w :: l' => w +:+ String c (Join c l')
  end.

Lemma Split_none c s : contains_byte s c = false -> Split c s = [s].
Proof.
  induction s as [|a s IH]; simpl; [done|]. intros [Ha Hs]%orb_false_iff. apply bool_decide_eq_false in Ha.
  by rewrite bool_decide_false, (IH Hs).
Qed.

Lemma Split_cut c w s : contains_byte w c = false -> Split c (w +:+ String c s) = w :: Split c s.
Proof.
  induction w as [|a w IH]; intros Hw; [rewrite append_nil_l; simpl; by rewrite bool_decide_true|].
  apply orb_false_iff in Hw as [Ha Hw]. apply bool_decide_eq_false in Ha.
  rewrite append_cons. simpl. by rewrite bool_decide_false, (IH Hw).
Qed.

Lemma Split_Join c l : l <> [] -> Forall (fun w => contains_byte w c = false) l -> Split c (Join c l) = l.
Proof.
  intros Hl HF. induction HF as [|w l Hw HF IH]; [done|]. destruct l as [|w' l]; [by apply Split_none|].
  change (Join c (w :: w' :: l)) with (w +:+ String c (Join c (w' :: l))). rewrite Split_cut by done. by rewrite IH.
Qed.

Lemma Join_empty c l : Join c l = ""%string -> l = [] \/ l = [""%string].
Proof.
  destruct l as [|w [|w' l]]; [by left|simpl; intros ->; by right|]. simpl. by destruct w.
Qed.

(** [strings.LastIndexByte]. *)
Fixpoint last_index_byte (s : string) (c : ascii) : option nat :=
  match s with
  | EmptyString => None
  | String a s' =>
      match last_index_byte s' c with
      | Some i => Some (S i)
      | None => if bool_decide (a = c) then Some O else None
      end
  end.
Lemma last_index_byte_none s c : contains_byte s c = false -> last_index_byte s c = None.
Proof. induction s as [|a s IH]; [done|]. simpl. rewrite orb_false_iff. intros [-> H]. by rewrite IH. Qed.
Lemma last_index_byte_app s c t : contains_byte t c = false -> last_index_byte (s +:+ String c t) c = Some (String.length s).
Proof.
  intros H. induction s as [|a s IH]; rewrite ?append_nil_l, ?append_cons; cbn [last_index_byte].
  - by rewrite last_index_byte_none, bool_decide_true.
  - by rewrite IH.
Qed.
Lemma last_index_byte_cut s c i : last_index_byte s c = Some i ->
  s = str_take i s +:+ String c (str_drop (S i) s) /\ contains_byte (str_drop (S i) s) c = false.
Proof.
  revert i. induction s as [|a s IH]; intros i; [done|]. cbn [last_index_byte].
  destruct (last_index_byte s c) as [j|] eqn:E.
  - intros [= <-]. destruct (IH j eq_refl) as [H1 H2]. split; [|done]. cbn [str_take str_drop]. rewrite append_cons. by f_equal.
  - case_bool_decide as Ha; [|done]. intros [= <-]. subst a. split; [done|]. cbn [str_drop].
    clear IH. revert E. induction s as [|b s IH]; [done|]. cbn [last_index_byte contains_byte].
    destruct (last_index_byte s c); [done|]. case_bool_decide; [done|]. intros _. by apply IH.
Qed.
Lemma last_sep_inj c a b x y :
  contains_byte x c = false -> contains_byte y c = false -> a +:+ String c x = b +:+ String c y -> a = b /\ x = y.
Proof.
  intros Hx Hy E. pose proof (last_index_byte_app a c x Hx) as H. rewrite E, last_index_byte_app in H by done.
  injection H as H. apply append_inv_len in E as [-> [= ->]]; done.
Qed.

Fixpoint no_space (s : string) : bool :=
  match s with EmptyString => true | String c s' => negb (is_space c) && no_space s' end.
Lemma TrimSpace_line s : no_space s = true -> TrimSpace (s +:+ String "010" "") = s.
Proof.
  intros H. assert (trim_right (s +:+ String "010" "") = s) as Hr.
  { revert H. induction s as [|c s IH]; [done|]. cbn [no_space]. rewrite andb_true_iff, append_cons. intros [Hc Hs].
    cbn [trim_right]. rewrite IH by done. destruct s; [|done]. by apply negb_true_iff in Hc as ->. }
  unfold TrimSpace. destruct s as [|c s]; [done|]. cbn [no_space] in H. apply andb_true_iff in H as [Hc _].
  apply negb_true_iff in Hc. rewrite append_cons in *. cbn [trim_left]. by rewrite Hc.
Qed.
(** ** Occurrences and [strings.ReplaceAll] *)
Lemma contains_cons c s v : contains (String c s) v = has_prefix (String c s) v || contains s v.
Proof.
  unfold contains, index_of, has_prefix. cbn [String.index].
  destruct (String.prefix v (String c s)); [done|]. by destruct (String.index 0 v s).
Qed.

Lemma contains_empty_text v : v <> "" -> contains "" v = false.
Proof. by destruct v. Qed.

Lemma contains_split p v t : contains (p +:+ v +:+ t) v = true.
Proof.
  induction p as [|c p IH].
  - rewrite append_nil_l. destruct v as [|d v]; [by destruct t|].
    rewrite append_cons, contains_cons, orb_true_iff. left. apply has_prefix_spec. by exists t.
  - by rewrite append_cons, contains_cons, IH, orb_true_r.
Qed.

Lemma contains_inv s v : contains s v = true -> exists p t, s = p +:+ v +:+ t.
Proof.
  induction s as [|c s IH]; intros H; [destruct v; [by exists "", ""|done]|].
  rewrite contains_cons in H. apply orb_true_iff in H as [[t ->]%has_prefix_spec|H]; [by exists "", t|].
  destruct (IH H) as (p & t & ->). by exists (String c p), t.
Qed.

Lemma contains_sub a b s v : contains s v = true -> contains (a +:+ s +:+ b) v = true.
Proof.
  intros (p & t & ->)%contains_inv. rewrite !append_assoc, <- (append_assoc a). apply contains_split.
Qed.

(** [strings.ReplaceAll] for an [old] that is not empty; [skip] bytes belong to
    an occurrence already replaced. *)
Fixpoint replace_from (old new : string) (skip : nat) (s : string) : string :=
  match s with
  | EmptyString => ""
  | String c s' =>
      match skip with
      | S k => replace_from old new k s'
      | O =>
          if has_prefix s old then new +:+ replace_from old new (pred (String.length old)) s'
          else String c (replace_from old new 0 s')
      end
  end.
Definition ReplaceAll (s old new : string) : string := replace_from old new 0 s.

Definition has_suffix (s p : string) : bool :=
  (String.length p <=? String.length s)%nat && bool_decide (str_drop (String.length s - String.length p) s = p).
Definition TrimSuffix (s p : string) : string :=
  if has_suffix s p then str_take (String.length s - String.length p) s else s.
Definition TrimPrefix (s p : string) : string :=
  if has_prefix s p then str_drop (String.length p) s else s.

Lemma replace_from_skip old new p t : replace_from old new (String.length p) (p +:+ t) = replace_from old new 0 t.
Proof. induction p as [|c p IH]; [done|]. rewrite append_cons. exact IH. Qed.

(** The first occurrence is replaced, then those after it. *)
Lemma ReplaceAll_cut old new s : old <> "" ->
  contains s old = false /\ ReplaceAll s old new = s \/
  exists p t, s = p +:+ old +:+ t /\ contains p old = false /\ ReplaceAll s old new = p +:+ new +:+ ReplaceAll t old new.
Proof.
  intros Hne. unfold ReplaceAll. induction s as [|c s IH].
  - left. split; [by apply contains_empty_text|done].
  - rewrite contains_cons. cbn [replace_from]. destruct (has_prefix (String c s) old) eqn:E.
    + right. apply has_prefix_spec in E as [t E]. exists "", t. split; [done|]. split; [by apply contains_empty_text|].
      destruct old as [|d old]; [done|]. rewrite append_cons in E. injection E as <- ->. simpl pred.
      by rewrite replace_from_skip.
    + destruct IH as [[-> ->]|(p & t & -> & Hp & ->)]; [by left|]. right. exists (String c p), t.
      split; [done|]. split; [|done]. rewrite contains_cons, Hp, orb_false_r.
      destruct (has_prefix (String c p) old) eqn:Ep; [|done]. apply has_prefix_spec in Ep as [r Ep].
      assert (has_prefix (String c (p +:+ old +:+ t)) old = true) as E'; [|congruence].
      apply has_prefix_spec. exists (r +:+ old +:+ t). rewrite <- append_cons, Ep. apply append_assoc.
Qed.

Lemma ReplaceAll_ind old new (P : string -> string -> Prop) : old <> "" ->
  (forall s, contains s old = false -> P s s) ->
  (forall p t r, contains p old = false -> P t r -> P (p +:+ old +:+ t) (p +:+ new +:+ r)) ->
  forall s, P s (ReplaceAll s old new).
Proof.
  intros Hne H0 Hs s. induction s as [s IH] using (induction_ltof1 _ String.length). unfold ltof in IH.
  destruct (ReplaceAll_cut old new s Hne) as [[Hc ->]|(p & t & -> & Hp & ->)]; [by apply H0|]. apply Hs; [done|].
  apply IH. rewrite !length_append. destruct old; [done|simpl; lia].
Qed.

Lemma ReplaceAll_same old new s : old <> "" -> contains s old = false -> ReplaceAll s old new = s.
Proof.
  intros Hne Hs. destruct (ReplaceAll_cut old new s Hne) as [[_ ->]|(p & t & -> & _)]; [done|].
  by rewrite contains_split in Hs.
Qed.

End GoString.

(** ** UTF-8 *)
Module Utf8.
Import GoString.

Definition between (lo hi : nat) (c : ascii) : bool := let n := nat_of_ascii c in (lo <=? n)%nat && (n <=? hi)%nat.
Definition cont (c : ascii) : bool := between 128 191 c.

(** Whether the bytes are the encoding of one character: the second narrows the
    ranges that would encode too long, a surrogate, or too large a number. *)
Definition rune2 (a b : ascii) : bool := between 194 223 a && cont b.
Definition rune3 (a b c : ascii) : bool :=
  between 224 239 a &&
  (if between 224 224 a then between 160 191 b else if between 237 237 a then between 128 159 b else cont b) && cont c.
Definition rune4 (a b c d : ascii) : bool :=
  between 240 244 a &&
  (if between 240 240 a then between 144 191 b else if between 244 244 a then between 128 143 b else cont b) &&
  cont c && cont d.

(** [utf8.DecodeRuneInString]: how many bytes the first character has, 0 when the
    first byte begins none. *)
Definition rune_len (s : string) : nat :=
  match s with
  | EmptyString => 0
  | String a s1 =>
      if between 0 127 a then 1
      else
        match s1 with
        | EmptyString => 0
        | String b s2 =>
            if rune2 a b then 2
            else
              match s2 with
              | EmptyString => 0
              | String c s3 =>
                  if rune3 a b c then 3
                  else match s3 with EmptyString => 0 | String d _ => if rune4 a b c d then 4 else 0 end
              end
        end
  end.

(** [utf8.Valid]. *)
Fixpoint valid_loop (fuel : nat) (s : string) : bool :=
  match fuel with
  | O => true
  | S fuel =>
      if bool_decide (s = ""%string) then true
      else match rune_len s with O => false | k => valid_loop fuel (str_drop k s) end
  end.
Definition utf8_valid (s : string) : bool := valid_loop (String.length s) s.

(** What [encoding/json] writes of a string: each byte that begins no character
    becomes the replacement character. *)
Definition RuneError : string := String "239" (String "191" (String "189" "")).
Fixpoint coerce_loop (fuel : nat) (s : string) : string :=
  match fuel with
  | O => ""
  | S fuel =>
      if bool_decide (s = ""%string) then ""%string
      else
        match rune_len s with
        | O => (RuneError +:+ coerce_loop fuel (str_drop 1 s))%string
        | k => (str_take k s +:+ coerce_loop fuel (str_drop k s))%string
        end
  end.
Definition coerce_utf8 (s : string) : string := coerce_loop (String.length s) s.

Lemma coerce_valid_loop fuel s :
  (String.length s <= fuel)%nat -> valid_loop fuel s = true -> coerce_loop fuel s = s.
Proof.
  revert s. induction fuel as [|fuel IH]; intros s Hf Hv; [destruct s; [done|simpl in Hf; lia]|].
  cbn [valid_loop coerce_loop] in *. case_bool_decide as E; [done|].
  destruct (rune_len s) as [|k] eqn:Ek; [done|]. rewrite IH; [apply str_take_drop| |done].
  rewrite length_str_drop. destruct s; [done|simpl in *; lia].
Qed.

(** Valid text is written as it is. *)
Lemma coerce_valid s : utf8_valid s = true -> coerce_utf8 s = s.
Proof. by apply coerce_valid_loop. Qed.
End Utf8.
Export GoString.

(** ** Decimal numbers: [strconv.Atoi] *)
Module GoNum.
Definition digit_of (c : Ascii.ascii) : option Z :=
  let n := Z.of_nat (Ascii.nat_of_ascii c) in
  if bool_decide (48 <= n <= 57)%Z then Some (n - 48)%Z else None.

Fixpoint digits_value (s : string) (acc : Z) : option Z :=
  match s with
  | EmptyString => Some acc
  | String c s' =>
      match digit_of c with
      | Some d => digits_value s' (acc * 10 + d)%Z
      | None => None
      end
  end.

Definition unsigned_value (s : string) : option Z :=
  match s with EmptyString => None | _ => digits_value s 0 end.

(** [None] stands for a syntax or a range error. *)
Definition atoi (s : string) : option Z :=
  let r := match s with
           | String "-"%char s' => Z.opp <$> unsigned_value s'
           | String "+"%char s' => unsigned_value s'
           | _ => unsigned_value s
           end in
  match r with
  | Some z => if bool_decide (in_int64 z) then Some z else None
  | None => None
  end.

Lemma pretty_N_char_digit n : (n < 10)%N -> digit_of (pretty_N_char n) = Some (Z.of_N n).
Proof. intros Hn. destruct n as [|p]; [done|]. do 4 (destruct p as [p|p|]; try done; try lia). Qed.

Lemma pretty_N_go_value n s : digits_value (pretty_N_go n s) 0 = digits_value s (Z.of_N n).
Proof.
  revert s. induction (N.lt_wf_0 n) as [n _ IH]. intros s. destruct (decide (0 < n)%N) as [Hn|Hn].
  - rewrite pretty_N_go_step by done. rewrite IH by (by apply N.div_lt). simpl.
    rewrite pretty_N_char_digit by (by apply N.mod_lt). f_equal. rewrite (N.div_mod n 10) at 3 by done. lia.
  - by replace n with 0%N by lia.
Qed.

(** The decimal form of a natural number: its value, and a digit at its head. *)
Lemma pretty_N_value n : unsigned_value (pretty n) = Some (Z.of_N n).
Proof.
  unfold pretty, pretty_N. case_decide as Hn; [by subst n|].
  pose proof (pretty_N_go_value n "") as Hv. destruct (pretty_N_go n "") eqn:E; [|exact Hv].
  simpl in Hv. injection Hv as Hv. lia.
Qed.

Lemma unsigned_head s z : unsigned_value s = Some z -> exists c s', s = String c s' /\ digit_of c <> None.
Proof. destruct s as [|c s]; simpl; [done|]. intros H. exists c, s. split; [done|]. by destruct (digit_of c). Qed.

Lemma atoi_unsigned s z : unsigned_value s = Some z -> atoi s = if bool_decide (in_int64 z) then Some z else None.
Proof.
  intros Hs. destruct (unsigned_head s z Hs) as (c & s' & -> & Hc). unfold atoi.
  assert (match String c s' with
          | String "-"%char s1 => Z.opp <$> unsigned_value s1
          | String "+"%char s1 => unsigned_value s1
          | _ => unsigned_value (String c s')
          end = unsigned_value (String c s')) as ->.
  { destruct c as [[] [] [] [] [] [] [] []]; try done; by destruct Hc. }
  by rewrite Hs.
Qed.

(** [strconv.Atoi] reads back what [strconv.Itoa] prints, within its range. *)
Lemma atoi_itoa z : atoi (itoa z) = if bool_decide (in_int64 z) then Some z else None.
Proof.
  unfold itoa. destruct z as [|p|p].
  - reflexivity.
  - apply atoi_unsigned. exact (pretty_N_value (Npos p)).
  - change (pretty (Zneg p)) with (String "-" (pretty (Npos p))). unfold atoi. cbv iota beta.
    by rewrite (pretty_N_value (Npos p)).
Qed.

Lemma itoa_nonempty z : itoa z <> ""%string.
Proof.
  unfold itoa. destruct z as [|p|p]; [done| |done]. intros E. pose proof (pretty_N_value (Npos p)) as H.
  change (pretty (Npos p)) with (pretty (Zpos p)) in H. by rewrite E in H.
Qed.

(** Decimal forms contain digits and signs only. *)
Lemma pretty_N_go_no_byte n s c :
  digit_of c = None -> contains_byte s c = false -> contains_byte (pretty_N_go n s) c = false.
Proof.
  intros Hc. revert s. induction (N.lt_wf_0 n) as [n _ IH]. intros s Hs.
  destruct (decide (0 < n)%N) as [Hn|Hn]; [|by replace n with 0%N by lia].
  rewrite pretty_N_go_step by done. apply IH; [by apply N.div_lt|]. simpl. rewrite Hs, orb_false_r.
  apply bool_decide_eq_false. intros <-. by rewrite pretty_N_char_digit in Hc by (by apply N.mod_lt).
Qed.

Lemma itoa_no_byte z c : digit_of c = None -> c <> "-"%char -> contains_byte (itoa z) c = false.
Proof.
  intros Hc Hm. unfold itoa. destruct z as [|p|p].
  - change (bool_decide ("0"%char = c) || false = false). rewrite orb_false_r. apply bool_decide_eq_false. by intros <-.
  - by apply pretty_N_go_no_byte.
  - change (bool_decide ("-"%char = c) || contains_byte (pretty_N_go (Npos p) "") c = false).
    rewrite bool_decide_false by done. by apply pretty_N_go_no_byte.
Qed.

Lemma pretty_N_go_length k n s : (n < 10 ^ N.of_nat k)%N -> (String.length (pretty_N_go n s) <= k + String.length s)%nat.
Proof.
  revert n s. induction k as [|k IH]; intros n s Hn; [change (10 ^ N.of_nat 0)%N with 1%N in Hn; by replace n with 0%N by lia|].
  destruct (decide (0 < n)%N) as [Hp|Hp]; [|replace n with 0%N by lia; rewrite pretty_N_go_0; lia].
  rewrite pretty_N_go_step by done. etrans; [apply IH|simpl; lia].
  apply N.Div0.div_lt_upper_bound. rewrite Nat2N.inj_succ, N.pow_succ_r' in Hn. lia.
Qed.

(** A number of 64 bits has at most 19 digits, or is negative. *)
Lemma itoa_length z : (0 <= z <= max_int64)%Z -> (len (itoa z) <= 19)%Z.
Proof.
  intros Hz. unfold len, itoa. destruct z as [|p|p]; [by vm_compute| |lia].
  change (pretty (Zpos p)) with (pretty_N_go (Npos p) "").
  pose proof (pretty_N_go_length 19 (Npos p) "") as H. simpl String.length in H. rewrite Nat.add_0_r in H.
  enough (Npos p < 10 ^ N.of_nat 19)%N by (specialize (H ltac:(done)); lia).
  unfold max_int64 in Hz. change (10 ^ N.of_nat 19)%N with 10000000000000000000%N. lia.
Qed.
End GoNum.
Export GoNum.

(** ** Filters that keep everything or nothing *)
Lemma filter_all {A} (P : A -> Prop) `{!forall x, Decision (P x)} l : Forall P l -> filter P l = l.
Proof. induction 1 as [|x l Hx Hl IH]; [done|]. by rewrite filter_cons_True, IH. Qed.

Lemma filter_none {A} (P : A -> Prop) `{!forall x, Decision (P x)} l : Forall (fun x => ~ P x) l -> filter P l = [].
Proof. induction 1 as [|x l Hx Hl IH]; [done|]. by rewrite filter_cons_False. Qed.

(** ** Durations, in nanoseconds *)
Definition millisecond : Z := 1000000.
Definition second : Z := 1000000000.
Definition minute : Z := 60 * second.
Definition hour : Z := 60 * minute.

(** ** [sort.Slice]: the standard library documents that the slice is sorted
    for the given order and that equal elements may end in any order; clients
    are proved against this interface. *)
Definition strict_weak {A} (less : A -> A -> bool) : Prop :=
  (forall x, less x x = false) /\
  (forall x y z, less x y = true -> less y z = true -> less x z = true) /\
  (forall x y z, less x y = false -> less y z = false -> less x z = false).

Class SliceSort := {
  sort_slice : forall {A : Type}, (A -> A -> bool) -> list A -> list A;
  sort_slice_perm : forall A (less : A -> A -> bool) l, sort_slice less l ≡ₚ l;
  sort_slice_sorted : forall A (less : A -> A -> bool) l,
    strict_weak less -> StronglySorted (fun x y => less y x = false) (sort_slice less l);
}.

Section sorting_facts.
Context `{!SliceSort} {A : Type} (less : A -> A -> bool).

Lemma sort_slice_nil l : sort_slice less l = [] <-> l = [].
Proof.
  pose proof (sort_slice_perm A less l) as P. split; intros E.
  - rewrite E in P. symmetry in P. by apply Permutation_nil_r in P.
  - subst. by apply Permutation_nil_r in P.
Qed.

(** The first element after sorting is minimal. *)
Lemma sort_slice_head_min l x l' :
  strict_weak less -> sort_slice less l = x :: l' ->
  x ∈ l /\ forall y, y ∈ l -> less y x = false.
Proof.
  intros Hsw E. pose proof (sort_slice_perm A less l) as P.
  pose proof (sort_slice_sorted A less l Hsw) as Hs. rewrite E in P, Hs.
  apply StronglySorted_inv in Hs as [_ Hall]. split.
  - rewrite <- P. by left.
  - intros y Hy. rewrite <- P in Hy. apply elem_of_cons in Hy as [->|Hy].
    + by apply Hsw.
    + by eapply Forall_forall in Hall.
Qed.
End sorting_facts.

(** Insertion sort, the algorithm [sort.Slice] runs on short slices. *)
Module InsertionSort.
Section defs.
Context {A : Type} (less : A -> A -> bool).

Fixpoint insert_sorted (x : A) (l : list A) : list A :=
  match l with
  | [] => [x]
  | y :: l' => if less x y then x :: l else y :: insert_sorted x l'
  end.

Definition isort (l : list A) : list A := foldl (fun acc x => insert_sorted x acc) [] l.

Lemma insert_sorted_perm x l : insert_sorted x l ≡ₚ x :: l.
Proof.
  induction l as [|y l IH]; simpl; [done|].
  destruct (less x y); [done|]. rewrite IH. apply Permutation_swap.
Qed.

Lemma isort_perm_acc l acc :
  foldl (fun acc x => insert_sorted x acc) acc l ≡ₚ acc ++ l.
Proof.
  revert acc; induction l as [|x l IH]; intros acc; simpl; [by rewrite app_nil_r|].
  rewrite IH, insert_sorted_perm. simpl. by rewrite <- Permutation_middle.
Qed.

Lemma insert_sorted_sorted x l :
  strict_weak less -> StronglySorted (fun x y => less y x = false) l ->
  StronglySorted (fun x y => less y x = false) (insert_sorted x l).
Proof.
  intros (Hir & Htr & Hnt) Hl. induction Hl as [|y l Hl IH Hall]; simpl.
  { by repeat constructor. }
  destruct (less x y) eqn:E.
  - assert (less y x = false) as Hyx.
    { destruct (less y x) eqn:E'; [|done]. pose proof (Htr x y x E E') as X.
      by rewrite Hir in X. }
    constructor; [by constructor|]. constructor; [done|].
    eapply Forall_impl; [exact Hall|]. intros z Hz. by apply (Hnt z y x).
  - constructor; [done|]. rewrite insert_sorted_perm. by constructor.
Qed.
End defs.

Lemma isort_sorted {A} (less : A -> A -> bool) l :
  strict_weak less -> StronglySorted (fun x y => less y x = false) (isort less l).
Proof.
  intros Hsw. unfold isort. generalize (@SSorted_nil A (fun x y => less y x = false)).
  generalize (@nil A). induction l as [|x l IH]; intros acc Hacc; [done|].
  simpl. apply IH. by apply insert_sorted_sorted.
Qed.

Lemma isort_perm {A} (less : A -> A -> bool) l : isort less l ≡ₚ l.
Proof. apply (isort_perm_acc less l []). Qed.

#[export] Program Instance insertion_SliceSort : SliceSort := {
  sort_slice A less l := isort less l;
}.
Next Obligation. intros. apply isort_perm. Qed.
Next Obligation. intros. by apply isort_sorted. Qed.
End InsertionSort.

(** ** JSON *)

(** What the code relies on of [encoding/json]: a record that was marshalled
    is unmarshalled to itself. (Text that is not UTF-8 is not: where the code may
    store such text it is coerced before, with [Utf8.coerce_utf8].) *)
Class JsonCodec (A : Type) := {
  marshal : A -> string;
  unmarshal : string -> option A;
  unmarshal_marshal : forall a, unmarshal (marshal a) = Some a;
}.

(** The interface is inhabited, for every record of countable fields: the bits
    of stdpp's encoding, as text. *)
Module BitCodec.
Fixpoint bits (p : positive) : string :=
  match p with xH => EmptyString | xO p => String "0" (bits p) | xI p => String "1" (bits p) end.
Fixpoint unbits (s : string) : positive :=
  match s with
  | EmptyString => xH
  | String c s => if bool_decide (c = "1"%char) then xI (unbits s) else xO (unbits s)
  end.
Lemma unbits_bits p : unbits (bits p) = p.
Proof. induction p as [p IH|p IH|]; simpl; [by rewrite IH..|done]. Qed.

Program Definition coded {A B} `{Countable B} (f : A -> B) (g : B -> A) (gf : forall a, g (f a) = a) : JsonCodec A := {|
  marshal a := bits (encode (f a));
  unmarshal s := g <$> decode (unbits s);
|}.
Next Obligation. intros A B ?? f g gf a. cbn. rewrite unbits_bits, decode_encode. simpl. by rewrite gf. Qed.
End BitCodec.
Export BitCodec.

(** ** Reachability by a labelled step relation *)
Section traces.
Context {S L : Type} (step : S -> L -> S -> Prop).

Inductive steps : S -> list L -> S -> Prop :=
| steps_nil s : steps s [] s
| steps_cons s l s' ls s'' : step s l s' -> steps s' ls s'' -> steps s (l :: ls) s''.

Lemma steps_inv (P : S -> Prop) s ls s' :
  (forall s l s', P s -> step s l s' -> P s') -> steps s ls s' -> P s -> P s'.
Proof. intros Hp Hs. induction Hs; eauto. Qed.

Lemma steps_inv_labels (P : S -> Prop) (Q : L -> Prop) s ls s' :
  (forall s l s', Q l -> P s -> step s l s' -> P s') ->
  Forall Q ls -> steps s ls s' -> P s -> P s'.
Proof.
  intros Hp HQ Hs. revert HQ. induction Hs as [|s l s' ls s'' Hstep Hs IH]; intros HQ Hs0;
    [done|]. inversion HQ; subst. eauto.
Qed.

(** Induction over a trace from its start, with what has happened so far. *)
Lemma steps_trace_inv (P : list L -> S -> Prop) s ls s' :
  P [] s -> (forall ls s l s', P ls s -> step s l s' -> P (ls ++ [l]) s') -> steps s ls s' -> P ls s'.
Proof.
  intros H0 Hp Hs. assert (forall pre, P pre s -> P (pre ++ ls) s') as H; [|by apply (H [])].
  clear H0. induction Hs as [s|s l s' ls s'' Hstep Hs IH]; intros pre Hpre; [by rewrite app_nil_r|].
  change (l :: ls) with ([l] ++ ls). rewrite app_assoc. eauto.
Qed.

Lemma steps_app s1 l1 s2 l2 s3 : steps s1 l1 s2 -> steps s2 l2 s3 -> steps s1 (l1 ++ l2) s3.
Proof. induction 1; simpl; eauto using steps. Qed.
End traces.
#[export] Hint Constructors steps : go.

(** Running an executable step relation along a trace. *)
Section runs.
Context {S L : Type} (exec : L -> S -> option S).

Fixpoint exec_all (ls : list L) (s : S) : option S :=
  match ls with [] => Some s | l :: ls' => s' ← exec l s; exec_all ls' s' end.

Lemma exec_all_steps ls s s' : exec_all ls s = Some s' -> steps (fun s l s' => exec l s = Some s') s ls s'.
Proof.
  revert s. induction ls as [|l ls IH]; intros s; simpl; [intros [= ->]; constructor|].
  destruct (exec l s) as [s1|] eqn:E; simpl; [|done]. intros H. eapply steps_cons; [exact E|by apply IH].
Qed.
End runs.

(** Case analysis on the boolean tests of the code. *)
Ltac case_tests :=
  repeat match goal with
  | |- context [bool_decide ?P] => destruct (bool_decide_reflect P)
  | H : context [bool_decide ?P] |- _ => destruct (bool_decide_reflect P)
  | |- context [if ?b then _ else _] =>
      match type of b with bool => destruct b eqn:? end
  | H : context [if ?b then _ else _] |- _ =>
      match type of b with bool => destruct b eqn:? end
  end.
