(* ===== verification/Scanner.v ===== *)
(** * Scanner: [bufio.Scanner] over a text

    The lines of a text as the scanner gives them, with the limit of 1 MiB that
    the readers of event logs and of agents' logs set ([events/replay.go],
    [cli/serve_observability.go], [webui/log_streamer.go]). *)
From S2P Require Import Prelude.
Local Open Scope Z_scope.
Local Open Scope go_scope.

Module Scanner.
Definition LF : ascii := "010".

(** ** [bufio.Scanner] with a limit of 1 MiB on lines *)
Definition maxLine : Z := 1024 * 1024.
Definition ErrTooLong : goerror := Sentinel "bufio.Scanner: token too long".
Definition CR : ascii := "013".

Fixpoint drop_cr (s : string) : string :=
  match s with
  | "" => ""
  | String c "" => if bool_decide (c = CR) then "" else s
  | String c s' => String c (drop_cr s')
  end%string.

(** The lines before the first that is too long. *)
Fixpoint take_lines (l : list string) : list string * option goerror :=
  match l with
  | [] => ([], None)
  | x :: l' =>
      if maxLine <=? len x then ([], Some ErrTooLong)
      else let '(r, e) := take_lines l' in (drop_cr x :: r, e)
  end.

(** A text after the last line feed is a line too, unless it is empty. *)
Fixpoint unterminated (l : list string) : list string :=
  match l with
  | [] => []
  | [x] => if bool_decide (x = ""%string) then [] else [x]
  | x :: l' => x :: unterminated l'
  end.

Definition scan (text : string) : list string * option goerror := take_lines (unterminated (Split LF text)).

(** One line that does not end in a carriage return and is not too long. *)
Definition plain_line (t : string) : Prop := contains_byte t LF = false /\ drop_cr t = t /\ len t < maxLine.

Lemma unterminated_lines ts : unterminated (ts ++ [""%string]) = ts.
Proof. induction ts as [|t [|t' ts] IH]; [done|done|]. simpl in *. by rewrite IH. Qed.

Lemma take_plain ts : Forall plain_line ts -> take_lines ts = (ts, None).
Proof.
  induction 1 as [|t ts (_ & Hcr & Hlen) HF IH]; [done|]. simpl. rewrite (proj2 (Z.leb_gt _ _)) by done.
  by rewrite IH, Hcr.
Qed.
End Scanner.
