(* ===== verification/Paths.v ===== *)
(** * Paths: [filepath] on Unix, and the checks on names that use it

    [Clean], [Join], [Dir], [Base], [Ext] of the standard library, on the
    components of a path; the theory of what a joined path can reach; and the
    validation of worktree, task, phase and secret names ([cli/worktree.go],
    [logrouter/router.go], [webui/handlers_logs.go], [cli/secrets.go]). *)
From S2P Require Import Prelude.
Local Open Scope Z_scope.
Local Open Scope go_scope.

Module Paths.
Definition Separator : ascii := "/".
Definition up : string := "..".

(** ** Components *)

(** The components left of a path, those done in reverse: empty ones and [.] go
    away, [..] takes the last one with it; at the root there is nothing above. *)
Fixpoint clean_parts (rooted : bool) (acc todo : list string) : list string :=
  match todo with
  | [] => rev acc
  | p :: todo' =>
      if bool_decide (p = ""%string) || bool_decide (p = "."%string) then clean_parts rooted acc todo'
      else if bool_decide (p = up) then
        match acc with
        | [] => if rooted then clean_parts rooted [] todo' else clean_parts rooted [up] todo'
        | q :: acc' =>
            if bool_decide (q = up) then clean_parts rooted (up :: acc) todo' else clean_parts rooted acc' todo'
        end
      else clean_parts rooted (p :: acc) todo'
  end.

Definition IsAbs (path : string) : bool := has_prefix path "/".

Definition parts (path : string) : list string := clean_parts (IsAbs path) [] (Split Separator path).

(** A path of components from the root. *)
Definition abs_path (l : list string) : string := String Separator (GoString.Join Separator l).

Definition Clean (path : string) : string :=
  if IsAbs path then abs_path (parts path)
  else match parts path with [] => "."%string | l => GoString.Join Separator l end.

(** [filepath.Join] of two and of more elements: leading empty ones do not count. *)
Fixpoint join_all (l : list string) : string :=
  match l with
  | [] => ""
  | w :: l' => if bool_decide (w = ""%string) then join_all l' else Clean (GoString.Join Separator l)
  end.
Definition Join (a b : string) : string := join_all [a; b].

(** A path of the daemon's settings, from the project's directory ([daemon_cmd.go]). *)
Definition resolveDaemonPath (projectDir path : string) : string := if IsAbs path then path else Join projectDir path.

(** The path up to and with its last separator, and what comes after it. *)
Fixpoint split_last (s : string) : string * string :=
  match s with
  | EmptyString => (""%string, ""%string)
  | String c s' =>
      let '(d, f) := split_last s' in
      if bool_decide (c = Separator) then
        (String c d, f)
      else if bool_decide (d = ""%string) then (""%string, String c f) else (String c d, f)
  end.

Definition Dir (path : string) : string := Clean (split_last path).1.

Fixpoint trim_right_seps (s : string) : string :=
  match s with
  | EmptyString => ""
  | String c s' =>
      match trim_right_seps s' with
      | EmptyString => if bool_decide (c = Separator) then "" else String c ""
      | t => String c t
      end
  end.

Definition Base (path : string) : string :=
  if bool_decide (path = ""%string) then "."
  else
    match (split_last (trim_right_seps path)).2 with
    | EmptyString => "/"
    | f => f
    end.

(** From the last dot of the last component on. *)
Fixpoint last_dot (s : string) : string :=
  match s with
  | EmptyString => ""
  | String c s' =>
      match last_dot s' with
      | EmptyString => if bool_decide (c = "."%char) then s else ""
      | t => t
      end
  end.
Definition Ext (path : string) : string := last_dot (split_last path).2.

(** [strings.ToLower], on ASCII. *)
Definition lower (c : ascii) : ascii :=
  let n := nat_of_ascii c in
  if bool_decide (65 <= n <= 90)%nat then ascii_of_nat (n + 32) else c.
Fixpoint ToLower (s : string) : string :=
  match s with EmptyString => "" | String c s' => String (lower c) (ToLower s') end.

(** [p] is [root], or below it. *)
Definition under (p root : string) : bool := bool_decide (p = root) || has_prefix p (root +:+ "/").

(** [filepath.Rel] for two absolute paths. *)
Fixpoint rel_parts (base targ : list string) : list string :=
  match base, targ with
  | b :: base', t :: targ' => if bool_decide (b = t) then rel_parts base' targ' else map (fun _ => up) base ++ targ
  | _, _ => map (fun _ => up) base ++ targ
  end.
Definition Rel (base targ : string) : string :=
  match rel_parts (parts base) (parts targ) with [] => "."%string | l => GoString.Join Separator l end.

(** ** Facts *)
Definition plain_part (p : string) : Prop := p <> ""%string /\ p <> "."%string /\ p <> up /\ contains_byte p Separator = false.

Lemma plain_app_one l p : Forall plain_part l -> plain_part p -> Forall plain_part (l ++ [p]).
Proof. intros HF Hp. apply Forall_app. split; [done|by apply Forall_singleton]. Qed.

Lemma plain_one_inv l p : Forall plain_part (l ++ [p]) -> Forall plain_part l /\ plain_part p.
Proof. intros [HF Hp]%Forall_app. split; [done|]. by inversion Hp. Qed.

Lemma Split_no_sep c s : Forall (fun w => contains_byte w c = false) (Split c s).
Proof.
  induction s as [|a s IH]; simpl; [by repeat constructor|]. case_bool_decide as Ha; [by constructor|].
  destruct (Split c s) as [|w l]; [constructor; [simpl; by rewrite bool_decide_false|done]|].
  apply Forall_cons in IH as [Hw Hl]. constructor; [simpl; by rewrite bool_decide_false|done].
Qed.

Lemma clean_parts_cons rooted acc p todo :
  clean_parts rooted acc (p :: todo) =
    match decide (p = ""%string \/ p = "."%string), decide (p = up), acc with
    | left _, _, _ => clean_parts rooted acc todo
    | right _, left _, [] => clean_parts rooted (if rooted then [] else [up]) todo
    | right _, left _, q :: acc' => clean_parts rooted (if decide (q = up) then up :: acc else acc') todo
    | right _, right _, _ => clean_parts rooted (p :: acc) todo
    end.
Proof.
  simpl. destruct (decide (p = ""%string \/ p = "."%string)) as [[->| ->]|Hn]; [done|done|].
  rewrite !(bool_decide_false (p = _)) by naive_solver. simpl.
  destruct (decide (p = up)) as [->|]; [rewrite bool_decide_true by done|by rewrite bool_decide_false].
  destruct acc as [|q acc]; [by destruct rooted|]. by destruct (decide (q = up)); [rewrite bool_decide_true|rewrite bool_decide_false].
Qed.

Lemma clean_parts_plain acc todo :
  Forall plain_part acc -> Forall (fun w => contains_byte w Separator = false) todo ->
  Forall plain_part (clean_parts true acc todo).
Proof.
  revert acc. induction todo as [|p todo IH]; intros acc Hd Ht; [by apply Forall_rev|].
  apply Forall_cons in Ht as [Hp Ht]. rewrite clean_parts_cons.
  destruct (decide (p = ""%string \/ p = "."%string)) as [|Hn]; [by apply IH|].
  destruct (decide (p = up)) as [->|Hu].
  - destruct acc as [|q acc]; [by apply IH|]. apply Forall_cons in Hd as [(_ & _ & Hq & _) Hd].
    destruct (decide (q = up)); [done|by apply IH].
  - apply IH; [|done]. constructor; [|done]. split_and!; naive_solver.
Qed.

Lemma clean_parts_plain_id rooted acc l :
  Forall plain_part l -> clean_parts rooted acc l = rev acc ++ l.
Proof.
  intros HF. revert acc. induction HF as [|p l (H1 & H2 & H3 & _) HF IH]; intros acc; [by rewrite app_nil_r|].
  rewrite clean_parts_cons. destruct (decide _) as [[|]|_]; [done..|]. destruct (decide (p = up)); [done|].
  rewrite IH. simpl. by rewrite <- app_assoc.
Qed.

Lemma clean_parts_app rooted acc l1 l2 :
  exists acc', clean_parts rooted acc l1 = rev acc' /\ clean_parts rooted acc (l1 ++ l2) = clean_parts rooted acc' l2.
Proof.
  revert acc. induction l1 as [|p l1 IH]; intros acc; [by exists acc|]. rewrite <- app_comm_cons, !clean_parts_cons.
  destruct (decide _); [apply IH|]. destruct (decide (p = up)); [destruct acc; apply IH|apply IH].
Qed.

(** Names from elsewhere cannot climb out of what they are joined to, when they
    were cleaned from the root first. *)
Lemma parts_abs_plain path : IsAbs path = true -> Forall plain_part (parts path).
Proof. intros Ha. unfold parts. rewrite Ha. apply clean_parts_plain; [done|apply Split_no_sep]. Qed.

Lemma plain_no_sep l : Forall plain_part l -> Forall (fun w => contains_byte w Separator = false) l.
Proof. intros HF. eapply Forall_impl; [exact HF|]. by intros p (_ & _ & _ & ?). Qed.

Lemma Split_abs_path l : Forall plain_part l -> Split Separator (abs_path l) = ""%string :: match l with [] => [""%string] | _ => l end.
Proof.
  intros HF. unfold abs_path. simpl. f_equal. destruct l as [|p l]; [done|].
  apply Split_Join; [done|by apply plain_no_sep].
Qed.

Lemma IsAbs_abs_path l : IsAbs (abs_path l) = true.
Proof. apply has_prefix_spec. by exists (GoString.Join Separator l). Qed.

Lemma parts_abs_path l : Forall plain_part l -> parts (abs_path l) = l.
Proof.
  intros HF. unfold parts. rewrite Split_abs_path by done. rewrite IsAbs_abs_path. destruct l as [|p l]; [done|].
  change (clean_parts true [] (""%string :: p :: l)) with (clean_parts true [] (p :: l)). by rewrite clean_parts_plain_id.
Qed.

Lemma Clean_abs path : IsAbs path = true -> Clean path = abs_path (parts path).
Proof. intros Ha. unfold Clean. by rewrite Ha. Qed.

Lemma Clean_abs_path l : Forall plain_part l -> Clean (abs_path l) = abs_path l.
Proof. intros HF. rewrite Clean_abs by apply IsAbs_abs_path. by rewrite parts_abs_path. Qed.

Lemma abs_path_inj l1 l2 : Forall plain_part l1 -> Forall plain_part l2 -> abs_path l1 = abs_path l2 -> l1 = l2.
Proof. intros H1 H2 E. rewrite <- (parts_abs_path l1), <- (parts_abs_path l2) by done. by rewrite E. Qed.
(** An absolute path cleaned is [abs_path] of plain components. *)
Lemma Clean_abs_plain path : IsAbs path = true -> exists l, Forall plain_part l /\ parts path = l /\ Clean path = abs_path l.
Proof. intros Ha. exists (parts path). split_and!; [by apply parts_abs_plain|done|by apply Clean_abs]. Qed.

Lemma Join_snoc c l1 l2 : l1 <> [] -> l2 <> [] -> GoString.Join c (l1 ++ l2) = (GoString.Join c l1 +:+ String c (GoString.Join c l2))%string.
Proof.
  intros H1 H2. induction l1 as [|w l1 IH]; [done|]. destruct l1 as [|w' l1].
  - destruct l2; [done|]. done.
  - change ((w :: w' :: l1) ++ l2) with (w :: (w' :: l1) ++ l2).
    change (GoString.Join c (w :: w' :: l1)) with (w +:+ String c (GoString.Join c (w' :: l1)))%string.
    rewrite append_assoc, append_cons, <- IH by done. done.
Qed.

Lemma Split_app_sep c s t : Split c (s +:+ String c t) = Split c s ++ Split c t.
Proof.
  induction s as [|a s IH]; [rewrite append_nil_l; simpl; by rewrite bool_decide_true|].
  rewrite append_cons. simpl. rewrite IH. case_bool_decide; [done|].
  destruct (Split c s) as [|w l] eqn:E; [|done]. exfalso. destruct s; simpl in E; [done|]. case_bool_decide; [done|].
  by destruct (Split c s).
Qed.

(** Joining a cleaned absolute name to an absolute directory appends its
    components. *)
Lemma Join_abs dir l :
  IsAbs dir = true -> Forall plain_part l -> Join dir (abs_path l) = abs_path (parts dir ++ l).
Proof.
  intros Ha HF. unfold Join. simpl. pose proof Ha as (r & Hr)%has_prefix_spec.
  rewrite bool_decide_false by (by rewrite Hr). rewrite Clean_abs.
  2:{ apply has_prefix_spec. rewrite Hr. eexists. rewrite !append_assoc. reflexivity. }
  f_equal. unfold parts at 1. replace (IsAbs _) with true.
  2:{ symmetry. apply has_prefix_spec. rewrite Hr. eexists. rewrite !append_assoc. reflexivity. }
  rewrite Split_app_sep, Split_abs_path by done.
  destruct (clean_parts_app true [] (Split Separator dir) (""%string :: match l with [] => [""%string] | _ => l end))
    as (acc & E1 & ->).
  unfold parts. rewrite Ha, E1. rewrite clean_parts_cons. destruct (decide _) as [_|[]]; [|by left].
  destruct l as [|p l]; [by rewrite app_nil_r|]. by rewrite clean_parts_plain_id.
Qed.

Lemma join_all_abs dir l :
  IsAbs dir = true -> Forall plain_part l -> l <> [] -> join_all (dir :: l) = abs_path (parts dir ++ l).
Proof.
  intros Ha HF Hne. cbn [join_all]. pose proof Ha as (r & Hr)%has_prefix_spec.
  rewrite bool_decide_false by (by rewrite Hr).
  assert (GoString.Join Separator (dir :: l) = dir +:+ String Separator (GoString.Join Separator l))%string as -> by (by destruct l).
  assert (IsAbs (dir +:+ String Separator (GoString.Join Separator l)) = true) as Ha'.
  { apply has_prefix_spec. rewrite Hr. eexists. rewrite !append_assoc. reflexivity. }
  rewrite Clean_abs by done. f_equal. unfold parts. rewrite Ha', Ha, Split_app_sep, Split_Join by (by try apply plain_no_sep).
  destruct (clean_parts_app true [] (Split Separator dir) l) as (acc & E1 & ->). by rewrite clean_parts_plain_id, E1.
Qed.

Lemma under_prefix l1 l2 :
  Forall plain_part l1 -> Forall plain_part l2 -> l1 <> [] ->
  under (abs_path l2) (abs_path l1) = true <-> l1 `prefix_of` l2.
Proof.
  intros H1 H2 Hne. unfold under. rewrite orb_true_iff, bool_decide_eq_true, has_prefix_spec. split.
  - intros [->%abs_path_inj|[rest E]]; [done..|].
    rewrite append_assoc in E. pose proof (f_equal (Split Separator) E) as ES.
    change ("/" +:+ rest)%string with (String Separator rest) in ES.
    rewrite Split_app_sep, !Split_abs_path in ES by done.
    destruct l1 as [|p l1]; [done|]. injection ES as ES. destruct l2 as [|q l2].
    + injection ES as <- ES. apply Forall_cons in H1 as [(Hp & _) _]. done.
    + rewrite ES. by eexists.
  - intros [k ->]. destruct k as [|p k]; [left; by rewrite app_nil_r|right].
    exists (GoString.Join Separator (p :: k)). unfold abs_path. rewrite Join_snoc by done.
    by rewrite !append_cons, append_assoc.
Qed.

(** What the web server joins: the request's path, cleaned from the root, never
    leaves the directory it is joined to. *)
Lemma request_parts req : exists l, Forall plain_part l /\ Clean (String Separator req) = abs_path l.
Proof.
  destruct (Clean_abs_plain (String Separator req)) as (l & HF & _ & E); [|by exists l].
  apply has_prefix_spec. by exists req.
Qed.
Lemma Rel_below l1 l2 : Forall plain_part l1 -> Forall plain_part l2 ->
  Rel (abs_path l1) (abs_path (l1 ++ l2)) = match l2 with [] => "."%string | _ => GoString.Join Separator l2 end.
Proof.
  intros H1 H2. unfold Rel. rewrite !parts_abs_path by (by try apply Forall_app). assert (rel_parts l1 (l1 ++ l2) = l2) as ->; [|by destruct l2].
  clear. induction l1 as [|p l1 IH]; [done|]. simpl. by rewrite bool_decide_true.
Qed.

(** The last component decides what a name is denied for. *)
Lemma split_last_plain f : contains_byte f Separator = false -> split_last f = (""%string, f).
Proof.
  induction f as [|c f IH]; simpl; [done|]. intros [Hc Hf]%orb_false_iff. apply bool_decide_eq_false in Hc.
  rewrite (IH Hf). by rewrite bool_decide_false.
Qed.

Lemma split_last_sep d f :
  contains_byte f Separator = false -> split_last (d +:+ String Separator f) = (d +:+ "/", f)%string.
Proof.
  intros Hf. induction d as [|c d IH].
  - rewrite append_nil_l. simpl. by rewrite (split_last_plain f Hf).
  - rewrite !append_cons. cbn [split_last]. rewrite IH.
    cbv iota beta. rewrite (bool_decide_false (_ = ""%string)) by (by destruct d). by case_bool_decide.
Qed.

Lemma trim_right_plain d f :
  f <> ""%string -> contains_byte f Separator = false -> trim_right_seps (d +:+ f) = (d +:+ f)%string.
Proof.
  intros Hne Hf. induction d as [|c d IH].
  - rewrite append_nil_l. clear -Hne Hf. induction f as [|c f IH]; [done|]. simpl in *.
    apply orb_false_iff in Hf as [Hc Hf]. apply bool_decide_eq_false in Hc. destruct f as [|c' f].
    + simpl. by rewrite bool_decide_false.
    + by rewrite IH.
  - rewrite append_cons. cbn [trim_right_seps]. rewrite IH. destruct (d +:+ f)%string eqn:E; [|done].
    destruct d; [by rewrite append_nil_l in E; subst|done].
Qed.

Lemma abs_path_snoc l p :
  exists d, abs_path (l ++ [p]) = (d +:+ String Separator p)%string /\
    (d +:+ "/" = match l with [] => "/" | _ => abs_path l +:+ "/" end)%string.
Proof.
  destruct l as [|q l]; [by exists ""%string|]. exists (abs_path (q :: l)). split; [|done].
  unfold abs_path. by rewrite Join_snoc.
Qed.

Lemma Base_abs_path l p : plain_part p -> Base (abs_path (l ++ [p])) = p.
Proof.
  intros (Hne & _ & _ & Hp). destruct (abs_path_snoc l p) as (d & E & _). unfold Base.
  rewrite bool_decide_false by (by unfold abs_path). rewrite E.
  replace (d +:+ String Separator p)%string with ((d +:+ "/") +:+ p)%string by (by rewrite append_assoc).
  rewrite trim_right_plain by done. rewrite append_assoc. change ("/" +:+ p)%string with (String Separator p).
  rewrite split_last_sep by done. simpl. by destruct p.
Qed.

Lemma Ext_abs_path l p : plain_part p -> Ext (abs_path (l ++ [p])) = last_dot p.
Proof.
  intros (_ & _ & _ & Hp). destruct (abs_path_snoc l p) as (d & E & _). unfold Ext. rewrite E.
  by rewrite split_last_sep.
Qed.

Lemma Dir_abs_path l p : Forall plain_part l -> plain_part p -> Dir (abs_path (l ++ [p])) = abs_path l.
Proof.
  intros HF (_ & _ & _ & Hp). destruct (abs_path_snoc l p) as (d & E & Ed). unfold Dir. rewrite E.
  rewrite split_last_sep by done. cbn [fst]. rewrite Ed. destruct l as [|q l]; [done|].
  assert (IsAbs (abs_path (q :: l) +:+ "/") = true) as Ha by (apply has_prefix_spec; by eexists).
  rewrite Clean_abs by done. f_equal. unfold parts. rewrite Ha.
  change (abs_path (q :: l) +:+ "/")%string with (abs_path (q :: l) +:+ String Separator "")%string.
  rewrite Split_app_sep, Split_abs_path by done.
  change (Split Separator "") with [""%string].
  destruct (clean_parts_app true [] (""%string :: q :: l) [""%string]) as (acc & E1 & ->).
  rewrite clean_parts_cons in E1 |- *. destruct (decide (""%string = ""%string \/ _)) as [_|[]]; [|by left].
  rewrite clean_parts_plain_id in E1 by done. simpl in *. by rewrite <- E1.
Qed.

(** ** Names of worktrees ([validateWorktreeName], [resolveLegacyPath]) *)
Definition validateWorktreeName (name : string) : option goerror :=
  let cleaned := Clean name in
  if bool_decide (cleaned = up) || has_prefix cleaned "../"
  then Some (Msg ("invalid worktree name " +:+ quote name +:+ ": path traversal not allowed")) else None.

Section resolve.
Context (Getwd worktreesDir : res string) (exists_ : string -> bool).

Definition resolveLegacyPath (name : string) : res string :=
  if bool_decide (name = ""%string) then Getwd
  else if IsAbs name then
    if negb (exists_ name) then Err (Msg ("worktree path does not exist: " +:+ name)) else Ok name
  else
    match validateWorktreeName name with
    | Some e => Err e
    | None =>
        let? dir := worktreesDir in
        let worktreePath := Clean (Join dir name) in
        let absWorktreesDir := Clean dir in
        if negb (has_prefix worktreePath (absWorktreesDir +:+ "/")) && bool_decide (worktreePath <> absWorktreesDir)
        then Err (Msg ("invalid worktree name " +:+ quote name +:+ ": resolved path escapes worktrees directory"))
        else if negb (exists_ worktreePath) then Err (Msg ("worktree '" +:+ name +:+ "' not found at " +:+ worktreePath))
        else Ok worktreePath
    end.
End resolve.

(** A relative path climbs first and descends then. *)
Lemma clean_rel_shape acc n todo :
  Forall plain_part acc -> Forall (fun w => contains_byte w Separator = false) todo ->
  exists m l, clean_parts false (acc ++ repeat up n) todo = repeat up m ++ l /\ Forall plain_part l /\ (n <= m)%nat.
Proof.
  revert acc n. induction todo as [|p todo IH]; intros acc n Ha Ht.
  { exists n, (rev acc). split_and!; [|by apply Forall_rev|done]. simpl. rewrite rev_app_distr. f_equal.
    clear. induction n as [|n IH]; [done|]. simpl. rewrite IH. change [up] with (repeat up 1). rewrite <- repeat_app.
    by rewrite Nat.add_comm. }
  apply Forall_cons in Ht as [Hp Ht]. rewrite clean_parts_cons.
  destruct (decide (p = ""%string \/ p = "."%string)) as [|Hn]; [by apply IH|].
  destruct (decide (p = up)) as [->|Hu].
  - destruct acc as [|q acc]; simpl.
    + destruct n as [|n]; simpl; [destruct (IH [] 1%nat) as (m & l & E & Hl & Hm); [done..|]; simpl in E; rewrite E; exists m, l; split_and!; [done..|lia]|].
      destruct (decide (up = up)); [|done]. destruct (IH [] (S (S n))) as (m & l & E & Hl & Hm); [done..|].
      simpl in E. rewrite E. exists m, l. split_and!; [done..|lia].
    + apply Forall_cons in Ha as [(_ & _ & Hq & _) Ha]. destruct (decide (q = up)); [done|]. by apply IH.
  - rewrite app_comm_cons. apply IH; [|done]. constructor; [|done]. split_and!; naive_solver.
Qed.

(** One that does not climb goes the same way below any directory. *)
Lemma clean_rel_below base acc todo :
  Forall plain_part base -> Forall plain_part acc -> Forall (fun w => contains_byte w Separator = false) todo ->
  Forall plain_part (clean_parts false acc todo) ->
  clean_parts true (acc ++ base) todo = rev base ++ clean_parts false acc todo.
Proof.
  intros Hb. revert acc. induction todo as [|p todo IH]; intros acc Ha Ht; [intros _; simpl; apply rev_app_distr|].
  apply Forall_cons in Ht as [Hp Ht]. rewrite !clean_parts_cons.
  destruct (decide (p = ""%string \/ p = "."%string)) as [|Hn]; [by apply IH|].
  destruct (decide (p = up)) as [->|Hu].
  - destruct acc as [|q acc]; simpl.
    + intros Hl. exfalso. destruct (clean_rel_shape [] 1 todo) as ([|m] & l & E & _ & Hm); [done..|lia|].
      simpl in E. rewrite E in Hl. apply Forall_cons in Hl as [(_ & _ & [] & _) _]. done.
    + apply Forall_cons in Ha as [(_ & _ & Hq & _) Ha]. destruct (decide (q = up)); [done|]. by apply IH.
  - rewrite app_comm_cons. apply IH; [|done]. constructor; [|done]. split_and!; naive_solver.
Qed.

(** What a name that passes stands for. *)
Lemma valid_name_parts name :
  IsAbs name = false -> validateWorktreeName name = None -> Forall plain_part (clean_parts false [] (Split Separator name)).
Proof.
  intros Ha. unfold validateWorktreeName, Clean, parts. rewrite Ha.
  destruct (clean_rel_shape [] 0 (Split Separator name)) as (m & l & E & Hl & _); [done|apply Split_no_sep|].
  simpl in E. rewrite E. destruct m as [|m]; [done|]. simpl. destruct (repeat up m ++ l) as [|q k]; [done|].
  assert (has_prefix (up +:+ String Separator (GoString.Join Separator (q :: k))) "../" = true) as ->
    by (apply has_prefix_spec; by eexists).
  by rewrite orb_true_r.
Qed.

(** A relative name that passes the first check names a place in the
    worktrees' directory: the second check never refuses it, and what is
    returned is the directory's own path followed by the name's components; all
    that can go wrong is that nothing is there. *)
Theorem worktree_name_inside wd exists_ dir name :
  IsAbs dir = true -> Clean dir = dir -> dir <> "/"%string -> name <> ""%string -> IsAbs name = false ->
  validateWorktreeName name = None ->
  exists l, Forall plain_part l /\ under (abs_path (parts dir ++ l)) dir = true /\
    resolveLegacyPath wd (Ok dir) exists_ name =
      if exists_ (abs_path (parts dir ++ l)) then Ok (abs_path (parts dir ++ l))
      else Err (Msg ("worktree '" +:+ name +:+ "' not found at " +:+ abs_path (parts dir ++ l))).
Proof.
  intros Ha Hc Hd Hn Hrel Hv. pose proof (valid_name_parts name Hrel Hv) as Hl.
  set (l := clean_parts false [] (Split Separator name)) in *. exists l. split; [done|].
  assert (Forall plain_part (parts dir)) as Hp by (by apply parts_abs_plain).
  assert (dir = abs_path (parts dir)) as Edir by (by rewrite <- Clean_abs).
  assert (parts dir <> []) as Hne by (intros E; rewrite E in Edir; done).
  assert (under (abs_path (parts dir ++ l)) dir = true) as Hu.
  { rewrite Edir at 2. apply under_prefix; [done|by apply Forall_app|done|by eexists]. }
  split; [done|].
  assert (Join dir name = abs_path (parts dir ++ l)) as EJ.
  { unfold Join. simpl. pose proof Ha as (r & Hr)%has_prefix_spec.
    rewrite bool_decide_false by (by rewrite Hr).
    assert (IsAbs (dir +:+ String Separator name) = true) as Ha'.
    { apply has_prefix_spec. rewrite Hr. eexists. rewrite !append_assoc. reflexivity. }
    rewrite Clean_abs by done. f_equal. unfold parts. rewrite Ha', Ha, Split_app_sep.
    destruct (clean_parts_app true [] (Split Separator dir) (Split Separator name)) as (acc & E1 & ->). rewrite E1.
    change acc with ([] ++ acc) at 1. rewrite clean_rel_below; [done| |done|apply Split_no_sep|done].
    rewrite <- (rev_involutive acc), <- E1. apply Forall_rev. apply clean_parts_plain; [done|apply Split_no_sep]. }
  unfold resolveLegacyPath. rewrite bool_decide_false, Hrel, Hv by done. simpl.
  rewrite EJ, Hc, Clean_abs_path by (by apply Forall_app).
  unfold under in Hu. destruct (has_prefix (abs_path (parts dir ++ l)) (dir +:+ "/")) eqn:Eh; simpl.
  - by destruct (exists_ _).
  - rewrite orb_false_r in Hu. apply bool_decide_eq_true in Hu. rewrite (bool_decide_false (_ <> dir)) by (by intros []).
    by destruct (exists_ _).
Qed.

Lemma worktree_name_inside_witness :
  IsAbs "/src/worktrees" = true /\ Clean "/src/worktrees" = "/src/worktrees"%string /\ validateWorktreeName "a/../b" = None /\
  exists l, Forall plain_part l /\ under (abs_path (parts "/src/worktrees" ++ l)) "/src/worktrees" = true /\
    resolveLegacyPath (Ok ""%string) (Ok "/src/worktrees"%string) (fun _ => true) "a/../b" = Ok (abs_path (parts "/src/worktrees" ++ l)).
Proof.
  do 3 (split; [vm_compute; reflexivity|]).
  apply (worktree_name_inside (Ok ""%string) (fun _ => true) "/src/worktrees" "a/../b"); try discriminate; vm_compute; reflexivity.
Defined.

(** ** Names of agents and tasks in log paths *)
Definition name_char (dots : bool) (c : ascii) : bool :=
  let n := nat_of_ascii c in
  (97 <=? n)%nat && (n <=? 122)%nat || (65 <=? n)%nat && (n <=? 90)%nat || (48 <=? n)%nat && (n <=? 57)%nat ||
  bool_decide (c = "_"%char) || bool_decide (c = "-"%char) || dots && bool_decide (c = "."%char).

(** [^[a-zA-Z0-9_.-]+$], or without the dot. *)
Definition name_chars (dots : bool) (s : string) : bool :=
  negb (bool_decide (s = ""%string)) && forallb (name_char dots) (String.list_ascii_of_string s).

(** The writer of the logs and the reader on the web server. *)
Definition router_name_ok (s : string) : bool := name_chars true s && negb (bool_decide (s = "."%string)) && negb (bool_decide (s = up)).
Definition web_name_ok (s : string) : bool := name_chars false s.

Lemma name_chars_plain dots s : name_chars dots s = true -> s <> "."%string -> s <> up -> plain_part s.
Proof.
  unfold name_chars. intros [Hne Hall]%andb_true_iff H1 H2. apply negb_true_iff, bool_decide_eq_false in Hne.
  split_and!; try done. clear Hne H1 H2. induction s as [|c s IH]; [done|]. simpl in *. apply andb_true_iff in Hall as [Hc Hall].
  rewrite (IH Hall), orb_false_r. apply bool_decide_eq_false. intros ->. by destruct dots.
Qed.

(** The log of a task with a dotted identifier is written but never served. *)
Example dotted_task_unreadable : router_name_ok "loomcli-mp5.33" = true /\ web_name_ok "loomcli-mp5.33" = false.
Proof. vm_compute. done. Qed.
End Paths.
