(* ===== verification/Breaker.v ===== *)
(** * Breaker: the circuit breaker of [internal/circuitbreaker/breaker.go]

    The state of [Breaker], its configuration with the defaults of
    [NewBreaker], and every method. A method that takes the lock is one step
    (the clock is read once per critical section, in nanoseconds); the calls
    made through [Execute] are the pair of steps [beforeRequest] /
    [afterRequest], which other requests may interleave with. *)
From S2P Require Import Prelude.
Local Open Scope Z_scope.

Module Breaker.

(** ** Data *)
Inductive State := StateClosed | StateOpen | StateHalfOpen.

#[export] Instance State_eq_dec : EqDecision State.
Proof. solve_decision. Defined.

Definition State_String (s : State) : string :=
  match s with
  | StateClosed => "closed"
  | StateOpen => "open"
  | StateHalfOpen => "half-open"
  end%string.

Definition ErrCircuitOpen : goerror := Sentinel "circuit breaker open".

(** [OnStateChange] says whether a callback is installed: the calls made to it
    are returned by the operations. *)
Record Config := mkConfig {
  FailureThreshold : Z;
  OpenTimeout : Z;
  HalfOpenMaxProbes : Z;
  ShouldTrip : option (option goerror -> bool);
  OnStateChange : bool;
}.

Record Breaker := mkBreaker {
  name : string;
  config : Config;
  state : State;
  failures : Z;
  successes : Z;
  consecutiveFail : Z;
  halfOpenProbes : Z;
  lastStateChange : Z;
  lastFailure : Z;
  openedAt : Z;
}.

Record BreakerStats := mkStats {
  st_State : State;
  st_Failures : Z;
  st_Successes : Z;
  st_ConsecutiveFail : Z;
  st_LastStateChange : Z;
  st_LastFailure : Z;
}.

(** ** Operations *)
Definition default_trip (err : option goerror) : bool := bool_decide (err <> None).

Definition normalize_config (c : Config) : Config := {|
  FailureThreshold := if FailureThreshold c <=? 0 then 5 else FailureThreshold c;
  OpenTimeout := if OpenTimeout c <=? 0 then 30 * 1000000000 else OpenTimeout c;
  HalfOpenMaxProbes := if HalfOpenMaxProbes c <=? 0 then 1 else HalfOpenMaxProbes c;
  ShouldTrip := match ShouldTrip c with None => Some default_trip | f => f end;
  OnStateChange := OnStateChange c;
|}.

Definition NewBreaker (now : Z) (nm : string) (c : Config) : Breaker := {|
  name := nm; config := normalize_config c; state := StateClosed;
  failures := 0; successes := 0; consecutiveFail := 0; halfOpenProbes := 0;
  lastStateChange := now; lastFailure := 0; openedAt := 0;
|}.

(** The call [b.config.ShouldTrip(err)]; [NewBreaker] never leaves it nil. *)
Definition should_trip (b : Breaker) (err : option goerror) : bool :=
  match ShouldTrip (config b) with Some f => f err | None => default_trip err end.

Definition setState (now : Z) (s : State) (b : Breaker) : Breaker :=
  mkBreaker (name b) (config b) s (failures b) (successes b) (consecutiveFail b)
    (halfOpenProbes b) now (lastFailure b) (openedAt b).

Definition set_probes (n : Z) (b : Breaker) : Breaker :=
  mkBreaker (name b) (config b) (state b) (failures b) (successes b) (consecutiveFail b)
    n (lastStateChange b) (lastFailure b) (openedAt b).

Definition set_consecutive (n : Z) (b : Breaker) : Breaker :=
  mkBreaker (name b) (config b) (state b) (failures b) (successes b) n
    (halfOpenProbes b) (lastStateChange b) (lastFailure b) (openedAt b).

Definition set_openedAt (t : Z) (b : Breaker) : Breaker :=
  mkBreaker (name b) (config b) (state b) (failures b) (successes b) (consecutiveFail b)
    (halfOpenProbes b) (lastStateChange b) (lastFailure b) t.

(** [b.failures++; b.consecutiveFail++; b.lastFailure = time.Now()]. *)
Definition count_failure (now : Z) (b : Breaker) : Breaker :=
  mkBreaker (name b) (config b) (state b) (inc64 (failures b)) (successes b)
    (inc64 (consecutiveFail b)) (halfOpenProbes b) (lastStateChange b) now (openedAt b).

Definition count_success (b : Breaker) : Breaker :=
  mkBreaker (name b) (config b) (state b) (failures b) (inc64 (successes b))
    (consecutiveFail b) (halfOpenProbes b) (lastStateChange b) (lastFailure b) (openedAt b).

(** [time.Since(b.openedAt) >= b.config.OpenTimeout]. *)
Definition open_expired (now : Z) (b : Breaker) : bool :=
  OpenTimeout (config b) <=? time_sub now (openedAt b).

Definition currentState (now : Z) (b : Breaker) : State :=
  if bool_decide (state b = StateOpen) && open_expired now b
  then StateHalfOpen else state b.

Definition GetState := currentState.

Definition Stats (now : Z) (b : Breaker) : BreakerStats :=
  mkStats (currentState now b) (failures b) (successes b) (consecutiveFail b)
    (lastStateChange b) (lastFailure b).

(** The error is [None] when the request is let through. *)
Definition beforeRequest (now : Z) (b : Breaker) : Breaker * option goerror :=
  match state b with
  | StateClosed => (b, None)
  | StateOpen =>
      if open_expired now b
      then (set_probes 1 (setState now StateHalfOpen b), None)
      else (b, Some ErrCircuitOpen)
  | StateHalfOpen =>
      if halfOpenProbes b <? HalfOpenMaxProbes (config b)
      then (set_probes (inc64 (halfOpenProbes b)) b, None)
      else (b, Some ErrCircuitOpen)
  end.

(** Second component: the transition handed to the callback, if any. *)
Definition afterRequest (now : Z) (err : option goerror) (b : Breaker)
  : Breaker * list (State * State) :=
  let notify (t : option (State * State)) :=
    match t with
    | Some p => if OnStateChange (config b) then [p] else []
    | None => []
    end in
  if bool_decide (err <> None) && should_trip b err then
    let b1 := count_failure now b in
    match state b1 with
    | StateClosed =>
        if FailureThreshold (config b1) <=? consecutiveFail b1
        then (set_openedAt now (setState now StateOpen b1),
              notify (Some (StateClosed, StateOpen)))
        else (b1, notify None)
    | StateHalfOpen =>
        (set_probes 0 (set_openedAt now (setState now StateOpen b1)),
         notify (Some (StateHalfOpen, StateOpen)))
    | StateOpen => (b1, notify None)
    end
  else if bool_decide (err = None) then
    let b1 := count_success b in
    match state b1 with
    | StateClosed => (set_consecutive 0 b1, notify None)
    | StateHalfOpen =>
        (set_probes 0 (set_consecutive 0 (setState now StateClosed b1)),
         notify (Some (StateHalfOpen, StateClosed)))
    | StateOpen => (b1, notify None)
    end
  else (b, notify None).

Definition Reset (now : Z) (b : Breaker) : Breaker * list (State * State) :=
  let b' := set_probes 0 (set_consecutive 0 (setState now StateClosed b)) in
  (b', if bool_decide (state b <> StateClosed) && OnStateChange (config b)
       then [(state b, StateClosed)] else []).

(** [ExecuteWithResult] for a caller whose operation reads and changes a world
    [W] with a clock; [zero] is the zero value of the result type. *)
Definition ExecuteWithResult {W A} (clock : W -> Z) (zero : A)
    (fn : W -> W * (A * option goerror)) (b : Breaker) (w : W)
  : Breaker * W * (A * option goerror) :=
  match beforeRequest (clock w) b with
  | (b1, Some e) => (b1, w, (zero, Some e))
  | (b1, None) =>
      let '(w', (r, err)) := fn w in
      (fst (afterRequest (clock w') err b1), w', (r, err))
  end.

Definition Execute {W} (clock : W -> Z) (fn : W -> W * option goerror)
    (b : Breaker) (w : W) : Breaker * W * option goerror :=
  match beforeRequest (clock w) b with
  | (b1, Some e) => (b1, w, Some e)
  | (b1, None) =>
      let '(w', err) := fn w in
      (fst (afterRequest (clock w') err b1), w', err)
  end.

(** ** Concurrent requests

    [inflight] counts the requests that [beforeRequest] let through and whose
    [afterRequest] has not run yet: the steps of different requests interleave
    freely. *)
Record sys := mkSys { brk : Breaker; inflight : nat }.

Inductive label :=
| LBegin (now : Z) (admitted : bool)
| LEnd (now : Z) (err : option goerror)
| LReset (now : Z).

Inductive bstep : sys -> label -> sys -> Prop :=
| step_admit now b n b' :
    beforeRequest now b = (b', None) -> bstep (mkSys b n) (LBegin now true) (mkSys b' (S n))
| step_reject now b n b' e :
    beforeRequest now b = (b', Some e) -> bstep (mkSys b n) (LBegin now false) (mkSys b' n)
| step_end now err b n :
    bstep (mkSys b (S n)) (LEnd now err) (mkSys (fst (afterRequest now err b)) n)
| step_reset now b n :
    bstep (mkSys b n) (LReset now) (mkSys (fst (Reset now b)) n).

(** Number of requests let through in a trace. *)
Fixpoint admitted (ls : list label) : Z :=
  match ls with
  | [] => 0
  | LBegin _ true :: ls' => 1 + admitted ls'
  | _ :: ls' => admitted ls'
  end.

(** ** Well-formed breakers *)
Record config_ok (c : Config) : Prop := {
  ok_threshold : 0 < FailureThreshold c <= max_int64;
  ok_timeout : 0 < OpenTimeout c <= max_int64;
  ok_probes : 0 < HalfOpenMaxProbes c <= max_int64;
}.

Record breaker_ok (b : Breaker) : Prop := {
  ok_config : config_ok (config b);
  ok_closed : state b = StateClosed -> 0 <= consecutiveFail b < FailureThreshold (config b);
  ok_half : state b = StateHalfOpen -> 1 <= halfOpenProbes b <= HalfOpenMaxProbes (config b);
  ok_nonhalf : state b <> StateHalfOpen -> halfOpenProbes b = 0;
}.

(** ** Library *)
Lemma normalize_config_ok c :
  FailureThreshold c <= max_int64 -> OpenTimeout c <= max_int64 ->
  HalfOpenMaxProbes c <= max_int64 -> config_ok (normalize_config c).
Proof.
  intros. split; simpl; case_tests; unfold max_int64 in *; lia.
Qed.

Lemma NewBreaker_ok now nm c :
  config_ok (normalize_config c) -> breaker_ok (NewBreaker now nm c).
Proof.
  intros Hc. pose proof (ok_threshold _ Hc). split; simpl; try done; intros; simpl in *; lia.
Qed.

Lemma beforeRequest_config now b : config (fst (beforeRequest now b)) = config b.
Proof. unfold beforeRequest. by destruct (state b); case_tests. Qed.

Lemma afterRequest_config now err b : config (fst (afterRequest now err b)) = config b.
Proof. unfold afterRequest. simpl. by destruct (state b); case_tests. Qed.

Lemma beforeRequest_ok now b : breaker_ok b -> breaker_ok (fst (beforeRequest now b)).
Proof.
  intros [Hc Hcl Hh Hn]. pose proof (ok_probes _ Hc). unfold beforeRequest.
  destruct (state b) eqn:E; case_tests; split; simpl; try done;
    rewrite ?E; intros; simplify_eq; try done; auto.
  - lia.
  - pose proof (Hh eq_refl). rewrite inc64_id by int64_lia. lia.
Qed.

Lemma afterRequest_ok now err b : breaker_ok b -> breaker_ok (fst (afterRequest now err b)).
Proof.
  intros [Hc Hcl Hh Hn]. pose proof (ok_threshold _ Hc). unfold afterRequest. simpl.
  destruct (state b) eqn:E; case_tests; split; simpl; try done;
    rewrite ?E in *; intros; simplify_eq; try done; auto; try lia.
  pose proof (Hcl eq_refl). rewrite inc64_id in *; int64_lia.
Qed.

Lemma Reset_ok now b : breaker_ok b -> breaker_ok (fst (Reset now b)).
Proof.
  intros [Hc Hcl Hh Hn]. pose proof (ok_threshold _ Hc).
  split; simpl; try done; intros; lia.
Qed.

#[export] Hint Resolve beforeRequest_ok afterRequest_ok Reset_ok NewBreaker_ok : go.

Lemma bstep_ok s l s' : breaker_ok (brk s) -> bstep s l s' -> breaker_ok (brk s').
Proof.
  intros Hok Hs. inversion Hs; subst; cbn [brk] in *;
    try match goal with
        | E : beforeRequest ?now ?b = (?b', _) |- breaker_ok ?b' =>
            replace b' with (fst (beforeRequest now b)) by (by rewrite E)
        end; auto with go.
Qed.

(** One step with a tripping failure in the closed state. *)
Lemma after_trip_closed now e b :
  breaker_ok b -> state b = StateClosed -> should_trip b (Some e) = true ->
  let b' := fst (afterRequest now (Some e) b) in
  consecutiveFail b' = consecutiveFail b + 1 /\
  state b' = (if FailureThreshold (config b) <=? consecutiveFail b + 1
              then StateOpen else StateClosed) /\
  (state b' = StateOpen -> openedAt b' = now).
Proof.
  intros Hok Hcl Ht. pose proof (ok_closed _ Hok Hcl). pose proof (ok_threshold _ (ok_config _ Hok)).
  unfold afterRequest. rewrite Ht, bool_decide_true by done. simpl.
  assert (inc64 (consecutiveFail b) = consecutiveFail b + 1) as Hi by (apply inc64_id; int64_lia).
  rewrite Hcl, Hi. case_tests; simpl; rewrite ?Hi; split_and!; congruence.
Qed.

Lemma Execute_closed {W} (clock : W -> Z) fn b w :
  state b = StateClosed ->
  Execute clock fn b w =
    (fst (afterRequest (clock (fst (fn w))) (snd (fn w)) b), fst (fn w), snd (fn w)).
Proof. intros E. unfold Execute, beforeRequest. rewrite E. by destruct (fn w). Qed.

Lemma should_trip_config b b' err :
  config b = config b' -> should_trip b err = should_trip b' err.
Proof. unfold should_trip. by intros ->. Qed.

(** Calls of [Execute], one after the other: each is given by the time it
    starts, the time its operation returns, and the operation's error. *)
Fixpoint run_calls (calls : list (Z * Z * option goerror)) (b : Breaker)
  : Breaker * list (option goerror) :=
  match calls with
  | [] => (b, [])
  | (t, t', err) :: rest =>
      let '(b1, _, r) := Execute (fun w => w) (fun _ => (t', err)) b t in
      let '(b2, rs) := run_calls rest b1 in
      (b2, r :: rs)
  end.

(** ** Properties *)

(** C17. Invariant of the breaker under every interleaving of requests, results
    and resets, from [NewBreaker] with any configuration of [int] values: in
    the closed state the consecutive failures are below the threshold, in the
    half-open state between 1 and [HalfOpenMaxProbes] probes are counted, and
    no probe is counted in the other states. *)
Theorem breaker_invariant now nm c ls s :
  FailureThreshold c <= max_int64 -> OpenTimeout c <= max_int64 ->
  HalfOpenMaxProbes c <= max_int64 ->
  steps bstep (mkSys (NewBreaker now nm c) 0) ls s ->
  let b := brk s in
  (state b = StateClosed -> 0 <= consecutiveFail b < FailureThreshold (config b)) /\
  (state b = StateHalfOpen -> 1 <= halfOpenProbes b <= HalfOpenMaxProbes (config b)) /\
  (state b <> StateHalfOpen -> halfOpenProbes b = 0).
Proof.
  intros H1 H2 H3 Hs.
  destruct (steps_inv bstep (fun s => breaker_ok (brk s)) _ _ _
    (fun s l s' => bstep_ok s l s') Hs) as [_ Hcl Hh Hn]; [|auto].
  apply NewBreaker_ok. by apply normalize_config_ok.
Qed.

(** The threshold failures in a row that trip a closed breaker. *)
Lemma run_failures_closed calls b :
  breaker_ok b -> state b = StateClosed ->
  Forall (fun c => exists e, snd c = Some e /\ should_trip b (Some e) = true) calls ->
  consecutiveFail b + Z.of_nat (length calls) < FailureThreshold (config b) ->
  let b' := fst (run_calls calls b) in
  breaker_ok b' /\ config b' = config b /\ state b' = StateClosed /\
  consecutiveFail b' = consecutiveFail b + Z.of_nat (length calls) /\
  snd (run_calls calls b) = map snd calls.
Proof.
  revert b; induction calls as [|[[t t'] err] calls IH]; intros b Hok Hcl Hall Hlt.
  { simpl. split_and!; [done..| |done]. lia. }
  inversion Hall as [|? ? (e & He & Ht) Hall']; subst. simpl in He; subst err.
  pose proof (after_trip_closed t' e b Hok Hcl Ht) as (Hc & Hs & _).
  pose proof (afterRequest_config t' (Some e) b) as Hcfg.
  pose proof (afterRequest_ok t' (Some e) b Hok) as Hok1.
  simpl run_calls. rewrite (Execute_closed _ _ _ _ Hcl). simpl fst. simpl snd.
  set (b1 := fst (afterRequest t' (Some e) b)) in *.
  simpl in Hlt. rewrite (proj2 (Z.leb_gt _ _)) in Hs by lia.
  destruct (IH b1 Hok1 Hs) as (A & B & C & D & E).
  - eapply Forall_impl; [exact Hall'|]. intros c (e' & ? & ?). exists e'.
    by rewrite (should_trip_config b1 b) by done.
  - rewrite Hcfg. lia.
  - destruct (run_calls calls b1) as [b2 rs]. simpl in *. split_and!; [done| | |lia|].
    + by rewrite B.
    + done.
    + by rewrite E.
Qed.

Lemma run_calls_app l1 l2 b :
  run_calls (l1 ++ l2) b =
    let '(b1, r1) := run_calls l1 b in
    let '(b2, r2) := run_calls l2 b1 in (b2, r1 ++ r2).
Proof.
  revert b; induction l1 as [|[[t t'] err] l1 IH]; intros b; simpl.
  { by destruct (run_calls l2 b). }
  destruct (Execute _ _ _ _) as [[b1 w] r]. rewrite IH.
  destruct (run_calls l1 b1) as [b2 r1]. by destruct (run_calls l2 b2) as [b3 r2].
Qed.

(** A closed breaker with no failure pending stays closed, and hands every
    error through, for fewer than [FailureThreshold] tripping failures in a
    row; the last of exactly [FailureThreshold] opens it, and from then until
    [OpenTimeout] has elapsed a call is refused with [ErrCircuitOpen] without
    running its operation, the breaker and the caller's world unchanged. *)
Theorem trips_at_threshold {W} (clock : W -> Z) (fn : W -> W * option goerror)
    calls t t' e b w :
  breaker_ok b -> state b = StateClosed -> consecutiveFail b = 0 ->
  Forall (fun c => exists e, snd c = Some e /\ should_trip b (Some e) = true) calls ->
  should_trip b (Some e) = true ->
  Z.of_nat (length calls) + 1 = FailureThreshold (config b) ->
  t' <= clock w < t' + OpenTimeout (config b) ->
  let b1 := fst (run_calls calls b) in
  let b2 := fst (run_calls (calls ++ [(t, t', Some e)]) b) in
  state b1 = StateClosed /\ state b2 = StateOpen /\
  snd (run_calls (calls ++ [(t, t', Some e)]) b) = map snd calls ++ [Some e] /\
  Execute clock fn b2 w = (b2, w, Some ErrCircuitOpen).
Proof.
  intros Hok Hcl H0 Hall Ht Hlen Hw.
  destruct (run_failures_closed calls b Hok Hcl Hall ltac:(lia)) as (Hok1 & Hcfg & Hs1 & Hc1 & Hr).
  rewrite run_calls_app. destruct (run_calls calls b) as [b1 r1]. simpl in *.
  assert (should_trip b1 (Some e) = true) as Ht1 by (by rewrite (should_trip_config b1 b)).
  destruct (after_trip_closed t' e b1 Hok1 Hs1 Ht1) as (_ & Hs2 & Hopen).
  pose proof (afterRequest_config t' (Some e) b1) as Hcfg2.
  rewrite (Execute_closed _ _ _ _ Hs1). simpl. set (b2 := fst (afterRequest t' (Some e) b1)) in *.
  rewrite Hcfg, (proj2 (Z.leb_le _ _)) in Hs2 by lia. specialize (Hopen Hs2).
  split_and!; [done|done|by rewrite Hr|].
  unfold Execute, beforeRequest, open_expired. rewrite Hs2, Hopen, Hcfg2, Hcfg.
  pose proof (ok_timeout _ (ok_config _ Hok)).
  destruct (Z.leb_spec (OpenTimeout (config b)) (time_sub (clock w) t')) as [Hle|Hlt]; [|done].
  unfold time_sub in Hle. rewrite sat64_ge in Hle by int64_lia. lia.
Qed.

(** A trace all of whose states after the first are half-open. *)
Inductive half_open_run : sys -> list label -> sys -> Prop :=
| hor_nil s : half_open_run s [] s
| hor_cons s l s' ls s'' :
    bstep s l s' -> state (brk s') = StateHalfOpen -> half_open_run s' ls s'' ->
    half_open_run s (l :: ls) s''.

Lemma afterRequest_stays_half now err b :
  state b = StateHalfOpen -> state (fst (afterRequest now err b)) = StateHalfOpen ->
  halfOpenProbes (fst (afterRequest now err b)) = halfOpenProbes b.
Proof. unfold afterRequest. simpl. intros E. rewrite E. by case_tests. Qed.

Lemma half_open_count s ls s' :
  half_open_run s ls s' -> breaker_ok (brk s) -> state (brk s) = StateHalfOpen ->
  admitted ls = halfOpenProbes (brk s') - halfOpenProbes (brk s) /\ breaker_ok (brk s') /\
  state (brk s') = StateHalfOpen /\ config (brk s') = config (brk s).
Proof.
  intros Hr. induction Hr as [s|s l s' ls s'' Hst Hh Hr IH]; intros Hok Hs.
  { simpl. split_and!; [lia|done..]. }
  pose proof (bstep_ok _ _ _ Hok Hst) as Hok'. destruct (IH Hok' Hh) as (Ha & Hok'' & Hs'' & Hc).
  pose proof (ok_half _ Hok Hs). pose proof (ok_probes _ (ok_config _ Hok)).
  inversion Hst as [now b n b' E|now b n b' e E|now err b n|now b n]; subst; cbn [brk] in *.
  - unfold beforeRequest in E. rewrite Hs in E. case_tests; simplify_eq. simpl in *.
    rewrite inc64_id in Ha by int64_lia. split_and!; [lia|done..].
  - unfold beforeRequest in E. rewrite Hs in E. case_tests; simplify_eq. simpl. split_and!; done.
  - rewrite (afterRequest_stays_half _ _ _ Hs Hh) in Ha. simpl.
    rewrite Hc, afterRequest_config. split_and!; done.
  - discriminate.
Qed.

(** While the breaker is half-open it lets through at most
    [HalfOpenMaxProbes] requests, whatever requests begin and end meanwhile:
    the trace starts at the request that found the breaker open. *)
Theorem half_open_admissions s ls s' :
  breaker_ok (brk s) -> state (brk s) = StateOpen -> half_open_run s ls s' ->
  admitted ls <= HalfOpenMaxProbes (config (brk s)).
Proof.
  intros Hok Hs Hr. pose proof (ok_probes _ (ok_config _ Hok)).
  destruct Hr as [s|s l s' ls s'' Hst Hh Hr]; [simpl; lia|].
  pose proof (bstep_ok _ _ _ Hok Hst) as Hok'.
  destruct (half_open_count _ _ _ Hr Hok' Hh) as (Ha & Hok'' & Hs'' & Hc).
  pose proof (ok_half _ Hok'' Hs''). inversion Hst as
    [now b n b' E|now b n b' e E|now err b n|now b n]; subst; cbn [brk] in *.
  - unfold beforeRequest in E. rewrite Hs in E. case_tests; simplify_eq. simpl in *.
    rewrite Hc in *. simpl in *. lia.
  - unfold beforeRequest in E. rewrite Hs in E. case_tests; simplify_eq. by rewrite Hs in Hh.
  - exfalso. revert Hh. unfold afterRequest. simpl. rewrite Hs. case_tests; simpl; congruence.
  - discriminate.
Qed.

(** Recovery: once [OpenTimeout] has elapsed since the breaker opened,
    the next call runs its operation as a probe; a success closes the breaker
    with the failure and probe counters cleared, a tripping failure opens it
    again from the time of that failure. *)
Theorem open_recovers {W} (clock : W -> Z) (fn : W -> W * option goerror) b w :
  breaker_ok b -> state b = StateOpen ->
  openedAt b + OpenTimeout (config b) <= clock w ->
  let '(w', err) := fn w in
  let '(b', w1, err') := Execute clock fn b w in
  w1 = w' /\ err' = err /\
  match err with
  | None => state b' = StateClosed /\ consecutiveFail b' = 0 /\ halfOpenProbes b' = 0
  | Some e => should_trip b (Some e) = true ->
      state b' = StateOpen /\ openedAt b' = clock w' /\ halfOpenProbes b' = 0
  end.
Proof.
  intros Hok Hs Ht. destruct (fn w) as [w' err] eqn:Hfn.
  pose proof (ok_timeout _ (ok_config _ Hok)).
  assert (open_expired (clock w) b = true) as Hexp.
  { unfold open_expired, time_sub. apply Z.leb_le, sat64_ge; int64_lia. }
  unfold Execute, beforeRequest. rewrite Hs, Hexp, Hfn.
  split_and!; [done|done|]. destruct err as [e|]; simpl; [|done].
  intros Htrip. unfold afterRequest, should_trip in *. simpl in *. by rewrite Htrip.
Qed.

(** A half-open breaker with all its probes counted refuses every call. *)
Lemma wedged_Execute {W} (clock : W -> Z) fn b w :
  state b = StateHalfOpen -> halfOpenProbes b = HalfOpenMaxProbes (config b) ->
  Execute clock fn b w = (b, w, Some ErrCircuitOpen).
Proof.
  intros Hs Hp. unfold Execute, beforeRequest. by rewrite Hs, Hp, Z.ltb_irrefl.
Qed.

(** A probe slot is not given back when the operation ends with an error
    that does not count as a failure: with one probe allowed (the default), a
    call that finds the timeout elapsed and ends with such an error leaves the
    breaker refusing every later sequential call, at any time, for ever. *)
Theorem nontripping_probe_wedges t t' e calls b :
  state b = StateOpen -> 0 < OpenTimeout (config b) <= max_int64 ->
  HalfOpenMaxProbes (config b) = 1 ->
  openedAt b + OpenTimeout (config b) <= t -> should_trip b (Some e) = false ->
  let b1 := fst (run_calls [(t, t', Some e)] b) in
  run_calls calls b1 = (b1, map (fun _ => Some ErrCircuitOpen) calls) /\
  state b1 = StateHalfOpen.
Proof.
  intros Hs Hto Hmax Ht Htrip. simpl.
  assert (open_expired t b = true) as Hexp.
  { unfold open_expired, time_sub. apply Z.leb_le, sat64_ge; int64_lia. }
  unfold Execute at 2, beforeRequest. unfold Execute, beforeRequest. rewrite Hs, Hexp. simpl.
  unfold afterRequest, should_trip in *. simpl. rewrite Htrip. simpl.
  split; [|done]. set (b1 := set_probes 1 _).
  assert (forall cs, run_calls cs b1 = (b1, map (fun _ => Some ErrCircuitOpen) cs)) as Hall.
  { induction cs as [|[[u u'] err] cs IH]; [done|]. simpl.
    rewrite wedged_Execute by done. by rewrite IH. }
  apply Hall.
Qed.

(** ** Witnesses *)
Definition cfg_example : Config := mkConfig 2 10 1 None true.
Definition trip_all_but (e : goerror) (err : option goerror) : bool :=
  bool_decide (err <> None /\ err <> Some e).
Definition cfg_selective : Config :=
  mkConfig 2 10 1 (Some (trip_all_but context_canceled)) false.
Definition refused : goerror := Msg "connection refused".

Lemma cfg_example_ok : config_ok (normalize_config cfg_example).
Proof. apply normalize_config_ok; vm_compute; discriminate. Qed.
Lemma cfg_selective_ok : config_ok (normalize_config cfg_selective).
Proof. apply normalize_config_ok; vm_compute; discriminate. Qed.
Definition open_example : Breaker :=
  fst (run_calls [(1, 2, Some refused); (3, 4, Some refused)] (NewBreaker 0 "kv" cfg_example)).
Lemma open_example_ok : breaker_ok open_example.
Proof. split; [apply cfg_example_ok|vm_compute; intros; done..]. Qed.

Lemma breaker_invariant_witness :
  halfOpenProbes (brk (mkSys (fst (beforeRequest 0 (NewBreaker 0 "kv" cfg_example))) 1)) = 0.
Proof.
  apply (breaker_invariant 0 "kv" cfg_example [LBegin 0 true] (mkSys _ 1));
    [vm_compute; discriminate..| |vm_compute; discriminate].
  eapply steps_cons; [by apply step_admit|apply steps_nil].
Defined.

Lemma trips_at_threshold_witness :
  Execute (fun w => w) (fun w => (w, None)) open_example 5 = (open_example, 5, Some ErrCircuitOpen).
Proof.
  refine (proj2 (proj2 (proj2 (trips_at_threshold (fun w => w) (fun w => (w, None))
    [(1, 2, Some refused)] 3 4 refused (NewBreaker 0 "kv" cfg_example) 5 _ _ _ _ _ _ _))));
    [apply NewBreaker_ok, cfg_example_ok|reflexivity|reflexivity| |reflexivity|reflexivity|vm_compute; split; congruence].
  constructor; [|constructor]. exists refused. split; reflexivity.
Defined.

Lemma half_open_admissions_witness : admitted [LBegin 20 true; LBegin 21 false] <= 1.
Proof.
  apply (half_open_admissions (mkSys open_example 0) [LBegin 20 true; LBegin 21 false]
    (mkSys (fst (beforeRequest 20 open_example)) 1)); [apply open_example_ok|reflexivity|].
  eapply hor_cons; [by apply step_admit|reflexivity|].
  eapply hor_cons; [by eapply step_reject|reflexivity|apply hor_nil].
Defined.

Lemma open_recovers_witness :
  state (fst (fst (Execute (fun w => w) (fun w => (w + 1, None)) open_example 20))) = StateClosed.
Proof.
  refine (proj1 (proj2 (proj2 (open_recovers (fun w => w) (fun w => (w + 1, None)) open_example 20 _ _ _))));
    [apply open_example_ok|reflexivity|vm_compute; congruence].
Defined.

Lemma nontripping_probe_wedges_witness :
  let b := fst (run_calls [(1, 2, Some refused); (3, 4, Some refused)]
             (NewBreaker 0 "kv" cfg_selective)) in
  let b1 := fst (run_calls [(20, 21, Some context_canceled)] b) in
  run_calls [(1000, 1001, None)] b1 = (b1, [Some ErrCircuitOpen]).
Proof.
  refine (proj1 (nontripping_probe_wedges 20 21 context_canceled [(1000, 1001, None)]
    (fst (run_calls [(1, 2, Some refused); (3, 4, Some refused)]
       (NewBreaker 0 "kv" cfg_selective))) _ _ _ _ _));
    [reflexivity|vm_compute; split; congruence|reflexivity|vm_compute; congruence|reflexivity].
Defined.
End Breaker.
