(* ===== verification/Redis.v ===== *)
(** * Redis: the server the program talks to, as an interface

    Redis is not part of the program. [RedisServer] states what the clients
    rely on: the documented effect and reply of each command they send, on the
    keys that are live at the time of the command, and that the passing of
    time only removes the keys whose expiry is reached. Clients run Lua
    scripts, which execute atomically; a script is a tree of commands. The
    theorem [run_db_view] lets every script be analysed on its view, a finite
    map from keys to entries. [mem_redis] is a server that satisfies the laws. *)
From S2P Require Import Prelude.
Local Open Scope Z_scope.

Module Redis.

Inductive rvalue :=
| VString (s : string)
| VHash (h : gmap string string)
| VZSet (z : gmap string Z).

(** [ent_expire] is the absolute time in milliseconds at which the key goes. *)
Record entry := mkEntry { ent_val : rvalue; ent_expire : option Z }.

Abbreviation keyspace := (gmap string entry).

Inductive cmd :=
| GET (k : string)
| SET (k v : string) (ttl_ms : option Z)
| SETNX (k v : string) (ttl_ms : Z)
| EXPIRE (k : string) (ttl_ms : Z)
| DEL (k : string)
| EXISTS (k : string)
| HGET (k f : string)
| HSET (k : string) (fvs : list (string * string))
| HDEL (k : string) (fs : list string)
| HGETALL (k : string)
| ZADD (k : string) (score : Z) (m : string)
| ZREM (k : string) (m : string)
| ZRANGEBYSCORE (k : string) (max : Z)
| ZREMRANGEBYSCORE (k : string) (max : Z)
| ZCARD (k : string).

Inductive reply :=
| RNil
| RStatus
| RInt (n : Z)
| RBulk (s : string)
| RHash (h : gmap string string)
| RScored (l : list (string * Z))
| RError (msg : string).

Local Open Scope string_scope.
Definition wrongtype : reply :=
  RError "WRONGTYPE Operation against a key holding the wrong kind of value".
Definition invalid_expire : reply := RError "ERR invalid expire time".
Local Close Scope string_scope.

Definition alive (t : Z) (e : entry) : bool :=
  match ent_expire e with None => true | Some x => t <? x end.

Definition expire_at (t : Z) (ks : keyspace) : keyspace :=
  filter (fun ke => alive t ke.2 = true) ks.

Definition keep_ttl (e : option entry) : option Z := e ≫= ent_expire.

Definition hset (h : gmap string string) (fvs : list (string * string)) : gmap string string :=
  foldl (fun h fv => <[fv.1 := fv.2]> h) h fvs.

(** Sorted sets are ordered by score, then by member. *)
Definition scored_less (a b : string * Z) : bool :=
  (a.2 <? b.2) || ((a.2 =? b.2) && str_lt a.1 b.1).

(** The documented effect and reply of a command on the live keys at time [t];
    a hash or sorted set that becomes empty is removed with its key. *)
Definition doc_exec (t : Z) (c : cmd) (ks : keyspace) : keyspace * reply :=
  match c with
  | GET k =>
      match ent_val <$> ks !! k with
      | None => (ks, RNil)
      | Some (VString s) => (ks, RBulk s)
      | Some _ => (ks, wrongtype)
      end
  | SET k v None => (<[k := mkEntry (VString v) None]> ks, RStatus)
  | SET k v (Some ttl) =>
      if ttl <=? 0 then (ks, invalid_expire)
      else (<[k := mkEntry (VString v) (Some (t + ttl))]> ks, RStatus)
  | SETNX k v ttl =>
      match ks !! k with
      | Some _ => (ks, RNil)
      | None => if ttl <=? 0 then (ks, invalid_expire)
                else (<[k := mkEntry (VString v) (Some (t + ttl))]> ks, RStatus)
      end
  | EXPIRE k ttl =>
      match ks !! k with
      | None => (ks, RInt 0)
      | Some e => (if ttl <=? 0 then delete k ks
                   else <[k := mkEntry (ent_val e) (Some (t + ttl))]> ks, RInt 1)
      end
  | DEL k =>
      match ks !! k with
      | None => (ks, RInt 0)
      | Some _ => (delete k ks, RInt 1)
      end
  | EXISTS k => (ks, RInt (match ks !! k with None => 0 | Some _ => 1 end))
  | HGET k f =>
      match ent_val <$> ks !! k with
      | None => (ks, RNil)
      | Some (VHash h) => (ks, match h !! f with None => RNil | Some v => RBulk v end)
      | Some _ => (ks, wrongtype)
      end
  | HSET k fvs =>
      match ent_val <$> ks !! k with
      | None => (<[k := mkEntry (VHash (hset ∅ fvs)) None]> ks, RInt (Z.of_nat (length fvs)))
      | Some (VHash h) =>
          (<[k := mkEntry (VHash (hset h fvs)) (keep_ttl (ks !! k))]> ks,
           RInt (Z.of_nat (length fvs)))
      | Some _ => (ks, wrongtype)
      end
  | HDEL k fs =>
      match ent_val <$> ks !! k with
      | None => (ks, RInt 0)
      | Some (VHash h) =>
          let h' := foldl (fun h f => delete f h) h fs in
          (if bool_decide (h' = ∅) then delete k ks
           else <[k := mkEntry (VHash h') (keep_ttl (ks !! k))]> ks,
           RInt (Z.of_nat (size h) - Z.of_nat (size h')))
      | Some _ => (ks, wrongtype)
      end
  | HGETALL k =>
      match ent_val <$> ks !! k with
      | None => (ks, RHash ∅)
      | Some (VHash h) => (ks, RHash h)
      | Some _ => (ks, wrongtype)
      end
  | ZADD k score m =>
      match ent_val <$> ks !! k with
      | None => (<[k := mkEntry (VZSet {[m := score]}) None]> ks, RInt 1)
      | Some (VZSet z) =>
          (<[k := mkEntry (VZSet (<[m := score]> z)) (keep_ttl (ks !! k))]> ks,
           RInt (match z !! m with None => 1 | Some _ => 0 end))
      | Some _ => (ks, wrongtype)
      end
  | ZREM k m =>
      match ent_val <$> ks !! k with
      | None => (ks, RInt 0)
      | Some (VZSet z) =>
          let z' := delete m z in
          (if bool_decide (z' = ∅) then delete k ks
           else <[k := mkEntry (VZSet z') (keep_ttl (ks !! k))]> ks,
           RInt (match z !! m with None => 0 | Some _ => 1 end))
      | Some _ => (ks, wrongtype)
      end
  | ZRANGEBYSCORE k max =>
      match ent_val <$> ks !! k with
      | None => (ks, RScored [])
      | Some (VZSet z) =>
          (ks, RScored (InsertionSort.isort scored_less
                 (filter (fun ms => bool_decide (ms.2 <= max) = true) (map_to_list z))))
      | Some _ => (ks, wrongtype)
      end
  | ZREMRANGEBYSCORE k max =>
      match ent_val <$> ks !! k with
      | None => (ks, RInt 0)
      | Some (VZSet z) =>
          let z' := filter (fun ms => max < ms.2) z in
          (if bool_decide (z' = ∅) then delete k ks
           else <[k := mkEntry (VZSet z') (keep_ttl (ks !! k))]> ks,
           RInt (Z.of_nat (size z) - Z.of_nat (size z')))
      | Some _ => (ks, wrongtype)
      end
  | ZCARD k =>
      match ent_val <$> ks !! k with
      | None => (ks, RInt 0)
      | Some (VZSet z) => (ks, RInt (Z.of_nat (size z)))
      | Some _ => (ks, wrongtype)
      end
  end.

(** ** The interface *)
Class RedisServer := {
  db : Type;
  view : db -> Z -> keyspace;
  redis_exec : Z -> cmd -> db -> db * reply;
  view_alive : forall d t, expire_at t (view d t) = view d t;
  view_mono : forall d t t', t <= t' -> view d t' = expire_at t' (view d t);
  exec_reply : forall t c d, snd (redis_exec t c d) = snd (doc_exec t c (view d t));
  exec_view : forall t c d, view (fst (redis_exec t c d)) t = fst (doc_exec t c (view d t));
}.

(** ** Lua scripts: a tree of [redis.call]s; an error reply aborts the script,
    the effects of the commands already run remain. *)
Inductive lua (A : Type) : Type :=
| LRet (a : A)
| LCall (c : cmd) (k : reply -> lua A).
Arguments LRet {A} a.
Arguments LCall {A} c k.

Fixpoint run_ks {A} (t : Z) (p : lua A) (ks : keyspace) : keyspace * res A :=
  match p with
  | LRet a => (ks, Ok a)
  | LCall c k =>
      let (ks', r) := doc_exec t c ks in
      match r with
      | RError m => (ks', Err (Msg m))
      | _ => run_ks t (k r) ks'
      end
  end.

Section server.
Context {redis : RedisServer}.

Fixpoint run_db {A} (t : Z) (p : lua A) (d : db) : db * res A :=
  match p with
  | LRet a => (d, Ok a)
  | LCall c k =>
      let (d', r) := redis_exec t c d in
      match r with
      | RError m => (d', Err (Msg m))
      | _ => run_db t (k r) d'
      end
  end.

(** Running a script on the server is running it on the view. *)
Lemma run_db_view {A} t (p : lua A) d :
  view (fst (run_db t p d)) t = fst (run_ks t p (view d t)) /\
  snd (run_db t p d) = snd (run_ks t p (view d t)).
Proof.
  revert d; induction p as [a|c k IH]; intros d; [done|]. simpl.
  pose proof (exec_reply t c d) as Hr. pose proof (exec_view t c d) as Hv.
  destruct (redis_exec t c d) as [d' r]. destruct (doc_exec t c (view d t)) as [ks' r'].
  simpl in *. subst r'. rewrite <- Hv. destruct r; try apply IH. done.
Qed.
End server.

(** ** Expiry *)
Lemma expire_at_lookup t ks k :
  expire_at t ks !! k = match ks !! k with
                        | Some e => if alive t e then Some e else None
                        | None => None
                        end.
Proof.
  unfold expire_at. destruct (ks !! k) as [e|] eqn:E.
  - destruct (alive t e) eqn:Ha.
    + by apply map_lookup_filter_Some.
    + apply map_lookup_filter_None. right. intros e' He'. simpl. congruence.
  - apply map_lookup_filter_None. by left.
Qed.

Definition all_alive (t : Z) (ks : keyspace) : Prop :=
  forall k e, ks !! k = Some e -> alive t e = true.

Lemma expire_at_all_alive t ks : all_alive t ks -> expire_at t ks = ks.
Proof.
  intros H. apply map_eq. intros k. rewrite expire_at_lookup.
  destruct (ks !! k) as [e|] eqn:E; [|done]. by rewrite (H k e E).
Qed.

Lemma all_alive_expire_at t ks : all_alive t (expire_at t ks).
Proof.
  intros k e. rewrite expire_at_lookup. destruct (ks !! k) as [e'|]; [|done].
  destruct (alive t e') eqn:E; intros; by simplify_eq.
Qed.

Lemma alive_mono t t' e : t <= t' -> alive t' e = true -> alive t e = true.
Proof. unfold alive. destruct (ent_expire e); [|done]. rewrite !Z.ltb_lt. lia. Qed.

Lemma expire_at_expire_at t t' ks : t <= t' -> expire_at t' (expire_at t ks) = expire_at t' ks.
Proof.
  intros Hle. apply map_eq. intros k. rewrite !expire_at_lookup.
  destruct (ks !! k) as [e|]; [|done]. destruct (alive t e) eqn:E; [done|].
  destruct (alive t' e) eqn:E'; [|done]. by rewrite (alive_mono t t' e Hle E') in E.
Qed.

Lemma all_alive_insert t k e ks :
  all_alive t ks -> alive t e = true -> all_alive t (<[k := e]> ks).
Proof.
  intros H He k' e'. destruct (decide (k = k')) as [->|Hn].
  - rewrite lookup_insert_eq. by intros [= <-].
  - rewrite lookup_insert_ne by done. apply H.
Qed.

Lemma all_alive_delete t k ks : all_alive t ks -> all_alive t (delete k ks).
Proof.
  intros H k' e'. destruct (decide (k = k')) as [->|Hn].
  - by rewrite lookup_delete_eq.
  - rewrite lookup_delete_ne by done. apply H.
Qed.

Lemma alive_keep t ks k v : all_alive t ks -> alive t (mkEntry v (keep_ttl (ks !! k))) = true.
Proof.
  intros H. unfold keep_ttl. destruct (ks !! k) as [e|] eqn:E; [|done]. simpl.
  specialize (H k e E). unfold alive in *. simpl. by destruct (ent_expire e).
Qed.

Lemma alive_future t v ttl : 0 < ttl -> alive t (mkEntry v (Some (t + ttl))) = true.
Proof. intros. apply Z.ltb_lt. lia. Qed.

#[export] Hint Resolve all_alive_insert all_alive_delete alive_keep alive_future : go.

Lemma doc_exec_all_alive t c ks : all_alive t ks -> all_alive t (fst (doc_exec t c ks)).
Proof.
  intros H. destruct c as [k|k v [ttl|]|k v ttl|k ttl|k|k|k f|k fvs|k fs|k|k sc m|k m|k mx|k mx|k];
    simpl; repeat case_match; simpl; auto with go;
    apply all_alive_insert; auto with go; apply alive_future; lia.
Qed.

Lemma run_ks_all_alive {A} t (p : lua A) ks :
  all_alive t ks -> all_alive t (fst (run_ks t p ks)).
Proof.
  revert ks; induction p as [a|c k IH]; intros ks H; [done|]. simpl.
  pose proof (doc_exec_all_alive t c ks H) as Ha. destruct (doc_exec t c ks) as [ks' r].
  destruct r; simpl in *; auto.
Qed.

(** ** An in-memory server with lazy expiry satisfies the interface. *)
Program Definition mem_redis : RedisServer := {|
  db := keyspace;
  view d t := expire_at t d;
  redis_exec t c d := doc_exec t c (expire_at t d);
|}.
Next Obligation. intros d t. apply expire_at_all_alive, all_alive_expire_at. Qed.
Next Obligation. intros d t t' Hle. symmetry. by apply expire_at_expire_at. Qed.
Next Obligation. done. Qed.
Next Obligation.
  intros t c d. apply expire_at_all_alive, doc_exec_all_alive, all_alive_expire_at.
Qed.
End Redis.
