(* ===== verification/Net.v ===== *)
(** * Net: the world of a Redis client

    A client operation is a sequence of round trips. [IO A] threads the world:
    the server's data, the time (nanoseconds) with the client's clock skew, the
    schedule of the round trips still to come, and the circuit breaker attached
    to the client. Each round trip takes its delay, finds the server as the
    scripts of the other clients left it meanwhile, and may end in a network
    error either before or after the server executed the request. *)
From S2P Require Import Prelude Breaker Redis.
Export Redis.
Local Open Scope Z_scope.

Module Net.

(** [trip_others] is what other clients executed before the request arrived;
    [trip_fault = Some (e, executed)]: the client sees error [e]. *)
Record trip := mkTrip {
  trip_delay : Z;
  trip_others : list (lua unit);
  trip_fault : option (goerror * bool);
}.

Definition ms : Z := 1000000.

(** How the Redis driver sends a duration: [EXPIRE] takes whole seconds, [SET]
    milliseconds; a positive duration below the unit is sent as one unit. *)
Definition expire_ttl_ms (d : Z) : Z :=
  1000 * (if (0 <? d) && (d <? second) then 1 else Z.quot d second).
Definition set_ttl_ms (d : Z) : Z := if (0 <? d) && (d <? ms) then 1 else Z.quot d ms.

Section net.
Context {redis : RedisServer}.

Record world := mkWorld {
  w_db : db;
  w_now : Z;
  w_skew : Z;
  w_net : list trip;
  w_brk : option Breaker.Breaker;
}.

Definition set_brk (b : option Breaker.Breaker) (w : world) : world :=
  mkWorld (w_db w) (w_now w) (w_skew w) (w_net w) b.

(** The server's clock in milliseconds, and what a client would read. *)
Definition srv_ms (w : world) : Z := w_now w / ms.
Definition now_view (w : world) : keyspace := view (w_db w) (srv_ms w).

Definition IO (A : Type) : Type := world -> world * res A.

#[export] Instance IO_ret : MRet IO := fun A a w => (w, Ok a).
#[export] Instance IO_bind : MBind IO := fun A B f m w =>
  match m w with
  | (w', Ok a) => f a w'
  | (w', Err e) => (w', Err e)
  end.

Definition io_fail {A} (e : goerror) : IO A := fun w => (w, Err e).

(** [x, err := m] where the code goes on in both cases. *)
Definition io_try {A} (m : IO A) : IO (res A) :=
  fun w => let (w', r) := m w in (w', Ok r).

Definition wrap_err {A} (prefix : string) (m : IO A) : IO A :=
  fun w => match m w with
           | (w', Err e) => (w', Err (Wrapf prefix e ""))
           | r => r
           end.

(** [if err := check; err != nil { return err }]. *)
Definition io_check (o : option goerror) : IO unit :=
  fun w => match o with None => (w, Ok tt) | Some e => (w, Err e) end.

(** [time.Now()]. *)
Definition io_now : IO Z := fun w => (w, Ok (w_now w + w_skew w)).

Definition run_others (t : Z) (ps : list (lua unit)) (d : db) : db :=
  foldl (fun d p => fst (run_db t p d)) d ps.

(** One request, executed atomically by the server at the end of its delay. *)
Definition round_trip {A} (p : lua A) : IO A := fun w =>
  match w_net w with
  | [] =>
      let (d, r) := run_db (srv_ms w) p (w_db w) in
      (mkWorld d (w_now w) (w_skew w) [] (w_brk w), r)
  | tr :: net =>
      let now := w_now w + trip_delay tr in
      let d0 := run_others (now / ms) (trip_others tr) (w_db w) in
      match trip_fault tr with
      | None =>
          let (d, r) := run_db (now / ms) p d0 in
          (mkWorld d now (w_skew w) net (w_brk w), r)
      | Some (e, executed) =>
          let d := if executed then fst (run_db (now / ms) p d0) else d0 in
          (mkWorld d now (w_skew w) net (w_brk w), Err e)
      end
  end.

Lemma io_bind_ok {A B} (m : IO A) (f : A -> IO B) w w' a :
  m w = (w', Ok a) -> (m ≫= f) w = f a w'.
Proof. intros E. unfold mbind, IO_bind. by rewrite E. Qed.

Lemma io_bind_err {A B} (m : IO A) (f : A -> IO B) w w' e :
  m w = (w', Err e) -> (m ≫= f) w = (w', Err e).
Proof. intros E. unfold mbind, IO_bind. by rewrite E. Qed.

(** A round trip on a quiet network, seen on the view. *)
Lemma round_trip_quiet {A} (p : lua A) w :
  w_net w = [] ->
  let w' := fst (round_trip p w) in
  now_view w' = fst (run_ks (srv_ms w) p (now_view w)) /\
  snd (round_trip p w) = snd (run_ks (srv_ms w) p (now_view w)) /\
  w_now w' = w_now w /\ w_skew w' = w_skew w /\ w_net w' = [] /\ w_brk w' = w_brk w.
Proof.
  intros Hq. unfold round_trip, now_view, srv_ms. rewrite Hq.
  pose proof (run_db_view (w_now w / ms) p (w_db w)) as [Hv Hr].
  destruct (run_db _ p (w_db w)) as [d r]. simpl in *. by rewrite Hv, Hr.
Qed.

(** The server's view became [ks] on a quiet network; nothing else changed. *)
Record quiet_to (w : world) (ks : keyspace) (w' : world) : Prop := {
  qt_net : w_net w' = [];
  qt_view : now_view w' = ks;
  qt_now : w_now w' = w_now w;
  qt_skew : w_skew w' = w_skew w;
  qt_brk : w_brk w' = w_brk w;
}.

Lemma quiet_refl w : w_net w = [] -> quiet_to w (now_view w) w.
Proof. by split. Qed.

Lemma quiet_trans w ks w' ks' w'' : quiet_to w ks w' -> quiet_to w' ks' w'' -> quiet_to w ks' w''.
Proof. intros [] []. split; congruence. Qed.

Lemma quiet_ms w ks w' : quiet_to w ks w' -> srv_ms w' = srv_ms w.
Proof. intros H. unfold srv_ms. by rewrite (qt_now _ _ _ H). Qed.

Lemma round_trip_ok {A} (p : lua A) w ks a :
  w_net w = [] -> run_ks (srv_ms w) p (now_view w) = (ks, Ok a) ->
  exists w', round_trip p w = (w', Ok a) /\ quiet_to w ks w'.
Proof.
  intros Hq E. pose proof (round_trip_quiet p w Hq) as (Hv & Hr & Hn & Hs & Hw & Hb).
  destruct (round_trip p w) as [w' r]. simpl in *. rewrite E in Hv, Hr. simpl in *. subst r.
  exists w'. by split.
Qed.

Lemma wrap_err_ok {A} pre (m : IO A) w w' a : m w = (w', Ok a) -> wrap_err pre m w = (w', Ok a).
Proof. intros E. unfold wrap_err. by rewrite E. Qed.

Lemma io_check_none {A} (k : IO A) o w : o = None -> (io_check o;; k) w = k w.
Proof. by intros ->. Qed.

Lemma io_try_ok {A} (m : IO A) w w' a : m w = (w', Ok a) -> io_try m w = (w', Ok (Ok a)).
Proof. intros E. unfold io_try. by rewrite E. Qed.

(** Time passes. *)
Definition wait (dt : Z) (w : world) : world :=
  mkWorld (w_db w) (w_now w + dt) (w_skew w) (w_net w) (w_brk w).

Lemma wait_view dt w : 0 <= dt -> now_view (wait dt w) = expire_at (srv_ms (wait dt w)) (now_view w).
Proof.
  intros H. unfold now_view, srv_ms. cbn [wait w_now w_db]. apply view_mono.
  apply Z.div_le_mono; unfold ms; lia.
Qed.

Lemma now_view_alive w : all_alive (srv_ms w) (now_view w).
Proof. unfold now_view. rewrite <- view_alive. apply all_alive_expire_at. Qed.

(** Two worlds that differ only in the breaker, or in the future network. *)
Lemma now_view_set_brk b w : now_view (set_brk b w) = now_view w.
Proof. done. Qed.
End net.
End Net.
