(* ===== verification/KvClient.v ===== *)
(** * KvClient: distributed task claims, [internal/kv/scripts.go] and
    [internal/kv/client.go]

    The four Lua scripts, and the client's operations around them. *)
From S2P Require Import Prelude Breaker Redis Net.
Import Net.
Local Open Scope Z_scope.

Module Kv.

(** ** Keys ([scripts.go]) *)
Section keys.
Local Open Scope string_scope.
Definition KeyPrefix : string := "loom:".
Definition taskOwnerKey (taskID : string) : string := KeyPrefix +:+ "task:" +:+ taskID +:+ ":owner".
Definition workerStateKey (workerID : string) : string :=
  KeyPrefix +:+ "worker:" +:+ workerID +:+ ":state".
Definition activeWorkersKey : string := KeyPrefix +:+ "workers:active".
Definition DefaultLeaderKey : string := KeyPrefix +:+ "stale-detector:leader".
End keys.

Definition DefaultTTLSeconds : Z := 300.

(** ** Scripts *)
#[export] Instance lua_ret : MRet lua := fun A a => LRet a.
#[export] Instance lua_bind : MBind lua := fun A B f =>
  fix go (m : lua A) : lua B :=
    match m with
    | LRet a => f a
    | LCall c k => LCall c (fun r => go (k r))
    end.
Definition call (c : cmd) : lua reply := LCall c LRet.

(** The values a script returns. *)
Inductive luaval := LInt (n : Z) | LStr (s : string).

(** A Lua number or string argument: [tonumber(ARGV[i])] reads it as a number,
    the commands store its text. *)
Definition claimScript (k1 k2 k3 worker task title agent : string) (ttl now_ms : Z)
  : lua (list luaval) :=
  existing ← call (GET k1);
  let continue : lua (list luaval) :=
    call (SET k1 worker (Some (ttl * 1000)));;
    call (HSET k2 [("task_id", task); ("task_title", title); ("state", "working");
                   ("claimed_at", itoa now_ms); ("agent_type", agent)]%string);;
    call (EXPIRE k2 (ttl * 1000));;
    call (ZADD k3 now_ms worker);;
    mret [LInt 1; LStr ""] in
  match existing with
  | RBulk o => if bool_decide (o <> worker) then mret [LInt 0; LStr o] else continue
  | _ => continue
  end.

Definition heartbeatScript (k1 k2 worker : string) (ttl now_ms : Z) : lua (list luaval) :=
  ex ← call (EXISTS k1);
  match ex with
  | RInt 0 => mret [LInt 0; LStr "no_active_session"]
  | _ =>
      let finish : lua (list luaval) :=
        call (EXPIRE k1 (ttl * 1000));;
        call (ZADD k2 now_ms worker);;
        mret [LInt 1; LStr (itoa ttl)] in
      task ← call (HGET k1 "task_id");
      match task with
      | RBulk task_id =>
          let task_owner_key := (KeyPrefix +:+ "task:" +:+ task_id +:+ ":owner")%string in
          owner ← call (GET task_owner_key);
          match owner with
          | RBulk o =>
              if bool_decide (o <> worker) then mret [LInt 0; LStr "ownership_lost"]
              else call (EXPIRE task_owner_key (ttl * 1000));; finish
          | _ => finish
          end
      | _ => finish
      end
  end.

Definition completeScript (k1 k2 k3 worker task : string) (now_ms ttl : Z) : lua (list luaval) :=
  owner ← call (GET k1);
  match owner with
  | RBulk o =>
      if bool_decide (o <> worker) then mret [LInt 0; LStr "not_owner"]
      else
        call (DEL k1);;
        call (HDEL k2 ["task_id"; "task_title"; "claimed_at"]%string);;
        call (HSET k2 [("state", "idle")]%string);;
        call (EXPIRE k2 (ttl * 1000));;
        call (ZADD k3 now_ms worker);;
        mret [LInt 1; LStr ""]
  | _ => mret [LInt 0; LStr "task_not_found"]
  end.

Definition cleanupOwnerScript (k1 expected : string) : lua Z :=
  owner ← call (GET k1);
  match owner with
  | RBulk o => if bool_decide (o = expected) then call (DEL k1);; mret 1 else mret 0
  | _ => mret 1
  end.

(** ** Client ([client.go]) *)
Record ClaimResult := mkClaim { cl_Success : bool; cl_ExistingOwner : string }.
Record HeartbeatResult := mkHeartbeat { hb_Success : bool; hb_TTL : Z; hb_Error : string }.
Record CompleteResult := mkComplete { cp_Success : bool; cp_Error : string }.
Record StaleWorkerEntry := mkStaleEntry { se_WorkerID : string; se_Score : Z }.

#[export] Instance ClaimResult_eq_dec : EqDecision ClaimResult.
Proof. solve_decision. Defined.

Definition id_bad_chars : string :=
  String ":" (String "010" (String "013" (String "009" (String " " "")))).

Definition validateID (id nm : string) : option goerror :=
  if bool_decide (id = "") then Some (Msg (nm +:+ " must not be empty"))
  else if contains_any id id_bad_chars
  then Some (Msg (nm +:+ " contains invalid characters: " +:+ quote id))
  else None.

Definition toInt64 (v : luaval) : res Z :=
  match v with
  | LInt n => Ok n
  | LStr s => match atoi s with Some n => Ok n | None => Err (Msg "strconv.ParseInt") end
  end.

Definition toString (v : luaval) : string :=
  match v with LStr s => s | LInt n => itoa n end.

Definition RedisShouldTrip (err : option goerror) : bool :=
  match err with
  | None => false
  | Some e =>
      if bool_decide (e = context_canceled) || bool_decide (e = context_deadline_exceeded)
      then false
      else if as_net_error e then true
      else
        let errStr := error_text e in
        contains errStr "connection refused" || contains errStr "EOF" ||
        contains errStr "connection reset" || contains errStr "broken pipe"
  end.

Section client.
Context {redis : RedisServer}.

(** [if c.breaker != nil { return ExecuteWithResult(c.breaker, fn) }; return fn()]. *)
Definition with_breaker {A} (fn : IO A) : IO A := fun w =>
  match w_brk w with
  | None => fn w
  | Some b =>
      let '(b', w', (r, err)) :=
        Breaker.ExecuteWithResult (fun w => w_now w + w_skew w) None
          (fun w => match fn w with
                    | (w', Ok a) => (w', (Some a, None))
                    | (w', Err e) => (w', (None, Some e))
                    end) b w in
      (set_brk (Some b') w', match r, err with
                             | Some a, None => Ok a
                             | _, Some e => Err e
                             | None, None => Err (Msg "")
                             end)
  end.

(** The decoding of a two-element script result. *)
Definition decode_pair (op : string) (result : list luaval) : res (Z * string) :=
  match result with
  | [status; msg] =>
      match toInt64 status with
      | Ok n => Ok (n, toString msg)
      | Err e => Err (Wrapf ("unexpected " +:+ op +:+ " status type: ") e "")
      end
  | _ => Err (Msg ("unexpected " +:+ op +:+ " script result length: got " +:+
                   itoa (Z.of_nat (length result)) +:+ ", want 2"))
  end.

Definition io_res {A} (r : res A) : IO A := fun w => (w, r).

Definition claimTask (workerID taskID taskTitle agentType : string) : IO ClaimResult :=
  io_check (validateID workerID "workerID");;
  io_check (validateID taskID "taskID");;
  now ← io_now;
  result ← wrap_err "claim script failed: "
    (round_trip (claimScript (taskOwnerKey taskID) (workerStateKey workerID) activeWorkersKey
                   workerID taskID taskTitle agentType DefaultTTLSeconds (now / ms)));
  '(status, msg) ← io_res (decode_pair "claim" result);
  mret (if bool_decide (status = 1) then mkClaim true "" else mkClaim false msg).

Definition heartbeat (workerID : string) : IO HeartbeatResult :=
  io_check (validateID workerID "workerID");;
  now ← io_now;
  result ← wrap_err "heartbeat script failed: "
    (round_trip (heartbeatScript (workerStateKey workerID) activeWorkersKey workerID
                   DefaultTTLSeconds (now / ms)));
  '(status, msg) ← io_res (decode_pair "heartbeat" result);
  mret (if bool_decide (status = 1)
        then mkHeartbeat true (match atoi msg with Some n => n | None => 0 end) ""
        else mkHeartbeat false 0 msg).

Definition completeTask (workerID taskID : string) : IO CompleteResult :=
  io_check (validateID workerID "workerID");;
  io_check (validateID taskID "taskID");;
  now ← io_now;
  result ← wrap_err "complete script failed: "
    (round_trip (completeScript (taskOwnerKey taskID) (workerStateKey workerID)
                   activeWorkersKey workerID taskID (now / ms) DefaultTTLSeconds));
  '(status, msg) ← io_res (decode_pair "complete" result);
  mret (if bool_decide (status = 1) then mkComplete true "" else mkComplete false msg).

Definition ClaimTask w t title agent := with_breaker (claimTask w t title agent).
Definition Heartbeat w := with_breaker (heartbeat w).
Definition CompleteTask w t := with_breaker (completeTask w t).

Definition getStaleWorkers (threshold : Z) : IO (list StaleWorkerEntry) :=
  now ← io_now;
  results ← wrap_err "ZRANGEBYSCORE failed: "
    (round_trip (r ← call (ZRANGEBYSCORE activeWorkersKey ((now - threshold) / ms));
                 mret (match r with RScored l => l | _ => [] end)));
  mret (map (fun z => mkStaleEntry z.1 z.2) results).
Definition GetStaleWorkers threshold := with_breaker (getStaleWorkers threshold).

Definition GetWorkerState (workerID : string) : IO (gmap string string) :=
  with_breaker (round_trip (r ← call (HGETALL (workerStateKey workerID));
                            mret (match r with RHash h => h | _ => ∅ end))).

(** [redis.Nil] is turned into the empty string. *)
Definition redis_get (k : string) : lua (option string) :=
  r ← call (GET k); mret (match r with RBulk s => Some s | _ => None end).
Definition GetTaskOwner (taskID : string) : IO string :=
  with_breaker (r ← round_trip (redis_get (taskOwnerKey taskID)); mret (default "" r)).

Definition deleteTaskOwnerIfMatch (taskID expectedOwner : string) : IO bool :=
  io_check (validateID taskID "taskID");;
  io_check (validateID expectedOwner "expectedOwner");;
  result ← wrap_err "cleanup owner script failed: "
    (round_trip (cleanupOwnerScript (taskOwnerKey taskID) expectedOwner));
  mret (bool_decide (result = 1)).
Definition DeleteTaskOwnerIfMatch t e := with_breaker (deleteTaskOwnerIfMatch t e).

Definition redis_unit (c : cmd) : lua unit := call c;; mret tt.
Definition DeleteTaskOwner (taskID : string) : IO unit :=
  with_breaker (round_trip (redis_unit (DEL (taskOwnerKey taskID)))).
Definition DeleteWorkerState (workerID : string) : IO unit :=
  with_breaker (round_trip (redis_unit (DEL (workerStateKey workerID)))).
Definition RemoveActiveWorker (workerID : string) : IO unit :=
  with_breaker (round_trip (redis_unit (ZREM activeWorkersKey workerID))).

Definition SetLeaderKey (key value : string) (ttl : Z) : IO bool :=
  with_breaker (round_trip (r ← call (SETNX key value (set_ttl_ms ttl));
                            mret (match r with RStatus => true | _ => false end))).
Definition RenewLeaderKey (key : string) (ttl : Z) : IO unit :=
  with_breaker (round_trip (redis_unit (EXPIRE key (expire_ttl_ms ttl)))).
Definition DeleteLeaderKey (key : string) : IO unit :=
  with_breaker (round_trip (redis_unit (DEL key))).
End client.

(** ** Keys never collide *)
Lemma taskOwnerKey_inj t t' : taskOwnerKey t = taskOwnerKey t' -> t = t'.
Proof.
  unfold taskOwnerKey. intros E. apply (append_inv_len KeyPrefix KeyPrefix) in E as [_ E]; [|done].
  apply (append_inv_len "task:" "task:") in E as [_ E]; [|done].
  by apply append_inj_r in E.
Qed.

Lemma workerStateKey_inj w w' : workerStateKey w = workerStateKey w' -> w = w'.
Proof.
  unfold workerStateKey. intros E. apply (append_inv_len KeyPrefix KeyPrefix) in E as [_ E]; [|done].
  apply (append_inv_len "worker:" "worker:") in E as [_ E]; [|done].
  by apply append_inj_r in E.
Qed.

Lemma task_worker_key t w : taskOwnerKey t <> workerStateKey w.
Proof. intros E. discriminate E. Qed.
Lemma task_active_key t : taskOwnerKey t <> activeWorkersKey.
Proof. intros E. discriminate E. Qed.
Lemma worker_active_key w : workerStateKey w <> activeWorkersKey.
Proof. intros E. discriminate E. Qed.
Lemma worker_task_key t w : workerStateKey w <> taskOwnerKey t.
Proof. intros E. discriminate E. Qed.
Lemma active_task_key t : activeWorkersKey <> taskOwnerKey t.
Proof. intros E. discriminate E. Qed.
Lemma active_worker_key w : activeWorkersKey <> workerStateKey w.
Proof. intros E. discriminate E. Qed.
#[export] Hint Resolve task_worker_key task_active_key worker_active_key worker_task_key
  active_task_key active_worker_key : go.


(** ** Typed keyspaces: every key holds a value of the kind its users expect *)
Record typed (ks : keyspace) : Prop := {
  typed_task : forall t e, ks !! taskOwnerKey t = Some e -> exists s, ent_val e = VString s;
  typed_worker : forall w e, ks !! workerStateKey w = Some e -> exists h, ent_val e = VHash h;
  typed_active : forall e, ks !! activeWorkersKey = Some e -> exists z, ent_val e = VZSet z;
}.

Definition hash_at (ks : keyspace) (k : string) : gmap string string :=
  match ent_val <$> ks !! k with Some (VHash h) => h | _ => ∅ end.
Definition zset_at (ks : keyspace) (k : string) : gmap string Z :=
  match ent_val <$> ks !! k with Some (VZSet z) => z | _ => ∅ end.

(** The lease on a task: its owner and the expiry. *)
Definition lease (ks : keyspace) (task : string) : option (string * option Z) :=
  match ks !! taskOwnerKey task with
  | Some (mkEntry (VString o) x) => Some (o, x)
  | _ => None
  end.

Definition touch_active (ks : keyspace) (w : string) (now_ms : Z) : keyspace :=
  <[activeWorkersKey := mkEntry (VZSet (<[w := now_ms]> (zset_at ks activeWorkersKey)))
                                (keep_ttl (ks !! activeWorkersKey))]> ks.

Definition claim_fields (task title agent : string) (now_ms : Z) : list (string * string) :=
  [("task_id", task); ("task_title", title); ("state", "working");
   ("claimed_at", itoa now_ms); ("agent_type", agent)]%string.

Definition claim_effect (t : Z) (ks : keyspace) (w task title agent : string) (ttl now_ms : Z)
  : keyspace :=
  touch_active
    (<[workerStateKey w :=
         mkEntry (VHash (hset (hash_at ks (workerStateKey w)) (claim_fields task title agent now_ms)))
                 (Some (t + ttl * 1000))]>
     (<[taskOwnerKey task := mkEntry (VString w) (Some (t + ttl * 1000))]> ks)) w now_ms.

Ltac kv_keys :=
  repeat match goal with
  | |- context [taskOwnerKey ?t] =>
      lazymatch goal with
      | _ : activeWorkersKey <> taskOwnerKey t |- _ => fail
      | _ => pose proof (task_active_key t); pose proof (active_task_key t)
      end
  | |- context [workerStateKey ?w] =>
      lazymatch goal with
      | _ : activeWorkersKey <> workerStateKey w |- _ => fail
      | _ => pose proof (worker_active_key w); pose proof (active_worker_key w)
      end
  end;
  repeat match goal with
  | |- context [taskOwnerKey ?t] =>
      match goal with
      | |- context [workerStateKey ?w] =>
          lazymatch goal with
          | _ : taskOwnerKey t <> workerStateKey w |- _ => fail
          | _ => pose proof (task_worker_key t w); pose proof (worker_task_key t w)
          end
      end
  end.

(** The value of a key of a typed keyspace. *)
Lemma typed_task_cases ks t :
  typed ks ->
  (ks !! taskOwnerKey t = None /\ lease ks t = None) \/
  (exists o x, ks !! taskOwnerKey t = Some (mkEntry (VString o) x) /\ lease ks t = Some (o, x)).
Proof.
  intros H. unfold lease. destruct (ks !! taskOwnerKey t) as [[v x]|] eqn:E; [right|by left].
  destruct (typed_task _ H _ _ E) as [o Ho]. simpl in Ho. subst. eauto.
Qed.

Lemma typed_worker_cases ks w :
  typed ks ->
  (ks !! workerStateKey w = None /\ hash_at ks (workerStateKey w) = ∅) \/
  (exists h x, ks !! workerStateKey w = Some (mkEntry (VHash h) x) /\
               hash_at ks (workerStateKey w) = h).
Proof.
  intros H. unfold hash_at. destruct (ks !! workerStateKey w) as [[v x]|] eqn:E; [right|by left].
  destruct (typed_worker _ H _ _ E) as [o Ho]. simpl in Ho. subst. eauto.
Qed.

Lemma typed_active_cases ks :
  typed ks ->
  (ks !! activeWorkersKey = None /\ zset_at ks activeWorkersKey = ∅) \/
  (exists z x, ks !! activeWorkersKey = Some (mkEntry (VZSet z) x) /\
               zset_at ks activeWorkersKey = z).
Proof.
  intros H. unfold zset_at. destruct (ks !! activeWorkersKey) as [[v x]|] eqn:E; [right|by left].
  destruct (typed_active _ H _ E) as [o Ho]. simpl in Ho. subst. eauto.
Qed.

Lemma run_call {A} t c (k : reply -> lua A) ks :
  run_ks t (call c ≫= k) ks =
    let (ks', r) := doc_exec t c ks in
    match r with RError m => (ks', Err (Msg m)) | _ => run_ks t (k r) ks' end.
Proof. done. Qed.

Lemma run_set {A} t k v ttl (p : lua A) ks :
  0 < ttl ->
  run_ks t (call (SET k v (Some ttl));; p) ks =
    run_ks t p (<[k := mkEntry (VString v) (Some (t + ttl))]> ks).
Proof. intros. rewrite run_call. cbn [doc_exec]. by rewrite (proj2 (Z.leb_gt _ _)) by lia. Qed.

(** [GET] on a task key answers with the lease. *)
Lemma run_get_task {A} t task (k : reply -> lua A) ks :
  typed ks ->
  run_ks t (call (GET (taskOwnerKey task)) ≫= k) ks =
    run_ks t (k (match lease ks task with Some (o, _) => RBulk o | None => RNil end)) ks.
Proof.
  intros H. rewrite run_call. cbn [doc_exec].
  destruct (typed_task_cases ks task H) as [[E L]|(o & x & E & L)]; by rewrite E, L.
Qed.

(** The tail shared by the scripts: refresh the sorted set of active workers. *)
Lemma run_zadd {A} t ks w now_ms (k : lua A) :
  typed ks ->
  run_ks t (call (ZADD activeWorkersKey now_ms w);; k) ks = run_ks t k (touch_active ks w now_ms).
Proof.
  intros H. unfold touch_active, zset_at. simpl.
  destruct (typed_active_cases ks H) as [[E _]|(z & x & E & _)]; rewrite E; simpl; [|done].
  by rewrite insert_empty.
Qed.


Lemma typed_insert_task ks t o x : typed ks -> typed (<[taskOwnerKey t := mkEntry (VString o) x]> ks).
Proof.
  intros [Ht Hw Ha]. split.
  - intros t' e. destruct (decide (taskOwnerKey t = taskOwnerKey t')) as [->|Hn].
    + rewrite lookup_insert_eq. intros [= <-]. eauto.
    + rewrite lookup_insert_ne by done. apply Ht.
  - intros w e. rewrite lookup_insert_ne by auto with go. apply Hw.
  - intros e. rewrite lookup_insert_ne by auto with go. apply Ha.
Qed.

Lemma typed_insert_worker ks w h x : typed ks -> typed (<[workerStateKey w := mkEntry (VHash h) x]> ks).
Proof.
  intros [Ht Hw Ha]. split.
  - intros t e. rewrite lookup_insert_ne by auto with go. apply Ht.
  - intros w' e. destruct (decide (workerStateKey w = workerStateKey w')) as [->|Hn].
    + rewrite lookup_insert_eq. intros [= <-]. eauto.
    + rewrite lookup_insert_ne by done. apply Hw.
  - intros e. rewrite lookup_insert_ne by auto with go. apply Ha.
Qed.

Lemma typed_insert_active ks z x : typed ks -> typed (<[activeWorkersKey := mkEntry (VZSet z) x]> ks).
Proof.
  intros [Ht Hw Ha]. split.
  - intros t e. rewrite lookup_insert_ne by auto with go. apply Ht.
  - intros w e. rewrite lookup_insert_ne by auto with go. apply Hw.
  - intros e. rewrite lookup_insert_eq. intros [= <-]. eauto.
Qed.

Lemma typed_submap ks ks' : typed ks -> ks' ⊆ ks -> typed ks'.
Proof.
  intros [Ht Hw Ha] Hsub. split; [intros t e He; eapply Ht|intros w e He; eapply Hw|intros e He; eapply Ha];
    by eapply lookup_weaken.
Qed.

Lemma typed_delete ks k : typed ks -> typed (delete k ks).
Proof. intros H. eapply typed_submap; [exact H|apply delete_subseteq]. Qed.

Lemma typed_expire_at t ks : typed ks -> typed (expire_at t ks).
Proof. intros H. eapply typed_submap; [exact H|apply map_filter_subseteq]. Qed.

Lemma typed_touch ks w now : typed ks -> typed (touch_active ks w now).
Proof. apply typed_insert_active. Qed.

#[export] Hint Resolve typed_insert_task typed_insert_worker typed_insert_active typed_delete
  typed_expire_at typed_touch : go.

Lemma lease_insert_ne ks task k e :
  k <> taskOwnerKey task -> lease (<[k := e]> ks) task = lease ks task.
Proof. intros Hn. unfold lease. by rewrite lookup_insert_ne. Qed.

Lemma lease_insert_task ks t o x task :
  lease (<[taskOwnerKey t := mkEntry (VString o) x]> ks) task =
    if decide (t = task) then Some (o, x) else lease ks task.
Proof.
  unfold lease. case_decide as E.
  - subst. by rewrite lookup_insert_eq.
  - rewrite lookup_insert_ne; [done|]. intros K. by apply taskOwnerKey_inj in K.
Qed.

Lemma lease_touch ks w now task : lease (touch_active ks w now) task = lease ks task.
Proof. unfold touch_active. apply lease_insert_ne. auto with go. Qed.

(** [EXPIRE] on a key just written. *)
Lemma run_hset_expire {A} t ks w fvs ttl (k : lua A) :
  typed ks -> 0 < ttl ->
  run_ks t (call (HSET (workerStateKey w) fvs);; call (EXPIRE (workerStateKey w) ttl);; k) ks =
  run_ks t k (<[workerStateKey w :=
                  mkEntry (VHash (hset (hash_at ks (workerStateKey w)) fvs)) (Some (t + ttl))]> ks).
Proof.
  intros H Httl. unfold hash_at. simpl.
  destruct (typed_worker_cases ks w H) as [[E _]|(h & x & E & _)]; rewrite E; simpl;
    rewrite lookup_insert_eq; simpl; rewrite (proj2 (Z.leb_gt _ _)) by lia; simpl;
    by rewrite insert_insert_eq.
Qed.

(** [claimScript]: the lease of another worker refuses the claim and changes
    nothing; otherwise the claim takes, or renews, the lease. *)
Lemma claim_run t ks w task title agent ttl now_ms :
  typed ks -> 0 < ttl ->
  run_ks t (claimScript (taskOwnerKey task) (workerStateKey w) activeWorkersKey
              w task title agent ttl now_ms) ks =
  match lease ks task with
  | Some (o, _) =>
      if bool_decide (o <> w) then (ks, Ok [LInt 0; LStr o])
      else (claim_effect t ks w task title agent ttl now_ms, Ok [LInt 1; LStr ""])
  | None => (claim_effect t ks w task title agent ttl now_ms, Ok [LInt 1; LStr ""])
  end.
Proof.
  intros H Httl.
  assert (forall ks0, typed ks0 -> hash_at ks0 (workerStateKey w) = hash_at ks (workerStateKey w) ->
    run_ks t (call (HSET (workerStateKey w) (claim_fields task title agent now_ms));;
              call (EXPIRE (workerStateKey w) (ttl * 1000));;
              call (ZADD activeWorkersKey now_ms w);; mret [LInt 1; LStr ""]) ks0 =
    (touch_active (<[workerStateKey w :=
         mkEntry (VHash (hset (hash_at ks (workerStateKey w)) (claim_fields task title agent now_ms)))
                 (Some (t + ttl * 1000))]> ks0) w now_ms, Ok [LInt 1; LStr ""])) as Hrest.
  { intros ks0 H0 Hh. rewrite run_hset_expire, run_zadd, Hh by (auto with go; lia). done. }
  set (ks1 := <[taskOwnerKey task := mkEntry (VString w) (Some (t + ttl * 1000))]> ks).
  specialize (Hrest ks1 (typed_insert_task _ _ _ _ H)).
  assert (hash_at ks1 (workerStateKey w) = hash_at ks (workerStateKey w)) as Hh.
  { unfold hash_at, ks1. by rewrite lookup_insert_ne by auto with go. }
  specialize (Hrest Hh). unfold claimScript, claim_effect. rewrite run_get_task by done.
  destruct (lease ks task) as [[o x]|]; [|rewrite run_set by lia; exact Hrest].
  case_bool_decide; [done|]. rewrite run_set by lia. exact Hrest.
Qed.

Lemma claim_effect_lease t ks w task title agent ttl now_ms task' :
  lease (claim_effect t ks w task title agent ttl now_ms) task' =
    if decide (task = task') then Some (w, Some (t + ttl * 1000)) else lease ks task'.
Proof.
  unfold claim_effect. rewrite lease_touch, lease_insert_ne, lease_insert_task by auto with go. done.
Qed.

Lemma claim_effect_typed t ks w task title agent ttl now_ms :
  typed ks -> typed (claim_effect t ks w task title agent ttl now_ms).
Proof. unfold claim_effect. auto with go. Qed.


Lemma run_expire {A} t k v x ttl (p : lua A) ks :
  ks !! k = Some (mkEntry v x) -> 0 < ttl ->
  run_ks t (call (EXPIRE k ttl);; p) ks =
    run_ks t p (<[k := mkEntry v (Some (t + ttl))]> ks).
Proof.
  intros E Ht. rewrite run_call. cbn [doc_exec]. rewrite E. cbn [ent_val].
  by rewrite (proj2 (Z.leb_gt _ _)) by lia.
Qed.

Definition beat_effect (t : Z) (ks : keyspace) (w : string) (ttl now_ms : Z) : keyspace :=
  touch_active
    (<[workerStateKey w := mkEntry (VHash (hash_at ks (workerStateKey w))) (Some (t + ttl * 1000))]> ks)
    w now_ms.

Definition renew_effect (t : Z) (ks : keyspace) (w task : string) (ttl : Z) : keyspace :=
  <[taskOwnerKey task := mkEntry (VString w) (Some (t + ttl * 1000))]> ks.

Lemma beat_tail t ks w ttl now_ms v x :
  typed ks -> 0 < ttl -> ks !! workerStateKey w = Some (mkEntry v x) ->
  run_ks t (call (EXPIRE (workerStateKey w) (ttl * 1000));;
            call (ZADD activeWorkersKey now_ms w);; mret [LInt 1; LStr (itoa ttl)]) ks =
    (beat_effect t ks w ttl now_ms, Ok [LInt 1; LStr (itoa ttl)]).
Proof.
  intros H Ht E. destruct (typed_worker_cases ks w H) as [[E' _]|(h & x' & E' & Hh)];
    rewrite E in E'; simplify_eq.
  unfold beat_effect. by rewrite (run_expire _ _ _ _ _ _ _ E), run_zadd by (auto with go; lia).
Qed.

(** [heartbeatScript]. *)
Lemma heartbeat_run t ks w ttl now_ms :
  typed ks -> 0 < ttl ->
  run_ks t (heartbeatScript (workerStateKey w) activeWorkersKey w ttl now_ms) ks =
  match ks !! workerStateKey w with
  | None => (ks, Ok [LInt 0; LStr "no_active_session"])
  | Some _ =>
      match hash_at ks (workerStateKey w) !! "task_id"%string with
      | None => (beat_effect t ks w ttl now_ms, Ok [LInt 1; LStr (itoa ttl)])
      | Some task =>
          match lease ks task with
          | None => (beat_effect t ks w ttl now_ms, Ok [LInt 1; LStr (itoa ttl)])
          | Some (o, _) =>
              if bool_decide (o <> w) then (ks, Ok [LInt 0; LStr "ownership_lost"])
              else (beat_effect t (renew_effect t ks w task ttl) w ttl now_ms,
                    Ok [LInt 1; LStr (itoa ttl)])
          end
      end
  end.
Proof.
  intros H Ht. unfold heartbeatScript. rewrite run_call. cbn [doc_exec].
  destruct (typed_worker_cases ks w H) as [[E _]|(h & x & E & Hh)]; rewrite E; [done|].
  rewrite run_call. cbn [doc_exec]. rewrite E, Hh. cbn [fmap option_fmap option_map ent_val].
  destruct (h !! "task_id"%string) as [task|]; [|by eapply beat_tail].
  change (KeyPrefix +:+ "task:" +:+ task +:+ ":owner")%string with (taskOwnerKey task).
  rewrite run_get_task by done.
  destruct (typed_task_cases ks task H) as [[E' L]|(o & y & E' & L)]; rewrite L.
  { by eapply beat_tail. }
  case_bool_decide as Hn; [done|]. rewrite (run_expire _ _ _ _ _ _ _ E') by lia.
  unfold renew_effect. assert (o = w) as -> by (destruct (decide (o = w)); tauto).
  eapply beat_tail; auto with go. rewrite lookup_insert_ne by auto with go. exact E.
Qed.

Lemma beat_effect_lease t ks w ttl now task : lease (beat_effect t ks w ttl now) task = lease ks task.
Proof. unfold beat_effect. by rewrite lease_touch, lease_insert_ne by auto with go. Qed.

Lemma beat_effect_typed t ks w ttl now : typed ks -> typed (beat_effect t ks w ttl now).
Proof. unfold beat_effect. auto with go. Qed.

Lemma renew_effect_lease t ks w task ttl task' :
  lease (renew_effect t ks w task ttl) task' =
    if decide (task = task') then Some (w, Some (t + ttl * 1000)) else lease ks task'.
Proof. apply lease_insert_task. Qed.

Lemma renew_effect_typed t ks w task ttl : typed ks -> typed (renew_effect t ks w task ttl).
Proof. apply typed_insert_task. Qed.

(** [completeScript]: the state of the worker without its task. *)
Definition idle_hash (h : gmap string string) : gmap string string :=
  hset (foldl (fun h f => delete f h) h ["task_id"; "task_title"; "claimed_at"]%string)
       [("state", "idle")]%string.

Definition complete_effect (t : Z) (ks : keyspace) (w task : string) (now_ms ttl : Z) : keyspace :=
  touch_active
    (<[workerStateKey w := mkEntry (VHash (idle_hash (hash_at ks (workerStateKey w))))
                                   (Some (t + ttl * 1000))]>
     (delete (taskOwnerKey task) ks)) w now_ms.

Lemma run_hdel {A} t w fs (p : lua A) ks :
  typed ks ->
  exists ks', run_ks t (call (HDEL (workerStateKey w) fs);; p) ks = run_ks t p ks' /\
    typed ks' /\ (forall k, k <> workerStateKey w -> ks' !! k = ks !! k) /\
    hash_at ks' (workerStateKey w) =
      foldl (fun h f => delete f h) (hash_at ks (workerStateKey w)) fs.
Proof.
  intros H. rewrite run_call. cbn [doc_exec]. unfold hash_at.
  assert (foldl (fun h f => delete f h) (∅ : gmap string string) fs = ∅) as Hemp.
  { induction fs as [|f fs IH]; [done|]. simpl. by rewrite delete_empty. }
  destruct (typed_worker_cases ks w H) as [[E _]|(h & x & E & _)]; rewrite E;
    cbn [fmap option_fmap option_map ent_val].
  { exists ks. rewrite E. simpl. by rewrite Hemp. }
  set (h' := foldl _ h fs). case_bool_decide as Hb.
  - eexists. split; [done|]. split_and!; [auto with go| |].
    + intros k Hk. by apply lookup_delete_ne.
    + by rewrite lookup_delete_eq, Hb.
  - eexists. split; [done|]. split_and!; [auto with go| |].
    + intros k Hk. by apply lookup_insert_ne.
    + by rewrite lookup_insert_eq.
Qed.

Lemma complete_run t ks w task ttl now_ms :
  typed ks -> 0 < ttl ->
  run_ks t (completeScript (taskOwnerKey task) (workerStateKey w) activeWorkersKey
              w task now_ms ttl) ks =
  match lease ks task with
  | None => (ks, Ok [LInt 0; LStr "task_not_found"])
  | Some (o, _) =>
      if bool_decide (o <> w) then (ks, Ok [LInt 0; LStr "not_owner"])
      else (complete_effect t ks w task now_ms ttl, Ok [LInt 1; LStr ""])
  end.
Proof.
  intros H Ht. unfold completeScript. rewrite run_get_task by done.
  destruct (typed_task_cases ks task H) as [[E L]|(o & y & E & L)]; rewrite L; [done|].
  case_bool_decide as Hn; [done|]. rewrite run_call. cbn [doc_exec]. rewrite E.
  set (ks1 := delete (taskOwnerKey task) ks).
  assert (hash_at ks1 (workerStateKey w) = hash_at ks (workerStateKey w)) as Hh.
  { unfold hash_at, ks1. by rewrite lookup_delete_ne by auto with go. }
  match goal with
  | |- run_ks t (call (HDEL _ ?fs) ≫= (fun _ => ?p)) _ = _ =>
      destruct (run_hdel t w fs p ks1 (typed_delete _ _ H)) as (ks2 & -> & H2 & Hoth & Hh2)
  end.
  rewrite run_hset_expire, run_zadd by (auto with go; lia).
  unfold complete_effect, idle_hash. cbn [run_ks mret lua_ret]. rewrite Hh2. fold ks1. rewrite Hh.
  do 2 f_equal. apply map_eq. intros k.
  destruct (decide (k = workerStateKey w)) as [->|Hk]; [by rewrite !lookup_insert_eq|].
  rewrite !lookup_insert_ne by done. by apply Hoth.
Qed.


Lemma cleanup_run t ks task expected :
  typed ks ->
  run_ks t (cleanupOwnerScript (taskOwnerKey task) expected) ks =
  match lease ks task with
  | None => (ks, Ok 1)
  | Some (o, _) =>
      if bool_decide (o = expected) then (delete (taskOwnerKey task) ks, Ok 1) else (ks, Ok 0)
  end.
Proof.
  intros H. unfold cleanupOwnerScript. rewrite run_get_task by done.
  destruct (typed_task_cases ks task H) as [[E L]|(o & y & E & L)]; rewrite L; [done|].
  case_bool_decide; [|done]. rewrite run_call. cbn [doc_exec]. by rewrite E.
Qed.

Lemma lease_delete_ne ks task k : k <> taskOwnerKey task -> lease (delete k ks) task = lease ks task.
Proof. intros Hn. unfold lease. by rewrite lookup_delete_ne. Qed.

Lemma lease_expire_at t ks task :
  lease (expire_at t ks) task =
    match lease ks task with
    | Some (o, x) => if match x with Some x => t <? x | None => true end then Some (o, x) else None
    | None => None
    end.
Proof.
  unfold lease. rewrite expire_at_lookup. destruct (ks !! taskOwnerKey task) as [[v x]|]; [|done].
  unfold alive. simpl. destruct v, x as [x|]; try done; by destruct (t <? x).
Qed.

(** ** The fleet: the scripts of any number of workers, and of the stale
    detector, interleaved with the passing of time. *)
Inductive op :=
| OClaim (w task title agent : string) (now_ms : Z)
| OHeartbeat (w : string) (now_ms : Z)
| OComplete (w task : string) (now_ms : Z)
| OCleanup (task w : string)
| ODelWorker (w : string)
| OZrem (w : string)
| OTick (dt : Z).

Definition op_script (o : op) : lua unit :=
  match o with
  | OClaim w task title agent now_ms =>
      claimScript (taskOwnerKey task) (workerStateKey w) activeWorkersKey
        w task title agent DefaultTTLSeconds now_ms;; mret tt
  | OHeartbeat w now_ms =>
      heartbeatScript (workerStateKey w) activeWorkersKey w DefaultTTLSeconds now_ms;; mret tt
  | OComplete w task now_ms =>
      completeScript (taskOwnerKey task) (workerStateKey w) activeWorkersKey
        w task now_ms DefaultTTLSeconds;; mret tt
  | OCleanup task w => cleanupOwnerScript (taskOwnerKey task) w;; mret tt
  | ODelWorker w => redis_unit (DEL (workerStateKey w))
  | OZrem w => redis_unit (ZREM activeWorkersKey w)
  | OTick _ => mret tt
  end.

(** The operations by which the lease of [w] on [task] ends early. *)
Definition releases (task w : string) (o : op) : Prop :=
  match o with
  | OComplete w' task' _ => w' = w /\ task' = task
  | OCleanup task' w' => w' = w /\ task' = task
  | _ => False
  end.

Lemma run_ks_bind_ret {A B} t (m : lua A) (b : B) ks :
  fst (run_ks t (m ≫= fun _ => mret b) ks) = fst (run_ks t m ks).
Proof.
  revert ks; induction m as [a|c k IH]; intros ks; [done|]. simpl.
  destruct (doc_exec t c ks) as [ks' r]. destruct r; try done; apply IH.
Qed.

Lemma zrem_typed_lease t ks w :
  typed ks ->
  let ks' := fst (run_ks t (redis_unit (ZREM activeWorkersKey w)) ks) in
  typed ks' /\ forall task, lease ks' task = lease ks task.
Proof.
  intros H. unfold redis_unit. rewrite run_call. cbn [doc_exec].
  destruct (typed_active_cases ks H) as [[E _]|(z & x & E & _)]; rewrite E;
    cbn [fmap option_fmap option_map ent_val]; [done|].
  case_bool_decide; cbn [run_ks fst mret lua_ret]; split; auto with go; intros task.
  - apply lease_delete_ne. auto with go.
  - apply lease_insert_ne. auto with go.
Qed.

(** One operation on a typed view keeps it typed, and keeps, or extends, a
    lease it does not release. *)
Lemma op_lease t o ks task w x x0 :
  typed ks -> lease ks task = Some (w, Some x) -> ~ releases task w o ->
  x0 <= x -> x0 <= t + 300000 ->
  exists x', lease (fst (run_ks t (op_script o) ks)) task = Some (w, Some x') /\ x0 <= x'.
Proof.
  intros H L Hr Hx Hx0. destruct o as [w' t' title ag now|w' now|w' t' now|t' w'|w'|w'|dt];
    cbn [op_script]; rewrite ?run_ks_bind_ret.
  - rewrite claim_run by done. destruct (decide (t' = task)) as [->|Hn].
    + rewrite L. case_bool_decide as Hw; [eauto|]. simpl fst. rewrite claim_effect_lease.
      rewrite decide_True by done. assert (w = w') as -> by (destruct (decide (w = w')); tauto).
      eexists; split; [done|]. unfold DefaultTTLSeconds. lia.
    + destruct (lease ks t') as [[o y]|]; [case_bool_decide; [eauto|]|];
        simpl fst; rewrite claim_effect_lease, decide_False by done; eauto.
  - rewrite heartbeat_run by done. destruct (ks !! workerStateKey w') as [e|]; [|eauto].
    destruct (hash_at ks (workerStateKey w') !! "task_id"%string) as [t1|];
      [|simpl fst; rewrite beat_effect_lease; eauto].
    destruct (decide (t1 = task)) as [->|Hn].
    + rewrite L. case_bool_decide as Hw; [eauto|]. simpl fst.
      rewrite beat_effect_lease, renew_effect_lease, decide_True by done.
      assert (w = w') as -> by (destruct (decide (w = w')); tauto).
      eexists; split; [done|]. unfold DefaultTTLSeconds. lia.
    + destruct (lease ks t1) as [[o y]|]; [case_bool_decide; [eauto|]|]; simpl fst;
        rewrite beat_effect_lease, ?renew_effect_lease, ?decide_False by done; eauto.
  - rewrite complete_run by done. destruct (decide (t' = task)) as [->|Hn].
    + rewrite L. case_bool_decide as Hw; [eauto|]. exfalso. apply Hr. split; [|done].
      destruct (decide (w = w')); [done|tauto].
    + destruct (lease ks t') as [[o y]|]; [case_bool_decide; [eauto|]|eauto]. simpl fst.
      unfold complete_effect. rewrite lease_touch, lease_insert_ne, lease_delete_ne; [eauto| |auto with go].
      intros K. by apply taskOwnerKey_inj in K.
  - rewrite cleanup_run by done. destruct (decide (t' = task)) as [->|Hn].
    + rewrite L. case_bool_decide as Hw; [|eauto]. exfalso. by apply Hr.
    + destruct (lease ks t') as [[o y]|]; [case_bool_decide; [|eauto]|eauto]. simpl fst.
      rewrite lease_delete_ne; [eauto|]. intros K. by apply taskOwnerKey_inj in K.
  - unfold redis_unit. rewrite run_call. cbn [doc_exec].
    destruct (ks !! workerStateKey w'); simpl; [|eauto]. rewrite lease_delete_ne by auto with go. eauto.
  - destruct (zrem_typed_lease t ks w' H) as [_ ->]. eauto.
  - eauto.
Qed.

Lemma op_typed t o ks : typed ks -> typed (fst (run_ks t (op_script o) ks)).
Proof.
  intros H. destruct o as [w' t' title ag now|w' now|w' t' now|t' w'|w'|w'|dt];
    cbn [op_script]; rewrite ?run_ks_bind_ret.
  - rewrite claim_run by done. repeat case_match; simpl; auto using claim_effect_typed.
  - rewrite heartbeat_run by done.
    repeat case_match; simpl; auto using beat_effect_typed, renew_effect_typed.
  - rewrite complete_run by done. repeat case_match; simpl; unfold complete_effect; auto with go.
  - rewrite cleanup_run by done. repeat case_match; simpl; auto with go.
  - unfold redis_unit. rewrite run_call. cbn [doc_exec]. repeat case_match; simplify_eq; simpl; auto with go.
  - by apply zrem_typed_lease.
  - done.
Qed.


Section fleet.
Context {redis : RedisServer}.

Inductive fleet_step : db * Z -> op -> db * Z -> Prop :=
| fleet_op d t o : fleet_step (d, t) o (fst (run_db t (op_script o) d), t)
| fleet_tick d t dt : 0 <= dt -> fleet_step (d, t) (OTick dt) (d, t + dt).

Lemma fleet_step_lease task w x0 s o s' :
  ~ releases task w o ->
  typed (view s.1 s.2) /\ x0 <= s.2 + 300000 /\
    (s.2 < x0 -> exists x, lease (view s.1 s.2) task = Some (w, Some x) /\ x0 <= x) ->
  fleet_step s o s' ->
  typed (view s'.1 s'.2) /\ x0 <= s'.2 + 300000 /\
    (s'.2 < x0 -> exists x, lease (view s'.1 s'.2) task = Some (w, Some x) /\ x0 <= x).
Proof.
  intros Hr (H & Hx & HL) Hs. destruct Hs as [d t o|d t dt Hdt]; simpl in *.
  - pose proof (run_db_view t (op_script o) d) as [-> _]. split_and!; [by apply op_typed|done|].
    intros Ht. destruct (HL Ht) as (x & L & Hle). by eapply op_lease.
  - rewrite (view_mono d t (t + dt)) by lia. split_and!; [by apply typed_expire_at|lia|].
    intros Ht. destruct HL as (x & L & Hle); [lia|]. exists x. split; [|done].
    rewrite lease_expire_at, L. by rewrite (proj2 (Z.ltb_lt _ _)) by lia.
Qed.

(** C1. Lease exclusion. Once worker [w] holds the lease on a task until [x] (no
    later than a claim at this moment would give): as long as [w] neither completes
    the task nor is cleaned up from it (which ends the lease at once), then
    whatever else happens, claims, heartbeats and completions of any workers,
    clean-ups of others from the task and of any from other tasks, and the removal
    of any worker's record, also [w]'s, [w] holds the task at every time before
    [x]: a claim by any other worker is answered with [w]'s identity and changes
    nothing. *)
Theorem lease_exclusion task w x ops d t d' t' :
  typed (view d t) -> lease (view d t) task = Some (w, Some x) -> x <= t + 300000 ->
  Forall (fun o => ~ releases task w o) ops -> steps fleet_step (d, t) ops (d', t') -> t' < x ->
  (exists x', lease (view d' t') task = Some (w, Some x') /\ x <= x') /\
  forall w' title agent now_ms, w' <> w ->
    let script := claimScript (taskOwnerKey task) (workerStateKey w') activeWorkersKey
                    w' task title agent DefaultTTLSeconds now_ms in
    snd (run_db t' script d') = Ok [LInt 0; LStr w] /\
    view (fst (run_db t' script d')) t' = view d' t'.
Proof.
  intros H L Hx Hops Hs Ht.
  destruct (steps_inv_labels fleet_step
    (fun s => typed (view s.1 s.2) /\ x <= s.2 + 300000 /\
      (s.2 < x -> exists y, lease (view s.1 s.2) task = Some (w, Some y) /\ x <= y))
    (fun o => ~ releases task w o) _ _ _
    (fun s o s' => fleet_step_lease task w x s o s') Hops Hs) as (H' & _ & HL').
  { simpl. split_and!; [done|lia|]. intros _. exists x. split; [done|lia]. }
  cbn [fst snd] in *. destruct (HL' Ht) as (x' & L' & Hx'). split; [eauto|].
  intros w' title agent now_ms Hw.
  pose proof (run_db_view t' (claimScript (taskOwnerKey task) (workerStateKey w')
    activeWorkersKey w' task title agent DefaultTTLSeconds now_ms) d') as [-> ->].
  rewrite claim_run, L', bool_decide_true by done. done.
Qed.
End fleet.

(** ** The client operations on a quiet network *)
Section client_facts.
Context {redis : RedisServer}.

Lemma claimTask_invalid w t title agent wd e :
  (validateID w "workerID" = Some e \/
   (validateID w "workerID" = None /\ validateID t "taskID" = Some e)) ->
  claimTask w t title agent wd = (wd, Err e).
Proof.
  intros [E|[E1 E2]]; unfold claimTask, mbind, IO_bind, io_check; rewrite ?E, ?E1, ?E2; done.
Qed.

(** The outcome of a client operation whose script runs on a quiet network. *)
Lemma trip_quiet {A} pre (p : lua A) wd ks a :
  w_net wd = [] -> run_ks (srv_ms wd) p (now_view wd) = (ks, Ok a) ->
  exists wd', wrap_err pre (round_trip p) wd = (wd', Ok a) /\ now_view wd' = ks /\
    w_net wd' = [] /\ w_now wd' = w_now wd /\ w_skew wd' = w_skew wd /\ w_brk wd' = w_brk wd.
Proof.
  intros Hq E. pose proof (round_trip_quiet p wd Hq) as (Hv & Hr & Hn & Hs & Hw & Hb).
  unfold wrap_err. destruct (round_trip p wd) as [wd' r]. simpl in *. rewrite E in Hv, Hr.
  simpl in *. subst r. eauto 10.
Qed.

Lemma claimTask_quiet w t title agent wd :
  validateID w "workerID" = None -> validateID t "taskID" = None ->
  w_net wd = [] -> typed (now_view wd) ->
  exists wd', w_net wd' = [] /\ w_now wd' = w_now wd /\ w_brk wd' = w_brk wd /\
    match lease (now_view wd) t with
    | Some (o, _) =>
        if bool_decide (o <> w)
        then claimTask w t title agent wd = (wd', Ok (mkClaim false o)) /\ now_view wd' = now_view wd
        else claimTask w t title agent wd = (wd', Ok (mkClaim true "")) /\
             now_view wd' = claim_effect (srv_ms wd) (now_view wd) w t title agent
                              DefaultTTLSeconds ((w_now wd + w_skew wd) / ms)
    | None => claimTask w t title agent wd = (wd', Ok (mkClaim true "")) /\
             now_view wd' = claim_effect (srv_ms wd) (now_view wd) w t title agent
                              DefaultTTLSeconds ((w_now wd + w_skew wd) / ms)
    end.
Proof.
  intros Hw Ht Hq H. unfold claimTask, mbind, IO_bind, io_check. rewrite Hw, Ht.
  unfold io_now. set (script := claimScript _ _ _ _ _ _ _ _ _).
  pose proof (claim_run (srv_ms wd) (now_view wd) w t title agent DefaultTTLSeconds
    ((w_now wd + w_skew wd) / ms) H eq_refl) as E. fold script in E.
  destruct (lease (now_view wd) t) as [[o x]|]; [case_bool_decide|];
    destruct (trip_quiet "claim script failed: " _ _ _ _ Hq E) as (wd' & -> & Ev & ? & ? & _ & ?);
    exists wd'; (split_and!; [done..|]); done.
Qed.

(** C19. [claimTask] on a reachable server: it succeeds exactly when no other
    worker holds the lease, and then the worker holds it for
    [DefaultTTLSeconds] from the server's time; otherwise the answer names
    the owner and the server is unchanged. *)
Theorem claimTask_functional w t title agent wd :
  validateID w "workerID" = None -> validateID t "taskID" = None ->
  w_net wd = [] -> typed (now_view wd) ->
  let '(wd', r) := claimTask w t title agent wd in
  match lease (now_view wd) t with
  | Some (o, x) =>
      if bool_decide (o <> w)
      then r = Ok (mkClaim false o) /\ now_view wd' = now_view wd
      else r = Ok (mkClaim true "") /\ lease (now_view wd') t = Some (w, Some (srv_ms wd + 300000))
  | None => r = Ok (mkClaim true "") /\ lease (now_view wd') t = Some (w, Some (srv_ms wd + 300000))
  end /\
  (forall t', t' <> t -> lease (now_view wd') t' = lease (now_view wd) t').
Proof.
  intros Hw Ht Hq H.
  destruct (claimTask_quiet w t title agent wd Hw Ht Hq H) as (wd' & _ & _ & _ & E).
  destruct (lease (now_view wd) t) as [[o x]|]; [case_bool_decide|]; destruct E as [E1 E];
    rewrite E1; cbn iota; rewrite E, ?claim_effect_lease, ?decide_True by done; (split; [done|]);
    intros t' Ht'; [done|..]; by rewrite claim_effect_lease, decide_False.
Qed.

Lemma heartbeat_quiet w wd :
  validateID w "workerID" = None -> w_net wd = [] -> typed (now_view wd) ->
  let ok ks := exists wd', heartbeat w wd = (wd', Ok (mkHeartbeat true 300 "")) /\
    now_view wd' = beat_effect (srv_ms wd) ks w DefaultTTLSeconds ((w_now wd + w_skew wd) / ms) in
  let no msg := exists wd', heartbeat w wd = (wd', Ok (mkHeartbeat false 0 msg)) /\
    now_view wd' = now_view wd in
  match now_view wd !! workerStateKey w with
  | None => no "no_active_session"%string
  | Some _ =>
      match hash_at (now_view wd) (workerStateKey w) !! "task_id"%string with
      | None => ok (now_view wd)
      | Some task =>
          match lease (now_view wd) task with
          | None => ok (now_view wd)
          | Some (o, _) =>
              if bool_decide (o <> w) then no "ownership_lost"%string
              else ok (renew_effect (srv_ms wd) (now_view wd) w task DefaultTTLSeconds)
          end
      end
  end.
Proof.
  intros Hw Hq H. cbv zeta. unfold heartbeat, mbind, IO_bind, io_check. rewrite Hw. unfold io_now.
  set (script := heartbeatScript _ _ _ _ _).
  pose proof (heartbeat_run (srv_ms wd) (now_view wd) w DefaultTTLSeconds
    ((w_now wd + w_skew wd) / ms) H eq_refl) as E. fold script in E.
  destruct (now_view wd !! workerStateKey w);
    [destruct (_ !! "task_id"%string) as [task|];
       [destruct (lease (now_view wd) task) as [[o x]|]; [case_bool_decide|]|]|];
    destruct (trip_quiet "heartbeat script failed: " _ _ _ _ Hq E) as (wd' & -> & Ev & _);
    exists wd'; (split; [done|exact Ev]).
Qed.

(** [heartbeat] on a reachable server. Without a session, or when the
    worker's task is owned by another worker, it reports so and changes
    nothing; otherwise it succeeds, the worker is live again for
    [DefaultTTLSeconds], its lease on its task (if it has one) is extended
    for as long, and no other lease changes. *)
Theorem heartbeat_functional w wd :
  validateID w "workerID" = None -> w_net wd = [] -> typed (now_view wd) ->
  let ks := now_view wd in
  let task := hash_at ks (workerStateKey w) !! "task_id"%string in
  let '(wd', r) := heartbeat w wd in
  if bool_decide (ks !! workerStateKey w = None)
  then r = Ok (mkHeartbeat false 0 "no_active_session") /\ now_view wd' = ks
  else match task ≫= lease ks with
       | Some (o, _) =>
           if bool_decide (o <> w)
           then r = Ok (mkHeartbeat false 0 "ownership_lost") /\ now_view wd' = ks
           else r = Ok (mkHeartbeat true 300 "") /\
                forall t, lease (now_view wd') t =
                  if bool_decide (task = Some t) then Some (w, Some (srv_ms wd + 300000))
                  else lease ks t
       | None => r = Ok (mkHeartbeat true 300 "") /\
                 forall t, lease (now_view wd') t = lease ks t
       end.
Proof.
  intros Hw Hq H ks task. pose proof (heartbeat_quiet w wd Hw Hq H) as E. fold ks in E.
  cbv zeta in E. fold task in E.
  destruct (ks !! workerStateKey w) as [e|] eqn:Ek; [rewrite bool_decide_false by done|];
    [|destruct E as (wd' & -> & ->); by rewrite bool_decide_true].
  destruct task as [t|]; cbn [mbind option_bind] in *;
    [destruct (lease ks t) as [[o x]|]; [case_bool_decide|]|];
    destruct E as (wd' & -> & ->); try done; (split; [done|]); intros t'; rewrite beat_effect_lease;
    try done.
  rewrite renew_effect_lease. case_bool_decide; case_decide; first [done|congruence].
Qed.

Lemma completeTask_quiet w t wd :
  validateID w "workerID" = None -> validateID t "taskID" = None ->
  w_net wd = [] -> typed (now_view wd) ->
  exists wd', w_net wd' = [] /\ w_now wd' = w_now wd /\
    match lease (now_view wd) t with
    | None => completeTask w t wd = (wd', Ok (mkComplete false "task_not_found")) /\
              now_view wd' = now_view wd
    | Some (o, _) =>
        if bool_decide (o <> w)
        then completeTask w t wd = (wd', Ok (mkComplete false "not_owner")) /\
             now_view wd' = now_view wd
        else completeTask w t wd = (wd', Ok (mkComplete true "")) /\
             now_view wd' = complete_effect (srv_ms wd) (now_view wd) w t
                              ((w_now wd + w_skew wd) / ms) DefaultTTLSeconds
    end.
Proof.
  intros Hw Ht Hq H. unfold completeTask, mbind, IO_bind, io_check. rewrite Hw, Ht. unfold io_now.
  set (script := completeScript _ _ _ _ _ _ _).
  pose proof (complete_run (srv_ms wd) (now_view wd) w t DefaultTTLSeconds
    ((w_now wd + w_skew wd) / ms) H eq_refl) as E. fold script in E.
  destruct (lease (now_view wd) t) as [[o x]|]; [case_bool_decide|];
    destruct (trip_quiet "complete script failed: " _ _ _ _ Hq E) as (wd' & -> & Ev & ? & ? & _);
    exists wd'; (split_and!; [done..|]); done.
Qed.

Lemma complete_effect_lease t ks w task now ttl task' :
  lease (complete_effect t ks w task now ttl) task' =
    if decide (task = task') then None else lease ks task'.
Proof.
  unfold complete_effect. rewrite lease_touch, lease_insert_ne by auto with go.
  case_decide as E; [subst; unfold lease; by rewrite lookup_delete_eq|].
  apply lease_delete_ne. intros K. by apply taskOwnerKey_inj in K.
Qed.

(** Hand-over: only the owner can complete a task; after it did, the
    lease is gone, its session carries no task any more, and a claim by any
    worker, at once, succeeds. *)
Theorem complete_handover w w' t title agent wd :
  validateID w "workerID" = None -> validateID w' "workerID" = None ->
  validateID t "taskID" = None -> w_net wd = [] -> typed (now_view wd) ->
  let '(wd1, r) := completeTask w t wd in
  let '(wd2, r2) := claimTask w' t title agent wd1 in
  match lease (now_view wd) t with
  | Some (o, _) =>
      if bool_decide (o <> w)
      then r = Ok (mkComplete false "not_owner") /\ now_view wd1 = now_view wd
      else r = Ok (mkComplete true "") /\ lease (now_view wd1) t = None /\
           hash_at (now_view wd1) (workerStateKey w) !! "task_id"%string = None /\
           r2 = Ok (mkClaim true "") /\
           lease (now_view wd2) t = Some (w', Some (srv_ms wd + 300000))
  | None => r = Ok (mkComplete false "task_not_found") /\ now_view wd1 = now_view wd
  end.
Proof.
  intros Hw Hw' Ht Hq H.
  destruct (completeTask_quiet w t wd Hw Ht Hq H) as (wd1 & Hq1 & Hn1 & E).
  destruct (lease (now_view wd) t) as [[o x]|]; [case_bool_decide|];
    destruct E as [-> E]; [by destruct (claimTask w' t title agent wd1)| |
                           by destruct (claimTask w' t title agent wd1)].
  assert (typed (now_view wd1)) as H1 by (rewrite E; unfold complete_effect; auto with go).
  pose proof (claimTask_quiet w' t title agent wd1 Hw' Ht Hq1 H1) as (wd2 & _ & _ & _ & E2).
  assert (lease (now_view wd1) t = None) as L by
    (by rewrite E, complete_effect_lease, decide_True).
  rewrite L in E2. destruct E2 as [-> E2]. split_and!; [done|done| |done|].
  - rewrite E. unfold complete_effect, touch_active, hash_at at 1, idle_hash, hset.
    rewrite lookup_insert_ne, lookup_insert_eq by auto with go. simpl.
    rewrite lookup_insert_ne by done. rewrite lookup_delete_ne by done.
    rewrite lookup_delete_ne by done. by rewrite lookup_delete_eq.
  - rewrite E2, claim_effect_lease, decide_True by done. unfold srv_ms. by rewrite Hn1.
Qed.

(** A lost reply is harmless: when the first claim ends in a network
    error, before or after the server executed it, the same worker's retry
    succeeds and it holds the lease, unless another worker held the lease
    when the server was reached. *)
Theorem claim_retry_after_lost_reply w t title agent wd dly others e executed :
  validateID w "workerID" = None -> validateID t "taskID" = None ->
  w_net wd = [mkTrip dly others (Some (e, executed))] ->
  let now1 := (w_now wd + dly) / ms in
  let d0 := run_others now1 others (w_db wd) in
  typed (view d0 now1) ->
  match lease (view d0 now1) t with Some (o, _) => o = w | None => True end ->
  let '(wd1, r1) := claimTask w t title agent wd in
  let '(wd2, r2) := claimTask w t title agent wd1 in
  r1 = Err (Wrapf "claim script failed: " e "") /\ r2 = Ok (mkClaim true "") /\
  lease (now_view wd2) t = Some (w, Some (now1 + 300000)).
Proof.
  intros Hw Ht Hn now1 d0 H Ho.
  set (script := claimScript (taskOwnerKey t) (workerStateKey w) activeWorkersKey w t title agent
                   DefaultTTLSeconds ((w_now wd + w_skew wd) / ms)).
  set (d1 := if executed then fst (run_db now1 script d0) else d0).
  set (wd1 := mkWorld d1 (w_now wd + dly) (w_skew wd) [] (w_brk wd)).
  assert (claimTask w t title agent wd = (wd1, Err (Wrapf "claim script failed: " e ""))) as E1.
  { unfold claimTask, mbind, IO_bind, io_check. rewrite Hw, Ht. unfold io_now. fold script.
    unfold wrap_err, round_trip. rewrite Hn. done. }
  assert (typed (now_view wd1) /\
    match lease (now_view wd1) t with Some (o, _) => o = w | None => True end) as [H1 L1].
  { change (now_view wd1) with (view d1 now1). subst d1. destruct executed; [|done].
    pose proof (run_db_view now1 script d0) as [-> _].
    unfold script. rewrite claim_run by done.
    destruct (lease (view d0 now1) t) as [[o x]|] eqn:L; [case_bool_decide|];
      simpl; rewrite ?L; auto;
      rewrite claim_effect_lease, decide_True by done; auto using claim_effect_typed. }
  rewrite E1. destruct (claimTask_quiet w t title agent wd1 Hw Ht eq_refl H1)
    as (wd2 & _ & Hnow & _ & E).
  destruct (lease (now_view wd1) t) as [[o x]|]; [rewrite bool_decide_false in E by auto|];
    destruct E as [-> E]; (split_and!; [done..|]); by rewrite E, claim_effect_lease, decide_True.
Qed.

(** An open breaker, or a wedged one, keeps the client off the network. *)
Lemma with_breaker_refused {A} (fn : IO A) b wd :
  w_brk wd = Some b ->
  Breaker.beforeRequest (w_now wd + w_skew wd) b = (b, Some Breaker.ErrCircuitOpen) ->
  with_breaker fn wd = (wd, Err Breaker.ErrCircuitOpen).
Proof.
  intros Hb E. unfold with_breaker, Breaker.ExecuteWithResult. rewrite Hb, E.
  unfold set_brk. rewrite <- Hb. by destruct wd.
Qed.

Lemma with_breaker_closed_err {A} (fn : IO A) b wd wd' e :
  w_brk wd = Some b -> Breaker.state b = Breaker.StateClosed -> fn wd = (wd', Err e) ->
  with_breaker fn wd =
    (set_brk (Some (fst (Breaker.afterRequest (w_now wd' + w_skew wd') (Some e) b))) wd', Err e).
Proof.
  intros Hb Hc E. unfold with_breaker, Breaker.ExecuteWithResult, Breaker.beforeRequest.
  by rewrite Hb, Hc, E.
Qed.

(** Heartbeats sent one after the other. *)
Fixpoint heartbeats (n : nat) (w : string) (wd : world) : world * list (res HeartbeatResult) :=
  match n with
  | O => (wd, [])
  | S n' =>
      let (wd1, r) := Heartbeat w wd in
      let (wd2, rs) := heartbeats n' w wd1 in (wd2, r :: rs)
  end.

Lemma heartbeat_unreachable w wd dly e net :
  validateID w "workerID" = None -> w_net wd = mkTrip dly [] (Some (e, false)) :: net ->
  heartbeat w wd = (mkWorld (w_db wd) (w_now wd + dly) (w_skew wd) net (w_brk wd),
                    Err (Wrapf "heartbeat script failed: " e "")).
Proof.
  intros Hw Hn. unfold heartbeat, mbind, IO_bind, io_check. rewrite Hw. unfold io_now, wrap_err, round_trip.
  by rewrite Hn.
Qed.

Lemma heartbeats_unreachable n w wd b dly e :
  validateID w "workerID" = None -> w_brk wd = Some b -> Breaker.breaker_ok b ->
  Breaker.state b = Breaker.StateClosed ->
  Breaker.should_trip b (Some (Wrapf "heartbeat script failed: " e "")) = true ->
  Breaker.consecutiveFail b + Z.of_nat (S n) = Breaker.FailureThreshold (Breaker.config b) ->
  w_net wd = replicate (S n) (mkTrip dly [] (Some (e, false))) ->
  exists wd' b', heartbeats (S n) w wd =
      (wd', replicate (S n) (Err (Wrapf "heartbeat script failed: " e ""))) /\
    w_db wd' = w_db wd /\ w_brk wd' = Some b' /\ Breaker.state b' = Breaker.StateOpen /\
    Breaker.openedAt b' = w_now wd' + w_skew wd' /\ Breaker.config b' = Breaker.config b.
Proof.
  intros Hw. revert wd b. induction n as [|n IH]; intros wd b Hb Hok Hc Ht Hlen Hnet;
    set (err := Wrapf "heartbeat script failed: " e "") in *;
    cbn [replicate] in Hnet;
    pose proof (with_breaker_closed_err _ b wd _ _ Hb Hc
      (heartbeat_unreachable w wd dly e _ Hw Hnet)) as E; fold err in E; cbn [w_now w_skew] in E;
    destruct (Breaker.after_trip_closed (w_now wd + dly + w_skew wd) err b Hok Hc Ht)
      as (Hcf & Hst & Hop);
    pose proof (Breaker.afterRequest_config (w_now wd + dly + w_skew wd) (Some err) b) as Hcfg;
    pose proof (Breaker.afterRequest_ok (w_now wd + dly + w_skew wd) (Some err) b Hok) as Hok1;
    set (b1 := fst (Breaker.afterRequest _ _ b)) in *;
    change (heartbeats (S ?m) w wd) with
      (let (wd1, r) := Heartbeat w wd in
       let (wd2, rs) := heartbeats m w wd1 in (wd2, r :: rs));
    unfold Heartbeat; rewrite E.
  - rewrite (proj2 (Z.leb_le _ _)) in Hst by lia. do 2 eexists. split; [done|].
    simpl. split_and!; eauto.
  - rewrite (proj2 (Z.leb_gt _ _)) in Hst by lia.
    edestruct (IH (set_brk (Some b1) (mkWorld (w_db wd) (w_now wd + dly) (w_skew wd)
                  (replicate (S n) (mkTrip dly [] (Some (e, false)))) (w_brk wd))) b1)
      as (wd' & b' & Eh & Hd & Hb' & Hs' & Ho' & Hc'); [done..| | |done|].
    + by rewrite (Breaker.should_trip_config b1 b).
    + rewrite Hcfg. lia.
    + cbn [replicate] in Eh. rewrite Eh. exists wd', b'. split_and!; [done|done|done|done|done|congruence].
Qed.

(** Fail fast in an outage: after [FailureThreshold] heartbeats in a row
    failed to reach the server with an error the client counts, every
    client operation is refused at once, without a round trip, until
    [OpenTimeout] has elapsed. *)
Theorem outage_fails_fast n w wd b dly e :
  validateID w "workerID" = None -> w_brk wd = Some b -> Breaker.breaker_ok b ->
  Breaker.state b = Breaker.StateClosed -> Breaker.consecutiveFail b = 0 ->
  Breaker.ShouldTrip (Breaker.config b) = Some RedisShouldTrip ->
  RedisShouldTrip (Some (Wrapf "heartbeat script failed: " e "")) = true ->
  Z.of_nat (S n) = Breaker.FailureThreshold (Breaker.config b) ->
  w_net wd = replicate (S n) (mkTrip dly [] (Some (e, false))) ->
  let '(wd', rs) := heartbeats (S n) w wd in
  rs = replicate (S n) (Err (Wrapf "heartbeat script failed: " e "")) /\ w_db wd' = w_db wd /\
  forall later A (fn : IO A),
    w_brk later = w_brk wd' -> w_skew later = w_skew wd' ->
    w_now wd' <= w_now later < w_now wd' + Breaker.OpenTimeout (Breaker.config b) ->
    with_breaker fn later = (later, Err Breaker.ErrCircuitOpen).
Proof.
  intros Hw Hb Hok Hc H0 Hst Htrip Hlen Hnet.
  destruct (heartbeats_unreachable n w wd b dly e) as (wd' & b' & -> & Hd & Hb' & Hs' & Ho & Hcfg);
    try done; [by unfold Breaker.should_trip; rewrite Hst|lia|].
  split_and!; [done|done|]. intros later A fn Hbl Hsk Hnow.
  apply (with_breaker_refused fn b'); [congruence|].
  unfold Breaker.beforeRequest, Breaker.open_expired. rewrite Hs', Ho, Hcfg, Hsk.
  pose proof (Breaker.ok_timeout _ (Breaker.ok_config _ Hok)).
  destruct (Z.leb_spec (Breaker.OpenTimeout (Breaker.config b))
    (time_sub (w_now later + w_skew wd') (w_now wd' + w_skew wd'))) as [Hle|]; [|done].
  unfold time_sub in Hle. rewrite sat64_ge in Hle by int64_lia. lia.
Qed.

(** A call with an invalid identifier that happens to be the probe of a
    breaker whose timeout has elapsed (one probe allowed) leaves the client
    refusing every operation from then on, at any time, although the server
    was never contacted. *)
Theorem invalid_id_wedges_client w t title agent wd b err :
  validateID w "workerID" = Some err -> RedisShouldTrip (Some err) = false ->
  w_brk wd = Some b -> Breaker.state b = Breaker.StateOpen ->
  Breaker.open_expired (w_now wd + w_skew wd) b = true ->
  Breaker.HalfOpenMaxProbes (Breaker.config b) = 1 ->
  Breaker.ShouldTrip (Breaker.config b) = Some RedisShouldTrip ->
  let '(wd', r) := ClaimTask w t title agent wd in
  r = Err err /\ w_db wd' = w_db wd /\
  forall later A (fn : IO A), w_brk later = w_brk wd' ->
    with_breaker fn later = (later, Err Breaker.ErrCircuitOpen).
Proof.
  intros Hv Htrip Hb Hs He Hp Hst. unfold ClaimTask, with_breaker, Breaker.ExecuteWithResult.
  unfold Breaker.beforeRequest. rewrite Hb, Hs, He.
  rewrite (claimTask_invalid w t title agent wd err (or_introl Hv)).
  split_and!; [done|done|]. cbn [set_brk w_brk]. intros later A fn Hl.
  apply (with_breaker_refused fn _ later Hl).
  unfold Breaker.afterRequest, Breaker.should_trip. simpl. rewrite Hst, Htrip. simpl.
  unfold Breaker.beforeRequest. simpl. by rewrite Hp.
Qed.
End client_facts.

(** The sentinel of an expired context does not trip the breaker, the same
    sentinel under any wrapping does: it implements [net.Error], and the
    comparison with [==] does not see through the wrapping that every script
    call of the client puts around it. *)
Theorem deadline_trips_when_wrapped p suffix :
  RedisShouldTrip (Some context_deadline_exceeded) = false /\
  RedisShouldTrip (Some (Wrapf p context_deadline_exceeded suffix)) = true.
Proof.
  split; [done|]. unfold RedisShouldTrip.
  rewrite !bool_decide_false by (unfold context_canceled, context_deadline_exceeded; congruence).
  done.
Qed.

(** ** Witnesses: the server [mem_redis] *)
Section witnesses.
Local Open Scope string_scope.
Local Existing Instance mem_redis.

Definition world0 : world := mkWorld (∅ : keyspace) 1700000000000000000 0 [] None.
Definition claimed : world := fst (claimTask "w1" "bd-1" "title" "claude" world0).

Lemma typed_empty : typed ∅.
Proof. split; intros *; rewrite lookup_empty; done. Qed.
Lemma typed_world0 : typed (now_view world0).
Proof. exact typed_empty. Qed.
Lemma claimed_view : now_view claimed =
  claim_effect 1700000000000 ∅ "w1" "bd-1" "title" "claude" 300 1700000000000.
Proof. vm_compute. reflexivity. Qed.
Lemma typed_claimed : typed (now_view claimed).
Proof. rewrite claimed_view. apply claim_effect_typed, typed_empty. Qed.

(** A run of the fleet. *)
Definition fleet_exec (s : db * Z) (o : op) : db * Z :=
  match o with OTick dt => (s.1, s.2 + dt) | _ => (fst (run_db s.2 (op_script o) s.1), s.2) end.
Definition forward (o : op) : Prop := match o with OTick dt => 0 <= dt | _ => True end.
Lemma fleet_exec_steps s ops : Forall forward ops -> steps fleet_step s ops (foldl fleet_exec s ops).
Proof.
  intros H. revert s. induction H as [|o ops Ho _ IH]; intros [d t]; [constructor|].
  econstructor; [|apply IH]. destruct o; try apply fleet_op. by apply fleet_tick.
Defined.

Definition busy : list op :=
  [OClaim "w2" "bd-1" "t" "codex" 0; OTick 100000; OCleanup "bd-1" "w2"; OClaim "w2" "bd-2" "t" "codex" 0;
   OComplete "w2" "bd-1" 0; OHeartbeat "w1" 0; OCleanup "bd-2" "w1"; ODelWorker "w1"; OZrem "w1"; OTick 199000;
   OHeartbeat "w1" 0; OComplete "w2" "bd-2" 0].

Lemma lease_exclusion_witness :
  let s := foldl fleet_exec (w_db claimed, 1700000000000) busy in
  (exists x', lease (view s.1 s.2) "bd-1" = Some ("w1", Some x') /\ 1700000300000 <= x') /\
  snd (run_db s.2 (claimScript (taskOwnerKey "bd-1") (workerStateKey "w2")
         activeWorkersKey "w2" "bd-1" "t" "codex" DefaultTTLSeconds 0) s.1) = Ok [LInt 0; LStr "w1"].
Proof.
  intros s.
  destruct (lease_exclusion "bd-1" "w1" 1700000300000 busy (w_db claimed) 1700000000000 s.1 s.2 typed_claimed) as [Hl Hc];
    [vm_compute; reflexivity|lia|repeat constructor; intros H; simpl in H; intuition discriminate| |vm_compute; reflexivity|].
  - rewrite <- surjective_pairing. apply fleet_exec_steps. repeat constructor; simpl; lia.
  - split; [exact Hl|]. exact (proj1 (Hc "w2" "t" "codex" 0 ltac:(discriminate))).
Defined.

Lemma claimTask_functional_witness :
  lease (now_view claimed) "bd-1" = Some ("w1", Some 1700000300000).
Proof.
  exact (proj2 (proj1 (claimTask_functional "w1" "bd-1" "title" "claude" world0
    eq_refl eq_refl eq_refl typed_world0))).
Defined.

Lemma heartbeat_functional_witness :
  snd (heartbeat "w1" claimed) = Ok (mkHeartbeat true 300 "").
Proof.
  pose proof (heartbeat_functional "w1" claimed eq_refl eq_refl typed_claimed) as X.
  cbv zeta in X. destruct (heartbeat "w1" claimed) as [wd' r].
  assert (bool_decide (now_view claimed !! workerStateKey "w1" = None) = false) as E
    by (vm_compute; reflexivity).
  assert ((hash_at (now_view claimed) (workerStateKey "w1") !! "task_id"
           ≫= lease (now_view claimed)) = Some ("w1", Some 1700000300000)) as L
    by (vm_compute; reflexivity).
  rewrite E, L in X. rewrite bool_decide_false in X by auto. exact (proj1 X).
Defined.

Lemma complete_handover_witness :
  snd (completeTask "w1" "bd-1" claimed) = Ok (mkComplete true "").
Proof.
  pose proof (complete_handover "w1" "w2" "bd-1" "t" "codex" claimed
    eq_refl eq_refl eq_refl eq_refl typed_claimed) as X.
  destruct (completeTask "w1" "bd-1" claimed) as [wd1 r].
  destruct (claimTask "w2" "bd-1" "t" "codex" wd1) as [wd2 r2].
  assert (lease (now_view claimed) "bd-1" = Some ("w1", Some 1700000300000)) as L
    by (vm_compute; reflexivity).
  rewrite L in X. rewrite bool_decide_false in X by auto. exact (proj1 X).
Defined.

Definition lossy : world :=
  mkWorld (∅ : keyspace) 1700000000000000000 0 [mkTrip 5000000 [] (Some (NetError "i/o timeout", true))] None.
Lemma claim_retry_after_lost_reply_witness :
  snd (claimTask "w1" "bd-1" "t" "claude" lossy) =
    Err (Wrapf "claim script failed: " (NetError "i/o timeout") "").
Proof.
  exact (proj1 (claim_retry_after_lost_reply "w1" "bd-1" "t" "claude" lossy 5000000 []
    (NetError "i/o timeout") true eq_refl eq_refl eq_refl typed_empty I)).
Defined.

Definition kv_config : Breaker.Config :=
  Breaker.mkConfig 2 10000000000 1 (Some RedisShouldTrip) false.
Definition kv_breaker : Breaker.Breaker := Breaker.NewBreaker 0 "redis" kv_config.
Lemma kv_breaker_ok : Breaker.breaker_ok kv_breaker.
Proof.
  apply Breaker.NewBreaker_ok, Breaker.normalize_config_ok; vm_compute; discriminate.
Qed.
Definition down : world :=
  mkWorld (∅ : keyspace) 1700000000000000000 0
    (replicate 2 (mkTrip 5000000 [] (Some (NetError "connection refused", false)))) (Some kv_breaker).
Definition outage : world := fst (heartbeats 2 "w1" down).

Lemma outage_fails_fast_witness :
  snd (heartbeats 2 "w1" down) =
    replicate 2 (Err (Wrapf "heartbeat script failed: " (NetError "connection refused") "")).
Proof.
  exact (proj1 (outage_fails_fast 1 "w1" down kv_breaker 5000000 (NetError "connection refused")
    eq_refl eq_refl kv_breaker_ok eq_refl eq_refl eq_refl eq_refl eq_refl eq_refl)).
Defined.

Definition recovered : world :=
  mkWorld (∅ : keyspace) 1700000020000000000 0 [] (w_brk outage).
Lemma invalid_id_wedges_client_witness :
  with_breaker (heartbeat "w1") (fst (ClaimTask "" "bd-1" "t" "claude" recovered)) =
    (fst (ClaimTask "" "bd-1" "t" "claude" recovered), Err Breaker.ErrCircuitOpen).
Proof.
  refine (proj2 (proj2 (invalid_id_wedges_client "" "bd-1" "t" "claude" recovered
    (default kv_breaker (w_brk outage)) (Msg "workerID must not be empty") _ _ _ _ _ _ _))
    _ _ (heartbeat "w1") _); reflexivity.
Defined.
End witnesses.
End Kv.
