(* ===== verification/StaleDetector.v ===== *)
(** * StaleDetector: recovery of crashed workers, [internal/kv/stale.go] and
    [internal/kv/reconcile.go]

    Leader election on a Redis key, detection of the workers whose heartbeat is
    old, clean-up of what they left, and the reset of their tasks in the issue
    tracker. The tracker's command line tool is a parameter, [bd]: what it
    does to its own state, and its error and output. *)
From S2P Require Import Prelude Breaker Redis Net KvClient.
Import Net Kv.
Local Open Scope Z_scope.

Module Stale.

(** ** Data *)
Record StaleDetectorConfig := mkStaleConfig {
  CheckInterval : Z;
  StaleThreshold : Z;
  LeaderTTL : Z;
  LeaderKey : string;
}.

Definition default_config : StaleDetectorConfig :=
  mkStaleConfig (15 * second) (5 * minute) (30 * second) DefaultLeaderKey.

Record StaleWorker := mkStaleWorker {
  sw_WorkerID : string;
  sw_TaskID : string;
  sw_TaskTitle : string;
  sw_LastHeartbeat : Z;
}.

Record StaleDetectorStatus := mkStatus {
  Enabled : bool;
  IsLeader : bool;
  LastCheck : Z;
  StaleWorkersFound : Z;
  TasksReconciled : Z;
}.

Record OrphanedTask := mkOrphan {
  ot_TaskID : string;
  ot_TaskTitle : string;
  ot_WorkerID : string;
  ot_StaleSince : Z;
}.

Record ReconcileResult := mkReconcile {
  rr_TaskID : string;
  rr_Success : bool;
  rr_Error : option goerror;
}.

Definition set_IsLeader (b : bool) (s : StaleDetectorStatus) : StaleDetectorStatus :=
  mkStatus (Enabled s) b (LastCheck s) (StaleWorkersFound s) (TasksReconciled s).
Definition set_check (now n : Z) (s : StaleDetectorStatus) : StaleDetectorStatus :=
  mkStatus (Enabled s) (IsLeader s) now n (TasksReconciled s).
Definition set_reconciled (n : Z) (s : StaleDetectorStatus) : StaleDetectorStatus :=
  mkStatus (Enabled s) (IsLeader s) (LastCheck s) (StaleWorkersFound s) n.
Definition initial_status : StaleDetectorStatus := mkStatus true false 0 0 0.

Definition bd_bad_chars : string :=
  String ";" (String "010" (String "013" (String "009" " `$|&"))).

Section detector.
Context {redis : RedisServer}.

(** ** Redis side *)
Definition tryAcquireLeadership (cfg : StaleDetectorConfig) (serverID : string) : IO bool :=
  acquired ← wrap_err "SET NX failed: " (SetLeaderKey (LeaderKey cfg) serverID (LeaderTTL cfg));
  if (acquired : bool) then mret true
  else
    r ← io_try (round_trip (redis_get (LeaderKey cfg)));
    mret (match r with
          | Ok (Some val) => bool_decide (val = serverID)
          | _ => false
          end).

Definition renewLeadership (cfg : StaleDetectorConfig) : IO unit :=
  RenewLeaderKey (LeaderKey cfg) (LeaderTTL cfg).

Definition releaseLeadership (cfg : StaleDetectorConfig) (serverID : string) : IO unit :=
  r ← io_try (round_trip (redis_get (LeaderKey cfg)));
  match r with
  | Ok (Some val) =>
      if bool_decide (val <> serverID) then mret tt
      else io_try (DeleteLeaderKey (LeaderKey cfg));; mret tt
  | _ => mret tt
  end.

Fixpoint worker_states (entries : list StaleWorkerEntry) : IO (list StaleWorker) :=
  match entries with
  | [] => mret []
  | entry :: rest =>
      r ← io_try (GetWorkerState (se_WorkerID entry));
      sws ← worker_states rest;
      mret (match r with
            | Err _ => sws
            | Ok state =>
                mkStaleWorker (se_WorkerID entry)
                  (default "" (state !! "task_id"%string))
                  (default "" (state !! "task_title"%string)) (se_Score entry) :: sws
            end)
  end.

Definition detectStaleWorkers (cfg : StaleDetectorConfig) : IO (list StaleWorker) :=
  entries ← GetStaleWorkers (StaleThreshold cfg);
  worker_states entries.

Definition cleanupWorker (worker : StaleWorker) : IO unit :=
  (if bool_decide (sw_TaskID worker <> "")
   then wrap_err "cleanup task owner: "
          (DeleteTaskOwnerIfMatch (sw_TaskID worker) (sw_WorkerID worker));; mret tt
   else mret tt);;
  wrap_err "delete worker state: " (DeleteWorkerState (sw_WorkerID worker));;
  wrap_err "remove active worker: " (RemoveActiveWorker (sw_WorkerID worker)).

Definition orphan_of (sw : StaleWorker) : OrphanedTask :=
  mkOrphan (sw_TaskID sw) (sw_TaskTitle sw) (sw_WorkerID sw) (sw_LastHeartbeat sw).

(** The loop over the stale workers: the tasks of those cleaned up. *)
Fixpoint cleanup_all (sws : list StaleWorker) : IO (list OrphanedTask) :=
  match sws with
  | [] => mret []
  | sw :: rest =>
      r ← io_try (cleanupWorker sw);
      ots ← cleanup_all rest;
      mret (match r with
            | Err _ => ots
            | Ok _ => if bool_decide (sw_TaskID sw <> "") then orphan_of sw :: ots else ots
            end)
  end.

(** ** The issue tracker side ([reconcile.go]) *)
Section reconciler.
Context {B : Type} (bd : list string -> B -> B * option (goerror * string)).

Definition resetTask (task : OrphanedTask) (b : B) : B * ReconcileResult :=
  let id := ot_TaskID task in
  if bool_decide (id = "") then
    (b, mkReconcile id false (Some (Msg "task ID cannot be empty")))
  else if contains_any id bd_bad_chars then
    (b, mkReconcile id false (Some (Msg ("task ID contains invalid characters: " +:+ quote id))))
  else
    match bd ["update"; id; "--status"; "open"; "--assignee"; ""]%string b with
    | (b', Some (err, output)) =>
        (b', mkReconcile id false
               (Some (Wrapf "bd update failed: " err (" (output: " +:+ output +:+ ")"))))
    | (b', None) => (b', mkReconcile id true None)
    end.

Fixpoint ResetOrphanedTasks (tasks : list OrphanedTask) (b : B) : B * list ReconcileResult :=
  match tasks with
  | [] => (b, [])
  | task :: rest =>
      let (b1, r) := resetTask task b in
      let (b2, rs) := ResetOrphanedTasks rest b1 in (b2, r :: rs)
  end.

(** ** A detection cycle. Errors are only logged: they end the cycle early. *)
Definition count_success (rs : list ReconcileResult) : Z :=
  Z.of_nat (length (filter (fun r => rr_Success r = true) rs)).

Definition runCycle (cfg : StaleDetectorConfig) (serverID : string) (reconciler : bool)
    (st : StaleDetectorStatus) (b : B) (w : world) : StaleDetectorStatus * B * world :=
  match tryAcquireLeadership cfg serverID w with
  | (w1, Err _) => (st, b, w1)
  | (w1, Ok isLeader) =>
      let st1 := set_IsLeader isLeader st in
      if negb isLeader then (st1, b, w1)
      else
        match detectStaleWorkers cfg w1 with
        | (w2, Err _) => (st1, b, w2)
        | (w2, Ok sws) =>
            let st2 := set_check (w_now w2 + w_skew w2) (Z.of_nat (length sws)) st1 in
            match sws with
            | [] => (st2, b, fst (renewLeadership cfg w2))
            | _ =>
                match cleanup_all sws w2 with
                | (w3, Err _) => (st2, b, w3)
                | (w3, Ok orphaned) =>
                    let (st4, b4) :=
                      if reconciler && (0 <? Z.of_nat (length orphaned)) then
                        let (b4, results) := ResetOrphanedTasks orphaned b in
                        (set_reconciled (count_success results) st2, b4)
                      else (st2, b) in
                    (st4, b4, fst (renewLeadership cfg w3))
                end
            end
        end
  end.
End reconciler.

(** ** A client whose breaker lets requests through, on a quiet network *)
Definition passing (wd : world) : Prop :=
  match w_brk wd with None => True | Some b => Breaker.state b = Breaker.StateClosed end.
Definition calm (wd : world) : Prop := w_net wd = [] /\ passing wd.

(** The server's view became [ks]; no time passed and the world is calm. *)
Record calm_to (wd : world) (ks : keyspace) (wd' : world) : Prop := {
  ct_calm : calm wd';
  ct_view : now_view wd' = ks;
  ct_now : w_now wd' = w_now wd;
  ct_skew : w_skew wd' = w_skew wd;
}.

Lemma calm_to_refl wd : calm wd -> calm_to wd (now_view wd) wd.
Proof. by split. Qed.

Lemma calm_to_trans wd ks wd' ks' wd'' :
  calm_to wd ks wd' -> calm_to wd' ks' wd'' -> calm_to wd ks' wd''.
Proof. intros [] []. split; congruence. Qed.

Lemma calm_to_ms wd ks wd' : calm_to wd ks wd' -> srv_ms wd' = srv_ms wd.
Proof. intros H. unfold srv_ms. by rewrite (ct_now _ _ _ H). Qed.

Lemma calm_to_set_brk wd ks wd' b :
  calm_to wd ks wd' -> match b with None => True | Some b => Breaker.state b = Breaker.StateClosed end ->
  calm_to wd ks (set_brk b wd').
Proof. intros [[? ?] ? ? ?] Hb. by split. Qed.

Lemma round_trip_calm {A} (p : lua A) wd ks a :
  calm wd -> run_ks (srv_ms wd) p (now_view wd) = (ks, Ok a) ->
  exists wd', round_trip p wd = (wd', Ok a) /\ calm_to wd ks wd'.
Proof.
  intros [Hq Hp] E. pose proof (round_trip_quiet p wd Hq) as (Hv & Hr & Hn & Hs & Hw & Hb).
  destruct (round_trip p wd) as [wd' r]. simpl in *. rewrite E in Hv, Hr. simpl in *. subst r.
  exists wd'. split; [done|]. split; [|done..]. split; [done|]. unfold passing in *. by rewrite Hb.
Qed.

Lemma with_breaker_calm {A} (fn : IO A) wd ks wd' a :
  calm wd -> fn wd = (wd', Ok a) -> calm_to wd ks wd' -> w_brk wd' = w_brk wd \/ w_brk wd = None ->
  exists wd'', with_breaker fn wd = (wd'', Ok a) /\ calm_to wd ks wd''.
Proof.
  intros [_ Hp] E Hc Hb. unfold with_breaker, passing in *. destruct (w_brk wd) as [b|]; [|eauto].
  unfold Breaker.ExecuteWithResult, Breaker.beforeRequest. rewrite Hp, E. eexists. split; [done|].
  apply calm_to_set_brk; [done|]. unfold Breaker.afterRequest. simpl. by rewrite Hp.
Qed.

Lemma trip_calm {A} (p : lua A) wd ks a :
  calm wd -> run_ks (srv_ms wd) p (now_view wd) = (ks, Ok a) ->
  exists wd', with_breaker (round_trip p) wd = (wd', Ok a) /\ calm_to wd ks wd'.
Proof.
  intros Hc E. destruct (round_trip_calm p wd ks a Hc E) as (wd' & E' & Hc').
  apply (with_breaker_calm _ _ _ wd'); [done..|]. left.
  pose proof (round_trip_quiet p wd (proj1 Hc)) as (_ & _ & _ & _ & _ & Hb). by rewrite E' in Hb.
Qed.

(** ** Leadership *)
Definition leader (ks : keyspace) (k : string) : option (string * option Z) :=
  match ks !! k with Some (mkEntry (VString o) x) => Some (o, x) | _ => None end.
Definition leader_typed (ks : keyspace) (k : string) : Prop :=
  forall e, ks !! k = Some e -> exists o, ent_val e = VString o.

Lemma leader_cases ks k :
  leader_typed ks k ->
  (ks !! k = None /\ leader ks k = None) \/
  (exists o x, ks !! k = Some (mkEntry (VString o) x) /\ leader ks k = Some (o, x)).
Proof.
  intros H. unfold leader. destruct (ks !! k) as [[v x]|] eqn:E; [right|by left].
  destruct (H _ E) as [o Ho]. simpl in Ho. subst. eauto.
Qed.

Lemma try_quiet cfg id wd :
  calm wd -> leader_typed (now_view wd) (LeaderKey cfg) -> 0 < set_ttl_ms (LeaderTTL cfg) ->
  match leader (now_view wd) (LeaderKey cfg) with
  | None => exists wd', tryAcquireLeadership cfg id wd = (wd', Ok true) /\
      calm_to wd (<[LeaderKey cfg := mkEntry (VString id) (Some (srv_ms wd + set_ttl_ms (LeaderTTL cfg)))]>
                    (now_view wd)) wd'
  | Some (o, _) => exists wd', tryAcquireLeadership cfg id wd = (wd', Ok (bool_decide (o = id))) /\
      calm_to wd (now_view wd) wd'
  end.
Proof.
  intros Hc Ht Httl. unfold tryAcquireLeadership, SetLeaderKey.
  set (p := call (SETNX _ _ _) ≫= _).
  destruct (leader_cases _ _ Ht) as [[E L]|(o & x & E & L)]; rewrite L.
  - assert (run_ks (srv_ms wd) p (now_view wd) =
      (<[LeaderKey cfg := mkEntry (VString id) (Some (srv_ms wd + set_ttl_ms (LeaderTTL cfg)))]>
         (now_view wd), Ok true)) as R.
    { unfold p. rewrite run_call. cbn [doc_exec]. rewrite E.
      by rewrite (proj2 (Z.leb_gt _ _)) by lia. }
    destruct (trip_calm p wd _ _ Hc R) as (wd' & E' & Hc').
    exists wd'. split; [|done]. unfold mbind, IO_bind, wrap_err. by rewrite E'.
  - assert (run_ks (srv_ms wd) p (now_view wd) = (now_view wd, Ok false)) as R.
    { unfold p. rewrite run_call. cbn [doc_exec]. by rewrite E. }
    destruct (trip_calm p wd _ _ Hc R) as (wd1 & E1 & Hc1).
    assert (run_ks (srv_ms wd1) (redis_get (LeaderKey cfg)) (now_view wd1) =
            (now_view wd, Ok (Some o))) as R2.
    { unfold redis_get. rewrite run_call. cbn [doc_exec]. by rewrite (ct_view _ _ _ Hc1), E. }
    destruct (round_trip_calm _ wd1 _ _ (ct_calm _ _ _ Hc1) R2) as (wd2 & E2 & Hc2).
    exists wd2. split; [|by eapply calm_to_trans].
    unfold mbind, IO_bind, wrap_err, io_try. by rewrite E1, E2.
Qed.

Lemma renew_quiet cfg wd :
  calm wd -> 0 < expire_ttl_ms (LeaderTTL cfg) -> leader_typed (now_view wd) (LeaderKey cfg) ->
  exists wd', renewLeadership cfg wd = (wd', Ok tt) /\
    calm_to wd (match leader (now_view wd) (LeaderKey cfg) with
                | Some (o, _) =>
                    <[LeaderKey cfg := mkEntry (VString o)
                        (Some (srv_ms wd + expire_ttl_ms (LeaderTTL cfg)))]> (now_view wd)
                | None => now_view wd
                end) wd'.
Proof.
  intros Hc Httl Ht. unfold renewLeadership, RenewLeaderKey. apply trip_calm; [done|].
  unfold redis_unit. rewrite run_call. cbn [doc_exec].
  destruct (leader_cases _ _ Ht) as [[E L]|(o & x & E & L)]; rewrite E, L; [done|].
  cbn [ent_val]. by rewrite (proj2 (Z.leb_gt _ _)) by lia.
Qed.

(** ** Detection *)
Definition stale_entries (ks : keyspace) (cutoff : Z) : list (string * Z) :=
  InsertionSort.isort scored_less
    (filter (fun ms => bool_decide (ms.2 <= cutoff) = true) (map_to_list (zset_at ks activeWorkersKey))).

Definition stale_worker_of (ks : keyspace) (m : string * Z) : StaleWorker :=
  let h := hash_at ks (workerStateKey m.1) in
  mkStaleWorker m.1 (default "" (h !! "task_id"%string)) (default "" (h !! "task_title"%string)) m.2.

Definition cutoff (cfg : StaleDetectorConfig) (wd : world) : Z :=
  (w_now wd + w_skew wd - StaleThreshold cfg) / ms.

Lemma stale_entries_elem ks c w :
  w ∈ map fst (stale_entries ks c) <->
  exists sc, zset_at ks activeWorkersKey !! w = Some sc /\ sc <= c.
Proof.
  rewrite list_elem_of_fmap.
  assert (forall x, x ∈ stale_entries ks c <->
    x ∈ filter (fun ms => bool_decide (ms.2 <= c) = true) (map_to_list (zset_at ks activeWorkersKey)))
    as Hel by (intros x; unfold stale_entries; by rewrite InsertionSort.isort_perm).
  split.
  - intros ([m sc] & -> & Hin). rewrite Hel in Hin. apply list_elem_of_filter in Hin as [Hb Hin].
    apply bool_decide_eq_true in Hb. apply elem_of_map_to_list in Hin. eauto.
  - intros (sc & E & Hle). exists (w, sc). split; [done|]. rewrite Hel. apply list_elem_of_filter.
    split; [by apply bool_decide_eq_true|]. by apply elem_of_map_to_list.
Qed.

Lemma worker_state_quiet w wd :
  calm wd -> typed (now_view wd) ->
  exists wd', GetWorkerState w wd = (wd', Ok (hash_at (now_view wd) (workerStateKey w))) /\
    calm_to wd (now_view wd) wd'.
Proof.
  intros Hc H. unfold GetWorkerState. apply trip_calm; [done|]. rewrite run_call. cbn [doc_exec].
  unfold hash_at. destruct (typed_worker_cases _ w H) as [[E _]|(h & x & E & _)]; by rewrite E.
Qed.

Lemma worker_states_quiet l wd :
  calm wd -> typed (now_view wd) ->
  exists wd', worker_states (map (fun z => mkStaleEntry z.1 z.2) l) wd =
      (wd', Ok (map (stale_worker_of (now_view wd)) l)) /\
    calm_to wd (now_view wd) wd'.
Proof.
  revert wd; induction l as [|[m sc] l IH]; intros wd Hc H.
  { eexists. split; [done|by apply calm_to_refl]. }
  cbn [map worker_states se_WorkerID se_Score fst snd].
  destruct (worker_state_quiet m wd Hc H) as (wd1 & E1 & Hc1).
  destruct (IH wd1 (ct_calm _ _ _ Hc1)) as (wd2 & E2 & Hc2); [by rewrite (ct_view _ _ _ Hc1)|].
  rewrite (ct_view _ _ _ Hc1) in E2, Hc2. exists wd2. split; [|by eapply calm_to_trans].
  unfold mbind, IO_bind, io_try. rewrite E1, E2. done.
Qed.

Lemma detect_quiet cfg wd :
  calm wd -> typed (now_view wd) ->
  exists wd', detectStaleWorkers cfg wd =
      (wd', Ok (map (stale_worker_of (now_view wd)) (stale_entries (now_view wd) (cutoff cfg wd)))) /\
    calm_to wd (now_view wd) wd'.
Proof.
  intros Hc H. unfold detectStaleWorkers, GetStaleWorkers.
  set (l := stale_entries (now_view wd) (cutoff cfg wd)).
  assert (exists wd1, getStaleWorkers (StaleThreshold cfg) wd =
            (wd1, Ok (map (fun z => mkStaleEntry z.1 z.2) l)) /\
          calm_to wd (now_view wd) wd1 /\ w_brk wd1 = w_brk wd) as (wd1 & E1 & Hc1 & Hb1).
  { set (p := r ← call (ZRANGEBYSCORE activeWorkersKey (cutoff cfg wd));
              mret (match r with RScored l => l | _ => [] end) : lua (list (string * Z))).
    change (getStaleWorkers (StaleThreshold cfg) wd) with
      (match wrap_err "ZRANGEBYSCORE failed: " (round_trip p) wd with
       | (w', Ok a) => (w', Ok (map (fun z => mkStaleEntry z.1 z.2) a))
       | (w', Err e) => (w', Err e)
       end).
    assert (run_ks (srv_ms wd) p (now_view wd) = (now_view wd, Ok l)) as R.
    { unfold p. rewrite run_call. cbn [doc_exec]. subst l. unfold stale_entries, zset_at.
      destruct (typed_active_cases _ H) as [[E _]|(z & x & E & _)]; rewrite E; done. }
    destruct (round_trip_calm _ wd _ _ Hc R) as (wd1 & E1 & Hc1). exists wd1.
    pose proof (round_trip_quiet p wd (proj1 Hc)) as (_ & _ & _ & _ & _ & Hb).
    rewrite E1 in Hb. split_and!; [|done|done]. unfold wrap_err. by rewrite E1. }
  destruct (with_breaker_calm _ wd _ wd1 _ Hc E1 Hc1) as (wd2 & E2 & Hc2); [by left|].
  destruct (worker_states_quiet l wd2 (ct_calm _ _ _ Hc2)) as (wd3 & E3 & Hc3);
    [by rewrite (ct_view _ _ _ Hc2)|]. rewrite (ct_view _ _ _ Hc2) in E3, Hc3.
  exists wd3. split; [|by eapply calm_to_trans]. unfold mbind, IO_bind. by rewrite E2, E3.
Qed.

(** ** Clean-up *)
Definition valid_stale (sw : StaleWorker) : Prop :=
  sw_TaskID sw = "" \/
  (validateID (sw_TaskID sw) "taskID" = None /\ validateID (sw_WorkerID sw) "expectedOwner" = None).

Definition drop_lease (ks : keyspace) (task w : string) : keyspace :=
  match lease ks task with
  | Some (o, _) => if bool_decide (o = w) then delete (taskOwnerKey task) ks else ks
  | None => ks
  end.

Definition drop_active (ks : keyspace) (w : string) : keyspace :=
  match ks !! activeWorkersKey with
  | Some (mkEntry (VZSet z) x) =>
      if bool_decide (delete w z = ∅) then delete activeWorkersKey ks
      else <[activeWorkersKey := mkEntry (VZSet (delete w z)) x]> ks
  | _ => ks
  end.

Definition cleanup_effect (ks : keyspace) (sw : StaleWorker) : keyspace :=
  drop_active
    (delete (workerStateKey (sw_WorkerID sw))
       (if bool_decide (sw_TaskID sw <> "") then drop_lease ks (sw_TaskID sw) (sw_WorkerID sw) else ks))
    (sw_WorkerID sw).

Lemma drop_lease_typed ks task w : typed ks -> typed (drop_lease ks task w).
Proof. unfold drop_lease. repeat case_match; auto with go. Qed.

Lemma drop_active_typed ks w : typed ks -> typed (drop_active ks w).
Proof. unfold drop_active. repeat case_match; auto with go. Qed.

Lemma cleanup_effect_typed ks sw : typed ks -> typed (cleanup_effect ks sw).
Proof.
  intros. unfold cleanup_effect. apply drop_active_typed, typed_delete.
  case_match; auto using drop_lease_typed.
Qed.

Lemma drop_lease_lease ks task w t :
  lease (drop_lease ks task w) t =
    match lease ks t with
    | Some (o, x) => if bool_decide (o = w /\ t = task) then None else Some (o, x)
    | None => None
    end.
Proof.
  unfold drop_lease. destruct (decide (task = t)) as [->|Hn].
  - destruct (lease ks t) as [[o x]|] eqn:L; [|done].
    case_bool_decide; [subst; rewrite bool_decide_true by done; unfold lease; by rewrite lookup_delete_eq|].
    rewrite bool_decide_false by tauto. done.
  - assert (lease (match lease ks task with
      | Some (o, _) => if bool_decide (o = w) then delete (taskOwnerKey task) ks else ks
      | None => ks end) t = lease ks t) as ->.
    { repeat case_match; try done; apply lease_delete_ne; intros K; by apply taskOwnerKey_inj in K. }
    destruct (lease ks t) as [[o x]|]; [|done]. rewrite bool_decide_false; [done|]. intros [_ ->]. done.
Qed.

Lemma drop_active_lookup ks w k : k <> activeWorkersKey -> drop_active ks w !! k = ks !! k.
Proof.
  intros Hk. unfold drop_active. repeat case_match; try done;
    [by rewrite lookup_delete_ne|by rewrite lookup_insert_ne].
Qed.

Lemma drop_active_lease ks w t : lease (drop_active ks w) t = lease ks t.
Proof. unfold lease. rewrite drop_active_lookup by auto with go. done. Qed.

Lemma drop_active_zset ks w :
  zset_at (drop_active ks w) activeWorkersKey = delete w (zset_at ks activeWorkersKey).
Proof.
  unfold drop_active, zset_at. destruct (ks !! activeWorkersKey) as [[[s|h|z] x]|] eqn:E;
    rewrite ?E; cbn [fmap option_fmap option_map ent_val]; rewrite ?delete_empty; try done.
  case_bool_decide as Hb; [by rewrite lookup_delete_eq|by rewrite lookup_insert_eq].
Qed.

Lemma cleanup_effect_lease ks sw t :
  lease (cleanup_effect ks sw) t =
    match lease ks t with
    | Some (o, x) =>
        if bool_decide (o = sw_WorkerID sw /\ t = sw_TaskID sw /\ t <> "") then None else Some (o, x)
    | None => None
    end.
Proof.
  unfold cleanup_effect. rewrite drop_active_lease, lease_delete_ne by auto with go.
  case_bool_decide as Hn.
  - rewrite drop_lease_lease. destruct (lease ks t) as [[o x]|]; [|done].
    repeat case_bool_decide; try done; exfalso; intuition congruence.
  - destruct (lease ks t) as [[o x]|]; [|done]. case_bool_decide; [|done]. exfalso. intuition congruence.
Qed.

Lemma delete_owner_quiet t w wd :
  calm wd -> typed (now_view wd) ->
  validateID t "taskID" = None -> validateID w "expectedOwner" = None ->
  exists wd' r, DeleteTaskOwnerIfMatch t w wd = (wd', Ok r) /\
    calm_to wd (drop_lease (now_view wd) t w) wd' /\
    r = match lease (now_view wd) t with Some (o, _) => bool_decide (o = w) | None => true end.
Proof.
  intros Hc H Ht Hw. pose proof (cleanup_run (srv_ms wd) (now_view wd) t w H) as E.
  assert (exists n, run_ks (srv_ms wd) (cleanupOwnerScript (taskOwnerKey t) w) (now_view wd) =
            (drop_lease (now_view wd) t w, Ok n) /\
          bool_decide (n = 1) = match lease (now_view wd) t with
                                | Some (o, _) => bool_decide (o = w) | None => true end) as (n & R & Hn).
  { unfold drop_lease. destruct (lease (now_view wd) t) as [[o x]|]; [case_bool_decide|]; eauto. }
  destruct (round_trip_calm _ wd _ _ Hc R) as (wd1 & E1 & Hc1).
  pose proof (round_trip_quiet (cleanupOwnerScript (taskOwnerKey t) w) wd (proj1 Hc))
    as (_ & _ & _ & _ & _ & Hb). rewrite E1 in Hb.
  assert (deleteTaskOwnerIfMatch t w wd = (wd1, Ok (bool_decide (n = 1)))) as E2.
  { unfold deleteTaskOwnerIfMatch, io_check, mbind, IO_bind, wrap_err. rewrite Ht, Hw, E1. done. }
  destruct (with_breaker_calm _ wd _ wd1 _ Hc E2 Hc1) as (wd2 & E3 & Hc2); [by left|].
  exists wd2, (bool_decide (n = 1)). split_and!; [exact E3|done|done].
Qed.

Lemma delete_state_quiet w wd :
  calm wd ->
  exists wd', DeleteWorkerState w wd = (wd', Ok tt) /\
    calm_to wd (delete (workerStateKey w) (now_view wd)) wd'.
Proof.
  intros Hc. unfold DeleteWorkerState. apply trip_calm; [done|].
  unfold redis_unit. rewrite run_call. cbn [doc_exec].
  destruct (now_view wd !! workerStateKey w) eqn:E; [done|].
  by rewrite delete_id.
Qed.

Lemma zrem_quiet w wd :
  calm wd -> typed (now_view wd) ->
  exists wd', RemoveActiveWorker w wd = (wd', Ok tt) /\ calm_to wd (drop_active (now_view wd) w) wd'.
Proof.
  intros Hc H. unfold RemoveActiveWorker. apply trip_calm; [done|].
  unfold redis_unit. rewrite run_call. cbn [doc_exec]. unfold drop_active.
  destruct (typed_active_cases _ H) as [[E _]|(z & x & E & _)]; rewrite E; done.
Qed.

(** A stale worker is cleaned up completely, the lease of its task only if it
    still holds it; the call reports success either way. *)
Lemma cleanup_quiet sw wd :
  calm wd -> typed (now_view wd) -> valid_stale sw ->
  exists wd', cleanupWorker sw wd = (wd', Ok tt) /\ calm_to wd (cleanup_effect (now_view wd) sw) wd'.
Proof.
  intros Hc H Hv. unfold cleanupWorker.
  set (ks1 := if bool_decide (sw_TaskID sw <> "")
              then drop_lease (now_view wd) (sw_TaskID sw) (sw_WorkerID sw) else now_view wd).
  assert (exists wd1, (if bool_decide (sw_TaskID sw <> "")
      then wrap_err "cleanup task owner: "
             (DeleteTaskOwnerIfMatch (sw_TaskID sw) (sw_WorkerID sw));; mret tt
      else mret tt) wd = (wd1, Ok tt) /\ calm_to wd ks1 wd1) as (wd1 & E1 & Hc1).
  { subst ks1. case_bool_decide as Hn.
    - destruct Hv as [Hv|[Ht Hw]]; [done|].
      destruct (delete_owner_quiet _ _ wd Hc H Ht Hw) as (wd1 & r & E & Hc1 & _).
      exists wd1. split; [|done]. unfold mbind, IO_bind. by rewrite (wrap_err_ok _ _ _ _ _ E).
    - eexists. split; [done|by apply calm_to_refl]. }
  assert (typed (now_view wd1)) as H1.
  { rewrite (ct_view _ _ _ Hc1). subst ks1. case_match; auto using drop_lease_typed. }
  destruct (delete_state_quiet (sw_WorkerID sw) wd1 (ct_calm _ _ _ Hc1)) as (wd2 & E2 & Hc2).
  destruct (zrem_quiet (sw_WorkerID sw) wd2 (ct_calm _ _ _ Hc2)) as (wd3 & E3 & Hc3).
  { rewrite (ct_view _ _ _ Hc2). by apply typed_delete. }
  exists wd3. split.
  - rewrite (io_bind_ok _ _ _ _ _ E1), (io_bind_ok _ _ _ _ _ (wrap_err_ok _ _ _ _ _ E2)).
    by rewrite (wrap_err_ok _ _ _ _ _ E3).
  - rewrite (ct_view _ _ _ Hc2), (ct_view _ _ _ Hc1) in Hc3.
    exact (calm_to_trans _ _ _ _ _ Hc1 (calm_to_trans _ _ _ _ _ Hc2 Hc3)).
Qed.

Definition orphans (sws : list StaleWorker) : list OrphanedTask :=
  map orphan_of (filter (fun sw => bool_decide (sw_TaskID sw <> "") = true) sws).

Lemma cleanup_all_quiet sws wd :
  calm wd -> typed (now_view wd) -> Forall valid_stale sws ->
  exists wd', cleanup_all sws wd = (wd', Ok (orphans sws)) /\
    calm_to wd (foldl cleanup_effect (now_view wd) sws) wd'.
Proof.
  revert wd; induction sws as [|sw sws IH]; intros wd Hc H Hv.
  { eexists. split; [done|by apply calm_to_refl]. }
  apply Forall_cons in Hv as [Hsw Hv].
  destruct (cleanup_quiet sw wd Hc H Hsw) as (wd1 & E1 & Hc1).
  destruct (IH wd1 (ct_calm _ _ _ Hc1)) as (wd2 & E2 & Hc2);
    [rewrite (ct_view _ _ _ Hc1); by apply cleanup_effect_typed|done|].
  rewrite (ct_view _ _ _ Hc1) in Hc2. exists wd2. split; [|by eapply calm_to_trans].
  cbn [cleanup_all]. unfold mbind, IO_bind, io_try. rewrite E1, E2.
  unfold orphans. cbn [filter]. rewrite filter_cons.
  case_bool_decide; by rewrite ?decide_True, ?decide_False by done.
Qed.

(** What a round of clean-ups leaves. *)
Lemma cleanups_lease sws ks t :
  lease (foldl cleanup_effect ks sws) t =
    match lease ks t with
    | Some (o, x) =>
        if bool_decide (t <> "" /\ Exists (fun sw => o = sw_WorkerID sw /\ t = sw_TaskID sw) sws)
        then None else Some (o, x)
    | None => None
    end.
Proof.
  revert ks; induction sws as [|sw sws IH]; intros ks; cbn [foldl].
  { destruct (lease ks t) as [[o x]|]; [|done]. rewrite bool_decide_false; [done|].
    intros [_ He]. inversion He. }
  rewrite IH, cleanup_effect_lease. destruct (lease ks t) as [[o x]|]; [|done].
  case_bool_decide as H1; [rewrite bool_decide_true; [done|]|].
  { destruct H1 as (? & ? & ?). split; [done|]. by left. }
  erewrite (bool_decide_ext (t <> "" /\ Exists _ sws)); [done|]. rewrite Exists_cons. tauto.
Qed.

Lemma cleanup_effect_zset ks sw :
  zset_at (cleanup_effect ks sw) activeWorkersKey =
    delete (sw_WorkerID sw) (zset_at ks activeWorkersKey).
Proof.
  unfold cleanup_effect. rewrite drop_active_zset. f_equal. unfold zset_at, drop_lease.
  rewrite lookup_delete_ne by auto with go.
  repeat case_match; simplify_eq; rewrite ?lookup_delete_ne in * by auto with go; congruence.
Qed.

Lemma cleanups_zset sws ks w :
  zset_at (foldl cleanup_effect ks sws) activeWorkersKey !! w =
    if bool_decide (w ∈ map sw_WorkerID sws) then None else zset_at ks activeWorkersKey !! w.
Proof.
  revert ks; induction sws as [|sw sws IH]; intros ks; cbn [foldl map].
  { by rewrite bool_decide_false by set_solver. }
  rewrite IH, cleanup_effect_zset. destruct (decide (w = sw_WorkerID sw)) as [->|Hn].
  - rewrite lookup_delete_eq, (bool_decide_true (_ ∈ _ :: _)) by set_solver. by case_bool_decide.
  - rewrite lookup_delete_ne by done. rewrite (bool_decide_ext _ (w ∈ sw_WorkerID sw :: map sw_WorkerID sws));
      [done|set_solver].
Qed.

Lemma cleanups_typed sws ks : typed ks -> typed (foldl cleanup_effect ks sws).
Proof.
  revert ks; induction sws as [|sw sws IH]; intros ks H; [done|].
  cbn [foldl]. apply IH. by apply cleanup_effect_typed.
Qed.

(** The leader key is apart from the keys of tasks and workers. *)
Lemma leader_task_key t : DefaultLeaderKey <> taskOwnerKey t.
Proof. intros E. discriminate E. Qed.
Lemma leader_worker_key w : DefaultLeaderKey <> workerStateKey w.
Proof. intros E. discriminate E. Qed.
Lemma leader_active_key : DefaultLeaderKey <> activeWorkersKey.
Proof. intros E. discriminate E. Qed.
Hint Resolve leader_task_key leader_worker_key leader_active_key : go.

Lemma cleanup_effect_leader ks sw : cleanup_effect ks sw !! DefaultLeaderKey = ks !! DefaultLeaderKey.
Proof.
  unfold cleanup_effect, drop_lease. rewrite drop_active_lookup by auto with go.
  rewrite lookup_delete_ne by (apply not_eq_sym; auto with go).
  repeat case_match; try done; rewrite lookup_delete_ne; try done; apply not_eq_sym; auto with go.
Qed.

Lemma cleanups_leader sws ks :
  foldl cleanup_effect ks sws !! DefaultLeaderKey = ks !! DefaultLeaderKey.
Proof.
  revert ks; induction sws as [|sw sws IH]; intros ks; [done|]. cbn [foldl].
  by rewrite IH, cleanup_effect_leader.
Qed.

Lemma insert_leader_facts ks e :
  let ks' := <[DefaultLeaderKey := e]> ks in
  (typed ks -> typed ks') /\ (forall t, lease ks' t = lease ks t) /\
  (forall w, hash_at ks' (workerStateKey w) = hash_at ks (workerStateKey w)) /\
  zset_at ks' activeWorkersKey = zset_at ks activeWorkersKey.
Proof.
  simpl. split_and!.
  - intros [Ht Hw Ha]. split; intros *; rewrite lookup_insert_ne by auto with go; eauto.
  - intros t. apply lease_insert_ne. auto with go.
  - intros w. unfold hash_at. by rewrite lookup_insert_ne by auto with go.
  - unfold zset_at. by rewrite lookup_insert_ne by auto with go.
Qed.

Definition stale_workers (cfg : StaleDetectorConfig) (wd : world) : list StaleWorker :=
  map (stale_worker_of (now_view wd)) (stale_entries (now_view wd) (cutoff cfg wd)).

(** The state of the server that a detection cycle starts its work from. *)
Definition elected (ks ks1 : keyspace) (serverID : string) : Prop :=
  typed ks1 /\ (exists x, leader ks1 DefaultLeaderKey = Some (serverID, x)) /\
  (forall t, lease ks1 t = lease ks t) /\
  (forall w, hash_at ks1 (workerStateKey w) = hash_at ks (workerStateKey w)) /\
  zset_at ks1 activeWorkersKey = zset_at ks activeWorkersKey.

Lemma elect_quiet cfg serverID wd :
  LeaderKey cfg = DefaultLeaderKey -> 0 < set_ttl_ms (LeaderTTL cfg) ->
  calm wd -> typed (now_view wd) -> leader_typed (now_view wd) DefaultLeaderKey ->
  match leader (now_view wd) DefaultLeaderKey with Some (o, _) => o = serverID | None => True end ->
  exists wd1, tryAcquireLeadership cfg serverID wd = (wd1, Ok true) /\
    calm_to wd (now_view wd1) wd1 /\ elected (now_view wd) (now_view wd1) serverID.
Proof.
  intros Hk Httl Hc H Hlt Hl. pose proof (try_quiet cfg serverID wd Hc) as E.
  rewrite Hk in E. specialize (E Hlt Httl).
  destruct (leader (now_view wd) DefaultLeaderKey) as [[o x]|] eqn:L.
  - subst o. destruct E as (wd1 & E & Hc1). rewrite bool_decide_true in E by done.
    exists wd1. rewrite (ct_view _ _ _ Hc1). split; [done|]. split; [done|].
    unfold elected. split_and!; [exact H|eauto|done..].
  - destruct E as (wd1 & E & Hc1). exists wd1. rewrite (ct_view _ _ _ Hc1).
    split; [done|]. split; [done|]. unfold elected.
    edestruct (insert_leader_facts (now_view wd)) as (? & ? & ? & ?).
    split_and!; [auto|unfold leader; rewrite lookup_insert_eq; eauto|done..].
Qed.

Lemma stale_worker_of_ext ks ks1 m :
  (forall w, hash_at ks1 (workerStateKey w) = hash_at ks (workerStateKey w)) ->
  stale_worker_of ks1 m = stale_worker_of ks m.
Proof. intros E. unfold stale_worker_of. by rewrite E. Qed.

(** The cycle of an elected detector, on a quiet network. *)
Lemma cycle_quiet {B} (bd : list string -> B -> B * option (goerror * string)) cfg serverID st b wd :
  LeaderKey cfg = DefaultLeaderKey ->
  0 < set_ttl_ms (LeaderTTL cfg) -> 0 < expire_ttl_ms (LeaderTTL cfg) ->
  calm wd -> typed (now_view wd) -> leader_typed (now_view wd) DefaultLeaderKey ->
  match leader (now_view wd) DefaultLeaderKey with Some (o, _) => o = serverID | None => True end ->
  let sws := stale_workers cfg wd in
  Forall valid_stale sws ->
  exists st' wd' ks1, elected (now_view wd) ks1 serverID /\
    runCycle bd cfg serverID true st b wd = (st', fst (ResetOrphanedTasks bd (orphans sws) b), wd') /\
    IsLeader st' = true /\ StaleWorkersFound st' = Z.of_nat (length sws) /\
    calm_to wd (<[DefaultLeaderKey := mkEntry (VString serverID)
                   (Some (srv_ms wd + expire_ttl_ms (LeaderTTL cfg)))]>
                 (foldl cleanup_effect ks1 sws)) wd'.
Proof.
  intros Hk Httl Hettl Hc H Hlt Hl sws Hv.
  destruct (elect_quiet cfg serverID wd Hk Httl Hc H Hlt Hl) as (wd1 & E1 & Hc1 & Hel).
  pose proof Hel as (H1 & (x & L1) & _ & Hh & Hz).
  destruct (detect_quiet cfg wd1 (ct_calm _ _ _ Hc1) H1) as (wd2 & E2 & Hc2).
  assert (map (stale_worker_of (now_view wd1)) (stale_entries (now_view wd1) (cutoff cfg wd1)) = sws) as Hsws.
  { unfold sws, stale_workers, stale_entries, cutoff.
    rewrite (ct_now _ _ _ Hc1), (ct_skew _ _ _ Hc1), Hz.
    apply map_ext. intros m. by apply stale_worker_of_ext. }
  rewrite Hsws in E2.
  assert (forall wd3, calm_to wd2 (foldl cleanup_effect (now_view wd1) sws) wd3 ->
    exists wd4, renewLeadership cfg wd3 = (wd4, Ok tt) /\
      calm_to wd (<[DefaultLeaderKey := mkEntry (VString serverID)
                   (Some (srv_ms wd + expire_ttl_ms (LeaderTTL cfg)))]>
                 (foldl cleanup_effect (now_view wd1) sws)) wd4) as Hrenew.
  { intros wd3 Hc3.
    assert (leader (now_view wd3) DefaultLeaderKey = Some (serverID, x)) as L3.
    { rewrite (ct_view _ _ _ Hc3). unfold leader. rewrite cleanups_leader. exact L1. }
    destruct (renew_quiet cfg wd3 (ct_calm _ _ _ Hc3) Hettl) as (wd4 & E4 & Hc4).
    { rewrite Hk. intros e Ee. unfold leader in L3. rewrite Ee in L3.
      destruct e as [[o| |] y]; [eauto|done..]. }
    rewrite Hk, L3 in Hc4. exists wd4. split; [done|].
    pose proof (calm_to_trans _ _ _ _ _ Hc1 (calm_to_trans _ _ _ _ _ Hc2 Hc3)) as Hc13.
    rewrite (ct_view _ _ _ Hc3), (calm_to_ms _ _ _ Hc13) in Hc4. by eapply calm_to_trans. }
  unfold runCycle. rewrite E1. cbn [negb]. rewrite E2.
  destruct sws as [|sw sws'] eqn:Es.
  - assert (calm_to wd2 (now_view wd1) wd2) as Hcr.
    { rewrite <- (ct_view _ _ _ Hc2). apply calm_to_refl, Hc2. }
    destruct (Hrenew wd2 Hcr) as (wd4 & E4 & Hc4). rewrite E4.
    eexists _, wd4, (now_view wd1). split_and!; done.
  - rewrite <- Es in *. clear Es sw sws'.
    destruct (cleanup_all_quiet sws wd2 (ct_calm _ _ _ Hc2)) as (wd3 & E3 & Hc3);
      [by rewrite (ct_view _ _ _ Hc2)|done|]. rewrite (ct_view _ _ _ Hc2) in Hc3. rewrite E3.
    destruct (Hrenew wd3 Hc3) as (wd4 & E4 & Hc4). rewrite E4. cbn [andb fst].
    destruct (Z.ltb_spec 0 (Z.of_nat (length (orphans sws)))) as [Hlt0|Hlt0].
    + destruct (ResetOrphanedTasks bd (orphans sws) b) as [b4 rs].
      eexists _, wd4, (now_view wd1). split_and!; done.
    + destruct (orphans sws); [|simpl in Hlt0; lia].
      eexists _, wd4, (now_view wd1). split_and!; done.
Qed.

(** Leader election on the key's state: a detector is leader exactly when
    the key is free (it then holds it for [LeaderTTL]) or carries its own
    identifier; another's leadership is left as it is. *)
Theorem leader_election cfg id wd :
  calm wd -> leader_typed (now_view wd) (LeaderKey cfg) -> 0 < set_ttl_ms (LeaderTTL cfg) ->
  let '(wd', r) := tryAcquireLeadership cfg id wd in
  match leader (now_view wd) (LeaderKey cfg) with
  | Some (o, _) => r = Ok (bool_decide (o = id)) /\ now_view wd' = now_view wd
  | None => r = Ok true /\
      leader (now_view wd') (LeaderKey cfg) = Some (id, Some (srv_ms wd + set_ttl_ms (LeaderTTL cfg)))
  end.
Proof.
  intros Hc Ht Httl. pose proof (try_quiet cfg id wd Hc Ht Httl) as E.
  destruct (leader (now_view wd) (LeaderKey cfg)) as [[o x]|] eqn:L;
    destruct E as (wd' & -> & Hc'); (split; [done|]); rewrite (ct_view _ _ _ Hc'); [done|].
  unfold leader. by rewrite lookup_insert_eq.
Qed.

(** Recovery: after a cycle of an elected detector no stale worker is
    listed as active; a task's lease is gone exactly when its holder was stale
    and its session named the task, every other lease is as before; the
    tracker received the reset of each stale worker's task; and the detector
    is leader for [LeaderTTL] more. *)
Theorem cycle_recovers {B} (bd : list string -> B -> B * option (goerror * string)) cfg serverID st b wd :
  LeaderKey cfg = DefaultLeaderKey ->
  0 < set_ttl_ms (LeaderTTL cfg) -> 0 < expire_ttl_ms (LeaderTTL cfg) ->
  calm wd -> typed (now_view wd) -> leader_typed (now_view wd) DefaultLeaderKey ->
  match leader (now_view wd) DefaultLeaderKey with Some (o, _) => o = serverID | None => True end ->
  let sws := stale_workers cfg wd in
  Forall valid_stale sws ->
  let '(st', b', wd') := runCycle bd cfg serverID true st b wd in
  (forall w, zset_at (now_view wd') activeWorkersKey !! w =
     match zset_at (now_view wd) activeWorkersKey !! w with
     | Some beat => if bool_decide (beat <= cutoff cfg wd) then None else Some beat
     | None => None
     end) /\
  (forall t, lease (now_view wd') t =
     match lease (now_view wd) t with
     | Some (o, x) =>
         if bool_decide (t <> "" /\ Exists (fun sw => o = sw_WorkerID sw /\ t = sw_TaskID sw) sws)
         then None else Some (o, x)
     | None => None
     end) /\
  b' = fst (ResetOrphanedTasks bd (orphans sws) b) /\
  IsLeader st' = true /\ StaleWorkersFound st' = Z.of_nat (length sws) /\
  leader (now_view wd') DefaultLeaderKey =
    Some (serverID, Some (srv_ms wd + expire_ttl_ms (LeaderTTL cfg))).
Proof.
  intros Hk Httl Hettl Hc H Hlt Hl sws Hv.
  destruct (cycle_quiet bd cfg serverID st b wd Hk Httl Hettl Hc H Hlt Hl Hv)
    as (st' & wd' & ks1 & (_ & _ & Hls & _ & Hz) & -> & Hst & Hn & Hc').
  rewrite (ct_view _ _ _ Hc'). fold sws in Hn |- *.
  edestruct (insert_leader_facts (foldl cleanup_effect ks1 sws)) as (_ & HL & _ & HZ).
  split_and!; [|intros t; by rewrite HL, cleanups_lease, Hls|done..|unfold leader; by rewrite lookup_insert_eq].
  intros w. rewrite HZ, cleanups_zset, Hz.
  assert (w ∈ map sw_WorkerID sws <-> w ∈ map fst (stale_entries (now_view wd) (cutoff cfg wd))) as Hin.
  { unfold sws, stale_workers. rewrite map_map. done. }
  rewrite stale_entries_elem in Hin.
  destruct (zset_at (now_view wd) activeWorkersKey !! w) as [beat|] eqn:E; [|by case_bool_decide].
  rewrite (bool_decide_ext _ (beat <= cutoff cfg wd)); [done|]. rewrite Hin. split; [intros (sc & [= ->] & ?); done|eauto].
Qed.

(** The tracker's calls made by a reset of [t]. *)
Definition reset_call (t : string) : list string :=
  ["update"; t; "--status"; "open"; "--assignee"; ""]%string.
Definition logging_bd (args : list string) (log : list (list string))
  : list (list string) * option (goerror * string) := (log ++ [args], None).

Lemma reset_logged ots log o :
  o ∈ ots -> ot_TaskID o <> "" -> contains_any (ot_TaskID o) bd_bad_chars = false ->
  reset_call (ot_TaskID o) ∈ fst (ResetOrphanedTasks logging_bd ots log).
Proof.
  assert (forall ots log x, x ∈ log -> x ∈ fst (ResetOrphanedTasks logging_bd ots log)) as Hmono.
  { clear. induction ots as [|o ots IH]; intros log x Hx; [done|]. cbn [ResetOrphanedTasks].
    destruct (resetTask logging_bd o log) as [l1 r] eqn:E.
    assert (x ∈ l1) as Hx1.
    { revert E. unfold resetTask, logging_bd. case_tests; intros; simplify_eq; set_solver. }
    specialize (IH l1 x Hx1). by destruct (ResetOrphanedTasks logging_bd ots l1). }
  revert log; induction ots as [|o' ots IH]; intros log Ho Hne Hch; [by inversion Ho|].
  cbn [ResetOrphanedTasks]. apply elem_of_cons in Ho as [<-|Ho].
  - unfold resetTask. rewrite bool_decide_false, Hch by done. unfold logging_bd at 1.
    specialize (Hmono ots (log ++ [reset_call (ot_TaskID o)]) (reset_call (ot_TaskID o))).
    destruct (ResetOrphanedTasks _ _ _) as [l2 rs]. apply Hmono. set_solver.
  - destruct (resetTask logging_bd o' log) as [l1 r]. specialize (IH l1 Ho Hne Hch).
    by destruct (ResetOrphanedTasks logging_bd ots l1).
Qed.

(** A task that another worker has claimed since a stale worker was
    detected is reset in the tracker all the same: the answer of
    [DeleteTaskOwnerIfMatch] is not used. The new owner keeps its lease. *)
Theorem reclaimed_task_is_reset sws log wd sw o x :
  calm wd -> typed (now_view wd) -> Forall valid_stale sws -> sw ∈ sws -> sw_TaskID sw <> "" ->
  contains_any (sw_TaskID sw) bd_bad_chars = false ->
  lease (now_view wd) (sw_TaskID sw) = Some (o, x) -> o ∉ map sw_WorkerID sws ->
  let '(wd', r) := cleanup_all sws wd in
  r = Ok (orphans sws) /\
  reset_call (sw_TaskID sw) ∈ fst (ResetOrphanedTasks logging_bd (orphans sws) log) /\
  lease (now_view wd') (sw_TaskID sw) = Some (o, x).
Proof.
  intros Hc H Hv Hin Hne Hch L Ho.
  destruct (cleanup_all_quiet sws wd Hc H Hv) as (wd' & -> & Hc'). split_and!; [done|..].
  - apply (reset_logged (orphans sws) log (orphan_of sw)); [|done..].
    unfold orphans. apply list_elem_of_fmap. exists sw. split; [done|].
    apply list_elem_of_filter. split; [by apply bool_decide_eq_true|done].
  - rewrite (ct_view _ _ _ Hc'), cleanups_lease, L, bool_decide_false; [done|]. intros [_ He].
    apply Exists_exists in He as (sw' & Hin' & -> & _). apply Ho. apply list_elem_of_fmap. eauto.
Qed.

(** Renewal does not check who leads: a detector that lost the key to
    another server while it was working prolongs the other's leadership. *)
Theorem renewal_extends_any_leader cfg wd o x :
  calm wd -> leader_typed (now_view wd) (LeaderKey cfg) -> 0 < expire_ttl_ms (LeaderTTL cfg) ->
  leader (now_view wd) (LeaderKey cfg) = Some (o, x) ->
  let '(wd', r) := renewLeadership cfg wd in
  r = Ok tt /\
  leader (now_view wd') (LeaderKey cfg) = Some (o, Some (srv_ms wd + expire_ttl_ms (LeaderTTL cfg))).
Proof.
  intros Hc Ht Httl L. destruct (renew_quiet cfg wd Hc Httl Ht) as (wd' & -> & Hc').
  rewrite (ct_view _ _ _ Hc'), L. split; [done|]. unfold leader. by rewrite lookup_insert_eq.
Qed.

(** ** Sessions and heartbeats age together

    The clock a client puts in its heartbeat is its own; [lag] bounds how far
    it, and the request's latency, are behind the server. *)
Definition op_now (o : op) : option Z :=
  match o with
  | OClaim _ _ _ _ n | OHeartbeat _ n | OComplete _ _ n => Some n
  | _ => None
  end.

Definition lag_step (lag : Z) (s : db * Z) (o : op) (s' : db * Z) : Prop :=
  fleet_step s o s' /\ match op_now o with Some n => s.2 - lag <= n | None => True end.

Definition session_bound (lag : Z) (ks : keyspace) : Prop :=
  forall w e sc, ks !! workerStateKey w = Some e -> zset_at ks activeWorkersKey !! w = Some sc ->
    exists x, ent_expire e = Some x /\ x <= sc + 300000 + lag.

Lemma session_touch lag t ks w h n :
  session_bound lag ks -> t - lag <= n ->
  session_bound lag (touch_active (<[workerStateKey w := mkEntry (VHash h) (Some (t + 300 * 1000))]> ks) w n).
Proof.
  intros Hb Hn w' e sc. unfold touch_active. rewrite lookup_insert_ne by auto with go.
  unfold zset_at at 1. rewrite lookup_insert_eq. cbn [fmap option_fmap option_map ent_val].
  assert (zset_at (<[workerStateKey w := mkEntry (VHash h) (Some (t + 300 * 1000))]> ks) activeWorkersKey
    = zset_at ks activeWorkersKey) as -> by (unfold zset_at; by rewrite lookup_insert_ne by auto with go).
  destruct (decide (w = w')) as [->|Hw].
  - rewrite !lookup_insert_eq. intros [= <-] [= <-]. eexists. split; [done|]. lia.
  - rewrite lookup_insert_ne by (intros K; by apply workerStateKey_inj in K).
    rewrite lookup_insert_ne by done. apply Hb.
Qed.

Lemma session_other lag ks ks' :
  session_bound lag ks ->
  (forall w e, ks' !! workerStateKey w = Some e -> ks !! workerStateKey w = Some e) ->
  zset_at ks' activeWorkersKey ⊆ zset_at ks activeWorkersKey -> session_bound lag ks'.
Proof. intros Hb H1 H2 w e sc He Hs. eapply Hb; [eauto|]. by eapply lookup_weaken. Qed.

Lemma session_insert_task lag ks t e : session_bound lag ks -> session_bound lag (<[taskOwnerKey t := e]> ks).
Proof.
  intros Hb. eapply session_other; [exact Hb| |].
  - intros w e'. by rewrite lookup_insert_ne by auto with go.
  - unfold zset_at. by rewrite lookup_insert_ne by auto with go.
Qed.

Lemma session_delete_task lag ks t : session_bound lag ks -> session_bound lag (delete (taskOwnerKey t) ks).
Proof.
  intros Hb. eapply session_other; [exact Hb| |].
  - intros w e'. by rewrite lookup_delete_ne by auto with go.
  - unfold zset_at. by rewrite lookup_delete_ne by auto with go.
Qed.

Lemma session_expire lag ks t : session_bound lag ks -> session_bound lag (expire_at t ks).
Proof.
  intros Hb. eapply session_other; [exact Hb| |].
  - intros w e. rewrite expire_at_lookup. repeat case_match; congruence.
  - unfold zset_at. rewrite expire_at_lookup. destruct (ks !! activeWorkersKey) as [e|]; [|done].
    destruct (alive t e); [done|]. simpl. apply map_empty_subseteq.
Qed.

Lemma session_op lag t o ks :
  typed ks -> session_bound lag ks ->
  match op_now o with Some n => t - lag <= n | None => True end ->
  session_bound lag (fst (run_ks t (op_script o) ks)).
Proof.
  intros H Hb Hn. destruct o as [w t' title ag now|w now|w t' now|t' w|w|w|dt];
    cbn [op_script op_now] in *; rewrite ?run_ks_bind_ret.
  - rewrite claim_run by done.
    repeat case_match; simpl; try done; apply session_touch; auto using session_insert_task.
  - rewrite heartbeat_run by done.
    repeat case_match; simpl; try done; apply session_touch; auto; by apply session_insert_task.
  - rewrite complete_run by done.
    repeat case_match; simpl; try done; apply session_touch; auto using session_delete_task.
  - rewrite cleanup_run by done. repeat case_match; simpl; auto using session_delete_task.
  - unfold redis_unit. rewrite run_call. cbn [doc_exec].
    destruct (ks !! workerStateKey w); simpl; [|done]. eapply session_other; [exact Hb| |].
    + intros w' e'. rewrite lookup_delete_Some. by intros [_ ?].
    + unfold zset_at. by rewrite lookup_delete_ne by auto with go.
  - assert (fst (run_ks t (redis_unit (ZREM activeWorkersKey w)) ks) = drop_active ks w) as ->.
    { unfold redis_unit. rewrite run_call. cbn [doc_exec]. unfold drop_active.
      destruct (typed_active_cases _ H) as [[E _]|(z & x & E & _)]; rewrite E; done. }
    eapply session_other; [exact Hb| |].
    + intros w' e. by rewrite drop_active_lookup by auto with go.
    + rewrite drop_active_zset. apply delete_subseteq.
  - done.
Qed.

(** With the default threshold the detector learns nothing of the task of a
    crashed worker: in every state the fleet can reach, from an empty server,
    a session is gone [lag] milliseconds after its worker becomes stale (its
    time to live, [DefaultTTLSeconds], equals [StaleThreshold]); from then on
    the worker is reported without a task, nothing is released for it, and
    nothing is reset in the tracker. *)
Theorem default_threshold_misses_tasks lag d t ops d' t' w sc :
  view d t = ∅ -> steps (lag_step lag) (d, t) ops (d', t') ->
  zset_at (view d' t') activeWorkersKey !! w = Some sc ->
  sc + StaleThreshold default_config / ms + lag <= t' ->
  let sw := stale_worker_of (view d' t') (w, sc) in
  sw_TaskID sw = "" /\ orphans [sw] = [].
Proof.
  intros H0 Hs Hz Hle.
  assert (typed (view d' t') /\ session_bound lag (view d' t')) as [H Hb].
  { apply (steps_inv (lag_step lag)
      (fun s => typed (view s.1 s.2) /\ session_bound lag (view s.1 s.2)) (d, t) ops (d', t')); [|done|].
    - intros s o s' [H Hb] [Hstep Hn]. destruct Hstep as [d1 t1 o|d1 t1 dt Hdt]; cbn [fst snd] in *.
      + pose proof (run_db_view t1 (op_script o) d1) as [-> _].
        split; [by apply op_typed|by apply session_op].
      + rewrite (view_mono d1 t1 (t1 + dt)) by lia.
        split; [by apply typed_expire_at|by apply session_expire].
    - cbn [fst snd]. rewrite H0. split; [split; intros *; by rewrite lookup_empty|].
      intros w' e sc'. by rewrite lookup_empty. }
  assert (view d' t' !! workerStateKey w = None) as Hgone.
  { destruct (view d' t' !! workerStateKey w) as [e|] eqn:E; [|done].
    destruct (Hb w e sc E Hz) as (x & Ex & Hx). exfalso.
    assert (alive t' e = true) as Ha.
    { apply (all_alive_expire_at t' (view d' t') (workerStateKey w)). by rewrite view_alive. }
    unfold alive in Ha. rewrite Ex in Ha. apply Z.ltb_lt in Ha.
    change (StaleThreshold default_config / ms) with 300000 in Hle. lia. }
  unfold stale_worker_of, hash_at, orphans. cbn [fst snd]. rewrite Hgone. done.
Qed.
End detector.

(** ** Witnesses *)
Section witnesses.
Local Open Scope string_scope.
Local Existing Instance mem_redis.

(** Worker w1 claimed bd-1 and fell silent; its lease ran out and w2 claimed
    the task six minutes later. *)
Definition t0 : Z := 1700000000000000000.
Definition later (wd : world) (t : Z) : world := mkWorld (w_db wd) t 0 [] None.
Definition reclaimed : world :=
  fst (claimTask "w2" "bd-1" "title" "codex" (later claimed (t0 + 6 * minute))).

Definition reclaimed_ks : keyspace :=
  claim_effect 1700000360000 (expire_at 1700000360000 (now_view claimed)) "w2" "bd-1" "title" "codex" 300 1700000360000.
Lemma reclaimed_view : now_view reclaimed = reclaimed_ks.
Proof. vm_compute. reflexivity. Qed.
Lemma typed_reclaimed : typed (now_view reclaimed).
Proof. rewrite reclaimed_view. apply claim_effect_typed, typed_expire_at, typed_claimed. Qed.
Lemma no_leader : now_view reclaimed !! DefaultLeaderKey = None.
Proof. vm_compute. reflexivity. Qed.
Lemma leader_typed_reclaimed : leader_typed (now_view reclaimed) DefaultLeaderKey.
Proof. intros e. rewrite no_leader. discriminate. Qed.
Lemma leader_none : leader (now_view reclaimed) DefaultLeaderKey = None.
Proof. unfold leader. by rewrite no_leader. Qed.
Lemma calm_reclaimed : calm reclaimed.
Proof. split; [vm_compute; reflexivity|]. unfold passing. by replace (w_brk reclaimed) with (@None Breaker.Breaker) by (vm_compute; reflexivity). Qed.
Definition sw1 : StaleWorker := mkStaleWorker "w1" "bd-1" "title" 1700000000000.

Lemma leader_election_witness :
  snd (tryAcquireLeadership default_config "srv" reclaimed) = Ok true.
Proof.
  pose proof (leader_election default_config "srv" reclaimed calm_reclaimed leader_typed_reclaimed eq_refl) as X.
  destruct (tryAcquireLeadership default_config "srv" reclaimed) as [wd' r].
  change (LeaderKey default_config) with DefaultLeaderKey in X. rewrite leader_none in X. exact (proj1 X).
Defined.

Lemma stale_now : stale_workers default_config reclaimed = [mkStaleWorker "w1" "" "" 1700000000000].
Proof. vm_compute. reflexivity. Qed.

Lemma cycle_recovers_witness :
  IsLeader (fst (fst (runCycle logging_bd default_config "srv" true initial_status [] reclaimed))) = true.
Proof.
  pose proof (cycle_recovers logging_bd default_config "srv" initial_status [] reclaimed
    eq_refl eq_refl eq_refl calm_reclaimed typed_reclaimed leader_typed_reclaimed) as X.
  rewrite leader_none in X. cbv zeta in X.
  assert (Forall valid_stale (stale_workers default_config reclaimed)) as Hv.
  { rewrite stale_now. constructor; [by left|constructor]. }
  specialize (X I Hv).
  destruct (runCycle logging_bd default_config "srv" true initial_status [] reclaimed) as [[st' b'] wd'].
  exact (proj1 (proj2 (proj2 (proj2 X)))).
Defined.

Lemma reclaimed_task_is_reset_witness :
  snd (cleanup_all [sw1] reclaimed) = Ok (orphans [sw1]).
Proof.
  assert (lease (now_view reclaimed) "bd-1" = Some ("w2", Some 1700000660000)) as L
    by (rewrite reclaimed_view; vm_compute; reflexivity).
  pose proof (reclaimed_task_is_reset [sw1] [] reclaimed sw1 "w2" (Some 1700000660000)
    calm_reclaimed typed_reclaimed) as X. cbv zeta in X.
  destruct (cleanup_all [sw1] reclaimed) as [wd' r].
  refine (proj1 (X _ _ _ _ L _)); [|by left|discriminate|reflexivity|].
  - constructor; [right; split; reflexivity|constructor].
  - cbn [map sw_WorkerID sw1]. rewrite list_elem_of_singleton. discriminate.
Defined.

Definition led : world := fst (tryAcquireLeadership default_config "other" reclaimed).
Lemma led_view : now_view led =
  <[DefaultLeaderKey := mkEntry (VString "other") (Some 1700000390000)]> reclaimed_ks.
Proof. vm_compute. reflexivity. Qed.
Lemma renewal_extends_any_leader_witness :
  snd (renewLeadership default_config led) = Ok tt.
Proof.
  assert (leader (now_view led) DefaultLeaderKey = Some ("other", Some 1700000390000)) as L
    by (rewrite led_view; unfold leader; by rewrite lookup_insert_eq).
  pose proof (renewal_extends_any_leader default_config led "other" (Some 1700000390000)) as X.
  destruct (renewLeadership default_config led) as [wd' r].
  refine (proj1 (X _ _ eq_refl L)).
  - split; [vm_compute; reflexivity|]. unfold passing.
    by replace (w_brk led) with (@None Breaker.Breaker) by (vm_compute; reflexivity).
  - intros e. change (LeaderKey default_config) with DefaultLeaderKey.
    rewrite led_view, lookup_insert_eq. intros [= <-]. by exists "other".
Defined.

Definition claim1 : op := OClaim "w1" "bd-1" "title" "claude" 1000.
Lemma default_threshold_misses_tasks_witness :
  orphans [stale_worker_of
    (view (fst (run_db 1000 (op_script claim1) (∅ : keyspace))) 301005) ("w1", 1000)] = [].
Proof.
  refine (proj2 (default_threshold_misses_tasks 5 (∅ : keyspace) 1000 [claim1; OTick 300005]
    (fst (run_db 1000 (op_script claim1) (∅ : keyspace))) 301005 "w1" 1000 _ _ _ _));
    [vm_compute; reflexivity| |vm_compute; reflexivity|vm_compute; congruence].
  eapply steps_cons; [split; [apply fleet_op|simpl; lia]|].
  eapply steps_cons; [split; [by apply (fleet_tick _ 1000 300005)|done]|]. apply steps_nil.
Defined.
End witnesses.
End Stale.
