(* ===== verification/FleetStore.v ===== *)
(** * FleetStore: claims of fleet workers, [internal/webui/fleet/store.go],
    [timeout.go], [result.go] and [metrics.go]

    Claims with a time to live in Redis, the cached answers and registrations of
    workers, and the enforcement of task timeouts. The JSON encoding of the
    stored records is used through [JsonCodec]. *)
From S2P Require Import Prelude Redis Net.
Import Net.
Local Open Scope Z_scope.

Module Fleet.

(** ** Keys and constants *)
Local Open Scope string_scope.
Definition keyPrefix : string := "fleet:".
Definition claimedTaskKey (taskID : string) : string := keyPrefix +:+ "tasks:claimed:" +:+ taskID.
Definition workerClaimKey (workerID : string) : string := keyPrefix +:+ "worker:claim:" +:+ workerID.
Definition workerRegistrationKey (workerID : string) : string := keyPrefix +:+ "workers:" +:+ workerID.
Definition taskResultKey (taskID : string) : string := keyPrefix +:+ "task:result:" +:+ taskID.
Definition claimTimesKey : string := keyPrefix +:+ "tasks:claim_times".
Definition ErrWorkerNotFound : goerror := Sentinel "worker not found".
Local Close Scope string_scope.

Definition defaultClaimTTL : Z := 5 * minute.
Definition defaultWorkerClaimTTL : Z := 5 * minute.
Definition defaultWorkerRegistrationTTL : Z := 2 * 60 * minute.
Definition defaultTaskResultTTL : Z := 24 * 60 * minute.

(** ** Data *)
Record ClaimResponse := mkClaimResponse {
  cr_TaskID : string; cr_Success : bool; cr_Payload : string;
}.
Record Worker := mkWorker {
  wk_WorkerID : string; wk_Repos : list string; wk_RegisteredAt : Z;
}.
Record TaskResult := mkTaskResult {
  tr_WorkerID : string; tr_TaskID : string; tr_Success : bool;
  tr_CommitSHA : string; tr_Error : string; tr_CompletedAt : Z;
}.
Record TimedOutTask := mkTimedOut { to_TaskID : string; to_WorkerID : string; to_ClaimedAt : Z }.
Record TimeoutConfig := mkTimeoutConfig { TaskTimeout : Z; TimeoutCheckInterval : Z }.

Definition DefaultTimeoutConfig : TimeoutConfig := mkTimeoutConfig (30 * minute) (1 * minute).

(** ** Claims *)
Definition fleet_bad_chars : string :=
  String ":" (String "010" (String "013" (String "009" (String " " "")))).

Definition validateID (id nm : string) : option goerror :=
  if bool_decide (id = "") then Some (Msg (nm +:+ " must not be empty"))
  else if contains_any id fleet_bad_chars
  then Some (Msg (nm +:+ " contains invalid characters: " +:+ quote id))
  else None.

(** The two values [claimLua] returns. *)
Definition claimLua (k worker : string) (ttl : Z) : lua (Z * string) :=
  LCall (GET k) (fun existing =>
    match existing with
    | RBulk o =>
        if bool_decide (o = worker)
        then LCall (EXPIRE k (ttl * 1000)) (fun _ => LRet (1, ""%string))
        else LRet (0, o)
    | _ => LCall (SET k worker (Some (ttl * 1000))) (fun _ => LRet (1, ""%string))
    end).

Definition one (c : cmd) : lua reply := LCall c LRet.

Section store.
Context {redis : RedisServer}.

(** Seconds of [time.Now().Unix()]. *)
Definition RecordClaimTime (taskID : string) : IO unit :=
  now ← io_now;
  round_trip (one (ZADD claimTimesKey (now / second) taskID));;
  mret tt.

Definition ClearClaimTime (taskID : string) : IO unit :=
  round_trip (one (ZREM claimTimesKey taskID));; mret tt.

Definition TryClaim (taskID workerID : string) : IO bool :=
  io_check (validateID taskID "taskID");;
  io_check (validateID workerID "workerID");;
  '(status, _) ← wrap_err "claim script failed: "
    (round_trip (claimLua (claimedTaskKey taskID) workerID (defaultClaimTTL / second)));
  if bool_decide (status = 1)
  then io_try (RecordClaimTime taskID);; mret true
  else mret false.

(** [time.Duration(timeoutMin) * time.Minute] wraps around. *)
Definition ExtendClaimTTL (taskID : string) (timeoutMin : Z) : IO unit :=
  io_check (validateID taskID "taskID");;
  ok ← wrap_err "extend claim TTL failed: "
    (round_trip (one (EXPIRE (claimedTaskKey taskID) (expire_ttl_ms (mul64 timeoutMin minute)))));
  match ok with
  | RInt 0 => io_fail (Msg ("task claim key not found: " +:+ taskID))
  | _ => mret tt
  end.

Definition ReleaseClaim (taskID : string) : IO unit :=
  io_check (validateID taskID "taskID");;
  wrap_err "release claim failed: " (round_trip (one (DEL (claimedTaskKey taskID))));;
  io_try (ClearClaimTime taskID);;
  mret tt.

(** ** Records stored as JSON *)
Definition set_json {A} `{JsonCodec A} (pre key : string) (a : A) (ttl : Z) : IO unit :=
  wrap_err pre (round_trip (one (SET key (marshal a) (Some (set_ttl_ms ttl)))));; mret tt.

(** [redis.Nil] is no error: no record. *)
Definition get_json {A} `{JsonCodec A} (pre upre key : string) : IO (option A) :=
  r ← wrap_err pre (round_trip (one (GET key)));
  match r with
  | RBulk data =>
      match unmarshal data with
      | Some a => mret (Some a)
      | None => io_fail (Wrapf upre (Msg "json") "")
      end
  | _ => mret None
  end.

Definition RecordWorkerClaim `{JsonCodec ClaimResponse} (workerID : string) (claim : ClaimResponse) : IO unit :=
  io_check (validateID workerID "workerID");;
  set_json "record worker claim failed: " (workerClaimKey workerID) claim defaultWorkerClaimTTL.

Definition GetWorkerClaim `{JsonCodec ClaimResponse} (workerID : string) : IO (option ClaimResponse) :=
  io_check (validateID workerID "workerID");;
  get_json "get worker claim failed: " "unmarshal claim response: " (workerClaimKey workerID).

Definition ClearWorkerClaim (workerID : string) : IO unit :=
  io_check (validateID workerID "workerID");;
  wrap_err "clear worker claim failed: " (round_trip (one (DEL (workerClaimKey workerID))));; mret tt.

Definition RegisterWorker `{JsonCodec Worker} (worker : Worker) : IO unit :=
  io_check (validateID (wk_WorkerID worker) "workerID");;
  set_json "register worker failed: " (workerRegistrationKey (wk_WorkerID worker)) worker
    defaultWorkerRegistrationTTL.

Definition GetWorker `{JsonCodec Worker} (workerID : string) : IO (option Worker) :=
  io_check (validateID workerID "workerID");;
  get_json "get worker failed: " "unmarshal worker: " (workerRegistrationKey workerID).

Definition UpdateHeartbeat (workerID : string) : IO Z :=
  io_check (validateID workerID "workerID");;
  ok ← wrap_err "update heartbeat failed: "
    (round_trip (one (EXPIRE (workerRegistrationKey workerID)
                        (expire_ttl_ms defaultWorkerRegistrationTTL))));
  match ok with
  | RInt 0 => io_fail ErrWorkerNotFound
  | _ => io_now
  end.

Definition RecordTaskResult `{JsonCodec TaskResult} (result : TaskResult) : IO unit :=
  io_check (validateID (tr_TaskID result) "taskID");;
  io_check (validateID (tr_WorkerID result) "workerID");;
  set_json "record task result failed: " (taskResultKey (tr_TaskID result)) result defaultTaskResultTTL.

Definition GetTaskResult `{JsonCodec TaskResult} (taskID : string) : IO (option TaskResult) :=
  io_check (validateID taskID "taskID");;
  get_json "get task result failed: " "unmarshal task result: " (taskResultKey taskID).

(** ** Timeouts *)
Fixpoint lookup_owners (results : list (string * Z)) : IO (list TimedOutTask) :=
  match results with
  | [] => mret []
  | (taskID, score) :: rest =>
      r ← io_try (round_trip (one (GET (claimedTaskKey taskID))));
      match r with
      | Ok (RBulk workerID) =>
          tasks ← lookup_owners rest;
          mret (mkTimedOut taskID workerID (score * second) :: tasks)
      | Ok _ =>
          io_try (round_trip (one (ZREM claimTimesKey taskID)));;
          lookup_owners rest
      | Err _ => lookup_owners rest
      end
  end.

Definition FindTimedOutTasks (timeout : Z) : IO (list TimedOutTask) :=
  now ← io_now;
  r ← wrap_err "query timed out tasks: "
    (round_trip (one (ZRANGEBYSCORE claimTimesKey ((now - timeout) / second))));
  match r with
  | RScored results => lookup_owners results
  | _ => mret []
  end.

(** [onTimeout] is the callback; its outcome is only logged. The counter counts
    the claims released. *)
Definition handleTimeout (onTimeout : option (string -> string -> Z -> IO unit))
    (task : TimedOutTask) (count : Z) : IO Z :=
  now ← io_now;
  (match onTimeout with
   | Some f => io_try (f (to_WorkerID task) (to_TaskID task) (time_sub now (to_ClaimedAt task)));; mret tt
   | None => mret tt
   end);;
  r ← io_try (ReleaseClaim (to_TaskID task));
  mret (match r with Ok _ => add64 count 1 | Err _ => count end).

Fixpoint handle_all (onTimeout : option (string -> string -> Z -> IO unit))
    (tasks : list TimedOutTask) (count : Z) : IO Z :=
  match tasks with
  | [] => mret count
  | task :: rest =>
      count' ← handleTimeout onTimeout task count;
      handle_all onTimeout rest count'
  end.

Definition checkTimeouts (cfg : TimeoutConfig)
    (onTimeout : option (string -> string -> Z -> IO unit)) (count : Z) : IO Z :=
  tasks ← FindTimedOutTasks (TaskTimeout cfg);
  handle_all onTimeout tasks count.
End store.

(** ** Metrics *)
Definition ClaimResultSuccess : string := "success".
Definition ClaimResultCollision : string := "collision".
Definition ClaimResultTimeout : string := "timeout".

Record ClaimMetricsSnapshot := mkClaimSnapshot {
  cm_Success : Z; cm_Collision : Z; cm_Timeout : Z; cm_Total : Z;
}.

Definition claim_count (m : gmap string Z) (r : string) : Z := default 0 (m !! r).
Definition RecordClaim (result : string) (m : gmap string Z) : gmap string Z :=
  <[result := inc64 (claim_count m result)]> m.
Definition Snapshot (m : gmap string Z) : ClaimMetricsSnapshot :=
  let s := claim_count m ClaimResultSuccess in
  let c := claim_count m ClaimResultCollision in
  let t := claim_count m ClaimResultTimeout in
  mkClaimSnapshot s c t (add64 (add64 s c) t).

(** ** The claim on a task and its recorded time *)
Record fl_typed (ks : keyspace) : Prop := {
  ft_claim : forall t e, ks !! claimedTaskKey t = Some e -> exists o, ent_val e = VString o;
  ft_times : forall e, ks !! claimTimesKey = Some e -> exists z, ent_val e = VZSet z;
}.

Definition owner (ks : keyspace) (t : string) : option (string * option Z) :=
  match ks !! claimedTaskKey t with
  | Some (mkEntry (VString o) x) => Some (o, x)
  | _ => None
  end.
Definition times (ks : keyspace) : gmap string Z :=
  match ent_val <$> ks !! claimTimesKey with Some (VZSet z) => z | _ => ∅ end.

Lemma claimed_times_key t : claimedTaskKey t <> claimTimesKey.
Proof. intros E. discriminate E. Qed.
Lemma times_claimed_key t : claimTimesKey <> claimedTaskKey t.
Proof. intros E. discriminate E. Qed.
Lemma claimed_inj t t' : claimedTaskKey t = claimedTaskKey t' -> t = t'.
Proof.
  unfold claimedTaskKey. intros E. apply (append_inv_len keyPrefix keyPrefix) in E as [_ E]; [|done].
  by apply (append_inv_len "tasks:claimed:" "tasks:claimed:") in E as [_ E].
Qed.
#[export] Hint Resolve claimed_times_key times_claimed_key : go.

Lemma owner_cases ks t :
  fl_typed ks ->
  (ks !! claimedTaskKey t = None /\ owner ks t = None) \/
  (exists o x, ks !! claimedTaskKey t = Some (mkEntry (VString o) x) /\ owner ks t = Some (o, x)).
Proof.
  intros H. unfold owner. destruct (ks !! claimedTaskKey t) as [[v x]|] eqn:E; [right|by left].
  destruct (ft_claim _ H _ _ E) as [o Ho]. simpl in Ho. subst. eauto.
Qed.

Lemma times_cases ks :
  fl_typed ks ->
  (ks !! claimTimesKey = None /\ times ks = ∅) \/
  (exists z x, ks !! claimTimesKey = Some (mkEntry (VZSet z) x) /\ times ks = z).
Proof.
  intros H. unfold times. destruct (ks !! claimTimesKey) as [[v x]|] eqn:E; [right|by left].
  destruct (ft_times _ H _ E) as [o Ho]. simpl in Ho. subst. eauto.
Qed.

Definition put_claim (ks : keyspace) (t w : string) (x : Z) : keyspace :=
  <[claimedTaskKey t := mkEntry (VString w) (Some x)]> ks.
Definition put_time (ks : keyspace) (t : string) (sc : Z) : keyspace :=
  <[claimTimesKey := mkEntry (VZSet (<[t := sc]> (times ks))) (keep_ttl (ks !! claimTimesKey))]> ks.
Definition drop_time (ks : keyspace) (t : string) : keyspace :=
  match ks !! claimTimesKey with
  | Some (mkEntry (VZSet z) x) =>
      if bool_decide (delete t z = ∅) then delete claimTimesKey ks
      else <[claimTimesKey := mkEntry (VZSet (delete t z)) x]> ks
  | _ => ks
  end.

Lemma put_claim_typed ks t w x : fl_typed ks -> fl_typed (put_claim ks t w x).
Proof.
  intros [H1 H2]. split.
  - intros t' e. unfold put_claim. destruct (decide (claimedTaskKey t = claimedTaskKey t')) as [->|Hn].
    + rewrite lookup_insert_eq. intros [= <-]. eauto.
    + rewrite lookup_insert_ne by done. apply H1.
  - intros e. unfold put_claim. rewrite lookup_insert_ne by auto with go. apply H2.
Qed.

Lemma put_time_typed ks t sc : fl_typed ks -> fl_typed (put_time ks t sc).
Proof.
  intros [H1 H2]. split.
  - intros t' e. unfold put_time. rewrite lookup_insert_ne by auto with go. apply H1.
  - intros e. unfold put_time. rewrite lookup_insert_eq. intros [= <-]. eauto.
Qed.

Lemma fl_typed_submap ks ks' : fl_typed ks -> ks' ⊆ ks -> fl_typed ks'.
Proof.
  intros [H1 H2] Hs. split; [intros t e He; eapply H1|intros e He; eapply H2]; by eapply lookup_weaken.
Qed.

Lemma fl_typed_delete ks k : fl_typed ks -> fl_typed (delete k ks).
Proof. intros H. eapply fl_typed_submap; [exact H|apply delete_subseteq]. Qed.
Lemma fl_typed_expire t ks : fl_typed ks -> fl_typed (expire_at t ks).
Proof. intros H. eapply fl_typed_submap; [exact H|apply map_filter_subseteq]. Qed.

Lemma drop_time_typed ks t : fl_typed ks -> fl_typed (drop_time ks t).
Proof.
  intros Hty. unfold drop_time. repeat case_match; auto using fl_typed_delete.
  split; [intros t' e'; rewrite lookup_insert_ne by auto with go; apply Hty|].
  intros e'. rewrite lookup_insert_eq. intros [= <-]. eauto.
Qed.
#[export] Hint Resolve put_claim_typed put_time_typed drop_time_typed fl_typed_delete fl_typed_expire : go.

Lemma owner_ext ks ks' t : ks' !! claimedTaskKey t = ks !! claimedTaskKey t -> owner ks' t = owner ks t.
Proof. intros E. unfold owner. by rewrite E. Qed.

Lemma owner_put_claim ks t w x t' :
  owner (put_claim ks t w x) t' = if decide (t = t') then Some (w, Some x) else owner ks t'.
Proof.
  case_decide as E; [subst; unfold owner, put_claim; by rewrite lookup_insert_eq|].
  apply owner_ext. unfold put_claim. rewrite lookup_insert_ne; [done|]. intros K. by apply claimed_inj in K.
Qed.

Lemma owner_put_time ks t sc t' : owner (put_time ks t sc) t' = owner ks t'.
Proof. apply owner_ext. unfold put_time. by rewrite lookup_insert_ne by auto with go. Qed.

Lemma drop_time_lookup ks t k : k <> claimTimesKey -> drop_time ks t !! k = ks !! k.
Proof.
  intros Hk. unfold drop_time. repeat case_match; try done;
    [by rewrite lookup_delete_ne|by rewrite lookup_insert_ne].
Qed.

Lemma owner_drop_time ks t t' : owner (drop_time ks t) t' = owner ks t'.
Proof. apply owner_ext. rewrite drop_time_lookup by auto with go. done. Qed.

Lemma times_put_time ks t sc : times (put_time ks t sc) = <[t := sc]> (times ks).
Proof. unfold put_time, times at 1. by rewrite lookup_insert_eq. Qed.

Lemma times_put_claim ks t w x : times (put_claim ks t w x) = times ks.
Proof. unfold put_claim, times. by rewrite lookup_insert_ne by auto with go. Qed.

Lemma times_drop_time ks t : times (drop_time ks t) = delete t (times ks).
Proof.
  unfold drop_time, times. destruct (ks !! claimTimesKey) as [[[s|h|z] x]|] eqn:E;
    rewrite ?E; cbn [fmap option_fmap option_map ent_val]; rewrite ?delete_empty; try done.
  case_bool_decide as Hb; [by rewrite lookup_delete_eq|by rewrite lookup_insert_eq].
Qed.

Lemma owner_delete ks t t' :
  owner (delete (claimedTaskKey t) ks) t' = if decide (t = t') then None else owner ks t'.
Proof.
  case_decide as E; [subst; unfold owner; by rewrite lookup_delete_eq|].
  apply owner_ext. rewrite lookup_delete_ne; [done|]. intros K. by apply claimed_inj in K.
Qed.

Lemma times_delete ks t : times (delete (claimedTaskKey t) ks) = times ks.
Proof. unfold times. by rewrite lookup_delete_ne by auto with go. Qed.

(** ** Scripts and commands on the view *)
Lemma claimLua_run t ks task w :
  fl_typed ks ->
  run_ks t (claimLua (claimedTaskKey task) w 300) ks =
    match owner ks task with
    | Some (o, _) => if bool_decide (o = w) then (put_claim ks task w (t + 300000), Ok (1, ""%string))
                     else (ks, Ok (0, o))
    | None => (put_claim ks task w (t + 300000), Ok (1, ""%string))
    end.
Proof.
  intros H. unfold claimLua. cbn [run_ks doc_exec].
  destruct (owner_cases ks task H) as [[E L]|(o & x & E & L)]; rewrite E, L; [done|].
  cbn [fmap option_fmap option_map ent_val]. case_bool_decide; [|done]. subst.
  cbn [run_ks doc_exec]. by rewrite E.
Qed.

Lemma zadd_run t ks task sc :
  fl_typed ks -> exists r, run_ks t (one (ZADD claimTimesKey sc task)) ks = (put_time ks task sc, Ok r).
Proof.
  intros H. unfold one, put_time. cbn [run_ks doc_exec]. unfold times.
  destruct (times_cases ks H) as [[E _]|(z & x & E & _)]; rewrite E; cbn [fmap option_fmap option_map ent_val];
    [rewrite insert_empty|]; eauto.
Qed.

Lemma zrem_run t ks task :
  fl_typed ks -> exists r, run_ks t (one (ZREM claimTimesKey task)) ks = (drop_time ks task, Ok r).
Proof.
  intros H. unfold one, drop_time. cbn [run_ks doc_exec].
  destruct (times_cases ks H) as [[E _]|(z & x & E & _)]; rewrite E; cbn [fmap option_fmap option_map ent_val];
    eauto.
Qed.

Lemma del_run t ks k : exists r, run_ks t (one (DEL k)) ks = (delete k ks, Ok r).
Proof.
  unfold one. cbn [run_ks doc_exec]. destruct (ks !! k) eqn:E; [eauto|]. rewrite delete_id by done. eauto.
Qed.

(** ** The operations on a quiet network *)
Section quiet.
Context {redis : RedisServer}.

Definition claim_time (wd : world) : Z := (w_now wd + w_skew wd) / second.

Lemma record_time_quiet task wd :
  w_net wd = [] -> fl_typed (now_view wd) ->
  exists wd', RecordClaimTime task wd = (wd', Ok tt) /\
    quiet_to wd (put_time (now_view wd) task (claim_time wd)) wd'.
Proof.
  intros Hq H. destruct (zadd_run (srv_ms wd) _ task (claim_time wd) H) as [r R].
  destruct (round_trip_ok _ wd _ _ Hq R) as (wd' & E & Hc). exists wd'. split; [|done].
  unfold RecordClaimTime, mbind, IO_bind, io_now. fold (claim_time wd). by rewrite E.
Qed.

Lemma clear_time_quiet task wd :
  w_net wd = [] -> fl_typed (now_view wd) ->
  exists wd', ClearClaimTime task wd = (wd', Ok tt) /\ quiet_to wd (drop_time (now_view wd) task) wd'.
Proof.
  intros Hq H. destruct (zrem_run (srv_ms wd) _ task H) as [r R].
  destruct (round_trip_ok _ wd _ _ Hq R) as (wd' & E & Hc). exists wd'. split; [|done].
  unfold ClearClaimTime, mbind, IO_bind. by rewrite E.
Qed.

Definition claimed_view (wd : world) (task w : string) : keyspace :=
  put_time (put_claim (now_view wd) task w (srv_ms wd + 300000)) task (claim_time wd).

Lemma TryClaim_quiet task w wd :
  validateID task "taskID" = None -> validateID w "workerID" = None ->
  w_net wd = [] -> fl_typed (now_view wd) ->
  let granted := match owner (now_view wd) task with
                 | Some (o, _) => bool_decide (o = w) | None => true end in
  exists wd', TryClaim task w wd = (wd', Ok granted) /\
    quiet_to wd (if granted then claimed_view wd task w else now_view wd) wd'.
Proof.
  intros Ht Hw Hq H granted. unfold TryClaim. rewrite !io_check_none by done.
  pose proof (claimLua_run (srv_ms wd) (now_view wd) task w H) as R.
  change (defaultClaimTTL / second) with 300.
  assert (run_ks (srv_ms wd) (claimLua (claimedTaskKey task) w 300) (now_view wd) =
    (if granted then put_claim (now_view wd) task w (srv_ms wd + 300000) else now_view wd,
     Ok (if granted then (1, ""%string) else (0, match owner (now_view wd) task with
                                                | Some (o, _) => o | None => "" end)))) as R'.
  { rewrite R. subst granted. destruct (owner (now_view wd) task) as [[o x]|]; [case_bool_decide|]; done. }
  destruct (round_trip_ok _ wd _ _ Hq R') as (wd1 & E1 & Hc1).
  rewrite (io_bind_ok _ _ _ _ _ (wrap_err_ok _ _ _ _ _ E1)).
  destruct granted; [|eexists; split; [done|exact Hc1]].
  rewrite bool_decide_true by done.
  destruct (record_time_quiet task wd1 (qt_net _ _ _ Hc1)) as (wd2 & E2 & Hc2).
  { rewrite (qt_view _ _ _ Hc1). auto with go. }
  rewrite (io_bind_ok _ _ _ _ _ (io_try_ok _ _ _ _ E2)). exists wd2. split; [done|].
  rewrite (qt_view _ _ _ Hc1) in Hc2. unfold claim_time in Hc2.
  rewrite (qt_now _ _ _ Hc1), (qt_skew _ _ _ Hc1) in Hc2. by eapply quiet_trans.
Qed.

Lemma ReleaseClaim_quiet task wd :
  validateID task "taskID" = None -> w_net wd = [] -> fl_typed (now_view wd) ->
  exists wd', ReleaseClaim task wd = (wd', Ok tt) /\
    quiet_to wd (drop_time (delete (claimedTaskKey task) (now_view wd)) task) wd'.
Proof.
  intros Ht Hq H. unfold ReleaseClaim. rewrite io_check_none by done.
  destruct (del_run (srv_ms wd) (now_view wd) (claimedTaskKey task)) as [r R].
  destruct (round_trip_ok _ wd _ _ Hq R) as (wd1 & E1 & Hc1).
  rewrite (io_bind_ok _ _ _ _ _ (wrap_err_ok _ _ _ _ _ E1)).
  destruct (clear_time_quiet task wd1 (qt_net _ _ _ Hc1)) as (wd2 & E2 & Hc2).
  { rewrite (qt_view _ _ _ Hc1). auto with go. }
  rewrite (io_bind_ok _ _ _ _ _ (io_try_ok _ _ _ _ E2)). exists wd2. split; [done|].
  rewrite (qt_view _ _ _ Hc1) in Hc2. by eapply quiet_trans.
Qed.

(** Claims of fleet workers. A claim is granted exactly when no other
    worker holds the task; it then holds for [defaultClaimTTL] from the server's
    time with its time recorded, a repeated claim renews both, a refused one
    changes nothing; and after a release any worker's claim is granted. *)
Theorem TryClaim_functional task w w' wd :
  validateID task "taskID" = None -> validateID w "workerID" = None ->
  validateID w' "workerID" = None -> w_net wd = [] -> fl_typed (now_view wd) ->
  let '(wd1, r) := TryClaim task w wd in
  let '(wd2, r2) := ReleaseClaim task wd1 in
  let '(wd3, r3) := TryClaim task w' wd2 in
  (if match owner (now_view wd) task with Some (o, _) => bool_decide (o = w) | None => true end
   then r = Ok true /\ owner (now_view wd1) task = Some (w, Some (srv_ms wd + 300000)) /\
        times (now_view wd1) !! task = Some (claim_time wd)
   else r = Ok false /\ now_view wd1 = now_view wd) /\
  (forall t, t <> task -> owner (now_view wd1) t = owner (now_view wd) t) /\
  r2 = Ok tt /\ owner (now_view wd2) task = None /\ times (now_view wd2) !! task = None /\
  r3 = Ok true.
Proof.
  intros Ht Hw Hw' Hq H.
  destruct (TryClaim_quiet task w wd Ht Hw Hq H) as (wd1 & -> & Hc1).
  set (granted := match owner _ _ with Some _ => _ | None => _ end) in *.
  assert (fl_typed (now_view wd1)) as H1.
  { rewrite (qt_view _ _ _ Hc1). unfold claimed_view. destruct granted; auto with go. }
  destruct (ReleaseClaim_quiet task wd1 Ht (qt_net _ _ _ Hc1) H1) as (wd2 & -> & Hc2).
  assert (fl_typed (now_view wd2)) as H2 by (rewrite (qt_view _ _ _ Hc2); auto with go).
  destruct (TryClaim_quiet task w' wd2 Ht Hw' (qt_net _ _ _ Hc2) H2) as (wd3 & E3 & Hc3).
  assert (owner (now_view wd2) task = None) as Ho2.
  { rewrite (qt_view _ _ _ Hc2), owner_drop_time, owner_delete, decide_True by done. done. }
  rewrite Ho2 in E3. rewrite E3. split_and!; [| |done|done| |done].
  - rewrite (qt_view _ _ _ Hc1). destruct granted; [|done]. unfold claimed_view.
    rewrite owner_put_time, owner_put_claim, decide_True, times_put_time, lookup_insert_eq by done. done.
  - intros t Hn. rewrite (qt_view _ _ _ Hc1). destruct granted; [|done]. unfold claimed_view.
    rewrite owner_put_time, owner_put_claim, decide_False by done. done.
  - rewrite (qt_view _ _ _ Hc2), times_drop_time, lookup_delete_eq. done.
Qed.

(** [ExtendClaimTTL]: a claim is extended to [timeoutMin] minutes from now;
    for a [timeoutMin] of zero or less it reports success and the claim is
    gone; without a claim it fails and changes nothing. *)
Theorem ExtendClaimTTL_functional task m wd :
  validateID task "taskID" = None -> w_net wd = [] -> fl_typed (now_view wd) ->
  - 100000000 <= m <= 100000000 ->
  let '(wd', r) := ExtendClaimTTL task m wd in
  match owner (now_view wd) task with
  | None => r = Err (Msg ("task claim key not found: " +:+ task)) /\ now_view wd' = now_view wd
  | Some (o, _) => r = Ok tt /\
      owner (now_view wd') task =
        if m <=? 0 then None else Some (o, Some (srv_ms wd + m * 60000))
  end.
Proof.
  intros Ht Hq H Hm. unfold ExtendClaimTTL. rewrite io_check_none by done.
  assert (expire_ttl_ms (mul64 m minute) = m * 60000) as ->.
  { unfold expire_ttl_ms, mul64. rewrite wrap64_id by (unfold minute, second; int64_lia).
    unfold minute, second. replace (m * (60 * 1000000000)) with (m * 60 * 1000000000) by lia.
    rewrite Z.quot_mul by lia. destruct (Z.ltb_spec 0 (m * 60 * 1000000000)); [|simpl; lia].
    destruct (Z.ltb_spec (m * 60 * 1000000000) 1000000000); simpl; lia. }
  set (p := one (EXPIRE (claimedTaskKey task) (m * 60000))).
  destruct (owner_cases _ task H) as [[E L]|(o & x & E & L)]; rewrite L.
  - assert (run_ks (srv_ms wd) p (now_view wd) = (now_view wd, Ok (RInt 0))) as R.
    { unfold p, one. cbn [run_ks doc_exec]. by rewrite E. }
    destruct (round_trip_ok _ wd _ _ Hq R) as (wd1 & E1 & Hc1).
    rewrite (io_bind_ok _ _ _ _ _ (wrap_err_ok _ _ _ _ _ E1)). split; [done|apply Hc1].
  - assert (run_ks (srv_ms wd) p (now_view wd) =
      (if m <=? 0 then delete (claimedTaskKey task) (now_view wd)
       else put_claim (now_view wd) task o (srv_ms wd + m * 60000), Ok (RInt 1))) as R.
    { unfold p, one. cbn [run_ks doc_exec]. rewrite E. cbn [ent_val].
      destruct (Z.leb_spec (m * 60000) 0), (Z.leb_spec m 0); try lia; done. }
    destruct (round_trip_ok _ wd _ _ Hq R) as (wd1 & E1 & Hc1).
    rewrite (io_bind_ok _ _ _ _ _ (wrap_err_ok _ _ _ _ _ E1)). split; [done|].
    rewrite (qt_view _ _ _ Hc1). destruct (m <=? 0);
      [by rewrite owner_delete, decide_True|by rewrite owner_put_claim, decide_True].
Qed.

(** ** The scan for timed-out tasks *)
Definition scan_drop (ks : keyspace) (l : list (string * Z)) : keyspace :=
  foldl (fun ks ts => match owner ks ts.1 with None => drop_time ks ts.1 | Some _ => ks end) ks l.
Definition timed_out (ks : keyspace) (ts : string * Z) : option TimedOutTask :=
  match owner ks ts.1 with
  | Some (o, _) => Some (mkTimedOut ts.1 o (ts.2 * second))
  | None => None
  end.

Lemma scan_drop_typed l ks : fl_typed ks -> fl_typed (scan_drop ks l).
Proof.
  revert ks; induction l as [|ts l IH]; intros ks H; [done|]. cbn [scan_drop foldl]. apply IH.
  case_match; auto with go.
Qed.

Lemma lookup_owners_quiet l wd :
  w_net wd = [] -> fl_typed (now_view wd) ->
  exists wd', lookup_owners l wd = (wd', Ok (omap (timed_out (now_view wd)) l)) /\
    quiet_to wd (scan_drop (now_view wd) l) wd'.
Proof.
  revert wd; induction l as [|[t sc] l IH]; intros wd Hq H.
  { eexists. split; [done|by apply quiet_refl]. }
  cbn [lookup_owners].
  assert (run_ks (srv_ms wd) (one (GET (claimedTaskKey t))) (now_view wd) =
    (now_view wd, Ok (match owner (now_view wd) t with Some (o, _) => RBulk o | None => RNil end))) as R.
  { unfold one. cbn [run_ks doc_exec].
    destruct (owner_cases _ t H) as [[E L]|(o & x & E & L)]; by rewrite E, L. }
  destruct (round_trip_ok _ wd _ _ Hq R) as (wd1 & E1 & Hc1).
  rewrite (io_bind_ok _ _ _ _ _ (io_try_ok _ _ _ _ E1)).
  assert (fl_typed (now_view wd1)) as H1 by (by rewrite (qt_view _ _ _ Hc1)).
  cbn [omap list_omap scan_drop foldl fst]. unfold timed_out at 1. cbn [fst snd].
  destruct (owner (now_view wd) t) as [[o x]|] eqn:L.
  - destruct (IH wd1 (qt_net _ _ _ Hc1) H1) as (wd2 & E2 & Hc2).
    rewrite (io_bind_ok _ _ _ _ _ E2). rewrite (qt_view _ _ _ Hc1) in *.
    exists wd2. split; [done|by eapply quiet_trans].
  - destruct (zrem_run (srv_ms wd1) _ t H1) as [r R2].
    destruct (round_trip_ok _ wd1 _ _ (qt_net _ _ _ Hc1) R2) as (wd2 & E2 & Hc2).
    rewrite (io_bind_ok _ _ _ _ _ (io_try_ok _ _ _ _ E2)). rewrite (qt_view _ _ _ Hc1) in Hc2.
    destruct (IH wd2 (qt_net _ _ _ Hc2)) as (wd3 & E3 & Hc3);
      [rewrite (qt_view _ _ _ Hc2); auto with go; rewrite <- (qt_view _ _ _ Hc1); auto with go|].
    rewrite (qt_view _ _ _ Hc2) in *. rewrite E3. exists wd3. split.
    + do 2 f_equal. apply list_omap_ext. apply Forall2_same_length_lookup. split; [done|].
      intros i a b Ha Hb. simplify_eq. unfold timed_out. by rewrite owner_drop_time.
    + exact (quiet_trans _ _ _ _ _ Hc1 (quiet_trans _ _ _ _ _ Hc2 Hc3)).
Qed.

Definition overdue (ks : keyspace) (cutoff : Z) : list (string * Z) :=
  InsertionSort.isort scored_less
    (filter (fun ms => bool_decide (ms.2 <= cutoff) = true) (map_to_list (times ks))).
Definition claim_cutoff (timeout : Z) (wd : world) : Z := (w_now wd + w_skew wd - timeout) / second.

Lemma overdue_elem ks c t sc : (t, sc) ∈ overdue ks c <-> times ks !! t = Some sc /\ sc <= c.
Proof.
  unfold overdue. rewrite InsertionSort.isort_perm, list_elem_of_filter, elem_of_map_to_list.
  rewrite bool_decide_eq_true. tauto.
Qed.

(** The scan reports the overdue tasks that are still claimed, and forgets the
    recorded time of the others. *)
Lemma FindTimedOutTasks_quiet timeout wd :
  w_net wd = [] -> fl_typed (now_view wd) ->
  let l := overdue (now_view wd) (claim_cutoff timeout wd) in
  exists wd', FindTimedOutTasks timeout wd = (wd', Ok (omap (timed_out (now_view wd)) l)) /\
    quiet_to wd (scan_drop (now_view wd) l) wd'.
Proof.
  intros Hq H l.
  change (FindTimedOutTasks timeout wd) with
    ((r ← wrap_err "query timed out tasks: "
        (round_trip (one (ZRANGEBYSCORE claimTimesKey (claim_cutoff timeout wd))));
      match r with RScored results => lookup_owners results | _ => mret [] end) wd).
  assert (run_ks (srv_ms wd) (one (ZRANGEBYSCORE claimTimesKey (claim_cutoff timeout wd))) (now_view wd) =
    (now_view wd, Ok (RScored l))) as R.
  { unfold one. cbn [run_ks doc_exec]. subst l. unfold overdue, times.
    destruct (times_cases _ H) as [[E _]|(z & x & E & _)]; by rewrite E. }
  destruct (round_trip_ok _ wd _ _ Hq R) as (wd1 & E1 & Hc1).
  rewrite (io_bind_ok _ _ _ _ _ (wrap_err_ok _ _ _ _ _ E1)).
  destruct (lookup_owners_quiet l wd1 (qt_net _ _ _ Hc1)) as (wd2 & E2 & Hc2);
    [by rewrite (qt_view _ _ _ Hc1)|]. rewrite (qt_view _ _ _ Hc1) in *.
  exists wd2. split; [done|by eapply quiet_trans].
Qed.

(** ** What the program does with claims: every caller of the store *)
Inductive fop :=
| FClaim (task w : string)
| FRelease (task : string)
| FScan (timeout : Z)
| FWait (dt : Z).

Definition fl_apply (wd : world) (o : fop) : world :=
  match o with
  | FClaim task w => fst (TryClaim task w wd)
  | FRelease task => fst (ReleaseClaim task wd)
  | FScan timeout => fst (FindTimedOutTasks timeout wd)
  | FWait dt => wait (Z.max 0 dt) wd
  end.

(** A claim expires at most 301 seconds after its recorded time. *)
Definition claim_bound (ks : keyspace) : Prop :=
  forall t e, ks !! claimedTaskKey t = Some e ->
    exists x sc, ent_expire e = Some x /\ times ks !! t = Some sc /\ x <= sc * 1000 + 301000.

Lemma claim_bound_drop ks t :
  claim_bound ks -> ks !! claimedTaskKey t = None -> claim_bound (drop_time ks t).
Proof.
  intros Hb Hn t' e. rewrite drop_time_lookup by auto with go. intros E.
  destruct (Hb t' e E) as (x & sc & ? & ? & ?). exists x, sc. split_and!; [done| |done].
  rewrite times_drop_time. rewrite lookup_delete_ne; [done|]. congruence.
Qed.

Lemma claim_bound_scan l ks : fl_typed ks -> claim_bound ks -> claim_bound (scan_drop ks l).
Proof.
  revert ks; induction l as [|[t sc] l IH]; intros ks H Hb; [done|]. cbn [scan_drop foldl fst].
  destruct (owner_cases ks t H) as [[E L]|(o & x & E & L)]; rewrite L; apply IH; auto with go.
  by apply claim_bound_drop.
Qed.

Lemma claim_bound_claimed wd task w :
  w_skew wd = 0 -> claim_bound (now_view wd) -> claim_bound (claimed_view wd task w).
Proof.
  intros Hs Hb t e. unfold claimed_view, put_time. rewrite lookup_insert_ne by auto with go.
  fold (put_time (put_claim (now_view wd) task w (srv_ms wd + 300000)) task (claim_time wd)).
  rewrite times_put_time, times_put_claim. unfold put_claim.
  destruct (decide (task = t)) as [->|Hn].
  - rewrite !lookup_insert_eq. intros [= <-]. do 2 eexists. split_and!; [done..|].
    unfold claim_time, srv_ms, second, ms. rewrite Hs, Z.add_0_r.
    pose proof (Z.div_mod (w_now wd) 1000000 ltac:(lia)). pose proof (Z.mod_pos_bound (w_now wd) 1000000 ltac:(lia)).
    pose proof (Z.div_mod (w_now wd) 1000000000 ltac:(lia)).
    pose proof (Z.mod_pos_bound (w_now wd) 1000000000 ltac:(lia)). lia.
  - rewrite lookup_insert_ne by (intros K; by apply claimed_inj in K).
    rewrite lookup_insert_ne by done. apply Hb.
Qed.

Lemma claim_bound_release ks task :
  claim_bound ks -> claim_bound (drop_time (delete (claimedTaskKey task) ks) task).
Proof.
  intros Hb. apply claim_bound_drop; [|by rewrite lookup_delete_eq].
  intros t e E. apply lookup_delete_Some in E as [Hn E]. rewrite times_delete. by apply Hb.
Qed.

Definition times_forever (ks : keyspace) : Prop :=
  forall e, ks !! claimTimesKey = Some e -> ent_expire e = None.

Lemma times_forever_drop ks t : times_forever ks -> times_forever (drop_time ks t).
Proof.
  intros Hf e. unfold drop_time. destruct (ks !! claimTimesKey) as [[[s|h|z] x]|] eqn:E;
    [rewrite E; intros [= <-]; exact (Hf _ E)..| |by rewrite E].
  case_bool_decide; [by rewrite lookup_delete_eq|]. rewrite lookup_insert_eq. intros [= <-].
  exact (Hf _ E).
Qed.

Lemma times_forever_claimed wd task w :
  times_forever (now_view wd) -> times_forever (claimed_view wd task w).
Proof.
  intros Hf e. unfold claimed_view, put_time. rewrite lookup_insert_eq. intros [= <-].
  cbn [ent_expire]. unfold put_claim, keep_ttl. rewrite lookup_insert_ne by auto with go.
  destruct (now_view wd !! claimTimesKey) as [e|] eqn:E; [|done]. exact (Hf _ E).
Qed.

Lemma times_forever_scan l ks : times_forever ks -> times_forever (scan_drop ks l).
Proof.
  revert ks; induction l as [|[t sc] l IH]; intros ks H; [done|]. cbn [scan_drop foldl fst].
  apply IH. case_match; [done|by apply times_forever_drop].
Qed.

Lemma claim_bound_expire ks t :
  times_forever ks -> claim_bound ks -> claim_bound (expire_at t ks) /\ times_forever (expire_at t ks).
Proof.
  intros Hf Hb. assert (expire_at t ks !! claimTimesKey = ks !! claimTimesKey) as E.
  { rewrite expire_at_lookup. destruct (ks !! claimTimesKey) as [e|] eqn:E; [|done].
    unfold alive. by rewrite (Hf _ E). }
  split; [|intros e; rewrite E; apply Hf]. intros t' e. unfold times. rewrite E, expire_at_lookup.
  destruct (ks !! claimedTaskKey t') as [e'|] eqn:E'; [|done].
  destruct (alive t e'); [|done]. intros [= <-]. by apply Hb.
Qed.

Definition fl_inv (wd : world) : Prop :=
  w_net wd = [] /\ w_skew wd = 0 /\ fl_typed (now_view wd) /\
  claim_bound (now_view wd) /\ times_forever (now_view wd).

Lemma fl_inv_quiet wd ks wd' :
  fl_inv wd -> quiet_to wd ks wd' -> fl_typed ks -> claim_bound ks -> times_forever ks -> fl_inv wd'.
Proof.
  intros (_ & Hs & _) [Hn Hv _ Hsk _] H1 H2 H3. unfold fl_inv. rewrite Hv.
  split_and!; [exact Hn|congruence|done..].
Qed.

Lemma fl_apply_inv wd o : fl_inv wd -> fl_inv (fl_apply wd o).
Proof.
  intros Hi. pose proof Hi as (Hq & Hs & H & Hb & Hf). destruct o as [task w|task|timeout|dt]; cbn [fl_apply].
  - destruct (validateID task "taskID") as [e|] eqn:Ht;
      [unfold TryClaim, io_check, mbind, IO_bind; by rewrite Ht|].
    destruct (validateID w "workerID") as [e|] eqn:Hw;
      [unfold TryClaim, io_check, mbind, IO_bind; by rewrite Ht, Hw|].
    destruct (TryClaim_quiet task w wd Ht Hw Hq H) as (wd' & -> & Hc). cbn [fst].
    eapply fl_inv_quiet; [exact Hi|exact Hc|..];
      match goal with |- context [if ?b then _ else _] => destruct b end;
      auto using claim_bound_claimed, times_forever_claimed. unfold claimed_view. auto with go.
  - destruct (validateID task "taskID") as [e|] eqn:Ht;
      [unfold ReleaseClaim, io_check, mbind, IO_bind; by rewrite Ht|].
    destruct (ReleaseClaim_quiet task wd Ht Hq H) as (wd' & -> & Hc). cbn [fst].
    eapply fl_inv_quiet; [exact Hi|exact Hc|auto with go|by apply claim_bound_release|].
    apply times_forever_drop. intros e. rewrite lookup_delete_ne by auto with go. apply Hf.
  - destruct (FindTimedOutTasks_quiet timeout wd Hq H) as (wd' & -> & Hc). cbn [fst].
    eapply fl_inv_quiet; [exact Hi|exact Hc|by apply scan_drop_typed|by apply claim_bound_scan|
      by apply times_forever_scan].
  - unfold fl_inv. rewrite wait_view by lia. cbn [wait w_net w_skew].
    destruct (claim_bound_expire _ (srv_ms (wait (Z.max 0 dt) wd)) Hf Hb). auto with go.
Qed.

Lemma fl_run_inv ops wd : fl_inv wd -> fl_inv (foldl fl_apply wd ops).
Proof. revert wd; induction ops as [|o ops IH]; intros wd H; [done|]. apply IH. by apply fl_apply_inv. Qed.

(** The timeout enforcer never finds a task to time out: a claim lives for
    [defaultClaimTTL] (five minutes) after its recorded time, and no caller in
    the program extends it. Whatever claims, releases and scans come before,
    with any [TaskTimeout] above 301 seconds (the default is 30 minutes) the
    check releases nothing, calls nothing back and counts nothing; it only
    forgets the recorded times of the claims that ran out. *)
Theorem enforcer_never_fires cfg onTimeout count wd ops :
  w_net wd = [] -> w_skew wd = 0 -> now_view wd = ∅ -> 301 * second <= TaskTimeout cfg ->
  let wd' := foldl fl_apply wd ops in
  let '(wd'', r) := checkTimeouts cfg onTimeout count wd' in
  r = Ok count /\ forall t, owner (now_view wd'') t = owner (now_view wd') t.
Proof.
  intros Hq Hs Hv Hto wd'.
  assert (fl_inv wd') as (Hq' & Hs' & H & Hb & Hf).
  { apply fl_run_inv. unfold fl_inv. rewrite Hv. split_and!; try done; repeat split; intros *; by rewrite lookup_empty. }
  unfold checkTimeouts. destruct (FindTimedOutTasks_quiet (TaskTimeout cfg) wd' Hq' H) as (wd'' & E & Hc).
  rewrite (io_bind_ok _ _ _ _ _ E). set (l := overdue _ _) in *.
  assert (forall ts, ts ∈ l -> owner (now_view wd') ts.1 = None) as Hl.
  { intros [t sc] Hin. apply overdue_elem in Hin as [Hsc Hle]. cbn [fst].
    destruct (owner_cases _ t H) as [[_ L]|(o & x & E' & L)]; [done|]. exfalso.
    destruct (Hb t _ E') as (x' & sc' & [= ->] & Hsc' & Hx). simplify_eq.
    pose proof (now_view_alive wd' _ _ E') as Ha. unfold alive in Ha. cbn [ent_expire] in Ha.
    apply Z.ltb_lt in Ha. revert Hle Ha Hto. unfold claim_cutoff, srv_ms, second, ms. rewrite Hs', Z.add_0_r.
    pose proof (Z.div_mod (w_now wd') 1000000 ltac:(lia)).
    pose proof (Z.mod_pos_bound (w_now wd') 1000000 ltac:(lia)).
    pose proof (Z.div_mod (w_now wd' - TaskTimeout cfg) 1000000000 ltac:(lia)).
    pose proof (Z.mod_pos_bound (w_now wd' - TaskTimeout cfg) 1000000000 ltac:(lia)). lia. }
  assert (omap (timed_out (now_view wd')) l = []) as ->.
  { clear -Hl. induction l as [|ts l IH]; [done|]. cbn [omap list_omap]. unfold timed_out at 1.
    rewrite (Hl ts) by (by left). apply IH. intros ts' Hin. apply Hl. by right. }
  split; [done|]. intros t. rewrite (qt_view _ _ _ Hc). clear.
  generalize (now_view wd'). induction l as [|ts l IH]; intros ks; [done|]. cbn [scan_drop foldl].
  unfold scan_drop in IH. rewrite IH. destruct (owner ks ts.1); [done|]. apply owner_drop_time.
Qed.

(** ** Stored records *)
Lemma set_json_quiet {A} `{JsonCodec A} pre key (a : A) ttl wd :
  w_net wd = [] -> 0 < set_ttl_ms ttl ->
  exists wd', set_json pre key a ttl wd = (wd', Ok tt) /\
    quiet_to wd (<[key := mkEntry (VString (marshal a)) (Some (srv_ms wd + set_ttl_ms ttl))]> (now_view wd)) wd'.
Proof.
  intros Hq Ht.
  assert (run_ks (srv_ms wd) (one (SET key (marshal a) (Some (set_ttl_ms ttl)))) (now_view wd) =
    (<[key := mkEntry (VString (marshal a)) (Some (srv_ms wd + set_ttl_ms ttl))]> (now_view wd), Ok RStatus)) as R.
  { unfold one. cbn [run_ks doc_exec]. by rewrite (proj2 (Z.leb_gt _ _)) by lia. }
  destruct (round_trip_ok _ wd _ _ Hq R) as (wd1 & E1 & Hc1). exists wd1. split; [|done].
  unfold set_json. by rewrite (io_bind_ok _ _ _ _ _ (wrap_err_ok _ _ _ _ _ E1)).
Qed.

Lemma get_json_quiet {A} `{JsonCodec A} pre upre key (o : option (A * option Z)) wd :
  w_net wd = [] ->
  now_view wd !! key = (fun ax => mkEntry (VString (marshal ax.1)) ax.2) <$> o ->
  exists wd', get_json pre upre key wd = (wd', Ok (fst <$> o)) /\ quiet_to wd (now_view wd) wd'.
Proof.
  intros Hq Hk.
  assert (run_ks (srv_ms wd) (one (GET key)) (now_view wd) =
    (now_view wd, Ok (match o with Some (a, _) => RBulk (marshal a) | None => RNil end))) as R.
  { unfold one. cbn [run_ks doc_exec]. rewrite Hk. by destruct o as [[a x]|]. }
  destruct (round_trip_ok _ wd _ _ Hq R) as (wd1 & E1 & Hc1). exists wd1. split; [|done].
  unfold get_json. rewrite (io_bind_ok _ _ _ _ _ (wrap_err_ok _ _ _ _ _ E1)).
  destruct o as [[a x]|]; [|done]. by rewrite unmarshal_marshal.
Qed.

(** A stored record [dt] later. *)
Lemma record_after dt wd wd0 ks key v x :
  quiet_to wd0 ks wd -> ks !! key = Some (mkEntry v (Some x)) -> 0 <= dt ->
  now_view (wait dt wd) !! key =
    if srv_ms (wait dt wd) <? x then Some (mkEntry v (Some x)) else None.
Proof. intros Hc E Hd. rewrite wait_view, expire_at_lookup, (qt_view _ _ _ Hc), E by done. done. Qed.

(** A registration, with its record read back unchanged, lives for
    [defaultWorkerRegistrationTTL] (two hours) after the registration or the last
    heartbeat; later, a heartbeat reports [ErrWorkerNotFound] and the worker is
    unknown. *)
Theorem registration_lifetime `{JsonCodec Worker} worker wd dt1 dt2 :
  validateID (wk_WorkerID worker) "workerID" = None -> w_net wd = [] -> 0 <= dt1 -> 0 <= dt2 ->
  let id := wk_WorkerID worker in
  let '(wd1, r1) := RegisterWorker worker wd in
  let '(wd2, r2) := UpdateHeartbeat id (wait dt1 wd1) in
  let '(_, r3) := GetWorker id (wait dt2 wd2) in
  r1 = Ok tt /\
  if srv_ms (wait dt1 wd1) <? srv_ms wd + 7200000
  then r2 = Ok (w_now wd + dt1 + w_skew wd) /\
       r3 = Ok (if srv_ms (wait dt2 wd2) <? srv_ms (wait dt1 wd1) + 7200000 then Some worker else None)
  else r2 = Err ErrWorkerNotFound /\ r3 = Ok None.
Proof.
  intros Hid Hq H1 H2 id. unfold RegisterWorker, UpdateHeartbeat, GetWorker. fold id in Hid |- *.
  rewrite io_check_none by done.
  destruct (set_json_quiet "register worker failed: " (workerRegistrationKey id) worker
    defaultWorkerRegistrationTTL wd Hq eq_refl) as (wd1 & -> & Hc1).
  pose proof (record_after dt1 wd1 wd _ (workerRegistrationKey id) _ _ Hc1
    (lookup_insert_eq _ _ _) H1) as Hk1.
  change (set_ttl_ms defaultWorkerRegistrationTTL) with 7200000 in *.
  change (expire_ttl_ms defaultWorkerRegistrationTTL) with 7200000.
  rewrite io_check_none by done. set (wd1' := wait dt1 wd1) in *.
  assert (w_net wd1' = []) as Hq1 by (apply Hc1).
  set (p := one (EXPIRE (workerRegistrationKey id) 7200000)).
  destruct (srv_ms wd1' <? srv_ms wd + 7200000).
  - assert (run_ks (srv_ms wd1') p (now_view wd1') =
      (<[workerRegistrationKey id := mkEntry (VString (marshal worker)) (Some (srv_ms wd1' + 7200000))]>
         (now_view wd1'), Ok (RInt 1))) as R.
    { unfold p, one. cbn [run_ks doc_exec]. by rewrite Hk1. }
    destruct (round_trip_ok _ wd1' _ _ Hq1 R) as (wd2 & E2 & Hc2).
    rewrite (io_bind_ok _ _ _ _ _ (wrap_err_ok _ _ _ _ _ E2)). cbv beta iota delta [io_now].
    pose proof (record_after dt2 wd2 wd1' _ (workerRegistrationKey id) _ _ Hc2 (lookup_insert_eq _ _ _) H2) as Hk2.
    rewrite io_check_none by done.
    destruct (get_json_quiet "get worker failed: " "unmarshal worker: " (workerRegistrationKey id)
      (if srv_ms (wait dt2 wd2) <? srv_ms wd1' + 7200000 then Some (worker, Some (srv_ms wd1' + 7200000)) else None)
      (wait dt2 wd2) (qt_net _ _ _ Hc2)) as (wd3 & -> & _).
    { rewrite Hk2. by destruct (srv_ms (wait dt2 wd2) <? srv_ms wd1' + 7200000). }
    rewrite (qt_now _ _ _ Hc2), (qt_skew _ _ _ Hc2). subst wd1'. cbn [wait w_now w_skew].
    rewrite (qt_now _ _ _ Hc1), (qt_skew _ _ _ Hc1).
    split_and!; [done|done|]. by destruct (_ <? _).
  - assert (run_ks (srv_ms wd1') p (now_view wd1') = (now_view wd1', Ok (RInt 0))) as R.
    { unfold p, one. cbn [run_ks doc_exec]. by rewrite Hk1. }
    destruct (round_trip_ok _ wd1' _ _ Hq1 R) as (wd2 & E2 & Hc2).
    rewrite (io_bind_ok _ _ _ _ _ (wrap_err_ok _ _ _ _ _ E2)). cbv beta iota delta [io_fail].
    rewrite io_check_none by done.
    destruct (get_json_quiet "get worker failed: " "unmarshal worker: " (workerRegistrationKey id) None
      (wait dt2 wd2) (qt_net _ _ _ Hc2)) as (wd3 & -> & _); [|done].
    rewrite wait_view, expire_at_lookup, (qt_view _ _ _ Hc2), Hk1 by done. done.
Qed.
End quiet.

(** ** Witnesses *)
Section witnesses.
Local Open Scope string_scope.
Local Existing Instance mem_redis.

Definition empty_world : world := mkWorld (∅ : keyspace) 1700000000000000000 0 [] None.
Lemma fl_typed_empty : fl_typed (now_view empty_world).
Proof. split; intros *; change (now_view empty_world) with (∅ : keyspace); by rewrite lookup_empty. Qed.

Definition worker_codec : JsonCodec Worker := coded
  (fun w => (wk_WorkerID w, wk_Repos w, wk_RegisteredAt w))
  (fun '(id, repos, at_) => mkWorker id repos at_) ltac:(by intros []).

Lemma TryClaim_functional_witness : snd (TryClaim "bd-1" "w1" empty_world) = Ok true.
Proof.
  pose proof (TryClaim_functional "bd-1" "w1" "w2" empty_world eq_refl eq_refl eq_refl eq_refl fl_typed_empty) as X.
  destruct (TryClaim "bd-1" "w1" empty_world) as [wd1 r].
  destruct (ReleaseClaim "bd-1" wd1) as [wd2 r2]. destruct (TryClaim "bd-1" "w2" wd2) as [wd3 r3].
  exact (proj1 (proj1 X)).
Defined.

Lemma ExtendClaimTTL_functional_witness :
  snd (ExtendClaimTTL "bd-1" 30 empty_world) = Err (Msg "task claim key not found: bd-1").
Proof.
  pose proof (ExtendClaimTTL_functional "bd-1" 30 empty_world eq_refl eq_refl fl_typed_empty
    ltac:(lia)) as X.
  destruct (ExtendClaimTTL "bd-1" 30 empty_world) as [wd' r]. exact (proj1 X).
Defined.

Definition worker1 : Worker := mkWorker "w1" ["repo"] 17.
Lemma registration_lifetime_witness :
  snd (@RegisterWorker _ worker_codec worker1 empty_world) = Ok tt.
Proof.
  pose proof (@registration_lifetime _ worker_codec worker1 empty_world (90 * minute) (90 * minute)
    eq_refl eq_refl ltac:(vm_compute; congruence) ltac:(vm_compute; congruence)) as X. cbv zeta in X.
  destruct (@RegisterWorker _ worker_codec worker1 empty_world) as [wd1 r1].
  destruct (UpdateHeartbeat _ _) as [wd2 r2]. destruct (@GetWorker _ _ _ _) as [wd3 r3].
  exact (proj1 X).
Defined.

Definition busy : list fop := [FClaim "bd-1" "w1"; FWait (45 * minute)].
Lemma enforcer_never_fires_witness :
  snd (checkTimeouts DefaultTimeoutConfig None 0 (foldl fl_apply empty_world busy)) = Ok 0.
Proof.
  pose proof (enforcer_never_fires DefaultTimeoutConfig None 0 empty_world busy eq_refl eq_refl eq_refl) as X.
  cbv zeta in X. destruct (checkTimeouts _ _ _ _) as [wd' r]. refine (proj1 (X _)). vm_compute. congruence.
Defined.
End witnesses.
End Fleet.
