(* ===== verification/DaemonConfig.v ===== *)
(** * DaemonConfig: the daemon's configuration, [internal/cli/daemon_config.go],
    [daemon_role_merge.go] and [task_router.go] (role constraints)

    The settings with their layers (defaults, global file, project file), roles
    and agents. Pointers to integers and booleans are options; a [float64] is
    given by its bit pattern. *)
From S2P Require Import Prelude.
Local Open Scope Z_scope.

Module Config.

(** ** Data *)
Record OTelDaemonConfig := mkOTel {
  ot_Enabled : bool;
  ot_Endpoint : string;
  ot_Protocol : string;
  ot_ServiceName : string;
  ot_SampleRate : Z;
  ot_FlushIntervalMs : Z;
  ot_Traces : option bool;
  ot_Metrics : option bool;
}.

Record RestartPolicy := mkPolicy {
  MaxRetries : option Z;
  BackoffInitial : option Z;
  BackoffMax : option Z;
  OutputTimeout : option Z;
  RateLimitBackoff : option Z;
  RateLimitMaxWait : option Z;
  RateLimitNoCount : option bool;
  TimeoutBackoff : option Z;
  NoWorkBackoff : option Z;
  IdlePollInterval : option Z;
}.

Record DaemonSettings := mkSettings {
  PIDFile : string;
  LogDir : string;
  EventsDir : string;
  Policy : RestartPolicy;
  MaxAgents : option Z;
  RedisURL : string;
  APIKey : string;
  JWTKey : string;
  OTel : option OTelDaemonConfig;
}.

(** A slice is nil or a list: [len] of both is the list's length, but a nil
    check tells them apart. *)
Abbreviation slice := (option (list string)).
Definition slice_len (s : slice) : nat := length (default [] s).

Record RoleConfig := mkRole {
  Description : string;
  PromptFile : string;
  Model : string;
  rc_TaskFilter : string;
  rc_Backend : string;
  rc_PathPatterns : slice;
  rc_Skills : slice;
  rc_MaxPriority : option Z;
  MaxConcurrency : option Z;
  rc_ReadOnly : bool;
  rc_AllowedTools : slice;
  rc_DeniedTools : slice;
}.

Record AgentEntry := mkAgent {
  Worktree : string;
  Role : string;
  Auto : bool;
  ae_Backend : string;
  FallbackBackends : list string;
  ae_PathPatterns : slice;
}.

Record DaemonConfig := mkDaemonConfig {
  dc_Backend : string;
  dc_Daemon : DaemonSettings;
  dc_Roles : gmap string RoleConfig;
  dc_Agents : list AgentEntry;
}.

(** The parsed global and project files; an absent file is [None]. *)
Record GlobalFile := mkGlobal { gf_Backend : string; gf_Daemon : option DaemonSettings }.
Record ProjectFile := mkProject {
  pf_Backend : string;
  pf_Daemon : option DaemonSettings;
  pf_Roles : gmap string RoleConfig;
  pf_Agents : list AgentEntry;
}.

(** ** Overlays: [if src.X != zero { dst.X = src.X }] *)
Definition over_str (d s : string) : string := if bool_decide (s <> "") then s else d.
Definition over_opt {A} (d s : option A) : option A := match s with Some _ => s | None => d end.
Definition over_Z (d s : Z) : Z := if bool_decide (s <> 0) then s else d.
Definition over_flag (d s : bool) : bool := if s then true else d.

(** [x != 0] on the bits of a [float64]: neither zero. *)
Definition float_nonzero (bits : Z) : bool := bool_decide (bits <> 0 /\ bits <> 2 ^ 63).
Definition over_float (d s : Z) : Z := if float_nonzero s then s else d.

Definition overlayOTelConfig (dst src : OTelDaemonConfig) : OTelDaemonConfig := {|
  ot_Enabled := over_flag (ot_Enabled dst) (ot_Enabled src);
  ot_Endpoint := over_str (ot_Endpoint dst) (ot_Endpoint src);
  ot_Protocol := over_str (ot_Protocol dst) (ot_Protocol src);
  ot_ServiceName := over_str (ot_ServiceName dst) (ot_ServiceName src);
  ot_SampleRate := over_float (ot_SampleRate dst) (ot_SampleRate src);
  ot_FlushIntervalMs := over_Z (ot_FlushIntervalMs dst) (ot_FlushIntervalMs src);
  ot_Traces := over_opt (ot_Traces dst) (ot_Traces src);
  ot_Metrics := over_opt (ot_Metrics dst) (ot_Metrics src);
|}.

Definition empty_otel : OTelDaemonConfig := mkOTel false "" "" "" 0 0 None None.

Definition overlayPolicy (dst src : RestartPolicy) : RestartPolicy := {|
  MaxRetries := over_opt (MaxRetries dst) (MaxRetries src);
  BackoffInitial := over_opt (BackoffInitial dst) (BackoffInitial src);
  BackoffMax := over_opt (BackoffMax dst) (BackoffMax src);
  OutputTimeout := over_opt (OutputTimeout dst) (OutputTimeout src);
  RateLimitBackoff := over_opt (RateLimitBackoff dst) (RateLimitBackoff src);
  RateLimitMaxWait := over_opt (RateLimitMaxWait dst) (RateLimitMaxWait src);
  RateLimitNoCount := over_opt (RateLimitNoCount dst) (RateLimitNoCount src);
  TimeoutBackoff := over_opt (TimeoutBackoff dst) (TimeoutBackoff src);
  NoWorkBackoff := over_opt (NoWorkBackoff dst) (NoWorkBackoff src);
  IdlePollInterval := over_opt (IdlePollInterval dst) (IdlePollInterval src);
|}.

Definition overlayDaemonSettings (dst src : DaemonSettings) : DaemonSettings := {|
  PIDFile := over_str (PIDFile dst) (PIDFile src);
  LogDir := over_str (LogDir dst) (LogDir src);
  EventsDir := over_str (EventsDir dst) (EventsDir src);
  Policy := overlayPolicy (Policy dst) (Policy src);
  MaxAgents := over_opt (MaxAgents dst) (MaxAgents src);
  RedisURL := over_str (RedisURL dst) (RedisURL src);
  APIKey := over_str (APIKey dst) (APIKey src);
  JWTKey := over_str (JWTKey dst) (JWTKey src);
  OTel := match OTel src with
          | None => OTel dst
          | Some o => Some (overlayOTelConfig (default empty_otel (OTel dst)) o)
          end;
|}.

(** ** Validation and loading *)
Fixpoint check_fallbacks (i : nat) (j : nat) (fbs : list string) : option goerror :=
  match fbs with
  | [] => None
  | fb :: rest =>
      if bool_decide (fb = "")
      then Some (Msg ("agent[" +:+ itoa (Z.of_nat i) +:+ "]: fallback_backends[" +:+
                      itoa (Z.of_nat j) +:+ "] is empty"))
      else check_fallbacks i (S j) rest
  end.

Fixpoint check_agents (i : nat) (agents : list AgentEntry) : option goerror :=
  match agents with
  | [] => None
  | a :: rest =>
      if bool_decide (Worktree a = "")
      then Some (Msg ("agent[" +:+ itoa (Z.of_nat i) +:+ "]: worktree is required"))
      else if bool_decide (Role a = "")
      then Some (Msg ("agent[" +:+ itoa (Z.of_nat i) +:+ "]: role is required"))
      else match check_fallbacks i 0 (FallbackBackends a) with
           | Some e => Some e
           | None => check_agents (S i) rest
           end
  end.

Definition validateAgents (agents : list AgentEntry) (maxAgents : option Z) : option goerror :=
  match check_agents 0 agents with
  | Some e => Some e
  | None =>
      match maxAgents with
      | Some m =>
          if m <? 0
          then Some (Msg ("max_agents must be non-negative, got " +:+ itoa m))
          else if (0 <? m) && (m <? Z.of_nat (length agents))
          then Some (Msg ("too many agents configured: " +:+ itoa (Z.of_nat (length agents)) +:+
                          " exceeds max_agents limit of " +:+ itoa m))
          else None
      | None => None
      end
  end.

Definition no_policy : RestartPolicy := mkPolicy None None None None None None None None None None.
Definition default_settings : DaemonSettings := {|
  PIDFile := ".loom/daemon.pid"; LogDir := ".loom/logs"; EventsDir := ".loom/events";
  Policy := mkPolicy (Some 3) (Some 2) (Some 300) (Some 900) None None None None None None;
  MaxAgents := Some 20; RedisURL := ""; APIKey := ""; JWTKey := ""; OTel := None;
|}.

Definition overlay_opt (dst : DaemonSettings) (src : option DaemonSettings) : DaemonSettings :=
  match src with None => dst | Some s => overlayDaemonSettings dst s end.

(** [LoadDaemonConfig] from the parsed files, up to the agents' validation. *)
Definition merge_config (global : option GlobalFile) (project : option ProjectFile) : res DaemonConfig :=
  let backend0 := match global with Some g => over_str "" (gf_Backend g) | None => "" end%string in
  let settings0 := overlay_opt default_settings (global ≫= gf_Daemon) in
  let dc := match project with
            | None => mkDaemonConfig backend0 settings0 ∅ []
            | Some p =>
                mkDaemonConfig (over_str backend0 (pf_Backend p))
                  (overlay_opt settings0 (pf_Daemon p)) (pf_Roles p ∪ ∅) (pf_Agents p)
            end in
  match validateAgents (dc_Agents dc) (MaxAgents (dc_Daemon dc)) with
  | Some e => Err e
  | None => Ok dc
  end.

(** ** Roles *)
Definition over_slice (d s : slice) : slice := if bool_decide (0 < slice_len s)%nat then s else d.

Definition mergeRoleConfig (base overlay : RoleConfig) : RoleConfig := {|
  Description := over_str (Description base) (Description overlay);
  PromptFile := PromptFile base;
  Model := over_str (Model base) (Model overlay);
  rc_TaskFilter := over_str (rc_TaskFilter base) (rc_TaskFilter overlay);
  rc_Backend := over_str (rc_Backend base) (rc_Backend overlay);
  rc_PathPatterns := over_slice (rc_PathPatterns base) (rc_PathPatterns overlay);
  rc_Skills := over_slice (rc_Skills base) (rc_Skills overlay);
  rc_MaxPriority := over_opt (rc_MaxPriority base) (rc_MaxPriority overlay);
  MaxConcurrency := over_opt (MaxConcurrency base) (MaxConcurrency overlay);
  rc_ReadOnly := over_flag (rc_ReadOnly base) (rc_ReadOnly overlay);
  rc_AllowedTools := over_slice (rc_AllowedTools base) (rc_AllowedTools overlay);
  rc_DeniedTools := over_slice (rc_DeniedTools base) (rc_DeniedTools overlay);
|}.

Definition empty_role (description : string) : RoleConfig :=
  mkRole description "" "" "" "" None None None None false None None.

Definition builtInRoles (name : string) : bool := bool_decide (name = "plan" \/ name = "task").
Definition ResolveRole (dc : DaemonConfig) (name : string) : option RoleConfig := dc_Roles dc !! name.

Definition set_PromptFile (p : string) (rc : RoleConfig) : RoleConfig :=
  mkRole (Description rc) p (Model rc) (rc_TaskFilter rc) (rc_Backend rc) (rc_PathPatterns rc)
    (rc_Skills rc) (rc_MaxPriority rc) (MaxConcurrency rc) (rc_ReadOnly rc) (rc_AllowedTools rc)
    (rc_DeniedTools rc).

(** [stat] is the file system: the error of [os.Stat] on a path, if any;
    [abs] and [join] are the standard library's path functions. *)
Definition resolveRoleConfig (stat : string -> option goerror) (abs : string -> bool)
    (join : string -> string) (dc : DaemonConfig) (roleName : string) (agentIndex : Z) : res RoleConfig :=
  let at_ := ("agent[" +:+ itoa agentIndex +:+ "]: ")%string in
  if builtInRoles roleName then
    let rc := empty_role ("Built-in " +:+ roleName +:+ " agent") in
    Ok (match ResolveRole dc roleName with
        | Some userRC => mergeRoleConfig rc userRC
        | None => rc
        end)
  else
    match ResolveRole dc roleName with
    | None => Err (Msg (at_ +:+ "role " +:+ quote roleName +:+
                " not found (not a built-in role and not defined in config.Roles)"))
    | Some rc =>
        if bool_decide (PromptFile rc = "")
        then Err (Msg (at_ +:+ "custom role " +:+ quote roleName +:+ " missing prompt_file"))
        else
          let promptPath := if abs (PromptFile rc) then PromptFile rc else join (PromptFile rc) in
          match stat promptPath with
          | Some e => Err (Wrapf (at_ +:+ "prompt file " +:+ quote promptPath +:+ " not found: ") e "")
          | None => Ok (set_PromptFile promptPath rc)
          end
    end.

(** ** Layers compose *)
Lemma over_str_assoc a b c : over_str (over_str a b) c = over_str a (over_str b c).
Proof. unfold over_str. by destruct (bool_decide (c <> "")) eqn:E; rewrite ?E. Qed.
Lemma over_opt_assoc {A} (a b c : option A) : over_opt (over_opt a b) c = over_opt a (over_opt b c).
Proof. by destruct b, c. Qed.
Lemma over_Z_assoc a b c : over_Z (over_Z a b) c = over_Z a (over_Z b c).
Proof. unfold over_Z. by destruct (bool_decide (c <> 0)) eqn:E; rewrite ?E. Qed.
Lemma over_flag_assoc a b c : over_flag (over_flag a b) c = over_flag a (over_flag b c).
Proof. by destruct b, c. Qed.
Lemma over_float_assoc a b c : over_float (over_float a b) c = over_float a (over_float b c).
Proof. unfold over_float. by destruct (float_nonzero c) eqn:E; rewrite ?E. Qed.
Lemma over_slice_assoc a b c : over_slice (over_slice a b) c = over_slice a (over_slice b c).
Proof. unfold over_slice. by destruct (bool_decide (0 < slice_len c)%nat) eqn:E; rewrite ?E. Qed.

Lemma over_str_empty s : over_str "" s = s.
Proof. unfold over_str. destruct (decide (s = "")) as [->|Hn]; [done|]. by rewrite bool_decide_true. Qed.

Ltac overlay_assoc :=
  rewrite ?over_str_assoc, ?over_opt_assoc, ?over_Z_assoc, ?over_flag_assoc, ?over_float_assoc,
    ?over_slice_assoc.

Lemma overlayOTel_assoc a b c :
  overlayOTelConfig (overlayOTelConfig a b) c = overlayOTelConfig a (overlayOTelConfig b c).
Proof. unfold overlayOTelConfig; cbn. by overlay_assoc. Qed.

Lemma overlayPolicy_assoc a b c : overlayPolicy (overlayPolicy a b) c = overlayPolicy a (overlayPolicy b c).
Proof. unfold overlayPolicy; cbn. by overlay_assoc. Qed.

Lemma over_Z_zero b : over_Z 0 b = b.
Proof. unfold over_Z. destruct (decide (b = 0)) as [->|Hn]; [done|]. by rewrite bool_decide_true. Qed.
Lemma over_opt_none {A} (b : option A) : over_opt None b = b.
Proof. by destruct b. Qed.
Lemma over_flag_false b : over_flag false b = b.
Proof. by destruct b. Qed.

(** Configuration layers: overlaying the global and then the project
    settings on the defaults is overlaying on the defaults the project's
    settings overlaid on the global ones, whichever fields are set; a role is
    merged the same way. *)
Theorem overlay_layers d g p r1 r2 r3 :
  overlayDaemonSettings (overlayDaemonSettings d g) p =
    overlayDaemonSettings d (overlayDaemonSettings g p) /\
  mergeRoleConfig (mergeRoleConfig r1 r2) r3 = mergeRoleConfig r1 (mergeRoleConfig r2 r3).
Proof.
  split; [|unfold mergeRoleConfig; cbn; by overlay_assoc].
  unfold overlayDaemonSettings; cbn. overlay_assoc. rewrite overlayPolicy_assoc. f_equal.
  destruct (OTel p) as [op|]; [|done]. destruct (OTel g) as [og|]; cbn.
  - by rewrite overlayOTel_assoc.
  - destruct (OTel d) as [od|]; cbn; f_equal;
      unfold overlayOTelConfig, empty_otel; cbn;
      rewrite ?over_str_empty, ?over_Z_zero, ?over_opt_none, ?over_flag_false; f_equal;
      unfold over_float; by destruct (float_nonzero (ot_SampleRate op)) eqn:E; rewrite ?E.
Qed.

Definition agent_valid (a : AgentEntry) : Prop :=
  Worktree a <> "" /\ Role a <> "" /\ Forall (fun fb => fb <> "") (FallbackBackends a).

Lemma check_fallbacks_none i j fbs : check_fallbacks i j fbs = None <-> Forall (fun fb => fb <> "") fbs.
Proof.
  revert j; induction fbs as [|fb fbs IH]; intros j; simpl; [by rewrite Forall_nil|].
  rewrite Forall_cons. case_bool_decide; [|rewrite IH; tauto]. split; [done|]. tauto.
Qed.

Lemma check_agents_none i agents : check_agents i agents = None <-> Forall agent_valid agents.
Proof.
  revert i; induction agents as [|a agents IH]; intros i; simpl; [by rewrite Forall_nil|].
  rewrite Forall_cons. unfold agent_valid at 1. rewrite <- (check_fallbacks_none i 0).
  repeat case_bool_decide; [split; [done|tauto]..|].
  destruct (check_fallbacks i 0 (FallbackBackends a)); [split; [done|naive_solver]|]. rewrite IH. tauto.
Qed.

(** A configuration is accepted exactly when every agent has a worktree, a
    role and no empty fallback, and there are at most [max_agents] of them (a
    limit of 0 is no limit, a negative one is refused); the limit and the agents
    are the project's where it sets them. *)
Theorem merge_config_valid global project :
  let settings := overlay_opt (overlay_opt default_settings (global ≫= gf_Daemon)) (project ≫= pf_Daemon) in
  let agents := match project with Some p => pf_Agents p | None => [] end in
  (exists dc, merge_config global project = Ok dc /\ dc_Daemon dc = settings /\ dc_Agents dc = agents) <->
  Forall agent_valid agents /\
  match MaxAgents settings with
  | Some m => 0 <= m /\ (0 < m -> Z.of_nat (length agents) <= m)
  | None => True
  end.
Proof.
  intros settings agents. unfold merge_config.
  set (dc := match project with None => _ | Some p => _ end).
  assert (dc_Daemon dc = settings /\ dc_Agents dc = agents) as [Hs Ha].
  { subst dc settings agents. by destruct project. }
  rewrite Hs, Ha. unfold validateAgents. rewrite <- (check_agents_none 0).
  destruct (check_agents 0 agents) as [e|]; [split; [by intros (? & [=] & _)|by intros []]|].
  destruct (MaxAgents settings) as [m|]; [|naive_solver].
  destruct (Z.ltb_spec m 0); [split; [by intros (? & [=] & _)|lia]|].
  destruct (Z.ltb_spec 0 m), (Z.ltb_spec m (Z.of_nat (length agents))); cbn [andb];
    (split; [by intros (? & [=] & _)|lia]) || (split; [intros _; split; [done|lia]|intros _; eauto]).
Qed.
End Config.
