(* ===== verification/TaskRouter.v ===== *)
(** * TaskRouter: which task an agent takes, [internal/cli/taskfilter.go],
    [task_router.go] and [automode_poller.go]

    The predicates on issues, the scoring of an issue against a role's
    constraints, the choice of the best task, the availability checks over the
    tracker's lists, and the adaptive polling interval. *)
From S2P Require Import Prelude DaemonConfig.
Import Config.
Local Open Scope Z_scope.

Module Router.

(** ** Data *)
Record Dependency := mkDep { DependsOnID : string; dep_Type : string }.

Record BdIssue := mkIssue {
  ID : string;
  Status : string;
  Priority : Z;
  IssueType : string;
  Design : string;
  Labels : list string;
  Dependencies : list Dependency;
}.

Record RoleConstraints := mkConstraints {
  TaskFilter : string;
  Backend : string;
  PathPatterns : slice;
  Skills : slice;
  MaxPriority : option Z;
  ReadOnly : bool;
  AllowedTools : slice;
  DeniedTools : slice;
}.

Record TaskMatch := mkMatch { Issue : BdIssue; Score : Z; Reason : string }.

(** ** Predicates ([taskfilter.go]) *)
Definition NeedsRevisionLabel : string := "needs-revision".

Definition IsEpic (issue : BdIssue) : bool := bool_decide (IssueType issue = "epic"%string).
Definition IsOpen (issue : BdIssue) : bool := bool_decide (Status issue = "open"%string).
Definition HasDesign (issue : BdIssue) : bool := bool_decide (Design issue <> ""%string).
Definition HasNeedsRevision (issue : BdIssue) : bool :=
  existsb (fun label => bool_decide (label = NeedsRevisionLabel)) (Labels issue).
Definition NeedsPlan (issue : BdIssue) : bool := negb (HasDesign issue) || HasNeedsRevision issue.
Definition ReadyToImplement (issue : BdIssue) : bool := HasDesign issue && negb (HasNeedsRevision issue).
Definition IsWorkableTask (issue : BdIssue) : bool := IsOpen issue && negb (IsEpic issue).

Definition affectsReadyWork (depType : string) : bool :=
  bool_decide (depType = "blocks"%string) || bool_decide (depType = "parent-child"%string) ||
  bool_decide (depType = "conditional-blocks"%string) || bool_decide (depType = "waits-for"%string).

Definition HasUnclosedBlockers (deps : list Dependency) (unclosedIDs : gset string) : bool :=
  existsb (fun dep => affectsReadyWork (dep_Type dep) && bool_decide (DependsOnID dep ∈ unclosedIDs)) deps.

Definition IsAvailableForPlanning (issue : BdIssue) (unclosedIDs : gset string) : bool :=
  IsWorkableTask issue && negb (HasUnclosedBlockers (Dependencies issue) unclosedIDs) && NeedsPlan issue.
Definition IsAvailableForImplementation (issue : BdIssue) (unclosedIDs : gset string) : bool :=
  IsWorkableTask issue && negb (HasUnclosedBlockers (Dependencies issue) unclosedIDs) &&
  ReadyToImplement issue.
Definition IsAvailableForAny (issue : BdIssue) (unclosedIDs : gset string) : bool :=
  IsWorkableTask issue && negb (HasUnclosedBlockers (Dependencies issue) unclosedIDs).

(** ** Scoring ([task_router.go]) *)
Definition MergeRoleConstraints (rc : RoleConfig) (ae : AgentEntry) : RoleConstraints := {|
  TaskFilter := rc_TaskFilter rc;
  Backend := if bool_decide (ae_Backend ae <> ""%string) then ae_Backend ae else rc_Backend rc;
  PathPatterns := match ae_PathPatterns ae with Some p => Some p | None => rc_PathPatterns rc end;
  Skills := rc_Skills rc;
  MaxPriority := rc_MaxPriority rc;
  ReadOnly := rc_ReadOnly rc;
  AllowedTools := rc_AllowedTools rc;
  DeniedTools := rc_DeniedTools rc;
|}.

(** [len(skills) == 0] covers nil. *)
Definition countSkillMatches (labels skills : list string) : Z :=
  if bool_decide (skills = [] \/ labels = []) then 0
  else
    let labelSet : gset string := list_to_set labels in
    Z.of_nat (length (filter (fun s => s ∈ labelSet) skills)).

Definition skill_list (c : RoleConstraints) : list string := default [] (Skills c).

Definition priority_bonus (p : Z) : Z :=
  let b := sub64 20 (mul64 p 4) in
  let b := if 20 <? b then 20 else b in
  if b <? 0 then 0 else b.

(** The task filter's verdict: the reason of a rejection. *)
Definition filter_reject (filter : string) (issue : BdIssue) : option string :=
  let filter := if bool_decide (filter = ""%string) then "has_design"%string else filter in
  if bool_decide (filter = "needs_plan"%string) then
    if negb (NeedsPlan issue) then Some "filter: has design (needs_plan filter)"%string else None
  else if bool_decide (filter = "has_design"%string) then
    if negb (ReadyToImplement issue) then Some "filter: not ready to implement"%string else None
  else if bool_decide (filter = "any"%string) then None
  else if negb (ReadyToImplement issue) then Some "filter: not ready to implement"%string else None.

Definition priority_reject (max : option Z) (issue : BdIssue) : option string :=
  match max with
  | Some m =>
      if m <? Priority issue
      then Some ("priority " +:+ itoa (Priority issue) +:+ " exceeds max " +:+ itoa m)%string
      else None
  | None => None
  end.

Definition MatchTask (issue : BdIssue) (constraints : RoleConstraints) (unclosedIDs : gset string)
  : TaskMatch :=
  if IsEpic issue then mkMatch issue 0 "epic"
  else if negb (IsOpen issue) then mkMatch issue 0 "not open"
  else if HasUnclosedBlockers (Dependencies issue) unclosedIDs then mkMatch issue 0 "blocked"
  else match filter_reject (TaskFilter constraints) issue with
  | Some r => mkMatch issue 0 r
  | None =>
  match priority_reject (MaxPriority constraints) issue with
  | Some r => mkMatch issue 0 r
  | None =>
    let skillMatches := countSkillMatches (Labels issue) (skill_list constraints) in
    if bool_decide (skill_list constraints <> []) && (skillMatches =? 0)
    then mkMatch issue 10 "fallback: no skill match"
    else
      let bonus := mul64 skillMatches 50 in
      let part := if 0 <? skillMatches
                  then (" skills:+" +:+ itoa bonus +:+ "(" +:+ itoa skillMatches +:+ " match)")%string
                  else ""%string in
      let score := if 0 <? skillMatches then add64 100 bonus else 100 in
      let priorityBonus := priority_bonus (Priority issue) in
      mkMatch issue (add64 score priorityBonus)
        ("base:100" +:+ part +:+ " priority:+" +:+ itoa priorityBonus)
  end
  end.

(** The order of [sort.Slice] in [SelectBestTask]. *)
Definition match_less (a b : TaskMatch) : bool :=
  if negb (Score a =? Score b) then Score b <? Score a
  else if negb (Priority (Issue a) =? Priority (Issue b)) then Priority (Issue a) <? Priority (Issue b)
  else str_lt (ID (Issue a)) (ID (Issue b)).

Section selection.
Context {sorter : SliceSort}.

Definition matches_of (issues : list BdIssue) (constraints : RoleConstraints) (unclosedIDs : gset string)
  : list TaskMatch :=
  filter (fun m => 0 < Score m) (map (fun issue => MatchTask issue constraints unclosedIDs) issues).

Definition SelectBestTask (issues : list BdIssue) (constraints : RoleConstraints)
    (unclosedIDs : gset string) : option TaskMatch :=
  let matches := matches_of issues constraints unclosedIDs in
  match matches with
  | [] => None
  | _ => head (sort_slice match_less matches)
  end.

(** ** Availability checks ([automode_poller.go]). [BD] runs the tracker's
    command line tool on a world of its own; [parse] is the decoding of its
    JSON output. *)
Section checks.
Context {W : Type} (BD : list string -> W -> W * res string) (parse : string -> res (list BdIssue)).

Definition fetchReadyIssues (parentID : string) (w : W) : W * res (list BdIssue) :=
  let args := ["ready"; "--json"; "--limit"; "100"]%string ++
              (if bool_decide (parentID <> ""%string) then ["--parent"%string; parentID] else []) in
  let (w', r) := BD args w in
  (w', match r with
       | Err e => Err (Wrapf "failed to check ready tasks: " e "")
       | Ok out => match parse out with
                   | Err e => Err (Wrapf "failed to parse task list: " e "")
                   | Ok issues => Ok issues
                   end
       end).

Definition unclosed_of (issues : list BdIssue) : gset string :=
  list_to_set (map ID (filter (fun i => Status i <> "closed"%string) issues)).

Definition fetchUnclosedIssueIDs (w : W) : W * res (gset string) :=
  let (w', r) := BD ["list"; "--json"; "--limit"; "500"]%string w in
  (w', match r with
       | Err e => Err (Wrapf "failed to list issues: " e "")
       | Ok out => match parse out with
                   | Err e => Err (Wrapf "failed to parse issue list: " e "")
                   | Ok issues => Ok (unclosed_of issues)
                   end
       end).

(** Both lists are fetched, in this order, for every check. *)
Definition with_lists {A} (parentID : string) (k : list BdIssue -> gset string -> A) (w : W) : W * res A :=
  match fetchReadyIssues parentID w with
  | (w1, Err e) => (w1, Err e)
  | (w1, Ok candidates) =>
      match fetchUnclosedIssueIDs w1 with
      | (w2, Err e) => (w2, Err e)
      | (w2, Ok unclosedIDs) => (w2, Ok (k candidates unclosedIDs))
      end
  end.

Definition GetAvailablePlanningTasks (parentID : string) : W -> W * res (list BdIssue) :=
  with_lists parentID (fun l u => filter (fun i => IsAvailableForPlanning i u = true) l).
Definition GetAvailableImplementationTasks (parentID : string) : W -> W * res (list BdIssue) :=
  with_lists parentID (fun l u => filter (fun i => IsAvailableForImplementation i u = true) l).
Definition GetAnyAvailableTasks (parentID : string) : W -> W * res (list BdIssue) :=
  with_lists parentID (fun l u => filter (fun i => IsAvailableForAny i u = true) l).

Definition non_empty (m : W -> W * res (list BdIssue)) (w : W) : W * res bool :=
  let (w', r) := m w in (w', match r with Err e => Err e | Ok l => Ok (0 <? Z.of_nat (length l)) end).
Definition HasAvailablePlanningTasks parentID := non_empty (GetAvailablePlanningTasks parentID).
Definition HasAvailableImplementationTasks parentID := non_empty (GetAvailableImplementationTasks parentID).
Definition HasAnyAvailableTasks parentID := non_empty (GetAnyAvailableTasks parentID).

(** [None] tells the caller to use its default check. *)
Definition BuildRouterTaskCheck (rc : RoleConfig) (ae : AgentEntry) (parentID : string)
  : option (W -> W * res bool) :=
  let constraints := MergeRoleConstraints rc ae in
  if bool_decide (slice_len (Skills constraints) = 0%nat) &&
     bool_decide (MaxPriority constraints = None) && bool_decide (TaskFilter constraints = ""%string)
  then None
  else Some (with_lists parentID (fun issues unclosedIDs =>
         match SelectBestTask issues constraints unclosedIDs with Some _ => true | None => false end)).

Definition checkTaskAvailability (routerCheck : option (W -> W * res bool))
    (defaultCheck : W -> W * res bool) : W -> W * res bool :=
  match routerCheck with Some c => c | None => defaultCheck end.
End checks.
End selection.

(** ** Library *)
Definition available (c : RoleConstraints) (u : gset string) (i : BdIssue) : Prop :=
  (if bool_decide (TaskFilter c = "needs_plan"%string) then IsAvailableForPlanning i u
   else if bool_decide (TaskFilter c = "any"%string) then IsAvailableForAny i u
   else IsAvailableForImplementation i u) = true /\
  match MaxPriority c with Some m => Priority i <= m | None => True end.

(** The sizes that keep the scores within an [int]. *)
Definition sane (c : RoleConstraints) : Prop := Z.of_nat (length (skill_list c)) <= 2 ^ 50.

Lemma countSkillMatches_bounds labels skills :
  0 <= countSkillMatches labels skills <= Z.of_nat (length skills).
Proof.
  unfold countSkillMatches. case_bool_decide; [lia|].
  pose proof (length_filter (fun s => s ∈ (list_to_set labels : gset string)) skills). lia.
Qed.

Lemma priority_bonus_bounds p : 0 <= priority_bonus p <= 20.
Proof. unfold priority_bonus. set (b := sub64 _ _). clearbody b. case_tests; lia. Qed.

(** The score of an accepted issue. *)
Lemma MatchTask_cases i c u :
  sane c ->
  let k := countSkillMatches (Labels i) (skill_list c) in
  Issue (MatchTask i c u) = i /\
  ((~ available c u i /\ Score (MatchTask i c u) = 0) \/
   (available c u i /\ skill_list c <> [] /\ k = 0 /\ Score (MatchTask i c u) = 10) \/
   (available c u i /\ (skill_list c = [] \/ 0 < k) /\
    Score (MatchTask i c u) = 100 + 50 * k + priority_bonus (Priority i))).
Proof.
  intros Hs k. pose proof (countSkillMatches_bounds (Labels i) (skill_list c)) as Hk. fold k in Hk.
  pose proof (priority_bonus_bounds (Priority i)) as Hp. unfold sane in Hs.
  unfold MatchTask. fold k.
  assert (forall r : string, (~ available c u i) ->
    Issue (mkMatch i 0 r) = i /\
    ((~ available c u i /\ 0 = 0) \/ (available c u i /\ skill_list c <> [] /\ k = 0 /\ 0 = 10) \/
     (available c u i /\ (skill_list c = [] \/ 0 < k) /\ 0 = 100 + 50 * k + priority_bonus (Priority i)))) as Hrej
    by auto.
  destruct (IsEpic i) eqn:Ee; [apply (Hrej "epic"%string)|].
  { unfold available, IsAvailableForPlanning, IsAvailableForImplementation, IsAvailableForAny, IsWorkableTask.
    rewrite Ee, !andb_false_r. case_tests; simpl; intros [? ?]; congruence. }
  destruct (IsOpen i) eqn:Eo; cbn [negb]; [|apply (Hrej "not open"%string)].
  2:{ unfold available, IsAvailableForPlanning, IsAvailableForImplementation, IsAvailableForAny, IsWorkableTask.
    rewrite Eo. case_tests; simpl; intros [? ?]; congruence. }
  destruct (HasUnclosedBlockers (Dependencies i) u) eqn:Eb; [apply (Hrej "blocked"%string)|].
  { unfold available, IsAvailableForPlanning, IsAvailableForImplementation, IsAvailableForAny.
    rewrite Eb, !andb_false_r. case_tests; simpl; intros [? ?]; congruence. }
  assert (available c u i <-> filter_reject (TaskFilter c) i = None /\ priority_reject (MaxPriority c) i = None)
    as Hav.
  { unfold available, IsAvailableForPlanning, IsAvailableForImplementation, IsAvailableForAny, IsWorkableTask.
    rewrite Ee, Eo, Eb. cbn [negb andb].
    assert (priority_reject (MaxPriority c) i = None <->
      match MaxPriority c with Some m => Priority i <= m | None => True end) as ->.
    { unfold priority_reject. destruct (MaxPriority c) as [m|]; [|done].
      destruct (Z.ltb_spec m (Priority i)); split; intros; try done; lia. }
    apply and_iff_compat_r. unfold filter_reject.
    destruct (decide (TaskFilter c = "needs_plan"%string)) as [->|N1].
    { destruct (NeedsPlan i); split; done. }
    destruct (decide (TaskFilter c = "any"%string)) as [->|N2]; [done|].
    rewrite (bool_decide_false (TaskFilter c = "needs_plan"%string)),
      (bool_decide_false (TaskFilter c = "any"%string)) by done.
    destruct (decide (TaskFilter c = ""%string)) as [->|N3]; [destruct (ReadyToImplement i); split; done|].
    rewrite (bool_decide_false (TaskFilter c = ""%string)), (bool_decide_false (TaskFilter c = "needs_plan"%string)) by done.
    rewrite (bool_decide_false (TaskFilter c = "any"%string)) by done.
    destruct (bool_decide _), (ReadyToImplement i); split; done. }
  destruct (filter_reject (TaskFilter c) i) as [r|]; [apply (Hrej r); rewrite Hav; by intros []|].
  destruct (priority_reject (MaxPriority c) i) as [r|]; [apply (Hrej r); rewrite Hav; by intros []|].
  assert (available c u i) as Ha by (by apply Hav).
  destruct (bool_decide (skill_list c <> []) && (k =? 0)) eqn:Efb.
  { apply andb_prop in Efb as [E1 E2]. apply bool_decide_eq_true in E1. apply Z.eqb_eq in E2.
    split; [done|]. right; left. auto. }
  split; [done|]. right; right. split; [done|]. cbn [Score]. split.
  - apply andb_false_iff in Efb as [E1|E2].
    + left. apply bool_decide_eq_false in E1. destruct (decide (skill_list c = [])); tauto.
    + right. apply Z.eqb_neq in E2. lia.
  - unfold mul64. rewrite (wrap64_id (k * 50)) by int64_lia.
    destruct (Z.ltb_spec 0 k); unfold add64; [rewrite (wrap64_id (100 + k * 50)) by int64_lia|];
      rewrite wrap64_id by int64_lia; lia.
Qed.

Lemma MatchTask_positive i c u : sane c -> 0 < Score (MatchTask i c u) <-> available c u i.
Proof.
  intros Hs. destruct (MatchTask_cases i c u Hs) as [_ [[? ->]|[(? & _ & _ & ->)|(? & _ & ->)]]];
    [split; [lia|done]|split; [done|lia]|].
  pose proof (countSkillMatches_bounds (Labels i) (skill_list c)).
  pose proof (priority_bonus_bounds (Priority i)). split; [done|lia].
Qed.

Lemma match_less_sw : strict_weak match_less.
Proof.
  unfold match_less. split_and!.
  - intros x. rewrite !Z.eqb_refl. apply str_lt_irrefl.
  - intros x y z.
    destruct (Z.eqb_spec (Score x) (Score y)), (Z.eqb_spec (Score y) (Score z)), (Z.eqb_spec (Score x) (Score z));
      cbn [negb]; rewrite ?Z.ltb_lt; try lia.
    destruct (Z.eqb_spec (Priority (Issue x)) (Priority (Issue y))),
      (Z.eqb_spec (Priority (Issue y)) (Priority (Issue z))),
      (Z.eqb_spec (Priority (Issue x)) (Priority (Issue z))); cbn [negb]; rewrite ?Z.ltb_lt; try lia.
    apply str_lt_trans.
  - intros x y z.
    destruct (Z.eqb_spec (Score x) (Score y)), (Z.eqb_spec (Score y) (Score z)), (Z.eqb_spec (Score x) (Score z));
      cbn [negb]; rewrite ?Z.ltb_ge; try lia.
    destruct (Z.eqb_spec (Priority (Issue x)) (Priority (Issue y))),
      (Z.eqb_spec (Priority (Issue y)) (Priority (Issue z))),
      (Z.eqb_spec (Priority (Issue x)) (Priority (Issue z))); cbn [negb]; rewrite ?Z.ltb_ge; try lia.
    apply str_lt_negtrans.
Qed.

Lemma match_less_connex x y :
  match_less x y = false -> ID (Issue x) <> ID (Issue y) -> match_less y x = true.
Proof.
  unfold match_less. rewrite (Z.eqb_sym (Score y)), (Z.eqb_sym (Priority (Issue y))).
  destruct (Z.eqb_spec (Score x) (Score y)); cbn [negb]; rewrite ?Z.ltb_ge, ?Z.ltb_lt; [|lia].
  destruct (Z.eqb_spec (Priority (Issue x)) (Priority (Issue y))); cbn [negb]; rewrite ?Z.ltb_ge, ?Z.ltb_lt; [|lia].
  intros E Hn. destruct (str_lt (ID (Issue y)) (ID (Issue x))) eqn:E'; [done|].
  by destruct Hn; apply str_lt_total.
Qed.

Section selection_facts.
Context {sorter : SliceSort}.

Lemma matches_of_elem issues c u m :
  sane c -> m ∈ matches_of issues c u <-> exists i, i ∈ issues /\ available c u i /\ m = MatchTask i c u.
Proof.
  intros Hs. unfold matches_of. rewrite list_elem_of_filter, list_elem_of_fmap. split.
  - intros [Hp (i & -> & Hi)]. exists i. by rewrite MatchTask_positive in Hp.
  - intros (i & Hi & Ha & ->). rewrite MatchTask_positive by done. eauto.
Qed.

(** C39. The choice of a task: nothing is chosen exactly when no issue is
    available to the role (workable, unblocked, passing its filter and its
    priority cap); otherwise the task chosen is available and better than every
    other available issue: a higher score, or the same score and a smaller
    priority number, or both equal and a smaller identifier. The choice does not
    depend on how [sort.Slice] orders equal elements. *)
Theorem SelectBestTask_best issues c u :
  sane c ->
  match SelectBestTask issues c u with
  | None => forall i, i ∈ issues -> ~ available c u i
  | Some m =>
      exists i, m = MatchTask i c u /\ i ∈ issues /\ available c u i /\
      forall j, j ∈ issues -> available c u j -> ID j <> ID i ->
        let mj := MatchTask j c u in
        Score mj < Score m \/
        (Score mj = Score m /\ Priority i < Priority j) \/
        (Score mj = Score m /\ Priority i = Priority j /\ str_lt (ID i) (ID j) = true)
  end.
Proof.
  intros Hs. unfold SelectBestTask. pose proof (matches_of_elem issues c u) as Hel.
  destruct (matches_of issues c u) as [|m0 ms] eqn:E.
  { intros i Hi Ha. assert (MatchTask i c u ∈ []) as Hin by (apply Hel; eauto). inversion Hin. }
  rewrite <- E. rewrite <- E in Hel.
  destruct (sort_slice match_less (matches_of issues c u)) as [|m ms'] eqn:Es.
  { apply sort_slice_nil in Es. congruence. }
  destruct (sort_slice_head_min match_less _ _ _ match_less_sw Es) as [Hin Hmin]. cbn [head].
  apply Hel in Hin as (i & Hi & Ha & ->); [|done]. exists i.
  do 3 (split; [done|]). intros j Hj Haj Hne. set (mj := MatchTask j c u). assert (mj ∈ matches_of issues c u) as Hmj by (apply Hel; eauto).
  specialize (Hmin _ Hmj). destruct (MatchTask_cases i c u Hs) as [Ii _].
  destruct (MatchTask_cases j c u Hs) as [Ij _].
  assert (match_less (MatchTask i c u) mj = true) as Hless.
  { apply match_less_connex; [done|]. unfold mj. by rewrite Ii, Ij. }
  unfold match_less in Hless. unfold mj in *. rewrite Ii, Ij in Hless.
  destruct (Z.eqb_spec (Score (MatchTask i c u)) (Score (MatchTask j c u))); cbn [negb] in Hless;
    [|left; by apply Z.ltb_lt].
  destruct (Z.eqb_spec (Priority i) (Priority j)); cbn [negb] in Hless;
    [right; right; auto|right; left; split; [done|by apply Z.ltb_lt]].
Qed.

(** Skills come first: among issues available to a role, one that matches
    more of the role's skills has the higher score whatever the priorities. *)
Theorem skills_dominate_priority i j c u :
  sane c -> available c u i -> available c u j ->
  countSkillMatches (Labels j) (skill_list c) < countSkillMatches (Labels i) (skill_list c) ->
  Score (MatchTask j c u) < Score (MatchTask i c u).
Proof.
  intros Hs Hi Hj Hk.
  pose proof (countSkillMatches_bounds (Labels i) (skill_list c)).
  pose proof (countSkillMatches_bounds (Labels j) (skill_list c)).
  pose proof (priority_bonus_bounds (Priority i)). pose proof (priority_bonus_bounds (Priority j)).
  destruct (MatchTask_cases i c u Hs) as [_ [[? _]|[(_ & _ & E & ->)|(_ & _ & ->)]]]; [done|lia|].
  destruct (MatchTask_cases j c u Hs) as [_ [[? _]|[(_ & _ & E & ->)|(_ & _ & ->)]]]; [done|lia..].
Qed.

Lemma select_some issues c u (p : BdIssue -> bool) :
  sane c -> (forall i, available c u i <-> p i = true) ->
  (match SelectBestTask issues c u with Some _ => true | None => false end) =
    (0 <? Z.of_nat (length (filter (fun i => p i = true) issues))).
Proof.
  intros Hs Hp. unfold SelectBestTask. pose proof (matches_of_elem issues c u) as Hel.
  destruct (matches_of issues c u) as [|m ms] eqn:E.
  - symmetry. apply Z.ltb_ge. destruct (filter _ issues) as [|i l] eqn:Ef; [simpl; lia|].
    assert (i ∈ filter (fun i => p i = true) issues) as Hi by (rewrite Ef; by left).
    apply list_elem_of_filter in Hi as [Hpi Hi]. apply Hp in Hpi.
    assert (MatchTask i c u ∈ []) as Hin by (apply Hel; eauto). inversion Hin.
  - assert (m ∈ m :: ms) as Hin by (by left). apply Hel in Hin as (i & Hi & Ha & ->); [|done].
    apply Hp in Ha. destruct (sort_slice match_less _) eqn:Es.
    { by apply sort_slice_nil in Es. }
    cbn [head]. symmetry. apply Z.ltb_lt.
    assert (i ∈ filter (fun i => p i = true) issues) as Hf by (by apply list_elem_of_filter).
    destruct (filter _ issues); [inversion Hf|simpl; lia].
Qed.

(** A role constrained by its task filter alone is given the check of the
    built-in modes: for every state of the tracker, and its failures, the
    router's check and the corresponding [HasAvailable...] function run the same
    commands and give the same answer; an unknown filter is [has_design]. A
    role without constraints gets no check of its own. *)
Theorem router_check_equivalence {W} (BD : list string -> W -> W * res string) parse rc ae parentID :
  slice_len (rc_Skills rc) = 0%nat -> rc_MaxPriority rc = None ->
  let default := if bool_decide (rc_TaskFilter rc = "needs_plan"%string)
                 then HasAvailablePlanningTasks BD parse parentID
                 else if bool_decide (rc_TaskFilter rc = "any"%string)
                 then HasAnyAvailableTasks BD parse parentID
                 else HasAvailableImplementationTasks BD parse parentID in
  if bool_decide (rc_TaskFilter rc = ""%string)
  then BuildRouterTaskCheck BD parse rc ae parentID = None
  else exists check, BuildRouterTaskCheck BD parse rc ae parentID = Some check /\
       forall w, check w = default w.
Proof.
  intros Hsk Hmp default. unfold BuildRouterTaskCheck.
  change (Skills (MergeRoleConstraints rc ae)) with (rc_Skills rc).
  change (MaxPriority (MergeRoleConstraints rc ae)) with (rc_MaxPriority rc).
  change (TaskFilter (MergeRoleConstraints rc ae)) with (rc_TaskFilter rc).
  rewrite !(bool_decide_true (_ = 0%nat)), (bool_decide_true (rc_MaxPriority rc = None)) by done.
  cbn [andb]. case_bool_decide as Hf; [done|]. eexists. split; [done|]. intros w.
  set (c := MergeRoleConstraints rc ae).
  assert (sane c) as Hs.
  { unfold sane, skill_list. change (Skills c) with (rc_Skills rc).
    unfold slice_len in Hsk. rewrite Hsk. lia. }
  assert (forall u i, available c u i <->
    (if bool_decide (rc_TaskFilter rc = "needs_plan"%string) then IsAvailableForPlanning i u
     else if bool_decide (rc_TaskFilter rc = "any"%string) then IsAvailableForAny i u
     else IsAvailableForImplementation i u) = true) as Hav.
  { intros u i. unfold available. change (MaxPriority c) with (rc_MaxPriority rc). rewrite Hmp. tauto. }
  subst default. unfold HasAvailablePlanningTasks, HasAnyAvailableTasks, HasAvailableImplementationTasks,
    GetAvailablePlanningTasks, GetAvailableImplementationTasks, GetAnyAvailableTasks, non_empty, with_lists.
  repeat case_bool_decide; destruct (fetchReadyIssues BD parse parentID w) as [w1 [issues|e]]; try done;
    destruct (fetchUnclosedIssueIDs BD parse w1) as [w2 [u|e]]; try done;
    do 2 f_equal; by apply (select_some issues c u (fun i => _ i u)).
Qed.
End selection_facts.

(** ** Adaptive polling. The factor 1.5 is exact on the intervals in use. *)
Record adaptivePoller := mkPoller { minInterval : Z; maxInterval : Z; currentInterval : Z }.
Definition millisecond : Z := 1000000.
Definition newAdaptivePoller : adaptivePoller :=
  mkPoller (100 * millisecond) (1000 * millisecond) (200 * millisecond).
Definition hadActivity (p : adaptivePoller) : adaptivePoller :=
  mkPoller (minInterval p) (maxInterval p) (minInterval p).
Definition hadNoActivity (p : adaptivePoller) : adaptivePoller :=
  let newInterval := Z.quot (currentInterval p * 3) 2 in
  mkPoller (minInterval p) (maxInterval p)
    (if maxInterval p <? newInterval then maxInterval p else newInterval).

Definition poll (p : adaptivePoller) (activity : bool) : adaptivePoller :=
  if activity then hadActivity p else hadNoActivity p.

Definition poller_ok (p : adaptivePoller) : Prop :=
  minInterval p = 100 * millisecond /\ maxInterval p = 1000 * millisecond /\
  minInterval p <= currentInterval p <= maxInterval p.

Lemma poll_ok p a : poller_ok p -> poller_ok (poll p a).
Proof.
  intros (Hmin & Hmax & H). unfold poller_ok, poll, hadActivity, hadNoActivity, millisecond in *.
  rewrite Hmin, Hmax in *. destruct a; cbn [currentInterval minInterval maxInterval];
    [rewrite ?Hmin, ?Hmax; lia|].
  rewrite ?Hmin, ?Hmax, Z.quot_div_nonneg by lia.
  pose proof (Z.div_mod (currentInterval p * 3) 2 ltac:(lia)).
  pose proof (Z.mod_pos_bound (currentInterval p * 3) 2 ltac:(lia)).
  destruct (Z.ltb_spec (1000 * 1000000) (currentInterval p * 3 / 2)); lia.
Qed.

Lemma idle_growth p b :
  poller_ok p -> 0 <= b -> 2 * b <= 3 * currentInterval p -> b <= maxInterval p ->
  b <= currentInterval (hadNoActivity p).
Proof.
  intros (Hmin & Hmax & H) Hb0 Hb Hbm. unfold hadNoActivity, millisecond in *. cbn [currentInterval].
  rewrite Hmin, Hmax in *. rewrite Z.quot_div_nonneg by lia.
  pose proof (Z.div_mod (currentInterval p * 3) 2 ltac:(lia)).
  pose proof (Z.mod_pos_bound (currentInterval p * 3) 2 ltac:(lia)).
  destruct (Z.ltb_spec (1000 * 1000000) (currentInterval p * 3 / 2)); lia.
Qed.

Lemma polls_ok h p : poller_ok p -> poller_ok (foldl poll p h).
Proof. revert p; induction h as [|a h IH]; intros p H; [done|]. apply IH. by apply poll_ok. Qed.

(** Polling, after any history of active and idle ticks: the interval stays
    between 100 ms and 1 s, activity brings it back to 100 ms at once, and six
    idle ticks in a row bring it to 1 s. *)
Theorem poller_adapts h :
  let p := foldl poll newAdaptivePoller h in
  100 * millisecond <= currentInterval p <= 1000 * millisecond /\
  currentInterval (poll p true) = 100 * millisecond /\
  currentInterval (foldl poll p (replicate 6 false)) = 1000 * millisecond.
Proof.
  intros p. assert (poller_ok p) as Hp by (apply polls_ok; vm_compute; repeat split; congruence).
  pose proof Hp as (Hmin & Hmax & H). rewrite Hmin, Hmax in H. split_and!; [lia..|exact Hmin|].
  cbn [replicate foldl poll].
  assert (forall q a b, poller_ok q -> a <= currentInterval q -> 0 <= b -> 2 * b <= 3 * a ->
    b <= 1000 * millisecond -> poller_ok (hadNoActivity q) /\ b <= currentInterval (hadNoActivity q)) as Hstep.
  { intros q a b Hq Ha Hb0 Hab Hbm. split; [exact (poll_ok q false Hq)|].
    apply idle_growth; [done|done|lia|]. by rewrite (proj1 (proj2 Hq)). }
  unfold millisecond in *.
  destruct (Hstep p 100000000 150000000) as [H1 L1]; [done|lia..|].
  destruct (Hstep _ _ 225000000 H1 L1) as [H2 L2]; [lia..|].
  destruct (Hstep _ _ 337500000 H2 L2) as [H3 L3]; [lia..|].
  destruct (Hstep _ _ 506250000 H3 L3) as [H4 L4]; [lia..|].
  destruct (Hstep _ _ 759375000 H4 L4) as [H5 L5]; [lia..|].
  destruct (Hstep _ _ 1000000000 H5 L5) as [(E1 & E2 & H6) L6]; [lia..|].
  rewrite E2 in H6. unfold millisecond in *. lia.
Qed.

(** ** Witnesses *)
Section witnesses.
Local Open Scope string_scope.
Local Existing Instance InsertionSort.insertion_SliceSort.
Definition issue1 : BdIssue := mkIssue "bd-1" "open" 1 "task" "design" ["go"; "api"] [].
Definition issue2 : BdIssue := mkIssue "bd-2" "open" 0 "task" "design" ["go"] [].
Definition go_role : RoleConstraints :=
  mkConstraints "" "" None (Some ["go"; "api"]) (Some 2) false None None.
Definition chosen : option TaskMatch := SelectBestTask [issue2; issue1] go_role ∅.

Lemma SelectBestTask_best_witness : exists i, chosen = Some (MatchTask i go_role ∅) /\ ID i = "bd-1".
Proof.
  assert (sane go_role) as Hs by (vm_compute; congruence).
  pose proof (SelectBestTask_best [issue2; issue1] go_role ∅ Hs) as X.
  change (SelectBestTask [issue2; issue1] go_role ∅) with chosen in X.
  destruct chosen as [m|] eqn:E; [|vm_compute in E; discriminate].
  destruct X as (i & Hm & _). exists i. split; [by rewrite Hm|].
  rewrite <- (proj1 (MatchTask_cases i go_role ∅ Hs)), <- Hm. vm_compute in E. by injection E as <-.
Defined.

Lemma go_role_available i : i = issue1 \/ i = issue2 -> available go_role ∅ i.
Proof. intros [->| ->]; vm_compute; split; congruence. Qed.

Lemma skills_dominate_priority_witness : Score (MatchTask issue2 go_role ∅) < Score (MatchTask issue1 go_role ∅).
Proof.
  apply skills_dominate_priority; [vm_compute; congruence|apply go_role_available; auto..|vm_compute; reflexivity].
Defined.

Lemma router_check_equivalence_witness :
  BuildRouterTaskCheck (fun args (w : unit) => (w, Ok ""%string)) (fun _ => Ok []) (empty_role "")
    (mkAgent "w" "task" true "" [] None) "" = None.
Proof.
  exact (router_check_equivalence (fun args (w : unit) => (w, Ok ""%string)) (fun _ => Ok [])
    (empty_role "") (mkAgent "w" "task" true "" [] None) "" eq_refl eq_refl).
Defined.
End witnesses.

End Router.
