(* ===== verification/AgentErr.v ===== *)
(** * AgentErr: classification of agent failures, [internal/agenterr]

    The error classes, the regular expressions of the three back ends with a
    matcher for them, the classification of a log tail, and the fallback on the
    exit code. Logs are byte strings of ASCII text. *)
From S2P Require Import Prelude.
Local Open Scope Z_scope.

(** ** Regular expressions: the part of [regexp] the patterns use *)
Module Regex.

Inductive re :=
| Eps
| Chr (p : ascii -> bool)
| Cat (r1 r2 : re)
| Alt (r1 r2 : re)
| Star (r : re)
| WordB.

(** A position in a text: the character before it, and the rest. *)
Abbreviation pos := (option ascii * list ascii)%type.

Definition in_range (lo hi : nat) (c : ascii) : bool :=
  (lo <=? nat_of_ascii c)%nat && (nat_of_ascii c <=? hi)%nat.
Definition is_digit : ascii -> bool := in_range 48 57.
Definition is_upper : ascii -> bool := in_range 65 90.
Definition is_lower : ascii -> bool := in_range 97 122.
Definition is_word (c : ascii) : bool :=
  is_digit c || is_upper c || is_lower c || bool_decide (c = "_"%char).
Definition is_space (c : ascii) : bool :=
  bool_decide (c = " "%char) || bool_decide (c = "009"%char) || bool_decide (c = "010"%char) ||
  bool_decide (c = "012"%char) || bool_decide (c = "013"%char).

Definition lower (c : ascii) : ascii := if is_upper c then ascii_of_nat (nat_of_ascii c + 32) else c.

(** [(?i)] literals, [.], classes and the derived operators. *)
Definition lit1 (c : ascii) : re := Chr (fun a => bool_decide (lower a = lower c)).
Fixpoint lit (s : string) : re :=
  match s with EmptyString => Eps | String c s' => Cat (lit1 c) (lit s') end.
Definition dot : re := Chr (fun a => negb (bool_decide (a = "010"%char))).
Definition opt (r : re) : re := Alt r Eps.
Definition plus (r : re) : re := Cat r (Star r).

Definition at_boundary (p : pos) : bool :=
  let before := match p.1 with Some c => is_word c | None => false end in
  let after := match p.2 with c :: _ => is_word c | [] => false end in
  xorb before after.

(** What the expressions mean: [matches r p q] when [r] matches from [p] to [q]. *)
Inductive matches : re -> pos -> pos -> Prop :=
| m_eps p : matches Eps p p
| m_chr f b c l : f c = true -> matches (Chr f) (b, c :: l) (Some c, l)
| m_cat r1 r2 p q q' : matches r1 p q -> matches r2 q q' -> matches (Cat r1 r2) p q'
| m_alt_l r1 r2 p q : matches r1 p q -> matches (Alt r1 r2) p q
| m_alt_r r1 r2 p q : matches r2 p q -> matches (Alt r1 r2) p q
| m_star_nil r p : matches (Star r) p p
| m_star_cons r p q q' : matches r p q -> matches (Star r) q q' -> matches (Star r) p q'
| m_wordb p : at_boundary p = true -> matches WordB p p.

(** All the positions a match can end at. A round of a star that consumes
    nothing is not repeated, so the rest's length bounds the rounds. *)
Fixpoint star_ends (ends : pos -> list pos) (fuel : nat) (p : pos) : list pos :=
  p :: match fuel with
       | O => []
       | S fuel' =>
           q ← filter (fun q => (length q.2 < length p.2)%nat) (ends p);
           star_ends ends fuel' q
       end.

Fixpoint ends (r : re) (p : pos) : list pos :=
  match r with
  | Eps => [p]
  | Chr f => match p.2 with c :: l => if f c then [(Some c, l)] else [] | [] => [] end
  | Cat r1 r2 => q ← ends r1 p; ends r2 q
  | Alt r1 r2 => ends r1 p ++ ends r2 p
  | Star r => star_ends (ends r) (length p.2) p
  | WordB => if at_boundary p then [p] else []
  end.

(** Positions of a text, from the start. *)
Fixpoint positions (b : option ascii) (l : list ascii) : list pos :=
  (b, l) :: match l with [] => [] | c :: l' => positions (Some c) l' end.

(** [MatchString]: an unanchored search. *)
Definition MatchString (r : re) (s : string) : bool :=
  existsb (fun p => negb (bool_decide (ends r p = []))) (positions None (String.list_ascii_of_string s)).

Lemma matches_suffix r p q : matches r p q -> exists l, p.2 = l ++ q.2 /\ (l = [] -> p = q).
Proof.
  induction 1 as [p|f b c l Hf|r1 r2 p q q' _ (l1 & E1 & H1) _ (l2 & E2 & H2)|r1 r2 p q _ IH|r1 r2 p q _ IH
    |r p|r p q q' _ (l1 & E1 & H1) _ (l2 & E2 & H2)|p Hb]; try done; try (by exists []).
  - by exists [c].
  - exists (l1 ++ l2). rewrite <- app_assoc, <- E2. split; [done|].
    intros [? ?]%app_eq_nil. rewrite H1, H2; done.
  - exists (l1 ++ l2). rewrite <- app_assoc, <- E2. split; [done|].
    intros [? ?]%app_eq_nil. rewrite H1, H2; done.
Qed.

Lemma matches_shorter r p q : matches r p q -> (length q.2 < length p.2)%nat \/ p = q.
Proof.
  intros H. destruct (matches_suffix r p q H) as ([|c l] & E & Hnil); [right; auto|left].
  rewrite E. simpl. rewrite length_app. lia.
Qed.

Lemma star_ends_sound r fuel p q :
  (forall p q, q ∈ ends r p -> matches r p q) -> q ∈ star_ends (ends r) fuel p -> matches (Star r) p q.
Proof.
  intros Hs. revert p; induction fuel as [|fuel IH]; intros p Hq; simpl in Hq.
  { apply list_elem_of_singleton in Hq as ->. constructor. }
  apply elem_of_cons in Hq as [->|Hq]; [constructor|].
  apply list_elem_of_bind in Hq as (q1 & Hq & Hin). apply list_elem_of_filter in Hin as [_ Hin].
  eapply m_star_cons; eauto.
Qed.

Lemma star_ends_complete r p q :
  (forall p q, matches r p q -> q ∈ ends r p) -> matches (Star r) p q ->
  forall fuel, (length p.2 <= fuel)%nat -> q ∈ star_ends (ends r) fuel p.
Proof.
  intros Hc H. remember (Star r) as r' eqn:Er.
  induction H as [| | | | |r0 p|r0 p q1 q Hm _ Hst IH|]; simplify_eq; intros fuel Hf.
  { destruct fuel; by left. }
  destruct (matches_shorter _ _ _ Hm) as [Hlt|<-]; [|by apply IH].
  destruct fuel as [|fuel]; [lia|]. simpl. right. apply list_elem_of_bind. exists q1.
  split; [apply IH; [done|lia]|]. apply list_elem_of_filter. auto.
Qed.

(** The matcher is exact. *)
Lemma ends_spec r p q : q ∈ ends r p <-> matches r p q.
Proof.
  revert p q; induction r as [|f|r1 IH1 r2 IH2|r1 IH1 r2 IH2|r IH|]; intros p q; simpl.
  - rewrite list_elem_of_singleton. split; [intros ->; constructor|by inversion 1].
  - destruct p as [b [|c l]]; simpl.
    + split; [by inversion 1|by inversion 1].
    + destruct (f c) eqn:E.
      * rewrite list_elem_of_singleton. split; [intros ->; by constructor|by inversion 1].
      * split; [by inversion 1|]. inversion 1; congruence.
  - rewrite list_elem_of_bind. split.
    + intros (q1 & H2 & H1). apply IH1 in H1. apply IH2 in H2. by econstructor.
    + inversion 1; subst. eexists. rewrite IH1, IH2. eauto.
  - rewrite elem_of_app, IH1, IH2. split; [intros [?|?]; eauto using matches|inversion 1; auto].
  - split; intros H; [eapply star_ends_sound; [|exact H]|apply star_ends_complete; [|done|done]];
      intros; by apply IH.
  - destruct (at_boundary p) eqn:E.
    + rewrite list_elem_of_singleton. split; [intros ->; by constructor|by inversion 1].
    + split; [by inversion 1|]. inversion 1; congruence.
Qed.

(** The position after a prefix. *)
Definition last_char (b : option ascii) (l : list ascii) : option ascii :=
  match last l with Some c => Some c | None => b end.

Lemma positions_elem b l p :
  p ∈ positions b l <-> exists l1 l2, l = l1 ++ l2 /\ p = (last_char b l1, l2).
Proof.
  revert b p; induction l as [|c l IH]; intros b p; simpl.
  - rewrite list_elem_of_singleton. split; [intros ->; by exists [], []|].
    intros (l1 & l2 & E & ->). symmetry in E. apply app_eq_nil in E as [-> ->]. done.
  - rewrite elem_of_cons, IH. split.
    + intros [->|(l1 & l2 & -> & ->)]; [by exists [], (c :: l)|].
      exists (c :: l1), l2. split; [done|]. unfold last_char. rewrite last_cons. by destruct (last l1).
    + intros ([|c' l1] & l2 & E & ->); simplify_eq/=; [by left|]. right. exists l1, l2. split; [done|].
      unfold last_char. rewrite last_cons. by destruct (last l1).
Qed.

(** The search is exact: [MatchString] answers true precisely when the text
    splits into a part before, a part that the expression matches (with the
    word boundaries seen in their context), and a part after. In particular it
    terminates on every expression, stars of empty matches included. *)
Theorem MatchString_spec r s :
  MatchString r s = true <->
  exists before rest after, String.list_ascii_of_string s = before ++ rest /\
    matches r (last_char None before, rest) after.
Proof.
  unfold MatchString. rewrite existsb_exists. split.
  - intros (p & Hin & Hne). apply list_elem_of_In, positions_elem in Hin as (l1 & l2 & -> & ->).
    destruct (ends r (last_char None l1, l2)) as [|q l] eqn:E; [done|].
    exists l1, l2, q. split; [done|]. apply ends_spec. rewrite E. by left.
  - intros (l1 & l2 & q & E & Hm). exists (last_char None l1, l2). split.
    + apply list_elem_of_In, positions_elem. eauto.
    + apply ends_spec in Hm. destruct (ends r (last_char None l1, l2)); [inversion Hm|done].
Qed.
End Regex.

Module AgentErr.
Import Regex.

(** ** Classes ([class.go]) *)
Inductive ErrorClass :=
| RateLimited | AuthFailure | BillingError | ModelNotFound | ContextOverflow
| Timeout | Transient | NoWork | Unknown.

#[export] Instance ErrorClass_eq_dec : EqDecision ErrorClass.
Proof. solve_decision. Defined.

Definition ErrorClass_String (c : ErrorClass) : string :=
  match c with
  | RateLimited => "RateLimited" | AuthFailure => "AuthFailure" | BillingError => "BillingError"
  | ModelNotFound => "ModelNotFound" | ContextOverflow => "ContextOverflow" | Timeout => "Timeout"
  | Transient => "Transient" | NoWork => "NoWork" | Unknown => "Unknown"
  end.
Definition IsRetryable (c : ErrorClass) : bool :=
  match c with RateLimited | Timeout | Transient => true | _ => false end.
Definition IsFatal (c : ErrorClass) : bool :=
  match c with AuthFailure | BillingError => true | _ => false end.

(** [Timestamp] is not used by the program's decisions. *)
Record AgentError := mkAgentError {
  Class : ErrorClass;
  ExitCode : Z;
  Message : string;
  RawOutput : string;
  err_Backend : string;
  RetryAfter : Z;
}.

Record classifyResult := mkResult { cr_Class : ErrorClass; cr_Message : string; cr_RetryAfter : Z }.

(** ** Patterns, as in the source, most specific first *)
Record pattern := mkPat { pat_re : re; pat_class : ErrorClass; pat_msg : string }.

Infix "⋅" := Cat (at level 40, left associativity).
Infix "∥" := Alt (at level 50, left associativity).
Local Open Scope string_scope.

Definition word (s : string) : re := WordB ⋅ lit s ⋅ WordB.
Definition q_dot : re := opt dot.
Definition any : re := Star dot.
Definition code50x : re :=
  WordB ⋅ lit "50" ⋅ Chr (fun c => bool_decide (c = "0"%char) || bool_decide (c = "2"%char) ||
                                   bool_decide (c = "3"%char)) ⋅ WordB.

Definition claudePatterns : list pattern := [
  mkPat (lit "rate" ⋅ q_dot ⋅ lit "limit" ∥ lit "too many requests") RateLimited "rate limit exceeded";
  mkPat (word "429") RateLimited "rate limit exceeded (429)";
  mkPat (lit "overloaded_error") RateLimited "API overloaded (529)";
  mkPat (lit "invalid" ⋅ q_dot ⋅ lit "api" ⋅ q_dot ⋅ lit "key" ∥ lit "authentication" ⋅ q_dot ⋅ lit "failed")
    AuthFailure "invalid API key";
  mkPat (word "401" ∥ lit "unauthorized") AuthFailure "authentication failed (401)";
  mkPat (lit "ANTHROPIC_API_KEY") AuthFailure "ANTHROPIC_API_KEY not set or invalid";
  mkPat (word "402" ∥ lit "payment" ⋅ q_dot ⋅ lit "required" ∥ lit "insufficient" ⋅ q_dot ⋅ lit "credits"
         ∥ lit "quota" ⋅ q_dot ⋅ lit "exceeded") BillingError "billing error";
  mkPat (lit "billing") BillingError "billing error";
  mkPat (lit "model" ⋅ q_dot ⋅ lit "not" ⋅ q_dot ⋅ lit "found" ∥ lit "model" ⋅ any ⋅ lit "does not exist"
         ∥ lit "invalid" ⋅ q_dot ⋅ lit "model") ModelNotFound "model not found";
  mkPat (word "404" ⋅ any ⋅ lit "model") ModelNotFound "model not found (404)";
  mkPat (lit "context" ⋅ q_dot ⋅ lit "length" ⋅ q_dot ⋅ lit "exceeded" ∥ lit "max" ⋅ q_dot ⋅ lit "tokens"
         ∥ lit "token" ⋅ q_dot ⋅ lit "limit" ∥ lit "context" ⋅ q_dot ⋅ lit "window")
    ContextOverflow "context length exceeded";
  mkPat (lit "timeout" ∥ lit "ETIMEDOUT" ∥ lit "ECONNRESET"
         ∥ lit "connection" ⋅ q_dot ⋅ lit "time" ⋅ opt (lit "d") ⋅ q_dot ⋅ lit "out")
    Timeout "connection timeout";
  mkPat (word "529" ∥ lit "internal" ⋅ q_dot ⋅ lit "server" ⋅ q_dot ⋅ lit "error"
         ∥ lit "service" ⋅ q_dot ⋅ lit "unavailable") Transient "server error";
  mkPat code50x Transient "server error"].

Definition codexPatterns : list pattern := [
  mkPat (lit "rate" ⋅ q_dot ⋅ lit "limit" ∥ lit "too many requests" ∥ lit "tokens per min")
    RateLimited "rate limit exceeded";
  mkPat (word "429") RateLimited "rate limit exceeded (429)";
  mkPat (lit "invalid" ⋅ q_dot ⋅ lit "api" ⋅ q_dot ⋅ lit "key"
         ∥ lit "incorrect" ⋅ q_dot ⋅ lit "api" ⋅ q_dot ⋅ lit "key") AuthFailure "invalid API key";
  mkPat (word "401" ∥ lit "unauthorized") AuthFailure "authentication failed (401)";
  mkPat (lit "OPENAI_API_KEY") AuthFailure "OPENAI_API_KEY not set or invalid";
  mkPat (word "402" ∥ lit "insufficient_quota" ∥ lit "exceeded" ⋅ any ⋅ lit "quota")
    BillingError "billing error";
  mkPat (lit "billing") BillingError "billing error";
  mkPat (lit "model" ⋅ any ⋅ lit "not found" ∥ lit "does not exist" ∥ lit "model_not_found")
    ModelNotFound "model not found";
  mkPat (lit "invalid" ⋅ any ⋅ lit "model") ModelNotFound "invalid model";
  mkPat (lit "context_length_exceeded" ∥ lit "maximum context length" ∥ lit "max" ⋅ any ⋅ lit "tokens")
    ContextOverflow "context length exceeded";
  mkPat (lit "timeout" ∥ lit "ETIMEDOUT" ∥ lit "ECONNRESET"
         ∥ lit "time" ⋅ opt (lit "d") ⋅ q_dot ⋅ lit "out") Timeout "connection timeout";
  mkPat (lit "server_error" ∥ lit "internal" ⋅ q_dot ⋅ lit "error" ∥ lit "overloaded") Transient "server error";
  mkPat code50x Transient "server error"].

Definition openCodePatterns : list pattern := [
  mkPat (lit "rate" ⋅ q_dot ⋅ lit "limit" ∥ lit "too many requests") RateLimited "rate limit exceeded";
  mkPat (word "429") RateLimited "rate limit exceeded (429)";
  mkPat (word "401" ∥ lit "unauthorized" ∥ lit "invalid" ⋅ any ⋅ lit "key"
         ∥ lit "invalid" ⋅ q_dot ⋅ lit "api" ⋅ q_dot ⋅ lit "key") AuthFailure "authentication failed";
  mkPat (word "402" ∥ lit "billing" ∥ lit "payment" ∥ lit "quota" ∥ lit "credits")
    BillingError "billing error";
  mkPat (lit "model" ⋅ q_dot ⋅ lit "not" ⋅ q_dot ⋅ lit "found" ∥ lit "model" ⋅ any ⋅ lit "not" ⋅ any ⋅ lit "exist")
    ModelNotFound "model not found";
  mkPat (word "404" ⋅ any ⋅ lit "model") ModelNotFound "model not found (404)";
  mkPat (lit "context" ⋅ q_dot ⋅ lit "length" ∥ lit "token" ⋅ q_dot ⋅ lit "limit" ∥ lit "too" ⋅ q_dot ⋅ lit "long")
    ContextOverflow "context length exceeded";
  mkPat (lit "timeout" ∥ lit "ETIMEDOUT" ∥ lit "ECONNRESET"
         ∥ lit "time" ⋅ opt (lit "d") ⋅ q_dot ⋅ lit "out") Timeout "connection timeout";
  mkPat (lit "server" ⋅ q_dot ⋅ lit "error" ∥ lit "internal" ⋅ q_dot ⋅ lit "error") Transient "server error";
  mkPat code50x Transient "server error"].
Local Close Scope string_scope.

(** [retry.?after[:\s]+(\d+)]: the digits captured by the leftmost match. *)
Definition retry_prefix : re :=
  lit "retry" ⋅ q_dot ⋅ lit "after" ⋅ plus (Chr (fun c => bool_decide (c = ":"%char) || is_space c)).

Fixpoint take_digits (l : list ascii) : list ascii :=
  match l with
  | c :: l' => if is_digit c then c :: take_digits l' else []
  | [] => []
  end.

Fixpoint first_digits (ps : list pos) : option (list ascii) :=
  match ps with
  | [] => None
  | p :: ps' => match take_digits p.2 with [] => first_digits ps' | ds => Some ds end
  end.

Fixpoint capture (ps : list pos) : option (list ascii) :=
  match ps with
  | [] => None
  | p :: ps' => match first_digits (ends retry_prefix p) with
                | Some ds => Some ds
                | None => capture ps'
                end
  end.

Definition retry_after (logTail : string) : Z :=
  match capture (positions None (String.list_ascii_of_string logTail)) with
  | Some ds =>
      match atoi (String.string_of_list_ascii ds) with
      | Some secs => mul64 secs 1000000000
      | None => 0
      end
  | None => 0
  end.

(** The loop of [classifyClaude], [classifyCodex] and [classifyOpenCode]. *)
Fixpoint classify_with (pats : list pattern) (logTail : string) : option classifyResult :=
  match pats with
  | [] => None
  | p :: pats' =>
      if MatchString (pat_re p) logTail
      then Some (mkResult (pat_class p) (pat_msg p)
             (if bool_decide (pat_class p = RateLimited) then retry_after logTail else 0))
      else classify_with pats' logTail
  end.

Definition classify_backend (pats : list pattern) (logTail : string) : option classifyResult :=
  if bool_decide (logTail = ""%string) then None else classify_with pats logTail.
Definition classifyClaude := classify_backend claudePatterns.
Definition classifyCodex := classify_backend codexPatterns.
Definition classifyOpenCode := classify_backend openCodePatterns.

Definition classifyByExitCode (exitCode : Z) : ErrorClass :=
  if exitCode =? 137 then Timeout else if exitCode =? 143 then Transient else Unknown.
Definition classifyByExitCodeMessage (exitCode : Z) : string :=
  if exitCode =? 137 then "process killed by signal 9 (SIGKILL), exit code 137"
  else if exitCode =? 143 then "process terminated by signal 15 (SIGTERM), exit code 143"
  else ("unclassified error (exit code " +:+ itoa exitCode +:+ ")")%string.

(** ** The tail of a log *)
Definition maxLogTailBytes : nat := 64 * 1024.

(** [bytes.Split] and [bytes.Join] on the newline. *)
Fixpoint split_lines (l : list ascii) : list (list ascii) :=
  match l with
  | [] => [[]]
  | c :: l' =>
      if bool_decide (c = "010"%char) then [] :: split_lines l'
      else match split_lines l' with
           | line :: rest => (c :: line) :: rest
           | [] => [[c]]
           end
  end.
Fixpoint join_lines (ls : list (list ascii)) : list ascii :=
  match ls with
  | [] => []
  | [l] => l
  | l :: ls' => l ++ ("010"%char :: join_lines ls')
  end.

(** [None] is a file that cannot be read. *)
Definition readLogTail (file : option (list ascii)) (maxLines : nat) : string :=
  match file with
  | None => ""
  | Some content =>
      let readSize := Nat.min (length content) maxLogTailBytes in
      let buf := drop (length content - readSize) content in
      let lines := split_lines buf in
      let lines := if (maxLines <? length lines)%nat then drop (length lines - maxLines) lines else lines in
      String.string_of_list_ascii (join_lines lines)
  end.

Definition ClassifyFromLog (file : option (list ascii)) (exitCode : Z) (backend : string) : AgentError :=
  let logTail := readLogTail file 100 in
  let result := if bool_decide (backend = "claude"%string) then classifyClaude logTail
                else if bool_decide (backend = "codex"%string) then classifyCodex logTail
                else if bool_decide (backend = "opencode"%string) then classifyOpenCode logTail
                else None in
  let r := match result with
           | Some r => r
           | None => mkResult (classifyByExitCode exitCode) (classifyByExitCodeMessage exitCode) 0
           end in
  mkAgentError (cr_Class r) exitCode (cr_Message r) logTail backend (cr_RetryAfter r).

(** ** Library *)
Lemma classify_with_first pats logTail r :
  classify_with pats logTail = Some r <->
  exists pre p post, pats = pre ++ p :: post /\ Forall (fun p => MatchString (pat_re p) logTail = false) pre /\
    MatchString (pat_re p) logTail = true /\
    r = mkResult (pat_class p) (pat_msg p)
          (if bool_decide (pat_class p = RateLimited) then retry_after logTail else 0).
Proof.
  induction pats as [|p pats IH]; simpl.
  { split; [done|]. intros ([|] & ? & ? & [=] & _). }
  destruct (MatchString (pat_re p) logTail) eqn:E.
  - split.
    + intros [= <-]. by exists [], p, pats.
    + intros ([|p' pre] & p0 & post & [= -> ->] & Hf & Hm & ->); [done|].
      apply Forall_cons in Hf as [Hf _]. congruence.
  - rewrite IH. split.
    + intros (pre & p0 & post & -> & Hf & Hm & ->). exists (p :: pre), p0, post. auto.
    + intros ([|p' pre] & p0 & post & [= -> ->] & Hf & Hm & ->); [congruence|].
      apply Forall_cons in Hf as [_ Hf]. by exists pre, p0, post.
Qed.

Lemma join_split l : join_lines (split_lines l) = l.
Proof.
  induction l as [|c l IH]; [done|]. cbn [split_lines].
  assert (exists line rest, split_lines l = line :: rest) as (line & rest & E).
  { destruct l as [|c' l']; [by exists [], []|]. cbn [split_lines].
    case_bool_decide; [eauto|]. destruct (split_lines l'); eauto. }
  case_bool_decide as Hc.
  - rewrite E in *. cbn [join_lines app]. cbn [join_lines] in IH. rewrite Hc. f_equal. exact IH.
  - rewrite E in *. destruct rest; cbn [join_lines] in *; by rewrite <- IH.
Qed.

Definition newlines (l : list ascii) : nat := length (filter (fun c => c = "010"%char) l).

Lemma split_lines_length l : length (split_lines l) = S (newlines l).
Proof.
  induction l as [|c l IH]; [done|]. unfold newlines in *. cbn [split_lines]. rewrite filter_cons.
  case_bool_decide as Hc; [rewrite decide_True by done; simpl; by rewrite IH|].
  rewrite decide_False by done. destruct (split_lines l) as [|line rest]; [done|]. done.
Qed.

(** Dropping whole lines leaves a suffix of the text. *)
Lemma join_drop k ls : (k < length ls)%nat -> exists pre, join_lines ls = pre ++ join_lines (drop k ls).
Proof.
  revert ls; induction k as [|k IH]; intros ls Hk; [by exists []|].
  destruct ls as [|l [|l' ls]]; simpl in Hk; [lia..|].
  destruct (IH (l' :: ls)) as [pre E]; [simpl; lia|].
  exists (l ++ "010"%char :: pre). change (drop (S k) (l :: l' :: ls)) with (drop k (l' :: ls)).
  change (join_lines (l :: l' :: ls)) with (l ++ "010"%char :: join_lines (l' :: ls)).
  rewrite E, <- app_assoc. done.
Qed.

(** The lines of the source hold no newline, so joining [n] of them gives [n - 1]. *)
Lemma newlines_app l1 l2 : newlines (l1 ++ l2) = (newlines l1 + newlines l2)%nat.
Proof. unfold newlines. by rewrite filter_app, length_app. Qed.

Lemma split_lines_plain l : Forall (fun line => newlines line = 0%nat) (split_lines l).
Proof.
  induction l as [|c l IH]; [by repeat constructor|]. cbn [split_lines].
  case_bool_decide as Hc; [by constructor|].
  destruct (split_lines l) as [|line rest]; [|apply Forall_cons in IH as [IH1 IH2]].
  - repeat constructor. unfold newlines. by rewrite filter_cons, decide_False.
  - constructor; [|done]. unfold newlines in *. by rewrite filter_cons, decide_False.
Qed.

Lemma newlines_join ls :
  Forall (fun line => newlines line = 0%nat) ls -> newlines (join_lines ls) = pred (length ls).
Proof.
  induction ls as [|l ls IH]; intros H; [done|]. apply Forall_cons in H as [Hl H].
  destruct ls as [|l' ls]; [exact Hl|].
  change (join_lines (l :: l' :: ls)) with (l ++ ("010"%char :: join_lines (l' :: ls))).
  rewrite newlines_app, Hl. specialize (IH H).
  unfold newlines in *. rewrite filter_cons, decide_True by done.
  transitivity (S (pred (length (l' :: ls)))); [|done]. exact (f_equal S IH).
Qed.

(** The tail of a log is its end: a suffix of the file, of at most
    [maxLines] lines and 64 KiB, and the whole file when it is within both. *)
Theorem readLogTail_tail content maxLines :
  (0 < maxLines)%nat ->
  let tail := String.list_ascii_of_string (readLogTail (Some content) maxLines) in
  (exists before, content = before ++ tail) /\
  (length tail <= maxLogTailBytes)%nat /\ (S (newlines tail) <= maxLines)%nat /\
  ((length content <= maxLogTailBytes)%nat -> (S (newlines content) <= maxLines)%nat -> tail = content).
Proof.
  intros Hm. unfold readLogTail. cbv zeta. rewrite String.list_ascii_of_string_of_list_ascii.
  set (buf := drop (length content - Nat.min (length content) maxLogTailBytes) content).
  assert (length buf <= maxLogTailBytes)%nat as Hb by (unfold buf; rewrite length_drop; lia).
  assert (exists pre, content = pre ++ buf) as [pre Hpre] by (eexists; symmetry; apply take_drop).
  set (lines := if (maxLines <? length (split_lines buf))%nat
                then drop (length (split_lines buf) - maxLines) (split_lines buf) else split_lines buf).
  assert ((exists pre', buf = pre' ++ join_lines lines) /\ (length lines <= maxLines)%nat /\
    lines <> [] /\ Forall (fun line => newlines line = 0%nat) lines) as ([pre' Hpre'] & Hlen & Hne & Hpl).
  { pose proof (split_lines_length buf) as Hsl. pose proof (split_lines_plain buf) as Hsp. unfold lines.
    destruct (Nat.ltb_spec maxLines (length (split_lines buf))).
    - split_and!; [|rewrite length_drop; lia| |by apply Forall_drop].
      + destruct (join_drop (length (split_lines buf) - maxLines) (split_lines buf)) as [pre' E]; [lia|].
        exists pre'. by rewrite <- E, join_split.
      + intros E. apply (f_equal length) in E. rewrite length_drop in E. cbn [length] in E. lia.
    - split_and!; [exists []; by rewrite join_split|done|by destruct (split_lines buf)|done]. }
  assert (length buf = length pre' + length (join_lines lines))%nat as Hl by (rewrite Hpre' at 1; apply length_app).
  split_and!.
  - exists (pre ++ pre'). rewrite <- app_assoc, <- Hpre'. exact Hpre.
  - lia.
  - rewrite newlines_join by done. destruct lines; [done|]. simpl in *. lia.
  - intros Hc Hn. assert (buf = content) as Eb.
    { unfold buf. rewrite Nat.min_l by lia. by rewrite Nat.sub_diag. }
    unfold lines. rewrite Eb. pose proof (split_lines_length content) as Hsl.
    destruct (Nat.ltb_spec maxLines (length (split_lines content))); [lia|apply join_split].
Qed.

(** The patterns of a rate limit that all back ends share. *)
Definition rate_limit_phrase : re := lit "rate" ⋅ q_dot ⋅ lit "limit".

Lemma MatchString_alt r1 r2 s : MatchString (Alt r1 r2) s = MatchString r1 s || MatchString r2 s.
Proof.
  apply eq_true_iff_eq. rewrite orb_true_iff, !MatchString_spec. split.
  - intros (b & l & a & E & H). inversion H; subst; [left|right]; eauto.
  - intros [(b & l & a & E & H)|(b & l & a & E & H)]; exists b, l, a; eauto using matches.
Qed.

(** An exit whose log mentions a rate limit is retried, never fatal: for the
    three known back ends the class is [RateLimited] whatever other codes or
    phrases the log contains ("401", "billing", ...). With no pattern matching,
    or for another back end, the exit code decides, and never fatally. *)
Theorem rate_limit_never_fatal file exitCode backend :
  let log := readLogTail file 100 in
  let ae := ClassifyFromLog file exitCode backend in
  let pats := if bool_decide (backend = "claude"%string) then claudePatterns
              else if bool_decide (backend = "codex"%string) then codexPatterns
              else if bool_decide (backend = "opencode"%string) then openCodePatterns else [] in
  (pats <> [] -> MatchString rate_limit_phrase log = true ->
     Class ae = RateLimited /\ RetryAfter ae = retry_after log) /\
  (Forall (fun p => MatchString (pat_re p) log = false) pats ->
     Class ae = classifyByExitCode exitCode /\ IsFatal (Class ae) = false /\ RetryAfter ae = 0).
Proof.
  intros log ae pats.
  assert (exists res, (res = classify_backend pats log \/ (pats = [] /\ res = None)) /\
    ae = let r := match res with
           | Some r => r
           | None => mkResult (classifyByExitCode exitCode) (classifyByExitCodeMessage exitCode) 0
           end in mkAgentError (cr_Class r) exitCode (cr_Message r) log backend (cr_RetryAfter r))
    as (res & Hres & ->).
  { unfold ae, ClassifyFromLog. fold log. unfold pats.
    repeat case_bool_decide; [eexists; (split; [by left|reflexivity])..|].
    exists None. split; [by right|reflexivity]. }
  split.
  - intros Hne Hm. assert (log <> ""%string) as Hlog.
    { intros E. rewrite E in Hm. vm_compute in Hm. discriminate. }
    destruct Hres as [->|[? _]]; [|done]. unfold classify_backend. rewrite bool_decide_false by done.
    assert (exists p rest, pats = p :: rest /\ pat_class p = RateLimited /\
      MatchString (pat_re p) log = true) as (p & rest & -> & Hc & Hp).
    { unfold pats in *. repeat case_bool_decide; try done; do 2 eexists; (split; [reflexivity|]);
        (split; [reflexivity|]); cbn [pat_re]; rewrite !MatchString_alt; fold rate_limit_phrase;
        by rewrite Hm. }
    cbn [classify_with]. rewrite Hp, Hc. done.
  - intros Hf. assert (res = None) as ->.
    { destruct Hres as [->|[_ ->]]; [|done]. unfold classify_backend. case_bool_decide; [done|].
      clear -Hf. induction Hf as [|p pats Hp _ IH]; [done|]. cbn [classify_with]. by rewrite Hp. }
    cbn. split_and!; [done| |done]. unfold classifyByExitCode. by case_tests.
Qed.

(** ** Witnesses *)
Lemma readLogTail_tail_witness :
  String.list_ascii_of_string (readLogTail (Some ["a"; "010"; "b"]%char) 2) = ["a"; "010"; "b"]%char.
Proof.
  refine (proj2 (proj2 (proj2 (readLogTail_tail ["a"; "010"; "b"]%char 2 _))) _ _);
    apply Nat.leb_le; vm_compute; reflexivity.
Defined.

Lemma rate_limit_never_fatal_witness :
  let log := String.list_ascii_of_string "401 then rate limit, retry-after: 7" in
  Class (ClassifyFromLog (Some log) 1 "claude") = RateLimited /\
  RetryAfter (ClassifyFromLog (Some log) 1 "claude") = 7 * 1000000000.
Proof.
  intros log. refine (proj1 (rate_limit_never_fatal (Some log) 1 "claude") _ _).
  - rewrite bool_decide_true by reflexivity. unfold claudePatterns. discriminate.
  - vm_compute. reflexivity.
Defined.
End AgentErr.

(** The matcher on the messages the back ends print. *)
Example claude_429 :
  AgentErr.classifyClaude "API error 429, Retry-After: 30"%string =
    Some (AgentErr.mkResult AgentErr.RateLimited "rate limit exceeded (429)" 30000000000).
Proof. vm_compute. reflexivity. Qed.
Example claude_4291 : AgentErr.classifyClaude "took 4291 ms"%string = None.
Proof. vm_compute. reflexivity. Qed.
Example codex_quota : option_map AgentErr.cr_Class (AgentErr.classifyCodex "You exceeded your current Quota"%string) =
  Some AgentErr.BillingError.
Proof. vm_compute. reflexivity. Qed.
