(* ===== verification/Concurrency.v ===== *)
(** * Concurrency: per-role limits on running agents,
    [internal/cli/concurrency.go]

    The tracker, each method as its critical section, and the system of
    goroutines around it: [cond.Wait] puts a caller to sleep, [Broadcast] makes
    every sleeper ready, and a ready caller runs its loop again when it gets the
    lock; all of these interleave freely. *)
From S2P Require Import Prelude DaemonConfig.
Local Open Scope Z_scope.

Module Conc.

Record ConcurrencyTracker := mkTracker {
  counts : gmap string Z;
  limits : gmap string Z;
  closed : bool;
}.

(** A missing key reads as 0. *)
Definition get (m : gmap string Z) (role : string) : Z := default 0 (m !! role).

Definition role_limit (rc : Config.RoleConfig) : option Z :=
  match Config.MaxConcurrency rc with
  | Some n => if 0 <? n then Some n else None
  | None => None
  end.

Definition NewConcurrencyTracker (roles : gmap string Config.RoleConfig) : ConcurrencyTracker :=
  mkTracker ∅ (omap role_limit roles) false.

Definition set_count (role : string) (n : Z) (ct : ConcurrencyTracker) : ConcurrencyTracker :=
  mkTracker (<[role := n]> (counts ct)) (limits ct) (closed ct).
Definition enter (role : string) (ct : ConcurrencyTracker) : ConcurrencyTracker :=
  set_count role (inc64 (get (counts ct) role)) ct.

(** [Acquire] from the moment it holds the lock: [None] when it waits. *)
Definition Acquire (role : string) (ct : ConcurrencyTracker) : option (ConcurrencyTracker * bool) :=
  let limit := get (limits ct) role in
  if limit =? 0 then
    if closed ct then Some (ct, false) else Some (enter role ct, true)
  else if (limit <=? get (counts ct) role) && negb (closed ct) then None
  else if closed ct then Some (ct, false)
  else Some (enter role ct, true).

Definition TryAcquire (role : string) (ct : ConcurrencyTracker) : ConcurrencyTracker * bool :=
  if closed ct then (ct, false)
  else
    let limit := get (limits ct) role in
    if limit =? 0 then (enter role ct, true)
    else if limit <=? get (counts ct) role then (ct, false)
    else (enter role ct, true).

(** Second component: whether the waiters are woken. *)
Definition Release (role : string) (ct : ConcurrencyTracker) : ConcurrencyTracker * bool :=
  if get (counts ct) role <=? 0 then (set_count role 0 ct, false)
  else (set_count role (dec64 (get (counts ct) role)) ct, true).

Definition Close (ct : ConcurrencyTracker) : ConcurrencyTracker * bool :=
  if closed ct then (ct, false) else (mkTracker (counts ct) (limits ct) true, true).

Definition ActiveCount (role : string) (ct : ConcurrencyTracker) : Z := get (counts ct) role.
Definition Counts (ct : ConcurrencyTracker) : gmap string Z := counts ct.

(** ** The goroutines: identifiers with the role they ask for. [holders] are
    those whose [Acquire] returned true and that have not released yet. *)
Abbreviation caller := (nat * string)%type.

Record sys := mkSys {
  ct : ConcurrencyTracker;
  waiting : list caller;
  ready : list caller;
  holders : list caller;
}.

Inductive label :=
| LAcquire (c : caller) (r : option bool)
| LResume (c : caller) (r : option bool)
| LTry (c : caller) (r : bool)
| LRelease (c : caller)
| LClose.

Definition wake (b : bool) (s : sys) : sys :=
  if b then mkSys (ct s) [] (ready s ++ waiting s) (holders s) else s.

Inductive cstep : sys -> label -> sys -> Prop :=
| c_enter c k w r h k' :
    Acquire c.2 k = Some (k', true) -> cstep (mkSys k w r h) (LAcquire c (Some true)) (mkSys k' w r (c :: h))
| c_refused c k w r h k' :
    Acquire c.2 k = Some (k', false) -> cstep (mkSys k w r h) (LAcquire c (Some false)) (mkSys k' w r h)
| c_wait c k w r h :
    Acquire c.2 k = None -> cstep (mkSys k w r h) (LAcquire c None) (mkSys k (c :: w) r h)
| c_resume_enter c k w r1 r2 h k' :
    Acquire c.2 k = Some (k', true) ->
    cstep (mkSys k w (r1 ++ c :: r2) h) (LResume c (Some true)) (mkSys k' w (r1 ++ r2) (c :: h))
| c_resume_refused c k w r1 r2 h k' :
    Acquire c.2 k = Some (k', false) ->
    cstep (mkSys k w (r1 ++ c :: r2) h) (LResume c (Some false)) (mkSys k' w (r1 ++ r2) h)
| c_resume_wait c k w r1 r2 h :
    Acquire c.2 k = None ->
    cstep (mkSys k w (r1 ++ c :: r2) h) (LResume c None) (mkSys k (c :: w) (r1 ++ r2) h)
| c_try c k w r h k' b :
    TryAcquire c.2 k = (k', b) ->
    cstep (mkSys k w r h) (LTry c b) (mkSys k' w r (if b then c :: h else h))
| c_release c k w r h1 h2 k' b :
    Release c.2 k = (k', b) ->
    cstep (mkSys k w r (h1 ++ c :: h2)) (LRelease c) (wake b (mkSys k' w r (h1 ++ h2)))
| c_close k w r h k' b :
    Close k = (k', b) -> cstep (mkSys k w r h) LClose (wake b (mkSys k' w r h)).

(** ** Library *)
Definition held (role : string) (h : list caller) : Z :=
  Z.of_nat (length (filter (fun c => c.2 = role) h)).

Lemma held_cons role c h : held role (c :: h) = (if decide (c.2 = role) then 1 else 0) + held role h.
Proof. unfold held. rewrite filter_cons. case_decide; simpl; lia. Qed.

Lemma held_app role h1 h2 : held role (h1 ++ h2) = held role h1 + held role h2.
Proof. unfold held. rewrite filter_app, length_app. lia. Qed.

Lemma held_nonneg role h : 0 <= held role h.
Proof. unfold held. lia. Qed.

(** The invariant: for a limited role the count is the number of holders and
    stays within the limit, and a goroutine sleeps only when it has to. *)
Record sys_ok (lims : gmap string Z) (s : sys) : Prop := {
  so_limits : limits (ct s) = lims;
  so_count : forall role, 0 < get lims role ->
    get (counts (ct s)) role = held role (holders s) /\ held role (holders s) <= get lims role;
  so_sleep : forall c, c ∈ waiting s ->
    0 < get lims c.2 /\ get lims c.2 <= get (counts (ct s)) c.2 /\ closed (ct s) = false;
}.

Definition limits_ok (lims : gmap string Z) : Prop := forall role, 0 <= get lims role <= max_int64.

Lemma get_set_count role n ct role' :
  get (counts (set_count role n ct)) role' = if decide (role = role') then n else get (counts ct) role'.
Proof.
  unfold get, set_count. cbn [counts]. case_decide as E;
    [by rewrite E, lookup_insert_eq|by rewrite lookup_insert_ne].
Qed.

(** One more holder of a role below its limit. *)
Lemma enter_ok lims k w r h c :
  limits_ok lims -> sys_ok lims (mkSys k w r h) ->
  (get lims c.2 = 0 \/ get (counts k) c.2 < get lims c.2) ->
  (forall r', sys_ok lims (mkSys (enter c.2 k) w r' (c :: h))).
Proof.
  intros Hl [Hlim Hcnt Hsl] Hroom r'. cbn [ct waiting ready holders] in *.
  unfold enter. split; cbn [ct waiting ready holders].
  - done.
  - intros role Hr. rewrite get_set_count, held_cons. destruct (Hcnt role Hr) as [E Hle].
    case_decide as Ec; [|split; [done|lia]]. subst role.
    pose proof (Hl c.2). pose proof (held_nonneg c.2 h). rewrite inc64_id by int64_lia. lia.
  - intros c' Hc'. destruct (Hsl c' Hc') as (Hr & Hfull & Hcl). split_and!; [done| |done].
    rewrite get_set_count. case_decide as Ec; [|done]. rewrite Ec in *. lia.
Qed.

Lemma sys_ok_ready lims k w r r' h : sys_ok lims (mkSys k w r h) -> sys_ok lims (mkSys k w r' h).
Proof. intros [H1 H2 H3]. by split. Qed.

Lemma sys_ok_wait lims k w r r' h c :
  limits_ok lims -> sys_ok lims (mkSys k w r h) -> Acquire c.2 k = None ->
  sys_ok lims (mkSys k (c :: w) r' h).
Proof.
  intros Hl [H1 H2 H3] E. split; cbn [ct waiting ready holders] in *; [done|done|].
  intros c' Hc'. apply elem_of_cons in Hc' as [->|Hc']; [|auto].
  revert E. unfold Acquire. rewrite H1. pose proof (Hl c.2).
  destruct (Z.eqb_spec (get lims c.2) 0); [by destruct (closed k)|].
  destruct (Z.leb_spec (get lims c.2) (get (counts k) c.2)); destruct (closed k); cbn [negb andb]; intros;
    try done. split_and!; [lia|done|done].
Qed.

Lemma Acquire_cases c k lims :
  limits k = lims ->
  match Acquire c k with
  | Some (k', true) => k' = enter c k /\ closed k = false /\ (get lims c = 0 \/ get (counts k) c < get lims c)
  | Some (k', false) => k' = k /\ closed k = true
  | None => closed k = false
  end.
Proof.
  intros <-. unfold Acquire. destruct (Z.eqb_spec (get (limits k) c) 0); [destruct (closed k); auto|].
  destruct (Z.leb_spec (get (limits k) c) (get (counts k) c)); destruct (closed k); cbn [negb andb]; auto.
Qed.

Lemma wake_ok lims k w r h :
  limits k = lims ->
  (forall role, 0 < get lims role -> get (counts k) role = held role h /\ held role h <= get lims role) ->
  sys_ok lims (wake true (mkSys k w r h)).
Proof. intros H1 H2. split; cbn [wake ct waiting ready holders]; [done|done|]. intros c Hc. inversion Hc. Qed.

Lemma cstep_ok lims s l s' : limits_ok lims -> sys_ok lims s -> cstep s l s' -> sys_ok lims s'.
Proof.
  intros Hl Hok Hs.
  destruct Hs as [c k w r h k' E|c k w r h k' E|c k w r h E|c k w r1 r2 h k' E|c k w r1 r2 h k' E
    |c k w r1 r2 h E|c k w r h k' b E|c k w r h1 h2 k' b E|k w r h k' b E];
    pose proof Hok as [Hlim Hcnt Hsl]; cbn [ct waiting ready holders] in *.
  - pose proof (Acquire_cases c.2 k lims Hlim) as X. rewrite E in X. destruct X as (-> & _ & Hroom).
    by eapply enter_ok.
  - pose proof (Acquire_cases c.2 k lims Hlim) as X. rewrite E in X. by destruct X as (-> & _).
  - by eapply sys_ok_wait.
  - pose proof (Acquire_cases c.2 k lims Hlim) as X. rewrite E in X. destruct X as (-> & _ & Hroom).
    by eapply enter_ok.
  - pose proof (Acquire_cases c.2 k lims Hlim) as X. rewrite E in X. destruct X as (-> & _).
    by eapply sys_ok_ready.
  - by eapply sys_ok_wait.
  - revert E. unfold TryAcquire. rewrite Hlim. destruct (closed k); [by intros [= <- <-]|].
    destruct (Z.eqb_spec (get lims c.2) 0); [intros [= <- <-]; eapply enter_ok; eauto|].
    destruct (Z.leb_spec (get lims c.2) (get (counts k) c.2)); intros [= <- <-]; [done|].
    eapply enter_ok; eauto.
  - assert (forall role, 0 < get lims role -> get (counts k') role = held role (h1 ++ h2) /\
      held role (h1 ++ h2) <= get lims role) as Hcnt'.
    { intros role Hr. destruct (Hcnt role Hr) as [Ec Hle].
      rewrite held_app, held_cons in Ec, Hle. rewrite held_app.
      pose proof (held_nonneg role h1). pose proof (held_nonneg role h2). pose proof (Hl role).
      revert E. unfold Release. destruct (Z.leb_spec (get (counts k) c.2) 0); intros [= <- <-];
        rewrite get_set_count; case_decide as Ed; rewrite ?decide_True, ?decide_False in Ec, Hle by done;
        try (split; lia).
      - rewrite Ed in *. split; lia.
      - rewrite Ed in *. rewrite dec64_id by int64_lia. lia. }
    assert (limits k' = lims) as Hlim'.
    { revert E. unfold Release. destruct (_ <=? 0); by intros [= <- <-]. }
    destruct b; [by apply wake_ok|]. cbn [wake].
    split; cbn [ct waiting ready holders]; [done|done|]. intros c' Hc'.
    destruct (Hsl c' Hc') as (Hr & Hfull & Hcl). revert E. unfold Release.
    destruct (Z.leb_spec (get (counts k) c.2) 0); intros [= <-]. split_and!; [done| |done].
    rewrite get_set_count. case_decide as Ed; [rewrite Ed in *; lia|done].
  - revert E. unfold Close. destruct (closed k) eqn:Hc; intros [= <- <-]; [done|]. by apply wake_ok.
Qed.

Lemma new_ok roles : sys_ok (limits (NewConcurrencyTracker roles)) (mkSys (NewConcurrencyTracker roles) [] [] []).
Proof.
  split; cbn [ct waiting ready holders]; [done| |intros c Hc; inversion Hc].
  intros role Hr. change (held role []) with 0. split; [done|lia].
Qed.

Lemma new_limits_ok roles :
  (forall name rc n, roles !! name = Some rc -> Config.MaxConcurrency rc = Some n -> n <= max_int64) ->
  limits_ok (limits (NewConcurrencyTracker roles)).
Proof.
  intros H role. unfold get. cbn [NewConcurrencyTracker limits]. rewrite lookup_omap.
  destruct (roles !! role) as [rc|] eqn:E; cbn; [|int64_lia]. unfold role_limit.
  destruct (Config.MaxConcurrency rc) as [n|] eqn:En; cbn; [|int64_lia].
  pose proof (H _ _ _ E En). destruct (Z.ltb_spec 0 n); cbn; int64_lia.
Qed.

(** C5. Under every interleaving of the agents' supervisors, from a new tracker:
    a role with a limit never has more agents holding a slot than the limit,
    and its count is the number of holders; and no supervisor sleeps while a
    slot of its role is free or the tracker is closed (no wake-up is lost). *)
Theorem slots_respected roles ls s :
  (forall name rc n, roles !! name = Some rc -> Config.MaxConcurrency rc = Some n -> n <= max_int64) ->
  steps cstep (mkSys (NewConcurrencyTracker roles) [] [] []) ls s ->
  let limit role := get (limits (NewConcurrencyTracker roles)) role in
  (forall role, 0 < limit role ->
     held role (holders s) <= limit role /\ ActiveCount role (ct s) = held role (holders s)) /\
  (forall c, c ∈ waiting s -> held c.2 (holders s) = limit c.2 /\ closed (ct s) = false).
Proof.
  intros Hroles Hs limit. pose proof (new_limits_ok roles Hroles) as Hl.
  destruct (steps_inv cstep (sys_ok (limits (NewConcurrencyTracker roles))) _ _ _
    (fun s l s' => cstep_ok _ s l s' Hl) Hs (new_ok roles)) as [_ Hcnt Hsl].
  split.
  - intros role Hr. destruct (Hcnt role Hr). auto.
  - intros c Hc. destruct (Hsl c Hc) as (Hr & Hfull & Hcl). destruct (Hcnt _ Hr). split; [|done].
    unfold limit. lia.
Qed.

Lemma slots_sleep_inv roles ls s :
  (forall name rc n, roles !! name = Some rc -> Config.MaxConcurrency rc = Some n -> n <= max_int64) ->
  steps cstep (mkSys (NewConcurrencyTracker roles) [] [] []) ls s ->
  forall c, c ∈ waiting s -> 0 < get (limits (NewConcurrencyTracker roles)) c.2 /\
    get (limits (NewConcurrencyTracker roles)) c.2 <= get (counts (ct s)) c.2 /\ closed (ct s) = false.
Proof.
  intros Hroles Hs. pose proof (new_limits_ok roles Hroles) as Hl.
  exact (so_sleep _ _ (steps_inv cstep (sys_ok (limits (NewConcurrencyTracker roles))) _ _ _
    (fun s l s' => cstep_ok _ s l s' Hl) Hs (new_ok roles))).
Qed.

Definition is_resume (l : label) : bool := match l with LResume _ _ => true | _ => false end.

(** Shutdown: once the tracker is closed nobody waits, every supervisor
    still queued is refused as soon as it runs, whatever else happens no slot
    is granted any more, and after at most as many resumptions as there were
    queued supervisors none is left. *)
Theorem close_drains roles ls s s1 ls' s' :
  (forall name rc n, roles !! name = Some rc -> Config.MaxConcurrency rc = Some n -> n <= max_int64) ->
  steps cstep (mkSys (NewConcurrencyTracker roles) [] [] []) ls s -> cstep s LClose s1 ->
  steps cstep s1 ls' s' ->
  waiting s' = [] /\ closed (ct s') = true /\
  Forall (fun l => match l with
                   | LAcquire _ r | LResume _ r => r = Some false
                   | LTry _ r => r = false
                   | _ => True
                   end) ls' /\
  (length (ready s') + length (filter (fun l => is_resume l = true) ls')
     = length (ready s1))%nat.
Proof.
  intros Hroles Hs Hc Hs'.
  assert (waiting s1 = [] /\ closed (ct s1) = true) as [Hw1 Hc1].
  { pose proof (slots_sleep_inv roles ls s Hroles Hs) as Hsl. inversion Hc as [| | | | | | | |k w r h k' b E]; subst.
    revert E. unfold Close. destruct (closed k) eqn:Hck; intros [= <- <-]; [|done]. cbn in *. split; [|done].
    destruct w as [|c w]; [done|]. destruct (Hsl c) as (_ & _ & ?); [by left|]. congruence. }
  clear Hs Hc. induction Hs' as [s1|s1 l s2 ls' s' Hstep Hs' IH].
  { split_and!; [done|done|constructor|simpl; lia]. }
  assert (waiting s2 = [] /\ closed (ct s2) = true /\
    match l with LAcquire _ r | LResume _ r => r = Some false | LTry _ r => r = false | _ => True end /\
    (length (ready s2) + (if is_resume l then 1 else 0)
      = length (ready s1))%nat) as (Hw2 & Hc2 & Hl & Hlen).
  { destruct Hstep as [c k w r h k' E|c k w r h k' E|c k w r h E|c k w r1 r2 h k' E|c k w r1 r2 h k' E
      |c k w r1 r2 h E|c k w r h k' b E|c k w r h1 h2 k' b E|k w r h k' b E]; cbn [ct waiting ready] in *;
      try (exfalso; pose proof (Acquire_cases c.2 k _ eq_refl) as X; rewrite E in X; intuition congruence).
    - pose proof (Acquire_cases c.2 k _ eq_refl) as X; rewrite E in X; destruct X as [-> _].
      cbn [is_resume]. split_and!; auto; lia.
    - pose proof (Acquire_cases c.2 k _ eq_refl) as X; rewrite E in X; destruct X as [-> _].
      cbn [is_resume]. rewrite !length_app. simpl. split_and!; auto; lia.
    - revert E. unfold TryAcquire. rewrite Hc1. intros [= <- <-]. cbn [is_resume]. split_and!; auto; lia.
    - assert (closed k' = true) as Hk'.
      { revert E. unfold Release. destruct (_ <=? 0); by intros [= <- <-]. }
      cbn [is_resume]. destruct b; cbn; subst w; rewrite ?app_nil_r; split_and!; auto; lia.
    - revert E. unfold Close. rewrite Hc1. intros [= <- <-]. cbn [is_resume]. split_and!; auto; lia. }
  destruct (IH Hw2 Hc2) as (Hw' & Hc' & Hf & Hn). split_and!; [done|done|by constructor|].
  rewrite filter_cons. case_decide as Hd; [rewrite Hd in Hlen|destruct (is_resume l); [done|]]; simpl; lia.
Qed.

(** ** Witnesses: two agents of a role limited to one *)
Definition limited : gmap string Config.RoleConfig :=
  {["task"%string := Config.mkRole "" "" "" "" "" None None None (Some 1) false None None]}.
Definition full : sys :=
  mkSys (enter "task" (NewConcurrencyTracker limited)) [(2%nat, "task"%string)] [] [(1%nat, "task"%string)].
Definition full_trace : list label := [LAcquire (1%nat, "task"%string) (Some true); LAcquire (2%nat, "task"%string) None].

Lemma limited_bounded name rc n :
  limited !! name = Some rc -> Config.MaxConcurrency rc = Some n -> n <= max_int64.
Proof.
  unfold limited. rewrite lookup_singleton_Some. intros [_ <-] [= <-]. vm_compute. discriminate.
Qed.
Lemma full_reached : steps cstep (mkSys (NewConcurrencyTracker limited) [] [] []) full_trace full.
Proof.
  eapply steps_cons; [apply c_enter; vm_compute; reflexivity|].
  eapply steps_cons; [apply c_wait; vm_compute; reflexivity|]. apply steps_nil.
Qed.

Lemma slots_respected_witness : held "task" (holders full) = 1.
Proof.
  exact (proj1 (proj2 (slots_respected limited full_trace full limited_bounded full_reached)
    (2%nat, "task"%string) ltac:(by left))).
Defined.

Definition closed_full : sys := wake true (mkSys (fst (Close (ct full))) (waiting full) [] (holders full)).

Lemma close_drains_witness : waiting closed_full = [].
Proof.
  refine (proj1 (close_drains limited full_trace full closed_full [] closed_full
    limited_bounded full_reached _ _)); [|apply steps_nil].
  apply c_close. reflexivity.
Defined.
End Conc.
