(* ===== verification/Supervisor.v ===== *)
(** * Supervisor: the life of a supervised agent, [internal/cli/daemon.go],
    [daemon_restart.go], [daemon_classify.go], [daemon_backend.go] and
    [daemon_epic.go]

    The restart policy with its backoff, the failover between back ends, the
    assignment of epics, and the supervisor's loop as the composition of these
    over the runs of the agent. What the loop needs of the rest of the daemon
    (slots, the tracker's queries, git, spawning, recovery and checkpoints) is
    the class [AgentHost], on a world of its own. Shutdown and events are left out; the
    snapshots are in [DaemonLife]. *)
From S2P Require Import Prelude DaemonConfig AgentErr.
Import Config AgentErr.
Local Open Scope Z_scope.

Module Super.

(** ** State of an agent *)
Record AgentProcess := mkProc {
  entry : AgentEntry;
  roleConfig : RoleConfig;
  worktreePath : string;
  restartCount : Z;
  lastStart : Z;
  lastExitCode : Z;
  assignedEpicID : string;
  lastError : option AgentError;
  rateRetryCount : Z;
  lastNoWork : bool;
  currentBackendIdx : Z;
}.

Definition set_counts (restarts rates : Z) (ap : AgentProcess) : AgentProcess :=
  mkProc (entry ap) (roleConfig ap) (worktreePath ap) restarts (lastStart ap) (lastExitCode ap)
    (assignedEpicID ap) (lastError ap) rates (lastNoWork ap) (currentBackendIdx ap).
Definition set_backend_idx (i : Z) (ap : AgentProcess) : AgentProcess :=
  mkProc (entry ap) (roleConfig ap) (worktreePath ap) (restartCount ap) (lastStart ap) (lastExitCode ap)
    (assignedEpicID ap) (lastError ap) (rateRetryCount ap) (lastNoWork ap) i.
Definition set_epic (e : string) (ap : AgentProcess) : AgentProcess :=
  mkProc (entry ap) (roleConfig ap) (worktreePath ap) (restartCount ap) (lastStart ap) (lastExitCode ap)
    e (lastError ap) (rateRetryCount ap) (lastNoWork ap) (currentBackendIdx ap).
Definition set_error (e : option AgentError) (nowork : bool) (ap : AgentProcess) : AgentProcess :=
  mkProc (entry ap) (roleConfig ap) (worktreePath ap) (restartCount ap) (lastStart ap) (lastExitCode ap)
    (assignedEpicID ap) e (rateRetryCount ap) nowork (currentBackendIdx ap).

(** [spawnAgent] and [waitForAgent]: the start time and the exit code. *)
Definition set_run (start exitCode : Z) (ap : AgentProcess) : AgentProcess :=
  mkProc (entry ap) (roleConfig ap) (worktreePath ap) (restartCount ap) start exitCode
    (assignedEpicID ap) (lastError ap) (rateRetryCount ap) (lastNoWork ap) (currentBackendIdx ap).

(** ** Policy ([daemon_restart.go]) *)
Definition policy (dc : DaemonConfig) : RestartPolicy := Policy (dc_Daemon dc).
Definition getMaxRetries (dc : DaemonConfig) : Z := default 3 (MaxRetries (policy dc)).
Definition getBackoffInitial (dc : DaemonConfig) : Z := default 2 (BackoffInitial (policy dc)).
Definition getBackoffMax (dc : DaemonConfig) : Z := default 300 (BackoffMax (policy dc)).
Definition getOutputTimeout (dc : DaemonConfig) : Z := default 900 (OutputTimeout (policy dc)).
Definition getRateLimitBackoff (dc : DaemonConfig) : Z := default 30 (RateLimitBackoff (policy dc)).
Definition getRateLimitMaxWait (dc : DaemonConfig) : Z := default 300 (RateLimitMaxWait (policy dc)).
Definition getRateLimitNoCount (dc : DaemonConfig) : bool := default true (RateLimitNoCount (policy dc)).
Definition getTimeoutBackoff (dc : DaemonConfig) : Z := default 5 (TimeoutBackoff (policy dc)).
Definition getNoWorkBackoff (dc : DaemonConfig) : Z := default 30 (NoWorkBackoff (policy dc)).
Definition getIdlePollInterval (dc : DaemonConfig) : Z := default 30 (IdlePollInterval (policy dc)).


Definition has_class (c : ErrorClass) (e : option AgentError) : bool :=
  match e with Some ae => bool_decide (Class ae = c) | None => false end.

(** Second component: whether the supervisor goes on. *)
Definition shouldRestart (dc : DaemonConfig) (now : Z) (ap : AgentProcess) : AgentProcess * bool :=
  if (lastExitCode ap =? 0) && bool_decide (lastError ap = None) then
    let ap1 := set_counts 0 0 ap in
    (if minute <? time_sub now (lastStart ap1) then set_backend_idx 0 ap1 else ap1, true)
  else if has_class NoWork (lastError ap) then (set_counts 0 0 ap, true)
  else if match lastError ap with Some ae => IsFatal (Class ae) | None => false end then (ap, false)
  else if has_class RateLimited (lastError ap) && getRateLimitNoCount dc then
    (set_counts (restartCount ap) (inc64 (rateRetryCount ap)) ap, true)
  else
    let ap1 := set_counts (inc64 (restartCount ap)) 0 ap in
    (ap1, restartCount ap1 <=? getMaxRetries dc).

(** The exponential part: [initial * (1 << retryN)] on [int]. *)
Definition backoff_seconds (initial retryN maxBackoff : Z) : Z :=
  let retryN := if 30 <? retryN then 30 else retryN in
  let b := mul64 initial (shl64 1 retryN) in
  if (maxBackoff <? b) || (b <? 0) then maxBackoff else b.

Definition computeBackoff (dc : DaemonConfig) (ap : AgentProcess) : Z :=
  let lastErr := lastError ap in
  if has_class NoWork lastErr then mul64 (getNoWorkBackoff dc) second
  else
    let '(initial, retryN, maxBackoff) :=
      if has_class RateLimited lastErr
      then (getRateLimitBackoff dc, rateRetryCount ap, getRateLimitMaxWait dc)
      else if has_class Timeout lastErr
      then (getTimeoutBackoff dc, restartCount ap, getBackoffMax dc)
      else (getBackoffInitial dc, restartCount ap, getBackoffMax dc) in
    let backoff := mul64 (backoff_seconds initial retryN maxBackoff) second in
    match lastErr with
    | Some ae =>
        if bool_decide (Class ae = RateLimited) && (backoff <? RetryAfter ae) then
          let backoff := RetryAfter ae in
          if mul64 maxBackoff second <? backoff then mul64 maxBackoff second else backoff
        else backoff
    | None => backoff
    end.

(** The wait before the retry, or [None] to exit. *)
Definition handleRestartAfterError (dc : DaemonConfig) (ap : AgentProcess) : AgentProcess * option Z :=
  let ap1 := set_counts (inc64 (restartCount ap)) (rateRetryCount ap) ap in
  if getMaxRetries dc <? restartCount ap1 then (ap1, None)
  else (ap1, Some (computeBackoff dc ap1)).

(** ** Back ends ([daemon_backend.go]) *)
Definition or_else (b alt : string) : string := if bool_decide (b = ""%string) then alt else b.

Definition getEffectiveBackend (dc : DaemonConfig) (ap : AgentProcess) : string :=
  let idx := currentBackendIdx ap in
  if idx =? 0 then
    or_else (or_else (ae_Backend (entry ap)) (rc_Backend (roleConfig ap))) (dc_Backend dc)
  else
    match FallbackBackends (entry ap) !! Z.to_nat (idx - 1) with
    | Some b => b
    | None => or_else (ae_Backend (entry ap)) (dc_Backend dc)
    end.

Definition tryFallbackBackend (ap : AgentProcess) : AgentProcess * bool :=
  let numFallbacks := Z.of_nat (length (FallbackBackends (entry ap))) in
  if bool_decide (lastError ap = None) || (numFallbacks =? 0) then (ap, false)
  else if negb (has_class ModelNotFound (lastError ap) ||
                (has_class RateLimited (lastError ap) && (3 <? rateRetryCount ap)))
  then (ap, false)
  else
    let nextIdx := currentBackendIdx ap + 1 in
    if 1 + numFallbacks <=? nextIdx then (ap, false)
    else (set_counts 0 0 (set_backend_idx nextIdx ap), true).

(** ** Classification of an exit ([daemon_classify.go]). [lockTask] is the task
    of the lock file, [""] without a lock or a task; [logFile] the log. *)
Definition classifyAgentExit (dc : DaemonConfig) (lockTask : string) (logFile : option (list ascii))
    (exitCode : Z) (ap : AgentProcess) : AgentProcess :=
  let backend := or_else (ae_Backend (entry ap)) (dc_Backend dc) in
  if (exitCode =? 0) && bool_decide (lockTask = ""%string) then
    set_error (Some (mkAgentError NoWork 0 "no claimable tasks" "" backend 0)) true ap
  else if negb (exitCode =? 0) then set_error (Some (ClassifyFromLog logFile exitCode backend)) false ap
  else set_error None false ap.

(** ** Epics ([daemon_epic.go]) *)
Record EpicInfo := mkEpic { ep_ID : string; ep_Priority : Z }.

Definition epic_less (a b : EpicInfo) : bool :=
  if negb (ep_Priority a =? ep_Priority b) then ep_Priority a <? ep_Priority b
  else str_lt (ep_ID a) (ep_ID b).

Definition epicBranchName (epicID : string) : string := "epic/" +:+ epicID.

Definition ReleaseWorktree (worktreeName : string) (ea : gmap string string) : gmap string string :=
  delete worktreeName ea.
Definition GetAssignment (worktreeName : string) (ea : gmap string string) : string :=
  default ""%string (ea !! worktreeName).

(** ** What the supervisor asks of its surroundings: the tracker of slots
    ([Concurrency.Conc]), the issue tracker's commands, git, the recovery of a
    worktree and the checkpoint file, each as an effect on a world [W]. The
    recovery, the checkpoint and the pull request report errors that are only
    logged. *)
Class AgentHost (W : Type) := {
  acquireSlot : string -> W -> W * bool;
  releaseSlot : string -> W -> W;
  recoverAgent : string -> string -> Z -> W -> W;
  handleAgentCheckpoint : AgentProcess -> Z -> W -> W;
  ensureEpicPR : string -> string -> W -> W;
  ensureBranch : string -> string -> W -> W * option goerror;
  queryOpenEpics : W -> W * res (list EpicInfo);
  epicHasReadyTasks : string -> W -> W * res bool;
}.

Section daemon.
Context {sorter : SliceSort} {W : Type} {host : AgentHost W}.

(** The loop that keeps the unassigned epics with ready tasks. *)
Fixpoint ready_epics (assigned : gset string) (epics : list EpicInfo) (w : W) : W * list EpicInfo :=
  match epics with
  | [] => (w, [])
  | epic :: rest =>
      if bool_decide (ep_ID epic ∈ assigned) then ready_epics assigned rest w
      else
        let (w1, r) := epicHasReadyTasks (ep_ID epic) w in
        let (w2, l) := ready_epics assigned rest w1 in
        (w2, match r with Ok true => epic :: l | _ => l end)
  end.

Definition AssignWorktree (worktreeName : string) (ea : gmap string string) (w : W)
  : gmap string string * W * res string :=
  match ea !! worktreeName with
  | Some epicID => (ea, w, Ok epicID)
  | None =>
      match queryOpenEpics w with
      | (w1, Err e) => (ea, w1, Err (Wrapf "failed to query open epics: " e ""))
      | (w1, Ok epics) =>
          match epics with
          | [] => (ea, w1, Ok ""%string)
          | _ =>
              let (w2, candidates) := ready_epics (map_img ea) epics w1 in
              match candidates with
              | [] => (ea, w2, Ok ""%string)
              | _ =>
                  match head (sort_slice epic_less candidates) with
                  | Some c => (<[worktreeName := ep_ID c]> ea, w2, Ok (ep_ID c))
                  | None => (ea, w2, Ok ""%string)
                  end
              end
          end
      end
  end.

Definition switchToNonEpicMode (ap : AgentProcess) (w : W) : AgentProcess * W * option goerror :=
  let ap1 := set_epic "" ap in
  match ensureBranch (worktreePath ap) (Worktree (entry ap)) w with
  | (w1, Some e) => (ap1, w1, Some e)
  | (w1, None) => (set_counts 0 (rateRetryCount ap1) ap1, w1, None)
  end.

Definition handleEpicTransition (ap : AgentProcess) (ea : gmap string string) (w : W)
  : AgentProcess * gmap string string * W * option goerror :=
  let cur := assignedEpicID ap in
  if bool_decide (cur = ""%string) then (ap, ea, w, None)
  else
    match epicHasReadyTasks cur w with
    | (w1, Err _) => (ap, ea, w1, None)
    | (w1, Ok true) => (ap, ea, w1, None)
    | (w1, Ok false) =>
        let name := Worktree (entry ap) in
        match AssignWorktree name (ReleaseWorktree name ea) w1 with
        | (ea2, w2, Err _) =>
            let '(ap', w', e) := switchToNonEpicMode ap w2 in (ap', ea2, w', e)
        | (ea2, w2, Ok newEpicID) =>
            if bool_decide (newEpicID = ""%string) then
              let '(ap', w', e) := switchToNonEpicMode ap w2 in (ap', ea2, w', e)
            else
              match ensureBranch (worktreePath ap) (epicBranchName newEpicID) w2 with
              | (w3, Some e) => (ap, ReleaseWorktree name ea2, w3, Some e)
              | (w3, None) =>
                  (set_counts 0 (rateRetryCount ap) (set_epic newEpicID ap), ea2, w3, None)
              end
        end
    end.

(** ** The supervisor's loop *)

(** What becomes of one run: the branch or the spawn fails, or the subprocess
    runs from [start] to an exit seen at [now]. *)
Inductive run :=
| SpawnFails
| Exits (start now exitCode : Z) (lockTask : string) (logFile : option (list ascii)).

Inductive decision := Stop | FailOver | Wait (backoff : Z).

(** Steps 7.5 to 9, after the exit was classified. *)
Definition decide_restart (dc : DaemonConfig) (now : Z) (ap : AgentProcess) : AgentProcess * decision :=
  let (ap1, failover) := tryFallbackBackend ap in
  if (failover : bool) then (ap1, FailOver)
  else
    let (ap2, go) := shouldRestart dc now ap1 in
    if (go : bool) then (ap2, Wait (computeBackoff dc ap2)) else (ap2, Stop).

(** One iteration of [superviseAgent] while no shutdown is requested. *)
Definition iteration (dc : DaemonConfig) (r : run) (ap : AgentProcess) (ea : gmap string string) (w : W)
  : AgentProcess * gmap string string * W * decision :=
  let name := Worktree (entry ap) in
  let role := Role (entry ap) in
  match acquireSlot role w with
  | (w0, false) => (ap, ReleaseWorktree name ea, w0, Stop)
  | (w0, true) =>
      let '(ea1, w1, er) := AssignWorktree name ea (recoverAgent (worktreePath ap) name 0 w0) in
      let epicID := match er with Ok e => e | Err _ => ""%string end in
      let ap1 := set_epic epicID ap in
      let branch := if bool_decide (epicID <> ""%string) then epicBranchName epicID else name in
      let failed (w : W) :=
        match handleRestartAfterError dc ap1 with
        | (ap', Some b) => (ap', ea1, releaseSlot role w, Wait b)
        | (ap', None) => (ap', ReleaseWorktree name ea1, releaseSlot role w, Stop)
        end in
      match ensureBranch (worktreePath ap1) branch w1 with
      | (w2, Some _) => failed w2
      | (w2, None) =>
          match r with
          | SpawnFails => failed w2
          | Exits start now exitCode lockTask logFile =>
              let ap2 := classifyAgentExit dc lockTask logFile exitCode (set_run start exitCode ap1) in
              let w3 := recoverAgent (worktreePath ap2) name exitCode (handleAgentCheckpoint ap2 exitCode w2) in
              let w4 := if bool_decide (epicID <> ""%string) then ensureEpicPR (worktreePath ap2) epicID w3 else w3 in
              let '(ap3, ea3, w5, _) :=
                handleEpicTransition ap2 (ReleaseWorktree name ea1) (releaseSlot role w4) in
              let (ap4, d) := decide_restart dc now ap3 in
              (ap4, match d with Stop => ReleaseWorktree name ea3 | _ => ea3 end, w5, d)
          end
      end
  end.

(** The decisions of a supervisor whose agent's runs go as given; it ends with
    the runs or at [Stop]. *)
Fixpoint supervise (dc : DaemonConfig) (rs : list run) (ap : AgentProcess) (ea : gmap string string) (w : W)
  : AgentProcess * gmap string string * W * list decision :=
  match rs with
  | [] => (ap, ea, w, [])
  | r :: rs' =>
      let '(ap1, ea1, w1, d) := iteration dc r ap ea w in
      match d with
      | Stop => (ap1, ea1, w1, [Stop])
      | _ => let '(ap2, ea2, w2, ds) := supervise dc rs' ap1 ea1 w1 in (ap2, ea2, w2, d :: ds)
      end
  end.
End daemon.

(** ** The back-off *)

(** What [computeBackoff] promises: an exponential law capped by a maximum. *)
Definition backoff_law (initial retryN maxBackoff : Z) : Z :=
  Z.min (initial * 2 ^ Z.min retryN 30) maxBackoff.

Lemma backoff_seconds_law initial n m :
  0 <= initial <= 2 ^ 32 -> 0 <= n -> 0 <= m -> backoff_seconds initial n m = backoff_law initial n m.
Proof.
  intros Hi Hn Hm. unfold backoff_seconds, backoff_law, shl64.
  set (k := if 30 <? n then 30 else n).
  assert (k = Z.min n 30) as Hk by (unfold k; destruct (Z.ltb_spec 30 n); lia).
  rewrite Hk. set (j := Z.min n 30). assert (0 <= j <= 30) as Hj by (unfold j; lia).
  assert (1 <= 2 ^ j <= 2 ^ 30) as Hp
    by (split; [apply (Z.pow_le_mono_r 2 0 j)|apply Z.pow_le_mono_r]; lia).
  rewrite Z.shiftl_1_l, (wrap64_id (2 ^ j)) by int64_lia. unfold mul64.
  rewrite wrap64_id by (unfold in_int64, min_int64, max_int64; nia).
  destruct (Z.ltb_spec m (initial * 2 ^ j)), (Z.ltb_spec (initial * 2 ^ j) 0); simpl; nia.
Qed.

(** Values of a policy for which no duration overflows: 285 years at most. *)
Definition sane (maxBackoff : Z) : Prop := 0 <= maxBackoff <= 9000000000.

Lemma mul64_second m : sane m -> mul64 m second = m * second.
Proof. unfold sane, second, mul64. intros. apply wrap64_id. int64_lia. Qed.

(** The initial delay, the exponent and the cap the code picks for a class. *)
Definition backoff_params (dc : DaemonConfig) (ap : AgentProcess) : Z * Z * Z :=
  if has_class RateLimited (lastError ap)
  then (getRateLimitBackoff dc, rateRetryCount ap, getRateLimitMaxWait dc)
  else if has_class Timeout (lastError ap)
  then (getTimeoutBackoff dc, restartCount ap, getBackoffMax dc)
  else (getBackoffInitial dc, restartCount ap, getBackoffMax dc).

(** C37. The wait before a restart: the fixed idle interval after a run without
    work; otherwise [min(initial * 2^min(n,30), max)] seconds with the
    parameters of the error's class, raised for a rate limit to the server's
    hint but never above the maximum; no policy up to 136 years initial and 285
    years maximal delay overflows, and the wait is never negative. *)
Theorem computeBackoff_functional dc ap initial n m :
  backoff_params dc ap = (initial, n, m) ->
  0 <= initial <= 2 ^ 32 -> 0 <= n -> sane m -> sane (getNoWorkBackoff dc) ->
  computeBackoff dc ap =
    (if has_class NoWork (lastError ap) then getNoWorkBackoff dc * second
     else
       let base := backoff_law initial n m * second in
       match lastError ap with
       | Some ae =>
           if bool_decide (Class ae = RateLimited)
           then Z.max base (Z.min (RetryAfter ae) (m * second)) else base
       | None => base
       end) /\
  0 <= computeBackoff dc ap <= Z.max m (getNoWorkBackoff dc) * second.
Proof.
  intros Hp Hi Hn Hm Hw.
  assert (0 <= backoff_law initial n m <= m) as Hb.
  { unfold backoff_law, sane in *. assert (0 <= 2 ^ Z.min n 30) by (apply Z.pow_nonneg; lia). nia. }
  assert (computeBackoff dc ap =
    if has_class NoWork (lastError ap) then getNoWorkBackoff dc * second
    else let base := backoff_law initial n m * second in
      match lastError ap with
      | Some ae => if bool_decide (Class ae = RateLimited)
                   then Z.max base (Z.min (RetryAfter ae) (m * second)) else base
      | None => base
      end) as ->.
  { unfold computeBackoff, backoff_params in *. rewrite mul64_second by done.
    destruct (has_class NoWork (lastError ap)); [done|]. rewrite Hp.
    rewrite backoff_seconds_law, !mul64_second by (unfold sane in *; lia). cbv zeta.
    destruct (lastError ap) as [ae|]; [|done].
    case_tests; simpl in *; unfold second in *; try done; lia. }
  split; [done|]. unfold sane, second in *.
  destruct (has_class NoWork (lastError ap)); [lia|]. cbv zeta.
  destruct (lastError ap); case_tests; lia.
Qed.

(** ** Decisions after an exit *)

Definition primary_backend (dc : DaemonConfig) (ap : AgentProcess) : string :=
  or_else (or_else (ae_Backend (entry ap)) (rc_Backend (roleConfig ap))) (dc_Backend dc).
Definition backends (dc : DaemonConfig) (ap : AgentProcess) : list string :=
  primary_backend dc ap :: FallbackBackends (entry ap).

(** The class a run is given; [None] for a spawn failure or a run that claimed
    a task and ended with 0. *)
Definition run_class (dc : DaemonConfig) (e : AgentEntry) (r : run) : option ErrorClass :=
  match r with
  | SpawnFails => None
  | Exits _ _ code lockTask logFile =>
      if code =? 0 then (if bool_decide (lockTask = ""%string) then Some NoWork else None)
      else Some (Class (ClassifyFromLog logFile code (or_else (ae_Backend e) (dc_Backend dc))))
  end.

Definition run_code (r : run) : Z := match r with SpawnFails => -1 | Exits _ _ code _ _ => code end.

Lemma classifyAgentExit_class dc start now code lockTask logFile ap :
  option_map Class (lastError (classifyAgentExit dc lockTask logFile code ap)) =
  run_class dc (entry ap) (Exits start now code lockTask logFile).
Proof. unfold classifyAgentExit, run_class. case_tests; simpl in *; congruence. Qed.

Lemma classifyAgentExit_frame dc lockTask logFile code ap :
  exists e b, classifyAgentExit dc lockTask logFile code ap = set_error e b ap.
Proof. unfold classifyAgentExit. case_tests; eauto. Qed.

Lemma has_class_map c e : has_class c e = bool_decide (option_map Class e = Some c).
Proof. destruct e as [a|]; simpl; [|done]. by apply bool_decide_ext; split; [intros ->|intros [=]]. Qed.

Lemma tryFallbackBackend_no ap :
  (lastError ap = None \/
   (has_class ModelNotFound (lastError ap) = false /\
    (has_class RateLimited (lastError ap) = false \/ rateRetryCount ap <= 3)) \/
   Z.of_nat (length (FallbackBackends (entry ap))) <= currentBackendIdx ap) ->
  tryFallbackBackend ap = (ap, false).
Proof.
  unfold tryFallbackBackend. intros [H|[[H1 H2]|H]].
  - by rewrite bool_decide_true.
  - rewrite H1. simpl. case_tests; try done. exfalso. destruct H2 as [H2|H2].
    + rewrite H2 in *. simpl in *. congruence.
    + assert ((3 <? rateRetryCount ap) = false) as E by (apply Z.ltb_ge; lia).
      rewrite E, andb_false_r in *. simpl in *. congruence.
  - case_tests; try done. rewrite Z.leb_gt in *. lia.
Qed.

(** Errors that count toward the maximum of retries. *)
Definition counted (dc : DaemonConfig) (c : ErrorClass) : bool :=
  match c with
  | ModelNotFound | ContextOverflow | Timeout | Transient | Unknown => true
  | RateLimited => negb (getRateLimitNoCount dc)
  | _ => false
  end.

Lemma shouldRestart_counted dc now ap c :
  option_map Class (lastError ap) = Some c -> counted dc c = true ->
  shouldRestart dc now ap =
    (set_counts (inc64 (restartCount ap)) 0 ap, inc64 (restartCount ap) <=? getMaxRetries dc).
Proof.
  intros Hc Hn. unfold shouldRestart. rewrite !has_class_map, Hc.
  destruct (lastError ap) as [ae|]; simplify_eq/=. rewrite andb_false_r.
  destruct (Class ae); simpl in *; try done. by destruct (getRateLimitNoCount dc).
Qed.

Lemma decide_counted dc now ap c :
  option_map Class (lastError ap) = Some c -> counted dc c = true ->
  tryFallbackBackend ap = (ap, false) ->
  decide_restart dc now ap =
    let ap' := set_counts (inc64 (restartCount ap)) 0 ap in
    (ap', if inc64 (restartCount ap) <=? getMaxRetries dc then Wait (computeBackoff dc ap') else Stop).
Proof.
  intros Hc Hn Hf. unfold decide_restart. rewrite Hf, (shouldRestart_counted _ _ _ _ Hc Hn).
  by destruct (_ <=? _).
Qed.

Lemma shouldRestart_goes_on dc now ap :
  (option_map Class (lastError ap) = None /\ lastExitCode ap = 0) \/
  option_map Class (lastError ap) = Some NoWork \/
  (option_map Class (lastError ap) = Some RateLimited /\ getRateLimitNoCount dc = true) ->
  snd (shouldRestart dc now ap) = true.
Proof.
  intros H. unfold shouldRestart. rewrite !has_class_map.
  destruct (lastError ap) as [ae|]; simpl in *.
  - rewrite andb_false_r. destruct H as [[[=] _]|[[= ->]|[[= ->] ->]]]; done.
  - destruct H as [[_ ->]|[[=]|[[=] _]]]. done.
Qed.

Lemma decide_goes_on dc now ap :
  (option_map Class (lastError ap) = None /\ lastExitCode ap = 0) \/
  option_map Class (lastError ap) = Some NoWork \/
  (option_map Class (lastError ap) = Some RateLimited /\ getRateLimitNoCount dc = true) ->
  snd (decide_restart dc now ap) <> Stop.
Proof.
  intros H. unfold decide_restart. destruct (tryFallbackBackend ap) as [ap1 [|]] eqn:E; [done|].
  assert (ap1 = ap) as -> by (unfold tryFallbackBackend in E; case_tests; congruence).
  pose proof (shouldRestart_goes_on dc now ap H) as Hg.
  destruct (shouldRestart dc now ap) as [ap2 b]. simpl in Hg. by subst.
Qed.

Lemma decide_frame dc now ap : entry (fst (decide_restart dc now ap)) = entry ap /\
  roleConfig (fst (decide_restart dc now ap)) = roleConfig ap.
Proof.
  unfold decide_restart, tryFallbackBackend, shouldRestart. cbv zeta.
  repeat (case_tests; simpl; try done).
Qed.

(** ** An agent outside epics: the loop is a function of its own counters *)
Definition alone (dc : DaemonConfig) (r : run) (ap : AgentProcess) : AgentProcess * decision :=
  match r with
  | SpawnFails =>
      match handleRestartAfterError dc ap with
      | (ap', Some b) => (ap', Wait b)
      | (ap', None) => (ap', Stop)
      end
  | Exits start now exitCode lockTask logFile =>
      decide_restart dc now (classifyAgentExit dc lockTask logFile exitCode (set_run start exitCode ap))
  end.

Fixpoint alone_all (dc : DaemonConfig) (rs : list run) (ap : AgentProcess) : AgentProcess * list decision :=
  match rs with
  | [] => (ap, [])
  | r :: rs' =>
      let (ap1, d) := alone dc r ap in
      match d with
      | Stop => (ap1, [Stop])
      | _ => let (ap2, ds) := alone_all dc rs' ap1 in (ap2, d :: ds)
      end
  end.

Lemma alone_frame dc r ap : entry (fst (alone dc r ap)) = entry ap /\
  roleConfig (fst (alone dc r ap)) = roleConfig ap.
Proof.
  destruct r as [|st now code lt lf]; simpl.
  - unfold handleRestartAfterError. by destruct (_ <? _).
  - edestruct (classifyAgentExit_frame dc lt lf code (set_run st code ap)) as (e & b & ->).
    exact (decide_frame dc now (set_error e b (set_run st code ap))).
Qed.

Lemma alone_all_app dc rs1 rs2 ap :
  Stop ∉ snd (alone_all dc rs1 ap) ->
  alone_all dc (rs1 ++ rs2) ap =
    let (ap1, ds1) := alone_all dc rs1 ap in
    let (ap2, ds2) := alone_all dc rs2 ap1 in (ap2, ds1 ++ ds2).
Proof.
  revert ap. induction rs1 as [|r rs1 IH]; intros ap Hn; simpl in *.
  - by destruct (alone_all dc rs2 ap).
  - destruct (alone dc r ap) as [ap1 d]. destruct (alone_all dc rs1 ap1) as [ap2 ds] eqn:E.
    assert (d <> Stop) as Hd by (intros ->; simpl in Hn; apply Hn; left).
    assert (Stop ∉ ds) as Hds by (intros Hin; apply Hn; destruct d; try done; by right).
    specialize (IH ap1). rewrite E in IH. specialize (IH Hds).
    destruct d; try done; rewrite IH; by destruct (alone_all dc rs2 ap2).
Qed.

Section no_epics.
Context {sorter : SliceSort} {W : Type} {host : AgentHost W}.

(** No epic is open (or the tracker does not answer), git works and no slot is
    refused. *)
Context (Hslot : forall role w, exists w', acquireSlot role w = (w', true)).
Context (Hquery : forall w, exists w' e, queryOpenEpics w = (w', e) /\ (e = Ok [] \/ exists m, e = Err m)).
Context (Hbranch : forall path b w, exists w', ensureBranch path b w = (w', None)).

Lemma AssignWorktree_none name (ea : gmap string string) w :
  ea !! name = None ->
  exists w' r, AssignWorktree name ea w = (ea, w', r) /\
    match r with Ok e => e | Err _ => ""%string end = ""%string.
Proof.
  intros Hn. unfold AssignWorktree. rewrite Hn.
  destruct (Hquery w) as (w1 & e & -> & [->|[m ->]]); eauto.
Qed.

Lemma set_epic_id ap : assignedEpicID ap = ""%string -> set_epic "" ap = ap.
Proof. destruct ap. simpl. by intros ->. Qed.

Lemma alone_epic dc r ap : assignedEpicID ap = ""%string -> assignedEpicID (fst (alone dc r ap)) = ""%string.
Proof.
  intros He. destruct r as [|st now code lt lf]; simpl.
  - unfold handleRestartAfterError. by destruct (_ <? _).
  - edestruct (classifyAgentExit_frame dc lt lf code (set_run st code ap)) as (e & b & ->).
    unfold decide_restart, tryFallbackBackend, shouldRestart. cbv zeta.
    repeat (case_tests; simpl; try done).
Qed.

Lemma iteration_alone dc r ap (ea : gmap string string) w :
  ea !! Worktree (entry ap) = None -> assignedEpicID ap = ""%string ->
  exists w', iteration dc r ap ea w = (fst (alone dc r ap), ea, w', snd (alone dc r ap)).
Proof.
  intros Hn He. unfold iteration.
  destruct (Hslot (Role (entry ap)) w) as [w0 ->].
  destruct (AssignWorktree_none (Worktree (entry ap)) ea (recoverAgent (worktreePath ap) (Worktree (entry ap)) 0 w0) Hn)
    as (w1 & er & -> & ->).
  rewrite set_epic_id by done.
  destruct (Hbranch (worktreePath ap)
    (if bool_decide (""%string <> ""%string) then epicBranchName "" else Worktree (entry ap)) w1) as [w2 ->].
  destruct r as [|st now code lt lf]; simpl.
  - destruct (handleRestartAfterError dc ap) as [ap' [b|]]; [eauto|].
    unfold ReleaseWorktree. rewrite delete_id by done. eauto.
  - unfold ReleaseWorktree. rewrite delete_id by done.
    edestruct (classifyAgentExit_frame dc lt lf code (set_run st code ap)) as (e & b & ->).
    unfold handleEpicTransition. simpl. rewrite (bool_decide_true (assignedEpicID ap = _)) by done.
    destruct (decide_restart dc now _) as [ap4 d] eqn:E. destruct d; simpl; eauto.
    unfold ReleaseWorktree. rewrite delete_id by done. eauto.
Qed.

Lemma supervise_alone dc rs ap (ea : gmap string string) w :
  ea !! Worktree (entry ap) = None -> assignedEpicID ap = ""%string ->
  exists w', supervise dc rs ap ea w = (fst (alone_all dc rs ap), ea, w', snd (alone_all dc rs ap)).
Proof.
  revert ap w. induction rs as [|r rs IH]; intros ap w Hn He; simpl; [eauto|].
  destruct (iteration_alone dc r ap ea w Hn He) as [w1 ->].
  pose proof (alone_frame dc r ap) as [Hf _]. pose proof (alone_epic dc r ap He) as He1.
  destruct (alone dc r ap) as [ap1 d]. simpl in *.
  destruct (IH ap1 w1) as [w2 E]; [by rewrite Hf|done|].
  destruct d; simpl; eauto; rewrite E; destruct (alone_all dc rs ap1); simpl; eauto.
Qed.

(** ** Counted failures *)
Definition exhausted (ap : AgentProcess) : Prop :=
  Z.of_nat (length (FallbackBackends (entry ap))) <= currentBackendIdx ap.

(** A run that counts toward the maximum: it did not start, or ended with a
    counted class, an unknown model only with no back end left. *)
Definition counts (dc : DaemonConfig) (ap : AgentProcess) (r : run) : Prop :=
  r = SpawnFails \/
  exists c, run_class dc (entry ap) r = Some c /\ counted dc c = true /\ (c = ModelNotFound -> exhausted ap).

Lemma alone_counts dc r ap :
  counts dc ap r -> rateRetryCount ap <= 3 \/ exhausted ap ->
  exists ap1, alone dc r ap =
      (ap1, if inc64 (restartCount ap) <=? getMaxRetries dc then Wait (computeBackoff dc ap1) else Stop) /\
    restartCount ap1 = inc64 (restartCount ap) /\ entry ap1 = entry ap /\
    currentBackendIdx ap1 = currentBackendIdx ap /\
    (rateRetryCount ap1 = 0 \/ rateRetryCount ap1 = rateRetryCount ap).
Proof.
  intros [->|(c & Hc & Hn & Hm)] Hr.
  - exists (set_counts (inc64 (restartCount ap)) (rateRetryCount ap) ap). simpl.
    unfold handleRestartAfterError. simpl. rewrite Z.ltb_antisym.
    destruct (inc64 (restartCount ap) <=? getMaxRetries dc); simpl; repeat split; auto.
  - destruct r as [|st now code lt lf]; [done|].
    pose proof (classifyAgentExit_class dc st now code lt lf (set_run st code ap)) as Hcl.
    destruct (classifyAgentExit_frame dc lt lf code (set_run st code ap)) as (e & b & E).
    simpl alone. rewrite E in *. simpl entry in Hcl. rewrite Hc in Hcl. simpl in Hcl.
    rewrite (decide_counted _ _ _ c); [|done|done|].
    + eexists. split; [reflexivity|]. simpl. auto.
    + apply tryFallbackBackend_no. simpl. rewrite !has_class_map, Hcl. unfold exhausted in *.
      destruct c; simpl; auto; destruct Hr; auto.
Qed.

Lemma alone_all_counts dc rs ap :
  Forall (counts dc ap) rs -> rateRetryCount ap <= 3 \/ exhausted ap ->
  0 <= restartCount ap -> restartCount ap < max_int64 -> getMaxRetries dc < max_int64 ->
  (Z.to_nat (getMaxRetries dc - restartCount ap) < length rs)%nat ->
  exists waits, snd (alone_all dc rs ap) = map Wait waits ++ [Stop] /\
    length waits = Z.to_nat (getMaxRetries dc - restartCount ap).
Proof.
  revert ap. induction rs as [|r rs IH]; intros ap HF Hr Hc0 Hc Hmax Hlen; simpl in Hlen; [lia|].
  apply Forall_cons in HF as [H1 HF].
  destruct (alone_counts dc r ap H1 Hr) as (ap1 & E & Hrc & He & Hi & Hrr). simpl. rewrite E.
  rewrite inc64_id in * by int64_lia.
  destruct (Z.leb_spec (restartCount ap + 1) (getMaxRetries dc)).
  - destruct (IH ap1) as (waits & Ews & Hlw).
    + eapply Forall_impl; [exact HF|]. unfold counts, exhausted. by rewrite He, Hi.
    + unfold exhausted in *. rewrite He, Hi. lia.
    + lia.
    + lia.
    + done.
    + rewrite Hrc. lia.
    + destruct (alone_all dc rs ap1) as [ap2 ds]. simpl in *. subst ds.
      exists (computeBackoff dc ap1 :: waits). simpl. split; [done|]. rewrite Hlw, Hrc. lia.
  - exists []. simpl. split; [done|]. lia.
Qed.

(** C14. An agent that keeps failing is given up after exactly the configured
    number of retries: from a count of [n] it is restarted [max_retries - n]
    times, each time after a wait, and then its supervisor stops, whether the
    runs fail to start or end with an error of a counted class. *)
Theorem counted_failures_stop dc rs ap (ea : gmap string string) w :
  ea !! Worktree (entry ap) = None -> assignedEpicID ap = ""%string ->
  Forall (counts dc ap) rs -> rateRetryCount ap = 0 ->
  0 <= restartCount ap < max_int64 -> getMaxRetries dc < max_int64 ->
  (Z.to_nat (getMaxRetries dc - restartCount ap) < length rs)%nat ->
  exists ap' w' waits,
    supervise dc rs ap ea w =
      (ap', ea, w', map Wait waits ++ [Stop]) /\
    length waits = Z.to_nat (getMaxRetries dc - restartCount ap).
Proof.
  intros Hn He HF Hr [Hc0 Hc] Hmax Hlen.
  destruct (supervise_alone dc rs ap ea w Hn He) as [w' ->].
  destruct (alone_all_counts dc rs ap) as (waits & -> & Hl); eauto. left. lia.
Qed.

(** With rate limits counted ([rate_limit_no_count: false]) an agent never
    fails over, whatever fallbacks it has: its supervisor stops after the
    configured retries although other back ends remain. *)
Theorem counted_rate_limits_never_fail_over dc rs ap (ea : gmap string string) w :
  ea !! Worktree (entry ap) = None -> assignedEpicID ap = ""%string ->
  getRateLimitNoCount dc = false ->
  Forall (fun r => run_class dc (entry ap) r = Some RateLimited) rs ->
  restartCount ap = 0 -> rateRetryCount ap = 0 -> getMaxRetries dc < max_int64 ->
  (Z.to_nat (getMaxRetries dc) < length rs)%nat ->
  exists ap' w' waits,
    supervise dc rs ap ea w =
      (ap', ea, w', map Wait waits ++ [Stop]) /\
    length waits = Z.to_nat (getMaxRetries dc).
Proof.
  intros Hn He Hnc HF Hc Hr Hmax Hlen.
  destruct (supervise_alone dc rs ap ea w Hn He) as [w' ->].
  assert (Forall (counts dc ap) rs) as HF'.
  { eapply Forall_impl; [exact HF|]. intros r Hcl. right. exists RateLimited.
    split; [done|]. simpl. rewrite Hnc. split; [done|]. intros [=]. }
  destruct (alone_all_counts dc rs ap HF') as (waits & -> & Hl); rewrite ?Hc, ?Z.sub_0_r in *; eauto.
  1: lia.
  all: int64_lia.
Qed.

(** ** Failover *)
Definition fails_over (dc : DaemonConfig) (ap : AgentProcess) (r : run) : Prop :=
  run_class dc (entry ap) r = Some ModelNotFound \/
  (run_class dc (entry ap) r = Some RateLimited /\ 3 < rateRetryCount ap).

Lemma alone_fails_over dc r ap :
  fails_over dc ap r -> 0 <= currentBackendIdx ap < Z.of_nat (length (FallbackBackends (entry ap))) ->
  exists ap1, alone dc r ap = (ap1, FailOver) /\ entry ap1 = entry ap /\ roleConfig ap1 = roleConfig ap /\
    currentBackendIdx ap1 = currentBackendIdx ap + 1 /\ restartCount ap1 = 0 /\ rateRetryCount ap1 = 0.
Proof.
  intros Hf Hi. destruct r as [|st now code lt lf]; [by destruct Hf as [|[]]|].
  pose proof (classifyAgentExit_class dc st now code lt lf (set_run st code ap)) as Hcl.
  destruct (classifyAgentExit_frame dc lt lf code (set_run st code ap)) as (e & b & E).
  simpl alone. rewrite E in *. simpl entry in Hcl. simpl lastError in Hcl. unfold fails_over in Hf.
  rewrite <- Hcl in Hf. clear Hcl. unfold decide_restart, tryFallbackBackend. simpl. rewrite !has_class_map.
  destruct e as [ae|]; simpl in *; [|by destruct Hf as [|[]]].
  rewrite (proj2 (Z.eqb_neq _ 0)) by lia. simpl.
  assert (bool_decide (Some (Class ae) = Some ModelNotFound) ||
    bool_decide (Some (Class ae) = Some RateLimited) && (3 <? rateRetryCount ap) = true) as ->.
  { destruct Hf as [Hf|[Hf Hr]]; rewrite Hf; [done|]. simpl. by apply Z.ltb_lt. }
  simpl. rewrite (proj2 (Z.leb_gt (1 + _) _)) by lia. eexists. split; [reflexivity|]. by repeat split.
Qed.

Lemma alone_all_fails_over dc rs ap k :
  Forall (fun r => run_class dc (entry ap) r = Some ModelNotFound) rs -> k = length rs ->
  0 <= currentBackendIdx ap ->
  currentBackendIdx ap + Z.of_nat k <= Z.of_nat (length (FallbackBackends (entry ap))) ->
  restartCount ap = 0 -> rateRetryCount ap = 0 ->
  exists ap1, alone_all dc rs ap = (ap1, replicate k FailOver) /\
    entry ap1 = entry ap /\ roleConfig ap1 = roleConfig ap /\
    currentBackendIdx ap1 = currentBackendIdx ap + Z.of_nat k /\ restartCount ap1 = 0 /\ rateRetryCount ap1 = 0.
Proof.
  intros HF ->. revert ap HF. induction rs as [|r rs IH]; intros ap HF Hi0 Hi Hc Hr.
  { exists ap. simpl. rewrite Z.add_0_r. by repeat split. }
  simpl length in *. apply Forall_cons in HF as [H1 HF].
  destruct (alone_fails_over dc r ap) as (ap1 & E & He & Hrc & Hi1 & Hc1 & Hr1); [by left| |]; [lia|].
  rewrite <- He in HF.
  destruct (IH ap1 HF) as (ap2 & E2 & He2 & Hrc2 & Hi2 & Hc2 & Hr2); rewrite ?He; try done; try lia.
  simpl. rewrite E, E2. exists ap2. repeat split; congruence || lia.
Qed.

(** The back end at the current position is the one of the list. *)
Lemma getEffectiveBackend_nth dc ap k :
  currentBackendIdx ap = Z.of_nat k -> (k < length (backends dc ap))%nat ->
  backends dc ap !! k = Some (getEffectiveBackend dc ap).
Proof.
  intros Hk Hlen. unfold getEffectiveBackend, backends in *. rewrite Hk.
  destruct k as [|k]; [done|].
  rewrite (proj2 (Z.eqb_neq _ 0)) by lia. simpl in *.
  replace (Z.to_nat (Z.of_nat (S k) - 1)) with k by lia.
  destruct (lookup_lt_is_Some_2 (FallbackBackends (entry ap)) k) as [b Hb]; [lia|]. by rewrite Hb.
Qed.

(** An agent whose model is not found walks its back ends in the configured
    order, one run each and without waiting: before the k-th run it uses the
    k-th of primary and fallbacks; when the last one fails too its supervisor
    stops after the configured retries. *)
Theorem model_not_found_walks_backends dc rs ap (ea : gmap string string) w :
  let n := length (FallbackBackends (entry ap)) in
  ea !! Worktree (entry ap) = None -> assignedEpicID ap = ""%string ->
  Forall (fun r => run_class dc (entry ap) r = Some ModelNotFound) rs ->
  currentBackendIdx ap = 0 -> restartCount ap = 0 -> rateRetryCount ap = 0 ->
  getMaxRetries dc < max_int64 ->
  (n + Z.to_nat (getMaxRetries dc) < length rs)%nat ->
  (forall k, (k <= n)%nat -> exists ap' w',
    supervise dc (take k rs) ap ea w =
      (ap', ea, w', replicate k FailOver) /\
    backends dc ap !! k = Some (getEffectiveBackend dc ap')) /\
  exists ap' w' waits,
    supervise dc rs ap ea w =
      (ap', ea, w', replicate n FailOver ++ map Wait waits ++ [Stop]) /\
    length waits = Z.to_nat (getMaxRetries dc).
Proof.
  intros n Hn He HF Hi Hc Hr Hmax Hlen.
  assert (forall k, (k <= n)%nat -> exists ap1, alone_all dc (take k rs) ap = (ap1, replicate k FailOver) /\
    entry ap1 = entry ap /\ roleConfig ap1 = roleConfig ap /\
    currentBackendIdx ap1 = Z.of_nat k /\ restartCount ap1 = 0 /\ rateRetryCount ap1 = 0) as Hk.
  { intros k Hk. destruct (alone_all_fails_over dc (take k rs) ap k) as (ap1 & E & H).
    - by apply Forall_take.
    - rewrite length_take. lia.
    - lia.
    - fold n. lia.
    - done.
    - done.
    - exists ap1. rewrite Hi, Z.add_0_l in H. by split. }
  split.
  - intros k Hle. destruct (Hk k Hle) as (ap1 & E & He1 & Hrc1 & Hi1 & _).
    destruct (supervise_alone dc (take k rs) ap ea w Hn He) as [w' ->]. rewrite E. simpl.
    exists ap1, w'. split; [done|].
    assert (backends dc ap = backends dc ap1) as -> by (unfold backends, primary_backend; by rewrite He1, Hrc1).
    apply getEffectiveBackend_nth; [done|]. unfold backends. simpl. rewrite He1. fold n. lia.
  - destruct (Hk n (Nat.le_refl n)) as (ap1 & E & He1 & Hrc1 & Hi1 & Hc1 & Hr1).
    destruct (supervise_alone dc rs ap ea w Hn He) as [w' ->].
    rewrite <- (take_drop n rs), alone_all_app; rewrite E; simpl.
    2: { intros Hin%elem_of_replicate. by destruct Hin. }
    destruct (alone_all_counts dc (drop n rs) ap1) as (waits & Ew & Hl).
    + apply Forall_drop. eapply Forall_impl; [exact HF|]. intros r Hcl. right. exists ModelNotFound.
      rewrite He1. split; [done|]. split; [done|]. intros _. unfold exhausted. rewrite He1, Hi1. fold n. lia.
    + left. lia.
    + lia.
    + rewrite Hc1. int64_lia.
    + done.
    + rewrite length_drop, Hc1, Z.sub_0_r. lia.
    + rewrite Hc1, Z.sub_0_r in Hl. destruct (alone_all dc (drop n rs) ap1) as [ap2 ds]. simpl in *. subst ds.
      exists ap2, w', waits. auto.
Qed.

Lemma alone_rate_waits dc r ap :
  run_class dc (entry ap) r = Some RateLimited -> getRateLimitNoCount dc = true ->
  rateRetryCount ap <= 3 ->
  exists ap1, alone dc r ap = (ap1, Wait (computeBackoff dc ap1)) /\ entry ap1 = entry ap /\
    currentBackendIdx ap1 = currentBackendIdx ap /\ restartCount ap1 = restartCount ap /\
    rateRetryCount ap1 = inc64 (rateRetryCount ap).
Proof.
  intros Hf Hnc Hr. destruct r as [|st now code lt lf]; [done|].
  pose proof (classifyAgentExit_class dc st now code lt lf (set_run st code ap)) as Hcl.
  destruct (classifyAgentExit_frame dc lt lf code (set_run st code ap)) as (e & b & E).
  simpl alone. rewrite E in *. simpl entry in Hcl. simpl lastError in Hcl.
  rewrite Hf in Hcl. clear Hf.
  assert (tryFallbackBackend (set_error e b (set_run st code ap)) = (set_error e b (set_run st code ap), false)) as Ht.
  { apply tryFallbackBackend_no. right. left. simpl. rewrite !has_class_map, Hcl. auto. }
  unfold decide_restart. rewrite Ht. unfold shouldRestart. simpl lastError. rewrite !has_class_map, Hcl, Hnc.
  destruct e as [ae|]; simplify_eq/=. rewrite andb_false_r, Hcl. simpl.
  eexists. split; [reflexivity|]. by repeat split.
Qed.

(** With rate limits not counted (the default) four rate-limited runs in a
    row are each retried after a wait and the fifth fails over to the next back
    end, with the counters reset. *)
Theorem fifth_rate_limit_fails_over dc rs ap (ea : gmap string string) w :
  ea !! Worktree (entry ap) = None -> assignedEpicID ap = ""%string ->
  getRateLimitNoCount dc = true ->
  Forall (fun r => run_class dc (entry ap) r = Some RateLimited) rs -> length rs = 5%nat ->
  rateRetryCount ap = 0 ->
  0 <= currentBackendIdx ap < Z.of_nat (length (FallbackBackends (entry ap))) ->
  exists ap' w' b1 b2 b3 b4,
    supervise dc rs ap ea w =
      (ap', ea, w', [Wait b1; Wait b2; Wait b3; Wait b4; FailOver]) /\
    currentBackendIdx ap' = currentBackendIdx ap + 1 /\ restartCount ap' = 0 /\ rateRetryCount ap' = 0.
Proof.
  intros Hn He Hnc HF Hlen Hr0 Hi.
  destruct rs as [|r1 [|r2 [|r3 [|r4 [|r5 [|]]]]]]; try done. clear Hlen.
  repeat apply Forall_cons in HF as [? HF].
  destruct (alone_rate_waits dc r1 ap) as (a1 & E1 & He1 & Hi1 & _ & Hr1); [done|done|lia|].
  destruct (alone_rate_waits dc r2 a1) as (a2 & E2 & He2 & Hi2 & _ & Hr2);
    [by rewrite He1|done|by rewrite Hr1, Hr0|].
  destruct (alone_rate_waits dc r3 a2) as (a3 & E3 & He3 & Hi3 & _ & Hr3);
    [by rewrite He2, He1|done|by rewrite Hr2, Hr1, Hr0|].
  destruct (alone_rate_waits dc r4 a3) as (a4 & E4 & He4 & Hi4 & _ & Hr4);
    [by rewrite He3, He2, He1|done|by rewrite Hr3, Hr2, Hr1, Hr0|].
  destruct (alone_fails_over dc r5 a4) as (a5 & E5 & _ & _ & Hi5 & Hc5 & Hr5).
  { right. rewrite Hr4, Hr3, Hr2, Hr1, Hr0, He4, He3, He2, He1. by split. }
  { rewrite He4, He3, He2, He1, Hi4, Hi3, Hi2, Hi1. done. }
  destruct (supervise_alone dc [r1; r2; r3; r4; r5] ap ea w Hn He) as [w' ->].
  simpl. rewrite E1, E2, E3, E4, E5. simpl.
  do 6 eexists. split; [reflexivity|]. rewrite Hi5, Hi4, Hi3, Hi2, Hi1. done.
Qed.
End no_epics.

(** ** Runs that are no failures *)
Section any_world.
Context {sorter : SliceSort} {W : Type} {host : AgentHost W}.

(** A run that ends with 0, with or without a task, or at a rate limit that is
    not counted. *)
Definition benign (dc : DaemonConfig) (e : AgentEntry) (r : run) : Prop :=
  match r with SpawnFails => False | _ => True end /\
  (run_code r = 0 \/ (run_class dc e r = Some RateLimited /\ getRateLimitNoCount dc = true)).

(** An epic transition changes no more than the epic and the restart count. *)
Lemma handleEpicTransition_frame ap ea w :
  exists ep n, fst (fst (fst (handleEpicTransition ap ea w))) =
    set_counts n (rateRetryCount ap) (set_epic ep ap).
Proof.
  assert (exists ep n, ap = set_counts n (rateRetryCount ap) (set_epic ep ap)) as Hid
    by (exists (assignedEpicID ap), (restartCount ap); by destruct ap).
  assert (forall w, exists ep n, fst (fst (switchToNonEpicMode ap w)) =
    set_counts n (rateRetryCount ap) (set_epic ep ap)) as Hsw.
  { intros w'. unfold switchToNonEpicMode.
    destruct (ensureBranch _ _ w') as [w1 [e|]]; simpl; [|by eexists _, _].
    by exists ""%string, (restartCount ap). }
  unfold handleEpicTransition. destruct (bool_decide _); [done|].
  destruct (epicHasReadyTasks _ w) as [w1 [[|]|]]; try done.
  destruct (AssignWorktree _ _ w1) as [[ea2 w2] [e|]]; [destruct (bool_decide _)|].
  - specialize (Hsw w2). by destruct (switchToNonEpicMode _ w2) as [[] ?].
  - destruct (ensureBranch _ _ w2) as [w3 [|]]; simpl; [done|]. by eexists _, _.
  - specialize (Hsw w2). by destruct (switchToNonEpicMode _ w2) as [[] ?].
Qed.

Lemma iteration_benign dc r ap ea w :
  (forall role w, snd (acquireSlot role w) = true) ->
  (forall path b w, snd (ensureBranch path b w) = None) -> benign dc (entry ap) r ->
  exists ap1 ea1 w1 d, iteration dc r ap ea w = (ap1, ea1, w1, d) /\
    d <> Stop /\ entry ap1 = entry ap.
Proof.
  intros Hsl Hbr [Hsp Hb]. destruct r as [|st now code lt lf]; [done|]. unfold iteration.
  specialize (Hsl (Role (entry ap)) w). destruct (acquireSlot _ w) as [w0 sl]. simpl in Hsl. subst sl.
  destruct (AssignWorktree _ ea _) as [[ea1 w1] er].
  set (ap1 := set_epic _ ap). set (br := if bool_decide _ then _ else _).
  specialize (Hbr (worktreePath ap1) br w1). destruct (ensureBranch _ br w1) as [w2 o]. simpl in Hbr. subst o.
  pose proof (classifyAgentExit_class dc st now code lt lf (set_run st code ap1)) as Hcl.
  destruct (classifyAgentExit_frame dc lt lf code (set_run st code ap1)) as (e & b & E).
  rewrite E in *. simpl entry in Hcl. simpl lastError in Hcl.
  set (ap2 := set_error e b _).
  match goal with |- context [handleEpicTransition ap2 ?e ?x] =>
    pose proof (handleEpicTransition_frame ap2 e x) as (ep & n & Hf) end.
  destruct (handleEpicTransition _ _ _) as [[[ap3 ea3] w3] x]. simpl in Hf.
  pose proof (decide_goes_on dc now ap3) as Hd. pose proof (decide_frame dc now ap3) as [Hfr _].
  destruct (decide_restart dc now ap3) as [ap4 d]. simpl in *. do 4 eexists. split; [reflexivity|].
  rewrite Hfr, Hf. split; [|done]. apply Hd. clear Hd. rewrite Hf. simpl lastError. simpl lastExitCode.
  rewrite Hcl. clear Hcl. destruct Hb as [->|[-> Hnc]]; [|by right; right].
  simpl. case_tests; auto.
Qed.

(** The supervisor never gives up an agent for runs that are no failures:
    over any sequence of runs that end with 0 (with work or without) or at a
    rate limit that is not counted, in any state of the counters and of the
    epics, it goes on after every one of them. *)
Theorem benign_runs_never_stop dc rs ap ea w :
  (forall role w, snd (acquireSlot role w) = true) ->
  (forall path b w, snd (ensureBranch path b w) = None) -> Forall (benign dc (entry ap)) rs ->
  exists ap' ea' w' ds,
    supervise dc rs ap ea w = (ap', ea', w', ds) /\
    length ds = length rs /\ Stop ∉ ds.
Proof.
  intros Hsl Hbr. revert ap ea w. induction rs as [|r rs IH]; intros ap ea w HF; simpl.
  { do 4 eexists. split; [reflexivity|]. split; [done|]. apply not_elem_of_nil. }
  apply Forall_cons in HF as [H1 HF].
  destruct (iteration_benign dc r ap ea w Hsl Hbr H1) as (ap1 & ea1 & w1 & d & -> & Hd & He).
  rewrite <- He in HF. destruct (IH ap1 ea1 w1 HF) as (ap2 & ea2 & w2 & ds & E & Hl & Hs).
  exists ap2, ea2, w2, (d :: ds). destruct d; try done; rewrite E; simpl;
    rewrite Hl; (split; [done|]); (split; [done|]); rewrite elem_of_cons; by intros [|].
Qed.

(** ** Epic assignments *)
Lemma epic_less_strict_weak : strict_weak epic_less.
Proof.
  unfold strict_weak, epic_less. split; [|split].
  - intros a. rewrite Z.eqb_refl. apply str_lt_irrefl.
  - intros a b c. destruct (Z.eqb_spec (ep_Priority a) (ep_Priority b)),
      (Z.eqb_spec (ep_Priority b) (ep_Priority c)), (Z.eqb_spec (ep_Priority a) (ep_Priority c)); simpl;
      rewrite ?Z.ltb_lt; try lia. apply str_lt_trans.
  - intros a b c. destruct (Z.eqb_spec (ep_Priority a) (ep_Priority b)),
      (Z.eqb_spec (ep_Priority b) (ep_Priority c)), (Z.eqb_spec (ep_Priority a) (ep_Priority c)); simpl;
      rewrite ?Z.ltb_ge; try lia. apply str_lt_negtrans.
Qed.

(** [a] comes no later than [b]: a smaller priority number, then the identifier. *)
Definition epic_before (a b : EpicInfo) : Prop :=
  ep_Priority a < ep_Priority b \/
  (ep_Priority a = ep_Priority b /\ str_lt (ep_ID b) (ep_ID a) = false).

Lemma epic_less_before a b : epic_less b a = false -> epic_before a b.
Proof.
  unfold epic_less, epic_before. destruct (Z.eqb_spec (ep_Priority b) (ep_Priority a)); simpl; [auto|].
  rewrite Z.ltb_ge. lia.
Qed.

Definition free_ready (ready : string -> res bool) (ea : gmap string string) (epics : list EpicInfo) : list EpicInfo :=
  filter (fun e => (ep_ID e ∉ (map_img ea : gset string)) /\ (match ready (ep_ID e) with Ok true => true | _ => false end) = true) epics.

Lemma ready_epics_filter ready ea epics w :
  (forall id w, snd (epicHasReadyTasks id w) = ready id) ->
  snd (ready_epics (map_img ea) epics w) = free_ready ready ea epics.
Proof.
  intros Hr. revert w. induction epics as [|e epics IH]; intros w; simpl; [done|].
  unfold free_ready in *. rewrite filter_cons. case_bool_decide as Hin.
  - rewrite decide_False by tauto. apply IH.
  - specialize (Hr (ep_ID e) w). destruct (epicHasReadyTasks (ep_ID e) w) as [w1 r]. simpl in Hr. subst r.
    specialize (IH w1). destruct (ready_epics _ epics w1) as [w2 l]. simpl in *. subst l.
    destruct (ready (ep_ID e)) as [[|]|].
    + rewrite decide_True by done. done.
    + rewrite decide_False by (intros [_ [=]]). done.
    + rewrite decide_False by (intros [_ [=]]). done.
Qed.

(** A worktree without an epic gets the best of the open epics that no
    other worktree has and that have ready work, by priority and then
    identifier; none if there is no such epic, and nothing else changes. *)
Theorem AssignWorktree_best name ea w w1 epics ready :
  ea !! name = None -> queryOpenEpics w = (w1, Ok epics) ->
  (forall id w, snd (epicHasReadyTasks id w) = ready id) ->
  exists ea' w' r,
    AssignWorktree name ea w = (ea', w', Ok r) /\
    ((free_ready ready ea epics = [] /\ r = ""%string /\ ea' = ea) \/
     exists c, c ∈ free_ready ready ea epics /\ r = ep_ID c /\ ea' = <[name := ep_ID c]> ea /\
       forall d, d ∈ free_ready ready ea epics -> epic_before c d).
Proof.
  intros Hn Hq Hr. unfold AssignWorktree. rewrite Hn, Hq.
  pose proof (ready_epics_filter ready ea epics w1 Hr) as Hf.
  destruct epics as [|e epics]; [by do 3 eexists; split; [reflexivity|]; left|].
  destruct (ready_epics _ (e :: epics) w1) as [w2 cs]. simpl in Hf. subst cs.
  destruct (free_ready ready ea (e :: epics)) as [|c0 cs] eqn:Ef;
    [by do 3 eexists; split; [reflexivity|]; left|].
  destruct (sort_slice epic_less (c0 :: cs)) as [|c cs'] eqn:Es; [by apply sort_slice_nil in Es|].
  destruct (sort_slice_head_min epic_less _ _ _ epic_less_strict_weak Es) as [Hin Hmin].
  simpl. do 3 eexists. split; [reflexivity|]. right. exists c. repeat split; [done|].
  intros d Hd. by apply epic_less_before, Hmin.
Qed.

(** The two operations of the assigner, each under its mutex, by any of the
    supervisors and against any answers of the tracker. *)
Inductive ea_label := LAssign (worktree : string) | LRelease (worktree : string).
Inductive ea_step : gmap string string -> ea_label -> gmap string string -> Prop :=
| step_assign name ea w ea' w' r :
    AssignWorktree name ea w = (ea', w', r) -> ea_step ea (LAssign name) ea'
| step_release name ea : ea_step ea (LRelease name) (ReleaseWorktree name ea).

Definition exclusive (ea : gmap string string) : Prop :=
  forall a b e, ea !! a = Some e -> ea !! b = Some e -> a = b.

Lemma ready_epics_free (assigned : gset string) epics w e :
  e ∈ snd (ready_epics assigned epics w) -> ep_ID e ∉ assigned.
Proof.
  revert w. induction epics as [|x epics IH]; intros w; simpl; [by intros ?%elem_of_nil|].
  case_bool_decide; [apply IH|].
  destruct (epicHasReadyTasks (ep_ID x) w) as [w1 r]. specialize (IH w1).
  destruct (ready_epics _ epics w1) as [w2 l]. simpl in *.
  destruct r as [[|]|]; try done. intros [->|?]%elem_of_cons; auto.
Qed.

Lemma ea_step_exclusive ea l ea' : exclusive ea -> ea_step ea l ea' -> exclusive ea'.
Proof.
  intros Hx Hs. revert Hx. destruct Hs as [name ea0 w ea1 w' r E|name ea0]; intros Hx.
  - unfold AssignWorktree in E. destruct (ea0 !! name) eqn:Hn; [by simplify_eq|].
    destruct (queryOpenEpics w) as [w1 [epics|]]; [|by simplify_eq].
    destruct epics as [|e0 epics]; [by simplify_eq|].
    pose proof (fun c => ready_epics_free (map_img ea0) (e0 :: epics) w1 c) as Hfree.
    destruct (ready_epics _ _ w1) as [w2 cs]. simpl in Hfree.
    destruct cs as [|c0 cs]; [by simplify_eq|].
    destruct (sort_slice epic_less (c0 :: cs)) as [|c cs'] eqn:Es; [by apply sort_slice_nil in Es|]. simpl in E.
    destruct (sort_slice_head_min epic_less _ _ _ epic_less_strict_weak Es) as [Hin _].
    specialize (Hfree c Hin). simplify_eq. intros a b e.
    assert (forall x, ea0 !! x = Some (ep_ID c) -> False) as Hno
      by (intros x Hx'; by apply Hfree, (elem_of_map_img_2 ea0 x)).
    rewrite !lookup_insert. do 2 case_decide; simplify_eq; auto.
    + intros [= <-] ?%Hno. done.
    + intros ? [= <-]. by exfalso; eauto.
    + apply Hx.
  - intros a b e. unfold ReleaseWorktree. rewrite !lookup_delete_Some. intros [_ ?] [_ ?]. eauto.
Qed.

(** No two worktrees ever hold the same epic: whatever the interleaving of
    the supervisors' assignments and releases and whatever the tracker
    answers. *)
Theorem epics_exclusive ls ea : steps ea_step ∅ ls ea -> exclusive ea.
Proof.
  intros Hs. eapply steps_inv; [|exact Hs|].
  - intros s l s' H1 H2. by eapply ea_step_exclusive.
  - intros a b e Ha. by rewrite lookup_empty in Ha.
Qed.
End any_world.

(** ** Slots: a host that also records what it is asked of the tracker *)
Inductive slot_event := Acquired (role : string) | Refused (role : string) | Released (role : string).

Section slots.
Context {sorter : SliceSort} {W : Type} (h : AgentHost W).

Definition on_fst {A} (f : W -> W * A) (w : W * list slot_event) : W * list slot_event * A :=
  ((fst (f (fst w)), snd w), snd (f (fst w))).
Definition logged : AgentHost (W * list slot_event) := {|
  acquireSlot role w :=
    let (w', b) := acquireSlot role (fst w) in
    (w', snd w ++ [if b : bool then Acquired role else Refused role], b);
  releaseSlot role w := (releaseSlot role (fst w), snd w ++ [Released role]);
  recoverAgent path name code w := (recoverAgent path name code (fst w), snd w);
  handleAgentCheckpoint ap code w := (handleAgentCheckpoint ap code (fst w), snd w);
  ensureEpicPR path epic w := (ensureEpicPR path epic (fst w), snd w);
  ensureBranch path b := on_fst (ensureBranch path b);
  queryOpenEpics := on_fst queryOpenEpics;
  epicHasReadyTasks id := on_fst (epicHasReadyTasks id)
|}.
#[local] Existing Instance logged.

Lemma ready_epics_log (assigned : gset string) epics (w : W * list slot_event) :
  snd (fst (ready_epics assigned epics w)) = snd w.
Proof.
  revert w. induction epics as [|e epics IH]; intros w; simpl; [done|].
  case_bool_decide; [apply IH|].
  match goal with |- context [ready_epics _ epics ?x] =>
    specialize (IH x); destruct (ready_epics _ epics x) end. simpl in *. done.
Qed.

Lemma AssignWorktree_log name ea (w : W * list slot_event) :
  snd (snd (fst (AssignWorktree name ea w))) = snd w.
Proof.
  unfold AssignWorktree. destruct (ea !! name); [done|]. simpl.
  destruct (queryOpenEpics (fst w)) as [w1 [epics|]]; simpl; [|done]. destruct epics as [|e epics]; [done|].
  match goal with |- context [ready_epics ?a ?b ?x] =>
    pose proof (ready_epics_log a b x) as Hl; destruct (ready_epics a b x) as [w2 [|c cs]] end; simpl in *; [done|].
  by destruct (head (sort_slice epic_less (c :: cs))).
Qed.

Lemma handleEpicTransition_log ap ea (w : W * list slot_event) :
  snd (snd (fst (handleEpicTransition ap ea w))) = snd w.
Proof.
  unfold handleEpicTransition. destruct (bool_decide _); [done|]. simpl.
  destruct (epicHasReadyTasks _ (fst w)) as [w1 [[|]|]]; simpl; try done.
  match goal with |- context [AssignWorktree ?n ?e ?x] =>
    pose proof (AssignWorktree_log n e x) as Hl; destruct (AssignWorktree n e x) as [[ea2 w2] [e2|]] end;
    simpl in Hl.
  - destruct (bool_decide _).
    + unfold switchToNonEpicMode. simpl. by destruct (ensureBranch _ _ (fst w2)) as [? [|]].
    + simpl. by destruct (ensureBranch _ _ (fst w2)) as [? [|]].
  - unfold switchToNonEpicMode. simpl. by destruct (ensureBranch _ _ (fst w2)) as [? [|]].
Qed.

Lemma iteration_slots dc r ap ea w l :
  let role := Role (entry ap) in
  exists ap' ea' w' evs d, iteration dc r ap ea (w, l) = (ap', ea', (w', l ++ evs), d) /\
    entry ap' = entry ap /\
    (evs = [Acquired role; Released role] \/ (evs = [Refused role] /\ d = Stop)).
Proof.
  intros role. unfold iteration. simpl. fold role.
  destruct (acquireSlot role w) as [w0 [|]]; simpl; [|do 5 eexists; split; [reflexivity|]; auto].
  match goal with |- context [AssignWorktree ?n ?e ?x] =>
    pose proof (AssignWorktree_log n e x) as Hl; destruct (AssignWorktree n e x) as [[ea1 w1] er] end.
  simpl in Hl. set (ap1 := set_epic _ ap). unfold on_fst.
  destruct (ensureBranch _ _ (fst w1)) as [w2 [e|]]; simpl.
  1: { unfold handleRestartAfterError. rewrite Hl, <- app_assoc.
       destruct (_ <? _); do 5 eexists; (split; [reflexivity|]); auto. }
  destruct r as [|st now code lt lf].
  1: { unfold handleRestartAfterError. rewrite Hl, <- app_assoc.
       destruct (_ <? _); do 5 eexists; (split; [reflexivity|]); auto. }
  destruct (classifyAgentExit_frame dc lt lf code (set_run st code ap1)) as (er' & b & ->).
  set (ap2 := set_error er' b _).
  match goal with |- context [handleEpicTransition ap2 ?e ?x] =>
    pose proof (handleEpicTransition_log ap2 e x) as Hl2;
    pose proof (handleEpicTransition_frame ap2 e x) as (ep & n & Hf);
    assert (snd x = l ++ [Acquired role; Released role]) as Hx
      by (case_bool_decide; simpl; by rewrite Hl, <- app_assoc) end.
  destruct (handleEpicTransition _ _ _) as [[[ap3 ea3] [w5 l5]] x]. rewrite Hx in Hl2. simpl in Hl2, Hf. subst l5.
  pose proof (decide_frame dc now ap3) as [Hfr _]. destruct (decide_restart dc now ap3) as [ap4 d]. simpl in Hfr.
  do 5 eexists. split; [reflexivity|]. split; [|by left]. by rewrite Hfr, Hf.
Qed.

(** No slot leaks: whatever the agent's runs and the surroundings do, the
    supervisor releases every slot of its role it acquired before it asks for
    the next or ends; after a refusal it asks for nothing more. *)
Theorem slots_balanced dc rs ap ea (w : W) :
  let role := Role (entry ap) in
  exists ap' ea' w' n last ds,
    supervise dc rs ap ea (w, []) =
      (ap', ea', (w', concat (replicate n [Acquired role; Released role]) ++ last), ds) /\
    (last = [] \/ (last = [Refused role] /\ length ds = S n)).
Proof.
  intros role. change (@nil slot_event) with (concat (replicate 0 [Acquired role; Released role]) ++ []) at 1.
  assert (forall k, exists ap' ea' w' n last ds,
    supervise dc rs ap ea (w, concat (replicate k [Acquired role; Released role])) =
      (ap', ea', (w', concat (replicate (k + n) [Acquired role; Released role]) ++ last), ds) /\
    (last = [] \/ (last = [Refused role] /\ length ds = S n))) as H; [|apply (H 0%nat)].
  revert ap ea w role. induction rs as [|r rs IH]; intros ap ea w role k; simpl.
  { do 3 eexists. exists 0%nat, []. eexists. rewrite Nat.add_0_r, app_nil_r. split; [reflexivity|]. by left. }
  destruct (iteration_slots dc r ap ea w (concat (replicate k [Acquired role; Released role])))
    as (ap1 & ea1 & w1 & evs & d & -> & He & Hev).
  assert (forall A (x : list A) j, concat (replicate (j + 1) x) = concat (replicate j x) ++ x) as Hcc.
  { intros A x j. rewrite Nat.add_comm. induction j as [|j IHj]; simpl in *; [by rewrite app_nil_r|].
    by rewrite <- app_assoc, <- IHj. }
  destruct Hev as [->|[-> ->]].
  - rewrite <- Hcc. specialize (IH ap1 ea1 w1). rewrite He in IH. specialize (IH (k + 1)%nat).
    destruct IH as (ap2 & ea2 & w2 & n & last & ds & E & Hl). destruct d.
    + do 3 eexists. exists 1%nat, []. eexists. rewrite app_nil_r. split; [reflexivity|]. by left.
    + rewrite E. do 3 eexists. exists (S n), last. eexists.
      replace (k + S n)%nat with (k + 1 + n)%nat by lia. split; [reflexivity|]. simpl.
      destruct Hl as [|[-> ->]]; auto.
    + rewrite E. do 3 eexists. exists (S n), last. eexists.
      replace (k + S n)%nat with (k + 1 + n)%nat by lia. split; [reflexivity|]. simpl.
      destruct Hl as [|[-> ->]]; auto.
  - do 3 eexists. exists 0%nat, [Refused role]. eexists. rewrite Nat.add_0_r. split; [reflexivity|]. by right.
Qed.
End slots.

(** After a failover the exits are still classified with the primary's
    patterns: the position among the back ends has no influence on the class,
    so on the second back end of a Claude agent a Codex "model not found" is
    no reason to fail over again, although Codex's own patterns say so. *)
Theorem classification_ignores_failover dc ap :
  or_else (ae_Backend (entry ap)) (dc_Backend dc) = "claude"%string ->
  FallbackBackends (entry ap) !! 0%nat = Some "codex"%string ->
  (forall lockTask logFile code i,
    classifyAgentExit dc lockTask logFile code (set_backend_idx i ap) =
    set_backend_idx i (classifyAgentExit dc lockTask logFile code ap)) /\
  let log := Some (String.list_ascii_of_string "the model `gpt-9` was not found") in
  let ap1 := set_backend_idx 1 ap in
  getEffectiveBackend dc ap1 = "codex"%string /\
  Class (ClassifyFromLog log 1 (getEffectiveBackend dc ap1)) = ModelNotFound /\
  option_map Class (lastError (classifyAgentExit dc "t-1" log 1 ap1)) = Some Unknown.
Proof.
  intros Hb Hf. split.
  - intros. unfold classifyAgentExit. simpl. case_tests; done.
  - intros log ap1.
    assert (getEffectiveBackend dc ap1 = "codex"%string) as He.
    { unfold getEffectiveBackend.
      change (match FallbackBackends (entry ap) !! 0%nat with Some b => b
              | None => or_else (ae_Backend (entry ap)) (dc_Backend dc) end = "codex"%string). by rewrite Hf. }
    split; [done|]. rewrite He. split; [by vm_compute|].
    rewrite (classifyAgentExit_class dc 0 0 1 "t-1" log). unfold run_class. simpl entry. rewrite Hb. by vm_compute.
Qed.

(** ** Witnesses: an agent with two fallbacks, a tracker without open epics
    and a git that works *)
Section witnesses.
Local Existing Instance InsertionSort.insertion_SliceSort.
Local Open Scope string_scope.

Definition demo_policy (noCount : bool) : RestartPolicy :=
  mkPolicy (Some 2) None None None None None (Some noCount) None None None.
Definition demo_config (noCount : bool) : DaemonConfig :=
  mkDaemonConfig "claude"
    (mkSettings "" "" "" (demo_policy noCount) None "" "" "" None) ∅ [].
Definition demo_agent : AgentProcess :=
  mkProc (mkAgent "alpha" "task" true "" ["codex"; "opencode"] None) (empty_role "") "/w/alpha"
    0 0 0 "" None 0 false 0.
Definition demo_host (epics : list EpicInfo) : AgentHost unit := {|
  acquireSlot _ w := (w, true);
  releaseSlot _ w := w;
  recoverAgent _ _ _ w := w;
  handleAgentCheckpoint _ _ w := w;
  ensureEpicPR _ _ w := w;
  ensureBranch _ _ w := (w, None);
  queryOpenEpics w := (w, Ok epics);
  epicHasReadyTasks _ w := (w, Ok true)
|}.
#[local] Instance no_epics : AgentHost unit := demo_host [].

(** A run that ends with code 1 and the given line in its log. *)
Definition demo_run (line : string) : run :=
  Exits 0 second 1 "t-1" (Some (String.list_ascii_of_string line)).

Lemma demo_slot_free role (w : unit) : exists w', acquireSlot role w = (w', true).
Proof. by exists w. Qed.
Lemma demo_query_empty (w : unit) :
  exists w' e, queryOpenEpics w = (w', e) /\ (e = Ok [] \/ exists m, e = Err m).
Proof. exists w, (Ok []). auto. Qed.
Lemma demo_git_ok p b (w : unit) : exists w', ensureBranch p b w = (w', None).
Proof. by exists w. Qed.

Lemma computeBackoff_functional_witness :
  computeBackoff (demo_config true) (set_counts 3 0 demo_agent) = 16 * second.
Proof.
  pose proof (computeBackoff_functional (demo_config true) (set_counts 3 0 demo_agent) 2 3 300
    eq_refl ltac:(lia) ltac:(lia) ltac:(unfold sane; lia)
    ltac:(unfold sane; cbn; lia)) as [H _].
  rewrite H. reflexivity.
Defined.

Lemma counted_failures_stop_witness :
  exists ap' w' waits,
    supervise (demo_config true)
      [demo_run "panic"; SpawnFails; demo_run "panic"; SpawnFails] demo_agent ∅ tt =
      (ap', ∅, w', (map Wait waits ++ [Stop])%list) /\ length waits = 2%nat.
Proof.
  refine (counted_failures_stop demo_slot_free demo_query_empty demo_git_ok
    (demo_config true) _ demo_agent ∅ tt _ _ _ _ _ _ _).
  - reflexivity.
  - reflexivity.
  - repeat (apply Forall_cons; split); [| | | |apply Forall_nil; done].
    all: try (left; reflexivity).
    all: right; exists Unknown; vm_compute; split; [reflexivity|split; [reflexivity|intros [=]]].
  - reflexivity.
  - vm_compute. split; [intros [=]|reflexivity].
  - reflexivity.
  - apply Nat.ltb_lt. vm_compute. reflexivity.
Defined.

Lemma counted_rate_limits_never_fail_over_witness :
  exists ap' w' waits,
    supervise (demo_config false)
      (replicate 3 (demo_run "rate limit")) demo_agent ∅ tt =
      (ap', ∅, w', (map Wait waits ++ [Stop])%list) /\ length waits = 2%nat.
Proof.
  refine (counted_rate_limits_never_fail_over demo_slot_free demo_query_empty demo_git_ok
    (demo_config false) _ demo_agent ∅ tt _ _ _ _ _ _ _ _).
  - reflexivity.
  - reflexivity.
  - reflexivity.
  - apply Forall_replicate. vm_compute. reflexivity.
  - reflexivity.
  - reflexivity.
  - reflexivity.
  - apply Nat.ltb_lt. vm_compute. reflexivity.
Defined.

Lemma fifth_rate_limit_fails_over_witness :
  exists ap' w' b1 b2 b3 b4,
    supervise (demo_config true)
      (replicate 5 (demo_run "429")) demo_agent ∅ tt =
      (ap', ∅, w', [Wait b1; Wait b2; Wait b3; Wait b4; FailOver]) /\
    currentBackendIdx ap' = 1 /\ restartCount ap' = 0 /\ rateRetryCount ap' = 0.
Proof.
  refine (fifth_rate_limit_fails_over demo_slot_free demo_query_empty demo_git_ok
    (demo_config true) _ demo_agent ∅ tt _ _ _ _ _ _ _).
  - reflexivity.
  - reflexivity.
  - reflexivity.
  - apply Forall_replicate. vm_compute. reflexivity.
  - reflexivity.
  - reflexivity.
  - vm_compute. split; [intros [=]|reflexivity].
Defined.

Definition demo_not_found : string := "model not found".

Lemma model_not_found_walks_backends_witness :
  exists ap' w' waits,
    supervise (demo_config true)
      (replicate 5 (demo_run demo_not_found)) demo_agent ∅ tt =
      (ap', ∅, w', ([FailOver; FailOver] ++ map Wait waits ++ [Stop])%list) /\ length waits = 2%nat.
Proof.
  refine (proj2 (model_not_found_walks_backends demo_slot_free demo_query_empty demo_git_ok
    (demo_config true) _ demo_agent ∅ tt _ _ _ _ _ _ _ _)).
  - reflexivity.
  - reflexivity.
  - apply Forall_replicate. vm_compute. reflexivity.
  - reflexivity.
  - reflexivity.
  - reflexivity.
  - reflexivity.
  - apply Nat.ltb_lt. vm_compute. reflexivity.
Defined.

Lemma classification_ignores_failover_witness :
  getEffectiveBackend (demo_config true) (set_backend_idx 1 demo_agent) = "codex".
Proof.
  exact (proj1 (proj2 (classification_ignores_failover (demo_config true) demo_agent eq_refl eq_refl))).
Defined.

Lemma benign_runs_never_stop_witness :
  exists ap' ea' w' ds,
    supervise (demo_config true)
      [demo_run "rate limit"; Exits 0 second 0 "" None; Exits 0 second 0 "t-1" None] demo_agent ∅ tt =
      (ap', ea', w', ds) /\ length ds = 3%nat /\ Stop ∉ ds.
Proof.
  refine (benign_runs_never_stop (demo_config true) _ demo_agent ∅ tt _ _ _).
  - reflexivity.
  - reflexivity.
  - repeat (apply Forall_cons; split); [split; [exact I|]..|apply Forall_nil; done].
    + right. vm_compute. split; reflexivity.
    + left. reflexivity.
    + left. reflexivity.
Defined.

Definition demo_epics : list EpicInfo := [mkEpic "e-2" 1; mkEpic "e-1" 1; mkEpic "e-0" 2].
#[local] Instance three_epics : AgentHost unit := demo_host demo_epics.

Definition demo_taken : gmap string string := {["beta" := "e-1"]}.

Lemma AssignWorktree_best_witness :
  exists ea' w' c,
    AssignWorktree "alpha" demo_taken tt = (ea', w', Ok (ep_ID c)) /\
    c = mkEpic "e-2" 1.
Proof.
  destruct (AssignWorktree_best "alpha" demo_taken tt tt _ (fun _ => Ok true)
    ltac:(vm_compute; reflexivity) ltac:(reflexivity) ltac:(reflexivity)) as (ea' & w' & r & E & [(E0 & _)|(c & Hc & -> & _ & Hmin)]).
  - vm_compute in E0. discriminate E0.
  - exists ea', w', c. split; [exact E|].
    assert (E0 : free_ready (fun _ => Ok true) demo_taken demo_epics
      = [mkEpic "e-2" 1; mkEpic "e-0" 2]) by (vm_compute; reflexivity).
    rewrite E0 in Hc, Hmin. apply elem_of_cons in Hc as [->|Hc]; [reflexivity|].
    apply list_elem_of_singleton in Hc. subst c.
    destruct (Hmin (mkEpic "e-2" 1) ltac:(left)) as [Hlt|[Heq _]]; simpl in *; lia.
Defined.

Lemma epics_exclusive_witness : exclusive {["alpha" := "e-1"]}.
Proof.
  apply (epics_exclusive (host := three_epics) [LAssign "alpha"]).
  eapply steps_cons; [|apply steps_nil].
  eapply (step_assign "alpha" ∅ tt _ tt (Ok "e-1")). vm_compute. reflexivity.
Defined.
End witnesses.
End Super.
