(* ===== verification/Pool.v ===== *)
(** * Pool: the connection pool to the daemon, [internal/webui/daemon/pool.go],
    [breaker.go] and [errors.go]

    [ConnectionPool] with its buffered channel of idle connections, and any
    number of goroutines that get, use, put back or discard connections while
    others run or the pool is closed. Every step is one atomic action of the
    code: a critical section of [p.mu], a channel operation, or a call to the
    daemon, whose answer is an event. *)
From S2P Require Import Prelude Breaker.
Local Open Scope Z_scope.

Module Pool.

(** ** Errors ([errors.go]) *)
Definition ErrDaemonNotRunning : goerror := Sentinel "daemon not running".
Definition ErrDaemonUnhealthy : goerror := Sentinel "daemon unhealthy".
Definition ErrConnectionTimeout : goerror := Sentinel "connection timeout".
Definition ErrInvalidSocketPath : goerror := Sentinel "invalid socket path".
Definition ErrPoolExhausted : goerror := Sentinel "connection pool exhausted".
Definition ErrPoolClosed : goerror := Sentinel "connection pool closed".

Definition IsRetryable (err : option goerror) : bool :=
  match err with
  | None => false
  | Some e =>
      if errors_is e Breaker.ErrCircuitOpen then false
      else errors_is e ErrDaemonNotRunning || errors_is e ErrConnectionTimeout || errors_is e ErrDaemonUnhealthy
  end.

Definition DaemonShouldTrip (err : option goerror) : bool :=
  match err with
  | None => false
  | Some e =>
      if errors_is e ErrDaemonNotRunning || errors_is e ErrConnectionTimeout ||
         errors_is e ErrDaemonUnhealthy || errors_is e ErrPoolExhausted then true
      else if errors_is e context_canceled || errors_is e context_deadline_exceeded then false
      else if errors_is e ErrPoolClosed || errors_is e ErrInvalidSocketPath then false
      else false
  end.

(** ** State. A connection is identified by a number, as by its pointer;
    [fresh] is the number of the next one. [chan_closed] is the state of the
    channel [available], which holds at most [poolSize] connections. *)
Definition DefaultPoolSize : Z := 100.
Definition DefaultPoolTimeout : Z := 10 * 1000000000.
Definition maxRetries : nat := 3.

Record ConnectionPool := mkPool {
  socketPath : string;
  poolSize : Z;
  available : list nat;
  chan_closed : bool;
  closed : bool;
  activeCount : Z;
  createdCount : Z;
  fresh : nat;
}.

Definition NewConnectionPool (path : string) (size : Z) : res ConnectionPool :=
  if bool_decide (path = ""%string) then Err ErrInvalidSocketPath
  else
    let size := if size <=? 0 then DefaultPoolSize else size in
    Ok (mkPool path size [] false false 0 0 0).

Definition set_available (l : list nat) (p : ConnectionPool) : ConnectionPool :=
  mkPool (socketPath p) (poolSize p) l (chan_closed p) (closed p) (activeCount p) (createdCount p) (fresh p).
Definition add_counts (active created : Z) (p : ConnectionPool) : ConnectionPool :=
  mkPool (socketPath p) (poolSize p) (available p) (chan_closed p) (closed p)
    (add64 (activeCount p) active) (add64 (createdCount p) created) (fresh p).
Definition set_closed (p : ConnectionPool) : ConnectionPool :=
  mkPool (socketPath p) (poolSize p) (available p) (chan_closed p) true (activeCount p) (createdCount p) (fresh p).
Definition close_chan (p : ConnectionPool) : ConnectionPool :=
  mkPool (socketPath p) (poolSize p) (available p) true (closed p) (activeCount p) (createdCount p) (fresh p).
Definition next_fresh (p : ConnectionPool) : ConnectionPool :=
  mkPool (socketPath p) (poolSize p) (available p) (chan_closed p) (closed p)
    (activeCount p) (createdCount p) (S (fresh p)).

Record PoolStats := mkPoolStats {
  st_Size : Z; st_Created : Z; st_Active : Z; st_Available : Z; st_Closed : bool;
}.
Definition Stats (p : ConnectionPool) : PoolStats :=
  mkPoolStats (poolSize p) (createdCount p) (activeCount p) (Z.of_nat (length (available p))) (closed p).

(** ** Where a goroutine is. [n] counts the attempts left in [Get]. *)
Inductive pc :=
| Idle
| TryGet (n : nat)
| Receive (n : nat)
| Validate (n : nat) (client : option nat)
| Stale (n : nat) (client : option nat)
| Uncount (n : nat)
| Create (n : nat)
| Dial
| DialFailed (e : goerror)
| WaitConn (n : nat)
| Holds (client : nat)
| Failed (e : goerror)
| PutSend (client : nat)
| PutFull (client : nat)
| Discarding (client : nat)
| CloseChan
| Drain
| Panicked.

(** What happens next to a goroutine: its caller starts an operation, the code
    goes on, or the daemon, a timer or the context answers. *)
Inductive event :=
| CallGet | CallPut | CallDiscard | CallClose
| Go
| Ping (ok : bool)
| Dialed (r : res bool)
| TimedOut
| CtxDone (e : goerror).

(** A failed attempt: another one, or [ErrPoolExhausted] after the last. *)
Definition retry (n : nat) : pc :=
  match n with S (S m) => TryGet (S m) | _ => Failed ErrPoolExhausted end.

(** [<-p.available] when it does not block: the head, or nil when the channel is
    closed and empty. *)
Definition recv (p : ConnectionPool) : option (option nat * ConnectionPool) :=
  match available p with
  | c :: l => Some (Some c, set_available l p)
  | [] => if chan_closed p then Some (None, p) else None
  end.

(** [tryGet] and [Get]. *)
Definition get_step (t : pc) (ev : event) (p : ConnectionPool) : option (pc * ConnectionPool) :=
  match t, ev with
  | TryGet n, Go => Some (if closed p then (Failed ErrPoolClosed, p) else (Receive n, p))
  | Receive n, Go =>
      match recv p with Some (c, p') => Some (Validate n c, p') | None => Some (Create n, p) end
  | Validate n None, Go => Some (Stale n None, p)
  | Validate n (Some c), Ping ok =>
      Some (if (ok : bool) then (Holds c, add_counts 1 0 p) else (Stale n (Some c), p))
  | Stale n None, Go => Some (Panicked, p)
  | Stale n (Some _), Go => Some (Uncount n, p)
  | Uncount n, Go => Some (retry n, add_counts 0 (-1) p)
  | Create n, Go =>
      Some (if createdCount p <? poolSize p then (Dial, add_counts 1 1 p) else (WaitConn n, p))
  | Dial, Dialed (Ok true) => Some (Holds (fresh p), next_fresh p)
  | Dial, Dialed (Ok false) => Some (DialFailed ErrDaemonNotRunning, p)
  | Dial, Dialed (Err _) => Some (DialFailed ErrConnectionTimeout, p)
  | DialFailed e, Go => Some (Failed e, add_counts (-1) (-1) p)
  | WaitConn n, Go =>
      match recv p with Some (c, p') => Some (Validate n c, p') | None => None end
  | WaitConn _, TimedOut => Some (Failed ErrPoolExhausted, p)
  | WaitConn _, CtxDone e => Some (Failed e, p)
  | _, _ => None
  end.

(** [Put], [Discard] and [Close]. A send on a closed channel panics; a send on a
    full one takes the default case. *)
Definition put_step (t : pc) (ev : event) (p : ConnectionPool) : option (pc * ConnectionPool) :=
  match t, ev with
  | Holds c, CallPut => Some (if closed p then (Idle, p) else (PutSend c, add_counts (-1) 0 p))
  | PutSend c, Go =>
      Some (if chan_closed p then (Panicked, p)
            else if Z.of_nat (length (available p)) <? poolSize p
            then (Idle, set_available (available p ++ [c]) p)
            else (PutFull c, p))
  | PutFull _, Go => Some (Idle, add_counts 0 (-1) p)
  | Holds c, CallDiscard => Some (Discarding c, p)
  | Discarding _, Go => Some (Idle, add_counts (-1) (-1) p)
  | Idle, CallClose => Some (if closed p then (Idle, p) else (CloseChan, set_closed p))
  | CloseChan, Go => Some (Drain, close_chan p)
  | Drain, Go =>
      match available p with _ :: l => Some (Drain, set_available l p) | [] => Some (Idle, p) end
  | _, _ => None
  end.

(** The context is looked at first. *)
Definition call_step (t : pc) (ev : event) (p : ConnectionPool) : option (pc * ConnectionPool) :=
  match t, ev with
  | (Idle | Failed _), CallGet => Some (TryGet maxRetries, p)
  | Idle, CtxDone e => Some (Failed e, p)
  | Failed _, Go => Some (Idle, p)
  | _, _ => None
  end.

Definition step (t : pc) (ev : event) (p : ConnectionPool) : option (pc * ConnectionPool) :=
  match get_step t ev p with
  | Some r => Some r
  | None => match put_step t ev p with Some r => Some r | None => call_step t ev p end
  end.

(** ** The pool and its goroutines *)
Record sys := mkSys { pool : ConnectionPool; threads : list pc }.

Inductive pool_step : sys -> nat * event -> sys -> Prop :=
| pool_step_intro s i t ev t' p' :
    threads s !! i = Some t -> step t ev (pool s) = Some (t', p') ->
    pool_step s (i, ev) (mkSys p' (<[i := t']> (threads s))).

Definition start (path : string) (size : Z) (n : nat) : option sys :=
  match NewConnectionPool path size with
  | Ok p => Some (mkSys p (replicate n Idle))
  | Err _ => None
  end.

(** ** The open pool *)

(** What a goroutine accounts for in [createdCount] and [activeCount], and the
    live connection it has to itself. *)
Definition created_of (t : pc) : Z :=
  match t with
  | Validate _ (Some _) | Stale _ (Some _) | Uncount _ | Dial | DialFailed _
  | Holds _ | PutSend _ | PutFull _ | Discarding _ => 1
  | _ => 0
  end.
Definition active_of (t : pc) : Z :=
  match t with Dial | DialFailed _ | Holds _ | Discarding _ => 1 | _ => 0 end.
Definition owned (t : pc) : option nat :=
  match t with
  | Validate _ (Some c) | Stale _ (Some c) | Holds c | PutSend c => Some c
  | _ => None
  end.
Definition sum_of (f : pc -> Z) (l : list pc) : Z := foldr (fun t acc => f t + acc) 0 l.

(** Nothing a goroutine meets while the pool stays open: a nil connection, a
    full channel on [Put], a panic. *)
Definition normal (t : pc) : bool :=
  match t with
  | Validate _ None | Stale _ None | PutFull _ | CloseChan | Drain | Panicked => false
  | _ => true
  end.

Record open_ok (p : ConnectionPool) (l : list pc) : Prop := {
  ok_open : closed p = false /\ chan_closed p = false;
  ok_size : 0 < poolSize p <= max_int64;
  ok_created : createdCount p = Z.of_nat (length (available p)) + sum_of created_of l;
  ok_active : activeCount p = sum_of active_of l;
  ok_bound : createdCount p <= poolSize p;
  ok_owned : NoDup (available p ++ omap owned l);
  ok_fresh : Forall (fun c => (c < fresh p)%nat) (available p ++ omap owned l);
  ok_normal : Forall (fun t => normal t = true) l;
}.

Lemma sum_of_perm f l l' : l ≡ₚ l' -> sum_of f l = sum_of f l'.
Proof. induction 1; simpl; lia. Qed.

Lemma omap_owned_perm l l' : l ≡ₚ l' -> omap owned l ≡ₚ omap owned l'.
Proof. intros H. by rewrite H. Qed.

Lemma open_ok_perm p l l' : l ≡ₚ l' -> open_ok p l -> open_ok p l'.
Proof.
  intros Hp []. split; rewrite <- ?(sum_of_perm _ _ _ Hp), <- ?(omap_owned_perm _ _ Hp), <- ?Hp; done.
Qed.

Lemma lookup_insert_perm {A} (l : list A) i t :
  l !! i = Some t -> exists rest, l ≡ₚ t :: rest /\ forall t', <[i := t']> l ≡ₚ t' :: rest.
Proof.
  intros H. exists (take i l ++ drop (S i) l). pose proof (lookup_lt_Some _ _ _ H). split.
  - rewrite <- (take_drop_middle l i t H) at 1. symmetry. apply Permutation_middle.
  - intros t'. rewrite insert_take_drop by done. symmetry. apply Permutation_middle.
Qed.

Lemma sum_of_bounds l : 0 <= sum_of active_of l <= sum_of created_of l.
Proof. induction l as [|t l IH]; simpl; [lia|]. destruct t as [| | |? []|? []| | | | | | | | | | | | |]; simpl; lia. Qed.

(** A connection moves between the channel and its holder, leaves, or is new. *)
Lemma nodup_move {A} (c : A) l r : NoDup (c :: l ++ r) -> NoDup (l ++ c :: r).
Proof. by rewrite <- Permutation_middle. Qed.
Lemma nodup_drop {A} (c : A) l r : NoDup (l ++ c :: r) -> NoDup (l ++ r).
Proof. rewrite <- Permutation_middle. by inversion 1. Qed.
Lemma forall_move {A} (P : A -> Prop) c l r : Forall P (c :: l ++ r) -> Forall P (l ++ c :: r).
Proof. by rewrite <- Permutation_middle. Qed.
Lemma forall_drop {A} (P : A -> Prop) c l r : Forall P (l ++ c :: r) -> Forall P (l ++ r).
Proof. rewrite <- Permutation_middle. by inversion 1. Qed.
Lemma nodup_fresh n l : NoDup l -> Forall (fun c => (c < n)%nat) l -> NoDup (n :: l).
Proof. intros Hn Hf. constructor; [|done]. intros Hin. eapply Forall_forall in Hf; [|done]. lia. Qed.
Lemma forall_fresh n l : Forall (fun c => (c < n)%nat) l -> Forall (fun c => (c < S n)%nat) (n :: l).
Proof. intros Hf. constructor; [lia|]. eapply Forall_impl; [exact Hf|]. simpl. lia. Qed.
Create HintDb pool discriminated.
#[local] Hint Resolve nodup_move nodup_drop forall_move forall_drop nodup_fresh forall_fresh : pool.

Ltac pool_facts :=
  match goal with H : open_ok ?p (?t :: ?rest) |- _ =>
    let E := fresh in
    pose proof H as E; destruct E as [[Hop Hch] Hsz Hcr Hac Hbd Hnd Hfr Hno]; simpl in Hcr, Hac, Hnd, Hfr;
    inversion Hno; subst; clear Hno; simpl in *;
    pose proof (sum_of_bounds rest)
  end.

Ltac pool_done :=
  split; simpl;
  repeat match goal with E : available _ = _ |- _ => rewrite E in *; clear E end; simpl;
  rewrite <- ?app_assoc, ?length_app, ?add64_id by int64_lia; simpl;
  first [done | lia | by constructor | constructor; [done|assumption] | eauto with pool | idtac].

(** Each step of a goroutine of an open pool that is not [Close]. *)
Lemma get_step_ok p t rest ev t' p' :
  open_ok p (t :: rest) -> get_step t ev p = Some (t', p') -> open_ok p' (t' :: rest).
Proof.
  intros Hok Hs. pool_facts.
  destruct t as [|n|n|n [c|]|n [c|]|n|n| |e|n|c|e|c|c|c| | |], ev as [| | | | |ok|[[|]|e']| |e']; simpl in Hs;
    try discriminate; unfold recv in Hs; rewrite ?Hop in Hs;
    try match type of Hs with context [available p] => destruct (available p) as [|c0 l0] eqn:Eav end;
    rewrite ?Hch in Hs; repeat (case_tests; simplify_eq/=);
    try (destruct n as [|[|n]]; simpl in *); pool_done.
Qed.

Lemma put_step_ok p t rest ev t' p' :
  open_ok p (t :: rest) -> ev <> CallClose -> put_step t ev p = Some (t', p') -> open_ok p' (t' :: rest).
Proof.
  intros Hok Hev Hs. pool_facts.
  destruct t as [|n|n|n [c|]|n [c|]|n|n| |e|n|c|e|c|c|c| | |], ev as [| | | | |ok|[[|]|e']| |e']; simpl in Hs;
    try discriminate; try done; rewrite ?Hop, ?Hch in Hs; repeat (case_tests; simplify_eq/=); pool_done.
Qed.

Lemma call_step_ok p t rest ev t' p' :
  open_ok p (t :: rest) -> call_step t ev p = Some (t', p') -> open_ok p' (t' :: rest).
Proof.
  intros Hok Hs. pool_facts.
  destruct t, ev; simpl in Hs; try discriminate; simplify_eq/=; pool_done.
Qed.

Lemma pool_step_ok s e s' :
  e.2 <> CallClose -> open_ok (pool s) (threads s) -> pool_step s e s' -> open_ok (pool s') (threads s').
Proof.
  intros He Hok Hs. revert He Hok. destruct Hs as [s i t ev t' p' Hi Hs]. simpl. intros He Hok.
  destruct (lookup_insert_perm _ _ _ Hi) as (rest & Hp & Hp').
  apply (open_ok_perm _ _ _ Hp) in Hok. apply (open_ok_perm _ (t' :: rest)); [symmetry; apply Hp'|].
  unfold step in Hs. destruct (get_step t ev (pool s)) as [[]|] eqn:E1; simplify_eq; [by eapply get_step_ok|].
  destruct (put_step t ev (pool s)) as [[]|] eqn:E2; simplify_eq; [by eapply put_step_ok|].
  by eapply call_step_ok.
Qed.

Lemma open_ok_start path size n s :
  size <= max_int64 -> start path size n = Some s -> open_ok (pool s) (threads s).
Proof.
  unfold start, NewConnectionPool, DefaultPoolSize. intros Hsz Hs. case_tests; simplify_eq/=.
  all: assert (forall f, f Idle = 0 -> sum_of f (replicate n Idle) = 0) as Hsum
         by (intros f Hf; clear -Hf; induction n; simpl; lia).
  all: assert (omap owned (replicate n Idle) = []) as Ho by (clear; by induction n).
  all: split; simpl; rewrite ?Ho, ?Hsum by done; try done; try (by constructor); try int64_lia.
  all: by apply Forall_replicate.
Qed.

(** C2. While nobody closes the pool, in any interleaving of any number of
    goroutines: there are never more connections than the pool's size nor more
    active than created ones; the counters are exact (the created connections
    are the idle ones and those goroutines account for, the active ones those
    they use or dial); no connection is both idle and in use nor used by two
    goroutines; a connection that is put back always finds room, no goroutine
    meets a nil connection and none panics. *)
Theorem pool_exact path size n s0 ls s :
  size <= max_int64 -> start path size n = Some s0 -> steps pool_step s0 ls s ->
  Forall (fun e => e.2 <> CallClose) ls ->
  let st := Stats (pool s) in
  (0 <= st_Active st <= st_Created st /\ st_Created st <= st_Size st /\ st_Available st <= st_Created st) /\
  st_Created st = st_Available st + sum_of created_of (threads s) /\
  st_Active st = sum_of active_of (threads s) /\
  NoDup (available (pool s) ++ omap owned (threads s)) /\
  Forall (fun t => normal t = true) (threads s).
Proof.
  intros Hsz Hst Hss HF.
  assert (open_ok (pool s) (threads s)) as [[Hop Hch] Hs Hcr Hac Hbd Hnd Hfr Hno].
  { eapply (steps_inv_labels pool_step (fun s => open_ok (pool s) (threads s))); [|exact HF|exact Hss|].
    - intros s1 e s2 He Hok Hstep. exact (pool_step_ok s1 e s2 He Hok Hstep).
    - by eapply open_ok_start. }
  pose proof (sum_of_bounds (threads s)). cbn [Stats st_Active st_Created st_Size st_Available].
  split; [lia|]. auto.
Qed.

(** ** What Close and Discard leave behind *)

(** The system run on a given interleaving. *)
Fixpoint run_trace (s : sys) (ls : list (nat * event)) : option sys :=
  match ls with
  | [] => Some s
  | (i, ev) :: ls' =>
      t ← threads s !! i; r ← step t ev (pool s);
      run_trace (mkSys r.2 (<[i := r.1]> (threads s))) ls'
  end.

Lemma run_trace_steps s ls s' : run_trace s ls = Some s' -> steps pool_step s ls s'.
Proof.
  revert s. induction ls as [|[i ev] ls IH]; intros s; simpl; [intros [= ->]; constructor|].
  destruct (threads s !! i) as [t|] eqn:Hi; simpl; [|done].
  destruct (step t ev (pool s)) as [[t' p']|] eqn:Hs; simpl; [|done].
  intros H. eapply steps_cons; [by eapply pool_step_intro|]. by apply IH.
Qed.

(** Goroutine [i] borrows a new connection from an empty pool. *)
Definition dial_trace (i : nat) : list (nat * event) :=
  [(i, CallGet); (i, Go); (i, Go); (i, Go); (i, Dialed (Ok true))].

(** Closing the pool while it is in use panics: a [Put] that has passed the
    check of [closed] sends on the closed channel, and a [Get] that waits for a
    connection receives nil from it and calls [Close] on it. *)
Theorem close_races_panic :
  (exists s0 s, start "/s" 1 2 = Some s0 /\
    steps pool_step s0 (dial_trace 0 ++ [(0, CallPut); (1, CallClose); (1, Go); (0, Go)]%nat) s /\
    threads s = [Panicked; Drain]) /\
  (exists s0 s, start "/s" 1 3 = Some s0 /\
    steps pool_step s0 (dial_trace 0 ++
      [(1, CallGet); (1, Go); (1, Go); (1, Go); (2, CallClose); (2, Go); (1, Go); (1, Go); (1, Go)]%nat) s /\
    threads s = [Holds 0; Panicked; Drain]).
Proof.
  split; do 2 eexists; (split; [reflexivity|]); split.
  1, 3: apply run_trace_steps; vm_compute; reflexivity.
  all: reflexivity.
Qed.

(** A discarded connection frees a place but wakes nobody: a [Get] that
    waits because the pool was full, after the only connection was discarded,
    has no step of its own left and can only time out with
    [ErrPoolExhausted], an error that counts against the circuit breaker, while
    the pool has no connection at all. *)
Theorem discard_wakes_nobody :
  exists s0 s, start "/s" 1 2 = Some s0 /\
    steps pool_step s0 (dial_trace 0 ++
      [(1, CallGet); (1, Go); (1, Go); (1, Go); (0, CallDiscard); (0, Go)]%nat) s /\
    threads s = [Idle; WaitConn 3] /\ createdCount (pool s) = 0 /\ poolSize (pool s) = 1 /\
    step (WaitConn 3) Go (pool s) = None /\
    step (WaitConn 3) TimedOut (pool s) = Some (Failed ErrPoolExhausted, pool s) /\
    DaemonShouldTrip (Some ErrPoolExhausted) = true.
Proof.
  do 2 eexists. split; [reflexivity|]. split; [apply run_trace_steps; vm_compute; reflexivity|].
  by repeat split.
Qed.

(** ** Witness: two goroutines share a pool of one connection *)
Lemma pool_exact_witness :
  exists s, steps pool_step (mkSys (mkPool "/s" 1 [] false false 0 0 0) [Idle; Idle])
      (dial_trace 0 ++ [(0, CallPut); (0, Go); (1, CallGet); (1, Go); (1, Go); (1, Ping true)]%nat) s /\
    threads s = [Idle; Holds 0] /\ NoDup (available (pool s) ++ omap owned (threads s)).
Proof.
  eexists. assert (H : steps pool_step (mkSys (mkPool "/s" 1 [] false false 0 0 0) [Idle; Idle])
      (dial_trace 0 ++ [(0, CallPut); (0, Go); (1, CallGet); (1, Go); (1, Go); (1, Ping true)]%nat) 
      (mkSys (mkPool "/s" 1 [] false false 1 1 1) [Idle; Holds 0])).
  { apply run_trace_steps. vm_compute. reflexivity. }
  split; [exact H|]. split; [reflexivity|].
  refine (proj1 (proj2 (proj2 (proj2 (pool_exact "/s" 1 2 _ _ _ _ eq_refl H _))))).
  - vm_compute. discriminate.
  - repeat (apply Forall_cons; split; [discriminate|]). apply Forall_nil. exact I.
Defined.
End Pool.
