(* ===== verification/SseHub.v ===== *)
(** * SseHub: the hub of the live event stream, [internal/webui/sse.go]

    [SSEHub] with its channels and its retry queue, its loop [Run] one event at
    a time, the callers of [Broadcast], and the HTTP handlers of any number of
    clients, each registering, reading its channel and unregistering. All of
    these interleave freely; a [select] with several ready cases may take any
    of them. *)
From S2P Require Import Prelude.
Local Open Scope Z_scope.

Module Sse.

(** ** Data *)
Record MutationPayload := mkPayload {
  Type_ : string;
  IssueID : string;
  Title : string;
  Assignee : string;
  Actor : string;
  Timestamp : string;
  OldStatus : string;
  NewStatus : string;
  ParentID : string;
  StepCount : Z;
}.

#[export] Instance MutationPayload_eq_dec : EqDecision MutationPayload.
Proof. solve_decision. Defined.

Definition sseClientSendBuf : nat := 64.
Definition register_cap : nat := 16.
Definition broadcast_cap : nat := 256.
Definition retry_cap : nat := 1024.

(** A client is known by its number; [chans] has, for each, the buffer of its
    channel [send] and whether it is closed. *)
Record SSEHub := mkHub {
  clients : gset nat;
  register : list nat;
  unregister : list nat;
  broadcast : list MutationPayload;
  done : bool;
  exited : bool;
  retryQueue : list MutationPayload;
  droppedCount : Z;
}.

Definition NewSSEHub : SSEHub := mkHub ∅ [] [] [] false false [] 0.

Definition set_clients (c : gset nat) (h : SSEHub) : SSEHub :=
  mkHub c (register h) (unregister h) (broadcast h) (done h) (exited h) (retryQueue h) (droppedCount h).
Definition set_register (l : list nat) (h : SSEHub) : SSEHub :=
  mkHub (clients h) l (unregister h) (broadcast h) (done h) (exited h) (retryQueue h) (droppedCount h).
Definition set_unregister (l : list nat) (h : SSEHub) : SSEHub :=
  mkHub (clients h) (register h) l (broadcast h) (done h) (exited h) (retryQueue h) (droppedCount h).
Definition set_queues (b r : list MutationPayload) (dropped : Z) (h : SSEHub) : SSEHub :=
  mkHub (clients h) (register h) (unregister h) b (done h) (exited h) r dropped.
Definition set_done (h : SSEHub) : SSEHub :=
  mkHub (clients h) (register h) (unregister h) (broadcast h) true (exited h) (retryQueue h) (droppedCount h).
Definition set_exited (h : SSEHub) : SSEHub :=
  mkHub ∅ (register h) (unregister h) (broadcast h) (done h) true (retryQueue h) (droppedCount h).

(** ** Operations on the queues *)
Definition full {A} (cap : nat) (l : list A) : bool := (cap <=? length l)%nat.

(** [Broadcast] in its two parts: the attempt on the channel, [None] when it is
    full, and then the critical section of [retryMu]. *)
Definition Broadcast (mutation : MutationPayload) (h : SSEHub) : option SSEHub :=
  if full broadcast_cap (broadcast h) then None
  else Some (set_queues (broadcast h ++ [mutation]) (retryQueue h) (droppedCount h) h).

Definition Broadcast_retry (mutation : MutationPayload) (h : SSEHub) : SSEHub :=
  if negb (full retry_cap (retryQueue h)) then
    set_queues (broadcast h) (retryQueue h ++ [mutation]) (droppedCount h) h
  else set_queues (broadcast h) (retryQueue h) (inc64 (droppedCount h)) h.

(** One turn of the loop of [drainRetryQueue]: the oldest queued mutation goes to
    the channel; [None] when the queue is empty or the channel full. *)
Definition drain_step (h : SSEHub) : option SSEHub :=
  match retryQueue h with
  | [] => None
  | m :: q =>
      if full broadcast_cap (broadcast h) then None
      else Some (set_queues (broadcast h ++ [m]) q (droppedCount h) h)
  end.

Definition ClientCount (h : SSEHub) : nat := size (clients h).
Definition GetRetryQueueDepth (h : SSEHub) : nat := length (retryQueue h).
Definition GetDroppedCount (h : SSEHub) : Z := droppedCount h.

(** ** The system: hub, client channels and handlers *)

(** Where a client's handler is: before and after the first [select] of
    [RegisterClient], streaming, and before and after that of
    [UnregisterClient]. *)
Inductive hpc := HInit | HRegister | HStream | HLeave | HUnregister | HGone.

Abbreviation chan := (list MutationPayload * bool)%type.

(** [pending]: the callers of [Broadcast] between its two parts; [draining]: the
    hub's loop is inside [drainRetryQueue] and holds [retryMu]. *)
Record sys := mkSys {
  hub : SSEHub;
  chans : list chan;
  handlers : list hpc;
  panicked : bool;
  pending : list MutationPayload;
  draining : bool;
}.

Definition start : sys := mkSys NewSSEHub [] [] false [] false.

Definition set_hub (h : SSEHub) (s : sys) : sys :=
  mkSys h (chans s) (handlers s) (panicked s) (pending s) (draining s).
Definition set_handler (i : nat) (t : hpc) (s : sys) : sys :=
  mkSys (hub s) (chans s) (<[i := t]> (handlers s)) (panicked s) (pending s) (draining s).
Definition set_chans (chs : list chan) (s : sys) : sys :=
  mkSys (hub s) chs (handlers s) (panicked s) (pending s) (draining s).
Definition set_pending (l : list MutationPayload) (s : sys) : sys :=
  mkSys (hub s) (chans s) (handlers s) (panicked s) l (draining s).
Definition set_draining (b : bool) (s : sys) : sys :=
  mkSys (hub s) (chans s) (handlers s) (panicked s) (pending s) b.

(** [close(client.send)] of every client chosen by [sel]: closing a closed
    channel panics. *)
Definition close_sends (sel : nat -> bool) (s : sys) : sys :=
  mkSys (hub s) (imap (fun i ch => if sel i then (ch.1, true) else ch) (chans s)) (handlers s)
    (panicked s || existsb (fun b => b) (imap (fun i ch => sel i && ch.2) (chans s))) (pending s) (draining s).

(** [client.send <- mutation] for every client: skipped when its buffer is full;
    sending on a closed channel panics. *)
Definition push (m : MutationPayload) (ch : chan) : chan :=
  if full sseClientSendBuf ch.1 then ch else (ch.1 ++ [m], ch.2).
Definition send_all (m : MutationPayload) (s : sys) : sys :=
  let sel i := bool_decide (i ∈ clients (hub s)) in
  mkSys (hub s) (imap (fun i ch => if sel i then push m ch else ch) (chans s)) (handlers s)
    (panicked s || existsb (fun b => b) (imap (fun i ch => sel i && ch.2) (chans s))) (pending s) (draining s).

Inductive label :=
| Connect
| CallBroadcast (m : MutationPayload)
| RetryBroadcast (i : nat)
| CallStop
| RunRegister
| RunUnregister
| RunBroadcast (m : MutationPayload)
| RunTick
| RunDrain
| RunDone
| Handler (i : nat)
| HandlerChan (i : nat)
| HandlerDisconnect (i : nat).

(** The cases of [Run]. *)
Definition run_case (l : label) (s : sys) : option sys :=
  let h := hub s in
  if exited h then None
  else if draining s then
    match l with
    | RunDrain => Some (match drain_step h with Some h' => set_hub h' s | None => set_draining false s end)
    | _ => None
    end
  else
    match l with
    | RunRegister =>
        match register h with
        | c :: q => Some (set_hub (set_clients ({[c]} ∪ clients h) (set_register q h)) s)
        | [] => None
        end
    | RunUnregister =>
        match unregister h with
        | c :: q =>
            let h1 := set_unregister q h in
            if bool_decide (c ∈ clients h) then
              Some (close_sends (fun i => bool_decide (i = c)) (set_hub (set_clients (clients h ∖ {[c]}) h1) s))
            else Some (set_hub h1 s)
        | [] => None
        end
    | RunBroadcast m =>
        match broadcast h with
        | m' :: q =>
            if bool_decide (m' = m) then
              Some (send_all m (set_hub (set_queues q (retryQueue h) (droppedCount h) h) s))
            else None
        | [] => None
        end
    | RunTick => Some (set_draining true s)
    | RunDone =>
        if done h then
          Some (set_hub (set_exited h) (close_sends (fun i => bool_decide (i ∈ clients h)) s))
        else None
    | _ => None
    end.

(** [RegisterClient] and [UnregisterClient], one [select] at a time. *)
Definition handler_go (i : nat) (s : sys) : option sys :=
  let h := hub s in
  match handlers s !! i with
  | Some HInit =>
      Some (if done h then set_handler i HStream (close_sends (fun j => bool_decide (j = i)) s)
            else set_handler i HRegister s)
  | Some HRegister =>
      if full register_cap (register h) then None
      else Some (set_handler i HStream (set_hub (set_register (register h ++ [i]) h) s))
  | Some HLeave => Some (set_handler i (if done h then HGone else HUnregister) s)
  | Some HUnregister =>
      if full register_cap (unregister h) then None
      else Some (set_handler i HGone (set_hub (set_unregister (unregister h ++ [i]) h) s))
  | _ => None
  end.

(** The other ready case: [<-h.done], or the client's channel. *)
Definition handler_chan (i : nat) (s : sys) : option sys :=
  match handlers s !! i with
  | Some HRegister =>
      if done (hub s) then Some (set_handler i HStream (close_sends (fun j => bool_decide (j = i)) s)) else None
  | Some HUnregister => if done (hub s) then Some (set_handler i HGone s) else None
  | Some HStream =>
      match chans s !! i with
      | Some (_ :: q, cl) => Some (set_chans (<[i := (q, cl)]> (chans s)) s)
      | Some ([], true) => Some (set_handler i HLeave s)
      | _ => None
      end
  | _ => None
  end.

(** [Stop] is called once, when the server shuts down ([server.go]). *)
Definition exec (l : label) (s : sys) : option sys :=
  match l with
  | Connect => Some (mkSys (hub s) (chans s ++ [([], false)]) (handlers s ++ [HInit]) (panicked s) (pending s) (draining s))
  | CallBroadcast m =>
      Some (match Broadcast m (hub s) with Some h => set_hub h s | None => set_pending (pending s ++ [m]) s end)
  | RetryBroadcast i =>
      if draining s then None
      else
        match pending s !! i with
        | Some m => Some (set_pending (delete i (pending s)) (set_hub (Broadcast_retry m (hub s)) s))
        | None => None
        end
  | CallStop => if done (hub s) then None else Some (set_hub (set_done (hub s)) s)
  | Handler i => handler_go i s
  | HandlerChan i => handler_chan i s
  | HandlerDisconnect i =>
      match handlers s !! i with Some HStream => Some (set_handler i HLeave s) | _ => None end
  | _ => run_case l s
  end.

Definition hub_step (s : sys) (l : label) (s' : sys) : Prop := exec l s = Some s'.
Definition reachable (s : sys) : Prop := exists ls, steps hub_step start ls s.

(** ** The channels' states *)
Definition closed_at (s : sys) (i : nat) : option bool := snd <$> chans s !! i.

Lemma close_sends_closed_at sel s i :
  closed_at (close_sends sel s) i = (fun b => b || sel i) <$> closed_at s i.
Proof.
  unfold closed_at, close_sends. simpl. rewrite list_lookup_imap.
  destruct (chans s !! i) as [[b cl]|]; simpl; [|done]. destruct (sel i); simpl; by destruct cl.
Qed.

Lemma closed_at_hub h s i : closed_at (set_hub h s) i = closed_at s i.
Proof. done. Qed.

Lemma any_closed_false (sel : nat -> bool) (chs : list chan) :
  (forall i, sel i = true -> snd <$> chs !! i <> Some true) ->
  existsb (fun b => b) (imap (fun i ch => sel i && ch.2) chs) = false.
Proof.
  intros H. apply not_true_iff_false. rewrite existsb_exists. intros (b & Hin & ->).
  apply list_elem_of_In, list_elem_of_lookup in Hin as [i Hi]. rewrite list_lookup_imap in Hi.
  destruct (chs !! i) as [[l cl]|] eqn:E; simplify_eq/=.
  apply andb_true_iff in Hi as [Hs ->]. apply (H i Hs). by rewrite E.
Qed.

Lemma send_all_closed_at m s i : closed_at (send_all m s) i = closed_at s i.
Proof.
  unfold closed_at, send_all. simpl. rewrite list_lookup_imap.
  destruct (chans s !! i) as [[b cl]|]; simpl; [|done].
  case_bool_decide; [|done]. unfold push. simpl. by destruct (full _ _).
Qed.

Definition started (t : hpc) : bool := match t with HInit | HRegister => false | _ => true end.

(** Every client of the hub and every one in its register channel has an open
    channel and a handler that has registered, once; a handler that has not is
    open. *)
Record hub_ok (s : sys) : Prop := {
  ho_len : length (chans s) = length (handlers s);
  ho_panic : panicked s = false;
  ho_client : forall i, i ∈ clients (hub s) ->
    closed_at s i = Some false /\ (started <$> handlers s !! i) = Some true /\ i ∉ register (hub s);
  ho_nodup : NoDup (register (hub s));
  ho_register : forall i, i ∈ register (hub s) ->
    closed_at s i = Some false /\ (started <$> handlers s !! i) = Some true;
  ho_new : forall i t, handlers s !! i = Some t -> started t = false -> closed_at s i = Some false;
  ho_exited : exited (hub s) = true -> clients (hub s) = ∅;
}.

Lemma hub_ok_start : hub_ok start.
Proof. split; simpl; try done; try (by constructor); intros i; set_solver. Qed.

Lemma run_case_ok l s s' : hub_ok s -> run_case l s = Some s' -> hub_ok s'.
Proof.
  intros [Hlen Hp Hc Hnd Hr Hn He] E. unfold run_case in E.
  destruct (exited (hub s)) eqn:Hex; [done|].
  destruct (draining s).
  { rewrite <- Hex in He. destruct l; simplify_eq/=. unfold drain_step.
    destruct (retryQueue (hub s)); [|destruct (full _ _)]; split; simpl; try done. }
  destruct l; simplify_eq/=.
  - destruct (register (hub s)) as [|c q] eqn:Hq; simplify_eq/=.
    apply NoDup_cons in Hnd as [Hcq Hnd].
    split; simpl; try done; [|by intros i Hi; apply Hr; right|by rewrite Hex].
    intros i [->%elem_of_singleton|Hi]%elem_of_union.
    + split; [|split]; [apply Hr; left..|done].
    + destruct (Hc i Hi) as (? & ? & Hni). split; [done|]. split; [done|]. intros ?. apply Hni. by right.
  - destruct (unregister (hub s)) as [|c q]; simplify_eq/=. case_bool_decide as Hin; simplify_eq/=.
    + destruct (Hc c Hin) as (Hcc & Hcs & Hcr).
      split; simpl; try done; rewrite ?length_imap; try done.
      * rewrite Hp. simpl. apply any_closed_false. intros i Hi%bool_decide_eq_true. subst i.
        change (closed_at s c <> Some true). by rewrite Hcc.
      * intros i [Hi Hne]%elem_of_difference. destruct (Hc i Hi) as (Hci & Hsi & Hri).
        rewrite close_sends_closed_at, closed_at_hub, Hci. simpl.
        split; [|done]. rewrite bool_decide_false; [done|]. set_solver.
      * intros i Hi. destruct (Hr i Hi) as [Hci Hsi].
        rewrite close_sends_closed_at, closed_at_hub, Hci. simpl.
        split; [|done]. rewrite bool_decide_false; [done|]. by intros ->.
      * intros i t Hi Ht. pose proof (Hn i t Hi Ht) as Hci.
        rewrite close_sends_closed_at, closed_at_hub, Hci. simpl.
        rewrite bool_decide_false; [done|]. intros ->. rewrite Hi in Hcs. simpl in Hcs. congruence.
      * by rewrite Hex.
    + split; simpl; try done. by rewrite Hex.
  - destruct (broadcast (hub s)) as [|m' q]; [done|]. case_bool_decide; simplify_eq/=.
    split; simpl; rewrite ?length_imap; try done.
    + rewrite Hp. simpl. apply any_closed_false. intros i Hi%bool_decide_eq_true.
      change (closed_at s i <> Some true). by rewrite (proj1 (Hc i Hi)).
    + intros i Hi. rewrite send_all_closed_at. by apply Hc.
    + intros i Hi. rewrite send_all_closed_at. by apply Hr.
    + intros i t Hi Ht. rewrite send_all_closed_at. by apply (Hn i t).
    + by rewrite Hex.
  - split; simpl; try done. by rewrite Hex.
  - destruct (done (hub s)); simplify_eq/=.
    split; simpl; rewrite ?length_imap; try done.
    + rewrite Hp. simpl. apply any_closed_false. intros i Hi%bool_decide_eq_true. change (closed_at s i <> Some true). by rewrite (proj1 (Hc i Hi)).
    + intros i Hi. destruct (Hr i Hi) as [Hci Hsi].
      change (closed_at (close_sends (fun j => bool_decide (j ∈ clients (hub s))) s) i = Some false /\
        (started <$> handlers s !! i) = Some true).
      rewrite close_sends_closed_at, Hci. simpl. split; [|done].
      rewrite bool_decide_false; [done|]. intros Hi'. by apply (Hc i Hi').
    + intros i t Hi Ht. pose proof (Hn i t Hi Ht) as Hci.
      change (closed_at (close_sends (fun j => bool_decide (j ∈ clients (hub s))) s) i = Some false).
      rewrite close_sends_closed_at, Hci. simpl.
      rewrite bool_decide_false; [done|]. intros Hi'. destruct (Hc i Hi') as (_ & Hs & _).
      rewrite Hi in Hs. simpl in Hs. congruence.
Qed.

(** A handler moves on without touching hub or channels. *)
Lemma set_handler_ok i t t' s :
  hub_ok s -> handlers s !! i = Some t -> (started t = true -> started t' = true) ->
  (started t' = false -> closed_at s i = Some false) -> hub_ok (set_handler i t' s).
Proof.
  intros [Hlen Hp Hc Hnd Hr Hn He] Hi Hst Hcl. pose proof (lookup_lt_Some _ _ _ Hi) as Hlt.
  assert (forall j, (started <$> handlers s !! j) = Some true ->
    (started <$> <[i := t']> (handlers s) !! j) = Some true) as Hmono.
  { intros j Hj. destruct (decide (i = j)) as [->|].
    - rewrite list_lookup_insert_eq by done. rewrite Hi in Hj. simpl in *. f_equal. apply Hst. congruence.
    - by rewrite list_lookup_insert_ne. }
  split; simpl; rewrite ?length_insert; try done.
  - intros j Hj. destruct (Hc j Hj) as (? & ? & ?). split; [done|]. split; [by apply Hmono|done].
  - intros j Hj. destruct (Hr j Hj). split; [done|by apply Hmono].
  - intros j u Hj Hu. change (closed_at s j = Some false). destruct (decide (i = j)) as [->|].
    + rewrite list_lookup_insert_eq in Hj by done. simplify_eq. by apply Hcl.
    + rewrite list_lookup_insert_ne in Hj by done. by eapply Hn.
Qed.

Lemma close_own_ok i t s :
  hub_ok s -> handlers s !! i = Some t -> started t = false ->
  hub_ok (set_handler i HStream (close_sends (fun j => bool_decide (j = i)) s)).
Proof.
  intros Hok Hi Ht. pose proof (lookup_lt_Some _ _ _ Hi) as Hlt.
  assert (hub_ok (set_handler i HStream s)) as [Hlen Hp Hc Hnd Hr Hn He]
    by (eapply set_handler_ok; [done..|]; intros [=]).
  pose proof (ho_new s Hok i t Hi Ht) as Hci.
  assert (forall j, j ∈ clients (hub s) \/ j ∈ register (hub s) -> j <> i) as Hne.
  { intros j Hj ->. destruct Hj as [Hj|Hj];
      [pose proof (proj1 (proj2 (ho_client s Hok i Hj))) as E|pose proof (proj2 (ho_register s Hok i Hj)) as E];
      rewrite Hi in E; simpl in E; congruence. }
  split; simpl in *; rewrite ?length_imap; try done.
  - rewrite Hp. simpl. apply any_closed_false. intros j ->%bool_decide_eq_true.
    change (closed_at s i <> Some true). by rewrite Hci.
  - intros j Hj. destruct (Hc j Hj) as (Hcj & ? & ?).
    change (closed_at (close_sends (fun j => bool_decide (j = i)) s) j = Some false /\
      (started <$> <[i := HStream]> (handlers s) !! j) = Some true /\ j ∉ register (hub s)).
    change (closed_at s j = Some false) in Hcj.
    rewrite close_sends_closed_at, Hcj. simpl. rewrite bool_decide_false by auto. done.
  - intros j Hj. destruct (Hr j Hj) as (Hcj & ?).
    change (closed_at (close_sends (fun j => bool_decide (j = i)) s) j = Some false /\
      (started <$> <[i := HStream]> (handlers s) !! j) = Some true).
    change (closed_at s j = Some false) in Hcj.
    rewrite close_sends_closed_at, Hcj. simpl. rewrite bool_decide_false by auto. done.
  - intros j u Hj Hu. pose proof (Hn j u Hj Hu) as Hcj.
    change (closed_at (close_sends (fun j => bool_decide (j = i)) s) j = Some false).
    change (closed_at s j = Some false) in Hcj. rewrite close_sends_closed_at, Hcj. simpl.
    rewrite bool_decide_false; [done|]. intros ->. rewrite list_lookup_insert_eq in Hj by done. simplify_eq/=.
Qed.

Lemma handler_go_ok i s s' : hub_ok s -> handler_go i s = Some s' -> hub_ok s'.
Proof.
  intros Hok E. unfold handler_go in E. destruct (handlers s !! i) as [[]|] eqn:Hi; simplify_eq/=.
  - destruct (done (hub s)).
    + by eapply close_own_ok.
    + eapply set_handler_ok; [done..|]. intros _. by eapply (ho_new s Hok i).
  - case_tests; simplify_eq/=. pose proof (ho_new s Hok i _ Hi eq_refl) as Hci.
    assert (hub_ok (set_handler i HStream s)) as [Hlen Hp Hc Hnd Hr Hn He]
      by (eapply set_handler_ok; [done..|]; intros [=]).
    assert (forall j, j ∈ clients (hub s) \/ j ∈ register (hub s) -> j <> i) as Hne.
    { intros j Hj ->. destruct Hj as [Hj|Hj];
        [pose proof (proj1 (proj2 (ho_client s Hok i Hj))) as E|pose proof (proj2 (ho_register s Hok i Hj)) as E];
        rewrite Hi in E; simpl in E; congruence. }
    split; simpl in *; try done.
    + intros j Hj. destruct (Hc j Hj) as (? & ? & ?). split; [done|]. split; [done|].
      rewrite elem_of_app, list_elem_of_singleton. intros [|]; [done|]. subst. by eapply Hne; [left|].
    + apply NoDup_app. split; [done|]. split; [|apply NoDup_singleton].
      intros j Hj Hj2%list_elem_of_singleton. subst. by eapply Hne; [right|].
    + intros j [Hj|Hj%list_elem_of_singleton]%elem_of_app; [by apply Hr|]. subst j. split; [done|].
      rewrite list_lookup_insert_eq by (by eapply lookup_lt_Some). done.
  - eapply set_handler_ok; [done..| |]; destruct (done (hub s)); done.
  - case_tests; simplify_eq/=.
    assert (hub_ok (set_handler i HGone s)) as [Hlen Hp Hc Hnd Hr Hn He]
      by (eapply set_handler_ok; [done..|]; intros [=]).
    split; done.
Qed.

Lemma handler_chan_ok i s s' : hub_ok s -> handler_chan i s = Some s' -> hub_ok s'.
Proof.
  intros Hok E. unfold handler_chan in E. destruct (handlers s !! i) as [[]|] eqn:Hi; simplify_eq/=.
  - case_tests; simplify_eq/=. by eapply close_own_ok.
  - destruct (chans s !! i) as [[[|m q] cl]|] eqn:Hch; simplify_eq/=.
    + destruct cl; simplify_eq/=. eapply set_handler_ok; [done..|]. intros [=].
    + destruct Hok as [Hlen Hp Hc Hnd Hr Hn He].
      assert (forall j, closed_at (set_chans (<[i := (q, cl)]> (chans s)) s) j = closed_at s j) as Hcl.
      { intros j. unfold closed_at. simpl. destruct (decide (i = j)) as [->|].
        - rewrite list_lookup_insert_eq by (by eapply lookup_lt_Some). by rewrite Hch.
        - by rewrite list_lookup_insert_ne. }
      split; simpl; rewrite ?length_insert; try done.
      * intros j Hj. rewrite Hcl. by apply Hc.
      * intros j Hj. rewrite Hcl. by apply Hr.
      * intros j t. rewrite Hcl. apply Hn.
  - case_tests; simplify_eq/=. eapply set_handler_ok; [done..|]. intros [=].
Qed.

Lemma hub_step_ok s l s' : hub_ok s -> hub_step s l s' -> hub_ok s'.
Proof.
  intros Hok E. unfold hub_step in E. destruct l; simpl in E;
    try (by eapply run_case_ok); try (by eapply handler_go_ok); try (by eapply handler_chan_ok).
  - destruct Hok as [Hlen Hp Hc Hnd Hr Hn He]. simplify_eq/=.
    assert (forall j, (j < length (chans s))%nat ->
      closed_at (mkSys (hub s) (chans s ++ [([], false)]) (handlers s ++ [HInit]) (panicked s) (pending s) (draining s)) j
        = closed_at s j) as Hcl
      by (intros j Hj; unfold closed_at; simpl; by rewrite lookup_app_l).
    assert (forall j b, closed_at s j = Some b -> (j < length (chans s))%nat) as Hlt.
    { intros j b Hj. unfold closed_at in Hj. destruct (chans s !! j) eqn:Ej; [|done]. by eapply lookup_lt_Some. }
    split; simpl; rewrite ?length_app, ?Hlen; try done.
    + intros j Hj. destruct (Hc j Hj) as (Hcj & Hsj & ?). pose proof (Hlt j _ Hcj).
      rewrite Hcl by done. split; [done|]. split; [|done]. rewrite lookup_app_l by lia. done.
    + intros j Hj. destruct (Hr j Hj) as (Hcj & Hsj). pose proof (Hlt j _ Hcj).
      rewrite Hcl by done. split; [done|]. rewrite lookup_app_l by lia. done.
    + intros j t [Hj|[Hj1 Hj2]]%lookup_app_Some Ht.
      * pose proof (Hn j t Hj Ht) as Hcj. rewrite Hcl by (by eapply Hlt). done.
      * apply list_lookup_singleton_Some in Hj2 as [Hj2 <-].
        unfold closed_at. simpl. rewrite lookup_app_r by lia. replace (j - length (chans s))%nat with 0%nat by lia. done.
  - destruct Hok as [Hlen Hp Hc Hnd Hr Hn He]. simplify_eq/=. unfold Broadcast. destruct (full _ _); by split.
  - destruct Hok as [Hlen Hp Hc Hnd Hr Hn He]. destruct (draining s); [done|].
    destruct (pending s !! i); simplify_eq/=. unfold Broadcast_retry. destruct (full _ _); by split.
  - destruct Hok as [Hlen Hp Hc Hnd Hr Hn He]. case_tests; simplify_eq/=. by split.
  - destruct (handlers s !! i) as [[]|] eqn:Hi; simplify_eq/=. eapply set_handler_ok; [done..|]. intros [=].
Qed.

(** ** Bounds and accounting of the queues *)
Lemma full_false {A} cap (l : list A) : full cap l = false -> (length l < cap)%nat.
Proof. unfold full. apply Nat.leb_gt. Qed.
Lemma full_true {A} cap (l : list A) : full cap l = true -> (cap <= length l)%nat.
Proof. unfold full. apply Nat.leb_le. Qed.

Record bounded (s : sys) : Prop := {
  bo_broadcast : (length (broadcast (hub s)) <= broadcast_cap)%nat;
  bo_retry : (length (retryQueue (hub s)) <= retry_cap)%nat;
  bo_register : (length (register (hub s)) <= register_cap)%nat;
  bo_unregister : (length (unregister (hub s)) <= register_cap)%nat;
  bo_chans : Forall (fun ch : chan => (length ch.1 <= sseClientSendBuf)%nat) (chans s);
}.

Lemma chans_imap_bounded f (chs : list chan) :
  (forall i ch, (length ch.1 <= sseClientSendBuf)%nat -> (length (f i ch).1 <= sseClientSendBuf)%nat) ->
  Forall (fun ch : chan => (length ch.1 <= sseClientSendBuf)%nat) chs ->
  Forall (fun ch : chan => (length ch.1 <= sseClientSendBuf)%nat) (imap f chs).
Proof.
  intros Hf HF. apply Forall_lookup. intros i ch Hi. rewrite list_lookup_imap in Hi.
  destruct (chs !! i) as [c|] eqn:E; simplify_eq/=. apply Hf. by eapply Forall_lookup in HF.
Qed.

Lemma push_bounded m ch : (length ch.1 <= sseClientSendBuf)%nat -> (length (push m ch).1 <= sseClientSendBuf)%nat.
Proof.
  unfold push. destruct (full _ _) eqn:E; [done|]. intros _. simpl. rewrite length_app. simpl.
  apply full_false in E. lia.
Qed.

Lemma bounded_step s l s' : bounded s -> hub_step s l s' -> bounded s'.
Proof.
  intros [Hb Hq Hr Hu Hc] E. unfold hub_step in E.
  destruct l as [|m|k| | | |m| | | |i|i|i]; simpl in E; unfold run_case, handler_go, handler_chan in E; simpl in E.
  - simplify_eq/=. split; try done. simpl. apply Forall_app. split; [done|]. apply Forall_singleton. simpl. lia.
  - simplify_eq/=. unfold Broadcast. destruct (full broadcast_cap (broadcast (hub s))) eqn:Ef; split; try done. simpl.
    apply full_false in Ef. rewrite length_app. simpl. lia.
  - destruct (draining s); [done|]. destruct (pending s !! k); simplify_eq/=. unfold Broadcast_retry.
    destruct (full retry_cap (retryQueue (hub s))) eqn:Ef; split; try done. simpl.
    apply full_false in Ef. rewrite length_app. simpl. lia.
  - case_tests; simplify_eq/=. by split.
  - case_tests; simplify_eq/=. destruct (register (hub s)); simplify_eq/=. split; try done; simpl in *; lia.
  - case_tests; simplify_eq/=. destruct (unregister (hub s)); simplify_eq/=.
    case_tests; simplify_eq/=; split; try done; simpl in *; try lia.
    apply chans_imap_bounded; [|done]. intros i ch. by destruct (bool_decide _).
  - case_tests; simplify_eq/=. destruct (broadcast (hub s)); simplify_eq/=. case_tests; simplify_eq/=.
    split; try done; simpl in *; try lia.
    apply chans_imap_bounded; [|done]. intros i ch. destruct (bool_decide _); [apply push_bounded|done].
  - case_tests; simplify_eq/=. by split.
  - case_tests; simplify_eq/=. unfold drain_step. destruct (retryQueue (hub s)) as [|m q] eqn:Eq; [split; try done; simpl; rewrite Eq; simpl; lia|].
    destruct (full broadcast_cap (broadcast (hub s))) eqn:Ef; split; try done; simpl in *; rewrite ?Eq; simpl; try lia.
    apply full_false in Ef. rewrite length_app. simpl. lia.
  - case_tests; simplify_eq/=. split; try done. simpl.
    apply chans_imap_bounded; [|done]. intros i ch. by destruct (bool_decide _).
  - destruct (handlers s !! i) as [[]|]; simplify_eq/=; case_tests; simplify_eq/=; split; try done; simpl;
      repeat match goal with H : full _ _ = false |- _ => apply full_false in H end; rewrite ?length_app; simpl; try lia.
    apply chans_imap_bounded; [|done]. intros j ch. by destruct (bool_decide _).
  - destruct (handlers s !! i) as [[]|]; simplify_eq/=; case_tests; simplify_eq/=; try (by split).
    + split; try done. simpl. apply chans_imap_bounded; [|done]. intros j ch. by destruct (bool_decide _).
    + destruct (chans s !! i) as [[[|m q] cl]|] eqn:Ech; simplify_eq/=.
      * destruct cl; simplify_eq/=. by split.
      * split; try done. simpl. apply Forall_insert; [done|]. eapply Forall_lookup in Hc; [|exact Ech].
        simpl in *. lia.
  - destruct (handlers s !! i) as [[]|]; simplify_eq/=. by split.
Qed.

(** C11. The hub never panics and its buffers are bounded: whatever the
    interleaving of clients that come and go, callers of [Broadcast] and the
    shutdown, no client's channel is closed twice or sent to after it was
    closed; a client the hub knows has registered and its channel is open; and
    every queue and every client's buffer stays within its capacity. *)
Theorem hub_safe s : reachable s ->
  panicked s = false /\
  (forall i, i ∈ clients (hub s) -> closed_at s i = Some false) /\
  ((length (broadcast (hub s)) <= broadcast_cap)%nat /\ (length (retryQueue (hub s)) <= retry_cap)%nat /\
   (length (register (hub s)) <= register_cap)%nat /\ (length (unregister (hub s)) <= register_cap)%nat /\
   Forall (fun ch : chan => (length ch.1 <= sseClientSendBuf)%nat) (chans s)).
Proof.
  intros [ls Hs].
  assert (hub_ok s) as [] by (eapply steps_inv; [exact hub_step_ok|exact Hs|exact hub_ok_start]).
  assert (bounded s) as [].
  { eapply steps_inv; [exact bounded_step|exact Hs|]. split; simpl; try lia. constructor. }
  split; [done|]. split; [by apply ho_client0|]. by repeat split.
Qed.

(** ** What becomes of the mutations *)
Definition called (ls : list label) : list MutationPayload :=
  omap (fun l => match l with CallBroadcast m => Some m | _ => None end) ls.
Definition processed (ls : list label) : list MutationPayload :=
  omap (fun l => match l with RunBroadcast m => Some m | _ => None end) ls.

Lemma called_app ls l : called (ls ++ l) = called ls ++ called l.
Proof. apply omap_app. Qed.
Lemma processed_app ls l : processed (ls ++ l) = processed ls ++ processed l.
Proof. apply omap_app. Qed.

(** What a step does to the mutations: those in the hub's queues and those
    whose callers wait for the retry queue. *)
Inductive queue_effect (s s' : sys) : label -> Prop :=
| qe_direct m : full broadcast_cap (broadcast (hub s)) = false ->
    broadcast (hub s') = broadcast (hub s) ++ [m] -> retryQueue (hub s') = retryQueue (hub s) ->
    pending s' = pending s -> droppedCount (hub s') = droppedCount (hub s) ->
    queue_effect s s' (CallBroadcast m)
| qe_blocked m : full broadcast_cap (broadcast (hub s)) = true ->
    hub s' = hub s -> pending s' = pending s ++ [m] -> queue_effect s s' (CallBroadcast m)
| qe_queued i m : pending s !! i = Some m -> pending s' = delete i (pending s) ->
    broadcast (hub s') = broadcast (hub s) -> retryQueue (hub s') = retryQueue (hub s) ++ [m] ->
    droppedCount (hub s') = droppedCount (hub s) -> queue_effect s s' (RetryBroadcast i)
| qe_dropped i m : pending s !! i = Some m -> pending s' = delete i (pending s) ->
    broadcast (hub s') = broadcast (hub s) -> retryQueue (hub s') = retryQueue (hub s) ->
    droppedCount (hub s') = inc64 (droppedCount (hub s)) -> queue_effect s s' (RetryBroadcast i)
| qe_processed m : broadcast (hub s) = m :: broadcast (hub s') -> retryQueue (hub s') = retryQueue (hub s) ->
    pending s' = pending s -> droppedCount (hub s') = droppedCount (hub s) ->
    queue_effect s s' (RunBroadcast m)
| qe_other l : called [l] = [] -> processed [l] = [] ->
    broadcast (hub s') ++ retryQueue (hub s') = broadcast (hub s) ++ retryQueue (hub s) ->
    pending s' = pending s -> droppedCount (hub s') = droppedCount (hub s) -> queue_effect s s' l.

Lemma hub_step_queues s l s' : hub_step s l s' -> queue_effect s s' l.
Proof.
  intros E. unfold hub_step in E.
  destruct l as [|m|k| | | |m| | | |i|i|i]; simpl in E; unfold run_case, handler_go, handler_chan in E; simpl in E.
  - simplify_eq/=. by apply qe_other.
  - simplify_eq/=. unfold Broadcast.
    destruct (full broadcast_cap (broadcast (hub s))) eqn:E1; [by apply qe_blocked|by apply qe_direct].
  - destruct (draining s); [done|]. destruct (pending s !! k) as [m|] eqn:Ek; simplify_eq/=. unfold Broadcast_retry.
    destruct (full retry_cap _); [by eapply qe_dropped|by eapply qe_queued].
  - case_tests; simplify_eq/=. by apply qe_other.
  - case_tests; simplify_eq/=. destruct (register (hub s)); simplify_eq/=. by apply qe_other.
  - case_tests; simplify_eq/=. destruct (unregister (hub s)); simplify_eq/=.
    case_tests; simplify_eq/=; by apply qe_other.
  - case_tests; simplify_eq/=. destruct (broadcast (hub s)) eqn:Eb; simplify_eq/=. case_tests; simplify_eq/=.
    by apply qe_processed.
  - case_tests; simplify_eq/=. by apply qe_other.
  - case_tests; simplify_eq/=. unfold drain_step. destruct (retryQueue (hub s)) as [|m q] eqn:Eq; [by apply qe_other|].
    destruct (full _ _); apply qe_other; simpl; try done. by rewrite Eq, <- app_assoc.
  - case_tests; simplify_eq/=. by apply qe_other.
  - destruct (handlers s !! i) as [[]|]; simplify_eq/=; case_tests; simplify_eq/=; by apply qe_other.
  - destruct (handlers s !! i) as [[]|]; simplify_eq/=; case_tests; simplify_eq/=; try by apply qe_other.
    destruct (chans s !! i) as [[[|m q] cl]|]; simplify_eq/=; [destruct cl; simplify_eq/=|]; by apply qe_other.
  - destruct (handlers s !! i) as [[]|]; simplify_eq/=. by apply qe_other.
Qed.

(** No mutation is lost uncounted on its way to the hub's loop, or taken twice:
    every one given to [Broadcast] is exactly one of: taken by the loop, waiting in
    the channel, waiting in the retry queue, held by a caller on its way to the
    retry queue, or counted as dropped. (What the loop takes it offers to every
    client's buffer, [send_all]; one that is full drops it, which is not counted.) *)
Theorem mutations_accounted ls s :
  steps hub_step start ls s -> Z.of_nat (length ls) <= max_int64 ->
  exists lost,
    called ls ≡ₚ processed ls ++ broadcast (hub s) ++ retryQueue (hub s) ++ pending s ++ lost /\
    droppedCount (hub s) = Z.of_nat (length lost).
Proof.
  intros Hs Hlen.
  pose (P := fun (ls : list label) (s : sys) => Z.of_nat (length ls) <= max_int64 ->
    exists lost, called ls ≡ₚ processed ls ++ broadcast (hub s) ++ retryQueue (hub s) ++ pending s ++ lost /\
      droppedCount (hub s) = Z.of_nat (length lost) /\ (length lost <= length ls)%nat).
  assert (P ls s) as HP; [|destruct (HP Hlen) as (lost & H1 & H2 & _); eauto].
  apply (steps_trace_inv hub_step P start); [|clear|exact Hs].
  { intros _. by exists []. }
  intros ls s l s' IH Hst Hlen. rewrite length_app in Hlen. simpl in Hlen.
  destruct IH as (lost & Hp & Hd & Hll); [lia|]. apply hub_step_queues in Hst.
  rewrite called_app, processed_app, length_app.
  destruct Hst as [m _ -> -> -> ->|m _ -> ->|i m Hi -> -> -> ->|i m Hi -> -> -> ->|m Eb -> -> ->|l Hc Hpr Eq -> ->];
    [simpl..|].
  - exists lost. rewrite app_nil_r. split; [|split; [done|lia]]. rewrite Hp. solve_Permutation.
  - exists lost. rewrite app_nil_r. split; [|split; [done|lia]]. rewrite Hp. solve_Permutation.
  - exists lost. rewrite !app_nil_r. split; [|split; [done|lia]]. rewrite Hp.
    rewrite (delete_Permutation _ _ _ Hi) at 1. solve_Permutation.
  - exists (m :: lost). rewrite !app_nil_r. split.
    { rewrite Hp. rewrite (delete_Permutation _ _ _ Hi) at 1. solve_Permutation. }
    rewrite inc64_id by int64_lia. simpl. lia.
  - exists lost. rewrite app_nil_r, <- app_assoc. rewrite Eb in Hp. split; [exact Hp|]. split; [done|lia].
  - exists lost. rewrite Hc, Hpr, !app_nil_r. split; [|split; [done|lia]].
    rewrite Hp, !(app_assoc (broadcast _)), Eq. done.
Qed.

(** A caller of [Broadcast] that does not find room in the channel while older
    mutations wait, and one that takes the retry queue's lock before a later
    caller does. *)
Definition in_turn (s : sys) (l : label) : Prop :=
  match l with
  | CallBroadcast _ =>
      (retryQueue (hub s) = [] /\ pending s = []) \/ full broadcast_cap (broadcast (hub s)) = true
  | RetryBroadcast i => i = 0%nat
  | _ => True
  end.

(** As long as no caller finds room in the channel while older mutations
    wait, and callers reach the retry queue in order, clients are sent the
    mutations in the order of the calls: what was sent, what waits in the
    channel, what waits for retry and what is on its way there are, in this
    order, the calls without the dropped ones. *)
Theorem mutations_in_order ls s :
  steps (fun s l s' => hub_step s l s' /\ in_turn s l) start ls s ->
  processed ls ++ broadcast (hub s) ++ retryQueue (hub s) ++ pending s `sublist_of` called ls.
Proof.
  apply (steps_trace_inv (fun s l s' => hub_step s l s' /\ in_turn s l)
    (fun ls s => processed ls ++ broadcast (hub s) ++ retryQueue (hub s) ++ pending s `sublist_of` called ls)); [done|].
  clear. intros ls s l s' IH [Hst Ht]. apply hub_step_queues in Hst. rewrite called_app, processed_app.
  destruct Hst as [m Hf -> -> -> _|m _ -> ->|i m Hi -> -> -> _|i m Hi -> -> -> _|m Eb -> -> _|l Hc Hpr Eq -> _];
    [simpl in *..|].
  - destruct Ht as [[Hr Hpn]|]; [|congruence]. rewrite Hr, Hpn, !app_nil_r in *. rewrite app_assoc. by apply sublist_app.
  - rewrite app_nil_r, !app_assoc in *. by apply sublist_app.
  - subst i. destruct (pending s) as [|m' p]; simplify_eq/=. rewrite !app_nil_r, <- app_assoc. exact IH.
  - subst i. destruct (pending s) as [|m' p]; simplify_eq/=. rewrite !app_nil_r. etrans; [|exact IH].
    repeat apply sublist_app; try done. by apply sublist_cons.
  - rewrite app_nil_r, <- app_assoc. by rewrite Eb in IH.
  - rewrite Hc, Hpr, !app_nil_r, !(app_assoc (broadcast _)), Eq. by rewrite <- !(app_assoc (broadcast _)).
Qed.

(** ** Runs on given interleavings *)
Definition mutation (n : Z) : MutationPayload := mkPayload "update" "bd-1" "" "" "" "" "" "" "" n.

(** A mutation overtakes older ones: after a burst that fills the channel,
    the next waits in the retry queue, and a later one goes straight into the
    channel as soon as it has room, so the clients see the two in the reverse
    order. *)
Theorem burst_reorders :
  exists ls s, steps hub_step start ls s /\
    called ls = replicate 256 (mutation 0) ++ [mutation 1; mutation 2] /\
    processed ls = replicate 256 (mutation 0) ++ [mutation 2; mutation 1].
Proof.
  exists (replicate 256 (CallBroadcast (mutation 0)) ++
    [CallBroadcast (mutation 1); RetryBroadcast 0; RunBroadcast (mutation 0); CallBroadcast (mutation 2)] ++
    replicate 255 (RunBroadcast (mutation 0)) ++
    [RunBroadcast (mutation 2); RunTick; RunDrain; RunDrain; RunBroadcast (mutation 1)]).
  eexists. split; [apply (exec_all_steps exec); vm_compute; reflexivity|]. split; vm_compute; reflexivity.
Qed.

(** A client whose handler is gone and whom nothing will unregister. *)
Definition ghost (i : nat) (s : sys) : Prop :=
  i ∈ clients (hub s) /\ handlers s !! i = Some HGone /\ i ∉ unregister (hub s).

Lemma ghost_step i s l s' : l <> RunDone -> ghost i s -> hub_step s l s' -> ghost i s'.
Proof.
  intros Hl (Hc & Hg & Hu) E. unfold hub_step in E. pose proof (lookup_lt_Some _ _ _ Hg) as Hlt.
  destruct l as [|m|k| | | |m| | | |j|j|j]; simpl in E; unfold run_case, handler_go, handler_chan in E; simpl in E.
  - simplify_eq/=. split; [done|]. split; [|done]. simpl. by rewrite lookup_app_l.
  - simplify_eq/=. unfold Broadcast. destruct (full _ _); by repeat split.
  - destruct (draining s); [done|]. destruct (pending s !! k); simplify_eq/=. unfold Broadcast_retry.
    destruct (full _ _); by repeat split.
  - case_tests; simplify_eq/=. by repeat split.
  - case_tests; simplify_eq/=. destruct (register (hub s)); simplify_eq/=.
    split; [|by split]. simpl. set_solver.
  - case_tests; simplify_eq/=. destruct (unregister (hub s)) as [|c q]; simplify_eq/=.
    apply not_elem_of_cons in Hu as [Hic Hu].
    case_tests; simplify_eq/=; (split; [|by split]); simpl; set_solver.
  - case_tests; simplify_eq/=. destruct (broadcast (hub s)); simplify_eq/=. case_tests; simplify_eq/=.
    by repeat split.
  - case_tests; simplify_eq/=. by repeat split.
  - case_tests; simplify_eq/=. unfold drain_step. destruct (retryQueue (hub s)); [by repeat split|].
    destruct (full _ _); by repeat split.
  - done.
  - destruct (decide (j = i)) as [->|Hne]; [rewrite Hg in E; done|].
    destruct (handlers s !! j) as [[]|]; simplify_eq/=; case_tests; simplify_eq/=; (split; [done|]); simpl;
      rewrite list_lookup_insert_ne by done; (split; [done|]); try done.
    rewrite elem_of_app, list_elem_of_singleton. intros [|]; [done|congruence].
  - destruct (decide (j = i)) as [->|Hne]; [rewrite Hg in E; done|].
    destruct (handlers s !! j) as [[]|]; simplify_eq/=; case_tests; simplify_eq/=; try (split; [done|]; simpl;
      rewrite list_lookup_insert_ne by done; done).
    destruct (chans s !! j) as [[[|m q] cl]|]; simplify_eq/=; [destruct cl; simplify_eq/=|by repeat split].
    split; [done|]. simpl. by rewrite list_lookup_insert_ne.
  - destruct (decide (j = i)) as [->|Hne]; [rewrite Hg in E; done|].
    destruct (handlers s !! j) as [[]|]; simplify_eq/=. split; [done|]. simpl. by rewrite list_lookup_insert_ne.
Qed.

(** A client that leaves at once can stay for ever: when the hub takes its
    unregistration from its channel before its registration, the first is
    ignored and the second kept; from then on the client, whose handler has
    ended, is counted and sent to until the hub stops, whatever happens. *)
Theorem ghost_client :
  (exists s, steps hub_step start
     [Connect; Handler 0; Handler 0; HandlerDisconnect 0; Handler 0; Handler 0; RunUnregister; RunRegister] s /\
     ghost 0 s) /\
  (forall i s ls s', ghost i s -> steps hub_step s ls s' -> RunDone ∉ ls -> ghost i s').
Proof.
  split.
  - eexists. split; [apply (exec_all_steps exec); vm_compute; reflexivity|].
    split; [|split]; [|done|apply not_elem_of_nil]. simpl. set_solver.
  - intros i s ls s' Hg Hs Hd. eapply (steps_inv_labels hub_step (ghost i) (fun l => l <> RunDone));
      [intros; by eapply ghost_step| |exact Hs|exact Hg].
    apply Forall_forall. intros l Hl ->. by apply Hd.
Qed.

(** ** Event identifiers and catch-up ([handleSSE], [writeSSEEvent])

    The identifier of an event is a counter of all events written to any client,
    which starts at the server's start time in milliseconds; a client that
    comes back sends it as the time since which it wants mutations. *)
Definition writeSSEEvent (counter : Z) : Z * Z := let id := inc64 counter in (id, id).

(** The [Last-Event-ID] header and the [since] parameter; [""] when absent. *)
Definition lastSince (header query : string) : Z :=
  let since := if bool_decide (header <> ""%string) then default 0 (atoi header) else 0 in
  if bool_decide (query <> ""%string) then
    match atoi query with Some ts => if since <? ts then ts else since | None => since end
  else since.

Fixpoint write_events (n : nat) (counter : Z) : list Z :=
  match n with O => [] | S n' => let (c, id) := writeSSEEvent counter in id :: write_events n' c end.

(** The catch-up of a client: [getMutationsSince] asks the daemon. *)
Definition catch_up {M} (getMutationsSince : Z -> list M) (since : Z) : list M :=
  if 0 <? since then getMutationsSince since else [].

Lemma write_events_last n counter :
  0 <= counter -> counter + Z.of_nat n <= max_int64 ->
  last (write_events n counter) = (if (n =? 0)%nat then None else Some (counter + Z.of_nat n)).
Proof.
  revert counter. induction n as [|n IH]; intros counter H0 Hm; [done|]. cbn [write_events writeSSEEvent].
  rewrite inc64_id by int64_lia.
  rewrite last_cons, IH by lia. destruct n as [|n]; simpl; f_equal; lia.
Qed.

(** A client that was sent all [n] events of a server started at [t0] and comes
    back is sent again every mutation of the time after [t0 + n] milliseconds:
    the counter runs behind the clock. *)
Theorem catch_up_replays {M} (ts : M -> Z) (log : list M) getMutationsSince n t0 m :
  (forall since m, m ∈ getMutationsSince since <-> m ∈ log /\ since < ts m) ->
  (0 < n)%nat -> 0 <= t0 -> t0 + Z.of_nat n <= max_int64 ->
  m ∈ log -> t0 + Z.of_nat n < ts m ->
  exists id, last (write_events n t0) = Some id /\ m ∈ catch_up getMutationsSince id.
Proof.
  intros Hg Hn Ht Hm Hin Hts. exists (t0 + Z.of_nat n). split.
  - rewrite write_events_last by done. destruct n; [lia|done].
  - unfold catch_up. rewrite (proj2 (Z.ltb_lt _ _)) by lia. by apply Hg.
Qed.

(** ** Witnesses *)
Definition demo_trace : list label :=
  [Connect; Handler 0; Handler 0; RunRegister; CallBroadcast (mutation 1); RunBroadcast (mutation 1);
   CallBroadcast (mutation 2); HandlerChan 0; CallStop; RunDone; HandlerChan 0; Handler 0].
Definition demo_end : sys := default start (exec_all exec demo_trace start).
Lemma demo_steps : steps hub_step start demo_trace demo_end.
Proof. apply (exec_all_steps exec). vm_compute. reflexivity. Qed.

Lemma hub_safe_witness : panicked demo_end = false /\ handlers demo_end = [HGone].
Proof.
  split; [exact (proj1 (hub_safe demo_end (ex_intro _ demo_trace demo_steps)))|vm_compute; reflexivity].
Defined.

Lemma mutations_accounted_witness :
  exists lost, [mutation 1; mutation 2] ≡ₚ [mutation 1] ++ [mutation 2] ++ [] ++ [] ++ lost /\ 0 = Z.of_nat (length lost).
Proof. exact (mutations_accounted demo_trace demo_end demo_steps ltac:(vm_compute; discriminate)). Defined.

(** Two calls in order. *)
Definition two_calls : list label := [CallBroadcast (mutation 1); CallBroadcast (mutation 2)].
Definition two_called : sys := default start (exec_all exec two_calls start).

Lemma mutations_in_order_witness : [] ++ [mutation 1; mutation 2] ++ [] ++ [] `sublist_of` [mutation 1; mutation 2].
Proof.
  refine (mutations_in_order two_calls two_called _).
  eapply steps_cons; [split; [reflexivity|left; split; reflexivity]|].
  eapply steps_cons; [split; [vm_compute; reflexivity|left; split; reflexivity]|apply steps_nil].
Defined.

Lemma ghost_client_witness :
  exists s, steps hub_step start
     [Connect; Handler 0; Handler 0; HandlerDisconnect 0; Handler 0; Handler 0; RunUnregister; RunRegister] s /\
   forall s', steps hub_step s [RunTick] s' -> ghost 0 s'.
Proof.
  destruct ghost_client as [(s & Hs & Hg) Hstay]. exists s. split; [exact Hs|]. intros s' Hs'.
  refine (Hstay 0%nat s [RunTick] s' Hg Hs' _). intros H%list_elem_of_singleton. discriminate H.
Defined.
End Sse.
