(* ===== verification/EnvSubst.v ===== *)
(** * EnvSubst: environment variables in the configuration and in subprocesses,
    [internal/cli/config_envsubst.go] and [envfilter.go]

    The expansion of [${...}] references in a string and in the string scalars
    of a YAML tree, and the filter on the environment of spawned agents. The
    YAML parser and printer are not modelled: [node] has the fields of
    [yaml.Node] the walk looks at. *)
From S2P Require Import Prelude.
Local Open Scope string_scope.
Local Open Scope go_scope.

Module EnvSubst.

(** ** Expressions *)
Inductive exprMode := exprRequired | exprDefault | exprError.

Definition parseExpr (expr : string) : string * string * exprMode :=
  match index_of expr ":-" with
  | Some idx => (str_take idx expr, str_drop (idx + 2) expr, exprDefault)
  | None =>
      match index_of expr ":?" with
      | Some idx => (str_take idx expr, str_drop (idx + 2) expr, exprError)
      | None => (expr, "", exprRequired)
      end
  end.

(** The offset of the brace that closes a [${] opened before [s]. *)
Fixpoint findClosingBrace (depth : nat) (s : string) : option nat :=
  match s with
  | EmptyString => None
  | String c s' =>
      if bool_decide (c = "{"%char) then S <$> findClosingBrace (S depth) s'
      else if bool_decide (c = "}"%char) then
        match depth with
        | S (S d) => S <$> findClosingBrace (S d) s'
        | _ => Some O
        end
      else S <$> findClosingBrace depth s'
  end.

Section expansion.
(** [os.LookupEnv]. *)
Context (env : gmap string string).

Definition expandExpr (expr : string) (start : nat) : res string :=
  let at_start := itoa (Z.of_nat start) in
  if bool_decide (expr = "") then Err (Msg ("empty variable name in ${} at position " ++ at_start))
  else if contains expr "${" then
    Err (Msg ("nested variable references are not supported at position " ++ at_start))
  else
    let '(varName, defaultVal, mode) := parseExpr expr in
    if bool_decide (varName = "") then Err (Msg ("empty variable name at position " ++ at_start))
    else
      let val := default "" (env !! varName) in
      if bool_decide (val <> "") then Ok val
      else
        match mode with
        | exprDefault => Ok defaultVal
        | exprError => Err (Msg ("required variable " ++ varName ++ ": " ++ defaultVal))
        | exprRequired =>
            match env !! varName with
            | Some _ => Ok ""
            | None => Err (Msg ("environment variable " ++ quote varName ++ " is not set"))
            end
        end.

(** The loop from position [i], with the rest of the string; [skip] characters
    have been consumed already. *)
Fixpoint expand (skip i : nat) (s : string) : res string :=
  match s with
  | EmptyString => Ok ""
  | String c s' =>
      match skip with
      | S k => expand k (S i) s'
      | O =>
          let copy (_ : unit) := let? x := expand 0 (S i) s' in Ok (String c x) in
          if negb (bool_decide (c = "$"%char)) then copy tt
          else
            match s' with
            | String d rest =>
                if bool_decide (d = "$"%char) then let? x := expand 1 (S i) s' in Ok (String "$" x)
                else if bool_decide (d = "{"%char) then
                  match findClosingBrace 1 rest with
                  | None => Err (Msg ("unclosed ${ at position " ++ itoa (Z.of_nat i)))
                  | Some n =>
                      let? v := expandExpr (str_take n rest) i in
                      let? x := expand (n + 2) (S i) s' in Ok (v ++ x)
                  end
                else copy tt
            | EmptyString => copy tt
            end
      end
  end.

Definition ExpandEnvVars (s : string) : res string := expand 0 0 s.
End expansion.

(** ** YAML trees *)
Inductive Kind := ScalarNode | DocumentNode | MappingNode | SequenceNode | AliasNode.

#[warnings="-register-all"]
Inductive node := Node (kind : Kind) (tag value : string) (style line column : Z) (content : list node).

Definition isImplicitString (kind : Kind) (tag value : string) : bool :=
  match kind with
  | ScalarNode => bool_decide (tag = "" \/ tag = "!!str") && contains value "${"
  | _ => false
  end.

(** The scalars [walkNodes] expands. *)
Definition expands (kind : Kind) (tag value : string) (style : Z) : bool :=
  bool_decide (tag = "!!str") || (bool_decide (tag = "") && negb (style =? 0)%Z) || isImplicitString kind tag value.

(** The loop over the children of a node. *)
Section children.
Context (visit : node -> res node).
Fixpoint each_child (l : list node) : res (list node) :=
  match l with
  | [] => Ok []
  | x :: l' => let? x' := visit x in let? l'' := each_child l' in Ok (x' :: l'')
  end.
End children.

(** An error ends the walk; its line is that of the scalar. *)
Fixpoint walkNodes (env : gmap string string) (n : node) : res node :=
  match n with
  | Node kind tag value style line column content =>
      match kind with
      | ScalarNode =>
          if expands kind tag value style then
            match ExpandEnvVars env value with
            | Ok v => Ok (Node kind tag v style line column content)
            | Err e => Err (Wrapf ("line " ++ itoa line ++ ": ") e "")
            end
          else Ok n
      | DocumentNode | MappingNode | SequenceNode =>
          let? c := each_child (walkNodes env) content in Ok (Node kind tag value style line column c)
      | AliasNode => Ok n
      end
  end.

(** The YAML library: parsing, printing, and what closing the printer returns. *)
Class Yaml := {
  Unmarshal : string -> res node;
  Encode : node -> res string;
  CloseEncoder : option goerror;
}.

Definition ExpandConfigBytes `{!Yaml} (env : gmap string string) (data : string) : res string :=
  if bool_decide (data = "") then Ok data
  else
    match Unmarshal data with
    | Err e => Err (Wrapf "parsing YAML for env expansion: " e "")
    | Ok doc =>
        let? doc' := walkNodes env doc in
        match Encode doc' with
        | Err e => Err (Wrapf "re-encoding YAML after env expansion: " e "")
        | Ok text =>
            match CloseEncoder with
            | Some e => Err (Wrapf "closing YAML encoder: " e "")
            | None => Ok text
            end
        end
    end.

(** ** The environment of a subprocess ([envfilter.go]) *)
Definition envAllowlistExact : list string := [
  "PATH"; "HOME"; "PWD"; "TERM"; "USER"; "SHELL"; "LOGNAME"; "TMPDIR"; "TZ"; "COLUMNS"; "LINES";
  "LANG"; "LC_ALL"; "LC_CTYPE"; "LC_MESSAGES";
  "XDG_CONFIG_HOME"; "XDG_DATA_HOME"; "XDG_RUNTIME_DIR";
  "SSH_AUTH_SOCK"; "GIT_SSH_COMMAND"; "GIT_TERMINAL_PROMPT";
  "GIT_AUTHOR_NAME"; "GIT_AUTHOR_EMAIL"; "GIT_COMMITTER_NAME"; "GIT_COMMITTER_EMAIL";
  "HTTP_PROXY"; "HTTPS_PROXY"; "NO_PROXY"; "http_proxy"; "https_proxy"; "no_proxy";
  "NO_COLOR"; "FORCE_COLOR"; "CLICOLOR"; "CLICOLOR_FORCE";
  "ANTHROPIC_API_KEY"; "OPENAI_API_KEY"; "EDITOR"; "VISUAL"].
Definition envAllowlistPrefixes : list string := ["LOOM_"; "BD_"; "BEADS_"].

Definition allowed (name : string) : bool :=
  bool_decide (name ∈ envAllowlistExact) || existsb (fun p => has_prefix name p) envAllowlistPrefixes.

Definition FilterEnv (environ : list string) : list string :=
  filter (fun entry =>
    match index_byte entry "="%char with
    | Some idx => allowed (str_take idx entry)
    | None => false
    end = true) environ.

(** ** Templates: what an input string denotes *)
Inductive seg :=
| Lit (c : ascii)
| Dollar
| Lone
| Expr (e : string).

Definition render_seg (g : seg) : string :=
  match g with
  | Lit c => String c ""
  | Dollar => "$$"
  | Lone => "$"
  | Expr e => "${" ++ e ++ "}"
  end.
Fixpoint render (l : list seg) : string :=
  match l with [] => "" | g :: l' => render_seg g ++ render l' end.

(** The braces of [e] match: none closes the reference, all are closed. *)
Fixpoint balance (depth : nat) (s : string) : option nat :=
  match s with
  | EmptyString => Some depth
  | String c s' =>
      if bool_decide (c = "{"%char) then balance (S depth) s'
      else if bool_decide (c = "}"%char) then
        match depth with S (S d) => balance (S d) s' | _ => None end
      else balance depth s'
  end.
Definition balanced (e : string) : Prop := balance 1 e = Some 1.

(** A template, followed by [follow], is read back as it is: a literal is no
    [$], a lone [$] is not followed by what would make it an escape or a
    reference. *)
Definition starts_open (s : string) : bool :=
  match s with String c _ => bool_decide (c = "$"%char \/ c = "{"%char) | EmptyString => false end.
Fixpoint wf (l : list seg) (follow : string) : Prop :=
  match l with
  | [] => True
  | Lit c :: l' => c <> "$"%char /\ wf l' follow
  | Dollar :: l' => wf l' follow
  | Lone :: l' => starts_open (render l' ++ follow) = false /\ wf l' follow
  | Expr e :: l' => balanced e /\ wf l' follow
  end.

(** The meaning of a template at position [i]: references are replaced, from
    left to right, by values that are not looked at again. *)
Fixpoint eval (env : gmap string string) (i : nat) (l : list seg) : res string :=
  match l with
  | [] => Ok ""
  | g :: l' =>
      let? v := match g with
                | Lit c => Ok (String c "")
                | Dollar | Lone => Ok "$"
                | Expr e => expandExpr env e i
                end in
      let? x := eval env (i + String.length (render_seg g)) l' in Ok (v ++ x)
  end.

(** ** Library *)
Lemma expand_skip env n i s t : String.length s = n -> expand env n i (s ++ t) = expand env 0 (i + n) t.
Proof.
  revert n i. induction s as [|c s IH]; intros n i <-; str_simpl; [by rewrite Nat.add_0_r|].
  rewrite IH by done. f_equal. lia.
Qed.

Lemma find_balanced d d' e u :
  balance d e = Some d' -> findClosingBrace d (e ++ u) = Nat.add (String.length e) <$> findClosingBrace d' u.
Proof.
  revert d. induction e as [|c e IH]; intros d; str_simpl.
  - intros [= ->]. by destruct (findClosingBrace d' u).
  - repeat case_bool_decide; [|destruct d as [|[|d]]; try done|]; intros Hbal;
      rewrite (IH _ Hbal); by destruct (findClosingBrace d' u).
Qed.

Lemma find_some d s n :
  (1 <= d)%nat -> findClosingBrace d s = Some n ->
  exists e r, s = e ++ "}" ++ r /\ String.length e = n /\ balance d e = Some 1.
Proof.
  revert d n. induction s as [|c s IH]; intros d n Hd; simpl; [done|].
  destruct (bool_decide (c = "{"%char)) eqn:E1; [|destruct (bool_decide (c = "}"%char)) eqn:E2].
  - destruct (findClosingBrace (S d) s) as [m|] eqn:Ef; [|done]. intros [= <-].
    destruct (IH (S d) m ltac:(lia) Ef) as (e & r & -> & Hl & Hb).
    exists (String c e), r. simpl. rewrite E1. auto.
  - destruct d as [|[|d]]; [lia|intros [= <-]|].
    + exists "", s. apply bool_decide_eq_true in E2. subst. auto.
    + destruct (findClosingBrace (S d) s) as [m|] eqn:Ef; [|done]. intros [= <-].
      destruct (IH (S d) m ltac:(lia) Ef) as (e & r & -> & Hl & Hb).
      exists (String c e), r. simpl. rewrite E1, E2. auto.
  - destruct (findClosingBrace d s) as [m|] eqn:Ef; [|done]. intros [= <-].
    destruct (IH d m Hd Ef) as (e & r & -> & Hl & Hb).
    exists (String c e), r. simpl. rewrite E1, E2. auto.
Qed.

Lemma res_bind_assoc {A B C} (m : res A) (f : A -> res B) (g : B -> res C) :
  (let? y := (let? x := m in f x) in g y) = (let? x := m in let? y := f x in g y).
Proof. by destruct m. Qed.

(** The loop on the rendering of a template. *)
Lemma expand_render env l i u :
  wf l u ->
  expand env 0 i (render l ++ u) =
    let? x := eval env i l in
    let? y := expand env 0 (i + String.length (render l)) u in Ok (x ++ y).
Proof.
  revert i. induction l as [|g l IH]; intros i Hwf.
  { str_simpl. rewrite Nat.add_0_r. by destruct (expand env 0 i u). }
  assert (forall (v : string) j, (let? x := (let? y := eval env j l in Ok (v ++ y)) in
      let? y := expand env 0 (j + String.length (render l)) u in Ok (x ++ y)) =
    let? z := (let? x := eval env j l in
      let? y := expand env 0 (j + String.length (render l)) u in Ok (x ++ y)) in Ok (v ++ z)) as Hcomm.
  { intros v j. destruct (eval env j l) as [x|]; simpl; [|done].
    destruct (expand env 0 (j + String.length (render l)) u); simpl; [|done]. by rewrite append_assoc. }
  destruct g as [c| | |e]; simpl render; simpl eval; cbn [wf] in Hwf.
  - destruct Hwf as [Hc Hwf]. str_simpl. rewrite bool_decide_false by done. simpl. rewrite (IH (S i) Hwf).
    replace (i + S (String.length (render l)))%nat with (i + 1 + String.length (render l))%nat by lia.
    rewrite (Hcomm (String c "")). replace (i + 1)%nat with (S i) by lia. done.
  - str_simpl. rewrite (IH (S (S i)) Hwf).
    replace (i + S (S (String.length (render l))))%nat with (i + 2 + String.length (render l))%nat by lia.
    rewrite (Hcomm "$"). replace (i + 2)%nat with (S (S i)) by lia. done.
  - destruct Hwf as [Ho Hwf]. str_simpl. rewrite (IH (S i) Hwf).
    replace (i + S (String.length (render l)))%nat with (i + 1 + String.length (render l))%nat by lia.
    rewrite (Hcomm "$"). replace (i + 1)%nat with (S i) by lia.
    destruct (render l ++ u) as [|d rest]; [done|]. simpl in Ho. apply bool_decide_eq_false in Ho.
    rewrite !bool_decide_false by tauto. done.
  - destruct Hwf as [Hb Hwf]. str_simpl.
    rewrite (find_balanced 1 1 e _ Hb). simpl. rewrite Nat.add_0_r, str_take_append.
    destruct (expandExpr env e i) as [v|]; simpl; [|done].
    assert (forall w, e ++ String "}" w = (e ++ "}") ++ w) as Hsplit by (intros w; by rewrite append_assoc).
    assert (String.length (e ++ "}") = String.length e + 1)%nat as Hlen by (by rewrite length_append).
    replace (String.length e + 2)%nat with (S (String.length e + 1)) by lia.
    rewrite (Hsplit (render l ++ u)), (Hsplit (render l)), (length_append (e ++ "}") (render l)), Hlen.
    rewrite (expand_skip env _ (S (S i)) _ _ Hlen), (IH _ Hwf).
    replace (i + S (S (String.length e + 1 + String.length (render l))))%nat
      with (S (S i) + (String.length e + 1) + String.length (render l))%nat by lia.
    replace (i + S (S (String.length e + 1)))%nat with (S (S i) + (String.length e + 1))%nat by lia.
    by rewrite Hcomm.
Qed.

(** Every string is the rendering of a template, up to an unclosed reference. *)
Lemma template_of s :
  exists l, (wf l "" /\ s = render l) \/
    exists rest, s = render l ++ "${" ++ rest /\ wf l ("${" ++ rest) /\ findClosingBrace 1 rest = None.
Proof.
  remember (String.length s) as n eqn:Hn. revert s Hn.
  induction (lt_wf n) as [n _ IH]. intros [|c s] ->; [by exists []; left|].
  assert (forall (g : seg) t, String c s = render_seg g ++ t -> (String.length t < String.length (String c s))%nat ->
    (forall l u, render l ++ u = t -> wf l u -> wf (g :: l) u) ->
    exists l, (wf l "" /\ String c s = render l) \/
      exists rest, String c s = render l ++ "${" ++ rest /\ wf l ("${" ++ rest) /\ findClosingBrace 1 rest = None) as Hgo.
  { intros g t E Hlt Hw. destruct (IH _ Hlt t eq_refl) as (l & [[Hl Ht]|(rest & Ht & Hl & Hf)]); exists (g :: l); [left|right].
    - split; [|simpl; by rewrite <- Ht]. apply Hw; [|done]. rewrite Ht. clear. induction (render l); [done|].
      rewrite append_cons. by f_equal.
    - exists rest. split; [simpl; by rewrite append_assoc, <- Ht|]. split; [|done]. by apply Hw. }
  destruct (decide (c = "$"%char)) as [->|Hc].
  2: { apply (Hgo (Lit c) s); [done|simpl; lia|]. intros l u _ Hl. by split. }
  destruct s as [|d r].
  { exists [Lone]. left. by split. }
  destruct (decide (d = "$"%char)) as [->|Hd].
  { apply (Hgo Dollar r); [done|simpl; lia|]. done. }
  destruct (decide (d = "{"%char)) as [->|Hd2].
  2: { apply (Hgo Lone (String d r)); [done|simpl; lia|]. intros l u E Hl. split; [|done]. rewrite E. simpl.
       rewrite bool_decide_false; [done|]. tauto. }
  destruct (findClosingBrace 1 r) as [m|] eqn:Ef.
  - destruct (find_some 1 r m ltac:(lia) Ef) as (e & t & -> & _ & Hb).
    apply (Hgo (Expr e) t); [simpl; str_simpl; done| |].
    + str_simpl. rewrite !length_append. simpl. lia.
    + intros l u _ Hl. by split.
  - exists []. right. exists r. done.
Qed.

(** C38. What [ExpandEnvVars] computes: every input is a template, a sequence of
    literal characters, [$$] escapes, lone dollars and references [${...}] with
    matching braces, possibly up to a reference that is not closed; the result
    is the template's meaning, where each reference is replaced by its value
    and no value is expanded again, or the first error from the left. *)
Theorem ExpandEnvVars_spec env s :
  exists l,
    (wf l "" /\ s = render l /\ ExpandEnvVars env s = eval env 0 l) \/
    (exists rest, s = render l ++ "${" ++ rest /\ findClosingBrace 1 rest = None /\
       ExpandEnvVars env s =
         let? _ := eval env 0 l in
         Err (Msg ("unclosed ${ at position " ++ itoa (Z.of_nat (String.length (render l)))))).
Proof.
  assert (forall x, x ++ "" = x) as Hnil.
  { intros x. induction x as [|c x IHx]; [done|]. rewrite append_cons. by f_equal. }
  destruct (template_of s) as (l & [[Hl ->]|(rest & -> & Hl & Hf)]); exists l; [left|right; exists rest].
  - do 2 (split; [done|]). unfold ExpandEnvVars.
    rewrite <- (Hnil (render l)) at 1. rewrite (expand_render env l 0 "" Hl). simpl.
    destruct (eval env 0 l) as [x|]; simpl; [|done]. by rewrite Hnil.
  - do 2 (split; [done|]). unfold ExpandEnvVars. rewrite (expand_render env l 0 _ Hl).
    change ("${" ++ rest) with (String "$" (String "{" rest)).
    destruct (eval env 0 l) as [x|]; simpl; [|done]. by rewrite Hf.
Qed.

(** ** Expressions *)
Lemma index_skip a sub p t :
  contains_byte p a = false ->
  index_of (p ++ t) (String a sub) = Nat.add (String.length p) <$> index_of t (String a sub).
Proof.
  unfold index_of. induction p as [|c p IH]; simpl; intros Hp.
  - rewrite append_nil_l. by destruct (String.index 0 (String a sub) t).
  - apply orb_false_iff in Hp as [Hc%bool_decide_eq_false Hp].
    destruct (ascii_dec a c) as [->|]; [done|]. rewrite (IH Hp). by destruct (String.index 0 (String a sub) t).
Qed.

Lemma index_prefix sub t : sub <> "" -> index_of (sub ++ t) sub = Some 0%nat.
Proof.
  unfold index_of. destruct sub as [|a sub]; [done|]. intros _. simpl.
  destruct (ascii_dec a a); [|done].
  assert (String.prefix sub (sub ++ t) = true) as ->; [|done].
  clear. induction sub as [|c sub IH]; [by destruct t|]. simpl. by destruct (ascii_dec c c).
Qed.

(** A name: not empty, and no colon. *)
Definition plain (name : string) : Prop := name <> "" /\ contains_byte name ":"%char = false.

Lemma parse_default name d : plain name -> parseExpr (name ++ ":-" ++ d) = (name, d, exprDefault).
Proof.
  intros [_ Hn]. unfold parseExpr. rewrite (index_skip _ _ _ _ Hn), index_prefix by done. simpl.
  rewrite Nat.add_0_r, str_take_append. f_equal. f_equal.
  replace (String.length name + 2)%nat with (String.length (name ++ ":-")) by (by rewrite length_append).
  rewrite <- append_assoc. apply str_drop_append.
Qed.

Lemma parse_error name m :
  plain name -> contains (":?" ++ m) ":-" = false -> parseExpr (name ++ ":?" ++ m) = (name, m, exprError).
Proof.
  intros [_ Hn] Hm. unfold parseExpr, contains in *. rewrite !(index_skip _ _ _ _ Hn).
  destruct (index_of (":?" ++ m) ":-"); [done|]. simpl. rewrite index_prefix by done. simpl.
  rewrite Nat.add_0_r, str_take_append. f_equal. f_equal.
  replace (String.length name + 2)%nat with (String.length (name ++ ":?")) by (by rewrite length_append).
  rewrite <- append_assoc. apply str_drop_append.
Qed.

(** A required reference whose message contains [:-] is read as a default. *)
Lemma parse_error_dash name m1 m2 :
  plain name -> contains_byte m1 ":"%char = false ->
  parseExpr (name ++ ":?" ++ m1 ++ ":-" ++ m2) = (name ++ ":?" ++ m1, m2, exprDefault).
Proof.
  intros [_ Hn] Hm. unfold parseExpr. rewrite (index_skip _ _ _ _ Hn).
  assert (index_of (":?" ++ m1 ++ ":-" ++ m2) ":-" = Some (2 + String.length m1)%nat) as ->.
  { change (":?" ++ m1 ++ ":-" ++ m2) with (String ":" (("?" ++ m1) ++ ":-" ++ m2)).
    pose proof (index_skip ":" "-" ("?" ++ m1) (":-" ++ m2)) as H. rewrite index_prefix in H by done.
    unfold index_of in *. simpl in *. rewrite H; [|exact Hm].
    simpl. by rewrite Nat.add_0_r. }
  simpl fmap. cbv beta iota.
  assert (String.length (name ++ ":?" ++ m1) = String.length name + (2 + String.length m1))%nat as Hl
    by (by rewrite !length_append).
  match goal with |- context [str_take ?k _] => replace k with (String.length (name ++ ":?" ++ m1)) by (by rewrite Hl) end.
  f_equal. f_equal.
  - rewrite <- (str_take_append (name ++ ":?" ++ m1) (":-" ++ m2)) at 2. by rewrite !append_assoc.
  - replace (String.length (name ++ ":?" ++ m1) + 2)%nat with (String.length ((name ++ ":?" ++ m1) ++ ":-"))
      by (by rewrite (length_append _ ":-")).
    rewrite <- (str_drop_append ((name ++ ":?" ++ m1) ++ ":-") m2) at 2. by rewrite !append_assoc.
Qed.

(** The value of a reference: a plain one needs the variable to be set,
    perhaps to the empty string; one with a default takes it when the variable
    is unset or empty; one with a message fails with it then. But a message that
    contains [:-] turns the requirement into a default: the rest of the message
    is silently taken as the value. *)
Theorem expandExpr_functional env name arg start :
  plain name -> contains (name ++ ":-" ++ arg) "${" = false -> contains (name ++ ":?" ++ arg) "${" = false ->
  contains name "${" = false ->
  (expandExpr env name start =
     match env !! name with
     | Some v => Ok v
     | None => Err (Msg ("environment variable " ++ quote name ++ " is not set"))
     end) /\
  expandExpr env (name ++ ":-" ++ arg) start = Ok (let v := default "" (env !! name) in if bool_decide (v = "") then arg else v) /\
  (contains (":?" ++ arg) ":-" = false ->
   expandExpr env (name ++ ":?" ++ arg) start =
     let v := default "" (env !! name) in
     if bool_decide (v = "") then Err (Msg ("required variable " ++ name ++ ": " ++ arg)) else Ok v) /\
  (forall m1 m2, arg = m1 ++ ":-" ++ m2 -> contains_byte m1 ":"%char = false ->
   env !! (name ++ ":?" ++ m1) = None -> expandExpr env (name ++ ":?" ++ arg) start = Ok m2).
Proof.
  intros Hp H1 H2 H3. pose proof Hp as [Hne Hc].
  assert (forall t, name ++ t <> "") as Hne' by (intros t; destruct name; [done|]; rewrite append_cons; done).
  assert (forall m, bool_decide (default "" m <> "") = negb (bool_decide (default "" m = ""))) as Hneg.
  { intros m. by rewrite bool_decide_not. }
  unfold expandExpr. rewrite H1, H2, H3. split; [|split; [|split]].
  - assert (parseExpr name = (name, "", exprRequired)) as ->.
    { unfold parseExpr. pose proof (index_skip ":" "-" name "" Hc) as E1. pose proof (index_skip ":" "?" name "" Hc) as E2.
      assert (name ++ "" = name) as En by (clear; induction name; [done|]; rewrite append_cons; by f_equal).
      rewrite En in E1, E2. rewrite E1, E2. done. }
    rewrite (bool_decide_false (name = "")) by done. rewrite Hneg.
    destruct (env !! name) as [v|]; simpl; [|done]. by destruct (bool_decide_reflect (v = "")) as [->|].
  - rewrite parse_default, (bool_decide_false (name ++ _ = "")), (bool_decide_false (name = "")), Hneg by auto.
    cbv zeta. by destruct (bool_decide (default "" (env !! name) = "")).
  - intros Hd. rewrite parse_error, (bool_decide_false (name ++ _ = "")), (bool_decide_false (name = "")), Hneg by auto.
    cbv zeta. by destruct (bool_decide (default "" (env !! name) = "")).
  - intros m1 m2 E Hm Hun. rewrite (bool_decide_false (name ++ _ = "")) by auto. rewrite E, parse_error_dash by done.
    rewrite (bool_decide_false (name ++ _ = "")) by auto. by rewrite Hun.
Qed.

(** ** The filter *)
Lemma allowed_spec name : allowed name = true <->
  name ∈ envAllowlistExact \/ exists p rest, p ∈ envAllowlistPrefixes /\ name = p ++ rest.
Proof.
  unfold allowed. rewrite orb_true_iff, bool_decide_eq_true, existsb_exists. apply or_iff_compat_l.
  split.
  - intros (p & Hin & [rest Hr]%has_prefix_spec). exists p, rest. by apply list_elem_of_In in Hin.
  - intros (p & rest & Hin & ->). exists p. split; [by apply list_elem_of_In|]. apply has_prefix_spec. eauto.
Qed.

(** A spawned agent gets no variable outside the allow list: the filtered
    environment is a part of the original in the same order, and an entry is
    kept exactly when it has a name, before its first [=], that is listed or
    begins with a listed prefix. *)
Theorem FilterEnv_functional environ :
  FilterEnv environ `sublist_of` environ /\
  forall entry, entry ∈ FilterEnv environ <->
    entry ∈ environ /\ exists name value, entry = name ++ String "=" value /\ contains_byte name "="%char = false /\
      (name ∈ envAllowlistExact \/ exists p rest, p ∈ envAllowlistPrefixes /\ name = p ++ rest).
Proof.
  split; [apply sublist_filter|]. intros entry. unfold FilterEnv. rewrite list_elem_of_filter.
  setoid_rewrite <- allowed_spec. split; intros [H1 H2].
  - split; [done|]. destruct (index_byte entry "="%char) as [n|] eqn:E; [|done].
    apply index_byte_spec in E as (p & v & -> & <- & Hp). rewrite str_take_append in H1. eauto.
  - split; [|done]. destruct H2 as (p & v & -> & Hp & Ha).
    rewrite (proj2 (index_byte_spec (p ++ String "=" v) "="%char (String.length p))) by eauto.
    by rewrite str_take_append.
Qed.

(** ** Examples and witness *)
Definition demo_env : gmap string string := {["HOST" := "h"; "EMPTY" := ""]}.
Example expand_default : ExpandEnvVars demo_env "http://${HOST}:${PORT:-6379}/$$x" = Ok "http://h:6379/$x".
Proof. vm_compute. reflexivity. Qed.
Example expand_required_dash : ExpandEnvVars demo_env "${KEY:?set KEY :-(}" = Ok "(".
Proof. vm_compute. reflexivity. Qed.

Lemma expandExpr_functional_witness : expandExpr demo_env ("PORT" ++ ":-" ++ "6379") 0 = Ok "6379".
Proof.
  refine (proj1 (proj2 (expandExpr_functional demo_env "PORT" "6379" 0 _ _ _ _))); vm_compute; try reflexivity.
  split; [discriminate|reflexivity].
Defined.
End EnvSubst.
