(* ===== verification/IssueTypes.v ===== *)
(** * IssueTypes: the issue tracker's data, [internal/types]

    Issues with their enumerations, dependencies and entity references
    ([enums.go], [relations.go], [issue.go]), hierarchical identifiers
    ([id_generator.go]), and the lock by which another tool claims a database
    ([lock.go], [lock_check.go], [process.go]). Instants are nanoseconds; the
    textual forms of instants and floats, SHA-256 and the operating system's
    processes are parameters. *)
From S2P Require Import Prelude.
Local Open Scope Z_scope.
Local Open Scope go_scope.

Module Types.

(** ** Enumerations ([enums.go]): strings, some of them known *)
Definition StatusOpen := "open"%string.
Definition StatusInProgress := "in_progress"%string.
Definition StatusBlocked := "blocked"%string.
Definition StatusDeferred := "deferred"%string.
Definition StatusReview := "review"%string.
Definition StatusClosed := "closed"%string.
Definition StatusTombstone := "tombstone"%string.
Definition StatusPinned := "pinned"%string.
Definition StatusHooked := "hooked"%string.

Definition one_of (l : list string) (s : string) : bool := bool_decide (s ∈ l).

Definition Status_IsValid : string -> bool :=
  one_of [StatusOpen; StatusInProgress; StatusBlocked; StatusDeferred; StatusReview; StatusClosed;
          StatusTombstone; StatusPinned; StatusHooked].
Definition Status_IsValidWithCustom (customStatuses : list string) (s : string) : bool :=
  if Status_IsValid s then true else one_of customStatuses s.

Definition TypeBug := "bug"%string.
Definition TypeFeature := "feature"%string.
Definition TypeTask := "task"%string.
Definition TypeEpic := "epic"%string.
Definition TypeChore := "chore"%string.

Definition IssueType_IsValid : string -> bool := one_of [TypeBug; TypeFeature; TypeTask; TypeEpic; TypeChore].
Definition IssueType_IsBuiltIn (t : string) : bool := IssueType_IsValid t.
Definition IssueType_IsValidWithCustom (customTypes : list string) (t : string) : bool :=
  if IssueType_IsValid t then true else one_of customTypes t.

(** [strings.ToLower] on ASCII text. *)
Definition lower_char (c : ascii) : ascii :=
  let n := nat_of_ascii c in
  if (65 <=? n)%nat && (n <=? 90)%nat then ascii_of_nat (n + 32) else c.
Fixpoint to_lower (s : string) : string :=
  match s with EmptyString => "" | String c s' => String (lower_char c) (to_lower s') end.

Definition Normalize (t : string) : string :=
  if one_of ["enhancement"; "feat"]%string (to_lower t) then TypeFeature else t.

Record RequiredSection := mkSection { Heading : string; Hint : string }.
Definition RequiredSections (t : string) : list RequiredSection :=
  if bool_decide (t = TypeBug) then
    [mkSection "## Steps to Reproduce" "Describe how to reproduce the bug";
     mkSection "## Acceptance Criteria" "Define criteria to verify the fix"]
  else if bool_decide (t = TypeTask \/ t = TypeFeature) then
    [mkSection "## Acceptance Criteria" "Define criteria to verify completion"]
  else if bool_decide (t = TypeEpic) then
    [mkSection "## Success Criteria" "Define high-level success criteria"]
  else [].

Definition AgentState_IsValid : string -> bool :=
  one_of ["idle"; "spawning"; "running"; "working"; "stuck"; "done"; "stopped"; "dead"; ""]%string.
Definition MolType_IsValid : string -> bool := one_of ["swarm"; "patrol"; "work"; ""]%string.
Definition WorkType_IsValid : string -> bool := one_of ["mutex"; "open_competition"; ""]%string.
Definition SortPolicy_IsValid : string -> bool := one_of ["hybrid"; "priority"; "oldest"; ""]%string.

(** ** Relations ([relations.go]) *)
Record Dependency := mkDep {
  d_IssueID : string;
  d_DependsOnID : string;
  d_Type : string;
  d_CreatedAt : Z;
  d_CreatedBy : string;
  d_Metadata : string;
  d_ThreadID : string;
}.

Definition DependencyType_IsValid (d : string) : bool :=
  (0 <? String.length d)%nat && (String.length d <=? 50)%nat.
Definition DependencyType_IsWellKnown : string -> bool :=
  one_of ["blocks"; "parent-child"; "conditional-blocks"; "waits-for"; "related"; "discovered-from";
          "replies-to"; "relates-to"; "duplicates"; "supersedes";
          "authored-by"; "assigned-to"; "approved-by"; "attests"; "tracks";
          "until"; "caused-by"; "validates"; "delegated-from"]%string.
Definition AffectsReadyWork : string -> bool :=
  one_of ["blocks"; "parent-child"; "conditional-blocks"; "waits-for"]%string.

Definition FailureCloseKeywords : list string :=
  ["failed"; "rejected"; "wontfix"; "won't fix"; "canceled"; "cancelled"; "abandoned"; "blocked"; "error";
   "timeout"; "aborted"]%string.
Definition IsFailureClose (closeReason : string) : bool :=
  if bool_decide (closeReason = ""%string) then false
  else existsb (contains (to_lower closeReason)) FailureCloseKeywords.

Record Comment := mkComment {
  c_ID : Z;
  c_IssueID : string;
  c_Author : string;
  c_Text : string;
  c_CreatedAt : Z;
}.

Record BondRef := mkBond { SourceID : string; BondType : string; BondPoint : string }.

Record EntityRef := mkEntity { e_Name : string; e_Platform : string; e_Org : string; e_ID : string }.

Definition IsEmpty (e : option EntityRef) : bool :=
  match e with
  | None => true
  | Some e => bool_decide (e_Name e = "" /\ e_Platform e = "" /\ e_Org e = "" /\ e_ID e = "")%string
  end.

Definition entity_prefix : string := "entity://hop/".

Definition URI (e : option EntityRef) : string :=
  match e with
  | None => ""
  | Some e =>
      if bool_decide (e_Platform e = "" \/ e_Org e = "" \/ e_ID e = "")%string then ""
      else entity_prefix +:+ e_Platform e +:+ "/" +:+ e_Org e +:+ "/" +:+ e_ID e
  end%string.

Definition EntityRef_String (e : option EntityRef) : string :=
  match e with
  | None => ""
  | Some r =>
      if bool_decide (e_Name r <> "")%string then e_Name r
      else if bool_decide (URI e <> "")%string then URI e else e_ID r
  end%string.

(** [strings.SplitN(s, "/", n)] for [n > 0]. *)
Fixpoint split_n (n : nat) (s : string) : list string :=
  match n with
  | O | 1%nat => [s]
  | S n' =>
      match index_byte s "/"%char with
      | Some i => str_take i s :: split_n n' (str_drop (S i) s)
      | None => [s]
      end
  end.

Definition ParseEntityURI (uri : string) : res EntityRef :=
  if negb (has_prefix uri entity_prefix) then
    Err (Msg ("invalid entity URI: must start with " +:+ quote entity_prefix))
  else
    let bad := Err (Msg ("invalid entity URI: expected entity://hop/<platform>/<org>/<id>, got " +:+ quote uri)) in
    match split_n 3 (str_drop (String.length entity_prefix) uri) with
    | [p; o; i] => if bool_decide (p = "" \/ o = "" \/ i = "")%string then bad else Ok (mkEntity "" p o i)
    | _ => bad
    end.

(** [time.Time]: an instant, and the offset of its location from UTC, which
    [Format] shows. *)
Record Time := mkTime { instant : Z; offset : Z }.
#[export] Instance Time_eq_dec : EqDecision Time.
Proof. solve_decision. Defined.

(** A [float32] is given by its bits. *)
Record Validation := mkValidation {
  Validator : option EntityRef;
  Outcome : string;
  v_Timestamp : Time;
  Score : option Z;
}.
Definition IsValidOutcome (v : Validation) : bool :=
  one_of ["accepted"; "rejected"; "revision_requested"]%string (Outcome v).

(** ** Hierarchical identifiers ([id_generator.go]) *)
Definition GenerateChildID (parentID : string) (childNumber : Z) : string :=
  (parentID +:+ "." +:+ itoa childNumber)%string.

Fixpoint count_dots (s : string) : nat :=
  match s with
  | EmptyString => 0
  | String c s' => ((if bool_decide (c = "."%char) then 1 else 0) + count_dots s')%nat
  end.
Fixpoint last_dot (s : string) : option nat :=
  match s with
  | EmptyString => None
  | String c s' =>
      match last_dot s' with
      | Some i => Some (S i)
      | None => if bool_decide (c = "."%char) then Some O else None
      end
  end.

(** The root, the parent ([""] for a root) and the depth. *)
Definition ParseHierarchicalID (id : string) : string * string * nat :=
  match index_byte id "."%char, last_dot id with
  | Some first, Some last => (str_take first id, str_take last id, count_dots id)
  | _, _ => (id, ""%string, 0%nat)
  end.

Definition MaxHierarchyDepth : Z := 3.
(** [int] is 64 bits wide; identifiers are far shorter than that. *)
Definition CheckHierarchyDepth (parentID : string) (maxDepth : Z) : option goerror :=
  let maxDepth := if maxDepth <? 1 then MaxHierarchyDepth else maxDepth in
  if maxDepth <=? Z.of_nat (count_dots parentID) then
    Some (Msg ("maximum hierarchy depth (" +:+ itoa maxDepth +:+ ") exceeded for parent " +:+ parentID))
  else None.

(** ** Issues ([issue.go]) *)
Record Issue := mkIssue {
  ID : string;
  ContentHash : string;
  Title : string;
  Description : string;
  Design : string;
  AcceptanceCriteria : string;
  Notes : string;
  Status : string;
  Priority : Z;
  IssueType : string;
  Assignee : string;
  Owner : string;
  EstimatedMinutes : option Z;
  CreatedAt : Z;
  CreatedBy : string;
  UpdatedAt : Z;
  ClosedAt : option Z;
  CloseReason : string;
  ClosedBySession : string;
  DueAt : option Time;
  DeferUntil : option Time;
  ExternalRef : option string;
  SourceSystem : string;
  CompactionLevel : Z;
  CompactedAt : option Z;
  CompactedAtCommit : option string;
  OriginalSize : Z;
  SourceRepo : string;
  IDPrefix : string;
  PrefixOverride : string;
  Labels : list string;
  Dependencies : list Dependency;
  Comments : list Comment;
  DeletedAt : option Z;
  DeletedBy : string;
  DeleteReason : string;
  OriginalType : string;
  Sender : string;
  Ephemeral : bool;
  Pinned : bool;
  IsTemplate : bool;
  BondedFrom : list BondRef;
  Creator : option EntityRef;
  Validations : list Validation;
  QualityScore : option Z;
  Crystallizes : bool;
  AwaitType : string;
  AwaitID : string;
  Timeout : Z;
  Waiters : list string;
  Holder : string;
  SourceFormula : string;
  SourceLocation : string;
  HookBead : string;
  RoleBead : string;
  AgentState : string;
  LastActivity : option Z;
  RoleType : string;
  Rig : string;
  MolType : string;
  WorkType : string;
  EventKind : string;
  Actor : string;
  Target : string;
  Payload : string;
}.

(** The bytes [ComputeContentHash] feeds to SHA-256; the textual forms of a
    time, in its own location, and of a float are parameters. *)
Section content.
Context (rfc3339 rfc3339nano : Time -> string) (float_text : Z -> string) (sha256_hex : string -> string).
Local Open Scope string_scope.

Definition NUL : string := String "000" "".
Definition w_str (s : string) : string := s ++ NUL.
Definition w_int (n : Z) : string := itoa n ++ NUL.
Definition w_strPtr (p : option string) : string := default "" p ++ NUL.
Definition w_float32Ptr (p : option Z) : string := default "" (float_text <$> p) ++ NUL.
Definition w_duration (d : Z) : string := itoa d ++ NUL.
Definition w_flag (b : bool) (label : string) : string := (if b then label else "") ++ NUL.
Definition w_intPtr (p : option Z) : string := default "" ((fun n => "set:" ++ itoa n) <$> p) ++ NUL.
Definition w_timePtr (t : option Time) : string := default "" ((fun t => "set:" ++ rfc3339nano t) <$> t) ++ NUL.

Fixpoint w_list (l : list string) : string :=
  match l with [] => "" | s :: l' => w_str s ++ w_list l' end.

(** [sort.Strings]. *)
Context {sorter : SliceSort}.
Definition w_sortedStrings (ss : list string) : string := w_list (sort_slice str_lt ss) ++ NUL.

Definition dep_key (d : Dependency) : string :=
  d_IssueID d ++ ":" ++ d_DependsOnID d ++ ":" ++ d_Type d ++ ":" ++ d_CreatedBy d.
Definition w_dependencies (deps : list Dependency) : string :=
  w_list (sort_slice str_lt (map dep_key deps)) ++ NUL.

Definition comment_key (c : Comment) : Z * string :=
  (c_ID c, itoa (c_ID c) ++ ":" ++ c_IssueID c ++ ":" ++ c_Author c ++ ":" ++ c_Text c).
Definition w_comments (comments : list Comment) : string :=
  w_list (map snd (sort_slice (fun a b : Z * string => (a.1 <? b.1)%Z) (map comment_key comments))) ++ NUL.

Definition w_entityRef (e : option EntityRef) : string :=
  match e with
  | Some e => w_str (e_Name e) ++ w_str (e_Platform e) ++ w_str (e_Org e) ++ w_str (e_ID e)
  | None => ""
  end.

Fixpoint w_bonds (l : list BondRef) : string :=
  match l with
  | [] => ""
  | br :: l' => w_str (SourceID br) ++ w_str (BondType br) ++ w_str (BondPoint br) ++ w_bonds l'
  end.
Fixpoint w_validations (l : list Validation) : string :=
  match l with
  | [] => ""
  | v :: l' => w_entityRef (Validator v) ++ w_str (Outcome v) ++ w_str (rfc3339 (v_Timestamp v)) ++
      w_float32Ptr (Score v) ++ w_validations l'
  end.

Definition content_bytes (i : Issue) : string :=
  w_str (Title i) ++ w_str (Description i) ++ w_str (Design i) ++ w_str (AcceptanceCriteria i) ++
  w_str (Notes i) ++ w_str (Status i) ++ w_int (Priority i) ++ w_str (IssueType i) ++
  w_str (Assignee i) ++ w_str (Owner i) ++ w_str (CreatedBy i) ++
  w_strPtr (ExternalRef i) ++ w_str (SourceSystem i) ++ w_flag (Pinned i) "pinned" ++
  w_flag (IsTemplate i) "template" ++ w_intPtr (EstimatedMinutes i) ++ w_timePtr (DueAt i) ++
  w_timePtr (DeferUntil i) ++ w_str (CloseReason i) ++ w_str (ClosedBySession i) ++ w_str (Sender i) ++
  w_str (SourceFormula i) ++ w_str (SourceLocation i) ++ w_flag (Ephemeral i) "ephemeral" ++
  w_str (DeletedBy i) ++ w_str (DeleteReason i) ++ w_str (OriginalType i) ++
  w_sortedStrings (Labels i) ++ w_dependencies (Dependencies i) ++ w_comments (Comments i) ++
  w_bonds (BondedFrom i) ++ w_entityRef (Creator i) ++ w_validations (Validations i) ++
  w_float32Ptr (QualityScore i) ++ w_flag (Crystallizes i) "crystallizes" ++
  w_str (AwaitType i) ++ w_str (AwaitID i) ++ w_duration (Timeout i) ++ w_sortedStrings (Waiters i) ++
  w_str (Holder i) ++ w_str (HookBead i) ++ w_str (RoleBead i) ++ w_str (AgentState i) ++
  w_str (RoleType i) ++ w_str (Rig i) ++ w_str (MolType i) ++ w_str (WorkType i) ++
  w_str (EventKind i) ++ w_str (Actor i) ++ w_str (Target i) ++ w_str (Payload i).

Definition ComputeContentHash (i : Issue) : string := sha256_hex (content_bytes i).

(** [id_generator.go]; the prefix is not used. *)
Definition GenerateHashID (prefix title description : string) (created : Time) (workspaceID : string) : string :=
  sha256_hex (title ++ description ++ rfc3339nano created ++ workspaceID).
End content.

(** ** Validation *)
Definition DefaultTombstoneTTL : Z := 30 * 24 * hour.
Definition ClockSkewGrace : Z := 1 * hour.

Definition IsTombstone (i : Issue) : bool := bool_decide (Status i = StatusTombstone).

Definition IsExpired (now ttl : Z) (i : Issue) : bool :=
  if negb (IsTombstone i) then false
  else
    match DeletedAt i with
    | None => false
    | Some deletedAt =>
        if ttl <? 0 then true
        else
          let ttl := if ttl =? 0 then DefaultTombstoneTTL else ttl in
          let effectiveTTL := if ClockSkewGrace <? ttl then add64 ttl ClockSkewGrace else ttl in
          deletedAt + effectiveTTL <? now
    end.

Definition msg (s : string) : goerror := Msg s.

(** The checks the two validations share after that of the issue type. *)
Definition validate_rest (i : Issue) : option goerror :=
  let st := Status i in
  if match EstimatedMinutes i with Some m => m <? 0 | None => false end then
    Some (msg "estimated_minutes cannot be negative")
  else if bool_decide (st = StatusClosed /\ ClosedAt i = None) then
    Some (msg "closed issues must have closed_at timestamp")
  else if bool_decide (st <> StatusClosed /\ st <> StatusTombstone /\ ClosedAt i <> None) then
    Some (msg "non-closed issues cannot have closed_at timestamp")
  else if bool_decide (st = StatusTombstone /\ DeletedAt i = None) then
    Some (msg "tombstone issues must have deleted_at timestamp")
  else if bool_decide (st <> StatusTombstone /\ DeletedAt i <> None) then
    Some (msg "non-tombstone issues cannot have deleted_at timestamp")
  else if negb (AgentState_IsValid (AgentState i)) then
    Some (msg ("invalid agent state: " +:+ AgentState i))
  else None.

(** The checks before it. *)
Definition validate_head (customStatuses : list string) (i : Issue) : option goerror :=
  let len := Z.of_nat (String.length (Title i)) in
  if len =? 0 then Some (msg "title is required")
  else if 500 <? len then
    Some (msg ("title must be 500 characters or less (got " +:+ itoa len +:+ ")"))
  else if (Priority i <? 0) || (4 <? Priority i) then
    Some (msg ("priority must be between 0 and 4 (got " +:+ itoa (Priority i) +:+ ")"))
  else if negb (Status_IsValidWithCustom customStatuses (Status i)) then
    Some (msg ("invalid status: " +:+ Status i))
  else None.

Definition ValidateWithCustom (customStatuses customTypes : list string) (i : Issue) : option goerror :=
  match validate_head customStatuses i with
  | Some e => Some e
  | None =>
      if negb (IssueType_IsValidWithCustom customTypes (IssueType i)) then
        Some (msg ("invalid issue type: " +:+ IssueType i))
      else validate_rest i
  end.
Definition ValidateWithCustomStatuses (customStatuses : list string) : Issue -> option goerror :=
  ValidateWithCustom customStatuses [].
Definition Validate : Issue -> option goerror := ValidateWithCustomStatuses [].

Definition ValidateForImport (customStatuses : list string) (i : Issue) : option goerror :=
  match validate_head customStatuses i with Some e => Some e | None => validate_rest i end.

Definition IsCompound (i : Issue) : bool := (0 <? length (BondedFrom i))%nat.
Definition GetConstituents (i : Issue) : list BondRef := BondedFrom i.

Definition SetDefaults (i : Issue) : Issue :=
  mkIssue (ID i) (ContentHash i) (Title i) (Description i) (Design i) (AcceptanceCriteria i) (Notes i)
    (if bool_decide (Status i = "")%string then StatusOpen else Status i) (Priority i)
    (if bool_decide (IssueType i = "")%string then TypeTask else IssueType i) (Assignee i) (Owner i)
    (EstimatedMinutes i) (CreatedAt i) (CreatedBy i) (UpdatedAt i) (ClosedAt i) (CloseReason i)
    (ClosedBySession i) (DueAt i) (DeferUntil i) (ExternalRef i) (SourceSystem i) (CompactionLevel i)
    (CompactedAt i) (CompactedAtCommit i) (OriginalSize i) (SourceRepo i) (IDPrefix i) (PrefixOverride i)
    (Labels i) (Dependencies i) (Comments i) (DeletedAt i) (DeletedBy i) (DeleteReason i) (OriginalType i)
    (Sender i) (Ephemeral i) (Pinned i) (IsTemplate i) (BondedFrom i) (Creator i) (Validations i)
    (QualityScore i) (Crystallizes i) (AwaitType i) (AwaitID i) (Timeout i) (Waiters i) (Holder i)
    (SourceFormula i) (SourceLocation i) (HookBead i) (RoleBead i) (AgentState i) (LastActivity i)
    (RoleType i) (Rig i) (MolType i) (WorkType i) (EventKind i) (Actor i) (Target i) (Payload i).

(** ** The exclusive lock of a database ([lock.go], [lock_check.go], [process.go]) *)
Record ExclusiveLock := mkLock {
  Holder_ : string;
  PID : Z;
  Hostname : string;
  StartedAt : option Z;
  Version : string;
}.

Definition NewExclusiveLock (hostname : res string) (getpid now : Z) (holder version : string) : res ExclusiveLock :=
  match hostname with
  | Err e => Err (Wrapf "failed to get hostname: " e "")
  | Ok h => Ok (mkLock holder getpid h (Some now) version)
  end.

(** [StartedAt] is [None] for the zero time. *)
Definition Lock_Validate (e : ExclusiveLock) : option goerror :=
  if bool_decide (Holder_ e = "")%string then Some (msg "holder is required")
  else if PID e <=? 0 then Some (msg ("pid must be positive (got " +:+ itoa (PID e) +:+ ")"))
  else if bool_decide (Hostname e = "")%string then Some (msg "hostname is required")
  else if bool_decide (StartedAt e = None) then Some (msg "started_at is required")
  else None.

(** [os.Process.Signal] on Unix: [kill] answers [None] or an error number, and
    "no such process" becomes the sentinel [os.ErrProcessDone]. *)
Inductive os_error := ErrProcessDone | Errno (n : Z).
#[export] Instance os_error_eq_dec : EqDecision os_error.
Proof. solve_decision. Defined.
Definition ESRCH : Z := 3.
Definition EPERM : Z := 1.
Definition Process_Signal (kill : option Z) : option os_error :=
  match kill with
  | None => None
  | Some n => if n =? ESRCH then Some ErrProcessDone else Some (Errno n)
  end.

Inductive file_content := NoFile | Unreadable (e : goerror) | Content (data : string).

(** The host's name, whether [os.FindProcess] finds a process, what [kill] with
    signal 0 answers, and the JSON decoder. *)
Section lock_check.
Context (currentHost : res string) (find_process : Z -> bool) (kill0 : Z -> option Z)
        (decode : string -> res ExclusiveLock).

Definition EqualFold (a b : string) : bool := bool_decide (to_lower a = to_lower b).

Definition IsProcessAlive (pid : Z) (hostname : string) : bool :=
  match currentHost with
  | Err _ => true
  | Ok h =>
      if negb (EqualFold hostname h) then true
      else if negb (find_process pid) then false
      else
        let err := Process_Signal (kill0 pid) in
        if bool_decide (err = None) then true
        else if bool_decide (err = Some (Errno ESRCH)) then false
        else true
  end.

(** Skip, holder, error; [remove] is the result of removing the lock file, the
    last component whether that was tried. *)
Definition ShouldSkipDatabase (file : file_content) (remove : option goerror)
  : bool * string * option goerror * bool :=
  match file with
  | NoFile => (false, "", None, false)
  | Unreadable e => (true, "", Some (Wrapf "failed to read lock file: " e ""), false)
  | Content data =>
      match decode data with
      | Err e => (true, "", Some (Wrapf "malformed lock file: " e ""), false)
      | Ok lock =>
          match Lock_Validate lock with
          | Some e => (true, "", Some (Wrapf "invalid lock file: " e ""), false)
          | None =>
              if negb (IsProcessAlive (PID lock) (Hostname lock)) then
                match remove with
                | Some e => (true, Holder_ lock, Some (Wrapf "failed to remove stale lock: " e ""), true)
                | None => (false, Holder_ lock, None, true)
                end
              else (true, Holder_ lock, None, false)
          end
      end
  end%string.
End lock_check.

(** Another clone's copy of [i]: with the identity, times, compaction and
    routing of [j], and with the given lists. *)
Definition copy_of (i j : Issue) (labels : list string) (deps : list Dependency) (comments : list Comment)
    (waiters : list string) : Issue :=
  mkIssue (ID j) (ContentHash j) (Title i) (Description i) (Design i) (AcceptanceCriteria i) (Notes i)
    (Status i) (Priority i) (IssueType i) (Assignee i) (Owner i) (EstimatedMinutes i) (CreatedAt j)
    (CreatedBy i) (UpdatedAt j) (ClosedAt j) (CloseReason i) (ClosedBySession i) (DueAt i) (DeferUntil i)
    (ExternalRef i) (SourceSystem i) (CompactionLevel j) (CompactedAt j) (CompactedAtCommit j)
    (OriginalSize j) (SourceRepo j) (IDPrefix j) (PrefixOverride j) labels deps comments (DeletedAt j)
    (DeletedBy i) (DeleteReason i) (OriginalType i) (Sender i) (Ephemeral i) (Pinned i) (IsTemplate i)
    (BondedFrom i) (Creator i) (Validations i) (QualityScore i) (Crystallizes i) (AwaitType i) (AwaitID i)
    (Timeout i) waiters (Holder i) (SourceFormula i) (SourceLocation i) (HookBead i) (RoleBead i)
    (AgentState i) (LastActivity j) (RoleType i) (Rig i) (MolType i) (WorkType i) (EventKind i) (Actor i)
    (Target i) (Payload i).

(** ** The content hash *)
Section content_facts.
Context {sorter : SliceSort}.

Lemma str_lt_strict_weak : strict_weak str_lt.
Proof.
  split; [exact str_lt_irrefl|]. split; [exact str_lt_trans|exact str_lt_negtrans].
Qed.

Lemma sort_strings_perm l1 l2 : l1 ≡ₚ l2 -> sort_slice str_lt l1 = sort_slice str_lt l2.
Proof.
  intros Hp. apply (StronglySorted_unique_strong (fun x y => str_lt y x = false)).
  - intros x y _ _ H1 H2. by apply str_lt_total.
  - apply sort_slice_sorted, str_lt_strict_weak.
  - apply sort_slice_sorted, str_lt_strict_weak.
  - by rewrite !sort_slice_perm.
Qed.

Lemma Z_lt_strict_weak {A} (key : A -> Z) : strict_weak (fun a b => key a <? key b).
Proof. repeat split; intros; rewrite ?Z.ltb_lt, ?Z.ltb_ge, ?Z.ltb_irrefl in *; (lia || done). Qed.

(** Elements with distinct keys have one sorted order. *)
Lemma sort_keys_perm (l1 l2 : list (Z * string)) :
  NoDup l1.*1 -> l1 ≡ₚ l2 ->
  sort_slice (fun a b => a.1 <? b.1) l1 = sort_slice (fun a b => a.1 <? b.1) l2.
Proof.
  intros Hn Hp. apply (StronglySorted_unique_strong (fun x y => (y.1 <? x.1) = false)).
  - intros x y Hx Hy H1%Z.ltb_ge H2%Z.ltb_ge. assert (x.1 = y.1) as E by lia.
    rewrite sort_slice_perm in Hx, Hy. rewrite <- Hp in Hy.
    destruct x as [k a], y as [k' b]. simpl in E. subst k'. f_equal. 
    assert (Some a = Some b) as [= ->]; [|done].
    by rewrite <- (elem_of_list_to_map_1 (M := gmap Z) l1 k a), <- (elem_of_list_to_map_1 (M := gmap Z) l1 k b).
  - apply sort_slice_sorted, (Z_lt_strict_weak fst).
  - apply sort_slice_sorted, (Z_lt_strict_weak fst).
  - by rewrite !sort_slice_perm.
Qed.

Lemma w_comments_perm cs cs' : NoDup (map c_ID cs) -> cs ≡ₚ cs' -> w_comments cs = w_comments cs'.
Proof.
  intros Hn Hp. unfold w_comments. f_equal. f_equal. f_equal. apply sort_keys_perm.
  - rewrite <- list_fmap_compose. exact Hn.
  - by apply Permutation_map.
Qed.

(** The content hash is canonical: copies of an issue in different clones,
    with their own identifiers, times of creation, change and closing, compaction
    and routing data, and with labels, dependencies, comments and waiters in any
    order, have the same hash, provided the comments' identifiers are distinct and
    the due times and those of validations are the same in the same location. *)
Theorem content_hash_canonical rfc3339 rfc3339nano float_text sha256_hex i j labels deps comments waiters :
  Labels i ≡ₚ labels -> Dependencies i ≡ₚ deps -> Comments i ≡ₚ comments -> Waiters i ≡ₚ waiters ->
  NoDup (map c_ID (Comments i)) ->
  ComputeContentHash rfc3339 rfc3339nano float_text sha256_hex (copy_of i j labels deps comments waiters) =
  ComputeContentHash rfc3339 rfc3339nano float_text sha256_hex i.
Proof.
  intros Hl Hd Hc Hw Hn. unfold ComputeContentHash. f_equal. unfold content_bytes, copy_of. simpl.
  assert (w_sortedStrings labels = w_sortedStrings (Labels i)) as ->
    by (unfold w_sortedStrings; by rewrite (sort_strings_perm _ _ Hl)).
  assert (w_sortedStrings waiters = w_sortedStrings (Waiters i)) as ->
    by (unfold w_sortedStrings; by rewrite (sort_strings_perm _ _ Hw)).
  assert (w_dependencies deps = w_dependencies (Dependencies i)) as ->.
  { unfold w_dependencies. by rewrite (sort_strings_perm (map dep_key deps) (map dep_key (Dependencies i)))
      by (symmetry; by apply Permutation_map). }
  by rewrite <- (w_comments_perm _ _ Hn Hc).
Qed.

(** The converse fails: an issue with an author and one bonded from another
    issue, with different gates, feed the same bytes to the hash. *)
Definition plain_issue (bonds : list BondRef) (creator : option EntityRef) (await : string) (waiters : list string)
  : Issue :=
  mkIssue "bd-1" "" "t" "" "" "" "" "open" 2 "task" "" "" None 0 "" 0 None "" "" None None None "" 0 None None 0
    "" "" "" [] [] [] None "" "" "" "" false false false bonds creator [] None false "" await 0 waiters ""
    "" "" "" "" "" None "" "" "" "" "" "" "" "".

(** The content hash does not determine the content: lists of bonds,
    entities and waiters are fed to the hash without their lengths, so two valid
    issues that differ in their bonds, their creator, the awaited identifier and
    the waiters have the same hash, for any hash function. *)
Theorem content_hash_ambiguous rfc3339 rfc3339nano float_text sha256_hex :
  let a := plain_issue [] (Some (mkEntity "bd-7" "sequential" "root" "")) "0" [] in
  let b := plain_issue [mkBond "bd-7" "sequential" "root"] None "" ["0"%string] in
  Validate a = None /\ Validate b = None /\ BondedFrom a <> BondedFrom b /\ Creator a <> Creator b /\
  Waiters a <> Waiters b /\
  ComputeContentHash rfc3339 rfc3339nano float_text sha256_hex a =
  ComputeContentHash rfc3339 rfc3339nano float_text sha256_hex b.
Proof.
  intros a b. do 5 (split; [done|]). unfold ComputeContentHash. f_equal.
  unfold content_bytes. simpl. unfold w_sortedStrings.
  assert (sort_slice str_lt ([] : list string) = []) as -> by (by apply sort_slice_nil).
  assert (sort_slice str_lt ["0"%string] = ["0"%string]) as ->
    by (apply Permutation_length_1_inv; symmetry; apply sort_slice_perm).
  done.
Qed.

(** The hash of a new issue does not see where its title ends. *)
Lemma GenerateHashID_boundary rfc3339nano sha256_hex prefix a b c created ws :
  GenerateHashID rfc3339nano sha256_hex prefix (a +:+ b) c created ws =
  GenerateHashID rfc3339nano sha256_hex prefix a (b +:+ c) created ws.
Proof. unfold GenerateHashID. by rewrite !append_assoc. Qed.
End content_facts.

(** Two labels and two comments in either order. *)
Definition demo_comments : list Comment := [mkComment 7 "bd-1" "ann" "first" 0; mkComment 3 "bd-1" "bob" "second" 5].
Definition demo_issue : Issue :=
  copy_of (plain_issue [] None "" []) (plain_issue [] None "" []) ["ui"; "api"]%string [] demo_comments [].

(** The content hash is not one of instants: two copies of an issue that are due at
    the same instant, one written in UTC and one with another offset, feed
    different bytes to the hash. *)
Definition due (t : Time) : Issue :=
  mkIssue "bd-1" "" "t" "" "" "" "" "open" 2 "task" "" "" None 0 "" 0 None "" "" (Some t) None None "" 0 None None 0
    "" "" "" [] [] [] None "" "" "" "" false false false [] None [] None false "" "" 0 [] ""
    "" "" "" "" "" None "" "" "" "" "" "" "" "".
Definition with_offset (t : Time) : string := itoa (instant t) +:+ "+" +:+ itoa (offset t).
Example content_hash_sees_zone :
  let bytes := content_bytes (sorter := InsertionSort.insertion_SliceSort) with_offset with_offset itoa in
  bytes (due (mkTime 1700000000 0)) <> bytes (due (mkTime 1700000000 3600)).
Proof. vm_compute. discriminate. Qed.

Lemma content_hash_canonical_witness :
  NoDup (map c_ID (Comments demo_issue)) /\
  ComputeContentHash (sorter := InsertionSort.insertion_SliceSort) (itoa ∘ instant) (itoa ∘ instant) itoa (fun s => s)
    (copy_of demo_issue (plain_issue [] None "" []) ["api"; "ui"]%string [] (reverse demo_comments) []) =
  ComputeContentHash (sorter := InsertionSort.insertion_SliceSort) (itoa ∘ instant) (itoa ∘ instant) itoa (fun s => s) demo_issue.
Proof.
  assert (NoDup (map c_ID (Comments demo_issue))) as Hn
    by (apply (bool_decide_unpack _); vm_compute; exact I).
  split; [exact Hn|].
  apply (content_hash_canonical (sorter := InsertionSort.insertion_SliceSort)).
  - apply Permutation_swap.
  - reflexivity.
  - apply Permutation_swap.
  - reflexivity.
  - exact Hn.
Defined.

(** ** Validation *)

(** What a valid issue is; [type_ok] is the condition on its type. *)
Definition valid_issue (customStatuses : list string) (type_ok : Prop) (i : Issue) : Prop :=
  (0 < String.length (Title i) <= 500)%nat /\ 0 <= Priority i <= 4 /\
  (Status_IsValid (Status i) = true \/ Status i ∈ customStatuses) /\ type_ok /\
  (forall m, EstimatedMinutes i = Some m -> 0 <= m) /\
  (Status i = StatusClosed -> ClosedAt i <> None) /\
  (ClosedAt i <> None -> Status i = StatusClosed \/ Status i = StatusTombstone) /\
  (DeletedAt i <> None <-> Status i = StatusTombstone) /\
  AgentState_IsValid (AgentState i) = true.

Lemma validate_head_spec cs i :
  validate_head cs i = None <->
  (0 < String.length (Title i) <= 500)%nat /\ 0 <= Priority i <= 4 /\
  (Status_IsValid (Status i) = true \/ Status i ∈ cs).
Proof.
  unfold validate_head, Status_IsValidWithCustom, one_of.
  destruct (Status_IsValid (Status i)); case_tests; simpl in *;
    rewrite ?orb_true_iff, ?orb_false_iff, ?Z.ltb_lt, ?Z.ltb_ge, ?Z.eqb_eq, ?Z.eqb_neq in *;
    (split; [intros [=]|intros (? & ? & ?)]); try done; try (split; [lia|]); try (split; [lia|]); intuition (try lia; try done).
Qed.

Lemma validate_rest_spec i :
  validate_rest i = None <->
  (forall m, EstimatedMinutes i = Some m -> 0 <= m) /\
  (Status i = StatusClosed -> ClosedAt i <> None) /\
  (ClosedAt i <> None -> Status i = StatusClosed \/ Status i = StatusTombstone) /\
  (DeletedAt i <> None <-> Status i = StatusTombstone) /\
  AgentState_IsValid (AgentState i) = true.
Proof.
  unfold validate_rest.
  assert ((match EstimatedMinutes i with Some m => m <? 0 | None => false end) = false <->
    (forall m, EstimatedMinutes i = Some m -> 0 <= m)) as Hm.
  { destruct (EstimatedMinutes i) as [m|]; [|by split]. rewrite Z.ltb_ge. split; [by intros ? ? [= <-]|auto]. }
  destruct (match EstimatedMinutes i with Some m => m <? 0 | None => false end).
  { split; [done|]. intros (H & _). apply Hm in H. done. }
  destruct (AgentState_IsValid (AgentState i)),
    (decide (Status i = StatusClosed)), (decide (Status i = StatusTombstone)),
    (decide (ClosedAt i = None)), (decide (DeletedAt i = None)); case_tests; simpl in *;
    (split; [intros [=]|intros (? & ? & ? & ? & ?)]); try (tauto || congruence);
    (split; [by apply Hm|]); intuition congruence.
Qed.

(** [ValidateWithCustom] accepts exactly the issues whose fields are in
    range and whose timestamps agree with the status: closed issues have a
    closing time, only closed ones and tombstones may, and exactly tombstones
    have a deletion time; a title has at most 500 bytes. An import checks no type:
    it accepts exactly what is valid with the issue's own type taken as a custom one,
    also one that is a typing error; [SetDefaults] never makes a valid issue
    invalid. *)
Theorem ValidateWithCustom_functional cs ct i :
  (ValidateWithCustom cs ct i = None <->
     valid_issue cs (IssueType_IsValid (IssueType i) = true \/ IssueType i ∈ ct) i) /\
  (ValidateForImport cs i = None <-> ValidateWithCustom cs [IssueType i] i = None) /\
  (ValidateWithCustom cs ct i = None -> ValidateWithCustom cs ct (SetDefaults i) = None).
Proof.
  assert (forall ct' i, ValidateWithCustom cs ct' i = None <->
     valid_issue cs (IssueType_IsValid (IssueType i) = true \/ IssueType i ∈ ct') i) as Hv.
  { clear. intros ct i. unfold ValidateWithCustom, valid_issue, IssueType_IsValidWithCustom, one_of.
    pose proof (validate_head_spec cs i). pose proof (validate_rest_spec i).
    destruct (validate_head cs i); [intuition congruence|].
    destruct (IssueType_IsValid (IssueType i)); [simpl; tauto|]. case_bool_decide; simpl; intuition congruence. }
  split; [apply Hv|]. split.
  - rewrite Hv. unfold ValidateForImport, valid_issue.
    pose proof (validate_head_spec cs i). pose proof (validate_rest_spec i).
    assert (IssueType i ∈ [IssueType i]) by (by left).
    destruct (validate_head cs i); [intuition congruence|]. tauto.
  - rewrite !Hv. unfold valid_issue, SetDefaults. simpl. intros (H1 & H2 & H3 & H4 & H5 & H6 & H7 & H8 & H9).
    destruct (bool_decide_reflect (IssueType i = "")%string) as [|_];
      destruct (bool_decide_reflect (Status i = "")%string) as [E|_]; rewrite ?E in *; repeat split;
      try done; try tauto; try (by left); try (by apply H8); try (intros Hx; specialize (H7 Hx); by destruct H7);
      try (intros Hx; by apply H8 in Hx).
Qed.
Lemma ValidateWithCustom_functional_witness :
  let i := plain_issue [] None "" [] in
  ValidateWithCustom ["qa"%string] ["spike"%string] i = None /\
  valid_issue ["qa"%string] (IssueType_IsValid (IssueType i) = true \/ IssueType i ∈ ["spike"%string]) i /\
  ValidateWithCustom ["qa"%string] ["spike"%string] (SetDefaults i) = None.
Proof.
  intros i. assert (ValidateWithCustom ["qa"%string] ["spike"%string] i = None) as H by reflexivity.
  destruct (ValidateWithCustom_functional ["qa"%string] ["spike"%string] i) as (H1 & _ & H3).
  split; [exact H|]. split; [apply H1, H|apply H3, H].
Defined.

(** ** The database lock *)

(** A lock made for a named holder on a host with a name is valid. *)
Lemma NewExclusiveLock_valid hostname getpid now holder version lock :
  NewExclusiveLock hostname getpid now holder version = Ok lock ->
  Lock_Validate lock = None <-> holder <> ""%string /\ 0 < getpid /\ hostname <> Ok ""%string.
Proof.
  unfold NewExclusiveLock, Lock_Validate. destruct hostname as [h|]; [|done]. intros [= <-]. simpl.
  destruct (bool_decide_reflect (holder = ""%string)); [split; [done|tauto]|].
  destruct (Z.leb_spec getpid 0); [split; [done|lia]|].
  destruct (bool_decide_reflect (h = ""%string)) as [->|Hn]; [split; [done|tauto]|].
  split; [|done]. intros _. do 2 (split; [done|]). by intros [= E].
Qed.

(** [ShouldSkipDatabase] fails safe, and more than it means to: wherever
    [os.FindProcess] always succeeds, as it does on Unix, an existing lock file
    always makes it skip and is never removed, also when its holder is dead,
    because [os.Process.Signal] reports a missing process as
    [os.ErrProcessDone] and never as the error number the code looks for. *)
Theorem stale_lock_never_removed currentHost find_process kill0 decode file remove :
  (forall pid, find_process pid = true) ->
  (forall pid hostname, IsProcessAlive currentHost find_process kill0 pid hostname = true) /\
  let '(skip, holder, err, tried) := ShouldSkipDatabase currentHost find_process kill0 decode file remove in
  (skip = true <-> file <> NoFile) /\ tried = false /\
  (skip = true -> err = None ->
     exists data lock, file = Content data /\ decode data = Ok lock /\ Lock_Validate lock = None /\
       holder = Holder_ lock).
Proof.
  intros Hf. assert (forall pid hostname, IsProcessAlive currentHost find_process kill0 pid hostname = true) as Ha.
  { intros pid host. unfold IsProcessAlive, Process_Signal. rewrite Hf. destruct currentHost; [|done].
    destruct (negb _); [done|]. simpl. destruct (kill0 pid) as [n|]; [|done].
    destruct (Z.eqb_spec n ESRCH) as [->|Hn]; [done|]. rewrite !bool_decide_false; naive_solver. }
  split; [exact Ha|]. destruct file as [|e|data]; simpl; [naive_solver..|].
  destruct (decode data) as [lock|e] eqn:Hd; [|naive_solver].
  destruct (Lock_Validate lock) eqn:Hl; [naive_solver|]. rewrite Ha. simpl. naive_solver.
Qed.

Lemma stale_lock_never_removed_witness :
  let lock := mkLock "vc-executor" 4242 "host" (Some 1) "1.0.0" in
  (forall pid : Z, (fun _ => true) pid = true) /\
  ShouldSkipDatabase (Ok "host"%string) (fun _ => true) (fun _ => Some ESRCH) (fun _ => Ok lock)
    (Content "{}") None = (true, "vc-executor"%string, None, false) /\
  IsProcessAlive (Ok "host"%string) (fun _ => true) (fun _ => Some ESRCH) 4242 "host" = true.
Proof.
  intros lock.
  pose proof (stale_lock_never_removed (Ok "host"%string) (fun _ => true) (fun _ => Some ESRCH)
    (fun _ => Ok lock) (Content "{}") None (fun _ => eq_refl)) as [Ha _].
  split; [done|]. split; [reflexivity|]. apply Ha.
Defined.

(** ** Identifiers *)
Lemma itoa_no_dot n : contains_byte (itoa n) "."%char = false.
Proof. by apply itoa_no_byte. Qed.

Lemma count_dots_app s t : count_dots (s +:+ t) = (count_dots s + count_dots t)%nat.
Proof. induction s as [|a s IH]; simpl; [done|]. rewrite IH. lia. Qed.

Lemma no_dots s : contains_byte s "."%char = false -> count_dots s = 0%nat /\ last_dot s = None /\ index_byte s "."%char = None.
Proof.
  induction s as [|a s IH]; simpl; [done|]. intros [Ha Hs]%orb_false_iff.
  apply bool_decide_eq_false in Ha. destruct (IH Hs) as (-> & -> & ->). by rewrite !bool_decide_false.
Qed.

Lemma last_dot_app s t : contains_byte t "."%char = false -> last_dot (s +:+ "." +:+ t) = Some (String.length s).
Proof.
  intros Ht. induction s as [|a s IH]; str_simpl.
  - by destruct (no_dots t Ht) as (_ & -> & _).
  - change (String "." t) with ("." +:+ t)%string. by rewrite IH.
Qed.

Lemma index_byte_app s t c : index_byte (s +:+ String c t) c =
  Some (default (String.length s) (index_byte s c)).
Proof.
  induction s as [|a s IH]; simpl; [by rewrite bool_decide_true|]. case_bool_decide; [done|].
  rewrite IH. simpl. by destruct (index_byte s c).
Qed.

Lemma has_dots id : contains_byte id "."%char = true ->
  exists i j, index_byte id "."%char = Some i /\ last_dot id = Some j /\ (i <= String.length id)%nat.
Proof.
  induction id as [|a id IH]; simpl; [done|]. case_bool_decide; simpl; intros E.
  - exists 0%nat, (default 0 (S <$> last_dot id))%nat. split; [done|]. split; [by destruct (last_dot id)|lia].
  - destruct (IH E) as (i & j & -> & -> & Hi). exists (S i), (S j). simpl. do 2 (split; [done|]). lia.
Qed.

Lemma str_take_le n s t : (n <= String.length s)%nat -> str_take n (s +:+ t) = str_take n s.
Proof.
  revert n. induction s as [|a s IH]; intros [|n] Hn; simpl in Hn; [by destruct t|lia|done|].
  rewrite append_cons. simpl. f_equal. apply IH. lia.
Qed.

(** Depth of an identifier, as [ParseHierarchicalID] and [CheckHierarchyDepth] count it. *)
Lemma Parse_depth id : (ParseHierarchicalID id).2 = count_dots id.
Proof.
  unfold ParseHierarchicalID. destruct (contains_byte id "."%char) eqn:E.
  - by destruct (has_dots id E) as (i & j & -> & -> & _).
  - by destruct (no_dots id E) as (-> & -> & ->).
Qed.

(** A child's identifier parses back to its parent, the root of the parent
    and one level more, and [CheckHierarchyDepth] lets a parent have children
    exactly when their depth is within the limit, three unless another positive
    one is given. *)
Theorem hierarchy_roundtrip parentID n :
  ParseHierarchicalID (GenerateChildID parentID n) =
    ((ParseHierarchicalID parentID).1.1, parentID, S (ParseHierarchicalID parentID).2) /\
  forall maxDepth, CheckHierarchyDepth parentID maxDepth = None <->
    Z.of_nat (ParseHierarchicalID (GenerateChildID parentID n)).2 <= (if maxDepth <? 1 then 3 else maxDepth).
Proof.
  assert (ParseHierarchicalID (GenerateChildID parentID n) =
    ((ParseHierarchicalID parentID).1.1, parentID, S (ParseHierarchicalID parentID).2)) as Hp.
  { rewrite Parse_depth. unfold GenerateChildID, ParseHierarchicalID at 1.
    rewrite last_dot_app by apply itoa_no_dot.
    change ("." +:+ itoa n)%string with (String "." (itoa n)). rewrite index_byte_app.
    rewrite count_dots_app, str_take_append. simpl. destruct (no_dots _ (itoa_no_dot n)) as (-> & _).
    rewrite Nat.add_1_r. f_equal. f_equal. unfold ParseHierarchicalID.
    destruct (contains_byte parentID "."%char) eqn:E.
    - destruct (has_dots _ E) as (i & j & -> & -> & Hi). by apply str_take_le.
    - destruct (no_dots _ E) as (_ & -> & ->). simpl. by rewrite str_take_append. }
  split; [exact Hp|]. intros m. rewrite Hp, Parse_depth. simpl. unfold CheckHierarchyDepth, MaxHierarchyDepth.
  case_tests; split; intros; (done || lia).
Qed.
Lemma index_byte_none s c : contains_byte s c = false -> index_byte s c = None.
Proof.
  induction s as [|a s IH]; simpl; [done|]. intros [Ha Hs]%orb_false_iff. apply bool_decide_eq_false in Ha.
  by rewrite bool_decide_false, (IH Hs).
Qed.

Lemma str_drop_S_app s c t : str_drop (S (String.length s)) (s +:+ String c t) = t.
Proof. induction s as [|a s IH]; [done|]. rewrite append_cons. exact IH. Qed.

Lemma split_n_step n s : split_n (S (S n)) s =
  match index_byte s "/"%char with
  | Some i => str_take i s :: split_n (S n) (str_drop (S i) s)
  | None => [s]
  end.
Proof. done. Qed.

(** [split_n] cuts at the first slash. *)
Lemma split_n_cut n p v : contains_byte p "/"%char = false ->
  split_n (S (S n)) (p +:+ String "/" v) = p :: split_n (S n) v.
Proof.
  intros Hp. rewrite split_n_step.
  rewrite (proj2 (index_byte_spec _ _ (String.length p))) by eauto.
  by rewrite str_take_append, str_drop_S_app.
Qed.

Lemma split_n_three s p o i : split_n 3 s = [p; o; i] ->
  s = (p +:+ String "/" (o +:+ String "/" i))%string /\
  contains_byte p "/"%char = false /\ contains_byte o "/"%char = false.
Proof.
  rewrite split_n_step. destruct (index_byte s "/"%char) as [n|] eqn:E; [|done].
  apply index_byte_spec in E as (p' & v & -> & <- & Hp). rewrite str_take_append, str_drop_S_app.
  rewrite split_n_step. destruct (index_byte v "/"%char) as [n|] eqn:E; [|done].
  apply index_byte_spec in E as (o' & i' & -> & <- & Ho). rewrite str_take_append, str_drop_S_app.
  by intros [= -> -> ->].
Qed.

(** Entity URIs: what [ParseEntityURI] accepts is printed back by [URI]
    as it was, and a reference that has a URI is read back, without its display
    name, exactly when its platform and organisation contain no slash; its
    identifier may. *)
Theorem entity_uri_roundtrip e uri :
  (ParseEntityURI uri = Ok e -> URI (Some e) = uri /\ e_Name e = ""%string) /\
  (URI (Some e) <> ""%string ->
     (ParseEntityURI (URI (Some e)) = Ok (mkEntity "" (e_Platform e) (e_Org e) (e_ID e)) <->
      contains_byte (e_Platform e) "/"%char = false /\ contains_byte (e_Org e) "/"%char = false)).
Proof.
  assert (forall u e', ParseEntityURI u = Ok e' -> u = (entity_prefix +:+ e_Platform e' +:+ "/" +:+ e_Org e' +:+ "/" +:+ e_ID e')%string /\
    e_Name e' = ""%string /\ contains_byte (e_Platform e') "/"%char = false /\ contains_byte (e_Org e') "/"%char = false /\
    e_Platform e' <> ""%string /\ e_Org e' <> ""%string /\ e_ID e' <> ""%string) as Hparse.
  { intros u e'. unfold ParseEntityURI. destruct (has_prefix u entity_prefix) eqn:Hu; [|done].
    apply has_prefix_spec in Hu as [rest ->]. rewrite str_drop_append. simpl negb. cbv iota.
    destruct (split_n 3 rest) as [|p [|o [|i [|]]]] eqn:Hs; try done.
    apply split_n_three in Hs as (-> & Hp & Ho). case_bool_decide as Hne; [done|]. intros [= <-]. simpl. naive_solver. }
  split.
  - intros H. destruct (Hparse _ _ H) as (-> & Hn & _ & _ & ? & ? & ?). split; [|done].
    unfold URI. by rewrite bool_decide_false by tauto.
  - unfold URI. case_bool_decide as Hne; [done|]. intros _. split.
    + intros H. apply Hparse in H. simpl in H. tauto.
    + intros [Hp Ho]. unfold ParseEntityURI.
      rewrite (proj2 (has_prefix_spec _ _)) by eauto. rewrite str_drop_append. simpl negb. cbv iota.
      change ("/" +:+ e_Org e +:+ "/" +:+ e_ID e)%string with (String "/" (e_Org e +:+ String "/" (e_ID e)))%string.
      rewrite (split_n_cut 1) by done. rewrite (split_n_cut 0) by done. simpl. by rewrite bool_decide_false.
Qed.

Lemma entity_uri_roundtrip_witness :
  let e := mkEntity "" "github" "acme" "team/bot" in
  URI (Some e) = "entity://hop/github/acme/team/bot"%string /\ ParseEntityURI (URI (Some e)) = Ok e.
Proof.
  intros e. pose proof (entity_uri_roundtrip e (URI (Some e))) as [_ H]. split; [reflexivity|].
  apply H; [vm_compute; done|split; reflexivity].
Defined.
End Types.
