(* ===== verification/Spawn.v ===== *)
(** * Spawn: what a spawned agent receives, [internal/cli/daemon_spawn.go]

    The command line and the environment [buildCommand] gives an agent, and how
    the agent reads its role's constraints back ([RoleConfigFromEnv] and
    [AgentEntryFromEnv] of [task_router.go]). An environment is a list of
    [NAME=value] entries, of which, as in [os/exec], the last one of a name
    counts. Joining paths is a parameter. *)
From S2P Require Import Prelude Paths DaemonConfig TaskRouter AgentErr Supervisor EnvSubst.
Import Config Router.
Local Open Scope Z_scope.

Module Spawn.

(** ** Environments *)
Definition env_entry (name value : string) : string := name +:+ String "=" value.

Fixpoint lookup_env (env : list string) (name : string) : option string :=
  match env with
  | [] => None
  | e :: env' =>
      match lookup_env env' name with
      | Some v => Some v
      | None =>
          match index_byte e "="%char with
          | Some i => if bool_decide (str_take i e = name) then Some (str_drop (S i) e) else None
          | None => None
          end
      end
  end.

(** [os.Getenv] *)
Definition Getenv (env : list string) (name : string) : string := default ""%string (lookup_env env name).

(** ** The command ([buildCommand]) *)
Record Cmd := mkCmd { Path : string; Args : list string; Dir : string; Env : list string }.

Definition builtInRoles (role : string) : bool := bool_decide (role = "plan" \/ role = "task")%string.

Definition when {A} (b : bool) (l : list A) : list A := if b then l else [].

Section command.

Definition command_args (dc : DaemonConfig) (ap : Super.AgentProcess) : list string :=
  let agentBackend := Super.getEffectiveBackend dc ap in
  let backend := when (bool_decide (agentBackend <> ""%string)) ["--backend"%string; agentBackend] in
  let epicID := Super.assignedEpicID ap in
  let parent := when (bool_decide (epicID <> ""%string)) ["--parent"%string; epicID] in
  if builtInRoles (Role (Super.entry ap)) then
    ([Role (Super.entry ap); Super.worktreePath ap; "--auto"; "--daemon-mode"] ++ backend ++ parent)%list%string
  else
    (["agent"; Super.worktreePath ap; "--prompt"; PromptFile (Super.roleConfig ap); "--auto"; "--daemon-mode"] ++
     when (bool_decide (rc_TaskFilter (Super.roleConfig ap) <> "")) ["--task-filter"; rc_TaskFilter (Super.roleConfig ap)] ++
     backend ++ parent)%list%string.

(** A list constraint is sent only when it has elements. *)
Definition list_entry (name : string) (l : slice) : list string :=
  when (0 <? slice_len l)%nat [env_entry name (Join "," (default [] l))].

Definition command_env (environ : list string) (projectDir : string) (dc : DaemonConfig) (ap : Super.AgentProcess)
  : list string :=
  let rc := Super.roleConfig ap in
  let ae := Super.entry ap in
  (EnvSubst.FilterEnv environ ++
   [env_entry "BD_ACTOR" (Worktree ae);
    env_entry "LOOM_WORKTREE_PATH" (Super.worktreePath ap);
    env_entry "LOOM_EVENTS_DIR" (Paths.resolveDaemonPath projectDir (EventsDir (dc_Daemon dc)))] ++
   list_entry "LOOM_ALLOWED_TOOLS" (rc_AllowedTools rc) ++
   list_entry "LOOM_DENIED_TOOLS" (rc_DeniedTools rc) ++
   when (rc_ReadOnly rc) ["LOOM_READ_ONLY=1"%string] ++
   list_entry "LOOM_ROLE_SKILLS" (rc_Skills rc) ++
   list_entry "LOOM_ROLE_PATH_PATTERNS" (rc_PathPatterns rc) ++
   match rc_MaxPriority rc with Some p => [env_entry "LOOM_ROLE_MAX_PRIORITY" (itoa p)] | None => [] end ++
   when (bool_decide (rc_TaskFilter rc <> "")) [env_entry "LOOM_ROLE_TASK_FILTER" (rc_TaskFilter rc)] ++
   [env_entry "LOOM_ROLE" (Role ae)] ++
   list_entry "LOOM_AGENT_PATH_PATTERNS" (ae_PathPatterns ae))%list%string.

Definition buildCommand (environ : list string) (projectDir : string) (dc : DaemonConfig) (ap : Super.AgentProcess)
  : Cmd :=
  mkCmd "loom" (command_args dc ap) (Super.worktreePath ap) (command_env environ projectDir dc ap).
End command.

(** ** Reading it back ([task_router.go]) *)
Definition read_list (v : string) : slice := if bool_decide (v <> ""%string) then Some (Split "," v) else None.

Definition RoleConfigFromEnv (env : list string) : RoleConfig :=
  let mp := Getenv env "LOOM_ROLE_MAX_PRIORITY" in
  mkRole "" "" "" (Getenv env "LOOM_ROLE_TASK_FILTER") ""
    (read_list (Getenv env "LOOM_ROLE_PATH_PATTERNS")) (read_list (Getenv env "LOOM_ROLE_SKILLS"))
    (if bool_decide (mp <> ""%string) then atoi mp else None) None false None None.

Definition AgentEntryFromEnv (env : list string) : AgentEntry :=
  mkAgent (Getenv env "BD_ACTOR") (Getenv env "LOOM_ROLE") false "" []
    (read_list (Getenv env "LOOM_AGENT_PATH_PATTERNS")).

Section check.
Context {sorter : SliceSort} {W : Type} (BD : list string -> W -> W * res string)
        (parse : string -> res (list BdIssue)).
Definition RouterTaskCheckFromEnv (env : list string) (parentID : string) : option (W -> W * res bool) :=
  BuildRouterTaskCheck BD parse (RoleConfigFromEnv env) (AgentEntryFromEnv env) parentID.
End check.
(** ** Library: lists in environment variables *)

(** Lists that survive the trip: no separator inside, and not the list of one
    empty text. *)
Definition sendable (l : list string) : Prop :=
  Forall (fun w => contains_byte w ","%char = false) l /\ l <> [""%string].

Lemma read_list_Join l : l <> [] -> sendable l -> read_list (Join "," l) = Some l.
Proof.
  intros Hl [HF Hne]. unfold read_list. rewrite Split_Join by done.
  by rewrite bool_decide_true by (by intros [|]%Join_empty).
Qed.

(** ** Library: lookups in environments *)
Lemma lookup_env_app env1 env2 k :
  lookup_env (env1 ++ env2) k = match lookup_env env2 k with Some v => Some v | None => lookup_env env1 k end.
Proof.
  induction env1 as [|e env1 IH]; simpl; [by destruct (lookup_env env2 k)|]. rewrite IH.
  by destruct (lookup_env env2 k).
Qed.

Lemma index_byte_entry k v : contains_byte k "="%char = false ->
  index_byte (env_entry k v) "="%char = Some (String.length k).
Proof. intros Hk. apply index_byte_spec. by exists k, v. Qed.

Lemma str_drop_entry k v : str_drop (S (String.length k)) (env_entry k v) = v.
Proof. unfold env_entry. induction k as [|a k IH]; [done|]. rewrite append_cons. exact IH. Qed.

Lemma lookup_env_entry k v k' : contains_byte k "="%char = false ->
  lookup_env [env_entry k v] k' = if bool_decide (k = k') then Some v else None.
Proof.
  intros Hk. cbn [lookup_env]. rewrite (index_byte_entry k v Hk), str_drop_entry. unfold env_entry.
  by rewrite str_take_append.
Qed.

(** The filter keeps what it allows. *)
Lemma lookup_FilterEnv env k : EnvSubst.allowed k = true ->
  lookup_env (EnvSubst.FilterEnv env) k = lookup_env env k.
Proof.
  intros Hk. induction env as [|e env IH]; simpl; [done|]. unfold EnvSubst.FilterEnv in *. rewrite filter_cons.
  case_decide as He; simpl; rewrite IH; [done|]. destruct (lookup_env env k); [done|].
  destruct (index_byte e "="%char); [|done]. rewrite bool_decide_false; [done|]. intros Hn. by rewrite Hn, Hk in He.
Qed.
Lemma lookup_env_cons e e' env k :
  lookup_env (e :: e' :: env) k =
    match lookup_env (e' :: env) k with Some v => Some v | None => lookup_env [e] k end.
Proof. exact (lookup_env_app [e] (e' :: env) k). Qed.

Lemma lookup_list_entry name l k : contains_byte name "="%char = false ->
  lookup_env (list_entry name l) k =
    if (0 <? slice_len l)%nat && bool_decide (name = k) then Some (Join "," (default [] l)) else None.
Proof.
  intros Hn. unfold list_entry, when. destruct (0 <? slice_len l)%nat; [|done]. by rewrite lookup_env_entry.
Qed.

(** The value of a routing variable for the agent: the role's when it has one,
    otherwise whatever the daemon itself was started with. *)
Definition sent (own : option string) (environ : list string) (name : string) : option string :=
  match own with Some v => Some v | None => lookup_env environ name end.

Ltac env_names :=
  repeat match goal with
  | |- context [@bool_decide (@eq string (String ?a ?s) (String ?b ?t)) ?d] =>
      first [ rewrite (@bool_decide_false _ d) by discriminate | rewrite (@bool_decide_true _ d) by reflexivity ]
  end.
Ltac sizes := repeat match goal with |- context [Nat.ltb 0 ?n] => destruct (Nat.ltb 0 n) end.
Ltac env_lookup :=
  unfold command_env, when;
  rewrite ?lookup_env_app, ?lookup_env_cons, ?lookup_list_entry, ?lookup_env_entry by reflexivity;
  env_names; rewrite ?andb_false_r, ?andb_true_r.

Section readback.
Context (environ : list string) (projectDir : string) (dc : DaemonConfig)
        (ap : Super.AgentProcess).
Abbreviation env := (command_env environ projectDir dc ap).
Abbreviation rc := (Super.roleConfig ap).
Abbreviation ae := (Super.entry ap).

Definition sent_list (name : string) (l : slice) : option string :=
  sent (if (0 <? slice_len l)%nat then Some (Join "," (default [] l)) else None) environ name.

Ltac env_solve :=
  env_lookup; unfold sent_list, sent;
  rewrite lookup_FilterEnv by (vm_compute; reflexivity);
  destruct (rc_ReadOnly rc), (rc_MaxPriority rc);
  try case_bool_decide; rewrite ?lookup_env_entry by reflexivity; env_names; simpl;
  sizes; simpl; done.

Lemma env_skills : lookup_env env "LOOM_ROLE_SKILLS" = sent_list "LOOM_ROLE_SKILLS" (rc_Skills rc).
Proof. env_solve. Qed.
Lemma env_role_paths : lookup_env env "LOOM_ROLE_PATH_PATTERNS" = sent_list "LOOM_ROLE_PATH_PATTERNS" (rc_PathPatterns rc).
Proof. env_solve. Qed.
Lemma env_agent_paths : lookup_env env "LOOM_AGENT_PATH_PATTERNS" = sent_list "LOOM_AGENT_PATH_PATTERNS" (ae_PathPatterns ae).
Proof. env_solve. Qed.
Lemma env_max_priority : lookup_env env "LOOM_ROLE_MAX_PRIORITY" =
  sent (itoa <$> rc_MaxPriority rc) environ "LOOM_ROLE_MAX_PRIORITY".
Proof. env_solve. Qed.
Lemma env_task_filter : lookup_env env "LOOM_ROLE_TASK_FILTER" =
  sent (if bool_decide (rc_TaskFilter rc <> ""%string) then Some (rc_TaskFilter rc) else None) environ "LOOM_ROLE_TASK_FILTER".
Proof. env_solve. Qed.
Lemma env_role : lookup_env env "LOOM_ROLE" = Some (Role ae).
Proof. env_lookup. by sizes. Qed.
Lemma env_worktree : lookup_env env "BD_ACTOR" = Some (Worktree ae).
Proof. env_solve. Qed.

Lemma read_skills : rc_Skills (RoleConfigFromEnv env) =
  read_list (default ""%string (sent_list "LOOM_ROLE_SKILLS" (rc_Skills rc))).
Proof. simpl. unfold Getenv. by rewrite env_skills. Qed.

Lemma read_max_priority : rc_MaxPriority (RoleConfigFromEnv env) =
  match rc_MaxPriority rc with
  | Some p => if bool_decide (in_int64 p) then Some p else None
  | None => atoi (Getenv environ "LOOM_ROLE_MAX_PRIORITY")
  end.
Proof.
  simpl. unfold Getenv. rewrite env_max_priority. destruct (rc_MaxPriority rc) as [p|]; simpl.
  - rewrite bool_decide_true by apply itoa_nonempty. apply atoi_itoa.
  - case_bool_decide as E; [done|]. by rewrite E.
Qed.

Lemma read_task_filter : rc_TaskFilter (RoleConfigFromEnv env) =
  if bool_decide (rc_TaskFilter rc <> ""%string) then rc_TaskFilter rc
  else Getenv environ "LOOM_ROLE_TASK_FILTER".
Proof. simpl. unfold Getenv. rewrite env_task_filter. by case_bool_decide. Qed.

(** What an agent reads back: of each constraint, what the role sends when it
    has one; otherwise what the daemon's own environment holds under the
    variable's name, since the filter lets every LOOM_ variable through. Lists
    are cut again at every comma. *)
Theorem constraints_read_back :
  let read name l := read_list (default ""%string (sent_list name l)) in
  let child := RoleConfigFromEnv env in
  rc_Skills child = read "LOOM_ROLE_SKILLS"%string (rc_Skills rc) /\
  rc_PathPatterns child = read "LOOM_ROLE_PATH_PATTERNS"%string (rc_PathPatterns rc) /\
  rc_MaxPriority child =
    match rc_MaxPriority rc with
    | Some p => if bool_decide (in_int64 p) then Some p else None
    | None => atoi (Getenv environ "LOOM_ROLE_MAX_PRIORITY")
    end /\
  rc_TaskFilter child =
    (if bool_decide (rc_TaskFilter rc <> ""%string) then rc_TaskFilter rc
     else Getenv environ "LOOM_ROLE_TASK_FILTER") /\
  let entry := AgentEntryFromEnv env in
  Role entry = Role ae /\ Worktree entry = Worktree ae /\
  ae_PathPatterns entry = read "LOOM_AGENT_PATH_PATTERNS"%string (ae_PathPatterns ae).
Proof.
  intros read child. unfold child. rewrite read_skills, read_max_priority, read_task_filter.
  unfold RoleConfigFromEnv, AgentEntryFromEnv, Getenv. simpl.
  by rewrite env_role_paths, env_agent_paths, env_role, env_worktree.
Qed.
End readback.

(** ** Routing depends on four constraints only *)
Lemma MatchTask_ext i c c' u :
  TaskFilter c = TaskFilter c' -> skill_list c = skill_list c' -> MaxPriority c = MaxPriority c' ->
  MatchTask i c u = MatchTask i c' u.
Proof. intros Hf Hs Hm. unfold MatchTask. by rewrite Hf, Hs, Hm. Qed.

Lemma SelectBestTask_ext {sorter : SliceSort} l c c' u :
  TaskFilter c = TaskFilter c' -> skill_list c = skill_list c' -> MaxPriority c = MaxPriority c' ->
  SelectBestTask l c u = SelectBestTask l c' u.
Proof.
  intros Hf Hs Hm. unfold SelectBestTask, matches_of.
  by rewrite (map_ext (fun i => MatchTask i c u) (fun i => MatchTask i c' u)) by (intros; by apply MatchTask_ext).
Qed.

(** C35. An agent routes as its role says: when the role's lists have no commas,
    its priority is an [int], and the daemon was not itself started with the
    routing variables the role leaves unset, the agent's own check of available
    work is the one of the role, for every state of the tracker, and it picks
    the same task. *)
Theorem spawned_agent_routes_alike {W} {sorter : SliceSort} (BD : list string -> W -> W * res string) parse
    environ projectDir dc ap parentID :
  let rc := Super.roleConfig ap in
  let env := command_env environ projectDir dc ap in
  sendable (default [] (rc_Skills rc)) ->
  match rc_MaxPriority rc with Some p => in_int64 p | None => Getenv environ "LOOM_ROLE_MAX_PRIORITY" = ""%string end ->
  (slice_len (rc_Skills rc) = 0%nat -> Getenv environ "LOOM_ROLE_SKILLS" = ""%string) ->
  (rc_TaskFilter rc = ""%string -> Getenv environ "LOOM_ROLE_TASK_FILTER" = ""%string) ->
  (forall issues u,
     SelectBestTask issues (MergeRoleConstraints (RoleConfigFromEnv env) (AgentEntryFromEnv env)) u =
     SelectBestTask issues (MergeRoleConstraints rc (Super.entry ap)) u) /\
  match RouterTaskCheckFromEnv BD parse env parentID, BuildRouterTaskCheck BD parse rc (Super.entry ap) parentID with
  | Some f, Some g => forall w, f w = g w
  | None, None => True
  | _, _ => False
  end.
Proof.
  intros rc env Hl Hm Hs Hf.
  pose proof (read_skills environ projectDir dc ap) as Rs.
  pose proof (read_max_priority environ projectDir dc ap) as Rm.
  pose proof (read_task_filter environ projectDir dc ap) as Rf.
  fold rc env in Rs, Rm, Rf.
  set (c' := MergeRoleConstraints (RoleConfigFromEnv env) (AgentEntryFromEnv env)).
  set (c := MergeRoleConstraints rc (Super.entry ap)).
  assert (MaxPriority c' = MaxPriority c) as Em.
  { change (rc_MaxPriority (RoleConfigFromEnv env) = rc_MaxPriority rc). rewrite Rm.
    destruct (rc_MaxPriority rc); [by rewrite bool_decide_true|]. by rewrite Hm. }
  assert (TaskFilter c' = TaskFilter c) as Ef.
  { change (rc_TaskFilter (RoleConfigFromEnv env) = rc_TaskFilter rc). rewrite Rf.
    case_bool_decide as E; [done|]. rewrite E. by apply Hf. }
  assert (skill_list c' = skill_list c) as Es.
  { unfold skill_list. change (default [] (rc_Skills (RoleConfigFromEnv env)) = default [] (rc_Skills rc)).
    rewrite Rs. unfold sent_list, sent. destruct (Nat.ltb_spec 0 (slice_len (rc_Skills rc))) as [Hn|Hn].
    - simpl. unfold slice_len in Hn. rewrite read_list_Join; [done|by intros E; rewrite E in Hn; simpl in Hn; lia|done].
    - unfold Getenv in Hs. rewrite Hs by lia. unfold slice_len in Hn.
      destruct (default [] (rc_Skills rc)); [done|simpl in Hn; lia]. }
  assert (forall issues u, SelectBestTask issues c' u = SelectBestTask issues c u) as Hsel
    by (intros; by apply SelectBestTask_ext).
  split; [exact Hsel|]. unfold RouterTaskCheckFromEnv, BuildRouterTaskCheck. fold c c'.
  assert (slice_len (Skills c') = slice_len (Skills c)) as -> by (unfold slice_len; unfold skill_list in Es; by rewrite Es).
  rewrite Em, Ef. destruct (_ && _ && _); [done|]. intros w. unfold with_lists.
  destruct (fetchReadyIssues BD parse parentID w) as [w1 [issues|]]; [|done].
  destruct (fetchUnclosedIssueIDs BD parse w1) as [w2 [u|]]; [|done]. by rewrite Hsel.
Qed.

(** A role with two skills and a priority limit. *)
Definition demo_role : RoleConfig :=
  mkRole "" "p.md" "" "any" "" None (Some ["go"; "ui"]%string) (Some 2) None false None None.
Definition demo_agent : Super.AgentProcess :=
  Super.mkProc (mkAgent "wt1" "fixer" true "" [] None) demo_role "/w/wt1" 0 0 0 "" None 0 false 0.
Definition demo_environ : list string := ["PATH=/bin"; "LOOM_ROLE_SKILLS=ops"; "TOKEN=x"]%string.

Example demo_command :
  let cmd := buildCommand demo_environ "/p"
    (mkDaemonConfig "claude" default_settings ∅ []) demo_agent in
  Args cmd = ["agent"; "/w/wt1"; "--prompt"; "p.md"; "--auto"; "--daemon-mode"; "--task-filter"; "any";
              "--backend"; "claude"]%string /\
  Env cmd = ["PATH=/bin"; "LOOM_ROLE_SKILLS=ops"; "BD_ACTOR=wt1"; "LOOM_WORKTREE_PATH=/w/wt1";
             "LOOM_EVENTS_DIR=/p/.loom/events"; "LOOM_ROLE_SKILLS=go,ui"; "LOOM_ROLE_MAX_PRIORITY=2";
             "LOOM_ROLE_TASK_FILTER=any"; "LOOM_ROLE=fixer"]%string.
Proof. split; vm_compute; reflexivity. Qed.

Lemma spawned_agent_routes_alike_witness :
  let env := command_env demo_environ "/p" (mkDaemonConfig "claude" default_settings ∅ []) demo_agent in
  SelectBestTask (sorter := InsertionSort.insertion_SliceSort) [Router.issue2; Router.issue1]
    (MergeRoleConstraints (RoleConfigFromEnv env) (AgentEntryFromEnv env)) ∅ =
  SelectBestTask (sorter := InsertionSort.insertion_SliceSort) [Router.issue2; Router.issue1]
    (MergeRoleConstraints demo_role (Super.entry demo_agent)) ∅.
Proof.
  intros env.
  refine (proj1 (spawned_agent_routes_alike (sorter := InsertionSort.insertion_SliceSort)
    (fun _ (w : unit) => (w, Err (Msg ""))) (fun _ => Ok []) demo_environ "/p"
    (mkDaemonConfig "claude" default_settings ∅ []) demo_agent "" _ _ _ _) [Router.issue2; Router.issue1] ∅).
  - split; [repeat constructor|discriminate].
  - exact (bool_decide_unpack (in_int64 2) I).
  - discriminate.
  - discriminate.
Defined.

(** Without the last condition: an agent whose role sets no limit inherits the
    one in the daemon's environment. *)
Example inherited_limit :
  rc_MaxPriority (RoleConfigFromEnv (command_env ["LOOM_ROLE_MAX_PRIORITY=0"%string] "/p"
    (mkDaemonConfig "claude" default_settings ∅ [])
    (Super.mkProc (mkAgent "wt1" "fixer" true "" [] None)
       (mkRole "" "p.md" "" "any" "" None None None None false None None) "/w/wt1" 0 0 0 "" None 0 false 0))) = Some 0.
Proof. vm_compute. reflexivity. Qed.
End Spawn.
