(* ===== verification/Rotation.v ===== *)
(** * Rotation: size-bounded logs, [internal/logrouter/rotation.go]

    A file system of names, inodes and open handles ([Files]), on which every
    call of the code can fail; the abstract rotated log ([Log]) that a writer
    promises; and the writer of agents' logs ([Rotating]). *)
From S2P Require Import Prelude.
Local Open Scope Z_scope.
Local Open Scope go_scope.

(** ** Files *)
Module Files.

Record fs := mkFs {
  dir : gmap string nat;
  data : gmap nat string;
  fresh : nat;
}.

(** [faults] says how the next calls end: [None] normally, [Some (n, e)] with
    error [e], a write after [n] bytes. When it is used up all calls succeed. *)
Record world := mkWorld { files : fs; faults : list (option (nat * goerror)) }.

Definition ErrNotExist : goerror := Sentinel "file does not exist".

Definition os_call {A} (fail : nat -> goerror -> world -> A * world) (run : world -> A * world) (w : world)
  : A * world :=
  match faults w with
  | Some (n, e) :: q => fail n e (mkWorld (files w) q)
  | None :: q => run (mkWorld (files w) q)
  | [] => run w
  end.

Definition set_files (f : fs) (w : world) : world := mkWorld f (faults w).

(** [os.Stat] *)
Definition Stat (path : string) : world -> option goerror * world :=
  os_call (fun _ e w => (Some e, w))
    (fun w => (if bool_decide (is_Some (dir (files w) !! path)) then None else Some ErrNotExist, w)).

(** [os.Remove] *)
Definition Remove (path : string) : world -> option goerror * world :=
  os_call (fun _ e w => (Some e, w))
    (fun w =>
       let f := files w in
       match dir f !! path with
       | Some _ => (None, set_files (mkFs (delete path (dir f)) (data f) (fresh f)) w)
       | None => (Some ErrNotExist, w)
       end).

(** [os.Rename] replaces the target. *)
Definition Rename (src dst : string) : world -> option goerror * world :=
  os_call (fun _ e w => (Some e, w))
    (fun w =>
       let f := files w in
       match dir f !! src with
       | Some i => (None, set_files (mkFs (<[dst := i]> (delete src (dir f))) (data f) (fresh f)) w)
       | None => (Some ErrNotExist, w)
       end).

(** [os.OpenFile] with [O_APPEND|O_CREATE|O_WRONLY]: the handle is the inode. *)
Definition OpenAppend (path : string) : world -> res nat * world :=
  os_call (fun _ e w => (Err e, w))
    (fun w =>
       let f := files w in
       match dir f !! path with
       | Some i => (Ok i, w)
       | None => (Ok (fresh f), set_files (mkFs (<[path := fresh f]> (dir f)) (<[fresh f := ""%string]> (data f)) (S (fresh f))) w)
       end).

Definition content (f : fs) (i : nat) : string := default ""%string (data f !! i).

(** [File.Stat().Size()] *)
Definition Size (h : nat) : world -> res Z * world :=
  os_call (fun _ e w => (Err e, w)) (fun w => (Ok (Z.of_nat (String.length (content (files w) h))), w)).

Definition append_data (h : nat) (p : string) (f : fs) : fs :=
  mkFs (dir f) (<[h := content f h +:+ p]> (data f)) (fresh f).

(** [File.Write] on a file opened for appending: bytes written and error. *)
Definition WriteTo (h : nat) (p : string) : world -> (Z * option goerror) * world :=
  os_call (fun n e w => ((Z.of_nat (Nat.min n (String.length p)), Some e), set_files (append_data h (str_take n p) (files w)) w))
    (fun w => ((Z.of_nat (String.length p), None), set_files (append_data h p (files w)) w)).

(** [File.Close]: what is on disk does not change. *)
Definition Close : world -> option goerror * world :=
  os_call (fun _ e w => (Some e, w)) (fun w => (None, w)).

(** [os.ReadFile] *)
Definition ReadFile (path : string) : world -> res string * world :=
  os_call (fun _ e w => (Err e, w))
    (fun w => (match dir (files w) !! path with Some i => Ok (content (files w) i) | None => Err ErrNotExist end, w)).

(** [os.WriteFile]: opening with [O_TRUNC], writing, closing. *)
Definition OpenTrunc (path : string) : world -> res nat * world :=
  os_call (fun _ e w => (Err e, w))
    (fun w =>
       let f := files w in
       let i := default (fresh f) (dir f !! path) in
       (Ok i, set_files (mkFs (<[path := i]> (dir f)) (<[i := ""%string]> (data f)) (Nat.max (fresh f) (S i))) w)).

Definition WriteFile (path text : string) (w : world) : option goerror * world :=
  match OpenTrunc path w with
  | (Err e, w1) => (Some e, w1)
  | (Ok h, w1) =>
      let '((_, e), w2) := WriteTo h text w1 in
      let (e', w3) := Close w2 in
      (match e with Some _ => e | None => e' end, w3)
  end.

(** [os.MkdirAll]: the directories themselves are not part of the model. *)
Definition MkdirAll : world -> option goerror * world := Close.

(** ** Shifting backups: the loop of both [rotate] functions *)
Definition backupPath (path : string) (n : nat) : string := path +:+ "." +:+ itoa (Z.of_nat n).

Section shift.
Context (rename_failed : string -> string -> goerror -> goerror) (path : string) (maxBackups : nat).

(** [i] is the loop variable, counting down. *)
Fixpoint shift (i : nat) (w : world) : option goerror * world :=
  match i with
  | O => (None, w)
  | S k =>
      let src := if bool_decide (i = 1%nat) then path else backupPath path k in
      let dst := backupPath path i in
      let (st, w1) := Stat src w in
      if bool_decide (st = Some ErrNotExist) then shift k w1
      else
        let w2 := if bool_decide (i = maxBackups) then snd (Remove dst w1) else w1 in
        match Rename src dst w2 with
        | (Some e, w3) => (Some (rename_failed src dst e), w3)
        | (None, w3) => shift k w3
        end
  end.
End shift.

(** *** What the loop does when no call fails *)
Definition name (path : string) (k : nat) : string :=
  if bool_decide (k = 0%nat) then path else backupPath path k.

Lemma backupPath_inj path j k : backupPath path j = backupPath path k -> j = k.
Proof.
  unfold backupPath. intros E. apply append_inv_len in E as [_ E]; [|done].
  change ("." +:+ itoa (Z.of_nat j) = "." +:+ itoa (Z.of_nat k))%string with
    (String "." (itoa (Z.of_nat j)) = String "." (itoa (Z.of_nat k))) in E.
  injection E as E. unfold itoa in E. apply (inj pretty) in E. lia.
Qed.

Lemma name_inj path j k : name path j = name path k -> j = k.
Proof.
  assert (forall i, path <> backupPath path i) as Hne.
  { intros i E. apply (f_equal String.length) in E. unfold backupPath in E. rewrite !length_append in E.
    simpl in E. lia. }
  unfold name. case_bool_decide; case_bool_decide; intros E; subst; try done.
  - by apply Hne in E.
  - symmetry in E. by apply Hne in E.
  - by apply backupPath_inj in E.
Qed.

(** The loop on the directory. *)
Fixpoint shift_dir (path : string) (i : nat) (d : gmap string nat) : gmap string nat :=
  match i with
  | O => d
  | S k =>
      match d !! name path k with
      | None => shift_dir path k d
      | Some v => shift_dir path k (<[name path i := v]> (delete (name path k) d))
      end
  end.

Lemma shift_quiet rf path maxB i w : faults w = [] ->
  shift rf path maxB i w =
    (None, mkWorld (mkFs (shift_dir path i (dir (files w))) (data (files w)) (fresh (files w))) []).
Proof.
  revert w. induction i as [|k IH]; intros [f fl] Hq; simpl in Hq; subst fl; simpl.
  { by destruct f. }
  assert ((if bool_decide (S k = 1%nat) then path else backupPath path k) = name path k) as ->.
  { unfold name. destruct k; [done|]. by rewrite !bool_decide_false by lia. }
  assert (backupPath path (S k) = name path (S k)) as -> by done.
  unfold Stat, os_call. simpl. destruct (dir f !! name path k) as [v|] eqn:Ev.
  - rewrite (bool_decide_true (is_Some (Some v))) by (by eexists). rewrite (bool_decide_false (None = Some _)) by done.
    assert (name path k <> name path (S k)) as Hne by (intros E; apply name_inj in E; lia).
    assert (exists d1, (if bool_decide (S k = maxB) then snd (Remove (name path (S k)) (mkWorld f [])) else mkWorld f []) =
      mkWorld (mkFs d1 (data f) (fresh f)) [] /\ d1 !! name path k = Some v /\
      delete (name path (S k)) d1 = delete (name path (S k)) (dir f)) as (d1 & -> & Hv & Hd).
    { destruct f as [d da fr]. simpl in *. case_bool_decide; [|by exists d].
      unfold Remove, os_call. simpl. destruct (d !! name path (S k)) eqn:Es; simpl.
      - exists (delete (name path (S k)) d). split; [done|]. rewrite lookup_delete_ne by done. split; [done|].
        apply delete_delete_eq.
      - by exists d. }
    unfold Rename, os_call. simpl. rewrite Hv. rewrite IH by done. simpl. do 3 f_equal.
    rewrite <- (insert_delete_eq (delete (name path k) d1)), <- (insert_delete_eq (delete (name path k) (dir f))).
    by rewrite !(delete_delete _ (name path (S k)) (name path k)), Hd.
  - rewrite (bool_decide_false (is_Some None)) by (by intros [? [=]]). rewrite (bool_decide_true (Some _ = _)) by done. by rewrite IH.
Qed.

Lemma shift_dir_skip path m i d : (m <= i)%nat ->
  (forall j, (m <= j < i)%nat -> d !! name path j = None) -> shift_dir path i d = shift_dir path m d.
Proof.
  intros Hm Hd. induction i as [|i IH]; [by replace m with 0%nat by lia|].
  destruct (decide (m = S i)) as [->|]; [done|]. simpl. rewrite Hd by lia. apply IH; [lia|]. intros j Hj. apply Hd. lia.
Qed.

(** Names without a gap below [i] all move up by one. *)
Lemma shift_dir_up path i d :
  (forall j, (j < i)%nat -> is_Some (d !! name path j)) ->
  (forall j, (1 <= j <= i)%nat -> shift_dir path i d !! name path j = d !! name path (j - 1)) /\
  ((0 < i)%nat -> shift_dir path i d !! name path 0 = None) /\
  (forall x, (forall j, (j <= i)%nat -> x <> name path j) -> shift_dir path i d !! x = d !! x).
Proof.
  revert d. induction i as [|k IH]; intros d Hd; simpl; [split_and!; [lia|lia|done]|].
  destruct (Hd k ltac:(lia)) as [v Hv]. rewrite Hv.
  set (d1 := <[name path (S k) := v]> (delete (name path k) d)).
  assert (forall j, (j < k)%nat -> d1 !! name path j = d !! name path j) as Hlow.
  { intros j Hj. unfold d1. rewrite lookup_insert_ne by (intros E; apply name_inj in E; lia).
    by rewrite lookup_delete_ne by (intros E; apply name_inj in E; lia). }
  destruct (IH d1) as (H1 & H2 & H3); [intros j Hj; rewrite Hlow by done; apply Hd; lia|].
  split_and!.
  - intros j Hj. destruct (decide (j = S k)) as [->|].
    + rewrite H3 by (intros j Hj' E; apply name_inj in E; lia). unfold d1. rewrite lookup_insert_eq.
      by replace (S k - 1)%nat with k by lia.
    + rewrite H1 by lia. apply Hlow. lia.
  - intros _. destruct (decide (k = 0)%nat) as [->|]; [|apply H2; lia].
    simpl. unfold d1. rewrite lookup_insert_ne by (intros E; apply name_inj in E; lia). apply lookup_delete_eq.
  - intros x Hx. rewrite H3 by (intros j Hj; apply Hx; lia). unfold d1.
    rewrite lookup_insert_ne by (intros E; by apply (Hx (S k)); [lia|]).
    by rewrite lookup_delete_ne by (intros E; by apply (Hx k); [lia|]).
Qed.

(** No two names for an inode, and new inodes are new. *)
Definition wf (f : fs) : Prop :=
  (forall x y i, dir f !! x = Some i -> dir f !! y = Some i -> x = y) /\
  (forall x i, dir f !! x = Some i -> (i < fresh f)%nat).

Lemma shift_dir_wf path i d : (forall x y v, d !! x = Some v -> d !! y = Some v -> x = y) ->
  (forall x y v, shift_dir path i d !! x = Some v -> shift_dir path i d !! y = Some v -> x = y) /\
  (forall x v, shift_dir path i d !! x = Some v -> exists y, d !! y = Some v).
Proof.
  revert d. induction i as [|k IH]; intros d Hd; simpl; [by eauto|].
  destruct (d !! name path k) as [v|] eqn:Hv; [|by apply IH].
  set (d1 := <[name path (S k) := v]> (delete (name path k) d)).
  assert (forall x u, d1 !! x = Some u -> (x = name path (S k) /\ u = v) \/ (x <> name path k /\ d !! x = Some u)) as H1.
  { intros x u [[-> ->]|[Hx Hu]]%lookup_insert_Some; [by left|right].
    apply lookup_delete_Some in Hu as [Hxk Hu]. done. }
  destruct (IH d1) as [Hinj Hval].
  - intros x y u Hx Hy. destruct (H1 x u Hx) as [[Ex Eu]|[Hxk Hxu]], (H1 y u Hy) as [[Ey Eu']|[Hyk Hyu]]; subst.
    + done.
    + by destruct Hyk; eapply Hd.
    + by destruct Hxk; eapply Hd.
    + by eapply Hd.
  - split; [exact Hinj|]. intros x u Hx. destruct (Hval x u Hx) as [y Hy].
    destruct (H1 y u Hy) as [[-> ->]|[_ Hu]]; eauto.
Qed.

(** ** What is read under a name *)
Definition text_of (f : fs) (path : string) : option string := content f <$> dir f !! path.

Lemma ReadFile_quiet path f : ReadFile path (mkWorld f []) =
  (match text_of f path with Some t => Ok t | None => Err ErrNotExist end, mkWorld f []).
Proof. unfold ReadFile, os_call, text_of. simpl. by destruct (dir f !! path). Qed.

Lemma Remove_text path w e w' : wf (files w) -> Remove path w = (e, w') ->
  wf (files w') /\ (forall q, q <> path -> text_of (files w') q = text_of (files w) q) /\
  (e = None -> text_of (files w') path = None) /\ (e <> None -> files w' = files w).
Proof.
  intros [Hinj Hfr]. unfold Remove, os_call. destruct (faults w) as [|[[n e1]|] q] eqn:Eq; simpl;
    try (destruct (dir (files w) !! path) as [i|] eqn:Ei); intros [= <- <-]; simpl; split_and!; try done.
  all: try (split; simpl; [intros x y j [_ Hx]%lookup_delete_Some [_ Hy]%lookup_delete_Some; by eapply Hinj
                          |intros x j [_ Hx]%lookup_delete_Some; by eapply Hfr]).
  all: try (intros q' Hq; unfold text_of; simpl; by rewrite lookup_delete_ne).
  all: intros _; unfold text_of; simpl; by rewrite lookup_delete_eq.
Qed.

Lemma Rename_text src dst w e w' : wf (files w) -> src <> dst -> Rename src dst w = (e, w') ->
  wf (files w') /\
  (e = None -> text_of (files w') dst = text_of (files w) src /\
     forall q, q <> src -> q <> dst -> text_of (files w') q = text_of (files w) q) /\
  (e <> None -> files w' = files w).
Proof.
  intros [Hinj Hfr] Hne. unfold Rename, os_call.
  assert (forall i, dir (files w) !! src = Some i ->
    let f := mkFs (<[dst := i]> (delete src (dir (files w)))) (data (files w)) (fresh (files w)) in
    wf f /\ text_of f dst = text_of (files w) src /\ forall q, q <> src -> q <> dst -> text_of f q = text_of (files w) q) as H.
  { intros i Hi. simpl. split_and!.
    - assert (forall x j, <[dst := i]> (delete src (dir (files w))) !! x = Some j ->
        (x = dst /\ j = i) \/ (x <> dst /\ x <> src /\ dir (files w) !! x = Some j)) as Hx.
      { intros x j [[-> ->]|[Hx Hj]]%lookup_insert_Some; [by left|right]. by apply lookup_delete_Some in Hj as [? ?]. }
      split; simpl; [|intros x j [[-> ->]|(_ & _ & ?)]%Hx; by eapply Hfr].
      intros x y j [[-> ->]|(? & ? & Hjx)]%Hx [[-> Ej]|(? & ? & Hjy)]%Hx; subst; try done.
      + by destruct (Hinj src y i Hi Hjy).
      + by destruct (Hinj src x i Hi Hjx).
      + by eapply Hinj.
    - unfold text_of. simpl. by rewrite lookup_insert_eq, Hi.
    - intros q Hs Hd. unfold text_of. simpl. by rewrite lookup_insert_ne, lookup_delete_ne by done. }
  destruct (faults w) as [|[[n e1]|] q] eqn:Eq; simpl; try (destruct (dir (files w) !! src) as [i|] eqn:Ei);
    intros [= <- <-]; simpl; try (destruct (H i eq_refl) as (? & ? & ?)); split_and!; done.
Qed.

(** A file written: whatever happens no other name's text changes, and without
    an error it is what was to be written. *)
Lemma WriteFile_text path t w e w' : wf (files w) -> WriteFile path t w = (e, w') ->
  wf (files w') /\ (forall q, q <> path -> text_of (files w') q = text_of (files w) q) /\
  (e = None -> text_of (files w') path = Some t).
Proof.
  intros Hwf. unfold WriteFile. destruct (OpenTrunc path w) as [[h|e0] w1] eqn:EO.
  2:{ intros [= <- <-]. unfold OpenTrunc, os_call in EO. destruct (faults w) as [|[[n e1]|] q]; by simplify_eq/=. }
  set (f := files w) in *. set (i := default (fresh f) (dir f !! path)) in *.
  assert (h = i /\ files w1 = mkFs (<[path := i]> (dir f)) (<[i := ""%string]> (data f)) (Nat.max (fresh f) (S i))) as [-> Hf1].
  { unfold OpenTrunc, os_call in EO. destruct (faults w) as [|[[n e1]|] q]; by simplify_eq/=. }
  clear EO. destruct (WriteTo i t w1) as [[k e1] w2] eqn:EW. destruct (Close w2) as [e2 w3] eqn:EC.
  assert (files w3 = files w2) as E3 by (unfold Close, os_call in EC; by destruct (faults w2) as [|[[? ?]|] ?]; simplify_eq/=).
  assert (exists u, files w2 = append_data i u (files w1) /\ (e1 = None -> u = t)) as (u & E2 & Hu).
  { unfold WriteTo, os_call in EW. destruct (faults w1) as [|[[n e']|] q]; simplify_eq/=; eexists; by split. }
  intros [= <- <-]. rewrite E3, E2, Hf1. clear EW EC E3 E2 Hf1. destruct Hwf as [Hinj Hfr].
  assert (forall x j, dir f !! x = Some j -> x <> path -> j <> i) as Hother.
  { intros x j Hx Hne ->. unfold i in Hx. destruct (dir f !! path) as [i0|] eqn:Ei; simpl in Hx.
    - by destruct (Hinj x path i0).
    - apply Hfr in Hx. lia. }
  split_and!.
  - split; simpl.
    + intros x y j [[<- Ej]|[Hx Hj]]%lookup_insert_Some [[<- Ej']|[Hy Hjy]]%lookup_insert_Some; try done.
      * by destruct (Hother y j Hjy ltac:(done)).
      * by destruct (Hother x j Hj ltac:(done)).
      * by eapply Hinj.
    + intros x j [[<- <-]|[Hx Hj]]%lookup_insert_Some; [lia|]. apply Hfr in Hj. fold f in Hj. lia.
  - intros q Hq. unfold text_of. simpl. rewrite lookup_insert_ne by done. destruct (dir f !! q) as [j|] eqn:Ej; [|done].
    simpl. f_equal. unfold content. simpl. by rewrite !lookup_insert_ne by (by apply not_eq_sym, (Hother q)).
  - intros He. unfold text_of, content. simpl. rewrite !lookup_insert_eq. simpl. rewrite Hu by (by destruct e1).
    rewrite lookup_insert_eq. simpl. unfold content. simpl. by rewrite lookup_insert_eq.
Qed.
End Files.
Import Files.

(** ** What the writers promise: a log in files, newest first *)
Module Log.
Definition log_write (maxSize : Z) (maxB : nat) (l : list string) (p : string) : list string :=
  match l with
  | [] => [p]
  | c :: rest =>
      if (0 <? maxSize) && (maxSize <? len c + len p) then p :: take maxB l else (c +:+ p) :: rest
  end.

(** The text from the oldest file to the newest. *)
Definition text (l : list string) : string := foldr (fun c t => t +:+ c) ""%string l.
Definition concat_all (ps : list string) : string := foldr (fun p t => p +:+ t) ""%string ps.

Lemma concat_all_cons p ps : concat_all (p :: ps) = (p +:+ concat_all ps)%string.
Proof. done. Qed.

Lemma text_take n l : exists dropped, text l = dropped +:+ text (take n l).
Proof.
  revert n. induction l as [|c l IH]; intros [|n]; simpl; [by exists ""%string..| |].
  - exists (text l +:+ c). by rewrite append_empty.
  - destruct (IH n) as [d ->]. exists d. by rewrite append_assoc.
Qed.

Lemma log_write_suffix maxSize maxB l p :
  exists dropped, (text l +:+ p = dropped +:+ text (log_write maxSize maxB l p))%string.
Proof.
  destruct l as [|c l]; simpl; [by exists ""%string|]. destruct (_ && _).
  - destruct (text_take maxB (c :: l)) as [d E]. exists d. simpl text at 2. rewrite <- append_assoc, <- E. done.
  - exists ""%string. simpl. by rewrite append_assoc.
Qed.

Lemma log_writes_suffix maxSize maxB ps l :
  exists dropped, (text l +:+ concat_all ps = dropped +:+ text (foldl (log_write maxSize maxB) l ps))%string.
Proof.
  revert l. induction ps as [|p ps IH]; intros l; simpl; [exists ""%string; apply append_empty|].
  destruct (log_write_suffix maxSize maxB l p) as [d Hd]. destruct (IH (log_write maxSize maxB l p)) as [d' Hd'].
  exists (d +:+ d'). by rewrite <- append_assoc, Hd, !append_assoc, Hd'.
Qed.

Lemma log_write_length maxSize maxB l p :
  (1 <= length l <= S maxB)%nat -> (1 <= length (log_write maxSize maxB l p) <= S maxB)%nat.
Proof.
  destruct l as [|c l]; simpl; [lia|]. intros H. destruct (_ && _); simpl; [|lia].
  rewrite length_take. simpl. lia.
Qed.

(** Files stay within the limit, unless one write alone is longer. *)
Definition within (bound : Z) (l : list string) : Prop := Forall (fun c => len c <= bound) l.

Lemma log_write_within maxSize maxB bound l p :
  0 < maxSize <= bound -> len p <= bound -> within bound l -> within bound (log_write maxSize maxB l p).
Proof.
  intros Hm Hp Hl. destruct l as [|c l]; simpl; [by constructor|].
  destruct (Z.ltb_spec 0 maxSize); [|lia]. destruct (Z.ltb_spec maxSize (len c + len p)); simpl.
  - constructor; [done|]. by apply Forall_take.
  - inversion Hl; subst. constructor; [|done]. unfold len in *. rewrite length_append. lia.
Qed.

Lemma log_writes_within maxSize maxB bound ps l :
  0 < maxSize <= bound -> Forall (fun p => len p <= bound) ps -> within bound l ->
  within bound (foldl (log_write maxSize maxB) l ps).
Proof.
  intros Hm HF. revert l. induction HF as [|p ps Hp HF IH]; intros l Hl; simpl; [done|].
  apply IH. by apply log_write_within.
Qed.

Lemma log_write_hd mx mb l p : len (hd ""%string (log_write mx mb l p)) <= len (hd ""%string l) + len p.
Proof.
  destruct l as [|c l]; simpl; [unfold len; simpl; lia|]. destruct (_ && _); simpl; unfold len; rewrite ?length_append; lia.
Qed.
End Log.
Import Log.

(** [shows path maxB f pend l]: on disk and in the buffer [pend] of the newest
    file, the files of the family of [path] are those of [l]. *)
Record shows (path : string) (maxB : nat) (f : fs) (h : nat) (pend : string) (l : list string) : Prop := {
  sh_wf : wf f;
  sh_len : (1 <= length l <= S maxB)%nat;
  sh_cur : dir f !! path = Some h;
  sh_head : l !! 0%nat = Some (content f h +:+ pend);
  sh_back : forall k, (1 <= k <= maxB)%nat ->
    match l !! k with
    | Some c => exists i, dir f !! name path k = Some i /\ content f i = c
    | None => dir f !! name path k = None
    end;
}.

(** A write at the end of file [h]. *)
Definition appended (h : nat) (d : string) (f f' : fs) : Prop :=
  dir f' = dir f /\ fresh f' = fresh f /\ content f' h = content f h +:+ d /\
  forall i, i <> h -> content f' i = content f i.

Lemma append_data_appended h d f : appended h d f (append_data h d f).
Proof.
  split_and!; try done; unfold content at 1; simpl; [by rewrite lookup_insert_eq|].
  intros i Hi. by rewrite lookup_insert_ne.
Qed.

Lemma appended_nil h f : appended h "" f f.
Proof. split_and!; try done. by rewrite append_empty. Qed.

Lemma appended_trans h d1 d2 f f1 f2 : appended h d1 f f1 -> appended h d2 f1 f2 -> appended h (d1 +:+ d2) f f2.
Proof.
  intros (D1 & F1 & C1 & O1) (D2 & F2 & C2 & O2). split_and!; try congruence.
  - rewrite C2, C1. apply append_assoc.
  - intros i Hi. by rewrite O2, O1.
Qed.

Lemma shows_append path maxB f f' h pend l p d pend' :
  shows path maxB f h pend l -> appended h d f f' -> (pend +:+ p = d +:+ pend')%string ->
  shows path maxB f' h pend' (match l with [] => [] | c :: rest => (c +:+ p) :: rest end).
Proof.
  intros [Hwf Hl Hc Hh Hb] (Hd & Hf & Hch & Hco) Ed. destruct l as [|c rest]; [done|]. injection Hh as Hh.
  split; simpl; rewrite ?Hd; try done.
  - unfold wf. by rewrite Hd, Hf.
  - f_equal. rewrite Hch, append_assoc, <- Ed, Hh. by rewrite append_assoc.
  - intros k Hk. specialize (Hb k Hk). destruct k as [|k]; [lia|]. simpl in *.
    destruct (rest !! k) as [c'|]; [|done]. destruct Hb as (i & Hi & Hci). exists i. split; [done|].
    rewrite <- Hci. apply Hco. intros ->.
    assert (name path (S k) = name path 0) as E by (eapply Hwf; [exact Hi|exact Hc]). apply name_inj in E. lia.
Qed.

(** What the buffer holds goes to the file. *)
Lemma shows_flush path maxB f f' h pend l :
  shows path maxB f h pend l -> appended h pend f f' -> shows path maxB f' h "" l.
Proof.
  intros Hs Ha. pose proof (shows_append path maxB f f' h pend l "" pend "" Hs Ha eq_refl) as H.
  destruct l as [|c l]; [done|]. by rewrite append_empty in H.
Qed.

(** A family is left alone by changes elsewhere. *)
Lemma shows_frame path maxB f f' h l :
  shows path maxB f h "" l -> wf f' ->
  (forall k, (k <= maxB)%nat -> dir f' !! name path k = dir f !! name path k) ->
  (forall k i, (k <= maxB)%nat -> dir f !! name path k = Some i -> content f' i = content f i) ->
  shows path maxB f' h "" l.
Proof.
  intros [Hwf Hl Hc Hh Hb] Hwf' Hd Hcont. split; try done.
  - rewrite <- Hc. apply (Hd 0%nat). lia.
  - rewrite Hh. do 2 f_equal. symmetry. apply (Hcont 0%nat); [lia|done].
  - intros k Hk. specialize (Hb k Hk). destruct (l !! k) as [c|]; [|by rewrite Hd by lia].
    destruct Hb as (i & Hi & Hci). exists i. rewrite Hd by lia. split; [done|]. rewrite <- Hci.
    apply (Hcont k); [lia|done].
Qed.

Lemma OpenAppend_new path w : faults w = [] -> dir (files w) !! path = None ->
  let f := files w in
  OpenAppend path w = (Ok (fresh f),
    mkWorld (mkFs (<[path := fresh f]> (dir f)) (<[fresh f := ""%string]> (data f)) (S (fresh f))) []).
Proof. intros Hq Hn. destruct w as [f fl]. simpl in *. subst fl. unfold OpenAppend, os_call. simpl. by rewrite Hn. Qed.

(** Shifting and opening a new file. *)
Lemma shows_rotate path maxB f h l rf :
  (1 <= maxB)%nat -> shows path maxB f h "" l ->
  exists f1 f2 h2, shift rf path maxB maxB (mkWorld f []) = (None, mkWorld f1 []) /\
    OpenAppend path (mkWorld f1 []) = (Ok h2, mkWorld f2 []) /\ shows path maxB f2 h2 "" (""%string :: take maxB l) /\
    (forall x, (forall k, (k <= maxB)%nat -> x <> name path k) -> dir f2 !! x = dir f !! x) /\
    (forall x i, dir f !! x = Some i -> content f2 i = content f i).
Proof.
  intros HB [Hwf Hl Hc Hh Hb]. set (m := length l) in *. set (n := Nat.min m maxB).
  assert (forall j, (j < n)%nat -> is_Some (dir f !! name path j)) as Hpres.
  { intros j Hj. destruct j as [|j]; [by exists h|]. specialize (Hb (S j) ltac:(lia)).
    destruct (lookup_lt_is_Some_2 l (S j)) as [c Ec]; [unfold m, n in *; lia|]. rewrite Ec in Hb.
    destruct Hb as (i & -> & _). by eexists. }
  assert (shift_dir path maxB (dir f) = shift_dir path n (dir f)) as Eskip.
  { apply shift_dir_skip; [lia|]. intros j Hj. specialize (Hb j ltac:(lia)).
    by rewrite (lookup_ge_None_2 l j) in Hb by (unfold m, n in *; lia). }
  destruct (shift_dir_up path n (dir f) Hpres) as (Hup & Htop & Hrest).
  destruct (shift_dir_wf path n (dir f) (proj1 Hwf)) as [Hinj Hval].
  set (d1 := shift_dir path n (dir f)) in *.
  set (f1 := mkFs d1 (data f) (fresh f)).
  set (f2 := mkFs (<[path := fresh f]> d1) (<[fresh f := ""%string]> (data f)) (S (fresh f))).
  assert (forall x i, d1 !! x = Some i -> (i < fresh f)%nat) as Hlt.
  { intros x i Hx. destruct (Hval x i Hx) as [y Hy]. by eapply Hwf. }
  assert (forall i, i <> fresh f -> content f2 i = content f i) as Hcont.
  { intros i Hi. unfold content, f2. simpl. by rewrite lookup_insert_ne. }
  exists f1, f2, (fresh f). split; [|split; [|split]].
  - rewrite shift_quiet by done. simpl. by rewrite Eskip.
  - apply OpenAppend_new; [done|]. apply (Htop ltac:(lia)).
  - split; simpl.
    + split; simpl.
      * intros x y i [[<- <-]|[Hx Hxi]]%lookup_insert_Some [[<- Ei]|[Hy Hyi]]%lookup_insert_Some; try done.
        -- apply Hlt in Hyi. lia.
        -- subst i. apply Hlt in Hxi. lia.
        -- by eapply Hinj.
      * intros x i [[_ <-]|[_ Hx]]%lookup_insert_Some; [lia|]. apply Hlt in Hx. lia.
    + rewrite length_take. lia.
    + apply lookup_insert_eq.
    + f_equal. unfold content. simpl. by rewrite lookup_insert_eq.
    + intros k Hk. destruct k as [|k]; [lia|]. simpl.
      rewrite lookup_insert_ne by (intros E; assert (name path 0 = name path (S k)) as E' by exact E; apply name_inj in E'; lia).
      rewrite lookup_take_lt by lia. destruct (decide (k < n)%nat) as [Hkn|Hkn].
      * rewrite Hup by lia. replace (S k - 1)%nat with k by lia.
        assert (forall j c, l !! j = Some c -> (j <= maxB)%nat -> exists i, dir f !! name path j = Some i /\ content f i = c) as Hold.
        { intros [|j] c Ec Hj; [|specialize (Hb (S j) ltac:(lia)); by rewrite Ec in Hb].
          rewrite Hh in Ec. injection Ec as <-. exists h. by rewrite append_empty. }
        destruct (lookup_lt_is_Some_2 l k) as [c Ec]; [unfold m, n in *; lia|]. rewrite Ec.
        destruct (Hold k c Ec ltac:(lia)) as (i & Hi & Hci). exists i. split; [done|].
        rewrite Hcont; [done|]. assert (i < fresh f)%nat by (by apply (proj2 Hwf) in Hi). lia.
      * rewrite (lookup_ge_None_2 l k) by (unfold m, n in *; lia).
        rewrite Hrest by (intros j Hj E; apply name_inj in E; lia).
        specialize (Hb (S k) ltac:(lia)). by rewrite (lookup_ge_None_2 l (S k)) in Hb by (unfold m, n in *; lia).
  - split.
    + intros x Hx. simpl. rewrite lookup_insert_ne by (intros ->; by apply (Hx 0%nat); [lia|]).
      apply Hrest. intros j Hj. apply Hx. lia.
    + intros x i Hx. apply Hcont. apply (proj2 Hwf) in Hx. lia.
Qed.

(** What is on disk before the start: nothing of the family, or the files of
    an earlier run without a gap. *)
Definition found (path : string) (maxB : nat) (f : fs) (l : list string) : Prop :=
  wf f /\
  ((l = [""%string] /\ (forall k, (k <= maxB)%nat -> dir f !! name path k = None)) \/
   exists h, shows path maxB f h "" l).

Lemma found_open path maxB f l : found path maxB f l ->
  exists h f', OpenAppend path (mkWorld f []) = (Ok h, mkWorld f' []) /\ shows path maxB f' h "" l /\
    (forall x, x <> path -> dir f' !! x = dir f !! x) /\
    (forall x i, dir f !! x = Some i -> content f' i = content f i).
Proof.
  intros [Hwf [[-> Hn]|[h Hs]]].
  - eexists _, _. split; [apply OpenAppend_new; [done|]; by apply (Hn 0%nat); lia|]. split.
    + split; simpl.
      * split; simpl.
        -- intros x y i [[<- <-]|[Hx Hxi]]%lookup_insert_Some [[<- Ei]|[Hy Hyi]]%lookup_insert_Some; try done.
           ++ apply (proj2 Hwf) in Hyi. lia.
           ++ subst i. apply (proj2 Hwf) in Hxi. lia.
           ++ by eapply Hwf.
        -- intros x i [[_ <-]|[_ Hx]]%lookup_insert_Some; [lia|]. apply (proj2 Hwf) in Hx. lia.
      * lia.
      * apply lookup_insert_eq.
      * unfold content. simpl. by rewrite lookup_insert_eq.
      * intros k Hk. rewrite (lookup_ge_None_2 [""%string]) by (simpl; lia).
        rewrite lookup_insert_ne; [apply Hn; lia|]. intros E.
        assert (name path 0 = name path k) as E' by exact E. apply name_inj in E'. lia.
    + split; simpl; [intros x Hx; by rewrite lookup_insert_ne|].
      intros x i Hx. unfold content. simpl. apply (proj2 Hwf) in Hx. by rewrite lookup_insert_ne by lia.
  - exists h, f. split; [|by split]. unfold OpenAppend, os_call. simpl. by rewrite (sh_cur _ _ _ _ _ _ Hs).
Qed.

(** Changes confined to one family. *)
Definition changes (path : string) (maxB : nat) (f f' : fs) : Prop :=
  wf f' /\
  forall x, (forall k, (k <= maxB)%nat -> x <> name path k) ->
    dir f' !! x = dir f !! x /\ forall i, dir f !! x = Some i -> content f' i = content f i.

Lemma changes_refl path maxB f : wf f -> changes path maxB f f.
Proof. by split. Qed.

Lemma changes_trans path maxB f1 f2 f3 :
  changes path maxB f1 f2 -> changes path maxB f2 f3 -> changes path maxB f1 f3.
Proof.
  intros [_ H1] [Hwf H2]. split; [done|]. intros x Hx. destruct (H1 x Hx) as [D1 C1], (H2 x Hx) as [D2 C2].
  split; [congruence|]. intros i Hi. rewrite C2, C1 by congruence. done.
Qed.

Lemma changes_appended path maxB f f' h d :
  wf f -> dir f !! path = Some h -> appended h d f f' -> changes path maxB f f'.
Proof.
  intros Hwf Hh (Hd & Hf & _ & Hc). split; [unfold wf; by rewrite Hd, Hf|]. intros x Hx. rewrite Hd. split; [done|].
  intros i Hi. apply Hc. intros ->. apply (Hx 0%nat); [lia|]. by eapply Hwf.
Qed.

(** ** A fresh directory *)
Definition empty_fs : fs := mkFs ∅ ∅ 0.

Lemma empty_fs_wf : wf empty_fs.
Proof.
  assert (forall x i, dir empty_fs !! x = Some i -> False) as H by (intros x i E; exact (lookup_empty_Some (M := gmap string) x i E)).
  split; [intros x y i Hx|intros x i Hx]; by apply H in Hx.
Qed.

(** ** The rotating writer of the log router ([rotation.go]) *)
Module Rotating.

Record rotatingWriter := mkWriter {
  path : string;
  maxSize : Z;
  maxBackups : Z;
  size : Z;
  file : nat;
}.

Definition newRotatingWriter (path : string) (maxSize maxBackups : Z) (w : world) : res rotatingWriter * world :=
  match OpenAppend path w with
  | (Err e, w1) => (Err (Wrapf "failed to open file for rotating writer: " e ""), w1)
  | (Ok f, w1) =>
      if 0 <? maxSize then
        match Size f w1 with
        | (Err e, w2) => (Err (Wrapf "failed to stat file for rotating writer: " e ""), snd (Close w2))
        | (Ok n, w2) => (Ok (mkWriter path maxSize maxBackups n f), w2)
        end
      else (Ok (mkWriter path maxSize maxBackups 0 f), w1)
  end.

Definition rename_failed (src dst : string) (e : goerror) : goerror :=
  Wrapf ("failed to rename " +:+ src +:+ " to " +:+ dst +:+ ": ") e "".

Definition rotate (wr : rotatingWriter) (w : world) : rotatingWriter * option goerror * world :=
  let n := Z.to_nat (maxBackups wr) in
  match shift rename_failed (path wr) n n w with
  | (Some e, w1) => (wr, Some e, w1)
  | (None, w1) =>
      match OpenAppend (path wr) w1 with
      | (Err e, w2) => (wr, Some (Wrapf "failed to open new file after rotation: " e ""), w2)
      | (Ok f, w2) =>
          (mkWriter (path wr) (maxSize wr) (maxBackups wr) 0 f, None, snd (Close w2))
      end
  end.

(** A failed rotation is only reported; the write goes on. *)
Definition Write (p : string) (wr : rotatingWriter) (w : world)
  : rotatingWriter * (Z * option goerror) * world :=
  let '(wr1, w1) :=
    if (0 <? maxSize wr) && (maxSize wr <? add64 (size wr) (Z.of_nat (String.length p)))
    then let '(wr1, _, w1) := rotate wr w in (wr1, w1)
    else (wr, w) in
  let '((n, err), w2) := WriteTo (file wr1) p w1 in
  (mkWriter (path wr1) (maxSize wr1) (maxBackups wr1) (add64 (size wr1) n) (file wr1), (n, err), w2).

(** ** Refinement of the abstract log *)
Definition CloseWriter (w : world) : option goerror * world := Close w.

Fixpoint writes (ps : list string) (wr : rotatingWriter) (w : world) : rotatingWriter * world :=
  match ps with
  | [] => (wr, w)
  | p :: ps' => let '(wr1, _, w1) := Write p wr w in writes ps' wr1 w1
  end.

Record stands (wr : rotatingWriter) (w : world) (l : list string) : Prop := {
  st_quiet : faults w = [];
  st_shows : shows (path wr) (Z.to_nat (maxBackups wr)) (files w) (file wr) "" l;
  st_size : 0 < maxSize wr -> size wr = len (hd ""%string l);
}.

Lemma Write_stands p wr w l :
  1 <= maxBackups wr -> stands wr w l -> len (hd ""%string l) + len p <= max_int64 ->
  exists wr' w', Write p wr w = (wr', (len p, None), w') /\
    path wr' = path wr /\ maxSize wr' = maxSize wr /\ maxBackups wr' = maxBackups wr /\
    stands wr' w' (log_write (maxSize wr) (Z.to_nat (maxBackups wr)) l p).
Proof.
  intros HB [Hq Hs Hsz] Hfit. destruct w as [f fl]. simpl in *. subst fl.
  destruct l as [|c rest]; [destruct (sh_len _ _ _ _ _ _ Hs); simpl in *; lia|]. cbn [hd] in *.
  pose proof (fun x => Nat2Z.is_nonneg (String.length x)) as Hnn.
  assert (forall a, 0 <= a -> a + len p <= max_int64 -> add64 a (len p) = a + len p) as Hadd
    by (intros a Ha Hb; apply add64_id; pose proof (Hnn p); unfold len in *; int64_lia).
  unfold Write, log_write. fold (len p).
  assert ((0 <? maxSize wr) && (maxSize wr <? add64 (size wr) (len p)) =
    (0 <? maxSize wr) && (maxSize wr <? len c + len p)) as ->.
  { destruct (Z.ltb_spec 0 (maxSize wr)); [|done]. rewrite Hsz, Hadd by (unfold len in *; try lia; apply Hnn). done. }
  destruct (_ && _) eqn:Erot.
  - destruct (shows_rotate (path wr) (Z.to_nat (maxBackups wr)) f (file wr) (c :: rest) rename_failed
      ltac:(lia) Hs) as (f1 & f2 & h2 & Hsh & Hop & Hs2 & _).
    unfold rotate. rewrite Hsh, Hop. unfold Close, WriteTo, os_call. simpl. fold (len p).
    eexists _, _. split; [reflexivity|]. simpl. do 3 (split; [done|]). split; simpl; [done| |].
    + exact (shows_append _ _ _ _ _ _ _ p p "" Hs2 (append_data_appended _ _ _) (eq_sym (append_empty _))).
    + intros _. rewrite Hadd by (unfold len in *; pose proof (Hnn c); lia). simpl. lia.
  - unfold WriteTo, os_call. simpl. fold (len p).
    eexists _, _. split; [reflexivity|]. simpl. do 3 (split; [done|]). split; simpl; [done| |].
    + exact (shows_append _ _ _ _ _ _ _ p p "" Hs (append_data_appended _ _ _) (eq_sym (append_empty _))).
    + intros Hm. rewrite Hsz, Hadd by (done || (unfold len in *; pose proof (Hnn c); lia)).
      unfold len. rewrite length_append. lia.
Qed.

Lemma writes_stands ps wr w l :
  1 <= maxBackups wr -> stands wr w l -> len (hd ""%string l) + len (concat_all ps) <= max_int64 ->
  stands (writes ps wr w).1 (writes ps wr w).2 (foldl (log_write (maxSize wr) (Z.to_nat (maxBackups wr))) l ps) /\
  path (writes ps wr w).1 = path wr /\ maxBackups (writes ps wr w).1 = maxBackups wr.
Proof.
  revert wr w l. induction ps as [|p ps IH]; intros wr w l HB Hst Hfit; [done|].
  cbn [concat_all foldr] in Hfit. fold (concat_all ps) in Hfit. unfold len at 2 in Hfit. rewrite length_append in Hfit.
  destruct (Write_stands p wr w l HB Hst) as (wr' & w' & E & Ep & Em & Eb & Hst'); [unfold len in *; lia|].
  simpl. rewrite E. destruct (IH wr' w' _ ltac:(lia) Hst') as (H1 & H2 & H3).
  - pose proof (log_write_hd (maxSize wr) (Z.to_nat (maxBackups wr)) l p). unfold len in *. lia.
  - rewrite Em, Eb in *. by rewrite H2, H3, Ep.
Qed.

(** C15. A rotating log without failing calls refines the abstract log: after any
    writes, the files on disk are those of the abstract log after the same
    writes. So together they hold, in order, the end of everything written;
    there are never more than [maxBackups] and the current one; and each is at
    most as long as the limit, or as the longest single write. *)
Theorem rotating_refines_log path maxSize maxBackups f l ps :
  1 <= maxBackups -> found path (Z.to_nat maxBackups) f l ->
  len (hd ""%string l) + len (concat_all ps) <= max_int64 ->
  exists wr w, newRotatingWriter path maxSize maxBackups (mkWorld f []) = (Ok wr, w) /\
  let '(wr', w') := writes ps wr w in
  let l' := foldl (log_write maxSize (Z.to_nat maxBackups)) l ps in
  shows path (Z.to_nat maxBackups) (files w') (file wr') "" l' /\
  (exists dropped, text l +:+ concat_all ps = dropped +:+ text l')%string /\
  (length l' <= S (Z.to_nat maxBackups))%nat /\
  (0 < maxSize -> forall bound, maxSize <= bound -> Forall (fun p => len p <= bound) ps ->
     within bound l -> within bound l').
Proof.
  intros HB Hf Hfit. destruct (found_open _ _ _ _ Hf) as (h & f1 & Hop & Hs & _ & _).
  assert (exists wr, newRotatingWriter path maxSize maxBackups (mkWorld f []) = (Ok wr, mkWorld f1 []) /\
    Rotating.path wr = path /\ Rotating.maxSize wr = maxSize /\ Rotating.maxBackups wr = maxBackups /\
    stands wr (mkWorld f1 []) l) as (wr & -> & Ep & Em & Eb & Hst).
  { unfold newRotatingWriter. rewrite Hop. unfold Size, os_call. simpl.
    pose proof (sh_head _ _ _ _ _ _ Hs) as Hh. rewrite append_empty in Hh.
    destruct l as [|c l]; [done|]. injection Hh as Hc.
    destruct (Z.ltb_spec 0 maxSize); eexists; (split; [reflexivity|]); do 3 (split; [done|]); split; simpl; try done; [|lia].
    intros _. by rewrite Hc. }
  exists wr, (mkWorld f1 []). split; [done|].
  destruct (writes_stands ps wr (mkWorld f1 []) l ltac:(lia) Hst Hfit) as ([_ Hs' _] & Hp & Hb).
  destruct (writes ps wr (mkWorld f1 [])) as [wr' w']. simpl in *. rewrite Hp, Hb, Ep, Em, Eb in Hs'.
  split; [exact Hs'|]. split; [apply log_writes_suffix|]. split; [apply Hs'|].
  intros Hm bound Hbd HF Hw. by apply log_writes_within.
Qed.

(** With no backups ([maxBackups = 0]) nothing is ever rotated away: the
    limit is not kept, the file holds everything that was written, while the
    writer counts its size from 0 again and again. *)
Theorem no_backups_no_limit path maxSize f h l p :
  0 < maxSize -> shows path 0 f h "" [l] -> maxSize < len l + len p -> len l + len p <= max_int64 ->
  exists wr w wr' w', newRotatingWriter path maxSize 0 (mkWorld f []) = (Ok wr, w) /\
    Write p wr w = (wr', (len p, None), w') /\
    shows path 0 (files w') (file wr') "" [l +:+ p]%string /\ size wr' = len p.
Proof.
  intros Hm Hs Hbig Hfit.
  assert (OpenAppend path (mkWorld f []) = (Ok h, mkWorld f [])) as Hop.
  { unfold OpenAppend, os_call. simpl. by rewrite (sh_cur _ _ _ _ _ _ Hs). }
  unfold newRotatingWriter. rewrite Hop. unfold Size, os_call. simpl.
  pose proof (sh_head _ _ _ _ _ _ Hs) as Hh. rewrite append_empty in Hh. injection Hh as Hc.
  destruct (Z.ltb_spec 0 maxSize); [|lia]. eexists _, _, _, _. split; [reflexivity|].
  assert (forall x, 0 <= len x) as Hnn by (intros x; apply Nat2Z.is_nonneg).
  unfold Write. simpl. rewrite <- Hc. fold (len l) (len p).
  pose proof (Hnn l). pose proof (Hnn p). rewrite (add64_id (len l) (len p)) by int64_lia.
  destruct (Z.ltb_spec 0 maxSize); [|lia]. destruct (Z.ltb_spec maxSize (len l + len p)); [|lia]. simpl.
  unfold rotate. simpl. rewrite Hop. unfold Close, WriteTo, os_call. simpl. split; [reflexivity|]. simpl.
  split; [|apply add64_id; fold (len p); int64_lia].
  exact (shows_append _ _ _ _ _ _ _ p p "" Hs (append_data_appended _ _ _) (eq_sym (append_empty _))).
Qed.

(** ** With failing calls *)

(** Inodes are handed out in order: neither names nor data beyond [fresh]. *)
Definition clean (f : fs) : Prop :=
  (forall i, (fresh f <= i)%nat -> data f !! i = None) /\
  (forall x i, dir f !! x = Some i -> (i < fresh f)%nat).

(** Names may change, data does not. *)
Definition keeps (w w' : world) : Prop :=
  clean (files w) -> clean (files w') /\ (fresh (files w) <= fresh (files w'))%nat /\
    forall i, content (files w') i = content (files w) i.

Lemma keeps_same w w' : files w' = files w -> keeps w w'.
Proof. intros E Hc. rewrite E. by split_and!. Qed.
Lemma keeps_trans w1 w2 w3 : keeps w1 w2 -> keeps w2 w3 -> keeps w1 w3.
Proof.
  intros H1 H2 Hc. destruct (H1 Hc) as (Hc2 & F1 & E1), (H2 Hc2) as (Hc3 & F2 & E2).
  split; [done|]. split; [lia|]. intros i. by rewrite E2.
Qed.

Lemma os_call_keeps {A} fail (run : world -> A * world) w :
  (forall n e w, keeps w (fail n e w).2) -> (forall w, keeps w (run w).2) -> keeps w (os_call fail run w).2.
Proof.
  intros Hf Hr. destruct w as [f fl]. unfold os_call. simpl. destruct fl as [|[[n e]|] q]; [apply Hr|..].
  - eapply keeps_trans; [apply (keeps_same _ (mkWorld f q)); done|apply Hf].
  - eapply keeps_trans; [apply (keeps_same _ (mkWorld f q)); done|apply Hr].
Qed.

Lemma Stat_keeps p w : keeps w (Stat p w).2.
Proof. by apply os_call_keeps; intros; apply keeps_same. Qed.
Lemma Close_keeps w : keeps w (Files.Close w).2.
Proof. by apply os_call_keeps; intros; apply keeps_same. Qed.
Lemma Remove_keeps p w : keeps w (Remove p w).2.
Proof.
  apply os_call_keeps; [by intros; apply keeps_same|]. intros w0. cbv zeta.
  destruct (dir (files w0) !! p) eqn:Ep; simpl; [|by apply keeps_same].
  intros [Hd Hn]. split; [|split; [simpl; lia|done]]. split; simpl; [done|]. intros x i [_ Hx]%lookup_delete_Some. by eapply Hn.
Qed.
Lemma Rename_keeps p q w : keeps w (Rename p q w).2.
Proof.
  apply os_call_keeps; [by intros; apply keeps_same|]. intros w0. cbv zeta.
  destruct (dir (files w0) !! p) eqn:Ep; simpl; [|by apply keeps_same].
  intros [Hd Hn]. split; [|split; [simpl; lia|done]]. split; simpl; [done|].
  intros x i [[_ <-]|[_ Hx]]%lookup_insert_Some; [by eapply Hn|]. apply lookup_delete_Some in Hx as [_ Hx]. by eapply Hn.
Qed.
Lemma OpenAppend_keeps p w : keeps w (OpenAppend p w).2.
Proof.
  apply os_call_keeps; [by intros; apply keeps_same|]. intros w0. cbv zeta.
  destruct (dir (files w0) !! p) eqn:Ep; simpl; [by apply keeps_same|].
  intros [Hd Hn]. split; [|split; [simpl; lia|]].
  - split; simpl.
    + intros i Hi. rewrite lookup_insert_ne by lia. apply Hd. lia.
    + intros x i [[_ <-]|[_ Hx]]%lookup_insert_Some; [lia|]. apply Hn in Hx. lia.
  - intros i. unfold content. simpl. destruct (decide (i = fresh (files w0))) as [->|].
    + rewrite lookup_insert_eq, Hd by lia. done.
    + by rewrite lookup_insert_ne.
Qed.
Lemma OpenAppend_handle p w h w' : OpenAppend p w = (Ok h, w') -> clean (files w) -> (h < fresh (files w'))%nat.
Proof.
  unfold OpenAppend, os_call. intros E [_ Hn].
  destruct (faults w) as [|[[n e]|] q]; simpl in E; try done;
    destruct (dir (files w) !! p) eqn:Ed; simplify_eq/=; try (by apply Hn in Ed); lia.
Qed.

Lemma shift_keeps rf path mb i w : keeps w (shift rf path mb i w).2.
Proof.
  revert w. induction i as [|k IH]; intros w; simpl; [by apply keeps_same|].
  set (src := if bool_decide _ then _ else _). pose proof (Stat_keeps src w) as Hst.
  destruct (Stat src w) as [st w1]. simpl in Hst. eapply keeps_trans; [exact Hst|].
  case_bool_decide; [apply IH|].
  set (w2 := if bool_decide (S k = mb) then _ else w1).
  assert (keeps w1 w2) as H2 by (subst w2; case_bool_decide; [apply Remove_keeps|by apply keeps_same]).
  eapply keeps_trans; [exact H2|]. pose proof (Rename_keeps src (backupPath path (S k)) w2) as H3.
  destruct (Rename src _ w2) as [[e|] w3]; simpl in *; [exact H3|]. eapply keeps_trans; [exact H3|apply IH].
Qed.

Lemma rotate_keeps wr w : keeps w (rotate wr w).2 /\
  (clean (files w) -> (file wr < fresh (files w))%nat -> (file (rotate wr w).1.1 < fresh (files (rotate wr w).2))%nat).
Proof.
  unfold rotate. pose proof (shift_keeps rename_failed (path wr) (Z.to_nat (maxBackups wr)) (Z.to_nat (maxBackups wr)) w) as Hs.
  destruct (shift _ _ _ _ w) as [[e|] w1]; simpl in *.
  { split; [exact Hs|]. intros Hc Hf. destruct (Hs Hc) as (_ & ? & _). lia. }
  pose proof (OpenAppend_keeps (path wr) w1) as Ho. pose proof (OpenAppend_handle (path wr) w1) as Hh.
  destruct (OpenAppend _ w1) as [[h|e] w2]; simpl in *.
  - pose proof (Close_keeps w2) as Hcl. split; [by eapply keeps_trans, keeps_trans|].
    intros Hc _. destruct (Hs Hc) as (Hc1 & _ & _). specialize (Hh h w2 eq_refl Hc1).
    destruct (Ho Hc1) as (Hc2 & _ & _). destruct (Hcl Hc2) as (_ & ? & _). lia.
  - split; [by eapply keeps_trans|]. intros Hc Hf. destruct (Hs Hc) as (Hc1 & ? & _), (Ho Hc1) as (_ & ? & _). lia.
Qed.

Lemma append_data_clean h d f : clean f -> (h < fresh f)%nat -> clean (append_data h d f).
Proof. intros [Hd Hn] Hh. split; simpl; [|done]. intros i Hi. rewrite lookup_insert_ne by lia. by apply Hd. Qed.

(** Whatever calls fail, a write loses nothing that was written before: every
    file keeps its data, and exactly the bytes [Write] reports are added, at
    the end of the file the writer then holds. An error is the one of the write
    itself; a failed rotation is not one. *)
Theorem failed_rotation_loses_nothing p wr w :
  clean (files w) -> (file wr < fresh (files w))%nat ->
  let '(wr', (n, err), w') := Write p wr w in
  clean (files w') /\ (file wr' < fresh (files w'))%nat /\
  0 <= n <= len p /\ (err = None -> n = len p) /\
  content (files w') (file wr') = (content (files w) (file wr') +:+ str_take (Z.to_nat n) p)%string /\
  forall i, i <> file wr' -> content (files w') i = content (files w) i.
Proof.
  intros Hc Hf. unfold Write.
  destruct (if (0 <? maxSize wr) && (maxSize wr <? add64 (size wr) (Z.of_nat (String.length p)))
    then let '(wr1, _, w1) := rotate wr w in (wr1, w1) else (wr, w)) as [wr1 w1] eqn:E.
  assert (keeps w w1 /\ (file wr1 < fresh (files w1))%nat) as [Hk Hf1].
  { destruct (_ && _); simplify_eq/=; [|split; [by apply keeps_same|done]]. destruct (rotate_keeps wr w) as [Hr Hh].
    specialize (Hh Hc Hf). destruct (rotate wr w) as [[wr2 e] w2]. by simplify_eq/=. }
  destruct (Hk Hc) as (Hc1 & _ & Hcont). clear E Hk Hc Hf. destruct w1 as [f1 fl]. simpl in *.
  assert (forall x : string, str_take (String.length x) x = x) as Hall
    by (intros x; rewrite <- (append_empty x) at 2; apply str_take_append).
  assert (forall d, content (append_data (file wr1) d f1) (file wr1) = (content (files w) (file wr1) +:+ d)%string /\
    forall i, i <> file wr1 -> content (append_data (file wr1) d f1) i = content (files w) i) as Happ.
  { intros d. destruct (append_data_appended (file wr1) d f1) as (_ & _ & H1 & H2). rewrite <- (Hcont (file wr1)).
    split; [exact H1|]. intros i Hi. rewrite <- Hcont. by apply H2. }
  unfold WriteTo, os_call. simpl. unfold len. destruct fl as [|[[n e]|] q]; simpl.
  - split; [by apply append_data_clean|]. split; [done|]. split; [lia|]. split; [done|].
    rewrite Nat2Z.id, Hall. apply Happ.
  - split; [by apply append_data_clean|]. split; [done|]. split; [lia|]. split; [done|].
    assert (str_take (Z.to_nat (Z.of_nat (Nat.min n (String.length p)))) p = str_take n p) as ->.
    { rewrite Nat2Z.id. destruct (Nat.min_spec n (String.length p)) as [[_ ->]|[Hle ->]]; [done|].
      rewrite Hall. clear -Hle. revert n Hle. induction p as [|a p IH]; intros [|n] Hle; simpl in *; try done; try lia.
      f_equal. apply IH. lia. }
    apply Happ.
  - split; [by apply append_data_clean|]. split; [done|]. split; [lia|]. split; [done|].
    rewrite Nat2Z.id, Hall. apply Happ.
Qed.
(** ** Examples *)
Definition demo_writes : list string := ["abc"; "de"; "fgh"; "i"]%string.

Example demo_log : foldl (log_write 4 1) [""%string] demo_writes = ["fghi"; "de"]%string.
Proof. reflexivity. Qed.

Lemma rotating_refines_log_witness :
  found "a.log" (Z.to_nat 1) empty_fs [""%string] /\
  exists wr w, newRotatingWriter "a.log" 4 1 (mkWorld empty_fs []) = (Ok wr, w) /\
    let '(wr', w') := writes demo_writes wr w in
    shows "a.log" (Z.to_nat 1) (files w') (file wr') "" ["fghi"; "de"]%string.
Proof.
  assert (found "a.log" (Z.to_nat 1) empty_fs [""%string]) as Hf
    by (split; [exact empty_fs_wf|left; split; [reflexivity|intros k _; apply lookup_empty]]).
  split; [exact Hf|].
  destruct (rotating_refines_log "a.log" 4 1 empty_fs [""%string] demo_writes ltac:(lia) Hf
    ltac:(vm_compute; discriminate)) as (wr & w & E & H).
  exists wr, w. split; [exact E|]. destruct (writes demo_writes wr w) as [wr' w']. exact (proj1 H).
Defined.

(** A log of one file that holds [l]. *)
Definition one_file (l : string) : fs := mkFs {["a.log"%string := 0%nat]} {[0%nat := l]} 1.

Lemma one_file_shows l : shows "a.log" 0 (one_file l) 0 "" [l].
Proof.
  split; simpl.
  - split; simpl.
    + intros x y i [<- _]%lookup_singleton_Some [<- _]%lookup_singleton_Some. done.
    + intros x i [_ <-]%lookup_singleton_Some. lia.
  - lia.
  - apply lookup_insert_eq.
  - unfold content. simpl. rewrite lookup_singleton_eq. simpl. by rewrite append_empty.
  - lia.
Qed.

Lemma no_backups_no_limit_witness :
  exists wr w wr' w', newRotatingWriter "a.log" 4 0 (mkWorld (one_file "abc") []) = (Ok wr, w) /\
    Write "de" wr w = (wr', (2, None), w') /\ shows "a.log" 0 (files w') (file wr') "" ["abcde"%string] /\ size wr' = 2.
Proof.
  exact (no_backups_no_limit "a.log" 4 (one_file "abc") 0 "abc" "de" ltac:(lia) (one_file_shows "abc")
    ltac:(vm_compute; reflexivity) ltac:(vm_compute; discriminate)).
Defined.

(** Renaming fails with the first write past the limit. *)
Lemma failed_rotation_loses_nothing_witness :
  let wr := mkWriter "a.log" 4 1 3 0 in
  let w := mkWorld (one_file "abc") [None; None; Some (0%nat, Msg "disk")] in
  content (files (Write "de" wr w).2) 0 = "abcde"%string /\ clean (files (Write "de" wr w).2).
Proof.
  intros wr w.
  assert (clean (files w)) as Hc.
  { split; simpl.
    - intros i Hi. apply lookup_singleton_None. lia.
    - intros x i [_ <-]%lookup_singleton_Some. lia. }
  pose proof (failed_rotation_loses_nothing "de" wr w Hc ltac:(simpl; lia)) as H.
  split; [vm_compute; reflexivity|]. destruct (Write "de" wr w) as [[wr' [n err]] w']. exact (proj1 H).
Defined.
End Rotating.
