(* ===== verification/Bufio.v ===== *)
(** * Bufio: Go's [bufio.Writer], as the program's logs use it

    A buffer in front of a writer whose [Write] is a parameter, and what it
    passes on: pieces whose texts in order, with what still waits, are
    everything that was written. *)
From S2P Require Import Prelude Rotation.
Import Log.
Local Open Scope Z_scope.

Module Bufio.

(** The writer behind it, what waits, and the error that sticks. *)
Record Buf (T : Type) := mkBuf { target : T; pending : string; buf_err : option goerror }.
Arguments mkBuf {T}.
Arguments target {T}.
Arguments pending {T}.
Arguments buf_err {T}.

Section buffer.
Context {T W : Type} (put : string -> T -> W -> T * (Z * option goerror) * W) (bufferSize : Z).

Definition available (b : Buf T) : Z := bufferSize - len (pending b).

Definition flush (b : Buf T) (w : W) : Buf T * W :=
  if bool_decide (buf_err b = None /\ pending b <> ""%string) then
    match put (pending b) (target b) w with
    | (t, (n, Some e), w1) => (mkBuf t (str_drop (Z.to_nat n) (pending b)) (Some e), w1)
    | (t, (_, None), w1) => (mkBuf t "" None, w1)
    end
  else (b, w).

(** A text that does not fit: first the buffer is filled and written out; what is
    then longer than the buffer is written directly, the rest is kept. *)
Definition fill (p : string) (b : Buf T) (w : W) : Z * string * Buf T * W :=
  if bool_decide (available b < len p /\ pending b <> ""%string) then
    let k := Z.to_nat (available b) in
    let (b1, w1) := flush (mkBuf (target b) (pending b +:+ str_take k p) (buf_err b)) w in
    (Z.of_nat k, str_drop k p, b1, w1)
  else (0, p, b, w).

Definition direct (p : string) (b : Buf T) (w : W) : Z * string * Buf T * W :=
  if bool_decide (buf_err b = None /\ available b < len p) then
    let '(t, (n, e), w1) := put p (target b) w in
    (n, str_drop (Z.to_nat n) p, mkBuf t (pending b) e, w1)
  else (0, p, b, w).

Definition write (p : string) (b : Buf T) (w : W) : (Z * option goerror) * Buf T * W :=
  if bool_decide (buf_err b <> None) then ((0, buf_err b), b, w)
  else
    let '(n1, p1, b1, w1) := fill p b w in
    let '(n2, p2, b2, w2) := direct p1 b1 w1 in
    match buf_err b2 with
    | Some e => ((n1 + n2, Some e), b2, w2)
    | None => ((n1 + n2 + len p2, None), mkBuf (target b2) (pending b2 +:+ p2) None, w2)
    end.

(** ** What is passed on

    [I t w ps]: the writer has got the pieces [ps]; it takes every piece, as long
    as they are not longer than [B] together. *)
Context (I : T -> W -> list string -> Prop) (B : Z).
Hypothesis put_ok : forall p t w ps, I t w ps -> len (concat_all ps) + len p <= B ->
  exists t' w', put p t w = (t', (len p, None), w') /\ I t' w' (ps ++ [p]).
Hypothesis size_pos : 0 <= bufferSize.

(** The buffer, after the texts [done]. *)
Record holds (b : Buf T) (w : W) (written : string) : Prop := {
  ho_err : buf_err b = None;
  ho_room : len (pending b) <= bufferSize;
  ho_pieces : exists ps, I (target b) w ps /\ (concat_all ps +:+ pending b)%string = written;
}.

Lemma concat_all_app ps qs : concat_all (ps ++ qs) = (concat_all ps +:+ concat_all qs)%string.
Proof. induction ps as [|p ps IH]; [by rewrite append_nil_l|]. cbn [app]. by rewrite !concat_all_cons, IH, append_assoc. Qed.
Lemma concat_all_one ps p : concat_all (ps ++ [p]) = (concat_all ps +:+ p)%string.
Proof. rewrite concat_all_app, concat_all_cons. cbn [concat_all foldr]. by rewrite append_empty. Qed.
Lemma drop_all p : str_drop (Z.to_nat (len p)) p = ""%string.
Proof. unfold len. rewrite Nat2Z.id. rewrite <- (append_empty p) at 2. apply str_drop_append. Qed.

Lemma flush_quiet b w written : holds b w written -> len written <= B ->
  exists b' w', flush b w = (b', w') /\ holds b' w' written /\ pending b' = ""%string.
Proof.
  intros [He Hr (ps & HI & Ew)] HB. unfold flush. destruct b as [t pd e]. cbn [buf_err pending target] in *. subst e.
  destruct (decide (pd = ""%string)) as [->|Hn].
  { rewrite bool_decide_false by naive_solver. eexists _, _. split; [done|]. split; [|done]. split; [done..|]. by exists ps. }
  rewrite bool_decide_true by done. destruct (put_ok pd t w ps HI) as (t' & w' & -> & HI').
  { rewrite <- Ew, len_app in HB. exact HB. }
  eexists _, _. split; [done|]. split; [|done]. split; [done|unfold len; cbn; lia|]. exists (ps ++ [pd]). split; [done|].
  cbn [pending]. by rewrite append_empty, concat_all_one.
Qed.

Lemma fill_quiet p b w written : holds b w written -> len (written +:+ p) <= B ->
  exists n1 p1 b1 w1 w0, fill p b w = (n1, p1, b1, w1) /\ holds b1 w1 w0 /\ (w0 +:+ p1 = written +:+ p)%string /\
    n1 + len p1 = len p /\ (pending b1 = ""%string \/ len (pending b1) + len p1 <= bufferSize).
Proof.
  intros H HB. unfold fill, available. case_bool_decide as Hc.
  - destruct Hc as [Hlt Hne]. set (k := Z.to_nat (bufferSize - len (pending b))).
    pose proof (str_take_drop k p) as Hk.
    assert (String.length (str_take k p) = k) as Hlk by (apply str_take_length; unfold k, len in *; lia).
    assert (holds (mkBuf (target b) (pending b +:+ str_take k p) (buf_err b)) w (written +:+ str_take k p)) as H1.
    { destruct H as [He Hr (ps & HI & Ew)]. split; [done| |].
      - cbn [pending]. rewrite len_app. unfold len in *. unfold k in *. lia.
      - exists ps. split; [done|]. cbn [pending]. by rewrite <- append_assoc, Ew. }
    destruct (flush_quiet _ _ _ H1) as (b1 & w1 & -> & H2 & H3).
    { rewrite len_app in *. unfold len in *. rewrite Hlk. unfold k. lia. }
    eexists _, _, _, _, _. split; [reflexivity|]. split; [exact H2|]. rewrite append_assoc, Hk. split; [done|]. split; [|by left].
    apply (f_equal len) in Hk. rewrite len_app in Hk. unfold len in Hk |- *. lia.
  - eexists _, _, _, _, _. split; [reflexivity|]. split; [exact H|]. split; [done|]. split; [lia|].
    destruct (decide (pending b = ""%string)); [by left|right]. destruct (Z.lt_ge_cases (bufferSize - len (pending b)) (len p)); [by exfalso; apply Hc|lia].
Qed.

Lemma direct_quiet p b w written : holds b w written -> len (written +:+ p) <= B ->
  pending b = ""%string \/ len (pending b) + len p <= bufferSize ->
  exists n2 p2 b2 w2 w0, direct p b w = (n2, p2, b2, w2) /\ holds b2 w2 w0 /\ (w0 +:+ p2 = written +:+ p)%string /\
    n2 + len p2 = len p /\ len (pending b2) + len p2 <= bufferSize.
Proof.
  intros H HB Hfit. unfold direct, available. case_bool_decide as Hc.
  - destruct Hc as [_ Hlt]. destruct Hfit as [Hp|]; [|lia]. destruct H as [He Hr (ps & HI & Ew)].
    rewrite Hp, append_empty in Ew. destruct (put_ok p (target b) w ps HI) as (t' & w' & -> & HI'); [by rewrite Ew, <- len_app|].
    rewrite drop_all, Hp. eexists _, _, _, _, _. split; [reflexivity|]. split; [split; [done|by rewrite <- Hp|]|].
    + exists (ps ++ [p]). split; [done|reflexivity].
    + cbn [pending]. rewrite concat_all_one, !append_empty, Ew. split; [done|]. split; [unfold len; cbn; lia|]. by unfold len; cbn.
  - eexists _, _, _, _, _. split; [reflexivity|]. split; [exact H|]. split; [done|]. split; [lia|].
    destruct Hfit as [Hp|]; [|done]. destruct (Z.lt_ge_cases (bufferSize - len (pending b)) (len p)); [|lia].
    exfalso. apply Hc. split; [apply H|done].
Qed.

(** A write always succeeds and adds its text. *)
Lemma write_quiet p b w written : holds b w written -> len (written +:+ p) <= B ->
  exists b' w', write p b w = ((len p, None), b', w') /\ holds b' w' (written +:+ p).
Proof.
  intros H HB. unfold write. rewrite bool_decide_false by (rewrite (ho_err _ _ _ H); naive_solver).
  destruct (fill_quiet p b w written H HB) as (n1 & p1 & b1 & w1 & wr1 & -> & H1 & E1 & En1 & Hfit).
  destruct (direct_quiet p1 b1 w1 wr1 H1) as (n2 & p2 & b2 & w2 & wr2 & -> & H2 & E2 & En2 & Hfit2); [by rewrite E1|done|].
  rewrite (ho_err _ _ _ H2). eexists _, _. split; [assert (n1 + n2 + len p2 = len p) as -> by lia; reflexivity|].
  destruct H2 as [He Hr (ps & HI & Ew)]. split; [done|cbn [pending]; by rewrite len_app|]. exists ps. split; [done|].
  cbn [pending]. by rewrite <- append_assoc, Ew, E2, E1.
Qed.
End buffer.
End Bufio.
