(* ===== verification/EventLog.v ===== *)
(** * EventLog: the log of events, [internal/events/jsonl_writer.go]

    One buffered file a day, rotated by size with the loop of [Rotation], and its
    refinement of one abstract log a day ([Rotation.Log]). Marshalling and the
    date of an event are parameters. *)
From S2P Require Import Prelude Rotation Bufio.
Import Files Log Bufio.
Local Open Scope Z_scope.
Local Open Scope go_scope.

Module Jsonl.

(** A [bufio.Writer] over a file's handle. *)
Abbreviation Buf := (Bufio.Buf nat).
Definition bufferSize : Z := 32 * 1024.

Definition put_handle (p : string) (h : nat) (w : world) : nat * (Z * option goerror) * world :=
  let (r, w1) := WriteTo h p w in (h, r, w1).
Definition buf_flush : Buf -> world -> Buf * world := Bufio.flush put_handle.
Definition buf_write : string -> Buf -> world -> (Z * option goerror) * Buf * world := Bufio.write put_handle bufferSize.

Record JSONLWriter := mkJsonl {
  j_dir : string;
  maxSize : Z;
  maxBackups : Z;
  currentDate : string;
  file : option nat;
  buf : option Buf;
  size : Z;
  closed : bool;
}.

Definition NewJSONLWriter (dir : string) (maxSize maxBackups : Z) : JSONLWriter :=
  mkJsonl dir maxSize maxBackups "" None None 0 false.

Definition set_file (f : option nat) (b : option Buf) (sz : Z) (j : JSONLWriter) : JSONLWriter :=
  mkJsonl (j_dir j) (maxSize j) (maxBackups j) (currentDate j) f b sz (closed j).
Definition set_date (d : string) (j : JSONLWriter) : JSONLWriter :=
  mkJsonl (j_dir j) (maxSize j) (maxBackups j) d (file j) (buf j) (size j) (closed j).
Definition set_closed (j : JSONLWriter) : JSONLWriter :=
  mkJsonl (j_dir j) (maxSize j) (maxBackups j) (currentDate j) (file j) (buf j) (size j) true.

Definition flush_opt (b : option Buf) (w : world) : option Buf * world :=
  match b with Some b => let (b1, w1) := buf_flush b w in (Some b1, w1) | None => (None, w) end.

(** [filepath.Join] is a parameter, like the JSON encoding of an event. *)
Section writer.
Context (join : string -> string -> string) {Event : Type} (Marshal : Event -> res string) (date_of : Event -> string).

Definition pathForDate (date : string) (j : JSONLWriter) : string :=
  join (j_dir j) ("events-" +:+ date +:+ ".jsonl").

Definition ensureFile (date : string) (j : JSONLWriter) (w : world) : JSONLWriter * option goerror * world :=
  if bool_decide (currentDate j = date /\ file j <> None) then (j, None, w)
  else
    let '(j1, w1) :=
      match file j with
      | Some _ => let (_, wf) := flush_opt (buf j) w in (set_file None None (size j) j, snd (Close wf))
      | None => (j, w)
      end in
    match MkdirAll w1 with
    | (Some e, w2) => (j1, Some (Wrapf "creating events dir: " e ""), w2)
    | (None, w2) =>
        match OpenAppend (pathForDate date j1) w2 with
        | (Err e, w3) => (j1, Some (Wrapf "opening events file: " e ""), w3)
        | (Ok f, w3) =>
            match Size f w3 with
            | (Err e, w4) => (j1, Some (Wrapf "stat events file: " e ""), snd (Close w4))
            | (Ok n, w4) => (set_date date (set_file (Some f) (Some (mkBuf f "" None)) n j1), None, w4)
            end
        end
    end.

Definition rename_failed (src dst : string) (e : goerror) : goerror :=
  Wrapf ("rotating " +:+ src +:+ " to " +:+ dst +:+ ": ") e "".

(** The old handle is closed only when everything succeeded. *)
Definition rotate (j : JSONLWriter) (w : world) : JSONLWriter * option goerror * world :=
  let (_, w1) := flush_opt (buf j) w in
  let j1 := set_file None None 0 j in
  let path := pathForDate (currentDate j) j in
  let n := Z.to_nat (maxBackups j) in
  match shift rename_failed path n n w1 with
  | (Some e, w2) => (j1, Some e, w2)
  | (None, w2) =>
      match OpenAppend path w2 with
      | (Err e, w3) => (j1, Some (Wrapf "opening new events file after rotation: " e ""), w3)
      | (Ok f, w3) =>
          (set_file (Some f) (Some (mkBuf f "" None)) 0 j1, None,
           match file j with Some _ => snd (Close w3) | None => w3 end)
      end
  end.

Definition LF : string := String "010" "".

(** The last lines of [Write]; both callers have an open file. *)
Definition write_line (line : string) (j : JSONLWriter) (w : world) : JSONLWriter * option goerror * world :=
  match buf j with
  | None => (j, Some (Sentinel "nil pointer dereference"), w)
  | Some b =>
      let '((n, err), b1, w1) := buf_write line b w in
      (set_file (file j) (Some b1) (add64 (size j) n) j,
       match err with Some e => Some (Wrapf "writing event: " e "") | None => None end, w1)
  end.

Definition Write (event : Event) (j : JSONLWriter) (w : world) : JSONLWriter * option goerror * world :=
  match Marshal event with
  | Err e => (j, Some (Wrapf "marshaling event: " e ""), w)
  | Ok text =>
      let line := text +:+ LF in
      if closed j then (j, Some (Msg "writer is closed"), w)
      else
        let date := date_of event in
        match ensureFile date j w with
        | (j1, Some e, w1) => (j1, Some e, w1)
        | (j1, None, w1) =>
            if (0 <? maxSize j1) && (maxSize j1 <? add64 (size j1) (len line)) then
              match rotate j1 w1 with
              | (j2, None, w2) => write_line line j2 w2
              | (j2, Some _, w2) =>
                  match ensureFile date (set_date "" j2) w2 with
                  | (j3, Some e, w3) => (j3, Some (Wrapf "recovering after rotation failure: " e ""), w3)
                  | (j3, None, w3) => write_line line j3 w3
                  end
              end
            else write_line line j1 w1
        end
  end.

Definition Flush (j : JSONLWriter) (w : world) : JSONLWriter * option goerror * world :=
  match buf j with
  | None => (j, None, w)
  | Some b => let (b1, w1) := buf_flush b w in (set_file (file j) (Some b1) (size j) j, buf_err b1, w1)
  end.

Definition Close_ (j : JSONLWriter) (w : world) : JSONLWriter * option goerror * world :=
  if closed j then (j, None, w)
  else
    let j1 := set_closed j in
    let (b1, w1) := flush_opt (buf j1) w in
    let j2 := set_file (file j1) b1 (size j1) j1 in
    match b1 ≫= buf_err with
    | Some e => (j2, Some e, snd (Close w1))
    | None =>
        match file j2 with
        | Some _ => let (e, w2) := Close w1 in (j2, e, w2)
        | None => (j2, None, w1)
        end
    end.

(** ** Refinement: one abstract log per day *)
Definition day_write (mx : Z) (mb : nat) (logs : gmap string (list string)) (e : Event) : gmap string (list string) :=
  match Marshal e with
  | Err _ => logs
  | Ok t => <[date_of e := log_write mx mb (default [""%string] (logs !! date_of e)) (t +:+ LF)]> logs
  end.

Lemma buf_flush_quiet b f : buf_err b = None ->
  exists f', buf_flush b (mkWorld f []) = (mkBuf (target b) "" None, mkWorld f' []) /\
    appended (target b) (pending b) f f'.
Proof.
  intros He. unfold buf_flush, Bufio.flush, put_handle. destruct b as [h pd e]. simpl in *. subst e.
  destruct (decide (pd = ""%string)) as [->|Hn].
  - rewrite bool_decide_false by naive_solver. exists f. split; [done|apply appended_nil].
  - rewrite bool_decide_true by done. unfold WriteTo, os_call. simpl.
    eexists. split; [done|apply append_data_appended].
Qed.

(** What the handle has got since [f]. *)
Definition handle_got (h0 : nat) (f : fs) (h : nat) (w : world) (ps : list string) : Prop :=
  h = h0 /\ exists f', w = mkWorld f' [] /\ appended h0 (concat_all ps) f f'.

Lemma put_handle_ok h0 f B p h w ps : handle_got h0 f h w ps -> len (concat_all ps) + len p <= B ->
  exists h' w', put_handle p h w = (h', (len p, None), w') /\ handle_got h0 f h' w' (ps ++ [p]).
Proof.
  intros (-> & f' & -> & Ha) _. unfold put_handle, WriteTo, os_call. simpl. eexists _, _. split; [reflexivity|].
  split; [done|]. eexists. split; [reflexivity|]. rewrite Bufio.concat_all_one. eapply appended_trans; [exact Ha|apply append_data_appended].
Qed.

Lemma buf_write_quiet p b f : buf_err b = None -> len (pending b) <= bufferSize ->
  exists d pd f', buf_write p b (mkWorld f []) = ((len p, None), mkBuf (target b) pd None, mkWorld f' []) /\
    appended (target b) d f f' /\ (pending b +:+ p = d +:+ pd)%string /\ len pd <= bufferSize.
Proof.
  intros He Hb. destruct (Bufio.write_quiet put_handle bufferSize (handle_got (target b) f) (len (pending b +:+ p))
    (put_handle_ok (target b) f _) ltac:(done) p b (mkWorld f []) (pending b)) as (b' & w' & E & [He' Hr' (ps & (Eh & f' & -> & Ha) & Ep)]);
    [split; [done..|]|done|].
  - exists []. split; [|by rewrite append_nil_l]. split; [done|]. exists f. split; [done|apply appended_nil].
  - exists (concat_all ps), (pending b'), f'. unfold buf_write. rewrite E. destruct b' as [h' pd' e']. simpl in *. subst. done.
Qed.

(** Joining a directory and the name of a log puts something before the name. *)
Context (join_prefix : forall dir, exists pre, forall n,
  has_prefix n "events-" = true -> contains_byte n "/" = false -> join dir n = (pre +:+ n)%string).

(** Dates have ten characters, so the families of two days are apart. *)
Definition valid (date : string) : Prop := String.length date = 10%nat /\ contains_byte date "/" = false.

Lemma log_name_ok date : valid date ->
  has_prefix ("events-" +:+ date +:+ ".jsonl") "events-" = true /\ contains_byte ("events-" +:+ date +:+ ".jsonl") "/" = false.
Proof.
  intros [_ Hd]. split; [apply has_prefix_spec; by eexists|]. by rewrite !contains_byte_app, Hd.
Qed.

Lemma days_apart j d d' k k' : valid d -> valid d' ->
  name (pathForDate d j) k = name (pathForDate d' j) k' -> d = d'.
Proof.
  intros Hd Hd'. unfold pathForDate. destruct (join_prefix (j_dir j)) as [pre Hpre].
  rewrite !Hpre by (by apply log_name_ok). destruct Hd as [Hd _], Hd' as [Hd' _].
  assert (forall d0 i, exists r, (name (pre +:+ "events-" +:+ d0 +:+ ".jsonl") i = pre +:+ "events-" +:+ d0 +:+ r)%string) as Hname.
  { intros d0 i. unfold name, backupPath. case_bool_decide; [by eexists|]. rewrite !append_assoc. by eexists. }
  destruct (Hname d k) as [r ->], (Hname d' k') as [r' ->]. intros E.
  apply append_inv_len in E as [_ E]; [|done]. apply append_inv_len in E as [_ E]; [|done].
  by apply append_inv_len in E as [-> _]; [|by rewrite Hd, Hd'].
Qed.

Definition day_shows (j : JSONLWriter) (d : string) (f : fs) (l : option (list string)) : Prop :=
  let mb := Z.to_nat (maxBackups j) in
  match l with
  | Some l => exists h, shows (pathForDate d j) mb f h "" l
  | None => forall k, (k <= mb)%nat -> dir f !! name (pathForDate d j) k = None
  end.

Lemma day_frame j d d' f f' l : valid d -> valid d' -> d <> d' ->
  changes (pathForDate d j) (Z.to_nat (maxBackups j)) f f' -> day_shows j d' f l -> day_shows j d' f' l.
Proof.
  intros Hd Hd' Hne [Hwf Hc].
  assert (forall k k', name (pathForDate d' j) k <> name (pathForDate d j) k') as Hap.
  { intros k k' E. by apply days_apart in E. }
  unfold day_shows. destruct l as [l|].
  - intros [h Hs]. exists h. eapply shows_frame; [exact Hs|exact Hwf| |].
    + intros k Hk. by apply Hc.
    + intros k i Hk. by apply Hc.
  - intros Hn k Hk. rewrite (proj1 (Hc _ (fun k' _ => Hap k k'))). by apply Hn.
Qed.

Definition is_open (j : JSONLWriter) (d : string) : Prop := file j <> None /\ currentDate j = d.

(** The current day, and the others. *)
Record jstands (j : JSONLWriter) (w : world) (logs : gmap string (list string)) : Prop := {
  js_quiet : faults w = [];
  js_wf : wf (files w);
  js_open : closed j = false;
  js_current : (file j = None /\ buf j = None) \/
    exists h pend l, valid (currentDate j) /\ file j = Some h /\ buf j = Some (mkBuf h pend None) /\
      len pend <= bufferSize /\ logs !! currentDate j = Some l /\ size j = len (hd ""%string l) /\
      shows (pathForDate (currentDate j) j) (Z.to_nat (maxBackups j)) (files w) h pend l;
  js_days : forall d, valid d -> ~ is_open j d -> day_shows j d (files w) (logs !! d);
}.

Definition same_config (j j' : JSONLWriter) : Prop :=
  j_dir j' = j_dir j /\ maxSize j' = maxSize j /\ maxBackups j' = maxBackups j.

(** The day's log after opening it. *)
Definition opened (logs : gmap string (list string)) (d : string) : gmap string (list string) :=
  <[d := default [""%string] (logs !! d)]> logs.

(** Closing the current file leaves all days on disk. *)
Lemma close_current j f logs : jstands j (mkWorld f []) logs -> file j <> None ->
  exists b f', flush_opt (buf j) (mkWorld f []) = (b, mkWorld f' []) /\ wf f' /\
    forall d, valid d -> day_shows j d f' (logs !! d).
Proof.
  intros [_ Hwf Ho [[Hf _]|(h & pd & l & Hv & Hf & Hb & Hpd & Hl & Hsz & Hs)] Hdays] Hne; [done|]. simpl in *.
  rewrite Hb. simpl. destruct (buf_flush_quiet (mkBuf h pd None) f eq_refl) as (f' & -> & Ha). simpl in Ha.
  eexists _, f'. split; [done|].
  assert (changes (pathForDate (currentDate j) j) (Z.to_nat (maxBackups j)) f f') as Hch
    by (eapply changes_appended; [done|apply Hs|done]).
  split; [apply Hch|]. intros d Hd. destruct (decide (d = currentDate j)) as [->|Hdne].
  - rewrite Hl. exists h. by eapply shows_flush.
  - eapply day_frame; [exact Hv|exact Hd|done|exact Hch|]. apply Hdays; [done|]. by intros [_ ?].
Qed.

Lemma ensureFile_stands d j w logs : valid d -> jstands j w logs ->
  exists j' w', ensureFile d j w = (j', None, w') /\ jstands j' w' (opened logs d) /\
    same_config j j' /\ is_open j' d.
Proof.
  intros Hd Hst. unfold ensureFile. case_bool_decide as Hcur.
  { destruct Hcur as [<- Hf]. exists j, w. split; [done|]. split; [|by split; [|split]].
    destruct Hst as [? ? ? [[Hn _]|(h & pd & l & Hv & ? & ? & ? & Hl & ? & ?)] ?]; [done|].
    unfold opened. rewrite Hl. simpl. rewrite insert_id by done. split; try done. right. by exists h, pd, l. }
  destruct w as [f fl]. pose proof (js_quiet _ _ _ Hst) as Hq. simpl in Hq. subst fl.
  assert (exists j1 f1, (match file j with
      | Some _ => let (_, wf) := flush_opt (buf j) (mkWorld f []) in (set_file None None (size j) j, snd (Files.Close wf))
      | None => (j, mkWorld f [])
      end) = (j1, mkWorld f1 []) /\ wf f1 /\ same_config j j1 /\ closed j1 = false /\
      forall d, valid d -> day_shows j d f1 (logs !! d)) as (j1 & f1 & -> & Hwf1 & Hcfg & Ho1 & Hdays1).
  { pose proof (js_open _ _ _ Hst). destruct (file j) eqn:Ef.
    - destruct (close_current j f logs Hst) as (b & f' & -> & Hwf' & Hdays); [congruence|].
      eexists _, f'. split; [reflexivity|]. split; [done|]. split; [done|]. done.
    - exists j, f. split; [done|]. split; [apply Hst|]. split; [done|]. split; [done|].
      intros d' Hd'. apply Hst; [done|]. by intros [? _]. }
  set (l := default [""%string] (logs !! d)).
  assert (forall d, pathForDate d j1 = pathForDate d j) as Hpath by (intros d'; unfold pathForDate; by rewrite (proj1 Hcfg)).
  assert (found (pathForDate d j1) (Z.to_nat (maxBackups j)) f1 l) as Hfound.
  { split; [done|]. specialize (Hdays1 d Hd). rewrite Hpath. unfold l, day_shows in *.
    destruct (logs !! d) as [l0|]; [right; done|left; done]. }
  destruct (found_open _ _ _ _ Hfound) as (h & f2 & Hop & Hs & Hdir & Hcont).
  unfold MkdirAll, Files.Close, os_call. cbn [faults files]. rewrite Hop. unfold Size, os_call. cbn [faults files].
  eexists _, _. split; [reflexivity|].
  assert (changes (pathForDate d j) (Z.to_nat (maxBackups j)) f1 f2) as Hch.
  { split; [apply Hs|]. intros x Hx. split; [|by apply Hcont]. apply Hdir. rewrite Hpath. apply (Hx 0%nat). lia. }
  split; [|split; [exact Hcfg|by split]].
  assert (Z.to_nat (maxBackups j1) = Z.to_nat (maxBackups j)) as Emb by (by destruct Hcfg as (_ & _ & ->)).
  split; simpl; try done.
  - apply Hs.
  - right. exists h, ""%string, l. split; [done|]. do 2 (split; [done|]). split; [unfold len, bufferSize; simpl; lia|].
    split; [apply lookup_insert_eq|]. unfold set_date, set_file, pathForDate in *. simpl. rewrite Emb. split; [|exact Hs].
    pose proof (sh_head _ _ _ _ _ _ Hs) as Hh. rewrite append_empty in Hh.
    destruct l as [|c l0]; [done|]. injection Hh as <-. done.
  - intros d' Hd' Hno. unfold opened. assert (d <> d') as Hne by (intros ->; by apply Hno; split).
    rewrite lookup_insert_ne by done.
    pose proof (day_frame j d d' f1 f2 (logs !! d') Hd Hd' Hne Hch (Hdays1 d' Hd')) as H.
    unfold day_shows, pathForDate in *. simpl. rewrite Emb. rewrite (proj1 Hcfg). exact H.
Qed.

(** A line at the end of the current file. *)
Lemma write_line_stands line j w logs d c rest :
  valid d -> jstands j w logs -> is_open j d -> logs !! d = Some (c :: rest) ->
  len c + len line <= max_int64 ->
  exists j' w', write_line line j w = (j', None, w') /\ same_config j j' /\
    jstands j' w' (<[d := (c +:+ line)%string :: rest]> logs).
Proof.
  intros Hd [Hq Hwf Ho [[? _]|(h & pd & l & Hv & Hf & Hb & Hpd & Hl & Hsz & Hs)] Hdays] [Hne <-] El Hfit; [done|].
  rewrite El in Hl. injection Hl as <-. cbn [hd] in Hsz. destruct w as [f fl]. simpl in *. subst fl.
  unfold write_line. rewrite Hb.
  destruct (buf_write_quiet line (mkBuf h pd None) f eq_refl Hpd) as (dd & pd' & f' & -> & Ha & E & Hpd').
  simpl in *. eexists _, _. split; [reflexivity|]. split; [done|].
  assert (forall x, 0 <= len x) as Hnn by (intros x; apply Nat2Z.is_nonneg).
  assert (changes (pathForDate (currentDate j) j) (Z.to_nat (maxBackups j)) f f') as Hch
    by (eapply changes_appended; [done|apply Hs|done]).
  split; simpl; try done.
  - apply Hch.
  - right. exists h, pd', ((c +:+ line)%string :: rest). split; [done|]. do 2 (split; [done|]). split; [done|].
    split; [apply lookup_insert_eq|]. split.
    + simpl. rewrite Hsz. rewrite add64_id by (pose proof (Hnn c); pose proof (Hnn line); unfold len in *; int64_lia).
      unfold len. rewrite length_append. lia.
    + exact (shows_append _ _ _ _ _ _ _ line dd pd' Hs Ha E).
  - intros d' Hd' Hno. assert (currentDate j <> d') as Hne' by (intros E'; apply Hno; by split; [simpl; congruence|]).
    rewrite lookup_insert_ne by done.
    exact (day_frame j (currentDate j) d' f f' (logs !! d') Hd Hd' Hne' Hch (Hdays d' Hd' (fun H => Hne' (proj2 H)))).
Qed.

Lemma rotate_stands j w logs d l :
  1 <= maxBackups j -> valid d -> jstands j w logs -> is_open j d -> logs !! d = Some l ->
  exists j' w', rotate j w = (j', None, w') /\ same_config j j' /\ is_open j' d /\
    jstands j' w' (<[d := ""%string :: take (Z.to_nat (maxBackups j)) l]> logs).
Proof.
  intros HB Hd [Hq Hwf Ho [[? _]|(h & pd & l0 & Hv & Hf & Hb & Hpd & Hl & Hsz & Hs)] Hdays] [Hne <-] El; [done|].
  rewrite El in Hl. injection Hl as <-. destruct w as [f fl]. simpl in *. subst fl.
  unfold rotate. rewrite Hb, Hf. simpl. destruct (buf_flush_quiet (mkBuf h pd None) f eq_refl) as (f0 & -> & Ha). simpl in Ha.
  pose proof (shows_flush _ _ _ _ _ _ _ Hs Ha) as Hs0.
  destruct (shows_rotate _ (Z.to_nat (maxBackups j)) _ _ _ rename_failed ltac:(lia) Hs0) as (f1 & f2 & h2 & -> & -> & Hs2 & Hdir & Hcont).
  unfold Files.Close, os_call. simpl. eexists _, _. split; [reflexivity|]. split; [done|]. split; [by split|].
  assert (changes (pathForDate (currentDate j) j) (Z.to_nat (maxBackups j)) f f2) as Hch.
  { eapply changes_trans; [eapply changes_appended; [exact Hwf|apply Hs|exact Ha]|].
    split; [apply Hs2|]. intros x Hx. split; [by apply Hdir|]. intros i. apply Hcont. }
  split; simpl; try done.
  - apply Hch.
  - right. exists h2, ""%string, (""%string :: take (Z.to_nat (maxBackups j)) l).
    split; [done|]. do 2 (split; [done|]). split; [unfold len, bufferSize; simpl; lia|].
    split; [apply lookup_insert_eq|]. split; [done|exact Hs2].
  - intros d' Hd' Hno. assert (currentDate j <> d') as Hne' by (intros E'; apply Hno; by split; [simpl; congruence|]).
    rewrite lookup_insert_ne by done.
    exact (day_frame j (currentDate j) d' f f2 (logs !! d') Hd Hd' Hne' Hch (Hdays d' Hd' (fun H => Hne' (proj2 H)))).
Qed.

Lemma write_event_stands e j w logs :
  1 <= maxBackups j -> valid (date_of e) -> jstands j w logs ->
  (forall t, Marshal e = Ok t ->
     len (hd ""%string (default [""%string] (logs !! date_of e))) + len (t +:+ LF) <= max_int64) ->
  exists j' err w', Write e j w = (j', err, w') /\ same_config j j' /\
    jstands j' w' (day_write (maxSize j) (Z.to_nat (maxBackups j)) logs e) /\
    (err = None <-> exists t, Marshal e = Ok t).
Proof.
  intros HB Hd Hst Hfit. unfold Write, day_write. destruct (Marshal e) as [t|er] eqn:Em.
  2: { eexists _, _, _. split; [reflexivity|]. split; [done|]. split; [exact Hst|]. split; [done|by intros [? ?]]. }
  specialize (Hfit t eq_refl). set (line := t +:+ LF) in *. set (d := date_of e) in *.
  rewrite (js_open _ _ _ Hst).
  destruct (ensureFile_stands d j w logs Hd Hst) as (j1 & w1 & -> & Hst1 & Hcfg & Hop).
  set (l := default [""%string] (logs !! d)) in *.
  assert (opened logs d !! d = Some l) as El by apply lookup_insert_eq.
  assert (exists c rest, l = c :: rest) as (c & rest & Ecr).
  { destruct (js_current _ _ _ Hst1) as [[? _]|(h & pd & l0 & _ & _ & _ & _ & Hl0 & _ & Hs)]; [by destruct Hop|].
    rewrite (proj2 Hop), El in Hl0. injection Hl0 as <-. destruct l as [|c rest]; [by destruct Hs|eauto]. }
  assert (size j1 = len c) as Hsz.
  { destruct (js_current _ _ _ Hst1) as [[? _]|(h & pd & l0 & _ & _ & _ & _ & Hl0 & Hz & Hs)]; [by destruct Hop|].
    rewrite (proj2 Hop), El in Hl0. injection Hl0 as <-. by rewrite Ecr in Hz. }
  destruct Hcfg as (Hdir & Hmx & Hmb). rewrite Ecr in Hfit, El. cbn [hd] in Hfit.
  assert (forall x, 0 <= len x) as Hnn by (intros x; apply Nat2Z.is_nonneg).
  rewrite Hmx, Hsz. change (len line) with (len line).
  rewrite add64_id by (pose proof (Hnn c); pose proof (Hnn line); int64_lia).
  assert (forall j' w' l', same_config j1 j' -> jstands j' w' (<[d := l']> (opened logs d)) ->
    same_config j j' /\ jstands j' w' (<[d := l']> logs) /\ (@None goerror = None <-> exists t0, Ok t = Ok t0)) as Hdone.
  { intros j' w' l' (E1 & E2 & E3) Hst'. unfold opened in Hst'. rewrite insert_insert_eq in Hst'.
    split; [split_and!; congruence|]. split; [exact Hst'|]. split; eauto. }
  rewrite Ecr. unfold log_write. destruct (_ && _) eqn:Erot.
  - destruct (rotate_stands j1 w1 (opened logs d) d (c :: rest) ltac:(lia) Hd Hst1 Hop El) as (j2 & w2 & -> & Hcfg2 & Hop2 & Hst2).
    destruct (write_line_stands line j2 w2 _ d ""%string (take (Z.to_nat (maxBackups j1)) (c :: rest)) Hd Hst2 Hop2) as
      (j3 & w3 & -> & Hcfg3 & Hst3); [apply lookup_insert_eq|pose proof (Hnn c); unfold len in *; simpl; lia|].
    eexists _, _, _. split; [reflexivity|]. rewrite insert_insert_eq, append_nil_l, Hmb in Hst3. apply Hdone; [|exact Hst3].
    destruct Hcfg2 as (? & ? & ?), Hcfg3 as (? & ? & ?). split_and!; congruence.
  - destruct (write_line_stands line j1 w1 _ d c rest Hd Hst1 Hop El Hfit) as (j3 & w3 & -> & Hcfg3 & Hst3).
    eexists _, _, _. split; [reflexivity|]. apply Hdone; [done|exact Hst3].
Qed.

Fixpoint write_all (es : list Event) (j : JSONLWriter) (w : world) : JSONLWriter * world :=
  match es with
  | [] => (j, w)
  | e :: es' => let '(j1, _, w1) := Write e j w in write_all es' j1 w1
  end.

(** The lines of a day, in the order of the events. *)
Definition line_of (e : Event) : string := match Marshal e with Ok t => t +:+ LF | Err _ => "" end.
Definition day_text (d : string) (es : list Event) : string :=
  concat_all (map line_of (filter (fun e => date_of e = d) es)).

Definition lines_len (es : list Event) : Z := foldr (fun e n => len (line_of e) + n) 0 es.

Lemma day_write_hd mx mb logs e d B :
  (forall d, len (hd ""%string (default [""%string] (logs !! d))) <= B) ->
  len (hd ""%string (default [""%string] (day_write mx mb logs e !! d))) <= B + len (line_of e).
Proof.
  intros HB. unfold day_write, line_of. destruct (Marshal e) as [t|]; [|specialize (HB d); unfold len in *; simpl; lia].
  specialize (HB d). destruct (decide (date_of e = d)) as [->|Hne].
  - rewrite lookup_insert_eq. simpl. pose proof (log_write_hd mx mb (default [""%string] (logs !! d)) (t +:+ LF)). lia.
  - rewrite lookup_insert_ne by done. unfold len in *. lia.
Qed.

Lemma write_all_stands es j w logs B :
  1 <= maxBackups j -> Forall (fun e => valid (date_of e)) es -> jstands j w logs ->
  (forall d, len (hd ""%string (default [""%string] (logs !! d))) <= B) -> B + lines_len es <= max_int64 ->
  same_config j (write_all es j w).1 /\
  jstands (write_all es j w).1 (write_all es j w).2
    (foldl (day_write (maxSize j) (Z.to_nat (maxBackups j))) logs es).
Proof.
  revert j w logs B. induction es as [|e es IH]; intros j w logs B HB HF Hst Hhd Hfit; [done|].
  inversion HF as [|? ? Hv HF']; subst. cbn [lines_len foldr] in Hfit. fold (lines_len es) in Hfit.
  assert (0 <= lines_len es) as Hnn.
  { clear. induction es as [|e es IH]; simpl; [done|]. unfold len in *. lia. }
  destruct (write_event_stands e j w logs HB Hv Hst) as (j1 & err & w1 & E & (Ed & Em & Eb) & Hst1 & _).
  { intros t Et. specialize (Hhd (date_of e)). unfold line_of in Hfit. rewrite Et in Hfit. lia. }
  simpl. rewrite E. destruct (IH j1 w1 _ (B + len (line_of e)) ltac:(lia) HF' Hst1) as [(E1 & E2 & E3) Hend].
  - intros d. by apply day_write_hd.
  - lia.
  - rewrite Em, Eb in Hend. split; [split_and!; congruence|exact Hend].
Qed.

Lemma day_writes_suffix mx mb es logs d :
  exists dropped, (text (default [""%string] (logs !! d)) +:+ day_text d es =
    dropped +:+ text (default [""%string] (foldl (day_write mx mb) logs es !! d)))%string.
Proof.
  revert logs. induction es as [|e es IH]; intros logs; simpl; [exists ""%string; apply append_empty|].
  destruct (IH (day_write mx mb logs e)) as [dr Hdr]. unfold day_text in *. rewrite filter_cons.
  unfold day_write in *. case_decide as Hd.
  - subst d. cbn [map]. rewrite concat_all_cons. unfold line_of at 1. destruct (Marshal e) as [t|]; [|exists dr; by rewrite append_nil_l].
    rewrite lookup_insert_eq in Hdr. simpl in Hdr.
    destruct (log_write_suffix mx mb (default [""%string] (logs !! date_of e)) (t +:+ LF)) as [d0 H0].
    exists (d0 +:+ dr). by rewrite <- append_assoc, H0, !append_assoc, Hdr.
  - destruct (Marshal e) as [t|]; [|by exists dr]. rewrite lookup_insert_ne in Hdr by done. by exists dr.
Qed.

(** After any events and [Close], the files of every day are those of its
    abstract log. *)
Lemma close_days dir mx mb f logs es B :
  1 <= mb -> wf f -> Forall (fun e => valid (date_of e)) es ->
  (forall d, valid d -> day_shows (NewJSONLWriter dir mx mb) d f (logs !! d)) ->
  (forall d, len (hd ""%string (default [""%string] (logs !! d))) <= B) -> B + lines_len es <= max_int64 ->
  let '(j, w) := write_all es (NewJSONLWriter dir mx mb) (mkWorld f []) in
  let '(_, err, w') := Close_ j w in
  err = None /\
  forall d, valid d ->
    day_shows (NewJSONLWriter dir mx mb) d (files w') (foldl (day_write mx (Z.to_nat mb)) logs es !! d).
Proof.
  intros HB Hwf HF Hdays Hhd Hfit. set (j0 := NewJSONLWriter dir mx mb) in *.
  assert (jstands j0 (mkWorld f []) logs) as Hst0.
  { split; try done; [by left|]. intros d Hd _. by apply Hdays. }
  destruct (write_all_stands es j0 (mkWorld f []) logs B HB HF Hst0 Hhd Hfit) as [(Ed & Em & Eb) Hst].
  destruct (write_all es j0 (mkWorld f [])) as [j [f1 fl]]. simpl in *.
  pose proof (js_quiet _ _ _ Hst) as Hq. simpl in Hq. subst fl.
  unfold Close_. rewrite (js_open _ _ _ Hst). simpl.
  assert (forall f' d, day_shows j d f' (foldl (day_write mx (Z.to_nat mb)) logs es !! d) ->
    day_shows j0 d f' (foldl (day_write mx (Z.to_nat mb)) logs es !! d)) as Hcfg.
  { intros f' d. unfold day_shows, pathForDate. rewrite Ed, Eb. done. }
  destruct (js_current _ _ _ Hst) as [[Hf Hb]|(h & pd & l & _ & Hf & Hb & _)].
  - rewrite Hb, Hf. simpl. split; [done|]. intros d Hd. apply Hcfg.
    apply (js_days _ _ _ Hst); [done|]. by intros [? _].
  - destruct (close_current j f1 _ Hst ltac:(congruence)) as (b & f' & Efl & _ & Hall).
    rewrite Hb in Efl |- *. simpl in Efl |- *.
    destruct (buf_flush_quiet (mkBuf h pd None) f1 eq_refl) as (f2 & Efl2 & _). rewrite Efl2 in Efl |- *.
    injection Efl as _ <-. simpl. rewrite Hf. unfold Files.Close, os_call. simpl. split; [done|].
    intros d Hd. apply Hcfg. by apply Hall.
Qed.

(** C20. The event log refines one abstract log per day: after any events, in
    whatever order their days come, and [Close], the files of every day on disk
    are those of the day's abstract log, nothing left in the buffer. So no
    event's line is split over two files, and what a day's files hold is the end
    of the day's lines in the order they were written. *)
Theorem jsonl_refines_logs dir mx mb f logs es B :
  1 <= mb -> wf f -> Forall (fun e => valid (date_of e)) es ->
  (forall d, valid d -> day_shows (NewJSONLWriter dir mx mb) d f (logs !! d)) ->
  (forall d, len (hd ""%string (default [""%string] (logs !! d))) <= B) -> B + lines_len es <= max_int64 ->
  let '(j, w) := write_all es (NewJSONLWriter dir mx mb) (mkWorld f []) in
  let '(_, err, w') := Close_ j w in
  err = None /\
  forall d, valid d ->
    day_shows (NewJSONLWriter dir mx mb) d (files w') (foldl (day_write mx (Z.to_nat mb)) logs es !! d) /\
    exists dropped, (text (default [""%string] (logs !! d)) +:+ day_text d es =
      dropped +:+ text (default [""%string] (foldl (day_write mx (Z.to_nat mb)) logs es !! d)))%string.
Proof.
  intros HB Hwf HF Hdays Hhd Hfit. pose proof (close_days dir mx mb f logs es B HB Hwf HF Hdays Hhd Hfit) as H.
  destruct (write_all es (NewJSONLWriter dir mx mb) (mkWorld f [])) as [j w]. destruct (Close_ j w) as [[j' err] w'].
  destruct H as [He Hd]. split; [done|]. intros d Hv. split; [by apply Hd|apply day_writes_suffix].
Qed.
End writer.

(** ** Example: two days, out of order, in a fresh directory *)
Definition slash_join (dir n : string) : string := dir +:+ "/" +:+ n.
Definition demo_events : list (string * string) :=
  [("2026-01-01", "a1"); ("2026-01-02", "b1"); ("2026-01-01", "a2")]%string.
Definition demo_logs : gmap string (list string) :=
  foldl (day_write (fun e => Ok e.2) fst 4 (Z.to_nat 2)) ∅ demo_events.

Example demo_logs_files :
  demo_logs !! "2026-01-01"%string = Some ["a2" +:+ LF; "a1" +:+ LF]%string /\
  demo_logs !! "2026-01-02"%string = Some ["b1" +:+ LF]%string.
Proof. split; vm_compute; reflexivity. Qed.

Lemma jsonl_refines_logs_witness :
  let '(j, w) := write_all slash_join (fun e => Ok e.2) fst demo_events (NewJSONLWriter "ev" 4 2) (mkWorld empty_fs []) in
  let '(_, err, w') := Close_ j w in
  err = None /\
  day_shows slash_join (NewJSONLWriter "ev" 4 2) "2026-01-01" (files w') (demo_logs !! "2026-01-01"%string).
Proof.
  pose proof (jsonl_refines_logs slash_join (fun e : string * string => Ok e.2) fst
    (fun dir => ex_intro (fun pre => forall n, _ -> _ -> slash_join dir n = (pre +:+ n)%string) (dir +:+ "/")%string
       (fun n _ _ => eq_sym (append_assoc dir "/" n)))
    "ev" 4 2 empty_fs ∅ demo_events 0 ltac:(lia) empty_fs_wf) as H.
  assert (Forall (fun e => valid e.1) demo_events) as HF by (repeat constructor).
  specialize (H HF (fun d _ => fun k _ => lookup_empty _)
    (fun d => ltac:(rewrite lookup_empty; vm_compute; discriminate)) ltac:(vm_compute; discriminate)).
  destruct (write_all slash_join (fun e => Ok e.2) fst demo_events (NewJSONLWriter "ev" 4 2) (mkWorld empty_fs []))
    as [j w]. destruct (Close_ j w) as [[j' err] w']. destruct H as [He Hd].
  split; [exact He|]. exact (proj1 (Hd "2026-01-01"%string (conj eq_refl eq_refl))).
Defined.
End Jsonl.
