(* ===== verification/WorktreeLock.v ===== *)
(** * WorktreeLock: one agent per worktree, [internal/cli/lock.go] and
    [internal/lockfile/process_unix.go]

    The lock file of a worktree: where it is ([ResolveLockDir]), what its
    readers and writers do with its contents, its status line, and the system of
    processes that acquire, release and inherit it, one system call at a time.
    The JSON text is used through [JsonCodec]; cleaning and joining of paths and
    the printing of durations are parameters. *)
From S2P Require Import Prelude.
Local Open Scope Z_scope.
Local Open Scope go_scope.

Module Lock.

Definition StateActive : string := "active".
Definition StateIdle : string := "idle".

(** [TaskStartedAt] is [None] for the zero time. *)
Record LockInfo := mkInfo {
  PID : Z;
  Command : string;
  StartedAt : Z;
  AgentName : string;
  TaskID : string;
  TaskTitle : string;
  TaskStartedAt : option Z;
  State : string;
  Workspace : string;
}.

#[export] Instance LockInfo_eq_dec : EqDecision LockInfo.
Proof. solve_decision. Defined.

(** ** Where the lock is *)
Record RepoConfig := mkRepo { repo_Path : string }.
Record WorkspaceConfig := mkWorkspace { ws_Path : string; Repos : list RepoConfig }.

Section resolve.
Context (Clean : string -> string) (IsAbs : string -> bool) (Join : string -> string -> string).

(** [p] is [root] or below it. *)
Definition under (p root : string) : bool := bool_decide (p = root) || has_prefix p (root +:+ "/").

Definition repo_matches (cleanPath wsPath : string) (repo : RepoConfig) : bool :=
  if bool_decide (repo_Path repo = ""%string) then false
  else
    let repoPath := if IsAbs (repo_Path repo) then repo_Path repo else Join wsPath (repo_Path repo) in
    under cleanPath (Clean repoPath).

Definition ws_matches (cleanPath : string) (ws : WorkspaceConfig) : bool :=
  if bool_decide (ws_Path ws = ""%string) then false
  else
    let wsPath := Clean (ws_Path ws) in
    under cleanPath wsPath || existsb (repo_matches cleanPath wsPath) (Repos ws).

(** The configuration is [None] when it cannot be loaded; its workspaces, a Go
    map, come in any order. *)
Definition first_match (cfg : option (list (string * WorkspaceConfig))) (path : string)
  : option (string * WorkspaceConfig) :=
  match cfg with
  | None => None
  | Some workspaces => List.find (fun e => ws_matches (Clean path) e.2) workspaces
  end.

Definition ResolveLockDir (cfg : option (list (string * WorkspaceConfig))) (path : string) : string :=
  match first_match cfg path with Some (_, ws) => Clean (ws_Path ws) | None => path end.

Definition resolveWorkspaceName (cfg : option (list (string * WorkspaceConfig))) (path : string) : string :=
  match first_match cfg path with Some (name, _) => name | None => ""%string end.

Lemma first_match_Some ws path e :
  first_match (Some ws) path = Some e -> e ∈ ws /\ ws_matches (Clean path) e.2 = true.
Proof. intros E%List.find_some. destruct E as [Hin Hm]. split; [by apply list_elem_of_In|done]. Qed.

Lemma first_match_None ws path :
  first_match (Some ws) path = None <-> forall e, e ∈ ws -> ws_matches (Clean path) e.2 = false.
Proof.
  split; intros H.
  - intros e He%list_elem_of_In. exact (List.find_none _ _ H e He).
  - simpl. destruct (List.find _ ws) as [e|] eqn:E; [|done]. apply List.find_some in E as [Hin%list_elem_of_In Hm].
    by rewrite H in Hm.
Qed.

(** Where the lock of a path is, for every order in which Go runs through the
    map of workspaces: if no workspace contains the path, at the path; if all
    that contain it have the same clean path, there, so that everything in the
    workspace shares one lock; and if two that contain it (one nested in the
    other, or sharing a repository) have different paths, it depends on the
    order: there is one of the orders for each of the two directories. *)
Theorem lock_dir_functional ws path :
  ((forall e, e ∈ ws -> ws_matches (Clean path) e.2 = false) -> ResolveLockDir (Some ws) path = path) /\
  (forall e D, e ∈ ws -> ws_matches (Clean path) e.2 = true ->
     ((forall e', e' ∈ ws -> ws_matches (Clean path) e'.2 = true -> Clean (ws_Path e'.2) = D) <->
      forall l, l ≡ₚ ws -> ResolveLockDir (Some l) path = D)) /\
  (forall e, e ∈ ws -> ws_matches (Clean path) e.2 = true ->
     exists l, l ≡ₚ ws /\ ResolveLockDir (Some l) path = Clean (ws_Path e.2)).
Proof.
  assert (forall e, e ∈ ws -> ws_matches (Clean path) e.2 = true ->
     exists l, l ≡ₚ ws /\ ResolveLockDir (Some l) path = Clean (ws_Path e.2)) as Hany.
  { intros e (l1 & l2 & ->)%list_elem_of_split Hm. exists (e :: l1 ++ l2).
    split; [apply Permutation_middle|]. unfold ResolveLockDir. simpl. rewrite Hm. by destruct e. }
  split_and!; [| |exact Hany].
  - intros H. unfold ResolveLockDir. by rewrite (proj2 (first_match_None ws path) H).
  - intros e D He Hm. split.
    + intros Hall l Hl. unfold ResolveLockDir. destruct (first_match (Some l) path) as [[name w]|] eqn:E.
      * apply first_match_Some in E as [Hin Hw]. apply (Hall (name, w)); [by rewrite <- Hl|done].
      * rewrite (proj1 (first_match_None l path) E) in Hm; [done|by rewrite Hl].
    + intros H e' He' Hm'. destruct (Hany e' He' Hm') as (l & Hl & <-). by apply H.
Qed.
End resolve.

(** ** Reading and writing the file, without interference

    The file is its text, [None] when it does not exist. *)
Section file.
Context {codec : JsonCodec LockInfo} (kill0 : Z -> bool).

(** [syscall.Kill(pid, 0) == nil] *)
Definition IsProcessRunning (pid : Z) : bool := if pid <=? 0 then false else kill0 pid.

(** Other read errors aside. *)
Definition CheckLock (file : option string) : option LockInfo * bool :=
  match file with
  | None => (None, false)
  | Some data =>
      match unmarshal data with
      | None => (None, false)
      | Some info => (Some info, IsProcessRunning (PID info))
      end
  end.

Definition ErrNotExist : goerror := Sentinel "file does not exist".

Definition ReadLockFile (file : option string) : res LockInfo :=
  match file with
  | None => Err ErrNotExist
  | Some data => match unmarshal data with Some info => Ok info | None => Err (Msg "invalid character") end
  end.

(** What the update functions share: read, parse, change, write back. *)
Definition update (file : option string) (f : LockInfo -> res LockInfo) : option string * option goerror :=
  match file with
  | None => (file, Some (Wrapf "no active lock to update: " ErrNotExist ""))
  | Some data =>
      match unmarshal data with
      | None => (file, Some (Wrapf "invalid lock file: " (Msg "invalid character") ""))
      | Some info =>
          match f info with
          | Err e => (file, Some e)
          | Ok info' => (Some (marshal info'), None)
          end
      end
  end.

Definition set_task (taskID taskTitle : string) (started : option Z) (i : LockInfo) : LockInfo :=
  mkInfo (PID i) (Command i) (StartedAt i) (AgentName i) taskID taskTitle started (State i) (Workspace i).
Definition set_state (s : string) (i : LockInfo) : LockInfo :=
  mkInfo (PID i) (Command i) (StartedAt i) (AgentName i) (TaskID i) (TaskTitle i) (TaskStartedAt i) s (Workspace i).

Definition UpdateLockTask (now : Z) (taskID taskTitle : string) (file : option string) : option string * option goerror :=
  update file (fun i => Ok (set_task taskID taskTitle (Some now) i)).

Definition owned (pid : Z) (f : LockInfo -> LockInfo) (i : LockInfo) : res LockInfo :=
  if bool_decide (PID i <> pid)
  then Err (Msg ("lock belongs to different process (PID " +:+ itoa (PID i) +:+ ")"))
  else Ok (f i).

Definition UpdateLockState (pid : Z) (state : string) (file : option string) : option string * option goerror :=
  update file (owned pid (set_state state)).

Definition ClearLockTaskID (pid : Z) (file : option string) : option string * option goerror :=
  update file (owned pid (set_task "" "" None)).

(** The file after it, and the error; [remove_err] is what removing would give. *)
Definition ReleaseLock (pid : Z) (remove_err : option goerror) (file : option string)
  : option string * option goerror :=
  match fst (CheckLock file) with
  | None => (file, None)
  | Some info =>
      if bool_decide (PID info <> pid) then (file, None)
      else match remove_err with Some e => (file, Some e) | None => (None, None) end
  end.

(** ** The status line *)
Definition getTaskStatus (bd_show : string -> res (list string)) (taskID : string) : string :=
  match bd_show taskID with
  | Err _ => ""
  | Ok [] => ""
  | Ok (s :: _) => if bool_decide (s = "review") then "needs_review" else s
  end%string.

(** [fmt] prints a duration, rounded to seconds; [bd_show] gives the statuses in
    the tracker's answer. *)
Definition GetLockStatus (now : Z) (fmt : Z -> string) (bd_show : string -> res (list string)) (file : option string)
  : string :=
  match CheckLock file with
  | (Some info, true) =>
      let since := time_sub now (default (StartedAt info) (TaskStartedAt info)) in
      let line word what := word +:+ what +:+ " (" +:+ fmt since +:+ ")" in
      if bool_decide (State info = StateIdle) then line "idle" ""
      else if bool_decide (TaskID info <> "") then
        let taskStatus := getTaskStatus bd_show (TaskID info) in
        if bool_decide (taskStatus = "closed") then line "done: " (TaskID info)
        else if bool_decide (taskStatus = "needs_review") then
          if bool_decide (Command info = "plan") then line "review: " (TaskID info)
          else line "working: " (TaskID info)
        else if bool_decide (Command info = "plan") then line "planning: " (TaskID info)
        else line "working: " (TaskID info)
      else if bool_decide (Command info = "plan") then line "planning: ..." ""
      else line "working: ..." ""
  | _ => ""
  end%string.

(** ** The life of a lock file between [AcquireLock] and [ReleaseLock] *)
Inductive file_op :=
| OpTask (now : Z) (taskID taskTitle : string)
| OpState (pid : Z) (state : string)
| OpClear (pid : Z)
| OpRelease (pid : Z).

Definition file_exec (op : file_op) (file : option string) : option string * option goerror :=
  match op with
  | OpTask now id title => UpdateLockTask now id title file
  | OpState pid st => UpdateLockState pid st file
  | OpClear pid => ClearLockTaskID pid file
  | OpRelease pid => ReleaseLock pid None file
  end.

(** What it means for the information in the file: the abstract operation. *)
Definition info_exec (op : file_op) (o : option LockInfo) : option LockInfo :=
  match o with
  | None => None
  | Some i =>
      match op with
      | OpTask now id title => Some (set_task id title (Some now) i)
      | OpState pid st => Some (if bool_decide (pid = PID i) then set_state st i else i)
      | OpClear pid => Some (if bool_decide (pid = PID i) then set_task "" "" None i else i)
      | OpRelease pid => if bool_decide (pid = PID i) then None else Some i
      end
  end.

(** Who has the lock. *)
Definition identity (i : LockInfo) : Z * string * Z * string * string :=
  (PID i, Command i, StartedAt i, AgentName i, Workspace i).

Lemma update_info i f : update (Some (marshal i)) f =
  match f i with Err e => (Some (marshal i), Some e) | Ok i' => (Some (marshal i'), None) end.
Proof. unfold update. by rewrite unmarshal_marshal. Qed.

Lemma file_exec_refines op o :
  fst (file_exec op (marshal <$> o)) = marshal <$> info_exec op o /\
  (snd (file_exec op (marshal <$> o)) = None <->
   match op, o with
   | OpRelease _, _ => True
   | _, None => False
   | OpTask _ _ _, Some _ => True
   | (OpState pid _ | OpClear pid), Some i => pid = PID i
   end).
Proof.
  destruct o as [i|]; cbn [fmap option_fmap option_map]; [|by destruct op].
  destruct op as [now id title|pid st|pid|pid]; cbn [file_exec info_exec].
  - unfold UpdateLockTask. by rewrite update_info.
  - unfold UpdateLockState, owned. rewrite update_info. do 2 case_bool_decide; simplify_eq/=; (split; [done|]); naive_solver.
  - unfold ClearLockTaskID, owned. rewrite update_info. do 2 case_bool_decide; simplify_eq/=; (split; [done|]); naive_solver.
  - unfold ReleaseLock, CheckLock. rewrite unmarshal_marshal. cbn [fst].
    do 2 case_bool_decide; simplify_eq/=; done.
Qed.

Lemma file_exec_all ops o :
  foldl (fun f op => fst (file_exec op f)) (marshal <$> o) ops = marshal <$> foldl (fun o op => info_exec op o) o ops.
Proof.
  revert o. induction ops as [|op ops IH]; intros o; simpl; [done|]. rewrite (proj1 (file_exec_refines op o)). apply IH.
Qed.

Lemma info_exec_gone ops : foldl (fun o op => info_exec op o) None ops = None.
Proof. induction ops as [|op ops IH]; [done|exact IH]. Qed.

Lemma info_exec_all ops i :
  match foldl (fun o op => info_exec op o) (Some i) ops with
  | None => OpRelease (PID i) ∈ ops
  | Some i' => (OpRelease (PID i) ∉ ops) /\ identity i' = identity i
  end.
Proof.
  revert i. induction ops as [|op ops IH]; intros i; simpl; [split; [by apply not_elem_of_nil|done]|].
  assert (forall i1, identity i1 = identity i -> op <> OpRelease (PID i) ->
    match foldl (fun o op => info_exec op o) (Some i1) ops with
    | None => OpRelease (PID i) ∈ op :: ops
    | Some i' => (OpRelease (PID i) ∉ op :: ops) /\ identity i' = identity i
    end) as Hkeep.
  { intros i1 Hid Hop. assert (PID i1 = PID i) as HP by (injection Hid as ->; done).
    specialize (IH i1). rewrite HP in IH. destruct (foldl _ (Some i1) ops) as [i'|]; [|by right].
    destruct IH as [Hn ->]. split; [|done]. rewrite not_elem_of_cons. done. }
  destruct op as [now id title|pid st|pid|pid]; simpl.
  - by apply Hkeep.
  - case_bool_decide; by apply Hkeep.
  - case_bool_decide; by apply Hkeep.
  - case_bool_decide as E; [rewrite info_exec_gone, E; by left|]. apply Hkeep; [done|congruence].
Qed.

(** The file refines the information it stands for: whatever is done to it,
    by whom and in whatever order, it holds the text of what the abstract
    operations make of the information; the tasks of an agent may be recorded
    by any process, its state and task only changed and the lock only given
    back by the process that has it, and who has it never changes. *)
Theorem lock_file_refines ops i :
  let file := foldl (fun f op => fst (file_exec op f)) (Some (marshal i)) ops in
  let info := foldl (fun o op => info_exec op o) (Some i) ops in
  file = marshal <$> info /\
  CheckLock file = (info, match info with Some i' => IsProcessRunning (PID i') | None => false end) /\
  (info = None <-> OpRelease (PID i) ∈ ops) /\
  (forall i', info = Some i' -> identity i' = identity i).
Proof.
  cbv zeta. change (Some (marshal i)) with (marshal <$> Some i). rewrite file_exec_all.
  pose proof (info_exec_all ops i) as H. set (info := foldl _ (Some i) ops) in *.
  split; [done|]. split; [destruct info as [i'|]; simpl; [by rewrite unmarshal_marshal|done]|].
  destruct info as [i'|].
  - destruct H as [Hn Hid]. split; [split; [done|by intros ?%Hn]|]. by intros ? [= <-].
  - split; [by split|done].
Qed.

(** A status is shown exactly for a lock whose process runs. *)
Theorem status_iff_running now fmt bd_show file :
  GetLockStatus now fmt bd_show file = ""%string <-> snd (CheckLock file) = false.
Proof.
  unfold GetLockStatus, CheckLock. destruct file as [data|]; [|done]. destruct (unmarshal data) as [info|]; [|done].
  cbn [snd]. destruct (IsProcessRunning (PID info)); [|done]. cbv zeta. split; [|done].
  repeat case_bool_decide; intros E; exfalso; revert E; repeat rewrite append_cons; done.
Qed.
End file.

(** ** Processes around the lock file ([AcquireLock], [acquireLockRetry],
    [ReleaseLock], [CheckLock])

    Every system call is a step. A file is an inode whose contents are [None]
    from its creation until its owner has written it: an empty file does not
    parse and counts as no lock. Process [i] has the process number [i + 1]. *)
Definition maxRetries : nat := 3.
Definition pid_of (i : nat) : Z := Z.of_nat (S i).

(** Where a process is. In [AcquireLock]: before its first creation, and in the
    [k]-th attempt of the loop before reading, before asking whether process [q]
    runs, before removing, before creating; before writing its new file. Then
    holding; in [ReleaseLock] before reading and before removing; ended. *)
Inductive pc :=
| Idle | Trying | Reading (k : nat) | Probing (k : nat) (q : Z) | Removing (k : nat) | Creating (k : nat)
| Writing (ino : nat) | Holding (ino : nat) | Checking (ino : nat) | Deleting (ino : nat) | Gone.

#[export] Instance pc_eq_dec : EqDecision pc.
Proof. solve_decision. Defined.

Record sys := mkSys {
  lock : option nat;
  inodes : list (option Z);
  procs : list pc;
}.

Definition set_proc (i : nat) (t : pc) (s : sys) : sys := mkSys (lock s) (inodes s) (<[i := t]> (procs s)).
Definition set_lock (l : option nat) (s : sys) : sys := mkSys l (inodes s) (procs s).

(** [O_CREATE|O_EXCL]: a new empty file, or [fail] when there is one. *)
Definition create (i : nat) (fail : pc) (s : sys) : sys :=
  match lock s with
  | None => mkSys (Some (length (inodes s))) (inodes s ++ [None]) (<[i := Writing (length (inodes s))]> (procs s))
  | Some _ => set_proc i fail s
  end.

(** What a reader of the lock file finds: its process number. *)
Definition read (s : sys) : option Z := ino ← lock s; mjoin (inodes s !! ino).

Definition runs (s : sys) (q : Z) : bool :=
  existsb (fun j => bool_decide (pid_of j = q /\ procs s !! j <> Some Gone)) (seq 0 (length (procs s))).

Definition next (k : nat) : pc := if (S k <? maxRetries)%nat then Reading (S k) else Idle.

Definition proc_step (i : nat) (s : sys) : option sys :=
  match procs s !! i with
  | Some Trying => Some (create i (Reading 0) s)
  | Some (Reading k) =>
      Some (set_proc i (match read s with Some q => Probing k q | None => Creating k end) s)
  | Some (Probing k q) => Some (set_proc i (if runs s q then Idle else Removing k) s)
  | Some (Removing k) => Some (set_proc i (Creating k) (set_lock None s))
  | Some (Creating k) => Some (create i (next k) s)
  | Some (Writing ino) =>
      Some (mkSys (lock s) (<[ino := Some (pid_of i)]> (inodes s)) (<[i := Holding ino]> (procs s)))
  | Some (Checking ino) =>
      Some (set_proc i (if bool_decide (read s = Some (pid_of i)) then Deleting ino else Idle) s)
  | Some (Deleting _) => Some (set_proc i Idle (set_lock None s))
  | _ => None
  end.

Inductive label := Start | Acquire (i : nat) | Release (i : nat) | Step (i : nat) | End_ (i : nat).

(** A process can end anywhere, by itself or killed. *)
Definition exec (l : label) (s : sys) : option sys :=
  match l with
  | Start => Some (mkSys (lock s) (inodes s) (procs s ++ [Idle]))
  | Acquire i => match procs s !! i with Some Idle => Some (set_proc i Trying s) | _ => None end
  | Release i => match procs s !! i with Some (Holding ino) => Some (set_proc i (Checking ino) s) | _ => None end
  | Step i => proc_step i s
  | End_ i => match procs s !! i with Some Gone | None => None | Some _ => Some (set_proc i Gone s) end
  end.

Definition lock_step (s : sys) (l : label) (s' : sys) : Prop := exec l s = Some s'.
Definition start : sys := mkSys None [] [].

(** The file a process has created and not given back. *)
Definition holds (t : pc) : option nat :=
  match t with Writing ino | Holding ino | Checking ino | Deleting ino => Some ino | _ => None end.
Definition holder (s : sys) (i : nat) : option nat := procs s !! i ≫= holds.

(** ** While no process ends *)
Definition is_end (l : label) : bool := match l with End_ _ => true | _ => false end.

(** The file is there exactly when one process holds it, and names it; what
    others have read is a process; nobody removes. *)
Definition owned_by (s : sys) (i ino : nat) : Prop :=
  lock s = Some ino /\ (ino < length (inodes s))%nat /\ (forall j, j <> i -> holder s j = None) /\
  exists t, procs s !! i = Some t /\ holds t = Some ino /\
    (t = Writing ino -> inodes s !! ino = Some None) /\
    (t <> Writing ino -> inodes s !! ino = Some (Some (pid_of i))).

Definition proc_ok (n : nat) (t : pc) : Prop :=
  match t with Probing _ q => exists j, (j < n)%nat /\ q = pid_of j | Removing _ | Gone => False | _ => True end.

Definition lock_ok (s : sys) : Prop :=
  Forall (proc_ok (length (procs s))) (procs s) /\
  match lock s with
  | None => forall i, holder s i = None
  | Some ino => exists i, owned_by s i ino
  end.

Lemma runs_true s j : Forall (proc_ok (length (procs s))) (procs s) -> (j < length (procs s))%nat ->
  runs s (pid_of j) = true.
Proof.
  intros HF Hj. unfold runs. apply existsb_exists. exists j. split; [apply in_seq; lia|].
  apply bool_decide_eq_true. split; [done|]. intros E.
  apply (Forall_lookup_1 _ _ _ _ HF) in E. done.
Qed.

Lemma holder_set i t s j : (i < length (procs s))%nat ->
  holder (set_proc i t s) j = if decide (j = i) then holds t else holder s j.
Proof.
  intros Hi. unfold holder, set_proc. simpl. case_decide as E; [subst j; by rewrite list_lookup_insert_eq|].
  by rewrite list_lookup_insert_ne.
Qed.

Lemma proc_ok_set i t s : Forall (proc_ok (length (procs s))) (procs s) -> proc_ok (length (procs s)) t ->
  Forall (proc_ok (length (procs (set_proc i t s)))) (procs (set_proc i t s)).
Proof. intros HF Ht. simpl. rewrite length_insert. by apply Forall_insert. Qed.
(** A process that moves on without taking or giving back a file. *)
Lemma set_proc_ok i t0 t s :
  lock_ok s -> procs s !! i = Some t0 -> holds t = holds t0 -> proc_ok (length (procs s)) t ->
  (forall ino, t0 <> Writing ino) -> (forall ino, t <> Writing ino) -> lock_ok (set_proc i t s).
Proof.
  intros [HF Hl] Hi Hh Ht Hw0 Hw. pose proof (lookup_lt_Some _ _ _ Hi) as Hlt.
  assert (forall j, holder (set_proc i t s) j = holder s j) as Hsame.
  { intros j. rewrite holder_set by done. case_decide as E; [|done]. subst j. unfold holder. by rewrite Hi. }
  split; [by apply proc_ok_set|]. change (lock (set_proc i t s)) with (lock s).
  destruct (lock s) as [ino|] eqn:El; [|intros j; by rewrite Hsame].
  destruct Hl as (o & Hlo & Hino & Hothers & to & Hto & Hho & Hc1 & Hc2). exists o. split; [done|]. split; [done|].
  split; [intros j Hj; rewrite Hsame; by apply Hothers|].
  destruct (decide (o = i)) as [->|Hne].
  - assert (to = t0) as -> by congruence. exists t. simpl. rewrite list_lookup_insert_eq by done.
    split; [done|]. split; [congruence|]. split; [by intros E%Hw|]. intros _. apply Hc2, Hw0.
  - exists to. simpl. by rewrite list_lookup_insert_ne.
Qed.

Lemma create_ok i t0 fail s :
  lock_ok s -> procs s !! i = Some t0 -> holds t0 = None -> holds fail = None -> proc_ok (length (procs s)) fail ->
  lock_ok (create i fail s).
Proof.
  intros Hok Hi H0 Hf Hpf. unfold create. destruct (lock s) as [ino|] eqn:El.
  { eapply set_proc_ok; [exact Hok|exact Hi|congruence|exact Hpf| |]; intros x ->; done. }
  destruct Hok as [HF Hl]. rewrite El in Hl. pose proof (lookup_lt_Some _ _ _ Hi) as Hlt. split.
  - simpl. rewrite length_insert. by apply Forall_insert.
  - simpl. exists i. split; [done|]. split; [simpl; rewrite length_app; simpl; lia|]. split.
    + intros j Hj. unfold holder. simpl. rewrite list_lookup_insert_ne by done. apply Hl.
    + exists (Writing (length (inodes s))). simpl. rewrite list_lookup_insert_eq by done. split; [done|]. split; [done|].
      split; [|done]. intros _. by rewrite lookup_app_r, Nat.sub_diag by lia.
Qed.

(** Whoever holds a file is the owner. *)
Lemma holder_owner s i ino : lock_ok s -> holder s i = Some ino -> owned_by s i ino.
Proof.
  intros [_ Hl] Hi. destruct (lock s) as [ino'|]; [|by rewrite Hl in Hi].
  destruct Hl as [o Ho]. pose proof Ho as (Hlo & Hino & Hothers & to & Hto & Hho & Hc).
  destruct (decide (i = o)) as [->|Hne]; [|by rewrite Hothers in Hi].
  unfold holder in Hi. rewrite Hto in Hi. simpl in Hi. rewrite Hho in Hi. injection Hi as ->. done.
Qed.

Lemma read_owner s q : lock_ok s -> read s = Some q -> exists j, (j < length (procs s))%nat /\ q = pid_of j.
Proof.
  intros [_ Hl] Hr. unfold read in Hr. destruct (lock s) as [ino|]; simpl in Hr; [|done].
  destruct Hl as (o & _ & _ & _ & to & Hto & Hho & Hc1 & Hc2). exists o. split; [by eapply lookup_lt_Some|].
  destruct (decide (to = Writing ino)) as [E|E].
  - by rewrite (Hc1 E) in Hr.
  - rewrite (Hc2 E) in Hr. simpl in Hr. by injection Hr.
Qed.

Lemma lock_step_ok s l s' : is_end l = false -> lock_ok s -> lock_step s l s' -> lock_ok s'.
Proof.
  intros Hend Hok E. unfold lock_step in E. destruct l as [|i|i|i|i]; simpl in *; try done.
  - simplify_eq. destruct Hok as [HF Hl]. split; simpl.
    + rewrite length_app. apply Forall_app. split; [|by apply Forall_singleton].
      eapply Forall_impl; [exact HF|]. intros [] Hp; simpl in *; try done. destruct Hp as (j & ? & ?).
      exists j. split; [lia|done].
    + assert (forall j, holder (mkSys (lock s) (inodes s) (procs s ++ [Idle])) j = holder s j) as Hsame.
      { intros j. unfold holder. simpl. destruct (decide (j < length (procs s))%nat); [by rewrite lookup_app_l|].
        rewrite lookup_app_r by lia. rewrite (lookup_ge_None_2 (procs s)) by lia.
        destruct (j - length (procs s))%nat as [|[|]]; done. }
      destruct (lock s) as [ino|]; [|intros j; by rewrite Hsame].
      destruct Hl as (o & Hlo & Hino & Hothers & to & Hto & Hrest). exists o. split; [done|]. split; [done|].
      split; [intros j Hj; rewrite Hsame; by apply Hothers|]. exists to. simpl. split; [|done].
      by apply lookup_app_l_Some.
  - destruct (procs s !! i) as [[]|] eqn:Hi; simplify_eq. by eapply set_proc_ok.
  - destruct (procs s !! i) as [[]|] eqn:Hi; simplify_eq. by eapply set_proc_ok.
  - unfold proc_step in E. destruct (procs s !! i) as [t|] eqn:Hi; [|done].
    pose proof (Forall_lookup_1 _ _ _ _ (proj1 Hok) Hi) as Hpi. pose proof (lookup_lt_Some _ _ _ Hi) as Hlt.
    destruct t; simplify_eq/=; try done.
    + by eapply create_ok.
    + destruct (read s) as [q|] eqn:Hr; [|by eapply set_proc_ok].
      eapply set_proc_ok; try done. by apply read_owner.
    + destruct Hpi as (j & Hj & ->). rewrite runs_true by (done || apply Hok). by eapply set_proc_ok.
    + eapply create_ok; try done; unfold next; by case_match.
    + pose proof (holder_owner s i ino Hok ltac:(unfold holder; by rewrite Hi)) as (Hlo & Hino & Hothers & _).
      destruct Hok as [HF _]. split; simpl; [rewrite length_insert; by apply Forall_insert|]. rewrite Hlo.
      exists i. split; [done|]. split; [simpl; by rewrite length_insert|]. split.
      * intros j Hj. unfold holder. simpl. rewrite list_lookup_insert_ne by done. by apply Hothers.
      * exists (Holding ino). simpl. rewrite list_lookup_insert_eq by done. split; [done|]. split; [done|].
        split; [done|]. intros _. by rewrite list_lookup_insert_eq.
    + pose proof (holder_owner s i ino Hok ltac:(unfold holder; by rewrite Hi)) as (Hlo & _ & _ & t & Ht & _ & _ & Hc).
      unfold read. rewrite Hlo. simpl. rewrite Hc by congruence. simpl. rewrite bool_decide_true by done.
      by eapply (set_proc_ok i _ _ s Hok Hi).
    + pose proof (holder_owner s i ino Hok ltac:(unfold holder; by rewrite Hi)) as (Hlo & _ & Hothers & _).
      destruct Hok as [HF _]. split; simpl; [rewrite length_insert; by apply Forall_insert|].
      intros j. destruct (decide (j = i)) as [->|Hne].
      * unfold holder. simpl. by rewrite list_lookup_insert_eq.
      * unfold holder. simpl. rewrite list_lookup_insert_ne by done. by apply Hothers.
Qed.

Lemma lock_ok_start : lock_ok start.
Proof. split; [constructor|]. intros i. done. Qed.

(** C12. Mutual exclusion, while processes live: in any interleaving of processes
    that acquire and release, none of which ends, at most one holds the lock,
    the lock file is the one it created and nobody removes it under it. *)
Theorem lock_exclusive ls s :
  steps lock_step start ls s -> Forall (fun l => is_end l = false) ls ->
  (forall i j a b, holder s i = Some a -> holder s j = Some b -> i = j) /\
  (forall i a, holder s i = Some a -> lock s = Some a) /\
  (forall i ino, procs s !! i = Some (Holding ino) -> read s = Some (pid_of i)).
Proof.
  intros Hs HF.
  assert (lock_ok s) as Hok.
  { eapply (steps_inv_labels lock_step lock_ok (fun l => is_end l = false)); [|exact HF|exact Hs|exact lock_ok_start].
    intros. by eapply lock_step_ok. }
  split; [|split].
  - intros i j a b Hi Hj. pose proof (holder_owner s i a Hok Hi) as (_ & _ & Hothers & _).
    destruct (decide (j = i)); [done|]. by rewrite Hothers in Hj.
  - intros i a Hi. by destruct (holder_owner s i a Hok Hi).
  - intros i ino Hi. assert (holder s i = Some ino) as Hh by (unfold holder; by rewrite Hi).
    destruct (holder_owner s i ino Hok Hh) as (Hlo & _ & _ & t & Ht & _ & _ & Hc).
    unfold read. rewrite Hlo. simpl. rewrite Hc by congruence. done.
Qed.

(** ** When processes end *)
(** Process 0 dies with the lock; 1 and 2 both find it dead before 1 replaces it. *)
Definition crash_trace : list label :=
  [Start; Start; Start; Acquire 0; Step 0; Step 0; End_ 0] ++
  [Acquire 1; Step 1; Step 1; Step 1] ++ [Acquire 2; Step 2; Step 2; Step 2] ++
  [Step 1; Step 1; Step 1] ++ [Step 2; Step 2; Step 2].

(** Process 0 gives the lock back and ends after 1 has read it and before 1 asks
    whether 0 runs; 2 acquires it in between. *)
Definition handover_trace : list label :=
  [Start; Start; Start; Acquire 0; Step 0; Step 0] ++ [Acquire 1; Step 1; Step 1] ++
  [Release 0; Step 0; Step 0; End_ 0] ++ [Acquire 2; Step 2; Step 2] ++ [Step 1; Step 1; Step 1; Step 1].

(** When processes end, two can hold the lock at once. Two that find the lock
    of a dead process both remove what is there, the second one the new lock of
    the first; and one that has read the lock of a live process, which then
    gives it back and ends, removes the lock of the next, although no process
    ever ended holding it. *)
Theorem stale_lock_two_holders :
  (exists s, steps lock_step start crash_trace s /\
     procs s = [Gone; Holding 1; Holding 2] /\ runs s (pid_of 1) = true /\ runs s (pid_of 2) = true) /\
  (exists s, steps lock_step start handover_trace s /\
     procs s = [Gone; Holding 2; Holding 1] /\ runs s (pid_of 1) = true /\ runs s (pid_of 2) = true).
Proof.
  split; eexists; (split; [apply (exec_all_steps exec); vm_compute; reflexivity|]); split_and!; vm_compute; reflexivity.
Qed.

(** A process killed before it has written leaves an empty file, which is no
    lock for readers and cannot be replaced: everybody else fails. *)
Definition empty_trace : list label :=
  [Start; Start; Acquire 0; Step 0; End_ 0] ++
  [Acquire 1; Step 1] ++ [Step 1; Step 1] ++ [Step 1; Step 1] ++ [Step 1; Step 1].

Theorem unwritten_lock_blocks :
  exists s, steps lock_step start empty_trace s /\ procs s = [Gone; Idle] /\ lock s = Some 0%nat /\ read s = None.
Proof. eexists; (split; [apply (exec_all_steps exec); vm_compute; reflexivity|]); split_and!; vm_compute; reflexivity. Qed.

(** It stays so for ever: nobody ever removes a file that does not parse. *)
Definition blocked (ino : nat) (s : sys) : Prop :=
  lock s = Some ino /\ inodes s !! ino = Some None /\
  Forall (fun t => match t with Idle | Trying | Reading _ | Creating _ | Gone => True | _ => False end) (procs s).

Lemma blocked_step ino s l s' : blocked ino s -> lock_step s l s' -> blocked ino s'.
Proof.
  intros (Hl & Hi & HF) E. unfold lock_step in E.
  assert (forall i t, (match t with Idle | Trying | Reading _ | Creating _ | Gone => True | _ => False end) ->
    blocked ino (set_proc i t s)) as Hset by (intros i t Ht; split_and!; simpl; try done; by apply Forall_insert).
  destruct l as [|i|i|i|i]; simpl in E.
  - simplify_eq/=. split_and!; simpl; try done. apply Forall_app. split; [done|]. by apply Forall_singleton.
  - destruct (procs s !! i) as [[]|]; simplify_eq. by apply (Hset i Trying).
  - destruct (procs s !! i) as [[]|] eqn:Hp; simplify_eq. by apply (Forall_lookup_1 _ _ _ _ HF) in Hp.
  - unfold proc_step in E. destruct (procs s !! i) as [t|] eqn:Hp; [|done].
    apply (Forall_lookup_1 _ _ _ _ HF) in Hp. destruct t; simplify_eq/=; try done.
    + unfold create. rewrite Hl. by apply Hset.
    + unfold read. rewrite Hl. simpl. rewrite Hi. by apply Hset.
    + unfold create. rewrite Hl. apply Hset. unfold next. by destruct (S k <? maxRetries)%nat.
  - destruct (procs s !! i) as [t|] eqn:Hp; [|done].
    assert (s' = set_proc i Gone s) as -> by (destruct t; congruence). by apply Hset.
Qed.

(** A lock file left unwritten by a process that was killed is never
    replaced: from then on no process ever acquires the lock. *)
Theorem unwritten_lock_is_forever ino s ls s' :
  blocked ino s -> steps lock_step s ls s' -> lock s' = Some ino /\ forall i, holder s' i = None.
Proof.
  intros Hb Hs. assert (blocked ino s') as (Hl & _ & HF) by (eapply steps_inv; [intros ? ? ?; apply blocked_step|exact Hs|exact Hb]).
  split; [done|]. intros i. unfold holder. destruct (procs s' !! i) as [t|] eqn:Hp; [|done]. simpl.
  apply (Forall_lookup_1 _ _ _ _ HF) in Hp. by destruct t.
Qed.

(** ** Examples *)
Section examples.
Local Open Scope string_scope.

(** Two workspaces, one inside the other: the order of the map decides. *)
Definition outer_ws : string * WorkspaceConfig := ("outer", mkWorkspace "/src" []).
Definition inner_ws : string * WorkspaceConfig := ("inner", mkWorkspace "/src/inner" [mkRepo "app"]).
Definition rooted (p : string) : bool := has_prefix p "/".
Definition plain_join (a b : string) : string := a +:+ "/" +:+ b.

Example nested_workspaces :
  ResolveLockDir id rooted plain_join (Some [outer_ws; inner_ws]) "/src/inner/app" = "/src" /\
  ResolveLockDir id rooted plain_join (Some [inner_ws; outer_ws]) "/src/inner/app" = "/src/inner".
Proof. split; vm_compute; reflexivity. Qed.

Definition lock_codec : JsonCodec LockInfo := coded
  (fun i => (PID i, Command i, StartedAt i, AgentName i, (TaskID i, TaskTitle i, TaskStartedAt i, State i, Workspace i)))
  (fun '(p, c, st, a, (t, title, ts, s, w)) => mkInfo p c st a t title ts s w) ltac:(by intros []).

Definition some_lock : LockInfo := mkInfo 41 "work" 1000 "w1" "" "" None "" "".
Lemma lock_file_refines_witness :
  foldl (fun f op => fst (@file_exec lock_codec (fun _ => true) op f)) (Some (@marshal _ lock_codec some_lock))
    [OpTask 1010 "bd-1" "Fix"; OpState 42 "idle"; OpRelease 42; OpState 41 "active"] =
  Some (@marshal _ lock_codec (mkInfo 41 "work" 1000 "w1" "bd-1" "Fix" (Some 1010) "active" "")).
Proof.
  exact (proj1 (@lock_file_refines lock_codec (fun _ => true)
    [OpTask 1010 "bd-1" "Fix"; OpState 42 "idle"; OpRelease 42; OpState 41 "active"] some_lock)).
Defined.
End examples.

Lemma unwritten_lock_is_forever_witness :
  let s := default start (exec_all exec [Start; Start; Acquire 0%nat; Step 0%nat; End_ 0%nat] start) in
  blocked 0 s /\ forall s', steps lock_step s [Acquire 1%nat; Step 1%nat; Step 1%nat; Step 1%nat] s' -> holder s' 1 = None.
Proof.
  intros s. assert (blocked 0 s) as Hb.
  { split; [reflexivity|]. split; [reflexivity|]. repeat constructor. }
  split; [exact Hb|]. intros s' Hs. exact (proj2 (unwritten_lock_is_forever 0 s _ s' Hb Hs) 1%nat).
Defined.

Lemma lock_exclusive_witness :
  let ls := [Start; Start; Acquire 0%nat; Acquire 1%nat; Step 0%nat; Step 1%nat; Step 0%nat; Step 1%nat] in
  let s := default start (exec_all exec ls start) in
  holder s 0 = Some 0%nat /\ holder s 1 = None /\ read s = Some 1.
Proof.
  intros ls s. assert (steps lock_step start ls s) as Hs by (apply (exec_all_steps exec); vm_compute; reflexivity).
  pose proof (lock_exclusive ls s Hs ltac:(repeat constructor)) as (_ & _ & H).
  split; [reflexivity|]. split; [reflexivity|]. exact (H 0%nat 0%nat eq_refl).
Defined.
End Lock.
