(* ===== verification/Recovery.v ===== *)
(** * Recovery: what is left of a run that ended, [internal/cli/recover.go],
    [checkpoint.go], and the parts of [daemon_classify.go], [claim.go],
    [complete.go] and [prompts.go] that use them

    The checkpoint of a failed run and its way into the next prompt; the recovery
    of a worktree: its processes, its lock, its tasks and its untracked files. The
    tracker's tool, git and the analysing agent are classes; files are those of
    [Rotation.Files], where every call may fail; the processes of the machine are
    part of the model. *)
From S2P Require Import Prelude Paths Rotation AgentErr WorktreeLock.
Local Open Scope Z_scope.
Local Open Scope go_scope.

Module Recovery.
Import Files Paths Utf8.

(** ** Texts that are cut *)
Definition LF : string := String "010" "".

(** [None] is a slice out of range. *)
Definition cut_notice (diff : string) : string := LF +:+ "... (truncated, full diff was " +:+ itoa (len diff) +:+ " bytes)".
Definition truncateDiff (diff : string) (maxBytes : Z) : option string :=
  if len diff <=? maxBytes then Some diff
  else
    let notice := cut_notice diff in
    if bool_decide (0 <= maxBytes - len notice) then Some (str_take (Z.to_nat (maxBytes - len notice)) diff +:+ notice)
    else None.

(** A byte that does not continue a character of UTF-8. *)
Definition RuneStart (c : ascii) : bool := let n := nat_of_ascii c in negb ((128 <=? n) && (n <? 192))%nat.

(** The loop that steps back to the start of a character; [n] is [max]. *)
Fixpoint char_start (s : string) (n : nat) : nat :=
  match n with
  | O => O
  | S k => match String.get n s with Some c => if RuneStart c then n else char_start s k | None => n end
  end.

Definition truncateUTF8Safe (s : string) (max : nat) : string :=
  if bool_decide (String.length s <= max)%nat then s
  else str_take (char_start s max) s +:+ LF +:+ "... [truncated]".

(** ** Processes

    [pgid]: its process group; [own]: we may signal it; [grace]: after how many
    polls it ends once asked to, [None] if it ignores the request; [ending]: how
    many are left. *)
Record process := mkProcess { pgid : Z; own : bool; grace : option nat; ending : option nat }.

#[export] Instance process_eq_dec : EqDecision process.
Proof. solve_decision. Defined.

Inductive signal := SIGTERM | SIGKILL.
Definition ESRCH : goerror := Sentinel "no such process".
Definition EPERM : goerror := Sentinel "operation not permitted".

Definition deliver (s : signal) (p : process) : process :=
  mkProcess (pgid p) (own p) (grace p)
    (match s with
     | SIGKILL => Some 0%nat
     | SIGTERM => match grace p, ending p with
                  | Some n, Some m => Some (Nat.min n m)
                  | Some n, None => Some n
                  | None, e => e
                  end
     end).

(** [syscall.Kill(-pid, s)] for a positive [pid]: the group of that number, and for
    1 every process but the first. *)
Definition in_group (pid q : Z) (p : process) : bool :=
  if pid =? 1 then negb (q =? 1) else pgid p =? pid.

Definition kill_group (pid : Z) (s : signal) (ps : gmap Z process) : option goerror * gmap Z process :=
  let group := filter (fun e => in_group pid e.1 e.2 = true) (map_to_list ps) in
  if bool_decide (group = []) then (Some ESRCH, ps)
  else if forallb (fun e => negb (own e.2)) group then (Some EPERM, ps)
  else (None, map_imap (fun q p => Some (if in_group pid q p && own p then deliver s p else p)) ps).

(** What a poll's wait brings. *)
Definition tick (ps : gmap Z process) : gmap Z process :=
  omap (fun p => match ending p with
                 | Some O => None
                 | Some (S n) => Some (mkProcess (pgid p) (own p) (grace p) (Some n))
                 | None => Some p
                 end) ps.

Definition kill0 (ps : gmap Z process) (pid : Z) : bool := match ps !! pid with Some p => own p | None => false end.
Definition IsProcessRunning (ps : gmap Z process) : Z -> bool := Lock.IsProcessRunning (kill0 ps).

(** The polls after the request; [true] when the process is gone. *)
Fixpoint wait_exit (polls : nat) (pid : Z) (ps : gmap Z process) : bool * gmap Z process :=
  match polls with
  | O => (false, ps)
  | S n => let ps1 := tick ps in if IsProcessRunning ps1 pid then wait_exit n pid ps1 else (true, ps1)
  end.

Definition killProcess (pid : Z) (ps : gmap Z process) : option goerror * gmap Z process :=
  match kill_group pid SIGTERM ps with
  | (Some e, ps1) => (if bool_decide (e = ESRCH) then None else Some e, ps1)
  | (None, ps1) =>
      match wait_exit 50 pid ps1 with
      | (true, ps2) => (None, ps2)
      | (false, ps2) =>
          let (e, ps3) := kill_group pid SIGKILL ps2 in
          (if bool_decide (e = Some ESRCH) then None else e, ps3)
      end
  end.

(** ** Checkpoints *)
Record Checkpoint := mkCheckpoint {
  cp_AgentName : string;
  cp_TaskID : string;
  cp_EpicID : string;
  cp_GitDiff : string;
  cp_ExitCode : Z;
  cp_ErrorClass : string;
  cp_Timestamp : Z;
}.

#[export] Instance Checkpoint_eq_dec : EqDecision Checkpoint.
Proof. solve_decision. Defined.

Definition CheckpointFileName : string := ".agent.checkpoint.json".
Definition LockFileName : string := ".agent.lock".
Definition maxDiffBytes : Z := 4096.

Definition cp_path (lockDir : string) : string := Join lockDir CheckpointFileName.
Definition tmp_path (lockDir : string) : string := cp_path lockDir +:+ ".tmp".

(** What [json.Marshal] keeps of the texts. *)
Definition coerced (cp : Checkpoint) : Checkpoint :=
  mkCheckpoint (coerce_utf8 (cp_AgentName cp)) (coerce_utf8 (cp_TaskID cp)) (coerce_utf8 (cp_EpicID cp))
    (coerce_utf8 (cp_GitDiff cp)) (cp_ExitCode cp) (coerce_utf8 (cp_ErrorClass cp)) (cp_Timestamp cp).

Section checkpoints.
Context {codec : JsonCodec Checkpoint}.

Definition SaveCheckpoint (lockDir : string) (cp : Checkpoint) (w : world) : option goerror * world :=
  match WriteFile (tmp_path lockDir) (marshal (coerced cp)) w with
  | (Some e, w1) => (Some (Wrapf "failed to write checkpoint tmp: " e ""), w1)
  | (None, w1) =>
      match Rename (tmp_path lockDir) (cp_path lockDir) w1 with
      | (Some e, w2) => (Some (Wrapf "failed to rename checkpoint: " e ""), (Remove (tmp_path lockDir) w2).2)
      | (None, w2) => (None, w2)
      end
  end.

Definition LoadCheckpoint (lockDir : string) (w : world) : res (option Checkpoint) * world :=
  match ReadFile (cp_path lockDir) w with
  | (Err e, w1) => (if bool_decide (e = ErrNotExist) then Ok None else Err (Wrapf "failed to read checkpoint: " e ""), w1)
  | (Ok text, w1) =>
      (match unmarshal text with
       | Some cp => Ok (Some cp)
       | None => Err (Wrapf "failed to parse checkpoint: " (Msg "invalid character") "")
       end, w1)
  end.

Definition ClearCheckpoint (lockDir : string) (w : world) : option goerror * world :=
  match Remove (cp_path lockDir) w with
  | (Some e, w1) => (if bool_decide (e = ErrNotExist) then None else Some (Wrapf "failed to remove checkpoint: " e ""), w1)
  | (None, w1) => (None, w1)
  end.

(** The prompt of the next session; [rfc3339] prints a time. *)
Definition checkpoint_block (rfc3339 : Z -> string) (cp : Checkpoint) : string :=
  LF +:+ LF +:+ "## PREVIOUS ATTEMPT CONTEXT" +:+ LF +:+ LF +:+
  "A previous attempt on task **" +:+ cp_TaskID cp +:+ "** exited with code " +:+ itoa (cp_ExitCode cp) +:+
  (if bool_decide (cp_ErrorClass cp = ""%string) then "" else " (error: " +:+ cp_ErrorClass cp +:+ ")") +:+
  " at " +:+ rfc3339 (cp_Timestamp cp) +:+ "." +:+ LF +:+ LF +:+
  (if bool_decide (cp_GitDiff cp = ""%string) then "The previous attempt made no uncommitted changes." +:+ LF +:+ LF
   else "The previous attempt made these uncommitted changes:" +:+ LF +:+ "```diff" +:+ LF +:+ cp_GitDiff cp +:+
        LF +:+ "```" +:+ LF +:+ LF) +:+
  "**Instructions**: Review the previous changes. If they look correct and complete, continue from where they left off. If they look wrong or incomplete, start fresh. Do NOT blindly re-apply the diff — use it as context to understand what was attempted." +:+ LF.

Definition injectCheckpointContext (rfc3339 : Z -> string) (prompt : string) (cp : Checkpoint) : string :=
  match index_of prompt "### Step 1:" with
  | Some (S n) => str_take (S n) prompt +:+ checkpoint_block rfc3339 cp +:+ LF +:+ str_drop (S n) prompt
  | _ => prompt +:+ checkpoint_block rfc3339 cp
  end.

(** The end of the functions that build prompts; [wtPath] is LOOM_WORKTREE_PATH. *)
Definition with_checkpoint (rfc3339 : Z -> string) (lockDir : string -> string) (wtPath prompt : string) (w : world)
  : string * world :=
  if bool_decide (wtPath = ""%string) then (prompt, w)
  else
    match LoadCheckpoint (lockDir wtPath) w with
    | (Ok (Some cp), w1) => (injectCheckpointContext rfc3339 prompt cp, w1)
    | (_, w1) => (prompt, w1)
    end.
End checkpoints.

(** ** The tools *)

(** The tracker's command line: statuses of the issues [bd show --json] lists,
    [bd update --status open --assignee ''], [bd close], the identifiers that
    [bd list --status in_progress --json] lists for an assignee, and the text of [bd show].
    Commands that fail and answers that cannot be read are errors. *)
Class Beads (T : Type) := {
  bd_statuses : string -> T -> res (list string);
  bd_show : string -> T -> res string;
  bd_in_progress : string -> T -> res (list string);
  bd_reopen : string -> T -> T * option goerror;
  bd_close : string -> string -> T -> T * option goerror;
}.

(** [git diff HEAD], [git clean -fdn], [git clean -fd] in a directory, [git log
    --grep] (its output, whatever its exit code), and the analysing agent. *)
Class GitTools (G : Type) := {
  git_diff : string -> G -> res string;
  git_clean_dry : string -> G -> res string;
  git_clean : string -> G -> G * option goerror;
  git_log : string -> string -> G -> string;
  claude : string -> string -> G -> res string;
}.

Record WorktreeInfo := mkWorktree { wt_Name : string; wt_Path : string }.
Record host (T G : Type) := mkHost { disk : world; procs : gmap Z process; bd : T; repo : G }.
Arguments mkHost {T G}.
Arguments disk {T G}.
Arguments procs {T G}.
Arguments bd {T G}.
Arguments repo {T G}.

Definition set_disk {T G} (w : world) (h : host T G) : host T G := mkHost w (procs h) (bd h) (repo h).
Definition set_procs {T G} (ps : gmap Z process) (h : host T G) : host T G := mkHost (disk h) ps (bd h) (repo h).
Definition set_bd {T G} (t : T) (h : host T G) : host T G := mkHost (disk h) (procs h) t (repo h).
Definition set_repo {T G} (g : G) (h : host T G) : host T G := mkHost (disk h) (procs h) (bd h) g.

(** ** Tasks *)
Section tasks.
Context {T : Type} `{!Beads T}.

Definition resetTask (taskID : string) (t : T) : T :=
  match bd_statuses taskID t with
  | Ok (status :: _) =>
      if bool_decide (status = "review"%string \/ status = "closed"%string) then t else (bd_reopen taskID t).1
  | _ => (bd_reopen taskID t).1
  end.

Definition closeTask (taskID reason : string) (t : T) : T :=
  (bd_close taskID ("Completed (verified by recovery analysis): " +:+ reason) t).1.

Definition after_colon (line : string) : string :=
  match index_byte line ":" with Some i => TrimSpace (str_drop (S i) line) | None => ""%string end.

(** The loop over the lines of the answer. *)
Fixpoint verdict (lines : list string) : bool * string :=
  match lines with
  | [] => (false, "Could not determine completion status"%string)
  | l :: rest =>
      let line := TrimSpace l in
      if has_prefix (ToUpper line) "COMPLETED:" then (true, after_colon line)
      else if has_prefix (ToUpper line) "INCOMPLETE:" then (false, after_colon line)
      else verdict rest
  end.

Context {G : Type} `{!GitTools G}.

(** [workspace]: the worktrees of the workspace, when the resolver is in that
    mode and finds some; [prompt]: the template around the three texts. *)
Context (workspace : list WorktreeInfo) (prompt : string -> string -> string -> string).

Definition maxInputLen : nat := 4000.

Definition task_commits (worktreePath taskID : string) (g : G) : string :=
  match workspace with
  | [] => git_log worktreePath taskID g
  | _ =>
      let part wt := let out := TrimSpace (git_log (wt_Path wt) taskID g) in
        if bool_decide (out = ""%string) then None else Some ("[" +:+ wt_Name wt +:+ "]" +:+ LF +:+ out) in
      String.concat (LF +:+ LF) (omap part workspace)
  end.

Definition analyzeTaskCompletion (worktreePath taskID : string) (t : T) (g : G) : bool * string :=
  match bd_show taskID t with
  | Err _ => (false, "Could not fetch task details"%string)
  | Ok details =>
      let p := prompt taskID (truncateUTF8Safe details maxInputLen)
                 (truncateUTF8Safe (task_commits worktreePath taskID g) maxInputLen) in
      match claude worktreePath p g with
      | Err e => (false, "Claude analysis failed: " +:+ error_text e)
      | Ok out => verdict (Split "010" (TrimSpace out))
      end
  end.

Definition handleOrphanedTask (worktreePath taskID : string) (analyze : bool) (g : G) (t : T) : T :=
  if analyze then
    match analyzeTaskCompletion worktreePath taskID t g with
    | (true, reason) => closeTask taskID reason t
    | (false, _) => resetTask taskID t
    end
  else resetTask taskID t.

Definition resetOrphanedAgentTasks (worktreePath agentName alreadyHandled : string) (analyze : bool) (g : G) (t : T) : T :=
  if bool_decide (agentName = ""%string) then t
  else
    match bd_in_progress agentName t with
    | Err _ => t
    | Ok tasks =>
        foldl (fun t id => handleOrphanedTask worktreePath id analyze g t) t
          (filter (fun id => id <> alreadyHandled) tasks)
    end.

(** ** Untracked files; [confirm]: what the user answers. *)
Fixpoint clean_all (paths : list string) (g : G) : G :=
  match paths with [] => g | p :: ps => clean_all ps (git_clean p g).1 end.

Definition dirty (g : G) (path : string) : bool :=
  match git_clean_dry path g with Ok out => negb (bool_decide (TrimSpace out = ""%string)) | Err _ => false end.

Definition cleanUntrackedFiles (worktreePath : string) (force confirm : bool) (g : G) : G :=
  let targets := match workspace with [] => [worktreePath] | _ => wt_Path <$> workspace end in
  if force || confirm then clean_all (filter (fun p => dirty g p = true) targets) g else g.

(** ** What a failed run changed *)
Definition captureSingleRepoDiff (repoPath : string) (maxBytes : Z) (g : G) : option string :=
  match git_diff repoPath g with Err _ => Some ""%string | Ok out => truncateDiff (TrimSpace out) maxBytes end.

Definition repo_diff (g : G) (wt : WorktreeInfo) : string :=
  match git_diff (wt_Path wt) g with
  | Err _ => ""
  | Ok out => let out := TrimSpace out in
              if bool_decide (out = ""%string) then "" else "--- repo: " +:+ wt_Name wt +:+ " ---" +:+ LF +:+ out +:+ LF
  end.

Definition captureMultiRepoDiff (maxBytes : Z) (g : G) : option string :=
  truncateDiff (foldr (fun wt s => repo_diff g wt +:+ s)%string "" workspace) maxBytes.

Definition captureGitDiff (worktreePath : string) (maxBytes : Z) (g : G) : option string :=
  match workspace with [] => captureSingleRepoDiff worktreePath maxBytes g | _ => captureMultiRepoDiff maxBytes g end.
End tasks.

(** ** The recovery of a worktree *)
Section recovery.
Context {T G : Type} `{!Beads T, !GitTools G} {locks : JsonCodec Lock.LockInfo} {cps : JsonCodec Checkpoint}.
Context (cfg : option (list (string * Lock.WorkspaceConfig)))
  (workspace : list WorktreeInfo) (prompt : string -> string -> string -> string).

Definition ResolveLockDir : string -> string := Lock.ResolveLockDir Clean IsAbs Join cfg.
Definition lock_path (worktreePath : string) : string := Join (ResolveLockDir worktreePath) LockFileName.

Definition CheckLock (worktreePath : string) (h : host T G) : res (option Lock.LockInfo * bool) * host T G :=
  match ReadFile (lock_path worktreePath) (disk h) with
  | (Err e, w1) =>
      (if bool_decide (e = ErrNotExist) then Ok (None, false) else Err (Wrapf "failed to read lock file: " e ""), set_disk w1 h)
  | (Ok text, w1) => (Ok (Lock.CheckLock (kill0 (procs h)) (Some text)), set_disk w1 h)
  end.

Definition forceReleaseLock (worktreePath : string) (h : host T G) : option goerror * host T G :=
  let (e, w1) := Remove (lock_path worktreePath) (disk h) in (e, set_disk w1 h).

(** Between the steps of a recovery other processes may act on the host: [others]
    when the lock has just been removed. *)
Context (others : host T G -> host T G).

(** Step 2: the process, if it runs; [None]: carry on. *)
Definition stop_holder (info : Lock.LockInfo) (isRunning : bool) (h : host T G) : option goerror * host T G :=
  if isRunning then
    let (e, ps) := killProcess (Lock.PID info) (procs h) in (e, set_procs ps h)
  else (None, h).

(** Steps 5 and 6. *)
Definition tidy (worktreePath agentName lockTaskID : string) (analyze force confirm : bool) (h : host T G) : host T G :=
  let h1 := set_bd (resetOrphanedAgentTasks workspace prompt worktreePath agentName lockTaskID analyze (repo h) (bd h)) h in
  set_repo (cleanUntrackedFiles workspace worktreePath force confirm (repo h1)) h1.

Definition RecoverWorktree (worktreePath agentName : string) (exitCode : Z) (h : host T G) : option goerror * host T G :=
  match CheckLock worktreePath h with
  | (Err e, h1) => (Some (Wrapf "failed to check lock: " e ""), h1)
  | (Ok (None, _), h1) => (None, tidy worktreePath agentName "" false true false h1)
  | (Ok (Some info, isRunning), h1) =>
      match stop_holder info isRunning h1 with
      | (Some e, h2) => (Some (Wrapf ("failed to kill agent process (PID " +:+ itoa (Lock.PID info) +:+ "): ") e ""), h2)
      | (None, h2) =>
          let (e, h3) := forceReleaseLock worktreePath h2 in
          if bool_decide (e = None \/ e = Some ErrNotExist) then
            let h4 := others h3 in
            let h5 := if bool_decide (Lock.TaskID info <> ""%string /\ exitCode <> 0)
                      then set_bd (resetTask (Lock.TaskID info) (bd h4)) h4 else h4 in
            (None, tidy worktreePath agentName (Lock.TaskID info) false true false h5)
          else (Some (Wrapf "failed to clear lock: " (default ErrNotExist e) ""), h3)
      end
  end.

(** The command; the flags, and what the user answers to its two questions. The
    worktree's path is resolved; the result is the exit code. *)
Definition runRecover (worktreeName worktreePath : string) (noAnalyze force confirmKill confirmClean : bool) (h : host T G)
  : Z * host T G :=
  match CheckLock worktreePath h with
  | (Err _, h1) => (1, h1)
  | (Ok (None, _), h1) =>
      (0, set_bd (resetOrphanedAgentTasks workspace prompt worktreePath worktreeName "" (negb noAnalyze) (repo h1) (bd h1)) h1)
  | (Ok (Some info, isRunning), h1) =>
      if isRunning && negb (force || confirmKill) then (0, h1)
      else
        match stop_holder info isRunning h1 with
        | (Some _, h2) => (1, h2)
        | (None, h2) =>
            let h3 := others (forceReleaseLock worktreePath h2).2 in
            let h4 := if bool_decide (Lock.TaskID info <> ""%string)
                      then set_bd (handleOrphanedTask workspace prompt worktreePath (Lock.TaskID info) (negb noAnalyze) (repo h3) (bd h3)) h3
                      else h3 in
            (0, tidy worktreePath (Lock.AgentName info) (Lock.TaskID info) (negb noAnalyze) force confirmClean h4)
        end
  end.

(** ** Checkpoints of the daemon's agents

    [lastClass], [assignedEpicID] and [worktreePath] are fields of the agent's
    process record. [None] is a panic. *)
Definition saveAgentCheckpoint (now : Z) (lastClass : option AgentErr.ErrorClass) (assignedEpicID worktreePath : string)
  (exitCode : Z) (h : host T G) : option (host T G) :=
  match CheckLock worktreePath h with
  | (Ok (Some info, _), h1) =>
      if bool_decide (Lock.TaskID info = ""%string) then Some h1
      else
        match captureGitDiff workspace worktreePath maxDiffBytes (repo h1) with
        | None => None
        | Some diff =>
            let cp := mkCheckpoint (Lock.AgentName info) (Lock.TaskID info) assignedEpicID diff exitCode
                        (from_option AgentErr.ErrorClass_String "" lastClass)%string now in
            Some (set_disk (SaveCheckpoint (ResolveLockDir worktreePath) cp (disk h1)).2 h1)
        end
  | (_, h1) => Some h1
  end.

Definition handleAgentCheckpoint (now : Z) (lastClass : option AgentErr.ErrorClass) (assignedEpicID worktreePath : string)
  (exitCode : Z) (h : host T G) : option (host T G) :=
  if bool_decide (exitCode = 0)
  then Some (set_disk (ClearCheckpoint (ResolveLockDir worktreePath) (disk h)).2 h)
  else saveAgentCheckpoint now lastClass assignedEpicID worktreePath exitCode h.

(** [loom claim] on the files: the lock's task, then a checkpoint of another task
    goes. The answer is the error that ends the command. *)
Definition runClaim (now : Z) (cwd taskID taskTitle : string) (w : world) : option goerror * world :=
  let read_update :=
    match ReadFile (lock_path cwd) w with
    | (Err e, w1) => (Some (Wrapf "no active lock to update: " e ""), w1)
    | (Ok text, w1) =>
        match Lock.UpdateLockTask now taskID taskTitle (Some text) with
        | (Some text', None) => WriteFile (lock_path cwd) text' w1
        | (_, e) => (e, w1)
        end
    end in
  match read_update with
  | (Some e, w1) => (Some e, w1)
  | (None, w1) =>
      match LoadCheckpoint (ResolveLockDir cwd) w1 with
      | (Ok (Some cp), w2) =>
          if bool_decide (cp_TaskID cp <> taskID) then (None, (ClearCheckpoint (ResolveLockDir cwd) w2).2) else (None, w2)
      | (_, w2) => (None, w2)
      end
  end.
End recovery.

(** ** Finding the worktree of a directory, for [loom complete]

    [exists_ p]: [os.Stat] finds [p]; the loop ends at a directory that is its own
    parent, so the length of the path is enough fuel. *)
Fixpoint find_root (exists_ : string -> bool) (fuel : nat) (dir : string) : res string :=
  match fuel with
  | O => Err (Msg "out of fuel")
  | S n =>
      if exists_ (Join dir ".loom.lock") then Ok dir
      else if bool_decide (Dir dir = dir) then Err (Msg "no .loom.lock found") else find_root exists_ n (Dir dir)
  end.
Definition findWorktreeRoot (exists_ : string -> bool) (startPath : string) : res string :=
  find_root exists_ (2 + String.length startPath) startPath.

(** The path whose signal [loom complete] gives: of [LOOM_WORKTREE_PATH], or of
    the root found from the working directory. *)
Definition complete_path (exists_ : string -> bool) (env cwd : string) : string :=
  if bool_decide (env = ""%string)
  then match findWorktreeRoot exists_ cwd with Ok root => root | Err _ => cwd end
  else env.

(** ** Where the files are *)
Lemma in_dir d : IsAbs d = true -> exists pre, forall n, plain_part n -> Join d n = (pre +:+ n)%string.
Proof.
  intros Ha. exists (match parts d with [] => "/" | l => abs_path l +:+ "/" end)%string. intros n Hn.
  unfold Join. rewrite join_all_abs by (try done; by constructor).
  destruct (parts d) as [|q l]; [done|]. unfold abs_path. rewrite Join_snoc by done.
  rewrite !append_cons. f_equal. by rewrite append_assoc.
Qed.

Lemma names_plain : plain_part LockFileName /\ plain_part CheckpointFileName.
Proof. split; repeat split; by try (intros; discriminate). Qed.

(** A directory's lock, checkpoint and temporary file are three files. *)
Lemma files_differ d : IsAbs d = true ->
  tmp_path d <> cp_path d /\ Join d LockFileName <> cp_path d /\ Join d LockFileName <> tmp_path d.
Proof.
  intros Ha. destruct names_plain as [Hl Hc]. destruct (in_dir d Ha) as [pre Hpre].
  unfold tmp_path, cp_path. rewrite !Hpre by done. rewrite append_assoc.
  split_and!; intros E; by apply (inj (String.append pre)) in E.
Qed.

(** ** Saving a checkpoint *)
Section saving.
Context {codec : JsonCodec Checkpoint}.

(** What a reader that no fault meets finds. *)
Definition loaded (lockDir : string) (w : world) : res (option Checkpoint) :=
  (LoadCheckpoint lockDir (mkWorld (files w) [])).1.

Lemma loaded_text lockDir w : loaded lockDir w =
  match text_of (files w) (cp_path lockDir) with
  | None => Ok None
  | Some t => match unmarshal t with Some cp => Ok (Some cp)
              | None => Err (Wrapf "failed to parse checkpoint: " (Msg "invalid character") "") end
  end.
Proof. unfold loaded, LoadCheckpoint. rewrite ReadFile_quiet. by destruct (text_of _ _). Qed.

(** Whatever calls fail: the new checkpoint is read exactly when no error was
    reported, and what was there before otherwise; every other file but the
    temporary one keeps its text. *)
Lemma SaveCheckpoint_text lockDir cp w e w' :
  IsAbs lockDir = true -> wf (files w) -> SaveCheckpoint lockDir cp w = (e, w') ->
  loaded lockDir w' = (match e with Some _ => loaded lockDir w | None => Ok (Some (coerced cp)) end) /\
  (forall q, q <> cp_path lockDir -> q <> tmp_path lockDir -> text_of (files w') q = text_of (files w) q) /\
  wf (files w').
Proof.
  intros Ha Hwf. destruct (files_differ lockDir Ha) as (Htc & _ & _). unfold SaveCheckpoint. rewrite !loaded_text.
  destruct (WriteFile _ _ w) as [[e1|] w1] eqn:EW; apply WriteFile_text in EW as (Hwf1 & Ho1 & Ht1); try done.
  { intros [= <- <-]. split_and!; [by rewrite Ho1|by intros; apply Ho1|done]. }
  destruct (Rename _ _ w1) as [[e2|] w2] eqn:ER; apply Rename_text in ER as (Hwf2 & Ho2 & Ht2); try done.
  - destruct (Remove _ w2) as [e3 w3] eqn:EM. pose proof EM as (Hwf3 & Ho3 & _)%Remove_text; [|done].
    intros [= <- <-]. simpl. rewrite Ht2 in * by done.
    split_and!; [by rewrite Ho3, Ho1 by done|intros q Hc Ht; by rewrite Ho3, Ho1 by done|done].
  - intros [= <- <-]. destruct (Ho2 eq_refl) as [Hc Hq]. rewrite Hc, Ht1, unmarshal_marshal by done.
    split_and!; [done| |done]. intros q Hqc Hqt. rewrite Hq, Ho1 by done. done.
Qed.

Lemma SaveCheckpoint_quiet lockDir cp w e w' : faults w = [] -> SaveCheckpoint lockDir cp w = (e, w') ->
  e = None /\ faults w' = [].
Proof.
  destruct w as [f fl]. simpl. intros ->. unfold SaveCheckpoint, WriteFile, OpenTrunc, WriteTo, Close, Rename, os_call. simpl.
  rewrite lookup_insert_eq. by intros [= <- <-].
Qed.

(** Missing is not what a fault reports of a file that is there. *)
Definition honest (w : world) : Prop :=
  Forall (fun o => match o with Some (_, e) => e <> ErrNotExist | None => True end) (faults w).

Lemma ClearCheckpoint_text lockDir w e w' : honest w -> wf (files w) -> ClearCheckpoint lockDir w = (e, w') ->
  loaded lockDir w' = (match e with Some _ => loaded lockDir w | None => Ok None end) /\ wf (files w').
Proof.
  intros Hh Hwf. unfold ClearCheckpoint. rewrite !loaded_text. destruct (Remove _ w) as [e1 w1] eqn:ER.
  pose proof (Remove_text _ _ _ _ Hwf ER) as (Hwf1 & Ho & Hn & Hs). destruct e1 as [e1|].
  - case_bool_decide as E1; intros [= <- <-]; rewrite Hs in * by done; [|done]. split; [|done]. subst e1.
    unfold Remove, os_call in ER. unfold honest in Hh. unfold text_of.
    destruct (faults w) as [|[[n e2]|] q]; [|apply Forall_cons in Hh as [Hh _]; simplify_eq/=; done|];
      simpl in ER; by destruct (dir (files w) !! cp_path lockDir).
  - intros [= <- <-]. by rewrite Hn.
Qed.

(** Every call takes its own outcome off the list. *)
Lemma os_call_honest {A} (fail : nat -> goerror -> world -> A * world) (run : world -> A * world) w :
  (forall n e w0, faults (fail n e w0).2 = faults w0) -> (forall w0, faults (run w0).2 = faults w0) ->
  honest w -> honest (os_call fail run w).2.
Proof.
  intros Hf Hr. unfold honest, os_call. destruct (faults w) as [|[[n e]|] q] eqn:E.
  - intros _. rewrite Hr, E. by apply Forall_nil_2.
  - intros [_ H]%Forall_cons. by rewrite Hf.
  - intros [_ H]%Forall_cons. by rewrite Hr.
Qed.

Lemma Remove_honest p w : honest w -> honest (Remove p w).2.
Proof. apply os_call_honest; [done|]. intros w0. simpl. by destruct (dir (files w0) !! p). Qed.
Lemma Rename_honest p q w : honest w -> honest (Rename p q w).2.
Proof. apply os_call_honest; [done|]. intros w0. simpl. by destruct (dir (files w0) !! p). Qed.
Lemma WriteFile_honest p t w : honest w -> honest (WriteFile p t w).2.
Proof.
  intros H. unfold WriteFile. assert (honest (OpenTrunc p w).2) as H1 by (by apply os_call_honest).
  destruct (OpenTrunc p w) as [[h|e] w1]; [|done]. simpl in H1.
  assert (honest (WriteTo h t w1).2) as H2 by (by apply os_call_honest). destruct (WriteTo h t w1) as [[k e] w2]. simpl in H2.
  assert (honest (Close w2).2) as H3 by (by apply os_call_honest). by destruct (Close w2).
Qed.
Hint Resolve Remove_honest Rename_honest WriteFile_honest : go.

(** *** The file as a cell *)
Inductive cp_op := OpSave (cp : Checkpoint) | OpClear.

Definition cp_exec (lockDir : string) (op : cp_op) (w : world) : option goerror * world :=
  match op with OpSave cp => SaveCheckpoint lockDir cp w | OpClear => ClearCheckpoint lockDir w end.

Fixpoint cp_run (lockDir : string) (ops : list cp_op) (w : world) : list (option goerror) * world :=
  match ops with
  | [] => ([], w)
  | op :: ops' => let (e, w1) := cp_exec lockDir op w in let (es, w2) := cp_run lockDir ops' w1 in (e :: es, w2)
  end.

(** The abstract cell: an operation without an error sets it, to what JSON keeps of
    the texts, or empties it. *)
Definition cell_exec (c : option Checkpoint) (step : cp_op * option goerror) : option Checkpoint :=
  match step with
  | (_, Some _) => c
  | (OpSave cp, None) => Some (coerced cp)
  | (OpClear, None) => None
  end.

Lemma cp_exec_honest lockDir op w : honest w -> honest (cp_exec lockDir op w).2.
Proof.
  intros H. destruct op as [cp|]; simpl.
  - unfold SaveCheckpoint. pose proof (WriteFile_honest (tmp_path lockDir) (marshal (coerced cp)) w H) as H1.
    destruct (WriteFile _ _ w) as [[e|] w1]; [done|]. simpl in H1.
    pose proof (Rename_honest (tmp_path lockDir) (cp_path lockDir) w1 H1) as H2.
    destruct (Rename _ _ w1) as [[e|] w2]; simpl in *; auto with go.
  - unfold ClearCheckpoint. pose proof (Remove_honest (cp_path lockDir) w H). by destruct (Remove _ w) as [[e|] w1].
Qed.

(** C16. The checkpoint file refines a cell that is written atomically: over any
    sequence of saves and removals in which any calls fail, also in the middle
    of a write (a crash is a run whose later calls all fail without an effect),
    a reader finds exactly what the operations that reported no error left,
    never a part of a checkpoint. *)
Theorem checkpoint_refines_cell lockDir ops w c :
  IsAbs lockDir = true -> wf (files w) -> honest w -> loaded lockDir w = Ok c ->
  let (es, w') := cp_run lockDir ops w in loaded lockDir w' = Ok (foldl cell_exec c (zip ops es)).
Proof.
  intros Ha. revert w c. induction ops as [|op ops IH]; intros w c Hwf Hh Hc; [done|]. cbn [cp_run].
  pose proof (cp_exec_honest lockDir op w Hh) as Hh1. destruct (cp_exec lockDir op w) as [e w1] eqn:E. simpl in Hh1.
  assert (loaded lockDir w1 = Ok (cell_exec c (op, e)) /\ wf (files w1)) as [Hc1 Hwf1].
  { destruct op as [cp|]; simpl in E.
    - apply SaveCheckpoint_text in E as (-> & _ & ?); [|done|done]. split; [|done]. by destruct e.
    - apply ClearCheckpoint_text in E as (-> & ?); [|done|done]. split; [|done]. by destruct e. }
  specialize (IH w1 _ Hwf1 Hh1 Hc1). by destruct (cp_run lockDir ops w1).
Qed.
End saving.

(** ** Killing a process group *)

(** A process after [k] polls. *)
Definition aged (k : nat) (p : process) : option process :=
  match ending p with
  | None => Some p
  | Some n => if (k <=? n)%nat then Some (mkProcess (pgid p) (own p) (grace p) (Some (n - k)%nat)) else None
  end.

Lemma tick_lookup ps q : tick ps !! q = ps !! q ≫= aged 1.
Proof.
  unfold tick. rewrite lookup_omap. destruct (ps !! q) as [p|]; [|done]. simpl. unfold aged.
  destruct (ending p) as [[|n]|]; simpl; [done| |done]. by rewrite Nat.sub_0_r.
Qed.

Lemma aged_add j k p : aged j p ≫= aged k = aged (j + k) p.
Proof.
  unfold aged. destruct (ending p) as [n|] eqn:En; [|simpl; by rewrite En].
  destruct (Nat.leb_spec j n); simpl; [|by destruct (Nat.leb_spec (j + k) n); [lia|]].
  destruct (Nat.leb_spec k (n - j)), (Nat.leb_spec (j + k) n); try lia; [|done]. simpl. do 3 f_equal. lia.
Qed.

Lemma running_lookup ps q : IsProcessRunning ps q = true <-> 0 < q /\ exists p, ps !! q = Some p /\ own p = true.
Proof.
  unfold IsProcessRunning, Lock.IsProcessRunning, kill0. destruct (Z.leb_spec q 0); [split; [done|lia]|].
  destruct (ps !! q) as [p|]; [|naive_solver]. naive_solver.
Qed.

(** Waiting is a number of polls; fewer than all only if the process is gone. *)
Lemma wait_exit_aged polls pid ps b ps' : wait_exit polls pid ps = (b, ps') ->
  exists k, (k <= polls)%nat /\ (forall q, ps' !! q = ps !! q ≫= aged k) /\
    (if b then (0 < k)%nat /\ IsProcessRunning ps' pid = false else k = polls /\ (0 < polls -> IsProcessRunning ps' pid = true)%nat).
Proof.
  revert ps. induction polls as [|n IH]; intros ps; cbn [wait_exit].
  { intros [= <- <-]. exists 0%nat. split; [lia|]. split; [|split; [done|lia]]. intros q. destruct (ps !! q) as [p|]; [|done]. simpl.
    unfold aged. destruct p as [g o gr [m|]]; simpl; [|done]. by rewrite Nat.sub_0_r. }
  destruct (IsProcessRunning (tick ps) pid) eqn:ER.
  - intros E. pose proof E as (k & Hk & Hq & Hb)%IH. exists (S k). split; [lia|]. split.
    2:{ destruct b; [split; [lia|tauto]|]. destruct Hb as [-> Hb]. split; [done|]. intros _.
        destruct n; [by simplify_eq/=|apply Hb; lia]. }
    intros q. rewrite Hq, tick_lookup. destruct (ps !! q) as [p|]; [|done]. simpl. apply (aged_add 1 k).
  - intros [= <- <-]. exists 1%nat. split_and!; [lia|apply tick_lookup|lia|done].
Qed.

Definition member (pid : Z) (ps : gmap Z process) (q : Z) (p : process) : Prop :=
  ps !! q = Some p /\ in_group pid q p = true.

(** The answer to a signal, and what it does. *)
Lemma kill_group_cases pid s ps : 
  ((forall q p, ~ member pid ps q p) /\ kill_group pid s ps = (Some ESRCH, ps)) \/
  ((exists q p, member pid ps q p) /\ (forall q p, member pid ps q p -> own p = false) /\ kill_group pid s ps = (Some EPERM, ps)) \/
  ((exists q p, member pid ps q p /\ own p = true) /\ exists ps', kill_group pid s ps = (None, ps') /\
     forall q, ps' !! q = (fun p => if in_group pid q p && own p then deliver s p else p) <$> ps !! q).
Proof.
  assert (forall q p, (q, p) ∈ filter (fun e => in_group pid e.1 e.2 = true) (map_to_list ps) <-> member pid ps q p) as Hm.
  { intros q p. rewrite list_elem_of_filter, elem_of_map_to_list. unfold member. naive_solver. }
  unfold kill_group. set (g := filter _ _) in *. case_bool_decide as Eg.
  { left. split; [|done]. intros q p H%Hm. rewrite Eg in H. by apply not_elem_of_nil in H. }
  right. destruct (forallb _ g) eqn:Ef.
  - left. split_and!; [|intros q p H%Hm|done].
    + destruct g as [|[q p] l]; [done|]. exists q, p. apply Hm. by left.
    + rewrite forallb_forall in Ef. specialize (Ef (q, p)). rewrite <- list_elem_of_In in Ef. apply Ef in H.
      by apply negb_true_iff in H.
  - right. split.
    + destruct (decide (Exists (fun e => own e.2 = true) g)) as [[[q p] [Hin Ho]]%list.Exists_exists|Hn].
      { exists q, p. split; [by apply Hm|done]. }
      exfalso. apply not_true_iff_false in Ef. apply Ef. apply forallb_forall. intros e He%list_elem_of_In.
      apply negb_true_iff, not_true_iff_false. intros Ho. apply Hn, list.Exists_exists. eauto.
    + eexists. split; [done|]. intros q. rewrite map_lookup_imap. by destruct (ps !! q).
Qed.

Lemma deliver_keeps s p : pgid (deliver s p) = pgid p /\ own (deliver s p) = own p.
Proof. by destruct s. Qed.

Lemma in_group_deliver pid q s p : in_group pid q (deliver s p) = in_group pid q p.
Proof. unfold in_group. by rewrite (proj1 (deliver_keeps s p)). Qed.

Lemma aged_keeps k p p' : aged k p = Some p' -> pgid p' = pgid p /\ own p' = own p /\ grace p' = grace p.
Proof. unfold aged. destruct (ending p); [case_match|]; intros [= <-]; done. Qed.

Lemma in_group_aged pid q k p p' : aged k p = Some p' -> in_group pid q p' = in_group pid q p.
Proof. intros (E & _)%aged_keeps. unfold in_group. by rewrite E. Qed.

(** A process that is not to be signalled only ages. *)
Lemma killProcess_others pid ps e ps' : killProcess pid ps = (e, ps') ->
  exists k, (k <= 50)%nat /\ forall q p, ps !! q = Some p ->
    in_group pid q p = false \/ own p = false -> ps' !! q = aged k p.
Proof.
  unfold killProcess. destruct (kill_group_cases pid SIGTERM ps) as [[_ ->]|[(_ & _ & ->)|(_ & ps1 & -> & H1)]].
  1-2: intros [= <- <-]; exists 0%nat; split; [lia|]; intros q p Hp _; rewrite Hp; unfold aged;
    destruct p as [g o gr [m|]]; simpl; rewrite ?Nat.sub_0_r; done.
  destruct (wait_exit 50 pid ps1) as [b ps2] eqn:EW. apply wait_exit_aged in EW as (k & Hk & H2 & _).
  assert (forall q p, ps !! q = Some p -> in_group pid q p = false \/ own p = false -> ps2 !! q = aged k p) as Hpre.
  { intros q p Hp Ho. rewrite H2, H1, Hp. simpl. destruct Ho as [-> | ->]; by rewrite ?andb_false_r. }
  destruct b; [intros [= <- <-]; by exists k|].
  destruct (kill_group_cases pid SIGKILL ps2) as [[_ ->]|[(_ & _ & ->)|(_ & ps3 & -> & H3)]].
  1-2: intros [= <- <-]; by exists k.
  intros [= <- <-]. exists k. split; [done|]. intros q p Hp Ho. specialize (Hpre q p Hp Ho).
  rewrite H3, Hpre. destruct (aged k p) as [p'|] eqn:Ep; [|done]. simpl.
  rewrite (in_group_aged _ _ _ _ _ Ep). destruct (aged_keeps _ _ _ Ep) as (_ & -> & _).
  destruct Ho as [-> | ->]; by rewrite ?andb_false_r.
Qed.

(** What [killProcess] does, by what there is: with nothing in the group of
    that number it reports success and does nothing, so a process that does not
    lead a group goes on running; with a group of others' processes it
    fails; and a process of ours that leads its group is gone by the next poll,
    while what is outside the group, or not ours, only ages. *)
Theorem killProcess_functional pid ps :
  ((forall q p, ~ member pid ps q p) -> killProcess pid ps = (None, ps)) /\
  ((exists q p, member pid ps q p) -> (forall q p, member pid ps q p -> own p = false) ->
     killProcess pid ps = (Some EPERM, ps)) /\
  (forall p, member pid ps pid p -> own p = true ->
     let (e, ps') := killProcess pid ps in
     e = None /\ IsProcessRunning (tick ps') pid = false /\
     exists k, (k <= 50)%nat /\ forall q p', ps !! q = Some p' -> in_group pid q p' = false \/ own p' = false -> ps' !! q = aged k p').
Proof.
  split_and!.
  - intros Hn. unfold killProcess. destruct (kill_group_cases pid SIGTERM ps) as [[_ ->]|[((q & p & Hm) & _)|((q & p & Hm & _) & _)]];
      [by rewrite bool_decide_true|by destruct (Hn q p)..].
  - intros (q & p & Hm) Hn. unfold killProcess.
    destruct (kill_group_cases pid SIGTERM ps) as [[H _]|[(_ & _ & ->)|((q' & p' & Hm' & Ho) & _)]];
      [by destruct (H q p)|done|by rewrite (Hn q' p' Hm') in Ho].
  - intros p [Hp Hg] Ho. destruct (killProcess pid ps) as [e ps'] eqn:EK.
    pose proof (killProcess_others pid ps e ps' EK) as (k & Hk & Hk').
    cut (e = None /\ IsProcessRunning (tick ps') pid = false).
    { intros [-> ->]. split_and!; [done|done|]. exists k. split; [done|]. intros q p' Hp' Hor. by apply Hk'. }
    clear Hk'. revert EK. unfold killProcess.
    destruct (kill_group_cases pid SIGTERM ps) as [[H _]|[(_ & H & _)|(_ & ps1 & -> & H1)]];
      [by destruct (H pid p)|by rewrite (H pid p) in Ho|].
    destruct (wait_exit 50 pid ps1) as [b ps2] eqn:EW. apply wait_exit_aged in EW as (j & _ & H2 & Hb).
    pose proof (H1 pid) as Hpid. rewrite Hp in Hpid. simpl in Hpid. rewrite Hg, Ho in Hpid. simpl in Hpid.
    pose proof (H2 pid) as Hpid2. rewrite Hpid in Hpid2. simpl in Hpid2. 
    destruct b.
    + intros [= <- <-]. split; [done|]. apply not_true_iff_false. intros (Hpos & p1 & Hp1 & Ho1)%running_lookup.
      destruct Hb as [_ Hb]. apply not_true_iff_false in Hb. apply Hb, running_lookup. split; [done|].
      rewrite tick_lookup in Hp1. destruct (ps2 !! pid) as [p2|]; [|done]. simpl in Hp1. exists p2. split; [done|].
      apply aged_keeps in Hp1 as (_ & <- & _). done.
    + destruct Hb as [_ Hb]. apply running_lookup in Hb as (_ & p2 & Hp2 & _); [|lia]. rewrite Hp2 in Hpid2.
      symmetry in Hpid2. rename Hpid2 into Ej.
      pose proof (in_group_aged pid pid j _ _ Ej) as Hg2. rewrite in_group_deliver in Hg2.
        destruct (aged_keeps _ _ _ Ej) as (_ & Ho2 & _). rewrite (proj2 (deliver_keeps SIGTERM p)) in Ho2.
        destruct (kill_group_cases pid SIGKILL ps2) as [[H _]|[(_ & H & _)|(_ & ps3 & -> & H3)]];
          [destruct (H pid p2); split; congruence|rewrite (H pid p2) in Ho2; [congruence|split; congruence]|].
        intros [= <- <-]. split; [done|]. apply not_true_iff_false. intros (_ & p3 & Hp3 & _)%running_lookup.
        rewrite tick_lookup, H3, Hp2 in Hp3. simpl in Hp3. rewrite Hg2, Hg, Ho2, Ho in Hp3. done.
Qed.

(** The polls look at the leader only: when it ends in time, members of its group
    that ignore the request are neither waited for nor killed, and success is
    reported. *)
Theorem group_outlives_leader pid n p ps q p' :
  0 < pid -> member pid ps pid p -> own p = true -> grace p = Some n -> ending p = None -> (n < 50)%nat ->
  member pid ps q p' -> grace p' = None -> ending p' = None ->
  let (e, ps') := killProcess pid ps in e = None /\ ps' !! q = Some p' /\ IsProcessRunning ps' pid = false.
Proof.
  intros Hpos [Hp Hg] Ho Hgr He Hn [Hq Hgq] Hgr' He'. unfold killProcess.
  destruct (kill_group_cases pid SIGTERM ps) as [[H _]|[(_ & H & _)|(_ & ps1 & -> & H1)]];
    [by destruct (H pid p)|by rewrite (H pid p) in Ho|].
  destruct (wait_exit 50 pid ps1) as [b ps2] eqn:EW. apply wait_exit_aged in EW as (k & _ & H2 & Hb).
  pose proof (H1 pid) as Hpid. rewrite Hp in Hpid. simpl in Hpid. rewrite Hg, Ho in Hpid. simpl in Hpid.
  destruct b.
  2:{ exfalso. destruct Hb as [-> Hb]. apply running_lookup in Hb as (_ & p2 & Hp2 & _); [|lia].
      rewrite H2, Hpid in Hp2. cbn [option_bind mbind] in Hp2. unfold aged, deliver in Hp2. cbn [ending] in Hp2. rewrite Hgr, He in Hp2.
      destruct (Nat.leb_spec 50 n) in Hp2; [lia|done]. }
  destruct Hb as [_ Hb]. split_and!; [done| |done]. rewrite H2, H1, Hq. simpl. destruct (_ && _).
  - unfold aged, deliver. simpl. rewrite Hgr', He'. destruct p'; simpl in *. by subst.
  - unfold aged. by rewrite He'.
Qed.

(** ** What becomes of the tasks

    A tracker whose tool answers: its issues, each with status and assignee. *)
Class Tracker (T : Type) `{!Beads T} := {
  issues : T -> gmap string (string * string);
  statuses_law : forall id t, match issues t !! id with
    | Some (status, _) => bd_statuses id t = Ok [status]
    | None => exists e, bd_statuses id t = Err e
    end;
  in_progress_law : forall a t, exists ids, bd_in_progress a t = Ok ids /\
    forall id, id ∈ ids <-> issues t !! id = Some ("in_progress", a)%string;
  reopen_law : forall id t, issues (bd_reopen id t).1 = alter (fun _ => ("open", ""))%string id (issues t);
}.

(** What resetting does to an issue. *)
Definition reset_issue (i : string * string) : string * string :=
  if bool_decide (i.1 = "review"%string \/ i.1 = "closed"%string) then i else ("open", "")%string.

Lemma reset_twice i : reset_issue (reset_issue i) = reset_issue i.
Proof. unfold reset_issue. repeat case_bool_decide; naive_solver. Qed.

Section tracker.
Context {T G : Type} `{!Beads T, !Tracker T, !GitTools G}.

Lemma resetTask_issues id t : issues (resetTask id t) = alter reset_issue id (issues t).
Proof.
  unfold resetTask. pose proof (statuses_law id t) as Hs. apply map_eq. intros q.
  destruct (issues t !! id) as [[st a]|] eqn:E.
  - rewrite Hs. destruct (decide (q = id)) as [->|Hq].
    + rewrite lookup_alter_eq, E. simpl. unfold reset_issue. simpl. case_bool_decide; [done|].
      by rewrite reopen_law, lookup_alter_eq, E.
    + rewrite lookup_alter_ne by done. case_bool_decide; [done|]. by rewrite reopen_law, lookup_alter_ne.
  - destruct Hs as [e ->]. rewrite reopen_law. destruct (decide (q = id)) as [->|Hq].
    + by rewrite !lookup_alter_eq, E.
    + by rewrite !lookup_alter_ne.
Qed.

Lemma reset_all_issues ids t id :
  issues (foldl (fun t id => resetTask id t) t ids) !! id =
  (if bool_decide (id ∈ ids) then reset_issue else fun i => i) <$> issues t !! id.
Proof.
  revert t. induction ids as [|x ids IH]; intros t; cbn [foldl].
  { rewrite bool_decide_false by apply not_elem_of_nil. by destruct (issues t !! id). }
  rewrite IH, resetTask_issues. destruct (decide (id = x)) as [->|Hne].
  - rewrite lookup_alter_eq, (bool_decide_true (x ∈ x :: ids)) by (by left).
    destruct (issues t !! x) as [i|]; [|done]. simpl. case_bool_decide; [|done]. by rewrite reset_twice.
  - rewrite lookup_alter_ne by done. rewrite (bool_decide_ext (id ∈ x :: ids) (id ∈ ids)); [done|].
    rewrite elem_of_cons. naive_solver.
Qed.

(** The loop over an agent's tasks reopens exactly those in progress, except the
    one that was handled before. *)
Lemma resetOrphaned_issues ws prompt path agent handled g t id :
  issues (resetOrphanedAgentTasks ws prompt path agent handled false g t) !! id =
  (fun i => if bool_decide (agent <> "" /\ i = ("in_progress", agent) /\ id <> handled)%string
            then ("open", "")%string else i) <$> issues t !! id.
Proof.
  unfold resetOrphanedAgentTasks. case_bool_decide as Ea.
  { destruct (issues t !! id); [|done]. simpl. by rewrite bool_decide_false by tauto. }
  destruct (in_progress_law agent t) as (ids & -> & Hids). unfold handleOrphanedTask.
  rewrite reset_all_issues. destruct (issues t !! id) as [i|] eqn:Ei; [|done]. simpl. f_equal.
  rewrite (bool_decide_ext (id ∈ _) (i = ("in_progress", agent)%string /\ id <> handled)).
  2:{ rewrite list_elem_of_filter, Hids, Ei. naive_solver. }
  rewrite (bool_decide_ext (agent <> ""%string /\ _) (i = ("in_progress", agent)%string /\ id <> handled)) by tauto.
  case_bool_decide as E; [|done]. by destruct E as [-> _].
Qed.

(** ** The recovery of a worktree on a host where no file operation fails *)
Context {locks : JsonCodec Lock.LockInfo} {cps : JsonCodec Checkpoint}.
Context (cfg : option (list (string * Lock.WorkspaceConfig)))
  (ws : list WorktreeInfo) (prompt : string -> string -> string -> string).

Definition quiet (h : host T G) : Prop := faults (disk h) = [] /\ wf (files (disk h)).
Definition lock_text (path : string) (h : host T G) : option string := text_of (files (disk h)) (lock_path cfg path).

Lemma CheckLock_quiet path h : quiet h -> CheckLock cfg path h = (Ok (Lock.CheckLock (kill0 (procs h)) (lock_text path h)), h).
Proof.
  intros [Hq _]. unfold CheckLock, lock_text. destruct h as [[f fl] ps t g]. simpl in *. subst fl. rewrite ReadFile_quiet.
  destruct (text_of f _); simpl; done.
Qed.

Lemma forceRelease_quiet path h : quiet h -> is_Some (lock_text path h) ->
  exists f', forceReleaseLock cfg path h = (None, set_disk (mkWorld f' []) h) /\ wf f' /\
    text_of f' (lock_path cfg path) = None /\ forall q, q <> lock_path cfg path -> text_of f' q = text_of (files (disk h)) q.
Proof.
  intros [Hq Hwf] [t Ht]. unfold forceReleaseLock. destruct (Remove (lock_path cfg path) (disk h)) as [e w1] eqn:ER.
  pose proof (Remove_text _ _ _ _ Hwf ER) as (Hwf1 & Ho & Hn & _).
  unfold Remove, os_call in ER. rewrite Hq in ER. unfold lock_text, text_of in Ht.
  destruct (dir (files (disk h)) !! lock_path cfg path) as [i|] eqn:Ei; [|done]. injection ER as <- <-.
  simpl in *. unfold set_files. rewrite Hq. eexists. split; [done|]. auto.
Qed.

Lemma not_running_ages ps pid : IsProcessRunning ps pid = false -> IsProcessRunning (tick ps) pid = false.
Proof.
  intros H. apply not_true_iff_false. intros (Hpos & p & Hp & Ho)%running_lookup. apply not_true_iff_false in H. apply H.
  apply running_lookup. split; [done|]. rewrite tick_lookup in Hp. destruct (ps !! pid) as [p0|]; [|done]. simpl in Hp.
  apply aged_keeps in Hp as (_ & E & _). exists p0. by rewrite <- E.
Qed.

(** What the recovery makes of an issue. *)
Definition recovered (agent : string) (code : Z) (lockTask id : string) (i : string * string) : string * string :=
  if bool_decide (id = lockTask /\ id <> ""%string) then (if bool_decide (code = 0) then i else reset_issue i)
  else if bool_decide (agent <> "" /\ i = ("in_progress", agent) /\ id <> lockTask)%string then ("open", "")%string else i.

(** The holder of a lock leads a process group, if it runs. *)
Definition leads (info : Lock.LockInfo) (ps : gmap Z process) : Prop :=
  IsProcessRunning ps (Lock.PID info) = true -> exists p, member (Lock.PID info) ps (Lock.PID info) p.

Lemma stop_holder_quiet info (h : host T G) : leads info (procs h) ->
  exists ps', stop_holder info (IsProcessRunning (procs h) (Lock.PID info)) h = (None, set_procs ps' h) /\
    IsProcessRunning (tick ps') (Lock.PID info) = false /\
    (IsProcessRunning (procs h) (Lock.PID info) = false -> ps' = procs h).
Proof.
  intros Hl. unfold stop_holder. destruct (IsProcessRunning (procs h) (Lock.PID info)) eqn:ER.
  - destruct (Hl ER) as [p Hp]. apply running_lookup in ER as (_ & p0 & Hp0 & Ho).
    assert (p0 = p) as -> by (destruct Hp; congruence).
    pose proof (proj2 (proj2 (killProcess_functional (Lock.PID info) (procs h))) p Hp Ho) as HK.
    destruct (killProcess _ _) as [e ps']. destruct HK as (-> & Hr & _). by exists ps'.
  - exists (procs h). split; [by destruct h|]. split; [by apply not_running_ages|done].
Qed.

Lemma tidy_issues path agent handled force confirm (h : host T G) id :
  issues (bd (tidy ws prompt path agent handled false force confirm h)) !! id =
  (fun i => if bool_decide (agent <> "" /\ i = ("in_progress", agent) /\ id <> handled)%string
            then ("open", "")%string else i) <$> issues (bd h) !! id.
Proof. unfold tidy. simpl. apply resetOrphaned_issues. Qed.

Lemma RecoverWorktree_quiet path agent code info (h : host T G) :
  quiet h -> lock_text path h = Some (marshal info) -> leads info (procs h) ->
  exists h', RecoverWorktree cfg ws prompt id path agent code h = (None, h') /\ quiet h' /\ lock_text path h' = None /\
    (forall q, q <> lock_path cfg path -> text_of (files (disk h')) q = text_of (files (disk h)) q) /\
    IsProcessRunning (tick (procs h')) (Lock.PID info) = false /\
    (IsProcessRunning (procs h) (Lock.PID info) = false -> procs h' = procs h) /\
    forall id, issues (bd h') !! id = recovered agent code (Lock.TaskID info) id <$> issues (bd h) !! id.
Proof.
  intros Hq Ht Hl. unfold RecoverWorktree. rewrite CheckLock_quiet, Ht by done. cbn [Lock.CheckLock]. rewrite unmarshal_marshal.
  change (Lock.IsProcessRunning (kill0 (procs h))) with (IsProcessRunning (procs h)).
  destruct (stop_holder_quiet info h Hl) as (ps' & -> & Hps & Hsame).
  destruct (forceRelease_quiet path (set_procs ps' h)) as (f' & -> & Hwf' & Hn & Ho); [done|by exists (marshal info)|].
  rewrite bool_decide_true by (by left). eexists. split; [done|]. unfold quiet, lock_text, tidy. simpl.
  case_bool_decide as Ec; simpl; (split_and!; [done|done|done|done|done|done|]); intros id; rewrite resetOrphaned_issues.
  - destruct Ec as [Hne Hc]. rewrite resetTask_issues. destruct (decide (id = Lock.TaskID info)) as [->|Hid].
    + rewrite lookup_alter_eq. destruct (issues (bd h) !! _) as [i|]; [|done]. simpl. unfold recovered.
      rewrite (bool_decide_true (_ = _ /\ _)) by (by split). by rewrite !bool_decide_false by tauto.
    + rewrite lookup_alter_ne by done. destruct (issues (bd h) !! id) as [i|]; [|done]. simpl. unfold recovered.
      by rewrite (bool_decide_false (id = _ /\ _)) by tauto.
  - destruct (issues (bd h) !! id) as [i|]; [|done]. simpl. unfold recovered. f_equal.
    case_bool_decide as E1; case_bool_decide as E2; [tauto| |rewrite bool_decide_true; [done|]|done]; [done|].
    destruct E2 as [-> Hne], (decide (code = 0)); tauto.
Qed.

Lemma CheckLock_none path h : quiet h -> lock_text path h = None -> CheckLock cfg path h = (Ok (None, false), h).
Proof. intros Hq Ht. by rewrite CheckLock_quiet, Ht. Qed.

Lemma RecoverWorktree_free path agent code h : quiet h -> lock_text path h = None ->
  RecoverWorktree cfg ws prompt id path agent code h = (None, tidy ws prompt path agent "" false true false h).
Proof. intros Hq Ht. unfold RecoverWorktree. by rewrite CheckLock_none. Qed.

(** *** What is kept of a failed run *)

(** Its changes before they are cut. *)
Definition changes (path : string) (g : G) : string :=
  match ws with
  | [] => match git_diff path g with Err _ => "" | Ok out => TrimSpace out end
  | _ => foldr (fun wt s => repo_diff g wt +:+ s) "" ws
  end%string.

Lemma cut_notice_length d : len d <= max_int64 -> 0 <= len (cut_notice d) <= 60.
Proof.
  intros Hd. pose proof (len_nonneg d). unfold cut_notice. rewrite !len_app. pose proof (itoa_length (len d) ltac:(lia)).
  pose proof (len_nonneg (itoa (len d))).
  change (len LF) with 1. change (len "... (truncated, full diff was ") with 30. change (len " bytes)") with 7. lia.
Qed.

(** The first bytes and the notice, 4096 bytes together. *)
Lemma truncateDiff_fits d : len d <= max_int64 ->
  exists d', truncateDiff d maxDiffBytes = Some d' /\ (len d <= maxDiffBytes -> d' = d) /\
    (maxDiffBytes < len d -> len d' = maxDiffBytes /\
      d' = (str_take (Z.to_nat (maxDiffBytes - len (cut_notice d))) d +:+ cut_notice d)%string).
Proof.
  intros Hd. pose proof (cut_notice_length d Hd) as Hn. unfold truncateDiff. destruct (Z.leb_spec (len d) maxDiffBytes) as [Hs|Hs].
  { exists d. split_and!; [done|done|lia]. }
  unfold maxDiffBytes in *. cbv zeta. rewrite bool_decide_true by lia. eexists. split; [done|]. split; [lia|]. intros _. split; [|done].
  rewrite len_app. unfold len at 1. rewrite str_take_length; unfold len in *; lia.
Qed.


(** C34. After a clean exit the task of the lock is left as the agent left it, but
    only until the next pass: if it is still in progress with the agent, the
    recovery before the next spawn, which finds no lock, reopens it. *)
Theorem trust_ends_at_preflight path agent info h :
  quiet h -> lock_text path h = Some (marshal info) -> leads info (procs h) ->
  agent <> ""%string -> Lock.TaskID info <> ""%string ->
  issues (bd h) !! Lock.TaskID info = Some ("in_progress", agent)%string ->
  exists h1 h2, RecoverWorktree cfg ws prompt id path agent 0 h = (None, h1) /\
    issues (bd h1) !! Lock.TaskID info = Some ("in_progress", agent)%string /\
    RecoverWorktree cfg ws prompt id path agent 0 h1 = (None, h2) /\
    issues (bd h2) !! Lock.TaskID info = Some ("open", "")%string.
Proof.
  intros Hq Ht Hl Ha Htask Hi.
  destruct (RecoverWorktree_quiet path agent 0 info h) as (h1 & HR & Hq1 & Hn & _ & _ & _ & Hi1); [done..|].
  assert (issues (bd h1) !! Lock.TaskID info = Some ("in_progress", agent)%string) as Hi'.
  { rewrite Hi1, Hi. simpl. unfold recovered. by rewrite (bool_decide_true (_ = _ /\ _)) by done. }
  exists h1. eexists. rewrite (RecoverWorktree_free _ _ _ h1) by done. split_and!; [done..|].
  rewrite tidy_issues, Hi'. simpl. by rewrite bool_decide_true.
Qed.

(** A task of the lock that another agent has taken over in the meantime is taken
    from it. *)
Theorem taken_over_task_reset path agent other code info h :
  quiet h -> lock_text path h = Some (marshal info) -> leads info (procs h) ->
  Lock.TaskID info <> ""%string -> code <> 0 -> issues (bd h) !! Lock.TaskID info = Some ("in_progress", other)%string ->
  exists h', RecoverWorktree cfg ws prompt id path agent code h = (None, h') /\
    issues (bd h') !! Lock.TaskID info = Some ("open", "")%string.
Proof.
  intros Hq Ht Hl Htask Hc Hi.
  destruct (RecoverWorktree_quiet path agent code info h) as (h1 & HR & _ & _ & _ & _ & _ & Hi1); [done..|].
  exists h1. split; [done|]. rewrite Hi1, Hi. simpl. unfold recovered.
  by rewrite (bool_decide_true (_ = _ /\ _)), (bool_decide_false (code = 0)) by done.
Qed.

(** C33. Worktrees of one workspace share its lock: the recovery that the daemon runs
    before it spawns the agent of one of them kills the agent that works in
    another and takes its lock away. *)
Theorem neighbour_stopped path path2 agent2 info p h :
  quiet h -> ResolveLockDir cfg path = ResolveLockDir cfg path2 -> lock_text path h = Some (marshal info) ->
  IsProcessRunning (procs h) (Lock.PID info) = true -> member (Lock.PID info) (procs h) (Lock.PID info) p ->
  exists h', RecoverWorktree cfg ws prompt id path2 agent2 0 h = (None, h') /\
    IsProcessRunning (tick (procs h')) (Lock.PID info) = false /\ lock_text path h' = None.
Proof.
  intros Hq Hd Ht Hr Hm. assert (forall h, lock_text path h = lock_text path2 h) as Hlt.
  { intros h0. unfold lock_text, lock_path. by rewrite Hd. }
  rewrite Hlt in Ht. destruct (RecoverWorktree_quiet path2 agent2 0 info h) as (h1 & HR & _ & Hn & _ & Hrun & _); [done|done|by exists p|].
  exists h1. by rewrite Hlt.
Qed.

(** The lock goes before the files: what a process that takes the freed lock has
    written meanwhile is removed with the rest. *)
Theorem newcomer_cleaned others path agent code info h :
  quiet h -> lock_text path h = Some (marshal info) -> leads info (procs h) ->
  exists f' ps', lock_text path (mkHost (mkWorld f' []) ps' (bd h) (repo h)) = None /\
    let h1 := others (mkHost (mkWorld f' []) ps' (bd h) (repo h)) in
    let h' := (RecoverWorktree cfg ws prompt others path agent code h).2 in
    repo h' = cleanUntrackedFiles ws path true false (repo h1) /\ disk h' = disk h1.
Proof.
  intros Hq Ht Hl. destruct (stop_holder_quiet info h Hl) as (ps' & E & _).
  destruct (forceRelease_quiet path (set_procs ps' h)) as (f' & Ef & _ & Hn & _); [done|by exists (marshal info)|].
  exists f', ps'. split; [done|]. cbv zeta. unfold RecoverWorktree. rewrite CheckLock_quiet, Ht by done.
  cbn [Lock.CheckLock]. rewrite unmarshal_marshal.
  change (Lock.IsProcessRunning (kill0 (procs h))) with (IsProcessRunning (procs h)). rewrite E, Ef, bool_decide_true by (by left).
  unfold tidy, set_disk, set_procs. simpl. by case_bool_decide.
Qed.

End tracker.

(** ** Claiming a task *)
Section claiming.
Context {locks : JsonCodec Lock.LockInfo} {cps : JsonCodec Checkpoint} (cfg : option (list (string * Lock.WorkspaceConfig))).

Lemma WriteFile_quiet p t w : faults w = [] -> exists w', WriteFile p t w = (None, w') /\ faults w' = [].
Proof.
  destruct w as [f fl]. simpl. intros ->. unfold WriteFile, OpenTrunc, WriteTo, Close, os_call. simpl. by eexists.
Qed.

(** After a claim the lock names the task, and the checkpoint that is left, which
    the next prompt will quote, is one of this task. *)
Theorem claim_keeps_own_checkpoint now cwd taskID title info c w :
  faults w = [] -> wf (files w) -> IsAbs (ResolveLockDir cfg cwd) = true ->
  text_of (files w) (lock_path cfg cwd) = Some (marshal info) -> loaded (ResolveLockDir cfg cwd) w = Ok c ->
  exists w', runClaim cfg now cwd taskID title w = (None, w') /\
    text_of (files w') (lock_path cfg cwd) = Some (marshal (Lock.set_task taskID title (Some now) info)) /\
    loaded (ResolveLockDir cfg cwd) w' = Ok (c ≫= fun cp => if bool_decide (cp_TaskID cp = taskID) then Some cp else None).
Proof.
  intros Hq Hwf Ha Ht Hc. destruct w as [f fl]. simpl in Hq. subst fl. destruct (files_differ _ Ha) as (_ & Hlc & _).
  unfold runClaim. rewrite ReadFile_quiet. simpl in Ht. rewrite Ht. unfold Lock.UpdateLockTask, Lock.update. rewrite unmarshal_marshal.
  set (t' := marshal _). destruct (WriteFile_quiet (lock_path cfg cwd) t' (mkWorld f []) eq_refl) as (w1 & EW & Hf1).
  rewrite EW. cbv beta iota zeta. apply WriteFile_text in EW as (Hwf1 & Ho & Ht1); [|done]. specialize (Ht1 eq_refl).
  assert (loaded (ResolveLockDir cfg cwd) w1 = Ok c) as Hc1 by (rewrite loaded_text in Hc |- *; rewrite Ho; [done|by apply not_eq_sym]).
  destruct w1 as [f1 fl1]. simpl in Hf1. subst fl1. unfold loaded in Hc1. cbn [files] in Hc1.
  assert ((LoadCheckpoint (ResolveLockDir cfg cwd) (mkWorld f1 [])).2 = mkWorld f1 []) as H2
    by (unfold LoadCheckpoint; rewrite ReadFile_quiet; by destruct (text_of f1 _)).
  destruct (LoadCheckpoint _ (mkWorld f1 [])) as [r w2] eqn:EL. simpl in Hc1, H2. subst r w2.
  assert (loaded (ResolveLockDir cfg cwd) (mkWorld f1 []) = Ok c) as Hc2 by (unfold loaded; cbn [files]; by rewrite EL).
  destruct c as [cp|]; [|by exists (mkWorld f1 [])]. simpl. destruct (decide (cp_TaskID cp = taskID)) as [E|E].
  { rewrite bool_decide_false, (bool_decide_true (_ = _)) by tauto. by exists (mkWorld f1 []). }
  rewrite bool_decide_true, (bool_decide_false (_ = _)) by done. eexists. split; [done|].
  destruct (ClearCheckpoint _ _) as [e w2] eqn:EC. simpl.
  assert (honest (mkWorld f1 [])) as Hh by (by apply Forall_nil_2).
  pose proof (ClearCheckpoint_text _ _ _ _ Hh Hwf1 EC) as [Hl _]. revert EC. unfold ClearCheckpoint.
  destruct (Remove _ (mkWorld f1 [])) as [e2 w3] eqn:ER. pose proof (Remove_text _ _ _ _ Hwf1 ER) as (_ & Hro & _ & _).
  intros EC. assert (w2 = w3) as -> by (destruct e2; [case_bool_decide|]; by simplify_eq).
  split; [by rewrite Hro|]. rewrite Hl. destruct e as [e|]; [|done].
  exfalso. unfold Remove, os_call in ER. simpl in ER. destruct (dir f1 !! _); simplify_eq.
Qed.
End claiming.

(** ** The command's choices *)

(** The analysis closes a task only on a line of the answer that begins with
    COMPLETED:, in any case, before any that begins with INCOMPLETE:. *)
Theorem verdict_first lines r : verdict lines = (true, r) ->
  exists l1 l l2, lines = l1 ++ l :: l2 /\ has_prefix (ToUpper (TrimSpace l)) "COMPLETED:" = true /\
    r = after_colon (TrimSpace l) /\
    Forall (fun l => has_prefix (ToUpper (TrimSpace l)) "COMPLETED:" = false /\
                     has_prefix (ToUpper (TrimSpace l)) "INCOMPLETE:" = false) l1.
Proof.
  induction lines as [|l lines IH]; cbn [verdict]; [done|]. cbv zeta.
  destruct (has_prefix _ "COMPLETED:") eqn:E1.
  { intros [= <-]. exists [], l, lines. split_and!; [done|done|done|by apply Forall_nil_2]. }
  destruct (has_prefix _ "INCOMPLETE:") eqn:E2; [done|]. intros (l1 & l' & l2 & -> & Hp & Hr & HF)%IH.
  exists (l :: l1), l', l2. split_and!; [done|done|done|by apply Forall_cons_2].
Qed.

(** A user who does not want the running agent killed changes nothing. *)
Theorem declined_recovery {T G} `{!Beads T, !GitTools G} {locks : JsonCodec Lock.LockInfo} cfg ws prompt others name path
  noAnalyze clean info (h : host T G) :
  faults (disk h) = [] -> text_of (files (disk h)) (lock_path cfg path) = Some (marshal info) ->
  IsProcessRunning (procs h) (Lock.PID info) = true ->
  runRecover cfg ws prompt others name path noAnalyze false false clean h = (0, h).
Proof.
  intros Hq Ht Hr. unfold runRecover, CheckLock. destruct h as [[f fl] ps t g]. simpl in *. subst fl.
  rewrite ReadFile_quiet, Ht. cbn [Lock.CheckLock]. rewrite unmarshal_marshal.
  change (Lock.IsProcessRunning (kill0 _)) with (IsProcessRunning ps). by rewrite Hr.
Qed.

(** ** Finding the worktree of a directory *)
Lemma length_abs_path l : Forall plain_part l -> (length l <= String.length (abs_path l))%nat.
Proof.
  intros Hl. unfold abs_path. simpl. induction Hl as [|p l (Hp & _) _ IH]; [simpl; lia|]. destruct l as [|q l]; [simpl; lia|].
  change (GoString.Join Separator (p :: q :: l)) with (p +:+ String Separator (GoString.Join Separator (q :: l)))%string.
  rewrite length_append. simpl length in *. simpl String.length in *. lia.
Qed.

Lemma find_root_abs exists_ l fuel : Forall plain_part l -> (length l < fuel)%nat ->
  (forall k, exists_ (Join (abs_path (take k l)) ".loom.lock") = false) ->
  find_root exists_ fuel (abs_path l) = Err (Msg "no .loom.lock found").
Proof.
  intros Hl. revert fuel. induction l as [|p l IH] using rev_ind; intros fuel Hf Hno; (destruct fuel as [|n]; [lia|]); cbn [find_root].
  - specialize (Hno 0%nat). simpl in Hno. rewrite Hno. by rewrite bool_decide_true.
  - pose proof (Hno (length (l ++ [p]))) as Hp. rewrite firstn_all in Hp. rewrite Hp.
    apply Forall_app in Hl as [Hl [Hpp _]%Forall_cons]. rewrite Dir_abs_path by done. rewrite bool_decide_false.
    2:{ intros E. apply abs_path_inj in E; [|done|apply Forall_app; split; [done|by constructor]].
        apply (f_equal length) in E. rewrite length_app in E. simpl in E. lia. }
    apply IH; [done|rewrite length_app in Hf; simpl in Hf; lia|]. intros k.
    destruct (decide (k <= length l)%nat).
    + specialize (Hno k). by rewrite take_app_le in Hno.
    + specialize (Hno (length l)). rewrite take_app_length in Hno. by rewrite firstn_all2 by lia.
Qed.

(** The command that signals a task's completion looks for a file of another name
    than the lock has: when no directory above has a file of that name it finds
    no worktree, whatever locks there are, and signals for its own directory. *)
Theorem completion_signal_misses exists_ l :
  Forall plain_part l -> (forall k, exists_ (Join (abs_path (take k l)) ".loom.lock") = false) ->
  complete_path exists_ "" (abs_path l) = abs_path l.
Proof.
  intros Hl Hno. unfold complete_path. rewrite bool_decide_true by done. unfold findWorktreeRoot.
  rewrite find_root_abs; [done|done| |exact Hno]. pose proof (length_abs_path l Hl). lia.
Qed.

(** ** An instance, and the theorems on it *)
Section examples.
Local Open Scope string_scope.

(** A tracker that is a map of issues. *)
Definition demo_list (a : string) (m : gmap string (string * string)) : list string :=
  (map_to_list (filter (fun e => e.2 = ("in_progress", a)) m)).*1.

#[local] Instance demo_beads : Beads (gmap string (string * string)) := {|
  bd_statuses id m := match m !! id with Some (s, _) => Ok [s] | None => Err (Msg "no such issue") end;
  bd_show id _ := Ok id;
  bd_in_progress a m := Ok (demo_list a m);
  bd_reopen id m := (alter (fun _ => ("open", "")) id m, if bool_decide (is_Some (m !! id)) then None else Some (Msg "no such issue"));
  bd_close id _ m := (alter (fun i => ("closed", i.2)) id m, None);
|}.

Lemma demo_list_spec a m id : id ∈ demo_list a m <-> m !! id = Some ("in_progress", a).
Proof.
  unfold demo_list. rewrite list_elem_of_fmap. split.
  - intros ([k v] & -> & Hin). apply elem_of_map_to_list, map_lookup_filter_Some in Hin as [Hm Hv]. simpl in *. by subst.
  - intros Hm. exists (id, ("in_progress", a)). split; [done|]. by apply elem_of_map_to_list, map_lookup_filter_Some.
Qed.

#[local] Instance demo_tracker : Tracker (gmap string (string * string)).
Proof.
  refine {| issues := fun m => m |}.
  - intros id m. simpl. destruct (m !! id) as [[s a]|]; [done|by eexists].
  - intros a m. eexists. split; [done|]. apply demo_list_spec.
  - done.
Defined.

(** A repository with some changes and untracked files. *)
#[local] Instance demo_git : GitTools (list string) := {|
  git_diff _ g := Ok "+x";
  git_clean_dry _ g := Ok (String.concat "," g);
  git_clean _ _ := ([], None);
  git_log _ id _ := id;
  claude _ _ _ := Ok "COMPLETED: yes";
|}.

#[local] Instance lock_coded : JsonCodec Lock.LockInfo := coded
  (fun i => (Lock.PID i, Lock.Command i, Lock.StartedAt i, Lock.AgentName i, Lock.TaskID i, Lock.TaskTitle i, Lock.TaskStartedAt i, Lock.State i, Lock.Workspace i))
  (fun '(a, b, c, d, e, f, g, h, i) => Lock.mkInfo a b c d e f g h i) ltac:(by intros []).
#[local] Instance cp_coded : JsonCodec Checkpoint := coded
  (fun c => (cp_AgentName c, cp_TaskID c, cp_EpicID c, cp_GitDiff c, cp_ExitCode c, cp_ErrorClass c, cp_Timestamp c))
  (fun '(a, b, c, d, e, f, g) => mkCheckpoint a b c d e f g) ltac:(by intros []).

Definition demo_info : Lock.LockInfo := Lock.mkInfo 7 "plan" 1 "falcon" "bd-1" "title" (Some 2) "active" "".
Definition demo_cp (task : string) : Checkpoint := mkCheckpoint "falcon" task "" "+x" 1 "" 5.

(** The lock of "/w/lib", whose process leads a group, and a checkpoint. *)
Definition demo_disk : world :=
  mkWorld (mkFs {[ "/w/.agent.lock" := 0%nat; "/w/.agent.checkpoint.json" := 1%nat ]}
             {[ 0%nat := marshal demo_info; 1%nat := marshal (demo_cp "bd-9") ]} 2) [].
Definition demo_procs : gmap Z process := {[ 7 := mkProcess 7 true (Some 3%nat) None; 8 := mkProcess 7 true None None ]}.
Definition demo_issues : gmap string (string * string) :=
  {[ "bd-1" := ("in_progress", "falcon"); "bd-2" := ("in_progress", "falcon"); "bd-3" := ("in_progress", "ember") ]}.
Definition demo_host : host (gmap string (string * string)) (list string) := mkHost demo_disk demo_procs demo_issues ["junk"].

(** One workspace with two repositories. *)
Definition demo_cfg : option (list (string * Lock.WorkspaceConfig)) :=
  Some [("ws", Lock.mkWorkspace "/w" [Lock.mkRepo "lib"; Lock.mkRepo "app"])].
Definition demo_prompt (a b c : string) : string := a +:+ b +:+ c.

Lemma demo_wf : wf (files demo_disk).
Proof.
  split; simpl.
  - intros x y i [[<- <-]|[_ [<- <-]%lookup_singleton_Some]]%lookup_insert_Some
      [[<- E]|[_ [<- E]%lookup_singleton_Some]]%lookup_insert_Some; done.
  - intros x i [[<- <-]|[_ [<- <-]%lookup_singleton_Some]]%lookup_insert_Some; lia.
Qed.

Lemma demo_lock : lock_text demo_cfg "/w/lib" demo_host = Some (marshal demo_info).
Proof. vm_compute. reflexivity. Qed.

Lemma demo_leads : leads demo_info demo_procs.
Proof. intros _. exists (mkProcess 7 true (Some 3%nat) None). split; vm_compute; reflexivity. Qed.

Lemma checkpoint_refines_cell_witness :
  let w := mkWorld (files demo_disk) [None; Some (5%nat, Msg "disk full"); None; None; None; None; None; Some (0%nat, Msg "io")] in
  let ops := [OpSave (demo_cp "bd-1"); OpSave (demo_cp "bd-2"); OpClear] in
  loaded "/w" w = Ok (Some (demo_cp "bd-9")) /\
  let (es, w') := cp_run "/w" ops w in
  es = [Some (Wrapf "failed to write checkpoint tmp: " (Msg "disk full") ""); None;
        Some (Wrapf "failed to remove checkpoint: " (Msg "io") "")] /\
  loaded "/w" w' = Ok (foldl cell_exec (Some (demo_cp "bd-9")) (zip ops es)).
Proof.
  intros w ops. assert (loaded "/w" w = Ok (Some (demo_cp "bd-9"))) as Hl by (vm_compute; reflexivity). split; [exact Hl|].
  pose proof (checkpoint_refines_cell "/w" ops w (Some (demo_cp "bd-9")) eq_refl demo_wf
    ltac:(repeat constructor; done) Hl) as H.
  assert ((cp_run "/w" ops w).1 = [Some (Wrapf "failed to write checkpoint tmp: " (Msg "disk full") ""); None;
        Some (Wrapf "failed to remove checkpoint: " (Msg "io") "")]) as He by (vm_compute; reflexivity).
  destruct (cp_run "/w" ops w) as [es w']. split; [exact He|exact H].
Defined.

(** Changes in characters of two bytes: the cut ends inside one, and what JSON keeps
    is longer than the limit. *)
Example cut_inside_character :
  let d := Nat.iter 3000 (fun s => String "195" (String "169" s)) "x" in
  match truncateDiff ("a" +:+ d) maxDiffBytes, truncateDiff d maxDiffBytes with
  | Some cut1, Some cut2 => (len (coerce_utf8 cut1), len (coerce_utf8 cut2)) = (4098, 4096)
  | _, _ => False
  end.
Proof. vm_compute. reflexivity. Qed.


Lemma trust_ends_at_preflight_witness :
  exists h1 h2, RecoverWorktree demo_cfg [] demo_prompt id "/w/lib" "falcon" 0 demo_host = (None, h1) /\
    issues (bd h1) !! "bd-1" = Some ("in_progress", "falcon") /\
    RecoverWorktree demo_cfg [] demo_prompt id "/w/lib" "falcon" 0 h1 = (None, h2) /\
    issues (bd h2) !! "bd-1" = Some ("open", "").
Proof.
  apply (trust_ends_at_preflight demo_cfg [] demo_prompt "/w/lib" "falcon" demo_info demo_host);
    [exact (conj eq_refl demo_wf)|exact demo_lock|exact demo_leads|done|done|reflexivity].
Defined.

Lemma neighbour_stopped_witness :
  IsProcessRunning demo_procs 7 = true /\
  exists h', RecoverWorktree demo_cfg [] demo_prompt id "/w/app" "ember" 0 demo_host = (None, h') /\
    IsProcessRunning (tick (procs h')) 7 = false /\ lock_text demo_cfg "/w/lib" h' = None.
Proof.
  split; [vm_compute; reflexivity|].
  apply (neighbour_stopped demo_cfg [] demo_prompt "/w/lib" "/w/app" "ember" demo_info (mkProcess 7 true (Some 3%nat) None) demo_host);
    [exact (conj eq_refl demo_wf)|vm_compute; reflexivity|exact demo_lock|vm_compute; reflexivity|split; vm_compute; reflexivity].
Defined.

Lemma claim_keeps_own_checkpoint_witness :
  exists w', runClaim demo_cfg 6 "/w/lib" "bd-2" "other" demo_disk = (None, w') /\
    text_of (files w') "/w/.agent.lock" = Some (marshal (Lock.set_task "bd-2" "other" (Some 6) demo_info)) /\
    loaded "/w" w' = Ok None.
Proof.
  destruct (claim_keeps_own_checkpoint demo_cfg 6 "/w/lib" "bd-2" "other" demo_info (Some (demo_cp "bd-9")) demo_disk)
    as (w' & H); [reflexivity|exact demo_wf|vm_compute; reflexivity|exact demo_lock|vm_compute; reflexivity|].
  exists w'. exact H.
Defined.

Lemma completion_signal_misses_witness :
  let exists_ d := bool_decide (d = "/w/lib/.agent.lock") in
  exists_ (Join "/w/lib" LockFileName) = true /\ complete_path exists_ "" "/w/lib/pkg" = "/w/lib/pkg".
Proof.
  intros exists_. split; [vm_compute; reflexivity|].
  apply (completion_signal_misses exists_ ["w"; "lib"; "pkg"]); [repeat constructor; done|].
  intros k. destruct k as [|[|[|k]]]; [..|rewrite firstn_all2 by (simpl; lia)]; vm_compute; reflexivity.
Defined.
End examples.
End Recovery.
