(* ===== verification/Subscription.v ===== *)
(** * Subscription: from the daemon's mutations to the hub,
    [internal/webui/subscription.go]

    The two loops of [DaemonSubscriber], one turn at a time, over an interface to
    the pool, the daemon's calls, the hub and the clock ([Daemon]). What the
    daemon promises is stated by two further interfaces: its bounded buffer of
    mutations ([MutationServer]), against which the first loop refines an abstract
    delivery, and the contents of the database ([IssueServer]), for the second.
    The text of answers and of times is read and printed by parameters. *)
From S2P Require Import Prelude SseHub.
Local Open Scope Z_scope.
Local Open Scope go_scope.

Module Sub.
Import Sse.

(** ** Data *)

(** [ME_Timestamp] in nanoseconds. *)
Record MutationEvent := mkEvent {
  ME_Type : string;
  ME_IssueID : string;
  ME_Title : string;
  ME_Assignee : string;
  ME_Actor : string;
  ME_Timestamp : Z;
  ME_OldStatus : string;
  ME_NewStatus : string;
  ME_ParentID : string;
  ME_StepCount : Z;
}.

Record Response := mkResponse { Success : bool; Data : string; Error : string }.

(** [countInitialized] and what it guards, and the mark of the mutations. *)
Record DaemonSubscriber := mkSub {
  lastSince : Z;
  useFallback : bool;
  lastKnownCount : Z;
  lastPollTime : Z;
  countInitialized : bool;
}.

Definition NewDaemonSubscriber : DaemonSubscriber := mkSub 0 false 0 0 false.

Definition set_since (z : Z) (s : DaemonSubscriber) : DaemonSubscriber :=
  mkSub z (useFallback s) (lastKnownCount s) (lastPollTime s) (countInitialized s).
Definition set_fallback (s : DaemonSubscriber) : DaemonSubscriber :=
  mkSub (lastSince s) true (lastKnownCount s) (lastPollTime s) (countInitialized s).
Definition set_poll (count now : Z) (s : DaemonSubscriber) : DaemonSubscriber :=
  mkSub (lastSince s) (useFallback s) count now true.

Definition subscriptionTimeout : Z := 30 * second.
Definition subscriptionRetryDelay : Z := 2 * second.
Definition fallbackPollInterval : Z := 100 * millisecond.
Definition externalPollInterval : Z := 3 * second.
Definition MutationRefresh : string := "refresh".

(** ** The interface: pool, daemon, hub, clock *)
Class Daemon (W : Type) := {
  Get : W -> W * res nat;
  Put : nat -> W -> W;
  Discard : nat -> W -> W;
  WaitForMutations : nat -> Z -> Z -> W -> W * res Response;
  GetMutations : nat -> Z -> W -> W * res Response;
  Count : nat -> option string -> W -> W * res Response;
  Now : W -> W * Z;
  wait : Z -> W -> W;
  Broadcast : MutationPayload -> W -> W;
  stopped : W -> bool;
}.

Section subscriber.
Context {W : Type} `{!Daemon W} (rfc3339 : Z -> string)
        (decode_mutations : string -> option (list MutationEvent)) (decode_count : string -> option Z).

Definition UnixMilli (m : MutationEvent) : Z := ME_Timestamp m / millisecond.

Definition rpcMutationToPayload (m : MutationEvent) : MutationPayload :=
  mkPayload (ME_Type m) (ME_IssueID m) (ME_Title m) (ME_Assignee m) (ME_Actor m) (rfc3339 (ME_Timestamp m))
    (ME_OldStatus m) (ME_NewStatus m) (ME_ParentID m) (ME_StepCount m).

Definition isUnknownOperationError (err : goerror) : bool :=
  let errStr := error_text err in
  contains errStr "unknown operation" || contains errStr "unsupported".

Definition max_timestamp (ms : list MutationEvent) : Z :=
  foldl (fun mx m => if mx <? UnixMilli m then UnixMilli m else mx) 0 ms.

Definition broadcast_all (ms : list MutationEvent) (w : W) : W :=
  foldl (fun w m => Broadcast (rpcMutationToPayload m) w) w ms.

(** The mark moves before the first mutation is broadcast. *)
Definition processMutationResponse (resp : Response) (s : DaemonSubscriber) (w : W) : DaemonSubscriber * W :=
  match decode_mutations (Data resp) with
  | None => (s, w)
  | Some [] => (s, w)
  | Some ms =>
      let mx := max_timestamp ms in
      let s1 := if (0 <? mx) && (lastSince s <=? mx) then set_since (mx + 1) s else s in
      (s1, broadcast_all ms w)
  end.

(** A connection is given up after an error here, but not in [pollMutations],
    [pollDBChanges] and [GetMutationsSince]. *)
Definition waitForMutations (s : DaemonSubscriber) (w : W) : DaemonSubscriber * W :=
  match Get w with
  | (w1, Err _) => (s, wait subscriptionRetryDelay w1)
  | (w1, Ok client) =>
      match WaitForMutations client (lastSince s) (subscriptionTimeout / millisecond) w1 with
      | (w2, Err err) =>
          let w3 := Discard client w2 in
          if isUnknownOperationError err then (set_fallback s, w3)
          else (s, wait subscriptionRetryDelay w3)
      | (w2, Ok resp) =>
          let w3 := Put client w2 in
          if negb (Success resp) then (s, wait subscriptionRetryDelay w3)
          else processMutationResponse resp s w3
      end
  end.

Definition pollMutations (s : DaemonSubscriber) (w : W) : DaemonSubscriber * W :=
  match Get w with
  | (w1, Err _) => (s, wait subscriptionRetryDelay w1)
  | (w1, Ok client) =>
      match GetMutations client (lastSince s) w1 with
      | (w2, Err _) => (s, Put client (wait subscriptionRetryDelay w2))
      | (w2, Ok resp) =>
          if negb (Success resp) then (s, Put client (wait subscriptionRetryDelay w2))
          else
            let '(s1, w3) := processMutationResponse resp s w2 in
            (s1, Put client (wait fallbackPollInterval w3))
      end
  end.

(** One turn of [subscriptionLoop], and [n] turns; [pool] is false when there is
    none. *)
Definition subscription_turn (pool : bool) (s : DaemonSubscriber) (w : W) : DaemonSubscriber * W :=
  if negb pool then (s, wait subscriptionRetryDelay w)
  else if useFallback s then pollMutations s w else waitForMutations s w.

Fixpoint subscriptionLoop (pool : bool) (n : nat) (s : DaemonSubscriber) (w : W) : DaemonSubscriber * W :=
  match n with
  | O => (s, w)
  | S n' =>
      if stopped w then (s, w)
      else let '(s1, w1) := subscription_turn pool s w in subscriptionLoop pool n' s1 w1
  end.

(** [nil] is the empty list. *)
Definition GetMutationsSince (pool : bool) (since : Z) (w : W) : list MutationEvent * W :=
  if negb pool then ([], w)
  else
    match Get w with
    | (w1, Err _) => ([], w1)
    | (w1, Ok client) =>
        match GetMutations client since w1 with
        | (w2, Err _) => ([], Put client w2)
        | (w2, Ok resp) =>
            if negb (Success resp) then ([], Put client w2)
            else (default [] (decode_mutations (Data resp)), Put client w2)
        end
    end.

(** ** Changes behind the daemon's back *)
Definition refresh (now : Z) : MutationPayload := mkPayload MutationRefresh "" "" "" "" (rfc3339 now) "" "" "" 0.

(** The second query of [pollDBChanges]. *)
Definition updated_since (client : nat) (lastPollTime : Z) (w : W) : bool * W :=
  match Count client (Some (rfc3339 lastPollTime)) w with
  | (w1, Ok resp) =>
      (Success resp && match decode_count (Data resp) with Some n => 0 <? n | None => false end, w1)
  | (w1, Err _) => (false, w1)
  end.

Definition pollDBChanges (s : DaemonSubscriber) (w : W) : DaemonSubscriber * W :=
  match Get w with
  | (w1, Err _) => (s, w1)
  | (w1, Ok client) =>
      match Count client None w1 with
      | (w2, Err _) => (s, Put client w2)
      | (w2, Ok resp) =>
          if negb (Success resp) then (s, Put client w2)
          else
            match decode_count (Data resp) with
            | None => (s, Put client w2)
            | Some totalCount =>
                let '(w3, now) := Now w2 in
                if negb (countInitialized s) then (set_poll totalCount now s, Put client w3)
                else
                  let '(changeDetected, w4) :=
                    if bool_decide (totalCount <> lastKnownCount s) then (true, w3)
                    else updated_since client (lastPollTime s) w3 in
                  if changeDetected then (set_poll totalCount now s, Put client (Broadcast (refresh now) w4))
                  else (set_poll (lastKnownCount s) now s, Put client w4)
            end
      end
  end.

(** One turn of [externalChangeLoop]. *)
Definition external_turn (pool : bool) (s : DaemonSubscriber) (w : W) : DaemonSubscriber * W :=
  let w1 := wait externalPollInterval w in
  if stopped w1 then (s, w1) else if negb pool then (s, w1) else pollDBChanges s w1.
End subscriber.

(** ** What the daemon promises: its buffer of mutations

    The daemon ([third_party/beads/internal/rpc/server_core.go]: [emitRichMutation],
    [GetRecentMutations]) keeps the last hundred mutations in memory, and none of
    before it was started. Its history is what it recorded and when it was
    restarted; an answer gives what the buffer held at some moment of the call,
    of times after the given one. [sent] is what was broadcast. *)
Inductive happening := Recorded (m : MutationEvent) | Restarted.

Definition maxMutationBuffer : nat := 100.
Definition emit (buffer : list MutationEvent) (m : MutationEvent) : list MutationEvent :=
  let b := buffer ++ [m] in if (maxMutationBuffer <? length b)%nat then tail b else b.
Definition happen (buffer : list MutationEvent) (e : happening) : list MutationEvent :=
  match e with Recorded m => emit buffer m | Restarted => [] end.
Definition recent (h : list happening) : list MutationEvent := foldl happen [] h.

Definition recorded (h : list happening) : list MutationEvent :=
  omap (fun e => match e with Recorded m => Some m | Restarted => None end) h.

Definition after (since : Z) (m : MutationEvent) : Prop := since < UnixMilli m.
#[export] Instance after_dec since m : Decision (after since m) := decide (since < UnixMilli m).

Definition keeps {W} (history : W -> list happening) (sent : W -> list MutationPayload) (w w' : W) : Prop :=
  history w `prefix_of` history w' /\ sent w' = sent w.
Definition answers {W} (decode : string -> option (list MutationEvent)) (history : W -> list happening)
    (since : Z) (w : W) (a : W * res Response) : Prop :=
  forall resp, a.2 = Ok resp -> Success resp = true ->
  exists h, history w `prefix_of` h /\ h `prefix_of` history a.1 /\ decode (Data resp) = Some (filter (after since) (recent h)).

Class MutationServer {W} `{!Daemon W} (decode : string -> option (list MutationEvent))
    (history : W -> list happening) (sent : W -> list MutationPayload) := {
  get_keeps w : keeps history sent w (Get w).1;
  put_keeps c w : keeps history sent w (Put c w);
  discard_keeps c w : keeps history sent w (Discard c w);
  wait_keeps d w : keeps history sent w (wait d w);
  wait_for_keeps c since t w : keeps history sent w (WaitForMutations c since t w).1;
  get_mutations_keeps c since w : keeps history sent w (GetMutations c since w).1;
  wait_for_answers c since t w : answers decode history since w (WaitForMutations c since t w);
  get_mutations_answers c since w : answers decode history since w (GetMutations c since w);
  broadcast_sent p w : history w `prefix_of` history (Broadcast p w) /\ sent (Broadcast p w) = sent w ++ [p];
}.

(** ** The buffer *)

(** Nothing was restarted, and no more recorded than the buffer holds. *)
Definition calm (h : list happening) : Prop := (Restarted ∉ h) /\ (length (recorded h) <= maxMutationBuffer)%nat.
#[export] Instance happening_eq_dec : EqDecision happening.
Proof. assert (EqDecision MutationEvent) by solve_decision. solve_decision. Defined.
#[export] Instance calm_dec h : Decision (calm h).
Proof. unfold calm. apply _. Defined.

Lemma recent_snoc h e : recent (h ++ [e]) = happen (recent h) e.
Proof. unfold recent. by rewrite foldl_app. Qed.

Lemma recorded_app h h' : recorded (h ++ h') = recorded h ++ recorded h'.
Proof. apply omap_app. Qed.

(** What the buffer holds later: the last of what it held, and the last of what was
    recorded since; all of this when it is no more than fits. *)
Lemma recent_app h h' :
  exists old new, recent (h ++ h') = old ++ new /\ old `suffix_of` recent h /\ new `suffix_of` recorded h' /\
    (calm h' -> new = recorded h').
Proof.
  induction h' as [|e h' (old & new & E & Ho & Hn & Hc)] using rev_ind.
  { exists (recent h), []. rewrite !app_nil_r. by split_and!. }
  rewrite app_assoc, recent_snoc, E, recorded_app. destruct e as [m|]; simpl.
  2:{ exists [], []. split_and!; [done|apply suffix_nil..|]. intros [Hr _]. exfalso. apply Hr, elem_of_app. right. by left. }
  assert (calm (h' ++ [Recorded m]) -> new = recorded h') as Hc'.
  { intros [Hr Hl]. apply Hc. rewrite recorded_app, length_app in Hl. split; [|lia]. intros Hin. apply Hr, elem_of_app. by left. }
  unfold emit. destruct (Nat.ltb_spec maxMutationBuffer (length ((old ++ new) ++ [m]))) as [Hlt|Hle].
  - destruct old as [|x old]; simpl.
    + exists [], (tail (new ++ [m])). split_and!; [done|apply suffix_nil| |].
      * destruct Hn as [k ->]. destruct new as [|y new]; simpl; [apply suffix_nil|].
        exists (k ++ [y]). by rewrite <- !app_assoc.
      * intros Hcalm. rewrite (Hc' Hcalm) in *. destruct Hcalm as [_ Hl]. rewrite recorded_app, length_app in Hl.
        simpl in *. rewrite length_app in Hlt. simpl in Hlt. lia.
    + exists old, (new ++ [m]). rewrite app_assoc. split_and!; [done| | |].
      * etrans; [|exact Ho]. by exists [x].
      * destruct Hn as [k ->]. exists k. by rewrite <- app_assoc.
      * intros Hcalm. by rewrite (Hc' Hcalm).
  - exists old, (new ++ [m]). rewrite app_assoc. split_and!; [done..| |].
    { destruct Hn as [k ->]. exists k. by rewrite <- app_assoc. } intros Hcalm. by rewrite (Hc' Hcalm).
Qed.

(** ** The abstract delivery

    [delivered rfc segs since out]: a list of answers, each for the history up to
    it, [segs] being what happened between them; each took what the buffer held
    that was newer than the mark of the one before it, and moved the mark past
    the newest. *)
Section delivery.
Context (rfc3339 : Z -> string).

Inductive delivered : list (list happening) -> Z -> list MutationPayload -> Prop :=
| delivered_start : delivered [] 0 []
| delivered_answer segs since out seg :
    delivered segs since out ->
    let fresh := filter (after since) (recent (concat (segs ++ [seg]))) in
    delivered (segs ++ [seg]) (if decide (fresh = []) then since else max_timestamp fresh + 1)
      (out ++ map (rpcMutationToPayload rfc3339) fresh).

Lemma max_fold ms mx :
  let r := foldl (fun mx m => if mx <? UnixMilli m then UnixMilli m else mx) mx ms in
  mx <= r /\ Forall (fun m => UnixMilli m <= r) ms.
Proof.
  revert mx. induction ms as [|m ms IH]; intros mx; simpl; [split; [lia|constructor]|].
  destruct (IH (if mx <? UnixMilli m then UnixMilli m else mx)) as [H1 H2].
  destruct (Z.ltb_spec mx (UnixMilli m)); (split; [lia|constructor; [lia|done]]).
Qed.

Lemma max_timestamp_bound ms : 0 <= max_timestamp ms /\ Forall (fun m => UnixMilli m <= max_timestamp ms) ms.
Proof. apply (max_fold ms 0). Qed.

(** The mark is beyond everything that the buffer held at the last answer. *)
Lemma delivered_mark segs since out :
  delivered segs since out -> 0 <= since /\ Forall (fun m => UnixMilli m <= since) (recent (concat segs)).
Proof.
  induction 1 as [|segs since out seg H [IH0 _] fresh]; [split; [lia|constructor]|].
  pose proof (max_timestamp_bound fresh) as [Hm0 Hm].
  assert (forall m, m ∈ recent (concat (segs ++ [seg])) -> UnixMilli m <= since \/ m ∈ fresh) as Hin.
  { intros m Hm'. destruct (decide (after since m)) as [Ha|Ha]; [right; by apply list_elem_of_filter|left; unfold after in Ha; lia]. }
  assert (forall m, m ∈ fresh -> since < UnixMilli m <= max_timestamp fresh) as Hf.
  { intros m Hm'. rewrite Forall_forall in Hm. specialize (Hm m Hm'). apply list_elem_of_filter in Hm' as [Ha _]. unfold after in Ha. simpl in Hm. lia. }
  case_decide as E.
  - split; [done|]. apply Forall_forall. intros m [Hle|Hm']%Hin; [done|]. rewrite E in Hm'. by apply not_elem_of_nil in Hm'.
  - split; [lia|]. apply Forall_forall. intros m [Hle|Hm']%Hin; [|specialize (Hf m Hm'); lia].
    destruct fresh as [|m' f]; [done|]. specialize (Hf m' ltac:(by left)). lia.
Qed.

(** What an answer adds was recorded since the last one. *)
Lemma delivered_fresh segs since out seg :
  delivered segs since out ->
  exists new, filter (after since) (recent (concat (segs ++ [seg]))) = filter (after since) new /\
    new `suffix_of` recorded seg /\ (calm seg -> new = recorded seg).
Proof.
  intros H. destruct (recent_app (concat segs) seg) as (old & new & E & [k Ho] & Hn & Hc).
  rewrite concat_app. simpl. rewrite app_nil_r, E, filter_app. exists new. split_and!; try done.
  rewrite (filter_none (after since) old); [done|].
  destruct (delivered_mark _ _ _ H) as [_ HF]. rewrite Ho in HF. apply Forall_app in HF as [_ HF].
  eapply Forall_impl; [exact HF|]. intros m. unfold after. simpl. lia.
Qed.

Lemma recorded_concat_snoc segs seg : recorded (concat (segs ++ [seg])) = recorded (concat segs) ++ recorded seg.
Proof. rewrite concat_app, recorded_app. simpl. by rewrite app_nil_r. Qed.

(** Nothing is delivered twice, and the order is that of the history. *)
Lemma delivered_once segs since out :
  delivered segs since out ->
  exists kept, kept `sublist_of` recorded (concat segs) /\ out = map (rpcMutationToPayload rfc3339) kept.
Proof.
  induction 1 as [|segs since out seg H (kept & Hk & ->) fresh]; [by exists []|].
  destruct (delivered_fresh _ _ _ seg H) as (new & E & Hn & _). exists (kept ++ fresh).
  split; [|by rewrite map_app]. rewrite recorded_concat_snoc. apply sublist_app; [done|].
  subst fresh. rewrite E. etrans; [apply sublist_filter|].
  destruct Hn as [k ->]. by apply sublist_inserts_l.
Qed.

(** At least two milliseconds apart. *)
Definition spaced (l : list MutationEvent) : Prop :=
  Forall (fun m => 0 < UnixMilli m) l /\ StronglySorted (fun a b => UnixMilli a + 1 < UnixMilli b) l.

Lemma max_attained ms : ms <> [] -> Forall (fun m => 0 < UnixMilli m) ms ->
  exists m, m ∈ ms /\ max_timestamp ms = UnixMilli m.
Proof.
  intros Hne HF. assert (forall mx, foldl (fun mx m => if mx <? UnixMilli m then UnixMilli m else mx) mx ms = mx \/
    exists m, m ∈ ms /\ foldl (fun mx m => if mx <? UnixMilli m then UnixMilli m else mx) mx ms = UnixMilli m) as H.
  { clear. induction ms as [|m ms IH]; intros mx; simpl; [by left|].
    destruct (IH (if mx <? UnixMilli m then UnixMilli m else mx)) as [E|(m' & Hin & E)].
    - rewrite E. destruct (mx <? UnixMilli m); [right; exists m; split; [by left|done]|by left].
    - right. exists m'. split; [by right|done]. }
  destruct (H 0) as [E|E]; [|done]. exfalso. destruct ms as [|m ms]; [done|].
  pose proof (max_timestamp_bound (m :: ms)) as [_ [Hm _]%Forall_cons]. apply Forall_cons in HF as [Hp _].
  unfold max_timestamp in Hm. rewrite E in Hm. lia.
Qed.

Lemma delivered_spaced segs since out :
  delivered segs since out -> spaced (recorded (concat segs)) -> Forall calm segs ->
  out = map (rpcMutationToPayload rfc3339) (recorded (concat segs)) /\
  (since = 0 /\ recorded (concat segs) = [] \/ exists m, m ∈ recorded (concat segs) /\ since = UnixMilli m + 1).
Proof.
  induction 1 as [|segs since out seg H IH fresh]; intros Hsp HC; [split; [done|by left]|].
  apply Forall_app in HC as [HC [Hcalm _]%Forall_cons]. rewrite recorded_concat_snoc in *.
  destruct Hsp as [[HF1 HF2]%Forall_app (HS & HS1 & HS2)%StronglySorted_app].
  destruct (IH (conj HF1 HS1) HC) as [-> Hsince].
  destruct (delivered_fresh _ _ _ seg H) as (new & E & _ & Hn). specialize (Hn Hcalm) as ->.
  assert (fresh = recorded seg) as ->.
  { subst fresh. rewrite E. apply filter_all. apply Forall_forall. intros m Hm. unfold after.
    destruct Hsince as [[-> El]|(m' & Hm' & ->)]; [by rewrite Forall_forall in HF2; apply HF2|]. by apply HS. }
  split; [by rewrite map_app|]. case_decide as En.
  - rewrite En, app_nil_r. done.
  - right. destruct (max_attained _ En HF2) as (m & Hm & ->). exists m. split; [|done]. apply elem_of_app. by right.
Qed.
End delivery.

(** ** The subscriber against the history *)
Section refinement.
Context {W : Type} `{!Daemon W} (rfc3339 : Z -> string)
        (decode_mutations : string -> option (list MutationEvent)) (decode_count : string -> option Z)
        (history : W -> list happening) (sent : W -> list MutationPayload)
        {server : MutationServer decode_mutations history sent}.

Abbreviation turn := (subscription_turn rfc3339 decode_mutations).
Abbreviation loop := (subscriptionLoop rfc3339 decode_mutations).

Lemma marks_trans w1 w2 w3 : keeps history sent w1 w2 -> keeps history sent w2 w3 -> keeps history sent w1 w3.
Proof. intros [H1 E1] [H2 E2]. split; [by etrans|congruence]. Qed.

(** The answers so far. *)
Definition upto (segs : list (list happening)) (s : DaemonSubscriber) (w : W) : Prop :=
  concat segs `prefix_of` history w /\ delivered rfc3339 segs (lastSince s) (sent w).

Lemma upto_keeps segs s w w' : upto segs s w -> keeps history sent w w' -> upto segs s w'.
Proof. intros [Hp Hd] [Hl Hs]. split; [by etrans|by rewrite Hs]. Qed.

Lemma broadcast_all_sent ms w :
  history w `prefix_of` history (broadcast_all rfc3339 ms w) /\
  sent (broadcast_all rfc3339 ms w) = sent w ++ map (rpcMutationToPayload rfc3339) ms.
Proof.
  revert w. induction ms as [|m ms IH]; intros w; simpl; [by rewrite app_nil_r|].
  destruct (IH (Broadcast (rpcMutationToPayload rfc3339 m) w)) as [Hp ->].
  destruct (broadcast_sent (rpcMutationToPayload rfc3339 m) w) as [Hp' ->].
  split; [by etrans|]. by rewrite <- app_assoc.
Qed.

(** An answer that was given for [h] and is processed in [w]. *)
Lemma process_upto segs s h w resp :
  upto segs s w -> concat segs `prefix_of` h -> h `prefix_of` history w ->
  decode_mutations (Data resp) = Some (filter (after (lastSince s)) (recent h)) ->
  let '(s', w') := processMutationResponse rfc3339 decode_mutations resp s w in
  exists seg, h = concat (segs ++ [seg]) /\ upto (segs ++ [seg]) s' w'.
Proof.
  intros [_ Hd] [seg Hh] Hw E. assert (h = concat (segs ++ [seg])) as Ehs by (rewrite concat_app; simpl; by rewrite app_nil_r).
  clear Hh. pose proof (delivered_answer rfc3339 segs (lastSince s) _ seg Hd) as Hnext. cbv zeta in Hnext. rewrite <- Ehs in Hnext.
  pose proof (delivered_mark rfc3339 _ _ _ Hd) as [H0 _]. unfold processMutationResponse. rewrite E. clear E.
  destruct (filter (after (lastSince s)) (recent h)) as [|m fresh] eqn:Ef.
  { simpl in Hnext. rewrite app_nil_r in Hnext. exists seg. split; [done|]. split; [by rewrite <- Ehs|done]. }
  rewrite decide_False in Hnext by done. set (ms := m :: fresh) in *.
  assert (lastSince s < max_timestamp ms) as Hlt.
  { pose proof (max_timestamp_bound ms) as [_ [Hm _]%Forall_cons].
    assert (m ∈ filter (after (lastSince s)) (recent h)) as [Ha _]%list_elem_of_filter by (rewrite Ef; left).
    unfold after in Ha. lia. }
  destruct (broadcast_all_sent ms w) as [Hp Hb].
  rewrite (proj2 (Z.ltb_lt 0 (max_timestamp ms))) by lia. rewrite (proj2 (Z.leb_le _ _)) by lia. cbn [andb].
  exists seg. split; [done|]. split; [rewrite <- Ehs; by etrans|]. by rewrite Hb.
Qed.

Ltac keep_going :=
  repeat match goal with
  | H : keeps _ _ ?w ?w' |- keeps _ _ ?w ?w' => exact H
  | |- keeps _ _ ?w ?w => by split
  | |- keeps _ _ _ (Put _ _) => eapply marks_trans; [|apply put_keeps]
  | |- keeps _ _ _ (Discard _ _) => eapply marks_trans; [|apply discard_keeps]
  | |- keeps _ _ _ (wait _ _) => eapply marks_trans; [|apply wait_keeps]
  | H1 : keeps _ _ ?w ?w1, H2 : keeps _ _ ?w1 ?w2 |- keeps _ _ ?w ?w2 => exact (marks_trans _ _ _ H1 H2)
  end.

(** A turn adds no answer, or one. *)
Lemma turn_upto pool segs s w : upto segs s w -> exists segs', upto segs' (turn pool s w).1 (turn pool s w).2.
Proof.
  intros H. assert (forall s' w', lastSince s' = lastSince s -> keeps history sent w w' -> exists segs', upto segs' s' w') as Hstay.
  { intros s' w' E K. exists segs. destruct (upto_keeps _ _ _ _ H K) as [Hp Hd]. split; [done|by rewrite E]. }
  assert (forall w1 a w3 resp, keeps history sent w w1 -> keeps history sent w1 a.1 -> keeps history sent a.1 w3 ->
    answers decode_mutations history (lastSince s) w1 a -> a.2 = Ok resp -> Success resp = true ->
    exists segs', upto segs' (processMutationResponse rfc3339 decode_mutations resp s w3).1 (processMutationResponse rfc3339 decode_mutations resp s w3).2) as Hproc.
  { intros w1 a w3 resp K K1 K' A Ea Es. destruct (A _ Ea Es) as (h & Hh & Hh' & E).
    pose proof (process_upto segs s h w3 resp) as X. destruct (processMutationResponse _ _ resp s w3) as [s' w4].
    destruct X as (seg & _ & X); [| | |exact E|by exists (segs ++ [seg])].
    - eapply upto_keeps; [exact H|]. by do 2 (eapply marks_trans; [eassumption|]).
    - etrans; [apply H|]. etrans; [apply K|exact Hh].
    - etrans; [exact Hh'|apply K']. }
  unfold subscription_turn. destruct pool; simpl; [|by apply Hstay; [|keep_going]].
  destruct (useFallback s).
  - unfold pollMutations. pose proof (get_keeps w) as K1. destruct (Get w) as [w1 [c|e]]; simpl in *;
      [|by apply Hstay; [|keep_going]].
    pose proof (get_mutations_keeps c (lastSince s) w1) as K2.
    pose proof (get_mutations_answers c (lastSince s) w1) as A.
    destruct (GetMutations c (lastSince s) w1) as [w2 [resp|e]]; simpl in *; [|by apply Hstay; [|keep_going]].
    destruct (Success resp) eqn:Es; simpl; [|by apply Hstay; [|keep_going]].
    specialize (Hproc w1 (w2, Ok resp) w2 resp K1 K2 ltac:(simpl; keep_going) A eq_refl Es) as [segs' Hproc].
    destruct (processMutationResponse _ _ resp s w2) as [s' w3]. exists segs'.
    eapply (upto_keeps _ _ w3); [exact Hproc|simpl; keep_going].
  - unfold waitForMutations. pose proof (get_keeps w) as K1. destruct (Get w) as [w1 [c|e]]; simpl in *;
      [|by apply Hstay; [|keep_going]].
    pose proof (wait_for_keeps c (lastSince s) 30000 w1) as K2.
    pose proof (wait_for_answers c (lastSince s) 30000 w1) as A.
    change (subscriptionTimeout / millisecond) with 30000.
    destruct (WaitForMutations c (lastSince s) 30000 w1) as [w2 [resp|e]]; simpl in *.
    2: { destruct (isUnknownOperationError e); simpl; (apply Hstay; [done|keep_going]). }
    destruct (Success resp) eqn:Es; simpl; [|by apply Hstay; [|keep_going]].
    exact (Hproc w1 (w2, Ok resp) (Put c w2) resp K1 K2 ltac:(simpl; keep_going) A eq_refl Es).
Qed.

Lemma loop_upto pool n segs s w : upto segs s w -> exists segs', upto segs' (loop pool n s w).1 (loop pool n s w).2.
Proof.
  revert segs s w. induction n as [|n IH]; intros segs s w H; simpl; [by exists segs|].
  destruct (stopped w); [by exists segs|]. destruct (turn_upto pool segs s w H) as [segs' H'].
  destruct (turn pool s w) as [s1 w1]. by apply (IH segs').
Qed.


(** An answer is for all that had been recorded when it was asked for. *)
Theorem answer_is_complete segs s w w1 w2 c resp :
  upto segs s w -> useFallback s = false -> Get w = (w1, Ok c) ->
  WaitForMutations c (lastSince s) (subscriptionTimeout / millisecond) w1 = (w2, Ok resp) -> Success resp = true ->
  exists seg, history w `prefix_of` concat (segs ++ [seg]) /\ upto (segs ++ [seg]) (turn true s w).1 (turn true s w).2.
Proof.
  intros H Hf Hg Hw Hs. unfold subscription_turn, waitForMutations. rewrite Hf. simpl. rewrite Hg.
  pose proof (get_keeps w) as K1. rewrite Hg in K1.
  pose proof (wait_for_keeps c (lastSince s) (subscriptionTimeout / millisecond) w1) as K2.
  pose proof (wait_for_answers c (lastSince s) (subscriptionTimeout / millisecond) w1) as A.
  rewrite Hw in *. simpl in *. rewrite Hs. simpl. destruct (A resp eq_refl Hs) as (h & Hh & Hh' & E).
  assert (upto segs s (Put c w2)) as Hu.
  { eapply upto_keeps; [exact H|]. eapply marks_trans; [|apply put_keeps]. by eapply marks_trans. }
  assert (history w `prefix_of` h) as Hwh by (etrans; [apply K1|exact Hh]).
  pose proof (process_upto segs s h (Put c w2) resp Hu) as X.
  destruct (processMutationResponse _ _ resp s (Put c w2)) as [s' w3].
  destruct X as (seg & -> & X); [|etrans; [exact Hh'|apply put_keeps]|exact E|by exists seg].
  etrans; [apply H|exact Hwh].
Qed.
End refinement.

(** ** What the daemon promises: the contents of the database

    [content] maps each issue to the time of its last change; the calls of one
    poll do not overlap with changes. [refreshes] counts the broadcasts. *)
Definition still {W} (content : W -> gmap string Z) (clock : W -> Z) (refreshes : W -> nat) (w w' : W) : Prop :=
  content w' = content w /\ clock w <= clock w' /\ refreshes w' = refreshes w.

Class IssueServer {W} `{!Daemon W} (rfc3339 : Z -> string) (decode_count : string -> option Z)
    (content : W -> gmap string Z) (clock : W -> Z) (refreshes : W -> nat) := {
  is_get w : still content clock refreshes w (Get w).1;
  is_put c w : still content clock refreshes w (Put c w);
  is_count c o w : still content clock refreshes w (Count c o w).1;
  is_now w : still content clock refreshes w (Now w).1;
  is_time w : (Now w).2 = clock w;
  is_count_all c w resp : (Count c None w).2 = Ok resp -> Success resp = true ->
    decode_count (Data resp) = Some (Z.of_nat (size (content w)));
  is_count_updated c t w resp : (Count c (Some (rfc3339 t)) w).2 = Ok resp -> Success resp = true ->
    exists n, decode_count (Data resp) = Some n /\
      (n <= 0 -> forall id u, content w !! id = Some u -> u <= t);
  is_broadcast p w : content (Broadcast p w) = content w /\ clock w <= clock (Broadcast p w) /\
    refreshes (Broadcast p w) = S (refreshes w);
}.

Section external.
Context {W : Type} `{!Daemon W} (rfc3339 : Z -> string) (decode_count : string -> option Z)
        (content : W -> gmap string Z) (clock : W -> Z) (refreshes : W -> nat)
        {server : IssueServer rfc3339 decode_count content clock refreshes}.

(** Since [t] the contents [c] have become those of [w]: what is there is as it
    was or was changed after [t]. *)
Definition changed_since (t : Z) (c : gmap string Z) (w : W) : Prop :=
  forall id u, content w !! id = Some u -> c !! id = Some u \/ t < u.

Definition grows (w w' : W) : Prop :=
  clock w <= clock w' /\ changed_since (clock w) (content w) w' /\ refreshes w' = refreshes w.

(** The subscriber knows the contents [c]. *)
Definition knows (c : gmap string Z) (s : DaemonSubscriber) (w : W) : Prop :=
  countInitialized s = true /\ lastKnownCount s = Z.of_nat (size c) /\ lastPollTime s <= clock w /\
  changed_since (lastPollTime s) c w.

Lemma knows_grows c s w w' : knows c s w -> grows w w' -> knows c s w'.
Proof.
  intros (Hi & Hc & Ht & Hch) (Hcl & Hg & _). split_and!; try done; [lia|].
  intros id u [E|Hlt]%Hg; [by apply Hch|]. right. lia.
Qed.

Lemma knows_now s w n : lastKnownCount s = Z.of_nat (size (content w)) -> countInitialized s = true ->
  lastPollTime s = n -> n <= clock w -> knows (content w) s w.
Proof. intros Hc Hi <- Ht. split_and!; try done. intros id u E. by left. Qed.

(** Nothing newer, and as many: nothing has changed. *)
Lemma unchanged t c w :
  changed_since t c w -> (forall id u, content w !! id = Some u -> u <= t) -> size (content w) = size c ->
  content w = c.
Proof.
  intros Hch Hle Hsz. apply map_subseteq_size_eq; [|lia]. apply map_subseteq_spec. intros id u E.
  destruct (Hch id u E) as [E'|Hlt]; [done|]. specialize (Hle id u E). lia.
Qed.

Definition counts_answered : Prop :=
  forall c o w, exists w' resp, Count c o w = (w', Ok resp) /\ Success resp = true.

(** The first poll takes note of the contents. *)
Theorem first_poll s w w0 cl :
  counts_answered -> countInitialized s = false -> Get w = (w0, Ok cl) ->
  let '(s1, w1) := pollDBChanges rfc3339 decode_count s w in
  knows (content w) s1 w1 /\ content w1 = content w /\ refreshes w1 = refreshes w.
Proof.
  intros Hans Hi Hg. unfold pollDBChanges. rewrite Hg.
  pose proof (is_get w) as S1. rewrite Hg in S1. destruct S1 as (Ec1 & Ht1 & Er1). simpl in Ec1, Ht1, Er1.
  destruct (Hans cl None w0) as (w2 & resp & Hc & Hs). rewrite Hc, Hs. simpl.
  pose proof (is_count cl None w0) as S2. rewrite Hc in S2. destruct S2 as (Ec2 & Ht2 & Er2). simpl in Ec2, Ht2, Er2.
  rewrite (is_count_all cl w0 resp) by (by rewrite ?Hc).
  pose proof (is_now w2) as (Ec3 & Ht3 & Er3). pose proof (is_time w2) as En.
  destruct (Now w2) as [w3 now]. simpl in *. rewrite Hi. simpl.
  destruct (is_put cl w3) as (Ec4 & Ht4 & Er4).
  assert (content (Put cl w3) = content w) as E by congruence.
  split; [|split; [done|congruence]]. rewrite <- E. apply (knows_now _ _ now); simpl; try done; [congruence|lia].
Qed.

(** No change behind the daemon's back is missed while the daemon answers: a
    poll broadcasts a refresh whenever the contents differ from those known
    from the poll before (an issue was created, changed or deleted, or one in
    the place of another), whatever happened between, and after it the
    subscriber knows the contents. *)
Theorem external_changes_seen c s w w' w0 cl :
  counts_answered -> knows c s w -> grows w w' -> Get w' = (w0, Ok cl) ->
  let '(s1, w1) := pollDBChanges rfc3339 decode_count s w' in
  knows (content w') s1 w1 /\ content w1 = content w' /\
  (content w' <> c -> refreshes w1 = S (refreshes w)).
Proof.
  intros Hans Hk Hgr Hg. pose proof (knows_grows c s w w' Hk Hgr) as (Hi & Hlc & Htw & Hch).
  destruct Hgr as (_ & _ & Er0). unfold pollDBChanges. rewrite Hg, Hi.
  pose proof (is_get w') as S1. rewrite Hg in S1. destruct S1 as (Ec1 & Ht1 & Er1). simpl in Ec1, Ht1, Er1.
  destruct (Hans cl None w0) as (w2 & resp & Hc & Hs). rewrite Hc, Hs. simpl.
  pose proof (is_count cl None w0) as S2. rewrite Hc in S2. destruct S2 as (Ec2 & Ht2 & Er2). simpl in Ec2, Ht2, Er2.
  rewrite (is_count_all cl w0 resp) by (by rewrite ?Hc).
  pose proof (is_now w2) as (Ec3 & Ht3 & Er3). pose proof (is_time w2) as En.
  destruct (Now w2) as [w3 now]. simpl in *.
  assert (content w3 = content w') as E3 by congruence.
  case_bool_decide as Hcnt.
  - destruct (is_broadcast (refresh rfc3339 now) w3) as (Ec4 & Ht4 & Er4).
    destruct (is_put cl (Broadcast (refresh rfc3339 now) w3)) as (Ec5 & Ht5 & Er5).
    assert (content (Put cl (Broadcast (refresh rfc3339 now) w3)) = content w') as E by congruence.
    split; [|split; [done|intros _; congruence]].
    rewrite <- E. apply (knows_now _ _ now); simpl; try done; [congruence|lia].
  - unfold updated_since. destruct (Hans cl (Some (rfc3339 (lastPollTime s))) w3) as (w4 & resp' & Hc' & Hs').
    pose proof (is_count cl (Some (rfc3339 (lastPollTime s))) w3) as S4. rewrite Hc' in S4.
    destruct S4 as (Ec4 & Ht4 & Er4). simpl in Ec4, Ht4, Er4.
    destruct (is_count_updated cl (lastPollTime s) w3 resp') as (n & Hn & Hnone); [by rewrite Hc'|done|].
    rewrite Hc', Hs', Hn. simpl. destruct (Z.ltb_spec 0 n) as [Hpos|Hzero].
    + destruct (is_broadcast (refresh rfc3339 now) w4) as (Ec5 & Ht5 & Er5).
      destruct (is_put cl (Broadcast (refresh rfc3339 now) w4)) as (Ec6 & Ht6 & Er6).
      assert (content (Put cl (Broadcast (refresh rfc3339 now) w4)) = content w') as E by congruence.
      split; [|split; [done|intros _; congruence]].
      rewrite <- E. apply (knows_now _ _ now); simpl; try done; [congruence|lia].
    + destruct (is_put cl w4) as (Ec5 & Ht5 & Er5).
      assert (content (Put cl w4) = content w') as E by congruence.
      assert (content w' = c) as Hsame.
      { apply (unchanged (lastPollTime s)); [done| |].
        - intros id u Hu. apply (Hnone Hzero id). by rewrite E3.
        - rewrite <- Ec1. lia. }
      split; [|split; [done|done]].
      rewrite <- E. apply (knows_now _ _ now); simpl; try done; [rewrite E, Hsame; lia|lia].
Qed.
End external.

(** ** Examples: a daemon in memory *)
Section examples.
Local Open Scope string_scope.

(** [next]: what happens before each of the coming calls for mutations,
    [None] when the call fails; [flaky]: the second query of a poll fails. *)
Record mem := mkMem {
  m_log : list happening;
  next : list (option (list happening));
  m_sent : list MutationPayload;
  issues : gmap string Z;
  m_clock : Z;
  flaky : bool;
}.

Definition event_codec : JsonCodec (list MutationEvent) := coded
  (map (fun m => (ME_Type m, ME_IssueID m, ME_Title m, ME_Assignee m,
     (ME_Actor m, ME_Timestamp m, ME_OldStatus m, ME_NewStatus m, ME_ParentID m, ME_StepCount m))))
  (map (fun '(a, b, c, d, (e, f, g, h, i, j)) => mkEvent a b c d e f g h i j))
  ltac:(induction a as [|[] a IH]; simpl; congruence).
Definition Z_codec : JsonCodec Z := coded (fun z : Z => z) (fun z => z) (fun z => eq_refl).
Definition time_text (t : Z) : string := @marshal _ Z_codec t.

Definition mem_answer (since : Z) (w : mem) : mem * res Response :=
  match next w with
  | [] => (w, Ok (mkResponse true (@marshal _ event_codec (filter (after since) (recent (m_log w)))) ""))
  | None :: q => (mkMem (m_log w) q (m_sent w) (issues w) (m_clock w) (flaky w), Err (NetError "i/o timeout"))
  | Some ms :: q =>
      let l := (m_log w ++ ms)%list in
      (mkMem l q (m_sent w) (issues w) (m_clock w) (flaky w),
       Ok (mkResponse true (@marshal _ event_codec (filter (after since) (recent l))) ""))
  end.

Definition number (o : option string) (w : mem) : Z :=
  match o with
  | None => Z.of_nat (size (issues w))
  | Some text =>
      match @unmarshal _ Z_codec text with
      | Some t => Z.of_nat (length (List.filter (fun e : string * Z => Z.ltb t e.2) (map_to_list (issues w))))
      | None => 0
      end
  end.

Definition mem_daemon_of (may_fail : bool) : Daemon mem := {|
  Get w := (w, Ok 0%nat);
  Put _ w := w;
  Discard _ w := w;
  WaitForMutations _ since _ w := mem_answer since w;
  GetMutations _ since w := mem_answer since w;
  Count _ o w :=
    if may_fail && flaky w && bool_decide (o <> None) then (w, Err (NetError "i/o timeout"))
    else (w, Ok (mkResponse true (@marshal _ Z_codec (number o w)) ""));
  Now w := (w, m_clock w);
  wait _ w := w;
  Broadcast p w := mkMem (m_log w) (next w) (m_sent w ++ [p])%list (issues w) (m_clock w) (flaky w);
  stopped _ := false;
|}.
#[local] Instance mem_daemon : Daemon mem := mem_daemon_of false.

Lemma mem_answer_keeps since w : keeps m_log m_sent w (mem_answer since w).1.
Proof.
  unfold mem_answer. destruct (next w) as [|[ms|] q]; simpl; (split; [|done]); simpl; [done|by eexists|done].
Qed.

Lemma mem_answer_answers since w : answers (@unmarshal _ event_codec) m_log since w (mem_answer since w).
Proof.
  intros resp. unfold mem_answer. destruct (next w) as [|[ms|] q]; simpl; intros E _; simplify_eq/=.
  - exists (m_log w). split_and!; [done..|]. apply (@unmarshal_marshal _ event_codec).
  - exists (m_log w ++ ms)%list. split_and!; [by eexists|done|]. apply (@unmarshal_marshal _ event_codec).
Qed.

Definition mem_server : MutationServer (@unmarshal _ event_codec) m_log m_sent.
Proof.
  split; intros; try (by split); try apply mem_answer_keeps; apply mem_answer_answers.
Defined.

Definition m (id : string) (ms : Z) : happening := Recorded (mkEvent "update" id "" "" "" (ms * millisecond) "" "" "" 0).
Definition world (l : list (option (list happening))) : mem := mkMem [] l [] ∅ 0 false.
Definition run (n : nat) (l : list (option (list happening))) : DaemonSubscriber * mem :=
  subscriptionLoop time_text (@unmarshal _ event_codec) true n NewDaemonSubscriber (world l).

(** Two turns that are answered and one that fails. *)
Definition three_turns : list (option (list happening)) :=
  [Some [m "bd-1" 1000; m "bd-2" 1002]; None; Some [m "bd-3" 2000]].


(** A burst of more than the buffer holds, or a restart, loses mutations. *)
Definition burst : list happening := map (fun k => m "bd-1" (1000 + 2 * Z.of_nat k)) (seq 0 150).
Example burst_overruns : length (m_sent (run 1 [Some burst]).2) = 100%nat.
Proof. vm_compute. reflexivity. Qed.
Example restart_forgets :
  map IssueID (m_sent (run 2 [Some [m "bd-1" 1000]; Some [m "bd-2" 1002; Restarted; m "bd-3" 1004]]).2) = ["bd-1"; "bd-3"].
Proof. vm_compute. reflexivity. Qed.

(** A mutation in the millisecond of the last one answered for, or in the next,
    is never delivered. *)
Example same_millisecond :
  map IssueID (m_sent (run 4 [Some [m "bd-1" 1000]; Some [m "bd-2" 1000; m "bd-3" 1001]; Some [m "bd-4" 1002]]).2) =
  ["bd-1"; "bd-4"].
Proof. vm_compute. reflexivity. Qed.

Lemma number_updated t w :
  number (Some (time_text t)) w = Z.of_nat (length (List.filter (fun e : string * Z => Z.ltb t e.2) (map_to_list (issues w)))).
Proof. unfold number, time_text. by rewrite (@unmarshal_marshal _ Z_codec t). Qed.

Lemma none_updated t w : number (Some (time_text t)) w <= 0 -> forall id u, issues w !! id = Some u -> u <= t.
Proof.
  rewrite number_updated. intros Hn id u E. destruct (Z.le_gt_cases u t) as [|Hlt]; [done|]. exfalso.
  assert (In (id, u) (List.filter (fun e : string * Z => Z.ltb t e.2) (map_to_list (issues w)))) as Hin.
  { apply filter_In. split; [by apply list_elem_of_In, elem_of_map_to_list|by apply Z.ltb_lt]. }
  by destruct (List.filter _ _).
Qed.

Lemma mem_count c o w resp : (Count c o w).2 = Ok resp -> @unmarshal _ Z_codec (Data resp) = Some (number o w).
Proof. intros E. injection E as <-. apply (@unmarshal_marshal _ Z_codec). Qed.

Definition mem_issues : IssueServer time_text (@unmarshal _ Z_codec) issues m_clock (fun w => length (m_sent w)).
Proof.
  split; try done.
  - intros c w resp E _. by rewrite (mem_count _ _ _ _ E).
  - intros c t w resp E _. eexists. split; [exact (mem_count _ _ _ _ E)|apply none_updated].
  - intros p w. split_and!; simpl; [done|lia|by rewrite length_app, Nat.add_comm].
Defined.

(** An issue is changed, another replaced by a third; then nothing happens. *)
Definition at_time (t : Z) (l : gmap string Z) (w : mem) : mem := mkMem (m_log w) (next w) (m_sent w) l t (flaky w).
Definition known_issues : gmap string Z := {["bd-1" := 5; "bd-2" := 6]}.
Definition other_issues : gmap string Z := {["bd-1" := 5; "bd-3" := 12]}.
Definition knowing : DaemonSubscriber := mkSub 0 false 2 10 true.
Definition before : mem := at_time 11 known_issues (world []).
Definition later : mem := at_time 20 other_issues (world []).

Lemma external_changes_seen_witness :
  let '(s1, w1) := pollDBChanges time_text (@unmarshal _ Z_codec) knowing later in
  length (m_sent w1) = 1%nat /\ lastPollTime s1 = 20.
Proof.
  assert (knows issues m_clock known_issues knowing before) as Hk.
  { split_and!; try done. intros id u E. by left. }
  assert (grows issues m_clock (fun w => length (m_sent w)) before later) as Hg.
  { split_and!; try done. intros id u E. simpl in E. unfold other_issues in E.
    apply lookup_insert_Some in E as [[<- <-]|[Hne E]]; [by left|].
    apply lookup_singleton_Some in E as [<- <-]. by right. }
  pose proof (@external_changes_seen mem mem_daemon time_text (@unmarshal _ Z_codec) issues m_clock
    (fun w => length (m_sent w)) mem_issues known_issues knowing before later later 0%nat
    (fun c o w => ex_intro _ w (ex_intro _ _ (conj eq_refl eq_refl))) Hk Hg eq_refl) as H.
  destruct (pollDBChanges time_text (@unmarshal _ Z_codec) knowing later) as [s1 w1] eqn:E.
  destruct H as (_ & _ & Hr). split.
  { apply Hr. intros Heq. pose proof (f_equal (fun c : gmap string Z => c !! "bd-3") Heq) as Hl. discriminate Hl. }
  vm_compute in E. by injection E as <- <-.
Defined.

(** When the second query fails, the poll moves its time on all the same: the
    change is never found, although the daemon answers from then on. *)
Definition poll := @pollDBChanges mem (mem_daemon_of true) time_text (@unmarshal _ Z_codec).
Example failed_query_forgets :
  let '(s1, w1) := poll knowing (mkMem [] [] [] other_issues 20 true) in
  let '(s2, w2) := poll s1 (mkMem [] [] (m_sent w1) other_issues 30 false) in
  m_sent w2 = [] /\ lastPollTime s2 = 30 /\
  m_sent (poll knowing (mkMem [] [] [] other_issues 20 false)).2 <> [].
Proof. vm_compute. split_and!; congruence. Qed.
End examples.
End Sub.
