(* ===== verification/Metrics.v ===== *)
(** * Metrics: events and the metrics computed from them,
    [internal/events/event.go], [emitter.go], [metrics.go], [metrics_query.go]

    Events and the typed data they carry, the bus, the store that listens to it
    and its pruning, and the snapshot of metrics it answers with. The text of
    the data is read through [JsonCodec]; floating-point numbers are a parameter
    ([Float64]). Times are nanoseconds since 1970, the zero time far before. *)
From S2P Require Import Prelude.
Local Open Scope Z_scope.

Module Metrics.

(** ** Events *)
Inductive EventType :=
| TaskClaimed | TaskStarted | TaskCompleted | TaskFailed | AgentStarted | AgentRestarted | AgentStopped
| EpicAssigned | EpicExhausted | PRCreated | ConflictResolved | HealthCheck
| OtherType (name : string).

#[export] Instance EventType_eq_dec : EqDecision EventType.
Proof. solve_decision. Defined.

Record TaskClaimedData := mkClaimed { tc_TaskID : string; tc_Title : string }.
Record TaskStartedData := mkTaskStarted { ts_TaskID : string }.
Record TaskCompletedData := mkCompleted {
  td_TaskID : string;
  td_Duration : Z;
  td_FilesChanged : Z;
  td_LinesAdded : Z;
  td_LinesRemoved : Z;
}.
Record TaskFailedData := mkFailed { tf_TaskID : string; tf_Error : string }.
Record AgentStartedData := mkStarted { as_PID : Z }.
Record AgentRestartedData := mkRestarted { ar_PID : Z; ar_RestartCount : Z }.
Record AgentStoppedData := mkStopped { ap_PID : Z; ap_ExitCode : Z }.
Record EpicAssignedData := mkEpicAssigned { ea_EpicID : string }.
Record EpicExhaustedData := mkEpicExhausted { ee_EpicID : string }.
Record PRCreatedData := mkPRCreated { pr_EpicID : string; pr_URL : string }.
Record ConflictResolvedData := mkConflict { cr_File : string; cr_Strategy : string }.
Record HealthCheckData := mkHealth { hc_AgentCount : Z; hc_HealthyCount : Z }.

Inductive EventData :=
| DClaimed (d : TaskClaimedData) | DTaskStarted (d : TaskStartedData) | DCompleted (d : TaskCompletedData)
| DFailed (d : TaskFailedData) | DStarted (d : AgentStartedData) | DRestarted (d : AgentRestartedData)
| DStopped (d : AgentStoppedData) | DEpicAssigned (d : EpicAssignedData) | DEpicExhausted (d : EpicExhaustedData)
| DPRCreated (d : PRCreatedData) | DConflict (d : ConflictResolvedData) | DHealth (d : HealthCheckData).

(** [Data] is the raw text, empty when there is none. *)
Record Event := mkEvent {
  Type_ : EventType;
  Timestamp : Z;
  Agent : string;
  Role : string;
  EpicID : string;
  Data : string;
}.

(** 1 January of the year 1. *)
Definition zero_time : Z := -62135596800 * second.
Definition IsZero (t : Z) : bool := bool_decide (t = zero_time).

Class DataCodecs := {
  c_claimed :: JsonCodec TaskClaimedData;
  c_task_started :: JsonCodec TaskStartedData;
  c_completed :: JsonCodec TaskCompletedData;
  c_failed :: JsonCodec TaskFailedData;
  c_started :: JsonCodec AgentStartedData;
  c_restarted :: JsonCodec AgentRestartedData;
  c_stopped :: JsonCodec AgentStoppedData;
  c_epic_assigned :: JsonCodec EpicAssignedData;
  c_epic_exhausted :: JsonCodec EpicExhaustedData;
  c_pr :: JsonCodec PRCreatedData;
  c_conflict :: JsonCodec ConflictResolvedData;
  c_health :: JsonCodec HealthCheckData;
}.

(** The name of the type in messages. *)
Definition type_name (t : EventType) : string :=
  match t with
  | TaskClaimed => "task_claimed" | TaskStarted => "task_started" | TaskCompleted => "task_completed"
  | TaskFailed => "task_failed" | AgentStarted => "agent_started" | AgentRestarted => "agent_restarted"
  | AgentStopped => "agent_stopped" | EpicAssigned => "epic_assigned" | EpicExhausted => "epic_exhausted"
  | PRCreated => "pr_created" | ConflictResolved => "conflict_resolved" | HealthCheck => "health_check"
  | OtherType n => n
  end.

Section events.
Context {codecs : DataCodecs}.

Definition decoded {A} (t : EventType) (wrap : A -> EventData) (o : option A) : res (option EventData) :=
  match o with
  | Some a => Ok (Some (wrap a))
  | None => Err (Wrapf ("unmarshaling " +:+ type_name t +:+ " data: ") (Msg "invalid JSON") "")
  end.

Definition DecodeData (e : Event) : res (option EventData) :=
  if bool_decide (Data e = ""%string) then Ok None
  else
    match Type_ e with
    | TaskClaimed => decoded (Type_ e) DClaimed (unmarshal (Data e))
    | TaskStarted => decoded (Type_ e) DTaskStarted (unmarshal (Data e))
    | TaskCompleted => decoded (Type_ e) DCompleted (unmarshal (Data e))
    | TaskFailed => decoded (Type_ e) DFailed (unmarshal (Data e))
    | AgentStarted => decoded (Type_ e) DStarted (unmarshal (Data e))
    | AgentRestarted => decoded (Type_ e) DRestarted (unmarshal (Data e))
    | AgentStopped => decoded (Type_ e) DStopped (unmarshal (Data e))
    | EpicAssigned => decoded (Type_ e) DEpicAssigned (unmarshal (Data e))
    | EpicExhausted => decoded (Type_ e) DEpicExhausted (unmarshal (Data e))
    | PRCreated => decoded (Type_ e) DPRCreated (unmarshal (Data e))
    | ConflictResolved => decoded (Type_ e) DConflict (unmarshal (Data e))
    | HealthCheck => decoded (Type_ e) DHealth (unmarshal (Data e))
    | OtherType n => Err (Msg ("unknown event type: " +:+ n))
    end.
End events.

(** ** The store *)
Record TaskMetric := mkTask {
  tm_Timestamp : Z;
  tm_Agent : string;
  tm_Role : string;
  tm_EpicID : string;
  Duration : Z;
  Success : bool;
  LinesAdded : Z;
  LinesRemoved : Z;
  FilesChanged : Z;
  tm_TaskID : string;
}.

Record AgentMetric := mkAgentMetric {
  am_Timestamp : Z;
  am_Agent : string;
  am_EventType : EventType;
  am_RestartCount : Z;
  am_ExitCode : Z;
}.

Record agentUtilState := mkUtil { lastStart : Z; workDuration : Z; isWorking : bool }.

Record MetricsStore := mkStore {
  retention : Z;
  tasks : list TaskMetric;
  agents : list AgentMetric;
  totalTasksCompleted : Z;
  totalTasksFailed : Z;
  totalRestarts : Z;
  utilization : gmap string agentUtilState;
}.

Definition DefaultRetention : Z := 24 * hour.

Definition NewMetricsStore (r : Z) : MetricsStore :=
  mkStore (if r <=? 0 then DefaultRetention else r) [] [] 0 0 0 ∅.

Definition add_task (t : TaskMetric) (completed failed : Z) (ms : MetricsStore) : MetricsStore :=
  mkStore (retention ms) (tasks ms ++ [t]) (agents ms) completed failed (totalRestarts ms) (utilization ms).
Definition add_agent (a : AgentMetric) (restarts : Z) (u : gmap string agentUtilState) (ms : MetricsStore)
  : MetricsStore :=
  mkStore (retention ms) (tasks ms) (agents ms ++ [a]) (totalTasksCompleted ms) (totalTasksFailed ms) restarts u.

Definition getOrCreateUtil (agent : string) (u : gmap string agentUtilState) : agentUtilState :=
  default (mkUtil zero_time 0 false) (u !! agent).

(** The time worked until [now] is added. *)
Definition accrue (now : Z) (s : agentUtilState) : Z :=
  if isWorking s && negb (IsZero (lastStart s)) then add64 (workDuration s) (time_sub now (lastStart s))
  else workDuration s.
Definition util_start (now : Z) (s : agentUtilState) : agentUtilState := mkUtil now (accrue now s) true.
Definition util_stop (now : Z) (s : agentUtilState) : agentUtilState := mkUtil (lastStart s) (accrue now s) false.

Section store.
Context {codecs : DataCodecs}.

Definition handleTaskCompleted (e : Event) (ms : MetricsStore) : MetricsStore :=
  match DecodeData e with
  | Ok (Some (DCompleted d)) =>
      add_task (mkTask (Timestamp e) (Agent e) (Role e) (EpicID e) (td_Duration d) true
                  (td_LinesAdded d) (td_LinesRemoved d) (td_FilesChanged d) (td_TaskID d))
        (inc64 (totalTasksCompleted ms)) (totalTasksFailed ms) ms
  | _ => ms
  end.

Definition handleTaskFailed (e : Event) (ms : MetricsStore) : MetricsStore :=
  match DecodeData e with
  | Ok (Some (DFailed d)) =>
      add_task (mkTask (Timestamp e) (Agent e) (Role e) (EpicID e) 0 false 0 0 0 (tf_TaskID d))
        (totalTasksCompleted ms) (inc64 (totalTasksFailed ms)) ms
  | _ => ms
  end.

Definition handleAgentStarted (e : Event) (ms : MetricsStore) : MetricsStore :=
  match DecodeData e with
  | Err _ => ms
  | Ok _ =>
      add_agent (mkAgentMetric (Timestamp e) (Agent e) (Type_ e) 0 0) (totalRestarts ms)
        (<[Agent e := util_start (Timestamp e) (getOrCreateUtil (Agent e) (utilization ms))]> (utilization ms)) ms
  end.

Definition handleAgentStopped (e : Event) (ms : MetricsStore) : MetricsStore :=
  match DecodeData e with
  | Ok (Some (DStopped d)) =>
      add_agent (mkAgentMetric (Timestamp e) (Agent e) (Type_ e) 0 (ap_ExitCode d)) (totalRestarts ms)
        (<[Agent e := util_stop (Timestamp e) (getOrCreateUtil (Agent e) (utilization ms))]> (utilization ms)) ms
  | _ => ms
  end.

Definition handleAgentRestarted (e : Event) (ms : MetricsStore) : MetricsStore :=
  match DecodeData e with
  | Ok (Some (DRestarted d)) =>
      add_agent (mkAgentMetric (Timestamp e) (Agent e) (Type_ e) (ar_RestartCount d) 0) (inc64 (totalRestarts ms))
        (<[Agent e := util_start (Timestamp e) (getOrCreateUtil (Agent e) (utilization ms))]> (utilization ms)) ms
  | _ => ms
  end.

Definition handleEvent (e : Event) (ms : MetricsStore) : MetricsStore :=
  match Type_ e with
  | TaskCompleted => handleTaskCompleted e ms
  | TaskFailed => handleTaskFailed e ms
  | AgentStarted => handleAgentStarted e ms
  | AgentStopped => handleAgentStopped e ms
  | AgentRestarted => handleAgentRestarted e ms
  | _ => ms
  end.
End store.

Definition recent (cutoff t : Z) : bool := negb (t <? cutoff).

(** [Prune] at the time [now]. *)
Definition pruneLocked (now : Z) (ms : MetricsStore) : MetricsStore :=
  let cutoff := now - retention ms in
  mkStore (retention ms) (List.filter (fun t => recent cutoff (tm_Timestamp t)) (tasks ms))
    (List.filter (fun a => recent cutoff (am_Timestamp a)) (agents ms))
    (totalTasksCompleted ms) (totalTasksFailed ms) (totalRestarts ms) (utilization ms).

(** ** The bus ([emitter.go])

    [Emit] writes to the log first, and tells the listeners, in the order they
    subscribed, only when that succeeded. *)
Section bus.
Context {Log L : Type} (Write : Event -> Log -> option goerror * Log).

Record Bus := mkBus { writer : Log; listeners : list (Event -> L -> L) }.

Definition Subscribe (l : Event -> L -> L) (b : Bus) : Bus := mkBus (writer b) (listeners b ++ [l]).

Definition stamp (now : Z) (e : Event) : Event :=
  if IsZero (Timestamp e) then mkEvent (Type_ e) now (Agent e) (Role e) (EpicID e) (Data e) else e.

(** [st] is the state of the listeners. *)
Definition Emit (now : Z) (e : Event) (b : Bus) (st : L) : option goerror * Bus * L :=
  let e1 := stamp now e in
  match Write e1 (writer b) with
  | (Some err, w) => (Some err, mkBus w (listeners b), st)
  | (None, w) => (None, mkBus w (listeners b), foldl (fun st l => l e1 st) st (listeners b))
  end.
End bus.

(** ** Snapshots ([metrics_query.go]) *)
Class Float64 (F : Type) := {
  f_zero : F;
  f_int : Z -> F;
  f_seconds : Z -> F;
  f_add : F -> F -> F;
  f_mul : F -> F -> F;
  f_div : F -> F -> F;
}.

Section snapshot.
Context {F : Type} `{!Float64 F}.

Record HourlyBucket := mkBucket { Hour : Z; Completed : Z; Failed : Z; AvgDuration : F }.

Record MetricsSnapshot := mkSnapshot {
  s_Timestamp : Z;
  TasksCompletedLastHr : Z;
  TasksCompleted24h : Z;
  AvgTaskDurationSec : F;
  LinesChangedLastHr : Z;
  ErrorRatePct : F;
  RestartCount24h : Z;
  RestartsByAgent : gmap string Z;
  AgentUtilization : gmap string F;
  TasksByRole : gmap string Z;
  TasksByEpic : gmap string Z;
  TasksByAgent : gmap string Z;
  HourlyCompletions : list HourlyBucket;
  s_TotalTasksCompleted : Z;
  s_TotalTasksFailed : Z;
  s_TotalRestarts : Z;
}.

Record bucketAccum := mkAccum { completed : Z; failed : Z; totalDurSec : F; durationCnt : Z }.

(** What the loop of [aggregateTasks] keeps. *)
Record Totals := mkTotals {
  totalDuration : Z;
  durationCount : Z;
  completed24h : Z;
  failed24h : Z;
  hourlyMap : gmap Z bucketAccum;
  lastHr : Z;
  linesLastHr : Z;
  byRole : gmap string Z;
  byEpic : gmap string Z;
  byAgent : gmap string Z;
}.

Definition Truncate (t d : Z) : Z := t - t mod d.

Definition bump (k : string) (m : gmap string Z) : gmap string Z := <[k := inc64 (default 0 (m !! k))]> m.
Definition bump_named (k : string) (m : gmap string Z) : gmap string Z :=
  if bool_decide (k <> ""%string) then bump k m else m.

Definition getOrCreateBucket (m : gmap Z bucketAccum) (hour : Z) : bucketAccum :=
  default (mkAccum 0 0 f_zero 0) (m !! hour).

Definition bucket_add (t : TaskMetric) (b : bucketAccum) : bucketAccum :=
  if Success t then
    if 0 <? Duration t
    then mkAccum (inc64 (completed b)) (failed b) (f_add (totalDurSec b) (f_seconds (Duration t))) (inc64 (durationCnt b))
    else mkAccum (inc64 (completed b)) (failed b) (totalDurSec b) (durationCnt b)
  else mkAccum (completed b) (inc64 (failed b)) (totalDurSec b) (durationCnt b).

Definition aggregate_task (oneHourAgo : Z) (a : Totals) (t : TaskMetric) : Totals :=
  let hour_ := Truncate (tm_Timestamp t) hour in
  let timed := Success t && (0 <? Duration t) in
  let in_hour := Success t && negb (tm_Timestamp t <? oneHourAgo) in
  mkTotals
    (if timed then add64 (totalDuration a) (Duration t) else totalDuration a)
    (if timed then inc64 (durationCount a) else durationCount a)
    (if Success t then inc64 (completed24h a) else completed24h a)
    (if Success t then failed24h a else inc64 (failed24h a))
    (<[hour_ := bucket_add t (getOrCreateBucket (hourlyMap a) hour_)]> (hourlyMap a))
    (if in_hour then inc64 (lastHr a) else lastHr a)
    (if in_hour then add64 (linesLastHr a) (add64 (LinesAdded t) (LinesRemoved t)) else linesLastHr a)
    (bump_named (tm_Role t) (byRole a)) (bump_named (tm_EpicID t) (byEpic a)) (bump_named (tm_Agent t) (byAgent a)).

Definition aggregate (now : Z) (l : list TaskMetric) : Totals :=
  foldl (aggregate_task (now - hour)) (mkTotals 0 0 0 0 ∅ 0 0 ∅ ∅ ∅) l.

(** [sortHourlyBuckets] swaps each bucket back to its place; the sorted part is
    kept reversed. *)
Fixpoint sink (x : HourlyBucket) (rev : list HourlyBucket) : list HourlyBucket :=
  match rev with
  | [] => [x]
  | y :: rev' => if Hour x <? Hour y then y :: sink x rev' else x :: rev
  end.
Definition sortHourlyBuckets (l : list HourlyBucket) : list HourlyBucket :=
  reverse (foldl (fun rev x => sink x rev) [] l).

Definition bucket_of (e : Z * bucketAccum) : HourlyBucket :=
  mkBucket e.1 (completed e.2) (failed e.2)
    (if 0 <? durationCnt e.2 then f_div (totalDurSec e.2) (f_int (durationCnt e.2)) else f_zero).

(** [order] is the order in which Go runs through the map. *)
Definition buildHourlyBuckets (order : list (Z * bucketAccum)) : list HourlyBucket :=
  sortHourlyBuckets (map bucket_of order).

(** [aggregateAgentRestarts]: the number of restarts and those by agent. *)
Definition aggregate_restart (a : Z * gmap string Z) (m : AgentMetric) : Z * gmap string Z :=
  if bool_decide (am_EventType m = AgentRestarted) then (inc64 a.1, bump_named (am_Agent m) a.2) else a.
Definition aggregateAgentRestarts (l : list AgentMetric) : Z * gmap string Z := foldl aggregate_restart (0, ∅) l.

(** The work of an agent as [computeUtilization] counts it. *)
Definition work_of (now retention : Z) (s : agentUtilState) : Z :=
  let cutoff := now - retention in
  let work :=
    if isWorking s && negb (IsZero (lastStart s))
    then add64 (workDuration s) (time_sub now (if lastStart s <? cutoff then cutoff else lastStart s))
    else workDuration s in
  if retention <? work then retention else work.

Definition computeUtilization (now retention : Z) (u : gmap string agentUtilState) : gmap string F :=
  omap (fun s =>
    let work := work_of now retention s in
    if 0 <? work then Some (f_div (f_seconds work) (f_seconds retention)) else None) u.

(** [Snapshot]: the store is pruned at [now1], everything else is computed for
    [now2]; the map of hours is run through as [order] says. *)
Definition Snapshot (order : gmap Z bucketAccum -> list (Z * bucketAccum)) (now1 now2 : Z) (ms : MetricsStore)
  : MetricsStore * MetricsSnapshot :=
  let st := pruneLocked now1 ms in
  let a := aggregate now2 (tasks st) in
  let total := add64 (completed24h a) (failed24h a) in
  let '(restarts, by_agent) := aggregateAgentRestarts (agents st) in
  (st, mkSnapshot now2 (lastHr a) (completed24h a)
    (if 0 <? durationCount a then f_div (f_seconds (totalDuration a)) (f_int (durationCount a)) else f_zero)
    (linesLastHr a)
    (if 0 <? total then f_mul (f_div (f_int (failed24h a)) (f_int total)) (f_int 100) else f_zero)
    restarts by_agent
    (computeUtilization now2 (retention st) (utilization st))
    (byRole a) (byEpic a) (byAgent a) (buildHourlyBuckets (order (hourlyMap a)))
    (totalTasksCompleted st) (totalTasksFailed st) (totalRestarts st)).
End snapshot.
Arguments HourlyBucket : clear implicits.
Arguments MetricsSnapshot : clear implicits.
Arguments bucketAccum : clear implicits.
Arguments Totals : clear implicits.

(** ** Pruning cannot be seen

    A history of the store: events in the order they are handled, and prunings. *)
Inductive store_op := OpEvent (e : Event) | OpPrune (now : Z).

Section pruning.
Context {codecs : DataCodecs}.

Definition store_exec (ms : MetricsStore) (op : store_op) : MetricsStore :=
  match op with OpEvent e => handleEvent e ms | OpPrune now => pruneLocked now ms end.

Definition is_event (op : store_op) : bool := match op with OpEvent _ => true | OpPrune _ => false end.

(** Not pruned after [now]. *)
Definition pruned_by (now : Z) (op : store_op) : Prop := match op with OpPrune t => t <= now | OpEvent _ => True end.

Lemma filter_recent {A} (ts : A -> Z) c c' l : c <= c' ->
  List.filter (fun a => recent c' (ts a)) (List.filter (fun a => recent c (ts a)) l) =
  List.filter (fun a => recent c' (ts a)) l.
Proof.
  intros Hc. induction l as [|a l IH]; [done|]. simpl. destruct (recent c (ts a)) eqn:E; simpl; rewrite IH; [done|].
  assert (recent c' (ts a) = false) as -> by (unfold recent in *; lia). done.
Qed.

(** Two stores that differ in what is older than [now] less the retention. *)
Record same_since (now : Z) (ms ms' : MetricsStore) : Prop := {
  ss_retention : retention ms = retention ms';
  ss_tasks : List.filter (fun t => recent (now - retention ms) (tm_Timestamp t)) (tasks ms) =
             List.filter (fun t => recent (now - retention ms) (tm_Timestamp t)) (tasks ms');
  ss_agents : List.filter (fun a => recent (now - retention ms) (am_Timestamp a)) (agents ms) =
              List.filter (fun a => recent (now - retention ms) (am_Timestamp a)) (agents ms');
  ss_completed : totalTasksCompleted ms = totalTasksCompleted ms';
  ss_failed : totalTasksFailed ms = totalTasksFailed ms';
  ss_restarts : totalRestarts ms = totalRestarts ms';
  ss_utilization : utilization ms = utilization ms';
}.

Lemma same_since_refl now ms : same_since now ms ms.
Proof. by split. Qed.

Lemma same_since_task now t c f ms ms' : same_since now ms ms' -> same_since now (add_task t c f ms) (add_task t c f ms').
Proof.
  intros [Hr Ht Ha Hc Hf Hs Hu]. split; simpl; try done. by rewrite !List.filter_app, Ht.
Qed.

Lemma same_since_agent now a r u ms ms' :
  same_since now ms ms' -> same_since now (add_agent a r u ms) (add_agent a r u ms').
Proof.
  intros [Hr Ht Ha Hc Hf Hs Hu]. split; simpl; try done. by rewrite !List.filter_app, Ha.
Qed.

Lemma same_since_event now e ms ms' : same_since now ms ms' -> same_since now (handleEvent e ms) (handleEvent e ms').
Proof.
  intros H. pose proof H as [_ _ _ Hc Hf Hs Hu].
  unfold handleEvent, handleTaskCompleted, handleTaskFailed, handleAgentStarted, handleAgentStopped, handleAgentRestarted.
  destruct (Type_ e); try done; destruct (DecodeData e) as [[[]|]|]; try done;
    rewrite <- ?Hc, <- ?Hf, <- ?Hs, <- ?Hu; auto using same_since_task, same_since_agent.
Qed.

Lemma same_since_prune now t ms ms' : t <= now -> same_since now ms ms' -> same_since now (pruneLocked t ms) ms'.
Proof.
  intros Hle [Hr Ht Ha Hc Hf Hs Hu]. split; simpl; try done.
  - rewrite (filter_recent tm_Timestamp) by lia. done.
  - rewrite (filter_recent am_Timestamp) by lia. done.
Qed.

Lemma same_since_run now ops ms ms' :
  Forall (pruned_by now) ops -> same_since now ms ms' ->
  same_since now (foldl store_exec ms ops) (foldl store_exec ms' (List.filter is_event ops)).
Proof.
  intros HF. revert ms ms'. induction HF as [|[e|t] ops Hop HF IH]; intros ms ms' H; simpl; [done| |].
  - by apply IH, same_since_event.
  - by apply IH, same_since_prune.
Qed.

(** A snapshot does not depend on when the store was pruned before it. *)
Lemma snapshot_of_everything {F} `{!Float64 F} order now1 now2 r ops :
  Forall (pruned_by now1) ops ->
  Snapshot order now1 now2 (foldl store_exec (NewMetricsStore r) ops) =
  Snapshot order now1 now2 (foldl store_exec (NewMetricsStore r) (List.filter is_event ops)).
Proof.
  intros HF. pose proof (same_since_run now1 ops _ _ HF (same_since_refl now1 (NewMetricsStore r))) as [Hr Ht Ha Hc Hf Hs Hu].
  unfold Snapshot. assert (forall ms ms', pruneLocked now1 ms = pruneLocked now1 ms' ->
    Snapshot order now1 now2 ms = Snapshot order now1 now2 ms') as Hext by (intros ms ms' E; unfold Snapshot; by rewrite E).
  apply Hext. unfold pruneLocked. clear Hext. by rewrite <- Hr, Ht, Ha, Hc, Hf, Hs, Hu.
Qed.

End pruning.

(** ** What a snapshot says *)
Definition count {A} (P : A -> bool) (l : list A) : Z := Z.of_nat (length (List.filter P l)).

Lemma count_snoc {A} (P : A -> bool) l a : count P (l ++ [a]) = if P a then count P l + 1 else count P l.
Proof. unfold count. rewrite List.filter_app. simpl. destruct (P a); rewrite length_app; simpl; lia. Qed.

Lemma count_bound {A} (P : A -> bool) l : 0 <= count P l <= Z.of_nat (length l).
Proof. unfold count. pose proof (List.filter_length_le P l). lia. Qed.

Lemma count_inc {A} (P : A -> bool) l : Z.of_nat (length l) < max_int64 -> inc64 (count P l) = count P l + 1.
Proof.
  intros H. pose proof (count_bound P l). apply inc64_id.
  unfold in_int64, min_int64, max_int64 in *. lia.
Qed.

Lemma count_and_zero {A} (P Q : A -> bool) l : count P l = 0 -> count (fun a => P a && Q a) l = 0.
Proof.
  unfold count. induction l as [|a l IH]; [done|]. simpl. destruct (P a); simpl; [lia|]. exact IH.
Qed.

(** The map of the counts by a name. *)
Definition counts_by {A} (sel : A -> bool) (key : A -> string) (l : list A) (m : gmap string Z) : Prop :=
  forall k, m !! k =
    let n := count (fun a => sel a && bool_decide (key a = k)) l in
    if bool_decide (k <> ""%string /\ 0 < n) then Some n else None.

Lemma counts_by_nil {A} sel (key : A -> string) : counts_by sel key [] ∅.
Proof.
  intros k. rewrite lookup_empty. unfold count. simpl. rewrite bool_decide_false; [done|]. intros [_ H]. lia.
Qed.

Lemma counts_by_bump {A} sel (key : A -> string) l a m :
  Z.of_nat (length l) < max_int64 -> counts_by sel key l m ->
  counts_by sel key (l ++ [a]) (if sel a then bump_named (key a) m else m).
Proof.
  intros Hlen H k. specialize (H k). cbv zeta in *. rewrite count_snoc.
  pose proof (count_inc (fun a => sel a && bool_decide (key a = k)) l Hlen) as Hinc.
  pose proof (count_bound (fun a => sel a && bool_decide (key a = k)) l) as Hb.
  set (n := count (fun a => sel a && bool_decide (key a = k)) l) in *.
  destruct (sel a); cbn [andb]; [|done]. unfold bump_named, bump. destruct (decide (key a = k)) as [E|Hne].
  - rewrite (bool_decide_true (key a = k)) by done. rewrite E. destruct (decide (k = ""%string)) as [Hk|Hk].
    + rewrite (bool_decide_false (k <> ""%string)) by (by intros ?). rewrite H. by rewrite !bool_decide_false by (by intros [? _]).
    + rewrite (bool_decide_true (k <> ""%string)) by done. rewrite lookup_insert_eq, H.
      rewrite (bool_decide_true (k <> ""%string /\ 0 < n + 1)) by (split; [done|lia]).
      destruct (decide (0 < n)) as [Hn|Hn].
      * rewrite bool_decide_true by done. simpl. by rewrite Hinc.
      * rewrite bool_decide_false by (by intros [_ ?]). assert (n = 0) as -> by lia. done.
  - rewrite (bool_decide_false (key a = k)) by done. cbv iota.
    destruct (bool_decide (key a <> ""%string)); [|exact H]. by rewrite lookup_insert_ne.
Qed.

Definition in_hour (h : Z) (t : TaskMetric) : bool := bool_decide (Truncate (tm_Timestamp t) hour = h).

Section aggregates.
Context {F : Type} `{!Float64 F}.

Record totals_of (now : Z) (l : list TaskMetric) (a : Totals F) : Prop := {
  to_completed : completed24h a = count Success l;
  to_failed : failed24h a = count (fun t => negb (Success t)) l;
  to_timed : durationCount a = count (fun t => Success t && (0 <? Duration t)) l;
  to_last : lastHr a = count (fun t => Success t && recent (now - hour) (tm_Timestamp t)) l;
  to_role : counts_by (fun _ => true) tm_Role l (byRole a);
  to_epic : counts_by (fun _ => true) tm_EpicID l (byEpic a);
  to_agent : counts_by (fun _ => true) tm_Agent l (byAgent a);
  to_hours h : match hourlyMap a !! h with
    | Some b => 0 < count (in_hour h) l /\ completed b = count (fun t => in_hour h t && Success t) l /\
                failed b = count (fun t => in_hour h t && negb (Success t)) l
    | None => count (in_hour h) l = 0
    end;
}.

Lemma aggregate_totals now l : Z.of_nat (length l) <= max_int64 -> totals_of now l (aggregate now l).
Proof.
  unfold aggregate. induction l as [|t l IH] using rev_ind; intros Hlen.
  { split; try done; apply counts_by_nil. }
  assert (Z.of_nat (length l) < max_int64) as Hl by (rewrite length_app in Hlen; simpl in Hlen; lia).
  destruct (IH ltac:(lia)) as [H1 H2 H3 H4 H5 H6 H7 H8]. rewrite foldl_app. simpl.
  set (a := foldl _ _ l) in *. unfold aggregate_task.
  split; simpl.
  - rewrite count_snoc, H1, count_inc by done. done.
  - rewrite count_snoc, H2, count_inc by done. by destruct (Success t).
  - rewrite count_snoc, H3, count_inc by done. done.
  - rewrite count_snoc, H4, count_inc by done. done.
  - apply (counts_by_bump _ _ _ _ _ Hl H5).
  - apply (counts_by_bump _ _ _ _ _ Hl H6).
  - apply (counts_by_bump _ _ _ _ _ Hl H7).
  - intros h. specialize (H8 h). rewrite !count_snoc. set (h0 := Truncate (tm_Timestamp t) hour).
    destruct (in_hour h t) eqn:Eh; unfold in_hour in Eh; fold h0 in Eh; case_bool_decide as Eq; try done; cbn [andb].
    + subst h. rewrite lookup_insert_eq.
      pose proof (count_bound (in_hour h0) l) as Hb.
      assert (completed (getOrCreateBucket (hourlyMap a) h0) = count (fun t => in_hour h0 t && Success t) l /\
        failed (getOrCreateBucket (hourlyMap a) h0) = count (fun t => in_hour h0 t && negb (Success t)) l) as [Hc Hf].
      { unfold getOrCreateBucket. destruct (hourlyMap a !! h0) as [b|]; simpl; [by destruct H8 as (_ & ? & ?)|].
        by rewrite !count_and_zero. }
      split; [lia|]. pose proof (count_inc (fun t => in_hour h0 t && Success t) l Hl).
      pose proof (count_inc (fun t => in_hour h0 t && negb (Success t)) l Hl).
      unfold bucket_add. destruct (Success t); [destruct (0 <? Duration t)|]; simpl; split; congruence.
    + by rewrite lookup_insert_ne.
Qed.

Lemma sink_perm x rev : sink (F := F) x rev ≡ₚ x :: rev.
Proof.
  induction rev as [|y rev IH]; simpl; [done|]. destruct (_ <? _); [|done]. rewrite IH. apply Permutation_swap.
Qed.

Lemma sink_sorted x rev :
  StronglySorted (fun a b => Hour b <= Hour a) rev -> StronglySorted (fun a b => Hour b <= Hour a) (sink (F := F) x rev).
Proof.
  induction 1 as [|y rev Hs IH Hall]; simpl; [by repeat constructor|].
  destruct (Z.ltb_spec (Hour x) (Hour y)).
  - constructor; [done|]. rewrite sink_perm. constructor; [lia|done].
  - constructor; [by constructor|]. constructor; [lia|]. eapply Forall_impl; [exact Hall|]. simpl. lia.
Qed.

Lemma sort_buckets l :
  sortHourlyBuckets (F := F) l ≡ₚ l /\ StronglySorted (fun a b => Hour a <= Hour b) (sortHourlyBuckets l).
Proof.
  assert (forall rev, StronglySorted (fun a b => Hour b <= Hour a) rev ->
    foldl (fun rev x => sink (F := F) x rev) rev l ≡ₚ rev ++ l /\
    StronglySorted (fun a b => Hour b <= Hour a) (foldl (fun rev x => sink x rev) rev l)) as H.
  { induction l as [|x l IH]; intros rev Hr; simpl; [by rewrite app_nil_r|].
    destruct (IH (sink x rev) (sink_sorted x rev Hr)) as [Hp Hs]. split; [|done].
    rewrite Hp, sink_perm. by rewrite <- Permutation_middle. }
  destruct (H [] ltac:(constructor)) as [Hp Hs]. unfold sortHourlyBuckets. split; [by rewrite reverse_Permutation|].
  clear -Hs. induction Hs as [|x r Hs IH Hall]; [constructor|]. rewrite reverse_cons. apply StronglySorted_app_2; [|done|by repeat constructor].
  intros a b Ha ->%list_elem_of_singleton. rewrite elem_of_reverse in Ha. by eapply Forall_forall in Hall.
Qed.

Lemma sorted_strict (l : list (HourlyBucket F)) :
  StronglySorted (fun a b => Hour a <= Hour b) l -> NoDup (map Hour l) -> StronglySorted (fun a b => Hour a < Hour b) l.
Proof.
  induction 1 as [|x l Hs IH Hall]; [constructor|]. simpl. intros [Hn Hd]%NoDup_cons. constructor; [by apply IH|].
  apply Forall_forall. intros y Hy. rewrite Forall_forall in Hall. specialize (Hall y Hy). simpl in Hall.
  destruct (Z.eq_dec (Hour x) (Hour y)) as [E|]; [|lia]. exfalso. apply Hn. rewrite E. by apply (list_elem_of_fmap_2 Hour).
Qed.

(** The hours of a snapshot: one bucket for each hour with a task, in order. *)
Definition hours_of (l : list TaskMetric) (buckets : list (HourlyBucket F)) : Prop :=
  StronglySorted (fun a b => Hour a < Hour b) buckets /\
  (forall h, 0 < count (in_hour h) l <-> exists b, b ∈ buckets /\ Hour b = h) /\
  Forall (fun b => Completed b = count (fun t => in_hour (Hour b) t && Success t) l /\
                   Failed b = count (fun t => in_hour (Hour b) t && negb (Success t)) l) buckets.

Lemma build_hours l now order :
  totals_of now l (aggregate now l) -> order (hourlyMap (aggregate (F := F) now l)) ≡ₚ map_to_list (hourlyMap (aggregate now l)) ->
  hours_of l (buildHourlyBuckets (order (hourlyMap (aggregate now l)))).
Proof.
  intros [_ _ _ _ _ _ _ Hh] Hp. set (m := hourlyMap (aggregate now l)) in *. unfold buildHourlyBuckets.
  destruct (sort_buckets (map bucket_of (order m))) as [Hsp Hss].
  assert (forall b, b ∈ sortHourlyBuckets (map bucket_of (order m)) <-> exists h a, b = bucket_of (h, a) /\ m !! h = Some a) as Hin.
  { intros b. rewrite Hsp, Hp. rewrite list_elem_of_fmap. split.
    - intros ([h a] & -> & Hha). exists h, a. by rewrite elem_of_map_to_list in Hha.
    - intros (h & a & -> & Hha). exists (h, a). by rewrite elem_of_map_to_list. }
  split; [|split].
  - apply sorted_strict; [done|]. rewrite Hsp, Hp, map_map. change (fun x => Hour (bucket_of x)) with (fun x : Z * bucketAccum F => x.1).
    apply NoDup_fst_map_to_list.
  - intros h. specialize (Hh h). split.
    + intros Hc. destruct (m !! h) as [a|] eqn:E; [|lia]. exists (bucket_of (h, a)). split; [|done]. apply Hin. by exists h, a.
    + intros (b & (h' & a & -> & E)%Hin & Hb). simpl in Hb. subst h'. rewrite E in Hh. by destruct Hh.
  - apply Forall_forall. intros b (h & a & -> & E)%Hin. specialize (Hh h). rewrite E in Hh. simpl. by destruct Hh as (_ & ? & ?).
Qed.

Lemma restarts_counted l :
  Z.of_nat (length l) <= max_int64 ->
  (aggregateAgentRestarts l).1 = count (fun a => bool_decide (am_EventType a = AgentRestarted)) l /\
  counts_by (fun a => bool_decide (am_EventType a = AgentRestarted)) am_Agent l (aggregateAgentRestarts l).2.
Proof.
  unfold aggregateAgentRestarts. induction l as [|a l IH] using rev_ind; intros Hlen; [split; [done|apply counts_by_nil]|].
  assert (Z.of_nat (length l) < max_int64) as Hl by (rewrite length_app in Hlen; simpl in Hlen; lia).
  destruct (IH ltac:(lia)) as [H1 H2]. rewrite foldl_app. simpl. rewrite count_snoc.
  pose proof (counts_by_bump _ _ _ a _ Hl H2) as H3. set (acc := foldl aggregate_restart (0, ∅) l) in *.
  cbv beta in H3. unfold aggregate_restart. destruct (bool_decide (am_EventType a = AgentRestarted)); simpl; (split; [|exact H3]); [|done].
  by rewrite H1, count_inc.
Qed.

(** ** The metrics of a history of events *)
Context {codecs : DataCodecs}.

(** The task and the agent record an event stands for. *)
Definition task_of (e : Event) : option TaskMetric :=
  match Type_ e, DecodeData e with
  | TaskCompleted, Ok (Some (DCompleted d)) =>
      Some (mkTask (Timestamp e) (Agent e) (Role e) (EpicID e) (td_Duration d) true
              (td_LinesAdded d) (td_LinesRemoved d) (td_FilesChanged d) (td_TaskID d))
  | TaskFailed, Ok (Some (DFailed d)) =>
      Some (mkTask (Timestamp e) (Agent e) (Role e) (EpicID e) 0 false 0 0 0 (tf_TaskID d))
  | _, _ => None
  end.
Definition agent_of (e : Event) : option AgentMetric :=
  match Type_ e, DecodeData e with
  | AgentStarted, Ok _ => Some (mkAgentMetric (Timestamp e) (Agent e) (Type_ e) 0 0)
  | AgentStopped, Ok (Some (DStopped d)) => Some (mkAgentMetric (Timestamp e) (Agent e) (Type_ e) 0 (ap_ExitCode d))
  | AgentRestarted, Ok (Some (DRestarted d)) =>
      Some (mkAgentMetric (Timestamp e) (Agent e) (Type_ e) (ar_RestartCount d) 0)
  | _, _ => None
  end.

Definition event_of (op : store_op) : option Event := match op with OpEvent e => Some e | OpPrune _ => None end.

Lemma handleEvent_lists e ms :
  tasks (handleEvent e ms) = tasks ms ++ option_list (task_of e) /\
  agents (handleEvent e ms) = agents ms ++ option_list (agent_of e) /\
  retention (handleEvent e ms) = retention ms.
Proof.
  unfold handleEvent, handleTaskCompleted, handleTaskFailed, handleAgentStarted, handleAgentStopped, handleAgentRestarted,
    task_of, agent_of.
  destruct (Type_ e); try (by rewrite !app_nil_r); destruct (DecodeData e) as [[[]|]|]; simpl; by rewrite ?app_nil_r.
Qed.

Lemma events_lists ops ms :
  let ms' := foldl store_exec ms (List.filter is_event ops) in
  tasks ms' = tasks ms ++ omap task_of (omap event_of ops) /\
  agents ms' = agents ms ++ omap agent_of (omap event_of ops) /\ retention ms' = retention ms.
Proof.
  revert ms. induction ops as [|[e|t] ops IH]; intros ms; simpl; [by rewrite !app_nil_r| |apply IH].
  destruct (IH (handleEvent e ms)) as (-> & -> & ->). destruct (handleEvent_lists e ms) as (-> & -> & ->).
  destruct (task_of e), (agent_of e); simpl; by rewrite <- ?app_assoc, ?app_nil_r.
Qed.

(** The records a snapshot covers. *)
Definition covered {A} (ts : A -> Z) (cutoff : Z) (l : list A) : list A := List.filter (fun a => recent cutoff (ts a)) l.

Lemma Snapshot_aggregate order now1 now2 ms :
  let snap := (Snapshot order now1 now2 ms).2 in
  let a := aggregate (F := F) now2 (tasks (pruneLocked now1 ms)) in
  let r := aggregateAgentRestarts (agents (pruneLocked now1 ms)) in
  TasksCompleted24h snap = completed24h a /\ TasksCompletedLastHr snap = lastHr a /\
  ErrorRatePct snap = (let total := add64 (completed24h a) (failed24h a) in
    if 0 <? total then f_mul (f_div (f_int (failed24h a)) (f_int total)) (f_int 100) else f_zero) /\
  TasksByRole snap = byRole a /\ TasksByEpic snap = byEpic a /\ TasksByAgent snap = byAgent a /\
  HourlyCompletions snap = buildHourlyBuckets (order (hourlyMap a)) /\
  RestartCount24h snap = r.1 /\ RestartsByAgent snap = r.2.
Proof. unfold Snapshot. by destruct (aggregateAgentRestarts _). Qed.

Lemma omap_le {A B} (f : A -> option B) l : (length (omap f l) <= length l)%nat.
Proof. induction l as [|a l IH]; [done|]. csimpl. destruct (f a); csimpl; lia. Qed.

Lemma covered_length {A} (ts : A -> Z) c (l : list A) : (length (covered ts c l) <= length l)%nat.
Proof. apply List.filter_length_le. Qed.

Lemma count_split {A} (P : A -> bool) l : count P l + count (fun a => negb (P a)) l = Z.of_nat (length l).
Proof. unfold count. induction l as [|a l IH]; [done|]. simpl. destruct (P a); simpl; lia. Qed.

(** What a snapshot says of a history of events, in whatever way the store
    was pruned meanwhile: with the tasks [ts] and agent records [ags] of the events not older
    than the retention, the numbers of completed and failed tasks, their rate,
    the tasks of the last hour, the counts by role, epic and agent, the
    restarts, and one bucket for each hour with a task, in order of time. *)
Theorem snapshot_functional order now1 now2 r ops :
  (forall m : gmap Z (bucketAccum F), order m ≡ₚ map_to_list m) ->
  Forall (pruned_by now1) ops -> Z.of_nat (length ops) <= max_int64 ->
  let snap := (Snapshot order now1 now2 (foldl store_exec (NewMetricsStore r) ops)).2 in
  let cutoff := now1 - (if r <=? 0 then DefaultRetention else r) in
  let ts := covered tm_Timestamp cutoff (omap task_of (omap event_of ops)) in
  let ags := covered am_Timestamp cutoff (omap agent_of (omap event_of ops)) in
  TasksCompleted24h snap = count Success ts /\
  TasksCompletedLastHr snap = count (fun t => Success t && recent (now2 - hour) (tm_Timestamp t)) ts /\
  ErrorRatePct snap =
    (if bool_decide (ts = []) then f_zero
     else f_mul (f_div (f_int (count (fun t => negb (Success t)) ts)) (f_int (Z.of_nat (length ts)))) (f_int 100)) /\
  counts_by (fun _ => true) tm_Role ts (TasksByRole snap) /\
  counts_by (fun _ => true) tm_EpicID ts (TasksByEpic snap) /\
  counts_by (fun _ => true) tm_Agent ts (TasksByAgent snap) /\
  RestartCount24h snap = count (fun a => bool_decide (am_EventType a = AgentRestarted)) ags /\
  counts_by (fun a => bool_decide (am_EventType a = AgentRestarted)) am_Agent ags (RestartsByAgent snap) /\
  hours_of ts (HourlyCompletions snap).
Proof.
  intros Hord HF Hlen snap cutoff ts ags. subst snap. rewrite snapshot_of_everything by done.
  destruct (events_lists ops (NewMetricsStore r)) as (Et & Ea & Er). set (ms := foldl store_exec _ _) in *.
  assert (tasks (pruneLocked now1 ms) = ts) as Ets by (simpl; by rewrite Et, Er).
  assert (agents (pruneLocked now1 ms) = ags) as Eas by (simpl; by rewrite Ea, Er).
  assert (forall A (g : Event -> option A), (length (omap g (omap event_of ops)) <= length ops)%nat) as Hom.
  { intros A g. pose proof (omap_le g (omap event_of ops)). pose proof (omap_le event_of ops). lia. }
  assert (Z.of_nat (length ts) <= max_int64) as Hts.
  { pose proof (covered_length tm_Timestamp cutoff (omap task_of (omap event_of ops))). specialize (Hom _ task_of). unfold ts. lia. }
  assert (Z.of_nat (length ags) <= max_int64) as Hags.
  { pose proof (covered_length am_Timestamp cutoff (omap agent_of (omap event_of ops))). specialize (Hom _ agent_of). unfold ags. lia. }
  pose proof (Snapshot_aggregate order now1 now2 ms) as H. cbv zeta in H. rewrite Ets, Eas in H.
  destruct H as (-> & -> & -> & -> & -> & -> & -> & -> & ->).
  pose proof (aggregate_totals now2 ts Hts) as Ht. pose proof (build_hours ts now2 order Ht (Hord _)) as Hh.
  destruct Ht as [-> -> _ -> H5 H6 H7 _]. destruct (restarts_counted ags Hags) as [-> Hrc].
  split_and!; try done. pose proof (count_split Success ts). pose proof (count_bound Success ts).
  pose proof (count_bound (fun t => negb (Success t)) ts).
  rewrite add64_id by (unfold in_int64, min_int64; lia). rewrite H. destruct ts as [|t l']; [done|].
  rewrite bool_decide_false by done. by rewrite (proj2 (Z.ltb_lt _ _)) by (simpl; lia).
Qed.

(** ** Utilization

    The starts ([true]) and stops of an agent among the events. *)
Definition mark_of (e : Event) : option (bool * Z) :=
  match Type_ e, DecodeData e with
  | AgentStarted, Ok _ => Some (true, Timestamp e)
  | AgentRestarted, Ok (Some (DRestarted _)) => Some (true, Timestamp e)
  | AgentStopped, Ok (Some (DStopped _)) => Some (false, Timestamp e)
  | _, _ => None
  end.
Definition marks (a : string) (es : list Event) : list (bool * Z) :=
  omap mark_of (filter (fun e => Agent e = a) es).

Definition apply_mark (s : agentUtilState) (m : bool * Z) : agentUtilState :=
  if m.1 then util_start m.2 s else util_stop m.2 s.

Lemma util_event a e ms :
  utilization (handleEvent e ms) !! a =
  if decide (Agent e = a) then
    match mark_of e with Some m => Some (apply_mark (getOrCreateUtil a (utilization ms)) m) | None => utilization ms !! a end
  else utilization ms !! a.
Proof.
  unfold handleEvent, handleTaskCompleted, handleTaskFailed, handleAgentStarted, handleAgentStopped, handleAgentRestarted, mark_of.
  destruct (Type_ e), (DecodeData e) as [[[]|]|]; simpl; case_decide as E; subst; try done;
    by rewrite ?lookup_insert_eq, ?lookup_insert_ne.
Qed.

Lemma util_ops a ops ms :
  getOrCreateUtil a (utilization (foldl store_exec ms ops)) =
  foldl apply_mark (getOrCreateUtil a (utilization ms)) (marks a (omap event_of ops)).
Proof.
  revert ms. induction ops as [|[e|t] ops IH]; intros ms; [done| |exact (IH (pruneLocked t ms))].
  simpl. rewrite IH. clear IH.
  assert (getOrCreateUtil a (utilization (handleEvent e ms)) =
    foldl apply_mark (getOrCreateUtil a (utilization ms)) (marks a [e])) as ->.
  { unfold getOrCreateUtil at 1. rewrite util_event. unfold marks. rewrite filter_cons.
    case_decide; [csimpl; by destruct (mark_of e)|done]. }
  rewrite <- foldl_app. f_equal. unfold marks. rewrite <- omap_app, <- filter_app. done.
Qed.

Lemma retention_ops ops ms : retention (foldl store_exec ms ops) = retention ms.
Proof.
  revert ms. induction ops as [|[e|t] ops IH]; intros ms; [done| |exact (IH (pruneLocked t ms))].
  simpl. rewrite IH. by destruct (handleEvent_lists e ms) as (_ & _ & ?).
Qed.

Lemma util_lookup a now r u : 0 < r ->
  computeUtilization now r u !! a =
  let work := work_of now r (getOrCreateUtil a u) in
  if 0 <? work then Some (f_div (f_seconds work) (f_seconds r)) else None.
Proof.
  intros Hr. unfold computeUtilization, getOrCreateUtil. rewrite lookup_omap. destruct (u !! a) as [s|]; [done|].
  simpl. unfold work_of. simpl. by rewrite (proj2 (Z.ltb_ge r 0)) by lia.
Qed.

Definition session_marks (sessions : list (Z * Z)) : list (bool * Z) :=
  List.concat (map (fun '(s, t) => [(true, s); (false, t)]) sessions).
Definition total (sessions : list (Z * Z)) : Z := foldr (fun '(s, t) n => (t - s) + n) 0 sessions.

Lemma sessions_worked sessions s0 :
  isWorking s0 = false -> 0 <= workDuration s0 -> Forall (fun '(s, t) => 0 <= s <= t) sessions ->
  workDuration s0 + total sessions <= max_int64 ->
  let s1 := foldl apply_mark s0 (session_marks sessions) in
  isWorking s1 = false /\ workDuration s1 = workDuration s0 + total sessions.
Proof.
  intros Hw H0 HF. revert s0 Hw H0. induction HF as [|[s t] ss [Hs Ht] HF IH]; intros s0 Hw H0 Hfit; [split; [done|simpl; lia]|].
  simpl in Hfit. change (session_marks ((s, t) :: ss)) with ((true, s) :: (false, t) :: session_marks ss).
  assert (0 <= total ss) as Hnn.
  { clear -HF. induction HF as [|[s t] ss [? ?] HF IH]; simpl; lia. }
  assert (util_stop t (util_start s s0) = mkUtil s (workDuration s0 + (t - s)) false) as E.
  { unfold util_stop, util_start, accrue. rewrite Hw. simpl.
    unfold IsZero. rewrite bool_decide_false by (unfold zero_time, second; lia). simpl. f_equal.
    unfold time_sub, sat64. rewrite Z.min_r, Z.max_r by (unfold max_int64, min_int64 in *; lia).
    apply add64_id. unfold in_int64, min_int64, max_int64 in *. lia. }
  cbn [foldl]. change (apply_mark (apply_mark s0 (true, s)) (false, t)) with (util_stop t (util_start s s0)). rewrite E.
  destruct (IH (mkUtil s (workDuration s0 + (t - s)) false)) as [H1 H2]; simpl; try done; [lia|lia|].
  split; [done|]. rewrite H2. simpl. lia.
Qed.

(** The utilization of an agent: its finished sessions in full, however long
    ago they were, and what the current one has of the window, at most the
    window. So an agent that has stopped is reported with the same utilization
    for ever. *)
Theorem utilization_functional order now1 now2 r ops a sessions current :
  let ms := foldl store_exec (NewMetricsStore r) ops in
  marks a (omap event_of ops) = session_marks sessions ++ match current with Some s => [(true, s)] | None => [] end ->
  Forall (fun '(s, t) => 0 <= s <= t) sessions ->
  match current with Some s => 0 <= s <= now2 | None => True end ->
  total sessions + retention ms <= max_int64 ->
  let window := retention ms in
  let work := total sessions + match current with Some s => now2 - Z.max s (now2 - window) | None => 0 end in
  AgentUtilization (Snapshot order now1 now2 ms).2 !! a =
    if 0 <? work then Some (f_div (f_seconds (Z.min work window)) (f_seconds window)) else None.
Proof.
  intros ms Hm HF Hcur Hfit window work.
  assert (0 < window) as Hw.
  { unfold window, ms. rewrite retention_ops. simpl. destruct (Z.leb_spec r 0); [|lia]. unfold DefaultRetention, hour, minute, second. lia. }
  assert (AgentUtilization (Snapshot order now1 now2 ms).2 = computeUtilization now2 window (utilization ms)) as ->.
  { unfold Snapshot. by destruct (aggregateAgentRestarts _). }
  rewrite util_lookup by done. cbv zeta. unfold ms at 1 2. rewrite util_ops, Hm, foldl_app.
  assert (getOrCreateUtil a (utilization (NewMetricsStore r)) = mkUtil zero_time 0 false) as ->
    by (unfold getOrCreateUtil; simpl; by rewrite lookup_empty).
  destruct (sessions_worked sessions (mkUtil zero_time 0 false)) as [H1 H2];
    [done|done|done|simpl; unfold window in *; lia|]. cbn [workDuration] in H2. rewrite Z.add_0_l in H2.
  assert (0 <= total sessions) as Hnn.
  { clear -HF. induction HF as [|[s t] ss [? ?] HF IH]; simpl; lia. }
  set (u := foldl apply_mark _ (session_marks sessions)) in *.
  assert (work_of now2 window (foldl apply_mark u match current with Some s => [(true, s)] | None => [] end) =
    Z.min work window) as ->.
  { unfold work. destruct current as [s|]; simpl.
    - unfold apply_mark, util_start, accrue, work_of. rewrite H1. simpl.
      unfold IsZero. rewrite bool_decide_false by (unfold zero_time, second; lia). simpl. rewrite H2.
      assert ((if s <? now2 - window then now2 - window else s) = Z.max s (now2 - window)) as ->
        by (destruct (Z.ltb_spec s (now2 - window)); lia).
      fold window in Hfit. unfold time_sub.
      assert (sat64 (now2 - Z.max s (now2 - window)) = now2 - Z.max s (now2 - window)) as ->
        by (unfold sat64, min_int64; lia).
      rewrite add64_id by (unfold in_int64, min_int64; lia).
      destruct (Z.ltb_spec window (total sessions + (now2 - Z.max s (now2 - window)))); lia.
    - unfold work_of. rewrite H1. simpl. rewrite H2. destruct (Z.ltb_spec window (total sessions)); lia. }
  destruct (Z.ltb_spec 0 work), (Z.ltb_spec 0 (Z.min work window)); try done; lia.
Qed.
End aggregates.

(** ** Examples *)
Section examples.
Local Open Scope string_scope.

#[local] Instance demo_codecs : DataCodecs := {|
  c_claimed := coded (fun d => (tc_TaskID d, tc_Title d)) (fun '(a, b) => mkClaimed a b) ltac:(by intros []);
  c_task_started := coded ts_TaskID mkTaskStarted ltac:(by intros []);
  c_completed := coded (fun d => (td_TaskID d, td_Duration d, td_FilesChanged d, td_LinesAdded d, td_LinesRemoved d))
    (fun '(a, b, c, d, e) => mkCompleted a b c d e) ltac:(by intros []);
  c_failed := coded (fun d => (tf_TaskID d, tf_Error d)) (fun '(a, b) => mkFailed a b) ltac:(by intros []);
  c_started := coded as_PID mkStarted ltac:(by intros []);
  c_restarted := coded (fun d => (ar_PID d, ar_RestartCount d)) (fun '(a, b) => mkRestarted a b) ltac:(by intros []);
  c_stopped := coded (fun d => (ap_PID d, ap_ExitCode d)) (fun '(a, b) => mkStopped a b) ltac:(by intros []);
  c_epic_assigned := coded ea_EpicID mkEpicAssigned ltac:(by intros []);
  c_epic_exhausted := coded ee_EpicID mkEpicExhausted ltac:(by intros []);
  c_pr := coded (fun d => (pr_EpicID d, pr_URL d)) (fun '(a, b) => mkPRCreated a b) ltac:(by intros []);
  c_conflict := coded (fun d => (cr_File d, cr_Strategy d)) (fun '(a, b) => mkConflict a b) ltac:(by intros []);
  c_health := coded (fun d => (hc_AgentCount d, hc_HealthyCount d)) (fun '(a, b) => mkHealth a b) ltac:(by intros [])
|}.

(** Whole numbers in the place of floating-point numbers. *)
#[local] Instance whole_numbers : Float64 Z := {|
  f_zero := 0; f_int z := z; f_seconds d := d / second; f_add := Z.add; f_mul := Z.mul; f_div := Z.div |}.

Definition started (a : string) (t : Z) : Event := mkEvent AgentStarted (t * hour) a "task" "" "".
Definition stopped (a : string) (t : Z) : Event :=
  mkEvent AgentStopped (t * hour) a "task" "" (marshal (mkStopped 7 0)).
Definition done_ (t : Z) : Event :=
  mkEvent TaskCompleted (t * hour) "w1" "task" "" (marshal (mkCompleted "bd-1" minute 1 10 2)).

(** Pruned in between; the first task is too old for the snapshot. *)
Definition demo_ops : list store_op :=
  [OpEvent (started "w1" 1); OpEvent (done_ 2); OpEvent (stopped "w1" 4); OpPrune (10 * hour); OpEvent (done_ 20);
   OpPrune (27 * hour); OpEvent (done_ 30)].

Lemma snapshot_functional_witness :
  let snap := (Snapshot map_to_list (30 * hour) (30 * hour) (foldl store_exec (NewMetricsStore 0) demo_ops)).2 in
  TasksCompleted24h snap = 2 /\ TasksCompletedLastHr snap = 1.
Proof.
  intros snap.
  assert (Forall (pruned_by (30 * hour)) demo_ops) as HF by (repeat constructor; vm_compute; discriminate).
  pose proof (snapshot_functional map_to_list (30 * hour) (30 * hour) 0 demo_ops (fun m => reflexivity _) HF
    ltac:(vm_compute; discriminate)) as H.
  destruct H as (H1 & H2 & _). split; [refine (eq_trans H1 _)|refine (eq_trans H2 _)]; vm_compute; reflexivity.
Defined.

(** Three hours of work, finished a year ago. *)
Lemma utilization_functional_witness :
  let ms := foldl store_exec (NewMetricsStore 0) [OpEvent (started "w1" 1); OpEvent (stopped "w1" 4)] in
  AgentUtilization (Snapshot map_to_list (9000 * hour) (9000 * hour) ms).2 !! "w1" =
    Some (f_div (f_seconds (3 * hour)) (f_seconds DefaultRetention)).
Proof.
  exact (utilization_functional (codecs := demo_codecs) map_to_list (9000 * hour) (9000 * hour) 0
    [OpEvent (started "w1" 1); OpEvent (stopped "w1" 4)] "w1" [(1 * hour, 4 * hour)] None
    ltac:(vm_compute; reflexivity) ltac:(repeat constructor; vm_compute; discriminate) I
    ltac:(vm_compute; discriminate)).
Defined.
End examples.
End Metrics.
