(* ===== verification/Observability.v ===== *)
(** * Observability: reading the event log back,
    [internal/events/replay.go] and [internal/cli/serve_observability.go]

    The replay of files into a store of metrics, and the
    pages of events of the HTTP API; and that what was written through the event
    log ([EventLog]) is recovered by the replay ([Metrics]). What [filepath.Glob]
    finds is an argument. *)
From S2P Require Import Prelude Scanner Rotation EventLog Metrics.
Local Open Scope Z_scope.
Local Open Scope go_scope.

Module Obs.
Import Scanner Files Log Metrics.

Section replay.
Context {codecs : DataCodecs} {codec : JsonCodec Event}.

(** What one line does to the store and the count. *)
Definition replay_line (a : Z * MetricsStore) (line : string) : Z * MetricsStore :=
  match unmarshal line with
  | Some event => (inc64 a.1, handleEvent event a.2)
  | None => a
  end.

(** The file is its text, or the error of opening it. *)
Definition ReplayFromFile (file : res string) (ms : MetricsStore) : Z * option goerror * MetricsStore :=
  match file with
  | Err e => (0, Some (Wrapf "open events file: " e ""), ms)
  | Ok text =>
      let '(lines, err) := scan text in
      let '(count, ms1) := foldl replay_line (0, ms) lines in
      (count, (match err with Some e => Some (Wrapf "scan events file: " e "") | None => None end), ms1)
  end.

(** [files]: what [filepath.Glob] finds; a file that fails is skipped, what was
    replayed of it is not. *)
Definition replayAllEvents `{!SliceSort} (read : string -> res string) (files : res (list string)) (store : MetricsStore)
  : option goerror * MetricsStore :=
  match files with
  | Err e => (Some (Wrapf "globbing events files: " e ""), store)
  | Ok fs => (None, foldl (fun st f => (ReplayFromFile (read f) st).2) store (sort_slice str_lt fs))
  end.

(** ** Pages of events *)
Record EventReadOpts := mkOpts { Page : Z; PerPage : Z; o_Type : string; o_Agent : string; o_Since : string }.

Definition readJSONLFile (file : res string) : list Event * option goerror :=
  match file with
  | Err e => ([], Some e)
  | Ok text => let '(lines, err) := scan text in (omap unmarshal lines, err)
  end.

(** Go's [all[start:end]]; [None] is a panic. *)
Definition slice {A} (l : list A) (start end_ : Z) : option (list A) :=
  if (0 <=? start) && (start <=? end_) && (end_ <=? Z.of_nat (length l))
  then Some (take (Z.to_nat (end_ - start)) (drop (Z.to_nat start) l)) else None.

Definition selected (opts : EventReadOpts) (sinceTime : Z) (e : Event) : bool :=
  (bool_decide (o_Type opts = ""%string) || bool_decide (type_name (Type_ e) = o_Type opts)) &&
  (bool_decide (o_Agent opts = ""%string) || bool_decide (Agent e = o_Agent opts)) &&
  (IsZero sinceTime || negb (Timestamp e <? sinceTime)).

Definition newer (a b : Event) : bool := Timestamp b <? Timestamp a.

(** The last lines of [readEventsFromJSONL]. *)
Definition paginate (page perPage : Z) (all : list Event) : option (list Event * Z) :=
  let total := Z.of_nat (length all) in
  let start := mul64 (sub64 page 1) perPage in
  if total <=? start then Some ([], total)
  else
    let end_ := add64 start perPage in
    let end_ := if total <? end_ then total else end_ in
    match slice all start end_ with Some l => Some (l, total) | None => None end.

(** All selected events, the newest first. *)
Definition select_all `{!SliceSort} (read : string -> res string) (fs : list string) (opts : EventReadOpts) (sinceTime : Z)
  : list Event :=
  let newest_day_first := sort_slice (fun a b => str_lt b a) fs in
  sort_slice newer
    (List.concat (map (fun f =>
       match readJSONLFile (read f) with
       | (evts, None) => List.filter (selected opts sinceTime) evts
       | (_, Some _) => []
       end) newest_day_first)).

(** [parse] is [time.Parse(time.RFC3339, ...)]; the outer [None] is a panic. *)
Definition readEventsFromJSONL `{!SliceSort} (parse : string -> option Z) (read : string -> res string) (dir : string)
    (files : res (list string)) (opts : EventReadOpts) : option (res (list Event * Z)) :=
  if bool_decide (dir = ""%string) then Some (Ok ([], 0))
  else
    match files with
    | Err e => Some (Err (Wrapf "globbing events files: " e ""))
    | Ok [] => Some (Ok ([], 0))
    | Ok fs =>
        let sinceTime := if bool_decide (o_Since opts <> ""%string) then default zero_time (parse (o_Since opts)) else zero_time in
        match paginate (Page opts) (PerPage opts) (select_all read fs opts sinceTime) with
        | Some r => Some (Ok r)
        | None => None
        end
    end.

(** ** The HTTP handler *)
Definition parseIntParam (s : string) (defaultVal : Z) : option Z :=
  if bool_decide (s = ""%string) then Some defaultVal else atoi s.

Inductive answer :=
| BadRequest (msg : string) | ServerError | Panicked | Events (data : list Event) (total page per_page : Z).

(** The query's parameters, empty when absent. *)
Record query := mkQuery { q_page : string; q_per_page : string; q_since : string; q_type : string; q_agent : string }.

Definition handleObservabilityEvents `{!SliceSort} (parse : string -> option Z) (read : string -> res string) (dir : string)
    (files : res (list string)) (q : query) : answer :=
  match parseIntParam (q_page q) 1 with
  | None => BadRequest "invalid page parameter"
  | Some page =>
      if page <? 1 then BadRequest "invalid page parameter"
      else
        match parseIntParam (q_per_page q) 50 with
        | None => BadRequest "invalid per_page parameter"
        | Some perPage =>
            if perPage <? 1 then BadRequest "invalid per_page parameter"
            else
              let perPage := if 200 <? perPage then 200 else perPage in
              if bool_decide (q_since q <> ""%string) && bool_decide (parse (q_since q) = None)
              then BadRequest "invalid since parameter, expected RFC3339"
              else
                match readEventsFromJSONL parse read dir files (mkOpts page perPage (q_type q) (q_agent q) (q_since q)) with
                | None => Panicked
                | Some (Err _) => ServerError
                | Some (Ok (evts, total)) => Events evts total page perPage
                end
        end
  end.
End replay.

(** ** Pages *)

(** A page holds the events from its place on, as many as fit, with the
    total, whenever the product of page and size is an [int]; so the pages in
    order give every event once. When the product wraps to a negative number,
    for a page number a request may well carry, the slice panics. *)
Theorem pages_functional page perPage all :
  1 <= page <= max_int64 -> 1 <= perPage <= 200 -> Z.of_nat (length all) <= max_int64 - 200 ->
  (in_int64 ((page - 1) * perPage) ->
   paginate page perPage all =
     Some (take (Z.to_nat perPage) (drop (Z.to_nat ((page - 1) * perPage)) all), Z.of_nat (length all))) /\
  (wrap64 ((page - 1) * perPage) < 0 -> paginate page perPage all = None) /\
  (forall n, in_int64 (Z.of_nat n * perPage) -> Z.of_nat (length all) <= Z.of_nat n * perPage ->
   List.concat (map (fun k => match paginate (Z.of_nat (S k)) perPage all with Some (l, _) => l | None => [] end) (seq 0 n)) = all).
Proof.
  intros Hp Hpp Hlen.
  assert (forall page, 1 <= page <= max_int64 -> sub64 page 1 = page - 1) as Hsub.
  { intros q Hq. apply sub64_id. unfold in_int64, min_int64, max_int64 in *. lia. }
  assert (forall page, 1 <= page <= max_int64 -> in_int64 ((page - 1) * perPage) ->
    paginate page perPage all =
      Some (take (Z.to_nat perPage) (drop (Z.to_nat ((page - 1) * perPage)) all), Z.of_nat (length all))) as Hok.
  { intros q Hq Hfit. unfold paginate. rewrite Hsub by done. unfold mul64. rewrite wrap64_id by done.
    assert (0 <= (q - 1) * perPage) as Hs by nia.
    destruct (Z.leb_spec (Z.of_nat (length all)) ((q - 1) * perPage)) as [Hle|Hlt].
    { rewrite drop_ge by lia. by rewrite take_nil. }
    rewrite add64_id by (unfold in_int64, min_int64 in *; lia). unfold slice.
    rewrite (proj2 (Z.leb_le 0 _)) by lia. destruct (Z.ltb_spec (Z.of_nat (length all)) ((q - 1) * perPage + perPage)).
    - rewrite (proj2 (Z.leb_le _ _)) by lia. rewrite (proj2 (Z.leb_le _ _)) by lia. simpl.
      rewrite !take_ge by (rewrite length_drop; lia). done.
    - rewrite (proj2 (Z.leb_le _ _)) by lia. rewrite (proj2 (Z.leb_le _ _)) by lia. simpl.
      by replace ((q - 1) * perPage + perPage - (q - 1) * perPage) with perPage by lia. }
  split; [by apply Hok|]. split.
  - intros Hneg. unfold paginate. rewrite Hsub by done. fold (mul64 (page - 1) perPage) in Hneg.
    destruct (Z.leb_spec (Z.of_nat (length all)) (mul64 (page - 1) perPage)); [lia|].
    unfold slice. by rewrite (proj2 (Z.leb_gt 0 _)) by done.
  - intros n Hfit Hall.
    assert (forall k, (k <= n)%nat -> List.concat (map (fun k => match paginate (Z.of_nat (S k)) perPage all with Some (l, _) => l | None => [] end) (seq 0 k)) = take (k * Z.to_nat perPage) all) as Hpre.
    { intros k. induction k as [|k IH]; intros Hk; [done|]. rewrite seq_S, map_app, List.concat_app, IH by lia. simpl.
      rewrite Hok; [|unfold in_int64, max_int64 in *; nia|unfold in_int64, min_int64 in *; nia].
      rewrite app_nil_r. replace (Z.to_nat ((Z.of_nat (S k) - 1) * perPage)) with (k * Z.to_nat perPage)%nat by nia.
      rewrite take_take_drop. f_equal. lia. }
    rewrite Hpre by lia. apply take_ge. nia.
Qed.

(** ** What was written is recovered *)
Lemma Split_lines ts :
  Forall (fun t => contains_byte t LF = false) ts -> Split LF (concat_all (map (fun t => t +:+ Jsonl.LF) ts)) = ts ++ [""%string].
Proof.
  induction 1 as [|t ts Ht HF IH]; [done|]. cbn [map]. rewrite concat_all_cons.
  replace ((t +:+ Jsonl.LF) +:+ concat_all (map (fun t => t +:+ Jsonl.LF) ts))%string
    with (t +:+ String LF (concat_all (map (fun t => t +:+ Jsonl.LF) ts)))%string by (by rewrite append_assoc).
  by rewrite Split_cut, IH.
Qed.

Lemma scan_lines ts : Forall plain_line ts -> scan (concat_all (map (fun t => t +:+ Jsonl.LF) ts)) = (ts, None).
Proof.
  intros HF. unfold scan. fold LF. rewrite Split_lines by (eapply Forall_impl; [exact HF|]; by intros t [? _]).
  rewrite unterminated_lines. by apply take_plain.
Qed.

Section recovery.
Context {codecs : DataCodecs} {codec : JsonCodec Event} (date_of : Event -> string).
Context (join : string -> string -> string)
        (join_prefix : forall dir, exists pre, forall n,
           has_prefix n "events-" = true -> contains_byte n "/" = false -> join dir n = (pre +:+ n)%string).

Definition Marshal (e : Event) : res string := Ok (marshal e).

Lemma replay_all es n ms :
  (foldl replay_line (n, ms) (map marshal es)).2 = foldl (fun ms e => handleEvent e ms) ms es.
Proof.
  revert n ms. induction es as [|e es IH]; intros n ms; [done|]. simpl. unfold replay_line at 2.
  rewrite unmarshal_marshal. apply IH.
Qed.

Lemma replay_text es ms :
  Forall (fun e => plain_line (marshal e)) es ->
  (ReplayFromFile (Ok (concat_all (map (fun e => marshal e +:+ Jsonl.LF) es))) ms).2 =
    foldl (fun ms e => handleEvent e ms) ms es.
Proof.
  intros HF. unfold ReplayFromFile.
  rewrite <- (map_map marshal (fun t => t +:+ Jsonl.LF)%string es), scan_lines by (by apply Forall_map).
  pose proof (replay_all es 0 ms) as H. by destruct (foldl replay_line (0, ms) (map marshal es)).
Qed.

Abbreviation of_day d es := (filter (fun e => date_of e = d) es).
Abbreviation writes_of := (Jsonl.lines_len Marshal).

(** A day's log that is never rotated is one file. *)
Lemma day_unrotated mx mb d es logs c :
  default [""%string] (logs !! d) = [c] -> mx <= 0 \/ len c + writes_of es <= mx ->
  let logs' := foldl (Jsonl.day_write Marshal date_of mx mb) logs es in
  default [""%string] (logs' !! d) = [c +:+ Jsonl.day_text Marshal date_of d es] /\
  (logs' !! d = None -> logs !! d = None /\ of_day d es = []).
Proof.
  revert logs c. induction es as [|e es IH]; intros logs c Hc Hmx; simpl.
  { split; [by rewrite append_empty|done]. }
  assert (0 <= writes_of es) as Hnn.
  { clear. induction es as [|e es IH]; simpl; [done|]. unfold len in *. lia. }
  simpl in Hmx. unfold Jsonl.line_of in Hmx. simpl in Hmx.
  assert (mx <= 0 \/ len (c +:+ marshal e +:+ Jsonl.LF) + writes_of es <= mx) as Hmx'
    by (unfold len in *; rewrite !length_append in *; lia).
  unfold Jsonl.day_text. rewrite filter_cons. unfold Jsonl.day_write at 2 4. simpl. case_decide as Hd.
  - subst d. destruct (IH (<[date_of e := [c +:+ marshal e +:+ Jsonl.LF]]> logs) (c +:+ marshal e +:+ Jsonl.LF)%string) as [H1 H2].
    { by rewrite lookup_insert_eq. }
    { done. }
    rewrite Hc. unfold log_write.
    assert ((0 <? mx) && (mx <? len c + len (marshal e +:+ Jsonl.LF)) = false) as ->.
    { apply andb_false_iff. destruct Hmx' as [Hm|Hm]; [left; by apply Z.ltb_ge|right; apply Z.ltb_ge].
      unfold len in Hm. rewrite !length_append in Hm. unfold len. rewrite length_append. lia. }
    split.
    + rewrite H1. unfold Jsonl.day_text. cbn [map]. rewrite concat_all_cons.
      change (Jsonl.line_of Marshal e) with (marshal e +:+ Jsonl.LF)%string. by rewrite !append_assoc.
    + intros H3. apply H2 in H3 as [H3 _]. by rewrite lookup_insert_eq in H3.
  - destruct (IH (<[date_of e := log_write mx mb (default [""%string] (logs !! date_of e)) (marshal e +:+ Jsonl.LF)]> logs) c) as [H1 H2].
    { by rewrite lookup_insert_ne. }
    { unfold len in *. rewrite !length_append in *. lia. }
    split; [by rewrite H1|]. intros H3. apply H2 in H3. by rewrite lookup_insert_ne in H3.
Qed.

(** Reading the file of a name. *)
Definition read_file (f : fs) (path : string) : res string :=
  match dir f !! path with Some i => Ok (content f i) | None => Err ErrNotExist end.

Abbreviation path_of dir d := (join dir ("events-" +:+ d +:+ ".jsonl")%string).

Lemma replay_day dir mx mb f l es d ms :
  Jsonl.day_shows join (Jsonl.NewJSONLWriter dir mx mb) d f l ->
  default [""%string] l = [Jsonl.day_text Marshal date_of d es] -> (l = None -> of_day d es = []) ->
  Forall (fun e => plain_line (marshal e)) es ->
  (ReplayFromFile (read_file f (path_of dir d)) ms).2 = foldl (fun ms e => handleEvent e ms) ms (of_day d es).
Proof.
  intros Hd Hl Hn HF. unfold read_file. destruct l as [l|]; simpl in *.
  - subst l. destruct Hd as [h Hs]. pose proof (sh_cur _ _ _ _ _ _ Hs) as Hc. pose proof (sh_head _ _ _ _ _ _ Hs) as Hh.
    unfold Jsonl.pathForDate in Hc. simpl in Hc. rewrite Hc. injection Hh as Hh. rewrite append_empty in Hh. rewrite <- Hh.
    apply replay_text. apply Forall_forall. intros e [_ He]%list_elem_of_filter. rewrite Forall_forall in HF. by apply HF.
  - rewrite (Hn eq_refl). specialize (Hd 0%nat ltac:(lia)). unfold Jsonl.pathForDate in Hd. simpl in Hd.
    change (name ?p 0) with p in Hd. by rewrite Hd.
Qed.

(** C24. Metrics survive an orderly restart: when events, in the order of their days,
    have been written through one log to a fresh directory, no day's log was rotated,
    and the log was closed before the files are read, the replay of the files that are found there gives the very store
    that handling the events directly gives. *)
Theorem replay_recovers `{!SliceSort} dir mx mb es ds files r :
  1 <= mb -> mx <= 0 \/ writes_of es <= mx -> writes_of es <= max_int64 ->
  Forall (fun e => Jsonl.valid (date_of e) /\ plain_line (marshal e)) es -> Forall Jsonl.valid ds ->
  List.concat (map (fun d => of_day d es) ds) = es ->
  sort_slice str_lt files = map (fun d => path_of dir d) ds ->
  let '(j, w) := Jsonl.write_all join Marshal date_of es (Jsonl.NewJSONLWriter dir mx mb) (mkWorld empty_fs []) in
  let '(_, err, w') := Jsonl.Close_ j w in
  err = None /\
  replayAllEvents (read_file (Files.files w')) (Ok files) (NewMetricsStore r) =
    (None, foldl (fun ms e => handleEvent e ms) (NewMetricsStore r) es).
Proof.
  intros Hmb Hmx Hfit HF Hds Hes Hfiles.
  pose proof (Jsonl.close_days join Marshal date_of join_prefix dir mx mb empty_fs ∅ es 0 Hmb empty_fs_wf) as Hcl.
  destruct (Jsonl.write_all join Marshal date_of es (Jsonl.NewJSONLWriter dir mx mb) (mkWorld empty_fs [])) as [j w].
  destruct (Jsonl.Close_ j w) as [[j' err] w']. destruct Hcl as [He Hd].
  - eapply Forall_impl; [exact HF|]. by intros e [? _].
  - intros d _. rewrite lookup_empty. intros k _. apply lookup_empty.
  - intros d. rewrite lookup_empty. done.
  - done.
  - split; [done|]. unfold replayAllEvents. rewrite Hfiles. f_equal.
    assert (forall ds ms, Forall Jsonl.valid ds ->
      foldl (fun st f => (ReplayFromFile (read_file (Files.files w') f) st).2) ms (map (fun d => path_of dir d) ds) =
      foldl (fun ms e => handleEvent e ms) ms (List.concat (map (fun d => of_day d es) ds))) as Hall.
    { clear Hds Hes Hfiles. intros ds0 ms HV. revert ms. induction HV as [|d ds' Hv HV IH]; intros ms; [done|]. simpl.
      destruct (day_unrotated mx (Z.to_nat mb) d es ∅ "" ltac:(by rewrite lookup_empty) Hmx) as [H1 H2].
      rewrite append_nil_l in H1.
      rewrite (replay_day dir mx mb _ _ es d ms (Hd d Hv) H1) by
        ((intros Hn; by apply H2) || (eapply Forall_impl; [exact HF|]; by intros e [_ ?])).
      rewrite foldl_app. apply IH. }
    by rewrite Hall, Hes.
Qed.
End recovery.

(** ** Examples *)
Section examples.
Local Open Scope string_scope.
#[local] Existing Instance demo_codecs.
#[local] Existing Instance InsertionSort.insertion_SliceSort.

Definition type_code (t : EventType) : Z + string :=
  match t with
  | TaskClaimed => inl 0 | TaskStarted => inl 1 | TaskCompleted => inl 2 | TaskFailed => inl 3 | AgentStarted => inl 4
  | AgentRestarted => inl 5 | AgentStopped => inl 6 | EpicAssigned => inl 7 | EpicExhausted => inl 8 | PRCreated => inl 9
  | ConflictResolved => inl 10 | HealthCheck => inl 11 | OtherType n => inr n
  end.
Definition code_type (c : Z + string) : EventType :=
  match c with
  | inl 0 => TaskClaimed | inl 1 => TaskStarted | inl 2 => TaskCompleted | inl 3 => TaskFailed | inl 4 => AgentStarted
  | inl 5 => AgentRestarted | inl 6 => AgentStopped | inl 7 => EpicAssigned | inl 8 => EpicExhausted | inl 9 => PRCreated
  | inl 10 => ConflictResolved | inl _ => HealthCheck | inr n => OtherType n
  end.

#[local] Instance event_codec : JsonCodec Event := coded
  (fun e => (type_code (Type_ e), Timestamp e, Agent e, Role e, (EpicID e, Data e)))
  (fun '(t, ts, a, r, (ep, d)) => mkEvent (code_type t) ts a r ep d) ltac:(by intros [[] ? ? ? ? ?]).

Definition demo_date (e : Event) : string := if Z.ltb (Timestamp e) (24 * hour) then "1970-01-01" else "1970-01-02".
Definition slash_join (dir n : string) : string := dir +:+ "/" +:+ n.
Definition demo_events : list Event := [started "w1" 1; done_ 2; stopped "w1" 4; done_ 30].
Definition demo_files : list string := ["ev/events-1970-01-02.jsonl"; "ev/events-1970-01-01.jsonl"].

Lemma replay_recovers_witness :
  let '(j, w) := Jsonl.write_all slash_join Marshal demo_date demo_events (Jsonl.NewJSONLWriter "ev" 0 5) (mkWorld empty_fs []) in
  let '(_, err, w') := Jsonl.Close_ j w in
  totalTasksCompleted (replayAllEvents (read_file (Files.files w')) (Ok demo_files) (NewMetricsStore 0)).2 = 2.
Proof.
  assert (Forall (fun e => Jsonl.valid (demo_date e) /\ plain_line (marshal e)) demo_events) as HF.
  { repeat constructor; vm_compute; reflexivity. }
  pose proof (replay_recovers demo_date slash_join
    (fun dir => ex_intro (fun pre => forall n, _ -> _ -> slash_join dir n = pre +:+ n) (dir +:+ "/") (fun n _ _ => eq_sym (append_assoc dir "/" n)))
    "ev" 0 5 demo_events ["1970-01-01"; "1970-01-02"] demo_files 0 ltac:(lia) ltac:(left; lia)
    ltac:(vm_compute; discriminate) HF ltac:(repeat constructor) ltac:(vm_compute; reflexivity) ltac:(vm_compute; reflexivity)) as H.
  destruct (Jsonl.write_all slash_join Marshal demo_date demo_events (Jsonl.NewJSONLWriter "ev" 0 5) (mkWorld empty_fs [])) as [j w].
  destruct (Jsonl.Close_ j w) as [[j' err] w']. destruct H as [_ Hr].
  refine (eq_trans (f_equal (fun x => totalTasksCompleted x.2) Hr) _). vm_compute. reflexivity.
Defined.

(** When the day's log was rotated, the backups are not found: two of the three
    tasks are gone. *)
Example rotated_events_are_lost :
  let '(j, w) := Jsonl.write_all slash_join Marshal demo_date [done_ 2; done_ 3; done_ 4] (Jsonl.NewJSONLWriter "ev" 10 5)
                   (mkWorld empty_fs []) in
  let '(_, err, w') := Jsonl.Close_ j w in
  totalTasksCompleted (replayAllEvents (read_file (Files.files w')) (Ok ["ev/events-1970-01-01.jsonl"]) (NewMetricsStore 0)).2 = 1.
Proof. vm_compute. reflexivity. Qed.

(** Two processes write to one day's file, each through its own buffer: the
    first flushes in the middle of a line, and the second's line ends up inside
    it. *)
Fixpoint long (n : nat) : string := match n with O => "" | S n' => String "a" (long n') end.
Example torn_lines :
  let big := long (128 * 128) in
  let log (l : list string) j w := Jsonl.write_all slash_join (fun e : string => Ok e) (fun _ => "1970-01-01") l j w in
  let j0 := Jsonl.NewJSONLWriter "ev" 0 5 in
  let '(j1, w1) := log [big; big; big] j0 (mkWorld empty_fs []) in
  let '(j2, w2) := log ["second"] j0 w1 in
  let '(_, _, w3) := Jsonl.Close_ j2 w2 in
  let '(_, _, w4) := Jsonl.Close_ j1 w3 in
  match read_file (Files.files w4) "ev/events-1970-01-01.jsonl" with
  | Ok text => map (fun l => (bool_decide (l = big), bool_decide (l = "second"))) (scan text).1
  | Err _ => []
  end = [(true, false); (false, false); (false, false); (true, false)].
Proof. vm_compute. reflexivity. Qed.

(** A request for page 2^62 + 1 of two. *)
Example huge_page_panics :
  handleObservabilityEvents (fun _ => None) (read_file empty_fs) "ev" (Ok ["ev/events-1970-01-01.jsonl"])
    (mkQuery "4611686018427387905" "2" "" "" "") = Panicked.
Proof. vm_compute. reflexivity. Qed.

Lemma pages_functional_witness :
  paginate 2 2 [started "w1" 1; started "w2" 1; started "w3" 1] = Some ([started "w3" 1], 3).
Proof.
  exact (proj1 (pages_functional 2 2 [started "w1" 1; started "w2" 1; started "w3" 1] ltac:(vm_compute; split; discriminate)
    ltac:(lia) ltac:(vm_compute; discriminate)) ltac:(vm_compute; split; discriminate)).
Defined.
End examples.
End Obs.
