(* ===== verification/Rpc.v ===== *)
(** * Rpc: the client of the daemon's socket, [internal/rpc/client.go] and
    [protocol.go]

    One connection at the level of its lines: the requests go out and the
    answers come in one by one, in order and without an identifier, each at its
    time, which is after the reading began (an answer in the instant between sending
    and reading would be buffered with a stale one). What the daemon answers, and
    when, is a parameter ([Server]), as is JSON; a daemon that closes an idle
    connection is not represented. Finding the daemon is in [DaemonProbe]. *)
From S2P Require Import Prelude Scanner Paths.
Local Open Scope Z_scope.
Local Open Scope go_scope.

Module Rpc.
Import Scanner Paths.

(** ** Data *)
Record Request := mkRequest {
  Operation : string;
  Args : string;
  Actor : string;
  RequestID : string;
  Cwd : string;
  ClientVersion : string;
  ExpectedDB : string;
  AuthToken : string;
}.

Record Response := mkResponse { Success : bool; Data : string; Error : string }.

Definition maxClientMessageSize : Z := 10 * 1024 * 1024.
#[global] Arguments maxClientMessageSize : simpl never.

(** ** A connection

    The daemon works on one request after the other: [busy_until] is when it
    will have answered the last one. [inbox] has the lines that were not read,
    with the times at which they arrive. *)
Class Server (D : Type) := serve : string -> D -> D * string * Z.

Record conn (D : Type) := mkConn {
  peer : D;
  inbox : list (Z * string);
  busy_until : Z;
  deadline : option Z;
  broken : bool;
}.
Arguments mkConn {D}.
Arguments peer {D}.
Arguments inbox {D}.
Arguments busy_until {D}.
Arguments deadline {D}.
Arguments broken {D}.

Section client.
Context {D : Type} `{!Server D} {req_codec : JsonCodec Request} {resp_codec : JsonCodec Response}.

Definition set_inbox (l : list (Z * string)) (c : conn D) : conn D :=
  mkConn (peer c) l (busy_until c) (deadline c) (broken c).

Definition SetDeadline (t : Z) (c : conn D) : option goerror * conn D :=
  if broken c then (Some (NetError "use of closed network connection"), c)
  else (None, mkConn (peer c) (inbox c) (busy_until c) (Some t) (broken c)).

(** Writing the request's line. *)
Definition send (now : Z) (line : string) (c : conn D) : option goerror * conn D :=
  if broken c then (Some (NetError "write: broken pipe"), c)
  else
    let '(d, answer, work) := serve line (peer c) in
    let at_ := Z.max now (busy_until c) + work in
    (None, mkConn d (inbox c ++ [(at_, answer)]) at_ (deadline c) false).

Definition ErrTimeout : goerror := NetError "i/o timeout".

(** What else of the lines that have arrived a buffer with so much room takes; a
    line may be cut. *)
Fixpoint buffered (room now : Z) (q : list (Z * string)) : list (Z * string) :=
  match q with
  | [] => []
  | (at_, line) :: q' =>
      if now <? at_ then q
      else if Z.of_nat (String.length line) + 1 <=? room then buffered (room - (Z.of_nat (String.length line) + 1)) now q'
      else (at_, str_drop (Z.to_nat room) line) :: q'
  end.

(** Reading one line with a new [bufio.Reader] of 4096 bytes: what it has
    buffered beyond the line is lost with it. A line over the limit leaves its
    rest in the connection. Third component: the time after it. *)
Definition read_line (now : Z) (c : conn D) : res string * conn D * Z :=
  match inbox c with
  | [] => (Err (NetError "EOF"), c, now)
  | (at_, line) :: q =>
      let now1 := Z.max now at_ in
      if match deadline c with Some t => t <? at_ | None => false end
      then (Err (Wrapf "failed to read response: " ErrTimeout ""), c, Z.max now (default now (deadline c)))
      else if maxClientMessageSize <? Z.of_nat (String.length line) + 1
      then (Err (Msg "response too large (exceeds 10485760 bytes)"),
            set_inbox ((at_, str_drop (Z.to_nat maxClientMessageSize) line) :: q) c, now1)
      else (Ok line, set_inbox (buffered (4095 - Z.of_nat (String.length line) mod 4096) now1 q) c, now1)
  end.

Record Client := mkClient {
  socket : conn D;
  socketPath : string;
  timeout : Z;
  dbPath : string;
  actor : string;
  authToken : string;
}.

Definition set_socket (s : conn D) (c : Client) : Client :=
  mkClient s (socketPath c) (timeout c) (dbPath c) (actor c) (authToken c).

Definition SetTimeout (t : Z) (c : Client) : Client :=
  mkClient (socket c) (socketPath c) t (dbPath c) (actor c) (authToken c).
Definition SetDatabasePath (p : string) (c : Client) : Client :=
  mkClient (socket c) (socketPath c) (timeout c) p (actor c) (authToken c).
Definition SetActor (a : string) (c : Client) : Client :=
  mkClient (socket c) (socketPath c) (timeout c) (dbPath c) a (authToken c).
Definition SetAuthToken (t : string) (c : Client) : Client :=
  mkClient (socket c) (socketPath c) (timeout c) (dbPath c) (actor c) t.

(** ** Calls ([executeWithTimeout])

    [version] is the package's [ClientVersion], [getwd] what [os.Getwd] gives;
    the arguments are their JSON text, or the error of making it. *)
Context (version getwd : string).

Definition request (operation args cwd : string) (c : Client) : Request :=
  mkRequest operation args (actor c) "" (if bool_decide (cwd = ""%string) then getwd else cwd) version (dbPath c)
    (authToken c).

Definition outcome : Type := option Response * option goerror.

Definition executeWithTimeout (operation : string) (args : res string) (cwd : string) (timeoutOverride now : Z)
    (c : Client) : outcome * Client * Z :=
  match args with
  | Err e => ((None, Some (Wrapf "failed to marshal args: " e "")), c, now)
  | Ok argsJSON =>
      let tmo := if 0 <? timeoutOverride then timeoutOverride else timeout c in
      let line := marshal (request operation argsJSON cwd c) in
      let '(derr, s1) := if 0 <? tmo then SetDeadline (now + tmo) (socket c) else (None, socket c) in
      match derr with
      | Some e => ((None, Some (Wrapf "failed to set deadline: " e "")), set_socket s1 c, now)
      | None =>
          match send now line s1 with
          | (Some e, s2) => ((None, Some (Wrapf "failed to flush: " e "")), set_socket s2 c, now)
          | (None, s2) =>
              match read_line now s2 with
              | (Err e, s3, now3) => ((None, Some e), set_socket s3 c, now3)
              | (Ok respLine, s3, now3) =>
                  match unmarshal respLine with
                  | None => ((None, Some (Wrapf "failed to unmarshal response: " (Msg "invalid character") "")), set_socket s3 c, now3)
                  | Some resp =>
                      ((Some resp, if negb (Success resp) then Some (Msg ("operation failed: " +:+ Error resp)) else None),
                       set_socket s3 c, now3)
                  end
              end
          end
      end
  end.

Definition ExecuteWithCwd (operation : string) (args : res string) (cwd : string) (now : Z) (c : Client) :=
  executeWithTimeout operation args cwd 0 now c.
Definition Execute (operation : string) (args : res string) (now : Z) (c : Client) := ExecuteWithCwd operation args "" now c.

Definition Ping (now : Z) (c : Client) : option goerror * Client * Z :=
  match Execute "ping" (Ok "null"%string) now c with
  | ((_, Some e), c1, now1) => (Some e, c1, now1)
  | ((Some resp, None), c1, now1) =>
      (if negb (Success resp) then Some (Msg ("ping failed: " +:+ Error resp)) else None, c1, now1)
  | ((None, None), c1, now1) => (None, c1, now1)
  end.

Definition WaitForMutations (args : res string) (waitTimeout now : Z) (c : Client) : outcome * Client * Z :=
  let requestTimeout := if waitTimeout =? 0 then 30 * second else mul64 waitTimeout millisecond in
  executeWithTimeout "wait_for_mutations" args "" (add64 requestTimeout (5 * second)) now c.

(** An operation whose answer carries a record of its own. *)
Definition decoded {A} `{JsonCodec A} (what : string) (r : outcome * Client * Z) : res A * Client * Z :=
  match r with
  | ((_, Some e), c, now) => (Err e, c, now)
  | ((Some resp, None), c, now) =>
      (match unmarshal (Data resp) with
       | Some a => Ok a
       | None => Err (Wrapf ("failed to unmarshal " +:+ what +:+ " response: ") (Msg "invalid character") "")
       end, c, now)
  | ((None, None), c, now) => (Err (Sentinel "nil pointer dereference"), c, now)
  end.

(** ** Whose answer a call returns

    What a call makes of an answer's line. *)
Definition reply (respLine : string) : outcome :=
  match unmarshal respLine with
  | None => (None, Some (Wrapf "failed to unmarshal response: " (Msg "invalid character") ""))
  | Some resp => (Some resp, if negb (Success resp) then Some (Msg ("operation failed: " +:+ Error resp)) else None)
  end.

(** Calls on one connection, each made [gap] after the daemon has answered
    everything before it. *)
Fixpoint calls (l : list (Z * string * string)) (c : Client) : list outcome :=
  match l with
  | [] => []
  | (gap, operation, args) :: l' =>
      let '(o, c1, _) := Execute operation (Ok args) (busy_until (socket c) + gap) c in o :: calls l' c1
  end.

(** What the daemon answers to the same requests. *)
Fixpoint replies (l : list (Z * string * string)) (c : Client) (d : D) : list string :=
  match l with
  | [] => []
  | (_, operation, args) :: l' =>
      let '(d1, answer, _) := serve (marshal (request operation args "" c)) d in answer :: replies l' c d1
  end.

Definition prompt (tmo : Z) : Prop := forall line d, 0 < (serve line d).2 <= tmo.
Definition short_answers : Prop := forall line d, Z.of_nat (String.length (serve line d).1.2) + 1 <= maxClientMessageSize.

(** A connection in step, and one with the answer to an earlier request in it. *)
Definition in_step (s : conn D) : Prop := broken s = false /\ inbox s = [].
Definition behind (stale : string) (s : conn D) : Prop :=
  broken s = false /\ Z.of_nat (String.length stale) + 1 <= maxClientMessageSize /\
  exists a, a <= busy_until s /\ inbox s = [(a, stale)].

Definition same_settings (c c1 : Client) : Prop :=
  timeout c1 = timeout c /\ actor c1 = actor c /\ dbPath c1 = dbPath c /\ authToken c1 = authToken c.

Lemma request_settings c c1 operation args cwd :
  same_settings c c1 -> request operation args cwd c1 = request operation args cwd c.
Proof. intros (_ & Ha & Hd & Ht). unfold request. by rewrite Ha, Hd, Ht. Qed.

Lemma replies_settings l c c1 d : same_settings c c1 -> replies l c1 d = replies l c d.
Proof.
  intros Hs. revert d. induction l as [|[[gap operation] args] l IH]; intros d; [done|]. simpl.
  rewrite (request_settings c c1) by done. destruct (serve _ d) as [[d1 answer] work]. by rewrite IH.
Qed.

Lemma read_line_late now t a l q c :
  inbox c = (a, l) :: q -> deadline c = Some t -> t < a ->
  read_line now c = (Err (Wrapf "failed to read response: " ErrTimeout ""), c, Z.max now t).
Proof. intros Hi Hd Hlt. unfold read_line. rewrite Hi, Hd. cbv zeta. by rewrite (proj2 (Z.ltb_lt _ _)) by done. Qed.

Lemma read_line_ok now t a l q c :
  inbox c = (a, l) :: q -> deadline c = Some t -> a <= t -> Z.of_nat (String.length l) + 1 <= maxClientMessageSize ->
  read_line now c = (Ok l, set_inbox (buffered (4095 - Z.of_nat (String.length l) mod 4096) (Z.max now a) q) c, Z.max now a).
Proof.
  intros Hi Hd Hle Hlen. unfold read_line. rewrite Hi, Hd. cbv zeta. by rewrite !(proj2 (Z.ltb_ge _ _)) by done.
Qed.

(** The call up to the reading of the answer. *)
Lemma Execute_read operation args now c d1 answer work :
  0 < timeout c -> broken (socket c) = false ->
  serve (marshal (request operation args "" c)) (peer (socket c)) = (d1, answer, work) ->
  let at_ := Z.max now (busy_until (socket c)) + work in
  let s2 := mkConn d1 (inbox (socket c) ++ [(at_, answer)]) at_ (Some (now + timeout c)) false in
  Execute operation (Ok args) now c =
    match read_line now s2 with
    | (Err e, s3, now3) => ((None, Some e), set_socket s3 c, now3)
    | (Ok respLine, s3, now3) => (reply respLine, set_socket s3 c, now3)
    end.
Proof.
  intros Ht Hb Hs. cbv zeta. unfold Execute, ExecuteWithCwd, executeWithTimeout. cbv zeta.
  rewrite (Z.ltb_irrefl 0), (proj2 (Z.ltb_lt 0 (timeout c))) by done.
  unfold SetDeadline. rewrite Hb. cbn [fst snd]. unfold send. cbn [broken peer inbox busy_until deadline]. rewrite Hs.
  destruct (read_line now _) as [[[respLine|e] s3] now3]; [|done]. unfold reply. by destruct (unmarshal respLine).
Qed.

Lemma in_step_call operation args gap c d1 answer work :
  0 < timeout c -> 0 <= gap -> Z.of_nat (String.length answer) + 1 <= maxClientMessageSize -> in_step (socket c) ->
  serve (marshal (request operation args "" c)) (peer (socket c)) = (d1, answer, work) -> 0 < work ->
  let now := busy_until (socket c) + gap in
  exists c1 now1, same_settings c c1 /\ peer (socket c1) = d1 /\
    if timeout c <? work
    then Execute operation (Ok args) now c = ((None, Some (Wrapf "failed to read response: " ErrTimeout "")), c1, now1) /\
         behind answer (socket c1)
    else Execute operation (Ok args) now c = (reply answer, c1, now1) /\ in_step (socket c1).
Proof.
  intros Ht Hg Hlen [Hb Hi] Hs Hw now. rewrite (Execute_read _ _ _ _ _ _ _ Ht Hb Hs). rewrite Hi, app_nil_l.
  assert (Z.max now (busy_until (socket c)) = now) as -> by lia.
  destruct (Z.ltb_spec (timeout c) work).
  - rewrite (read_line_late now (now + timeout c) (now + work) answer []) by (done || lia).
    eexists _, _. split; [|split; [|split; [reflexivity|]]]; try done.
    split; [done|]. split; [done|]. exists (now + work). split; [cbn; lia|done].
  - rewrite (read_line_ok now (now + timeout c) (now + work) answer []) by (done || (cbn; lia)).
    eexists _, _. split; [|split; [|split; [reflexivity|]]]; try done.
Qed.

Lemma behind_call operation args gap c stale d1 answer work :
  0 < timeout c -> 0 <= gap -> Z.of_nat (String.length answer) + 1 <= maxClientMessageSize -> behind stale (socket c) ->
  serve (marshal (request operation args "" c)) (peer (socket c)) = (d1, answer, work) -> 0 < work ->
  let now := busy_until (socket c) + gap in
  exists c1 now1, same_settings c c1 /\ peer (socket c1) = d1 /\
    Execute operation (Ok args) now c = (reply stale, c1, now1) /\ behind answer (socket c1).
Proof.
  intros Ht Hg Hlen (Hb & Hls & a & Ha & Hi) Hs Hw now. rewrite (Execute_read _ _ _ _ _ _ _ Ht Hb Hs). rewrite Hi.
  assert (Z.max now (busy_until (socket c)) = now) as -> by lia.
  rewrite (read_line_ok now (now + timeout c) a stale [(now + work, answer)]) by (done || (cbn; lia)).
  eexists _, _. split; [|split; [|split; [reflexivity|]]]; try done.
  cbn [buffered]. assert (Z.max now a = now) as -> by lia. rewrite (proj2 (Z.ltb_lt now (now + work))) by lia.
  split; [done|]. split; [done|]. exists (now + work). split; [cbn; lia|done].
Qed.

(** C22. While every answer comes in time, each call returns the answer to its own
    request. After one that came too late, when the connection is used again,
    every call returns the answer to the request before it, for ever: nothing in
    an answer says which request it is for, and a ping that checks the
    connection only takes the place of one of them. *)
Theorem answers_match_or_shift l c :
  0 < timeout c -> prompt (timeout c) -> short_answers -> Forall (fun r => 0 <= r.1.1) l ->
  (in_step (socket c) -> calls l c = map reply (replies l c (peer (socket c)))) /\
  (forall stale, behind stale (socket c) ->
     calls l c = map reply (removelast (stale :: replies l c (peer (socket c))))).
Proof.
  intros Ht Hp Hshort HF. revert c Ht Hp. induction HF as [|[[gap operation] args] l Hg HF IH]; intros c Ht Hp; [done|].
  simpl in Hg. simpl replies. cbn [calls].
  destruct (serve (marshal (request operation args "" c)) (peer (socket c))) as [[d1 answer] work] eqn:Es.
  pose proof (Hp (marshal (request operation args "" c)) (peer (socket c))) as Hw. rewrite Es in Hw. simpl in Hw.
  pose proof (Hshort (marshal (request operation args "" c)) (peer (socket c))) as Hlen. rewrite Es in Hlen. simpl in Hlen.
  assert (forall c1, same_settings c c1 -> peer (socket c1) = d1 ->
    (in_step (socket c1) -> calls l c1 = map reply (replies l c d1)) /\
    (forall stale, behind stale (socket c1) -> calls l c1 = map reply (removelast (stale :: replies l c d1)))) as Hnext.
  { intros c1 Hc1 <-. pose proof Hc1 as (Etm & _). rewrite <- (replies_settings l c c1) by done.
    apply IH; rewrite Etm; done. }
  split.
  - intros Hin. destruct (in_step_call operation args gap c d1 answer work) as (c1 & now1 & Hc1 & Hd & Hcall); try done; [lia|].
    rewrite (proj2 (Z.ltb_ge (timeout c) work)) in Hcall by lia. destruct Hcall as [-> Hin1].
    simpl. f_equal. by apply (Hnext c1).
  - intros stale Hbe. destruct (behind_call operation args gap c stale d1 answer work) as (c1 & now1 & Hc1 & Hd & -> & Hbe1); try done; [lia|].
    change (removelast (stale :: answer :: replies l c d1)) with (stale :: removelast (answer :: replies l c d1)).
    cbn [map]. f_equal. by apply (Hnext c1).
Qed.

(** A late answer is the error of its own call and the start of the shift. *)
Theorem late_answer_shifts operation args gap c d1 answer work :
  0 < timeout c < work -> 0 <= gap -> Z.of_nat (String.length answer) + 1 <= maxClientMessageSize ->
  in_step (socket c) -> serve (marshal (request operation args "" c)) (peer (socket c)) = (d1, answer, work) ->
  let '(o, c1, _) := Execute operation (Ok args) (busy_until (socket c) + gap) c in
  o = (None, Some (Wrapf "failed to read response: " ErrTimeout "")) /\ behind answer (socket c1).
Proof.
  intros Ht Hg Hlen Hin Hs.
  destruct (in_step_call operation args gap c d1 answer work) as (c1 & now1 & _ & _ & Hcall); try done; [lia|lia|].
  rewrite (proj2 (Z.ltb_lt _ _)) in Hcall by lia. destruct Hcall as [-> Hbe]. done.
Qed.

End client.
Arguments Client : clear implicits.

(** ** Witnesses *)
#[local] Instance req_codec : JsonCodec Request :=
  coded (fun r => (Operation r, Args r, Actor r, RequestID r, Cwd r, ClientVersion r, ExpectedDB r, AuthToken r))
    (fun '(a, b, c, d, e, f, g, h) => mkRequest a b c d e f g h) ltac:(by intros []).
#[local] Instance resp_codec : JsonCodec Response := coded (fun r => (Success r, Data r, Error r)) (fun '(a, b, c) => mkResponse a b c) ltac:(by intros []).

(** A daemon that numbers its answers. *)
#[local] Instance counting : Server nat := fun _ n => (S n, marshal (mkResponse true (itoa (Z.of_nat (n mod 8))) ""), 1).

Definition demo_client (stale : list (Z * string)) : Client nat :=
  mkClient (mkConn 1%nat stale 10 None false) "/tmp/bd.sock" 5 "" "" "".
Definition demo_calls : list (Z * string * string) := [(0, "ping", "null"); (3, "show", "1"); (0, "show", "2")]%string.
Definition demo_data (o : outcome) : option string := Data <$> o.1.

Lemma demo_short : short_answers.
Proof.
  intros line d. unfold serve, counting. cbn [fst snd]. pose proof (Nat.mod_upper_bound d 8 ltac:(lia)) as H.
  destruct (d mod 8)%nat as [|[|[|[|[|[|[|[|]]]]]]]]; try lia; vm_compute; discriminate.
Qed.

Lemma answers_match_or_shift_witness :
  let stale := marshal (mkResponse true "0" "") in
  let c := demo_client [(9, stale)] in
  (behind stale (socket c) /\ map demo_data (calls "1" "/" demo_calls c) = [Some "0"; Some "1"; Some "2"]%string /\
   map demo_data (calls "1" "/" demo_calls (demo_client [])) = [Some "1"; Some "2"; Some "3"]%string) /\
  (in_step (socket c) -> calls "1" "/" demo_calls c = map reply (replies "1" "/" demo_calls c (peer (socket c)))) /\
  (forall stale, behind stale (socket c) ->
     calls "1" "/" demo_calls c = map reply (removelast (stale :: replies "1" "/" demo_calls c (peer (socket c))))).
Proof.
  cbv zeta. split.
  - split; [|split; vm_compute; reflexivity]. split; [reflexivity|]. split; [vm_compute; discriminate|].
    exists 9. split; [vm_compute; discriminate|reflexivity].
  - apply (answers_match_or_shift "1" "/" demo_calls (demo_client [(9, marshal (mkResponse true "0" ""))]));
      [reflexivity|intros line d; split; [reflexivity|vm_compute; discriminate]|exact demo_short|].
    repeat constructor; discriminate.
Defined.

(** The ping by which a pool tests a connection is answered with the stale
    answer, and the connection passes. *)
Example stale_connection_passes_ping :
  let stale := marshal (mkResponse true "0" "") in
  let '(e, c, _) := Ping "1" "/" 20 (demo_client [(9, stale)]) in e = None /\ inbox (socket c) <> [].
Proof. vm_compute. split; [reflexivity|discriminate]. Qed.
End Rpc.
