(* ===== verification/DaemonProbe.v ===== *)
(** * DaemonProbe: is there a daemon, and where is its socket,
    [internal/lockfile/lock.go], [internal/rpc/client.go] (connecting),
    [socket_path.go], [auth.go] and [transport_unix.go]

    The files by which a daemon is known - its lock, its process identifier, its
    socket and its token - with the probe that finds it, connecting to it, and
    removing what a dead one left. Other processes may change the host between
    any two steps. JSON and the hash are parameters. *)
From S2P Require Import Prelude Scanner Paths Rpc.
Local Open Scope Z_scope.
Local Open Scope go_scope.

Module Probe.
Import Paths Rpc.

(** ** The host *)
Record host (D : Type) := mkHost {
  files : gmap string string;
  locked : gset string; (* the lock files that another process has locked *)
  processes : gset Z;
  listening : gmap string (conn D); (* what dialing a socket gives *)
}.
Arguments mkHost {D}.
Arguments files {D}.
Arguments locked {D}.
Arguments processes {D}.
Arguments listening {D}.

Section probe.
Context {D : Type}.
Implicit Types h : host D.

Definition Remove (p : string) h : host D := mkHost (delete p (files h)) (locked h) (processes h) (listening h).

Definition IsProcessRunning (pid : Z) h : bool := if pid <=? 0 then false else bool_decide (pid ∈ processes h).

(** [fmt.Sscanf(s, "%d", ...)]: blanks that are no line feeds, a sign, digits. *)
Fixpoint digits_of (s : string) : string :=
  match s with
  | EmptyString => ""
  | String c s' => match digit_of c with Some _ => String c (digits_of s') | None => "" end
  end.
Fixpoint skip_blanks (s : string) : option string :=
  match s with
  | EmptyString => Some ""%string
  | String c s' => if bool_decide (c = "010"%char) then None else if is_space c then skip_blanks s' else Some s
  end.
Definition scan_int (s : string) : option Z :=
  match skip_blanks s with
  | None => None
  | Some (String c s') =>
      if bool_decide (c = "-"%char) || bool_decide (c = "+"%char) then atoi (String c (digits_of s')) else atoi (digits_of (String c s'))
  | Some EmptyString => None
  end.

Record LockInfo := mkLockInfo { PID : Z; ParentPID : Z; Database : string; Version : string; StartedAt : Z }.
#[export] Instance LockInfo_eq_dec : EqDecision LockInfo.
Proof. solve_decision. Defined.

(** [decode]: the first JSON value of a text, for [json.Decoder]. *)
Context {info_codec : JsonCodec LockInfo} (decode : string -> option LockInfo).

Definition lock_path (beadsDir : string) : string := Join beadsDir "daemon.lock".
Definition pid_path (beadsDir : string) : string := Join beadsDir "daemon.pid".

Definition checkPIDFile (beadsDir : string) h : bool * Z :=
  match files h !! pid_path beadsDir with
  | None => (false, 0)
  | Some data =>
      match atoi (TrimSpace data) with
      | None => (false, 0)
      | Some pid => if negb (IsProcessRunning pid h) then (false, 0) else (true, pid)
      end
  end.

Definition TryDaemonLock (beadsDir : string) h : bool * Z :=
  match files h !! lock_path beadsDir with
  | None => checkPIDFile beadsDir h
  | Some content =>
      if bool_decide (lock_path beadsDir ∈ locked h) then
        (true,
         match decode content with
         | Some lockInfo => PID lockInfo
         | None =>
             let pid := default 0 (scan_int (str_take 32 content)) in
             if pid =? 0 then (checkPIDFile beadsDir h).2 else pid
         end)
      else (false, 0)
  end.

Definition ReadLockInfo (beadsDir : string) h : res LockInfo :=
  match files h !! lock_path beadsDir with
  | None => Err (Sentinel "file does not exist")
  | Some data =>
      match unmarshal data with
      | Some lockInfo => Ok lockInfo
      | None =>
          match scan_int data with
          | Some pid => Ok (mkLockInfo pid 0 "" "" 0)
          | None => Err (Wrapf "cannot parse lock file: " (Msg "invalid character") "")
          end
      end
  end.

Definition cleanupStaleDaemonArtifacts (beadsDir : string) h : host D :=
  match files h !! pid_path beadsDir with None => h | Some _ => Remove (pid_path beadsDir) h end.

Definition endpointExists (socketPath : string) h : bool := bool_decide (is_Some (files h !! Clean socketPath)).

Definition loadAuthToken (socketPath : string) h : string :=
  match files h !! Join (Dir socketPath) "rpc-token" with None => "" | Some data => TrimSpace data end.

(** ** Connecting ([TryConnectWithTimeout]) *)
Context `{!Server D} {req_codec : JsonCodec Request} {resp_codec : JsonCodec Response}.
Context (version getwd : string).

(** Of the record in a health answer only the status is looked at. *)
Context {HealthResponse : Type} {health_codec : JsonCodec HealthResponse} (Status : HealthResponse -> string).

Definition Health (now : Z) (c : Client D) : res HealthResponse * Client D * Z :=
  decoded "health" (Execute version getwd "health" (Ok "null"%string) now c).

(** What others do before the [k]-th step. *)
Context (others : nat -> host D -> host D).

(** [None] when there is no healthy daemon; the error is always nil. *)
Definition connect (socketPath : string) (now : Z) h : option (Client D) * host D :=
  let h := others 3 h in
  match listening h !! socketPath with
  | None =>
      let beadsDir := Dir socketPath in
      let h := others 4 h in
      if negb (TryDaemonLock beadsDir h).1
      then (None, Remove socketPath (others 6 (cleanupStaleDaemonArtifacts beadsDir (others 5 h))))
      else (None, h)
  | Some s =>
      let h := others 4 h in
      let client := mkClient s socketPath (30 * second) "" "" (loadAuthToken socketPath h) in
      match Health now client with
      | (Err _, _, _) => (None, h)
      | (Ok health, client, _) => (if bool_decide (Status health = "unhealthy"%string) then None else Some client, h)
      end
  end.

Definition TryConnectWithTimeout (socketPath : string) (now : Z) h : option (Client D) * host D :=
  let h := others 0 h in
  if endpointExists socketPath h then connect socketPath now h
  else
    let beadsDir := Dir socketPath in
    let h := others 1 h in
    if negb (TryDaemonLock beadsDir h).1 then (None, cleanupStaleDaemonArtifacts beadsDir (others 2 h))
    else
      let h := others 2 h in
      if endpointExists socketPath h then connect socketPath now h else (None, h).
End probe.

(** ** What the probe finds, and what connecting removes *)
Section facts.
Context {D : Type} `{!Server D} {req_codec : JsonCodec Request} {resp_codec : JsonCodec Response}.
Context {HealthResponse : Type} {health_codec : JsonCodec HealthResponse} (Status : HealthResponse -> string).
Context (decode : string -> option LockInfo) (version getwd : string).
Implicit Types h : host D.

(** A daemon runs when its lock is held, or, without a lock file, when the
    process of the other file lives. *)
Definition daemon_runs (beadsDir : string) h : Prop :=
  match files h !! lock_path beadsDir with
  | Some _ => lock_path beadsDir ∈ locked h
  | None => exists data pid, files h !! pid_path beadsDir = Some data /\ atoi (TrimSpace data) = Some pid /\ 0 < pid /\ pid ∈ processes h
  end.

Lemma TryDaemonLock_spec beadsDir h : (TryDaemonLock decode beadsDir h).1 = true <-> daemon_runs beadsDir h.
Proof.
  unfold TryDaemonLock, daemon_runs. destruct (files h !! lock_path beadsDir); [by case_bool_decide|].
  unfold checkPIDFile, IsProcessRunning. destruct (files h !! pid_path beadsDir) as [data|]; [|by split; [done|intros (? & ? & [=] & _)]].
  destruct (atoi (TrimSpace data)) as [pid|] eqn:E; [|split; [done|intros (? & ? & [= <-] & H & _); congruence]].
  destruct (Z.leb_spec pid 0); simpl; [split; [done|intros (? & ? & [= <-] & H' & Hp & _); rewrite E in H'; injection H' as <-; lia]|].
  destruct (decide (pid ∈ processes h)) as [Hin|Hin]; [rewrite bool_decide_true by done|rewrite bool_decide_false by done]; simpl.
  - split; [|done]. intros _. by exists data, pid.
  - split; [done|]. intros (? & ? & [= <-] & H' & _ & Hin'). rewrite E in H'. by injection H' as <-.
Qed.

Definition quiet (k : nat) h : host D := h.

(** When nobody interferes, connecting removes nothing of a daemon that
    runs, and of one that does not it removes the file with its process and, when
    nobody answers at the socket, the socket; no other file. *)
Theorem connecting_cleans socketPath now h :
  let '(client, h') := TryConnectWithTimeout decode version getwd Status quiet socketPath now h in
  let dir := Dir socketPath in
  (daemon_runs dir h -> h' = h) /\
  (~ daemon_runs dir h -> endpointExists socketPath h = false -> client = None /\ files h' = delete (pid_path dir) (files h)) /\
  (~ daemon_runs dir h -> endpointExists socketPath h = true ->
     match listening h !! socketPath with
     | None => client = None /\ files h' = delete socketPath (delete (pid_path dir) (files h))
     | Some _ => h' = h
     end).
Proof.
  unfold TryConnectWithTimeout, quiet. cbv zeta. pose proof (TryDaemonLock_spec (Dir socketPath) h) as Hd.
  assert (forall h0, files (cleanupStaleDaemonArtifacts (Dir socketPath) h0) = delete (pid_path (Dir socketPath)) (files h0)) as Hclean.
  { intros h0. unfold cleanupStaleDaemonArtifacts. destruct (files h0 !! pid_path (Dir socketPath)) eqn:E; [done|]. symmetry. by apply delete_id. }
  destruct (endpointExists socketPath h) eqn:Ee.
  - unfold connect. cbv zeta. destruct (listening h !! socketPath) as [s|].
    + destruct (Health _ _ _ _) as [[[health|e] c] t]; by repeat split.
    + destruct (TryDaemonLock decode (Dir socketPath) h).1; cbn [negb].
      * split_and!; [done|intros []; by apply Hd..].
      * split_and!; [by intros ?%Hd|done|]. intros _ _. split; [done|]. simpl. by rewrite Hclean.
  - destruct (TryDaemonLock decode (Dir socketPath) h).1; cbn [negb].
    + split_and!; [done|intros []; by apply Hd..].
    + split_and!; [by intros ?%Hd| |done]. intros _ _. split; [done|apply Hclean].
Qed.

(** A daemon that starts just before the last step of a client that found its
    predecessor dead. *)
Definition starting (socketPath info : string) (s : conn D) (k : nat) h : host D :=
  if bool_decide (k = 6%nat) then
    let lock := lock_path (Dir socketPath) in
    mkHost (<[socketPath := ""%string]> (<[lock := info]> (files h))) ({[lock]} ∪ locked h) (processes h) (<[socketPath := s]> (listening h))
  else h.

(** C36. It loses its socket to that client's clean-up, and from then on nobody
    connects to it, although it runs and listens. *)
Theorem unplugged_daemon socketPath info s now h :
  Clean socketPath = socketPath -> socketPath <> lock_path (Dir socketPath) ->
  endpointExists socketPath h = true -> listening h !! socketPath = None -> ~ daemon_runs (Dir socketPath) h ->
  exists h', TryConnectWithTimeout decode version getwd Status (starting socketPath info s) socketPath now h = (None, h') /\
    daemon_runs (Dir socketPath) h' /\ listening h' !! socketPath = Some s /\
    forall now', TryConnectWithTimeout decode version getwd Status quiet socketPath now' h' = (None, h').
Proof.
  intros Hc Hne He Hl Hr. unfold TryConnectWithTimeout at 1. cbv zeta.
  change (starting socketPath info s 0 h) with h. rewrite He. unfold connect. cbv zeta.
  change (starting socketPath info s 3 h) with h. rewrite Hl. change (starting socketPath info s 4 h) with h.
  rewrite <- (TryDaemonLock_spec (Dir socketPath) h) in Hr. destruct (TryDaemonLock decode (Dir socketPath) h).1; [done|]. cbn [negb].
  change (starting socketPath info s 5 h) with h. eexists. split; [reflexivity|].
  unfold starting. rewrite bool_decide_true by done. cbv zeta.
  set (h' := Remove socketPath _). assert (daemon_runs (Dir socketPath) h') as Hr'.
  { unfold daemon_runs, h'. simpl. rewrite lookup_delete_ne, lookup_insert_ne, lookup_insert_eq by done. set_solver. }
  split; [done|]. split; [unfold h'; simpl; by rewrite lookup_insert_eq|].
  intros now'. unfold TryConnectWithTimeout, quiet. cbv zeta.
  assert (endpointExists socketPath h' = false) as ->.
  { unfold endpointExists, h'. simpl. rewrite Hc, lookup_delete_eq. by apply bool_decide_false, is_Some_None. }
  by rewrite (proj2 (TryDaemonLock_spec (Dir socketPath) h') Hr').
Qed.
End facts.

(** ** The socket's path ([ShortSocketPath]) *)
Section path.
Context (Abs EvalSymlinks : string -> option string) (sha256_hex : string -> string) (case_insensitive : bool).

Definition MaxUnixSocketPath : Z := 103.
Definition tmpDir : string := "/tmp".

Definition normalizePathForComparison (path : string) : string :=
  if bool_decide (path = ""%string) then ""%string
  else
    let absPath := default path (Abs path) in
    let canonical := default absPath (EvalSymlinks absPath) in
    if case_insensitive then ToLower canonical else canonical.

Definition shortSocketDir (canonicalPath : string) : string :=
  tmpDir +:+ "/beads-" +:+ str_take 16 (sha256_hex canonicalPath) +:+ "/bd.sock".

Definition naturalPath (workspacePath : string) : string := join_all [workspacePath; ".beads"; "bd.sock"]%string.

Definition NeedsShortPath (workspacePath : string) : bool :=
  MaxUnixSocketPath <? Z.of_nat (String.length (naturalPath workspacePath)).

Definition ShortSocketPath (workspacePath : string) : string :=
  let canonical := normalizePathForComparison workspacePath in
  let canonical := if bool_decide (canonical = ""%string) then workspacePath else canonical in
  if negb (NeedsShortPath workspacePath) then naturalPath workspacePath else shortSocketDir canonical.

(** A socket's path fits into the limit; for spellings of one workspace that
    are too long it is the same, and for others it is as they are written. *)
Theorem socket_path_functional a b :
  (Z.of_nat (String.length (ShortSocketPath a)) <= MaxUnixSocketPath) /\
  (normalizePathForComparison a = normalizePathForComparison b -> a <> ""%string -> b <> ""%string ->
   normalizePathForComparison a <> ""%string ->
   NeedsShortPath a = true -> NeedsShortPath b = true -> ShortSocketPath a = ShortSocketPath b) /\
  (NeedsShortPath a = false -> NeedsShortPath b = false ->
   ShortSocketPath a = ShortSocketPath b <-> naturalPath a = naturalPath b).
Proof.
  split; [|split].
  - unfold ShortSocketPath, NeedsShortPath. destruct (Z.ltb_spec MaxUnixSocketPath (Z.of_nat (String.length (naturalPath a)))); simpl.
    + unfold shortSocketDir. rewrite !length_append. pose proof (str_take_bound 16 (sha256_hex (let c := normalizePathForComparison a in if bool_decide (c = ""%string) then a else c))). unfold MaxUnixSocketPath. simpl in *. lia.
    + done.
  - intros E _ _ Hne Ha Hb. unfold ShortSocketPath. rewrite Ha, Hb. simpl. rewrite <- E. by rewrite bool_decide_false.
  - intros Ha Hb. unfold ShortSocketPath. by rewrite Ha, Hb.
Qed.
End path.

(** ** The socket's directory ([EnsureSocketDir])

    What is at the directory's name; other users of [/tmp] may put something
    there between any two calls. *)
Record entry := mkEntry { is_symlink : bool; is_dir : bool; uid : Z; perm : Z }.
#[export] Instance entry_eq_dec : EqDecision entry.
Proof. solve_decision. Defined.

Definition mode700 : Z := 448.

Section socket_dir.
Context (me : Z) (others : nat -> option entry -> option entry).

(** Errors of the calls that do not come from what is there. *)
Context (fails : nat -> option goerror).

Definition Mkdir : entry := mkEntry false true me mode700.

(** [os.Chmod] follows a link; only the owner may change a directory. *)
Definition Chmod (st : option entry) : option goerror * option entry :=
  match fails 3, st with
  | Some e, _ => (Some e, st)
  | None, None => (Some (Sentinel "no such file or directory"), None)
  | None, Some e =>
      if bool_decide (uid e = me) then (None, Some (mkEntry (is_symlink e) (is_dir e) (uid e) mode700))
      else (Some (Sentinel "operation not permitted"), st)
  end.

(** The checks of what was seen, and its permissions. *)
Definition validate (socketPath : string) (fi : entry) (st : option entry) : res string * option entry :=
  if is_symlink fi then (Err (Msg "socket directory is a symlink (possible symlink attack)"), st)
  else if negb (is_dir fi) then (Err (Msg "socket directory path is not a directory"), st)
  else if bool_decide (uid fi <> me) then (Err (Msg "socket directory is owned by another user (possible attack)"), st)
  else if bool_decide (perm fi <> mode700) then
    match Chmod (others 3 st) with
    | (Some e, st) => (Err (Wrapf "failed to fix permissions on socket directory: " e ""), st)
    | (None, st) => (Ok socketPath, st)
    end
  else (Ok socketPath, st).

Definition EnsureSocketDir (socketPath : string) (st : option entry) : res string * option entry :=
  let dir := Dir socketPath in
  if negb (has_prefix dir (Join tmpDir "beads-")) then (Ok socketPath, st)
  else
    let st := others 0 st in
    match fails 0, st with
    | Some e, _ => (Err (Wrapf "failed to stat socket directory: " e ""), st)
    | None, Some fi => validate socketPath fi st
    | None, None =>
        let st := others 1 st in
        match fails 1, st with
        | Some e, _ => (Err (Wrapf "failed to create socket directory: " e ""), st)
        | None, None => (Ok socketPath, Some Mkdir)
        | None, Some _ =>
            let st := others 2 st in
            match fails 2, st with
            | Some e, _ => (Err (Wrapf "failed to stat socket directory: " e ""), st)
            | None, None => (Err (Wrapf "failed to stat socket directory: " (Sentinel "no such file or directory") ""), None)
            | None, Some fi => validate socketPath fi st
            end
        end
    end.

(** In [/tmp] nobody else can replace or change what one owns. *)
Definition sticky : Prop := forall k e, uid e = me -> others k (Some e) = Some e.

Lemma validate_safe socketPath e :
  sticky ->
  match validate socketPath e (Some e) with
  | (Ok p, st') => p = socketPath /\ st' = Some Mkdir
  | (Err _, _) => True
  end.
Proof.
  intros Hst. destruct e as [l d u p]. unfold validate. simpl. destruct l; [done|]. destruct d; [simpl|done].
  destruct (decide (u = me)) as [->|Hu]; [rewrite (bool_decide_false (me <> me)) by tauto|by rewrite bool_decide_true].
  destruct (decide (p = mode700)) as [->|Hp]; [by rewrite (bool_decide_false (mode700 <> mode700)) by tauto|].
  rewrite bool_decide_true by done. unfold Chmod. rewrite Hst by done. destruct (fails 3); [done|]. simpl. by rewrite bool_decide_true.
Qed.

(** Whatever others put at the directory's name, and whenever: when a socket
    in [/tmp] is accepted, its directory is a directory of one's own, no link,
    and closed to everybody else. *)
Theorem socket_dir_safe socketPath st :
  has_prefix (Dir socketPath) (Join tmpDir "beads-") = true -> sticky ->
  match EnsureSocketDir socketPath st with
  | (Ok p, st') => p = socketPath /\ st' = Some Mkdir
  | (Err _, _) => True
  end.
Proof.
  intros Hm Hst. unfold EnsureSocketDir. rewrite Hm. cbv zeta. cbn [negb].
  destruct (fails 0); [done|]. destruct (others 0 st) as [e|]; [by apply validate_safe|].
  destruct (fails 1); [done|]. destruct (others 1 None) as [e|]; [|done].
  destruct (fails 2); [done|]. destruct (others 2 (Some e)) as [e'|]; [by apply validate_safe|done].
Qed.
End socket_dir.

(** ** Witnesses *)
#[local] Instance req_codec : JsonCodec Request :=
  coded (fun r => (Operation r, Args r, Actor r, RequestID r, Cwd r, ClientVersion r, ExpectedDB r, AuthToken r))
    (fun '(a, b, c, d, e, f, g, h) => mkRequest a b c d e f g h) ltac:(by intros []).
#[local] Instance resp_codec : JsonCodec Response := coded (fun r => (Success r, Data r, Error r)) (fun '(a, b, c) => mkResponse a b c) ltac:(by intros []).
#[local] Instance health_codec : JsonCodec string := coded (fun s => s) (fun s => s) (fun _ => eq_refl).

(** A daemon that answers everything with good health, at once. *)
Definition demo_answer : string := marshal (mkResponse true (marshal "healthy"%string) "").
#[local] Instance demo_server : Server unit := fun _ d => (d, demo_answer, 1).

Definition demo_conn : conn unit := mkConn tt [] 0 None false.
Definition dead_host : host unit := mkHost {[ "/w/.beads/bd.sock" := ""; "/w/.beads/daemon.pid" := "7" ]} ∅ ∅ ∅.

Lemma unplugged_daemon_witness :
  let sock := "/w/.beads/bd.sock"%string in
  (Clean sock = sock /\ endpointExists sock dead_host = true /\ (TryDaemonLock (fun _ => None) (Dir sock) dead_host).1 = false) /\
  exists h', TryConnectWithTimeout (fun _ => None) "1" "/" id (starting sock "{}" demo_conn) sock 0 dead_host = (None, h') /\
    daemon_runs (Dir sock) h' /\ listening h' !! sock = Some demo_conn /\
    forall now', TryConnectWithTimeout (fun _ => None) "1" "/" id quiet sock now' h' = (None, h').
Proof.
  assert ((TryDaemonLock (fun _ => None) (Dir "/w/.beads/bd.sock") dead_host).1 = false) as Hf by (vm_compute; reflexivity).
  split; [split; [vm_compute; reflexivity|]; split; [vm_compute; reflexivity|exact Hf]|].
  apply (unplugged_daemon id (fun _ => None) "1" "/" "/w/.beads/bd.sock" "{}" demo_conn 0 dead_host);
    [vm_compute; reflexivity|vm_compute; discriminate|vm_compute; reflexivity|reflexivity|].
  intros Hr%(TryDaemonLock_spec (fun _ => None)). rewrite Hf in Hr. discriminate Hr.
Defined.

(** A living daemon is connected to. *)
Example living_daemon_connects :
  (TryConnectWithTimeout (fun _ => None) "1" "/" id quiet "/w/.beads/bd.sock" 5
     (mkHost {[ "/w/.beads/bd.sock" := ""; "/w/.beads/daemon.lock" := "{}" ]} {[ "/w/.beads/daemon.lock" ]} ∅
        {[ "/w/.beads/bd.sock" := demo_conn ]})).1 <> None.
Proof. vm_compute. discriminate. Qed.

Lemma socket_dir_safe_witness :
  let others := fun k st => match k, st with 1%nat, None => Some (mkEntry true false 0 511) | _, _ => st end in
  (has_prefix (Dir "/tmp/beads-0123/bd.sock") (Join tmpDir "beads-") = true /\
   EnsureSocketDir 7 others (fun _ => None) "/tmp/beads-0123/bd.sock" None =
     (Err (Msg "socket directory is a symlink (possible symlink attack)"), Some (mkEntry true false 0 511))) /\
  match EnsureSocketDir 7 others (fun _ => None) "/tmp/beads-0123/bd.sock" None with
  | (Ok p, st') => p = "/tmp/beads-0123/bd.sock"%string /\ st' = Some (Mkdir 7)
  | (Err _, _) => True
  end.
Proof.
  split; [vm_compute; split; reflexivity|].
  apply (socket_dir_safe 7 _ (fun _ => None) "/tmp/beads-0123/bd.sock" None); [vm_compute; reflexivity|].
  by intros [|[|k]] e.
Defined.

(** Two spellings of one workspace can have different sockets: a short one is
    used as it is written, a long one is made canonical first. *)
Example spellings_differ :
  let EvalSymlinks := fun p => if bool_decide (p = "/w"%string) then Some "/data/w"%string else Some p in
  let sock := ShortSocketPath Some EvalSymlinks (fun _ => "0123456789abcdef0123"%string) false in
  normalizePathForComparison Some EvalSymlinks false "/w" = normalizePathForComparison Some EvalSymlinks false "/data/w" /\
  sock "/w" = "/w/.beads/bd.sock"%string /\ sock "/data/w" = "/data/w/.beads/bd.sock"%string.
Proof. vm_compute. done. Qed.
End Probe.
