(* ===== verification/FileAccess.v ===== *)
(** * FileAccess: the files of worktrees and logs behind the web server,
    [webui/handlers_files.go], [log_open_unix.go] and the path checks of
    [log_streamer.go]

    A file tree with symbolic links, as the kernel resolves paths in it; the
    checks of a path against a directory; and the handlers that list, read and
    write files of a worktree. Other processes may change the tree between any
    two system calls of a handler. *)
From S2P Require Import Prelude Paths.
Local Open Scope Z_scope.
Local Open Scope go_scope.

Module Access.
Import Paths Utf8.

(** ** A tree of files

    A node is known by the components of its physical path; the root is always
    a directory. *)
Inductive node :=
| NFile (content : string) (perm : Z)
| NDir
| NLink (target : string).
#[export] Instance node_eq_dec : EqDecision node.
Proof. solve_decision. Defined.

Definition tree : Type := gmap (list string) node.

Definition node_at (t : tree) (loc : list string) : option node := match loc with [] => Some NDir | _ => t !! loc end.

Definition ENOENT : goerror := Sentinel "no such file or directory".
Definition ENOTDIR : goerror := Sentinel "not a directory".
Definition ELOOP : goerror := Sentinel "too many levels of symbolic links".
Definition EISDIR : goerror := Sentinel "is a directory".
Definition IsNotExist (e : goerror) : bool := bool_decide (e = ENOENT).

(** Resolving the components of a path from a directory, with so many links
    still allowed. *)
Fixpoint walk (t : tree) (links : nat) : list string -> list string -> res (list string) :=
  fix go (cur todo : list string) {struct todo} : res (list string) :=
    match todo with
    | [] => Ok cur
    | p :: todo' =>
        if bool_decide (p = ""%string) || bool_decide (p = "."%string) then go cur todo'
        else if bool_decide (p = up) then go (removelast cur) todo'
        else
          match node_at t (cur ++ [p]) with
          | None => Err ENOENT
          | Some NDir => go (cur ++ [p]) todo'
          | Some (NFile _ _) => match todo' with [] => Ok (cur ++ [p]) | _ => Err ENOTDIR end
          | Some (NLink target) =>
              match links with
              | O => Err ELOOP
              | S links' => walk t links' (if IsAbs target then [] else cur) (Split Separator target ++ todo')
              end
          end
    end.

(** The kernel follows 40 links in one path, [filepath.EvalSymlinks] 255. *)
Definition MAXSYMLINKS : nat := 40.

Definition EvalSymlinks (t : tree) (path : string) : res string :=
  match walk t 255 [] (Split Separator path) with Ok loc => Ok (abs_path loc) | Err e => Err e end.

(** Where the last component of a clean path is, itself not followed. *)
Definition locate (t : tree) (path : string) : res (list string) :=
  match rev (parts path) with
  | [] => Ok []
  | p :: dir =>
      match walk t MAXSYMLINKS [] (rev dir) with
      | Ok loc => match node_at t loc with Some NDir => Ok (loc ++ [p]) | _ => Err ENOTDIR end
      | Err e => Err e
      end
  end.

Definition Lstat (t : tree) (path : string) : res (list string * node) :=
  match locate t path with
  | Ok loc => match node_at t loc with Some n => Ok (loc, n) | None => Err ENOENT end
  | Err e => Err e
  end.

(** ** Checks ([validatePathWithinDir], [openLogFileSecure]) *)

(** [resolved] against the directory as it is written. *)
Definition within (resolved allowedDir : string) : bool :=
  has_prefix (resolved +:+ "/") (allowedDir +:+ "/") || bool_decide (resolved = allowedDir).

(** The two resolutions see the trees of their times. *)
Definition validatePathWithinDir (t t' : tree) (path allowedDir : string) : option goerror :=
  match EvalSymlinks t path with
  | Err e =>
      if IsNotExist e then
        match EvalSymlinks t' (Dir path) with
        | Err e' => if negb (IsNotExist e') then Some (Wrapf "failed to resolve parent path: " e' "") else None
        | Ok resolvedParent =>
            if negb (within resolvedParent allowedDir) then Some (Msg "path outside allowed directory") else None
        end
      else Some (Wrapf "failed to resolve path: " e "")
  | Ok resolvedPath => if negb (within resolvedPath allowedDir) then Some (Msg "path outside allowed directory") else None
  end.

(** [readlink] of [/proc/self/fd]: the name by which the kernel knows a file
    that is open, at that moment, given where it was when it was opened; [None]
    where there is no [/proc]. *)
Definition fd_names : Type := list string -> option string.
Definition no_proc : fd_names := fun _ => None.
Definition unmoved : fd_names := fun loc => Some (abs_path loc).

(** The kernel's name is a physical path, also that of a file that was moved or
    deleted since (a suffix says so then). *)
Definition named (fd : fd_names) (loc : list string) : Prop :=
  exists q, fd loc = Some (abs_path q) /\ Forall plain_part q /\ (loc <> [] -> q <> []).

(** [link]: what [readlink] gave; [t]: the tree when the directory is resolved. *)
Definition verifyOpenedFilePath (link : option string) (t : tree) (allowedDir : string) : option goerror :=
  match link with
  | None => None
  | Some link =>
      let realPath := Clean link in
      match EvalSymlinks t allowedDir with
      | Err e => Some (Wrapf "failed to resolve allowed directory: " e "")
      | Ok dir =>
          let resolvedDir := Clean dir in
          if negb (has_prefix realPath (resolvedDir +:+ "/")) && negb (bool_decide (realPath = resolvedDir))
          then Some (Msg ("opened file path " +:+ realPath +:+ " escapes allowed directory")) else None
      end
  end.

(** Three calls: opening with [O_NOFOLLOW] in [t], asking for the opened file's name,
    and resolving the directory in [t']. *)
Definition openLogFileSecure (fd : fd_names) (t t' : tree) (path allowedDir : string) : res (list string * node) :=
  match Lstat t path with
  | Err e => if errors_is e ELOOP then Err (Msg ("refusing to follow symlink: " +:+ path)) else Err e
  | Ok (_, NLink _) => Err (Msg ("refusing to follow symlink: " +:+ path))
  | Ok (loc, n) =>
      match verifyOpenedFilePath (fd loc) t' allowedDir with
      | Some e => Err e
      | None => Ok (loc, n)
      end
  end.

(** ** Names and contents *)
Definition deniedExtensions : gset string := {[ ".key"; ".pem"; ".p12"; ".pfx"; ".env"; ".gpg"; ".asc" ]}.
Definition deniedFilenames : gset string :=
  {[ "id_rsa"; "id_ed25519"; "id_ecdsa"; "id_dsa"; ".env"; ".env.local"; ".env.production"; ".netrc" ]}.

Definition isDeniedPath (path : string) : bool :=
  let ext := ToLower (Ext path) in
  if bool_decide (ext ∈ deniedExtensions) then true
  else
    let base := ToLower (Base path) in bool_decide (base ∈ deniedFilenames).

Definition isBinaryContent (data : string) : bool := negb (utf8_valid data) || contains_byte data "000".

(** ** Reading ([handleFileRead]) *)
Definition maxRequestBody : Z := 1048576.

Record fileTreeEntry := mkTreeEntry { Name : string; IsDir : bool; Size : Z; ModTime : string }.
#[export] Instance fileTreeEntry_eq_dec : EqDecision fileTreeEntry.
Proof. solve_decision. Defined.

Inductive response :=
| Refused (status : Z) (msg : string)
| FileTree (path : string) (entries : list fileTreeEntry)
| FileRead (path content : string) (size : Z) (binary : bool)
| Saved.
#[export] Instance response_eq_dec : EqDecision response.
Proof. solve_decision. Defined.

Definition size (n : node) : Z := match n with NFile c _ => Z.of_nat (String.length c) | NDir => 4096 | NLink t => Z.of_nat (String.length t) end.

(** [io.LimitReader], to one byte over the limit. *)
Definition limited (content : string) : string := str_take (Z.to_nat (maxRequestBody + 1)) content.

Definition requested (wt reqPath : string) : string := Join wt (Clean (String Separator reqPath)).

(** [at_ k]: the tree when the [k]-th call is made. [wt]: the agent's worktree.
    [reading]: what reading the opened file gives, when its content was this at
    its opening. *)
Definition handleFileRead (fd : fd_names) (reading : list string -> string -> res string) (at_ : nat -> tree) (wt reqPath : string) : response :=
  if bool_decide (reqPath = ""%string) then Refused 400 "path parameter is required"
  else if isDeniedPath reqPath then Refused 403 "access to this file type is denied"
  else
    let fullPath := requested wt reqPath in
    match validatePathWithinDir (at_ 0%nat) (at_ 1%nat) fullPath wt with
    | Some _ => Refused 403 "path outside worktree"
    | None =>
        if isDeniedPath fullPath then Refused 403 "access to this file type is denied"
        else
          match Lstat (at_ 2%nat) fullPath with
          | Err e => if IsNotExist e then Refused 404 "file not found" else Refused 500 "failed to stat file"
          | Ok (_, NLink _) => Refused 403 "refusing to follow symlink"
          | Ok (_, NDir) => Refused 400 "path is a directory, not a file"
          | Ok (_, NFile c0 p0) =>
              if maxRequestBody <? size (NFile c0 p0) then Refused 413 "file too large"
              else
                match openLogFileSecure fd (at_ 3%nat) (at_ 4%nat) fullPath wt with
                | Err e => if contains (error_text e) "symlink" then Refused 403 "refusing to follow symlink" else Refused 500 "failed to open file"
                | Ok (loc, NFile content _) =>
                    match reading loc content with
                    | Err _ => Refused 500 "failed to read file"
                    | Ok content =>
                        let data := limited content in
                        if isBinaryContent data then FileRead reqPath "" (size (NFile c0 p0)) true
                        else FileRead reqPath data (size (NFile c0 p0)) false
                    end
                | Ok _ => Refused 500 "failed to read file"
                end
          end
    end.

(** ** Listing ([handleFileTree]) *)
Section listing.
Context `{!SliceSort} (modTime : tree -> list string -> string).

(** [os.ReadDir]: the entries by name; the directory's path is followed. *)
Definition child_of (loc : list string) (e : list string * node) : option (string * node) :=
  match rev e.1 with p :: dir => if bool_decide (rev dir = loc) then Some (p, e.2) else None | [] => None end.

Definition children (t : tree) (loc : list string) : list (string * node) :=
  sort_slice (fun a b : string * node => str_lt a.1 b.1) (omap (child_of loc) (map_to_list t)).

Definition ReadDir (t : tree) (path : string) : res (list string * list (string * node)) :=
  match walk t MAXSYMLINKS [] (parts path) with
  | Err e => Err e
  | Ok loc => match node_at t loc with Some NDir => Ok (loc, children t loc) | _ => Err ENOTDIR end
  end.

Definition is_dir (n : node) : bool := match n with NDir => true | _ => false end.

Definition dirs_first (a b : string * node) : bool :=
  if bool_decide (is_dir a.2 <> is_dir b.2) then is_dir a.2 else str_lt a.1 b.1.

(** Links are skipped, and entries gone since ([de.Info]). *)
Definition tree_entry (t : tree) (loc : list string) (e : string * node) : option fileTreeEntry :=
  match e.2 with
  | NLink _ => None
  | _ =>
      match node_at t (loc ++ [e.1]) with
      | None => None
      | Some n => Some (mkTreeEntry e.1 (is_dir e.2) (size n) (modTime t (loc ++ [e.1])))
      end
  end.

Definition handleFileTree (at_ : nat -> tree) (wt reqPath : string) : response :=
  let reqPath := if bool_decide (reqPath = ""%string) then "."%string else reqPath in
  let fullPath := requested wt reqPath in
  match validatePathWithinDir (at_ 0%nat) (at_ 1%nat) fullPath wt with
  | Some _ => Refused 403 "path outside worktree"
  | None =>
      match Lstat (at_ 2%nat) fullPath with
      | Err e => if IsNotExist e then Refused 404 "directory not found" else Refused 500 "failed to stat path"
      | Ok (_, NLink _) => Refused 403 "refusing to follow symlink"
      | Ok (_, NFile _ _) => Refused 400 "path is not a directory"
      | Ok (_, NDir) =>
          match ReadDir (at_ 3%nat) fullPath with
          | Err _ => Refused 500 "failed to read directory"
          | Ok (loc, dirEntries) =>
              let dirEntries := sort_slice dirs_first dirEntries in
              let entries := omap (tree_entry (at_ 4%nat) loc) dirEntries in
              let relPath := Rel wt fullPath in
              FileTree (if bool_decide (relPath = ""%string) then "." else relPath)%string entries
          end
      end
  end.
End listing.

(** ** Writing ([handleFileWrite]) *)
Definition parent_refused (at_ : nat -> tree) (fullPath worktreeRoot : string) : option (Z * string) :=
  match Lstat (at_ 0%nat) (Dir fullPath) with
  | Err e => if IsNotExist e then Some (404, "parent directory does not exist"%string) else Some (500, "failed to stat parent directory"%string)
  | Ok (_, NLink _) => Some (403, "parent directory is a symlink"%string)
  | Ok (_, NFile _ _) => Some (400, "parent path is not a directory"%string)
  | Ok (_, NDir) =>
      match validatePathWithinDir (at_ 1%nat) (at_ 2%nat) (Dir fullPath) worktreeRoot with
      | Some _ => Some (403, "parent directory outside worktree"%string)
      | None => None
      end
  end.

Definition resolveWritePermissions (t : tree) (fullPath : string) : Z + (Z * string) :=
  match Lstat t fullPath with
  | Err _ => inl 420
  | Ok (_, NLink _) => inr (403, "refusing to overwrite symlink"%string)
  | Ok (_, NFile _ perm) => inl perm
  | Ok (_, NDir) => inl 493
  end.

(** [rename] onto a path that is no directory; the temporary file is gone. *)
Definition rename_to (t : tree) (path content : string) (perm : Z) : res tree :=
  match locate t path with
  | Err e => Err e
  | Ok loc => match node_at t loc with Some NDir => Err EISDIR | _ => Ok (<[loc := NFile content perm]> t) end
  end.

Section write.
(** What others do to the tree before the [k]-th call. *)
Context (others : nat -> tree -> tree).

(** The temporary file's name is new, so it is not seen; between creating it and
    renaming it others may change what its directory's path means. [disk]: an
    error of writing, closing or [Chmod]; the temporary file is removed then. *)
Context (disk : option goerror).
Definition atomicWriteFile (k : nat) (t : tree) (fullPath content : string) (perm : Z) : option goerror * tree :=
  let t1 := others k t in
  match walk t1 MAXSYMLINKS [] (parts (Dir fullPath)) with
  | Err e => (Some (Wrapf "create temp: " e ""), t1)
  | Ok loc =>
      match node_at t1 loc with
      | Some NDir =>
          let t2 := others (S k) t1 in
          match disk with Some e => (Some (Wrapf "write: " e ""), t2) | None =>
          match rename_to t2 fullPath content perm with
          | Err e => (Some (Wrapf "rename: " e ""), t2)
          | Ok t3 => (None, t3)
          end
          end
      | _ => (Some (Wrapf "create temp: " ENOTDIR ""), t1)
      end
  end.

(** [body]: the decoded content, or whether the request was too large. *)
Definition handleFileWrite (body : string + bool) (wt reqPath : string) (t : tree) : response * tree :=
  if bool_decide (reqPath = ""%string) then (Refused 400 "path parameter is required", t)
  else if isDeniedPath reqPath then (Refused 403 "access to this file type is denied", t)
  else
    match body with
    | inr true => (Refused 413 "request body too large", t)
    | inr false => (Refused 400 "invalid request body", t)
    | inl content =>
        let fullPath := requested wt reqPath in
        let t0 := others 0 t in
        let t1 := others 1 t0 in
        match validatePathWithinDir t0 t1 fullPath wt with
        | Some _ => (Refused 403 "path outside worktree", t1)
        | None =>
            if isDeniedPath fullPath then (Refused 403 "access to this file type is denied", t1)
            else
              let t2 := others 2 t1 in
              let t3 := others 3 t2 in
              let t4 := others 4 t3 in
              match parent_refused (fun k => match k with O => t2 | S O => t3 | _ => t4 end) fullPath wt with
              | Some (status, msg) => (Refused status msg, t4)
              | None =>
                  let t5 := others 5 t4 in
                  match resolveWritePermissions t5 fullPath with
                  | inr (status, msg) => (Refused status msg, t5)
                  | inl perm =>
                      match atomicWriteFile 6 t5 fullPath content perm with
                      | (Some _, t6) => (Refused 500 "failed to save file", t6)
                      | (None, t6) => (Saved, t6)
                      end
                  end
              end
        end
    end.
End write.

(** ** Resolution *)
Section walk_facts.
Context (t : tree).

Lemma walk_cons n cur p todo :
  walk t n cur (p :: todo) =
    match decide (p = ""%string \/ p = "."%string), decide (p = up), node_at t (cur ++ [p]) with
    | left _, _, _ => walk t n cur todo
    | right _, left _, _ => walk t n (removelast cur) todo
    | right _, right _, None => Err ENOENT
    | right _, right _, Some NDir => walk t n (cur ++ [p]) todo
    | right _, right _, Some (NFile _ _) => match todo with [] => Ok (cur ++ [p]) | _ => Err ENOTDIR end
    | right _, right _, Some (NLink target) =>
        match n with
        | O => Err ELOOP
        | S n' => walk t n' (if IsAbs target then [] else cur) (Split Separator target ++ todo)
        end
    end.
Proof.
  destruct n; simpl; (destruct (decide (p = ""%string \/ p = "."%string)) as [[->| ->]|Hn]; [done|done|]);
    rewrite !(bool_decide_false (p = _)) by naive_solver; simpl;
    (destruct (decide (p = up)) as [->|]; [by rewrite bool_decide_true|by rewrite bool_decide_false]).
Qed.

Lemma walk_nil n cur : walk t n cur [] = Ok cur.
Proof. by destruct n. Qed.

(** Induction along a resolution: on the links left, then on the components. *)
Lemma walk_ind (P : nat -> list string -> list string -> Prop) :
  (forall n cur, P n cur []) ->
  (forall n cur p todo,
     (forall cur, P n cur todo) ->
     (forall n' cur todo, n = S n' -> P n' cur todo) -> P n cur (p :: todo)) ->
  forall n cur todo, P n cur todo.
Proof.
  intros H0 Hc. induction n as [|n IHn]; intros cur todo; revert cur; (induction todo as [|p todo IH]; intros cur; [apply H0|]);
    apply Hc; try done. intros n' cur' todo' [= <-]. apply IHn.
Qed.

Lemma walk_plain n cur todo loc :
  Forall plain_part cur -> Forall (fun w => contains_byte w Separator = false) todo ->
  walk t n cur todo = Ok loc -> Forall plain_part loc.
Proof.
  revert n cur todo. refine (walk_ind _ _ _).
  - intros n cur Hc _. rewrite walk_nil. by intros [= <-].
  - intros n cur p todo IH IHn Hc [Hp Ht]%Forall_cons. rewrite walk_cons.
    destruct (decide _) as [|Hd]; [by apply IH|]. destruct (decide (p = up)).
    { apply IH; [|done]. clear -Hc. induction Hc as [|a [|b l] Ha Hl IH]; [done|done|]. by constructor. }
    assert (Forall plain_part (cur ++ [p])) as Hcp.
    { apply Forall_app. split; [done|]. repeat constructor; naive_solver. }
    destruct (node_at t (cur ++ [p])) as [[content perm| |target]|]; [|by apply IH| |done].
    + destruct todo; [|done]. by intros [= <-].
    + destruct n as [|n]; [done|]. apply (IHn n); [done|by destruct (IsAbs target)|].
      apply Forall_app. split; [apply Split_no_sep|done].
Qed.

Lemma walk_mono n m cur todo loc : (n <= m)%nat -> walk t n cur todo = Ok loc -> walk t m cur todo = Ok loc.
Proof.
  revert n cur todo m. refine (walk_ind _ _ _).
  - intros n cur m _. by rewrite !walk_nil.
  - intros n cur p todo IH IHn m Hle. rewrite !walk_cons. destruct (decide _); [by apply IH|].
    destruct (decide (p = up)); [by apply IH|].
    destruct (node_at t (cur ++ [p])) as [[content perm| |target]|]; [done|by apply IH| |done].
    destruct n as [|n]; [done|]. destruct m as [|m]; [lia|]. apply (IHn n); [done|lia].
Qed.

(** What comes after the path of a directory is resolved from there. *)
Lemma walk_app n cur todo loc rest :
  walk t n cur todo = Ok loc -> node_at t loc = Some NDir ->
  exists m, (m <= n)%nat /\ walk t n cur (todo ++ rest) = walk t m loc rest.
Proof.
  revert n cur todo. refine (walk_ind _ _ _).
  - intros n cur. rewrite walk_nil. intros [= <-] _. by exists n.
  - intros n cur p todo IH IHn. rewrite <- app_comm_cons, !walk_cons. destruct (decide _); [by apply IH|].
    destruct (decide (p = up)); [by apply IH|].
    destruct (node_at t (cur ++ [p])) as [[content perm| |target]|] eqn:En; [|by apply IH| |done].
    + destruct todo; [|done]. intros [= <-]. by rewrite En.
    + destruct n as [|n]; [done|]. intros Hw Hd. rewrite app_assoc.
      destruct (IHn n (if IsAbs target then [] else cur) (Split Separator target ++ todo) eq_refl Hw Hd) as (m & Hm & E).
      exists m. split; [lia|done].
Qed.
End walk_facts.
#[global] Arguments walk : simpl never.

Lemma isDenied_last l1 l2 p : plain_part p -> isDeniedPath (abs_path (l1 ++ [p])) = isDeniedPath (abs_path (l2 ++ [p])).
Proof. intros Hp. unfold isDeniedPath. by rewrite !Ext_abs_path, !Base_abs_path. Qed.

Lemma EvalSymlinks_plain t path loc :
  EvalSymlinks t path = Ok loc -> exists l, walk t 255 [] (Split Separator path) = Ok l /\ Forall plain_part l /\ loc = abs_path l.
Proof.
  unfold EvalSymlinks. destruct (walk t 255 [] (Split Separator path)) as [l|] eqn:E; [|done]. intros [= <-].
  exists l. split_and!; [done| |done]. eapply (walk_plain t 255 []); [done| |exact E]. apply Split_no_sep.
Qed.

(** A clean path is resolved component by component. *)
Lemma walk_abs_path t n l : Forall plain_part l -> walk t n [] (Split Separator (abs_path l)) = walk t n [] l.
Proof.
  intros HF. rewrite Split_abs_path by done. rewrite walk_cons. destruct (decide _) as [_|[]]; [|by left].
  destruct l as [|p l]; [|done]. rewrite walk_cons. destruct (decide _) as [_|[]]; [done|by left].
Qed.

Lemma locate_nil t : locate t (abs_path []) = Ok [].
Proof. done. Qed.

Lemma locate_snoc t l p :
  Forall plain_part l -> plain_part p ->
  locate t (abs_path (l ++ [p])) =
    match walk t MAXSYMLINKS [] l with
    | Ok loc => match node_at t loc with Some NDir => Ok (loc ++ [p]) | _ => Err ENOTDIR end
    | Err e => Err e
    end.
Proof.
  intros HF Hp. unfold locate. rewrite parts_abs_path by (by apply plain_app_one).
  rewrite rev_app_distr. simpl. by rewrite rev_involutive.
Qed.

(** Where an entry that is no link is found, its path resolves to. *)
Lemma locate_eval t l loc n :
  Forall plain_part l -> locate t (abs_path l) = Ok loc -> node_at t loc = Some n ->
  match n with NLink _ => True | _ => walk t 255 [] l = Ok loc end.
Proof.
  intros HF. destruct l as [|p l] using rev_ind; [rewrite locate_nil; intros [= <-] [= <-]; by rewrite walk_nil|]. clear IHl.
  apply plain_one_inv in HF as [HF Hp]. rewrite locate_snoc by done.
  destruct (walk t MAXSYMLINKS [] l) as [dir|] eqn:E; [|done].
  destruct (node_at t dir) as [[| |]|] eqn:Ed; try done. intros [= <-] Hn.
  apply (walk_mono t MAXSYMLINKS 255) in E; [|unfold MAXSYMLINKS; lia].
  destruct (walk_app t 255 [] l dir [p] E Ed) as (m & _ & ->). rewrite walk_cons. pose proof Hp as (H1 & H2 & H3 & _).
  destruct (decide _) as [[]|_]; [done..|]. destruct (decide (p = up)); [done|]. rewrite Hn.
  destruct n; [done| |done]. by rewrite walk_nil.
Qed.

(** The requested path, as the directory's components and the request's. *)
Lemma requested_parts wt req :
  IsAbs wt = true -> exists l, Forall plain_part l /\ requested wt req = abs_path (parts wt ++ l).
Proof.
  intros Ha. destruct (request_parts req) as (l & HF & E). exists l. split; [done|]. unfold requested.
  by rewrite E, Join_abs.
Qed.

Lemma Lstat_file t path loc n :
  Lstat t path = Ok (loc, n) -> locate t path = Ok loc /\ node_at t loc = Some n.
Proof. unfold Lstat. destruct (locate t path) as [l|]; [|done]. destruct (node_at t l) eqn:E; [|done]. by intros [= <- <-]. Qed.

Lemma locate_last t l p loc :
  Forall plain_part l -> plain_part p -> locate t (abs_path (l ++ [p])) = Ok loc ->
  exists dir, walk t MAXSYMLINKS [] l = Ok dir /\ node_at t dir = Some NDir /\ Forall plain_part dir /\ loc = dir ++ [p].
Proof.
  intros HF Hp. rewrite locate_snoc by done. destruct (walk t MAXSYMLINKS [] l) as [dir|] eqn:E; [|done].
  destruct (node_at t dir) as [[| |]|] eqn:Ed; try done. intros [= <-]. exists dir. split_and!; try done.
  eapply (walk_plain t MAXSYMLINKS [] l); [done| |exact E]. by apply plain_no_sep.
Qed.

Lemma plain_snoc l : Forall plain_part l -> l = [] \/ exists l' p, l = l' ++ [p] /\ Forall plain_part l' /\ plain_part p.
Proof.
  intros HF. destruct l as [|p l] using rev_ind; [by left|right]. apply plain_one_inv in HF as [HF Hp]. by exists l, p.
Qed.

Lemma root_slash q : Forall plain_part q -> has_prefix (abs_path q) (abs_path [] +:+ "/") = true -> False.
Proof.
  intros Hq Hw. apply has_prefix_spec in Hw as [r Hw]. unfold abs_path in Hw. simpl in Hw.
  change ("/" +:+ "/" +:+ r)%string with (String "/" (String "/" r)) in Hw. injection Hw as Hw.
  destruct q as [|p q]; [done|]. apply Forall_cons in Hq as [(Hp & _ & _ & Hs) _]. destruct p as [|c0 p]; [done|].
  destruct q as [|q' q]; simpl in Hw; injection Hw as -> _; simpl in Hs; done.
Qed.

(** What opening checks: where the file was, and the kernel's name for it, which
    is inside the directory. *)
Lemma open_inside fd t t' path allowed loc n :
  named fd loc -> IsAbs path = true -> path = abs_path (parts path) ->
  openLogFileSecure fd t t' path allowed = Ok (loc, n) ->
  exists root q, walk t' 255 [] (Split Separator allowed) = Ok root /\ fd loc = Some (abs_path q) /\ Forall plain_part q /\
    (root <> [] -> root `prefix_of` q) /\ node_at t loc = Some n /\ locate t path = Ok loc /\
    ((exists c p, n = NFile c p) -> loc <> [] /\ root <> []).
Proof.
  intros (q & Eq & Hq & Hqne) Ha Epath. unfold openLogFileSecure.
  destruct (Lstat t path) as [[loc' m]|e] eqn:E; [|by destruct (errors_is _ _)].
  apply Lstat_file in E as [El En]. unfold verifyOpenedFilePath.
  intros Hm. assert (loc = loc' /\ n = m /\ exists dir, EvalSymlinks t' allowed = Ok dir /\
    (has_prefix (abs_path q) (Clean dir +:+ "/") = true \/ abs_path q = Clean dir)) as (-> & -> & dir & Ed & Hw).
  { assert (loc = loc') as ->.
    { destruct m; [| |done]; (destruct (match fd loc' with None => _ | _ => _ end); [done|]); by injection Hm. }
    rewrite Eq, Clean_abs_path in Hm by done.
    destruct m as [c p| |tg]; [| |done]; (destruct (EvalSymlinks t' allowed) as [dir|]; [|done]);
      destruct (negb _ && negb _) eqn:Ew; try done; injection Hm as <-; split_and!; try done; exists dir; (split; [done|]);
      apply andb_false_iff in Ew as [Ew|Ew]; apply negb_false_iff in Ew; [left|right|left|right]; by try apply bool_decide_eq_true in Ew. }
  destruct (EvalSymlinks_plain _ _ _ Ed) as (root & Er & Hroot & ->). rewrite Clean_abs_path in Hw by done.
  exists root, q. split_and!; try done.
  - intros Hr. apply under_prefix; [done..|]. unfold under. destruct Hw as [->| ->]; [apply orb_true_r|by rewrite bool_decide_true].
  - intros (c & p & ->). assert (loc' <> []) as Hl by (intros ->; done). split; [done|]. specialize (Hqne Hl). intros ->.
    destruct Hw as [Hw|Hw].
    + by apply root_slash in Hw.
    + by apply (abs_path_inj q []) in Hw.
Qed.

Lemma locate_plain t path loc :
  IsAbs path = true -> path = abs_path (parts path) -> locate t path = Ok loc -> Forall plain_part loc.
Proof.
  intros Ha E El. rewrite E in El. destruct (plain_snoc (parts path) (parts_abs_plain path Ha)) as [Ep|(l & p & Ep & Hl & Hp)]; rewrite Ep in El.
  - rewrite locate_nil in El. by injection El as <-.
  - destruct (locate_last t l p loc Hl Hp El) as (dir & _ & _ & Hdir & ->). by apply plain_app_one.
Qed.

(** A file that nobody moves while it is opened is inside the directory. *)
Lemma open_unmoved t path allowed loc c perm :
  IsAbs path = true -> path = abs_path (parts path) ->
  openLogFileSecure unmoved t t path allowed = Ok (loc, NFile c perm) ->
  exists root, walk t 255 [] (Split Separator allowed) = Ok root /\ root `prefix_of` loc /\
    node_at t loc = Some (NFile c perm) /\ locate t path = Ok loc /\ Forall plain_part loc.
Proof.
  intros Ha Epath Ho. assert (Forall plain_part loc) as Hloc.
  { unfold openLogFileSecure in Ho. destruct (Lstat t path) as [[loc' m]|e] eqn:E; [|by destruct (errors_is _ _)].
    apply Lstat_file in E as [El _]. destruct m; try done; destruct (verifyOpenedFilePath _ _ _); try done;
      injection Ho as <- <-; by eapply locate_plain. }
  destruct (open_inside unmoved t t path allowed loc (NFile c perm)) as (root & q & Hw & Hq & Hqp & Hpre & Hn & Hl & Hne); try done.
  { by exists loc. }
  destruct (Hne ltac:(by eauto)) as [_ Hr]. apply (inj Some) in Hq. apply abs_path_inj in Hq as ->; [|done..].
  exists root. split_and!; try done. by apply Hpre.
Qed.

Opaque limited.

(** The file was read from here. *)
Lemma read_opened fd reading at_ wt req path content sz bin :
  handleFileRead fd reading at_ wt req = FileRead path content sz bin ->
  exists loc c perm data, openLogFileSecure fd (at_ 3%nat) (at_ 4%nat) (requested wt req) wt = Ok (loc, NFile c perm) /\
    isDeniedPath (requested wt req) = false /\ validatePathWithinDir (at_ 0%nat) (at_ 1%nat) (requested wt req) wt = None /\
    reading loc c = Ok data /\ bin = isBinaryContent (limited data) /\ content = if bin then ""%string else limited data.
Proof.
  unfold handleFileRead. destruct (bool_decide _); [done|]. destruct (isDeniedPath req); [done|]. cbv zeta.
  destruct (validatePathWithinDir _ _ _ _); [done|]. destruct (isDeniedPath (requested wt req)); [done|].
  destruct (Lstat _ _) as [[? [c0 p0| |?]]|e]; try done; [|by destruct (IsNotExist e)].
  destruct (_ <? _); [done|]. destruct (openLogFileSecure _ _ _ _ _) as [[loc [c p| |?]]|e]; try done; [|by destruct (contains _ _)].
  destruct (reading loc c) as [data|] eqn:Er; [|done].
  intros E. exists loc, c, p, data. destruct (isBinaryContent _) eqn:Eb; injection E as <- <- <- <-; split_and!; by rewrite ?Eb.
Qed.

(** C6. Where the system has [/proc], and whatever other processes do to the tree
    between the calls of a read, also between opening the file, asking for its
    name and resolving the worktree's directory, and while it is read: a file whose content is
    sent had a name that is not denied where it was opened, and had, when the
    kernel was asked, a name below the directory that the worktree's path led to
    when that was resolved afterwards; at most one byte over the limit is sent, and
    nothing of a binary file. (Without [/proc]: [swapped_directory_is_read].) *)
Theorem read_stays_inside fd reading at_ wt req path content sz bin :
  (forall loc, named fd loc) -> IsAbs wt = true ->
  handleFileRead fd reading at_ wt req = FileRead path content sz bin ->
  exists root q loc c perm data,
    walk (at_ 4%nat) 255 [] (Split Separator wt) = Ok root /\ root <> [] /\
    fd loc = Some (abs_path q) /\ root `prefix_of` q /\
    at_ 3%nat !! loc = Some (NFile c perm) /\ locate (at_ 3%nat) (requested wt req) = Ok loc /\
    isDeniedPath (abs_path loc) = false /\
    reading loc c = Ok data /\ bin = isBinaryContent (limited data) /\
    content = (if bin then "" else limited data)%string.
Proof.
  intros Hfd Ha H. apply read_opened in H as (loc & c & perm & data & Ho & Hd & _ & Hread & Hbin & Hcontent).
  destruct (requested_parts wt req Ha) as (l & HF & Er). rewrite Er in *.
  assert (Forall plain_part (parts wt ++ l)) as Hpl by (apply Forall_app; split; [by apply parts_abs_plain|done]).
  destruct (open_inside _ _ _ _ _ _ _ (Hfd loc) (IsAbs_abs_path _) ltac:(by rewrite parts_abs_path) Ho)
    as (root & q & Hw & Hq & _ & Hpre & Hn & Hl & Hne). destruct (Hne ltac:(by eauto)) as [Hloc Hroot].
  exists root, q, loc, c, perm, data. split_and!; try done; [by apply Hpre|by destruct loc|].
  destruct (plain_snoc _ Hpl) as [E|(l' & p & E & Hl' & Hp)]; rewrite E in Hl, Hd.
  - rewrite locate_nil in Hl. injection Hl as <-. done.
  - destruct (locate_last _ _ _ _ Hl' Hp Hl) as (dir & _ & _ & _ & ->). by rewrite (isDenied_last dir l' p).
Qed.

(** Without [/proc] the same can fail: the directory of the file is replaced by
    a link after its check. *)
Definition tree_before : tree := {[ ["w"] := NDir; ["w"; "d"] := NDir; ["w"; "d"; "f"] := NFile "mine" 420; ["s"] := NDir; ["s"; "f"] := NFile "secret" 384 ]}.
Definition tree_after : tree := <[["w"; "d"] := NLink "/s"]> tree_before.
Definition as_opened (_ : list string) (content : string) : res string := Ok content.
Example swapped_directory_is_read :
  let at_ := fun k => if (k <? 3)%nat then tree_before else tree_after in
  handleFileRead no_proc as_opened at_ "/w" "d/f" = FileRead "d/f" "secret" 4 false /\
  handleFileRead unmoved as_opened at_ "/w" "d/f" = Refused 500 "failed to open file".
Proof. split; vm_compute; reflexivity. Qed.

(** Also with it, the file's name is that of the moment of the question: a file of
    elsewhere that is moved into the worktree between its opening, through a link,
    and the question is read. *)
Example moved_in_while_opening :
  let moved := <[["w"; "d"; "f"] := NFile "secret" 384]> (delete ["s"; "f"] tree_before) in
  let at_ := fun k => if (k <? 3)%nat then tree_before else if (k <? 4)%nat then tree_after else moved in
  handleFileRead (fun _ => Some "/w/d/f"%string) as_opened at_ "/w" "d/f" = FileRead "d/f" "secret" 4 false.
Proof. vm_compute. reflexivity. Qed.

Lemma within_prefix l1 l2 :
  Forall plain_part l1 -> Forall plain_part l2 -> l1 <> [] -> within (abs_path l2) (abs_path l1) = true -> l1 `prefix_of` l2.
Proof.
  intros H1 H2 Hne. unfold within. rewrite orb_true_iff, bool_decide_eq_true, has_prefix_spec.
  intros [[rest E]| ->%abs_path_inj]; [|done..]. rewrite append_assoc in E.
  pose proof (f_equal (Split Separator) E) as ES.
  change (Split Separator (abs_path l2 +:+ String Separator "") = Split Separator (abs_path l1 +:+ String Separator rest)) in ES.
  rewrite !Split_app_sep, !Split_abs_path in ES by done. destruct l1 as [|p l1]; [done|]. injection ES as ES.
  destruct (Split Separator rest) as [|x k _] eqn:Er using rev_ind; [exfalso|].
  - destruct rest; simpl in Er; [done|]. case_bool_decide; [done|]. by destruct (Split _ _).
  - destruct l2 as [|q l2].
    + injection ES as <- _. apply Forall_cons in H1 as [(Hp & _) _]. done.
    + rewrite app_assoc, app_comm_cons in ES. apply app_inj_tail in ES as [-> _]. by exists k.
Qed.

(** A path that is found, without a link at its end, passes the check only
    inside the directory as it is written. *)
Lemma validate_found t t' l loc n root :
  Forall plain_part l -> Forall plain_part root -> root <> [] -> locate t (abs_path l) = Ok loc -> Forall plain_part loc ->
  node_at t loc = Some n -> (forall tg, n <> NLink tg) ->
  validatePathWithinDir t t' (abs_path l) (abs_path root) = None -> root `prefix_of` loc.
Proof.
  intros Hl Hr Hne Hloc Hp Hn Hnl. pose proof (locate_eval _ _ _ _ Hl Hloc Hn) as Hw.
  assert (walk t 255 [] l = Ok loc) as Hw' by (destruct n; [done..|by destruct (Hnl target)]).
  unfold validatePathWithinDir, EvalSymlinks. rewrite walk_abs_path, Hw' by done.
  destruct (within (abs_path loc) (abs_path root)) eqn:E; [|done]. intros _. by eapply within_prefix.
Qed.

Lemma clean_parts_of wt : IsAbs wt = true -> Clean wt = wt -> wt <> "/"%string -> wt = abs_path (parts wt) /\ parts wt <> [].
Proof.
  intros Ha Hc Hne. assert (wt = abs_path (parts wt)) as E by (rewrite <- Clean_abs; done). split; [done|].
  intros En. rewrite En in E. done.
Qed.

(** A directory that is reached through a link is refused altogether: when
    the worktree's path resolves to somewhere else, no file of it is read,
    although the check of the opened file allows for it. *)
Theorem linked_worktree_unreadable reading t wt req root :
  IsAbs wt = true -> Clean wt = wt -> wt <> "/"%string -> walk t 255 [] (Split Separator wt) = Ok root ->
  ~ root `prefix_of` parts wt -> ~ parts wt `prefix_of` root ->
  exists status msg, handleFileRead unmoved reading (fun _ => t) wt req = Refused status msg.
Proof.
  intros Ha Hc Hne Hw H1 H2. destruct (clean_parts_of wt Ha Hc Hne) as [Ewt Hwt]. destruct (handleFileRead unmoved reading (fun _ => t) wt req) as [status msg|path entries|path content sz bin|] eqn:E.
  { by exists status, msg. }
  all: exfalso.
  1,3: revert E; unfold handleFileRead; cbv zeta; repeat (case_match; try done). apply read_opened in E as (loc & c & perm & data & Ho & _ & Hv & _).
  destruct (requested_parts wt req Ha) as (l & HF & Er).
  assert (Forall plain_part (parts wt)) as Hpw by (by apply parts_abs_plain).
  assert (Forall plain_part (parts wt ++ l)) as Hpl by (by apply Forall_app).
  rewrite Er in *. destruct (open_unmoved _ _ _ _ _ _ (IsAbs_abs_path _) ltac:(by rewrite parts_abs_path) Ho)
    as (root' & Hw' & Hpre & Hn & Hl & Hreal). rewrite Hw in Hw'. injection Hw' as <-.
  rewrite Ewt in Hv at 2. pose proof (validate_found _ _ _ _ _ _ Hpl Hpw Hwt Hl Hreal Hn ltac:(done) Hv) as Hpre'.
  destruct (prefix_weak_total _ _ _ Hpre Hpre'); done.
Qed.

(** ** Listing *)
Section listing_facts.
Context `{!SliceSort} (modTime : tree -> list string -> string).

Lemma child_elem t loc p n : (p, n) ∈ children t loc <-> t !! (loc ++ [p]) = Some n.
Proof.
  unfold children. rewrite sort_slice_perm, list_elem_of_omap. split.
  - intros ((l & m) & Hin & E). apply elem_of_map_to_list in Hin. unfold child_of in E. simpl in E.
    destruct (rev l) as [|q dir] eqn:Er; [done|]. case_bool_decide as Hd; [|done]. injection E as <- <-.
    rewrite <- Hd. replace (rev dir ++ [q]) with l; [done|]. rewrite <- (rev_involutive l), Er. done.
  - intros Hn. exists (loc ++ [p], n). split; [by apply elem_of_map_to_list|]. unfold child_of. simpl.
    rewrite rev_app_distr. simpl. by rewrite rev_involutive, bool_decide_true.
Qed.

Lemma dirs_first_order : strict_weak dirs_first.
Proof.
  split_and!; unfold dirs_first.
  - intros [p n]. rewrite bool_decide_false by (by intros []). apply str_lt_irrefl.
  - intros [p n] [q m] [r k]; simpl. destruct (is_dir n), (is_dir m), (is_dir k); simpl; try done; apply str_lt_trans.
  - intros [p n] [q m] [r k]; simpl. destruct (is_dir n), (is_dir m), (is_dir k); simpl; try done; apply str_lt_negtrans.
Qed.

Lemma tree_entry_inv t loc p n e : tree_entry modTime t loc (p, n) = Some e -> Name e = p /\ IsDir e = is_dir n.
Proof. unfold tree_entry. cbn [fst snd]. destruct n, (node_at t (loc ++ [p])); try done; by intros [= <-]. Qed.

Definition listed_before (a b : fileTreeEntry) : Prop :=
  if bool_decide (IsDir a = IsDir b) then str_lt (Name b) (Name a) = false else IsDir a = true.

(** When nobody interferes, a listing names exactly the entries of the
    directory that are no links, each with its size, the directories first and
    otherwise by name; and the directory is inside the worktree. *)
Theorem listing_functional t wt req path entries :
  IsAbs wt = true -> Clean wt = wt -> wt <> "/"%string ->
  handleFileTree modTime (fun _ => t) wt req = FileTree path entries ->
  exists loc, parts wt `prefix_of` loc /\ node_at t loc = Some NDir /\ StronglySorted listed_before entries /\
    (forall e, e ∈ entries <->
       exists n, t !! (loc ++ [Name e]) = Some n /\ (forall tg, n <> NLink tg) /\
         IsDir e = is_dir n /\ Size e = size n /\ ModTime e = modTime t (loc ++ [Name e])).
Proof.
  intros Ha Hc Hne. destruct (clean_parts_of wt Ha Hc Hne) as [Ewt Hwt]. unfold handleFileTree. cbv zeta.
  set (rp := if bool_decide (req = ""%string) then "."%string else req).
  destruct (requested_parts wt rp Ha) as (l & HF & Er). rewrite Er.
  assert (Forall plain_part (parts wt)) as Hpw by (by apply parts_abs_plain).
  assert (Forall plain_part (parts wt ++ l)) as Hpl by (by apply Forall_app).
  destruct (validatePathWithinDir _ _ _ _) eqn:Hv; [done|].
  destruct (Lstat t _) as [[loc [| |]]|e] eqn:El; try done; [|by destruct (IsNotExist e)].
  apply Lstat_file in El as [El En]. unfold ReadDir. rewrite parts_abs_path by done.
  destruct (walk t MAXSYMLINKS [] _) as [loc'|] eqn:Ew; [|done]. destruct (node_at t loc') as [[| |]|] eqn:En'; try done.
  assert (loc' = loc) as ->.
  { pose proof (locate_eval _ _ _ _ Hpl El En) as H1. apply (walk_mono t MAXSYMLINKS 255) in Ew; [|unfold MAXSYMLINKS; lia].
    rewrite H1 in Ew. by injection Ew. }
  assert (Forall plain_part loc) as Hloc by (eapply (walk_plain t MAXSYMLINKS []); [done|by apply plain_no_sep|exact Ew]).
  rewrite Ewt in Hv at 2. pose proof (validate_found _ _ _ _ _ _ Hpl Hpw Hwt El Hloc En ltac:(done) Hv) as Hpre.
  intros E. assert (entries = omap (tree_entry modTime t loc) (sort_slice dirs_first (children t loc))) as -> by congruence. clear E.
  exists loc. split_and!; try done.
  - pose proof (sort_slice_sorted _ dirs_first (children t loc) dirs_first_order) as Hs.
    induction Hs as [|[p n] es Hs IH Hall]; [constructor|]. csimpl.
    destruct (tree_entry modTime t loc (p, n)) as [e|] eqn:Ee; [|done]. constructor; [done|].
    apply Forall_forall. intros e' ([q m] & Hin & Ee')%list_elem_of_omap.
    apply (proj1 (Forall_forall _ _) Hall) in Hin as Hqm. clear Hall. rename Hqm into Hall.
    unfold listed_before. assert (Name e = p /\ IsDir e = is_dir n) as [-> ->].
    { by eapply tree_entry_inv. }
    assert (Name e' = q /\ IsDir e' = is_dir m) as [-> ->].
    { by eapply tree_entry_inv. }
    unfold dirs_first in Hall. simpl in Hall. destruct (is_dir n), (is_dir m); repeat case_bool_decide; simpl in *; congruence.
  - intros [nm d sz mt]. simpl. rewrite list_elem_of_omap. split.
    + intros ([p n] & Hin & Ee). rewrite sort_slice_perm, child_elem in Hin. unfold tree_entry in Ee. simpl in Ee.
      assert (node_at t (loc ++ [p]) = t !! (loc ++ [p])) as Enode by (by destruct loc).
      rewrite Enode, Hin in Ee. exists n. destruct n; try done; injection Ee as <- <- <- <-; done.
    + intros (n & Hn & Hnl & -> & -> & ->). exists (nm, n). split; [by rewrite sort_slice_perm, child_elem|].
      unfold tree_entry. simpl. assert (node_at t (loc ++ [nm]) = t !! (loc ++ [nm])) as -> by (by destruct loc).
      rewrite Hn. by destruct n as [| |tg]; [..|destruct (Hnl tg)].
Qed.
End listing_facts.

(** ** Writing *)

(** C23. When nobody interferes, a file that is saved is below the worktree's
    directory, under a name that is not denied, and nothing else changes; when
    the answer is another one, nothing changes at all. *)
Theorem write_stays_inside disk body wt req t :
  IsAbs wt = true -> Clean wt = wt -> wt <> "/"%string ->
  match handleFileWrite (fun _ t => t) disk body wt req t with
  | (Saved, t') =>
      exists dir p content perm, body = inl content /\ parts wt `prefix_of` dir /\ node_at t dir = Some NDir /\
        isDeniedPath (abs_path (dir ++ [p])) = false /\ t' = <[dir ++ [p] := NFile content perm]> t
  | (_, t') => t' = t
  end.
Proof.
  intros Ha Hc Hne. destruct (clean_parts_of wt Ha Hc Hne) as [Ewt Hwt]. unfold handleFileWrite.
  destruct (bool_decide _); [done|]. destruct (isDeniedPath req); [done|]. destruct body as [content|[]]; [|done..].
  cbv zeta. destruct (validatePathWithinDir t t _ _); [done|]. destruct (isDeniedPath (requested wt req)) eqn:Hd; [done|].
  destruct (parent_refused _ _ _) as [[status msg]|] eqn:Hpar; [done|].
  destruct (resolveWritePermissions _ _) as [perm|[status msg]]; [|done].
  destruct (requested_parts wt req Ha) as (l & HF & Er).
  assert (Forall plain_part (parts wt)) as Hpw by (by apply parts_abs_plain).
  assert (Forall plain_part (parts wt ++ l)) as Hpl by (by apply Forall_app).
  destruct (plain_snoc _ Hpl) as [E|(l' & p & E & Hl' & Hp)]; [by apply app_nil in E as [E _]|].
  rewrite E in Er. rewrite Er in *. unfold parent_refused in Hpar. unfold atomicWriteFile.
  rewrite Dir_abs_path in * by done. rewrite parts_abs_path by done.
  destruct (Lstat t (abs_path l')) as [[loc [| |]]|e] eqn:El; try done; [|by destruct (IsNotExist e)].
  destruct (validatePathWithinDir t t (abs_path l') wt) eqn:Hv; [done|].
  apply Lstat_file in El as [El En].
  destruct (walk t MAXSYMLINKS [] l') as [loc'|] eqn:Ew; [|done].
  destruct (node_at t loc') as [[| |]|] eqn:En'; try done. destruct disk; [done|].
  unfold rename_to. rewrite locate_snoc, Ew, En' by done.
  assert (loc' = loc) as ->.
  { pose proof (locate_eval _ _ _ _ Hl' El En) as H1. apply (walk_mono t MAXSYMLINKS 255) in Ew; [|unfold MAXSYMLINKS; lia].
    rewrite H1 in Ew. by injection Ew. }
  assert (Forall plain_part loc) as Hloc by (eapply (walk_plain t MAXSYMLINKS []); [done|by apply plain_no_sep|exact Ew]).
  rewrite Ewt in Hv. pose proof (validate_found _ _ _ _ _ _ Hl' Hpw Hwt El Hloc En ltac:(done) Hv) as Hpre.
  rewrite (isDenied_last l' loc p Hp) in Hd.
  destruct (node_at t (loc ++ [p])) as [[| |]|]; try done; exists loc, p, content, perm; done.
Qed.

(** When somebody interferes, the parent directory, checked and found good, can
    be another one when the file is renamed into it. *)
Example swapped_directory_is_written :
  let others := fun k t => if bool_decide (k = 7%nat) then <[["w"; "d"] := NLink "/s"]> t else t in
  let '(r, t') := handleFileWrite others None (inl "planted") "/w" "d/f" tree_before in
  r = Saved /\ t' !! ["s"; "f"] = Some (NFile "planted" 420).
Proof. vm_compute. done. Qed.

(** ** Witnesses *)
Import InsertionSort.

(** A file that is moved within the worktree while it is read. *)
Definition moved_names : fd_names := fun loc => Some (if bool_decide (loc = []) then "/" else "/w/g")%string.
Definition tree_moved : tree := <[["w"; "g"] := NFile "mine" 420]> (delete ["w"; "d"; "f"] tree_before).
Definition demo_trees (k : nat) : tree := if (k <? 4)%nat then tree_before else tree_moved.
Definition appended (_ : list string) (content : string) : res string := Ok (content +:+ "!").

Lemma moved_names_named loc : named moved_names loc.
Proof.
  unfold named, moved_names. case_bool_decide as E.
  - exists []. by split_and!.
  - exists ["w"; "g"]%string. split_and!; [done|by repeat constructor|done].
Defined.

Lemma read_stays_inside_witness :
  handleFileRead moved_names appended demo_trees "/w" "d/../d/f" = FileRead "d/../d/f" "mine!" 4 false /\
  exists root q loc c perm data,
    walk tree_moved 255 [] (Split Separator "/w") = Ok root /\ root <> [] /\
    moved_names loc = Some (abs_path q) /\ root `prefix_of` q /\
    tree_before !! loc = Some (NFile c perm) /\ locate tree_before (requested "/w" "d/../d/f") = Ok loc /\
    isDeniedPath (abs_path loc) = false /\ appended loc c = Ok data /\ false = isBinaryContent (limited data) /\
    "mine!"%string = limited data.
Proof.
  split; [vm_compute; reflexivity|].
  apply (read_stays_inside moved_names appended demo_trees "/w" "d/../d/f" "d/../d/f" "mine!" 4 false);
    [exact moved_names_named|reflexivity|vm_compute; reflexivity].
Defined.

Definition tree_linked : tree := {[ ["w"] := NLink "/data/w"; ["data"] := NDir; ["data"; "w"] := NDir; ["data"; "w"; "f"] := NFile "mine" 420 ]}.

Definition tree_demo : tree := <[["w"; "a.txt"] := NFile "text" 420]> (<[["w"; "l"] := NLink "/s"]> tree_before).
Definition no_time (_ : tree) (_ : list string) : string := "2026-01-01T00:00:00Z".
Definition demo_entries : list fileTreeEntry :=
  [mkTreeEntry "d" true 4096 "2026-01-01T00:00:00Z"; mkTreeEntry "a.txt" false 4 "2026-01-01T00:00:00Z"].

Lemma listing_functional_witness :
  handleFileTree no_time (fun _ => tree_demo) "/w" "" = FileTree "." demo_entries /\
  exists loc, parts "/w" `prefix_of` loc /\ node_at tree_demo loc = Some NDir /\ StronglySorted listed_before demo_entries /\
    (forall e, e ∈ demo_entries <->
       exists n, tree_demo !! (loc ++ [Name e]) = Some n /\ (forall tg, n <> NLink tg) /\
         IsDir e = is_dir n /\ Size e = size n /\ ModTime e = no_time tree_demo (loc ++ [Name e])).
Proof.
  split; [vm_compute; reflexivity|].
  apply (listing_functional no_time tree_demo "/w" "" "." demo_entries eq_refl);
    [vm_compute; reflexivity|discriminate|vm_compute; reflexivity].
Defined.

Lemma linked_worktree_unreadable_witness :
  walk tree_linked 255 [] (Split Separator "/w") = Ok ["data"; "w"] /\
  exists status msg, handleFileRead unmoved as_opened (fun _ => tree_linked) "/w" "f" = Refused status msg.
Proof.
  split; [vm_compute; reflexivity|].
  apply (linked_worktree_unreadable as_opened tree_linked "/w" "f" ["data"; "w"]); try (vm_compute; reflexivity); [discriminate| |];
    intros [k E]; discriminate E.
Defined.

Lemma write_stays_inside_witness :
  handleFileWrite (fun _ t => t) None (inl "new") "/w" "d/f" tree_before = (Saved, <[["w"; "d"; "f"] := NFile "new" 420]> tree_before) /\
  match handleFileWrite (fun _ t => t) None (inl "new") "/w" "d/f" tree_before with
  | (Saved, t') =>
      exists dir p content perm, inl "new" = @inl string bool content /\ parts "/w" `prefix_of` dir /\ node_at tree_before dir = Some NDir /\
        isDeniedPath (abs_path (dir ++ [p])) = false /\ t' = <[dir ++ [p] := NFile content perm]> tree_before
  | (_, t') => t' = tree_before
  end.
Proof.
  split; [vm_compute; reflexivity|].
  apply (write_stays_inside None (inl "new") "/w" "d/f" tree_before); [reflexivity|vm_compute; reflexivity|discriminate].
Defined.
End Access.
