(* ===== verification/LogStreamer.v ===== *)
(** * LogStreamer: agents' logs on the web server, [webui/log_streamer.go] and
    [handlers_logs.go]

    Reading the last lines of a log, or those before a given line, backwards in
    chunks; and following a log that grows or is rotated. The text of a log is
    what it is when it is read. *)
From S2P Require Import Prelude Scanner Paths FileAccess.
Local Open Scope Z_scope.
Local Open Scope go_scope.

Module Tail.
Import Scanner Paths Access.

Definition logReadDefaultLines : Z := 200.
Definition logReadMaxLines : Z := 10000.
Definition readChunkSize : Z := 32 * 1024.

Definition bytes (s : string) : list ascii := String.list_ascii_of_string s.

(** [file.ReadAt], of so many bytes. *)
Definition ReadAt (text : string) (n pos : Z) : string := str_take (Z.to_nat n) (str_drop (Z.to_nat pos) text).

(** ** Where a line starts ([findLineByteOffset]) *)

(** Through one chunk from position [i] on: where the line after the [target]-th
    line feed starts, or how many there were. *)
Fixpoint find_nl (chunk : list ascii) (i nlCount target : Z) : Z + Z :=
  match chunk with
  | [] => inr nlCount
  | c :: chunk' =>
      if bool_decide (c = LF) then
        let nlCount := nlCount + 1 in
        if nlCount =? target then inl (i + 1) else find_nl chunk' (i + 1) nlCount target
      else find_nl chunk' (i + 1) nlCount target
  end.

(** [None]: out of fuel. *)
Fixpoint find_loop (fuel : nat) (text : string) (pos nlCount targetNL : Z) : option Z :=
  match fuel with
  | O => None
  | S fuel =>
      let chunk := ReadAt text readChunkSize pos in
      match find_nl (bytes chunk) pos nlCount targetNL with
      | inl offset => Some offset
      | inr nlCount =>
          if len chunk <? readChunkSize then Some (-1)
          else find_loop fuel text (pos + len chunk) nlCount targetNL
      end
  end.

Definition findLineByteOffset (text : string) (lineNum : Z) : option Z :=
  if lineNum <=? 1 then Some 0 else find_loop (S (String.length text)) text 0 0 (lineNum - 1).

(** ** The last lines ([readLastNLinesFromFile]) *)

(** Backwards through a chunk, given last byte first, its last byte at [p]. *)
Fixpoint scan_back (n effectiveEnd : Z) (chunk : list ascii) (p newlineCount : Z) (firstChunk : bool) : Z + Z * bool :=
  match chunk with
  | [] => inr (newlineCount, firstChunk)
  | c :: chunk' =>
      if bool_decide (c = LF) then
        if firstChunk && (p =? effectiveEnd - 1) then scan_back n effectiveEnd chunk' (p - 1) newlineCount false
        else
          let newlineCount := newlineCount + 1 in
          if newlineCount =? n then inl (p + 1) else scan_back n effectiveEnd chunk' (p - 1) newlineCount false
      else scan_back n effectiveEnd chunk' (p - 1) newlineCount false
  end.

Fixpoint back_loop (fuel : nat) (text : string) (n effectiveEnd pos newlineCount : Z) (firstChunk : bool) : option Z :=
  if (0 <? pos) && (newlineCount <? n) then
    match fuel with
    | O => None
    | S fuel =>
        let chunkSize := if pos <? readChunkSize then pos else readChunkSize in
        let pos := pos - chunkSize in
        let chunk := ReadAt text chunkSize pos in
        match scan_back n effectiveEnd (rev (bytes chunk)) (pos + len chunk - 1) newlineCount firstChunk with
        | inl readOffset => Some readOffset
        | inr (newlineCount, firstChunk) => back_loop fuel text n effectiveEnd pos newlineCount firstChunk
        end
    end
  else Some 0.

Definition count_nl (chunk : list ascii) : Z := Z.of_nat (length (List.filter (fun c => bool_decide (c = LF)) chunk)).

Fixpoint count_loop (fuel : nat) (text : string) (readOffset countPos linesBeforeOffset : Z) : option Z :=
  if countPos <? readOffset then
    match fuel with
    | O => None
    | S fuel =>
        let chunkSize := if readOffset <? countPos + readChunkSize then readOffset - countPos else readChunkSize in
        let chunk := ReadAt text chunkSize countPos in
        count_loop fuel text readOffset (countPos + len chunk) (linesBeforeOffset + count_nl (bytes chunk))
    end
  else Some linesBeforeOffset.

(** The three phases, up to [effectiveEnd]. *)
Definition read_back (text : string) (n effectiveEnd : Z) : option (res (list string * Z)) :=
  let fuel := String.length text in
  readOffset ← back_loop fuel text n effectiveEnd effectiveEnd 0 true;
  startLine ← (if readOffset =? 0 then Some 1
               else linesBeforeOffset ← count_loop fuel text readOffset 0 0; Some (linesBeforeOffset + 1));
  match scan (ReadAt text (effectiveEnd - readOffset) readOffset) with
  | (_, Some err) => Some (Err err)
  | (lines, None) => Some (Ok (lines, startLine))
  end.

Definition readLastNLinesFromFile (file : res string) (n beforeLine : Z) : option (res (list string * Z)) :=
  let n := if n <=? 0 then logReadDefaultLines else n in
  let n := if logReadMaxLines <? n then logReadMaxLines else n in
  match file with
  | Err e => Some (Err e)
  | Ok text =>
      let fileSize := len text in
      if fileSize =? 0 then Some (Ok ([], 1))
      else if 0 <? beforeLine then
        if beforeLine <=? 1 then Some (Ok ([], 1))
        else
          offset ← findLineByteOffset text beforeLine;
          if offset <? 0 then Some (Ok ([], beforeLine))
          else if offset =? 0 then Some (Ok ([], 1))
          else read_back text n offset
      else read_back text n fileSize
  end.

Lemma readChunkSize_pos : 0 < readChunkSize.
Proof. done. Qed.
Opaque readChunkSize.

(** ** The handlers ([handleGetAgentLog], [handleGetTaskLog], [handleListTaskPhases]) *)
Definition getLogDir (home : res string) : res string :=
  match home with
  | Err e => Err (Wrapf "failed to get home directory: " e "")
  | Ok home => Ok (join_all [home; ".loom"; "logs"])
  end.

(** The path of a log, checked; [t], [t'] as for [validatePathWithinDir]. *)
Definition checked (t t' : tree) (home : res string) (elems : string -> list string) : res string :=
  match getLogDir home with
  | Err e => Err e
  | Ok logDir =>
      let logPath := join_all (elems logDir) in
      match validatePathWithinDir t t' logPath logDir with Some e => Err e | None => Ok logPath end
  end.
Definition getAgentLogPath (t t' : tree) (home : res string) (agentName : string) : res string :=
  checked t t' home (fun logDir => [logDir; "agents"; agentName +:+ ".log"]%string).
Definition getTaskLogPath (t t' : tree) (home : res string) (taskID phase : string) : res string :=
  checked t t' home (fun logDir => [logDir; "tasks"; taskID; phase +:+ ".log"]%string).
Definition getTaskLogDir (t t' : tree) (home : res string) (taskID : string) : res string :=
  checked t t' home (fun logDir => [logDir; "tasks"; taskID]%string).

Definition fileExists (t : tree) (path : string) : bool := match Lstat t path with Ok _ => true | Err _ => false end.

(** Reading a directory that was opened is an error. *)
Definition readFileLastLines (fd : fd_names) (t t' : tree) (home : res string) (path : string) (lines beforeLine : Z)
  : option (res (list string * Z)) :=
  match getLogDir home with
  | Err e => Some (Err e)
  | Ok logDir =>
      readLastNLinesFromFile
        (match openLogFileSecure fd t t' path logDir with
         | Ok (_, NFile text _) => Ok text
         | Ok _ => Err EISDIR
         | Err e => Err e
         end) lines beforeLine
  end.

Definition parseBeforeLine (blParam : string) : Z :=
  if bool_decide (blParam <> ""%string) then match atoi blParam with Some bl => if 0 <? bl then bl else 0 | None => 0 end else 0.
Definition parseLines (linesParam : string) : Z :=
  if bool_decide (linesParam <> ""%string) then
    match atoi linesParam with
    | Some n => if 0 <? n then (if logReadMaxLines <? n then logReadMaxLines else n) else logReadDefaultLines
    | None => logReadDefaultLines
    end
  else logReadDefaultLines.

Inductive log_response :=
| LogError (status : Z) (msg : string)
| LogContent (lines : list string) (lineCount startLine : Z)
| TaskPhases (phases : list string).
#[export] Instance log_response_eq_dec : EqDecision log_response.
Proof. solve_decision. Defined.

(** What both do once the names are good; [None]: the read does not end. *)
Definition serve_log (fd : fd_names) (at_ : nat -> tree) (home : res string) (path : res string) (missing linesParam blParam : string)
  : option log_response :=
  let lines := parseLines linesParam in
  match path with
  | Err _ => Some (LogError 500 "failed to resolve log path")
  | Ok logPath =>
      if negb (fileExists (at_ 2%nat) logPath) then Some (LogError 404 missing)
      else
        content ← readFileLastLines fd (at_ 3%nat) (at_ 4%nat) home logPath lines (parseBeforeLine blParam);
        match content with
        | Err _ => Some (LogError 500 "failed to read log file")
        | Ok (content, startLine) => Some (LogContent content (startLine + Z.of_nat (length content) - 1) startLine)
        end
  end.

Definition handleGetAgentLog (fd : fd_names) (at_ : nat -> tree) (home : res string) (agentName linesParam blParam : string)
  : option log_response :=
  if bool_decide (agentName = ""%string) then Some (LogError 400 "missing agent name")
  else if negb (web_name_ok agentName) then Some (LogError 400 "invalid agent name: must match [a-zA-Z0-9_-]+")
  else
    serve_log fd at_ home (getAgentLogPath (at_ 0%nat) (at_ 1%nat) home agentName)
      "log file not found - agent may not be active" linesParam blParam.

Definition validPhase (phase : string) : bool := bool_decide (phase = "planning"%string) || bool_decide (phase = "implementation"%string).

Definition handleGetTaskLog (fd : fd_names) (at_ : nat -> tree) (home : res string) (taskID phase linesParam blParam : string)
  : option log_response :=
  if bool_decide (taskID = ""%string) then Some (LogError 400 "missing task ID")
  else if negb (web_name_ok taskID) then Some (LogError 400 "invalid task ID: must match [a-zA-Z0-9_-]+")
  else if bool_decide (phase = ""%string) then Some (LogError 400 "missing phase")
  else if negb (validPhase phase) then Some (LogError 400 "invalid phase: must be 'planning' or 'implementation'")
  else
    serve_log fd at_ home (getTaskLogPath (at_ 0%nat) (at_ 1%nat) home taskID phase)
      "log file not found - task phase may not have started" linesParam blParam.

(** [name[:len(name)-4]] of the files that end in [.log]. *)
Definition phase_of (e : string * node) : option string :=
  let k := (String.length e.1 - 4)%nat in
  if is_dir e.2 then None
  else if (4 <? String.length e.1)%nat && bool_decide (str_drop k e.1 = ".log"%string) then Some (str_take k e.1) else None.

Definition listTaskPhases `{!SliceSort} (at_ : nat -> tree) (home : res string) (taskID : string) : res (list string) :=
  match getTaskLogDir (at_ 0%nat) (at_ 1%nat) home taskID with
  | Err e => Err e
  | Ok taskDir =>
      match Lstat (at_ 2%nat) taskDir with
      | Err e => if IsNotExist e then Ok [] else Err e
      | Ok (_, NLink _) => Err (Msg "refusing to follow symlink for task directory")
      | Ok (_, NFile _ _) => Err (Msg "task log path is not a directory")
      | Ok (_, NDir) =>
          match ReadDir (at_ 3%nat) taskDir with
          | Err e => if IsNotExist e then Ok [] else Err e
          | Ok (_, entries) => Ok (omap phase_of entries)
          end
      end
  end.

Definition handleListTaskPhases `{!SliceSort} (at_ : nat -> tree) (home : res string) (taskID : string) : log_response :=
  if bool_decide (taskID = ""%string) then LogError 400 "missing task ID"
  else if negb (web_name_ok taskID) then LogError 400 "invalid task ID: must match [a-zA-Z0-9_-]+"
  else
    match listTaskPhases at_ home taskID with
    | Err _ => LogError 500 "failed to list task phases"
    | Ok phases => TaskPhases phases
    end.

(** ** Texts as lines *)
Fixpoint text_of (ls : list string) : string :=
  match ls with [] => "" | l :: ls' => l +:+ String LF (text_of ls') end.

Definition no_lf (l : string) : Prop := contains_byte l LF = false.
Definition tail_line (t : string) : list string := if bool_decide (t = ""%string) then [] else [t].

Lemma bytes_app s t : bytes (s +:+ t) = bytes s ++ bytes t.
Proof. induction s as [|c s IH]; [done|]. rewrite append_cons. simpl. by rewrite IH. Qed.

Lemma length_bytes s : length (bytes s) = String.length s.
Proof. induction s as [|c s IH]; [done|]. simpl. by rewrite IH. Qed.

Lemma text_of_app l1 l2 : text_of (l1 ++ l2) = (text_of l1 +:+ text_of l2)%string.
Proof. induction l1 as [|l l1 IH]; [done|]. simpl. by rewrite IH, append_assoc. Qed.

(** Every text is lines, each with its line feed, and a rest without one. *)
Lemma text_lines text : exists ls tl, text = (text_of ls +:+ tl)%string /\ Forall no_lf ls /\ no_lf tl.
Proof.
  induction text as [|c text (ls & tl & -> & Hls & Htl)]; [by exists [], ""%string|].
  destruct (decide (c = LF)) as [->|Hc]; [exists (""%string :: ls), tl; split_and!; [done|by constructor|done]|].
  destruct ls as [|l ls].
  - exists [], (String c tl). split_and!; [done..|]. unfold no_lf. simpl. by rewrite bool_decide_false.
  - apply Forall_cons in Hls as [Hl Hls]. exists (String c l :: ls), tl. split_and!; [done| |done].
    constructor; [|done]. unfold no_lf. simpl. by rewrite bool_decide_false.
Qed.

Lemma lines_of_text ls tl : Forall no_lf ls -> no_lf tl -> unterminated (Split LF (text_of ls +:+ tl)) = ls ++ tail_line tl.
Proof.
  intros Hls Htl. assert (Split LF (text_of ls +:+ tl) = ls ++ [tl]) as ->.
  { induction Hls as [|l ls Hl Hls IH]; [by apply Split_none|]. simpl. rewrite append_assoc, append_cons, Split_cut by done. by rewrite IH. }
  clear. unfold tail_line. induction ls as [|l ls IH]; simpl; [by case_bool_decide|]. destruct (ls ++ [tl]) eqn:E; [|by rewrite <- IH].
  by destruct ls.
Qed.

(** What is read is what is there, up to the size of the chunk. *)
Lemma ReadAt_split text n pos :
  0 <= n -> 0 <= pos ->
  str_drop (Z.to_nat pos) text = (ReadAt text n pos +:+ str_drop (Z.to_nat (pos + len (ReadAt text n pos))) text)%string /\
  (pos + n <= len text -> len (ReadAt text n pos) = n) /\ (len (ReadAt text n pos) < n -> pos + len (ReadAt text n pos) >= len text).
Proof.
  intros Hn Hp. unfold ReadAt. set (d := str_drop (Z.to_nat pos) text).
  assert (String.length d = String.length text - Z.to_nat pos)%nat as Hd by apply length_str_drop.
  destruct (decide (String.length d <= Z.to_nat n)%nat) as [Hle|Hgt].
  - rewrite str_take_all by done. split_and!.
    + rewrite str_drop_all by (unfold len; lia). by rewrite append_empty.
    + unfold len. lia.
    + unfold len. lia.
  - assert (len (str_take (Z.to_nat n) d) = n) as Hl by (unfold len; rewrite str_take_length; lia). rewrite Hl. split_and!; [|done|lia].
    replace (Z.to_nat (pos + n)) with (Z.to_nat pos + Z.to_nat n)%nat by lia. rewrite str_drop_add. fold d.
    by rewrite str_take_drop.
Qed.

(** ** The start of a line *)
Lemma find_nl_app xs ys i c t :
  find_nl (xs ++ ys) i c t = match find_nl xs i c t with inl o => inl o | inr c' => find_nl ys (i + Z.of_nat (length xs)) c' t end.
Proof.
  revert i c. induction xs as [|x xs IH]; intros i c; simpl; [by rewrite Z.add_0_r|].
  replace (i + Z.of_nat (S (length xs))) with (i + 1 + Z.of_nat (length xs)) by lia.
  destruct (bool_decide _); [|apply IH]. destruct (_ =? t); [done|apply IH].
Qed.

Lemma find_loop_spec fuel text pos c t :
  0 <= pos <= len text -> len text - pos < Z.of_nat fuel ->
  find_loop fuel text pos c t = Some (match find_nl (bytes (str_drop (Z.to_nat pos) text)) pos c t with inl o => o | inr _ => -1 end).
Proof.
  revert pos c. induction fuel as [|fuel IH]; intros pos c Hp Hf; [lia|]. cbn [find_loop].
  pose proof readChunkSize_pos as Hc. destruct (ReadAt_split text readChunkSize pos) as (Hs & Hfull & Hshort); [lia|lia|].
  set (chunk := ReadAt text readChunkSize pos) in *. rewrite Hs, bytes_app, find_nl_app, length_bytes. fold (len chunk).
  destruct (find_nl (bytes chunk) pos c t) as [o|c']; [done|].
  assert (pos + len chunk <= len text) as Hle.
  { pose proof (f_equal len Hs) as E. rewrite len_app in E. unfold len in *. rewrite !length_str_drop in E. lia. }
  destruct (Z.ltb_spec (len chunk) readChunkSize) as [Hlt|Hge].
  - rewrite str_drop_all; [done|]. specialize (Hshort Hlt). unfold len in *. lia.
  - apply IH; [unfold len in *; lia|lia].
Qed.

Lemma find_nl_plain l i c t : no_lf l -> find_nl (bytes l) i c t = inr c.
Proof.
  unfold no_lf. revert i. induction l as [|a l IH]; intros i; simpl; [done|]. intros [Ha Hl]%orb_false_iff.
  rewrite Ha. by apply IH.
Qed.

Lemma find_nl_lines ls tl i c k :
  Forall no_lf ls -> no_lf tl ->
  find_nl (bytes (text_of ls +:+ tl)) i c (c + Z.of_nat (S k)) =
    if decide (S k <= length ls)%nat then inl (i + len (text_of (take (S k) ls))) else inr (c + Z.of_nat (length ls)).
Proof.
  intros Hls Htl. revert i c k. induction Hls as [|l ls Hl Hls IH]; intros i c k.
  { simpl. rewrite append_nil_l, find_nl_plain by done. by rewrite Z.add_0_r. }
  simpl text_of. rewrite append_assoc, append_cons, bytes_app, find_nl_app, find_nl_plain, length_bytes by done.
  simpl. rewrite ?bool_decide_true by done.
  destruct k as [|k].
  - rewrite Z.eqb_refl. destruct (decide _); [|lia]. f_equal. unfold len. simpl. rewrite length_append. simpl. lia.
  - rewrite (proj2 (Z.eqb_neq _ _)) by lia. replace (c + Z.of_nat (S (S k))) with (c + 1 + Z.of_nat (S k)) by lia. rewrite IH.
    destruct (decide (S k <= length ls)%nat), (decide (S (S k) <= S (length ls))%nat); try lia.
    + f_equal. change (take (S (S k)) (l :: ls)) with (l :: take (S k) ls). simpl text_of. unfold len.
      rewrite length_append. simpl. lia.
    + f_equal. lia.
Qed.

(** ** The last lines *)
Lemma scan_back_app n e xs ys p c f :
  scan_back n e (xs ++ ys) p c f =
    match scan_back n e xs p c f with inl o => inl o | inr (c', f') => scan_back n e ys (p - Z.of_nat (length xs)) c' f' end.
Proof.
  revert p c f. induction xs as [|x xs IH]; intros p c f; simpl; [by rewrite Z.sub_0_r|].
  replace (p - Z.of_nat (S (length xs))) with (p - 1 - Z.of_nat (length xs)) by lia.
  destruct (bool_decide _); [|apply IH]. destruct (f && _); [apply IH|]. destruct (_ =? n); [done|apply IH].
Qed.

Lemma scan_back_count n e xs p c f c' f' : c < n -> scan_back n e xs p c f = inr (c', f') -> c' < n.
Proof.
  revert p c f. induction xs as [|x xs IH]; intros p c f Hc; simpl; [by intros [= <- <-]|].
  destruct (bool_decide _); [|by apply IH]. destruct (f && _); [by apply IH|].
  destruct (Z.eqb_spec (c + 1) n); [done|]. apply IH. lia.
Qed.

Definition back_result (n e : Z) (xs : list ascii) (p c : Z) (f : bool) : Z :=
  match scan_back n e xs p c f with inl o => o | inr _ => 0 end.

(** The chunks make no difference. *)
Lemma back_loop_spec fuel text n e pos c f :
  0 <= pos <= len text -> pos <= Z.of_nat fuel -> c < n ->
  back_loop fuel text n e pos c f = Some (back_result n e (rev (bytes (str_take (Z.to_nat pos) text))) (pos - 1) c f).
Proof.
  revert pos c f. pose proof readChunkSize_pos as Hrc.
  assert (forall fuel pos c f, pos = 0 -> back_loop fuel text n e pos c f =
    Some (back_result n e (rev (bytes (str_take (Z.to_nat pos) text))) (pos - 1) c f)) as Hzero.
  { intros fu pos c f ->. by destruct fu, text. }
  induction fuel as [|fuel IH]; intros pos c f Hp Hf Hc; [apply Hzero; lia|].
  destruct (decide (pos = 0)) as [|Hne]; [by apply Hzero|]. cbn [back_loop].
  rewrite (proj2 (Z.ltb_lt 0 pos)), (proj2 (Z.ltb_lt c n)) by lia. cbn [andb].
  set (k := if pos <? readChunkSize then pos else readChunkSize).
  assert (0 < k <= pos) as Hk by (unfold k; destruct (Z.ltb_spec pos readChunkSize); lia).
  destruct (ReadAt_split text k (pos - k)) as (_ & Hfull & _); [lia|lia|]. specialize (Hfull ltac:(lia)).
  assert (str_take (Z.to_nat pos) text = str_take (Z.to_nat (pos - k)) text +:+ ReadAt text k (pos - k))%string as ->.
  { unfold ReadAt. rewrite <- str_take_add. f_equal. lia. }
  rewrite bytes_app, rev_app_distr. unfold back_result. rewrite scan_back_app, length_rev, length_bytes. fold (len (ReadAt text k (pos - k))).
  rewrite Hfull. replace (pos - k + k - 1) with (pos - 1) by lia.
  destruct (scan_back n e (rev (bytes (ReadAt text k (pos - k)))) (pos - 1) c f) as [o|[c' f']] eqn:E; [done|].
  apply scan_back_count in E; [|done]. rewrite IH by lia. unfold back_result. by replace (pos - 1 - k) with (pos - k - 1) by lia.
Qed.

Lemma scan_back_plain n e l p c f :
  no_lf l -> scan_back n e (rev (bytes l)) p c f = inr (c, if bool_decide (l = ""%string) then f else false).
Proof.
  intros Hl. assert (Forall (fun a => a <> LF) (rev (bytes l))) as HF.
  { apply Forall_rev. unfold no_lf in Hl. induction l as [|a l IH]; [constructor|]. simpl in *.
    apply orb_false_iff in Hl as [Ha Hl]. apply bool_decide_eq_false in Ha. constructor; [done|by apply IH]. }
  assert (bool_decide (l = ""%string) = bool_decide (rev (bytes l) = [])) as ->.
  { destruct l as [|a l]; [done|]. rewrite !bool_decide_false; [done| |done]. simpl. by intros [_ ?]%app_nil. }
  clear Hl. revert p f. induction HF as [|a xs Ha HF IH]; intros p f; [done|]. cbn [scan_back].
  rewrite (bool_decide_false (a = LF)) by done. rewrite IH. destruct (bool_decide (xs = [])); by rewrite bool_decide_false.
Qed.

(** Backwards over lines that are not the last: so many line feeds, or the start
    of the line wanted. *)
Lemma scan_back_lines n e ls c :
  Forall no_lf ls -> c < n ->
  scan_back n e (rev (bytes (text_of ls))) (len (text_of ls) - 1) c false =
    if decide (c + Z.of_nat (length ls) < n) then inr (c + Z.of_nat (length ls), false)
    else inl (len (text_of (take (S (length ls - Z.to_nat (n - c))) ls))).
Proof.
  intros Hls. revert c. induction ls as [|l ls IH] using rev_ind; intros c Hc.
  { simpl. rewrite Z.add_0_r. by destruct (decide _). }
  apply Forall_app in Hls as [Hls Hl]. apply Forall_cons in Hl as [Hl _]. specialize (IH Hls).
  rewrite text_of_app. change (text_of [l]) with (l +:+ String LF "")%string.
  rewrite !bytes_app, !rev_app_distr. change (rev (bytes (String LF ""))) with [LF]. cbn [app scan_back].
  rewrite (bool_decide_true (LF = LF)) by done. cbn [andb]. rewrite !len_app, length_app. change (len (String LF "")) with 1. cbn [length].
  destruct (Z.eqb_spec (c + 1) n) as [Ec|Ec].
  - destruct (decide _); [lia|]. f_equal. replace (Z.to_nat (n - c)) with 1%nat by lia.
    replace (S (length ls + 1 - 1)) with (length (ls ++ [l])) by (rewrite length_app; simpl; lia).
    rewrite firstn_all, text_of_app, !len_app. change (text_of [l]) with (l +:+ String LF "")%string. rewrite len_app.
    change (len (String LF "")) with 1. lia.
  - rewrite scan_back_app, scan_back_plain, length_rev, length_bytes by done. fold (len l).
    replace (if bool_decide (l = ""%string) then false else false) with false by (by case_bool_decide).
    replace (len (text_of ls) + (len l + 1) - 1 - 1 - len l) with (len (text_of ls) - 1) by lia.
    rewrite IH by lia. destruct (decide (c + 1 + Z.of_nat (length ls) < n)), (decide (c + Z.of_nat (length ls + 1) < n)); try lia.
    + f_equal. f_equal. lia.
    + f_equal. f_equal. f_equal. rewrite take_app_le by lia. f_equal. lia.
Qed.

(** So the last [n] lines of a text are found, whether or not it ends in a line
    feed. *)
Lemma back_found n ls tl :
  0 < n -> Forall no_lf ls -> no_lf tl ->
  let e := len (text_of ls +:+ tl) in
  back_result n e (rev (bytes (text_of ls +:+ tl))) (e - 1) 0 true =
    len (text_of (take (length (ls ++ tail_line tl) - Z.to_nat n) ls)).
Proof.
  intros Hn Hls Htl e. unfold back_result, tail_line. destruct (decide (tl = ""%string)) as [->|Hne].
  - subst e. rewrite append_empty, bool_decide_true, app_nil_r by done.
    destruct ls as [|l ls _] using rev_ind; [done|]. apply Forall_app in Hls as [Hls Hl]. apply Forall_cons in Hl as [Hl _].
    rewrite text_of_app. change (text_of [l]) with (l +:+ String LF "")%string. rewrite !len_app.
    change (len (String LF "")) with 1. rewrite !bytes_app, !rev_app_distr. change (rev (bytes (String LF ""))) with [LF]. cbn [app scan_back].
    rewrite (bool_decide_true (LF = LF)), Z.eqb_refl by done. cbn [andb].
    rewrite scan_back_app, scan_back_plain, length_rev, length_bytes by done. fold (len l).
    replace (if bool_decide (l = ""%string) then false else false) with false by (by case_bool_decide).
    replace (len (text_of ls) + (len l + 1) - 1 - 1 - len l) with (len (text_of ls) - 1) by lia.
    rewrite scan_back_lines by (done || lia). rewrite length_app. cbn [length]. destruct (decide _).
    + by replace (length ls + 1 - Z.to_nat n)%nat with 0%nat by lia.
    + f_equal. f_equal. rewrite take_app_le by lia. f_equal. lia.
  - rewrite bool_decide_false by done. subst e. rewrite bytes_app, rev_app_distr, scan_back_app, scan_back_plain by done.
    rewrite bool_decide_false by done. rewrite length_rev, length_bytes, len_app. fold (len tl).
    replace (len (text_of ls) + len tl - 1 - len tl) with (len (text_of ls) - 1) by lia.
    rewrite scan_back_lines by (done || lia). rewrite length_app. cbn [length]. destruct (decide _).
    + by replace (length ls + 1 - Z.to_nat n)%nat with 0%nat by lia.
    + f_equal. f_equal. f_equal. lia.
Qed.

Lemma count_nl_app xs ys : count_nl (xs ++ ys) = count_nl xs + count_nl ys.
Proof. unfold count_nl. rewrite List.filter_app, length_app. lia. Qed.

Lemma count_nl_plain l : no_lf l -> count_nl (bytes l) = 0.
Proof.
  unfold no_lf, count_nl. induction l as [|a l IH]; simpl; [done|]. intros [Ha Hl]%orb_false_iff. rewrite Ha. by apply IH.
Qed.

Lemma count_nl_lines ls : Forall no_lf ls -> count_nl (bytes (text_of ls)) = Z.of_nat (length ls).
Proof.
  induction 1 as [|l ls Hl Hls IH]; [done|]. simpl text_of. rewrite bytes_app, count_nl_app, count_nl_plain by done.
  change (bytes (String LF (text_of ls))) with ([LF] ++ bytes (text_of ls)). rewrite count_nl_app, IH.
  change (count_nl [LF]) with 1. simpl length. lia.
Qed.

Lemma count_loop_spec fuel text off pos c :
  0 <= pos <= off -> off <= len text -> off - pos <= Z.of_nat fuel ->
  count_loop fuel text off pos c = Some (c + count_nl (bytes (ReadAt text (off - pos) pos))).
Proof.
  revert pos c. pose proof readChunkSize_pos as Hrc.
  assert (forall fuel pos c, pos = off -> count_loop fuel text off pos c = Some (c + count_nl (bytes (ReadAt text (off - pos) pos)))) as Hend.
  { intros fu pos c ->. rewrite Z.sub_diag. assert (count_loop fu text off off c = Some c) as -> by (by destruct fu; simpl; rewrite Z.ltb_irrefl).
    change (ReadAt text 0 off) with (str_take 0 (str_drop (Z.to_nat off) text)).
    assert (str_take 0 (str_drop (Z.to_nat off) text) = ""%string) as -> by (by destruct (str_drop _ _)).
    by rewrite Z.add_0_r. }
  induction fuel as [|fuel IH]; intros pos c Hp Ho Hf; [apply Hend; lia|].
  destruct (decide (pos = off)) as [|Hne]; [by apply Hend|]. cbn [count_loop]. rewrite (proj2 (Z.ltb_lt pos off)) by lia.
  set (k := if off <? pos + readChunkSize then off - pos else readChunkSize).
  assert (0 < k <= off - pos) as Hk by (unfold k; destruct (Z.ltb_spec off (pos + readChunkSize)); lia).
  destruct (ReadAt_split text k pos) as (Hs & Hfull & _); [lia|lia|]. specialize (Hfull ltac:(lia)). rewrite Hfull.
  rewrite IH by lia. f_equal. rewrite <- Z.add_assoc. f_equal. rewrite <- count_nl_app, <- bytes_app. f_equal. f_equal.
  unfold ReadAt. replace (Z.to_nat (off - pos)) with (Z.to_nat k + Z.to_nat (off - (pos + k)))%nat by lia.
  rewrite str_take_add. f_equal. f_equal. rewrite <- str_drop_add. f_equal. lia.
Qed.

Lemma text_prefix ls tl k : str_take (Z.to_nat (len (text_of (take k ls)))) (text_of ls +:+ tl) = text_of (take k ls).
Proof.
  unfold len. rewrite Nat2Z.id. rewrite <- (take_drop k ls) at 2. rewrite text_of_app, append_assoc. apply str_take_append.
Qed.
Lemma text_suffix ls tl k : str_drop (Z.to_nat (len (text_of (take k ls)))) (text_of ls +:+ tl) = (text_of (drop k ls) +:+ tl)%string.
Proof.
  unfold len. rewrite Nat2Z.id. rewrite <- (take_drop k ls) at 2. rewrite text_of_app, append_assoc. apply str_drop_append.
Qed.

Lemma len_text_of_pos ls : Forall no_lf ls -> (0 < length ls)%nat -> 0 < len (text_of ls).
Proof. destruct ls as [|l ls]; [simpl; lia|]. intros _ _. simpl. rewrite len_app. unfold len. simpl. lia. Qed.

Lemma take_lines_short ls : Forall (fun l => len l < maxLine) ls -> take_lines ls = (map drop_cr ls, None).
Proof. induction 1 as [|l ls Hl Hls IH]; [done|]. simpl. rewrite (proj2 (Z.leb_gt _ _)) by done. by rewrite IH. Qed.

(** Reading back from the end of a text that itself may go on. *)
Lemma read_back_spec n ls tl rest :
  0 < n -> Forall no_lf ls -> no_lf tl -> Forall (fun l => len l < maxLine) (ls ++ tail_line tl) ->
  let text := (text_of ls +:+ tl)%string in
  let L := ls ++ tail_line tl in
  let skip := (length L - Z.to_nat n)%nat in
  read_back (text +:+ rest) n (len text) = Some (Ok (map drop_cr (drop skip L), Z.of_nat skip + 1)).
Proof.
  intros Hn Hls Htl Hshort text L skip. unfold read_back.
  assert (str_take (Z.to_nat (len text)) (text +:+ rest) = text) as Hpre by (unfold len; rewrite Nat2Z.id; apply str_take_append).
  assert (len (text +:+ rest) = len text + len rest) as Hlen by apply len_app.
  assert (0 <= len rest) as Hr by (unfold len; lia).
  rewrite back_loop_spec by (unfold len in *; rewrite ?length_append; lia). cbn [mbind option_bind].
  rewrite Hpre. subst text. rewrite back_found by done. fold L skip.
  set (off := len (text_of (take skip ls))).
  assert (skip <= length ls)%nat as Hskip.
  { unfold skip, L, tail_line. rewrite length_app. case_bool_decide; simpl; lia. }
  assert (Forall no_lf (take skip ls)) as Htk by (by apply Forall_take).
  assert (length (take skip ls) = skip) as Hlt by (rewrite length_take; lia).
  assert (len (text_of ls +:+ tl) = off + len (text_of (drop skip ls) +:+ tl)) as Hsum.
  { unfold off. rewrite <- len_app, <- append_assoc, <- text_of_app. by rewrite take_drop. }
  assert (0 <= len (text_of (drop skip ls) +:+ tl)) as Hge by (unfold len; lia).
  assert (0 <= off) as Hoff by (unfold off, len; lia).
  assert ((if off =? 0 then Some 1 else linesBeforeOffset ← count_loop (String.length ((text_of ls +:+ tl) +:+ rest)) ((text_of ls +:+ tl) +:+ rest) off 0 0; Some (linesBeforeOffset + 1))
    = Some (Z.of_nat skip + 1)) as ->.
  { destruct (Z.eqb_spec off 0) as [E|E].
    - destruct skip as [|sk]; [done|]. pose proof (len_text_of_pos (take (S sk) ls) Htk ltac:(lia)). unfold off in E. lia.
    - rewrite count_loop_spec by (unfold len in *; lia). cbn [mbind option_bind]. rewrite Z.sub_0_r. unfold ReadAt.
      change (str_drop (Z.to_nat 0) ((text_of ls +:+ tl) +:+ rest))%string with ((text_of ls +:+ tl) +:+ rest)%string.
      rewrite append_assoc. unfold off. rewrite text_prefix, count_nl_lines by done. rewrite Hlt. f_equal. }
  cbn [mbind option_bind]. assert (ReadAt ((text_of ls +:+ tl) +:+ rest) (len (text_of ls +:+ tl) - off) off = text_of (drop skip ls) +:+ tl)%string as ->.
  { unfold ReadAt. rewrite Hsum. replace (off + _ - off) with (len (text_of (drop skip ls) +:+ tl)) by lia.
    rewrite append_assoc. unfold off. rewrite text_suffix, <- append_assoc. unfold len. rewrite Nat2Z.id. apply str_take_append. }
  unfold scan. rewrite lines_of_text by (try apply Forall_drop; done).
  assert (drop skip ls ++ tail_line tl = drop skip L) as -> by (unfold L; by rewrite drop_app_le by lia).
  by rewrite take_lines_short by (by apply Forall_drop).
Qed.

(** ** What a request gets *)
Definition lines_of (text : string) : list string := unterminated (Split LF text).

Definition clamped (n : Z) : nat :=
  Z.to_nat (let n := if n <=? 0 then logReadDefaultLines else n in if logReadMaxLines <? n then logReadMaxLines else n).

(** The last [n] of [L], with the number of the first. *)
Definition last_lines (n : nat) (L : list string) : list string * Z :=
  (map drop_cr (drop (length L - n) L), Z.of_nat (length L - n) + 1).

Lemma last_lines_page text n b :
  Forall (fun l => len l < maxLine) (lines_of text) -> text <> ""%string ->
  readLastNLinesFromFile (Ok text) n b =
    Some (Ok (if decide (b <= 0) then last_lines (clamped n) (lines_of text)
              else if decide (b - 1 <= count_nl (bytes text)) then last_lines (clamped n) (take (Z.to_nat (b - 1)) (lines_of text))
              else ([], b))).
Proof.
  intros Hshort Hne. destruct (text_lines text) as (ls & tl & -> & Hls & Htl).
  unfold lines_of in *. rewrite lines_of_text in * by done. unfold readLastNLinesFromFile.
  set (n' := if logReadMaxLines <? _ then _ else _). assert (clamped n = Z.to_nat n') as Hcl by done. rewrite Hcl.
  assert (0 < n') as Hn.
  { unfold n', logReadMaxLines, logReadDefaultLines. destruct (Z.leb_spec n 0); [done|]. destruct (Z.ltb_spec 10000 n); lia. }
  clearbody n'. clear Hcl. set (text := (text_of ls +:+ tl)%string) in *.
  assert (0 < len text) as Hpos by (destruct text; [done|unfold len; simpl; lia]). rewrite (proj2 (Z.eqb_neq _ 0)) by lia.
  assert (count_nl (bytes text) = Z.of_nat (length ls)) as Hcount.
  { unfold text. rewrite bytes_app, count_nl_app, count_nl_lines, count_nl_plain by done. lia. }
  destruct (Z.ltb_spec 0 b); [destruct (decide (b <= 0)); [lia|]|destruct (decide (b <= 0)); [|lia]].
  2:{ unfold text. rewrite <- (append_empty (text_of ls +:+ tl)) at 1. by rewrite read_back_spec. }
  destruct (Z.leb_spec b 1).
  { destruct (decide _); [|lia]. by replace (Z.to_nat (b - 1)) with 0%nat by lia. }
  unfold findLineByteOffset. rewrite (proj2 (Z.leb_gt b 1)) by lia.
  rewrite find_loop_spec by (unfold len in *; lia). cbn [mbind option_bind].
  change (str_drop (Z.to_nat 0) text) with text.
  pose proof (find_nl_lines ls tl 0 0 (Z.to_nat (b - 2)) Hls Htl) as Hf.
  replace (0 + Z.of_nat (S (Z.to_nat (b - 2)))) with (b - 1) in Hf by lia. fold text in Hf. rewrite Hf, !Z.add_0_l. clear Hf.
  replace (S (Z.to_nat (b - 2))) with (Z.to_nat (b - 1)) by lia. rewrite Hcount.
  destruct (decide (Z.to_nat (b - 1) <= length ls)%nat) as [Hle|Hgt], (decide (b - 1 <= Z.of_nat (length ls))); try lia; [|done].
  set (P := take (Z.to_nat (b - 1)) ls). assert (Forall no_lf P) as HP by (by apply Forall_take).
  assert (0 < len (text_of P)) as HPpos by (apply len_text_of_pos; [done|unfold P; rewrite length_take; lia]).
  rewrite (proj2 (Z.ltb_ge _ 0)), (proj2 (Z.eqb_neq _ 0)) by lia.
  assert (text = (text_of P +:+ "") +:+ (text_of (drop (Z.to_nat (b - 1)) ls) +:+ tl))%string as ->.
  { unfold text, P. rewrite append_empty, <- append_assoc, <- text_of_app. by rewrite take_drop. }
  replace (len (text_of P)) with (len (text_of P +:+ "")) by (by rewrite append_empty).
  assert (take (Z.to_nat (b - 1)) (ls ++ tail_line tl) = P) as EP by (by rewrite take_app_le). rewrite EP.
  rewrite read_back_spec; [|done|done|done|].
  - change (tail_line "") with (@nil string). by rewrite app_nil_r.
  - change (tail_line "") with (@nil string). rewrite app_nil_r. unfold P. apply Forall_take. by apply Forall_app in Hshort as [? _].
Qed.

(** Paging back from the end: each page asks for the lines before the first of
    the page after it. *)
Fixpoint pages (fuel : nat) (n b : Z) (text : string) : list string :=
  match fuel with
  | O => []
  | S fuel =>
      match readLastNLinesFromFile (Ok text) n b with
      | Some (Ok (lines, start)) => if start <=? 1 then lines else pages fuel n start text ++ lines
      | _ => []
      end
  end.

Lemma web_name_log_plain name : web_name_ok name = true -> plain_part (name +:+ ".log").
Proof.
  unfold web_name_ok, name_chars. intros [_ Hall]%andb_true_iff.
  split_and!; [intros E; apply (f_equal String.length) in E; rewrite length_append in E; simpl in E; lia..|].
  induction name as [|c name IH]; [done|]. simpl in Hall. apply andb_true_iff in Hall as [Hc Hall].
  rewrite append_cons. cbn [contains_byte]. rewrite (IH Hall), orb_false_r. apply bool_decide_eq_false. intros ->. by vm_compute in Hc.
Qed.

Lemma lines_of_count text : Z.of_nat (length (lines_of text)) <= count_nl (bytes text) + 1.
Proof.
  destruct (text_lines text) as (ls & tl & -> & Hls & Htl). unfold lines_of. rewrite lines_of_text by done.
  rewrite bytes_app, count_nl_app, count_nl_lines, count_nl_plain by done. rewrite length_app. unfold tail_line.
  case_bool_decide; simpl; lia.
Qed.

Lemma clamped_pos n : (0 < clamped n)%nat.
Proof.
  unfold clamped, logReadMaxLines, logReadDefaultLines. destruct (Z.leb_spec n 0); [change (0 < Z.to_nat 200)%nat; lia|].
  destruct (Z.ltb_spec 10000 n); lia.
Qed.

Lemma pages_before fuel n b text :
  Forall (fun l => len l < maxLine) (lines_of text) -> text <> ""%string ->
  2 <= b <= Z.of_nat (length (lines_of text)) -> b <= Z.of_nat fuel ->
  pages fuel n b text = map drop_cr (take (Z.to_nat (b - 1)) (lines_of text)).
Proof.
  intros Hs Hne. assert (0 < clamped n)%nat as Hn.
  { apply clamped_pos. }
  revert b. induction fuel as [|fuel IH]; intros b Hb Hf; [lia|]. cbn [pages].
  rewrite last_lines_page by done. destruct (decide (b <= 0)); [lia|].
  pose proof (lines_of_count text) as Hc. destruct (decide _); [|lia]. unfold last_lines.
  set (L := lines_of text) in *. assert (length (take (Z.to_nat (b - 1)) L) = Z.to_nat (b - 1)) as -> by (rewrite length_take; lia).
  set (skip := (Z.to_nat (b - 1) - clamped n)%nat). destruct (Z.leb_spec (Z.of_nat skip + 1) 1).
  - by replace skip with 0%nat by lia.
  - rewrite IH by lia. rewrite <- map_app. f_equal. replace (Z.to_nat (Z.of_nat skip + 1 - 1)) with skip by lia.
    rewrite <- (take_drop skip (take (Z.to_nat (b - 1)) L)) at 2. f_equal. rewrite take_take. f_equal. lia.
Qed.

(** C18. A request for the last lines gets exactly the last lines, numbered as in
    the file, in however many chunks the file is read; one for those before a
    line gets the last before it; beyond the end of the file it gets nothing. So
    the pages, each from the first line of the one after it, give every line of
    the log once, in order. *)
Theorem log_tail_functional n text :
  Forall (fun l => len l < maxLine) (lines_of text) ->
  (forall b, text <> ""%string ->
     readLastNLinesFromFile (Ok text) n b =
       Some (Ok (if decide (b <= 0) then last_lines (clamped n) (lines_of text)
                 else if decide (b - 1 <= count_nl (bytes text)) then last_lines (clamped n) (take (Z.to_nat (b - 1)) (lines_of text))
                 else ([], b)))) /\
  pages (S (length (lines_of text))) n 0 text = map drop_cr (lines_of text).
Proof.
  intros Hs. split; [intros b Hne; by apply last_lines_page|]. destruct (decide (text = ""%string)) as [->|Hne].
  { unfold pages, readLastNLinesFromFile. by destruct (if logReadMaxLines <? _ then _ else _). }
  cbn [pages]. rewrite last_lines_page by done. destruct (decide (0 <= 0)); [|lia]. unfold last_lines.
  set (L := lines_of text) in *. assert (0 < clamped n)%nat as Hn.
  { apply clamped_pos. }
  set (skip := (length L - clamped n)%nat). destruct (Z.leb_spec (Z.of_nat skip + 1) 1).
  - by replace skip with 0%nat by lia.
  - rewrite pages_before by (done || (fold L; lia)). fold L. rewrite <- map_app. f_equal.
    replace (Z.to_nat (Z.of_nat skip + 1 - 1)) with skip by lia. apply take_drop.
Qed.

(** A log that has become shorter since its end was found is read for ever: the
    count of the lines before it makes no progress at its end. *)
Theorem shortened_log_never_ends fuel text off c pos :
  len text <= pos < off -> count_loop fuel text off pos c = None.
Proof.
  revert c pos. induction fuel as [|fuel IH]; intros c pos Hp; cbn [count_loop]; rewrite (proj2 (Z.ltb_lt pos off)) by lia; [done|].
  set (k := if off <? _ then _ else _).
  assert (ReadAt text k pos = ""%string) as ->.
  { unfold ReadAt. rewrite str_drop_all by (unfold len in *; lia). by destruct (Z.to_nat k). }
  apply IH. unfold len at 2 3. simpl. lia.
Qed.

Lemma read_error e n b : readLastNLinesFromFile (Err e) n b = Some (Err e).
Proof. done. Qed.
Opaque readLastNLinesFromFile.

(** Where the system has [/proc], and whatever other processes do between the
    calls, a log that is served was opened under its name, and is, when the kernel
    is asked, below the directory of the logs as it is resolved then; what is
    served is what the request asks of its text. *)
Theorem served_log_inside fd at_ home name linesParam blParam lines count start :
  (forall loc, named fd loc) -> IsAbs home = true ->
  handleGetAgentLog fd at_ (Ok home) name linesParam blParam = Some (LogContent lines count start) ->
  exists root q dir text perm,
    walk (at_ 4%nat) 255 [] (Split Separator (abs_path (parts home ++ [".loom"; "logs"]))) = Ok root /\
    fd (dir ++ [name +:+ ".log"]%string) = Some (abs_path q) /\ root `prefix_of` q /\
    at_ 3%nat !! (dir ++ [name +:+ ".log"]%string) = Some (NFile text perm) /\
    readLastNLinesFromFile (Ok text) (parseLines linesParam) (parseBeforeLine blParam) = Some (Ok (lines, start)) /\
    count = start + Z.of_nat (length lines) - 1.
Proof.
  intros Hfd Ha. unfold handleGetAgentLog. destruct (bool_decide (name = ""%string)); [done|].
  destruct (web_name_ok name) eqn:Hname; [cbn [negb]|done]. unfold serve_log, getAgentLogPath, checked, getLogDir.
  assert (Forall plain_part [".loom"; "logs"]%string) as Hll by (repeat constructor; done).
  assert (plain_part (name +:+ ".log")) as Hp by (by apply web_name_log_plain).
  set (D := parts home ++ [".loom"; "logs"]%string).
  assert (Forall plain_part D) as HD by (apply Forall_app; split; [by apply parts_abs_plain|done]).
  assert (join_all [home; ".loom"; "logs"]%string = abs_path D) as ED by (by rewrite join_all_abs). rewrite ED.
  assert (join_all [abs_path D; "agents"; name +:+ ".log"]%string = abs_path ((D ++ ["agents"%string]) ++ [name +:+ ".log"]%string)) as EL.
  { rewrite join_all_abs; [|apply IsAbs_abs_path|apply (plain_app_one ["agents"%string]); [by repeat constructor|done]|done]. rewrite parts_abs_path by done. by rewrite <- app_assoc. }
  rewrite EL. destruct (validatePathWithinDir _ _ _ _); [done|]. destruct (fileExists _ _); [cbn [negb]|done].
  unfold readFileLastLines, getLogDir. rewrite ED.
  destruct (openLogFileSecure fd (at_ 3%nat) (at_ 4%nat) _ _) as [[real [text perm| |tg]]|e] eqn:Ho; rewrite ?read_error; [|discriminate..].
  destruct (readLastNLinesFromFile (Ok text) _ _) as [[[l st]|e]|] eqn:Er; cbn [mbind option_bind]; [|discriminate..]. intros [= <- <- <-].
  assert (Forall plain_part (D ++ ["agents"%string])) as HDa by (by apply plain_app_one).
  destruct (open_inside _ _ _ _ _ _ _ (Hfd real) (IsAbs_abs_path _) ltac:(by rewrite parts_abs_path by (by apply plain_app_one)) Ho)
    as (root & q & Hw & Hq & _ & Hpre & Hn & Hl & Hne). destruct (Hne ltac:(by eauto)) as [_ Hr].
  destruct (locate_last _ _ _ _ HDa Hp Hl) as (dir & _ & _ & _ & ->).
  exists root, q, dir, text, perm. split_and!; try done; [by apply Hpre|]. by destruct dir.
Qed.

(** ** Witnesses *)
Definition demo_log : string := "one" +:+ String LF ("two" +:+ String LF "three").

Lemma log_tail_functional_witness :
  Forall (fun l => len l < maxLine) (lines_of demo_log) /\ readLastNLinesFromFile (Ok demo_log) 2 0 = Some (Ok (["two"; "three"]%string, 2)) /\
  ((forall b, demo_log <> ""%string ->
     readLastNLinesFromFile (Ok demo_log) 2 b =
       Some (Ok (if decide (b <= 0) then last_lines (clamped 2) (lines_of demo_log)
                 else if decide (b - 1 <= count_nl (bytes demo_log)) then last_lines (clamped 2) (take (Z.to_nat (b - 1)) (lines_of demo_log))
                 else ([], b)))) /\
   pages (S (length (lines_of demo_log))) 2 0 demo_log = map drop_cr (lines_of demo_log)).
Proof.
  assert (Forall (fun l => len l < maxLine) (lines_of demo_log)) as H by (repeat constructor).
  split; [exact H|]. split; [vm_compute; reflexivity|]. apply (log_tail_functional 2 demo_log). exact H.
Defined.

Definition demo_home : tree :=
  {[ ["h"] := NDir; ["h"; ".loom"] := NLink "/data"; ["data"] := NDir; ["data"; "logs"] := NDir ]}.
Definition demo_logs : tree :=
  {[ ["h"] := NDir; ["h"; ".loom"] := NDir; ["h"; ".loom"; "logs"] := NDir; ["h"; ".loom"; "logs"; "agents"] := NDir;
     ["h"; ".loom"; "logs"; "agents"; "a1.log"] := NFile demo_log 384 ]}.

Definition log_name (loc : list string) : option string :=
  Some (if bool_decide (loc = []) then "/" else "/h/.loom/logs/agents/a1.log.1")%string.

Lemma log_name_named loc : named log_name loc.
Proof.
  unfold named, log_name. case_bool_decide as E.
  - exists []. by split_and!.
  - exists ["h"; ".loom"; "logs"; "agents"; "a1.log.1"]%string. split_and!; [done|by repeat constructor|done].
Defined.

(** A log that is rotated while it is opened. *)
Lemma served_log_inside_witness :
  handleGetAgentLog log_name (fun _ => demo_logs) (Ok "/h"%string) "a1" "1" "" = Some (LogContent ["three"%string] 3 3) /\
  exists root q dir text perm,
    walk demo_logs 255 [] (Split Separator (abs_path (parts "/h" ++ [".loom"; "logs"]))) = Ok root /\
    log_name (dir ++ ["a1" +:+ ".log"]%string) = Some (abs_path q) /\ root `prefix_of` q /\
    demo_logs !! (dir ++ ["a1" +:+ ".log"]%string) = Some (NFile text perm) /\
    readLastNLinesFromFile (Ok text) (parseLines "1") (parseBeforeLine "") = Some (Ok (["three"%string], 3)) /\
    3 = 3 + Z.of_nat (length ["three"%string]) - 1.
Proof.
  split; [vm_compute; reflexivity|].
  apply (served_log_inside log_name (fun _ => demo_logs) "/h" "a1" "1" "" ["three"%string] 3 3); [exact log_name_named|reflexivity|vm_compute; reflexivity].
Defined.

(** When [~/.loom] is a link no log is served, although the check of the opened
    file is made for that. *)
Example linked_loom_home :
  handleGetAgentLog unmoved (fun _ => <[["data"; "logs"; "agents"; "a1.log"] := NFile demo_log 384]> (<[["data"; "logs"; "agents"] := NDir]> demo_home))
    (Ok "/h"%string) "a1" "" "" = Some (LogError 500 "failed to resolve log path").
Proof. vm_compute. reflexivity. Qed.
End Tail.

(** * Following a log ([LogStreamer]) *)
Module Follow.
Import Scanner Tail.

Inductive sse := Chunk (data : string) (byteOffset : Z) | TruncatedEvent.

(** [text]: what the path names now; [events]: those of the watcher that wait. *)
Record state := mkState { text : string; events : nat; pendingRead : bool; currentSize : Z; sent : list sse }.

(** Reading to the end of the file in chunks from [off] on. *)
Fixpoint chunks (fuel : nat) (data : string) (off : Z) : list sse :=
  match fuel with
  | O => []
  | S fuel =>
      let chunk := str_take (Z.to_nat readChunkSize) data in
      if bool_decide (chunk = ""%string) then []
      else Chunk chunk (off + len chunk) :: chunks fuel (str_drop (Z.to_nat readChunkSize) data) (off + len chunk)
  end.
Definition read_from (text : string) (off : Z) : list sse :=
  let data := str_drop (Z.to_nat off) text in chunks (String.length data) data off.

(** [Stream] up to its loop. *)
Definition Stream_start (text : string) (startOffset : Z) : state :=
  let startOffset := if startOffset <? 0 then 0 else startOffset in
  let startOffset := if len text <? startOffset then len text else startOffset in
  mkState text 0 false (len text) (read_from text startOffset).

Definition errFileTruncated : goerror := Sentinel "file truncated".

(** What can go wrong in a read: finding, opening or asking about the file; or a
    call of [Read], after this many chunks were sent. *)
Inductive failure := BeforeReading (e : goerror) | Reading (sent_chunks : nat) (e : goerror).

(** [currentSize] moves only when the whole rest was read. *)
Definition readNewChunks (fails : option failure) (s : state) : option goerror * state :=
  match fails with
  | Some (BeforeReading e) => (Some e, s)
  | _ =>
      if len (text s) <? currentSize s then (Some errFileTruncated, s)
      else if len (text s) =? currentSize s then (None, s)
      else
        let new := read_from (text s) (currentSize s) in
        match fails with
        | Some (Reading k e) => (Some e, mkState (text s) (events s) (pendingRead s) (currentSize s) (sent s ++ take k new))
        | _ => (None, mkState (text s) (events s) (pendingRead s) (len (text s)) (sent s ++ new))
        end
  end.

Inductive label :=
| Append (data : string) (* somebody writes to the log *)
| Replace (data : string) (* the log is rotated: the path names a new file *)
| Event (* the loop takes an event *)
| Debounce (fails : option failure) (* the timer fires *).

Definition exec (l : label) (s : state) : option state :=
  match l with
  | Append data => Some (mkState (text s +:+ data) (S (events s)) (pendingRead s) (currentSize s) (sent s))
  | Replace data => Some (mkState data (S (events s)) (pendingRead s) (currentSize s) (sent s))
  | Event =>
      match events s with
      | O => None
      | S n => Some (mkState (text s) n true (currentSize s) (sent s))
      end
  | Debounce fails =>
      if negb (pendingRead s) then None
      else
        match readNewChunks fails (mkState (text s) (events s) false (currentSize s) (sent s)) with
        | (Some e, s1) =>
            if bool_decide (e = errFileTruncated) then Some (mkState (text s1) (events s1) false 0 (sent s1 ++ [TruncatedEvent]))
            else Some s1
        | (None, s1) => Some s1
        end
  end.

Definition fstep (s : state) (l : label) (s' : state) : Prop := exec l s = Some s'.

(** ** What the client sees *)

(** The chunks continue each other from [off] to [end_], with their offsets. *)
Fixpoint continuous (off : Z) (l : list sse) (data : string) (end_ : Z) : Prop :=
  match l with
  | [] => data = ""%string /\ off = end_
  | Chunk d o :: l' => o = off + len d /\ exists rest, data = (d +:+ rest)%string /\ continuous o l' rest end_
  | TruncatedEvent :: _ => False
  end.

Lemma continuous_app off l1 d1 m l2 d2 e :
  continuous off l1 d1 m -> continuous m l2 d2 e -> continuous off (l1 ++ l2) (d1 +:+ d2) e.
Proof.
  revert off d1. induction l1 as [|[d o|] l1 IH]; intros off d1; simpl; [by intros [-> ->]| |done].
  intros (Ho & rest & -> & H1) H2. split; [done|]. exists (rest +:+ d2)%string. split; [by rewrite append_assoc|]. by apply IH.
Qed.

Lemma chunks_continuous fuel data off :
  (String.length data <= fuel)%nat -> continuous off (chunks fuel data off) data (off + len data).
Proof.
  pose proof readChunkSize_pos as Hrc. revert data off. induction fuel as [|fuel IH]; intros data off Hf.
  { destruct data; [simpl; split; [done|unfold len; simpl; lia]|simpl in Hf; lia]. }
  cbn [chunks]. case_bool_decide as Hc.
  - destruct data; [simpl; split; [done|unfold len; simpl; lia]|]. exfalso.
    destruct (Z.to_nat readChunkSize) eqn:E; [lia|done].
  - set (n := Z.to_nat readChunkSize) in *. cbn [continuous]. split; [done|]. exists (str_drop n data).
    split; [by rewrite str_take_drop|].
    replace (off + len data) with (off + len (str_take n data) + len (str_drop n data)) by (rewrite <- Z.add_assoc, <- len_app; by rewrite str_take_drop).
    apply IH. rewrite length_str_drop. unfold n. lia.
Qed.

Lemma read_from_continuous text off : 0 <= off <= len text -> continuous off (read_from text off) (str_drop (Z.to_nat off) text) (len text).
Proof.
  intros Ho. unfold read_from. pose proof (chunks_continuous (String.length (str_drop (Z.to_nat off) text)) _ off (le_n _)) as H.
  replace (len text) with (off + len (str_drop (Z.to_nat off) text)); [done|]. unfold len in *. rewrite length_str_drop. lia.
Qed.

Definition follows (start : Z) (s : state) : Prop :=
  0 <= start <= currentSize s /\ currentSize s <= len (text s) /\
  continuous start (sent s) (str_take (Z.to_nat (currentSize s - start)) (str_drop (Z.to_nat start) (text s))) (currentSize s) /\
  (events s = 0%nat -> pendingRead s = false -> currentSize s = len (text s)).

Definition appends (l : label) : Prop := match l with Replace _ | Debounce (Some _) => False | _ => True end.

Lemma str_take_app_le n s t : (n <= String.length s)%nat -> str_take n (s +:+ t) = str_take n s.
Proof.
  revert n. induction s as [|c s IH]; intros [|n] Hn; simpl in Hn; [by destruct t|lia|by rewrite append_cons|].
  rewrite append_cons. simpl. by rewrite IH by lia.
Qed.
Lemma str_drop_app_le n s t : (n <= String.length s)%nat -> str_drop n (s +:+ t) = (str_drop n s +:+ t)%string.
Proof.
  revert n. induction s as [|c s IH]; intros [|n] Hn; simpl in Hn; [done|lia|done|]. rewrite append_cons. simpl. apply IH. lia.
Qed.

Lemma follows_step start s l s' : appends l -> follows start s -> fstep s l s' -> follows start s'.
Proof.
  intros Hl (Hs & Hc & Hcont & Hidle) Hstep. unfold fstep in Hstep. destruct l as [data|data| |[|]]; try done; simpl in Hstep.
  - injection Hstep as <-. unfold follows. simpl. rewrite len_app. assert (0 <= len data) by (unfold len; lia).
    split_and!; [lia..| |done]. rewrite str_drop_app_le by (unfold len in *; lia).
    by rewrite str_take_app_le by (rewrite length_str_drop; unfold len in *; lia).
  - destruct (events s) as [|n] eqn:En; [done|]. injection Hstep as <-. unfold follows. simpl. by split_and!; try lia.
  - destruct (pendingRead s); [|done]. simpl in Hstep. unfold readNewChunks in Hstep. simpl in Hstep.
    rewrite (proj2 (Z.ltb_ge _ _)) in Hstep by lia. destruct (Z.eqb_spec (len (text s)) (currentSize s)) as [E|E];
      injection Hstep as <-; unfold follows; simpl; [by split_and!; try lia|]. split_and!; try lia.
    assert (str_take (Z.to_nat (len (text s) - start)) (str_drop (Z.to_nat start) (text s)) =
      str_take (Z.to_nat (currentSize s - start)) (str_drop (Z.to_nat start) (text s)) +:+ str_drop (Z.to_nat (currentSize s)) (text s))%string as ->.
    { rewrite str_take_all by (rewrite length_str_drop; unfold len; lia).
      rewrite <- (str_take_drop (Z.to_nat (currentSize s - start)) (str_drop (Z.to_nat start) (text s))) at 1. f_equal.
      rewrite <- str_drop_add. f_equal. lia. }
    eapply continuous_app; [exact Hcont|]. apply read_from_continuous. lia.
Qed.

Lemma Stream_start_follows t off : follows (Z.max 0 (Z.min off (len t))) (Stream_start t off).
Proof.
  assert (0 <= len t) by (unfold len; lia). unfold follows, Stream_start. simpl.
  replace (if len t <? _ then _ else _) with (Z.max 0 (Z.min off (len t))).
  2:{ destruct (Z.ltb_spec off 0); [destruct (Z.ltb_spec (len t) 0); lia|destruct (Z.ltb_spec (len t) off); lia]. }
  split_and!; [lia..| |done]. rewrite str_take_all by (rewrite length_str_drop; unfold len; lia). apply read_from_continuous. lia.
Qed.


(** When the log is rotated the client misses text: of a new file that is
    shorter nothing is sent until somebody writes again, and of one that is as
    long only what lies beyond the old size, without a word. *)
Theorem rotation_loses_text s data :
  events s = 0%nat -> 0 < len data -> pendingRead s = false ->
  exists s', steps fstep s [Replace data; Event; Debounce None] s' /\ events s' = 0%nat /\ pendingRead s' = false /\ text s' = data /\
    sent s' = sent s ++ (if len data <? currentSize s then [TruncatedEvent]
                        else if len data =? currentSize s then [] else read_from data (currentSize s)).
Proof.
  intros He Hlen Hp.
  exists (match exec_all exec [Replace data; Event; Debounce None] s with Some s' => s' | None => s end).
  assert (exists s', exec_all exec [Replace data; Event; Debounce None] s = Some s' /\ events s' = 0%nat /\ pendingRead s' = false /\ text s' = data /\
    sent s' = sent s ++ (if len data <? currentSize s then [TruncatedEvent]
                        else if len data =? currentSize s then [] else read_from data (currentSize s))) as (s' & E & H).
  { destruct s as [t ev p cur snt]. simpl in *. subst. unfold readNewChunks. simpl.
    destruct (len data <? cur); [by eexists|]. destruct (len data =? cur); [|by eexists].
    eexists. split_and!; [reflexivity|done..|]. simpl. by rewrite app_nil_r. }
  rewrite E. split; [|done]. by apply exec_all_steps.
Qed.

(** A read that fails part of the way has sent what it read, and the next one
    starts from the old offset: these chunks are sent a second time. *)
Theorem failed_read_sends_twice s k e :
  e <> errFileTruncated -> 0 <= currentSize s < len (text s) -> pendingRead s = true -> events s = 1%nat ->
  exists s', steps fstep s [Debounce (Some (Reading k e)); Event; Debounce None] s' /\
    sent s' = sent s ++ take k (read_from (text s) (currentSize s)) ++ read_from (text s) (currentSize s).
Proof.
  intros He Hc Hp Hev. destruct s as [t ev p cur snt]. simpl in *. subst.
  exists (mkState t 0 false (len t) ((snt ++ take k (read_from t cur)) ++ read_from t cur)). split; [|simpl; by rewrite <- app_assoc].
  assert ((len t <? cur) = false) as E1 by (apply Z.ltb_ge; lia). assert ((len t =? cur) = false) as E2 by (apply Z.eqb_neq; lia).
  apply exec_all_steps. unfold exec_all, exec, readNewChunks. simpl. rewrite E1, E2. simpl. rewrite (bool_decide_false _ He). simpl.
  by rewrite E1, E2.
Qed.

(** ** Witnesses *)
Lemma failed_read_sends_twice_witness :
  let s := mkState "onetwo" 1 true 3 [Chunk "one" 3] in
  (Msg "input/output error" <> errFileTruncated /\ 0 <= currentSize s < len (text s)) /\
  exists s', steps fstep s [Debounce (Some (Reading 1 (Msg "input/output error"))); Event; Debounce None] s' /\
    sent s' = sent s ++ take 1 (read_from (text s) (currentSize s)) ++ read_from (text s) (currentSize s).
Proof.
  split; [split; [discriminate|vm_compute; split; congruence]|].
  apply (failed_read_sends_twice (mkState "onetwo" 1 true 3 [Chunk "one" 3]) 1 (Msg "input/output error"));
    [discriminate|vm_compute; split; congruence|reflexivity|reflexivity].
Defined.

Definition demo_labels : list label := [Append "three"; Append "four"; Event; Event; Debounce None].


Lemma rotation_loses_text_witness :
  let s := Stream_start "old text" 0 in
  (events s = 0%nat /\ 0 < len "new" /\ pendingRead s = false) /\
  exists s', steps fstep s [Replace "new"; Event; Debounce None] s' /\ events s' = 0%nat /\ pendingRead s' = false /\ text s' = "new"%string /\
    sent s' = sent s ++ (if len "new" <? currentSize s then [TruncatedEvent]
                        else if len "new" =? currentSize s then [] else read_from "new" (currentSize s)).
Proof. split; [done|]. apply (rotation_loses_text (Stream_start "old text" 0) "new"); done. Defined.
End Follow.
