(* ===== verification/WebAuth.v ===== *)
(** * WebAuth: who reaches which handler of the web server,
    [internal/webui/auth.go], [cors.go], [security.go], [fleet_auth.go],
    [jwt.go], [routes.go]

    The chain of middlewares around the router, the router's table and the
    matching of [http.ServeMux], up to the handler that serves a request. The
    handlers themselves are the values of [endpoint]. The JWT library and the
    parsing of URLs are parameters. *)
From S2P Require Import Prelude.
Local Open Scope Z_scope.
Local Open Scope go_scope.

Module WebAuth.
Local Open Scope string_scope.
Local Open Scope list_scope.

(** ** Requests

    [rq_segs] are the path's segments, split before the escapes are decoded, so
    that a segment may hold a slash; [rq_slash]: the path ends in a slash.
    [rq_canonical]: [ServeMux]'s cleaning leaves the escaped path alone.
    [rq_Header] is [Header.Get] and [rq_Query] is [URL.Query().Get]. *)
Record request := mkReq {
  rq_Method : string;
  rq_segs : list string;
  rq_slash : bool;
  rq_canonical : bool;
  rq_Host : string;
  rq_Header : string -> string;
  rq_Query : string -> string;
}.

Fixpoint path_of (segs : list string) (slash : bool) : string :=
  match segs with
  | [] => if slash then "/" else ""
  | s :: segs' => "/" +:+ s +:+ path_of segs' slash
  end.

(** [r.URL.Path]. *)
Definition rq_Path (r : request) : string := path_of (rq_segs r) (rq_slash r).

(** ** What becomes of a request *)
Abbreviation headers := (gmap string (list string)).
Definition Set_ (k v : string) (h : headers) : headers := <[k := [v]]> h.
Definition Add (k v : string) (h : headers) : headers := <[k := default [] (h !! k) ++ [v]]> h.

Inductive body := NoBody | ErrorBody (message : string) | FleetError (message : string).

Record WorkerClaims := mkClaims { WorkerID : string; Repos : list string; IssuedAt : Z; ExpiresAt : Z }.

Inductive endpoint :=
| Health | APIHealth | AuthToken | StatsE | MetricsE | DaemonStatus | GetBackendConfig | PatchBackendConfig
| GetIssue | ListIssues | CreateIssue | PatchIssue | CloseIssue | DeleteIssue | AddComment
| AddDependency | RemoveDependency
| FleetRegister | FleetClaim | FleetDone | FleetHeartbeat
| Ready | Blocked | Graph | SSE | LoomProxy
| ListTerminalSessions | TerminalToken | GetAgentTerminalToken | TerminalWS | AgentTerminalWS
| GetAgentTerminalInfo | TerminalRestart | ListTerminalTabs | GetTerminalTab | PatchTerminalTab | DeleteTerminalTab
| GitPushAll | GitPush | GitPull | GitSync | GitPR | GitReset | GitStatus | GitTargetUpdate
| FileTree | FileRead | FileWrite | ListEditors | OpenEditor
| GetAgentLog | ListTaskPhases | GetTaskLog | Frontend.
#[export] Instance endpoint_eq_dec : EqDecision endpoint.
Proof. solve_decision. Defined.

(** A middleware answers, or the router hands the request to a handler, with the
    headers set so far and the claims in the request's context. *)
Inductive outcome :=
| Answer (status : Z) (hs : headers) (b : body)
| Serve (e : endpoint) (claims : option WorkerClaims) (hs : headers).

Abbreviation handler := (request -> headers -> outcome).

Definition respondJSON (status : Z) (b : body) (hs : headers) : outcome :=
  Answer status (Set_ "Content-Type" "application/json" hs) b.
Definition respondError (status : Z) (message : string) (hs : headers) : outcome :=
  respondJSON status (ErrorBody message) hs.

(** ** The API key ([auth.go]) *)
Record AuthConfig := mkAuth { APIKey : string; Enabled : bool }.

Definition isPublicRoute (method path : string) : bool :=
  if has_prefix path "/api/fleet/" then true
  else if negb (bool_decide (method = "GET")) then false
  else if bool_decide (path = "/health") then true
  else if bool_decide (path = "/api/health") then true
  else if bool_decide (path = "/api/auth/token") then true
  else if bool_decide (path = "/api/terminal/ws") then true
  else if has_prefix path "/api/agents/" && has_suffix path "/terminal/ws" then true
  else if negb (has_prefix path "/api/") then true
  else false.

Definition bearer (auth : string) : option string :=
  if has_prefix auth "Bearer " then Some (str_drop 7 auth) else None.

Definition extractToken (r : request) : string :=
  let auth := rq_Header r "Authorization" in
  if negb (bool_decide (auth = "")) then default "" (bearer auth) else rq_Query r "token".

Definition NewAuthMiddleware (config : AuthConfig) (next : handler) : handler := fun r hs =>
  if negb (Enabled config) then next r hs
  else if bool_decide (rq_Method r = "OPTIONS") then next r hs
  else if isPublicRoute (rq_Method r) (rq_Path r) then next r hs
  else
    let token := extractToken r in
    if bool_decide (token = "") then respondError 401 "authentication required" hs
    else if negb (bool_decide (token = APIKey config)) then respondError 401 "invalid token" hs
    else next r hs.

(** [LoadOrCreateAPIKey]: the file's content before and after; what [rand.Read],
    [os.MkdirAll] and [os.WriteFile] make of their calls are arguments. *)
Definition apiKeyLength : nat := 32.
Definition hex_digit (n : nat) : ascii := default "0"%char (String.get n "0123456789abcdef").
Fixpoint hex_encode (b : list Byte.byte) : string :=
  match b with
  | [] => ""
  | x :: b' =>
      let n := N.to_nat (Byte.to_N x) in
      String (hex_digit (n / 16)) (String (hex_digit (n mod 16)) (hex_encode b'))
  end.

Definition GenerateAPIKey (rand : res (list Byte.byte)) : res string :=
  match rand with
  | Err e => Err (Wrapf "failed to generate random key: " e "")
  | Ok b => Ok (hex_encode b)
  end.

Definition LoadOrCreateAPIKey (path dir : string) (rand : res (list Byte.byte)) (mkdir_err write_err : option goerror)
    (file : option string) : res string * option string :=
  let key := TrimSpace (default "" file) in
  if negb (bool_decide (key = "")) then (Ok key, file)
  else
    match GenerateAPIKey rand with
    | Err e => (Err e, file)
    | Ok key =>
        match mkdir_err with
        | Some e => (Err (Wrapf ("failed to create directory " +:+ dir +:+ ": ") e ""), file)
        | None =>
            match write_err with
            | Some e => (Err (Wrapf "failed to write API key file: " e ""), file)
            | None => (Ok key, Some (key +:+ String "010" ""))
            end
        end
    end.

(** [handleAuthToken]: the key is given to whoever is not a page of another
    origin. *)
Definition handleAuthToken (apiKey : string) (r : request) : Z * string :=
  let secFetchSite := rq_Header r "Sec-Fetch-Site" in
  if negb (bool_decide (secFetchSite = "")) && negb (bool_decide (secFetchSite = "same-origin"))
  then (403, "cross-origin requests not allowed") else (200, apiKey).

(** ** Security headers ([security.go]) *)
Definition NewSecurityHeadersMiddleware (HSTSEnabled : bool) (next : handler) : handler := fun r hs =>
  let hs := Set_ "Content-Security-Policy" "default-src 'self'; script-src 'self'; style-src 'self' 'unsafe-inline'; img-src 'self' data:; connect-src 'self'; font-src 'self'; frame-ancestors 'none'" hs in
  let hs := Set_ "X-Content-Type-Options" "nosniff" hs in
  let hs := Set_ "Referrer-Policy" "strict-origin-when-cross-origin" hs in
  let hs := Set_ "X-Frame-Options" "DENY" hs in
  let hs := Set_ "Permissions-Policy" "camera=(), microphone=(), geolocation=(), payment=()" hs in
  next r (if HSTSEnabled then Set_ "Strict-Transport-Security" "max-age=63072000; includeSubDomains" hs else hs).

(** ** Other origins ([cors.go]) *)
Record CORSConfig := mkCORS { CORSEnabled : bool; AllowedOrigins : list string }.

Section cors.
(** [url.Parse] and its [Host]; [None] for an error. *)
Context (url_host : string -> option string).

Definition isSameOrigin (origin requestHost : string) : bool := bool_decide (url_host origin = Some requestHost).

Definition allowed (config : CORSConfig) (origin : string) : bool :=
  bool_decide (origin ∈ map (fun o => TrimSuffix o "/") (AllowedOrigins config)).

Definition cors_headers (origin : string) (hs : headers) : headers :=
  let hs := Set_ "Access-Control-Allow-Origin" origin hs in
  let hs := Set_ "Access-Control-Allow-Methods" "GET, POST, PATCH, PUT, DELETE, OPTIONS" hs in
  let hs := Set_ "Access-Control-Allow-Headers" "Content-Type, Authorization, X-Requested-With" hs in
  let hs := Set_ "Access-Control-Allow-Credentials" "true" hs in
  Set_ "Access-Control-Max-Age" "86400" hs.

Definition NewCORSMiddleware (config : CORSConfig) (next : handler) : handler := fun r hs =>
  if negb (CORSEnabled config) then next r hs
  else
    let origin := rq_Header r "Origin" in
    let hs := Add "Vary" "Origin" hs in
    let normalizedOrigin := TrimSuffix origin "/" in
    if bool_decide (rq_Method r = "OPTIONS") then
      if negb (bool_decide (origin = "")) && negb (bool_decide (origin = "null")) && allowed config normalizedOrigin
      then Answer 204 (cors_headers origin hs) NoBody
      else Answer 403 hs NoBody
    else if bool_decide (origin = "") then next r hs
    else if bool_decide (origin = "null") then Answer 403 hs NoBody
    else if negb (isSameOrigin normalizedOrigin (rq_Host r)) && negb (allowed config normalizedOrigin)
    then Answer 403 hs NoBody
    else next r (if allowed config normalizedOrigin then cors_headers origin hs else hs).
End cors.

(** ** The router ([http.ServeMux])

    A pattern is a method, or none, and segments: a literal, a name in braces
    that stands for one segment, or a final slash for everything below. *)
Inductive pseg := Lit (s : string) | Wild | Multi.
#[export] Instance pseg_eq_dec : EqDecision pseg.
Proof. solve_decision. Defined.

Record route := mkRoute {
  rt_method : option string;
  rt_pat : list pseg;
  rt_endpoint : endpoint;
  rt_auth : option string;
}.

Definition parse_seg (s : string) : pseg :=
  if bool_decide (s = "") then Multi else if has_prefix s "{" then Wild else Lit s.

Definition parse_path (s : string) : list pseg :=
  match GoString.Split "/"%char s with
  | _ :: segs => map parse_seg segs
  | [] => []
  end.

Definition parse_pattern (s : string) : option string * list pseg :=
  match index_byte s " "%char with
  | Some i => (Some (str_take i s), parse_path (str_drop (S i) s))
  | None => (None, parse_path s)
  end.

(** [mux.HandleFunc], and with a signing key [mux.Handle] behind the
    middleware of the workers' tokens. *)
Definition HandleFunc (s : string) (e : endpoint) : route :=
  let '(m, p) := parse_pattern s in mkRoute m p e None.
Definition HandleAuth (key s : string) (e : endpoint) : route :=
  let '(m, p) := parse_pattern s in mkRoute m p e (Some key).

Definition head_is (p : pseg) (c : list pseg * route) : option (list pseg * route) :=
  match c.1 with q :: rest => if bool_decide (q = p) then Some (rest, c.2) else None | [] => None end.
Definition children (p : pseg) (cs : list (list pseg * route)) : list (list pseg * route) := omap (head_is p) cs.
Definition leaf (c : list pseg * route) : option route := match c.1 with [] => Some c.2 | _ => None end.
Definition multi (c : list pseg * route) : option route := match c.1 with [Multi] => Some c.2 | _ => None end.

(** Below a node of the routing tree: the child of the segment itself, then the
    one of a name, then everything below. The segment of a final slash is a
    slash; no name stands for it. *)
Fixpoint match_path (cs : list (list pseg * route)) (segs : list string) : option route :=
  match segs with
  | [] => head (omap leaf cs)
  | s :: rest =>
      match match_path (children (Lit s) cs) rest with
      | Some r => Some r
      | None =>
          match (if bool_decide (s = "/") then None else match_path (children Wild cs) rest) with
          | Some r => Some r
          | None => head (omap multi cs)
          end
      end
  end.

Definition of_method (m : option string) (rs : list route) : list (list pseg * route) :=
  omap (fun r => if bool_decide (rt_method r = m) then Some (rt_pat r, r) else None) rs.

(** Patterns of the method first, those of [GET] for [HEAD] too, then those
    without a method. *)
Definition match_route (rs : list route) (method : string) (segs : list string) : option route :=
  match match_path (of_method (Some method) rs) segs with
  | Some r => Some r
  | None =>
      match (if bool_decide (method = "HEAD") then match_path (of_method (Some "GET") rs) segs else None) with
      | Some r => Some r
      | None => match_path (of_method None rs) segs
      end
  end.

Definition mux_segs (r : request) : list string := rq_segs r ++ if rq_slash r then ["/"] else [].

(** A match of the whole path, not of a part below a final slash. *)
Definition exact_match (r : option route) (segs : list string) (slash : bool) : bool :=
  match r with
  | None => false
  | Some r => negb (bool_decide (last (rt_pat r) = Some Multi)) ||
              (slash && bool_decide (length (rt_pat r) = length segs))
  end.

(** ** Workers' tokens ([jwt.go], [fleet_auth.go])

    [ParseWithClaims] asks the key function for the key to the token's signing
    method. *)
Inductive signing_method := SigningMethodHMAC | OtherMethod (alg : string).

Section server.
Context (url_host : string -> option string).
Context (ParseWithClaims : string -> (signing_method -> res string) -> res (WorkerClaims * bool)).

Definition keyfunc (signingKey : string) (m : signing_method) : res string :=
  match m with
  | SigningMethodHMAC => Ok signingKey
  | OtherMethod alg => Err (Msg ("unexpected signing method: " +:+ alg))
  end.

Definition ValidateWorkerToken (tokenString signingKey : string) : res WorkerClaims :=
  match ParseWithClaims tokenString (keyfunc signingKey) with
  | Err e => Err (Wrapf "parse token: " e "")
  | Ok (claims, valid) => if valid then Ok claims else Err (Msg "invalid token claims")
  end.

Definition writeFleetAuthError (msg : string) (hs : headers) : outcome := respondJSON 401 (FleetError msg) hs.

Definition NewFleetAuthMiddleware (signingKey : string) (next : option WorkerClaims -> handler) : handler := fun r hs =>
  if bool_decide (signingKey = "") then writeFleetAuthError "fleet authentication not configured" hs
  else
    let auth := rq_Header r "Authorization" in
    if bool_decide (auth = "") then writeFleetAuthError "missing authorization header" hs
    else
      match bearer auth with
      | None => writeFleetAuthError "invalid authorization header format" hs
      | Some tokenStr =>
          if bool_decide (tokenStr = "") then writeFleetAuthError "missing bearer token" hs
          else
            match ValidateWorkerToken tokenStr signingKey with
            | Err _ => writeFleetAuthError "invalid or expired token" hs
            | Ok claims => next (Some claims) r hs
            end
      end.

Definition run_route (rt : route) : handler := fun r hs =>
  match rt_auth rt with
  | Some key => NewFleetAuthMiddleware key (fun claims _ hs => Serve (rt_endpoint rt) claims hs) r hs
  | None => Serve (rt_endpoint rt) None hs
  end.

(** [ServeMux.ServeHTTP]: a redirect to the cleaned path, or to the path with a
    slash where only that has a pattern of its own. *)
Definition mux (rs : list route) : handler := fun r hs =>
  let found := match_route rs (rq_Method r) (mux_segs r) in
  let slashed := rq_segs r ++ ["/"] in
  if negb (exact_match found (mux_segs r) (rq_slash r)) && negb (rq_slash r) && negb (bool_decide (rq_segs r = [])) &&
     exact_match (match_route rs (rq_Method r) slashed) slashed true
  then Answer 301 hs NoBody
  else if negb (rq_canonical r) then Answer 301 hs NoBody
  else
    match found with
    | Some rt => run_route rt r hs
    | None => Answer 404 hs NoBody
    end.

(** ** The routes ([routes.go]) *)
Record config := mkConfig {
  authEnabled : bool;
  apiKey : string;
  cors : CORSConfig;
  HSTSEnabled : bool;
  hub : bool;
  loomProxy : bool;
  termManager : bool;
  termAuth : bool;
  fleetEnabled : bool;
  tokenCfg : option string;
  gitOps : bool;
  fileOps : bool;
}.

Definition core_routes : list route :=
  [ HandleFunc "GET /api/stats" StatsE; HandleFunc "GET /api/metrics" MetricsE; HandleFunc "GET /api/daemon/status" DaemonStatus;
    HandleFunc "GET /api/config/backend" GetBackendConfig; HandleFunc "PATCH /api/config/backend" PatchBackendConfig;
    HandleFunc "GET /api/issues/{id}" GetIssue; HandleFunc "GET /api/issues" ListIssues; HandleFunc "POST /api/issues" CreateIssue;
    HandleFunc "PATCH /api/issues/{id}" PatchIssue; HandleFunc "POST /api/issues/{id}/close" CloseIssue;
    HandleFunc "DELETE /api/issues/{id}" DeleteIssue; HandleFunc "POST /api/issues/{id}/comments" AddComment;
    HandleFunc "POST /api/issues/{id}/dependencies" AddDependency;
    HandleFunc "DELETE /api/issues/{id}/dependencies/{depId}" RemoveDependency ].

(** The middleware only where there is a key that is not empty. *)
Definition fleet_handle (tokenCfg : option string) (s : string) (e : endpoint) : route :=
  match tokenCfg with
  | Some key => if negb (bool_decide (key = "")) then HandleAuth key s e else HandleFunc s e
  | None => HandleFunc s e
  end.

Definition fleet_routes (tokenCfg : option string) : list route :=
  [ HandleFunc "POST /api/fleet/register" FleetRegister;
    fleet_handle tokenCfg "POST /api/fleet/claim" FleetClaim;
    HandleFunc "POST /api/fleet/done/{id}" FleetDone;
    fleet_handle tokenCfg "POST /api/fleet/heartbeat" FleetHeartbeat ].

Definition view_routes : list route :=
  [ HandleFunc "GET /api/ready" Ready; HandleFunc "GET /api/blocked" Blocked; HandleFunc "GET /api/issues/graph" Graph ].

Definition terminal_routes (termAuth : bool) : list route :=
  HandleFunc "GET /api/terminal/sessions" ListTerminalSessions ::
  (if termAuth then [ HandleFunc "GET /api/terminal/token" TerminalToken;
                      HandleFunc "GET /api/agents/{name}/terminal/token" GetAgentTerminalToken ] else []) ++
  [ HandleFunc "GET /api/terminal/ws" TerminalWS; HandleFunc "GET /api/agents/{name}/terminal/ws" AgentTerminalWS;
    HandleFunc "GET /api/agents/{name}/terminal/info" GetAgentTerminalInfo; HandleFunc "POST /api/terminal/restart" TerminalRestart;
    HandleFunc "GET /api/terminal/tabs" ListTerminalTabs; HandleFunc "GET /api/terminal/tabs/{session}" GetTerminalTab;
    HandleFunc "PATCH /api/terminal/tabs/{session}" PatchTerminalTab; HandleFunc "DELETE /api/terminal/tabs/{session}" DeleteTerminalTab ].

Definition git_routes : list route :=
  [ HandleFunc "POST /api/git/push-all" GitPushAll; HandleFunc "POST /api/agents/{name}/git/push" GitPush;
    HandleFunc "POST /api/agents/{name}/git/pull" GitPull; HandleFunc "POST /api/agents/{name}/git/sync" GitSync;
    HandleFunc "POST /api/agents/{name}/git/pr" GitPR; HandleFunc "POST /api/agents/{name}/git/reset" GitReset;
    HandleFunc "GET /api/agents/{name}/git/status" GitStatus; HandleFunc "PATCH /api/agents/{name}/git/target" GitTargetUpdate ].

Definition file_routes : list route :=
  [ HandleFunc "GET /api/agents/{name}/files/tree" FileTree; HandleFunc "GET /api/agents/{name}/files" FileRead;
    HandleFunc "PUT /api/agents/{name}/files" FileWrite ].

Definition last_routes : list route :=
  [ HandleFunc "GET /api/editors" ListEditors; HandleFunc "POST /api/editors/open" OpenEditor;
    HandleFunc "GET /api/agents/{name}/logs" GetAgentLog; HandleFunc "GET /api/tasks/{id}/logs" ListTaskPhases;
    HandleFunc "GET /api/tasks/{id}/logs/{phase}" GetTaskLog; HandleFunc "/" Frontend ].

Definition setupRoutes (c : config) : list route :=
  [ HandleFunc "GET /health" Health; HandleFunc "GET /api/health" APIHealth ] ++
  (if authEnabled c then [ HandleFunc "GET /api/auth/token" AuthToken ] else []) ++
  core_routes ++
  (if fleetEnabled c then fleet_routes (tokenCfg c) else []) ++
  view_routes ++
  (if hub c then [ HandleFunc "GET /api/events" SSE ] else []) ++
  (if loomProxy c then [ HandleFunc "/api/loom/" LoomProxy ] else []) ++
  (if termManager c then terminal_routes (termAuth c) else []) ++
  (if gitOps c then git_routes else []) ++
  (if fileOps c then file_routes else []) ++
  last_routes.

(** The chain of [server.go], without the limit of requests. *)
Definition serve_request (c : config) : handler :=
  NewSecurityHeadersMiddleware (HSTSEnabled c)
    (NewAuthMiddleware (mkAuth (apiKey c) (authEnabled c))
      (NewCORSMiddleware url_host (cors c) (mux (setupRoutes c)))).

(** ** Texts and their ends *)
Fixpoint conflicts (a b : string) : bool :=
  match a, b with
  | String x a', String y b' => if bool_decide (x = y) then conflicts a' b' else true
  | _, _ => false
  end.

Lemma conflicts_prefix s a b : conflicts a b = true -> has_prefix s a = true -> has_prefix s b = false /\ s <> b.
Proof.
  intros Hc Ha. apply has_prefix_spec in Ha as [t ->].
  assert (forall q, b +:+ q <> a +:+ t) as H.
  { revert b Hc. induction a as [|x a IH]; intros [|y b] Hc q; try done. rewrite !append_cons. intros [= -> E].
    simpl in Hc. rewrite bool_decide_true in Hc by done. by apply (IH b Hc q). }
  split; [|intros E; by apply (H ""); rewrite append_empty].
  destruct (has_prefix _ b) eqn:E; [|done]. apply has_prefix_spec in E as [q E]. by destruct (H q).
Qed.

Lemma has_suffix_spec s p : has_suffix s p = true <-> exists q, s = q +:+ p.
Proof.
  unfold has_suffix. rewrite andb_true_iff, Nat.leb_le, bool_decide_eq_true. split.
  - intros [H E]. exists (str_take (String.length s - String.length p) s). rewrite <- E at 2. by rewrite str_take_drop.
  - intros [q ->]. rewrite length_append. split; [lia|].
    replace (_ + _ - _)%nat with (String.length q) by lia. apply str_drop_append.
Qed.

(** The last bytes of two texts differ. *)
Definition sconflicts (a b : string) : bool :=
  let n := Nat.min (String.length a) (String.length b) in
  negb (bool_decide (str_drop (String.length a - n) a = str_drop (String.length b - n) b)).

Lemma suffix_end s a n : has_suffix s a = true -> (n <= String.length a)%nat ->
  str_drop (String.length s - n) s = str_drop (String.length a - n) a.
Proof.
  intros H Hn. apply has_suffix_spec in H as [q ->]. rewrite length_append.
  replace (_ + _ - n)%nat with (String.length q + (String.length a - n))%nat by lia.
  by rewrite str_drop_add, str_drop_append.
Qed.

Lemma sconflicts_suffix s a b : sconflicts a b = true -> has_suffix s a = true -> has_suffix s b = false.
Proof.
  intros Hc Ha. destruct (has_suffix s b) eqn:Hb; [|done]. unfold sconflicts in Hc.
  apply negb_true_iff, bool_decide_eq_false in Hc. destruct Hc.
  rewrite <- (suffix_end s a), <- (suffix_end s b) by (done || lia). done.
Qed.

(** ** What a match says of the path *)
Fixpoint pmatch (p : list pseg) (segs : list string) : Prop :=
  match p, segs with
  | [], [] => True
  | [Multi], _ :: _ => True
  | Lit s :: p', x :: segs' => x = s /\ pmatch p' segs'
  | Wild :: p', x :: segs' => x <> "/" /\ pmatch p' segs'
  | _, _ => False
  end.

#[export] Instance pmatch_dec p segs : Decision (pmatch p segs).
Proof.
  revert segs. induction p as [|[s| |] p IH]; intros [|x segs]; simpl; try apply _; destruct p; apply _.
Defined.

Lemma match_path_complete cs p r segs : (p, r) ∈ cs -> pmatch p segs -> is_Some (match_path cs segs).
Proof.
  assert (forall (f : list pseg * route -> option route) cs p r x, f (p, r) = Some x -> (p, r) ∈ cs -> is_Some (head (omap f cs))) as Hh.
  { intros f cs' p' r' x E Hin. destruct (omap f cs') eqn:En; [|done].
    assert (x ∈ omap f cs') as Hx by (apply list_elem_of_omap; eauto). rewrite En in Hx. set_solver. }
  assert (forall q cs p r, (q :: p, r) ∈ cs -> (p, r) ∈ children q cs) as Hc.
  { intros q cs' p' r' Hin. apply list_elem_of_omap. exists (q :: p', r'). split; [done|]. unfold head_is. simpl.
    by rewrite bool_decide_true. }
  revert cs p. induction segs as [|x segs IH]; intros cs p Hin Hm; simpl.
  { destruct p as [|[] [|? ?]]; try done. by eapply (Hh leaf _ []). }
  destruct (match_path (children (Lit x) cs) segs) eqn:E1; [done|].
  destruct p as [|[s| |] p]; [done|..].
  - destruct Hm as [-> Hm]. destruct (IH (children (Lit s) cs) p) as [? E]; [by apply Hc|done|congruence].
  - destruct Hm as [Hx Hm]. rewrite bool_decide_false by done.
    destruct (IH (children Wild cs) p) as [? ->]; [by apply Hc|done|done].
  - destruct p; [|done]. assert (is_Some (head (omap multi cs))) as Hs by (by eapply (Hh multi _ [Multi])).
    case_match; done.
Qed.

Lemma match_path_sound cs segs r : match_path cs segs = Some r -> exists p, (p, r) ∈ cs /\ pmatch p segs.
Proof.
  revert cs r. induction segs as [|s segs IH]; intros cs r; simpl.
  { intros [[p r'] [Hin E]]%head_Some_elem_of%list_elem_of_omap. unfold leaf in E. simpl in E.
    destruct p; [|done]. simplify_eq. by exists []. }
  assert (forall q r, match_path (children q cs) segs = Some r -> exists p, (q :: p, r) ∈ cs /\ pmatch p segs) as Hch.
  { intros q r0 E. apply IH in E as (p & Hin & Hm). exists p. split; [|done].
    apply list_elem_of_omap in Hin as ([[|q' p'] r'] & Hin & E); unfold head_is in E; simpl in E; [done|].
    case_bool_decide; simplify_eq. done. }
  destruct (match_path (children (Lit s) cs) segs) as [r1|] eqn:E1.
  { intros [= <-]. apply Hch in E1 as (p & Hin & Hm). by exists (Lit s :: p). }
  case_bool_decide as Es.
  2: destruct (match_path (children Wild cs) segs) as [r1|] eqn:E2.
  2: { intros [= <-]. apply Hch in E2 as (p & Hin & Hm). by exists (Wild :: p). }
  all: intros [[p r'] [Hin E]]%head_Some_elem_of%list_elem_of_omap; unfold multi in E; simpl in E;
    destruct p as [|[] []]; simplify_eq; by exists [Multi].
Qed.

Lemma match_route_sound rs m segs r : match_route rs m segs = Some r ->
  r ∈ rs /\ pmatch (rt_pat r) segs /\ (rt_method r = Some m \/ m = "HEAD" /\ rt_method r = Some "GET" \/ rt_method r = None).
Proof.
  assert (forall o r, match_path (of_method o rs) segs = Some r -> r ∈ rs /\ pmatch (rt_pat r) segs /\ rt_method r = o) as H.
  { intros o r0 E. apply match_path_sound in E as (p & Hin & Hm). unfold of_method in Hin.
    apply list_elem_of_omap in Hin as (r' & Hin & E). case_bool_decide; simplify_eq. done. }
  unfold match_route. destruct (match_path (of_method (Some m) rs) segs) eqn:E1.
  { intros [= <-]. apply H in E1. naive_solver. }
  case_bool_decide as Em.
  1: destruct (match_path (of_method (Some "GET") rs) segs) eqn:E2.
  1: { intros [= <-]. apply H in E2. naive_solver. }
  all: intros E; apply H in E; naive_solver.
Qed.

(** The path begins with the pattern's literals and ends in its last one. *)
Fixpoint lit_prefix (p : list pseg) : string :=
  match p with Lit s :: p' => "/" +:+ s +:+ lit_prefix p' | _ :: _ => "/" | [] => "" end.
Fixpoint lits_ok (p : list pseg) : bool :=
  match p with Lit s :: p' => negb (bool_decide (s = "/")) && lits_ok p' | _ :: p' => lits_ok p' | [] => true end.

Lemma lits_ok_last q s : lits_ok (q ++ [Lit s]) = true -> s <> "/".
Proof.
  induction q as [|[] q IH]; simpl; [|rewrite andb_true_iff; by intros [_ H]; apply IH|done..].
  rewrite andb_true_r, negb_true_iff. by intros H%bool_decide_eq_false.
Qed.

Lemma pmatch_prefix p segs slash : lits_ok p = true -> pmatch p (segs ++ if slash : bool then ["/"] else []) ->
  has_prefix (path_of segs slash) (lit_prefix p) = true.
Proof.
  intros Hok Hm. apply has_prefix_spec. revert segs Hm.
  induction p as [|[s| |] p IH]; intros segs Hm; cbn [lit_prefix]; [eexists; reflexivity|..].
  - simpl in Hok. apply andb_true_iff in Hok as [Hs Hok]. apply negb_true_iff, bool_decide_eq_false in Hs.
    destruct segs as [|x segs]; [destruct slash; naive_solver|]. destruct Hm as [-> Hm].
    destruct (IH Hok segs Hm) as [t Ht]. exists t. cbn [path_of]. by rewrite Ht, !append_assoc.
  - destruct segs as [|x segs]; [destruct slash; naive_solver|]. cbn [path_of]. eexists. reflexivity.
  - destruct segs as [|x segs]; cbn [path_of]; [|eexists; reflexivity].
    destruct slash; [exists ""; by rewrite append_empty|]. simpl in Hm. by destruct p.
Qed.

Lemma pmatch_suffix p s segs slash : s <> "/" -> pmatch (p ++ [Lit s]) (segs ++ if slash : bool then ["/"] else []) ->
  has_suffix (path_of segs slash) ("/" +:+ s) = true.
Proof.
  intros Hs Hm. apply has_suffix_spec. revert segs Hm. induction p as [|q p IH]; intros segs Hm.
  - destruct segs as [|x segs]; [destruct slash; naive_solver|]. destruct Hm as [-> Hm].
    destruct segs as [|x segs]; [|done]. destruct slash; [done|]. exists "". simpl. by rewrite append_empty.
  - destruct segs as [|x segs].
    { destruct slash, q, p as [|[] ?]; simpl in Hm; try destruct (p ++ [Lit s]); naive_solver. }
    assert (pmatch (p ++ [Lit s]) (segs ++ if slash : bool then ["/"] else [])) as Hm'.
    { destruct q; simpl in Hm; [apply Hm|apply Hm|by destruct p]. }
    destruct (IH segs Hm') as [t Ht]. exists ("/" +:+ x +:+ t). cbn [path_of]. by rewrite Ht, !append_assoc.
Qed.

(** ** Routes that no public path leads to *)
Definition exact_public : list string := ["/health"; "/api/health"; "/api/auth/token"; "/api/terminal/ws"].

Definition private_paths (p : list pseg) : bool :=
  let l := lit_prefix p in
  lits_ok p && conflicts l "/api/fleet/" && has_prefix l "/api/" && forallb (conflicts l) exact_public &&
  (conflicts l "/api/agents/" ||
   match last p with Some (Lit s) => sconflicts ("/" +:+ s) "/terminal/ws" | _ => false end).

Definition closed_route (rt : route) : bool :=
  match rt_method rt with
  | None => false
  | Some m =>
      private_paths (rt_pat rt) ||
      lits_ok (rt_pat rt) && conflicts (lit_prefix (rt_pat rt)) "/api/fleet/" && negb (bool_decide (m = "GET"))
  end.

Lemma private_paths_not_public p m segs slash :
  private_paths p = true -> pmatch p (segs ++ if slash : bool then ["/"] else []) ->
  isPublicRoute m (path_of segs slash) = false.
Proof.
  unfold private_paths. rewrite !andb_true_iff. intros [[[[Hl Hf] Ha] He] Hag] Hm.
  pose proof (pmatch_prefix _ _ _ Hl Hm) as Hp.
  unfold isPublicRoute. destruct (conflicts_prefix _ _ _ Hf Hp) as [-> _].
  case_bool_decide as Eget; [cbn [negb]|done].
  assert (Forall (fun s => path_of segs slash <> s) exact_public) as Hne.
  { apply Forall_forall. intros s Hs. eapply conflicts_prefix; [|exact Hp].
    rewrite forallb_forall in He. apply He. by apply list_elem_of_In. }
  unfold exact_public in Hne. rewrite !Forall_cons in Hne. destruct Hne as (? & ? & ? & ? & _).
  rewrite !bool_decide_false by done.
  assert (has_prefix (path_of segs slash) "/api/" = true) as ->.
  { apply has_prefix_spec in Hp as [t ->], Ha as [u ->]. apply has_prefix_spec. eexists. by rewrite append_assoc. }
  cbn [negb]. apply orb_true_iff in Hag as [Hag|Hag]; [by destruct (conflicts_prefix _ _ _ Hag Hp) as [-> _]|].
  destruct (last p) as [[s| |]|] eqn:El; try done.
  apply last_Some in El as [q Eq]. rewrite (sconflicts_suffix _ _ _ Hag); [by rewrite andb_false_r|].
  rewrite Eq in Hm, Hl. by apply (pmatch_suffix q); [eapply lits_ok_last|].
Qed.

Lemma closed_route_private rt m segs slash :
  closed_route rt = true -> pmatch (rt_pat rt) (segs ++ if slash : bool then ["/"] else []) ->
  rt_method rt = Some m \/ m = "HEAD" /\ rt_method rt = Some "GET" \/ rt_method rt = None ->
  isPublicRoute m (path_of segs slash) = false.
Proof.
  unfold closed_route. intros H Hm Hmeth. destruct (rt_method rt) as [m'|]; [|done].
  apply orb_true_iff in H as [H|H]; [by apply (private_paths_not_public (rt_pat rt))|].
  apply andb_true_iff in H as [[Hl Hf]%andb_true_iff Hg]. apply negb_true_iff, bool_decide_eq_false in Hg.
  unfold isPublicRoute. destruct (conflicts_prefix _ _ _ Hf (pmatch_prefix _ _ _ Hl Hm)) as [-> _].
  rewrite bool_decide_false by naive_solver. done.
Qed.

(** ** What can be reached without credentials *)
Definition workers_key (c : config) : option string :=
  match tokenCfg c with Some key => if bool_decide (key = "") then None else Some key | None => None end.

Definition open_endpoints (c : config) : list endpoint :=
  [Health; APIHealth; AuthToken; Frontend] ++
  (if termManager c then [TerminalWS; AgentTerminalWS] else []) ++
  (if fleetEnabled c
   then FleetRegister :: FleetDone :: match workers_key c with None => [FleetClaim; FleetHeartbeat] | Some _ => [] end
   else []) ++
  (if loomProxy c && negb (CORSEnabled (cors c)) then [LoomProxy] else []).

(** Neither the key of the server nor a worker's token. *)
Definition no_credentials (c : config) (r : request) : Prop :=
  (extractToken r = "" \/ extractToken r <> apiKey c) /\
  forall key t, workers_key c = Some key -> bearer (rq_Header r "Authorization") = Some t -> t <> "" ->
    exists e, ValidateWorkerToken t key = Err e.

(** Every route is open, asks for a worker's token, or is not public. *)
Definition route_ok (c : config) (rt : route) : bool :=
  bool_decide (rt_endpoint rt ∈ [Health; APIHealth; AuthToken; Frontend]) ||
  bool_decide (rt_endpoint rt ∈ [TerminalWS; AgentTerminalWS]) && termManager c ||
  bool_decide (rt_endpoint rt ∈ [FleetRegister; FleetDone]) && fleetEnabled c ||
  bool_decide (rt_endpoint rt ∈ [FleetClaim; FleetHeartbeat]) && fleetEnabled c &&
    bool_decide (rt_auth rt = workers_key c) ||
  bool_decide (rt_endpoint rt = LoomProxy) && private_paths (rt_pat rt) && loomProxy c ||
  closed_route rt && negb (bool_decide (rt_method rt = Some "OPTIONS")).

Lemma routes_ok c : forallb (route_ok c) (setupRoutes c) = true.
Proof.
  unfold setupRoutes. rewrite !forallb_app, !andb_true_iff.
  destruct c as [ae key co hsts hb lp tm ta fe tk go fo]. cbn [authEnabled apiKey cors hub loomProxy termManager termAuth fleetEnabled tokenCfg gitOps fileOps].
  split_and!; try lazymatch goal with |- forallb _ (if _ then _ else _) = true => fail | |- _ => vm_compute; reflexivity end.
  - destruct ae; vm_compute; reflexivity.
  - destruct fe; [|done]. unfold fleet_routes, fleet_handle. destruct tk as [k|]; [|vm_compute; reflexivity].
    destruct (bool_decide_reflect (k = "")) as [->|Hk]; [vm_compute; reflexivity|]. cbn [negb forallb].
    rewrite !andb_true_iff. split_and!; [vm_compute; reflexivity| |vm_compute; reflexivity| |done];
      unfold route_ok, workers_key; cbn [tokenCfg]; rewrite (bool_decide_false (k = "")) by done;
      change (rt_auth (HandleAuth k _ _)) with (Some k); rewrite (bool_decide_true (Some k = Some k)) by done; vm_compute; reflexivity.
  - destruct hb; vm_compute; reflexivity.
  - destruct lp; vm_compute; reflexivity.
  - destruct tm; [|done]. destruct ta; vm_compute; reflexivity.
  - destruct go; vm_compute; reflexivity.
  - destruct fo; vm_compute; reflexivity.
Qed.

(** A request that the router hands to a handler, and why. *)
Definition routed (c : config) (r : request) (rt : route) (claims : option WorkerClaims) : Prop :=
  rt ∈ setupRoutes c /\ pmatch (rt_pat rt) (mux_segs r) /\
  (rt_method rt = Some (rq_Method r) \/ rq_Method r = "HEAD" /\ rt_method rt = Some "GET" \/ rt_method rt = None) /\
  forall key, rt_auth rt = Some key -> exists t cl, key <> "" /\
    bearer (rq_Header r "Authorization") = Some t /\ t <> "" /\ ValidateWorkerToken t key = Ok cl /\ claims = Some cl.

Lemma mux_serves c r h e claims h' :
  mux (setupRoutes c) r h = Serve e claims h' -> exists rt, rt_endpoint rt = e /\ routed c r rt claims.
Proof.
  unfold mux. destruct (match_route _ _ _) as [rt|] eqn:E; cbv zeta; repeat (case_match; [done|]); [|done].
  apply match_route_sound in E as (Hin & Hm & Hmeth). unfold run_route, NewFleetAuthMiddleware. intros Hs.
  exists rt. unfold routed. destruct (rt_auth rt) as [key|].
  - repeat case_match; simplify_eq; try done. split_and!; try done. intros ? [= <-].
    do 2 eexists. repeat match goal with E : bool_decide _ = false |- _ => apply bool_decide_eq_false in E end. done.
  - by simplify_eq.
Qed.

Lemma cors_serves c r next h e claims h' :
  NewCORSMiddleware url_host (cors c) next r h = Serve e claims h' ->
  (rq_Method r = "OPTIONS" -> CORSEnabled (cors c) = false) /\ exists h1, next r h1 = Serve e claims h'.
Proof.
  unfold NewCORSMiddleware. destruct (CORSEnabled (cors c)); cbn [negb]; [|eauto].
  repeat (case_bool_decide || case_match); try done; intros Hn; (split; [by intros|eauto]).
Qed.

(** A request that the chain hands to a handler: what it shows. *)
Lemma serve_cases c r hs e claims hs' :
  authEnabled c = true -> serve_request c r hs = Serve e claims hs' ->
  (exists rt, rt_endpoint rt = e /\ routed c r rt claims) /\ (rq_Method r = "OPTIONS" -> CORSEnabled (cors c) = false) /\
  (rq_Method r = "OPTIONS" \/ isPublicRoute (rq_Method r) (rq_Path r) = true \/
   extractToken r <> "" /\ extractToken r = apiKey c).
Proof.
  intros Ha. unfold serve_request, NewSecurityHeadersMiddleware, NewAuthMiddleware. cbv zeta.
  set (hs1 := if HSTSEnabled c then _ else _). clearbody hs1. cbn [Enabled APIKey]. rewrite Ha. cbn [negb].
  assert (forall h, NewCORSMiddleware url_host (cors c) (mux (setupRoutes c)) r h = Serve e claims hs' ->
    (exists rt, rt_endpoint rt = e /\ routed c r rt claims) /\ (rq_Method r = "OPTIONS" -> CORSEnabled (cors c) = false)) as H.
  { intros h Hc. apply cors_serves in Hc as (? & h1 & Hm). apply mux_serves in Hm. done. }
  repeat (case_bool_decide || case_match); try done; intros Hc; apply H in Hc; naive_solver.
Qed.

(** An open route, or a request with credentials. *)
Lemma route_open c r rt claims :
  no_credentials c r -> route_ok c rt = true -> routed c r rt claims ->
  (rq_Method r = "OPTIONS" -> CORSEnabled (cors c) = false) ->
  rq_Method r = "OPTIONS" \/ isPublicRoute (rq_Method r) (rq_Path r) = true \/ extractToken r <> "" /\ extractToken r = apiKey c ->
  rt_endpoint rt ∈ open_endpoints c.
Proof.
  intros [Hkey Htok] Hok (Hin & Hm & Hmeth & Hauth) Ho Hpub.
  unfold route_ok, open_endpoints, mux_segs, rq_Path in *. rewrite !orb_true_iff, !andb_true_iff, !bool_decide_eq_true in Hok.
  rewrite !elem_of_app.
  destruct Hok as [[[[[Hok|[Hok ->]]|[Hok ->]]|[[Hok ->] Hk]]|[[-> Hp] ->]]|[Hc Hno]]; [by left|by right; left|..].
  - right; right; left. apply elem_of_cons in Hok as [->|[->|[]%elem_of_nil]%elem_of_cons]; [by left|right; by left].
  - right; right; left. destruct (workers_key c) as [key|] eqn:Ek; [|by do 2 right].
    destruct (Hauth key Hk) as (t & cl & Hne & Hb & Ht & Hv & _).
    destruct (Htok key t) as [err Herr]; congruence.
  - destruct Hpub as [Hpub|[Hpub|[? ?]]]; [|by rewrite (private_paths_not_public _ _ _ _ Hp Hm) in Hpub|naive_solver].
    rewrite (Ho Hpub). do 3 right. by left.
  - destruct Hpub as [Hpub|[Hpub|[? ?]]]; [|by rewrite (closed_route_private _ _ _ _ Hc Hm Hmeth) in Hpub|naive_solver].
    apply negb_true_iff, bool_decide_eq_false in Hno. unfold closed_route in Hc. rewrite Hpub in Hmeth.
    destruct (rt_method rt); naive_solver.
Qed.

(** ** The open ones are reached by a bare request *)
Definition bare (method : string) (segs : list string) (slash : bool) : request :=
  mkReq method segs slash true "localhost:8080" (fun _ => "") (fun _ => "").

Lemma bare_no_credentials c m segs slash : no_credentials c (bare m segs slash).
Proof. split; [by left|]. intros key t _ [=]. Qed.

Lemma bare_served c m segs slash rt :
  authEnabled c = true -> (m = "OPTIONS" -> CORSEnabled (cors c) = false) ->
  m = "OPTIONS" \/ isPublicRoute m (path_of segs slash) = true ->
  match_route (setupRoutes c) m (segs ++ if slash then ["/"] else []) = Some rt -> rt_auth rt = None ->
  slash = true \/ last (rt_pat rt) <> Some Multi ->
  exists hs, serve_request c (bare m segs slash) ∅ = Serve (rt_endpoint rt) None hs.
Proof.
  intros Ha Ho Hp Hm Hauth Hl. unfold serve_request, NewSecurityHeadersMiddleware, NewAuthMiddleware. cbv zeta.
  set (hs1 := if HSTSEnabled c then _ else _). clearbody hs1. cbn [Enabled APIKey]. rewrite Ha. cbn [negb].
  assert (forall h, exists hs, NewCORSMiddleware url_host (cors c) (mux (setupRoutes c)) (bare m segs slash) h =
    Serve (rt_endpoint rt) None hs) as H.
  { intros h. assert (forall h, mux (setupRoutes c) (bare m segs slash) h = Serve (rt_endpoint rt) None h) as Hmux.
    { intros h'. unfold mux, mux_segs. cbn [rq_Method rq_segs rq_slash rq_canonical bare]. rewrite Hm. cbv zeta.
      assert (negb (exact_match (Some rt) (segs ++ if slash then ["/"] else []) slash) && negb slash = false) as ->.
      { destruct Hl as [->|Hl]; [by rewrite andb_false_r|]. cbn [exact_match]. by rewrite bool_decide_false. }
      cbn [negb andb]. unfold run_route. by rewrite Hauth. }
    unfold NewCORSMiddleware. destruct (CORSEnabled (cors c)); cbn [negb]; [|eauto].
    cbn [rq_Method bare rq_Header]. case_bool_decide; [by apply Ho in H|]. rewrite bool_decide_true by done. eauto. }
  cbn [rq_Method bare]. unfold rq_Path. cbn [rq_segs rq_slash bare]. case_bool_decide; [apply H|].
  destruct Hp as [?| ->]; [done|apply H].
Qed.

(** The only routes of a method that match are those of one endpoint. *)
Definition only (m : string) (segs : list string) (e : endpoint) (rt : route) : bool :=
  negb (bool_decide (rt_method rt = Some m)) || negb (bool_decide (pmatch (rt_pat rt) segs)) ||
  bool_decide (rt_endpoint rt = e /\ rt_auth rt = None /\ last (rt_pat rt) <> Some Multi).

Lemma bare_reaches c m segs rt0 :
  authEnabled c = true -> m <> "OPTIONS" -> isPublicRoute m (path_of segs false) = true ->
  rt0 ∈ setupRoutes c -> rt_method rt0 = Some m -> pmatch (rt_pat rt0) segs ->
  forallb (only m segs (rt_endpoint rt0)) (setupRoutes c) = true ->
  exists r claims hs, no_credentials c r /\ serve_request c r ∅ = Serve (rt_endpoint rt0) claims hs.
Proof.
  intros Ha Ho Hp Hin Hmeth Hm Hall. exists (bare m segs false), None.
  assert (is_Some (match_path (of_method (Some m) (setupRoutes c)) segs)) as [rt Ert].
  { apply (match_path_complete _ (rt_pat rt0) rt0); [|done]. apply list_elem_of_omap. exists rt0. split; [done|].
    by rewrite bool_decide_true. }
  assert (match_route (setupRoutes c) m segs = Some rt) as Er by (unfold match_route; by rewrite Ert).
  assert (rt_endpoint rt = rt_endpoint rt0 /\ rt_auth rt = None /\ last (rt_pat rt) <> Some Multi) as (<- & Hau & Hl).
  { apply match_path_sound in Ert as (p & Hin' & Hm'). apply list_elem_of_omap in Hin' as (r' & Hin' & E).
    case_bool_decide; simplify_eq. rewrite forallb_forall in Hall.
    specialize (Hall rt (proj1 (list_elem_of_In _ _) Hin')). unfold only in Hall.
    rewrite bool_decide_true in Hall by done. rewrite (bool_decide_true (pmatch _ _)) in Hall by done.
    by apply bool_decide_eq_true in Hall. }
  destruct (bare_served c m segs false rt) as [hs Hs]; [done..|by right|by rewrite app_nil_r|done|by right|].
  exists hs. split; [apply bare_no_credentials|done].
Qed.

(** A boolean holds of every route, list by list. *)
Lemma forallb_routes f c :
  forallb f [ HandleFunc "GET /health" Health; HandleFunc "GET /api/health" APIHealth ] = true ->
  (forall b : bool, forallb f (if b then [ HandleFunc "GET /api/auth/token" AuthToken ] else []) = true) ->
  forallb f core_routes = true -> (fleetEnabled c = true -> forallb f (fleet_routes (tokenCfg c)) = true) ->
  forallb f view_routes = true -> (forall b : bool, forallb f (if b then [ HandleFunc "GET /api/events" SSE ] else []) = true) ->
  (forall b : bool, forallb f (if b then [ HandleFunc "/api/loom/" LoomProxy ] else []) = true) ->
  (forall b b' : bool, forallb f (if b then terminal_routes b' else []) = true) ->
  (forall b : bool, forallb f (if b then git_routes else []) = true) ->
  (forall b : bool, forallb f (if b then file_routes else []) = true) -> forallb f last_routes = true ->
  forallb f (setupRoutes c) = true.
Proof.
  intros. unfold setupRoutes. rewrite !forallb_app, !andb_true_iff. split_and!; auto. destruct (fleetEnabled c); auto.
Qed.

Ltac each_route :=
  apply forallb_routes; repeat match goal with |- forall _ : bool, _ => intros [] end; try (vm_compute; reflexivity);
  intros _; unfold fleet_routes, fleet_handle;
  first [ match goal with H : tokenCfg ?c = _ |- _ => rewrite H end; vm_compute; reflexivity
        | destruct (tokenCfg _) as [k|]; [destruct (bool_decide (k = ""))|]; vm_compute; reflexivity ].
Ltac reach m segs rt := apply (bare_reaches _ m segs rt);
  [done|done|vm_compute; reflexivity|unfold setupRoutes; rewrite !elem_of_app|done|vm_compute; tauto|each_route].

Definition reached (c : config) (e : endpoint) : Prop :=
  exists r claims hs, no_credentials c r /\ serve_request c r ∅ = Serve e claims hs.

Lemma core_reached c e : authEnabled c = true -> e ∈ [Health; APIHealth; AuthToken] -> reached c e.
Proof.
  intros Ha He. repeat apply elem_of_cons in He as [->|He].
  - reach "GET" ["health"] (HandleFunc "GET /health" Health). left. by left.
  - reach "GET" ["api"; "health"] (HandleFunc "GET /api/health" APIHealth). left. right. by left.
  - reach "GET" ["api"; "auth"; "token"] (HandleFunc "GET /api/auth/token" AuthToken). right; left. rewrite Ha. by left.
  - by apply elem_of_nil in He.
Qed.

Lemma terminals_reached c e :
  authEnabled c = true -> e ∈ (if termManager c then [TerminalWS; AgentTerminalWS] else []) -> reached c e.
Proof.
  intros Ha He. destruct (termManager c) eqn:Et; [|by apply elem_of_nil in He].
  assert (forall rt, rt ∈ terminal_routes (termAuth c) -> rt ∈ setupRoutes c) as Hin.
  { intros rt H. unfold setupRoutes. rewrite !elem_of_app, Et. tauto. }
  repeat apply elem_of_cons in He as [->|He]; [..|by apply elem_of_nil in He].
  - apply (bare_reaches c "GET" ["api"; "terminal"; "ws"] (HandleFunc "GET /api/terminal/ws" TerminalWS));
      [done|done|vm_compute; reflexivity|apply Hin; unfold terminal_routes; rewrite elem_of_cons, elem_of_app; do 2 right; by left
      |done|vm_compute; tauto|each_route].
  - apply (bare_reaches c "GET" ["api"; "agents"; "cobalt"; "terminal"; "ws"] (HandleFunc "GET /api/agents/{name}/terminal/ws" AgentTerminalWS));
      [done|done|vm_compute; reflexivity
      |apply Hin; unfold terminal_routes; rewrite elem_of_cons, elem_of_app; do 2 right; right; by left
      |done|vm_compute; naive_solver|each_route].
Qed.

Lemma fleet_reached c e :
  authEnabled c = true -> fleetEnabled c = true ->
  e ∈ FleetRegister :: FleetDone :: match workers_key c with None => [FleetClaim; FleetHeartbeat] | Some _ => [] end -> reached c e.
Proof.
  intros Ha Hf He.
  assert (forall rt, rt ∈ fleet_routes (tokenCfg c) -> rt ∈ setupRoutes c) as Hin.
  { intros rt H. unfold setupRoutes. rewrite !elem_of_app, Hf. tauto. }
  apply elem_of_cons in He as [->|[->|He]%elem_of_cons].
  - apply (bare_reaches c "POST" ["api"; "fleet"; "register"] (HandleFunc "POST /api/fleet/register" FleetRegister));
      [done|done|vm_compute; reflexivity|apply Hin; by left|done|vm_compute; tauto|each_route].
  - apply (bare_reaches c "POST" ["api"; "fleet"; "done"; "w1"] (HandleFunc "POST /api/fleet/done/{id}" FleetDone));
      [done|done|vm_compute; reflexivity|apply Hin; do 2 right; by left|done|vm_compute; naive_solver|each_route].
  - assert (workers_key c = None) as Hk by (destruct (workers_key c); [by apply elem_of_nil in He|done]). rewrite Hk in He.
    assert (tokenCfg c = None \/ tokenCfg c = Some "") as Ht.
    { unfold workers_key in Hk. destruct (tokenCfg c) as [k|]; [|by left]. right. by destruct (bool_decide_reflect (k = "")); subst. }
    apply elem_of_cons in He as [->|[->|He]%elem_of_cons]; [..|by apply elem_of_nil in He].
    + apply (bare_reaches c "POST" ["api"; "fleet"; "claim"] (HandleFunc "POST /api/fleet/claim" FleetClaim));
        [done|done|vm_compute; reflexivity|apply Hin; right; destruct Ht as [-> | ->]; by left|done|vm_compute; tauto|destruct Ht; each_route].
    + apply (bare_reaches c "POST" ["api"; "fleet"; "heartbeat"] (HandleFunc "POST /api/fleet/heartbeat" FleetHeartbeat));
        [done|done|vm_compute; reflexivity|apply Hin; do 3 right; destruct Ht as [-> | ->]; by left|done|vm_compute; tauto|destruct Ht; each_route].
Qed.
(** No route of the method matches, so those without a method are asked. *)
Lemma match_no_method c m segs :
  m <> "HEAD" -> forallb (fun rt => negb (bool_decide (rt_method rt = Some m)) || negb (bool_decide (pmatch (rt_pat rt) segs))) (setupRoutes c) = true ->
  match_route (setupRoutes c) m segs = match_path (of_method None (setupRoutes c)) segs.
Proof.
  intros Hm Hall. unfold match_route. rewrite (bool_decide_false (m = "HEAD")) by done.
  destruct (match_path (of_method (Some m) (setupRoutes c)) segs) as [rt|] eqn:E; [|done].
  apply match_path_sound in E as (p & Hin & Hp). apply list_elem_of_omap in Hin as (r' & Hin & E).
  case_bool_decide; simplify_eq. rewrite forallb_forall in Hall.
  specialize (Hall rt (proj1 (list_elem_of_In _ _) Hin)). cbv beta in Hall.
  by rewrite bool_decide_true, bool_decide_true in Hall by done.
Qed.

Lemma no_method_routes c :
  of_method None (setupRoutes c) =
  (if loomProxy c then [([Lit "api"; Lit "loom"; Multi], HandleFunc "/api/loom/" LoomProxy)] else []) ++
  [([Multi], HandleFunc "/" Frontend)].
Proof.
  unfold setupRoutes, of_method. rewrite !omap_app. set (f := fun r => _).
  assert (omap f [HandleFunc "GET /health" Health; HandleFunc "GET /api/health" APIHealth] = []) as -> by (vm_compute; reflexivity).
  assert (omap f core_routes = []) as -> by (vm_compute; reflexivity).
  assert (omap f view_routes = []) as -> by (vm_compute; reflexivity).
  assert (omap f last_routes = [([Multi], HandleFunc "/" Frontend)]) as -> by (vm_compute; reflexivity).
  assert (forall b l, omap f l = [] -> omap f (if b : bool then l else []) = []) as Hif by (by intros []).
  assert (forall t, omap f (terminal_routes t) = []) as Ht by (intros []; vm_compute; reflexivity).
  assert (forall t, omap f (fleet_routes t) = []) as Hfl.
  { intros [k|]; [unfold fleet_routes, fleet_handle; destruct (bool_decide (k = ""))|]; vm_compute; reflexivity. }
  assert (omap f (if loomProxy c then [HandleFunc "/api/loom/" LoomProxy] else []) =
    if loomProxy c then [([Lit "api"; Lit "loom"; Multi], HandleFunc "/api/loom/" LoomProxy)] else []) as ->
    by (destruct (loomProxy c); vm_compute; reflexivity).
  repeat (rewrite Hif; [|first [apply Ht|apply Hfl|vm_compute; reflexivity]]). done.
Qed.

Lemma page_reached c : authEnabled c = true -> reached c Frontend.
Proof.
  intros Ha. exists (bare "GET" [] true), None. destruct (bare_served c "GET" [] true (HandleFunc "/" Frontend)) as [hs Hs];
    [done|done|by right| |done|by left|exists hs; split; [apply bare_no_credentials|done]].
  rewrite match_no_method; [|done|each_route]. rewrite no_method_routes. by destruct (loomProxy c).
Qed.

Lemma proxy_reached c : authEnabled c = true -> loomProxy c = true -> CORSEnabled (cors c) = false -> reached c LoomProxy.
Proof.
  intros Ha Hl Hc. exists (bare "OPTIONS" ["api"; "loom"] true), None.
  destruct (bare_served c "OPTIONS" ["api"; "loom"] true (HandleFunc "/api/loom/" LoomProxy)) as [hs Hs];
    [done|done|by left| |done|by left|exists hs; split; [apply bare_no_credentials|done]].
  rewrite match_no_method; [|done|each_route]. by rewrite no_method_routes, Hl.
Qed.

(** C26. With authentication on, the handlers that a request without credentials can
    reach are exactly the open ones: health, the page and its key, the terminals'
    own sockets, the fleet's registration and completion of tasks, and, where the
    server has no key for the workers' tokens, the fleet's claims and heartbeats
    too; and the proxy, when other origins are not looked at. *)
Theorem open_endpoints_exact c e :
  authEnabled c = true ->
  (e ∈ open_endpoints c <->
   exists r claims hs, no_credentials c r /\ serve_request c r ∅ = Serve e claims hs).
Proof.
  intros Ha. split.
  - unfold open_endpoints. rewrite !elem_of_app. intros [He|[He|[He|He]]].
    + destruct (decide (e = Frontend)) as [->|Hn]; [by apply page_reached|].
      apply core_reached; [done|]. repeat apply elem_of_cons in He as [->|He]; try done; [by left|right; by left|do 2 right; by left|by apply elem_of_nil in He].
    + by apply terminals_reached.
    + destruct (fleetEnabled c) eqn:Ef; [by apply fleet_reached|by apply elem_of_nil in He].
    + destruct (loomProxy c) eqn:El, (CORSEnabled (cors c)) eqn:Ec; try by apply elem_of_nil in He.
      apply elem_of_cons in He as [->|He]; [by apply proxy_reached|by apply elem_of_nil in He].
  - intros (r & claims & hs & Hnc & Hs).
    apply serve_cases in Hs as ((rt & <- & Hr) & Ho & Hpub); [|done].
    pose proof (routes_ok c) as Hok. rewrite forallb_forall in Hok. specialize (Hok rt (proj1 (list_elem_of_In _ _) (proj1 Hr))).
    by apply (route_open c r rt claims).
Qed.

(** Once the server has a key it keeps it: whatever happens at a later start, the
    key is read back from the file. *)
Lemma hex_byte_plain (x : Byte.byte) :
  is_space (hex_digit (N.to_nat (Byte.to_N x) / 16)) = false /\ is_space (hex_digit (N.to_nat (Byte.to_N x) mod 16)) = false.
Proof. destruct x; vm_compute; split; reflexivity. Qed.

Lemma hex_encode_plain b : no_space (hex_encode b) = true /\ (b <> [] -> hex_encode b <> "").
Proof.
  split; [|by destruct b]. induction b as [|x b IH]; [done|]. cbn [hex_encode no_space].
  destruct (hex_byte_plain x) as [-> ->]. done.
Qed.

Theorem api_key_stable path dir b m w file key file' :
  b <> [] -> LoadOrCreateAPIKey path dir (Ok b) m w file = (Ok key, file') ->
  key <> "" /\ forall dir' rand' m' w', LoadOrCreateAPIKey path dir' rand' m' w' file' = (Ok key, file').
Proof.
  intros Hb. assert (forall k f, TrimSpace (default "" f) = k -> k <> "" ->
    k <> "" /\ forall dir' rand' m' w', LoadOrCreateAPIKey path dir' rand' m' w' f = (Ok k, f)) as Hread.
  { intros k f <- Hk. split; [done|]. intros. unfold LoadOrCreateAPIKey. cbv zeta. by rewrite bool_decide_false. }
  destruct (hex_encode_plain b) as [Hp Hne]. unfold LoadOrCreateAPIKey at 1. cbv zeta.
  destruct (bool_decide_reflect (TrimSpace (default "" file) = "")) as [E|E]; cbn [negb].
  - unfold GenerateAPIKey. destruct m; [done|]. destruct w; [done|]. intros [= <- <-].
    apply Hread; [|by apply Hne]. cbn [default]. by apply TrimSpace_line.
  - intros [= <- <-]. by apply Hread.
Qed.

(** A page of another origin: with the check on, its requests are answered
    before the router, except those of the origins listed; a request that is
    served carries the headers that let the page read the answer exactly when its
    origin is listed. *)
Theorem other_origins_refused c r h e claims h' :
  CORSEnabled (cors c) = true -> NewCORSMiddleware url_host (cors c) (mux (setupRoutes c)) r h = Serve e claims h' ->
  let origin := rq_Header r "Origin" in
  let listed := allowed (cors c) (TrimSuffix origin "/") in
  rq_Method r <> "OPTIONS" /\
  (origin = "" \/ origin <> "null" /\ (isSameOrigin url_host (TrimSuffix origin "/") (rq_Host r) = true \/ listed = true)) /\
  (origin <> "" -> h !! "Access-Control-Allow-Origin" = None ->
   (h' !! "Access-Control-Allow-Origin" = Some [origin] <-> listed = true)).
Proof.
  intros Hc. assert (forall h1, mux (setupRoutes c) r h1 = Serve e claims h' -> h' = h1) as Hmux.
  { intros h1. unfold mux, run_route, NewFleetAuthMiddleware, writeFleetAuthError, respondJSON. cbv zeta.
    repeat case_match; intros ?; simplify_eq; done. }
  unfold NewCORSMiddleware. rewrite Hc. cbn [negb]. cbv zeta.
  destruct (bool_decide_reflect (rq_Method r = "OPTIONS")); [by case_match|].
  destruct (bool_decide_reflect (rq_Header r "Origin" = "")) as [E|E]; [intros Hs; split_and!; [done|by left|done]|].
  destruct (bool_decide_reflect (rq_Header r "Origin" = "null")); [done|].
  destruct (isSameOrigin _ _ _) eqn:Es, (allowed _ _) eqn:El; cbn [negb andb]; try done; intros ->%Hmux;
    (split_and!; [done|right; tauto|intros _ Hh]); unfold cors_headers, Set_, Add.
  - split; [done|intros _]. rewrite !lookup_insert_ne by done. by rewrite lookup_insert_eq.
  - rewrite !lookup_insert_ne by done. rewrite Hh. done.
  - split; [done|intros _]. rewrite !lookup_insert_ne by done. by rewrite lookup_insert_eq.
Qed.
End server.

(** ** Witness: a server with a fleet that has no key for tokens *)
Definition demo_config : config := mkConfig true "k" (mkCORS true []) false true true true true true None true true.
Definition no_jwt : string -> (signing_method -> res string) -> res (WorkerClaims * bool) := fun _ _ => Err (Msg "malformed token").
Definition demo_host : string -> option string := fun _ => None.

Lemma open_endpoints_exact_witness :
  authEnabled demo_config = true /\
  exists r claims hs, no_credentials no_jwt demo_config r /\ serve_request demo_host no_jwt demo_config r ∅ = Serve FleetClaim claims hs.
Proof.
  split; [done|]. apply (open_endpoints_exact demo_host no_jwt demo_config FleetClaim); [done|].
  unfold open_endpoints. rewrite !elem_of_app. right; right; left. do 2 right. by left.
Defined.
End WebAuth.
