(* ===== verification/Terminal.v ===== *)
(** * Terminal: terminals in the browser, [internal/webui/terminal_auth.go],
    [terminal.go], [handlers_terminal.go], [handlers_agent_terminal.go] and
    [handlers_terminal_sessions.go]

    One-time tokens, the sessions of tmux that connections attach to, the relay's
    messages and the handlers up to the connection. HMAC, base64, JSON and tmux
    are parameters. *)
From S2P Require Import Prelude Scanner Paths.
Local Open Scope Z_scope.
Local Open Scope go_scope.

(** ** One-time tokens *)
Module Tokens.

(** What the code relies on of [base64.RawURLEncoding]: what was encoded is
    decoded to itself, and its text has no dot. *)
Class Base64 := {
  EncodeToString : string -> string;
  DecodeString : string -> option string;
  decode_encode64 : forall s, DecodeString (EncodeToString s) = Some s;
  encode64_no_dot : forall s, contains_byte (EncodeToString s) "."%char = false;
}.

Definition terminalTokenExpiry : Z := 60 * second.
Definition terminalNonceMaxAge : Z := 2 * minute.

Record terminalTokenPayload := mkPayload { Session : string; Exp : Z; Nonce : string }.
#[export] Instance payload_eq_dec : EqDecision terminalTokenPayload.
Proof. solve_decision. Defined.

(** The nonces used, with the time each was added. *)
Abbreviation nonces := (gmap string Z).

(** [time.Time.Unix]. *)
Definition unix (t : Z) : Z := t / second.

Section tokens.
Context {b64 : Base64} {payload_codec : JsonCodec terminalTokenPayload}.

(** [HMAC] under the server's secret, and [hex.EncodeToString]. *)
Context (hmac hex : string -> string).

Definition GenerateToken (nonce : res string) (session : string) (now : Z) : res string :=
  match nonce with
  | Err e => Err (Wrapf "failed to generate nonce: " e "")
  | Ok nonce =>
      let payloadBytes := marshal (mkPayload session (unix (now + terminalTokenExpiry)) (hex nonce)) in
      Ok (EncodeToString payloadBytes +:+ String "." (EncodeToString (hmac payloadBytes)))
  end.

(** Up to the payload: the token's form and its signature. *)
Definition verify (token : string) : res terminalTokenPayload :=
  match index_byte token "."%char with
  | None => Err (Msg "malformed token")
  | Some i =>
      match DecodeString (str_take i token) with
      | None => Err (Msg "invalid payload encoding")
      | Some payloadBytes =>
          match DecodeString (str_drop (S i) token) with
          | None => Err (Msg "invalid signature encoding")
          | Some sig =>
              if negb (bool_decide (sig = hmac payloadBytes)) then Err (Msg "invalid signature")
              else match unmarshal payloadBytes with
                   | None => Err (Msg "invalid payload")
                   | Some payload => Ok payload
                   end
          end
      end
  end.

(** The clock is read before the lock is taken, [t1], and again under it, [t2]. *)
Definition ValidateToken (token session : string) (t1 t2 : Z) (used : nonces) : option goerror * nonces :=
  match verify token with
  | Err e => (Some e, used)
  | Ok payload =>
      if Exp payload <? unix t1 then (Some (Msg "token expired"), used)
      else if negb (bool_decide (Session payload = session)) then (Some (Msg "session mismatch"), used)
      else match used !! Nonce payload with
           | Some _ => (Some (Msg "token already used"), used)
           | None => (None, <[Nonce payload := t2]> used)
           end
  end.

Definition cleanup (t : Z) (used : nonces) : nonces := filter (fun na => t - terminalNonceMaxAge <= na.2) used.

(** ** What happens to the manager, in the order of its lock *)
Inductive event :=
| Validated (token session : string) (t1 t2 : Z)
| CleanedUp (t : Z).

Definition event_time (ev : event) : Z := match ev with Validated _ _ _ t2 => t2 | CleanedUp t => t end.

(** The state after it, and whether a token was accepted. *)
Definition handle (ev : event) (used : nonces) : nonces * bool :=
  match ev with
  | Validated token session t1 t2 =>
      let '(e, used') := ValidateToken token session t1 t2 used in (used', bool_decide (e = None))
  | CleanedUp t => (cleanup t used, false)
  end.

(** How often the tokens with this payload are accepted. *)
Definition carries (p : terminalTokenPayload) (ev : event) : bool :=
  match ev with
  | Validated token _ _ _ => match verify token with Ok p' => bool_decide (p' = p) | Err _ => false end
  | CleanedUp _ => false
  end.
Fixpoint accepted (p : terminalTokenPayload) (evs : list event) (used : nonces) : nat :=
  match evs with
  | [] => 0
  | ev :: evs' =>
      let '(used', ok) := handle ev used in (if ok && carries p ev then 1 else 0) + accepted p evs' used'
  end.

(** The times of the lock's holders grow; nobody waits for it for a minute. *)
Definition prompt (ev : event) : Prop :=
  match ev with Validated _ _ t1 t2 => t1 <= t2 <= t1 + 59 * second | CleanedUp _ => True end.
Fixpoint timed (from : Z) (evs : list event) : Prop :=
  match evs with [] => True | ev :: evs' => from <= event_time ev /\ prompt ev /\ timed (event_time ev) evs' end.

Lemma carries_spec p ev : carries p ev = true <-> exists token session t1 t2, ev = Validated token session t1 t2 /\ verify token = Ok p.
Proof.
  split.
  - destruct ev as [token session t1 t2|t]; [|done]. simpl. destruct (verify token) as [p'|] eqn:E; [|done].
    intros H%bool_decide_eq_true. subst. eauto 10.
  - intros (token & session & t1 & t2 & -> & E). simpl. rewrite E. by apply bool_decide_eq_true.
Qed.

(** The nonce is known, or it is too late for the token. *)
Definition spent (p : terminalTokenPayload) (g from : Z) (used : nonces) : Prop :=
  (exists a, used !! Nonce p = Some a /\ g <= a) \/ g + terminalNonceMaxAge < from.

Lemma spent_handle p g from ev used :
  Exp p = unix (g + terminalTokenExpiry) -> g <= from -> from <= event_time ev -> prompt ev -> spent p g from used ->
  spent p g (event_time ev) (handle ev used).1 /\ (handle ev used).2 && carries p ev = false.
Proof.
  intros Hexp Hg Hfrom Hp Hs. split.
  - destruct Hs as [(a & Ha & Hga)|Hlate]; [|right; lia].
    destruct ev as [token session t1 t2|t]; cbn [handle event_time] in *.
    + unfold ValidateToken. destruct (verify token) as [p'|]; [|left; eauto]. repeat case_match; simplify_eq; cbn; try (left; by eauto).
      left. exists a. rewrite lookup_insert_ne by congruence. done.
    + cbn [fst]. destruct (decide (t - terminalNonceMaxAge <= a)) as [Hk|Hk]; [|right; lia].
      left. exists a. split; [|done]. unfold cleanup. by apply map_lookup_filter_Some.
  - destruct (carries p ev) eqn:Hc; [|by rewrite andb_false_r]. apply carries_spec in Hc as (token & session & t1 & t2 & -> & Hv).
    cbn [handle event_time prompt] in *. unfold ValidateToken. rewrite Hv.
    destruct (Exp p <? unix t1) eqn:E1; [done|]. case_bool_decide; cbn [negb]; [|done].
    destruct Hs as [(a & -> & _)|Hlate]; [done|]. exfalso. apply Z.ltb_ge in E1. revert E1. rewrite Hexp. unfold unix.
    intros E1. assert ((g + terminalTokenExpiry + second) / second <= t1 / second) as H1.
    { apply Z.div_le_mono; unfold terminalNonceMaxAge, terminalTokenExpiry, minute, second in *; lia. }
    replace (g + terminalTokenExpiry + second) with (g + terminalTokenExpiry + 1 * second) in H1 by lia.
    rewrite Z.div_add in H1 by done. lia.
Qed.

Lemma spent_forever p g evs from used :
  Exp p = unix (g + terminalTokenExpiry) -> g <= from -> timed from evs -> spent p g from used -> accepted p evs used = 0%nat.
Proof.
  intros Hexp. revert from used. induction evs as [|ev evs IH]; intros from used Hg Ht Hs; [done|].
  destruct Ht as (Hf & Hp & Ht). destruct (spent_handle p g from ev used) as [Hs' Hno]; try done.
  cbn [accepted]. destruct (handle ev used) as [used' ok]. cbn [fst snd] in *. rewrite Hno.
  by rewrite (IH (event_time ev) used') by (done || lia).
Qed.

Lemma accepted_spends p g from ev used :
  g <= from -> from <= event_time ev -> (handle ev used).2 && carries p ev = true -> spent p g (event_time ev) (handle ev used).1.
Proof.
  intros Hg Hfrom [Hok Hc]%andb_true_iff. apply carries_spec in Hc as (token & session & t1 & t2 & -> & Hv).
  cbn [handle event_time] in *. unfold ValidateToken in *. rewrite Hv in *.
  destruct (Exp p <? unix t1); [done|]. destruct (bool_decide (Session p = session)); cbn [negb] in *; [|done].
  destruct (used !! Nonce p); [done|]. left. exists t2. cbn. rewrite lookup_insert_eq. split; [done|lia].
Qed.

Lemma accepted_once p g evs from used :
  Exp p = unix (g + terminalTokenExpiry) -> g <= from -> timed from evs -> (accepted p evs used <= 1)%nat.
Proof.
  intros Hexp. revert from used. induction evs as [|ev evs IH]; intros from used Hg Ht; [simpl; lia|].
  destruct Ht as (Hf & Hp & Ht). cbn [accepted].
  pose proof (accepted_spends p g from ev used Hg Hf) as Hs.
  destruct (handle ev used) as [used' ok] eqn:Eh. cbn [fst snd] in Hs. destruct (ok && carries p ev).
  - rewrite (spent_forever p g evs (event_time ev) used') by (done || lia || auto). lia.
  - specialize (IH (event_time ev) used' ltac:(lia) Ht). lia.
Qed.

Lemma generated_verifies nonce session now token :
  GenerateToken (Ok nonce) session now = Ok token ->
  verify token = Ok (mkPayload session (unix (now + terminalTokenExpiry)) (hex nonce)).
Proof.
  intros [= <-]. unfold verify. set (p := mkPayload _ _ _).
  assert (index_byte (EncodeToString (marshal p) +:+ String "." (EncodeToString (hmac (marshal p)))) "."%char =
    Some (String.length (EncodeToString (marshal p)))) as ->.
  { apply index_byte_spec. do 2 eexists. split; [done|]. split; [done|]. apply encode64_no_dot. }
  rewrite str_take_append, decode_encode64.
  assert (forall a b c, str_drop (S (String.length a)) (a +:+ String c b) = b) as Hd.
  { intros a b c. rewrite <- Nat.add_1_r, str_drop_add, str_drop_append. done. }
  rewrite Hd, decode_encode64, bool_decide_true by done. cbn [negb]. by rewrite unmarshal_marshal.
Qed.

(** C27. A token is good for one connection: it is accepted in its first minute for
    its own session, and whatever forms of it are presented, whenever the used
    ones are forgotten, it is accepted once, if nobody waits nearly a minute for
    the lock. *)
Theorem terminal_token_once nonce session g token used :
  GenerateToken (Ok nonce) session g = Ok token ->
  let p := mkPayload session (unix (g + terminalTokenExpiry)) (hex nonce) in
  (forall t1 t2, t1 <= g + terminalTokenExpiry -> used !! hex nonce = None ->
     ValidateToken token session t1 t2 used = (None, <[hex nonce := t2]> used)) /\
  (forall token' session' t1 t2 used', verify token' = Ok p -> (ValidateToken token' session' t1 t2 used').1 = None ->
     session' = session /\ t1 < g + terminalTokenExpiry + second) /\
  (forall evs, timed g evs -> (accepted p evs used <= 1)%nat).
Proof.
  intros Hgen p. split_and!.
  - intros t1 t2 Ht Hu. unfold ValidateToken. rewrite (generated_verifies _ _ _ _ Hgen). cbn [Exp Session Nonce].
    assert (unix t1 <= unix (g + terminalTokenExpiry)) as Hle by (apply Z.div_le_mono; [done|lia]).
    rewrite (proj2 (Z.ltb_ge _ _)) by lia. rewrite bool_decide_true by done. cbn [negb]. by rewrite Hu.
  - intros token' session' t1 t2 used' Hv. unfold ValidateToken. rewrite Hv. cbn [Exp Session Nonce p].
    destruct (Z.ltb_spec (unix (g + terminalTokenExpiry)) (unix t1)) as [|Hle]; [done|].
    case_bool_decide; cbn [negb]; [|done]. intros _. split; [done|]. unfold unix in Hle.
    pose proof (Z.div_mod t1 second ltac:(done)). pose proof (Z.mod_pos_bound t1 second ltac:(done)).
    pose proof (Z.div_mod (g + terminalTokenExpiry) second ltac:(done)).
    pose proof (Z.mod_pos_bound (g + terminalTokenExpiry) second ltac:(done)). unfold second in *. lia.
  - intros evs Ht. by apply (accepted_once p g evs g).
Qed.
End tokens.

(** ** Witness, and the wait that makes the second use possible *)
Module Letters.
(** Two letters for each byte. *)
Definition letter (n : nat) : ascii := ascii_of_nat (97 + n).
Fixpoint enc (s : string) : string :=
  match s with
  | EmptyString => ""
  | String c s' => String (letter (nat_of_ascii c / 16)) (String (letter (nat_of_ascii c mod 16)) (enc s'))
  end.
Fixpoint dec (s : string) : option string :=
  match s with
  | EmptyString => Some ""%string
  | String a (String b s') =>
      match dec s' with
      | Some t => Some (String (ascii_of_nat ((nat_of_ascii a - 97) * 16 + (nat_of_ascii b - 97))) t)
      | None => None
      end
  | _ => None
  end.
Lemma dec_enc s : dec (enc s) = Some s.
Proof.
  induction s as [|c s IH]; [done|]. cbn [enc dec]. rewrite IH. do 2 f_equal.
  by destruct c as [[] [] [] [] [] [] [] []].
Qed.
Lemma enc_no_dot s : contains_byte (enc s) "."%char = false.
Proof.
  induction s as [|c s IH]; [done|]. cbn [enc contains_byte]. rewrite IH, orb_false_r.
  by destruct c as [[] [] [] [] [] [] [] []].
Qed.
#[export] Instance letters_base64 : Base64 := {| decode_encode64 := dec_enc; encode64_no_dot := enc_no_dot |}.
End Letters.
Import Letters.

#[local] Instance demo_payload : JsonCodec terminalTokenPayload :=
  coded (fun p => (Session p, Exp p, Nonce p)) (fun '(s, e, n) => mkPayload s e n) ltac:(by intros []).
Definition demo_hmac (s : string) : string := "key" +:+ str_take 4 s.
Definition demo_token : res string := GenerateToken demo_hmac (fun s => s) (Ok "n1"%string) "lead" 0.

(** A request that read its clock in the first minute and then waited for two of
    them uses the token again. *)
Example waiting_reuses_token :
  match demo_token with
  | Ok token =>
      accepted demo_hmac (mkPayload "lead" 60 "n1")
        [Validated token "lead" (10 * second) (10 * second); CleanedUp (131 * second); Validated token "lead" (60 * second) (131 * second)] ∅ = 2%nat
  | Err _ => False
  end.
Proof. vm_compute. reflexivity. Qed.

Lemma terminal_token_once_witness :
  match demo_token with
  | Ok token => (accepted demo_hmac (mkPayload "lead" 60 "n1")
      [Validated token "lead" (10 * second) (10 * second); CleanedUp (131 * second); Validated token "lead" (131 * second) (131 * second)] ∅ <= 1)%nat
  | Err _ => False
  end.
Proof.
  destruct demo_token as [token|e] eqn:E; [|discriminate E].
  destruct (terminal_token_once demo_hmac (fun s => s) "n1" "lead" 0 token ∅ E) as (_ & _ & H).
  apply H. cbn [timed event_time prompt]. unfold second. lia.
Defined.
End Tokens.

(** ** Sessions of tmux and the connections to them ([terminal.go]) *)
Module Manager.
Import Paths Scanner.

(** What the code relies on of tmux: [target] is the session that [-t] names,
    which is the one of exactly this name or else the one whose name begins with
    it. *)
Class Tmux (T : Type) := {
  names : T -> list string;
  target : T -> string -> option string;
  new_session : string -> string -> T -> option goerror * T;
  kill_session : string -> T -> T;
  target_exact : forall t n, n ∈ names t -> target t n = Some n;
  target_prefix : forall t n s, target t n = Some s -> s ∈ names t /\ has_prefix s n = true;
  new_ok : forall t n c t', new_session n c t = (None, t') -> forall s, s ∈ names t' <-> s = n \/ s ∈ names t;
  new_failed : forall t n c e t', new_session n c t = (Some e, t') -> names t' = names t;
  kill_names : forall t n s, s ∈ names (kill_session n t) <-> s ∈ names t /\ target t n <> Some s;
}.

Definition validSessionName (s : string) : bool := name_chars false s.
Definition ErrMaxSessionsReached : goerror := Sentinel "maximum terminal sessions reached".
Definition defaultMaxTerminalSessions : Z := 20.

(** [attached] is the session of tmux that the terminal shows. *)
Record TerminalSession := mkSession { ConnID : string; Name : string; Command : string; attached : string }.

Record TerminalManager := mkManager {
  sessions : gmap string TerminalSession;
  sessionPrefix : string;
  defaultCommand : string;
  maxSessions : Z;
  connCounter : Z;
}.

Definition NewTerminalManager (command prefix : string) (max : Z) : TerminalManager :=
  mkManager ∅ prefix command (if max <=? 0 then defaultMaxTerminalSessions else max) 0.

Definition set_sessions (l : gmap string TerminalSession) (m : TerminalManager) : TerminalManager :=
  mkManager l (sessionPrefix m) (defaultCommand m) (maxSessions m) (connCounter m).
(** [atomic.Uint64.Add]. *)
Definition count_conn (m : TerminalManager) : TerminalManager :=
  mkManager (sessions m) (sessionPrefix m) (defaultCommand m) (maxSessions m) ((connCounter m + 1) mod 2 ^ 64).

Definition tmuxName (m : TerminalManager) (name : string) : string :=
  if bool_decide (sessionPrefix m = ""%string) then name else sessionPrefix m +:+ "-" +:+ name.
Definition connID (internalName : string) (n : Z) : string := internalName +:+ ":" +:+ itoa n.

Definition SessionCount (m : TerminalManager) : Z := Z.of_nat (size (sessions m)).

Section manager.
Context {T : Type} {tmux : Tmux T}.

Definition tmuxHasSession (t : T) (name : string) : bool := bool_decide (is_Some (target t name)).

(** [pty.Start] of tmux and [pty.Setsize]: their errors, if any. *)
Record env := mkEnv { start_err : option goerror; size_err : option goerror }.

Definition tmuxAttach (ev : env) (t : T) (name : string) : res string :=
  match start_err ev with
  | Some e => Err (Wrapf "pty.Start tmux attach: " e "")
  | None => match target t name with Some s => Ok s | None => Ok ""%string end
  end.

(** From the attaching on, the same in both operations. *)
Definition connect (ev : env) (internalName command id : string) (m : TerminalManager) (t : T) : res TerminalSession * TerminalManager * T :=
  match tmuxAttach ev t internalName with
  | Err e => (Err e, m, t)
  | Ok s =>
      match size_err ev with
      | Some e => (Err (Wrapf "pty.Setsize: " e ""), m, t)
      | None =>
          let session := mkSession id internalName command s in
          (Ok session, set_sessions (<[id := session]> (sessions m)) m, t)
      end
  end.

Definition full (m : TerminalManager) : bool := (0 <? maxSessions m) && (maxSessions m <=? SessionCount m).

Definition Attach (ev : env) (name command : string) (m : TerminalManager) (t : T) : res TerminalSession * TerminalManager * T :=
  if negb (validSessionName name) then (Err (Msg ("invalid session name " +:+ quote name +:+ ": must match [a-zA-Z0-9_-]+")), m, t)
  else
    let command := if bool_decide (command = ""%string) then defaultCommand m else command in
    let internalName := tmuxName m name in
    let m := count_conn m in
    let id := connID internalName (connCounter m) in
    if full m then (Err ErrMaxSessionsReached, m, t)
    else if tmuxHasSession t internalName then connect ev internalName command id m t
    else
      match new_session internalName command t with
      | (Some e, t) => (Err (Wrapf "tmux new-session: " e ""), m, t)
      | (None, t) => connect ev internalName command id m t
      end.

Definition AttachExistingRaw (ev : env) (tmuxSessionName : string) (m : TerminalManager) (t : T) : res TerminalSession * TerminalManager * T :=
  if negb (validSessionName tmuxSessionName)
  then (Err (Msg ("invalid session name " +:+ quote tmuxSessionName +:+ ": must match [a-zA-Z0-9_-]+")), m, t)
  else
    let m := count_conn m in
    let id := connID tmuxSessionName (connCounter m) in
    if full m then (Err ErrMaxSessionsReached, m, t)
    else if negb (tmuxHasSession t tmuxSessionName) then (Err (Msg ("tmux session " +:+ quote tmuxSessionName +:+ " not found")), m, t)
    else connect ev tmuxSessionName "" id m t.

(** Closing a terminal never fails here; its errors are only reported. *)
Definition Detach (id : string) (m : TerminalManager) : option goerror * TerminalManager :=
  match sessions m !! id with
  | None => (Some (Msg ("connection " +:+ quote id +:+ " not found")), m)
  | Some _ => (None, set_sessions (delete id (sessions m)) m)
  end.

Definition KillSessionByName (name : string) (m : TerminalManager) (t : T) : TerminalManager * T :=
  let internalName := tmuxName m name in
  (set_sessions (filter (fun e => Name e.2 <> internalName) (sessions m)) m, kill_session internalName t).

(** Go's order of a map. *)
Context (map_order : gmap string TerminalSession -> list (string * TerminalSession)).

Definition Shutdown (m : TerminalManager) (t : T) : TerminalManager * T :=
  (set_sessions ∅ m, foldl (fun t n => kill_session n t) t (rev (remove_dups (rev (map (fun e => Name e.2) (map_order (sessions m))))))).

Definition SetDefaultCommand (cmd : string) (m : TerminalManager) : TerminalManager :=
  mkManager (sessions m) (sessionPrefix m) cmd (maxSessions m) (connCounter m).

(** ** Agents' own sessions *)
Definition trim_line (l : string) : option (string * Z) :=
  match index_byte l "009"%char with
  | None => None
  | Some i =>
      match atoi (TrimSpace (str_drop (S i) l)) with
      | None => None
      | Some created =>
          let name := TrimSpace (str_take i l) in
          if bool_decide (name = ""%string) then None else Some (name, created)
      end
  end.

(** What [tmux list-sessions] printed, or its failure with what it printed, in
    lower case. *)
Definition listTmuxSessions (out : string + goerror * string) : res (list (string * Z)) :=
  match out with
  | inr (e, msg) =>
      if contains msg "failed to connect to server" || contains msg "no server running" then Ok []
      else Err (Wrapf "tmux list-sessions failed: " e (": " +:+ TrimSpace msg))
  | inl text =>
      match scan text with
      | (lines, Some e) => Err e
      | (lines, None) => Ok (omap trim_line lines)
      end
  end.

Definition all_digits (s : string) : bool :=
  negb (bool_decide (s = ""%string)) && forallb (fun c => bool_decide (digit_of c <> None)) (String.list_ascii_of_string s).

(** [^loom-[a-zA-Z0-9_-]+-AGENT-[0-9]+$]. *)
Definition agent_pattern (agentName name : string) : bool :=
  match last_index_byte name "-"%char with
  | None => false
  | Some i =>
      let tail := "-" +:+ agentName in
      let front := str_take i name in
      all_digits (str_drop (S i) name) &&
      (String.length tail <=? String.length front)%nat &&
      bool_decide (str_drop (String.length front - String.length tail) front = tail) &&
      let head := str_take (String.length front - String.length tail) front in
      has_prefix head "loom-" && validSessionName (str_drop 5 head)
  end.

Fixpoint latest (agentName : string) (l : list (string * Z)) (best : option (string * Z)) : option (string * Z) :=
  match l with
  | [] => best
  | (name, created) :: l' =>
      latest agentName l'
        (if negb (agent_pattern agentName name) then best
         else match best with
              | None => Some (name, created)
              | Some (bestName, bestCreated) =>
                  if (bestCreated <? created) || ((created =? bestCreated) && str_lt bestName name)
                  then Some (name, created) else best
              end)
  end.

Definition FindLatestAgentSession (agentName : string) (out : string + goerror * string) : res (option string) :=
  if negb (validSessionName agentName) then Err (Msg ("invalid agent name " +:+ quote agentName))
  else match listTmuxSessions out with
       | Err e => Err e
       | Ok l => Ok (fst <$> latest agentName l None)
       end.

(** [ListActiveSessions]: the server's own sessions under their plain names. *)
Definition own_name (prefix : string) (s : string * Z) : option (string * Z) :=
  if bool_decide (prefix = ""%string) then Some s
  else if has_prefix s.1 (prefix +:+ "-") then Some (str_drop (S (String.length prefix)) s.1, s.2) else None.
Definition ListActiveSessions (m : TerminalManager) (out : string + goerror * string) : res (list (string * Z)) :=
  match listTmuxSessions out with
  | Err e => Err e
  | Ok l =>
      let result := omap (own_name (sessionPrefix m)) l in
      Ok (if bool_decide ("talk-to-lead"%string ∈ map fst result) then result else ("talk-to-lead"%string, 0) :: result)
  end.

(** ** Any sequence of operations *)
Inductive op :=
| OAttach (ev : env) (name command : string)
| OAttachRaw (ev : env) (name : string)
| ODetach (id : string)
| OKill (name : string)
| OShutdown
| OSetCommand (cmd : string).

(** The connection opened, if any. *)
Definition opened (r : res TerminalSession) : list string := match r with Ok s => [ConnID s] | Err _ => [] end.
Definition apply_op (o : op) (m : TerminalManager) (t : T) : list string * TerminalManager * T :=
  match o with
  | OAttach ev name command => let '(r, m, t) := Attach ev name command m t in (opened r, m, t)
  | OAttachRaw ev name => let '(r, m, t) := AttachExistingRaw ev name m t in (opened r, m, t)
  | ODetach id => ([], (Detach id m).2, t)
  | OKill name => let '(m, t) := KillSessionByName name m t in ([], m, t)
  | OShutdown => let '(m, t) := Shutdown m t in ([], m, t)
  | OSetCommand cmd => ([], SetDefaultCommand cmd m, t)
  end.
Fixpoint apply_ops (os : list op) (m : TerminalManager) (t : T) : list string * TerminalManager * T :=
  match os with
  | [] => ([], m, t)
  | o :: os' =>
      let '(ids, m, t) := apply_op o m t in
      let '(ids', m, t) := apply_ops os' m t in (ids ++ ids', m, t)
  end.

Lemma connID_inj n k n' k' : connID n k = connID n' k' -> n = n' /\ k = k'.
Proof.
  unfold connID. intros E. change (":" +:+ ?x) with (String ":" x) in E.
  apply last_sep_inj in E as [-> E]; [|by apply itoa_no_byte..]. split; [done|]. by apply (inj pretty) in E.
Qed.

(** Every connection is filed under its own number, and there are at most as many
    as allowed. *)
Record inv (m : TerminalManager) : Prop := {
  inv_ids : forall id s, sessions m !! id = Some s -> ConnID s = id /\ exists n k, id = connID n k /\ 1 <= k <= connCounter m;
  inv_max : 0 < maxSessions m;
  inv_size : SessionCount m <= maxSessions m;
  inv_counter : 0 <= connCounter m;
}.

Lemma inv_new command prefix max : inv (NewTerminalManager command prefix max).
Proof.
  unfold NewTerminalManager, defaultMaxTerminalSessions.
  split; cbn [sessions maxSessions connCounter]; [done|destruct (Z.leb_spec max 0); lia| |lia].
  unfold SessionCount. cbn [sessions maxSessions]. rewrite map_size_empty. destruct (Z.leb_spec max 0); lia.
Qed.

Lemma inv_subset m l : inv m -> l ⊆ sessions m -> inv (set_sessions l m).
Proof.
  intros [Hi Hx Hs Hc] Hl. split; cbn [sessions set_sessions maxSessions connCounter]; [|done| |done].
  - intros id s H. apply Hi. by eapply lookup_weaken.
  - apply map_subseteq_size in Hl. unfold SessionCount in *. cbn [sessions set_sessions]. lia.
Qed.

Definition opens (m : TerminalManager) (ids : list string) (m' : TerminalManager) : Prop :=
  inv m' /\ connCounter m <= connCounter m' <= connCounter m + 1 /\ maxSessions m' = maxSessions m /\
  (ids = [] \/ exists n, ids = [connID n (connCounter m')] /\ connCounter m < connCounter m').

Lemma opens_count m : inv m -> connCounter m < 2 ^ 64 - 1 -> inv (count_conn m) /\ connCounter (count_conn m) = connCounter m + 1.
Proof.
  intros [Hi Hx Hs Hc] Hlt. assert ((connCounter m + 1) mod 2 ^ 64 = connCounter m + 1) as E by (apply Z.mod_small; lia).
  split; [|done]. split; cbn [sessions count_conn maxSessions connCounter]; [|done..|lia].
  intros id s H. destruct (Hi id s H) as (? & n & k & ? & ?). split; [done|]. exists n, k. rewrite E. split; [done|lia].
Qed.

Lemma connect_opens ev n command m t r m' t' :
  inv m -> full m = false -> 0 < connCounter m -> connect ev n command (connID n (connCounter m)) m t = (r, m', t') ->
  inv m' /\ connCounter m' = connCounter m /\ maxSessions m' = maxSessions m /\ (opened r = [] \/ opened r = [connID n (connCounter m')]).
Proof.
  intros Hm Hf Hc. unfold connect. repeat case_match; intros [= <- <- <-]; try (split_and!; [done..|by left]).
  split_and!; [|done..|by right]. pose proof Hm as [Hi Hx Hs Hp]. split; cbn [sessions set_sessions maxSessions connCounter]; [|done| |done].
  - intros id s'. intros [[<- <-]|[_ H']]%lookup_insert_Some; [|by apply Hi].
    split; [done|]. do 2 eexists. split; [done|lia].
  - unfold full in Hf. apply andb_false_iff in Hf as [Hf%Z.ltb_ge|Hf%Z.leb_gt]; [lia|].
    unfold SessionCount in *. cbn [sessions set_sessions]. rewrite map_size_insert. case_match; simpl; lia.
Qed.

Lemma op_opens o m t ids m' t' :
  inv m -> connCounter m < 2 ^ 64 - 1 -> apply_op o m t = (ids, m', t') -> opens m ids m'.
Proof.
  intros Hm Hlt. destruct (opens_count m Hm Hlt) as [Hm1 Ec]. pose proof Hm as [Hi Hx Hs Hc].
  assert (opens m [] m) as Hsame by (split; [done|split; [lia|split; [done|by left]]]).
  assert (opens m [] (count_conn m)) as Hcount by (split; [done|split; [lia|split; [done|by left]]]).
  assert (forall ev n command t r m2 t2, full (count_conn m) = false ->
    connect ev n command (connID n (connCounter (count_conn m))) (count_conn m) t = (r, m2, t2) -> opens m (opened r) m2) as Hconn.
  { intros ev n command t0 r m2 t2 Hf E. apply connect_opens in E as (Hi2 & E2 & Ex & Ho); [|done|done|lia].
    split; [done|]. rewrite E2, Ec. split; [lia|]. split; [by rewrite Ex|].
    destruct Ho as [->|Ho]; [by left|right]. exists n. rewrite Ho, E2, Ec. split; [done|lia]. }
  assert (forall l, l ⊆ sessions m -> opens m [] (set_sessions l m)) as Hsub.
  { intros l Hl. split; [by apply inv_subset|]. cbn. split; [lia|]. split; [done|by left]. }
  destruct o; cbn [apply_op].
  - unfold Attach. destruct (negb _); [by intros [= <- <- <-]|]. cbv zeta. destruct (full (count_conn m)) eqn:Ef; [by intros [= <- <- <-]|].
    destruct (tmuxHasSession _ _).
    + destruct (connect _ _ _ _ _ _) as [[r m2] t2] eqn:E. intros [= <- <- <-]. by eapply Hconn.
    + destruct (new_session _ _ t) as [[e|] t1]; [by intros [= <- <- <-]|].
      destruct (connect _ _ _ _ _ _) as [[r m2] t2] eqn:E. intros [= <- <- <-]. by eapply Hconn.
  - unfold AttachExistingRaw. destruct (negb _); [by intros [= <- <- <-]|]. cbv zeta. destruct (full (count_conn m)) eqn:Ef; [by intros [= <- <- <-]|].
    destruct (negb _); [by intros [= <- <- <-]|].
    destruct (connect _ _ _ _ _ _) as [[r m2] t2] eqn:E. intros [= <- <- <-]. by eapply Hconn.
  - unfold Detach. destruct (sessions m !! id); intros [= <- <- <-]; [|done]. apply Hsub, delete_subseteq.
  - intros [= <- <- <-]. apply Hsub, map_filter_subseteq.
  - intros [= <- <- <-]. apply Hsub, map_empty_subseteq.
  - intros [= <- <- <-]. split; [by split|]. cbn. split; [lia|]. split; [done|by left].
Qed.

Lemma ops_open os m t ids m' t' :
  inv m -> connCounter m + Z.of_nat (length os) < 2 ^ 64 -> apply_ops os m t = (ids, m', t') ->
  inv m' /\ maxSessions m' = maxSessions m /\
  NoDup ids /\ forall id, id ∈ ids -> exists n k, id = connID n k /\ connCounter m < k.
Proof.
  revert m t ids m' t'. induction os as [|o os IH]; intros m t ids m' t' Hm Hlt; cbn [apply_ops].
  { intros [= <- <- <-]. split_and!; [done|done|constructor|]. intros id H. by apply elem_of_nil in H. }
  cbn [length] in Hlt. destruct (apply_op o m t) as [[ids1 m1] t1] eqn:E1.
  apply op_opens in E1 as (Hm1 & Hc & Hx & Hids); [|done|lia].
  destruct (apply_ops os m1 t1) as [[ids2 m2] t2] eqn:E2. intros [= <- <- <-].
  apply IH in E2 as (Hm2 & Hx2 & Hnd & Hlater); [|done|lia]. split_and!; [done|congruence| |].
  - destruct Hids as [->|(n & -> & Hlt1)]; [done|]. cbn [app]. constructor; [|done].
    intros (n' & k & E & Hk)%Hlater. apply connID_inj in E as [_ E]. lia.
  - intros id [H|H]%elem_of_app.
    + destruct Hids as [->|(n & -> & Hlt1)]; [by apply elem_of_nil in H|]. apply list_elem_of_singleton in H as ->. eauto.
    + destruct (Hlater id H) as (n' & k & -> & Hk). exists n', k. split; [done|lia].
Qed.

(** The connections to terminals: at any time there are at most as many as
    allowed, each filed under its own identifier; and no identifier is given
    twice, so that a late [Detach] or [Resize] of an old connection never meets a
    newer one. *)
Theorem connections_bounded command prefix max os t ids m' t' :
  Z.of_nat (length os) < 2 ^ 64 -> apply_ops os (NewTerminalManager command prefix max) t = (ids, m', t') ->
  SessionCount m' <= (if max <=? 0 then 20 else max) /\ NoDup ids /\
  forall id s, sessions m' !! id = Some s -> ConnID s = id.
Proof.
  intros Hlt E. apply ops_open in E as (Hm & Hx & Hnd & _); [|apply inv_new|done].
  split_and!; [|done|intros id s H; by apply (inv_ids _ Hm)]. pose proof (inv_size _ Hm) as H. by rewrite Hx in H.
Qed.

(** A terminal shows the session it was opened for exactly when tmux has a
    session of this very name or none whose name begins with it; otherwise it
    shows the other one, although a new session would have been created for
    its name. *)
Theorem attached_session ev name command m t s m' t' :
  Attach ev name command m t = (Ok s, m', t') ->
  Name s = tmuxName m name /\
  (target t (Name s) = None \/ Name s ∈ names t -> attached s = Name s) /\
  (forall other, target t (Name s) = Some other -> attached s = other /\ names t' = names t /\ has_prefix other (Name s) = true).
Proof.
  unfold Attach. destruct (negb (validSessionName name)); [done|]. cbv zeta. destruct (full _); [done|].
  change (tmuxName (count_conn m) name) with (tmuxName m name). set (n := tmuxName m name).
  assert (forall c id m1 t1, connect ev n c id m1 t1 = (Ok s, m', t') -> t' = t1 /\ Name s = n /\ attached s = default ""%string (target t1 n)) as Hconn.
  { intros c id m1 t1. unfold connect, tmuxAttach. destruct (start_err ev); [done|]. destruct (target t1 n), (size_err ev); by intros [= <- <- <-]. }
  unfold tmuxHasSession. destruct (target t n) as [o|] eqn:Et.
  - rewrite bool_decide_true by done. intros E%Hconn. destruct E as (-> & -> & ->). rewrite Et. simpl.
    split_and!; [done| |].
    + intros [?|Hin]; [congruence|]. apply target_exact in Hin. congruence.
    + intros other [= ->]. apply target_prefix in Et. tauto.
  - rewrite bool_decide_false by (by intros [? ?]). destruct (new_session _ _ t) as [[e|] t1] eqn:En; [done|].
    intros E%Hconn. destruct E as (-> & -> & ->).
    assert (target t1 n = Some n) as -> by (apply target_exact, (new_ok _ _ _ _ En); by left).
    split_and!; [done|done|]. intros other. by rewrite Et.
Qed.
End manager.

(** ** Agents' sessions *)
(** The name that [RunAutoModeTmux] gives to an agent's session. *)
Definition agent_session (role agent pid : string) : string := "loom-" +:+ role +:+ "-" +:+ agent +:+ "-" +:+ pid.

Lemma all_digits_no_dash s : all_digits s = true -> contains_byte s "-"%char = false.
Proof.
  unfold all_digits. intros [_ H]%andb_true_iff. induction s as [|c s IH]; [done|].
  cbn [String.list_ascii_of_string forallb contains_byte] in *. apply andb_true_iff in H as [Hc H].
  rewrite (IH H), orb_false_r. apply bool_decide_eq_false. intros ->. by apply bool_decide_eq_true in Hc.
Qed.

Lemma agent_pattern_spec agent name :
  agent_pattern agent name = true <->
  exists role pid, validSessionName role = true /\ all_digits pid = true /\ name = agent_session role agent pid.
Proof.
  unfold agent_pattern, agent_session. split.
  - destruct (last_index_byte name "-"%char) as [i|] eqn:E; [|done]. apply last_index_byte_cut in E as [En _].
    set (front := str_take i name) in *. set (pid := str_drop (S i) name) in *. clearbody front pid. subst name.
    cbv zeta. rewrite !andb_true_iff, bool_decide_eq_true. intros [[[Hp Hl] Ht] [Hh Hr]].
    apply has_prefix_spec in Hh as [role Hrole].
    exists role, pid. split; [|split; [done|]].
    + by rewrite Hrole in Hr.
    + rewrite <- (str_take_drop (String.length front - String.length ("-" +:+ agent)) front), Ht, Hrole. by rewrite !append_assoc.
  - intros (role & pid & Hr & Hp & ->).
    assert ("loom-" +:+ role +:+ "-" +:+ agent +:+ "-" +:+ pid = (("loom-" +:+ role) +:+ ("-" +:+ agent)) +:+ String "-" pid) as ->
      by (by rewrite !append_assoc).
    rewrite last_index_byte_app by (by apply all_digits_no_dash). rewrite str_take_append.
    assert (forall a b c, str_drop (S (String.length a)) (a +:+ String c b) = b) as Hd.
    { intros a b c. rewrite <- Nat.add_1_r, str_drop_add, str_drop_append. done. }
    rewrite Hd, Hp. cbv zeta. rewrite (length_append ("loom-" +:+ role)).
    rewrite (proj2 (Nat.leb_le _ _)) by lia. rewrite Nat.add_sub, str_drop_append, str_take_append, bool_decide_true by done.
    rewrite (proj2 (has_prefix_spec _ _)) by eauto. change 5%nat with (String.length "loom-"). by rewrite str_drop_append, Hr.
Qed.

(** No session of the agent in the list is newer, or as new with a later name. *)
Definition best_of (agent : string) (l : list (string * Z)) (r : option (string * Z)) : Prop :=
  match r with
  | None => forall n c, (n, c) ∈ l -> agent_pattern agent n = false
  | Some (n, c) => (n, c) ∈ l /\ agent_pattern agent n = true /\
      forall n' c', (n', c') ∈ l -> agent_pattern agent n' = true -> c' < c \/ c' = c /\ str_lt n n' = false
  end.

Lemma best_of_snoc agent seen n c best :
  best_of agent seen best ->
  best_of agent (seen ++ [(n, c)])
    (if negb (agent_pattern agent n) then best
     else match best with
          | None => Some (n, c)
          | Some (bn, bc) => if (bc <? c) || ((c =? bc) && str_lt bn n) then Some (n, c) else best
          end).
Proof.
  intros H. assert (forall x, x ∈ seen ++ [(n, c)] <-> x ∈ seen \/ x = (n, c)) as Hin
    by (intros x; by rewrite elem_of_app, list_elem_of_singleton).
  destruct (agent_pattern agent n) eqn:Ea; cbn [negb].
  - destruct best as [[bn bc]|].
    + destruct H as (Hb & Hp & Hmax). destruct ((bc <? c) || _) eqn:Et.
      * split; [apply Hin; by right|]. split; [done|]. intros n' c' [H'|[= -> ->]]%Hin Hp'; [|right; by rewrite str_lt_irrefl].
        apply orb_true_iff in Et as [Et%Z.ltb_lt|[Et%Z.eqb_eq Hlt]%andb_true_iff]; destruct (Hmax n' c' H' Hp') as [?|[-> Hn]]; try (left; lia).
        right. split; [done|]. destruct (str_lt n n') eqn:E; [|done]. by rewrite (str_lt_trans bn n n') in Hn.
      * apply orb_false_iff in Et as [Et%Z.ltb_ge Et2]. split; [apply Hin; by left|]. split; [done|].
        intros n' c' [H'|[= -> ->]]%Hin Hp'; [by apply Hmax|]. destruct (Z.eqb_spec c bc) as [->|]; [right; by simpl in Et2|left; lia].
    + split; [apply Hin; by right|]. split; [done|]. intros n' c' [H'|[= -> ->]]%Hin Hp'; [by rewrite (H n' c') in Hp'|].
      right. by rewrite str_lt_irrefl.
  - destruct best as [[bn bc]|].
    + destruct H as (Hb & Hp & Hmax). split; [apply Hin; by left|]. split; [done|].
      intros n' c' [H'|[= -> ->]]%Hin Hp'; [by apply Hmax|congruence].
    + intros n' c' [H'|[= -> ->]]%Hin; [by apply (H n' c')|done].
Qed.

Lemma latest_best agent l seen best : best_of agent seen best -> best_of agent (seen ++ l) (latest agent l best).
Proof.
  revert seen best. induction l as [|[n c] l IH]; intros seen best H; cbn [latest]; [by rewrite app_nil_r|].
  change ((n, c) :: l) with ([(n, c)] ++ l). rewrite app_assoc. by apply IH, best_of_snoc.
Qed.

(** The session shown for an agent is the newest of those whose name reads as
    one of the agent's. Its own sessions are among them, and so are those of every
    agent whose name ends in a dash and this one's. *)
Theorem latest_agent_session agent out l :
  validSessionName agent = true -> listTmuxSessions out = Ok l ->
  (exists r, FindLatestAgentSession agent out = Ok (fst <$> r) /\ best_of agent l r) /\
  (forall role pid, validSessionName role = true -> all_digits pid = true ->
     agent_pattern agent (agent_session role agent pid) = true /\
     forall other, validSessionName other = true -> agent_pattern agent (agent_session role (other +:+ "-" +:+ agent) pid) = true).
Proof.
  intros Ha Hl. split.
  - exists (latest agent l None). unfold FindLatestAgentSession. rewrite Ha, Hl. split; [done|].
    change l with ([] ++ l) at 1. apply latest_best. intros n c H. by apply elem_of_nil in H.
  - intros role pid Hr Hp. split; [apply agent_pattern_spec; by exists role, pid|]. intros other Ho.
    apply agent_pattern_spec. exists (role +:+ "-" +:+ other), pid. split; [|split; [done|]].
    + unfold validSessionName, name_chars in *. apply andb_true_iff in Hr as [Hr1 Hr2], Ho as [_ Ho2].
      apply andb_true_iff. split.
      * apply negb_true_iff, bool_decide_eq_false in Hr1. apply negb_true_iff, bool_decide_eq_false. by destruct role.
      * assert (forall a b, String.list_ascii_of_string (a +:+ b) = String.list_ascii_of_string a ++ String.list_ascii_of_string b) as Happ.
        { intros a b. induction a as [|x a IHa]; [done|]. rewrite append_cons. simpl. by rewrite IHa. }
        rewrite !Happ, !forallb_app, Hr2, Ho2. done.
    + unfold agent_session. by rewrite !append_assoc.
Qed.

(** ** A tmux, and the names that meet *)
Module ListTmux.
(** The sessions in order; a name also stands for the first that begins with it. *)
Definition find_target (t : list string) (n : string) : option string :=
  if bool_decide (n ∈ t) then Some n else head (filter (fun s => has_prefix s n = true) t).
Definition add_session (n _command : string) (t : list string) : option goerror * list string :=
  if bool_decide (n ∈ t) then (Some (Msg "duplicate session"), t) else (None, n :: t).
Definition remove_session (n : string) (t : list string) : list string := filter (fun s => find_target t n <> Some s) t.

#[export] Program Instance list_tmux : Tmux (list string) :=
  {| names := id; target := find_target; new_session := add_session; kill_session := remove_session |}.
Next Obligation. intros t n H. unfold find_target. by rewrite bool_decide_true. Qed.
Next Obligation.
  intros t n s. unfold find_target. case_bool_decide as Hn.
  - intros [= <-]. split; [done|]. apply has_prefix_spec. exists "". by rewrite append_empty.
  - intros H%head_Some_elem_of. apply list_elem_of_filter in H as [? ?]. done.
Qed.
Next Obligation.
  intros t n c t'. unfold add_session, id. case_bool_decide; [done|]. intros [= <-] s. by rewrite elem_of_cons.
Qed.
Next Obligation. intros t n c e t'. unfold add_session. case_bool_decide; by intros [= <- <-]. Qed.
Next Obligation. intros t n s. unfold remove_session, id. rewrite list_elem_of_filter. tauto. Qed.
End ListTmux.
Import ListTmux.

Definition quiet : env := mkEnv None None.
Definition demo_manager : TerminalManager := NewTerminalManager "loom lead" "8080" 0.

(** With a session for [lead-2] open, [lead] shows it, and restarting [lead] ends
    it. *)
Example prefix_session_shown :
  (Attach quiet "lead" "" demo_manager ["8080-lead-2"]).1.1 = Ok (mkSession "8080-lead:1" "8080-lead" "loom lead" "8080-lead-2") /\
  (KillSessionByName "lead" demo_manager ["8080-lead-2"]).2 = [].
Proof. vm_compute. done. Qed.

Lemma attached_session_witness :
  match Attach quiet "lead" "" demo_manager ["8080-lead-2"] with
  | (Ok s, _, _) => Name s = "8080-lead" /\ attached s = "8080-lead-2"
  | _ => False
  end.
Proof.
  destruct (Attach quiet "lead" "" demo_manager ["8080-lead-2"]) as [[[s|e] m'] t'] eqn:E; [|discriminate E].
  destruct (attached_session quiet "lead" "" demo_manager ["8080-lead-2"] s m' t' E) as (H1 & _ & H2). split; [exact H1|].
  apply (H2 "8080-lead-2"). rewrite H1. reflexivity.
Defined.

Definition any_order (l : gmap string TerminalSession) : list (string * TerminalSession) := map_to_list l.
Lemma connections_bounded_witness :
  match apply_ops any_order [OAttach quiet "a" ""; OAttach quiet "b" ""; ODetach "8080-a:1"] demo_manager [] with
  | (ids, m', _) => SessionCount m' <= 20 /\ NoDup ids /\ forall id s, sessions m' !! id = Some s -> ConnID s = id
  end.
Proof.
  destruct (apply_ops any_order [OAttach quiet "a" ""; OAttach quiet "b" ""; ODetach "8080-a:1"] demo_manager []) as [[ids m'] t'] eqn:E.
  refine (connections_bounded any_order "loom lead" "8080" 0 _ _ ids m' t' _ E). reflexivity.
Defined.

(** Agent [b] is shown the newer session of agent [a-b]. *)
Definition demo_list : string := "loom-dev-b-12" +:+ String "009" ("5" +:+ String "010" ("loom-dev-a-b-7" +:+ String "009" "9")).
Example other_agents_session : FindLatestAgentSession "b" (inl demo_list) = Ok (Some "loom-dev-a-b-7").
Proof. vm_compute. reflexivity. Qed.

Lemma latest_agent_session_witness :
  (exists r, FindLatestAgentSession "b" (inl demo_list) = Ok (fst <$> r) /\ best_of "b" [("loom-dev-b-12", 5); ("loom-dev-a-b-7", 9)] r) /\
  agent_pattern "b" (agent_session "dev" ("a" +:+ "-" +:+ "b") "7") = true.
Proof.
  destruct (latest_agent_session "b" (inl demo_list) [("loom-dev-b-12", 5); ("loom-dev-a-b-7", 9)] eq_refl) as [H1 H2];
    [vm_compute; reflexivity|].
  split; [exact H1|]. by apply (H2 "dev" "7").
Defined.
End Manager.

(** ** The handlers up to the connection, and the relay *)
Module Handlers.
Import Paths Tokens Manager.

Definition agentLogTokenScope (agentName : string) : string := "agent:" +:+ agentName +:+ ":logs".
Definition validTerminalSession (s : string) : bool := name_chars false s.

Inductive answer :=
| Answer (status : Z) (message : string)
| GiveToken (token : string)
| NotUpgraded
| Connected (r : res TerminalSession).

Section handlers.
Context {T : Type} {tmux : Tmux T} {b64 : Base64} {payload_codec : JsonCodec terminalTokenPayload}.
Context (hmac hex : string -> string).

Definition handleTerminalToken (session : string) (nonce : res string) (now : Z) : answer :=
  if bool_decide (session = ""%string) || negb (validTerminalSession session) then Answer 400 "invalid session"
  else match GenerateToken hmac hex nonce session now with
       | Err _ => Answer 500 "failed to generate token"
       | Ok token => GiveToken token
       end.

Definition handleGetAgentTerminalToken (agentName : string) (auth : bool) (nonce : res string) (now : Z) : answer :=
  if bool_decide (agentName = ""%string) then Answer 400 "missing agent name"
  else if negb (web_name_ok agentName) then Answer 400 "invalid agent name: must match [a-zA-Z0-9_-]+"
  else if negb auth then Answer 503 "terminal authentication not initialized"
  else match GenerateToken hmac hex nonce (agentLogTokenScope agentName) now with
       | Err _ => Answer 500 "failed to generate token"
       | Ok token => GiveToken token
       end.

Record server := mkServer { manager : TerminalManager; tmux_state : T; used_nonces : nonces }.

(** [accepted]: [websocket.Accept] upgrades the connection. *)
Definition upgrade (accepted : bool) (attach : TerminalManager -> T -> res TerminalSession * TerminalManager * T) (s : server) : answer * server :=
  if maxSessions (manager s) <=? SessionCount (manager s) then (Answer 503 "maximum terminal sessions reached", s)
  else if negb accepted then (NotUpgraded, s)
  else let '(r, m, t) := attach (manager s) (tmux_state s) in (Connected r, mkServer m t (used_nonces s)).

Definition handleTerminalWS (session token : string) (auth : bool) (t1 t2 : Z) (accepted : bool) (ev : env) (s : server) : answer * server :=
  if bool_decide (session = ""%string) then (Answer 400 "missing session parameter", s)
  else if negb (validTerminalSession session) then (Answer 400 "invalid session name: must match [a-zA-Z0-9_-]+", s)
  else
    let '(e, used) := if auth then ValidateToken hmac token session t1 t2 (used_nonces s) else (None, used_nonces s) in
    let s := mkServer (manager s) (tmux_state s) used in
    match e with
    | Some _ => (Answer 401 "terminal authentication failed", s)
    | None => upgrade accepted (Attach ev session "") s
    end.

Definition handleAgentTerminalWS (agentName token : string) (auth : bool) (t1 t2 : Z) (out : string + goerror * string)
    (accepted : bool) (ev : env) (s : server) : answer * server :=
  if bool_decide (agentName = ""%string) then (Answer 400 "missing agent name", s)
  else if negb (web_name_ok agentName) then (Answer 400 "invalid agent name: must match [a-zA-Z0-9_-]+", s)
  else if negb auth then (Answer 503 "terminal authentication not initialized", s)
  else
    let '(e, used) := ValidateToken hmac token (agentLogTokenScope agentName) t1 t2 (used_nonces s) in
    let s := mkServer (manager s) (tmux_state s) used in
    match e with
    | Some _ => (Answer 401 "terminal authentication failed", s)
    | None =>
        match FindLatestAgentSession agentName out with
        | Err _ => (Answer 500 "failed to inspect terminal sessions", s)
        | Ok None => (Answer 404 "no active terminal session for agent", s)
        | Ok (Some sessionName) => upgrade accepted (AttachExistingRaw ev sessionName) s
        end
    end.

(** Tokens of the two kinds are not taken for each other: a terminal's token, for
    whatever session, opens no agent's terminal, and an agent's no terminal. *)
Theorem scopes_apart nonce session agent g token t1 t2 out accepted ev s :
  (GenerateToken hmac hex nonce session g = Ok token -> validTerminalSession session = true ->
   exists code msg, (handleAgentTerminalWS agent token true t1 t2 out accepted ev s).1 = Answer code msg) /\
  (GenerateToken hmac hex nonce (agentLogTokenScope agent) g = Ok token ->
   exists code msg, (handleTerminalWS session token true t1 t2 accepted ev s).1 = Answer code msg).
Proof.
  assert (forall a, validTerminalSession (agentLogTokenScope a) = false) as Hscope.
  { intros a. unfold validTerminalSession, agentLogTokenScope, name_chars. rewrite append_cons. cbn. by rewrite andb_false_r || done. }
  split.
  - intros Hg Hv. unfold handleAgentTerminalWS. case_bool_decide; [by do 2 eexists|]. destruct (negb _); [by do 2 eexists|].
    cbn [negb]. destruct nonce as [n|]; [|done]. unfold ValidateToken. rewrite (generated_verifies hmac hex n session g token Hg).
    cbn [Exp Session Nonce]. destruct (_ <? _); [by do 2 eexists|].
    rewrite bool_decide_false; [by do 2 eexists|]. intros ->. by rewrite Hscope in Hv.
  - intros Hg. unfold handleTerminalWS. case_bool_decide; [by do 2 eexists|].
    destruct (validTerminalSession session) eqn:Hv; cbn [negb]; [|by do 2 eexists].
    destruct nonce as [n|]; [|done]. unfold ValidateToken. rewrite (generated_verifies hmac hex n _ g token Hg).
    cbn [Exp Session Nonce]. destruct (_ <? _); [by do 2 eexists|].
    rewrite bool_decide_false; [by do 2 eexists|]. intros E. rewrite <- E, Hscope in Hv. done.
Qed.
End handlers.

(** ** The relay ([wsToPTY]) *)
Inductive ws_message := TextMessage (data : string) | BinaryMessage (data : string).
Inductive action := Resize (cols rows : Z) | Dropped | Write (data : string).

Definition resizeMsgMarker : ascii := "001".
Definition maxTerminalCols : Z := 500.
Definition maxTerminalRows : Z := 200.
Definition uint16 (a b : ascii) : Z := Z.of_nat (nat_of_ascii a) * 256 + Z.of_nat (nat_of_ascii b).

Definition relay (m : ws_message) : action :=
  match m with
  | TextMessage data => Write data
  | BinaryMessage data =>
      match data with
      | String m (String c1 (String c2 (String r1 (String r2 EmptyString)))) =>
          if negb (bool_decide (m = resizeMsgMarker)) then Write data
          else
            let cols := uint16 c1 c2 in
            let rows := uint16 r1 r2 in
            if (0 <? cols) && (0 <? rows) && (cols <=? maxTerminalCols) && (rows <=? maxTerminalRows) then Resize cols rows else Dropped
      | _ => Write data
      end
  end.

(** What the page sends for a size is read back as this size; everything that is
    not five bytes behind the marker is typed into the terminal unchanged. *)
Definition resize_message (cols rows : Z) : string :=
  String resizeMsgMarker (String (ascii_of_nat (Z.to_nat (cols / 256))) (String (ascii_of_nat (Z.to_nat (cols mod 256)))
    (String (ascii_of_nat (Z.to_nat (rows / 256))) (String (ascii_of_nat (Z.to_nat (rows mod 256))) "")))).

Lemma uint16_bytes n : 0 <= n < 65536 -> uint16 (ascii_of_nat (Z.to_nat (n / 256))) (ascii_of_nat (Z.to_nat (n mod 256))) = n.
Proof.
  intros H. unfold uint16.
  assert (0 <= n / 256 < 256) by (split; [apply Z.div_pos|apply Z.div_lt_upper_bound]; lia).
  pose proof (Z.mod_pos_bound n 256 ltac:(lia)). rewrite !nat_ascii_embedding by lia.
  rewrite !Z2Nat.id by lia. pose proof (Z.div_mod n 256 ltac:(lia)). lia.
Qed.

Theorem relay_functional :
  (forall cols rows, 0 < cols <= maxTerminalCols -> 0 < rows <= maxTerminalRows ->
     relay (BinaryMessage (resize_message cols rows)) = Resize cols rows) /\
  (forall data, relay (TextMessage data) = Write data) /\
  (forall data, String.length data <> 5%nat \/ String.get 0 data <> Some resizeMsgMarker -> relay (BinaryMessage data) = Write data) /\
  (forall data cols rows, relay (BinaryMessage data) = Resize cols rows -> 0 < cols <= 500 /\ 0 < rows <= 200).
Proof.
  unfold maxTerminalCols, maxTerminalRows. split_and!; [|done|..].
  - intros cols rows Hc Hr. unfold relay, resize_message. rewrite bool_decide_true by done. cbn [negb].
    rewrite !uint16_bytes by lia. unfold maxTerminalCols, maxTerminalRows. by rewrite !(proj2 (Z.ltb_lt _ _)), !(proj2 (Z.leb_le _ _)) by lia.
  - intros data H. destruct data as [|a [|b [|c [|d [|e [|f data]]]]]]; try done. cbn [relay].
    rewrite bool_decide_false; [done|]. intros ->. simpl in H. naive_solver.
  - intros data cols rows. destruct data as [|a [|b [|c [|d [|e [|f data]]]]]]; try done. cbn [relay].
    destruct (negb _); [done|]. cbv zeta. destruct (_ && _ && _ && _) eqn:E; [|done]. intros [= <- <-].
    unfold maxTerminalCols, maxTerminalRows in E. rewrite !andb_true_iff, !Z.ltb_lt, !Z.leb_le in E. lia.
Qed.
End Handlers.
