(* ===== verification/FleetHandlers.v ===== *)
(** * FleetHandlers: the fleet's endpoints, [internal/webui/fleet_handlers.go]
    and the issuing of tokens of [jwt.go]

    Registration, completion, claims and heartbeats of workers over the store of
    [FleetStore], a client of the daemon, and the tokens that [WebAuth] asks for. A
    handler's answer is its status and its record. JSON, JWT and the limiter are
    parameters. *)
From S2P Require Import Prelude Redis Net FleetStore IssueTypes Rpc WebAuth.
Import Net.
Local Open Scope Z_scope.

Module FleetApi.
Import Fleet.

(** ** Requests *)
Definition maxRequestBody : Z := 1048576.
#[global] Arguments maxRequestBody : simpl never.

(** What a [json.Decoder] finds at the start of a text. *)
Inductive json_read (A : Type) := Value (a : A) | Malformed | Incomplete.
Arguments Value {A}.
Arguments Malformed {A}.
Arguments Incomplete {A}.
Class JsonBody (A : Type) := first_value : string -> json_read A.

(** [http.MaxBytesReader] and [Decode]: the record, or the status and message. *)
Definition decode_body {A} `{JsonBody A} (text : string) : A + Z * string :=
  match first_value (str_take (Z.to_nat maxRequestBody) text) with
  | Value a => inl a
  | Malformed => inr (400, "invalid request body"%string)
  | Incomplete =>
      if maxRequestBody <? Z.of_nat (String.length text) then inr (413, "request body too large (max 1MB)"%string)
      else inr (400, "invalid request body"%string)
  end.

Record FleetRegisterRequest := mkRegisterReq { rr_WorkerID : string; rr_Repos : list string }.
Record FleetRegisterResponse := mkRegisterResp { rg_Success : bool; rg_Token : string; rg_Error : string }.
Record FleetDoneRequest := mkDoneReq { dr_Success : bool; dr_CommitSHA : string; dr_Error : string }.
Record FleetDoneResponse := mkDoneResp { dn_Success : bool; dn_TaskID : string; dn_WorkerID : string; dn_Error : string }.
Record FleetClaimRequest := mkClaimReq { cl_IssueID : string; cl_Status : string; cl_IssueType : string; cl_MaxPriority : option Z }.
Record FleetClaimResponse := mkClaimResp { fc_Success : bool; fc_Payload : option (IssueTypes.Types.Issue * list string); fc_Error : string }.
Record HeartbeatRequest := mkHeartbeatReq { hb_WorkerID : string }.
Record HeartbeatResponse := mkHeartbeatResp { hr_Success : bool; hr_LastHeartbeat : option Z; hr_Error : string }.

Definition maxWorkerIDLength : Z := 256.

(** ** Tokens ([jwt.go]) *)

(** What the code relies on of the JWT library: a token signed with a key is
    parsed to its claims, until it expires, when the key function gives this
    key for the method it was signed with. *)
Class Jwt := {
  SignedString : WebAuth.WorkerClaims -> string -> res string;
  ParseWithClaims : Z -> string -> (WebAuth.signing_method -> res string) -> res (WebAuth.WorkerClaims * bool);
  parse_signed : forall now claims key token kf,
    SignedString claims key = Ok token -> kf WebAuth.SigningMethodHMAC = Ok key ->
    now / second < WebAuth.ExpiresAt claims -> ParseWithClaims now token kf = Ok (claims, true);
}.

Record TokenConfig := mkTokenConfig { SigningKey : string; Expiry : Z }.

(** [NewNumericDate] keeps whole seconds. *)
Definition GenerateWorkerToken `{Jwt} (workerID : string) (repos : list string) (signingKey : string) (expiry now : Z) : res string :=
  let claims := WebAuth.mkClaims workerID repos (now / second) ((now + expiry) / second) in
  match SignedString claims signingKey with
  | Err e => Err (Wrapf "sign token: " e "")
  | Ok signed => Ok signed
  end.

(** ** Registration *)
Section store_handlers.
Context {redis : RedisServer} {jwt : Jwt}.
Context {worker_codec : JsonCodec Worker} {claim_codec : JsonCodec ClaimResponse} {result_codec : JsonCodec TaskResult}.
Context {register_body : JsonBody FleetRegisterRequest} {done_body : JsonBody FleetDoneRequest} {heartbeat_body : JsonBody HeartbeatRequest}.
Local Open Scope string_scope.

(** [RateLimiter.Allow]: its error is not looked at. *)
Record FleetRegisterConfig := mkRegisterConfig { APIKey : string; RateLimiter : option (string -> IO bool) }.

Definition register_failed (status : Z) (msg : string) : IO (Z * FleetRegisterResponse) :=
  mret (status, mkRegisterResp false "" msg).

Definition rate_limited (limiter : option (string -> IO bool)) (ip : string) : IO bool :=
  match limiter with
  | None => mret false
  | Some allow => r ← io_try (allow ip); mret (match r with Ok b => negb b | Err _ => false end)
  end.

Definition register_worker (tokenCfg : TokenConfig) (req : FleetRegisterRequest) : IO (Z * FleetRegisterResponse) :=
  now ← io_now;
  r ← io_try (RegisterWorker (mkWorker (rr_WorkerID req) (rr_Repos req) (now / second)));
  match r with
  | Err _ => register_failed 500 "failed to register worker"
  | Ok _ =>
      now ← io_now;
      match GenerateWorkerToken (rr_WorkerID req) (rr_Repos req) (SigningKey tokenCfg) (Expiry tokenCfg) now with
      | Err _ => register_failed 500 "failed to generate token"
      | Ok token => mret (201, mkRegisterResp true token "")
      end
  end.

Definition handleFleetRegisterWithStore (store : bool) (tokenCfg : option TokenConfig) (regCfg : option FleetRegisterConfig)
    (apiKeyHeader ip body : string) : IO (Z * FleetRegisterResponse) :=
  match store, tokenCfg with
  | true, Some tokenCfg =>
      match regCfg with
      | None => register_failed 503 "fleet authentication not configured"
      | Some regCfg =>
          if bool_decide (APIKey regCfg = "") then register_failed 503 "fleet authentication not configured"
          else if bool_decide (apiKeyHeader = "") then register_failed 401 "missing X-Fleet-API-Key header"
          else if negb (bool_decide (apiKeyHeader = APIKey regCfg)) then register_failed 401 "invalid API key"
          else
            limited ← rate_limited (RateLimiter regCfg) ip;
            if limited : bool then register_failed 429 "rate limit exceeded"
            else
              match decode_body body with
              | inr (status, msg) => register_failed status msg
              | inl req =>
                  if bool_decide (rr_WorkerID req = "") then register_failed 400 "worker_id is required"
                  else if (maxWorkerIDLength <? Z.of_nat (String.length (rr_WorkerID req)))%Z
                  then register_failed 400 "worker_id exceeds maximum length of 256 characters"
                  else register_worker tokenCfg req
              end
      end
  | _, _ => register_failed 503 "fleet API not available"
  end.

(** ** Completion *)
Definition done_failed (status : Z) (msg : string) : IO (Z * FleetDoneResponse) := mret (status, mkDoneResp false "" "" msg).

(** The result is recorded before the claim is given back. *)
Definition complete (workerID : string) (req : FleetDoneRequest) (claim : ClaimResponse) : IO (Z * FleetDoneResponse) :=
  let taskID := cr_TaskID claim in
  now ← io_now;
  r ← io_try (RecordTaskResult (mkTaskResult workerID taskID (dr_Success req) (dr_CommitSHA req) (dr_Error req) now));
  match r with
  | Err _ => done_failed 500 "failed to record task result"
  | Ok _ =>
      r ← io_try (ReleaseClaim taskID);
      match r with
      | Err _ => done_failed 500 "failed to release task claim"
      | Ok _ => io_try (ClearWorkerClaim workerID);; mret (200, mkDoneResp true taskID workerID "")
      end
  end.

Definition handleFleetDoneWithStore (store : bool) (workerID body : string) : IO (Z * FleetDoneResponse) :=
  if negb store then done_failed 503 "fleet API not available"
  else if bool_decide (workerID = "") then done_failed 400 "missing worker ID"
  else
    match decode_body body with
    | inr (status, msg) => done_failed status msg
    | inl req =>
        worker ← io_try (GetWorker workerID);
        match worker with
        | Err _ => done_failed 500 "failed to look up worker"
        | Ok None => done_failed 404 ("worker not found: " +:+ workerID)
        | Ok (Some _) =>
            claim ← io_try (GetWorkerClaim workerID);
            match claim with
            | Err _ => done_failed 500 "failed to look up worker claim"
            | Ok None => mret (200, mkDoneResp true "" workerID "")
            | Ok (Some claim) => complete workerID req claim
            end
        end
    end.

(** ** Heartbeats *)
Definition heartbeat_failed (status : Z) (msg : string) : IO (Z * HeartbeatResponse) := mret (status, mkHeartbeatResp false None msg).

Definition handleFleetHeartbeatWithStore (store : bool) (body : string) : IO (Z * HeartbeatResponse) :=
  if negb store then heartbeat_failed 503 "fleet store not initialized"
  else
    match decode_body body with
    | inr (status, msg) => heartbeat_failed status msg
    | inl req =>
        if bool_decide (hb_WorkerID req = "") then heartbeat_failed 400 "worker_id is required"
        else if (maxWorkerIDLength <? Z.of_nat (String.length (hb_WorkerID req)))%Z
        then heartbeat_failed 400 "worker_id exceeds maximum length of 256 characters"
        else
          r ← io_try (UpdateHeartbeat (hb_WorkerID req));
          match r with
          | Ok last => mret (200, mkHeartbeatResp true (Some (last / second)) "")
          | Err e =>
              if errors_is e ErrWorkerNotFound then heartbeat_failed 404 ("worker not found: " +:+ hb_WorkerID req)
              else heartbeat_failed 500 "failed to update heartbeat"
          end
    end.

(** ** The store's operations on a quiet network *)
Lemma get_record_quiet {A} `{JsonCodec A} nm id pre upre key (o : option (A * option Z)) wd :
  validateID id nm = None -> w_net wd = [] -> now_view wd !! key = (fun ax => mkEntry (VString (marshal ax.1)) ax.2) <$> o ->
  exists wd', (io_check (validateID id nm);; get_json pre upre key) wd = (wd', Ok (fst <$> o)) /\ quiet_to wd (now_view wd) wd'.
Proof. intros Hid Hq Hk. rewrite io_check_none by done. by apply get_json_quiet. Qed.

Lemma RecordTaskResult_quiet result wd :
  validateID (tr_TaskID result) "taskID" = None -> validateID (tr_WorkerID result) "workerID" = None -> w_net wd = [] ->
  exists wd', RecordTaskResult result wd = (wd', Ok tt) /\
    quiet_to wd (<[taskResultKey (tr_TaskID result) := mkEntry (VString (marshal result)) (Some (srv_ms wd + 86400000))]> (now_view wd)) wd'.
Proof.
  intros Ht Hw Hq. unfold RecordTaskResult. rewrite !io_check_none by done.
  destruct (set_json_quiet "record task result failed: " (taskResultKey (tr_TaskID result)) result defaultTaskResultTTL wd Hq eq_refl)
    as (wd1 & E & Hc). by exists wd1.
Qed.

Lemma ClearWorkerClaim_quiet id wd :
  validateID id "workerID" = None -> w_net wd = [] ->
  exists wd', ClearWorkerClaim id wd = (wd', Ok tt) /\ quiet_to wd (delete (workerClaimKey id) (now_view wd)) wd'.
Proof.
  intros Hid Hq. unfold ClearWorkerClaim. rewrite io_check_none by done.
  destruct (del_run (srv_ms wd) (now_view wd) (workerClaimKey id)) as [r R].
  destruct (round_trip_ok _ wd _ _ Hq R) as (wd1 & E1 & Hc1).
  rewrite (io_bind_ok _ _ _ _ _ (wrap_err_ok _ _ _ _ _ E1)). by exists wd1.
Qed.

Lemma result_claimed k t : taskResultKey k <> claimedTaskKey t. Proof. intros E. discriminate E. Qed.
Lemma result_times k : taskResultKey k <> claimTimesKey. Proof. intros E. discriminate E. Qed.
Lemma result_registration k w : taskResultKey k <> workerRegistrationKey w. Proof. intros E. discriminate E. Qed.
Lemma result_worker k w : taskResultKey k <> workerClaimKey w. Proof. intros E. discriminate E. Qed.
Lemma worker_claimed w t : workerClaimKey w <> claimedTaskKey t. Proof. intros E. discriminate E. Qed.
Lemma worker_times w : workerClaimKey w <> claimTimesKey. Proof. intros E. discriminate E. Qed.
Lemma worker_registration w w' : workerClaimKey w <> workerRegistrationKey w'. Proof. intros E. discriminate E. Qed.
Lemma registration_claimed w t : workerRegistrationKey w <> claimedTaskKey t. Proof. intros E. discriminate E. Qed.
Lemma registration_times w : workerRegistrationKey w <> claimTimesKey. Proof. intros E. discriminate E. Qed.
Hint Resolve result_claimed result_times result_registration result_worker worker_claimed worker_times worker_registration
  registration_claimed registration_times : go.
Hint Extern 1 (_ <> _) => apply not_eq_sym : go.

Lemma owner_result ks t k e : owner (<[taskResultKey k := e]> ks) t = owner ks t.
Proof. apply owner_ext. by rewrite lookup_insert_ne by auto with go. Qed.
Lemma times_result ks k e : times (<[taskResultKey k := e]> ks) = times ks.
Proof. unfold times. by rewrite lookup_insert_ne by auto with go. Qed.
Lemma owner_unclaim ks t id : owner (delete (workerClaimKey id) ks) t = owner ks t.
Proof. apply owner_ext. by rewrite lookup_delete_ne by auto with go. Qed.
Lemma times_unclaim ks id : times (delete (workerClaimKey id) ks) = times ks.
Proof. unfold times. by rewrite lookup_delete_ne by auto with go. Qed.
Lemma fl_typed_result ks k e : fl_typed ks -> fl_typed (<[taskResultKey k := e]> ks).
Proof. intros [H1 H2]. split; [intros t e'|intros e']; rewrite lookup_insert_ne by auto with go; [apply H1|apply H2]. Qed.

(** What the completion makes of the keys. *)
Definition completed_view (wd : world) (id : string) (req : FleetDoneRequest) (task : string) : keyspace :=
  let result := mkTaskResult id task (dr_Success req) (dr_CommitSHA req) (dr_Error req) (w_now wd + w_skew wd) in
  delete (workerClaimKey id)
    (drop_time (delete (claimedTaskKey task)
       (<[taskResultKey task := mkEntry (VString (marshal result)) (Some (srv_ms wd + 86400000))]> (now_view wd))) task).

Lemma complete_quiet id req claim wd :
  validateID id "workerID" = None -> validateID (cr_TaskID claim) "taskID" = None -> w_net wd = [] -> fl_typed (now_view wd) ->
  exists wd', complete id req claim wd = (wd', Ok (200, mkDoneResp true (cr_TaskID claim) id "")) /\
    quiet_to wd (completed_view wd id req (cr_TaskID claim)) wd'.
Proof.
  intros Hid Ht Hq H. unfold complete. set (task := cr_TaskID claim) in *. cbv zeta.
  rewrite (io_bind_ok io_now _ wd wd (w_now wd + w_skew wd)) by done.
  set (result := mkTaskResult id task _ _ _ _).
  destruct (RecordTaskResult_quiet result wd Ht Hid Hq) as (wd1 & E1 & Hc1).
  rewrite (io_bind_ok _ _ _ _ _ (io_try_ok _ _ _ _ E1)).
  destruct (ReleaseClaim_quiet task wd1 Ht (qt_net _ _ _ Hc1)) as (wd2 & E2 & Hc2).
  { rewrite (qt_view _ _ _ Hc1). by apply fl_typed_result. }
  rewrite (io_bind_ok _ _ _ _ _ (io_try_ok _ _ _ _ E2)). rewrite (qt_view _ _ _ Hc1) in Hc2.
  destruct (ClearWorkerClaim_quiet id wd2 Hid (qt_net _ _ _ Hc2)) as (wd3 & E3 & Hc3).
  rewrite (io_bind_ok _ _ _ _ _ (io_try_ok _ _ _ _ E3)). rewrite (qt_view _ _ _ Hc2) in Hc3.
  exists wd3. split; [done|]. exact (quiet_trans _ _ _ _ _ Hc1 (quiet_trans _ _ _ _ _ Hc2 Hc3)).
Qed.

(** Completing a task: with the worker registered and its claim in the store
    the result is recorded for a day, the claim on the task, its time and the
    worker's claim go, whoever holds the task by now, and other tasks are left
    alone. A repeated call reports success and changes nothing. *)
Theorem done_functional worker x claim y req body wd :
  let id := wk_WorkerID worker in
  let task := cr_TaskID claim in
  decode_body body = inl req -> validateID id "workerID" = None -> validateID task "taskID" = None ->
  w_net wd = [] -> fl_typed (now_view wd) ->
  now_view wd !! workerRegistrationKey id = Some (mkEntry (VString (marshal worker)) x) ->
  now_view wd !! workerClaimKey id = Some (mkEntry (VString (marshal claim)) y) ->
  let '(wd1, r1) := handleFleetDoneWithStore true id body wd in
  let '(wd2, r2) := handleFleetDoneWithStore true id body wd1 in
  r1 = Ok (200, mkDoneResp true task id "") /\
  (exists result, now_view wd1 !! taskResultKey task = Some (mkEntry (VString (marshal result)) (Some (srv_ms wd + 86400000))) /\
     result = mkTaskResult id task (dr_Success req) (dr_CommitSHA req) (dr_Error req) (w_now wd + w_skew wd)) /\
  owner (now_view wd1) task = None /\ times (now_view wd1) !! task = None /\ now_view wd1 !! workerClaimKey id = None /\
  (forall t, t <> task -> owner (now_view wd1) t = owner (now_view wd) t) /\
  r2 = Ok (200, mkDoneResp true "" id "") /\ now_view wd2 = now_view wd1.
Proof.
  intros id task Hb Hid Ht Hq H Hw Hcl.
  assert (id <> "") as Hne by (intros E; unfold validateID in Hid; by rewrite bool_decide_true in Hid).
  unfold handleFleetDoneWithStore. cbn [negb]. rewrite bool_decide_false, Hb by done.
  destruct (get_record_quiet "workerID" id "get worker failed: " "unmarshal worker: " (workerRegistrationKey id) (Some (worker, x)) wd Hid Hq Hw)
    as (wda & Ea & Hca).
  rewrite (io_bind_ok _ _ wd wda (Ok (Some worker))) by (by apply io_try_ok).
  destruct (get_record_quiet "workerID" id "get worker claim failed: " "unmarshal claim response: " (workerClaimKey id) (Some (claim, y)) wda Hid
    (qt_net _ _ _ Hca)) as (wdb & Eb & Hcb); [by rewrite (qt_view _ _ _ Hca)|].
  rewrite (io_bind_ok _ _ wda wdb (Ok (Some claim))) by (by apply io_try_ok).
  pose proof (quiet_trans _ _ _ _ _ Hca Hcb) as Hcab. rewrite (qt_view _ _ _ Hca) in Hcab.
  destruct (complete_quiet id req claim wdb Hid Ht (qt_net _ _ _ Hcb)) as (wd1 & -> & Hc1); [by rewrite (qt_view _ _ _ Hcab)|].
  assert (now_view wd1 = completed_view wd id req task) as Hv1.
  { rewrite (qt_view _ _ _ Hc1). unfold completed_view. by rewrite (qt_view _ _ _ Hcab), (qt_now _ _ _ Hcab), (qt_skew _ _ _ Hcab), (quiet_ms _ _ _ Hcab). }
  assert (now_view wd1 !! workerClaimKey id = None) as Hgone by (rewrite Hv1; apply lookup_delete_eq).
  assert (forall k, k <> workerClaimKey id -> k <> claimTimesKey -> k <> claimedTaskKey task -> k <> taskResultKey task -> now_view wd1 !! k = now_view wd !! k) as Hother.
  { intros k H1 H2 H3 H4. rewrite Hv1. unfold completed_view. cbv zeta.
    rewrite lookup_delete_ne, drop_time_lookup, lookup_delete_ne, lookup_insert_ne by done. done. }
  destruct (get_record_quiet "workerID" id "get worker failed: " "unmarshal worker: " (workerRegistrationKey id) (Some (worker, x)) wd1 Hid
    (qt_net _ _ _ Hc1)) as (wdc & Ec & Hcc); [by rewrite Hother by auto with go|].
  rewrite (io_bind_ok _ _ wd1 wdc (Ok (Some worker))) by (by apply io_try_ok).
  destruct (get_record_quiet (A := ClaimResponse) "workerID" id "get worker claim failed: " "unmarshal claim response: " (workerClaimKey id) None wdc Hid
    (qt_net _ _ _ Hcc)) as (wdd & Ed & Hcd); [by rewrite (qt_view _ _ _ Hcc)|].
  rewrite (io_bind_ok _ _ wdc wdd (Ok None)) by (by apply io_try_ok).
  split; [done|]. split; [eexists; split; [|reflexivity]|].
  { rewrite Hv1. unfold completed_view. cbv zeta. rewrite lookup_delete_ne, drop_time_lookup, lookup_delete_ne by auto with go. apply lookup_insert_eq. }
  split; [|split; [|split; [exact Hgone|split; [|split; [done|]]]]].
  - rewrite Hv1. unfold completed_view. cbv zeta. by rewrite owner_unclaim, owner_drop_time, owner_delete, decide_True.
  - rewrite Hv1. unfold completed_view. cbv zeta. by rewrite times_unclaim, times_drop_time, lookup_delete_eq.
  - intros t Hn. rewrite Hv1. unfold completed_view. cbv zeta.
    by rewrite owner_unclaim, owner_drop_time, owner_delete, decide_False, owner_result by done.
  - by rewrite (qt_view _ _ _ Hcd), (qt_view _ _ _ Hcc).
Qed.

(** ** What no handler and no enforcer writes *)
Section keeping.
Context (P : string -> Prop).

(** No key of the kind is there. *)
Definition none_of (ks : keyspace) : Prop := forall k, P k -> ks !! k = None.

Definition creates (c : cmd) : option string :=
  match c with
  | SET k _ _ | SETNX k _ _ | HSET k _ | ZADD k _ _ => Some k
  | _ => None
  end.
Definition harmless (c : cmd) : Prop := forall k, creates c = Some k -> ~ P k.

Lemma doc_exec_none t c ks k : ks !! k = None -> creates c <> Some k -> (doc_exec t c ks).1 !! k = None.
Proof.
  intros Hk Hc. destruct c; cbn [doc_exec creates] in *; repeat (case_match || case_bool_decide); simpl; try done;
    first [apply lookup_delete_None; by right | rewrite lookup_insert_ne; [done|intros ->; rewrite ?Hk in *; simpl in *; congruence]].
Qed.

Fixpoint all_harmless {A} (p : lua A) : Prop :=
  match p with LRet _ => True | LCall c k => harmless c /\ forall r, all_harmless (k r) end.

Lemma run_ks_none {A} t (p : lua A) ks : all_harmless p -> none_of ks -> none_of (run_ks t p ks).1.
Proof.
  revert ks. induction p as [a|c k IH]; intros ks; [done|]. cbn [all_harmless run_ks]. intros [Hc Hk] Hn.
  assert (none_of (doc_exec t c ks).1) as Hn'.
  { intros x Hx. apply doc_exec_none; [by apply Hn|]. intros E. by apply (Hc x). }
  destruct (doc_exec t c ks) as [ks' r]. cbn [fst] in Hn'. destruct r; auto.
Qed.

(** A piece of the program that leaves it so, on a quiet network. *)
Definition keeps {A} (m : IO A) : Prop :=
  forall wd, w_net wd = [] -> none_of (now_view wd) -> w_net (m wd).1 = [] /\ none_of (now_view (m wd).1).

Lemma keeps_trip {A} (p : lua A) : all_harmless p -> keeps (round_trip p).
Proof.
  intros Hp wd Hq Hn. destruct (round_trip_quiet p wd Hq) as (Hv & _ & _ & _ & Hw & _). split; [done|].
  rewrite Hv. by apply run_ks_none.
Qed.
Lemma keeps_ret {A} (a : A) : keeps (mret a). Proof. by intros wd Hq Hn. Qed.
Lemma keeps_fail {A} e : keeps (@io_fail _ A e). Proof. by intros wd Hq Hn. Qed.
Lemma keeps_now : keeps io_now. Proof. by intros wd Hq Hn. Qed.
Lemma keeps_check o : keeps (io_check o). Proof. intros wd Hq Hn. unfold io_check. by destruct o. Qed.
Lemma keeps_try {A} (m : IO A) : keeps m -> keeps (io_try m).
Proof. intros Hm wd Hq Hn. unfold io_try. specialize (Hm wd Hq Hn). by destruct (m wd). Qed.
Lemma keeps_wrap {A} pre (m : IO A) : keeps m -> keeps (wrap_err pre m).
Proof. intros Hm wd Hq Hn. unfold wrap_err. specialize (Hm wd Hq Hn). by destruct (m wd) as [? []]. Qed.
Lemma keeps_bind {A B} (m : IO A) (f : A -> IO B) : keeps m -> (forall a, keeps (f a)) -> keeps (m ≫= f).
Proof.
  intros Hm Hf wd Hq Hn. unfold mbind, IO_bind. specialize (Hm wd Hq Hn). destruct (m wd) as [wd1 [a|e]]; [|done].
  cbn [fst] in Hm. destruct Hm as [H1 H2]. exact (Hf a wd1 H1 H2).
Qed.
End keeping.
Hint Resolve keeps_trip keeps_ret keeps_fail keeps_now keeps_check keeps_try keeps_wrap keeps_bind : go.

(** Of the kind are the workers' claims and the results of tasks. *)
Definition completion_key (k : string) : Prop := exists x, k = workerClaimKey x \/ k = taskResultKey x.
Abbreviation idle := (none_of completion_key).
Abbreviation unharmed := (keeps completion_key).

Ltac keep :=
  repeat match goal with
  | |- unharmed (mbind _ _) => apply keeps_bind; [|intros]
  | |- unharmed (io_try _) => apply keeps_try
  | |- unharmed (wrap_err _ _) => apply keeps_wrap
  | |- unharmed (round_trip _) => apply keeps_trip; cbn [all_harmless one]; split; [|done]; intros k [= <-]; intros (x & [E|E]); discriminate E
  | |- unharmed (match ?x with _ => _ end) => destruct x
  | |- unharmed _ => first [apply keeps_ret|apply keeps_fail|apply keeps_now|apply keeps_check]
  end.

Lemma RegisterWorker_keeps w : unharmed (RegisterWorker w). Proof. unfold RegisterWorker, set_json. keep. Qed.
Lemma GetWorker_keeps id : unharmed (GetWorker id). Proof. unfold GetWorker, get_json. keep. Qed.
Lemma GetWorkerClaim_keeps id : unharmed (GetWorkerClaim id). Proof. unfold GetWorkerClaim, get_json. keep. Qed.
Lemma UpdateHeartbeat_keeps id : unharmed (UpdateHeartbeat id). Proof. unfold UpdateHeartbeat. keep. Qed.
Lemma ReleaseClaim_keeps t : unharmed (ReleaseClaim t). Proof. unfold ReleaseClaim, ClearClaimTime. keep. Qed.
Lemma lookup_owners_keeps l : unharmed (lookup_owners l).
Proof. induction l as [|[t sc] l IH]; cbn [lookup_owners]; keep; exact IH. Qed.
Lemma checkTimeouts_keeps cfg count : unharmed (checkTimeouts cfg None count).
Proof.
  unfold checkTimeouts, FindTimedOutTasks. apply keeps_bind; [keep; apply lookup_owners_keeps|]. intros tasks.
  revert count. induction tasks as [|t l IH]; intros count; cbn [handle_all]; [keep|]. apply keeps_bind; [|intros; apply IH].
  unfold handleTimeout. keep. apply ReleaseClaim_keeps.
Qed.
Hint Resolve RegisterWorker_keeps GetWorker_keeps GetWorkerClaim_keeps UpdateHeartbeat_keeps checkTimeouts_keeps : go.

Lemma no_claim id wd : w_net wd = [] -> idle (now_view wd) ->
  (GetWorkerClaim id wd).2 = Ok None \/ exists e, (GetWorkerClaim id wd).2 = Err e.
Proof.
  intros Hq Hn. unfold GetWorkerClaim. destruct (validateID id "workerID") eqn:E.
  { right. exists g. unfold io_check, mbind, IO_bind. done. }
  left. destruct (get_record_quiet (A := ClaimResponse) "workerID" id "get worker claim failed: " "unmarshal claim response: " (workerClaimKey id) None wd E Hq)
    as (wd' & Eg & _); [apply Hn; exists id; by left|]. rewrite E in Eg. by rewrite Eg.
Qed.

(** ** What the server does with the store: its handlers and the enforcer, which has
    no callback *)
Inductive hop :=
| HRegister (tokenCfg : option TokenConfig) (regCfg : option FleetRegisterConfig) (key ip body : string)
| HDone (workerID body : string)
| HHeartbeat (body : string)
| HEnforce (cfg : TimeoutConfig) (count : Z)
| HWait (dt : Z).

Definition run_hop (wd : world) (o : hop) : world :=
  match o with
  | HRegister tc rc key ip body => (handleFleetRegisterWithStore true tc rc key ip body wd).1
  | HDone id body => (handleFleetDoneWithStore true id body wd).1
  | HHeartbeat body => (handleFleetHeartbeatWithStore true body wd).1
  | HEnforce cfg count => (checkTimeouts cfg None count wd).1
  | HWait dt => wait (Z.max 0 dt) wd
  end.

(** The limiter keeps its own keys. *)
Definition limiter_apart (o : hop) : Prop :=
  match o with
  | HRegister _ (Some rc) _ _ _ => forall allow ip, RateLimiter rc = Some allow -> unharmed (allow ip)
  | _ => True
  end.

Lemma done_idle id body wd : w_net wd = [] -> idle (now_view wd) ->
  w_net (handleFleetDoneWithStore true id body wd).1 = [] /\ idle (now_view (handleFleetDoneWithStore true id body wd).1) /\
  exists status resp, (handleFleetDoneWithStore true id body wd).2 = Ok (status, resp) /\ dn_TaskID resp = "".
Proof.
  intros Hq Hn. unfold handleFleetDoneWithStore. cbn [negb].
  assert (forall st msg wd', w_net wd' = [] -> idle (now_view wd') -> w_net (done_failed st msg wd').1 = [] /\ idle (now_view (done_failed st msg wd').1) /\
    exists status resp, (done_failed st msg wd').2 = Ok (status, resp) /\ dn_TaskID resp = "") as Hf.
  { intros st msg wd' H1 H2. split; [done|]. split; [done|]. do 2 eexists. split; reflexivity. }
  case_bool_decide; [by apply Hf|]. destruct (decode_body body) as [req|[st msg]]; [|by apply Hf].
  destruct (GetWorker_keeps id wd Hq Hn) as [Hq1 Hn1]. unfold mbind, IO_bind, io_try.
  destruct (GetWorker id wd) as [wd1 [[w|]|e]]; cbn [fst] in *; [|by apply Hf..].
  destruct (GetWorkerClaim_keeps id wd1 Hq1 Hn1) as [Hq2 Hn2]. pose proof (no_claim id wd1 Hq1 Hn1) as Hc.
  destruct (GetWorkerClaim id wd1) as [wd2 [[c|]|e]]; cbn [fst snd] in *; [|split; [done|split; [done|do 2 eexists; split; reflexivity]]|by apply Hf].
  naive_solver.
Qed.

Lemma register_keeps store tc rc key ip body :
  (forall r allow ip, rc = Some r -> RateLimiter r = Some allow -> unharmed (allow ip)) ->
  unharmed (handleFleetRegisterWithStore store tc rc key ip body).
Proof.
  intros Hl. unfold handleFleetRegisterWithStore, register_failed, rate_limited, register_worker. destruct rc as [r|]; [|keep].
  destruct (RateLimiter r) as [allow|] eqn:E; keep; auto with go. by eapply Hl.
Qed.
Lemma heartbeat_keeps store body : unharmed (handleFleetHeartbeatWithStore store body).
Proof. unfold handleFleetHeartbeatWithStore, heartbeat_failed. keep. auto with go. Qed.

Lemma hop_idle o wd : limiter_apart o -> w_net wd = [] -> idle (now_view wd) -> w_net (run_hop wd o) = [] /\ idle (now_view (run_hop wd o)).
Proof.
  intros Hl Hq Hn. destruct o as [tc rc key ip body|id body|body|cfg count|dt]; cbn [run_hop].
  - apply register_keeps; [|done|done]. intros r allow ip' -> Ha. by apply Hl.
  - by destruct (done_idle id body wd Hq Hn) as (? & ? & _).
  - by apply heartbeat_keeps.
  - by apply checkTimeouts_keeps.
  - split; [done|]. rewrite wait_view by lia. intros k Hk. by rewrite expire_at_lookup, (Hn k Hk).
Qed.

(** C40. The server's own handlers never give a worker a claim that the completion
    could find: whatever is registered, claimed, kept alive, completed or timed
    out, no result of a task is ever recorded, and every completion that reports
    success names no task. *)
Theorem nothing_completed ops wd id body :
  w_net wd = [] -> idle (now_view wd) -> Forall limiter_apart ops ->
  let wd' := foldl run_hop wd ops in
  (forall task, now_view wd' !! taskResultKey task = None) /\
  exists status resp, (handleFleetDoneWithStore true id body wd').2 = Ok (status, resp) /\ dn_TaskID resp = "".
Proof.
  intros Hq Hn Hl. assert (w_net (foldl run_hop wd ops) = [] /\ idle (now_view (foldl run_hop wd ops))) as [Hq' Hn'].
  { revert wd Hq Hn. induction Hl as [|o ops Ho Hl IH]; intros wd Hq Hn; [done|]. cbn [foldl].
    destruct (hop_idle o wd Ho Hq Hn). by apply IH. }
  split; [intros task; apply Hn'; exists task; by right|]. by destruct (done_idle id body _ Hq' Hn') as (_ & _ & ?).
Qed.

(** ** From registration to the handlers behind the middleware *)
Lemma bearer_token t : WebAuth.bearer ("Bearer " +:+ t) = Some t.
Proof.
  unfold WebAuth.bearer. rewrite (proj2 (has_prefix_spec _ _)) by eauto.
  change 7%nat with (String.length "Bearer "). by rewrite str_drop_append.
Qed.

Lemma register_worker_created tc req wd wd' resp :
  register_worker tc req wd = (wd', Ok (201, resp)) ->
  GenerateWorkerToken (rr_WorkerID req) (rr_Repos req) (SigningKey tc) (Expiry tc) (w_now wd' + w_skew wd') = Ok (rg_Token resp).
Proof.
  unfold register_worker, mbind, IO_bind, io_now, io_try, register_failed. destruct (RegisterWorker _ wd) as [wd1 [u|e]]; [|done].
  destruct (GenerateWorkerToken _ _ _ _ _) as [t|e] eqn:E; [|done]. intros [= -> <-]. by rewrite E.
Qed.

(** C28. A worker that was registered, which takes the server's key, gets a token with
    which the middleware lets its requests pass, under its own name, until the
    token expires. *)
Theorem registered_worker_passes tc rc key ip body wd wd' resp :
  handleFleetRegisterWithStore true (Some tc) rc key ip body wd = (wd', Ok (201, resp)) ->
  SigningKey tc <> "" -> rg_Token resp <> "" ->
  (exists c, rc = Some c /\ key = APIKey c /\ key <> "") /\
  exists req, decode_body body = inl req /\ rr_WorkerID req <> "" /\
    forall now' (r : WebAuth.request) next hs,
      WebAuth.rq_Header r "Authorization" = "Bearer " +:+ rg_Token resp ->
      (now' / second < (w_now wd' + w_skew wd' + Expiry tc) / second)%Z ->
      exists claims, WebAuth.WorkerID claims = rr_WorkerID req /\
        WebAuth.NewFleetAuthMiddleware (ParseWithClaims now') (SigningKey tc) next r hs = next (Some claims) r hs.
Proof.
  unfold handleFleetRegisterWithStore, register_failed. intros E Hk Ht. destruct rc as [c|]; [|by simplify_eq].
  destruct (bool_decide_reflect (APIKey c = "")); [by simplify_eq|]. destruct (bool_decide_reflect (key = "")); [by simplify_eq|].
  destruct (bool_decide_reflect (key = APIKey c)); cbn [negb] in E; [|by simplify_eq].
  split; [by exists c|]. unfold mbind at 1, IO_bind at 1 in E.
  destruct (rate_limited (RateLimiter c) ip wd) as [wd1 [lim|er]]; [|by simplify_eq]. destruct lim; [by simplify_eq|].
  destruct (decode_body body) as [req|[st msg]] eqn:Eb.
  2: { exfalso. unfold decode_body in Eb. repeat case_match; simplify_eq. }
  destruct (bool_decide_reflect (rr_WorkerID req = "")); [by simplify_eq|]. destruct (maxWorkerIDLength <? _)%Z; [by simplify_eq|].
  exists req. split; [done|]. split; [done|]. intros now' r next hs Ha Hnow. apply register_worker_created in E.
  unfold GenerateWorkerToken in E. destruct (SignedString _ _) as [tok|er] eqn:Es; [|done]. injection E as ->.
  eexists. split; [|].
  2: { unfold WebAuth.NewFleetAuthMiddleware. rewrite (bool_decide_false (SigningKey tc = "")) by done. cbv zeta. rewrite Ha, bearer_token.
       rewrite bool_decide_false by (intros E; by destruct (rg_Token resp)). rewrite bool_decide_false by done.
       unfold WebAuth.ValidateWorkerToken. rewrite (parse_signed now' _ (SigningKey tc) _ _ Es) by done. reflexivity. }
  done.
Qed.
End store_handlers.

(** ** Claims *)
Record UpdateArgs := mkUpdateArgs { up_ID : string; up_Claim : bool; up_Status : option string }.
Record ReadyArgs := mkReadyArgs { ry_Limit : Z; ry_Type : string; ry_Priority : option Z }.

(** The client of the daemon: an answer that comes without an error is a success. *)
Class FleetClaimClient (C : Type) := {
  Update : UpdateArgs -> C -> Rpc.outcome * C;
  Ready : ReadyArgs -> C -> Rpc.outcome * C;
  update_answer : forall a c o c', Update a c = ((o, None), c') -> exists resp, o = Some resp /\ Rpc.Success resp = true;
  ready_answer : forall a c o c', Ready a c = ((o, None), c') -> exists resp, o = Some resp /\ Rpc.Success resp = true;
}.

(** [rpc.Client]: what [executeWithTimeout] returns without an error is a success.
    The client is paired with the time, its arguments with their JSON text. *)
Section rpc_client.
Context {D : Type} `{!Rpc.Server D} {req_codec : JsonCodec Rpc.Request} {resp_codec : JsonCodec Rpc.Response}.
Context (version getwd : string) (update_json : UpdateArgs -> res string) (ready_json : ReadyArgs -> res string).

Definition ClientUpdate (args : UpdateArgs) (c : Rpc.Client D * Z) : Rpc.outcome * (Rpc.Client D * Z) :=
  let '(r, c', now') := Rpc.Execute version getwd "update" (update_json args) c.2 c.1 in (r, (c', now')).
Definition ClientReady (args : ReadyArgs) (c : Rpc.Client D * Z) : Rpc.outcome * (Rpc.Client D * Z) :=
  let '(r, c', now') := Rpc.Execute version getwd "ready" (ready_json args) c.2 c.1 in (r, (c', now')).

Lemma Execute_answer operation args now (c : Rpc.Client D) o c' now' :
  Rpc.Execute version getwd operation args now c = ((o, None), c', now') -> exists resp, o = Some resp /\ Rpc.Success resp = true.
Proof.
  unfold Rpc.Execute, Rpc.ExecuteWithCwd, Rpc.executeWithTimeout. intros E.
  repeat (case_match; simplify_eq); eexists; (split; [done|]); by apply negb_false_iff.
Qed.

Program Definition rpc_client : FleetClaimClient (Rpc.Client D * Z) := {| Update := ClientUpdate; Ready := ClientReady |}.
Next Obligation.
  intros a c o c'. unfold ClientUpdate. destruct (Rpc.Execute _ _ _ _ _ _) as [[r c1] n1] eqn:E. intros [= -> _]. by eapply Execute_answer.
Qed.
Next Obligation.
  intros a c o c'. unfold ClientReady. destruct (Rpc.Execute _ _ _ _ _ _) as [[r c1] n1] eqn:E. intros [= -> _]. by eapply Execute_answer.
Qed.
End rpc_client.

Section claims.
Context {C : Type} {client : FleetClaimClient C}.
Context (unmarshal_issue : string -> option Types.Issue) (unmarshal_issues : string -> option (list Types.Issue)) {claim_body : JsonBody FleetClaimRequest}.
Local Open Scope string_scope.

Abbreviation metrics := (option (gmap string Z)).
Abbreviation answer := (Z * FleetClaimResponse)%type.

Definition recordClaim (result : string) (m : metrics) : metrics := RecordClaim result <$> m.
Definition claim_failed (status : Z) (msg : string) : answer := (status, mkClaimResp false None msg).
Definition no_content : answer := (204, mkClaimResp false None "").
Definition handed_over (issue : Types.Issue) : answer := (200, mkClaimResp true (Some (issue, Types.Labels issue)) "").
Definition claim_args (issueID : string) : UpdateArgs := mkUpdateArgs issueID true (Some "in_progress").

Definition claimSpecificIssue (issueID : string) (c : C) (m : metrics) : answer * C * metrics :=
  let '(r, c) := Update (claim_args issueID) c in
  match r with
  | (_, Some e) => (claim_failed (if contains (error_text e) "not found" then 404 else 500) "internal server error", c, m)
  | (None, None) => (claim_failed 500 "nil pointer dereference", c, m)
  | (Some resp, None) =>
      if negb (Rpc.Success resp) then
        if contains (Rpc.Error resp) "already claimed"
        then (claim_failed 409 "task already claimed by another worker", c, recordClaim ClaimResultCollision m)
        else (claim_failed 500 (Rpc.Error resp), c, m)
      else
        match unmarshal_issue (Rpc.Data resp) with
        | None => (claim_failed 500 "failed to parse claimed issue: json", c, m)
        | Some issue => (handed_over issue, c, recordClaim ClaimResultSuccess m)
        end
  end.

(** [None]: nothing was written to the answer. *)
Definition tryClaimIssue (issueID : string) (c : C) (m : metrics) : option answer * C * metrics :=
  let '(r, c) := Update (claim_args issueID) c in
  match r with
  | (_, Some _) | (None, None) => (None, c, m)
  | (Some resp, None) =>
      if negb (Rpc.Success resp) then (None, c, recordClaim ClaimResultCollision m)
      else
        match unmarshal_issue (Rpc.Data resp) with
        | None => (None, c, m)
        | Some issue => (Some (handed_over issue), c, recordClaim ClaimResultSuccess m)
        end
  end.

Fixpoint tryClaims (issues : list Types.Issue) (c : C) (m : metrics) : answer * C * metrics :=
  match issues with
  | [] => (no_content, c, m)
  | issue :: rest =>
      match tryClaimIssue (Types.ID issue) c m with
      | (Some a, c, m) => (a, c, m)
      | (None, c, m) => tryClaims rest c m
      end
  end.

Definition ready_args (req : FleetClaimRequest) : ReadyArgs := mkReadyArgs 10 (cl_IssueType req) (cl_MaxPriority req).

Definition claimReady (req : FleetClaimRequest) (c : C) (m : metrics) : answer * C * metrics :=
  let '(r, c) := Ready (ready_args req) c in
  match r with
  | (_, Some _) => (claim_failed 500 "internal server error", c, m)
  | (None, None) => (claim_failed 500 "nil pointer dereference", c, m)
  | (Some resp, None) =>
      if negb (Rpc.Success resp) then (claim_failed 500 (Rpc.Error resp), c, m)
      else
        match unmarshal_issues (Rpc.Data resp) with
        | None => (claim_failed 500 "failed to parse ready issues: json", c, m)
        | Some issues => tryClaims issues c m
        end
  end.

(** [body]: [None] without a [Content-Length]. [got]: what the pool gave; the
    connection goes back to it in every case. *)
Definition handleFleetClaimWithPool (pool : bool) (body : option string) (got : res C) (m : metrics) : answer * res C * metrics :=
  if negb pool then (claim_failed 503 "connection pool not initialized", got, m)
  else
    match (match body with Some text => decode_body text | None => inl (mkClaimReq "" "" "" None) end) with
    | inr (status, msg) => (claim_failed status msg, got, m)
    | inl req =>
        match got with
        | Err e =>
            (claim_failed (if errors_is e context_deadline_exceeded then 504 else 503) "daemon not available", got, recordClaim ClaimResultTimeout m)
        | Ok c =>
            let '(a, c, m) :=
              if negb (bool_decide (cl_IssueID req = "")) then claimSpecificIssue (cl_IssueID req) c m else claimReady req c m in
            (a, Ok c, m)
        end
    end.

(** ** A conflict is never reported *)
Definition collisions (m : metrics) : Z := match m with Some m => claim_count m ClaimResultCollision | None => 0 end.

Lemma collisions_other result m : result <> ClaimResultCollision -> collisions (recordClaim result m) = collisions m.
Proof. intros H. destruct m as [m|]; [|done]. cbn. unfold RecordClaim, claim_count. by rewrite lookup_insert_ne. Qed.

Lemma tryClaims_quiet issues c m a c' m' :
  tryClaims issues c m = (a, c', m') -> a.1 <> 409%Z /\ collisions m' = collisions m.
Proof.
  revert c m. induction issues as [|issue issues IH]; intros c m; cbn [tryClaims]; [by intros [= <- <- <-]|].
  unfold tryClaimIssue. destruct (Update (claim_args (Types.ID issue)) c) as [[o [e|]] c1] eqn:E; [by destruct o; apply IH|].
  destruct (update_answer _ _ _ _ E) as (resp & -> & Hs). rewrite Hs. cbn [negb].
  destruct (unmarshal_issue (Rpc.Data resp)); [|apply IH]. intros [= <- <- <-]. split; [done|]. by apply collisions_other.
Qed.

(** Over the client as it is, whose calls return an error for every answer that is
    no success, the handler never reports that another worker has the task: no 409
    is sent and no collision is counted. *)
Theorem conflicts_never_reported pool body got m a got' m' :
  handleFleetClaimWithPool pool body got m = (a, got', m') -> a.1 <> 409%Z /\ collisions m' = collisions m.
Proof.
  unfold handleFleetClaimWithPool. destruct (negb pool); [by intros [= <- <- <-]|].
  destruct (match body with Some _ => _ | None => _ end) as [req|[st msg]] eqn:Eb.
  2: { intros [= <- <- <-]. split; [|done]. destruct body; [|done]. unfold decode_body in Eb. cbn [fst]. repeat case_match; simplify_eq; done. }
  destruct got as [c|e]; [|intros [= <- <- <-]; split; [by destruct (errors_is _ _)|by apply collisions_other]].
  destruct (negb _).
  - unfold claimSpecificIssue. destruct (Update _ c) as [[o [e|]] c1] eqn:E; [by destruct o, (contains _ _); intros [= <- <- <-]|].
    destruct (update_answer _ _ _ _ E) as (resp & -> & Hs). rewrite Hs. cbn [negb].
    destruct (unmarshal_issue (Rpc.Data resp)); intros [= <- <- <-]; (split; [done|]); [by apply collisions_other|done].
  - unfold claimReady. destruct (Ready _ c) as [[o [e|]] c1] eqn:E; [by destruct o; intros [= <- <- <-]|].
    destruct (ready_answer _ _ _ _ E) as (resp & -> & Hs). rewrite Hs. cbn [negb].
    destruct (unmarshal_issues (Rpc.Data resp)) as [issues|]; [|by intros [= <- <- <-]].
    destruct (tryClaims issues c1 m) as [[a1 c2] m2] eqn:Et. intros [= <- <- <-]. by eapply tryClaims_quiet.
Qed.

(** ** Which issue a request gets *)
Section tracker.
(** A daemon that is reached: a claim of a free issue succeeds and answers with
    it, a claim of one that is taken fails, and nothing else happens. *)
Context (claimed : C -> gset string).
Hypothesis update_free : forall id c, id ∉ claimed c -> exists resp issue c',
  Update (claim_args id) c = ((Some resp, None), c') /\ claimed c' = {[id]} ∪ claimed c /\
  unmarshal_issue (Rpc.Data resp) = Some issue /\ Types.ID issue = id.
Hypothesis update_taken : forall id c, id ∈ claimed c -> exists o e c', Update (claim_args id) c = ((o, Some e), c') /\ claimed c' = claimed c.
Hypothesis ready_reads : forall req c, exists resp c', Ready (ready_args req) c = ((Some resp, None), c') /\ claimed c' = claimed c.

Lemma tryClaims_first issues c m :
  let '(a, c', _) := tryClaims issues c m in
  match head (filter (fun i => Types.ID i ∉ claimed c) issues) with
  | None => a = no_content /\ claimed c' = claimed c
  | Some i => exists issue, a = handed_over issue /\ Types.ID issue = Types.ID i /\ claimed c' = {[Types.ID i]} ∪ claimed c
  end.
Proof.
  revert c m. induction issues as [|i issues IH]; intros c m; cbn [tryClaims]; [done|].
  unfold tryClaimIssue. destruct (decide (Types.ID i ∈ claimed c)) as [Hi|Hi].
  - destruct (update_taken _ _ Hi) as (o & e & c1 & -> & Hc1). rewrite filter_cons_False by auto.
    specialize (IH c1 m). rewrite Hc1 in IH. by destruct o.
  - destruct (update_free _ _ Hi) as (resp & issue & c1 & E & Hc1 & Hu & Hid). rewrite E.
    destruct (update_answer _ _ _ _ E) as (? & [= <-] & Hs). rewrite Hs, Hu. cbn [negb]. rewrite filter_cons_True by done.
    cbn [head]. by exists issue.
Qed.

(** A request for work gets the first issue of the daemon's list that nobody has,
    and takes no other one; when all are taken it gets none and nothing changes. *)
Theorem claim_takes_first req c m issues resp c0 :
  Ready (ready_args req) c = ((Some resp, None), c0) -> unmarshal_issues (Rpc.Data resp) = Some issues ->
  let '(a, c', _) := claimReady req c m in
  match head (filter (fun i => Types.ID i ∉ claimed c) issues) with
  | None => a = no_content /\ claimed c' = claimed c
  | Some i => exists issue, a = handed_over issue /\ Types.ID issue = Types.ID i /\ claimed c' = {[Types.ID i]} ∪ claimed c
  end.
Proof.
  intros E Hu. destruct (ready_reads req c) as (resp' & c0' & E' & Hc0). rewrite E in E'. injection E' as <- <-.
  unfold claimReady. rewrite E. destruct (ready_answer _ _ _ _ E) as (? & [= <-] & Hs). rewrite Hs, Hu. cbn [negb].
  rewrite <- Hc0. apply tryClaims_first.
Qed.
End tracker.
End claims.

(** ** Witnesses *)
Section witnesses.
Local Open Scope string_scope.
Local Existing Instance mem_redis.

#[local] Instance worker_coded : JsonCodec Worker := worker_codec.
#[local] Instance claim_coded : JsonCodec ClaimResponse :=
  coded (fun c => (cr_TaskID c, cr_Success c, cr_Payload c)) (fun '(a, b, c) => mkClaimResponse a b c) ltac:(by intros []).
#[local] Instance result_coded : JsonCodec TaskResult :=
  coded (fun r => (tr_WorkerID r, tr_TaskID r, tr_Success r, tr_CommitSHA r, tr_Error r, tr_CompletedAt r))
    (fun '(a, b, c, d, e, f) => mkTaskResult a b c d e f) ltac:(by intros []).
#[local] Instance demo_register : JsonBody FleetRegisterRequest := fun s => Value (mkRegisterReq s []).
#[local] Instance demo_done : JsonBody FleetDoneRequest := fun s => Value (mkDoneReq true s "").
#[local] Instance demo_heartbeat : JsonBody HeartbeatRequest := fun s => Value (mkHeartbeatReq s).
#[local] Instance demo_claim : JsonBody FleetClaimRequest := fun s => Value (mkClaimReq s "" "" None).

(** A signature that is the key itself in front of the claims. *)
Definition claim_fields (x : string * WebAuth.WorkerClaims) : string * string * list string * Z * Z :=
  let '(k, WebAuth.mkClaims a b c d) := x in (k, a, b, c, d).
Definition of_fields (x : string * string * list string * Z * Z) : string * WebAuth.WorkerClaims :=
  let '(k, a, b, c, d) := x in (k, WebAuth.mkClaims a b c d).
Lemma of_claim_fields x : of_fields (claim_fields x) = x. Proof. by destruct x as [? []]. Qed.
Definition demo_claims : JsonCodec (string * WebAuth.WorkerClaims) := coded claim_fields of_fields of_claim_fields.
Definition demo_sign (claims : WebAuth.WorkerClaims) (key : string) : res string := Ok (@marshal _ demo_claims (key, claims)).
Definition demo_parse (now : Z) (token : string) (kf : WebAuth.signing_method -> res string) : res (WebAuth.WorkerClaims * bool) :=
  match @unmarshal _ demo_claims token with
  | None => Err (Msg "token is malformed")
  | Some (k, claims) =>
      match kf WebAuth.SigningMethodHMAC with
      | Err e => Err e
      | Ok key => if bool_decide (k = key) then Ok (claims, (now / second <? WebAuth.ExpiresAt claims)%Z) else Err (Msg "signature is invalid")
      end
  end.
Lemma demo_parse_signed now claims key token kf :
  demo_sign claims key = Ok token -> kf WebAuth.SigningMethodHMAC = Ok key -> (now / second < WebAuth.ExpiresAt claims)%Z ->
  demo_parse now token kf = Ok (claims, true).
Proof.
  unfold demo_sign, demo_parse. intros E Hk Hn. assert (token = @marshal _ demo_claims (key, claims)) as -> by congruence. rewrite (@unmarshal_marshal _ demo_claims), Hk, bool_decide_true by done.
  by rewrite (proj2 (Z.ltb_lt _ _)).
Qed.
#[local] Instance demo_jwt : Jwt := {| SignedString := demo_sign; ParseWithClaims := demo_parse; parse_signed := demo_parse_signed |}.

Definition w1_claim : ClaimResponse := mkClaimResponse "bd-1" true "".
Definition busy_keys : keyspace :=
  {[ workerRegistrationKey "w1" := mkEntry (VString (marshal worker1)) None; workerClaimKey "w1" := mkEntry (VString (marshal w1_claim)) None;
     claimedTaskKey "bd-1" := mkEntry (VString "w2") None ]}.
Definition busy_world : world := mkWorld (busy_keys : keyspace) 1700000000000000000 0 [] None.

Lemma busy_lookup k e : busy_keys !! k = Some e -> k = claimedTaskKey "bd-1" /\ ent_val e = VString "w2" \/
  k <> claimTimesKey /\ forall t, k <> claimedTaskKey t.
Proof.
  unfold busy_keys. rewrite !lookup_insert_Some. intros [[<- _]|[_ [[<- _]|[_ H]]]].
  - right. split; [|intros t]; intros E; discriminate E.
  - right. split; [|intros t]; intros E; discriminate E.
  - apply lookup_singleton_Some in H as [<- <-]. by left.
Qed.
Lemma busy_typed : fl_typed (now_view busy_world).
Proof.
  apply fl_typed_expire. change (fl_typed busy_keys). split; intros *; intros H;
    (apply busy_lookup in H as [[E H]|[Ht Hk]]; [|exfalso; naive_solver]); [by exists "w2"|discriminate E].
Qed.

(** The completion of a worker that lost its task in the meantime takes the claim
    from the one that has it now. *)
Lemma done_functional_witness :
  owner (now_view busy_world) "bd-1" = Some ("w2", None) /\
  let '(wd1, r1) := handleFleetDoneWithStore true "w1" "cafe" busy_world in
  r1 = Ok (200%Z, mkDoneResp true "bd-1" "w1" "") /\ owner (now_view wd1) "bd-1" = None.
Proof.
  split; [reflexivity|].
  pose proof (done_functional worker1 None w1_claim None (mkDoneReq true "cafe" "") "cafe" busy_world eq_refl eq_refl eq_refl eq_refl busy_typed
    eq_refl eq_refl) as X. cbv zeta in X. change (wk_WorkerID worker1) with "w1" in X. change (cr_TaskID w1_claim) with "bd-1" in X.
  destruct (handleFleetDoneWithStore true "w1" "cafe" busy_world) as [wd1 r1].
  destruct (handleFleetDoneWithStore true "w1" "cafe" wd1) as [wd2 r2]. exact (conj (proj1 X) (proj1 (proj2 (proj2 X)))).
Defined.

Definition demo_reg : FleetRegisterConfig := mkRegisterConfig "key" None.
Definition demo_hops : list hop :=
  [HRegister (Some (mkTokenConfig "secret" (60 * minute))) (Some demo_reg) "key" "10.0.0.1" "w1"; HHeartbeat "w1"; HWait minute;
   HEnforce DefaultTimeoutConfig 0; HDone "w1" "cafe"].

Lemma nothing_completed_witness :
  let wd' := foldl run_hop empty_world demo_hops in
  (handleFleetDoneWithStore true "w1" "cafe" wd').2 = Ok (200%Z, mkDoneResp true "" "w1" "") /\
  (forall task, now_view wd' !! taskResultKey task = None) /\
  exists status resp, (handleFleetDoneWithStore true "w1" "cafe" wd').2 = Ok (status, resp) /\ dn_TaskID resp = "".
Proof.
  cbv zeta. split; [vm_compute; reflexivity|].
  apply (nothing_completed demo_hops empty_world "w1" "cafe"); [reflexivity|intros k _; reflexivity|].
  unfold demo_hops. repeat (apply Forall_cons_2; [first [exact I|intros allow ip H; discriminate H]|]). apply Forall_nil_2.
Defined.

Definition demo_token : string := marshal (JsonCodec := demo_claims) ("secret", WebAuth.mkClaims "w1" [] 1700000000 1700003600).
Definition demo_cfg : TokenConfig := mkTokenConfig "secret" (60 * minute).
Lemma demo_registration :
  (handleFleetRegisterWithStore true (Some demo_cfg) (Some demo_reg) "key" "10.0.0.1" "w1" empty_world).2 =
  Ok (201%Z, mkRegisterResp true demo_token "").
Proof. vm_compute. reflexivity. Qed.
Lemma demo_token_made : demo_token <> "". Proof. vm_compute. discriminate. Qed.

Lemma registered_worker_passes_witness :
  exists req : FleetRegisterRequest, decode_body "w1" = inl req /\ rr_WorkerID req = "w1".
Proof.
  destruct (handleFleetRegisterWithStore true (Some demo_cfg) (Some demo_reg) "key" "10.0.0.1" "w1" empty_world) as [wd' r] eqn:E.
  assert (r = Ok (201%Z, mkRegisterResp true demo_token "")) as -> by (rewrite <- demo_registration, E; reflexivity).
  destruct (registered_worker_passes demo_cfg (Some demo_reg) "key" "10.0.0.1" "w1" empty_world wd' (mkRegisterResp true demo_token "") E)
    as [_ (req & Hd & _)]; [discriminate|exact demo_token_made|].
  exists req. split; [exact Hd|]. by injection Hd as <-.
Defined.

(** A daemon's tracker. *)
Definition issue_named (id : string) : Types.Issue :=
  Types.mkIssue id "" "t" "" "" "" "" "open" 2 "task" "" "" None 0 "" 0 None "" "" None None None "" 0 None None 0
    "" "" "" [] [] [] None "" "" "" "" false false false [] None [] None false "" "" 0 [] ""
    "" "" "" "" "" None "" "" "" "" "" "" "" "".

Definition track (a : UpdateArgs) (c : gset string) : Rpc.outcome * gset string :=
  if bool_decide (up_ID a ∈ c) then ((None, Some (Msg "operation failed: already claimed by bob")), c)
  else ((Some (Rpc.mkResponse true (up_ID a) ""), None), {[up_ID a]} ∪ c).
Lemma track_answer a c o c' : track a c = ((o, None), c') -> exists resp, o = Some resp /\ Rpc.Success resp = true.
Proof. unfold track. destruct (bool_decide _); [done|]. intros [= <- _]. by eexists. Qed.
Definition list_ready (a : ReadyArgs) (c : gset string) : Rpc.outcome * gset string := ((Some (Rpc.mkResponse true "" ""), None), c).
Lemma list_ready_answer a c o c' : list_ready a c = ((o, None), c') -> exists resp, o = Some resp /\ Rpc.Success resp = true.
Proof. intros [= <- _]. by eexists. Qed.
#[local] Instance demo_tracker : FleetClaimClient (gset string) :=
  {| Update := track; Ready := list_ready; update_answer := track_answer; ready_answer := list_ready_answer |}.

Definition read_issue (data : string) : option Types.Issue := Some (issue_named data).
Definition read_issues (data : string) : option (list Types.Issue) := Some [issue_named "bd-1"; issue_named "bd-2"].

Lemma claim_takes_first_witness :
  let '(a, c', _) := claimReady read_issue read_issues (mkClaimReq "" "" "" None) {["bd-1"]} None in
  exists issue, a = handed_over issue /\ Types.ID issue = "bd-2" /\ c' = {["bd-2"]} ∪ {["bd-1"]}.
Proof.
  refine (claim_takes_first read_issue read_issues (fun c => c) _ _ _ (mkClaimReq "" "" "" None) {["bd-1"]} None
    [issue_named "bd-1"; issue_named "bd-2"] (Rpc.mkResponse true "" "") {["bd-1"]} eq_refl eq_refl).
  - intros id c H. unfold Update, demo_tracker, track, claim_args, up_ID. rewrite bool_decide_false by done. by eexists _, _, _.
  - intros id c H. unfold Update, demo_tracker, track, claim_args, up_ID. rewrite bool_decide_true by done. by eexists _, _, _.
  - intros req c. by eexists _, _.
Defined.

Lemma conflicts_never_reported_witness :
  let '(a, _, m') := handleFleetClaimWithPool read_issue read_issues true (Some "bd-1") (Ok {["bd-1"]}) (Some ∅) in
  a.1 = 500%Z /\ a.1 <> 409%Z /\ collisions m' = 0%Z.
Proof.
  pose proof (conflicts_never_reported read_issue read_issues true (Some "bd-1") (Ok ({["bd-1"]} : gset string)) (Some ∅)) as X.
  destruct (handleFleetClaimWithPool _ _ _ _ _ _) as [[a got'] m'] eqn:E. specialize (X a got' m' eq_refl).
  split; [|exact X]. assert (a.1 = (handleFleetClaimWithPool read_issue read_issues true (Some "bd-1") (Ok ({["bd-1"]} : gset string)) (Some ∅)).1.1.1) as ->
    by (rewrite E; reflexivity). vm_compute. reflexivity.
Defined.
End witnesses.
End FleetApi.
