(* ===== verification/FleetKeys.v ===== *)
(** * FleetKeys: the key that signs the fleet's tokens,
    [internal/webui/fleet/signing_key.go] and its use in [cli/serve.go]

    Servers that share a Redis share a key: the first one creates it, the others
    read it. The store is a history of keys, one a version; other servers' scripts
    run before every round trip, and every round trip may fail. Lua's conversions
    of numbers are an interface. *)
From Stdlib Require Import Strings.Byte.
From S2P Require Import Prelude Redis Net FleetStore WebAuth.
Import Net.
Local Open Scope Z_scope.

Module Keys.
Import Fleet.
Local Open Scope string_scope.

Definition signingKeyPrefix : string := keyPrefix +:+ "jwt-signing-key:".
Definition signingKeySize : nat := 32.
Definition signingKeyVersionKey (version : Z) : string := signingKeyPrefix +:+ "v" +:+ itoa version.
Definition currentVersionKey : string := signingKeyPrefix +:+ "current-version".

Definition key : Type := list Byte.byte.

(** ** [encoding/hex] *)
Definition hex_encode : key -> string := WebAuth.hex_encode.

Definition from_hex (c : ascii) : option nat :=
  let n := nat_of_ascii c in
  if ((48 <=? n) && (n <=? 57))%nat then Some (n - 48)%nat
  else if ((97 <=? n) && (n <=? 102))%nat then Some (n - 87)%nat
  else if ((65 <=? n) && (n <=? 70))%nat then Some (n - 55)%nat
  else None.

Definition ErrLength : goerror := Sentinel "encoding/hex: odd length hex string".
Definition invalid_byte (c : ascii) : goerror := Msg ("encoding/hex: invalid byte: " +:+ String c "").

Fixpoint hex_decode (s : string) : res key :=
  match s with
  | "" => Ok []
  | String a "" => match from_hex a with None => Err (invalid_byte a) | Some _ => Err ErrLength end
  | String a (String b s') =>
      match from_hex a, from_hex b with
      | None, _ => Err (invalid_byte a)
      | _, None => Err (invalid_byte b)
      | Some x, Some y =>
          match hex_decode s' with
          | Ok l => Ok (default x00 (Byte.of_N (N.of_nat (16 * x + y))) :: l)
          | Err e => Err e
          end
      end
  end.

Lemma hex_byte (x : Byte.byte) : exists a b, WebAuth.hex_encode [x] = String a (String b "") /\
  exists m n, from_hex a = Some m /\ from_hex b = Some n /\ Byte.of_N (N.of_nat (16 * m + n)) = Some x.
Proof. do 2 eexists. split; [reflexivity|]. destruct x; do 2 eexists; (split; [reflexivity|]; split; reflexivity). Qed.

Lemma hex_roundtrip k : hex_decode (hex_encode k) = Ok k.
Proof.
  unfold hex_encode. induction k as [|x k IH]; [done|].
  destruct (hex_byte x) as (a & b & E & m & n & Ha & Hb & Hx).
  change (WebAuth.hex_encode (x :: k)) with (WebAuth.hex_encode [x] +:+ WebAuth.hex_encode k). rewrite E.
  rewrite !append_cons, append_nil_l. cbn [hex_decode]. by rewrite Ha, Hb, IH, Hx.
Qed.

(** ** Lua's numbers

    [tonumber], adding one, [tostring], and the conversion of a script's result
    to an integer: exact on the integers that [%.14g] prints in full. *)
Definition max_version : Z := 10 ^ 14 - 1.

Class LuaNumbers := {
  lua_num : Type;
  tonumber : string -> option lua_num;
  plus_one : lua_num -> lua_num;
  tostring : lua_num -> string;
  to_integer : lua_num -> Z;
  integers_exact : forall n, 0 < n < max_version -> exists x, tonumber (itoa n) = Some x /\
    tostring (plus_one x) = itoa (n + 1) /\ to_integer (plus_one x) = n + 1;
}.

(** ** The scripts *)
Definition getOrCreateLua (k1 k2 argv1 : string) : lua string :=
  LCall (GET k1) (fun current =>
    match current with
    | RNil => LCall (SET k1 "1" None) (fun _ => LCall (SET k2 argv1 None) (fun _ => LRet "created"))
    | _ => LRet "exists"
    end).

(** An error a script returns, or that ends it. *)
Definition lua_error {A} (text : string) : lua (res A) := LRet (Err (Msg text)).

Section manager.
Context {redis : RedisServer} {lua_numbers : LuaNumbers}.

Definition rotateLua (k1 argv1 argv2 : string) : lua (res Z) :=
  LCall (GET k1) (fun current =>
    match current with
    | RBulk s =>
        match tonumber s with
        | None => lua_error "attempt to perform arithmetic on a nil value"
        | Some x =>
            let new_version := plus_one x in
            LCall (SET (argv1 +:+ tostring new_version) argv2 None) (fun _ =>
            LCall (SET k1 (tostring new_version) None) (fun _ => LRet (Ok (to_integer new_version))))
        end
    | _ => lua_error "no signing key exists to rotate"
    end).

(** ** The manager; [rand] is what the generator of random bytes gives. *)
Definition io_res {A} (r : res A) : IO A := fun w => (w, r).

Definition getCurrentVersion : IO Z :=
  val ← wrap_err "read current version: " (round_trip (one (GET currentVersionKey)));
  match val with
  | RBulk s =>
      match atoi s with
      | Some v => if (v <? 1)%Z then io_fail (Msg ("invalid version in Redis: " +:+ quote s)) else mret v
      | None => io_fail (Msg ("invalid version in Redis: " +:+ quote s))
      end
  | _ => io_fail (Msg "no signing key exists in Redis")
  end.

Definition readKeyVersion (version : Z) : IO key :=
  val ← wrap_err ("read signing key v" +:+ itoa version +:+ ": ") (round_trip (one (GET (signingKeyVersionKey version))));
  match val with
  | RBulk encoded =>
      if bool_decide (encoded = "") then io_fail (Msg ("signing key v" +:+ itoa version +:+ " is empty in Redis"))
      else
        k ← wrap_err ("decode signing key v" +:+ itoa version +:+ ": ") (io_res (hex_decode encoded));
        if bool_decide (length k <> signingKeySize)
        then io_fail (Msg ("signing key v" +:+ itoa version +:+ " has invalid size: got " +:+ itoa (Z.of_nat (length k)) +:+ ", want 32"))
        else mret k
  | _ => io_fail (Msg ("signing key v" +:+ itoa version +:+ " not found in Redis"))
  end.

Definition GetOrCreateSigningKey (rand : res key) : IO key :=
  k ← wrap_err "generate signing key: " (io_res rand);
  result ← wrap_err "get-or-create signing key: "
    (round_trip (getOrCreateLua currentVersionKey (signingKeyVersionKey 1) (hex_encode k)));
  if bool_decide (result = "created") then mret k
  else version ← getCurrentVersion; readKeyVersion version.

Definition GetCurrentSigningKey : IO key := version ← getCurrentVersion; readKeyVersion version.

Definition RotateSigningKey (rand : res key) : IO Z :=
  k ← wrap_err "generate new signing key: " (io_res rand);
  wrap_err "rotate signing key: "
    (r ← round_trip (rotateLua currentVersionKey (signingKeyPrefix +:+ "v") (hex_encode k)); io_res r).

Definition GetSigningKeyByVersion (version : Z) : IO key := readKeyVersion version.

Definition GetCurrentAndPreviousKeys : IO (key * option key) :=
  version ← getCurrentVersion;
  current ← wrap_err ("read current key (v" +:+ itoa version +:+ "): ") (readKeyVersion version);
  if (1 <? version)%Z then
    previous ← io_try (readKeyVersion (version - 1));
    mret (current, match previous with Ok k => Some k | Err _ => None end)
  else mret (current, None).

(** [serve]'s choice of the key: the environment's, or the shared one; [None]: an
    ephemeral key, or with a bad variable the program ends ([Err]). *)
Definition serve_key (redis_configured : bool) (envKey : string) (rand : res key) : IO (res (option key)) :=
  if bool_decide (envKey <> "") then
    match hex_decode envKey with
    | Ok k => if (length k <? 32)%nat then mret (Err (Msg "LOOM_FLEET_JWT_KEY must be a hex-encoded string of at least 32 bytes"))
              else mret (Ok (Some k))
    | Err _ => mret (Err (Msg "LOOM_FLEET_JWT_KEY must be a hex-encoded string of at least 32 bytes"))
    end
  else if redis_configured then
    r ← io_try (GetOrCreateSigningKey rand);
    mret (Ok (match r with Ok k => Some k | Err _ => None end))
  else mret (Ok None).
End manager.

(** ** The history of keys in the store *)
Definition permanent (v : string) : entry := mkEntry (VString v) None.

Record key_state (ks : keyspace) (h : list key) : Prop := {
  st_cur : ks !! currentVersionKey =
    match h with [] => None | _ => Some (permanent (itoa (Z.of_nat (length h)))) end;
  st_key : forall i k, h !! i = Some k ->
    ks !! signingKeyVersionKey (Z.of_nat (S i)) = Some (permanent (hex_encode k)) /\ length k = signingKeySize;
}.

(** How it may change: not at all, or by a key; without rotations ([rot] is
    [false]) only from nothing. *)
Definition grows (rot : bool) (h h' : list key) : Prop :=
  h `prefix_of` h' /\ (rot = false -> h' = h \/ (h = [] /\ length h' = 1%nat)).

#[global] Instance grows_preorder rot : PreOrder (grows rot).
Proof.
  split; [by split; [done|left]|]. intros h1 h2 h3 [P1 G1] [P2 G2]. split; [by etrans|]. intros Hr.
  destruct (G1 Hr) as [->|[-> E]]; [by apply G2|]. destruct (G2 Hr) as [->|[-> ?]]; [by right|done].
Qed.

(** An operation that failed: the history is what it is. *)
Ltac at_error h1 := intros [= <- <-]; exists h1; split; [done|split; [done|by intros ? [=]]].

Lemma grows_snoc rot h k : (rot = false -> h = []) -> grows rot h (h ++ [k]).
Proof. intros H. split; [by apply prefix_app_r|]. intros Hr. right. by rewrite (H Hr). Qed.

Lemma grows_same h h' : grows false h h' -> h <> [] -> h' = h.
Proof. intros [_ H] Hne. destruct (H eq_refl) as [?|[? _]]; done. Qed.

(** A script of another server: it keeps the history or adds a key. *)
Definition friendly (rot : bool) (p : lua unit) : Prop := forall t ks h,
  key_state ks h -> Z.of_nat (length h) < max_version ->
  exists h', key_state (run_ks t p ks).1 h' /\ grows rot h h' /\ (length h' <= S (length h))%nat.

Lemma version_keys_differ i j : signingKeyVersionKey i = signingKeyVersionKey j -> i = j.
Proof.
  unfold signingKeyVersionKey. intros E. apply (inj (String.append signingKeyPrefix)), (inj (String.append "v")) in E.
  unfold itoa in E. by apply (inj pretty) in E.
Qed.

Lemma version_not_current i : signingKeyVersionKey i <> currentVersionKey.
Proof. unfold signingKeyVersionKey, currentVersionKey. intros E. apply (inj (String.append signingKeyPrefix)) in E. done. Qed.

Lemma key_state_expire t ks h : key_state ks h -> key_state (expire_at t ks) h.
Proof.
  intros [Hc Hk]. split.
  - rewrite expire_at_lookup, Hc. by destruct h.
  - intros i k Hi. destruct (Hk i k Hi) as [E ?]. by rewrite expire_at_lookup, E.
Qed.

(** Two histories in the same store have the same current key. *)
Lemma key_state_last ks a b : key_state ks a -> key_state ks b -> a <> [] -> b <> [] -> last a = last b.
Proof.
  intros [Ca Ha] [Cb Hb] Hna Hnb. assert (length a = length b) as Hl.
  { rewrite Ca in Cb. destruct a as [|x a], b as [|y b]; try done. injection Cb as E. unfold itoa in E. apply (inj pretty) in E. apply SuccNat2Pos.inj in E. simpl. by rewrite E. }
  rewrite !last_lookup, Hl. destruct (lookup_lt_is_Some_2 a (pred (length b))) as [x Hx]; [destruct b; simpl in *; [done|lia]|].
  destruct (lookup_lt_is_Some_2 b (pred (length b))) as [y Hy]; [destruct b; simpl in *; [done|lia]|].
  rewrite Hx, Hy. destruct (Ha _ _ Hx) as [Ex _], (Hb _ _ Hy) as [Ey _]. rewrite Ex in Ey. injection Ey as E.
  apply (f_equal hex_decode) in E. rewrite !hex_roundtrip in E. congruence.
Qed.

(** What the scripts do to the history. *)
Lemma key_state_first ks h k : key_state ks h -> h = [] -> length k = signingKeySize ->
  key_state (<[signingKeyVersionKey 1 := permanent (hex_encode k)]> (<[currentVersionKey := permanent "1"]> ks)) [k].
Proof.
  intros _ -> Hk. split.
  - rewrite lookup_insert_ne by apply version_not_current. by rewrite lookup_insert_eq.
  - intros [|i] k' [= <-]. split; [|done]. by rewrite lookup_insert_eq.
Qed.

Lemma key_state_next ks h k : key_state ks h -> h <> [] -> length k = signingKeySize ->
  key_state (<[currentVersionKey := permanent (itoa (Z.of_nat (length h) + 1))]>
               (<[signingKeyVersionKey (Z.of_nat (length h) + 1) := permanent (hex_encode k)]> ks)) (h ++ [k]).
Proof.
  intros [_ Hh] Hne Hk. split.
  - rewrite lookup_insert_eq. assert (Z.of_nat (length (h ++ [k])) = Z.of_nat (length h) + 1) as E by (rewrite length_app; simpl; lia).
    rewrite E. by destruct h.
  - intros i k' Hi. rewrite lookup_insert_ne by (apply not_eq_sym, version_not_current).
    apply lookup_app_Some in Hi as [Hi|[Hge Hi]].
    + pose proof (lookup_lt_Some _ _ _ Hi). rewrite lookup_insert_ne; [by apply Hh|].
      intros E%version_keys_differ. lia.
    + apply list_lookup_singleton_Some in Hi as [Hi <-]. replace (Z.of_nat (S i)) with (Z.of_nat (length h) + 1) by lia.
      by rewrite lookup_insert_eq.
Qed.

Section scripts.
Context {lua_numbers : LuaNumbers}.

Lemma getOrCreate_run t ks h k : key_state ks h -> length k = signingKeySize ->
  match h with
  | [] => exists ks', run_ks t (getOrCreateLua currentVersionKey (signingKeyVersionKey 1) (hex_encode k)) ks = (ks', Ok "created") /\
            key_state ks' [k]
  | _ => run_ks t (getOrCreateLua currentVersionKey (signingKeyVersionKey 1) (hex_encode k)) ks = (ks, Ok "exists")
  end.
Proof.
  intros Hs Hk. unfold getOrCreateLua. cbn [run_ks doc_exec]. rewrite (st_cur _ _ Hs). destruct h as [|x h]; [|done]. simpl.
  eexists. split; [done|]. by eapply key_state_first.
Qed.

Lemma rotate_run t ks h k : key_state ks h -> length k = signingKeySize -> Z.of_nat (length h) < max_version ->
  match h with
  | [] => exists e, run_ks t (rotateLua currentVersionKey (signingKeyPrefix +:+ "v") (hex_encode k)) ks = (ks, Ok (Err e))
  | _ => exists ks', run_ks t (rotateLua currentVersionKey (signingKeyPrefix +:+ "v") (hex_encode k)) ks =
            (ks', Ok (Ok (Z.of_nat (length h) + 1))) /\ key_state ks' (h ++ [k])
  end.
Proof.
  intros Hs Hk Hm. unfold rotateLua. cbn [run_ks doc_exec]. rewrite (st_cur _ _ Hs). destruct h as [|x h]; [by eexists|].
  cbn [fmap option_fmap option_map ent_val permanent].
  destruct (integers_exact (Z.of_nat (length (x :: h)))) as (n & -> & Ht & Hi); [simpl in *; lia|].
  cbn [run_ks doc_exec]. rewrite Ht, Hi, append_assoc. eexists. split; [done|].
  by apply (key_state_next ks (x :: h) k).
Qed.

(** The managers' own scripts are friendly to each other. *)
Definition discard {A} (p : lua A) : lua unit :=
  (fix go p := match p with LRet _ => LRet tt | LCall c k => LCall c (fun r => go (k r)) end) p.

Lemma run_discard {A} t (p : lua A) ks : (run_ks t (discard p) ks).1 = (run_ks t p ks).1.
Proof.
  revert ks. induction p as [a|c k IH]; intros ks; [done|]. simpl. destruct (doc_exec t c ks) as [ks' r].
  destruct r; try apply IH. done.
Qed.

Lemma getOrCreate_friendly rot k : length k = signingKeySize ->
  friendly rot (discard (getOrCreateLua currentVersionKey (signingKeyVersionKey 1) (hex_encode k))).
Proof.
  intros Hk t ks h Hs _. pose proof (getOrCreate_run t ks h k Hs Hk) as H. destruct h as [|x h].
  - destruct H as (ks' & E & Hs'). exists [k]. rewrite run_discard, E. split; [done|].
    split; [by apply (grows_snoc rot [])|simpl; lia].
  - exists (x :: h). rewrite run_discard, H. split; [done|]. split; [reflexivity|simpl; lia].
Qed.

Lemma rotate_friendly k : length k = signingKeySize ->
  friendly true (discard (rotateLua currentVersionKey (signingKeyPrefix +:+ "v") (hex_encode k))).
Proof.
  intros Hk t ks h Hs Hm. pose proof (rotate_run t ks h k Hs Hk Hm) as H. destruct h as [|x h].
  - destruct H as (e & E). exists []. rewrite run_discard, E. split; [done|]. split; [reflexivity|simpl; lia].
  - destruct H as (ks' & E & Hs'). exists ((x :: h) ++ [k])%list. rewrite run_discard, E. split; [done|].
    split; [by apply grows_snoc|rewrite length_app; simpl; lia].
Qed.
End scripts.

(** ** A round trip among friendly servers *)
Section trips.
Context {redis : RedisServer} {lua_numbers : LuaNumbers} (rot : bool).

Definition scripts (net : list trip) : nat := sum_list_with (fun tr => length (trip_others tr)) net.

(** The rest of the schedule: no delay is negative and the others are friendly. *)
Definition good_net (net : list trip) : Prop :=
  Forall (fun tr => 0 <= trip_delay tr /\ Forall (friendly rot) (trip_others tr)) net.

(** The history in the store, with room for what the others and [n] scripts of ours
    may add. *)
Record holds (n : nat) (w : world) (h : list key) : Prop := {
  ho_state : key_state (now_view w) h;
  ho_net : good_net (w_net w);
  ho_room : Z.of_nat (length h + scripts (w_net w) + n) < max_version;
}.

Lemma run_others_state t ps d h : Forall (friendly rot) ps -> key_state (view d t) h ->
  Z.of_nat (length h + length ps) < max_version ->
  exists h', key_state (view (run_others t ps d) t) h' /\ grows rot h h' /\ (length h' <= length h + length ps)%nat.
Proof.
  intros HF. revert d h. induction HF as [|p ps Hp _ IH]; intros d h Hs Hm; cbn [run_others foldl].
  - exists h. split; [done|]. split; [reflexivity|simpl; lia].
  - simpl in Hm. destruct (Hp t (view d t) h Hs) as (h1 & Hs1 & Hg1 & Hl1); [lia|].
    destruct (IH (run_db t p d).1 h1) as (h2 & Hs2 & Hg2 & Hl2); [|lia|].
    + by rewrite (proj1 (run_db_view t p d)).
    + exists h2. split; [exact Hs2|]. split; [by etrans|simpl; lia].
Qed.

(** Either the script ran on the history [h1] that the others left, and we may get its
    result or an error; or it did not, and we get an error. *)
Lemma round_trip_state {A} (p : lua A) n w h w' r : holds n w h -> round_trip p w = (w', r) ->
  exists h1 ks1 t, key_state ks1 h1 /\ grows rot h h1 /\ good_net (w_net w') /\
    (length h1 + scripts (w_net w') <= length h + scripts (w_net w))%nat /\
    ((now_view w' = (run_ks t p ks1).1 /\ (r = (run_ks t p ks1).2 \/ exists e, r = Err e)) \/
     (now_view w' = ks1 /\ exists e, r = Err e)).
Proof.
  intros [Hs Hn Hm]. unfold round_trip. destruct (w_net w) as [|tr net] eqn:Ew.
  { destruct (run_db (srv_ms w) p (w_db w)) as [d r0] eqn:E. intros [= <- <-].
    pose proof (run_db_view (srv_ms w) p (w_db w)) as [Hv Hr]. rewrite E in Hv, Hr. simpl in Hv, Hr.
    exists h, (now_view w), (srv_ms w). split; [done|]. split; [reflexivity|]. split; [done|]. split; [simpl; lia|]. left.
    split; [exact Hv|by left]. }
  apply Forall_cons in Hn as [[Hd Hf] Hn]. set (now := w_now w + trip_delay tr). set (t := now / ms).
  assert (key_state (view (w_db w) t) h) as Hs1.
  { rewrite (view_mono (w_db w) (srv_ms w) t) by (apply Z.div_le_mono; unfold now, ms; lia). by apply key_state_expire. }
  simpl in Hm. destruct (run_others_state t (trip_others tr) (w_db w) h Hf Hs1) as (h1 & Hs2 & Hg & Hl); [lia|].
  set (d0 := run_others t (trip_others tr) (w_db w)) in *. pose proof (run_db_view t p d0) as [Hv Hr].
  destruct (trip_fault tr) as [[e executed]|].
  - intros [= <- <-]. exists h1, (view d0 t), t. cbn [w_net]. split_and!; [done..|simpl; lia|]. unfold now_view, srv_ms. cbn [w_db w_now].
    fold t. destruct executed; [left|right]; split; [exact Hv|right; by eexists|done|by eexists].
  - destruct (run_db t p d0) as [d r0]. intros [= <- <-]. exists h1, (view d0 t), t. cbn [w_net].
    split_and!; [done..|simpl; lia|]. left. unfold now_view, srv_ms. cbn [w_db w_now]. fold t. split; [exact Hv|left; exact Hr].
Qed.

(** A script that only reads. *)
Lemma read_trip c n w h w' r : holds n w h -> (forall t ks, (doc_exec t c ks).1 = ks) -> round_trip (one c) w = (w', r) ->
  exists h1, holds n w' h1 /\ grows rot h h1 /\
    forall a, r = Ok a -> exists t ks, key_state ks h1 /\ (doc_exec t c ks).2 = a.
Proof.
  intros Hh Hc E. destruct (round_trip_state _ _ _ _ _ _ Hh E) as (h1 & ks1 & t & Hs & Hg & Hn & Hl & H). destruct Hh as [_ _ Hm].
  pose proof (Hc t ks1) as Hc1. unfold one in H. cbn [run_ks] in H. destruct (doc_exec t c ks1) as [ks' r0] eqn:Ed. simpl in Hc1. subst ks'.
  assert (now_view w' = ks1) as Hv by (destruct H as [[-> _]|[-> _]]; [by destruct r0|done]).
  exists h1. split; [split; [by rewrite Hv|done|lia]|]. split; [done|]. intros a ->. exists t, ks1. split; [done|]. rewrite Ed. simpl.
  destruct H as [[_ [Hr|[e Hr]]]|[_ [e Hr]]]; [|done..]. destruct r0; simpl in Hr; congruence.
Qed.

(** ** The manager's operations *)
Lemma get_state k n w h w' r : holds n w h -> round_trip (one (GET k)) w = (w', r) ->
  exists h1, holds n w' h1 /\ grows rot h h1 /\
    forall a, r = Ok a -> exists ks, key_state ks h1 /\
      a = match ent_val <$> ks !! k with None => RNil | Some (VString s) => RBulk s | Some _ => wrongtype end.
Proof.
  intros Hh E. destruct (read_trip (GET k) n w h w' r Hh) as (h1 & Hh1 & Hg & Ha); [|done|].
  { intros t ks. simpl. by destruct (ent_val <$> ks !! k) as [[]|]. }
  exists h1. split; [done|]. split; [done|]. intros a Ea. destruct (Ha a Ea) as (t & ks & Hs & <-). exists ks. split; [done|].
  simpl. by destruct (ent_val <$> ks !! k) as [[]|].
Qed.

Lemma getCurrentVersion_state n w h w' r : holds n w h -> getCurrentVersion w = (w', r) ->
  exists h1, holds n w' h1 /\ grows rot h h1 /\ forall v, r = Ok v -> h1 <> [] /\ v = Z.of_nat (length h1).
Proof.
  intros Hh. unfold getCurrentVersion, mbind, IO_bind, wrap_err, io_fail, mret, IO_ret.
  destruct (round_trip (one (GET currentVersionKey)) w) as [w1 r1] eqn:E.
  destruct (get_state _ _ _ _ _ _ Hh E) as (h1 & Hh1 & Hg & Ha). destruct r1 as [val|e].
  2:{ at_error h1. }
  destruct (Ha val eq_refl) as (ks & Hs & ->). rewrite (st_cur _ _ Hs). intros Hr. exists h1.
  assert (w' = w1) as -> by (destruct h1; [by simplify_eq/=|]; simpl in Hr; destruct (atoi _) as [v|]; [case_match|]; by simplify_eq/=).
  split; [done|]. split; [done|]. intros v ->. destruct h1 as [|x h1]; [by simplify_eq/=|]. split; [done|].
  cbn [fmap option_fmap option_map ent_val permanent] in Hr. rewrite atoi_itoa in Hr. case_bool_decide; [|by simplify_eq/=].
  case_match; by simplify_eq/=.
Qed.

Lemma readKeyVersion_state v n w h w' r : holds n w h -> readKeyVersion v w = (w', r) ->
  exists h1, holds n w' h1 /\ grows rot h h1 /\
    forall k, r = Ok k -> 1 <= v <= Z.of_nat (length h) -> h !! Z.to_nat (v - 1) = Some k.
Proof.
  intros Hh. unfold readKeyVersion, mbind, IO_bind, wrap_err, io_res, io_fail, mret, IO_ret.
  destruct (round_trip (one (GET (signingKeyVersionKey v))) w) as [w1 r1] eqn:E.
  destruct (get_state _ _ _ _ _ _ Hh E) as (h1 & Hh1 & Hg & Ha). destruct r1 as [val|e].
  2:{ at_error h1. }
  destruct (Ha val eq_refl) as (ks & Hs & Hval). intros Hr. exists h1.
  assert (w' = w1) as ->.
  { destruct val; try by simplify_eq/=. case_bool_decide; [by simplify_eq/=|]. destruct (hex_decode s); [|by simplify_eq/=].
    case_bool_decide; by simplify_eq/=. }
  split; [done|]. split; [done|]. intros k -> Hv. destruct (lookup_lt_is_Some_2 h (Z.to_nat (v - 1))) as [k0 Hk0]; [lia|].
  rewrite Hk0. destruct Hg as [[l Hl] _]. destruct (st_key _ _ Hs (Z.to_nat (v - 1)) k0) as [Ek _].
  { rewrite Hl. by apply lookup_app_l_Some. }
  replace (Z.of_nat (S (Z.to_nat (v - 1)))) with v in Ek by lia. rewrite Ek in Hval. simpl in Hval. subst val.
  case_bool_decide; [by simplify_eq/=|]. rewrite hex_roundtrip in Hr. case_bool_decide; by simplify_eq/=.
Qed.

Lemma getOrCreate_trip n k w h w' r : holds (S n) w h -> length k = signingKeySize ->
  round_trip (getOrCreateLua currentVersionKey (signingKeyVersionKey 1) (hex_encode k)) w = (w', r) ->
  exists h1, holds n w' h1 /\ grows rot h h1 /\ forall a, r = Ok a -> (a = "created" /\ h1 = [k]) \/ (a = "exists" /\ h1 <> []).
Proof.
  intros Hh Hk E. destruct (round_trip_state _ _ _ _ _ _ Hh E) as (h1 & ks1 & t & Hs & Hg & Hn & Hl & H). destruct Hh as [_ _ Hm].
  pose proof (getOrCreate_run t ks1 h1 k Hs Hk) as HL. destruct h1 as [|x h1].
  - destruct HL as (ks' & EL & Hs'). rewrite EL in H. simpl in H. destruct H as [[Hv Hr]|[Hv [e ->]]].
    + exists [k]. split; [split; [by rewrite Hv|done|simpl in *; lia]|]. split; [etrans; [exact Hg|by apply (grows_snoc rot [])]|].
      intros a ->. destruct Hr as [[= ->]|[e ?]]; [by left|done].
    + exists []. split; [split; [by rewrite Hv|done|simpl in *; lia]|]. by split.
  - rewrite HL in H. simpl in H. assert (now_view w' = ks1) as Hv by (by destruct H as [[-> _]|[-> _]]).
    exists (x :: h1). split; [split; [by rewrite Hv|done|simpl in *; lia]|]. split; [done|]. intros a ->. right.
    destruct H as [[_ [[= ->]|[e ?]]]|[_ [e ?]]]; done.
Qed.

Lemma GetOrCreateSigningKey_state n k w h w' r : holds (S n) w h -> length k = signingKeySize ->
  GetOrCreateSigningKey (Ok k) w = (w', r) ->
  exists h', holds n w' h' /\ grows rot h h' /\
    forall k', r = Ok k' -> exists h1, grows rot h h1 /\ grows rot h1 h' /\ last h1 = Some k'.
Proof.
  intros Hh Hk. unfold GetOrCreateSigningKey, mbind, IO_bind, wrap_err, io_res, io_fail, mret, IO_ret.
  destruct (round_trip _ w) as [w1 r1] eqn:E. destruct (getOrCreate_trip _ _ _ _ _ _ Hh Hk E) as (h1 & Hh1 & Hg1 & Ha).
  destruct r1 as [a|e]; [|at_error h1].
  destruct (Ha a eq_refl) as [[-> ->]|[-> Hne]].
  { rewrite bool_decide_true by done. intros [= <- <-]. exists [k]. split; [done|]. split; [done|].
    intros k' [= <-]. exists [k]. split; [done|]. split; [reflexivity|done]. }
  rewrite bool_decide_false by done. destruct (getCurrentVersion w1) as [w2 r2] eqn:E2.
  destruct (getCurrentVersion_state _ _ _ _ _ Hh1 E2) as (h2 & Hh2 & Hg2 & Hv). assert (grows rot h h2) as Hg12 by (by etrans).
  destruct r2 as [v|e]; [|at_error h2]. destruct (Hv v eq_refl) as [Hne2 ->].
  destruct (readKeyVersion _ w2) as [w3 r3] eqn:E3. intros [= <- <-].
  destruct (readKeyVersion_state _ _ _ _ _ _ Hh2 E3) as (h3 & Hh3 & Hg3 & Hk3).
  exists h3. split; [done|]. split; [by etrans|]. intros k' Ek. exists h2. split; [done|]. split; [done|].
  rewrite last_lookup. rewrite <- (Hk3 k' Ek); [f_equal|]; destruct h2; simpl in *; lia || done.
Qed.

Lemma RotateSigningKey_state n k w h w' r : rot = true -> holds (S n) w h -> length k = signingKeySize ->
  RotateSigningKey (Ok k) w = (w', r) ->
  exists h', holds n w' h' /\ grows rot h h' /\
    forall v, r = Ok v -> exists h1, grows rot h h1 /\ h1 <> [] /\ h' = (h1 ++ [k])%list /\ v = Z.of_nat (length h').
Proof.
  intros Hrot Hh Hk. unfold RotateSigningKey, mbind, IO_bind, wrap_err, io_res, io_fail, mret, IO_ret.
  destruct (round_trip _ w) as [w1 r1] eqn:E. destruct (round_trip_state _ _ _ _ _ _ Hh E) as (h1 & ks1 & t & Hs & Hg & Hn & Hl & H).
  destruct Hh as [_ _ Hm]. pose proof (rotate_run t ks1 h1 k Hs Hk ltac:(lia)) as HL.
  assert (forall ks' x, now_view w1 = ks' -> key_state ks' x -> (length x <= S (length h1))%nat -> holds n w1 x) as Hholds.
  { intros ks' x <- Hx Hlx. split; [done|done|lia]. }
  destruct h1 as [|x h1].
  - destruct HL as (e & EL). rewrite EL in H. assert (now_view w1 = ks1) as Hv by (by destruct H as [[-> _]|[-> _]]).
    assert (r1 = Ok (Err e) \/ exists e', r1 = Err e') as Hr1 by (destruct H as [[_ ?]|[_ ?]]; tauto).
    intros Hr. exists []. assert (w' = w1) as -> by (by destruct Hr1 as [-> | [e' ->]]; simplify_eq/=).
    split; [eapply Hholds; [done|done|simpl; lia]|]. split; [done|]. intros v ->. by destruct Hr1 as [-> | [e' ->]]; simplify_eq/=.
  - destruct HL as (ks' & EL & Hs'). rewrite EL in H. simpl in H. destruct H as [[Hv Hr1]|[Hv [e ->]]].
    + intros Hr. exists ((x :: h1) ++ [k])%list. assert (w' = w1) as -> by (by destruct Hr1 as [-> | [e' ->]]; simplify_eq/=).
      split; [eapply Hholds; [done|done|rewrite length_app; simpl; lia]|].
      split; [etrans; [exact Hg|by apply grows_snoc; rewrite Hrot]|]. intros v ->.
      destruct Hr1 as [-> | [e' ->]]; [|by simplify_eq/=]. exists (x :: h1). split_and!; [done|done|done|].
      simplify_eq/=. rewrite length_app. simpl. lia.
    + intros [= <- <-]. exists (x :: h1). split; [eapply Hholds; [done|done|simpl; lia]|]. by split.
Qed.
End trips.

(** ** When the network is quiet *)
Section quiet.
Context {redis : RedisServer} {lua_numbers : LuaNumbers}.

Lemma get_quiet k w v : w_net w = [] -> now_view w !! k = Some (permanent v) ->
  exists w', round_trip (one (GET k)) w = (w', Ok (RBulk v)) /\ quiet_to w (now_view w) w'.
Proof. intros Hq Hk. apply round_trip_ok; [done|]. unfold one. cbn [run_ks doc_exec]. by rewrite Hk. Qed.

Lemma getCurrentVersion_quiet w h : w_net w = [] -> key_state (now_view w) h -> h <> [] -> Z.of_nat (length h) < max_version ->
  exists w', getCurrentVersion w = (w', Ok (Z.of_nat (length h))) /\ quiet_to w (now_view w) w'.
Proof.
  intros Hq Hs Hne Hm. destruct (get_quiet currentVersionKey w (itoa (Z.of_nat (length h))) Hq) as (w' & E & Hw').
  { rewrite (st_cur _ _ Hs). by destruct h. }
  exists w'. split; [|done]. unfold getCurrentVersion, mbind, IO_bind, wrap_err. rewrite E, atoi_itoa.
  rewrite bool_decide_true by (unfold max_version in Hm; int64_lia). 
  destruct (Z.ltb_spec (Z.of_nat (length h)) 1); [destruct h; simpl in *; [done|lia]|done].
Qed.

Lemma hex_nonempty k : length k = signingKeySize -> hex_encode k <> "".
Proof. by destruct k. Qed.

Lemma readKeyVersion_quiet w h i k : w_net w = [] -> key_state (now_view w) h -> h !! i = Some k ->
  exists w', readKeyVersion (Z.of_nat (S i)) w = (w', Ok k) /\ quiet_to w (now_view w) w'.
Proof.
  intros Hq Hs Hi. destruct (st_key _ _ Hs i k Hi) as [Ek Hl].
  destruct (get_quiet (signingKeyVersionKey (Z.of_nat (S i))) w (hex_encode k) Hq Ek) as (w' & E & Hw').
  exists w'. split; [|done]. unfold readKeyVersion, mbind, IO_bind, wrap_err, io_res. rewrite E.
  rewrite bool_decide_false by (by apply hex_nonempty). rewrite hex_roundtrip, bool_decide_false by (intros H; by apply H). done.
Qed.

Lemma quiet_keeps w w' h : quiet_to w (now_view w) w' -> key_state (now_view w) h -> w_net w' = [] /\ key_state (now_view w') h.
Proof. intros [Hn Hv _ _ _] Hs. split; [done|]. by rewrite Hv. Qed.

(** Rotating keeps what was: whatever other servers rotate meanwhile, and whatever
    requests fail, a rotation that reports a version has put its key there, and
    when the network is quiet afterwards the current key is that one, the previous
    key the one before it, and every key of every earlier version is still read
    under its number. *)
Theorem rotation_keeps_previous w h k w' v :
  holds true 1 w h -> length k = signingKeySize -> RotateSigningKey (Ok k) w = (w', Ok v) -> w_net w' = [] ->
  exists h1 old, grows true h h1 /\ last h1 = Some old /\ v = Z.of_nat (S (length h1)) /\
    (GetCurrentAndPreviousKeys w').2 = Ok (k, Some old) /\
    forall i k', h1 !! i = Some k' -> (GetSigningKeyByVersion (Z.of_nat (S i)) w').2 = Ok k'.
Proof.
  intros Hh Hk E Hq. destruct (RotateSigningKey_state true 0 k w h w' _ eq_refl Hh Hk E) as (h' & [Hs' _ Hm] & _ & Hv).
  destruct (Hv v eq_refl) as (h1 & Hg & Hne & -> & ->). rewrite length_app in Hm. simpl in Hm.
  destruct (last h1) as [old|] eqn:El; [|by apply last_None in El].
  exists h1, old. split; [done|]. split; [done|]. split; [rewrite length_app; simpl; lia|]. split.
  - unfold GetCurrentAndPreviousKeys, mbind, IO_bind, wrap_err, io_try.
    destruct (getCurrentVersion_quiet w' (h1 ++ [k])%list Hq Hs') as (w1 & -> & Hw1); [by destruct h1|rewrite length_app; simpl; lia|].
    destruct (quiet_keeps _ _ _ Hw1 Hs') as [Hq1 Hs1].
    replace (Z.of_nat (length (h1 ++ [k])%list)) with (Z.of_nat (S (length h1))) by (rewrite length_app; simpl; lia).
    destruct (readKeyVersion_quiet w1 (h1 ++ [k])%list (length h1) k Hq1 Hs1) as (w2 & -> & Hw2).
    { rewrite lookup_app_r, Nat.sub_diag by lia. done. }
    destruct (quiet_keeps _ _ _ Hw2 Hs1) as [Hq2 Hs2].
    assert (0 < length h1)%nat as Hpos by (destruct h1; [done|simpl; lia]).
    destruct (Z.ltb_spec 1 (Z.of_nat (S (length h1)))); [|lia].
    replace (Z.of_nat (S (length h1)) - 1) with (Z.of_nat (S (pred (length h1)))) by lia.
    destruct (readKeyVersion_quiet w2 (h1 ++ [k])%list (pred (length h1)) old Hq2 Hs2) as (w3 & -> & _); [|done].
    rewrite lookup_app_l by lia. by rewrite last_lookup in El.
  - intros i k' Hi. unfold GetSigningKeyByVersion.
    destruct (readKeyVersion_quiet w' (h1 ++ [k])%list i k' Hq Hs') as (w1 & -> & _); [by apply lookup_app_l_Some|done].
Qed.

(** ** The shared key *)

(** The store of [w'] is that of [w] after friendly scripts and some time. *)
Definition later (w w' : world) : Prop :=
  exists ps, w_now w <= w_now w' /\ Forall (friendly false) ps /\ Z.of_nat (length ps) < 2 ^ 40 /\
    w_db w' = run_others (srv_ms w') ps (w_db w).

Lemma later_state w w' h : later w w' -> key_state (now_view w) h -> h <> [] -> Z.of_nat (length h) < 2 ^ 40 ->
  key_state (now_view w') h.
Proof.
  intros (ps & Ht & Hps & Hl & Ed) Hs Hne Hh. unfold now_view. rewrite Ed.
  destruct (run_others_state false (srv_ms w') ps (w_db w) h Hps) as (h' & Hs' & Hg & _).
  - rewrite (view_mono (w_db w) (srv_ms w) (srv_ms w')) by (by apply Z.div_le_mono). by apply key_state_expire.
  - unfold max_version. lia.
  - by rewrite (grows_same _ _ Hg Hne) in Hs'.
Qed.

(** C29. Servers share the key: whatever other servers that start do in between, and
    whatever requests fail, two servers that get a key from the same store
    without an error have the same key, if nobody rotates. *)
Theorem signing_key_shared wa ha ka wa' a wb hb kb wb' b :
  holds false 1 wa ha -> holds false 1 wb hb -> length ka = signingKeySize -> length kb = signingKeySize ->
  Z.of_nat (length ha) < 2 ^ 39 ->
  GetOrCreateSigningKey (Ok ka) wa = (wa', Ok a) -> GetOrCreateSigningKey (Ok kb) wb = (wb', Ok b) ->
  later wa' wb' -> a = b.
Proof.
  assert (forall w h k w' x, holds false 1 w h -> length k = signingKeySize -> GetOrCreateSigningKey (Ok k) w = (w', Ok x) ->
    exists h', key_state (now_view w') h' /\ last h' = Some x /\ (length h' <= Nat.max 1 (length h))%nat) as H.
  { intros w h k w' x Hh Hk E. destruct (GetOrCreateSigningKey_state false 0 k w h w' _ Hh Hk E) as (h' & [Hs _ _] & Hg & Hx).
    destruct (Hx x eq_refl) as (h1 & _ & Hg1 & Hl). exists h'. rewrite (grows_same _ _ Hg1) in * by (by intros ->).
    split; [done|]. split; [done|]. destruct Hg as [_ Hg]. destruct (Hg eq_refl) as [->|[-> ->]]; lia. }
  intros Ha Hb Hka Hkb Hlen Ea Eb Hlater. destruct (H _ _ _ _ _ Ha Hka Ea) as (h1 & Hs1 & Hl1 & Hn1), (H _ _ _ _ _ Hb Hkb Eb) as (h2 & Hs2 & Hl2 & _).
  assert (h1 <> []) as Hne1 by (by intros ->). assert (h2 <> []) as Hne2 by (by intros ->).
  pose proof (later_state _ _ _ Hlater Hs1 Hne1 ltac:(lia)) as Hs1'.
  pose proof (key_state_last _ _ _ Hs1' Hs2 Hne1 Hne2) as E. congruence.
Qed.
End quiet.

(** ** Two servers that start at once *)
Section examples.
Local Existing Instance mem_redis.

#[local] Program Instance exact_numbers : LuaNumbers := {|
  lua_num := Z; tonumber := atoi; plus_one := Z.succ; tostring := itoa; to_integer := id;
|}.
Next Obligation.
  intros n Hn. exists n. rewrite atoi_itoa, bool_decide_true by (unfold max_version in Hn; int64_lia). by rewrite Z.add_1_r.
Qed.

Definition key_of (b : Byte.byte) : key := repeat b signingKeySize.
Definition start (net : list trip) (ks : keyspace) : world := mkWorld ks 1700000000000000000 0 net None.
Definition creation (k : key) : lua unit := discard (getOrCreateLua currentVersionKey (signingKeyVersionKey 1) (hex_encode k)).

(** Another server creates its key just before; the answer to a second request is lost. *)
Definition busy_net : list trip := [mkTrip 5 [creation (key_of x02)] None].

Lemma empty_state : key_state ∅ [].
Proof. split; [done|]. intros i k Hi. by rewrite lookup_nil in Hi. Qed.

Lemma busy_holds : holds false 1 (start busy_net ∅) [].
Proof.
  split; [exact empty_state| |vm_compute; reflexivity]. apply Forall_cons_2; [|by apply Forall_nil_2].
  split; [simpl; lia|]. apply Forall_cons_2; [by apply getOrCreate_friendly|by apply Forall_nil_2].
Qed.

Definition first_run := GetOrCreateSigningKey (Ok (key_of x01)) (start busy_net ∅).
Definition second_run := GetOrCreateSigningKey (Ok (key_of x03)) first_run.1.

Lemma second_holds : holds false 1 first_run.1 [key_of x02].
Proof.
  split; [|by apply Forall_nil_2|vm_compute; reflexivity]. split; [vm_compute; reflexivity|].
  intros i k Hi. apply list_lookup_singleton_Some in Hi as [-> <-]. split; vm_compute; reflexivity.
Qed.

Lemma signing_key_shared_witness : first_run.2 = Ok (key_of x02) /\ second_run.2 = first_run.2.
Proof.
  assert (first_run.2 = Ok (key_of x02)) as E1 by (vm_compute; reflexivity). split; [exact E1|].
  assert (exists b, second_run.2 = Ok b) as [b Hb] by (eexists; vm_compute; reflexivity).
  assert (second_run = (second_run.1, Ok b)) as Eb by (rewrite <- Hb; apply surjective_pairing). rewrite Hb, E1.
  assert (key_of x02 = b) as <-; [|reflexivity].
  apply (signing_key_shared (start busy_net ∅) [] (key_of x01) first_run.1 (key_of x02)
    first_run.1 [key_of x02] (key_of x03) second_run.1 b busy_holds second_holds eq_refl eq_refl); [vm_compute; reflexivity| |exact Eb|].
  - rewrite <- E1. apply surjective_pairing.
  - exists []. split; [vm_compute; discriminate|]. split; [by apply Forall_nil_2|]. split; vm_compute; reflexivity.
Defined.

(** A rotation among others' rotations. *)
Definition one_key : keyspace := fst (run_ks 0 (creation (key_of x01)) ∅).
Definition rotating_net : list trip :=
  [mkTrip 5 [discard (rotateLua currentVersionKey (signingKeyPrefix +:+ "v") (hex_encode (key_of x02)))] None].

Lemma rotation_keeps_previous_witness :
  let '(w', r) := RotateSigningKey (Ok (key_of x03)) (start rotating_net one_key) in
  r = Ok 3%Z /\ (GetCurrentAndPreviousKeys w').2 = Ok (key_of x03, Some (key_of x02)).
Proof.
  assert (holds true 1 (start rotating_net one_key) [key_of x01]) as Hh.
  { split; [| |vm_compute; reflexivity].
    - split; [vm_compute; reflexivity|]. intros i k Hi. apply list_lookup_singleton_Some in Hi as [-> <-]. split; vm_compute; reflexivity.
    - apply Forall_cons_2; [|by apply Forall_nil_2]. split; [simpl; lia|].
      apply Forall_cons_2; [by apply rotate_friendly|by apply Forall_nil_2]. }
  assert ((RotateSigningKey (Ok (key_of x03)) (start rotating_net one_key)).2 = Ok 3%Z) as E1 by (vm_compute; reflexivity).
  assert (w_net (RotateSigningKey (Ok (key_of x03)) (start rotating_net one_key)).1 = []) as E2 by (vm_compute; reflexivity).
  assert ((GetCurrentAndPreviousKeys (RotateSigningKey (Ok (key_of x03)) (start rotating_net one_key)).1).2 = Ok (key_of x03, Some (key_of x02))) as E3
    by (vm_compute; reflexivity).
  destruct (RotateSigningKey (Ok (key_of x03)) (start rotating_net one_key)) as [w' r] eqn:E. cbn [fst snd] in E1, E2, E3. subst r.
  split; [reflexivity|].
  destruct (rotation_keeps_previous (start rotating_net one_key) [key_of x01] (key_of x03) w' 3 Hh eq_refl E E2) as (h1 & old & _ & _ & _ & HG & _).
  rewrite HG in E3 |- *. exact E3.
Defined.
End examples.
End Keys.
