(* ===== verification/AutoMode.v ===== *)
(** * AutoMode: the loops that run an agent on one task after another,
    [internal/cli/automode.go] and [RunAutoModeTmux] of [automode_tmux.go]

    An iteration of the loop looks for tasks, waits, or runs a session of the agent
    and judges it by its error and by the lock file. The tracker's tool, the agent
    and the clock are an interface; a run is a list of labelled iterations. *)
From S2P Require Import Prelude WorktreeLock TaskRouter.
Local Open Scope Z_scope.

Module Auto.
Import Lock.

(** ** What the loop runs on *)

(** [BD] runs the tracker's command line tool and [parse_issues] reads its output,
    as in [TaskRouter]; [check_time] is how long the look for tasks took. A session
    comes with what it, and others meanwhile, did to the lock file, its error and
    its duration. [ExitCode] is the code in an [exec.ExitError]. *)
Class AutoEnv (W : Type) := {
  BD : list string -> W -> W * res string;
  parse_issues : string -> res (list Router.BdIssue);
  check_time : W -> Z;
  InvokeAgentNonInteractive : string -> W -> W * list file_op * option goerror * Z;
  ExitCode : goerror -> option Z;
}.

Inductive event := TaskFailed (taskID : string) (err : goerror) | TaskCompleted (taskID : string) (duration : Z).

(** A record of [internal/usage], without its tokens. *)
Record session_usage := mkUsage { u_TaskID : string; u_EpicID : string; u_StartedAt : Z; u_EndedAt : Z; u_ExitCode : Z }.

Section loop.
Context {W : Type} {env : AutoEnv W} {sorter : SliceSort}.
Context {codec : JsonCodec LockInfo} (kill0 : Z -> bool) (pid : Z).
(** When the signal comes. *)
Context (shutdown : option Z).
Context (GeneratePlanningPrompt GenerateTaskPrompt : string -> string -> W -> string).

Record AutoModeOptions := mkOptions {
  Interval : Z;
  MaxTasks : Z;
  IdleTimeout : Z;
  AgentType : string;
  AgentName : string;
  ParentID : string;
  CustomPromptGen : option (string -> W -> string);
  CustomTaskCheck : option (W -> W * res bool);
  BackoffBase : Z;
  usageStore : bool;
}.

Record AutoModeState := mkState {
  TasksCompleted : Z;
  ConsecutiveErrors : Z;
  ConsecutiveNoProgress : Z;
  LastTaskTime : Z;
  IdleStartTime : Z;
  ExitReason : option string;
}.

(** [emitted], [recorded]: what was handed to the event bus and the usage store;
    failures of these are only logged. *)
Record world := mkWorld {
  outside : W;
  now : Z;
  file : option string;
  emitted : list event;
  recorded : list session_usage;
}.

Definition set_now (t : Z) (w : world) : world := mkWorld (outside w) t (file w) (emitted w) (recorded w).
Definition set_file (f : option string) (w : world) : world := mkWorld (outside w) (now w) f (emitted w) (recorded w).
Definition emit (e : event) (w : world) : world := mkWorld (outside w) (now w) (file w) (emitted w ++ [e]) (recorded w).
Definition record_usage (u : session_usage) (w : world) : world := mkWorld (outside w) (now w) (file w) (emitted w) (recorded w ++ [u]).

(** [ShouldExit] is an exit reason. *)
Definition exit_with (reason : string) (s : AutoModeState) : AutoModeState :=
  mkState (TasksCompleted s) (ConsecutiveErrors s) (ConsecutiveNoProgress s) (LastTaskTime s) (IdleStartTime s) (Some reason).
Definition reset_idle (t : Z) (s : AutoModeState) : AutoModeState :=
  mkState (TasksCompleted s) (ConsecutiveErrors s) (ConsecutiveNoProgress s) (LastTaskTime s) t (ExitReason s).

Definition shut_down (t : Z) : bool := match shutdown with Some t' => t' <=? t | None => false end.

(** True when the signal comes first. *)
Definition interruptibleSleep (d : Z) (w : world) : bool * world :=
  let until := now w + Z.max 0 d in
  match shutdown with
  | Some t => if t <=? until then (true, set_now (Z.max (now w) t) w) else (false, set_now until w)
  | None => (false, set_now until w)
  end.

Definition pause (d : Z) (s : AutoModeState) (w : world) : AutoModeState * world :=
  let '(interrupted, w) := interruptibleSleep d w in
  (if interrupted then exit_with "shutdown signal received" s else s, w).

Definition lock_task (f : option string) : string := match ReadLockFile f with Ok info => TaskID info | Err _ => ""%string end.
Definition agentClaimedTask (f : option string) : bool :=
  match ReadLockFile f with Err _ => false | Ok info => negb (bool_decide (TaskID info = ""%string)) end.

Definition hasAvailableTasks (opts : AutoModeOptions) : W -> W * res bool :=
  match CustomTaskCheck opts with
  | Some check => check
  | None =>
      if bool_decide (AgentType opts = "plan"%string) then Router.HasAvailablePlanningTasks BD parse_issues (ParentID opts)
      else Router.HasAvailableImplementationTasks BD parse_issues (ParentID opts)
  end.

Definition generatePrompt (opts : AutoModeOptions) : string -> W -> string :=
  match CustomPromptGen opts with
  | Some gen => gen
  | None => fun name w =>
      if bool_decide (AgentType opts = "plan"%string) then GeneratePlanningPrompt name (ParentID opts) w
      else GenerateTaskPrompt name (ParentID opts) w
  end.

Definition recordSessionUsage (opts : AutoModeOptions) (startedAt endedAt : Z) (invokeErr : option goerror) (w : world) : world :=
  if usageStore opts then
    let exitCode := match invokeErr with None => 0 | Some e => default 1 (ExitCode e) end in
    record_usage (mkUsage (lock_task (file w)) (ParentID opts) startedAt endedAt exitCode) w
  else w.

(** What an iteration did: a session is known by its error and the updates of the
    lock. *)
Inductive label := Stopped | Waited | Ran (err : option goerror) (ops : list file_op).

(** Minutes and seconds are multiplied as durations. *)
Definition judge_error (opts : AutoModeOptions) (e : goerror) (s : AutoModeState) (w : world) : AutoModeState * world :=
  let s := mkState (TasksCompleted s) (ConsecutiveErrors s + 1) (ConsecutiveNoProgress s) (LastTaskTime s) (IdleStartTime s) (ExitReason s) in
  let w := emit (TaskFailed (lock_task (file w)) e) w in
  if 3 <=? ConsecutiveErrors s then (exit_with "too many consecutive errors" s, w)
  else pause (mul64 (Interval opts) second) s w.

Definition judge_success (opts : AutoModeOptions) (startedAt endedAt : Z) (s : AutoModeState) (w : world) : AutoModeState * world :=
  if agentClaimedTask (file w) then
    let s := mkState (TasksCompleted s + 1) 0 0 (now w) (IdleStartTime s) (ExitReason s) in
    let w := emit (TaskCompleted (lock_task (file w)) (time_sub endedAt startedAt)) w in
    pause (2 * second) s w
  else
    let s := mkState (TasksCompleted s) 0 (ConsecutiveNoProgress s + 1) (LastTaskTime s) (IdleStartTime s) (ExitReason s) in
    if 3 <=? ConsecutiveNoProgress s
    then (exit_with ("no tasks claimed in " +:+ itoa (ConsecutiveNoProgress s) +:+ " consecutive sessions") s, w)
    else
      let backoff := shl64 (BackoffBase opts) (ConsecutiveNoProgress s - 1) in
      let cap := mul64 4 (BackoffBase opts) in
      pause (if cap <? backoff then cap else backoff) s w.

Definition run_session (opts : AutoModeOptions) (s : AutoModeState) (w : world) : AutoModeState * world * label :=
  let s := reset_idle (now w) s in
  let w := set_file (UpdateLockState pid StateActive (file w)).1 w in
  let w := set_file (ClearLockTaskID pid (file w)).1 w in
  let startedAt := now w in
  let '(o, ops, err, duration) := InvokeAgentNonInteractive (generatePrompt opts (AgentName opts) (outside w)) (outside w) in
  let w := mkWorld o (now w + Z.max 0 duration) (foldl (fun f op => (file_exec kill0 op f).1) (file w) ops) (emitted w) (recorded w) in
  let endedAt := now w in
  let w := recordSessionUsage opts startedAt endedAt err w in
  let w := set_file (UpdateLockState pid StateIdle (file w)).1 w in
  let '(s, w) := match err with
                 | Some e => judge_error opts e s w
                 | None => judge_success opts startedAt endedAt s w
                 end in
  (s, w, Ran err ops).

(** One round of the loop. *)
Definition iteration (opts : AutoModeOptions) (s : AutoModeState) (w : world) : AutoModeState * world * label :=
  let w := set_file (UpdateLockState pid StateIdle (file w)).1 w in
  if shut_down (now w) then (exit_with "shutdown signal received" s, w, Stopped)
  else if (0 <? MaxTasks opts) && (MaxTasks opts <=? TasksCompleted s)
  then (exit_with ("reached max tasks limit (" +:+ itoa (MaxTasks opts) +:+ ")") s, w, Stopped)
  else
    let '(o, available) := hasAvailableTasks opts (outside w) in
    let w := mkWorld o (now w + Z.max 0 (check_time o)) (file w) (emitted w) (recorded w) in
    match available with
    | Err _ => let '(s, w) := pause (mul64 (Interval opts) second) s w in (s, w, Waited)
    | Ok false =>
        if (0 <? IdleTimeout opts) && (mul64 (IdleTimeout opts) minute <=? time_sub (now w) (IdleStartTime s))
        then (exit_with ("idle timeout exceeded (" +:+ itoa (IdleTimeout opts) +:+ " minutes)") s, w, Stopped)
        else let '(s, w) := pause (mul64 (Interval opts) second) s w in (s, w, Waited)
    | Ok true => run_session opts s w
    end.

(** The loop, with fuel, and what its rounds did. *)
Fixpoint rounds (fuel : nat) (opts : AutoModeOptions) (s : AutoModeState) (w : world) : AutoModeState * world * list label :=
  match fuel with
  | O => (s, w, [])
  | S fuel =>
      match ExitReason s with
      | Some _ => (s, w, [])
      | None =>
          let '(s, w, l) := iteration opts s w in
          let '(s, w, ls) := rounds fuel opts s w in
          (s, w, l :: ls)
      end
  end.

Definition with_defaults (opts : AutoModeOptions) : AutoModeOptions :=
  mkOptions (Interval opts) (MaxTasks opts) (IdleTimeout opts) (AgentType opts) (AgentName opts) (ParentID opts)
    (CustomPromptGen opts) (CustomTaskCheck opts) (if BackoffBase opts =? 0 then 30 * second else BackoffBase opts) (usageStore opts).

Definition RunAutoModeLoop (fuel : nat) (opts : AutoModeOptions) (w : world) : AutoModeState * world * list label :=
  rounds fuel (with_defaults opts) (mkState 0 0 0 (now w) (now w) None) w.

(** ** How many sessions *)
Definition is_run (l : label) : bool := match l with Ran _ _ => true | _ => false end.
Definition sessions (ls : list label) : Z := Z.of_nat (length (filter is_run ls)).

Lemma sessions_cons l ls : sessions (l :: ls) = (if is_run l then 1 else 0) + sessions ls.
Proof. unfold sessions. rewrite filter_cons. destruct l; cbn [is_run]; case_decide; cbn [length]; try done; lia. Qed.

(** Every session raises it. *)
Definition score (s : AutoModeState) : Z := 9 * TasksCompleted s + 3 * ConsecutiveNoProgress s + ConsecutiveErrors s.

Definition same_counts (s s' : AutoModeState) : Prop :=
  TasksCompleted s' = TasksCompleted s /\ ConsecutiveErrors s' = ConsecutiveErrors s /\
  ConsecutiveNoProgress s' = ConsecutiveNoProgress s /\ IdleStartTime s' = IdleStartTime s.

(** The counters between rounds, under a limit on the tasks. *)
Record counts_ok (M : Z) (s : AutoModeState) : Prop := {
  co_errors : 0 <= ConsecutiveErrors s <= 3;
  co_idle : 0 <= ConsecutiveNoProgress s <= 3;
  co_live : ExitReason s = None -> ConsecutiveErrors s <= 2 /\ ConsecutiveNoProgress s <= 2;
  co_both : 3 * ConsecutiveNoProgress s + ConsecutiveErrors s <= 9;
  co_tasks : 0 <= TasksCompleted s;
  co_max : 0 < M -> TasksCompleted s <= M /\ (TasksCompleted s = M -> ConsecutiveErrors s = 0 /\ ConsecutiveNoProgress s = 0);
}.

Lemma pause_spec d s w : let '(s', w') := pause d s w in
  same_counts s s' /\ (ExitReason s = None -> ExitReason s' = None \/ shutdown <> None) /\ now w <= now w' /\
  (ExitReason s = None -> ExitReason s' = None -> now w' = now w + Z.max 0 d) /\
  file w' = file w /\ outside w' = outside w /\ emitted w' = emitted w /\ recorded w' = recorded w.
Proof.
  unfold pause, interruptibleSleep. destruct shutdown as [t|]; [destruct (t <=? _)|]; cbn -[Z.max];
    repeat split; try done; try lia; intros; try (by left); by right.
Qed.

(** What a round does to the counters. *)
Definition advances (M : Z) (l : label) (s s' : AutoModeState) : Prop :=
  counts_ok M s' /\
  if is_run l then score s + 1 <= score s' else same_counts s s'.

Lemma counts_ok_same M s s' : same_counts s s' -> counts_ok M s -> ExitReason s = None -> counts_ok M s'.
Proof. intros (H1 & H2 & H3 & _) [] Hs. split; rewrite ?H1, ?H2, ?H3; try done. by intros _; apply co_live0. Qed.

Lemma pause_advances M d s s0 w w' s' :
  counts_ok M s -> ExitReason s = None -> score s0 + 1 <= score s -> pause d s w = (s', w') ->
  counts_ok M s' /\ score s0 + 1 <= score s'.
Proof.
  intros H Hs Hsc E. pose proof (pause_spec d s w) as P. rewrite E in P. destruct P as (Hc & _).
  split; [by eapply counts_ok_same|]. destruct Hc as (H1 & H2 & H3 & _). unfold score in *. lia.
Qed.

Lemma run_session_advances opts s w : counts_ok (MaxTasks opts) s -> ExitReason s = None ->
  (0 < MaxTasks opts -> TasksCompleted s < MaxTasks opts) ->
  let '(s', _, l) := run_session opts s w in is_run l = true /\ counts_ok (MaxTasks opts) s' /\ score s + 1 <= score s'.
Proof.
  intros H Hs Hm. destruct H as [He Hi Hl _ Ht Hx]. specialize (Hl Hs). unfold run_session. cbv zeta.
  destruct (InvokeAgentNonInteractive _ _) as [[[o ops] [e|]] duration].
  - set (s1 := reset_idle _ s). unfold judge_error. cbv zeta. cbn [ConsecutiveErrors reset_idle s1].
    destruct (3 <=? ConsecutiveErrors s + 1) eqn:E3.
    + split; [done|]. apply Z.leb_le in E3. split; [split; cbn; try lia; try done|unfold score; cbn; lia].
    + destruct (pause _ _ _) as [s' w'] eqn:Ep. split; [done|]. apply Z.leb_gt in E3.
      eapply pause_advances; [| |  |exact Ep]; [split; cbn; try lia; try done; intros; split; try lia; intros; lia|done|unfold score; cbn; lia].
  - set (s1 := reset_idle _ s). unfold judge_success. cbv zeta. destruct (agentClaimedTask _).
    + destruct (pause _ _ _) as [s' w'] eqn:Ep. split; [done|].
      eapply pause_advances; [| |  |exact Ep]; [split; cbn; try lia; try done; intros; split; try lia; intros; lia|done|unfold score; cbn; lia].
    + cbn [ConsecutiveNoProgress reset_idle s1]. destruct (3 <=? ConsecutiveNoProgress s + 1) eqn:E3.
      * split; [done|]. apply Z.leb_le in E3. split; [split; cbn; try lia; try done|unfold score; cbn; lia].
      * destruct (pause _ _ _) as [s' w'] eqn:Ep. split; [done|]. apply Z.leb_gt in E3.
        eapply pause_advances; [| |  |exact Ep]; [split; cbn; try lia; try done; intros; split; try lia; intros; lia|done|unfold score; cbn; lia].
Qed.

Lemma counts_ok_exit M reason s : counts_ok M s -> counts_ok M (exit_with reason s).
Proof. intros []. by split. Qed.

Lemma iteration_advances opts s w : counts_ok (MaxTasks opts) s -> ExitReason s = None ->
  let '(s', _, l) := iteration opts s w in advances (MaxTasks opts) l s s'.
Proof.
  intros H Hs. unfold iteration. cbv zeta.
  destruct (shut_down _); [by split; [apply counts_ok_exit|]|].
  destruct (0 <? MaxTasks opts) eqn:E1; [destruct (MaxTasks opts <=? TasksCompleted s) eqn:E2; [by split; [apply counts_ok_exit|]|]|]; cbn [andb].
  all: destruct (hasAvailableTasks _ _) as [o [[]|e]];
    [pose proof (run_session_advances opts s) as P|destruct (_ && _); [by split; [apply counts_ok_exit|]|]|].
  all: try (match goal with |- context[pause ?d ?s ?w] => pose proof (pause_spec d s w) as Pp; destruct (pause d s w) as [s' w'] end;
    split; [eapply counts_ok_same; [|done..]; tauto|tauto]).
  - match goal with |- context[run_session _ _ ?w] => specialize (P w H Hs); destruct (run_session opts s w) as [[s' w'] l] end.
    destruct P as (Hl & Hc & Hsc); [lia|]. split; [done|]. by rewrite Hl.
  - match goal with |- context[run_session _ _ ?w] => specialize (P w H Hs); destruct (run_session opts s w) as [[s' w'] l] end.
    destruct P as (Hl & Hc & Hsc); [lia|]. split; [done|]. by rewrite Hl.
Qed.

Lemma rounds_advance fuel opts s w : counts_ok (MaxTasks opts) s ->
  let '(s', _, ls) := rounds fuel opts s w in counts_ok (MaxTasks opts) s' /\ sessions ls + score s <= score s'.
Proof.
  revert s w. induction fuel as [|fuel IH]; intros s w H; cbn [rounds]; [split; [done|unfold sessions; cbn; lia]|].
  destruct (ExitReason s) as [x|] eqn:Hs; [split; [done|unfold sessions; cbn; lia]|].
  pose proof (iteration_advances opts s w H Hs) as P. destruct (iteration opts s w) as [[s1 w1] l].
  destruct P as [Hc Hl]. specialize (IH s1 w1 Hc). destruct (rounds fuel opts s1 w1) as [[s' w'] ls].
  destruct IH as [Hc' Hsc]. split; [done|]. rewrite sessions_cons. destruct (is_run l); [lia|].
  destruct Hl as (H1 & H2 & H3 & _). unfold score in *. lia.
Qed.

Lemma start_ok M t : 0 <= M -> counts_ok M (mkState 0 0 0 t t None).
Proof. intros HM. split; cbn; lia. Qed.

(** C8. Whatever the tracker and the agent do, the loop runs at most nine sessions for
    each completed task and nine more after the last: three that claim nothing, each
    after two that failed. With a limit of tasks it never completes more and never
    runs more than nine sessions for each. *)
Theorem sessions_bounded fuel opts w : 0 <= MaxTasks opts ->
  let '(s', _, ls) := RunAutoModeLoop fuel opts w in
  sessions ls <= 9 * TasksCompleted s' + match ExitReason s' with None => 8 | Some _ => 9 end /\
  (0 < MaxTasks opts -> TasksCompleted s' <= MaxTasks opts /\ sessions ls <= 9 * MaxTasks opts).
Proof.
  intros HM. unfold RunAutoModeLoop. pose proof (rounds_advance fuel (with_defaults opts) (mkState 0 0 0 (now w) (now w) None) w) as P.
  cbn [with_defaults MaxTasks] in P. specialize (P (start_ok _ _ HM)).
  destruct (rounds fuel _ _ w) as [[s' w'] ls]. destruct P as [[He Hi Hl Hb Ht Hx] Hsc]. unfold score in Hsc. cbn in Hsc.
  split; [destruct (ExitReason s'); [lia|specialize (Hl eq_refl); lia]|]. intros Hp. specialize (Hx Hp).
  destruct (decide (TasksCompleted s' = MaxTasks opts)) as [E|E]; [|lia]. destruct Hx as [_ Hx]. specialize (Hx E). lia.
Qed.

(** ** The loop ends *)
Definition interval_ns (opts : AutoModeOptions) : Z := Interval opts * second.
Definition timeout_ns (opts : AutoModeOptions) : Z := IdleTimeout opts * minute.

(** How many more waits an idle loop can make, and how many an idle period has. *)
Definition waits_left (opts : AutoModeOptions) (s : AutoModeState) (w : world) : Z :=
  Z.max 0 ((timeout_ns opts - (now w - IdleStartTime s) + interval_ns opts - 1) / interval_ns opts).
Definition idle_waits (opts : AutoModeOptions) : Z := (timeout_ns opts + interval_ns opts - 1) / interval_ns opts.
Definition left_ (opts : AutoModeOptions) (s : AutoModeState) (w : world) : Z :=
  (9 * MaxTasks opts - score s) * (idle_waits opts + 1) + waits_left opts s w.

(** Options with every limit, within the range of durations. *)
Definition limited (opts : AutoModeOptions) : Prop :=
  0 < MaxTasks opts /\ 0 < Interval opts /\ 0 < IdleTimeout opts /\ in_int64 (interval_ns opts) /\ in_int64 (timeout_ns opts).

Lemma score_room opts s : limited opts -> counts_ok (MaxTasks opts) s -> ExitReason s = None -> 0 <= 9 * MaxTasks opts - score s.
Proof.
  intros (HM & _) [He Hi Hl _ Ht Hx] Hs. specialize (Hl Hs). specialize (Hx HM). unfold score.
  destruct (decide (TasksCompleted s = MaxTasks opts)) as [E|E]; [|lia]. destruct Hx as [_ Hx]. specialize (Hx E). lia.
Qed.

Lemma waits_left_fewer opts s w s' w' : limited opts -> IdleStartTime s' = IdleStartTime s ->
  now w' - IdleStartTime s < timeout_ns opts + interval_ns opts -> now w + interval_ns opts <= now w' ->
  waits_left opts s' w' + 1 <= waits_left opts s w.
Proof.
  intros (_ & HI & _) E H1 H2. unfold waits_left. rewrite E. set (I := interval_ns opts) in *.
  assert (0 < I) as HIp by (unfold I, interval_ns, second; lia).
  set (a := timeout_ns opts - (now w' - IdleStartTime s)) in *. set (b := timeout_ns opts - (now w - IdleStartTime s)) in *.
  assert ((a + I - 1) / I + 1 <= (b + I - 1) / I) as Hd.
  { rewrite <- Z.div_add by lia. apply Z.div_le_mono; lia. }
  assert (0 <= (a + I - 1) / I) by (apply Z.div_pos; lia). lia.
Qed.

Lemma sat64_small z y : sat64 z < y -> in_int64 y -> z < y.
Proof. unfold sat64, in_int64, min_int64, max_int64. lia. Qed.

Lemma run_session_time opts s w :
  let '(s', w', _) := run_session opts s w in IdleStartTime s' = now w /\ now w <= now w'.
Proof.
  unfold run_session. cbv zeta. destruct (InvokeAgentNonInteractive _ _) as [[[o ops] err] duration].
  set (w1 := set_file _ _). assert (now w <= now w1) as H1.
  { unfold w1, recordSessionUsage. destruct (usageStore opts); cbn -[Z.max]; lia. }
  set (s1 := reset_idle _ s). assert (IdleStartTime s1 = now w) as H2 by done. clearbody w1 s1.
  assert (forall d s2 w2, IdleStartTime s2 = now w -> now w <= now w2 ->
    let '(s', w') := pause d s2 w2 in IdleStartTime s' = now w /\ now w <= now w') as Hp.
  { intros d s2 w2 E Hn. pose proof (pause_spec d s2 w2) as P. destruct (pause d s2 w2) as [s' w'].
    destruct P as ((_ & _ & _ & Hi) & _ & Hle & _). split; [congruence|lia]. }
  destruct err as [e|]; [unfold judge_error|unfold judge_success; destruct (agentClaimedTask _)]; cbv zeta; try destruct (3 <=? _); try done;
    match goal with |- context[pause ?d ?s ?w] => specialize (Hp d s w H2 H1); by destruct (pause d s w) end.
Qed.

Definition checks_answer (opts : AutoModeOptions) : Prop := forall o, exists b, (hasAvailableTasks opts o).2 = Ok b.

Lemma iteration_left opts s w : limited opts -> checks_answer opts -> counts_ok (MaxTasks opts) s -> ExitReason s = None ->
  let '(s', w', _) := iteration opts s w in ExitReason s' <> None \/ left_ opts s' w' + 1 <= left_ opts s w.
Proof.
  intros HL Hck Hc Hs. pose proof HL as (HM & HI & HT & HrI & HrT).
  assert (0 < interval_ns opts) as HIp by (unfold interval_ns, second; lia).
  assert (0 < timeout_ns opts) as HTp by (unfold timeout_ns, minute, second; lia).
  unfold iteration. cbv zeta. destruct (shut_down _); [by left|]. rewrite (proj2 (Z.ltb_lt 0 (MaxTasks opts)) HM). cbn [andb].
  destruct (MaxTasks opts <=? TasksCompleted s) eqn:E2; [by left|]. apply Z.leb_gt in E2.
  cbn [outside set_file]. destruct (Hck (outside w)) as [b Hb]. destruct (hasAvailableTasks opts (outside w)) as [o r]. cbn in Hb. subst r.
  cbn [now set_file]. set (t1 := now w + Z.max 0 (check_time o)). set (w1 := mkWorld _ t1 _ _ _).
  assert (now w1 = t1 /\ now w <= t1) as [Hw1 Ht1] by (split; [done|unfold t1; lia]). destruct b.
  - pose proof (run_session_advances opts s w1 Hc Hs (fun _ => E2)) as P. pose proof (run_session_time opts s w1) as Q.
    destruct (run_session opts s w1) as [[s' w'] l]. destruct P as (_ & Hc' & Hsc), Q as [HQ1 HQ2].
    destruct (ExitReason s') eqn:Hs'; [by left|]. right. pose proof (score_room opts s HL Hc Hs). pose proof (score_room opts s' HL Hc' Hs').
    assert (waits_left opts s' w' <= idle_waits opts) as Hw.
    { unfold waits_left, idle_waits. apply Z.max_lub; [apply Z.div_pos; lia|]. apply Z.div_le_mono; lia. }
    assert (0 <= idle_waits opts) by (apply Z.div_pos; lia). assert (0 <= waits_left opts s w) by (unfold waits_left; lia).
    unfold left_. nia.
  - destruct (_ && _) eqn:E3; [by left|]. rewrite (proj2 (Z.ltb_lt 0 (IdleTimeout opts)) HT) in E3. cbn [andb] in E3. apply Z.leb_gt in E3.
    assert (t1 - IdleStartTime s < timeout_ns opts) as Hidle.
    { unfold mul64 in E3. rewrite wrap64_id in E3 by exact HrT. by eapply sat64_small. }
    pose proof (pause_spec (mul64 (Interval opts) second) s w1) as P. destruct (pause _ s w1) as [s' w'].
    destruct P as ((H1 & H2 & H3 & H4) & _ & _ & Hn & _). destruct (ExitReason s') eqn:Hs'; [by left|]. right.
    specialize (Hn Hs eq_refl). unfold mul64 in Hn. rewrite wrap64_id in Hn by exact HrI. fold (interval_ns opts) in Hn.
    assert (waits_left opts s' w' + 1 <= waits_left opts s w) by (apply waits_left_fewer; try done; lia).
    unfold left_, score. rewrite H1, H2, H3. unfold score. lia.
Qed.

Lemma rounds_stop fuel opts s w : limited opts -> checks_answer opts -> counts_ok (MaxTasks opts) s ->
  (ExitReason s = None -> left_ opts s w < Z.of_nat fuel) -> ExitReason (rounds fuel opts s w).1.1 <> None.
Proof.
  intros HL Hck. revert s w. induction fuel as [|fuel IH]; intros s w Hc Hf; cbn [rounds].
  - destruct (ExitReason s) eqn:Hs; [cbn; congruence|]. specialize (Hf eq_refl).
    pose proof (score_room opts s HL Hc Hs). destruct HL as (HM & HI & HT & _).
    assert (0 < interval_ns opts) by (unfold interval_ns, second; lia).
    assert (0 < timeout_ns opts) by (unfold timeout_ns, minute, second; lia).
    assert (0 <= idle_waits opts) by (apply Z.div_pos; lia). unfold left_, waits_left in Hf. nia.
  - destruct (ExitReason s) eqn:Hs; [cbn; congruence|]. specialize (Hf eq_refl).
    pose proof (iteration_left opts s w HL Hck Hc Hs) as P. pose proof (iteration_advances opts s w Hc Hs) as Q.
    destruct (iteration opts s w) as [[s1 w1] l]. destruct Q as [Hc1 _]. specialize (IH s1 w1 Hc1).
    destruct (rounds fuel opts s1 w1) as [[s2 w2] ls]. apply IH. intros Hs1. destruct P as [|]; [congruence|lia].
Qed.

(** C7. With a limit of tasks, an idle timeout and an interval the loop ends, as long as
    the look for tasks gives an answer: after nine sessions for each task and as many
    waits between two of them as fit in the timeout, at the latest. *)
Theorem loop_terminates opts w fuel : limited opts -> checks_answer opts ->
  (9 * MaxTasks opts) * (idle_waits opts + 1) + idle_waits opts < Z.of_nat fuel ->
  ExitReason (RunAutoModeLoop fuel opts w).1.1 <> None.
Proof.
  intros HL Hck Hf. unfold RunAutoModeLoop. assert (limited (with_defaults opts)) as HL' by exact HL.
  apply rounds_stop; [exact HL'|exact Hck|apply start_ok; destruct HL; cbn; lia|]. intros _.
  assert (waits_left (with_defaults opts) (mkState 0 0 0 (now w) (now w) None) w <= idle_waits opts) as Hw.
  { destruct HL as (HM & HI & HT & _). assert (0 < interval_ns opts) by (unfold interval_ns, second; lia).
    assert (0 < timeout_ns opts) by (unfold timeout_ns, minute, second; lia).
    unfold waits_left, idle_waits. cbn [IdleStartTime]. change (timeout_ns (with_defaults opts)) with (timeout_ns opts).
    change (interval_ns (with_defaults opts)) with (interval_ns opts).
    apply Z.max_lub; [apply Z.div_pos; lia|]. apply Z.div_le_mono; lia. }
  unfold left_, score. cbn [TasksCompleted ConsecutiveErrors ConsecutiveNoProgress].
  change (MaxTasks (with_defaults opts)) with (MaxTasks opts). change (idle_waits (with_defaults opts)) with (idle_waits opts). lia.
Qed.

(** The idle timeout is not looked at when the look for tasks fails: a loop whose
    checks all fail never ends. *)
Theorem failing_checks_never_stop opts w fuel :
  shutdown = None -> (forall o, exists e, (hasAvailableTasks opts o).2 = Err e) ->
  let '(s', _, ls) := RunAutoModeLoop fuel opts w in ExitReason s' = None /\ ls = replicate fuel Waited.
Proof.
  intros Hsd Hck. unfold RunAutoModeLoop. set (s := mkState _ _ _ _ _ _).
  assert (ExitReason s = None /\ TasksCompleted s = 0) as [Hs Ht] by done. clearbody s. revert s w Hs Ht.
  induction fuel as [|fuel IH]; intros s w Hs Ht; cbn [rounds]; [done|]. rewrite Hs. unfold iteration. cbv zeta.
  unfold shut_down. rewrite Hsd, Ht. destruct ((0 <? MaxTasks (with_defaults opts)) && _) eqn:E; [lia|].
  destruct (Hck (outside w)) as [e He]. cbn [outside set_file].
  change (hasAvailableTasks (with_defaults opts)) with (hasAvailableTasks opts).
  destruct (hasAvailableTasks opts (outside w)) as [o r]. cbn in He. subst r.
  match goal with |- context[pause ?d ?s ?w] => pose proof (pause_spec d s w) as P; destruct (pause d s w) as [s1 w1] end.
  destruct P as ((H1 & _) & H2 & _). specialize (H2 Hs). destruct H2 as [H2|]; [|done].
  specialize (IH s1 w1 H2 ltac:(congruence)). destruct (rounds fuel _ s1 w1) as [[s2 w2] ls]. destruct IH as [-> ->]. done.
Qed.

(** ** What is counted and reported

    The loop's process has the lock. *)
Definition own (f : option string) : Prop := exists i, f = Some (marshal i) /\ PID i = pid.

(** The task that updates of the lock leave in it. *)
Definition claim_after (task : string) (op : file_op) : string :=
  match op with
  | OpTask _ id _ => id
  | OpClear p => if bool_decide (p = pid) then "" else task
  | _ => task
  end%string.
Definition claimed_in (ops : list file_op) : string := foldl claim_after ""%string ops.

Lemma lock_task_own i : lock_task (Some (marshal i)) = TaskID i.
Proof. unfold lock_task, ReadLockFile. by rewrite unmarshal_marshal. Qed.
Lemma agentClaimedTask_task f : agentClaimedTask f = negb (bool_decide (lock_task f = ""%string)).
Proof. unfold agentClaimedTask, lock_task. by destruct (ReadLockFile f). Qed.

Lemma own_exec op f : own f -> op <> OpRelease pid ->
  own (file_exec kill0 op f).1 /\ lock_task (file_exec kill0 op f).1 = claim_after (lock_task f) op.
Proof.
  intros (i & -> & Hp) Hop. pose proof (proj1 (file_exec_refines kill0 op (Some i))) as E. cbn [fmap option_fmap option_map] in E.
  rewrite E, lock_task_own. destruct op as [t id title|p st|p|p]; cbn [info_exec claim_after].
  - split; [by eexists|]. cbn. by rewrite lock_task_own.
  - rewrite Hp. split; [eexists; split; [reflexivity|]; by case_bool_decide|]. cbn. rewrite lock_task_own. by case_bool_decide.
  - rewrite Hp. split; [eexists; split; [reflexivity|]; by case_bool_decide|]. cbn. rewrite lock_task_own. by case_bool_decide.
  - rewrite bool_decide_false by congruence. split; [by eexists|]. cbn. by rewrite lock_task_own.
Qed.

Lemma own_exec_all ops f : own f -> OpRelease pid ∉ ops ->
  own (foldl (fun f op => (file_exec kill0 op f).1) f ops) /\
  lock_task (foldl (fun f op => (file_exec kill0 op f).1) f ops) = foldl claim_after (lock_task f) ops.
Proof.
  revert f. induction ops as [|op ops IH]; intros f Hf Hn; [done|]. cbn [foldl]. apply not_elem_of_cons in Hn as [Hop Hn].
  destruct (own_exec op f Hf (not_eq_sym Hop)) as [H1 H2]. destruct (IH _ H1 Hn) as [H3 H4]. by rewrite H4, H2.
Qed.

(** What a round adds to the count, the events and the records. *)
Definition completed (l : label) : bool := match l with Ran None ops => negb (bool_decide (claimed_in ops = ""%string)) | _ => false end.
Definition report (l : label) : option (string * option goerror) :=
  match l with
  | Ran (Some e) ops => Some (claimed_in ops, Some e)
  | Ran None ops => if completed l then Some (claimed_in ops, None) else None
  | _ => None
  end.
Definition told (e : event) : string * option goerror := match e with TaskFailed t e => (t, Some e) | TaskCompleted t _ => (t, None) end.
Definition usage_of (l : label) : option (string * bool) := match l with Ran err ops => Some (claimed_in ops, bool_decide (err = None)) | _ => None end.
Definition used (u : session_usage) : string * bool := (u_TaskID u, u_ExitCode u =? 0).

Definition opt_list {A} (o : option A) : list A := match o with Some a => [a] | None => [] end.

Definition accounts (opts : AutoModeOptions) (s : AutoModeState) (w : world) (l : label) (s' : AutoModeState) (w' : world) : Prop :=
  own (file w') /\ TasksCompleted s' = TasksCompleted s + (if completed l then 1 else 0) /\
  map told (emitted w') = map told (emitted w) ++ opt_list (report l) /\
  (usageStore opts = true -> map used (recorded w') = map used (recorded w) ++ opt_list (usage_of l)).

Definition keeps_lock : Prop := forall prompt o, OpRelease pid ∉ (InvokeAgentNonInteractive prompt o).1.1.2.
Definition failures_show : Prop := forall e : goerror, ExitCode e <> Some 0.

Lemma own_idle f st : own f -> own (UpdateLockState pid st f).1 /\ lock_task (UpdateLockState pid st f).1 = lock_task f.
Proof. intros H. by apply (own_exec (OpState pid st)). Qed.

Lemma pause_accounts opts d s w l s0 w0 : accounts opts s0 w0 l s w ->
  let '(s', w') := pause d s w in accounts opts s0 w0 l s' w'.
Proof.
  intros (H1 & H2 & H3 & H4). pose proof (pause_spec d s w) as P. destruct (pause d s w) as [s' w'].
  destruct P as ((Ht & _) & _ & _ & _ & Hf & _ & He & Hr). by repeat split; rewrite ?Hf, ?Ht, ?He, ?Hr.
Qed.

Lemma run_session_accounts opts s w : keeps_lock -> failures_show -> own (file w) ->
  let '(s', w', l) := run_session opts s w in accounts opts s w l s' w'.
Proof.
  intros Hk Hx Hf. unfold run_session. cbv zeta. cbn [outside file set_file].
  destruct (own_idle (file w) StateActive Hf) as [Hf1 _]. destruct (own_exec (OpClear pid) _ Hf1) as [Hf2 Ht2]; [done|].
  cbn [file_exec claim_after] in Hf2, Ht2. rewrite bool_decide_true in Ht2 by done.
  set (f2 := (ClearLockTaskID pid _).1) in *. set (prompt := generatePrompt _ _ _). pose proof (Hk prompt (outside w)) as Hn.
  destruct (InvokeAgentNonInteractive prompt (outside w)) as [[[o ops] err] duration]. cbn [fst snd] in Hn.
  destruct (own_exec_all ops f2 Hf2 Hn) as [Hf3 Ht3]. rewrite Ht2 in Ht3. fold (claimed_in ops) in Ht3.
  set (w3 := mkWorld o _ _ _ _). set (w4 := recordSessionUsage _ _ _ _ _).
  assert (file w4 = file w3 /\ emitted w4 = emitted w /\ (usageStore opts = true ->
    map used (recorded w4) = map used (recorded w) ++ [(claimed_in ops, bool_decide (err = None))])) as (Hw4 & He4 & Hu4).
  { unfold w4, recordSessionUsage. destruct (usageStore opts); [|done]. split; [done|]. split; [done|]. intros _.
    cbn [recorded record_usage]. rewrite map_app. cbn [map]. unfold used at 2. cbn [u_TaskID u_ExitCode file w3]. rewrite Ht3. repeat f_equal.
    destruct err as [e|]; [|done]. specialize (Hx e). destruct (ExitCode e) as [c|]; cbn; [|done]. destruct (c =? 0) eqn:E; [|done].
    apply Z.eqb_eq in E. congruence. }
  destruct (own_idle (file w4) StateIdle) as [Hf5 Ht5]; [by rewrite Hw4|].
  assert (lock_task (UpdateLockState pid StateIdle (file w4)).1 = claimed_in ops) as Hc by (rewrite Ht5, Hw4; exact Ht3).
  destruct err as [e|].
  - unfold judge_error. cbv zeta. cbn [file set_file]. rewrite Hc.
    assert (forall s', TasksCompleted s' = TasksCompleted s -> accounts opts s w (Ran (Some e) ops) s'
      (emit (TaskFailed (claimed_in ops) e) (set_file (UpdateLockState pid StateIdle (file w4)).1 w4))) as Ha.
    { intros s' Hs'. split; [exact Hf5|]. split; [cbn; lia|]. split; [|exact Hu4]. cbn [emitted emit set_file]. by rewrite map_app, He4. }
    destruct (3 <=? _); [by apply Ha|]. 
    match goal with |- context[pause ?d ?s1 ?w1] => pose proof (pause_accounts opts d s1 w1 _ _ _ (Ha s1 eq_refl)) as P; by destruct (pause d s1 w1) end.
  - unfold judge_success. cbv zeta. rewrite agentClaimedTask_task. cbn [file set_file]. rewrite Hc.
    destruct (negb (bool_decide (claimed_in ops = ""%string))) eqn:Ec.
    + match goal with |- context[pause ?d ?s1 ?w1] => assert (accounts opts s w (Ran None ops) s1 w1) as Ha;
        [|pose proof (pause_accounts opts d s1 w1 _ _ _ Ha) as P; by destruct (pause d s1 w1)] end.
      split; [exact Hf5|]. cbn [completed report usage_of]. rewrite Ec. split; [done|]. split; [|exact Hu4].
      cbn [emitted emit set_file]. by rewrite map_app, He4.
    + assert (forall s', TasksCompleted s' = TasksCompleted s -> accounts opts s w (Ran None ops) s'
        (set_file (UpdateLockState pid StateIdle (file w4)).1 w4)) as Ha.
      { intros s' Hs'. split; [exact Hf5|]. cbn [completed report usage_of]. rewrite Ec. split; [lia|]. split; [|exact Hu4].
        cbn [emitted set_file opt_list]. by rewrite He4, app_nil_r. }
      destruct (3 <=? _); [by apply Ha|].
      match goal with |- context[pause ?d ?s1 ?w1] => pose proof (pause_accounts opts d s1 w1 _ _ _ (Ha s1 eq_refl)) as P; by destruct (pause d s1 w1) end.
Qed.

Lemma iteration_accounts opts s w : keeps_lock -> failures_show -> own (file w) ->
  let '(s', w', l) := iteration opts s w in accounts opts s w l s' w'.
Proof.
  intros Hk Hx Hf. unfold iteration. cbv zeta. destruct (own_idle (file w) StateIdle Hf) as [Hf1 _].
  assert (forall s' l, TasksCompleted s' = TasksCompleted s -> is_run l = false ->
    accounts opts s w l s' (set_file (UpdateLockState pid StateIdle (file w)).1 w)) as Ha.
  { intros s' l Hs' Hl. split; [exact Hf1|]. destruct l; try done; cbn; rewrite app_nil_r; (split; [lia|]); (split; [done|]); by rewrite ?app_nil_r. }
  destruct (shut_down _); [by apply Ha|]. destruct (_ && _); [by apply Ha|].
  cbn [outside set_file]. destruct (hasAvailableTasks _ _) as [o r].
  assert (forall s' l t, TasksCompleted s' = TasksCompleted s -> is_run l = false ->
    accounts opts s w l s' (mkWorld o t (UpdateLockState pid StateIdle (file w)).1 (emitted w) (recorded w))) as Hb.
  { intros s' l t Hs' Hl. exact (Ha s' l Hs' Hl). }
  cbn [now file emitted recorded set_file]. destruct r as [[]|e].
  - match goal with |- context[run_session opts s ?w1] => pose proof (run_session_accounts opts s w1 Hk Hx Hf1) as P end.
    exact P.
  - destruct (_ && _); [by apply Hb|].
    match goal with |- context[pause ?d ?s1 ?w1] => pose proof (pause_accounts opts d s1 w1 Waited _ _ (Hb s1 Waited _ eq_refl eq_refl)) as P; by destruct (pause d s1 w1) end.
  - match goal with |- context[pause ?d ?s1 ?w1] => pose proof (pause_accounts opts d s1 w1 Waited _ _ (Hb s1 Waited _ eq_refl eq_refl)) as P; by destruct (pause d s1 w1) end.
Qed.

Lemma rounds_account fuel opts s w : keeps_lock -> failures_show -> own (file w) ->
  let '(s', w', ls) := rounds fuel opts s w in
  own (file w') /\ TasksCompleted s' = TasksCompleted s + Z.of_nat (length (filter completed ls)) /\
  map told (emitted w') = map told (emitted w) ++ omap report ls /\
  (usageStore opts = true -> map used (recorded w') = map used (recorded w) ++ omap usage_of ls).
Proof.
  intros Hk Hx. revert s w. induction fuel as [|fuel IH]; intros s w Hf; cbn [rounds].
  { cbn. rewrite !app_nil_r. repeat split; try done; lia. }
  destruct (ExitReason s). { cbn. rewrite !app_nil_r. repeat split; try done; lia. }
  pose proof (iteration_accounts opts s w Hk Hx Hf) as P. destruct (iteration opts s w) as [[s1 w1] l]. destruct P as (H1 & H2 & H3 & H4).
  specialize (IH s1 w1 H1). destruct (rounds fuel opts s1 w1) as [[s' w'] ls]. destruct IH as (I1 & I2 & I3 & I4).
  split; [done|]. split; [|split].
  - rewrite I2, H2, filter_cons. destruct (completed l); case_decide; cbn [length]; try done; lia.
  - rewrite I3, H3, <- app_assoc. f_equal. cbn [omap list_omap]. by destruct (report l).
  - intros Hu. rewrite (I4 Hu), (H4 Hu), <- app_assoc. f_equal. cbn [omap list_omap]. by destruct (usage_of l).
Qed.

(** C10. While the loop's process has the lock, whatever agents and other processes do
    to the lock file short of that process's own release: the tasks counted are
    the sessions without an error that leave a task in the lock, each of them and
    each failed session is reported once to the event bus with that task, in order,
    and every session is handed to the usage store with its task and outcome. *)
Theorem completions_exact fuel opts w : keeps_lock -> failures_show -> own (file w) -> emitted w = [] -> recorded w = [] ->
  let '(s', w', ls) := RunAutoModeLoop fuel opts w in
  TasksCompleted s' = Z.of_nat (length (filter completed ls)) /\ map told (emitted w') = omap report ls /\
  (usageStore opts = true -> map used (recorded w') = omap usage_of ls) /\ own (file w').
Proof.
  intros Hk Hx Hf He Hr. unfold RunAutoModeLoop.
  pose proof (rounds_account fuel (with_defaults opts) (mkState 0 0 0 (now w) (now w) None) w Hk Hx Hf) as P.
  destruct (rounds fuel _ _ w) as [[s' w'] ls]. destruct P as (H1 & H2 & H3 & H4). rewrite He in H3. rewrite Hr in H4. by repeat split.
Qed.
End loop.

(** ** The loop with tmux ([RunAutoModeTmux])

    Each session is a process of its own in a tmux session; it takes the lock
    itself and leaves it for the loop to read. [start_session] and [stream] are the
    starting of tmux and what happens until the session is over, with the lock as
    it leaves it. *)
Class TmuxEnv (W : Type) := {
  look : W -> W * res bool;
  start_session : W -> W * option goerror;
  stream : option string -> W -> W * option string * Z;
}.

Section tmux.
Context {W : Type} {env : TmuxEnv W}.
Context {codec : JsonCodec LockInfo}.
Context (shutdown : option Z).
(** The lock's directory, [ResolveLockDir], is the worktree itself. *)
Context (lock_here : bool).

Record tmux_state := mkTmux { taskCount : Z; consecutiveNoProgress : Z; idleStart : Z; over : bool }.
Record tmux_world := mkTmuxWorld { t_outside : W; t_now : Z; t_lock : option string }.

Definition tmux_closed (t : Z) : bool := match shutdown with Some t' => t' <=? t | None => false end.
Definition stop (s : tmux_state) : tmux_state := mkTmux (taskCount s) (consecutiveNoProgress s) (idleStart s) true.
Definition tmux_at (t : Z) (w : tmux_world) : tmux_world := mkTmuxWorld (t_outside w) t (t_lock w).

(** [time.Sleep], and the sleep that a signal interrupts. *)
Definition tmux_sleep (d : Z) (w : tmux_world) : tmux_world := tmux_at (t_now w + Z.max 0 d) w.
Definition tmux_pause (d : Z) (s : tmux_state) (w : tmux_world) : tmux_state * tmux_world :=
  match shutdown with
  | Some t => if t <=? t_now w + Z.max 0 d then (stop s, tmux_at (Z.max (t_now w) t) w) else (s, tmux_sleep d w)
  | None => (s, tmux_sleep d w)
  end.

Inductive tmux_label := TStopped | TWaited | TNotStarted | TRan (claimed : bool).

Definition after_session (s : tmux_state) (w : tmux_world) : tmux_state * tmux_world * tmux_label :=
  if tmux_closed (t_now w) then (stop s, w, TRan false)
  else if agentClaimedTask (t_lock w) then (mkTmux (taskCount s + 1) 0 (idleStart s) false, tmux_sleep (2 * second) w, TRan true)
  else
    let s := mkTmux (taskCount s) (consecutiveNoProgress s + 1) (idleStart s) (over s) in
    if 3 <=? consecutiveNoProgress s then (stop s, w, TRan false)
    else
      let backoff := shl64 30 (consecutiveNoProgress s - 1) * second in
      let '(s, w) := tmux_pause (if 120 * second <? backoff then 120 * second else backoff) s w in
      (s, if over s then w else tmux_sleep (2 * second) w, TRan false).

Definition tmux_round (Interval_ MaxTasks_ IdleTimeout_ : Z) (s : tmux_state) (w : tmux_world) : tmux_state * tmux_world * tmux_label :=
  if tmux_closed (t_now w) then (stop s, w, TStopped)
  else if (0 <? MaxTasks_) && (MaxTasks_ <=? taskCount s) then (stop s, w, TStopped)
  else
    let '(o, available) := look (t_outside w) in
    let w := mkTmuxWorld o (t_now w) (t_lock w) in
    match available with
    | Err _ => (s, tmux_sleep (5 * second) w, TWaited)
    | Ok false =>
        if (0 <? IdleTimeout_) && (mul64 IdleTimeout_ minute <=? time_sub (t_now w) (idleStart s)) then (stop s, w, TStopped)
        else let '(s, w) := tmux_pause (mul64 Interval_ second) s w in (s, w, TWaited)
    | Ok true =>
        let s := mkTmux (taskCount s) (consecutiveNoProgress s) (t_now w) (over s) in
        (* the lock file of the worktree is removed, wherever the lock is *)
        let lock := if lock_here then None else t_lock w in
        let '(o, err) := start_session (t_outside w) in
        match err with
        | Some _ => (s, tmux_sleep (5 * second) (mkTmuxWorld o (t_now w) lock), TNotStarted)
        | None =>
            let '(o, lock, duration) := stream lock o in
            after_session s (mkTmuxWorld o (t_now w + Z.max 0 duration) lock)
        end
    end.

Fixpoint tmux_rounds (fuel : nat) (i m t : Z) (s : tmux_state) (w : tmux_world) : tmux_state * tmux_world * list tmux_label :=
  match fuel with
  | O => (s, w, [])
  | S fuel =>
      if over s then (s, w, [])
      else
        let '(s, w, l) := tmux_round i m t s w in
        let '(s, w, ls) := tmux_rounds fuel i m t s w in
        (s, w, l :: ls)
  end.

Definition RunAutoModeTmux (fuel : nat) (Interval_ MaxTasks_ IdleTimeout_ : Z) (w : tmux_world) : tmux_state * tmux_world * list tmux_label :=
  tmux_rounds fuel Interval_ MaxTasks_ IdleTimeout_ (mkTmux 0 0 (t_now w) false) w.

(** A session that cannot take the lock: it leaves the file alone. *)
Definition never_locks : Prop := forall lock o, (stream lock o).1.2 = lock.
Definition always_work : Prop := forall o, (look o).2 = Ok true /\ (start_session o).2 = None.

Lemma tmux_round_working i t s w : always_work -> never_locks -> shutdown = None ->
  exists o t1, tmux_round i 0 t s w =
    after_session (mkTmux (taskCount s) (consecutiveNoProgress s) (t_now w) (over s)) (mkTmuxWorld o t1 (if lock_here then None else t_lock w)).
Proof.
  intros Hw Hn Hsd. unfold tmux_round, tmux_closed. rewrite Hsd. cbn [andb Z.ltb Z.compare].
  destruct (Hw (t_outside w)) as [H1 _]. destruct (look (t_outside w)) as [o r]. cbn in H1. subst r. cbn [t_outside t_now t_lock].
  destruct (Hw o) as [_ H2]. destruct (start_session o) as [o1 e]. cbn in H2. subst e.
  pose proof (Hn (if lock_here then None else t_lock w) o1) as Hl. destruct (stream _ o1) as [[o2 lk] d]. cbn in Hl. subst lk. by eexists _, _.
Qed.

(** Sessions that fail before they take the lock: where the lock is the worktree's,
    the loop stops after three; in a workspace, whose lock is elsewhere and is not
    removed, a task that an earlier session left in it is counted again for every
    one of them, and the loop never stops. *)
Theorem leftover_lock_counts fuel i t w :
  shutdown = None -> always_work -> never_locks -> agentClaimedTask (t_lock w) = true -> (3 <= fuel)%nat ->
  let '(s', _, ls) := RunAutoModeTmux fuel i 0 t w in
  if lock_here then taskCount s' = 0 /\ over s' = true /\ ls = replicate 3 (TRan false)
  else taskCount s' = Z.of_nat fuel /\ over s' = false /\ ls = replicate fuel (TRan true).
Proof.
  intros Hsd Hw Hn Hc Hf. unfold RunAutoModeTmux. set (s := mkTmux 0 0 _ false). destruct lock_here eqn:Elh.
  - destruct fuel as [|[|[|fuel]]]; [lia..|]. cbn [tmux_rounds].
    assert (forall s w, exists t1, tmux_round i 0 t s w = 
      let s1 := mkTmux (taskCount s) (consecutiveNoProgress s + 1) (t_now w) (over s) in
      if 3 <=? consecutiveNoProgress s + 1 then (stop s1, t1, TRan false) else (s1, t1, TRan false)) as Hr.
    { intros s1 w1. destruct (tmux_round_working i t s1 w1 Hw Hn Hsd) as (o & t1 & ->). rewrite Elh. unfold after_session, tmux_closed, tmux_pause.
      rewrite Hsd. cbn [t_lock agentClaimedTask ReadLockFile consecutiveNoProgress taskCount idleStart over].
      destruct (3 <=? consecutiveNoProgress s1 + 1); [by eexists|]. by eexists. }
    cbn [over s]. destruct (Hr s w) as [w1 ->]. cbn -[tmux_round]. change (3 <=? 0 + 1) with false. cbn -[tmux_round].
    match goal with |- context[tmux_round i 0 t ?s1 w1] => destruct (Hr s1 w1) as [w2 ->] end.
    cbn -[tmux_round]. change (3 <=? 0 + 1 + 1) with false. cbn -[tmux_round].
    match goal with |- context[tmux_round i 0 t ?s1 w2] => destruct (Hr s1 w2) as [w3 ->] end.
    cbn -[tmux_round]. change (3 <=? 0 + 1 + 1 + 1) with true. cbn -[tmux_round]. by destruct fuel.
  - assert (over s = false) as Ho by done. change (Z.of_nat fuel) with (0 + Z.of_nat fuel). change 0 with (taskCount s) at 2. clearbody s.
    clear Hf. revert s w Ho Hc. induction fuel as [|fuel IH]; intros s w Ho Hc; cbn [tmux_rounds]; [split; [lia|done]|]. rewrite Ho.
    destruct (tmux_round_working i t s w Hw Hn Hsd) as (o & t1 & ->). rewrite Elh. unfold after_session, tmux_closed. rewrite Hsd. cbn [t_lock]. rewrite Hc.
    match goal with |- context[tmux_rounds fuel i 0 t ?s1 ?w1] => specialize (IH s1 w1 eq_refl Hc); destruct (tmux_rounds fuel i 0 t s1 w1) as [[s2 w2] ls] end.
    destruct IH as (H1 & H2 & ->). cbn [taskCount] in H1. split; [lia|done].
Qed.
End tmux.

(** ** Witnesses *)
Section witnesses.
Local Open Scope string_scope.
#[local] Existing Instance InsertionSort.insertion_SliceSort.
#[local] Instance lock_coded : JsonCodec LockInfo := lock_codec.

(** An agent that follows a script; when it is over there are no more tasks. *)
Definition script : Type := list (option string * option goerror).
Definition claim_ops (t : option string) : list file_op := match t with Some t => [OpTask 5 t "title"] | None => [] end.
#[local] Instance scripted : AutoEnv script := {|
  BD := fun _ o => (o, Err (Msg "bd"));
  parse_issues := fun _ => Ok [];
  check_time := fun _ => 0;
  InvokeAgentNonInteractive := fun _ o => match o with (t, e) :: o' => (o', claim_ops t, e, 60 * second) | [] => ([], [], None, 0) end;
  ExitCode := fun _ => None;
|}.

Definition some_left (o : script) : script * res bool := (o, Ok (negb (bool_decide (length o = 0%nat)))).
Definition demo_opts (m : Z) : AutoModeOptions (W := script) :=
  mkOptions 30 m 1 "task" "w1" "" (Some (fun _ _ => "work")) (Some some_left) 0 true.
Definition no_prompt (_ _ : string) (_ : script) : string := "".
Definition fails : option string * option goerror := (None, Some (Msg "exit status 1")).
Definition nothing : option string * option goerror := (None, None).
Definition claims (t : string) : option string * option goerror := (Some t, None).
Definition demo_world (o : script) : world := mkWorld o 0 (Some (marshal some_lock)) [] [].
Definition demo_run (fuel : nat) (m : Z) (o : script) := RunAutoModeLoop (fun _ => true) 41 None no_prompt no_prompt fuel (demo_opts m) (demo_world o).

(** The bound on the sessions is reached: six failures go by when a session that
    claims nothing comes after every two. *)
Example nine_sessions :
  let '(s', w', ls) := demo_run 20 1 [fails; fails; nothing; fails; fails; nothing; fails; fails; nothing; claims "bd-1"] in
  sessions ls = 9 /\ TasksCompleted s' = 0 /\ ExitReason s' = Some "no tasks claimed in 3 consecutive sessions" /\ length (outside w') = 1%nat.
Proof. vm_compute. repeat split. Qed.

Lemma sessions_bounded_witness :
  let '(s', _, ls) := demo_run 20 1 [fails; claims "bd-1"; claims "bd-2"] in sessions ls <= 9 * TasksCompleted s' + 9.
Proof.
  pose proof (sessions_bounded (fun _ => true) 41 None no_prompt no_prompt 20 (demo_opts 1)
    (demo_world [fails; claims "bd-1"; claims "bd-2"]) ltac:(vm_compute; discriminate)) as X.
  unfold demo_run. destruct (RunAutoModeLoop _ _ _ _ _ _ _ _) as [[s' w'] ls]. destruct X as [X _]. destruct (ExitReason s'); lia.
Defined.

Lemma loop_terminates_witness : ExitReason (demo_run 30 1 []).1.1 <> None.
Proof.
  apply (loop_terminates (fun _ => true) 41 None no_prompt no_prompt (demo_opts 1) (demo_world []) 30).
  - repeat split; vm_compute; discriminate.
  - intros o. by eexists.
  - vm_compute. reflexivity.
Defined.

Lemma completions_exact_witness :
  let '(s', w', ls) := demo_run 8 0 [claims "bd-1"; fails; claims "bd-2"; nothing] in
  TasksCompleted s' = Z.of_nat (length (filter (completed 41) ls)) /\ map told (emitted w') = omap (report 41) ls.
Proof.
  pose proof (completions_exact (fun _ => true) 41 None no_prompt no_prompt 8 (demo_opts 0)
    (demo_world [claims "bd-1"; fails; claims "bd-2"; nothing])) as X.
  unfold demo_run. destruct (RunAutoModeLoop _ _ _ _ _ _ _ _) as [[s' w'] ls].
  destruct X as (X1 & X2 & _); [|intros e E; discriminate E|by exists some_lock|done|done|by split].
  intros prompt [|[[t|] e] o]; cbn; rewrite ?elem_of_cons, ?elem_of_nil; intros H; decompose [or] H; try done.
Defined.
Example completions_told :
  map told (emitted (demo_run 8 0 [claims "bd-1"; fails; claims "bd-2"; nothing]).1.2) =
  [("bd-1", None); ("", Some (Msg "exit status 1")); ("bd-2", None)].
Proof. vm_compute. reflexivity. Qed.

(** A tmux whose sessions do nothing. *)
#[local] Instance idle_tmux : TmuxEnv unit := {|
  look := fun _ => (tt, Ok true); start_session := fun _ => (tt, None); stream := fun lock _ => (tt, lock, second);
|}.
Lemma leftover_lock_counts_witness :
  let w := mkTmuxWorld tt 0 (Some (marshal (set_task "bd-1" "title" (Some 5) some_lock))) in
  taskCount (RunAutoModeTmux None false 50 30 0 0 w).1.1 = 50.
Proof.
  cbv zeta. pose proof (leftover_lock_counts None false 50 30 0
    (mkTmuxWorld tt 0 (Some (marshal (set_task "bd-1" "title" (Some 5) some_lock)))) eq_refl) as X.
  destruct (RunAutoModeTmux _ _ _ _ _ _ _) as [[s' w'] ls]. apply X; [by intros []|by intros lock []|vm_compute; reflexivity|lia].
Defined.
End witnesses.
End Auto.


