(* ===== verification/LogRouter.v ===== *)
(** * LogRouter: the output of an agent in its log and in its tasks' logs,
    [internal/logrouter/router.go] and [watcher.go]

    Two buffered rotating writers ([Bufio] over [Rotation]): the agent's, which gets
    everything, and the current task's. The paths are those of [Paths]; what the
    watcher is told of the lock file is a list of events. *)
From S2P Require Import Prelude Paths Rotation Bufio.
Import Paths Files Log Bufio Rotating.
Local Open Scope Z_scope.

Module Routing.

Definition bufferSize : Z := 64 * 1024.
Definition defaultMaxBackups : Z := 2.

(** A rotating writer behind a buffer. *)
Definition put_rotator (p : string) (wr : rotatingWriter) (w : world) : rotatingWriter * (Z * option goerror) * world :=
  Rotating.Write p wr w.
Abbreviation Writer := (Buf rotatingWriter).
Definition buf_flush : Writer -> world -> Writer * world := Bufio.flush put_rotator.
Definition buf_write : string -> Writer -> world -> (Z * option goerror) * Writer * world := Bufio.write put_rotator bufferSize.

(** The rotators are the targets of the writers. *)
Record LogRouter := mkRouter {
  baseDir : string;
  agentName : string;
  maxLogSize : Z;
  agentWriter : Writer;
  taskID : string;
  phase : string;
  taskWriter : option Writer;
}.

Definition set_agent (b : Writer) (r : LogRouter) : LogRouter :=
  mkRouter (baseDir r) (agentName r) (maxLogSize r) b (taskID r) (phase r) (taskWriter r).
Definition set_task_writer (b : option Writer) (r : LogRouter) : LogRouter :=
  mkRouter (baseDir r) (agentName r) (maxLogSize r) (agentWriter r) (taskID r) (phase r) b.
Definition set_task (t p : string) (b : option Writer) (r : LogRouter) : LogRouter :=
  mkRouter (baseDir r) (agentName r) (maxLogSize r) (agentWriter r) t p b.

Local Open Scope string_scope.

Definition agent_path (base name : string) : string := join_all [base; "agents"; name +:+ ".log"].
Definition task_dir (base id : string) : string := join_all [base; "tasks"; id].
Definition task_path (base id ph : string) : string := join_all [task_dir base id; ph +:+ ".log"].

Definition NewLogRouter (name base : string) (maxSize : Z) (w : world) : res LogRouter * world :=
  if negb (router_name_ok name) then (Err (Msg ("invalid agent name: " +:+ quote name +:+ " (must match ^[a-zA-Z0-9_.-]+$)")), w)
  else
    match newRotatingWriter (agent_path base name) maxSize defaultMaxBackups w with
    | (Err e, w1) => (Err (Wrapf "failed to open agent log file: " e ""), w1)
    | (Ok wr, w1) => (Ok (mkRouter base name maxSize (mkBuf wr "" None) "" "" None), w1)
    end.

Definition joined (pre : string) (errs : list goerror) : option goerror :=
  match errs with [] => None | _ => Some (Msg (pre +:+ "[" +:+ GoString.Join " " (map error_text errs) +:+ "]")) end.
Definition failed (pre : string) (e : option goerror) : list goerror := match e with Some e => [Wrapf pre e ""] | None => [] end.

Definition closeTaskLogLocked (r : LogRouter) (w : world) : LogRouter * option goerror * world :=
  match taskWriter r with
  | None => (r, None, w)
  | Some b =>
      let (b1, w1) := buf_flush b w in
      let (e2, w2) := CloseWriter w1 in
      (set_task_writer None r, joined "errors closing task log: " (failed "failed to flush task log: " (buf_err b1) ++ failed "failed to close task log: " e2), w2)
  end.

Definition phase_ok (ph : string) : bool := bool_decide (ph = "planning") || bool_decide (ph = "implementation").

(** An error of the closing is only printed. *)
Definition SetTask (id ph : string) (r : LogRouter) (w : world) : LogRouter * option goerror * world :=
  if bool_decide (taskID r = id /\ phase r = ph) then (r, None, w)
  else
    let '(r1, _, w1) := closeTaskLogLocked r w in
    if bool_decide (id = "") then (set_task "" "" (taskWriter r1) r1, None, w1)
    else if negb (router_name_ok id) then (r1, Some (Msg ("invalid task ID: " +:+ quote id +:+ " (must match ^[a-zA-Z0-9_.-]+$)")), w1)
    else if negb (phase_ok ph) then (r1, Some (Msg ("invalid phase: " +:+ quote ph +:+ " (must be 'planning' or 'implementation')")), w1)
    else
      match MkdirAll w1 with
      | (Some e, w2) => (r1, Some (Wrapf "failed to create task log directory: " e ""), w2)
      | (None, w2) =>
          match newRotatingWriter (task_path (baseDir r1) id ph) (maxLogSize r1) defaultMaxBackups w2 with
          | (Err e, w3) => (r1, Some (Wrapf "failed to open task log file: " e ""), w3)
          | (Ok wr, w3) => (set_task id ph (Some (mkBuf wr "" None)) r1, None, w3)
          end
      end.

Definition ClearTask (r : LogRouter) (w : world) : LogRouter * option goerror * world := SetTask "" "" r w.

Definition Write (p : string) (r : LogRouter) (w : world) : (Z * option goerror) * LogRouter * world :=
  match buf_write p (agentWriter r) w with
  | ((n, Some e), b, w1) => ((n, Some (Wrapf "failed to write to agent log: " e "")), set_agent b r, w1)
  | ((n, None), b, w1) =>
      let r1 := set_agent b r in
      match taskWriter r1 with
      | None => ((n, None), r1, w1)
      | Some tb => let '(_, tb1, w2) := buf_write p tb w1 in ((n, None), set_task_writer (Some tb1) r1, w2)
      end
  end.

Definition Flush (r : LogRouter) (w : world) : LogRouter * option goerror * world :=
  let (b, w1) := buf_flush (agentWriter r) w in
  let r1 := set_agent b r in
  match buf_err b with
  | Some e => (r1, Some (Wrapf "failed to flush agent log: " e ""), w1)
  | None =>
      match taskWriter r1 with
      | None => (r1, None, w1)
      | Some tb =>
          let (tb1, w2) := buf_flush tb w1 in
          (set_task_writer (Some tb1) r1, match buf_err tb1 with Some e => Some (Wrapf "failed to flush task log: " e "") | None => None end, w2)
      end
  end.

Definition Close (r : LogRouter) (w : world) : LogRouter * option goerror * world :=
  let '(r1, e1, w1) := closeTaskLogLocked r w in
  let (b, w2) := buf_flush (agentWriter r1) w1 in
  let (e3, w3) := CloseWriter w2 in
  (set_agent b r1,
   joined "errors closing router: "
     (match e1 with Some e => [e] | None => [] end ++ failed "failed to flush agent log: " (buf_err b) ++ failed "failed to close agent log: " e3), w3).

(** What is read, until the end of the input or of the context. *)
Fixpoint RouteStdin (input : list string) (r : LogRouter) (w : world) : LogRouter * world :=
  match input with
  | [] => (r, w)
  | p :: input => let '(_, r1, w1) := Write p r w in RouteStdin input r1 w1
  end.

(** ** The watcher of the lock file *)
Record AgentLockInfo := mkLockInfo {
  li_PID : Z; li_Command : string; li_AgentName : string; li_TaskID : string; li_TaskTitle : string; li_State : string;
}.

Definition commandToPhase (command : string) : string :=
  if bool_decide (command = "plan") then "planning" else "implementation".

(** What [fsnotify] tells of the lock's directory; for a file that was written, what
    is in it when it is read. *)
Inductive watch_event := LockWritten (content : res AgentLockInfo) | LockRemoved | OtherEvent.

Definition readAndUpdateLock (content : res AgentLockInfo) (r : LogRouter) (w : world) : LogRouter * world :=
  match content with
  | Err _ => (r, w)
  | Ok info =>
      let '(r1, _, w1) :=
        if negb (bool_decide (li_TaskID info = "")) then SetTask (li_TaskID info) (commandToPhase (li_Command info)) r w
        else ClearTask r w in
      (r1, w1)
  end.

Definition watch (e : watch_event) (r : LogRouter) (w : world) : LogRouter * world :=
  match e with
  | LockWritten content => readAndUpdateLock content r w
  | LockRemoved => let '(r1, _, w1) := ClearTask r w in (r1, w1)
  | OtherEvent => (r, w)
  end.

(** ** The logs of the agent and of the tasks *)
Inductive key := KAgent | KTask (id ph : string).
#[export] Instance key_eq_dec : EqDecision key.
Proof. solve_decision. Defined.

Section refinement.
Context (base : string) (agent : string) (mx : Z).
Hypothesis base_abs : IsAbs base = true.
Hypothesis agent_ok : router_name_ok agent = true.

Definition path_of (k : key) : string :=
  match k with KAgent => agent_path base agent | KTask id ph => task_path base id ph end.
Definition key_ok (k : key) : Prop :=
  match k with KAgent => True | KTask id ph => router_name_ok id = true /\ phase_ok ph = true end.

(** *** Different logs are different files *)
Lemma name_plain n : router_name_ok n = true -> plain_part n.
Proof.
  unfold router_name_ok. rewrite !andb_true_iff, !negb_true_iff, !bool_decide_eq_false. intros [[H1 H2] H3]. by eapply name_chars_plain.
Qed.
Lemma plain_app p q : plain_part p -> contains_byte q Separator = false -> p +:+ q <> "." -> p +:+ q <> up -> plain_part (p +:+ q).
Proof.
  intros (H1 & _ & _ & H4) Hq H5 H6. split; [by destruct p|]. split; [done|]. split; [done|]. by rewrite contains_byte_app, H4.
Qed.
Lemma suffix_plain p q : plain_part p -> contains_byte q Separator = false -> (2 < String.length q)%nat -> plain_part (p +:+ q).
Proof.
  intros Hp Hq Hl. apply plain_app; [done..| |]; intros E; apply (f_equal String.length) in E; rewrite length_append in E; simpl in E; lia.
Qed.

(** The components of a log's path below the base; the last one without its
    number. *)
Definition comps (k : key) : list string :=
  match k with KAgent => ["agents"; agent +:+ ".log"] | KTask id ph => ["tasks"; id; ph +:+ ".log"] end.

Lemma phase_plain ph : phase_ok ph = true -> plain_part ph.
Proof. unfold phase_ok. rewrite orb_true_iff, !bool_decide_eq_true. intros [->| ->]; by repeat split. Qed.

Lemma comps_plain k : key_ok k -> Forall plain_part (comps k).
Proof.
  destruct k as [|id ph]; cbn [comps key_ok].
  - intros _. repeat (apply Forall_cons_2; [|]); [by repeat split| |by apply Forall_nil_2].
    apply suffix_plain; [by apply name_plain|done|simpl; lia].
  - intros [H1 H2]. repeat (apply Forall_cons_2; [|]); [by repeat split|by apply name_plain| |by apply Forall_nil_2].
    apply suffix_plain; [by apply phase_plain|done|simpl; lia].
Qed.

Lemma path_of_comps k : key_ok k -> path_of k = abs_path (parts base ++ comps k).
Proof.
  intros Hk. pose proof (comps_plain k Hk) as HF. pose proof (parts_abs_plain base base_abs) as Hb. destruct k as [|id ph].
  - unfold path_of, agent_path. by rewrite join_all_abs.
  - unfold path_of, task_path, task_dir. cbn [comps] in HF |- *.
    inversion_clear HF as [|? ? H1 HF']. inversion_clear HF' as [|? ? H2 HF'']. inversion_clear HF'' as [|? ? H3 _].
    assert (Forall plain_part ["tasks"; id]) as HF2 by (repeat (apply Forall_cons_2; [done|]); by apply Forall_nil_2).
    rewrite (join_all_abs base ["tasks"; id]) by done. rewrite (join_all_abs _ [ph +:+ ".log"]);
      [|apply IsAbs_abs_path|by apply Forall_cons_2; [|apply Forall_nil_2]|done].
    rewrite parts_abs_path by (by apply Forall_app). by rewrite <- app_assoc.
Qed.

(** The end of a file's name. *)
Definition number (j : nat) : string := if bool_decide (j = 0%nat) then "" else "." +:+ itoa (Z.of_nat j).
Definition numbered (k : key) (j : nat) : list string :=
  match k with KAgent => ["agents"; (agent +:+ ".log") +:+ number j] | KTask id ph => ["tasks"; id; (ph +:+ ".log") +:+ number j] end.

Lemma number_plain j : contains_byte (number j) Separator = false.
Proof. unfold number. case_bool_decide; [done|]. rewrite append_cons, append_nil_l. cbn [contains_byte]. by rewrite itoa_no_byte. Qed.

Lemma numbered_plain k j : key_ok k -> Forall plain_part (numbered k j).
Proof.
  assert (forall p, plain_part p -> plain_part ((p +:+ ".log") +:+ number j)) as Hp.
  { intros p Hp. rewrite append_assoc. apply suffix_plain; [done| |rewrite length_append; simpl; lia].
    rewrite contains_byte_app. by rewrite number_plain. }
  destruct k as [|id ph]; cbn [numbered key_ok].
  - intros _. repeat (apply Forall_cons_2; [|]); [by repeat split|by apply Hp, name_plain|by apply Forall_nil_2].
  - intros [H1 H2]. repeat (apply Forall_cons_2; [|]); [by repeat split|by apply name_plain|by apply Hp, phase_plain|by apply Forall_nil_2].
Qed.

Lemma abs_path_last l p q : abs_path (l ++ [p +:+ q]) = abs_path (l ++ [p]) +:+ q.
Proof.
  unfold abs_path. destruct l as [|x l]; [by cbn [app GoString.Join]; rewrite append_cons|].
  rewrite !Join_snoc by done. cbn [GoString.Join]. by rewrite append_cons, append_assoc, append_cons.
Qed.

Lemma name_numbered k j : key_ok k -> name (path_of k) j = abs_path (parts base ++ numbered k j).
Proof.
  intros Hk. rewrite path_of_comps by done. unfold name, backupPath.
  assert (abs_path (parts base ++ numbered k j) = abs_path (parts base ++ comps k) +:+ number j) as ->.
  { destruct k as [|id ph]; cbn [numbered comps].
    - exact (eq_trans (f_equal abs_path (app_assoc _ ["agents"] [_])) (eq_trans (abs_path_last (parts base ++ ["agents"]) _ _)
        (f_equal (fun l => abs_path l +:+ _) (eq_sym (app_assoc _ ["agents"] [_]))))).
    - exact (eq_trans (f_equal abs_path (app_assoc _ ["tasks"; id] [_])) (eq_trans (abs_path_last (parts base ++ ["tasks"; id]) _ _)
        (f_equal (fun l => abs_path l +:+ _) (eq_sym (app_assoc _ ["tasks"; id] [_]))))). }
  unfold number. case_bool_decide; [by rewrite append_empty|done].
Qed.

Lemma logs_apart k k' j j' : key_ok k -> key_ok k' -> name (path_of k) j = name (path_of k') j' -> k = k'.
Proof.
  intros Hk Hk'. rewrite !name_numbered by done. intros E. pose proof (parts_abs_plain base base_abs) as Hb.
  apply abs_path_inj in E; [|by apply Forall_app; split; [|apply numbered_plain]..]. apply app_inv_head in E.
  destruct k as [|id ph], k' as [|id' ph']; cbn [numbered] in E; [done|done|done|]. injection E as <- E. f_equal.
  destruct Hk as [_ Hk], Hk' as [_ Hk']. unfold phase_ok in *. rewrite orb_true_iff, !bool_decide_eq_true in Hk, Hk'.
  destruct Hk as [->| ->], Hk' as [->| ->]; try done; rewrite !append_assoc, !append_cons in E; discriminate E.
Qed.

(** *** One log *)
Definition after (l0 : list string) (ps : list string) : list string := foldl (log_write mx 2) l0 ps.
Definition room (l0 : list string) : Z := max_int64 - len (hd "" l0).

Record stood (p : string) (l0 : list string) (wr : rotatingWriter) (w : world) (ps : list string) : Prop := {
  sd_path : Rotating.path wr = p;
  sd_size : maxSize wr = mx;
  sd_backups : maxBackups wr = defaultMaxBackups;
  sd_stands : stands wr w (after l0 ps);
}.
(** ... and nothing but this log has changed since [f0]. *)
Definition moved (f0 : fs) (p : string) (l0 : list string) (wr : rotatingWriter) (w : world) (ps : list string) : Prop :=
  stood p l0 wr w ps /\ changes p 2 f0 (files w).

Lemma after_hd l0 ps : len (hd "" (after l0 ps)) <= len (hd "" l0) + len (concat_all ps).
Proof.
  revert l0. unfold after. induction ps as [|p ps IH]; intros l0; cbn [foldl]; [unfold len; cbn; lia|].
  specialize (IH (log_write mx 2 l0 p)). pose proof (log_write_hd mx 2 l0 p). rewrite concat_all_cons, len_app. lia.
Qed.

Lemma Write_changes p wr w l wr' r w' : stands wr w l -> maxBackups wr = 2 -> Rotating.Write p wr w = (wr', r, w') ->
  changes (Rotating.path wr) 2 (files w) (files w').
Proof.
  intros [Hq Hs _] Hb. rewrite Hb in Hs. change (Z.to_nat 2) with 2%nat in Hs. destruct w as [f fl]. cbn [faults files] in *. subst fl.
  unfold Rotating.Write. destruct (_ && _).
  - destruct (shows_rotate (Rotating.path wr) 2 f (file wr) l rename_failed ltac:(lia) Hs) as (f1 & f2 & h2 & Hsh & Hop & Hs2 & Hd & Hc).
    unfold rotate. rewrite Hb. change (Z.to_nat 2) with 2%nat. rewrite Hsh, Hop. unfold Files.Close, WriteTo, os_call. simpl. intros [= _ _ <-]. simpl.
    eapply changes_trans; [|eapply changes_appended; [apply Hs2|apply Hs2|apply append_data_appended]].
    split; [apply Hs2|]. intros x Hx. split; [by apply Hd|]. intros i. apply Hc.
  - unfold WriteTo, os_call. simpl. intros [= _ _ <-]. simpl. eapply changes_appended; [apply Hs|apply Hs|apply append_data_appended].
Qed.

Lemma put_moved f0 p0 l0 p wr w ps : moved f0 p0 l0 wr w ps -> len (concat_all ps) + len p <= room l0 ->
  exists wr' w', put_rotator p wr w = (wr', (len p, None), w') /\ moved f0 p0 l0 wr' w' (ps ++ [p]).
Proof.
  intros [[Hp Hm Hb Hst] Hc] Hr. unfold put_rotator.
  destruct (Write_stands p wr w (after l0 ps)) as (wr' & w' & E & Ep & Em & Eb & Hst'); [by rewrite Hb|done| |].
  { pose proof (after_hd l0 ps). unfold room in Hr. lia. }
  rewrite E. eexists _, _. split; [reflexivity|]. split.
  - split; [congruence..|]. unfold after. rewrite foldl_app. cbn [foldl]. rewrite Hm, Hb in Hst'. exact Hst'.
  - eapply changes_trans; [exact Hc|]. rewrite <- Hp. by eapply Write_changes.
Qed.

Abbreviation live k l0 b w t := (Bufio.holds bufferSize (stood (path_of k) l0) b w t).
Definition inactive (k : key) (l0 : list string) (f : fs) (t : string) : Prop :=
  exists ps, found (path_of k) 2 f (after l0 ps) /\ concat_all ps = t.

Lemma moved_live f0 k l0 b w t : Bufio.holds bufferSize (moved f0 (path_of k) l0) b w t ->
  live k l0 b w t /\ changes (path_of k) 2 f0 (files w) /\ faults w = [].
Proof. intros [He Hr (ps & [Hs Hc] & E)]. split; [split; [done..|]; by exists ps|]. split; [done|apply Hs]. Qed.
Lemma live_moved k l0 b w t : live k l0 b w t -> Bufio.holds bufferSize (moved (files w) (path_of k) l0) b w t.
Proof.
  intros [He Hr (ps & Hs & E)]. split; [done..|]. exists ps. split; [|done]. split; [done|]. apply changes_refl. apply Hs.
Qed.

Lemma live_write k l0 p b w t : live k l0 b w t -> len t + len p <= room l0 ->
  exists b' w', buf_write p b w = ((len p, None), b', w') /\ live k l0 b' w' (t +:+ p) /\
    changes (path_of k) 2 (files w) (files w') /\ faults w' = [].
Proof.
  intros H Hr. destruct (Bufio.write_quiet put_rotator bufferSize (moved (files w) (path_of k) l0) (room l0)
    (put_moved _ _ _) ltac:(done) p b w t (live_moved _ _ _ _ _ H)) as (b' & w' & E & H'); [by rewrite len_app|].
  eexists _, _. split; [exact E|]. by apply moved_live.
Qed.

Lemma live_flush k l0 b w t : live k l0 b w t -> len t <= room l0 ->
  exists b' w', buf_flush b w = (b', w') /\ buf_err b' = None /\ live k l0 b' w' t /\ inactive k l0 (files w') t /\
    changes (path_of k) 2 (files w) (files w') /\ faults w' = [].
Proof.
  intros H Hr. destruct (Bufio.flush_quiet put_rotator bufferSize (moved (files w) (path_of k) l0) (room l0)
    (put_moved _ _ _) ltac:(done) b w t (live_moved _ _ _ _ _ H) Hr) as (b' & w' & E & H' & Hp).
  eexists _, _. split; [exact E|]. apply moved_live in H' as (H1 & H2 & H3). split; [apply H1|]. split; [done|]. split; [|done].
  destruct H1 as [_ _ (ps & [Ep _ Eb [_ Hs _]] & Et)]. rewrite Hp, append_empty in Et. exists ps. split; [|done].
  split; [apply Hs|]. right. exists (file (target b')). rewrite Ep, Eb in Hs. exact Hs.
Qed.

Lemma live_open k l0 w t : inactive k l0 (files w) t -> faults w = [] ->
  exists wr w', newRotatingWriter (path_of k) mx defaultMaxBackups w = (Ok wr, w') /\ live k l0 (mkBuf wr "" None) w' t /\
    changes (path_of k) 2 (files w) (files w') /\ faults w' = [].
Proof.
  intros (ps & Hf & Et) Hq. destruct w as [f fl]. cbn [files faults] in *. subst fl.
  destruct (found_open _ _ _ _ Hf) as (h & f1 & Hop & Hs & Hd & Hc). unfold newRotatingWriter. rewrite Hop.
  assert (changes (path_of k) 2 f f1) as Hch.
  { split; [apply Hs|]. intros x Hx. split; [apply Hd; apply (Hx 0%nat); lia|]. intros i. apply Hc. }
  pose proof (sh_head _ _ _ _ _ _ Hs) as Hh. rewrite append_empty in Hh.
  assert (content f1 h = hd "" (after l0 ps)) as Hhd by (destruct (after l0 ps); [done|]; by injection Hh as ->).
  assert (forall sz, (0 < mx -> sz = len (content f1 h)) ->
    live k l0 (mkBuf (mkWriter (path_of k) mx defaultMaxBackups sz h) "" None) (mkWorld f1 []) t) as Hl.
  { intros sz Hsz. split; [done|unfold len, bufferSize; cbn; lia|]. exists ps. cbn [target pending]. rewrite append_empty. split; [|done].
    split; [done..|]. split; [done|exact Hs|]. cbn. intros Hm. rewrite (Hsz Hm), Hhd. done. }
  unfold Size, os_call. cbn [faults files]. destruct (Z.ltb_spec 0 mx); eexists _, _; (split; [reflexivity|]); (split; [|by split]); apply Hl; [done|lia].
Qed.

(** *** A log is left alone by the others *)
Lemma changes_elsewhere k k' f f' j : key_ok k -> key_ok k' -> k <> k' -> changes (path_of k') 2 f f' ->
  dir f' !! name (path_of k) j = dir f !! name (path_of k) j /\
  forall i, dir f !! name (path_of k) j = Some i -> content f' i = content f i.
Proof. intros Hk Hk' Hne [_ Hc]. apply Hc. intros j' _ E. by apply logs_apart in E. Qed.

Lemma shows_elsewhere k k' f f' h l : key_ok k -> key_ok k' -> k <> k' -> changes (path_of k') 2 f f' ->
  shows (path_of k) 2 f h "" l -> shows (path_of k) 2 f' h "" l.
Proof.
  intros Hk Hk' Hne Hc Hs. eapply shows_frame; [exact Hs|apply Hc| |].
  - intros j _. by apply (changes_elsewhere k k' f f' j).
  - intros j i _. by apply (changes_elsewhere k k' f f' j).
Qed.

Lemma inactive_elsewhere k k' l0 f f' t : key_ok k -> key_ok k' -> k <> k' -> changes (path_of k') 2 f f' ->
  inactive k l0 f t -> inactive k l0 f' t.
Proof.
  intros Hk Hk' Hne Hc (ps & [Hwf Hf] & E). exists ps. split; [|done]. split; [apply Hc|]. destruct Hf as [[-> Hn]|[h Hs]].
  - left. split; [done|]. intros j Hj. rewrite (proj1 (changes_elsewhere k k' f f' j Hk Hk' Hne Hc)). by apply Hn.
  - right. exists h. by eapply shows_elsewhere.
Qed.

Lemma live_elsewhere k k' l0 b w w' t : key_ok k -> key_ok k' -> k <> k' -> changes (path_of k') 2 (files w) (files w') -> faults w' = [] ->
  live k l0 b w t -> live k l0 b w' t.
Proof.
  intros Hk Hk' Hne Hc Hq [He Hr (ps & [H1 H2 H3 [_ Hs Hsz]] & E)]. split; [done..|]. exists ps. split; [|done].
  split; [done..|]. split; [done| |done]. rewrite H1, H3 in *. by eapply shows_elsewhere.
Qed.

(** *** The router *)
Context (l0 : key -> list string).
Context (total : Z).
Hypothesis total_fits : forall k, total <= room (l0 k).

Definition current := option (string * string).

(** The router, after [text k] was routed to each log. *)
Record routes (r : LogRouter) (w : world) (cur : current) (text : key -> string) : Prop := {
  ro_base : baseDir r = base;
  ro_size : maxLogSize r = mx;
  ro_quiet : faults w = [];
  ro_agent : live KAgent (l0 KAgent) (agentWriter r) w (text KAgent);
  ro_cur : match cur with
           | None => taskWriter r = None /\ taskID r = "" /\ phase r = ""
           | Some (id, ph) => key_ok (KTask id ph) /\ taskID r = id /\ phase r = ph /\
               exists b, taskWriter r = Some b /\ live (KTask id ph) (l0 (KTask id ph)) b w (text (KTask id ph))
           end;
  ro_rest : forall id ph, key_ok (KTask id ph) -> cur <> Some (id, ph) -> inactive (KTask id ph) (l0 (KTask id ph)) (files w) (text (KTask id ph));
}.

Definition goes_to (cur : current) (k : key) : bool :=
  match k with KAgent => true | KTask id ph => bool_decide (cur = Some (id, ph)) end.
Definition plus (cur : current) (p : string) (text : key -> string) (k : key) : string := if goes_to cur k then text k +:+ p else text k.

Lemma Write_routes p r w cur text : routes r w cur text -> (forall k, len (text k) + len p <= total) ->
  exists r' w', Write p r w = ((len p, None), r', w') /\ routes r' w' cur (plus cur p text).
Proof.
  intros [Hb Hm Hq Ha Hc Hr] Hfit. pose proof (fun k => Z.le_trans _ _ _ (Hfit k) (total_fits k)) as Hfit'. unfold Write.
  destruct (live_write KAgent _ p _ _ _ Ha (Hfit' KAgent)) as (b1 & w1 & -> & Ha1 & Hch1 & Hq1). cbn [set_agent taskWriter].
  assert (forall id ph, KTask id ph <> KAgent) as Hne by done.
  destruct cur as [[id ph]|].
  - destruct Hc as (Hk & Hid & Hph & tb & Htb & Hl). rewrite Htb.
    destruct (live_write (KTask id ph) (l0 (KTask id ph)) p tb w1 (text (KTask id ph))) as (tb2 & w2 & -> & Hl2 & Hch2 & Hq2);
      [exact (live_elsewhere (KTask id ph) KAgent _ tb w w1 _ Hk Logic.I (Hne id ph) Hch1 Hq1 Hl)|apply Hfit'|].
    eexists _, _. split; [reflexivity|]. split; cbn [baseDir maxLogSize agentWriter taskWriter taskID phase set_agent set_task_writer set_task]; [done..| | |].
    + exact (live_elsewhere KAgent (KTask id ph) _ _ _ _ _ I Hk (not_eq_sym (Hne id ph)) Hch2 Hq2 Ha1).
    + do 3 (split; [done|]). exists tb2. split; [done|]. unfold plus, goes_to. rewrite bool_decide_true by done. exact Hl2.
    + intros id' ph' Hk' Hn. unfold plus, goes_to. rewrite bool_decide_false by done.
      eapply (inactive_elsewhere _ (KTask id ph)); [done|done|congruence|exact Hch2|].
      eapply (inactive_elsewhere _ KAgent); [done|done|done|exact Hch1|]. by apply Hr.
  - destruct Hc as (Htb & Hid & Hph). rewrite Htb. eexists _, _. split; [reflexivity|]. split; cbn [baseDir maxLogSize agentWriter taskWriter taskID phase set_agent set_task_writer set_task]; [done..|].
    intros id' ph' Hk' Hn. unfold plus, goes_to. rewrite bool_decide_false by done.
    eapply (inactive_elsewhere _ KAgent); [done|done|done|exact Hch1|]. by apply Hr.
Qed.

Lemma close_routes r w cur text : routes r w cur text -> (forall k, len (text k) <= total) ->
  exists r' w', closeTaskLogLocked r w = (r', None, w') /\ baseDir r' = base /\ maxLogSize r' = mx /\ faults w' = [] /\
    agentWriter r' = agentWriter r /\ taskWriter r' = None /\ live KAgent (l0 KAgent) (agentWriter r) w' (text KAgent) /\
    (forall id ph, key_ok (KTask id ph) -> inactive (KTask id ph) (l0 (KTask id ph)) (files w') (text (KTask id ph))) /\
    taskID r' = taskID r /\ phase r' = phase r.
Proof.
  intros [Hb Hm Hq Ha Hc Hr] Hfit. unfold closeTaskLogLocked. destruct cur as [[id ph]|].
  - destruct Hc as (Hk & Hid & Hph & tb & Htb & Hl). rewrite Htb.
    destruct (live_flush (KTask id ph) _ tb w _ Hl) as (b1 & w1 & -> & He & _ & Hin & Hch & Hq1); [eapply Z.le_trans; [apply Hfit|apply total_fits]|].
    destruct w1 as [f1 fl1]. cbn [faults] in Hq1. subst fl1. unfold CloseWriter, Files.Close, os_call. cbn [faults]. rewrite He. cbn [failed app joined].
    eexists _, _. split; [reflexivity|]. cbn. do 5 (split; [done|]).
    split; [exact (live_elsewhere KAgent (KTask id ph) _ _ _ (mkWorld f1 []) _ I Hk ltac:(done) Hch eq_refl Ha)|].
    split; [|done]. intros id' ph' Hk'. destruct (decide ((id', ph') = (id, ph))) as [[= -> ->]|Hn]; [done|].
    eapply (inactive_elsewhere _ (KTask id ph)); [done|done|congruence|exact Hch|]. apply Hr; [done|congruence].
  - destruct Hc as (Htb & Hid & Hph). rewrite Htb. eexists _, _. split; [reflexivity|]. do 6 (split; [done|]). split; [|done].
    intros id' ph' Hk'. by apply Hr.
Qed.

Definition set_ok (id ph : string) : Prop := id = "" /\ ph = "" \/ router_name_ok id = true /\ phase_ok ph = true.
Definition set_cur (id ph : string) : current := if bool_decide (id = "") then None else Some (id, ph).

Lemma SetTask_routes id ph r w cur text : routes r w cur text -> set_ok id ph -> (forall k, len (text k) <= total) ->
  exists r' w', SetTask id ph r w = (r', None, w') /\ routes r' w' (set_cur id ph) text.
Proof.
  intros H Hok Hfit. unfold SetTask. case_bool_decide as Hsame.
  - exists r, w. split; [done|]. replace (set_cur id ph) with cur; [done|]. destruct H as [_ _ _ _ Hc _]. destruct Hsame as [<- <-].
    unfold set_cur. destruct cur as [[id' ph']|].
    + destruct Hc as ([Hk _] & -> & -> & _). rewrite bool_decide_false; [done|]. intros ->. by vm_compute in Hk.
    + destruct Hc as (_ & -> & _). by rewrite bool_decide_true.
  - destruct (close_routes r w cur text H Hfit) as (r1 & w1 & -> & Hb & Hm & Hq & Eag & Htw & Ha & Hin & _). unfold set_cur.
    destruct Hok as [[-> ->]|[Hid Hph]].
    + rewrite !bool_decide_true by done. eexists _, _. split; [reflexivity|]. split; cbn [baseDir maxLogSize agentWriter taskWriter taskID phase set_agent set_task_writer set_task]; [done|done|done|by rewrite Eag|done|]. intros. by apply Hin.
    + rewrite bool_decide_false by (intros ->; by vm_compute in Hid). rewrite Hid, Hph. cbn [negb].
      assert (key_ok (KTask id ph)) as Hk by done.
      destruct w1 as [f1 fl1]. cbn [faults] in Hq. subst fl1. unfold MkdirAll, Files.Close, os_call. cbn [faults]. rewrite Hb, Hm.
      destruct (live_open (KTask id ph) (l0 (KTask id ph)) (mkWorld f1 []) _ (Hin id ph Hk) eq_refl) as (wr & w2 & E & Hl & Hch & Hq2).
      cbn [path_of] in E. rewrite E. eexists _, _. split; [reflexivity|]. split; cbn [baseDir maxLogSize agentWriter taskWriter taskID phase set_agent set_task_writer set_task]; [done..| | |].
      * rewrite Eag. exact (live_elsewhere KAgent (KTask id ph) _ _ (mkWorld f1 []) _ _ I Hk ltac:(done) Hch Hq2 Ha).
      * do 3 (split; [done|]). by eexists.
      * intros id' ph' Hk' Hn. eapply (inactive_elsewhere _ (KTask id ph)); [done|done|congruence|exact Hch|]. by apply Hin.
Qed.

Lemma Close_routes r w cur text : routes r w cur text -> (forall k, len (text k) <= total) ->
  exists r' w', Close r w = (r', None, w') /\ forall k, key_ok k -> inactive k (l0 k) (files w') (text k).
Proof.
  intros H Hfit. unfold Close. destruct (close_routes r w cur text H Hfit) as (r1 & w1 & -> & _ & _ & Hq & Eag & _ & Ha & Hin & _).
  rewrite Eag. destruct (live_flush KAgent _ _ w1 _ Ha) as (b & w2 & -> & He & _ & Hia & Hch & Hq2); [eapply Z.le_trans; [apply Hfit|apply total_fits]|].
  destruct w2 as [f2 fl2]. cbn [faults] in Hq2. subst fl2. unfold CloseWriter, Files.Close, os_call. cbn [faults]. rewrite He. cbn [failed app joined].
  eexists _, _. split; [reflexivity|]. intros [|id ph] Hk; [done|].
  eapply (inactive_elsewhere _ KAgent); [done|done|done|exact Hch|]. by apply Hin.
Qed.

(** *** Any calls *)
Inductive op := OSet (id ph : string) | OWrite (p : string).
Definition run_op (o : op) (r : LogRouter) (w : world) : LogRouter * world :=
  match o with
  | OSet id ph => let '(r, _, w) := SetTask id ph r w in (r, w)
  | OWrite p => let '(_, r, w) := Write p r w in (r, w)
  end.
Fixpoint run_ops (os : list op) (r : LogRouter) (w : world) : LogRouter * world :=
  match os with [] => (r, w) | o :: os => let '(r, w) := run_op o r w in run_ops os r w end.

Definition op_ok (o : op) : Prop := match o with OSet id ph => set_ok id ph | OWrite _ => True end.
Definition op_len (o : op) : Z := match o with OSet _ _ => 0 | OWrite p => len p end.
Definition ops_len (os : list op) : Z := foldr (fun o n => op_len o + n) 0 os.

(** The specification: what belongs in a log. *)
Fixpoint routed (os : list op) (cur : current) (k : key) : string :=
  match os with
  | [] => ""
  | OSet id ph :: os => routed os (set_cur id ph) k
  | OWrite p :: os => if goes_to cur k then p +:+ routed os cur k else routed os cur k
  end.

Lemma ops_len_nonneg os : 0 <= ops_len os.
Proof. induction os as [|[id ph|p] os IH]; cbn; [lia|exact IH|unfold len; fold (ops_len os); lia]. Qed.

Lemma run_ops_routes os r w cur text : routes r w cur text -> Forall op_ok os -> (forall k, len (text k) + ops_len os <= total) ->
  exists cur' text', routes (run_ops os r w).1 (run_ops os r w).2 cur' text' /\
    (forall k, text' k = text k +:+ routed os cur k) /\ forall k, len (text' k) <= total.
Proof.
  revert r w cur text. induction os as [|o os IH]; intros r w cur text H HF Hfit.
  - exists cur, text. split; [done|]. split; [intros k; cbn; by rewrite append_empty|]. intros k. specialize (Hfit k). cbn in Hfit. lia.
  - apply Forall_cons in HF as [Ho HF]. pose proof (ops_len_nonneg os) as Hnn. cbn [ops_len foldr] in Hfit. fold (ops_len os) in Hfit.
    destruct o as [id ph|p]; cbn [run_ops run_op routed op_len] in *.
    + destruct (SetTask_routes id ph r w cur text H Ho) as (r' & w' & -> & H'); [intros k; specialize (Hfit k); lia|]. by apply IH.
    + destruct (Write_routes p r w cur text H) as (r' & w' & -> & H'); [intros k; specialize (Hfit k); lia|].
      destruct (IH r' w' cur (plus cur p text) H' HF) as (cur' & text' & Hr & Ht & Hl).
      { intros k. specialize (Hfit k). unfold plus. destruct (goes_to cur k); rewrite ?len_app; [lia|unfold len in *; lia]. }
      exists cur', text'. split; [done|]. split; [|done]. intros k. rewrite Ht. unfold plus. destruct (goes_to cur k); [by rewrite append_assoc|done].
Qed.

Lemma after_suffix l ps : exists dropped, text l +:+ concat_all ps = dropped +:+ text (after l ps).
Proof. apply log_writes_suffix. Qed.

(** C9. The router refines one rotated log for the agent and one for each task and phase:
    after any writes and changes of task, and [Close], the agent's files hold
    everything that was written, in order, and those of a task and phase what was
    written while it was set, each after what was there before and cut only by
    the rotation. *)
Theorem router_refines_logs f os :
  (forall k, key_ok k -> found (path_of k) 2 f (l0 k)) -> Forall op_ok os -> ops_len os <= total ->
  exists r w, NewLogRouter agent base mx (mkWorld f []) = (Ok r, w) /\
  let '(r1, w1) := run_ops os r w in
  let '(_, err, w2) := Close r1 w1 in
  err = None /\
  forall k, key_ok k -> exists l ps, found (path_of k) 2 (files w2) l /\ l = after (l0 k) ps /\ concat_all ps = routed os None k /\
    exists dropped, text (l0 k) +:+ routed os None k = dropped +:+ text l.
Proof.
  intros Hf HF Hlen. unfold NewLogRouter. rewrite agent_ok. cbn [negb].
  destruct (live_open KAgent (l0 KAgent) (mkWorld f []) "") as (wr & w & E & Ha & Hch & Hq); [exists []; split; [by apply Hf|done]|done|].
  cbn [path_of] in E. rewrite E. eexists _, _. split; [reflexivity|]. set (r := mkRouter _ _ _ _ _ _ _).
  assert (routes r w None (fun _ => "")) as H.
  { split; [done..|]. intros id ph Hk _. eapply (inactive_elsewhere _ KAgent); [done|done|done|exact Hch|]. exists []. split; [by apply Hf|done]. }
  destruct (run_ops_routes os r w None (fun _ => "") H HF) as (cur & t & Hr & Ht & Hl); [intros k; unfold len; cbn; lia|].
  destruct (run_ops os r w) as [r1 w1]. destruct (Close_routes r1 w1 cur t Hr Hl) as (r2 & w2 & -> & Hk). split; [done|].
  intros k Hok. destruct (Hk k Hok) as (ps & Hfd & Eps). rewrite Ht, append_nil_l in Eps. exists (after (l0 k) ps), ps.
  do 3 (split; [done|]). rewrite <- Eps. apply after_suffix.
Qed.

(** A task that is refused closes the log of the one before but does not replace its
    name: setting that one again is taken for no change, and nothing is written to
    its log any more. *)
Theorem refused_task_forgets r w id ph bad ph' text :
  routes r w (Some (id, ph)) text -> (forall k, len (text k) <= total) -> bad <> "" -> router_name_ok bad = false ->
  let '(r1, err, w1) := SetTask bad ph' r w in
  err <> None /\ SetTask id ph r1 w1 = (r1, None, w1) /\ taskWriter r1 = None /\
  forall p n e r2 w2, Write p r1 w1 = ((n, e), r2, w2) -> taskWriter r2 = None.
Proof.
  intros H Hfit Hne Hbad. pose proof (ro_cur _ _ _ _ H) as (Hk & Hid & Hph & _). unfold SetTask at 1.
  rewrite bool_decide_false by (intros [E _]; destruct Hk as [Hk _]; congruence).
  destruct (close_routes r w _ text H Hfit) as (r1 & w1 & -> & _ & _ & _ & _ & Htw & _ & _ & Hid1 & Hph1).
  rewrite bool_decide_false, Hbad by done. cbn [negb]. split; [done|]. split; [|split; [done|]].
  - unfold SetTask. rewrite bool_decide_true; [done|]. split; congruence.
  - intros p n e r2 w2. unfold Write. destruct (buf_write p (agentWriter r1) w1) as [[[n1 [e1|]] b] w3]; cbn [set_agent taskWriter];
      [by intros [= _ _ <- _]|]. rewrite Htw. by intros [= _ _ <- _].
Qed.

(** ** The watcher and the input are such calls *)
Definition op_of (e : watch_event) : option op :=
  match e with
  | LockWritten (Ok info) => Some (if bool_decide (li_TaskID info = "") then OSet "" "" else OSet (li_TaskID info) (commandToPhase (li_Command info)))
  | LockWritten (Err _) => None
  | LockRemoved => Some (OSet "" "")
  | OtherEvent => None
  end.
Definition watched_ok (e : watch_event) : Prop :=
  match e with LockWritten (Ok info) => li_TaskID info = "" \/ router_name_ok (li_TaskID info) = true | _ => True end.

Lemma watch_op e r w : watch e r w = match op_of e with Some o => run_op o r w | None => (r, w) end.
Proof.
  destruct e as [[info|er]| |]; cbn [watch op_of readAndUpdateLock]; [|done|done|done].
  case_bool_decide; cbn [negb run_op]; unfold ClearTask; by destruct (SetTask _ _ _ _) as [[r1 e1] w1].
Qed.

Lemma watched_op_ok e o : watched_ok e -> op_of e = Some o -> op_ok o.
Proof.
  destruct e as [[info|er]| |]; cbn; try done; [|by intros _ [= <-]; left]. intros H [= <-]. case_bool_decide; [by left|].
  right. split; [by destruct H|]. unfold commandToPhase, phase_ok. destruct (bool_decide (_ = "plan")); vm_compute; reflexivity.
Qed.

Lemma RouteStdin_ops input r w : RouteStdin input r w = run_ops (map OWrite input) r w.
Proof.
  revert r w. induction input as [|p input IH]; intros r w; [done|]. cbn [RouteStdin map run_ops run_op].
  destruct (Write p r w) as [[x r1] w1]. apply IH.
Qed.
End refinement.

(** ** Witness: two writes for a task among others *)
Definition demo_ops : list op := [OWrite "ab"; OSet "bd-1.2" "planning"; OWrite "cd"; OSet "" ""; OWrite "ef"; OSet "bd-1.2" "planning"; OWrite "gh"].

Lemma router_refines_logs_witness :
  routed demo_ops None (KTask "bd-1.2" "planning") = "cdgh" /\
  exists r w, NewLogRouter "w1" "/l" 4 (mkWorld empty_fs []) = (Ok r, w) /\
  let '(r1, w1) := run_ops demo_ops r w in
  let '(_, err, w2) := Close r1 w1 in
  err = None /\ exists l, found (task_path "/l" "bd-1.2" "planning") 2 (files w2) l.
Proof.
  split; [reflexivity|].
  destruct (router_refines_logs "/l" "w1" 4 eq_refl eq_refl (fun _ => [""]) 8 ltac:(intros k; vm_compute; discriminate) empty_fs demo_ops)
    as (r & w & E & H).
  - intros k _. split; [exact empty_fs_wf|]. left. split; [reflexivity|]. intros j _. apply lookup_empty.
  - unfold demo_ops. repeat (apply Forall_cons_2; [first [exact Logic.I|by left|right; split; vm_compute; reflexivity]|]). apply Forall_nil_2.
  - vm_compute. discriminate.
  - exists r, w. split; [exact E|]. destruct (run_ops demo_ops r w) as [r1 w1]. destruct (Close r1 w1) as [[r2 err] w2].
    destruct H as [He H]. split; [exact He|]. destruct (H (KTask "bd-1.2" "planning")) as (l & ps & Hl & _); [split; vm_compute; reflexivity|]. by exists l.
Defined.
End Routing.
