(* ===== verification/DaemonCalls.v ===== *)
(** * DaemonCalls: what the web server asks the daemon, the arguments of
    [internal/rpc/protocol.go] and the methods of [client.go]

    The records of the calls, the calls as one type, and the interface
    [DaemonClient] over which the handlers of [IssueApi] are written. [rpc_daemon]
    is the client of [Rpc] behind this interface. *)
From S2P Require Import Prelude IssueTypes Rpc FleetHandlers.
Local Open Scope Z_scope.

Module Calls.
Import Types.

(** ** Arguments *)
Record CreateArgs := mkCreateArgs {
  ca_ID : string; ca_Parent : string; ca_Title : string; ca_Description : string; ca_IssueType : string;
  ca_Priority : Z; ca_Design : string; ca_AcceptanceCriteria : string; ca_Notes : string; ca_Assignee : string;
  ca_ExternalRef : string; ca_EstimatedMinutes : option Z; ca_Labels : list string; ca_Dependencies : list string;
  ca_WaitsFor : string; ca_WaitsForGate : string;
  ca_Sender : string; ca_Ephemeral : bool; ca_RepliesTo : string;
  ca_IDPrefix : string; ca_CreatedBy : string; ca_Owner : string;
  ca_MolType : string; ca_RoleType : string; ca_Rig : string;
  ca_EventCategory : string; ca_EventActor : string; ca_EventTarget : string; ca_EventPayload : string;
  ca_DueAt : string; ca_DeferUntil : string;
}.

Record UpdateArgs := mkUpdateArgs {
  ua_ID : string; ua_Title : option string; ua_Description : option string; ua_Status : option string;
  ua_Priority : option Z; ua_Design : option string; ua_AcceptanceCriteria : option string; ua_Notes : option string;
  ua_Assignee : option string; ua_ExternalRef : option string; ua_EstimatedMinutes : option Z; ua_IssueType : option string;
  ua_AddLabels : list string; ua_RemoveLabels : list string; ua_SetLabels : list string;
  ua_Sender : option string; ua_Ephemeral : option bool; ua_RepliesTo : option string;
  ua_RelatesTo : option string; ua_DuplicateOf : option string; ua_SupersededBy : option string;
  ua_Pinned : option bool; ua_Parent : option string;
  ua_HookBead : option string; ua_RoleBead : option string; ua_AgentState : option string; ua_LastActivity : option bool;
  ua_RoleType : option string; ua_Rig : option string;
  ua_EventCategory : option string; ua_EventActor : option string; ua_EventTarget : option string; ua_EventPayload : option string;
  ua_Claim : bool; ua_DueAt : option string; ua_DeferUntil : option string;
  ua_AwaitID : option string; ua_Waiters : list string; ua_Holder : option string;
}.

Record CloseArgs := mkCloseArgs {
  xa_ID : string; xa_Reason : string; xa_Session : string; xa_SuggestNext : bool; xa_Force : bool;
}.
Record DeleteArgs := mkDeleteArgs {
  da_IDs : list string; da_Force : bool; da_DryRun : bool; da_Cascade : bool; da_Reason : string;
}.

Record ListArgs := mkListArgs {
  la_Query : string; la_Status : string; la_Priority : option Z; la_IssueType : string; la_Assignee : string;
  la_Label : string; la_Labels : list string; la_LabelsAny : list string; la_IDs : list string; la_Limit : Z;
  la_TitleContains : string; la_DescriptionContains : string; la_NotesContains : string;
  la_CreatedAfter : string; la_CreatedBefore : string; la_UpdatedAfter : string; la_UpdatedBefore : string;
  la_ClosedAfter : string; la_ClosedBefore : string;
  la_EmptyDescription : bool; la_NoAssignee : bool; la_NoLabels : bool;
  la_PriorityMin : option Z; la_PriorityMax : option Z; la_Pinned : option bool; la_IncludeTemplates : bool;
  la_ParentID : string; la_Ephemeral : option bool; la_MolType : string;
  la_ExcludeStatus : list string; la_ExcludeTypes : list string;
  la_Deferred : bool; la_DeferAfter : string; la_DeferBefore : string; la_DueAfter : string; la_DueBefore : string;
  la_Overdue : bool; la_AllowStale : bool;
}.

(** [&rpc.ListArgs{Limit: n}]. *)
Definition list_up_to (n : Z) : ListArgs :=
  mkListArgs "" "" None "" "" "" [] [] [] n "" "" "" "" "" "" "" "" "" false false false None None None false
    "" None "" [] [] false "" "" "" "" false false.

Record ShowArgs := mkShowArgs { sa_ID : string }.
Record ReadyArgs := mkReadyArgs {
  ra_Assignee : string; ra_Unassigned : bool; ra_Priority : option Z; ra_Type : string; ra_Limit : Z; ra_SortPolicy : string;
  ra_Labels : list string; ra_LabelsAny : list string; ra_ParentID : string; ra_MolType : string; ra_IncludeDeferred : bool;
}.
Record BlockedArgs := mkBlockedArgs {
  ba_ParentID : string; ba_Assignee : string; ba_Priority : option Z; ba_Type : string; ba_Limit : Z;
}.
Record DepAddArgs := mkDepAddArgs { ad_FromID : string; ad_ToID : string; ad_DepType : string }.
Record DepRemoveArgs := mkDepRemoveArgs { rd_FromID : string; rd_ToID : string; rd_DepType : string }.
Record CommentAddArgs := mkCommentAddArgs { cm_ID : string; cm_Author : string; cm_Text : string }.
Record GetParentIDsArgs := mkGetParentIDsArgs { gp_IssueIDs : list string }.
Record GetGraphDataArgs := mkGetGraphDataArgs { gg_Status : string; gg_ExcludeStatus : list string }.

(** ** Records in the answers *)
Record IssueWithCounts := mkCounted { iwc_Issue : Issue; DependencyCount : Z; DependentCount : Z }.
Record BlockerRef := mkBlockerRef { br_ID : string; br_Title : string; br_Priority : Z }.
Record BlockedIssue := mkBlockedIssue {
  bi_Issue : Issue; bi_BlockedByCount : Z; bi_BlockedBy : list string; bi_BlockedByDetails : list BlockerRef;
}.
Record ParentInfo := mkParentInfo { pi_ParentID : string; pi_ParentTitle : string }.
Record GraphDependency := mkGraphDep { gd_DependsOnID : string; gd_Type : string }.
Record GraphIssueSummary := mkGraphIssue {
  gs_ID : string; gs_Title : string; gs_Status : string; gs_Priority : Z; gs_IssueType : string; gs_Labels : list string;
  gs_Dependencies : list GraphDependency; gs_DeferUntil : string; gs_DueAt : string;
}.

(** ** Calls *)
Inductive op :=
| OpCreate (a : CreateArgs) | OpUpdate (a : UpdateArgs) | OpClose (a : CloseArgs) | OpDelete (a : DeleteArgs)
| OpList (a : ListArgs) | OpShow (a : ShowArgs) | OpReady (a : ReadyArgs) | OpBlocked (a : BlockedArgs)
| OpDepAdd (a : DepAddArgs) | OpDepRemove (a : DepRemoveArgs) | OpCommentAdd (a : CommentAddArgs)
| OpGetParentIDs (a : GetParentIDsArgs) | OpGetGraphData (a : GetGraphDataArgs).

Definition op_name (o : op) : string :=
  match o with
  | OpCreate _ => "create" | OpUpdate _ => "update" | OpClose _ => "close" | OpDelete _ => "delete"
  | OpList _ => "list" | OpShow _ => "show" | OpReady _ => "ready" | OpBlocked _ => "blocked"
  | OpDepAdd _ => "dep_add" | OpDepRemove _ => "dep_remove" | OpCommentAdd _ => "comment_add"
  | OpGetParentIDs _ => "get_parent_ids" | OpGetGraphData _ => "get_graph_data"
  end.

(** Whether the daemon only reads for this call. *)
Definition reads (o : op) : bool :=
  match o with
  | OpList _ | OpShow _ | OpReady _ | OpBlocked _ | OpGetParentIDs _ | OpGetGraphData _ => true
  | _ => false
  end.

(** A client of the daemon: an answer without an error is a success, and an
    answer that is no success comes with the daemon's words in the error. *)
Class DaemonClient (C : Type) := {
  Execute : op -> C -> Rpc.outcome * C;
  answered : forall o c r c', Execute o c = ((r, None), c') -> exists resp, r = Some resp /\ Rpc.Success resp = true;
  refused : forall o c resp e c', Execute o c = ((Some resp, Some e), c') ->
    Rpc.Success resp = false /\ e = Msg ("operation failed: " +:+ Rpc.Error resp);
}.

(** JSON of the answers. *)
Class AnswerJson := {
  read_issues : string -> option (list Issue);
  read_counted : string -> option (list IssueWithCounts);
  read_blocked : string -> option (list BlockedIssue);
  read_comment : string -> option Comment;
  read_parents : string -> option (gmap string ParentInfo);
  read_graph : string -> option (list GraphIssueSummary);
}.

Section methods.
Context {C : Type} {daemon : DaemonClient C} {json : AnswerJson}.

Definition Create (args : CreateArgs) : C -> Rpc.outcome * C := Execute (OpCreate args).
Definition Update (args : UpdateArgs) : C -> Rpc.outcome * C := Execute (OpUpdate args).
Definition CloseIssue (args : CloseArgs) : C -> Rpc.outcome * C := Execute (OpClose args).
Definition Delete (args : DeleteArgs) : C -> Rpc.outcome * C := Execute (OpDelete args).
Definition List_ (args : ListArgs) : C -> Rpc.outcome * C := Execute (OpList args).
Definition Show (args : ShowArgs) : C -> Rpc.outcome * C := Execute (OpShow args).
Definition Ready (args : ReadyArgs) : C -> Rpc.outcome * C := Execute (OpReady args).
Definition Blocked (args : BlockedArgs) : C -> Rpc.outcome * C := Execute (OpBlocked args).
Definition AddDependency (args : DepAddArgs) : C -> Rpc.outcome * C := Execute (OpDepAdd args).
Definition RemoveDependency (args : DepRemoveArgs) : C -> Rpc.outcome * C := Execute (OpDepRemove args).
Definition AddComment (args : CommentAddArgs) : C -> Rpc.outcome * C := Execute (OpCommentAdd args).

(** A method that reads its answer's data. *)
Definition decoded {A} (what : string) (read : string -> option A) (r : Rpc.outcome) : res A :=
  match r with
  | (_, Some e) => Err e
  | (Some resp, None) =>
      match read (Rpc.Data resp) with
      | Some a => Ok a
      | None => Err (Wrapf ("failed to unmarshal " +:+ what +:+ " response: ") (Msg "json") "")
      end
  | (None, None) => Err (Sentinel "nil pointer dereference")
  end.
Definition GetParentIDs (args : GetParentIDsArgs) (c : C) : res (gmap string ParentInfo) * C :=
  let '(r, c) := Execute (OpGetParentIDs args) c in (decoded "get_parent_ids" read_parents r, c).
Definition GetGraphData (args : GetGraphDataArgs) (c : C) : res (list GraphIssueSummary) * C :=
  let '(r, c) := Execute (OpGetGraphData args) c in (decoded "get_graph_data" read_graph r, c).

(** The calls between two states of a client. *)
Inductive talk : C -> list op -> C -> Prop :=
| talk_nil c : talk c [] c
| talk_cons c o ops c' : talk (Execute o c).2 ops c' -> talk c (o :: ops) c'.

Lemma talk_one o c r c' : Execute o c = (r, c') -> talk c [o] c'.
Proof. intros E. apply talk_cons. rewrite E. apply talk_nil. Qed.
Lemma talk_app c1 l1 c2 l2 c3 : talk c1 l1 c2 -> talk c2 l2 c3 -> talk c1 (l1 ++ l2) c3.
Proof. induction 1 as [|c o ops c' _ IH]; [done|]. intros H. by apply talk_cons, IH. Qed.
Lemma talk_step o c r c1 ops c' : Execute o c = (r, c1) -> talk c1 ops c' -> talk c (o :: ops) c'.
Proof. intros E H. apply talk_cons. by rewrite E. Qed.
End methods.

(** ** The client of the socket behind the interface *)
Section rpc_client.
Context {D : Type} `{!Rpc.Server D} {req_codec : JsonCodec Rpc.Request} {resp_codec : JsonCodec Rpc.Response}.
Context (version getwd : string) (args_json : op -> res string).

Definition rpc_execute (o : op) (c : Rpc.Client D * Z) : Rpc.outcome * (Rpc.Client D * Z) :=
  let '(r, c', now') := Rpc.Execute version getwd (op_name o) (args_json o) c.2 c.1 in (r, (c', now')).

Lemma rpc_refused o (c : Rpc.Client D * Z) resp e c' :
  rpc_execute o c = ((Some resp, Some e), c') -> Rpc.Success resp = false /\ e = Msg ("operation failed: " +:+ Rpc.Error resp).
Proof.
  unfold rpc_execute, Rpc.Execute, Rpc.ExecuteWithCwd, Rpc.executeWithTimeout. intros E.
  repeat (case_match; simplify_eq); (split; [|done]); by apply negb_true_iff.
Qed.

Program Definition rpc_daemon : DaemonClient (Rpc.Client D * Z) := {| Execute := rpc_execute; refused := rpc_refused |}.
Next Obligation.
  intros o c r c'. unfold rpc_execute. destruct (Rpc.Execute _ _ _ _ _ _) as [[r1 c1] n1] eqn:E. intros [= -> _].
  by eapply FleetApi.Execute_answer.
Qed.
End rpc_client.
End Calls.
