(* ===== verification/IssueApi.v ===== *)
(** * IssueApi: issues over HTTP, [internal/webui/handlers_issues.go],
    [handlers_issues_parse.go], [handlers_issues_write.go], [handlers_deps.go],
    [handlers_comments.go], [handlers_ready.go], [handlers_graph.go] and
    [handlers_params.go]

    Module [Params]: the queries. Module [IssueApi]: the handlers, which take a
    connection from a pool, ask the daemon over [DaemonCalls] and give the
    connection back; an answer is its status and its body. JSON and [time.Parse]
    are parameters; the daemon's lists are taken to have no null items. Whether
    the pool's promises hold is in [Pool]. *)
From S2P Require Import Prelude IssueTypes Rpc FleetHandlers DaemonCalls.
Local Open Scope Z_scope.
Local Open Scope go_scope.

Module Params.
Import Types Calls.

(** ** Values of a query ([url.Values]) *)
Abbreviation Values := (gmap string (list string)).
Definition Get (q : Values) (key : string) : string := match q !! key with Some (v :: _) => v | _ => "" end.

(** [strconv.ParseBool]. *)
Definition ParseBool (v : string) : option bool :=
  if bool_decide (v ∈ ["1"; "t"; "T"; "true"; "TRUE"; "True"]%string) then Some true
  else if bool_decide (v ∈ ["0"; "f"; "F"; "false"; "FALSE"; "False"]%string) then Some false
  else None.

Definition splitAndTrim (s : string) : list string :=
  if bool_decide (s = "") then [] else filter (fun p => p <> ""%string) (map TrimSpace (Split "," s)).

Definition parseStringParam (q : Values) (key : string) : string := Get q key.
Definition parseBoolParam (q : Values) (key : string) : res bool :=
  let v := Get q key in
  if bool_decide (v = "") then Ok false
  else match ParseBool v with
       | Some b => Ok b
       | None => Err (Msg ("invalid " +:+ key +:+ " value: " +:+ v +:+ " (must be true or false)"))
       end.
Definition parseIntParam (q : Values) (key : string) : res (option Z) :=
  let v := Get q key in
  if bool_decide (v = "") then Ok None
  else match atoi v with
       | Some n => Ok (Some n)
       | None => Err (Msg ("invalid " +:+ key +:+ " value: " +:+ v +:+ " (must be an integer)"))
       end.
Definition parseArrayParam (q : Values) (key : string) : list string :=
  let v := Get q key in if bool_decide (v = "") then [] else splitAndTrim v.

(** What a failed read of an optional number leaves. *)
Definition ignored (r : res (option Z)) : option Z := match r with Ok n => n | Err _ => None end.

Definition MaxListLimit : Z := 1000.
Definition RFC3339 : string := "2006-01-02T15:04:05Z07:00".
Definition DateOnly : string := "2006-01-02".

Section parsing.
Context (time_Parse : string -> string -> option Z).

Fixpoint parseDateParams (q : Values) (params : list string) : res (gmap string string) :=
  match params with
  | [] => Ok ∅
  | param :: params' =>
      let v := Get q param in
      if bool_decide (v = "") then parseDateParams q params'
      else if bool_decide (time_Parse RFC3339 v = None /\ time_Parse DateOnly v = None)
      then Err (Msg ("invalid " +:+ param +:+ ": expected RFC3339 format (e.g., 2024-01-15T00:00:00Z) or date (2024-01-15)"))
      else let? m := parseDateParams q params' in Ok (<[param := v]> m)
  end.

Definition date_keys : list string := ["created_after"; "created_before"; "updated_after"; "updated_before"].

(** The limit of a list: 0 is none. *)
Definition list_limit (limitPtr : option Z) : Z :=
  match limitPtr with
  | Some limit => if 0 <? limit then (if MaxListLimit <? limit then MaxListLimit else limit) else 0
  | None => 0
  end.

Definition parseListParams (q : Values) : res ListArgs :=
  let? dates := parseDateParams q date_keys in
  let date key := default ""%string (dates !! key) in
  let flag key := bool_decide (parseStringParam q key = "true"%string) in
  let pinned := parseStringParam q "pinned" in
  Ok {| la_Query := parseStringParam q "q"; la_Status := parseStringParam q "status";
        la_Priority := ignored (parseIntParam q "priority"); la_IssueType := parseStringParam q "type";
        la_Assignee := parseStringParam q "assignee"; la_Label := ""; la_Labels := parseArrayParam q "labels";
        la_LabelsAny := []; la_IDs := []; la_Limit := list_limit (ignored (parseIntParam q "limit"));
        la_TitleContains := parseStringParam q "title_contains";
        la_DescriptionContains := parseStringParam q "description_contains";
        la_NotesContains := parseStringParam q "notes_contains";
        la_CreatedAfter := date "created_after"%string; la_CreatedBefore := date "created_before"%string;
        la_UpdatedAfter := date "updated_after"%string; la_UpdatedBefore := date "updated_before"%string;
        la_ClosedAfter := ""; la_ClosedBefore := "";
        la_EmptyDescription := flag "empty_description"%string; la_NoAssignee := flag "no_assignee"%string;
        la_NoLabels := flag "no_labels"%string;
        la_PriorityMin := None; la_PriorityMax := None;
        la_Pinned := if bool_decide (pinned = ""%string) then None else Some (bool_decide (pinned = "true"%string));
        la_IncludeTemplates := false; la_ParentID := ""; la_Ephemeral := None; la_MolType := "";
        la_ExcludeStatus := []; la_ExcludeTypes := [];
        la_Deferred := false; la_DeferAfter := ""; la_DeferBefore := ""; la_DueAfter := ""; la_DueBefore := "";
        la_Overdue := false; la_AllowStale := false |}.
End parsing.

Record kanbanParams := mkKanban { ExcludeStatus : list string; IncludeBlocked : bool }.
Definition MaxExcludeStatuses : nat := 1000.
#[global] Arguments MaxExcludeStatuses : simpl never.

Definition parseKanbanParams (q : Values) : res kanbanParams :=
  let v := Get q "exclude_status" in
  let statuses := if bool_decide (v = "") then [] else splitAndTrim v in
  if (MaxExcludeStatuses <? length statuses)%nat
  then Err (Msg "too many exclude_status values (max 1000)") else
  Ok (mkKanban statuses (bool_decide (Get q "include_blocked" = "true"%string))).

Definition in_priority_range (p : option Z) : bool :=
  match p with Some p => (0 <=? p) && (p <=? 4) | None => true end.
Definition priority_error (p : option Z) : goerror :=
  Msg ("priority must be between 0 and 4 (got " +:+ itoa (default 0 p) +:+ ")").

Definition parseReadyParams (q : Values) : res ReadyArgs :=
  let mol := parseStringParam q "mol_type" in
  if negb (bool_decide (mol = "")) && negb (MolType_IsValid mol)
  then Err (Msg ("invalid mol_type: " +:+ mol +:+ " (must be swarm, patrol, or work)")) else
  let sort := parseStringParam q "sort" in
  if negb (bool_decide (sort = "")) && negb (SortPolicy_IsValid sort)
  then Err (Msg ("invalid sort policy: " +:+ sort +:+ " (must be hybrid, priority, or oldest)")) else
  let? unassigned := parseBoolParam q "unassigned" in
  let? include_deferred := parseBoolParam q "include_deferred" in
  let? priority := parseIntParam q "priority" in
  if negb (in_priority_range priority)
  then Err (priority_error priority) else
  let? limitPtr := parseIntParam q "limit" in
  if (match limitPtr with Some l => l <? 0 | None => false end)
  then Err (Msg ("limit must be non-negative (got " +:+ itoa (default 0 limitPtr) +:+ ")")) else
  Ok {| ra_Assignee := parseStringParam q "assignee"; ra_Unassigned := unassigned; ra_Priority := priority;
        ra_Type := parseStringParam q "type"; ra_Limit := default 0 limitPtr; ra_SortPolicy := sort;
        ra_Labels := parseArrayParam q "labels"; ra_LabelsAny := parseArrayParam q "labels_any";
        ra_ParentID := parseStringParam q "parent_id"; ra_MolType := mol; ra_IncludeDeferred := include_deferred |}.

Definition blocked_priority (q : Values) : res (option Z) :=
  let v := Get q "priority" in
  if bool_decide (v = "") then Ok None
  else match atoi v with
       | None => Err (Msg ("invalid priority value: " +:+ v +:+ " (must be an integer 0-4)"))
       | Some p => if negb (in_priority_range (Some p))
  then Err (priority_error (Some p)) else Ok (Some p)
       end.
Definition blocked_limit (q : Values) : res Z :=
  let v := Get q "limit" in
  if bool_decide (v = "") then Ok 0
  else match atoi v with
       | None => Err (Msg ("invalid limit value: " +:+ v +:+ " (must be a non-negative integer)"))
       | Some l =>
           if l <? 0
  then Err (Msg ("limit must be non-negative (got " +:+ itoa l +:+ ")")) else
           Ok (if MaxListLimit <? l then MaxListLimit else l)
       end.
Definition parseBlockedParams (q : Values) : res BlockedArgs :=
  let? priority := blocked_priority q in
  let? limit := blocked_limit q in
  Ok (mkBlockedArgs (Get q "parent_id") (Get q "assignee") priority (Get q "type") limit).

Definition parseGraphParams (q : Values) : string * bool :=
  let status := Get q "status" in
  (if bool_decide (status = "") then "all"%string else status, negb (bool_decide (Get q "include_closed" = "false"%string))).
End Params.

Module IssueApi.
Import Types Calls Params.

(** ** Requests and answers *)
Record CloseRequest := mkCloseReq { cr_Reason : string; cr_Session : string; cr_SuggestNext : bool; cr_Force : bool }.

Record PatchIssueRequest := mkPatchReq {
  pr_Title : option string; pr_Description : option string; pr_Status : option string; pr_Priority : option Z;
  pr_Assignee : option string; pr_Design : option string; pr_AcceptanceCriteria : option string; pr_Notes : option string;
  pr_ExternalRef : option string; pr_EstimatedMinutes : option Z; pr_IssueType : option string;
  pr_AddLabels : list string; pr_RemoveLabels : list string; pr_SetLabels : list string;
  pr_Pinned : option bool; pr_Parent : option string; pr_DueAt : option string; pr_DeferUntil : option string;
}.

Record IssueCreateRequest := mkCreateReq {
  ir_Title : string; ir_IssueType : string; ir_Priority : Z;
  ir_ID : string; ir_Parent : string; ir_Description : string; ir_Design : string; ir_AcceptanceCriteria : string;
  ir_Notes : string; ir_Assignee : string; ir_Owner : string; ir_CreatedBy : string; ir_ExternalRef : string;
  ir_EstimatedMinutes : option Z; ir_Labels : list string; ir_Dependencies : list string; ir_DueAt : string; ir_DeferUntil : string;
}.

Record AddDependencyRequest := mkDepReq { dq_DependsOnID : string; dq_DepType : string }.
Record CommentRequest := mkCommentReq { cq_Text : string }.

Record IssueWithParent := mkWithParent { wp_Issue : IssueWithCounts; wp_Parent : option string; wp_ParentTitle : option string }.
Record KanbanIssue := mkKanbanIssue {
  ki_Issue : IssueWithCounts; ki_Parent : option string; ki_ParentTitle : option string; ki_IsBlocked : bool;
  ki_BlockedByCount : Z; ki_BlockedBy : list string; ki_BlockedByDetails : list BlockerRef;
}.
Record ReadyIssueWithParent := mkReadyIssue { rw_Issue : Issue; rw_Parent : option string; rw_ParentTitle : option string }.
Record GraphIssue := mkGraphNode {
  gi_ID : string; gi_Title : string; gi_Status : string; gi_Priority : Z; gi_IssueType : string; gi_Labels : list string;
  gi_Dependencies : list GraphDependency; gi_DeferUntil : string; gi_DueAt : string;
}.

Record IssuesResponse := mkIssuesResp { is_Success : bool; is_Data : string; is_Error : string; is_Code : string }.
Record CloseResponse := mkCloseResp { cl_Success : bool; cl_Data : string; cl_Error : string }.
Record PatchIssueResponse := mkPatchResp { pt_Success : bool; pt_Data : option (string * string); pt_Error : string }.
Record DependencyResponse := mkDepResp { dp_Success : bool; dp_Error : string }.
Record CommentResponse := mkCommentResp { cp_Success : bool; cp_Data : option Comment; cp_Error : string }.
Record ReadyResponse := mkReadyResp { rs_Success : bool; rs_Data : list ReadyIssueWithParent; rs_Error : string }.
Record BlockedResponse := mkBlockedResp { bs_Success : bool; bs_Data : list BlockedIssue; bs_Error : string }.
Record GraphResponse := mkGraphResp { gr_Success : bool; gr_Issues : list GraphIssue; gr_Error : string }.

Inductive body :=
| ErrorBody (error : string) | IssuesBody (r : IssuesResponse) | CloseBody (r : CloseResponse) | DeletedBody (data : string)
| PatchBody (r : PatchIssueResponse) | DependencyBody (r : DependencyResponse) | CommentBody (r : CommentResponse)
| ReadyBody (r : ReadyResponse) | BlockedBody (r : BlockedResponse) | GraphBody (r : GraphResponse).
Abbreviation answer := (Z * body)%type.

Definition respondError (status : Z) (message : string) : answer := (status, ErrorBody message).
Definition writeIssuesError (status : Z) (message code : string) : answer := (status, IssuesBody (mkIssuesResp false "" message code)).
Definition patch_failed (status : Z) (message : string) : answer := (status, PatchBody (mkPatchResp false None message)).
Definition dep_failed (status : Z) (message : string) : answer := (status, DependencyBody (mkDepResp false message)).
Definition comment_failed (status : Z) (message : string) : answer := (status, CommentBody (mkCommentResp false None message)).
Definition ready_failed (status : Z) (message : string) : answer := (status, ReadyBody (mkReadyResp false [] message)).
Definition blocked_failed (status : Z) (message : string) : answer := (status, BlockedBody (mkBlockedResp false [] message)).
Definition graph_failed (status : Z) (message : string) : answer := (status, GraphBody (mkGraphResp false [] message)).

(** ** Validation and conversion *)
Definition validIssueTypes (t : string) : bool := bool_decide (t ∈ ["bug"; "feature"; "task"; "epic"; "chore"]%string).
Definition maxLabels : nat := 50.
Definition maxDependencies : nat := 100.
Definition maxCommentLength : Z := 64 * 1024.

Definition validateCreateRequest (req : IssueCreateRequest) : option goerror :=
  if bool_decide (TrimSpace (ir_Title req) = "") then Some (Msg "title is required")
  else if bool_decide (ir_IssueType req = "") then Some (Msg "issue_type is required")
  else if negb (validIssueTypes (ir_IssueType req))
  then Some (Msg ("invalid issue_type: " +:+ ir_IssueType req +:+ " (must be bug, feature, task, epic, or chore)"))
  else if (ir_Priority req <? 0) || (4 <? ir_Priority req)
  then Some (Msg ("priority must be between 0 and 4 (got " +:+ itoa (ir_Priority req) +:+ ")"))
  else if (maxLabels <? length (ir_Labels req))%nat
  then Some (Msg ("too many labels (max 50, got " +:+ itoa (Z.of_nat (length (ir_Labels req))) +:+ ")"))
  else if (maxDependencies <? length (ir_Dependencies req))%nat
  then Some (Msg ("too many dependencies (max 100, got " +:+ itoa (Z.of_nat (length (ir_Dependencies req))) +:+ ")"))
  else None.

Definition toCreateArgs (req : IssueCreateRequest) : CreateArgs :=
  {| ca_ID := ir_ID req; ca_Parent := ir_Parent req; ca_Title := ir_Title req; ca_Description := ir_Description req;
     ca_IssueType := ir_IssueType req; ca_Priority := ir_Priority req; ca_Design := ir_Design req;
     ca_AcceptanceCriteria := ir_AcceptanceCriteria req; ca_Notes := ir_Notes req; ca_Assignee := ir_Assignee req;
     ca_ExternalRef := ir_ExternalRef req; ca_EstimatedMinutes := ir_EstimatedMinutes req; ca_Labels := ir_Labels req;
     ca_Dependencies := ir_Dependencies req; ca_WaitsFor := ""; ca_WaitsForGate := ""; ca_Sender := ""; ca_Ephemeral := false;
     ca_RepliesTo := ""; ca_IDPrefix := ""; ca_CreatedBy := ir_CreatedBy req; ca_Owner := ir_Owner req; ca_MolType := "";
     ca_RoleType := ""; ca_Rig := ""; ca_EventCategory := ""; ca_EventActor := ""; ca_EventTarget := ""; ca_EventPayload := "";
     ca_DueAt := ir_DueAt req; ca_DeferUntil := ir_DeferUntil req |}.

Definition patchRequestToUpdateArgs (issueID : string) (req : PatchIssueRequest) : UpdateArgs :=
  {| ua_ID := issueID; ua_Title := pr_Title req; ua_Description := pr_Description req; ua_Status := pr_Status req;
     ua_Priority := pr_Priority req; ua_Design := pr_Design req; ua_AcceptanceCriteria := pr_AcceptanceCriteria req;
     ua_Notes := pr_Notes req; ua_Assignee := pr_Assignee req; ua_ExternalRef := pr_ExternalRef req;
     ua_EstimatedMinutes := pr_EstimatedMinutes req; ua_IssueType := pr_IssueType req; ua_AddLabels := pr_AddLabels req;
     ua_RemoveLabels := pr_RemoveLabels req; ua_SetLabels := pr_SetLabels req; ua_Sender := None; ua_Ephemeral := None;
     ua_RepliesTo := None; ua_RelatesTo := None; ua_DuplicateOf := None; ua_SupersededBy := None; ua_Pinned := pr_Pinned req;
     ua_Parent := pr_Parent req; ua_HookBead := None; ua_RoleBead := None; ua_AgentState := None; ua_LastActivity := None;
     ua_RoleType := None; ua_Rig := None; ua_EventCategory := None; ua_EventActor := None; ua_EventTarget := None;
     ua_EventPayload := None; ua_Claim := false; ua_DueAt := pr_DueAt req; ua_DeferUntil := pr_DeferUntil req;
     ua_AwaitID := None; ua_Waiters := []; ua_Holder := None |}.

(** The status for an error of the pool or of the daemon. *)
Definition pool_status (e : goerror) : Z := if errors_is e context_deadline_exceeded then 504 else 503.
Definition words_status (words : string) : Z := if contains words "not found" then 404 else 500.
Definition dependency_status (words : string) : Z :=
  if contains words "not found" then 404 else if contains words "cycle" then 409
  else if contains words "already exists" then 409 else 500.

(** [daemon.Pool]: a connection or an error within so many seconds, and giving a
    connection back. *)
Class DaemonPool (P C : Type) := { pool_Get : Z -> P -> res C * P; pool_Put : C -> P -> P }.

(** What the handlers write of JSON. *)
Class ListJson := { marshal_kanban : list KanbanIssue -> res string; marshal_issues : list IssueWithParent -> res string }.

Section handlers.
Context {P C : Type} {pool : DaemonPool P C} {daemon : DaemonClient C} {json : AnswerJson} {list_json : ListJson}.
Context {patch_body : FleetApi.JsonBody PatchIssueRequest} {create_body : FleetApi.JsonBody IssueCreateRequest}
  {close_body : FleetApi.JsonBody CloseRequest} {dep_body : FleetApi.JsonBody AddDependencyRequest}
  {comment_body : FleetApi.JsonBody CommentRequest}.
Context (time_Parse : string -> string -> option Z).

(** [Get], the answer when it fails, and [defer Put]. *)
Definition pooled {A} (timeout : Z) (failed : goerror -> A) (k : C -> A * C) (p : P) : A * P :=
  match pool_Get timeout p with
  | (Err e, p) => (failed e, p)
  | (Ok c, p) => let '(a, c) := k c in (a, pool_Put c p)
  end.

(** A handler whose pool may be nil. *)
Definition over {A} (uninitialized : A) (k : P -> A * P) (p : option P) : A * option P :=
  match p with
  | None => (uninitialized, None)
  | Some p => let '(a, p) := k p in (a, Some p)
  end.

(** The case of a client that returns neither an answer nor an error. *)
Definition nil_answer : answer := respondError 500 "nil pointer dereference".

(** ** One issue *)
Definition show_issue (issueID : string) (c : C) : answer * C :=
  let '(r, c) := Show (mkShowArgs issueID) c in
  (match r with
   | (_, Some e) =>
       if contains (error_text e) "not found" then respondError 404 ("issue not found: " +:+ issueID)
       else respondError 500 "internal server error"
   | (None, None) => nil_answer
   | (Some resp, None) => (200, IssuesBody (mkIssuesResp true (Rpc.Data resp) "" ""))
   end, c).

(** [None]: the handler panics. *)
Definition handleGetIssue (issueID : string) (p : option P) : option answer * option P :=
  if bool_decide (issueID = "") then (Some (respondError 400 "missing issue ID"), p)
  else over None (pooled 5 (fun _ => Some (respondError 503 "daemon not available"))
                    (fun c => let '(a, c) := show_issue issueID c in (Some a, c))) p.

Definition update_issue (issueID : string) (req : PatchIssueRequest) (c : C) : answer * C :=
  let '(r, c) := Update (patchRequestToUpdateArgs issueID req) c in
  (match r with
   | (_, Some e) => patch_failed (words_status (error_text e)) "internal server error"
   | (None, None) => nil_answer
   | (Some resp, None) =>
       if negb (Rpc.Success resp)
       then patch_failed (if contains (Rpc.Error resp) "not found" then 404
                          else if contains (Rpc.Error resp) "cannot update template" then 409 else 500) (Rpc.Error resp)
       else (200, PatchBody (mkPatchResp true (Some (issueID, "updated"%string)) ""))
   end, c).

Definition validatePatchRequest (issueID text : string) : (string * PatchIssueRequest) + answer :=
  if bool_decide (issueID = "") then inr (patch_failed 400 "missing issue ID in path")
  else match FleetApi.decode_body text with
       | inr (status, message) => inr (patch_failed status message)
       | inl req => inl (issueID, req)
       end.

Definition handlePatchIssue (issueID text : string) : option P -> answer * option P :=
  over (patch_failed 503 "connection pool not initialized") (fun p =>
    match validatePatchRequest issueID text with
    | inr a => (a, p)
    | inl (issueID, req) =>
        pooled 2 (fun e => patch_failed (pool_status e) "daemon not available") (update_issue issueID req) p
    end).

(** A failed [Get] of the list and of the creation. *)
Definition unavailable (e : goerror) : answer :=
  if errors_is e context_deadline_exceeded then writeIssuesError 504 "timeout connecting to daemon" "CONNECTION_TIMEOUT"
  else writeIssuesError 503 "daemon unavailable" "DAEMON_UNAVAILABLE".

Definition create_issue (req : IssueCreateRequest) (c : C) : answer * C :=
  let '(r, c) := Create (toCreateArgs req) c in
  (match r with
   | (_, Some e) => writeIssuesError 500 "failed to create issue" "RPC_ERROR"
   | (None, None) => nil_answer
   | (Some resp, None) =>
       if negb (Rpc.Success resp) then writeIssuesError 500 (Rpc.Error resp) "DAEMON_ERROR"
       else (201, IssuesBody (mkIssuesResp true (Rpc.Data resp) "" ""))
   end, c).

Definition create_error (status : Z) (message : string) : answer :=
  writeIssuesError status message (if status =? 413 then "REQUEST_TOO_LARGE" else "INVALID_JSON").

Definition handleCreateIssue (text : string) : option P -> answer * option P :=
  over (writeIssuesError 503 "connection pool not initialized" "POOL_NOT_INITIALIZED") (fun p =>
    match FleetApi.decode_body text with
    | inr (status, message) => (create_error status message, p)
    | inl req =>
        match validateCreateRequest req with
        | Some e => (writeIssuesError 400 (error_text e) "VALIDATION_ERROR", p)
        | None => pooled 30 unavailable (create_issue req) p
        end
    end).

Definition close_issue (issueID : string) (req : CloseRequest) (c : C) : answer * C :=
  let '(r, c) := CloseIssue (mkCloseArgs issueID (cr_Reason req) (cr_Session req) (cr_SuggestNext req) (cr_Force req)) c in
  (match r with
   | (_, Some e) =>
       if contains (error_text e) "not found" then respondError 404 ("issue not found: " +:+ issueID)
       else if contains (error_text e) "blocker" then respondError 409 (error_text e)
       else respondError 500 "internal server error"
   | (None, None) => nil_answer
   | (Some resp, None) =>
       if negb (Rpc.Success resp) then respondError 500 (Rpc.Error resp)
       else (200, CloseBody (mkCloseResp true (Rpc.Data resp) ""))
   end, c).

(** [text] is [None] without a [Content-Length]. *)
Definition handleCloseIssue (issueID : string) (text : option string) (p : option P) : answer * option P :=
  if bool_decide (issueID = "") then (respondError 400 "missing issue ID", p)
  else
    match (match text with Some text => FleetApi.decode_body text | None => inl (mkCloseReq "" "" false false) end) with
    | inr (status, message) => (respondError status message, p)
    | inl req =>
        over (respondError 503 "connection pool not initialized")
          (pooled 5 (fun e => respondError (pool_status e) "daemon not available") (close_issue issueID req)) p
    end.

Definition delete_issue (issueID : string) (c : C) : answer * C :=
  let '(r, c) := Delete (mkDeleteArgs [issueID] true false false "") c in
  (match r with
   | (_, Some e) =>
       if contains (error_text e) "not found" then respondError 404 ("issue not found: " +:+ issueID)
       else respondError 500 "internal server error"
   | (None, None) => nil_answer
   | (Some resp, None) =>
       if negb (Rpc.Success resp) then respondError 500 (Rpc.Error resp) else (200, DeletedBody (Rpc.Data resp))
   end, c).

Definition handleDeleteIssue (issueID : string) (p : option P) : answer * option P :=
  if bool_decide (issueID = "") then (respondError 400 "missing issue ID", p)
  else over (respondError 503 "connection pool not initialized")
         (pooled 5 (fun e => respondError (pool_status e) "daemon not available") (delete_issue issueID)) p.

(** ** Dependencies and comments *)
Definition add_dependency (issueID : string) (req : AddDependencyRequest) (c : C) : answer * C :=
  let depType := if bool_decide (dq_DepType req = "") then "blocks"%string else dq_DepType req in
  let '(r, c) := AddDependency (mkDepAddArgs issueID (dq_DependsOnID req) depType) c in
  (match r with
   | (_, Some e) => dep_failed (dependency_status (error_text e)) "internal server error"
   | (None, None) => nil_answer
   | (Some resp, None) =>
       if negb (Rpc.Success resp) then dep_failed (dependency_status (Rpc.Error resp)) (Rpc.Error resp)
       else (200, DependencyBody (mkDepResp true ""))
   end, c).

Definition handleAddDependency (issueID text : string) (p : option P) : answer * option P :=
  if bool_decide (issueID = "") then (dep_failed 400 "missing issue ID", p)
  else over (dep_failed 503 "connection pool not initialized") (fun p =>
    match FleetApi.decode_body text with
    | inr (status, message) => (dep_failed status message, p)
    | inl req =>
        if bool_decide (dq_DependsOnID req = "") then (dep_failed 400 "depends_on_id is required", p)
        else if bool_decide (issueID = dq_DependsOnID req) then (dep_failed 400 "cannot add self-dependency", p)
        else pooled 5 (fun e => dep_failed (pool_status e) "daemon not available") (add_dependency issueID req) p
    end) p.

Definition remove_dependency (issueID depID : string) (c : C) : answer * C :=
  let '(r, c) := RemoveDependency (mkDepRemoveArgs issueID depID "") c in
  (match r with
   | (_, Some e) => dep_failed (words_status (error_text e)) "internal server error"
   | (None, None) => nil_answer
   | (Some resp, None) =>
       if negb (Rpc.Success resp) then dep_failed (words_status (Rpc.Error resp)) (Rpc.Error resp)
       else (200, DependencyBody (mkDepResp true ""))
   end, c).

Definition handleRemoveDependency (issueID depID : string) (p : option P) : answer * option P :=
  if bool_decide (issueID = "") then (dep_failed 400 "missing issue ID", p)
  else if bool_decide (depID = "") then (dep_failed 400 "missing dependency ID", p)
  else over (dep_failed 503 "connection pool not initialized")
         (pooled 5 (fun e => dep_failed (pool_status e) "daemon not available") (remove_dependency issueID depID)) p.

Definition add_comment (issueID text : string) (c : C) : answer * C :=
  let '(r, c) := AddComment (mkCommentAddArgs issueID "web-ui" text) c in
  (match r with
   | (_, Some e) => comment_failed (words_status (error_text e)) "internal server error"
   | (None, None) => nil_answer
   | (Some resp, None) =>
       if negb (Rpc.Success resp) then comment_failed (words_status (Rpc.Error resp)) (Rpc.Error resp)
       else
         match read_comment (Rpc.Data resp) with
         | None => comment_failed 500 "failed to parse comment: json"
         | Some comment => (201, CommentBody (mkCommentResp true (Some comment) ""))
         end
   end, c).

(** The body of a comment is decoded without a limit. *)
Definition handleAddComment (issueID body : string) (p : option P) : answer * option P :=
  if bool_decide (issueID = "") then (comment_failed 400 "missing issue ID", p)
  else over (comment_failed 503 "connection pool not initialized") (fun p =>
    match FleetApi.first_value body with
    | FleetApi.Malformed | FleetApi.Incomplete => (comment_failed 400 "invalid request body", p)
    | FleetApi.Value req =>
        let text := TrimSpace (cq_Text req) in
        if bool_decide (text = "") then (comment_failed 400 "comment text is required", p)
        else if maxCommentLength <? len text
        then (comment_failed 400 ("comment text too long (" +:+ itoa (len text) +:+ " bytes, max 65536)"), p)
        else pooled 5 (fun e => comment_failed (pool_status e) "daemon not available") (add_comment issueID text) p
    end) p.

(** ** Which issues are blocked *)
Definition unclosed (issues : list Issue) : gset string :=
  list_to_set (map ID (filter (fun i => Status i <> StatusClosed) issues)).

(** A dependency that keeps its issue from being ready. *)
Definition blocks (unclosedIDs : gset string) (d : Dependency) : bool :=
  AffectsReadyWork (d_Type d) && bool_decide (d_DependsOnID d ∈ unclosedIDs).
Definition hasUnclosedBlockersTyped (deps : list Dependency) (unclosedIDs : gset string) : bool := existsb (blocks unclosedIDs) deps.

(** An answer's data, [None] on an error, a failure or data that is no list. *)
Definition data_of {A} (read : string -> option A) (r : Rpc.outcome) : option A :=
  match r with
  | (Some resp, None) => if negb (Rpc.Success resp) then None else read (Rpc.Data resp)
  | _ => None
  end.

Definition filterUnclosedBlockers (issues : list Issue) (c : C) : list Issue * C :=
  let '(r, c) := List_ (list_up_to 500) c in
  (match data_of read_issues r with
   | None => issues
   | Some allIssues => filter (fun i => hasUnclosedBlockersTyped (Dependencies i) (unclosed allIssues) = false) issues
   end, c).

Definition fetchUnclosedIDSetAndMap (c : C) : option (gset string * gmap string IssueWithCounts) * C :=
  let '(r, c) := List_ (list_up_to MaxListLimit) c in
  (match data_of read_counted r with
   | None => None
   | Some allIssues =>
       Some (unclosed (map iwc_Issue allIssues), foldl (fun m iwc => <[ID (iwc_Issue iwc) := iwc]> m) ∅ allIssues)
   end, c).

Definition getUnclosedBlockerRefs (deps : list Dependency) (unclosedIDs : gset string) (issueMap : gmap string IssueWithCounts) : list BlockerRef :=
  map (fun d => match issueMap !! d_DependsOnID d with
                | Some blocker => mkBlockerRef (d_DependsOnID d) (Title (iwc_Issue blocker)) (Priority (iwc_Issue blocker))
                | None => mkBlockerRef (d_DependsOnID d) "" 0
                end)
    (filter (fun d => blocks unclosedIDs d = true) deps).
Definition extractBlockerIDs (refs : list BlockerRef) : list string := map br_ID refs.

(** ** The list of issues *)
Definition parentBatchSize : nat := 1000.
#[global] Arguments parentBatchSize : simpl never.

(** The parents, batch after batch; a batch that fails is left out. *)
Fixpoint get_parents (fuel : nat) (ids : list string) (parents : gmap string ParentInfo) (c : C) : gmap string ParentInfo * C :=
  match fuel, ids with
  | O, _ | _, [] => (parents, c)
  | S fuel, _ =>
      let '(r, c) := GetParentIDs (mkGetParentIDsArgs (take parentBatchSize ids)) c in
      get_parents fuel (drop parentBatchSize ids) (match r with Ok batch => batch ∪ parents | Err _ => parents end) c
  end.
Definition parents_of (ids : list string) (c : C) : gmap string ParentInfo * C := get_parents (length ids) ids ∅ c.

Definition exclude (kp : kanbanParams) (issues : list IssueWithCounts) : list IssueWithCounts :=
  if (0 <? length (ExcludeStatus kp))%nat then filter (fun i => Status (iwc_Issue i) ∉ ExcludeStatus kp) issues else issues.

(** The daemon's view of what is blocked, for when its list fails. *)
Definition blocked_map (c : C) : gmap string BlockedIssue * C :=
  let '(r, c) := Blocked (mkBlockedArgs "" "" None "" 0) c in
  (match data_of read_blocked r with
   | None => ∅
   | Some l => foldl (fun m b => <[ID (bi_Issue b) := b]> m) ∅ l
   end, c).

Definition kanban_issue (parents : gmap string ParentInfo) (blocked : gmap string BlockedIssue)
    (fetched : option (gset string * gmap string IssueWithCounts)) (iwc : IssueWithCounts) : KanbanIssue :=
  let id := ID (iwc_Issue iwc) in
  let parent := pi_ParentID <$> parents !! id in
  let title := pi_ParentTitle <$> parents !! id in
  let free := mkKanbanIssue iwc parent title false 0 [] [] in
  match fetched with
  | Some (unclosedIDs, issueMap) =>
      let refs := getUnclosedBlockerRefs (Dependencies (iwc_Issue iwc)) unclosedIDs issueMap in
      if (0 <? length refs)%nat
      then mkKanbanIssue iwc parent title true (Z.of_nat (length refs)) (extractBlockerIDs refs) refs
      else free
  | None =>
      match blocked !! id with
      | Some b => mkKanbanIssue iwc parent title true (bi_BlockedByCount b) (bi_BlockedBy b) (bi_BlockedByDetails b)
      | None => free
      end
  end.
Definition with_parent (parents : gmap string ParentInfo) (iwc : IssueWithCounts) : IssueWithParent :=
  let p := parents !! ID (iwc_Issue iwc) in mkWithParent iwc (pi_ParentID <$> p) (pi_ParentTitle <$> p).

Definition encoded (data : res string) : answer :=
  match data with
  | Err _ => writeIssuesError 500 "failed to encode response" "ENCODE_ERROR"
  | Ok data => (200, IssuesBody (mkIssuesResp true data "" ""))
  end.

Definition enriched (kp : kanbanParams) (issues : list IssueWithCounts) (c : C) : res string * C :=
  let '(parents, c) := parents_of (map (fun i => ID (iwc_Issue i)) issues) c in
  if IncludeBlocked kp then
    let '(blocked, c) := blocked_map c in
    let '(fetched, c) := fetchUnclosedIDSetAndMap c in
    (marshal_kanban (map (kanban_issue parents blocked fetched) issues), c)
  else (marshal_issues (map (with_parent parents) issues), c).

Definition list_issues (args : ListArgs) (kp : kanbanParams) (c : C) : answer * C :=
  let '(r, c) := List_ args c in
  match r with
  | (_, Some e) => (writeIssuesError 500 "failed to list issues" "RPC_ERROR", c)
  | (None, None) => (nil_answer, c)
  | (Some resp, None) =>
      if negb (Rpc.Success resp) then (writeIssuesError 500 (Rpc.Error resp) "DAEMON_ERROR", c)
      else
        match read_counted (Rpc.Data resp) with
        | None => (writeIssuesError 500 "failed to parse issues" "PARSE_ERROR", c)
        | Some issues =>
            match exclude kp issues with
            | [] => (encoded (if IncludeBlocked kp then marshal_kanban [] else marshal_issues []), c)
            | issues => let '(data, c) := enriched kp issues c in (encoded data, c)
            end
        end
  end.

Definition handleListIssues (q : Values) : option P -> answer * option P :=
  over (writeIssuesError 503 "connection pool not initialized" "POOL_NOT_INITIALIZED") (fun p =>
    match (let? args := parseListParams time_Parse q in let? kp := parseKanbanParams q in Ok (args, kp)) with
    | Err e => (writeIssuesError 400 (error_text e) "INVALID_PARAMS", p)
    | Ok (args, kp) => pooled 5 unavailable (list_issues args kp) p
    end).

(** ** Ready, blocked and the graph *)

(** On success the connection is still taken. *)
Definition executeReadyRPC (args : ReadyArgs) (p : P) : (C * list Issue + Z * goerror) * P :=
  match pool_Get 5 p with
  | (Err e, p) => (inr (pool_status e, e), p)
  | (Ok c, p) =>
      let '(r, c) := Ready args c in
      match r with
      | (_, Some e) => (inr (500, Wrapf "RPC error: " e ""), pool_Put c p)
      | (None, None) => (inr (500, Sentinel "nil pointer dereference"), pool_Put c p)
      | (Some resp, None) =>
          if negb (Rpc.Success resp) then (inr (500, Msg (Rpc.Error resp)), pool_Put c p)
          else
            match read_issues (Rpc.Data resp) with
            | None => (inr (500, Wrapf "failed to parse ready issues: " (Msg "json") ""), pool_Put c p)
            | Some issues => let '(issues, c) := filterUnclosedBlockers issues c in (inl (c, issues), p)
            end
      end
  end.

Definition ready_issue (parents : gmap string ParentInfo) (i : Issue) : ReadyIssueWithParent :=
  let p := parents !! ID i in mkReadyIssue i (pi_ParentID <$> p) (pi_ParentTitle <$> p).
Definition buildReadyResponse (issues : list Issue) (c : C) : list ReadyIssueWithParent * C :=
  let '(r, c) := GetParentIDs (mkGetParentIDsArgs (map ID issues)) c in
  (map (ready_issue (match r with Ok parents => parents | Err _ => ∅ end)) issues, c).

Definition handleReady (q : Values) : option P -> answer * option P :=
  over (ready_failed 503 "connection pool not initialized") (fun p =>
    match parseReadyParams q with
    | Err e => (ready_failed 400 (error_text e), p)
    | Ok args =>
        match executeReadyRPC args p with
        | (inr (status, e), p) => (ready_failed status (error_text e), p)
        | (inl (c, []), p) => ((200, ReadyBody (mkReadyResp true [] "")), pool_Put c p)
        | (inl (c, issues), p) =>
            let '(data, c) := buildReadyResponse issues c in ((200, ReadyBody (mkReadyResp true data "")), pool_Put c p)
        end
    end).

Definition blocked_issues (args : BlockedArgs) (c : C) : answer * C :=
  let '(r, c) := Blocked args c in
  (match r with
   | (_, Some e) => blocked_failed 500 "internal server error"
   | (None, None) => nil_answer
   | (Some resp, None) =>
       if negb (Rpc.Success resp) then blocked_failed 500 (Rpc.Error resp)
       else
         match read_blocked (Rpc.Data resp) with
         | None => blocked_failed 500 "failed to parse blocked issues: json"
         | Some issues => (200, BlockedBody (mkBlockedResp true issues ""))
         end
   end, c).

Definition handleBlocked (q : Values) : option P -> answer * option P :=
  over (blocked_failed 503 "connection pool not initialized") (fun p =>
    match parseBlockedParams q with
    | Err e => (blocked_failed 400 (error_text e), p)
    | Ok args => pooled 5 (fun e => blocked_failed (pool_status e) "daemon not available") (blocked_issues args) p
    end).

Definition validStatuses (status : string) : bool := bool_decide (status ∈ ["all"; "open"; "closed"]%string).

Definition graph_args (status : string) (includeClosed : bool) : GetGraphDataArgs :=
  let args :=
    if bool_decide (status = "open") then mkGetGraphDataArgs "" ["closed"; "tombstone"]%string
    else if bool_decide (status = "closed") then mkGetGraphDataArgs "closed" []
    else mkGetGraphDataArgs "" ["tombstone"%string] in
  if negb includeClosed && bool_decide (status = "all")
  then mkGetGraphDataArgs (gg_Status args) (gg_ExcludeStatus args ++ ["closed"%string]) else args.

Definition graph_node (s : GraphIssueSummary) : GraphIssue :=
  mkGraphNode (gs_ID s) (gs_Title s) (gs_Status s) (gs_Priority s) (gs_IssueType s) (gs_Labels s)
    (map (fun d => mkGraphDep (gd_DependsOnID d) (gd_Type d)) (gs_Dependencies s)) (gs_DeferUntil s) (gs_DueAt s).

Definition graph_issues (status : string) (includeClosed : bool) (c : C) : answer * C :=
  let '(r, c) := GetGraphData (graph_args status includeClosed) c in
  (match r with
   | Err e => graph_failed 500 "internal server error"
   | Ok issues => (200, GraphBody (mkGraphResp true (map graph_node issues) ""))
   end, c).

Definition handleGraph (q : Values) : option P -> answer * option P :=
  over (graph_failed 503 "connection pool not initialized") (fun p =>
    let '(status, includeClosed) := parseGraphParams q in
    if negb (validStatuses status)
    then (graph_failed 400 ("invalid status: " +:+ status +:+ " (must be all, open, or closed)"), p)
    else pooled 10 (fun e => graph_failed (pool_status e) "daemon not available") (graph_issues status includeClosed) p).

(** ** The routes of the issues *)
Inductive request :=
| GetIssue (id : string) | ListIssues (q : Values) | CreateIssue (text : string) | PatchIssue (id text : string)
| CloseIssueAt (id : string) (text : option string) | DeleteIssue (id : string)
| PostComment (id text : string) | PostDependency (id text : string) | DeleteDependency (id dep : string)
| GetReady (q : Values) | GetBlocked (q : Values) | GetGraph (q : Values).

Definition answering (h : option P -> answer * option P) (p : option P) : option answer * option P :=
  let '(a, p) := h p in (Some a, p).
Definition serve (r : request) : option P -> option answer * option P :=
  match r with
  | GetIssue id => handleGetIssue id
  | ListIssues q => answering (handleListIssues q)
  | CreateIssue text => answering (handleCreateIssue text)
  | PatchIssue id text => answering (handlePatchIssue id text)
  | CloseIssueAt id text => answering (handleCloseIssue id text)
  | DeleteIssue id => answering (handleDeleteIssue id)
  | PostComment id text => answering (handleAddComment id text)
  | PostDependency id text => answering (handleAddDependency id text)
  | DeleteDependency id dep => answering (handleRemoveDependency id dep)
  | GetReady q => answering (handleReady q)
  | GetBlocked q => answering (handleBlocked q)
  | GetGraph q => answering (handleGraph q)
  end.

(** ** Each connection that is taken is given back *)

(** What a request did with the pool, and the calls it made. *)
Inductive pool_use (p : P) : list op -> P -> Prop :=
| untouched : pool_use p [] p
| no_connection t e p' : pool_Get t p = (Err e, p') -> pool_use p [] p'
| given_back t c p1 ops c' : pool_Get t p = (Ok c, p1) -> talk c ops c' -> pool_use p ops (pool_Put c' p1).

(** What is allowed of the calls of a request. *)
Definition writes_once (l : list op) : Prop := (length l <= 1)%nat.
Definition only_reads (l : list op) : Prop := Forall (fun o => reads o = true) l.
Definition is_get (r : request) : bool :=
  match r with GetIssue _ | ListIssues _ | GetReady _ | GetBlocked _ | GetGraph _ => true | _ => false end.

Lemma pooled_use {A} (Q : list op -> Prop) t (failed : goerror -> A) k p a p' :
  Q [] -> (forall c a c', k c = (a, c') -> exists ops, talk c ops c' /\ Q ops) ->
  pooled t failed k p = (a, p') -> exists ops, pool_use p ops p' /\ Q ops.
Proof.
  intros H0 Hk. unfold pooled. destruct (pool_Get t p) as [[c|e] p1] eqn:E.
  - destruct (k c) as [a1 c1] eqn:Ek. intros [= <- <-]. destruct (Hk _ _ _ Ek) as (ops & Ht & HQ). exists ops. by split; [eapply given_back|].
  - intros [= _ <-]. exists []. by split; [eapply no_connection|].
Qed.

Lemma over_use {A} (Q : list op -> Prop) (u : A) k p a p' :
  (forall p a p', k p = (a, p') -> exists ops, pool_use p ops p' /\ Q ops) ->
  over u k (Some p) = (a, Some p') -> exists ops, pool_use p ops p' /\ Q ops.
Proof. intros Hk. cbn. destruct (k p) as [a1 p1] eqn:E. intros [= <- <-]. by eapply Hk. Qed.

Lemma one_call {A} (f : Rpc.outcome -> A) o (c : C) a c' :
  (let '(r, c) := Execute o c in (f r, c)) = (a, c') -> talk c [o] c'.
Proof. destruct (Execute o c) as [r c1] eqn:E. intros [= _ <-]. by eapply talk_one. Qed.

Lemma get_parents_talk fuel ids parents (c : C) r c' :
  get_parents fuel ids parents c = (r, c') -> exists ops, talk c ops c' /\ only_reads ops.
Proof.
  revert ids parents c. induction fuel as [|fuel IH]; intros ids parents c; cbn [get_parents]; [intros [= _ <-]; exists []; split; [apply talk_nil|by apply Forall_nil_2]|].
  destruct ids as [|i ids]; [intros [= _ <-]; exists []; split; [apply talk_nil|by apply Forall_nil_2]|].
  unfold GetParentIDs. destruct (Execute _ c) as [r0 c1] eqn:E. intros H. destruct (IH _ _ _ H) as (ops & Ht & Hr).
  eexists. split; [by eapply talk_step|]. by apply Forall_cons_2.
Qed.

Lemma filterUnclosedBlockers_talk issues (c : C) r c' : filterUnclosedBlockers issues c = (r, c') -> talk c [OpList (list_up_to 500)] c'.
Proof. apply one_call. Qed.
Lemma fetchUnclosed_talk (c : C) r c' : fetchUnclosedIDSetAndMap c = (r, c') -> talk c [OpList (list_up_to MaxListLimit)] c'.
Proof. apply one_call. Qed.
Lemma blocked_map_talk (c : C) r c' : blocked_map c = (r, c') -> talk c [OpBlocked (mkBlockedArgs "" "" None "" 0)] c'.
Proof. apply one_call. Qed.
Lemma buildReadyResponse_talk issues (c : C) r c' : buildReadyResponse issues c = (r, c') -> talk c [OpGetParentIDs (mkGetParentIDsArgs (map ID issues))] c'.
Proof. unfold buildReadyResponse, GetParentIDs. destruct (Execute _ c) as [r0 c1] eqn:E. intros [= _ <-]. by eapply talk_one. Qed.

Lemma enriched_talk kp issues (c : C) r c' : enriched kp issues c = (r, c') -> exists ops, talk c ops c' /\ only_reads ops.
Proof.
  unfold enriched. destruct (parents_of _ c) as [parents c1] eqn:E1. destruct (get_parents_talk _ _ _ _ _ _ E1) as (ops & Ht & Hr).
  destruct (IncludeBlocked kp); [|intros [= _ <-]; by exists ops].
  destruct (blocked_map c1) as [b c2] eqn:E2. destruct (fetchUnclosedIDSetAndMap c2) as [f c3] eqn:E3. intros [= _ <-].
  eexists. split; [eapply talk_app; [exact Ht|eapply talk_app; [by eapply blocked_map_talk|by eapply fetchUnclosed_talk]]|].
  apply Forall_app_2; [done|]. by repeat constructor.
Qed.

Lemma list_issues_talk args kp (c : C) a c' : list_issues args kp c = (a, c') -> exists ops, talk c ops c' /\ only_reads ops.
Proof.
  unfold list_issues, List_. destruct (Execute _ c) as [r c1] eqn:E.
  assert (forall c2 ops, talk c1 ops c2 -> only_reads ops -> exists ops, talk c ops c2 /\ only_reads ops) as Hgo.
  { intros c2 ops Ht Hr. eexists. split; [by eapply talk_step|]. by apply Forall_cons_2. }
  intros H. assert (c' = c1 \/ exists issues data, enriched kp issues c1 = (data, c')) as [->|(issues & data & He)].
  { repeat (case_match; simplify_eq); eauto. }
  - apply (Hgo c1 []); [apply talk_nil|by apply Forall_nil_2].
  - destruct (enriched_talk _ _ _ _ _ He) as (ops & Ht & Hr). by eapply Hgo.
Qed.

Lemma handleReady_use q p a p' : handleReady q (Some p) = (a, Some p') -> exists ops, pool_use p ops p' /\ only_reads ops.
Proof.
  apply over_use. clear p a p'. intros p a p'. destruct (parseReadyParams q) as [args|e].
  2: { intros [= _ <-]. exists []. split; [constructor|by apply Forall_nil_2]. }
  unfold executeReadyRPC, Ready. destruct (pool_Get 5 p) as [[c|e] p1] eqn:Eg.
  2: { intros [= _ <-]. exists []. split; [by eapply no_connection|by apply Forall_nil_2]. }
  destruct (Execute (OpReady args) c) as [r c1] eqn:Er.
  assert (forall ops c', talk c1 ops c' -> only_reads ops -> exists ops, pool_use p ops (pool_Put c' p1) /\ only_reads ops) as Hgo.
  { intros ops c' Ht Hr. eexists. split; [by eapply given_back, talk_step|]. by apply Forall_cons_2. }
  assert (exists ops, pool_use p ops (pool_Put c1 p1) /\ only_reads ops) as Hone by (apply (Hgo []); [apply talk_nil|by apply Forall_nil_2]).
  destruct r as [[resp|] [e|]]; try by intros [= _ <-].
  destruct (negb (Rpc.Success resp)); [by intros [= _ <-]|]. destruct (read_issues _) as [issues|]; [|by intros [= _ <-]].
  destruct (filterUnclosedBlockers issues c1) as [issues' c2] eqn:Ef. apply filterUnclosedBlockers_talk in Ef.
  destruct issues' as [|i issues'].
  - intros [= _ <-]. eapply Hgo; [exact Ef|]. apply Forall_cons_2; [done|by apply Forall_nil_2].
  - destruct (buildReadyResponse _ c2) as [data c3] eqn:Eb. apply buildReadyResponse_talk in Eb. intros [= _ <-].
    eapply Hgo; [by eapply talk_app|]. repeat (apply Forall_cons_2; [done|]). by apply Forall_nil_2.
Qed.

(** The uses of a pool by a handler whose calls are of a kind. *)
Definition serves_with (Q : list op -> Prop) (h : option P -> option answer * option P) : Prop :=
  forall p a p', h (Some p) = (a, p') -> is_Some a /\ exists ops q, p' = Some q /\ pool_use p ops q /\ Q ops.

Lemma serves_over Q u k : (forall p a p', k p = (a, p') -> exists ops, pool_use p ops p' /\ Q ops) -> serves_with Q (answering (over u k)).
Proof.
  intros Hk p a p'. unfold answering, over. destruct (k p) as [a1 p1] eqn:E. intros [= <- <-]. split; [done|].
  destruct (Hk _ _ _ E) as (ops & Hu & HQ). by exists ops, p1.
Qed.
Lemma serves_refusal Q (a0 : answer) : Q [] -> serves_with Q (answering (fun p => (a0, p))).
Proof. intros H0 p a p' [= <- <-]. split; [done|]. exists [], p. by split; [|split; [constructor|]]. Qed.
Lemma serves_early Q (h : option P -> answer * option P) (b : bool) (a0 : answer) :
  Q [] -> serves_with Q (answering h) -> serves_with Q (answering (fun p => if b then (a0, p) else h p)).
Proof. intros H0 Hh. destruct b; [by apply serves_refusal|exact Hh]. Qed.

Lemma one_op {A} (Q : list op -> Prop) (f : Rpc.outcome -> A) o (c : C) a c' :
  Q [o] -> (let '(r, c) := Execute o c in (f r, c)) = (a, c') -> exists ops, talk c ops c' /\ Q ops.
Proof. intros HQ E. exists [o]. split; [by eapply one_call|done]. Qed.

Lemma writes_nil : writes_once []. Proof. unfold writes_once. simpl. lia. Qed.
Lemma writes_one o : writes_once [o]. Proof. unfold writes_once. simpl. lia. Qed.
Lemma reads_nil : only_reads []. Proof. by apply Forall_nil_2. Qed.
Lemma reads_one o : reads o = true -> only_reads [o].
Proof. intros H. apply Forall_cons_2; [done|by apply Forall_nil_2]. Qed.
#[local] Hint Resolve writes_nil writes_one reads_nil : core.

Lemma untouched_use (Q : list op -> Prop) (p : P) : Q [] -> exists ops, pool_use p ops p /\ Q ops.
Proof. intros H. exists []. by split; [constructor|]. Qed.
#[local] Hint Resolve untouched_use : core.

(** A handler whose one call is [o], behind what it checks. *)
Ltac serves_pooled :=
  let E := fresh "E" in
  first [ intros [= _ <-]; by auto
        | intros E; eapply pooled_use; [..|exact E]; [by auto|]; intros ? ? ?; apply one_op; by auto using reads_one ].

Lemma serve_get id : serves_with only_reads (serve (GetIssue id)).
Proof.
  intros p a p'. cbn. unfold handleGetIssue. destruct (bool_decide (id = "")).
  { intros [= <- <-]. split; [done|]. exists [], p. by split; [|split; [constructor|]]. }
  unfold over, pooled, show_issue, Show. destruct (pool_Get 5 p) as [[c|e] p1] eqn:Eg.
  - destruct (Execute _ c) as [r c1] eqn:E. intros [= <- <-]. split; [by case_match|].
    eexists _, _. split; [done|]. split; [eapply given_back; [exact Eg|by eapply talk_one]|by apply reads_one].
  - intros [= <- <-]. split; [done|]. exists [], p1. split; [done|]. by split; [eapply no_connection|].
Qed.

Lemma serve_writes r : is_get r = false -> serves_with writes_once (serve r).
Proof.
  destruct r as [id|q|text|id text|id text|id|id text|id text|id dep|q|q|q]; try done; intros _; cbn [serve].
  - apply serves_over. intros p a p'. destruct (FleetApi.decode_body text) as [req|[st msg]]; [|serves_pooled].
    destruct (validateCreateRequest req); serves_pooled.
  - apply serves_over. intros p a p'. destruct (validatePatchRequest id text) as [[id' req]|]; serves_pooled.
  - apply serves_early; [done|]. destruct (match text with Some _ => _ | None => _ end) as [req|[st msg]].
    + apply serves_over. intros p a p'. serves_pooled.
    + by apply serves_refusal.
  - apply serves_early; [done|]. apply serves_over. intros p a p'. serves_pooled.
  - apply serves_early; [done|]. apply serves_over. intros p a p'. destruct (FleetApi.first_value text) as [req| |]; [|serves_pooled..].
    cbv zeta. destruct (bool_decide _); [serves_pooled|]. destruct (maxCommentLength <? _); serves_pooled.
  - apply serves_early; [done|]. apply serves_over. intros p a p'. destruct (FleetApi.decode_body text) as [req|[st msg]]; [|serves_pooled].
    destruct (bool_decide _); [serves_pooled|]. destruct (bool_decide _); serves_pooled.
  - apply serves_early; [done|]. apply serves_early; [done|]. apply serves_over. intros p a p'. serves_pooled.
Qed.

Lemma serve_reads r : is_get r = true -> serves_with only_reads (serve r).
Proof.
  destruct r as [id|q|text|id text|id text|id|id text|id text|id dep|q|q|q]; try done; intros _; [apply serve_get|..]; cbn [serve].
  - apply serves_over. intros p a p'. destruct (res_bind _ _) as [[args kp]|e]; [|serves_pooled].
    intros E. eapply pooled_use; [..|exact E]; [done|]. intros c a0 c'. apply list_issues_talk.
  - intros p a p'. unfold answering. destruct (handleReady q (Some p)) as [a1 [p1|]] eqn:E.
    + intros [= <- <-]. split; [done|]. destruct (handleReady_use _ _ _ _ E) as (ops & Hu & HQ). by exists ops, p1.
    + unfold handleReady, over in E. by destruct (match parseReadyParams q with Ok _ => _ | Err _ => _ end).
  - apply serves_over. intros p a p'. destruct (parseBlockedParams q) as [args|e]; serves_pooled.
  - apply serves_over. intros p a p'. destruct (parseGraphParams q) as [st closed]. destruct (negb (validStatuses st)); [serves_pooled|].
    intros E. eapply pooled_use; [..|exact E]; [done|]. intros c a0 c'. unfold graph_issues, GetGraphData.
    destruct (Execute _ c) as [r c1] eqn:Er. intros [= _ <-]. eexists. split; [by eapply talk_one|by apply reads_one].
Qed.

(** C3. Every request over issues takes at most one connection of the pool and
    gives this connection back, on every path and with every answer of the daemon;
    it is answered; a request that reads sends only calls that read, any other one
    sends at most one call. *)
Theorem connections_given_back r p a p' :
  serve r (Some p) = (a, p') ->
  is_Some a /\ exists ops q, p' = Some q /\ pool_use p ops q /\ (if is_get r then only_reads ops else writes_once ops).
Proof.
  intros E. destruct (is_get r) eqn:Er; [by apply (serve_reads r Er p a p' E)|by apply (serve_writes r Er p a p' E)].
Qed.

(** ** What is ready and what is blocked *)

(** [b] is an issue of the list that is not closed and that [d] waits for. *)
Definition waits_for (issues : list Issue) (d : Dependency) (b : Issue) : Prop :=
  AffectsReadyWork (d_Type d) = true /\ b ∈ issues /\ ID b = d_DependsOnID d /\ Status b <> StatusClosed.
Definition waiting (issues : list Issue) (i : Issue) : Prop := exists d b, d ∈ Dependencies i /\ waits_for issues d b.

Lemma elem_of_unclosed id issues : id ∈ unclosed issues <-> exists b, b ∈ issues /\ ID b = id /\ Status b <> StatusClosed.
Proof.
  unfold unclosed. rewrite elem_of_list_to_set, list_elem_of_fmap. split.
  - intros (b & -> & [Hs Hb]%list_elem_of_filter). by exists b.
  - intros (b & Hb & <- & Hs). exists b. split; [done|]. by apply list_elem_of_filter.
Qed.

Lemma blocks_spec issues d : blocks (unclosed issues) d = true <-> exists b, waits_for issues d b.
Proof.
  unfold blocks, waits_for. rewrite andb_true_iff, bool_decide_eq_true, elem_of_unclosed. naive_solver.
Qed.

Lemma hasUnclosedBlockers_spec i issues : hasUnclosedBlockersTyped (Dependencies i) (unclosed issues) = true <-> waiting issues i.
Proof.
  unfold hasUnclosedBlockersTyped, waiting. rewrite existsb_exists. setoid_rewrite blocks_spec. setoid_rewrite <- list_elem_of_In. naive_solver.
Qed.

(** A daemon that is reached: its lists are of the tracker's issues, cut at the
    limit; which issues it calls ready, and the parents, are its own. *)
Record honest (issues : list Issue) (ready : ReadyArgs -> list Issue) (par : gmap string ParentInfo) (c : C) : Prop := {
  lists : forall ops c1 n, talk c ops c1 -> only_reads ops -> 0 < n -> exists resp c2,
    Execute (OpList (list_up_to n)) c1 = ((Some resp, None), c2) /\ read_issues (Rpc.Data resp) = Some (take (Z.to_nat n) issues) /\
    exists counted, read_counted (Rpc.Data resp) = Some counted /\ map iwc_Issue counted = take (Z.to_nat n) issues;
  readies : forall ops c1 args, talk c ops c1 -> only_reads ops -> exists resp c2,
    Execute (OpReady args) c1 = ((Some resp, None), c2) /\ read_issues (Rpc.Data resp) = Some (ready args);
  parents : forall ops c1 ids, talk c ops c1 -> only_reads ops ->
    (length ids <= 1000 -> exists m c2, GetParentIDs (mkGetParentIDsArgs ids) c1 = (Ok m, c2) /\
       forall id, m !! id = if bool_decide (id ∈ ids) then par !! id else None)%nat /\
    (1000 < length ids -> exists e c2, GetParentIDs (mkGetParentIDsArgs ids) c1 = (Err e, c2))%nat;
}.

Lemma data_of_answer {A} (read : string -> option A) o (c : C) resp c' :
  Execute o c = ((Some resp, None), c') -> data_of read (Some resp, None) = read (Rpc.Data resp).
Proof. intros E. destruct (answered _ _ _ _ E) as (r & [= <-] & Hs). cbn. by rewrite Hs. Qed.

Lemma filterUnclosedBlockers_honest issues ready par c ops c1 l l' c2 :
  honest issues ready par c -> talk c ops c1 -> only_reads ops -> filterUnclosedBlockers l c1 = (l', c2) ->
  l' = filter (fun i => hasUnclosedBlockersTyped (Dependencies i) (unclosed (take 500 issues)) = false) l.
Proof.
  intros Hh Ht Hr. destruct (lists _ _ _ _ Hh _ _ 500 Ht Hr) as (resp & c3 & E & Hd & _); [done|].
  unfold filterUnclosedBlockers, List_. rewrite E, (data_of_answer _ _ _ _ _ E), Hd. by intros [= <- _].
Qed.

(** The issues a request gets from [handleReady], [None] when it is refused. *)
Definition ready_of (a : answer) : option (list ReadyIssueWithParent) :=
  match a.2 with ReadyBody r => if rs_Success r then Some (rs_Data r) else None | _ => None end.

Lemma ready_issue_parents (par ps : gmap string ParentInfo) (ids : list string) i :
  ID i ∈ ids -> (forall id, ps !! id = if bool_decide (id ∈ ids) then par !! id else None) ->
  ready_issue ps i = mkReadyIssue i (pi_ParentID <$> par !! ID i) (pi_ParentTitle <$> par !! ID i).
Proof. intros Hi Hp. unfold ready_issue. cbv zeta. by rewrite Hp, bool_decide_true. Qed.

(** Over a daemon that is reached, the ready list has exactly the issues that the
    daemon calls ready and that wait for no unclosed issue among the first 500 of
    its list, in the daemon's order; so with at most 500 issues no issue of the
    answer waits for one that is not closed. Up to 1000 of them have their
    parents, more have none. *)
Theorem ready_exact issues ready par q args p c p1 a p' :
  parseReadyParams q = Ok args -> pool_Get 5 p = (Ok c, p1) -> honest issues ready par c ->
  handleReady q (Some p) = (a, p') ->
  a.1 = 200 /\ exists data, ready_of a = Some data /\ map rw_Issue data `sublist_of` ready args /\
  (forall i, i ∈ map rw_Issue data <-> i ∈ ready args /\ ~ waiting (take 500 issues) i) /\
  ((length issues <= 500)%nat -> forall i, i ∈ map rw_Issue data -> ~ waiting issues i) /\
  Forall (fun r => rw_Parent r = if bool_decide (length data <= 1000)%nat then pi_ParentID <$> par !! ID (rw_Issue r) else None) data.
Proof.
  intros Hq Hg Hh. unfold handleReady, over. rewrite Hq. unfold executeReadyRPC, Ready. rewrite Hg.
  destruct (readies _ _ _ _ Hh [] c args (talk_nil c) reads_nil) as (resp & c1 & E & Hd). rewrite E.
  destruct (answered _ _ _ _ E) as (r & [= <-] & Hs). rewrite Hs, Hd. cbn [negb].
  destruct (filterUnclosedBlockers (ready args) c1) as [l c2] eqn:Ef. pose proof (filterUnclosedBlockers_talk _ _ _ _ Ef) as Ht.
  assert (only_reads [OpReady args]) as Hr by by apply reads_one.
  pose proof (filterUnclosedBlockers_honest _ _ _ _ _ _ _ _ _ Hh (talk_one _ _ _ _ E) Hr Ef) as El. clear Ef.
  assert (forall i, i ∈ l <-> i ∈ ready args /\ ~ waiting (take 500 issues) i) as Hi.
  { intros i. rewrite El, list_elem_of_filter, <- hasUnclosedBlockers_spec, not_true_iff_false. naive_solver. }
  assert ((length issues <= 500)%nat -> forall i, i ∈ l -> ~ waiting issues i) as Hall.
  { intros Hl i [_ Hw]%Hi. by rewrite take_ge in Hw. }
  assert (l `sublist_of` ready args) as Hsub by (rewrite El; apply sublist_filter). clear El.
  destruct l as [|i l].
  - intros [= <- _]. split; [done|]. exists []. by split_and!.
  - unfold buildReadyResponse. set (L := i :: l) in *.
    destruct (parents _ _ _ _ Hh _ c2 (map ID L) (talk_app _ _ _ _ _ (talk_one _ _ _ _ E) Ht)) as [Hfew Hmany].
    { by repeat constructor. }
    rewrite length_map in Hfew, Hmany.
    destruct (decide (length L <= 1000)%nat) as [Hn|Hn].
    + destruct (Hfew Hn) as (m & c3 & Em & Hm). rewrite Em. intros [= <- _]. split; [done|]. exists (map (ready_issue m) L). split; [reflexivity|].
      rewrite map_map. cbn [rw_Issue ready_issue]. rewrite map_id. split_and!; try done.
      rewrite length_map, bool_decide_true by done. apply Forall_map, Forall_forall. intros j Hj. cbn [compose].
      by rewrite (ready_issue_parents par _ (map ID L)) by (try done; by apply list_elem_of_fmap_2).
    + destruct Hmany as (e & c3 & Em); [lia|]. rewrite Em. intros [= <- _]. split; [done|]. exists (map (ready_issue ∅) L). split; [reflexivity|].
      rewrite map_map. cbn [rw_Issue ready_issue]. rewrite map_id. split_and!; try done.
      rewrite length_map, bool_decide_false by done. apply Forall_map, Forall_forall. done.
Qed.

(** The batches together are one look-up of all identifiers. *)
Lemma get_parents_honest issues ready par c fuel : forall ids acc ops c1 m c2,
  honest issues ready par c -> talk c ops c1 -> only_reads ops -> (length ids <= fuel)%nat ->
  get_parents fuel ids acc c1 = (m, c2) ->
  forall id, m !! id = (if bool_decide (id ∈ ids) then par !! id else None) ∪ acc !! id.
Proof.
  induction fuel as [|fuel IH]; intros ids acc ops c1 m c2 Hh Ht Hr Hl; cbn [get_parents].
  { destruct ids; [|simpl in Hl; lia]. intros [= <- _] id. rewrite bool_decide_false by apply not_elem_of_nil. by destruct (acc !! id). }
  destruct ids as [|i ids]; [intros [= <- _] id; rewrite bool_decide_false by apply not_elem_of_nil; by destruct (acc !! id)|].
  set (L := i :: ids) in *. destruct (parents _ _ _ _ Hh ops c1 (take parentBatchSize L) Ht Hr) as [Hfew _].
  destruct Hfew as (b & c3 & Eb & Hb); [rewrite length_take; unfold parentBatchSize; lia|].
  pose proof Eb as Eb'. unfold GetParentIDs in Eb'. destruct (Execute _ c1) as [r c3'] eqn:Ex. injection Eb' as _ ->.
  rewrite Eb. intros Hg id.
  assert (m !! id = (if bool_decide (id ∈ drop parentBatchSize L) then par !! id else None) ∪ (b ∪ acc) !! id) as ->.
  { eapply (IH _ _ (ops ++ [OpGetParentIDs (mkGetParentIDsArgs (take parentBatchSize L))]) c3); [done|..|exact Hg].
    - eapply talk_app; [exact Ht|by eapply talk_one].
    - apply Forall_app_2; [done|by apply reads_one].
    - rewrite length_drop. unfold parentBatchSize, L in *. simpl in Hl |- *. lia. }
  rewrite lookup_union, Hb.
  assert (id ∈ L <-> id ∈ take parentBatchSize L \/ id ∈ drop parentBatchSize L) as HL by (rewrite <- elem_of_app, take_drop; done).
  destruct (decide (id ∈ drop parentBatchSize L)) as [Hd|Hd]; destruct (decide (id ∈ take parentBatchSize L)) as [Hk|Hk].
  all: repeat first [rewrite bool_decide_true by tauto | rewrite bool_decide_false by tauto].
  all: by destruct (par !! id), (acc !! id).
Qed.

Lemma blockers_spec (deps : list Dependency) issues (m : gmap string IssueWithCounts) :
  extractBlockerIDs (getUnclosedBlockerRefs deps (unclosed issues) m) = map d_DependsOnID (filter (fun d => blocks (unclosed issues) d = true) deps).
Proof.
  unfold extractBlockerIDs, getUnclosedBlockerRefs. rewrite map_map. apply map_ext. intros d. by destruct (m !! _).
Qed.

(** What a kanban card says of its issue. *)
Record card_right (issues : list Issue) (par : gmap string ParentInfo) (k : KanbanIssue) : Prop := {
  card_parent : ki_Parent k = pi_ParentID <$> par !! ID (iwc_Issue (ki_Issue k));
  card_blocked : ki_IsBlocked k = true <-> waiting issues (iwc_Issue (ki_Issue k));
  card_blockers : forall id, id ∈ ki_BlockedBy k <->
    exists d b, d ∈ Dependencies (iwc_Issue (ki_Issue k)) /\ waits_for issues d b /\ ID b = id;
  card_count : ki_BlockedByCount k = Z.of_nat (length (ki_BlockedBy k));
}.

Lemma kanban_card (par parents : gmap string ParentInfo) blocked issues m iwc :
  parents !! ID (iwc_Issue iwc) = par !! ID (iwc_Issue iwc) ->
  card_right issues par (kanban_issue parents blocked (Some (unclosed issues, m)) iwc) /\
  ki_Issue (kanban_issue parents blocked (Some (unclosed issues, m)) iwc) = iwc.
Proof.
  intros Hp. unfold kanban_issue. cbv zeta. rewrite Hp. set (refs := getUnclosedBlockerRefs _ _ _).
  assert (forall id, id ∈ extractBlockerIDs refs <-> exists d b, d ∈ Dependencies (iwc_Issue iwc) /\ waits_for issues d b /\ ID b = id) as Hids.
  { intros id. unfold refs. rewrite blockers_spec, list_elem_of_fmap. setoid_rewrite list_elem_of_filter. setoid_rewrite blocks_spec.
    split; [intros (d & -> & (b & Hb) & Hd)|intros (d & b & Hd & Hb & <-)]; [exists d, b|exists d]; split_and!; try done; [by destruct Hb as (_ & _ & E & _)|by destruct Hb as (_ & _ & E & _)|by exists b]. }
  assert (length refs = length (extractBlockerIDs refs)) as El by (unfold extractBlockerIDs; by rewrite length_map).
  destruct (extractBlockerIDs refs) as [|x ids] eqn:Ei.
  - rewrite El. split; [|done]. split; cbn; try done. split; [done|]. intros (d & b & Hd & Hb). exfalso.
    apply (not_elem_of_nil (ID b)), Hids. by exists d, b.
  - rewrite El. split; [|done]. split; cbn; [done| |done|done].
    split; [|done]. intros _. destruct (Hids x) as [Hx _]. destruct Hx as (d & b & Hd & Hb & _); [by left|]. by exists d, b.
Qed.

Lemma parents_of_honest issues ready par c ops c1 ids m c2 :
  honest issues ready par c -> talk c ops c1 -> only_reads ops -> parents_of ids c1 = (m, c2) ->
  (exists ops', talk c1 ops' c2 /\ only_reads ops') /\ forall id, id ∈ ids -> m !! id = par !! id.
Proof.
  intros Hh Ht Hr Hp. split; [by eapply get_parents_talk|]. intros id Hid.
  rewrite (get_parents_honest _ _ _ _ _ _ _ _ _ _ _ Hh Ht Hr (le_n _) Hp), bool_decide_true by done.
  rewrite lookup_empty. by destruct (par !! id).
Qed.

Lemma fetchUnclosed_honest issues ready par c ops c1 r c2 :
  honest issues ready par c -> talk c ops c1 -> only_reads ops -> fetchUnclosedIDSetAndMap c1 = (r, c2) ->
  exists m, r = Some (unclosed (take 1000 issues), m).
Proof.
  intros Hh Ht Hr. destruct (lists _ _ _ _ Hh _ _ MaxListLimit Ht Hr) as (resp & c3 & E & _ & counted & Hd & Hm); [done|].
  unfold fetchUnclosedIDSetAndMap, List_. rewrite E, (data_of_answer _ _ _ _ _ E), Hd. rewrite Hm. intros [= <- _]. by eexists.
Qed.

(** The issues of a list that [exclude_status] leaves. *)
Definition kept (kp : kanbanParams) (l : list IssueWithCounts) : list IssueWithCounts :=
  filter (fun i => Status (iwc_Issue i) ∉ ExcludeStatus kp) l.
Lemma exclude_kept kp l : exclude kp l = kept kp l.
Proof.
  unfold exclude, kept. destruct (ExcludeStatus kp) eqn:E; [|done]. cbn. symmetry. apply filter_all, Forall_forall. intros. apply not_elem_of_nil.
Qed.

(** Over a daemon that is reached, the board's list has the issues of the daemon's
    list without the excluded statuses; each card has its parent, however many
    cards there are, and is marked blocked exactly if its issue waits for one of
    the first 1000 issues of the daemon that is not closed, with exactly these as
    its blockers. *)
Theorem board_exact issues ready par q args kp p c p1 resp c1 l a p' :
  parseListParams time_Parse q = Ok args -> parseKanbanParams q = Ok kp -> IncludeBlocked kp = true ->
  pool_Get 5 p = (Ok c, p1) -> honest issues ready par c ->
  Execute (OpList args) c = ((Some resp, None), c1) -> read_counted (Rpc.Data resp) = Some l ->
  handleListIssues q (Some p) = (a, p') ->
  exists cards, a = encoded (marshal_kanban cards) /\ map ki_Issue cards = kept kp l /\ Forall (card_right (take 1000 issues) par) cards.
Proof.
  intros Hq Hk Hb Hg Hh E Hl. unfold handleListIssues, over. rewrite Hq, Hk. cbn [res_bind]. unfold pooled. rewrite Hg.
  unfold list_issues, List_. rewrite E. destruct (answered _ _ _ _ E) as (r & [= <-] & Hs). rewrite Hs, Hl. cbn [negb].
  rewrite exclude_kept. destruct (kept kp l) as [|i l'] eqn:Ek.
  { rewrite Hb. intros [= <- _]. exists []. by split_and!. }
  rewrite <- Ek. clear Ek i l'. unfold enriched. rewrite Hb.
  assert (only_reads [OpList args]) as Hr by by apply reads_one.
  destruct (parents_of _ c1) as [m c2] eqn:Ep. apply (parents_of_honest _ _ _ _ _ _ _ _ _ Hh (talk_one _ _ _ _ E) Hr) in Ep as [(ops & Ht & Hr2) Hm].
  destruct (blocked_map c2) as [b c3] eqn:Eb. apply blocked_map_talk in Eb.
  destruct (fetchUnclosedIDSetAndMap c3) as [f c4] eqn:Ef.
  apply (fetchUnclosed_honest _ _ _ _ _ _ _ _ Hh (talk_app _ _ _ _ _ (talk_one _ _ _ _ E) (talk_app _ _ _ _ _ Ht Eb))) in Ef as [im ->].
  2: { apply Forall_cons_2; [done|]. apply Forall_app_2; [done|by apply reads_one]. }
  intros [= <- _]. eexists. split; [reflexivity|].
  assert (forall i, i ∈ kept kp l -> card_right (take 1000 issues) par (kanban_issue m b (Some (unclosed (take 1000 issues), im)) i) /\
    ki_Issue (kanban_issue m b (Some (unclosed (take 1000 issues), im)) i) = i) as Hc.
  { intros i Hi. apply kanban_card, Hm. by apply (list_elem_of_fmap_2 (fun i => ID (iwc_Issue i))). }
  split.
  - rewrite map_map. rewrite <- (map_id (kept kp l)) at 2. apply map_ext_in. intros i Hi%list_elem_of_In. by apply Hc.
  - apply Forall_map, Forall_forall. intros i Hi. by apply Hc.
Qed.

(** ** The daemon's refusals *)

(** The handlers' own texts for changes of an issue and of its dependencies. *)
Definition own_errors : list string :=
  [""; "missing issue ID in path"; "missing issue ID"; "missing dependency ID"; "invalid request body"; "request body too large (max 1MB)";
   "connection pool not initialized"; "daemon not available"; "internal server error"; "depends_on_id is required";
   "cannot add self-dependency"]%string.

(** The answer says nothing of what the daemon said. *)
Definition own_words (a : answer) : Prop :=
  match a.2 with
  | IssuesBody r => is_Code r <> "DAEMON_ERROR"%string
  | PatchBody r => a.1 <> 409 /\ pt_Error r ∈ own_errors
  | DependencyBody r => dp_Error r ∈ own_errors
  | _ => True
  end.

Lemma own_text e : bool_decide (e ∈ own_errors) = true -> e ∈ own_errors.
Proof. apply bool_decide_eq_true. Qed.

Lemma decode_body_own {A} `{FleetApi.JsonBody A} text status message :
  FleetApi.decode_body (A := A) text = inr (status, message) -> (status = 400 \/ status = 413) /\ message ∈ own_errors.
Proof.
  unfold FleetApi.decode_body. destruct (FleetApi.first_value _); [done|intros [= <- <-]|].
  2: destruct (_ <? _); intros [= <- <-]. all: split; [auto|]; by apply own_text.
Qed.

(** A handler whose answers all have a property. *)
Lemma answering_over (R : answer -> Prop) u k p a p' :
  R u -> (forall p a p', k p = (a, p') -> R a) -> answering (over u k) p = (Some a, p') -> R a.
Proof.
  intros Hu Hk. unfold answering, over. destruct p as [p|]; [|by intros [= <- _]]. destruct (k p) as [a1 p1] eqn:E.
  intros [= <- _]. by eapply Hk.
Qed.
Lemma answering_early (R : answer -> Prop) (h : option P -> answer * option P) (b : bool) (a0 : answer) p a p' :
  R a0 -> (answering h p = (Some a, p') -> R a) -> answering (fun p => if b then (a0, p) else h p) p = (Some a, p') -> R a.
Proof. intros H0 Hh. destruct b; [|exact Hh]. unfold answering. by intros [= <- _]. Qed.
Lemma pooled_answer {A} (R : A -> Prop) t (failed : goerror -> A) k p a p' :
  (forall e, R (failed e)) -> (forall c a c', k c = (a, c') -> R a) -> pooled t failed k p = (a, p') -> R a.
Proof.
  intros Hf Hk. unfold pooled. destruct (pool_Get t p) as [[c|e] p1]; [|by intros [= <- _]].
  destruct (k c) as [a1 c1] eqn:E. intros [= <- _]. by eapply Hk.
Qed.

Lemma words_status_range w : words_status w = 404 \/ words_status w = 500.
Proof. unfold words_status. destruct (contains _ _); auto. Qed.

(** An answer made of a call's outcome. *)
Lemma outcome_answer (R : answer -> Prop) (f : Rpc.outcome -> answer) o (c : C) a c' :
  (forall r e, R (f (r, Some e))) -> (forall resp, Rpc.Success resp = true -> R (f (Some resp, None))) ->
  (let '(r, c) := Execute o c in (f r, c)) = (a, c') -> R a.
Proof.
  intros He Hs. destruct (Execute o c) as [[r [e|]] c1] eqn:E; intros [= <- _]; [by apply He|].
  destruct (answered _ _ _ _ E) as (resp & -> & H). by apply Hs.
Qed.

Lemma own_dep status m : bool_decide (m ∈ own_errors) = true -> own_words (dep_failed status m).
Proof. apply own_text. Qed.
Lemma own_patch status m : status <> 409 -> bool_decide (m ∈ own_errors) = true -> own_words (patch_failed status m).
Proof. intros Hs Hm. split; [done|by apply own_text]. Qed.
Lemma own_patch_words w : own_words (patch_failed (words_status w) "internal server error").
Proof. apply own_patch; [|done]. by destruct (words_status_range w) as [-> | ->]. Qed.
Lemma own_patch_pool e : own_words (patch_failed (pool_status e) "daemon not available").
Proof. apply own_patch; [|done]. unfold pool_status. by destruct (errors_is _ _). Qed.
Lemma own_unavailable e : own_words (unavailable e).
Proof. unfold unavailable. by destruct (errors_is _ _). Qed.
Lemma own_encoded data : own_words (encoded data).
Proof. by destruct data. Qed.
Lemma own_create st m : own_words (create_error st m).
Proof. unfold create_error, own_words. cbn. by destruct (st =? 413). Qed.

Ltac solve_own :=
  first [done | by apply own_dep | by apply own_patch_words | by apply own_patch_pool | by apply own_unavailable | by apply own_encoded
        | by apply own_create | by apply own_patch | by apply own_text].

(** The steps of a handler towards its answers. *)
Ltac own_pooled := let E := fresh "E" in
  first [ intros [= <- _]; solve_own
        | intros E; eapply pooled_answer; [..|exact E]; [intros ?; solve_own|]; intros ? ? ?; apply outcome_answer;
          [intros [?|] ?; solve_own | intros ? Hs; rewrite Hs; cbn [negb]; solve_own] ].

Lemma own_list args kp c a c' : list_issues args kp c = (a, c') -> own_words a.
Proof.
  unfold list_issues, List_. destruct (Execute _ c) as [[r [e|]] c1] eqn:E; [by destruct r; intros [= <- _]|].
  destruct (answered _ _ _ _ E) as (resp & -> & Hs). rewrite Hs. cbn [negb]. destruct (read_counted _) as [l|]; [|by intros [= <- _]].
  destruct (exclude kp l); [intros [= <- _]; solve_own|]. destruct (enriched _ _ _) as [data c2]. intros [= <- _]. solve_own.
Qed.

(** Since the client makes an error of every refusal, the daemon's own words for it
    are lost: whatever it answers, no answer over issues has the code DAEMON_ERROR,
    no update answers 409, which stands for a template, and the errors of updates
    and of dependencies are the handler's own texts. *)
Theorem refusals_masked r p a p' : serve r p = (Some a, p') -> own_words a.
Proof.
  destruct r as [id|q|text|id text|id text|id|id text|id text|id dep|q|q|q]; cbn [serve].
  - unfold handleGetIssue. destruct (bool_decide _); [by intros [= <- _]|]. destruct p as [p|]; [|done]. unfold over, pooled.
    destruct (pool_Get 5 p) as [[c|e] p1]; [|by intros [= <- _]]. unfold show_issue, Show.
    destruct (Execute _ c) as [[[resp|] [e|]] c1]; intros [= <- _]; try done; by destruct (contains _ _).
  - apply answering_over; [done|]. clear p a p'. intros p a p'. destruct (res_bind _ _) as [[args kp]|e]; [|by intros [= <- _]].
    apply pooled_answer; [intros e; solve_own|]. intros c ans c'. apply own_list.
  - apply answering_over; [done|]. clear p a p'. intros p a p'. destruct (FleetApi.decode_body text) as [req|[st m]].
    2: { intros [= <- _]. apply own_create. }
    destruct (validateCreateRequest req); own_pooled.
  - apply answering_over; [by apply own_patch|]. clear p a p'. intros p a p'. unfold validatePatchRequest.
    destruct (bool_decide _); [intros [= <- _]; by apply own_patch|]. destruct (FleetApi.decode_body text) as [req|[st m]] eqn:Ed; [own_pooled|].
    intros [= <- _]. destruct (decode_body_own _ _ _ Ed) as [[-> | ->] Hm]; by split.
  - apply answering_early; [done|]. destruct (match text with Some _ => _ | None => _ end) as [req|[st m]]; [|by intros [= <- _]].
    apply answering_over; [done|]. clear p a p'. intros p a p'. apply pooled_answer; [done|]. intros c ans c'. apply outcome_answer.
    + intros [?|] e; repeat (destruct (contains _ _); [done|]); done.
    + intros resp ->. done.
  - apply answering_early; [done|]. apply answering_over; [done|]. clear p a p'. intros p a p'. apply pooled_answer; [done|]. intros c ans c'.
    apply outcome_answer; [intros [?|] e; by destruct (contains _ _)|by intros resp ->].
  - apply answering_early; [done|]. apply answering_over; [done|]. clear p a p'. intros p a p'.
    destruct (FleetApi.first_value text) as [req| |]; [|by intros [= <- _]..]. cbv zeta. destruct (bool_decide _); [by intros [= <- _]|].
    destruct (maxCommentLength <? _); [by intros [= <- _]|]. apply pooled_answer; [done|]. intros c ans c'.
    apply outcome_answer; [by intros [?|] e|]. intros resp ->. cbn [negb]. by destruct (read_comment _).
  - apply answering_early; [by apply own_dep|]. apply answering_over; [by apply own_dep|]. clear p a p'. intros p a p'.
    destruct (FleetApi.decode_body text) as [req|[st m]] eqn:Ed; [|intros [= <- _]; by destruct (decode_body_own _ _ _ Ed)].
    destruct (bool_decide _); [own_pooled|]. destruct (bool_decide _); own_pooled.
  - apply answering_early; [by apply own_dep|]. apply answering_early; [by apply own_dep|]. apply answering_over; [by apply own_dep|].
    clear p a p'. intros p a p'. own_pooled.
  - unfold answering, handleReady, over. destruct p as [p|]; [|by intros [= <- _]]. destruct (parseReadyParams q); [|by intros [= <- _]].
    destruct (executeReadyRPC _ _) as [[[c l]|[st e]] p1]; [|by intros [= <- _]]. destruct l; [by intros [= <- _]|].
    destruct (buildReadyResponse _ _). by intros [= <- _].
  - apply answering_over; [done|]. clear p a p'. intros p a p'. destruct (parseBlockedParams q); [|by intros [= <- _]].
    apply pooled_answer; [done|]. intros c ans c'. apply outcome_answer; [by intros [?|] e|]. intros resp ->. cbn [negb]. by destruct (read_blocked _).
  - apply answering_over; [done|]. clear p a p'. intros p a p'. destruct (parseGraphParams q) as [st cl].
    destruct (negb (validStatuses st)); [by intros [= <- _]|]. apply pooled_answer; [done|]. intros c ans c'. unfold graph_issues.
    destruct (GetGraphData _ c) as [[l|e] c1]; by intros [= <- _].
Qed.

(** ** What is created *)
Definition valid_create (req : IssueCreateRequest) : Prop :=
  TrimSpace (ir_Title req) <> ""%string /\ ir_IssueType req ∈ ["bug"; "feature"; "task"; "epic"; "chore"]%string /\
  0 <= ir_Priority req <= 4 /\ (length (ir_Labels req) <= 50)%nat /\ (length (ir_Dependencies req) <= 100)%nat.

Lemma validateCreateRequest_spec req : validateCreateRequest req = None <-> valid_create req.
Proof.
  unfold validateCreateRequest, valid_create, validIssueTypes, maxLabels, maxDependencies.
  destruct (bool_decide_reflect (TrimSpace (ir_Title req) = "")); [naive_solver|].
  destruct (bool_decide_reflect (ir_IssueType req = "")) as [->|]; [split; [done|]; intros (_ & H & _); rewrite !elem_of_cons, elem_of_nil in H; naive_solver|].
  destruct (bool_decide_reflect (ir_IssueType req ∈ ["bug"; "feature"; "task"; "epic"; "chore"]%string)); cbn [negb]; [|naive_solver].
  destruct (Z.ltb_spec (ir_Priority req) 0); [split; [done|lia]|]. destruct (Z.ltb_spec 4 (ir_Priority req)); [split; [done|lia]|]. cbn [orb].
  destruct (Nat.ltb_spec 50 (length (ir_Labels req))); [split; [done|lia]|].
  destruct (Nat.ltb_spec 100 (length (ir_Dependencies req))); [split; [done|lia]|]. split; [|done]. intros _. split_and!; (done || lia).
Qed.

(** An issue is created exactly if the request is valid and the daemon does it, with
    the request's fields; an invalid one does not reach the pool. *)
Theorem create_functional text req p a p' :
  FleetApi.decode_body text = inl req -> handleCreateIssue text (Some p) = (a, p') ->
  (a.1 = 201 <-> valid_create req /\ exists c p1 resp c1, pool_Get 30 p = (Ok c, p1) /\ Execute (OpCreate (toCreateArgs req)) c = ((Some resp, None), c1)) /\
  (~ valid_create req -> a.1 = 400 /\ p' = Some p).
Proof.
  intros Hd. unfold handleCreateIssue, over. rewrite Hd. destruct (validateCreateRequest req) as [e|] eqn:Ev.
  - assert (~ valid_create req) as Hn by (by rewrite <- validateCreateRequest_spec, Ev). intros [= <- <-]. split; [split; [done|tauto]|done].
  - apply validateCreateRequest_spec in Ev. unfold pooled, create_issue, Create. destruct (pool_Get 30 p) as [[c|e] p1] eqn:Eg.
    + destruct (Execute _ c) as [[r [e|]] c1] eqn:E.
      * destruct r; intros [= <- _]; (split; [|done]; split; [done|]); intros (_ & c' & p1' & resp & c1' & [= <- <-] & E'); congruence.
      * destruct (answered _ _ _ _ E) as (resp & -> & Hs). rewrite Hs. intros [= <- _]. split; [|done]. split; [|done]. intros _.
        split; [done|]. by exists c, p1, resp, c1.
    + intros [= <- _]. split; [|done]. split; [unfold unavailable; by destruct (errors_is _ _)|]. by intros (_ & c' & p1' & resp & c1' & [=] & _).
Qed.
End handlers.

(** Without a pool the other handlers answer 503; the request for one issue panics. *)
Theorem get_panics_without_pool `{DaemonPool P C} `{DaemonClient C} (id : string) :
  id <> ""%string -> handleGetIssue (P := P) id None = (None, None).
Proof. intros Hid. unfold handleGetIssue. by rewrite bool_decide_false. Qed.

(** ** Witnesses

    A tracker is a text with a letter for each issue: [c] is closed, [o] open, [v]
    and [w] are open and wait for the issues bd-1 and bd-500. *)
Section witnesses.
Local Open Scope string_scope.

Definition waits_on (id : string) : list Dependency := [mkDep "" id "blocks" 0 "" "" ""].
Definition issue_of (n : nat) (l : ascii) : Issue :=
  mkIssue ("bd-" +:+ itoa (Z.of_nat n)) "" "t" "" "" "" "" (if bool_decide (l = "c"%char) then "closed" else "open") 2 "task" "" "" None 0 ""
    0 None "" "" None None None "" 0 None None 0 "" "" "" []
    (if bool_decide (l = "v"%char) then waits_on "bd-1" else if bool_decide (l = "w"%char) then waits_on "bd-500" else [])
    [] None "" "" "" "" false false false [] None [] None false "" "" 0 [] "" "" "" "" "" "" None "" "" "" "" "" "" "" "".
Fixpoint issues_of (n : nat) (t : string) : list Issue :=
  match t with EmptyString => [] | String l t => issue_of n l :: issues_of (S n) t end.

Lemma issues_of_take k n t : issues_of n (str_take k t) = take k (issues_of n t).
Proof. revert n t. induction k as [|k IH]; intros n [|l t]; [done..|]. simpl. by rewrite IH. Qed.

Definition demo_parent : gmap string ParentInfo := {["bd-0" := mkParentInfo "bd-9" "epic"]}.

(** Its daemon lists, calls its first issue ready, and refuses to write. *)
Definition demo_execute (o : op) (t : string) : Rpc.outcome * string :=
  let good data := (Some (Rpc.mkResponse true data ""), None) in
  (match o with
   | OpList a => good (if (la_Limit a =? 0)%Z then t else str_take (Z.to_nat (la_Limit a)) t)
   | OpReady _ => good (str_take 1 t)
   | OpGetParentIDs a =>
       if (1000 <? length (gp_IssueIDs a))%nat then (Some (Rpc.mkResponse false "" "too many"), Some (Msg "operation failed: too many"))
       else good (if bool_decide ("bd-0" ∈ gp_IssueIDs a) then "p" else "")
   | OpShow _ | OpBlocked _ | OpGetGraphData _ => good t
   | _ => (Some (Rpc.mkResponse false "" "cannot update template"), Some (Msg "operation failed: cannot update template"))
   end, t).
#[local] Instance demo_daemon : DaemonClient string.
Proof.
  refine {| Execute := demo_execute |}.
  - intros [] t r t'; unfold demo_execute; repeat case_match; intros [= <- <-]; by eexists.
  - intros [] t r e t'; unfold demo_execute; repeat case_match; intros [= <- <- <-]; done.
Defined.
#[local] Instance demo_json : AnswerJson := {|
  read_issues t := Some (issues_of 0 t);
  read_counted t := Some (map (fun i => mkCounted i 0 0) (issues_of 0 t));
  read_blocked _ := Some [];
  read_comment _ := None;
  read_parents t := Some (if bool_decide (t = "p") then demo_parent else ∅);
  read_graph _ := Some [];
|}.
#[local] Instance demo_list_json : ListJson := {|
  marshal_kanban cards := Ok (foldr (fun k t => String (if ki_IsBlocked k then "B"%char else "f"%char) t) "" cards);
  marshal_issues l := Ok (itoa (Z.of_nat (length l)));
|}.
(** A pool of idle connections. *)
#[local] Instance demo_pool : DaemonPool (list string) string := {|
  pool_Get _ p := match p with [] => (Err context_deadline_exceeded, []) | c :: p => (Ok c, p) end;
  pool_Put c p := c :: p;
|}.
#[local] Instance demo_patch : FleetApi.JsonBody PatchIssueRequest :=
  fun t => FleetApi.Value (mkPatchReq (Some t) None None None None None None None None None None [] [] [] None None None None).
#[local] Instance demo_create : FleetApi.JsonBody IssueCreateRequest :=
  fun t => FleetApi.Value (mkCreateReq t "task" 2 "" "" "" "" "" "" "" "" "" "" None [] [] "" "").
#[local] Instance demo_close : FleetApi.JsonBody CloseRequest := fun t => FleetApi.Value (mkCloseReq t "" false false).
#[local] Instance demo_dep : FleetApi.JsonBody AddDependencyRequest := fun t => FleetApi.Value (mkDepReq t "").
#[local] Instance demo_comment : FleetApi.JsonBody CommentRequest := fun t => FleetApi.Value (mkCommentReq t).

Lemma demo_talk t ops t' : talk t ops t' -> t' = t.
Proof. induction 1 as [|c o ops c' _ IH]; [done|]. by rewrite IH. Qed.

Lemma demo_honest t : honest (issues_of 0 t) (fun _ => issues_of 0 (str_take 1 t)) demo_parent t.
Proof.
  split.
  - intros ops t1 n ->%demo_talk _ Hn. cbn [Execute demo_daemon demo_execute]. unfold demo_execute. cbn [la_Limit list_up_to].
    rewrite (proj2 (Z.eqb_neq n 0)) by lia. eexists _, _. split; [reflexivity|]. cbn [read_issues read_counted demo_json Rpc.Data].
    rewrite issues_of_take. split; [done|]. eexists. split; [reflexivity|]. rewrite map_map. cbn. by rewrite map_id.
  - intros ops t1 args ->%demo_talk _. by eexists _, _.
  - intros ops t1 ids ->%demo_talk _. unfold GetParentIDs. cbn [Execute demo_daemon]. unfold demo_execute. cbn [gp_IssueIDs]. split; intros Hn.
    + rewrite (proj2 (Nat.ltb_ge _ _) Hn). exists (if bool_decide ("bd-0" ∈ ids) then demo_parent else ∅), t. split; [by destruct (bool_decide _)|].
      intros id. destruct (decide (id = "bd-0")) as [->|Hid]; [by destruct (bool_decide _)|].
      assert (demo_parent !! id = None) as -> by by apply lookup_singleton_ne. transitivity (None : option ParentInfo); [|by destruct (bool_decide _)].
      destruct (bool_decide _); [by apply lookup_singleton_ne|apply lookup_empty].
    + rewrite (proj2 (Nat.ltb_lt _ _) Hn). by eexists _, _.
Qed.

Definition no_time (layout v : string) : option Z := None.
Definition demo_serve (r : request) (p : list string) := serve no_time r (Some p).
Definition no_query : Values := ∅.
Definition board_query : Values := {["include_blocked" := ["true"]]}.

Lemma connections_given_back_witness :
  demo_serve (PatchIssue "bd-0" "new title") ["ov"] = (Some (patch_failed 500 "internal server error"), Some ["ov"]) /\
  exists ops q, Some ["ov"] = Some q /\ pool_use ["ov"] ops q /\ writes_once ops.
Proof.
  assert (demo_serve (PatchIssue "bd-0" "new title") ["ov"] = (Some (patch_failed 500 "internal server error"), Some ["ov"])) as E by (vm_compute; reflexivity).
  split; [exact E|]. exact (proj2 (connections_given_back no_time (PatchIssue "bd-0" "new title") ["ov"] _ _ E)).
Defined.

Lemma refusals_masked_witness :
  (forall title, (Execute (OpUpdate (patchRequestToUpdateArgs "bd-0" title)) "ov").1.2 = Some (Msg "operation failed: cannot update template")) /\
  own_words (patch_failed 500 "internal server error").
Proof.
  split; [reflexivity|].
  assert (demo_serve (PatchIssue "bd-0" "new title") ["ov"] = (Some (patch_failed 500 "internal server error"), Some ["ov"])) as E by (vm_compute; reflexivity).
  exact (refusals_masked no_time (PatchIssue "bd-0" "new title") (Some ["ov"]) _ _ E).
Defined.

Lemma demo_params : parseReadyParams no_query = Ok (mkReadyArgs "" false None "" 0 "" [] [] "" "" false).
Proof. vm_compute. reflexivity. Qed.

Lemma ready_exact_witness :
  exists data, map (fun r => (ID (rw_Issue r), rw_Parent r)) data = [("bd-0", Some "bd-9")] /\
  (forall i, i ∈ map rw_Issue data -> ~ waiting (issues_of 0 "ov") i).
Proof.
  destruct (handleReady no_query (Some ["ov"])) as [a p'] eqn:E.
  destruct (ready_exact (pool := demo_pool) _ _ _ no_query _ ["ov"] "ov" [] a p' demo_params eq_refl (demo_honest "ov") E) as (_ & data & Hd & _ & _ & Hw & _).
  exists data. split; [|apply Hw; simpl; lia].
  assert (ready_of (handleReady no_query (Some ["ov"])).1 = Some data) as E2 by (rewrite E; exact Hd).
  vm_compute in E2. injection E2 as <-. reflexivity.
Defined.

(** With 501 issues one that waits for the last of them is called ready. *)
Fixpoint open_issues (n : nat) : string := match n with O => "" | S n => String "o" (open_issues n) end.
Lemma ready_shows_blocked :
  let t := String "w" (open_issues 500) in
  exists a data i, (handleReady no_query (Some [t])).1 = a /\ ready_of a = Some data /\ i ∈ map rw_Issue data /\ waiting (issues_of 0 t) i.
Proof.
  cbv zeta. eexists _, [mkReadyIssue (issue_of 0 "w") (Some "bd-9") (Some "epic")], (issue_of 0 "w"). split; [reflexivity|].
  split; [vm_compute; reflexivity|]. split; [by left|]. exists (mkDep "" "bd-500" "blocks" 0 "" "" ""), (issue_of 500 "o").
  split; [by left|]. split; [reflexivity|]. split; [|by split]. apply list_elem_of_lookup. exists 500%nat. vm_compute. reflexivity.
Qed.

Lemma board_exact_witness :
  exists cards, encoded (marshal_kanban cards) = (200%Z, IssuesBody (mkIssuesResp true "ffBf" "" "")) /\
  Forall (card_right (take 1000 (issues_of 0 "oovc")) demo_parent) cards.
Proof.
  destruct (handleListIssues no_time board_query (Some ["oovc"])) as [a p'] eqn:E.
  destruct (board_exact (pool := demo_pool) no_time (issues_of 0 "oovc") (fun _ => issues_of 0 "o") demo_parent board_query (list_up_to 0) (mkKanban [] true) ["oovc"] "oovc" [] (Rpc.mkResponse true "oovc" "") "oovc"
    (map (fun i => mkCounted i 0 0) (issues_of 0 "oovc")) a p') as (cards & Ha & _ & Hc); try done; [apply (demo_honest "oovc")|].
  exists cards. split; [|exact Hc]. rewrite <- Ha.
  assert (a = (handleListIssues no_time board_query (Some ["oovc"])).1) as -> by (rewrite E; reflexivity). vm_compute. reflexivity.
Defined.
End witnesses.
End IssueApi.
