(* ===== verification/RateLimit.v ===== *)
(** * RateLimit: limits on requests, [internal/webui/fleet_ratelimit.go] and
    [ratelimit.go]

    [FleetLimit]: the sliding window that [FleetHandlers] asks before a worker
    registers, a sorted set of the times of requests in Redis, over [Net]. [IpLimit]:
    the middleware in front of all handlers, two token buckets for each address;
    the bucket of [golang.org/x/time/rate] is the class [Limiter]. *)
From S2P Require Import Prelude Redis Net.
Import Net.
Local Open Scope Z_scope.

(** ** [float64] of a time *)
Module Float.

(** [z] rounded to a multiple of [u], to even on a tie. *)
Definition round_to (u z : Z) : Z :=
  let q := z / u in
  let r := z mod u in
  if 2 * r <? u then q * u else if u <? 2 * r then (q + 1) * u else if Z.even q then q * u else (q + 1) * u.

(** The distance of the floats around [z]: 53 bits are kept. *)
Definition ulp (z : Z) : Z := 2 ^ Z.max 0 (Z.log2 z - 52).
Definition nat64 (z : Z) : Z := round_to (ulp z) z.
Definition f64 (z : Z) : Z := if z <? 0 then - nat64 (- z) else nat64 z.

Lemma ulp_pos z : 0 < ulp z.
Proof. unfold ulp. apply Z.pow_pos_nonneg; lia. Qed.

Lemma round_to_range u z : 0 < u -> (z / u) * u <= round_to u z <= (z / u + 1) * u.
Proof. intros Hu. unfold round_to. case_tests; nia. Qed.

Lemma round_to_mono u x y : 0 < u -> x <= y -> round_to u x <= round_to u y.
Proof.
  intros Hu Hxy. pose proof (Z.div_le_mono x y u Hu Hxy) as Hq.
  destruct (Z.eq_dec (x / u) (y / u)) as [E|E].
  - unfold round_to. rewrite E. pose proof (Z.div_mod x u ltac:(lia)). pose proof (Z.div_mod y u ltac:(lia)).
    assert (x mod u <= y mod u) by nia. case_tests; nia.
  - pose proof (round_to_range u x Hu). pose proof (round_to_range u y Hu). nia.
Qed.

Lemma round_to_multiple u m : 0 < u -> round_to u (m * u) = m * u.
Proof.
  intros Hu. unfold round_to. rewrite Z.div_mul, Z.mod_mul by lia. rewrite (proj2 (Z.ltb_lt (2 * 0) u)) by lia. done.
Qed.

Lemma ulp_multiple z k : 0 <= k -> Z.log2 z - 52 <= k -> exists m, 2 ^ k = m * ulp z.
Proof.
  intros Hk Hz. exists (2 ^ (k - Z.max 0 (Z.log2 z - 52))). unfold ulp. rewrite <- Z.pow_add_r by lia. f_equal. lia.
Qed.

Lemma nat64_mono x y : 0 <= x -> x <= y -> nat64 x <= nat64 y.
Proof.
  intros Hx Hxy. unfold nat64. destruct (Z.eq_dec (Z.log2 x) (Z.log2 y)) as [E|E].
  { unfold ulp. rewrite E. apply round_to_mono; [|done]. apply Z.pow_pos_nonneg; lia. }
  pose proof (Z.log2_le_mono x y Hxy) as Hl. assert (0 < y) as Hy.
  { destruct (Z.eq_dec y 0) as [->|]; [|lia]. replace x with 0 in E by lia. done. }
  pose proof (Z.log2_spec y Hy) as [Hy1 _]. pose proof (Z.log2_nonneg x).
  assert (x <= 2 ^ Z.log2 y) as Hx1.
  { destruct (Z.eq_dec x 0) as [->|]; [lia|]. pose proof (Z.log2_spec x ltac:(lia)) as [_ Hx2].
    pose proof (Z.pow_le_mono_r 2 (Z.succ (Z.log2 x)) (Z.log2 y)). lia. }
  transitivity (2 ^ Z.log2 y).
  - destruct (ulp_multiple x (Z.log2 y)) as [m Em]; [lia..|]. rewrite Em in Hx1 |- *. rewrite <- (round_to_multiple (ulp x) m) by apply ulp_pos.
    apply round_to_mono; [apply ulp_pos|done].
  - destruct (ulp_multiple y (Z.log2 y)) as [m Em]; [lia..|]. rewrite Em in Hy1 |- *. rewrite <- (round_to_multiple (ulp y) m) by apply ulp_pos.
    apply round_to_mono; [apply ulp_pos|done].
Qed.

(** How far a time below 2^62 moves. *)
Lemma f64_near z : 0 <= z < 2 ^ 62 -> z - 512 <= f64 z <= z + 512.
Proof.
  intros Hz. unfold f64. rewrite (proj2 (Z.ltb_ge z 0)) by lia. unfold nat64.
  assert (ulp z <= 512) as Hu.
  { unfold ulp. transitivity (2 ^ 9); [|lia]. apply Z.pow_le_mono_r; [lia|].
    destruct (Z.eq_dec z 0) as [->|]; [cbn; lia|]. pose proof (proj1 (Z.log2_lt_pow2 z 62 ltac:(lia)) ltac:(lia)). lia. }
  pose proof (ulp_pos z). pose proof (round_to_range (ulp z) z ltac:(done)). pose proof (Z.div_mod z (ulp z) ltac:(lia)).
  pose proof (Z.mod_pos_bound z (ulp z) ltac:(lia)). nia.
Qed.

Lemma nat64_nonneg z : 0 <= z -> 0 <= nat64 z.
Proof. intros Hz. exact (nat64_mono 0 z ltac:(lia) Hz). Qed.

(** Converting keeps the order of times. *)
Lemma f64_mono x y : x <= y -> f64 x <= f64 y.
Proof.
  intros Hxy. unfold f64. destruct (Z.ltb_spec x 0), (Z.ltb_spec y 0); [|..|by apply nat64_mono]; [|..|lia].
  - pose proof (nat64_mono (- y) (- x)). lia.
  - pose proof (nat64_nonneg (- x)). pose proof (nat64_nonneg y). lia.
Qed.
End Float.

Module FleetLimit.
Import Float.

Section limiter.
Context {redis : RedisServer}.

Record FleetRateLimiter := mkLimiter { limit : Z; window : Z }.
Definition redisKey (key : string) : string := "fleet:ratelimit:" +:+ key.

(** ** A pipeline: commands that are sent together

    Each is executed, also after an error reply; the first error is the
    pipeline's. Other clients' commands are taken not to come in between. *)
Fixpoint run_pipe (t : Z) (cs : list cmd) (d : db) : db * list reply :=
  match cs with
  | [] => (d, [])
  | c :: cs => let (d, r) := redis_exec t c d in let (d, rs) := run_pipe t cs d in (d, r :: rs)
  end.
Definition first_error (rs : list reply) : option goerror :=
  head (omap (fun r => match r with RError m => Some (Msg m) | _ => None end) rs).
Definition replies (rs : list reply) : res (list reply) :=
  match first_error rs with Some e => Err e | None => Ok rs end.

Definition pipe_trip (cs : list cmd) : IO (list reply) := fun w =>
  match w_net w with
  | [] => let (d, rs) := run_pipe (srv_ms w) cs (w_db w) in (mkWorld d (w_now w) (w_skew w) [] (w_brk w), replies rs)
  | tr :: net =>
      let now := w_now w + trip_delay tr in
      let d0 := run_others (now / ms) (trip_others tr) (w_db w) in
      match trip_fault tr with
      | None => let (d, rs) := run_pipe (now / ms) cs d0 in (mkWorld d now (w_skew w) net (w_brk w), replies rs)
      | Some (e, executed) =>
          (mkWorld (if executed then (run_pipe (now / ms) cs d0).1 else d0) now (w_skew w) net (w_brk w), Err e)
      end
  end.

(** ** [Allow] *)
Definition allow_pipe (rl : FleetRateLimiter) (key : string) (now : Z) : list cmd :=
  [ZREMRANGEBYSCORE (redisKey key) (f64 (now - window rl));
   ZCARD (redisKey key);
   ZADD (redisKey key) (f64 now) (itoa now);
   EXPIRE (redisKey key) (expire_ttl_ms (window rl))].
Definition countCmd (rs : list reply) : Z := match rs !! 1%nat with Some (RInt n) => n | _ => 0 end.

Definition Allow (rl : FleetRateLimiter) (key : string) : IO (bool * option goerror) :=
  now ← io_now;
  r ← io_try (pipe_trip (allow_pipe rl key now));
  match r with
  | Err e => mret (true, Some e)
  | Ok rs => mret (countCmd rs <? limit rl, None)
  end.

(** On an error the request is allowed. *)
Theorem Allow_fails_open rl key w w' r :
  Allow rl key w = (w', r) -> exists b e, r = Ok (b, e) /\ (e <> None -> b = true).
Proof.
  unfold Allow, io_try, mbind, IO_bind, io_now. destruct (pipe_trip _ w) as [w1 [rs|e]]; intros [= _ <-]; eexists _, _; by split.
Qed.

(** ** The window as a list of times

    Of the requests so far: their times that are kept, and until when (in the
    server's milliseconds). *)
Record window_state := mkWindow { times : list Z; until : Z }.

Definition recent (rl : FleetRateLimiter) (now : Z) (l : list Z) : list Z := filter (fun t => f64 (now - window rl) < f64 t) l.
Definition live (srv : Z) (s : window_state) : list Z := if srv <? until s then times s else [].
Definition request (rl : FleetRateLimiter) (now srv : Z) (s : window_state) : bool * window_state :=
  let l := recent rl now (live srv s) in
  (Z.of_nat (length l) <? limit rl,
   mkWindow (if bool_decide (now ∈ l) then l else l ++ [now]) (srv + expire_ttl_ms (window rl))).

Definition scores (l : list Z) : gmap string Z := list_to_map (map (fun t => (itoa t, f64 t)) l).

(** The key of the limiter shows the window. *)
Definition shows (key : string) (s : window_state) (srv : Z) (ks : keyspace) : Prop :=
  NoDup (live srv s) /\
  ks !! redisKey key = match live srv s with [] => None | l => Some (mkEntry (VZSet (scores l)) (Some (until s))) end.

Lemma scores_lookup l t : scores l !! itoa t = if bool_decide (t ∈ l) then Some (f64 t) else None.
Proof.
  induction l as [|t' l IH]; [by rewrite bool_decide_false by apply not_elem_of_nil|].
  change (<[itoa t' := f64 t']> (scores l) !! itoa t = if bool_decide (t ∈ t' :: l) then Some (f64 t) else None).
  destruct (decide (t' = t)) as [->|Hn].
  - rewrite lookup_insert_eq, bool_decide_true; [done|by left].
  - rewrite lookup_insert_ne by (intros E; apply Hn; by apply (inj pretty) in E). rewrite IH.
    apply (f_equal (fun b : bool => if b then Some (f64 t) else None)), bool_decide_ext. rewrite elem_of_cons. naive_solver.
Qed.

Lemma scores_cons t l : scores (t :: l) = <[itoa t := f64 t]> (scores l). Proof. done. Qed.

Lemma scores_size l : NoDup l -> size (scores l) = length l.
Proof.
  induction 1 as [|t l Ht Hl IH]; [done|]. rewrite scores_cons, map_size_insert_None; [by rewrite IH|].
  by rewrite scores_lookup, bool_decide_false.
Qed.

Lemma scores_filter m l : NoDup l -> filter (fun ms : string * Z => m < ms.2) (scores l) = scores (filter (fun t => m < f64 t) l).
Proof.
  induction 1 as [|t l Ht Hl IH]; [done|]. rewrite scores_cons.
  assert (scores l !! itoa t = None) as Hn by by rewrite scores_lookup, bool_decide_false.
  destruct (decide (m < f64 t)) as [Hm|Hm].
  - rewrite map_filter_insert_True by done. rewrite filter_cons_True by done. by rewrite scores_cons, IH.
  - rewrite map_filter_insert_not' by (try done; intros ?; by rewrite Hn). by rewrite filter_cons_False, IH.
Qed.

Lemma scores_snoc t l : <[itoa t := f64 t]> (scores l) = scores (if bool_decide (t ∈ l) then l else l ++ [t]).
Proof.
  destruct (bool_decide_reflect (t ∈ l)) as [Ht|Ht].
  - apply insert_id. by rewrite scores_lookup, bool_decide_true.
  - unfold scores. rewrite map_app. cbn [map]. rewrite list_to_map_snoc; [done|].
    intros ([x y] & E1 & (t' & [= E2 _] & Ht')%list_elem_of_fmap)%list_elem_of_fmap. simpl in E1. subst x.
    apply (inj pretty) in E2. by subst.
Qed.

(** The pipeline on the view. *)
Fixpoint pipe_ks (t : Z) (cs : list cmd) (ks : keyspace) : keyspace * list reply :=
  match cs with
  | [] => (ks, [])
  | c :: cs => let (ks, r) := doc_exec t c ks in let (ks, rs) := pipe_ks t cs ks in (ks, r :: rs)
  end.

Lemma run_pipe_view t cs d :
  view (run_pipe t cs d).1 t = (pipe_ks t cs (view d t)).1 /\ (run_pipe t cs d).2 = (pipe_ks t cs (view d t)).2.
Proof.
  revert d. induction cs as [|c cs IH]; intros d; [done|]. cbn [run_pipe pipe_ks].
  pose proof (exec_reply t c d) as Hr. pose proof (exec_view t c d) as Hv.
  destruct (redis_exec t c d) as [d1 r1], (doc_exec t c (view d t)) as [ks1 r2]. cbn in Hr, Hv. subst.
  destruct (IH d1) as [H1 H2]. destruct (run_pipe t cs d1), (pipe_ks t cs (view d1 t)). cbn in *. by subst.
Qed.

Lemma window_ttl rl : 0 < window rl -> 0 < expire_ttl_ms (window rl).
Proof.
  intros Hw. unfold expire_ttl_ms. rewrite (proj2 (Z.ltb_lt 0 _)) by done. cbn [andb].
  destruct (Z.ltb_spec (window rl) second) as [|Hs]; [lia|]. unfold second in *. pose proof (Z.quot_le_lower_bound (window rl) 1000000000 1). lia.
Qed.

(** The commands of a request do to the key what the window does. *)
Lemma allow_pipe_shows rl key now srv s ks :
  0 < window rl -> shows key s srv ks ->
  exists ks' z a, pipe_ks srv (allow_pipe rl key now) ks = (ks', [RInt z; RInt (Z.of_nat (length (recent rl now (live srv s)))); RInt a; RInt 1]) /\
  shows key (request rl now srv s).2 srv ks' /\ forall k, k <> redisKey key -> ks' !! k = ks !! k.
Proof.
  intros Hw [Hn Hk]. pose proof (window_ttl rl Hw) as Httl. remember (live srv s) as L eqn:EL0. remember (redisKey key) as k eqn:Ek.
  unfold allow_pipe. cbn [pipe_ks]. rewrite <- Ek.
  remember (recent rl now L) as R eqn:ER0. assert (NoDup R) as HR by (rewrite ER0; by apply NoDup_filter).
  assert (exists ks1 z, doc_exec srv (ZREMRANGEBYSCORE k (f64 (now - window rl))) ks = (ks1, RInt z) /\
    ks1 !! k = match R with [] => None | _ => Some (mkEntry (VZSet (scores R)) (Some (until s))) end /\ forall k', k' <> k -> ks1 !! k' = ks !! k')
    as (ks1 & z & -> & Hk1 & Ho1).
  { cbn [doc_exec]. rewrite Hk. destruct L as [|t l] eqn:EL; [exists ks, 0; by rewrite ER0|]. cbn [fmap option_fmap option_map ent_val]. rewrite <- EL in *.
    rewrite scores_filter by done. fold (recent rl now L). rewrite <- ER0. eexists _, _. split; [reflexivity|].
    clear ER0. destruct (decide (R = [])) as [->|HR0].
    - rewrite bool_decide_true by done. split; [apply lookup_delete_eq|intros; by apply lookup_delete_ne].
    - rewrite bool_decide_false. 2: { intros E. apply HR0. apply nil_length_inv. rewrite <- (scores_size R HR), E. apply map_size_empty. }
      split; [|intros; by apply lookup_insert_ne]. rewrite lookup_insert_eq. by destruct R. }
  assert (doc_exec srv (ZCARD k) ks1 = (ks1, RInt (Z.of_nat (length R)))) as ->.
  { cbn [doc_exec]. rewrite Hk1. destruct R as [|t l]; [done|]. cbn [fmap option_fmap option_map ent_val]. by rewrite scores_size. }
  set (R' := if bool_decide (now ∈ R) then R else R ++ [now]).
  assert (exists ks2 a, doc_exec srv (ZADD k (f64 now) (itoa now)) ks1 = (ks2, RInt a) /\
    (exists x, ks2 !! k = Some (mkEntry (VZSet (scores R')) x)) /\ forall k', k' <> k -> ks2 !! k' = ks1 !! k')
    as (ks2 & a & -> & [x Hk2] & Ho2).
  { cbn [doc_exec]. rewrite Hk1. unfold R'. destruct R as [|t l] eqn:ER.
    - eexists _, _. split; [reflexivity|]. split; [|intros; by apply lookup_insert_ne]. eexists. rewrite lookup_insert_eq.
      rewrite bool_decide_false by apply not_elem_of_nil. reflexivity.
    - cbn [fmap option_fmap option_map ent_val]. rewrite <- ER in *. eexists _, _. split; [reflexivity|]. split; [|intros; by apply lookup_insert_ne].
      eexists. rewrite lookup_insert_eq. by rewrite <- scores_snoc. }
  assert (doc_exec srv (EXPIRE k (expire_ttl_ms (window rl))) ks2 =
    (<[k := mkEntry (VZSet (scores R')) (Some (srv + expire_ttl_ms (window rl)))]> ks2, RInt 1)) as ->.
  { cbn [doc_exec]. rewrite Hk2. rewrite (proj2 (Z.leb_gt _ _)) by done. done. }
  eexists _, z, a. split; [reflexivity|]. split; [|intros k' Hk'; rewrite lookup_insert_ne by done; by rewrite Ho2, Ho1].
  assert (live srv (request rl now srv s).2 = R') as EL.
  { unfold live at 1, request. cbn. rewrite (proj2 (Z.ltb_lt _ _)) by lia. by rewrite <- EL0, <- ER0. }
  split; rewrite EL.
  - unfold R'. destruct (bool_decide_reflect (now ∈ R)); [done|]. apply NoDup_app. split; [done|]. split; [|apply NoDup_singleton].
    intros t Ht ->%list_elem_of_singleton. done.
  - rewrite <- Ek, lookup_insert_eq. assert (R' <> []) as HR'.
    { unfold R'. destruct (bool_decide_reflect (now ∈ R)) as [Hi|]; [by destruct R; [apply not_elem_of_nil in Hi|]|]. by destruct R. }
    assert (until (request rl now srv s).2 = srv + expire_ttl_ms (window rl)) as -> by done. by destruct R'.
Qed.

Lemma live_later srv srv' s : srv <= srv' -> live srv' s = live srv s \/ live srv' s = [].
Proof. intros H. unfold live. destruct (Z.ltb_spec srv' (until s)), (Z.ltb_spec srv (until s)); auto; lia. Qed.

(** Time removes the key when the window says so. *)
Lemma shows_later key s srv srv' ks : srv <= srv' -> shows key s srv ks -> shows key s srv' (expire_at srv' ks).
Proof.
  intros Hle [Hn Hk]. unfold shows. rewrite expire_at_lookup, Hk. unfold live in *.
  destruct (Z.ltb_spec srv' (until s)) as [H'|H'].
  - rewrite (proj2 (Z.ltb_lt srv (until s))) in Hn, Hk |- * by lia. split; [done|]. destruct (times s); [done|].
    unfold alive. cbn. by rewrite (proj2 (Z.ltb_lt _ _)).
  - split; [apply NoDup_nil_2|]. destruct (srv <? until s); [|done]. destruct (times s); [done|].
    unfold alive. cbn. by rewrite (proj2 (Z.ltb_ge _ _)).
Qed.

(** One call, at the client's time and the server's. *)
Lemma Allow_request rl key w s :
  0 < window rl -> w_net w = [] -> shows key s (srv_ms w) (now_view w) ->
  exists w', Allow rl key w = (w', Ok ((request rl (w_now w + w_skew w) (srv_ms w) s).1, None)) /\
  shows key (request rl (w_now w + w_skew w) (srv_ms w) s).2 (srv_ms w) (now_view w') /\
  w_net w' = [] /\ w_now w' = w_now w /\ w_skew w' = w_skew w /\ forall k, k <> redisKey key -> now_view w' !! k = now_view w !! k.
Proof.
  intros Hw Hq Hs. set (now := w_now w + w_skew w).
  destruct (allow_pipe_shows rl key now _ _ _ Hw Hs) as (ks & z & a & Ep & Hs' & Ho).
  destruct (run_pipe_view (srv_ms w) (allow_pipe rl key now) (w_db w)) as [Hv Hr]. fold (now_view w) in Hv, Hr. rewrite Ep in Hv, Hr. cbn [fst snd] in Hv, Hr.
  unfold Allow, io_now, io_try, mbind, IO_bind, pipe_trip. fold now. rewrite Hq. destruct (run_pipe _ _ _) as [d rs]. cbn [fst snd] in Hv, Hr. subst rs.
  cbn. eexists. split; [reflexivity|].
  unfold now_view, srv_ms in *. cbn. rewrite Hv. by split_and!.
Qed.

(** ** The limiter refines the window *)

(** Calls, each after a pause. *)
Fixpoint calls (rl : FleetRateLimiter) (key : string) (pauses : list Z) (w : world) : list bool :=
  match pauses with
  | [] => []
  | dt :: pauses =>
      let (w, r) := Allow rl key (wait dt w) in
      (match r with Ok (b, _) => b | Err _ => true end) :: calls rl key pauses w
  end.
Fixpoint requests (rl : FleetRateLimiter) (skew : Z) (pauses : list Z) (now : Z) (s : window_state) : list bool :=
  match pauses with
  | [] => []
  | dt :: pauses =>
      let (b, s) := request rl (now + dt + skew) ((now + dt) / ms) s in b :: requests rl skew pauses (now + dt) s
  end.

(** Over Redis, the limiter answers every sequence of a client's requests as the
    window does: a request is allowed exactly if fewer than the limit of the
    earlier ones, refused ones included, are younger than the window, where the
    server has forgotten all of them if the last is as old as the window in whole
    seconds. *)
Theorem limiter_refines_window rl key pauses w s :
  0 < window rl -> Forall (fun dt => 0 <= dt) pauses -> w_net w = [] -> shows key s (srv_ms w) (now_view w) ->
  calls rl key pauses w = requests rl (w_skew w) pauses (w_now w) s.
Proof.
  intros Hw Hp. revert w s. induction Hp as [|dt pauses Hdt Hp IH]; intros w s Hq Hs; [done|]. cbn [calls requests].
  assert (shows key s (srv_ms (wait dt w)) (now_view (wait dt w))) as Hs1.
  { rewrite wait_view by done. apply (shows_later _ _ (srv_ms w)); [|done]. unfold srv_ms, wait. cbn. apply Z.div_le_mono; unfold ms; lia. }
  destruct (Allow_request rl key (wait dt w) s Hw Hq Hs1) as (w' & -> & Hs2 & Hq2 & Hn2 & Hk2 & _).
  cbn [w_now w_skew wait srv_ms] in *. unfold srv_ms in *. cbn [w_now wait] in *.
  destruct (request rl (w_now w + dt + w_skew w) ((w_now w + dt) / ms) s) as [b s'] eqn:E. cbn [fst snd] in Hs2 |- *. f_equal.
  rewrite (IH w' s' Hq2); [|by rewrite Hn2]. by rewrite Hn2, Hk2.
Qed.

(** ** What the window promises *)

(** Of the times [h] of earlier requests, how many are after [from]. *)
Definition since (from : Z) (h : list Z) : Z := Z.of_nat (length (filter (fun t => from < t) h)).

(** Every answer fits the requests before it: one that allows has fewer than the
    limit in the last window less two milliseconds, one that refuses has the limit
    in the last window and two microseconds. *)
Fixpoint judged (rl : FleetRateLimiter) (skew : Z) (h : list Z) (pauses : list Z) (now : Z) (answers : list bool) : Prop :=
  match pauses, answers with
  | [], [] => True
  | dt :: pauses, b :: answers =>
      let n := now + dt + skew in
      (b = true -> since (n - window rl + 2 * ms) h < limit rl) /\
      (b = false -> limit rl <= since (n - window rl - 2000) h) /\
      judged rl skew (h ++ [n]) pauses (now + dt) answers
  | _, _ => False
  end.

(** What the window keeps of the times [h], the last of them at the client's time
    [now + skew]. *)
Record keeps (rl : FleetRateLimiter) (skew : Z) (h : list Z) (now : Z) (s : window_state) : Prop := {
  keeps_nodup : NoDup h;
  keeps_past : Forall (fun t => 0 <= t <= now + skew) h;
  keeps_some : forall t, t ∈ times s -> t ∈ h;
  keeps_set : NoDup (times s);
  keeps_young : forall t, t ∈ h -> now + skew - window rl + 2 * ms < t -> t ∈ times s;
  keeps_until : h <> [] -> now / ms + window rl / ms <= until s;
}.

Definition whole_seconds (rl : FleetRateLimiter) : Prop := exists n, 0 < n /\ window rl = n * second.

Lemma whole_ttl rl : whole_seconds rl -> expire_ttl_ms (window rl) = window rl / ms.
Proof.
  intros (n & Hn & ->). unfold expire_ttl_ms, second, ms. rewrite (proj2 (Z.ltb_lt 0 _)) by lia. rewrite (proj2 (Z.ltb_ge _ _)) by lia. cbn [andb].
  rewrite Z.quot_mul by lia. replace (n * 1000000000) with (n * 1000 * 1000000) by lia. rewrite Z.div_mul; lia.
Qed.

(** A time of the last window that the next request finds. *)
Lemma keeps_live rl skew h now s dt t :
  whole_seconds rl -> keeps rl skew h now s -> 0 < dt -> t ∈ h -> now + dt + skew - window rl + 2 * ms < t -> t ∈ live ((now + dt) / ms) s.
Proof.
  intros (k & Hk & Ek) H Hdt Ht Hy. unfold live.
  assert (t <= now + skew) as Hle by by apply (proj1 (Forall_forall _ _) (keeps_past _ _ _ _ _ H)).
  assert (h <> []) as Hne by (intros ->; by apply not_elem_of_nil in Ht).
  pose proof (keeps_until _ _ _ _ _ H Hne) as Hu. rewrite Ek in *. unfold second, ms in *.
  replace (k * 1000000000) with (k * 1000 * 1000000) in * by lia. rewrite Z.div_mul in Hu by lia.
  assert ((now + dt) / 1000000 < now / 1000000 + k * 1000) as Hm.
  { apply Z.div_lt_upper_bound; [lia|]. pose proof (Z.div_mod now 1000000 ltac:(lia)). pose proof (Z.mod_pos_bound now 1000000 ltac:(lia)). lia. }
  rewrite (proj2 (Z.ltb_lt _ _)) by lia. apply (keeps_young _ _ _ _ _ H); [done|]. rewrite Ek. unfold ms. lia.
Qed.

Lemma live_times srv s t : t ∈ live srv s -> t ∈ times s.
Proof. unfold live. destruct (_ <? _); [done|]. by intros ?%not_elem_of_nil. Qed.
Lemma live_nodup srv s : NoDup (times s) -> NoDup (live srv s).
Proof. intros H. unfold live. destruct (_ <? _); [done|apply NoDup_nil_2]. Qed.

Lemma length_subset (l k : list Z) : NoDup l -> (forall t, t ∈ l -> t ∈ k) -> (length l <= length k)%nat.
Proof. intros Hl Hs. apply submseteq_length, NoDup_submseteq; [done|exact Hs]. Qed.

Section one_request.
Context (rl : FleetRateLimiter) (skew : Z) (h : list Z) (now dt : Z) (s : window_state).
Let n := now + dt + skew.
Let m := (now + dt) / ms.
Let R := recent rl n (live m s).
Hypothesis Hw : whole_seconds rl.
Hypothesis Hk : keeps rl skew h now s.
Hypothesis Hdt : 0 < dt.
Hypothesis Hn : window rl <= n < 2 ^ 62.

Lemma past t : t ∈ h -> 0 <= t < n.
Proof. intros Ht. pose proof (proj1 (Forall_forall _ _) (keeps_past _ _ _ _ _ Hk) t Ht) as Hp. cbn in Hp. unfold n. lia. Qed.

Lemma recent_young t : t ∈ h -> n - window rl + 2 * ms < t -> t ∈ R.
Proof.
  intros Ht Hy. apply list_elem_of_filter. split; [|by eapply keeps_live].
  destruct Hw as (k & Hk0 & Ek). pose proof (past t Ht). pose proof (f64_near t ltac:(lia)). pose proof (f64_near (n - window rl)). unfold ms, second in *. lia.
Qed.

Lemma recent_old t : t ∈ R -> t ∈ h /\ n - window rl - 2000 < t.
Proof.
  intros [Hf Hl]%list_elem_of_filter. assert (t ∈ h) as Ht by by eapply (keeps_some _ _ _ _ _ Hk), live_times. split; [done|].
  destruct Hw as (k & Hk0 & Ek). pose proof (past t Ht). pose proof (f64_near t ltac:(lia)). pose proof (f64_near (n - window rl)). unfold second in *. lia.
Qed.

Lemma recent_nodup : NoDup R.
Proof. apply NoDup_filter, live_nodup, (keeps_set _ _ _ _ _ Hk). Qed.

Lemma judge_allow : Z.of_nat (length R) < limit rl -> since (n - window rl + 2 * ms) h < limit rl.
Proof.
  intros Hl. unfold since. assert (length (filter (fun t => (n - window rl + 2 * ms < t)%Z) h) <= length R)%nat; [|lia].
  apply length_subset; [apply NoDup_filter, (keeps_nodup _ _ _ _ _ Hk)|]. intros t [Hy Ht]%list_elem_of_filter. by apply recent_young.
Qed.
Lemma judge_refuse : limit rl <= Z.of_nat (length R) -> limit rl <= since (n - window rl - 2000) h.
Proof.
  intros Hl. unfold since. assert (length R <= length (filter (fun t => (n - window rl - 2000 < t)%Z) h))%nat; [|lia].
  apply length_subset; [apply recent_nodup|]. intros t Ht. destruct (recent_old t Ht). by apply list_elem_of_filter.
Qed.

Lemma keeps_request : keeps rl skew (h ++ [n]) (now + dt) (request rl n m s).2.
Proof.
  assert (n ∉ R) as HnR by (intros Hi; destruct (recent_old n Hi) as [Hh _]; pose proof (past n Hh); lia).
  unfold request. fold R. cbn [snd]. rewrite bool_decide_false by done. destruct Hw as (k & Hk0 & Ek). split; cbn [times until].
  - apply NoDup_app. split; [apply (keeps_nodup _ _ _ _ _ Hk)|]. split; [|apply NoDup_singleton].
    intros t Ht ->%list_elem_of_singleton. pose proof (past n Ht). lia.
  - apply Forall_app_2; [|apply Forall_cons_2; [unfold second in *; fold n; lia|by apply Forall_nil_2]].
    apply Forall_forall. intros t Ht. pose proof (past t Ht). fold n. lia.
  - intros t [Ht|Ht]%elem_of_app; apply elem_of_app; [left; by apply recent_old|by right].
  - apply NoDup_app. split; [apply recent_nodup|]. split; [|apply NoDup_singleton]. by intros t Ht ->%list_elem_of_singleton.
  - intros t [Ht|Ht]%elem_of_app Hy; apply elem_of_app; [left; by apply recent_young|by right].
  - intros _. fold m. rewrite (whole_ttl rl) by by exists k. lia.
Qed.
End one_request.

Lemma requests_judged rl skew pauses : whole_seconds rl -> Forall (fun dt => 0 < dt) pauses -> forall h now s,
  keeps rl skew h now s -> window rl <= now + skew -> now + skew + foldr Z.add 0 pauses < 2 ^ 62 ->
  judged rl skew h pauses now (requests rl skew pauses now s).
Proof.
  intros Hw Hp. induction Hp as [|dt pauses Hdt Hp IH]; intros h now s Hk Hlo Hhi; [done|]. cbn [requests judged foldr] in *.
  assert (0 <= foldr Z.add 0 pauses) as Hsum by (clear -Hp; induction Hp; simpl; lia).
  assert (window rl <= now + dt + skew < 2 ^ 62) as Hn by lia.
  pose proof (keeps_request rl skew h now dt s Hw Hk Hdt Hn) as Hk'. destruct (request rl (now + dt + skew) ((now + dt) / ms) s) as [b s'] eqn:E.
  assert (b = (Z.of_nat (length (recent rl (now + dt + skew) (live ((now + dt) / ms) s))) <? limit rl)) as -> by (unfold request in E; by injection E).
  cbn [judged snd] in *. split; [|split].
  - intros Hb%Z.ltb_lt. by apply (judge_allow rl skew h now dt s).
  - intros Hb%Z.ltb_ge. by apply (judge_refuse rl skew h now dt s).
  - apply IH; [done|lia..].
Qed.

(** A limiter whose window is a number of seconds, over Redis and for requests of a
    client at increasing times: a request is allowed only if fewer than the limit
    came before it in the window less two milliseconds, and refused only if as
    many as the limit did in the window and two microseconds, refused requests
    included. *)
Theorem rate_bounded rl key pauses w :
  whole_seconds rl -> Forall (fun dt => 0 < dt) pauses -> w_net w = [] -> now_view w !! redisKey key = None ->
  window rl <= w_now w + w_skew w -> w_now w + w_skew w + foldr Z.add 0 pauses < 2 ^ 62 ->
  judged rl (w_skew w) [] pauses (w_now w) (calls rl key pauses w).
Proof.
  intros Hw Hp Hq Hk Hlo Hhi.
  assert (live (srv_ms w) (mkWindow [] 0) = []) as El by (unfold live; by destruct (_ <? _)).
  rewrite (limiter_refines_window rl key pauses w (mkWindow [] 0)).
  - apply requests_judged; try done. split; cbn; try apply NoDup_nil_2; try by intros t ?%not_elem_of_nil. by apply Forall_nil_2. done.
  - destruct Hw as (k & Hk0 & ->). unfold second. lia.
  - eapply Forall_impl; [exact Hp|]. cbn. lia.
  - done.
  - split; rewrite El; [apply NoDup_nil_2|done].
Qed.
End limiter.

(** ** Witnesses *)
Section witnesses.
Local Existing Instance mem_redis.

Definition quiet_world : world := mkWorld (∅ : keyspace) 1700000000000000000 0 [] None.
Definition per_minute (n : Z) : FleetRateLimiter := mkLimiter n minute.

Lemma rate_bounded_witness :
  calls (per_minute 2) "10.0.0.1" [second; second; second; minute] quiet_world = [true; true; false; true] /\
  judged (per_minute 2) 0 [] [second; second; second; minute] 1700000000000000000 [true; true; false; true].
Proof.
  assert (calls (per_minute 2) "10.0.0.1" [second; second; second; minute] quiet_world = [true; true; false; true]) as E by (vm_compute; reflexivity).
  split; [exact E|]. rewrite <- E. apply (rate_bounded (per_minute 2) "10.0.0.1" [second; second; second; minute] quiet_world).
  - exists 60. split; [lia|reflexivity].
  - repeat (apply Forall_cons_2; [unfold minute, second; lia|]). apply Forall_nil_2.
  - reflexivity.
  - reflexivity.
  - cbn. unfold minute, second. lia.
  - cbn. unfold minute, second. lia.
Defined.

(** Refused requests count: a client that goes on asking every five seconds gets ten
    answers and none after them. *)
Lemma steady_client_starved : calls (per_minute 10) "10.0.0.1" (repeat (5 * second) 60) quiet_world = repeat true 10 ++ repeat false 50.
Proof. vm_compute. reflexivity. Qed.
End witnesses.
End FleetLimit.

Module IpLimit.

(** What the code relies on of a token bucket of so many a second and so many at
    once: one that was not used for as long as filling takes answers as a new one. *)
Class Limiter (L : Type) := {
  NewLimiter : Z -> Z -> L;
  Limiter_Allow : Z -> L -> bool * L;
  used : Z -> Z -> Z -> L -> Prop;
  used_new : forall r b t, used r b t (NewLimiter r b);
  used_allow : forall r b t now l, used r b t l -> t <= now -> used r b now (Limiter_Allow now l).2;
  refilled : forall r b t now l, used r b t l -> b * second <= (now - t) * r -> t <= now -> Limiter_Allow now l = Limiter_Allow now (NewLimiter r b);
}.

Record RateLimitConfig := mkConfig {
  ReadRate : Z; ReadBurst : Z; MutateRate : Z; MutateBurst : Z; CleanupInterval : Z; EntryTTL : Z;
}.
Definition DefaultRateLimitConfig : RateLimitConfig := mkConfig 100 200 20 40 (5 * minute) (10 * minute).

Definition isExcludedFromRateLimit (path : string) : bool :=
  bool_decide (path = "/health"%string) || bool_decide (path = "/api/health"%string).
Definition isMutatingMethod (method : string) : bool := bool_decide (method ∈ ["POST"; "PUT"; "PATCH"; "DELETE"]%string).

Section middleware.
Context {L : Type} {limiter : Limiter L} (config : RateLimitConfig).

Record ipLimiterEntry := mkEntry { readLimiter : L; mutateLimiter : L; lastSeen : Z }.
Abbreviation clients := (gmap string ipLimiterEntry).

Definition new_entry (now : Z) : ipLimiterEntry :=
  mkEntry (NewLimiter (ReadRate config) (ReadBurst config)) (NewLimiter (MutateRate config) (MutateBurst config)) (now / second).

Definition getOrCreate (now : Z) (ip : string) (m : clients) : ipLimiterEntry * clients :=
  match m !! ip with
  | Some e => (e, m)
  | None => (new_entry now, <[ip := new_entry now]> m)
  end.

(** [Retry-After] in seconds: the time of one token, rounded up. *)
Definition retryAfter (rate : Z) : Z := - (- 1 / rate).

Inductive verdict := Served | TooManyRequests (retry_after : Z).

Definition rate_limit (now : Z) (method path ip : string) (m : clients) : verdict * clients :=
  if isExcludedFromRateLimit path then (Served, m)
  else
    let '(e, m) := getOrCreate now ip m in
    let '(ok, e, rate) :=
      if isMutatingMethod method then
        let '(ok, l) := Limiter_Allow now (mutateLimiter e) in (ok, mkEntry (readLimiter e) l (now / second), MutateRate config)
      else
        let '(ok, l) := Limiter_Allow now (readLimiter e) in (ok, mkEntry l (mutateLimiter e) (now / second), ReadRate config) in
    (if ok : bool then Served else TooManyRequests (retryAfter rate), <[ip := e]> m).

Definition evictStale (now : Z) (m : clients) : clients :=
  filter (fun x => (now - EntryTTL config) / second <= lastSeen x.2) m.

(** ** What happens to the middleware *)
Inductive event := Request (now : Z) (method path ip : string) | Tick (now : Z).

Definition event_time (e : event) : Z := match e with Request now _ _ _ | Tick now => now end.

(** The answers to the requests of an address. *)
Fixpoint answers_to (x : string) (l : list event) (m : clients) : list verdict :=
  match l with
  | [] => []
  | Request now method path ip :: l =>
      let '(v, m) := rate_limit now method path ip m in
      if bool_decide (ip = x) then v :: answers_to x l m else answers_to x l m
  | Tick now :: l => answers_to x l (evictStale now m)
  end.

Definition from (x : string) (e : event) : bool := match e with Request _ _ _ ip => bool_decide (ip = x) | Tick _ => false end.

(** The buckets fill up while their entry is kept. *)
Definition fills : Prop :=
  0 <= ReadRate config /\ 0 <= MutateRate config /\
  ReadBurst config * second <= (EntryTTL config - second) * ReadRate config /\
  MutateBurst config * second <= (EntryTTL config - second) * MutateRate config.

(** Buckets that answer alike from now on. *)
Definition alike (t : Z) (l k : L) : Prop := forall now, t <= now -> Limiter_Allow now l = Limiter_Allow now k.
Definition entry_of (x : string) (m : clients) : ipLimiterEntry := default (new_entry 0) (m !! x).
Definition same_client (x : string) (t : Z) (m k : clients) : Prop :=
  alike t (readLimiter (entry_of x m)) (readLimiter (entry_of x k)) /\ alike t (mutateLimiter (entry_of x m)) (mutateLimiter (entry_of x k)).

(** The buckets of every entry were last used when it was last seen, or before. *)
Definition in_use (t : Z) (m : clients) : Prop := forall x e, m !! x = Some e -> exists tr tm,
  used (ReadRate config) (ReadBurst config) tr (readLimiter e) /\ used (MutateRate config) (MutateBurst config) tm (mutateLimiter e) /\
  tr / second <= lastSeen e /\ tm / second <= lastSeen e /\ tr <= t /\ tm <= t.

Lemma in_use_later t t' m : t <= t' -> in_use t m -> in_use t' m.
Proof. intros Ht H x e E. destruct (H x e E) as (tr & tm & ?). exists tr, tm. naive_solver lia. Qed.
Lemma alike_later t t' l k : t <= t' -> alike t l k -> alike t' l k.
Proof. intros Ht H now Hn. apply H. lia. Qed.
Lemma same_client_later x t t' m k : t <= t' -> same_client x t m k -> same_client x t' m k.
Proof. intros Ht [H1 H2]. split; by eapply alike_later. Qed.

Lemma in_use_evict t now m : in_use t m -> in_use t (evictStale now m).
Proof. intros H x e [E _]%map_lookup_filter_Some. by apply (H x). Qed.

Lemma evict_same x now m : fills -> in_use now m -> same_client x now (evictStale now m) m.
Proof.
  intros (Hr & Hm & Hfr & Hfm) Hu. unfold same_client, entry_of, evictStale.
  destruct (m !! x) as [e|] eqn:E.
  2: { rewrite (proj2 (map_lookup_filter_None _ _ _)) by by left. by split. }
  destruct (decide ((now - EntryTTL config) / second <= lastSeen e)) as [Hs|Hs].
  { rewrite (proj2 (map_lookup_filter_Some _ _ _ _)) by done. by split. }
  rewrite (proj2 (map_lookup_filter_None _ _ _)). 2: { right. intros e' E'. cbn. assert (e' = e) as -> by congruence. done. }
  destruct (Hu x e E) as (tr & tm & Hur & Hum & Hlr & Hlm & Htr & Htm). cbn [default].
  assert (forall t, t / second <= lastSeen e -> EntryTTL config - second <= now - t) as Hold.
  { intros t Ht. unfold second in *. pose proof (Z.div_mod t 1000000000 ltac:(lia)). pose proof (Z.mod_pos_bound t 1000000000 ltac:(lia)).
    pose proof (Z.div_mod (now - EntryTTL config) 1000000000 ltac:(lia)). pose proof (Z.mod_pos_bound (now - EntryTTL config) 1000000000 ltac:(lia)). lia. }
  split; intros now' Hn'; symmetry; cbn [readLimiter mutateLimiter new_entry].
  - apply (refilled _ _ tr); [done| |lia]. specialize (Hold tr Hlr). nia.
  - apply (refilled _ _ tm); [done| |lia]. specialize (Hold tm Hlm). nia.
Qed.

Lemma entry_of_new now x (m : gmap string ipLimiterEntry) : m !! x = None ->
  readLimiter (entry_of x m) = readLimiter (new_entry now) /\ mutateLimiter (entry_of x m) = mutateLimiter (new_entry now).
Proof. intros E. unfold entry_of. by rewrite E. Qed.

Lemma getOrCreate_entry now x m : readLimiter (getOrCreate now x m).1 = readLimiter (entry_of x m) /\
  mutateLimiter (getOrCreate now x m).1 = mutateLimiter (entry_of x m) /\
  (forall y, y <> x -> (getOrCreate now x m).2 !! y = m !! y).
Proof.
  unfold getOrCreate, entry_of. destruct (m !! x) as [e|]; [done|]. cbn. split_and!; try done. intros y Hy. by rewrite lookup_insert_ne.
Qed.

Lemma in_use_create now x t m : t <= now -> in_use t m -> in_use now (getOrCreate now x m).2 /\
  exists tr tm, used (ReadRate config) (ReadBurst config) tr (readLimiter (getOrCreate now x m).1) /\
    used (MutateRate config) (MutateBurst config) tm (mutateLimiter (getOrCreate now x m).1) /\ tr <= now /\ tm <= now.
Proof.
  intros Ht Hu. apply (in_use_later t now) in Hu; [|done]. unfold getOrCreate. destruct (m !! x) as [e|] eqn:E; cbn.
  - split; [done|]. destruct (Hu x e E) as (tr & tm & ?). exists tr, tm. naive_solver.
  - split; [|exists now, now; cbn; split_and!; [apply used_new..|lia|lia]]. intros y e. destruct (decide (y = x)) as [->|Hy].
    + rewrite lookup_insert_eq. intros [= <-]. exists now, now. cbn. split_and!; try apply used_new; lia.
    + rewrite lookup_insert_ne by done. apply Hu.
Qed.

(** A request of another address leaves the client alone; one of its own is
    answered alike and keeps it alike. *)
Lemma rate_limit_other x now method path ip m : ip <> x -> (rate_limit now method path ip m).2 !! x = m !! x.
Proof.
  intros Hx. unfold rate_limit. destruct (isExcludedFromRateLimit path); [done|].
  destruct (getOrCreate_entry now ip m) as (_ & _ & Ho). destruct (getOrCreate now ip m) as [e m1]. cbn [snd] in Ho.
  destruct (isMutatingMethod method); destruct (Limiter_Allow now _) as [ok l]; cbn; rewrite lookup_insert_ne by done; by apply Ho.
Qed.

Lemma entry_of_insert x e (m : gmap string ipLimiterEntry) : entry_of x (<[x := e]> m) = e.
Proof. unfold entry_of. by rewrite lookup_insert_eq. Qed.

Lemma rate_limit_own x now method path t m k : t <= now -> same_client x t m k ->
  (rate_limit now method path x m).1 = (rate_limit now method path x k).1 /\
  same_client x now (rate_limit now method path x m).2 (rate_limit now method path x k).2.
Proof.
  intros Ht Hs. apply (same_client_later x t now) in Hs; [|done]. unfold rate_limit. destruct (isExcludedFromRateLimit path); [done|].
  destruct (getOrCreate_entry now x m) as (Hr1 & Hm1 & _), (getOrCreate_entry now x k) as (Hr2 & Hm2 & _). destruct Hs as [Hr Hm].
  destruct (getOrCreate now x m) as [e1 m1], (getOrCreate now x k) as [e2 k1]. cbn [fst] in *.
  destruct (isMutatingMethod method).
  - rewrite Hm1, Hm2, (Hm now) by lia. destruct (Limiter_Allow now _) as [ok l]. cbn. split; [done|]. unfold same_client.
    rewrite !entry_of_insert. cbn. rewrite Hr1, Hr2. by split.
  - rewrite Hr1, Hr2, (Hr now) by lia. destruct (Limiter_Allow now _) as [ok l]. cbn. split; [done|]. unfold same_client.
    rewrite !entry_of_insert. cbn. rewrite Hm1, Hm2. by split.
Qed.

Lemma rate_limit_in_use now method path ip t m : t <= now -> in_use t m -> in_use now (rate_limit now method path ip m).2.
Proof.
  intros Ht Hu. unfold rate_limit. destruct (isExcludedFromRateLimit path); [by eapply in_use_later|].
  destruct (in_use_create now ip t m Ht Hu) as [Hu1 (tr & tm & Hr & Hm & Htr & Htm)]. destruct (getOrCreate now ip m) as [e m1]. cbn [fst snd] in *.
  assert (tr / second <= now / second /\ tm / second <= now / second) as [Hdr Hdm] by (split; apply Z.div_le_mono; unfold second; lia).
  destruct (isMutatingMethod method).
  - pose proof (used_allow _ _ _ now _ Hm Htm) as Hm'. destruct (Limiter_Allow now _) as [ok l]. cbn in *. intros y e'.
    destruct (decide (y = ip)) as [->|Hy]; [|rewrite lookup_insert_ne by done; apply Hu1]. rewrite lookup_insert_eq. intros [= <-]. exists tr, now. cbn. by split_and!.
  - pose proof (used_allow _ _ _ now _ Hr Htr) as Hr'. destruct (Limiter_Allow now _) as [ok l]. cbn in *. intros y e'.
    destruct (decide (y = ip)) as [->|Hy]; [|rewrite lookup_insert_ne by done; apply Hu1]. rewrite lookup_insert_eq. intros [= <-]. exists now, tm. cbn. by split_and!.
Qed.

Lemma answers_alike x l : fills -> forall t m k, Sorted Z.le (t :: map event_time l) -> in_use t m -> same_client x t m k ->
  answers_to x l m = answers_to x (filter (fun e => from x e = true) l) k.
Proof.
  intros Hf. induction l as [|e l IH]; intros t m k Ht Hu Hs; [done|]. cbn [map] in Ht.
  apply Sorted_inv in Ht as [Ht Hd]. apply HdRel_inv in Hd. destruct e as [now method path ip|now]; cbn [event_time] in *.
  - rewrite filter_cons. cbn [from answers_to]. pose proof (rate_limit_in_use now method path ip t m Hd Hu) as Hu'.
    destruct (bool_decide_reflect (ip = x)) as [->|Hx].
    + destruct (rate_limit_own x now method path t m k Hd Hs) as [Ev Hs']. cbn [answers_to].
      rewrite decide_True by done. cbn [answers_to]. rewrite bool_decide_true by done.
      destruct (rate_limit now method path x m) as [v m1], (rate_limit now method path x k) as [v2 k1]. cbn in *. subst v2. f_equal. by apply (IH now).
    + rewrite decide_False by done. pose proof (rate_limit_other x now method path ip m Hx) as Ho.
      destruct (rate_limit now method path ip m) as [v m1]. cbn in *. apply (IH now); [done|done|].
      unfold same_client, entry_of in *. rewrite Ho. by apply (same_client_later x t now m k).
  - rewrite filter_cons_False by done. cbn [answers_to]. apply (in_use_later t now) in Hu; [|done].
    apply (IH now); [done|by apply in_use_evict|]. apply (same_client_later x t now) in Hs; [|done].
    destruct (evict_same x now m Hf Hu) as [H1 H2], Hs as [H3 H4]. split; intros n Hn; [by rewrite H1, H3|by rewrite H2, H4].
Qed.

(** When buckets fill up while an entry is kept, as with the defaults, an address
    gets the answers that its own requests alone would get: neither other
    addresses nor the removal of entries make a difference. *)
Theorem addresses_independent x l :
  fills -> Sorted Z.le (map event_time l) -> answers_to x l ∅ = answers_to x (filter (fun e => from x e = true) l) ∅.
Proof.
  intros Hf Hs. destruct l as [|e l]; [done|]. apply (answers_alike x (e :: l) Hf (event_time e)).
  - cbn [map] in *. apply Sorted_cons; [done|]. by apply HdRel_cons.
  - intros y e' E. by rewrite lookup_empty in E.
  - by split.
Qed.
End middleware.

(** ** Witnesses: a bucket that counts in billionths of a token *)
Record bucket := mkBucket { b_rate : Z; b_burst : Z; b_fill : Z; b_last : option Z }.
Definition filled (now : Z) (l : bucket) : Z :=
  match b_last l with
  | None => b_burst l * second
  | Some t => Z.min (b_burst l * second) (b_fill l + Z.max 0 (now - t) * b_rate l)
  end.
Definition take_token (now : Z) (l : bucket) : bool * bucket :=
  let f := filled now l in
  if second <=? f then (true, mkBucket (b_rate l) (b_burst l) (f - second) (Some now)) else (false, mkBucket (b_rate l) (b_burst l) f (Some now)).
Definition bucket_used (r b t : Z) (l : bucket) : Prop :=
  b_rate l = r /\ b_burst l = b /\ (0 <= r -> 0 <= b -> match b_last l with None => True | Some t' => t' <= t /\ 0 <= b_fill l end).

#[local] Instance demo_bucket : Limiter bucket.
Proof.
  refine {| NewLimiter r b := mkBucket (Z.max 0 r) (Z.max 0 b) 0 None; Limiter_Allow := take_token;
            used r b := bucket_used (Z.max 0 r) (Z.max 0 b) |}.
  - intros r b t. by split_and!.
  - intros r b t now l (Hr & Hb & Hl) Ht. unfold take_token, filled. unfold bucket_used in *.
    destruct (second <=? _) eqn:E; cbn; (split_and!; [done|done|]); intros H1 H2; specialize (Hl H1 H2).
    + apply Z.leb_le in E. split; [lia|]. lia.
    + split; [lia|]. destruct (b_last l) as [t'|]; [|unfold second; lia]. unfold second. nia.
  - intros r b t now l (Hr & Hb & Hl) Hf Ht. assert (filled now l = Z.max 0 b * second) as E.
    { unfold filled. rewrite Hb. destruct (b_last l) as [t'|]; [|done]. destruct Hl as [Hl1 Hl2]; [lia..|]. rewrite Hr. unfold second in *.
      apply Z.min_l. nia. }
    unfold take_token. rewrite E, Hr, Hb. done.
Defined.

Definition strict_config : RateLimitConfig := mkConfig 1 2 1 1 (5 * minute) (10 * minute).
Definition at_second (n : Z) : Z := n * second.
Definition demo_events : list event :=
  [Request (at_second 1) "GET" "/api/issues" "a"; Request (at_second 1) "GET" "/api/issues" "b"; Request (at_second 1) "GET" "/api/issues" "a";
   Request (at_second 1) "GET" "/api/issues" "a"; Tick (at_second 700); Request (at_second 700) "GET" "/api/issues" "a"]%string.

Lemma addresses_independent_witness :
  answers_to strict_config "a" demo_events ∅ = [Served; Served; TooManyRequests 1; Served] /\
  answers_to strict_config "a" demo_events ∅ = answers_to strict_config "a" (filter (fun e => from "a" e = true) demo_events) ∅.
Proof.
  split; [vm_compute; reflexivity|]. apply (addresses_independent strict_config "a" demo_events).
  - unfold fills, strict_config, minute, second. cbn. lia.
  - repeat constructor; unfold at_second, second; cbn; lia.
Defined.
Lemma default_fills : fills DefaultRateLimitConfig.
Proof. unfold fills, DefaultRateLimitConfig, minute, second. cbn. lia. Qed.
End IpLimit.
