(* ===== verification/TabMeta.v ===== *)
(** * TabMeta: the tabs of terminals, [internal/webui/tabmeta/store.go] and
    [handlers_terminal_tabs.go]

    A hash in Redis for each terminal's label, notes and place, over [Net]. What
    SCAN answers during a call is an argument, as its batches of keys; the textual
    form of a time is the class [TimeText]. *)
From S2P Require Import Prelude Scanner Redis Net IssueTypes FleetStore FleetHandlers SseHub Terminal.
Import Net.
Local Open Scope Z_scope.

Module Tabs.
Import Fleet.
Local Open Scope string_scope.

Definition keyPrefix : string := "terminal:meta:".
Definition validSessionName : string -> bool := Terminal.Manager.validSessionName.

Record TabMetadata := mkTab {
  SessionName : string; Label : string; Notes : string; SortOrder : Z; CreatedAt : Z; UpdatedAt : Z;
}.

Definition metaKey (session : string) : string := keyPrefix +:+ session.

Definition ValidateSessionName (name : string) : option goerror :=
  if bool_decide (name = "") then Some (Msg "session name is required")
  else if negb (validSessionName name) then Some (Msg ("invalid session name " +:+ quote name +:+ ": must match [a-zA-Z0-9_-]+"))
  else None.

(** [Format(time.RFC3339)] of a time in UTC, and [time.Parse]: seconds are kept,
    up to the year 9999. *)
Class TimeText := {
  Format : Z -> string;
  Parse : string -> option Z;
  parse_format : forall t, (0 <= t < 253402300800 * second)%Z -> Parse (Format t) = Some (t / second * second)%Z;
}.

(** The zero [time.Time]. *)
Definition zero_time : Z := (-62135596800 * second)%Z.

Section store.
Context {redis : RedisServer} {times : TimeText} {sorting : SliceSort}.

Definition parse_time (vals : gmap string string) (field : string) : Z :=
  match vals !! field with Some v => default zero_time (Parse v) | None => zero_time end.

Definition parseMetadata (sessionName : string) (vals : gmap string string) : TabMetadata :=
  mkTab sessionName (default "" (vals !! "label")) (default "" (vals !! "notes"))
    (match vals !! "sort_order" with Some so => default 0%Z (atoi so) | None => 0%Z end)
    (parse_time vals "created_at") (parse_time vals "updated_at").

Definition HGetAll (key : string) : IO (gmap string string) :=
  r ← round_trip (one (HGETALL key)); mret (match r with RHash h => h | _ => ∅ end).

Definition Get (sessionName : string) : IO (option TabMetadata) :=
  io_check (ValidateSessionName sessionName);;
  vals ← wrap_err ("hgetall " +:+ sessionName +:+ ": ") (HGetAll (metaKey sessionName));
  mret (if bool_decide (vals = ∅) then None else Some (parseMetadata sessionName vals)).

(** ** The list *)

(** The tabs of a batch of keys; a key that fails or has gone is left out. *)
Fixpoint read_batch (keys : list string) : IO (list TabMetadata) :=
  match keys with
  | [] => mret []
  | key :: keys =>
      r ← io_try (HGetAll key);
      rest ← read_batch keys;
      mret (match r with
            | Ok vals => if bool_decide (vals = ∅) then rest else parseMetadata (str_drop (String.length keyPrefix) key) vals :: rest
            | Err _ => rest
            end)
  end.
(** The batches of a SCAN, the last of them with cursor 0. *)
Fixpoint read_batches (batches : list (list string)) : IO (list TabMetadata) :=
  match batches with
  | [] => mret []
  | keys :: batches =>
      keys ← wrap_err "scan: " (round_trip (LRet keys));
      l ← read_batch keys;
      rest ← read_batches batches;
      mret (l ++ rest)%list
  end.
Definition by_order (a b : TabMetadata) : bool := (SortOrder a <? SortOrder b)%Z.
Definition List_ (batches : list (list string)) : IO (list TabMetadata) :=
  result ← read_batches batches; mret (sort_slice by_order result).

(** ** Writing *)
Definition tab_fields (meta : TabMetadata) : list (string * string) :=
  [("label", Label meta); ("notes", Notes meta); ("sort_order", itoa (SortOrder meta));
   ("created_at", Format (CreatedAt meta)); ("updated_at", Format (UpdatedAt meta))].

Definition Set_ (meta : TabMetadata) : IO unit :=
  io_check (ValidateSessionName (SessionName meta));;
  wrap_err ("hset " +:+ SessionName meta +:+ ": ") (round_trip (one (HSET (metaKey (SessionName meta)) (tab_fields meta))));;
  mret tt.

Definition Patch (sessionName : string) (fields : gmap string string) : IO (option TabMetadata) :=
  io_check (ValidateSessionName sessionName);;
  let key := metaKey sessionName in
  exists_ ← wrap_err ("exists " +:+ sessionName +:+ ": ") (round_trip (one (EXISTS key)));
  if (match exists_ with RInt n => (n =? 0)%Z | _ => false end) then io_fail (Msg ("session " +:+ quote sessionName +:+ " not found"))
  else
    now ← io_now;
    let fields := <["updated_at" := Format now]> fields in
    wrap_err ("hset " +:+ sessionName +:+ ": ") (round_trip (one (HSET key (map_to_list fields))));;
    Get sessionName.

Definition Delete (sessionName : string) : IO unit :=
  io_check (ValidateSessionName sessionName);;
  wrap_err ("del " +:+ sessionName +:+ ": ") (round_trip (one (DEL (metaKey sessionName))));;
  mret tt.

Definition default_tab (now : Z) (session : string) (order : Z) : TabMetadata := mkTab session session "" order now now.

(** Records for the sessions that have none; one that cannot be written is left out. *)
Fixpoint add_defaults (now : Z) (existingSet : gset string) (activeSessions : list string) (maxOrder : Z) : IO (list TabMetadata) :=
  match activeSessions with
  | [] => mret []
  | session :: rest =>
      if bool_decide (session ∈ existingSet) then add_defaults now existingSet rest maxOrder
      else
        let maxOrder := inc64 maxOrder in
        let meta := default_tab now session maxOrder in
        r ← io_try (Set_ meta);
        l ← add_defaults now existingSet rest maxOrder;
        mret (match r with Ok _ => meta :: l | Err _ => l end)
  end.
Definition max_order (l : list TabMetadata) : Z := foldl (fun m t => if (m <? SortOrder t)%Z then SortOrder t else m) 0%Z l.

Definition EnsureDefaults (batches : list (list string)) (activeSessions : list string) : IO (list TabMetadata) :=
  existing ← List_ batches;
  now ← io_now;
  added ← add_defaults now (list_to_set (map SessionName existing)) activeSessions (max_order existing);
  mret (sort_slice by_order (existing ++ added)%list).

(** ** The handlers *)
Inductive tab_data := NoData | OneTab (t : TabMetadata) | AllTabs (l : list TabMetadata).
Record tabMetadataResponse := mkTabResp { tm_Success : bool; tm_Data : tab_data; tm_Error : string }.
Abbreviation answer := (Z * tabMetadataResponse * option Sse.MutationPayload)%type.
Definition tab_failed (status : Z) (message : string) : answer := (status, mkTabResp false NoData message, None).

Record tabPatchRequest := mkTabPatch { tp_Label : option string; tp_Notes : option string; tp_SortOrder : option Z }.
Context {patch_body : FleetApi.JsonBody tabPatchRequest}.

(** [sessions]: tmux's, when there is a manager. *)
Definition handleListTerminalTabs (store : bool) (sessions : option (res (list string))) (batches : list (list string)) : IO answer :=
  if negb store then mret (tab_failed 503 "tab metadata not available (no Redis)")
  else
    r ← io_try (EnsureDefaults batches (match sessions with Some (Ok l) => l | _ => [] end));
    mret (match r with
          | Err _ => tab_failed 500 "failed to list tab metadata"
          | Ok tabs => (200%Z, mkTabResp true (AllTabs tabs) "", None)
          end).

(** The checks before the other three: a store and a name. *)
Definition with_session (store : bool) (session : string) (k : IO answer) : IO answer :=
  if negb store then mret (tab_failed 503 "tab metadata not available (no Redis)")
  else match ValidateSessionName session with
       | Some e => mret (tab_failed 400 (error_text e))
       | None => k
       end.

Definition handleGetTerminalTab (store : bool) (session : string) : IO answer :=
  with_session store session (
    r ← io_try (Get session);
    mret (match r with
          | Err _ => tab_failed 500 "failed to get tab metadata"
          | Ok None => tab_failed 404 "tab metadata not found"
          | Ok (Some meta) => (200%Z, mkTabResp true (OneTab meta) "", None)
          end)).

(** What is broadcast after a change, when there is a hub. *)
Definition tab_event (hub : bool) (session : string) : IO (option Sse.MutationPayload) :=
  if hub then now ← io_now; mret (Some (Sse.mkPayload "terminal_metadata" session "" "" "" (Format now) "" "" "" 0)) else mret None.

Definition patch_fields (req : tabPatchRequest) : gmap string string :=
  let m := match tp_Label req with Some v => <["label" := v]> ∅ | None => ∅ end in
  let m := match tp_Notes req with Some v => <["notes" := v]> m | None => m end in
  match tp_SortOrder req with Some n => <["sort_order" := itoa n]> m | None => m end.

Definition handlePatchTerminalTab (store hub : bool) (session body : string) : IO answer :=
  with_session store session (
    match FleetApi.decode_body body with
    | inr _ => mret (tab_failed 400 "invalid request body")
    | inl req =>
        let fields := patch_fields req in
        if bool_decide (fields = ∅) then mret (tab_failed 400 "no fields to update")
        else
          r ← io_try (Patch session fields);
          match r with
          | Err e => mret (tab_failed (if contains (error_text e) "not found" then 404 else 500)%Z "failed to update tab metadata")
          | Ok meta =>
              event ← tab_event hub session;
              mret (200%Z, mkTabResp true (match meta with Some t => OneTab t | None => NoData end) "", event)
          end
    end).

Definition handleDeleteTerminalTab (store hub : bool) (session : string) : IO answer :=
  with_session store session (
    r ← io_try (Delete session);
    match r with
    | Err _ => mret (tab_failed 500 "failed to delete tab metadata")
    | Ok _ => event ← tab_event hub session; mret (200%Z, mkTabResp true NoData "", event)
    end).

(** ** On a quiet network *)

(** Only hashes are under the key. *)
Definition typed (ks : keyspace) (key : string) : Prop := forall e, ks !! key = Some e -> exists h, ent_val e = VHash h.
Definition hash_of (ks : keyspace) (key : string) : gmap string string :=
  match ent_val <$> ks !! key with Some (VHash h) => h | _ => ∅ end.

Lemma typed_hash ks key : typed ks key ->
  ks !! key = None /\ hash_of ks key = ∅ \/ exists e, ks !! key = Some e /\ ent_val e = VHash (hash_of ks key).
Proof.
  intros Ht. unfold hash_of. destruct (ks !! key) as [e|] eqn:E; [right|by left]. destruct (Ht e E) as [h Eh]. exists e. cbn. by rewrite Eh.
Qed.

Lemma HGetAll_quiet key w : w_net w = [] -> typed (now_view w) key ->
  exists w', HGetAll key w = (w', Ok (hash_of (now_view w) key)) /\ quiet_to w (now_view w) w'.
Proof.
  intros Hq Ht. destruct (round_trip_ok (one (HGETALL key)) w (now_view w) (RHash (hash_of (now_view w) key)) Hq) as (w' & E & H).
  { unfold one. cbn [run_ks doc_exec]. destruct (typed_hash _ _ Ht) as [[-> ->]|(e & -> & Ee)]; [done|]. cbn. by rewrite Ee. }
  exists w'. split; [|done]. unfold HGetAll. by rewrite (io_bind_ok _ _ _ _ _ E).
Qed.

Lemma Get_quiet name w : ValidateSessionName name = None -> w_net w = [] -> typed (now_view w) (metaKey name) ->
  exists w', Get name w = (w', Ok (if bool_decide (hash_of (now_view w) (metaKey name) = ∅) then None
                                  else Some (parseMetadata name (hash_of (now_view w) (metaKey name))))) /\ quiet_to w (now_view w) w'.
Proof.
  intros Hv Hq Ht. destruct (HGetAll_quiet _ w Hq Ht) as (w' & E & H). exists w'. split; [|done].
  unfold Get. rewrite io_check_none by done. by rewrite (io_bind_ok _ _ _ _ _ (wrap_err_ok _ _ _ _ _ E)).
Qed.

(** What a write leaves under its key. *)
Definition written (key : string) (fields : list (string * string)) (ks : keyspace) : keyspace :=
  <[key := mkEntry (VHash (hset (hash_of ks key) fields)) (keep_ttl (ks !! key))]> ks.

Lemma Set_quiet meta w : ValidateSessionName (SessionName meta) = None -> w_net w = [] -> typed (now_view w) (metaKey (SessionName meta)) ->
  exists w', Set_ meta w = (w', Ok tt) /\ quiet_to w (written (metaKey (SessionName meta)) (tab_fields meta) (now_view w)) w'.
Proof.
  intros Hv Hq Ht. set (key := metaKey (SessionName meta)) in *.
  destruct (round_trip_ok (one (HSET key (tab_fields meta))) w (written key (tab_fields meta) (now_view w)) (RInt 5) Hq) as (w' & E & H).
  { unfold one, written. cbn [run_ks doc_exec]. destruct (typed_hash _ _ Ht) as [[-> ->]|(e & -> & Ee)]; [done|]. cbn. by rewrite Ee. }
  exists w'. split; [|done]. unfold Set_. rewrite io_check_none by done. fold key. by rewrite (io_bind_ok _ _ _ _ _ (wrap_err_ok _ _ _ _ _ E)).
Qed.

Lemma hash_of_written key fields ks : hash_of (written key fields ks) key = hset (hash_of ks key) fields.
Proof. unfold hash_of at 1, written. by rewrite lookup_insert_eq. Qed.
Lemma written_other key key' fields ks : key' <> key -> written key fields ks !! key' = ks !! key'.
Proof. intros H. unfold written. by rewrite lookup_insert_ne. Qed.

(** A tab as it comes back: times in whole seconds. *)
Definition read_back (meta : TabMetadata) : TabMetadata :=
  mkTab (SessionName meta) (Label meta) (Notes meta) (SortOrder meta) (CreatedAt meta / second * second) (UpdatedAt meta / second * second).
Definition printable (t : Z) : Prop := (0 <= t < 253402300800 * second)%Z.

Lemma parse_written h meta : in_int64 (SortOrder meta) -> printable (CreatedAt meta) -> printable (UpdatedAt meta) ->
  parseMetadata (SessionName meta) (hset h (tab_fields meta)) = read_back meta.
Proof.
  intros Ho Hc Hu. unfold parseMetadata, parse_time, hset, tab_fields, read_back. cbn [foldl fst snd].
  rewrite !(lookup_insert_ne _ "updated_at"), lookup_insert_eq by done. rewrite !(lookup_insert_ne _ "created_at"), lookup_insert_eq by done.
  rewrite !(lookup_insert_ne _ "sort_order"), lookup_insert_eq by done. rewrite !(lookup_insert_ne _ "notes"), lookup_insert_eq by done.
  rewrite lookup_insert_eq, atoi_itoa, bool_decide_true, !parse_format by done. done.
Qed.

Lemma hset_fields_nonempty h meta : hset h (tab_fields meta) <> ∅.
Proof. intros E. assert (hset h (tab_fields meta) !! "updated_at" = None) as H by (rewrite E; apply lookup_empty). unfold hset, tab_fields in H. cbn in H. by rewrite lookup_insert_eq in H. Qed.

(** A tab that was written is read back with its times in whole seconds, whatever was
    under its name before, and no other key changes. *)
Theorem tab_read_back meta w :
  ValidateSessionName (SessionName meta) = None -> in_int64 (SortOrder meta) -> printable (CreatedAt meta) -> printable (UpdatedAt meta) ->
  w_net w = [] -> typed (now_view w) (metaKey (SessionName meta)) ->
  exists w1 w2, Set_ meta w = (w1, Ok tt) /\ Get (SessionName meta) w1 = (w2, Ok (Some (read_back meta))) /\
  forall key, key <> metaKey (SessionName meta) -> now_view w2 !! key = now_view w !! key.
Proof.
  intros Hv Ho Hc Hu Hq Ht. destruct (Set_quiet meta w Hv Hq Ht) as (w1 & E1 & H1).
  assert (typed (now_view w1) (metaKey (SessionName meta))) as Ht1.
  { rewrite (qt_view _ _ _ H1). intros e. unfold written. rewrite lookup_insert_eq. intros [= <-]. by eexists. }
  destruct (Get_quiet (SessionName meta) w1 Hv (qt_net _ _ _ H1) Ht1) as (w2 & E2 & H2).
  exists w1, w2. split; [done|]. rewrite (qt_view _ _ _ H1), hash_of_written, bool_decide_false, parse_written in E2 by (try done; apply hset_fields_nonempty).
  split; [done|]. intros key Hk. rewrite (qt_view _ _ _ H2), (qt_view _ _ _ H1). by apply written_other.
Qed.

(** ** Every session has one tab *)
Definition session_of (key : string) : string := str_drop (String.length keyPrefix) key.
Lemma session_metaKey name : session_of (metaKey name) = name.
Proof. apply str_drop_append. Qed.

(** The tabs under keys. *)
Definition stored (ks : keyspace) (keys : list string) : list TabMetadata :=
  omap (fun key => if bool_decide (hash_of ks key = ∅) then None else Some (parseMetadata (session_of key) (hash_of ks key))) keys.

Lemma quiet_step {A B} (m : IO A) (f : A -> IO B) w a w1 ks b :
  m w = (w1, Ok a) -> quiet_to w (now_view w) w1 ->
  (forall w2, quiet_to w (now_view w) w2 -> exists w3, f a w2 = (w3, Ok b) /\ quiet_to w2 ks w3) ->
  exists w3, (m ≫= f) w = (w3, Ok b) /\ quiet_to w ks w3.
Proof.
  intros E H1 Hf. rewrite (io_bind_ok _ _ _ _ _ E). destruct (Hf w1 H1) as (w3 & E3 & H3). exists w3. split; [done|by eapply quiet_trans].
Qed.

Lemma read_batch_quiet keys w : w_net w = [] -> Forall (typed (now_view w)) keys ->
  exists w', read_batch keys w = (w', Ok (stored (now_view w) keys)) /\ quiet_to w (now_view w) w'.
Proof.
  intros Hq Hk. remember (now_view w) as ks eqn:Eks. revert w Hq Eks. induction Hk as [|key keys Ht Hk IH]; intros w Hq ->.
  { exists w. split; [done|by apply quiet_refl]. }
  destruct (HGetAll_quiet key w Hq Ht) as (w1 & E1 & H1). destruct (IH w1 (qt_net _ _ _ H1)) as (w2 & E2 & H2); [by rewrite (qt_view _ _ _ H1)|].
  exists w2. split; [|by eapply quiet_trans]. cbn [read_batch]. rewrite (io_bind_ok _ _ _ _ _ (io_try_ok _ _ _ _ E1)), (io_bind_ok _ _ _ _ _ E2).
  unfold mret, IO_ret, stored. cbn [omap list_omap]. by destruct (bool_decide _).
Qed.

Lemma stored_app ks l k : stored ks (l ++ k) = (stored ks l ++ stored ks k)%list.
Proof. apply omap_app. Qed.

Lemma read_batches_quiet batches w : w_net w = [] -> Forall (typed (now_view w)) (concat batches) ->
  exists w', read_batches batches w = (w', Ok (stored (now_view w) (concat batches))) /\ quiet_to w (now_view w) w'.
Proof.
  intros Hq Hk. remember (now_view w) as ks eqn:Eks. revert w Hq Eks. induction batches as [|keys batches IH]; intros w Hq ->.
  { exists w. split; [done|by apply quiet_refl]. }
  cbn [concat] in Hk. apply Forall_app in Hk as [Hk1 Hk2].
  destruct (round_trip_ok (LRet keys) w (now_view w) keys Hq eq_refl) as (w0 & E0 & H0).
  destruct (read_batch_quiet keys w0 (qt_net _ _ _ H0)) as (w1 & E1 & H1); [by rewrite (qt_view _ _ _ H0)|]. rewrite (qt_view _ _ _ H0) in E1, H1.
  destruct (IH Hk2 w1 (qt_net _ _ _ H1)) as (w2 & E2 & H2); [by rewrite (qt_view _ _ _ H1)|].
  exists w2. split; [|eapply quiet_trans; [exact H0|by eapply quiet_trans]]. cbn [read_batches concat].
  rewrite (io_bind_ok _ _ _ _ _ (wrap_err_ok _ _ _ _ _ E0)), (io_bind_ok _ _ _ _ _ E1), (io_bind_ok _ _ _ _ _ E2). by rewrite stored_app.
Qed.

(** The new tabs and what they leave in the store. *)
Fixpoint new_tabs (now : Z) (known : gset string) (active : list string) (order : Z) : list TabMetadata :=
  match active with
  | [] => []
  | s :: rest => if bool_decide (s ∈ known) then new_tabs now known rest order
                 else default_tab now s (inc64 order) :: new_tabs now known rest (inc64 order)
  end.
Definition write_tabs (l : list TabMetadata) (ks : keyspace) : keyspace :=
  foldl (fun ks t => written (metaKey (SessionName t)) (tab_fields t) ks) ks l.

Lemma typed_written key key' fields ks : typed ks key' -> typed (written key fields ks) key'.
Proof.
  intros Ht e. unfold written. destruct (decide (key' = key)) as [->|Hk]; [rewrite lookup_insert_eq; intros [= <-]; by eexists|].
  rewrite lookup_insert_ne by done. apply Ht.
Qed.

Lemma add_defaults_quiet now known active : forall order w,
  w_net w = [] -> Forall (fun s => ValidateSessionName s = None /\ typed (now_view w) (metaKey s)) active ->
  exists w', add_defaults now known active order w = (w', Ok (new_tabs now known active order)) /\
  quiet_to w (write_tabs (new_tabs now known active order) (now_view w)) w'.
Proof.
  induction active as [|s active IH]; intros order w Hq Ha; [exists w; split; [done|by apply quiet_refl]|].
  apply Forall_cons in Ha as [[Hv Ht] Ha]. cbn [add_defaults new_tabs]. destruct (bool_decide (s ∈ known)); [by apply IH|]. cbv zeta.
  set (meta := default_tab now s (inc64 order)). destruct (Set_quiet meta w Hv Hq Ht) as (w1 & E1 & H1).
  destruct (IH (inc64 order) w1 (qt_net _ _ _ H1)) as (w2 & E2 & H2).
  { eapply Forall_impl; [exact Ha|]. cbn. intros s' [Hv' Ht']. split; [done|]. rewrite (qt_view _ _ _ H1). by apply typed_written. }
  exists w2. rewrite (io_bind_ok _ _ _ _ _ (io_try_ok _ _ _ _ E1)), (io_bind_ok _ _ _ _ _ E2). split; [done|].
  rewrite (qt_view _ _ _ H1) in H2. by eapply quiet_trans.
Qed.

Lemma new_tabs_names now known active order : map SessionName (new_tabs now known active order) = filter (fun s => s ∉ known) active.
Proof.
  revert order. induction active as [|s active IH]; intros order; [done|]. cbn [new_tabs]. destruct (bool_decide_reflect (s ∈ known)).
  - rewrite filter_cons_False by tauto. apply IH.
  - rewrite filter_cons_True by done. cbn. by rewrite IH.
Qed.

(** Their places, one after the other. *)
Lemma new_tabs_orders now known active order : (min_int64 <= order)%Z -> (order + Z.of_nat (length active) <= max_int64)%Z ->
  forall i t, new_tabs now known active order !! i = Some t -> SortOrder t = (order + Z.of_nat i + 1)%Z.
Proof.
  revert order. induction active as [|s active IH]; intros order Hlo Hhi i t; [done|]. cbn [new_tabs length] in *.
  destruct (bool_decide (s ∈ known)); [apply IH; lia|]. assert (inc64 order = order + 1)%Z as -> by (apply inc64_id; lia).
  destruct i as [|i]; [intros [= <-]; cbn; lia|]. cbn [lookup list_lookup]. intros E. apply IH in E; lia.
Qed.

Lemma stored_cons ks key keys : hash_of ks key <> ∅ ->
  stored ks (key :: keys) = parseMetadata (session_of key) (hash_of ks key) :: stored ks keys.
Proof. intros Hk. unfold stored. cbn [omap list_omap]. by rewrite bool_decide_false. Qed.
Lemma stored_names ks keys : Forall (fun key => hash_of ks key <> ∅) keys -> map SessionName (stored ks keys) = map session_of keys.
Proof. induction 1 as [|key keys Hk _ IH]; [done|]. rewrite stored_cons by done. cbn [map]. by rewrite IH. Qed.

Lemma max_order_spec l : (0 <= max_order l)%Z /\ Forall (fun t => SortOrder t <= max_order l)%Z l.
Proof.
  unfold max_order. assert (forall m, (m <= foldl (fun m t => if (m <? SortOrder t)%Z then SortOrder t else m) m l)%Z /\
    Forall (fun t => SortOrder t <= foldl (fun m t => if (m <? SortOrder t)%Z then SortOrder t else m) m l)%Z l) as H; [|by apply H].
  induction l as [|t l IH]; intros m; cbn [foldl]; [split; [lia|by apply Forall_nil_2]|].
  destruct (IH (if (m <? SortOrder t)%Z then SortOrder t else m)) as [H1 H2].
  destruct (Z.ltb_spec m (SortOrder t)); (split; [lia|]); (apply Forall_cons_2; [lia|done]).
Qed.

Lemma by_order_weak : strict_weak by_order.
Proof. unfold strict_weak, by_order. split_and!; intros; rewrite ?Z.ltb_lt, ?Z.ltb_ge in *; lia. Qed.

Lemma metaKey_inj a b : metaKey a = metaKey b -> a = b.
Proof. intros E. rewrite <- (session_metaKey a), <- (session_metaKey b). by rewrite E. Qed.

Lemma write_tabs_other l : forall ks key, ~ (key ∈ map (fun t => metaKey (SessionName t)) l) -> write_tabs l ks !! key = ks !! key.
Proof.
  induction l as [|t l IH]; intros ks key Hk; [done|]. cbn [map] in Hk. apply not_elem_of_cons in Hk as [Hk1 Hk2].
  cbn [write_tabs foldl]. etransitivity; [by apply (IH _ _ Hk2)|]. by apply written_other.
Qed.

Lemma write_tabs_keep l ks key : ~ (key ∈ map (fun t => metaKey (SessionName t)) l) -> hash_of (write_tabs l ks) key = hash_of ks key.
Proof. intros H. unfold hash_of. by rewrite write_tabs_other. Qed.

Lemma write_tabs_new l : forall ks t, NoDup (map SessionName l) -> t ∈ l ->
  hash_of (write_tabs l ks) (metaKey (SessionName t)) = hset (hash_of ks (metaKey (SessionName t))) (tab_fields t).
Proof.
  induction l as [|u l IH]; intros ks t Hnd Ht; [by apply elem_of_nil in Ht|]. cbn [map] in Hnd. apply NoDup_cons in Hnd as [Hu Hnd].
  assert (forall s, ~ (s ∈ map SessionName l) -> ~ (metaKey s ∈ map (fun t => metaKey (SessionName t)) l)) as Hkey.
  { intros s Hs Hin. apply Hs. apply list_elem_of_fmap in Hin as (v & Ev & Hv). apply metaKey_inj in Ev as ->. by apply list_elem_of_fmap_2. }
  change (write_tabs (u :: l) ks) with (write_tabs l (written (metaKey (SessionName u)) (tab_fields u) ks)).
  apply elem_of_cons in Ht as [->|Ht].
  - rewrite write_tabs_keep by auto. apply hash_of_written.
  - rewrite IH by done. unfold hash_of at 1. rewrite written_other; [done|]. intros E. apply metaKey_inj in E. apply Hu. rewrite <- E.
    by apply list_elem_of_fmap_2.
Qed.

(** What the store holds, as a call to list it finds it. *)
Record scanned (ks : keyspace) (keys : list string) : Prop := {
  sc_typed : forall s, typed ks (metaKey s);
  sc_nodup : NoDup keys;
  sc_keys : forall key, key ∈ keys <-> exists s, key = metaKey s /\ hash_of ks key <> ∅;
}.

Lemma scanned_hashes ks keys : scanned ks keys -> Forall (fun key => hash_of ks key <> ∅) keys.
Proof. intros H. apply Forall_forall. intros key Hk. by apply (sc_keys _ _ H) in Hk as (s & -> & Hk). Qed.
Lemma scanned_typed ks keys : scanned ks keys -> Forall (typed ks) keys.
Proof. intros H. apply Forall_forall. intros key Hk. apply (sc_keys _ _ H) in Hk as (s & -> & Hk). by apply (sc_typed _ _ H). Qed.

Lemma scanned_names ks keys s : scanned ks keys -> s ∈ map SessionName (stored ks keys) <-> hash_of ks (metaKey s) <> ∅.
Proof.
  intros H. rewrite stored_names by by apply scanned_hashes. split.
  - intros Hs. apply list_elem_of_fmap in Hs as (key & -> & Hk). apply (sc_keys _ _ H) in Hk as (s & -> & Hk). by rewrite session_metaKey.
  - intros Hs. rewrite <- (session_metaKey s). apply list_elem_of_fmap_2. apply (sc_keys _ _ H). by exists s.
Qed.

Lemma scanned_nodup ks keys : scanned ks keys -> NoDup (map SessionName (stored ks keys)).
Proof.
  intros H. rewrite stored_names by by apply scanned_hashes. apply (NoDup_fmap_2_strong session_of); [|by apply H].
  intros x y Hx Hy E. apply (sc_keys _ _ H) in Hx as (s & -> & _). apply (sc_keys _ _ H) in Hy as (s' & -> & _). by rewrite !session_metaKey in E; subst.
Qed.

Lemma stored_is ks keys t : scanned ks keys -> t ∈ stored ks keys -> t = parseMetadata (SessionName t) (hash_of ks (metaKey (SessionName t))).
Proof.
  intros H Ht. unfold stored in Ht. apply list_elem_of_omap in Ht as (key & Hk & E). apply (sc_keys _ _ H) in Hk as (s & -> & Hs).
  rewrite bool_decide_false, session_metaKey in E by done. injection E as <-. done.
Qed.

(** The tabs before and the tabs added by a call. *)
Definition before (ks : keyspace) (batches : list (list string)) : list TabMetadata := sort_slice by_order (stored ks (concat batches)).
Definition added (ks : keyspace) (now : Z) (batches : list (list string)) (active : list string) : list TabMetadata :=
  new_tabs now (list_to_set (map SessionName (before ks batches))) active (max_order (before ks batches)).

Lemma EnsureDefaults_quiet batches active w :
  w_net w = [] -> scanned (now_view w) (concat batches) -> Forall (fun s => ValidateSessionName s = None) active ->
  let new := added (now_view w) (w_now w + w_skew w) batches active in
  exists w', EnsureDefaults batches active w = (w', Ok (sort_slice by_order (before (now_view w) batches ++ new)%list)) /\
  quiet_to w (write_tabs new (now_view w)) w'.
Proof.
  intros Hq Hsc Hv new. destruct (read_batches_quiet batches w Hq (scanned_typed _ _ Hsc)) as (w1 & E1 & H1).
  destruct (add_defaults_quiet (w_now w + w_skew w) (list_to_set (map SessionName (before (now_view w) batches))) active
    (max_order (before (now_view w) batches)) w1 (qt_net _ _ _ H1)) as (w2 & E2 & H2).
  { eapply Forall_impl; [exact Hv|]. cbn. intros s Hs. split; [done|]. rewrite (qt_view _ _ _ H1). by apply (sc_typed _ _ Hsc). }
  exists w2. rewrite (qt_view _ _ _ H1) in H2. split; [|by eapply quiet_trans]. unfold EnsureDefaults.
  assert (List_ batches w = (w1, Ok (before (now_view w) batches))) as EL by (unfold List_; by rewrite (io_bind_ok _ _ _ _ _ E1)).
  rewrite (io_bind_ok _ _ _ _ _ EL). assert (io_now w1 = (w1, Ok (w_now w + w_skew w))) as EN.
  { unfold io_now. by rewrite (qt_now _ _ _ H1), (qt_skew _ _ _ H1). }
  rewrite (io_bind_ok _ _ _ _ _ EN), (io_bind_ok _ _ _ _ _ E2). done.
Qed.

Section added.
Context (ks : keyspace) (now : Z) (batches : list (list string)) (active : list string).
Hypothesis (sc : scanned ks (concat batches)) (nd : NoDup active).

Lemma before_elem t : t ∈ before ks batches <-> t ∈ stored ks (concat batches).
Proof. unfold before. by rewrite sort_slice_perm. Qed.
Lemma before_names s : s ∈ map SessionName (before ks batches) <-> hash_of ks (metaKey s) <> ∅.
Proof. rewrite <- (scanned_names _ _ _ sc). unfold before. by rewrite sort_slice_perm. Qed.

Lemma added_names : map SessionName (added ks now batches active) = filter (fun s => hash_of ks (metaKey s) = ∅) active.
Proof.
  unfold added. rewrite new_tabs_names. apply list_filter_iff. intros s. rewrite elem_of_list_to_set, before_names.
  destruct (decide (hash_of ks (metaKey s) = ∅)); tauto.
Qed.
Lemma added_nodup : NoDup (map SessionName (added ks now batches active)).
Proof. rewrite added_names. by apply NoDup_filter. Qed.
Lemma added_new t : t ∈ added ks now batches active -> SessionName t ∈ active /\ hash_of ks (metaKey (SessionName t)) = ∅.
Proof.
  intros Ht. assert (SessionName t ∈ map SessionName (added ks now batches active)) as H by by apply list_elem_of_fmap_2.
  rewrite added_names in H. apply list_elem_of_filter in H. tauto.
Qed.

Lemma added_default t : max_order (before ks batches) + Z.of_nat (length active) <= max_int64 -> t ∈ added ks now batches active ->
  t = default_tab now (SessionName t) (SortOrder t) /\ in_int64 (SortOrder t) /\ Forall (fun u => SortOrder u < SortOrder t) (before ks batches).
Proof.
  intros Hb Ht. destruct (max_order_spec (before ks batches)) as [H0 Hall]. split; [|].
  - unfold added in Ht. clear Hb H0 Hall. revert Ht. generalize (max_order (before ks batches)). generalize (list_to_set (C := gset string) (map SessionName (before ks batches))).
    intros known. induction active as [|s l IH]; intros order Ht; [by apply elem_of_nil in Ht|]. cbn [new_tabs] in Ht. apply NoDup_cons in nd as [_ nd'].
    destruct (bool_decide _); [by apply (IH nd' _ Ht)|]. apply elem_of_cons in Ht as [->|Ht]; [done|by apply (IH nd' _ Ht)].
  - apply list_elem_of_lookup in Ht as [i Hi]. assert (i < length active)%nat as Hlen.
    { apply lookup_lt_Some in Hi. rewrite <- (length_map SessionName), added_names in Hi. pose proof (length_filter (fun s => hash_of ks (metaKey s) = ∅) active). lia. }
    unfold added in Hi. assert (min_int64 <= max_order (before ks batches)) as Hlo by (unfold min_int64; lia). apply new_tabs_orders in Hi; [|done..].
    split; [unfold in_int64, min_int64 in *; lia|]. eapply Forall_impl; [exact Hall|]. cbn. intros u Hu. lia.
Qed.
End added.

Lemma StronglySorted_weaken {A} (R S : A -> A -> Prop) l : (forall a b, R a b -> S a b) -> StronglySorted R l -> StronglySorted S l.
Proof. intros H. induction 1 as [|a l _ IH Ha]; constructor; [done|]. eapply Forall_impl; [exact Ha|]. apply H. Qed.

(** When the store answers and SCAN finds each stored tab once, the list holds the stored
    tabs as they are and a default tab for every other session, each name once, in order of
    place and the new ones last; afterwards every tab of the list is in the store. *)
Theorem every_session_has_one_tab batches active w :
  let ks := now_view w in let now := (w_now w + w_skew w)%Z in
  w_net w = [] -> scanned ks (concat batches) -> NoDup active -> Forall (fun s => ValidateSessionName s = None) active ->
  max_order (before ks batches) + Z.of_nat (length active) <= max_int64 -> printable now ->
  exists w' tabs, handleListTerminalTabs true (Some (Ok active)) batches w = (w', (Ok (200, mkTabResp true (AllTabs tabs) "", None)))
  /\ NoDup (map SessionName tabs) /\ StronglySorted (fun a b => SortOrder a <= SortOrder b) tabs
  /\ (forall s, s ∈ map SessionName tabs <-> hash_of ks (metaKey s) <> ∅ \/ s ∈ active)
  /\ (forall t, t ∈ tabs -> hash_of ks (metaKey (SessionName t)) <> ∅ -> t = parseMetadata (SessionName t) (hash_of ks (metaKey (SessionName t))))
  /\ (forall t, t ∈ tabs -> hash_of ks (metaKey (SessionName t)) = ∅ ->
       t = default_tab now (SessionName t) (SortOrder t) /\
       forall u, u ∈ tabs -> hash_of ks (metaKey (SessionName u)) <> ∅ -> SortOrder u < SortOrder t)
  /\ (forall t, t ∈ tabs -> read_back (parseMetadata (SessionName t) (hash_of (now_view w') (metaKey (SessionName t)))) = read_back t).
Proof.
  intros ks now Hq Hsc Hnd Hv Hb Hp. destruct (EnsureDefaults_quiet batches active w Hq Hsc Hv) as (w' & E & H). fold ks in E, H. fold now in E, H.
  set (new := added ks now batches active) in *. exists w', (sort_slice by_order (before ks batches ++ new)%list).
  assert (forall t, t ∈ sort_slice by_order (before ks batches ++ new)%list <-> t ∈ before ks batches \/ t ∈ new) as Hin.
  { intros t. rewrite sort_slice_perm. apply elem_of_app. }
  assert (forall t, t ∈ before ks batches -> hash_of ks (metaKey (SessionName t)) <> ∅) as Hold.
  { intros t Ht. apply (before_names ks batches Hsc). by apply list_elem_of_fmap_2. }
  assert (forall t, t ∈ new -> SessionName t ∈ active /\ hash_of ks (metaKey (SessionName t)) = ∅) as Hnew by by apply added_new.
  assert (forall t, t ∈ before ks batches -> t = parseMetadata (SessionName t) (hash_of ks (metaKey (SessionName t)))) as Hst.
  { intros t Ht. apply before_elem in Ht. by eapply stored_is. }
  assert (map SessionName new = filter (fun s => hash_of ks (metaKey s) = ∅) active) as Hn by by apply added_names.
  split_and!.
  - unfold handleListTerminalTabs. cbn [negb]. by rewrite (io_bind_ok _ _ _ _ _ (io_try_ok _ _ _ _ E)).
  - rewrite sort_slice_perm, map_app. apply NoDup_app. split_and!; [|intros s Hs Hs'|by apply added_nodup].
    + unfold before. rewrite sort_slice_perm. by apply scanned_nodup.
    + apply (before_names ks batches Hsc) in Hs. rewrite Hn in Hs'. apply list_elem_of_filter in Hs'. tauto.
  - eapply StronglySorted_weaken; [|apply sort_slice_sorted, by_order_weak]. intros a b. unfold by_order. rewrite Z.ltb_ge. done.
  - intros s. rewrite sort_slice_perm, map_app, elem_of_app, (before_names ks batches Hsc), Hn, list_elem_of_filter.
    destruct (decide (hash_of ks (metaKey s) = ∅)); tauto.
  - intros t Ht Hh. apply Hin in Ht as [Ht|Ht]; [by apply Hst|]. by apply Hnew in Ht as [_ Ht].
  - intros t Ht Hh. apply Hin in Ht as [Ht|Ht]; [by apply Hold in Ht|].
    destruct (added_default ks now batches active Hsc Hnd t Hb Ht) as (Et & _ & Hlt). split; [done|]. intros u Hu Hhu.
    apply Hin in Hu as [Hu|Hu]; [by eapply Forall_forall in Hlt|]. by apply Hnew in Hu as [_ Hu].
  - intros t Ht. rewrite (qt_view _ _ _ H). apply Hin in Ht as [Ht|Ht].
    + rewrite write_tabs_keep; [by rewrite <- (Hst t Ht)|]. intros Hin'. apply list_elem_of_fmap in Hin' as (u & Eu & Hu).
      apply metaKey_inj in Eu. apply Hnew in Hu as [_ Hu]. rewrite <- Eu in Hu. by apply Hold in Ht.
    + rewrite write_tabs_new by (first [done | by apply added_nodup]).
      destruct (added_default ks now batches active Hsc Hnd t Hb Ht) as (Et & Hi & _). rewrite parse_written; [|done|by rewrite Et|by rewrite Et].
      unfold read_back. cbn. rewrite Et. cbn. by rewrite !Z.div_mul by done.
Qed.

(** ** Changing a tab *)
Lemma hset_lookup h fields f : hset h fields !! f = (list_to_map (reverse fields) ∪ h) !! f.
Proof.
  revert f. induction fields as [|[k v] fields IH] using rev_ind; intros f; [by rewrite reverse_nil, left_id_L by apply _|].
  unfold hset in *. rewrite foldl_app, reverse_app. cbn. rewrite <- insert_union_l. destruct (decide (f = k)) as [->|Hf].
  - by rewrite !lookup_insert_eq.
  - rewrite !lookup_insert_ne by done. apply IH.
Qed.
Lemma hset_map h (m : gmap string string) : hset h (map_to_list m) = m ∪ h.
Proof.
  apply map_eq. intros f. rewrite hset_lookup. f_equal. f_equal. rewrite <- (list_to_map_to_list m) at 2.
  apply list_to_map_proper; [|by rewrite reverse_Permutation]. rewrite reverse_Permutation. apply NoDup_fst_map_to_list.
Qed.

(** The tab after a request to change it. *)
Definition changed (req : tabPatchRequest) (now : Z) (t : TabMetadata) : TabMetadata :=
  mkTab (SessionName t) (default (Label t) (tp_Label req)) (default (Notes t) (tp_Notes req)) (default (SortOrder t) (tp_SortOrder req))
    (CreatedAt t) (now / second * second).

Lemma parse_patched name req now h : printable now -> (forall n, tp_SortOrder req = Some n -> in_int64 n) ->
  parseMetadata name (<["updated_at" := Format now]> (patch_fields req) ∪ h) = changed req now (parseMetadata name h).
Proof.
  intros Hp Hn. unfold parseMetadata, parse_time, changed, patch_fields. cbn [SessionName Label Notes SortOrder CreatedAt].
  rewrite <- insert_union_l. destruct req as [[l|] [n|] [o|]]; cbn [tp_Label tp_Notes tp_SortOrder default] in *;
    rewrite <- ?insert_union_l, ?(left_id_L ∅ (∪));
    repeat first [rewrite lookup_insert_eq | rewrite lookup_insert_ne by done]; rewrite ?parse_format, ?atoi_itoa, ?bool_decide_true by auto; done.
Qed.

Definition tab_changed (hub : bool) (session : string) (now : Z) : option Sse.MutationPayload :=
  if hub then Some (Sse.mkPayload "terminal_metadata" session "" "" "" (Format now) "" "" "" 0) else None.
Lemma tab_event_quiet hub session w : tab_event hub session w = (w, Ok (tab_changed hub session (w_now w + w_skew w))).
Proof. by destruct hub. Qed.

Definition patched_store (ks : keyspace) (key : string) (req : tabPatchRequest) (now : Z) : keyspace :=
  written key (map_to_list (<["updated_at" := Format now]> (patch_fields req))) ks.

Lemma Patch_quiet session req w :
  ValidateSessionName session = None -> w_net w = [] -> typed (now_view w) (metaKey session) ->
  let ks := now_view w in let key := metaKey session in let now := (w_now w + w_skew w)%Z in
  match ks !! key with
  | None => exists w', Patch session (patch_fields req) w = (w', Err (Msg ("session " +:+ quote session +:+ " not found"))) /\ quiet_to w ks w'
  | Some _ => exists w', Patch session (patch_fields req) w =
      (w', Ok (Some (parseMetadata session (<["updated_at" := Format now]> (patch_fields req) ∪ hash_of ks key)))) /\
      quiet_to w (patched_store ks key req now) w'
  end.
Proof.
  intros Hv Hq Ht ks key now. destruct (round_trip_ok (one (EXISTS key)) w ks (RInt (match ks !! key with None => 0 | Some _ => 1 end)) Hq eq_refl) as (w1 & E1 & H1).
  unfold Patch. rewrite io_check_none by done. cbv zeta. fold key. rewrite (io_bind_ok _ _ _ _ _ (wrap_err_ok _ _ _ _ _ E1)).
  destruct (ks !! key) as [e|] eqn:Ek; [|by exists w1].
  assert (io_now w1 = (w1, Ok now)) as EN by (unfold io_now; by rewrite (qt_now _ _ _ H1), (qt_skew _ _ _ H1)).
  cbn [Z.eqb]. rewrite (io_bind_ok _ _ _ _ _ EN). set (fields := <["updated_at" := Format now]> (patch_fields req)).
  destruct (round_trip_ok (one (HSET key (map_to_list fields))) w1 (patched_store ks key req now) (RInt (Z.of_nat (length (map_to_list fields)))) (qt_net _ _ _ H1)) as (w2 & E2 & H2).
  { rewrite (qt_view _ _ _ H1). unfold one, patched_store, written. cbn [run_ks doc_exec]. change (typed ks key) in Ht.
    destruct (typed_hash _ _ Ht) as [[En _]|(e' & Ek' & Ee)]; [by rewrite En in Ek|]. rewrite Ek'. cbn. by rewrite Ee. }
  rewrite (io_bind_ok _ _ _ _ _ (wrap_err_ok _ _ _ _ _ E2)). assert (typed (now_view w2) key) as Ht2 by (rewrite (qt_view _ _ _ H2); by apply typed_written).
  destruct (Get_quiet session w2 Hv (qt_net _ _ _ H2) Ht2) as (w3 & E3 & H3). exists w3. rewrite (qt_view _ _ _ H2) in E3, H3. fold key in E3.
  unfold patched_store in E3. rewrite hash_of_written, hset_map, bool_decide_false in E3.
  - split; [done|]. eapply quiet_trans; [exact H1|]. by eapply quiet_trans.
  - intros E. assert ((fields ∪ hash_of ks key) !! "updated_at" = None) as En by (unfold fields; rewrite E; apply lookup_empty).
    unfold fields in En. by rewrite <- insert_union_l, lookup_insert_eq in En.
Qed.

(** A request to change a tab: what is written and answered. *)
Theorem patch_functional hub session body req w :
  let ks := now_view w in let key := metaKey session in let now := (w_now w + w_skew w)%Z in
  ValidateSessionName session = None -> FleetApi.decode_body body = inl req -> patch_fields req <> ∅ ->
  (forall n, tp_SortOrder req = Some n -> in_int64 n) -> printable now -> w_net w = [] -> typed ks key ->
  exists w', handlePatchTerminalTab true hub session body w =
    (w', Ok (match ks !! key with
             | None => tab_failed 404 "failed to update tab metadata"
             | Some _ => (200%Z, mkTabResp true (OneTab (changed req now (parseMetadata session (hash_of ks key)))) "", tab_changed hub session now)
             end))
  /\ quiet_to w (match ks !! key with None => ks | Some _ => patched_store ks key req now end) w'.
Proof.
  intros ks key now Hv Hb Hf Hn Hp Hq Ht. pose proof (Patch_quiet session req w Hv Hq Ht) as HP. cbv zeta in HP. fold ks key now in HP.
  unfold handlePatchTerminalTab, with_session. cbn [negb]. rewrite Hv, Hb. cbv zeta. rewrite bool_decide_false by done.
  destruct (ks !! key) as [e|]; destruct HP as (w' & E & H); exists w'; (split; [|done]).
  - rewrite (io_bind_ok _ _ _ _ _ (io_try_ok _ _ _ _ E)), (io_bind_ok _ _ _ _ _ (tab_event_quiet _ _ _)), (qt_now _ _ _ H), (qt_skew _ _ _ H).
    by rewrite parse_patched.
  - assert (io_try (Patch session (patch_fields req)) w = (w', Ok (Err (Msg ("session " +:+ quote session +:+ " not found"))))) as ET by (unfold io_try; by rewrite E).
    rewrite (io_bind_ok _ _ _ _ _ ET). cbn [error_text]. assert (contains ("session " +:+ quote session +:+ " not found") "not found" = true) as ->.
    { change " not found" with (" " +:+ "not found"). rewrite <- !append_assoc. apply contains_suffix. }
    done.
Qed.
End store.

(** ** Witnesses: seconds as a number for the text of a time *)
Section witnesses.
Local Existing Instance mem_redis.
Local Existing Instance InsertionSort.insertion_SliceSort.

#[local] Instance demo_times : TimeText.
Proof.
  refine {| Format t := itoa (t / second); Parse s := (fun n => n * second)%Z <$> atoi s |}.
  intros t Ht. rewrite atoi_itoa, bool_decide_true; [done|]. assert (0 <= t / second < 253402300800) as H.
  { unfold second in *. split; [apply Z.div_pos; lia|apply Z.div_lt_upper_bound; lia]. }
  unfold in_int64, min_int64, max_int64. lia.
Defined.
#[local] Instance demo_patch : FleetApi.JsonBody tabPatchRequest := fun s => FleetApi.Value (mkTabPatch None (Some s) None).

Definition build_tab : TabMetadata := mkTab "build" "Build" "" 3 (1700000000 * second) (1700000000 * second).
Definition tab_keys : keyspace := {[ metaKey "build" := mkEntry (VHash (hset ∅ (tab_fields build_tab))) None ]}.
Definition tab_world : world := mkWorld (tab_keys : keyspace) (1700000100 * second) 0 [] None.
Definition tabs_of (r : res (Z * tabMetadataResponse * option Sse.MutationPayload)) : list TabMetadata := match r with Ok (_, mkTabResp _ (AllTabs l) _, _) => l | _ => [] end.
Definition shell_tab (order : Z) : TabMetadata := mkTab "shell" "shell" "" order (1700000100 * second) (1700000100 * second).

Lemma tab_world_scanned : scanned (now_view tab_world) (concat [[]; [metaKey "build"]]).
Proof.
  assert (now_view tab_world = tab_keys) as -> by (vm_compute; reflexivity). assert (forall s, s <> "build" -> tab_keys !! metaKey s = None) as Hn.
  { intros s Hs. unfold tab_keys. rewrite lookup_singleton_ne; [done|]. intros E. by apply metaKey_inj in E. }
  assert (tab_keys !! metaKey "build" = Some (mkEntry (VHash (hset ∅ (tab_fields build_tab))) None)) as Hb by (unfold tab_keys; apply lookup_singleton_eq).
  split.
  - intros s e. destruct (decide (s = "build")) as [->|Hs]; [rewrite Hb; intros [= <-]; by eexists|by rewrite Hn].
  - apply NoDup_singleton.
  - intros key. cbn [concat app]. rewrite list_elem_of_singleton. split.
    + intros ->. exists "build". split; [done|]. unfold hash_of. rewrite Hb. apply hset_fields_nonempty.
    + intros (s & -> & Hs). destruct (decide (s = "build")) as [->|Hne]; [done|]. unfold hash_of in Hs. by rewrite Hn in Hs.
Qed.

Lemma every_session_has_one_tab_witness :
  exists w' tabs, handleListTerminalTabs true (Some (Ok ["build"; "shell"])) [[]; [metaKey "build"]] tab_world =
    (w', Ok (200%Z, mkTabResp true (AllTabs tabs) "", None)) /\ tabs = [build_tab; shell_tab 4].
Proof.
  destruct (every_session_has_one_tab [[]; [metaKey "build"]] ["build"; "shell"] tab_world) as (w' & tabs & E & _).
  - done.
  - exact tab_world_scanned.
  - repeat (apply NoDup_cons_2; [set_solver|]). apply NoDup_nil_2.
  - repeat (apply Forall_cons_2; [vm_compute; reflexivity|]). apply Forall_nil_2.
  - vm_compute. discriminate.
  - vm_compute. split; [discriminate|reflexivity].
  - exists w', tabs. split; [exact E|]. assert (tabs_of (snd (handleListTerminalTabs true (Some (Ok ["build"; "shell"])) [[]; [metaKey "build"]] tab_world)) = tabs) as <- by by rewrite E.
    vm_compute. reflexivity.
Defined.

(** SCAN may find a key more than once; its tab is then listed more than once. *)
Lemma scan_twice_lists_twice :
  map SessionName (tabs_of (snd (handleListTerminalTabs true None [[metaKey "build"]; [metaKey "build"]] tab_world))) = ["build"; "build"].
Proof. vm_compute. reflexivity. Qed.

(** A tab deleted between the two requests of a change comes back with nothing but what was changed. *)
Definition deleted_meanwhile : world :=
  mkWorld (tab_keys : keyspace) (1700000100 * second) 0 [mkTrip 0 [] None; mkTrip 0 [LCall (DEL (metaKey "build")) (fun _ => LRet tt)] None] None.
Lemma patch_revives_deleted_tab :
  snd (handlePatchTerminalTab true false "build" "note" deleted_meanwhile) =
    Ok (200%Z, mkTabResp true (OneTab (mkTab "build" "" "note" 0 zero_time (1700000100 * second))) "", None).
Proof. vm_compute. reflexivity. Qed.
End witnesses.
End Tabs.
