(* ===== verification/GitCalls.v ===== *)
(** * GitCalls: running git, [internal/cli/git.go], [deps.go] and [exec.go]

    A monad of calls of outside programs, with what was called recorded; git, gh and
    the agent are the class [Shell]. Texts for the terminal are left out. *)
From S2P Require Import Prelude.
Local Open Scope Z_scope.
Local Open Scope string_scope.

Module Git.

Record CommandResult := mkResult { Stdout : string; Stderr : string; cr_Err : option goerror }.

(** How a program whose output goes to the terminal ends; its output is not in the error. *)
Inductive run_end := Finished | ExitStatus (code : Z) | Failed (e : goerror).
Definition end_error (r : run_end) : option goerror :=
  match r with
  | Finished => None
  | ExitStatus code => Some (Msg ("exit status " +:+ itoa code))
  | Failed e => Some e
  end.

(** Programs in a world: with their output captured, git on the terminal, the agent with
    a prompt, and the clock. *)
Class Shell (W : Type) := {
  sh_exec : string -> string -> list string -> W -> W * CommandResult;
  sh_git : string -> list string -> W -> W * run_end;
  sh_agent : string -> string -> W -> W * option goerror;
  sh_now : W -> Z;
}.

Inductive call := Run (dir name : string) (args : list string) | Agent (dir prompt : string).
Abbreviation git_call dir args := (Run dir "git" args).

Record state (W : Type) := mkState { world : W; calls : list call }.
#[global] Arguments mkState {W}.
#[global] Arguments world {W}.
#[global] Arguments calls {W}.

Definition Flow (W A : Type) : Type := state W -> state W * res A.
#[export] Instance Flow_ret {W} : MRet (Flow W) := fun A a s => (s, Ok a).
#[export] Instance Flow_bind {W} : MBind (Flow W) := fun A B f m s =>
  match m s with
  | (s', Ok a) => f a s'
  | (s', Err e) => (s', Err e)
  end.

Section calls.
Context {W : Type} {shell : Shell W}.

Definition fail {A} (e : goerror) : Flow W A := fun s => (s, Err e).
(** [x, err := m] where the code goes on in both cases. *)
Definition try {A} (m : Flow W A) : Flow W (res A) := fun s => let (s', r) := m s in (s', Ok r).
Definition check (o : option goerror) : Flow W unit := match o with None => mret tt | Some e => fail e end.
(** [fmt.Errorf] with [%v], which keeps the text alone, and with [%w]. *)
Definition errorf {A} (prefix : string) (m : Flow W A) : Flow W A := fun s =>
  match m s with (s', Err e) => (s', Err (Msg (prefix +:+ error_text e))) | r => r end.
Definition errorw {A} (prefix : string) (m : Flow W A) : Flow W A := fun s =>
  match m s with (s', Err e) => (s', Err (Wrapf prefix e "")) | r => r end.
(** [defer c()] before [m]. *)
Definition deferred {A} (c : Flow W unit) (m : Flow W A) : Flow W A := fun s =>
  let (s1, r) := m s in ((c s1).1, r).
Definition now : Flow W Z := fun s => (s, Ok (sh_now (world s))).

Definition execCommand (dir name : string) (args : list string) : Flow W CommandResult := fun s =>
  let (w, r) := sh_exec dir name args (world s) in (mkState w (calls s ++ [Run dir name args])%list, Ok r).
Definition RunGitCommandWithOutput (dir : string) (args : list string) : Flow W unit := fun s =>
  let (w, r) := sh_git dir args (world s) in
  (mkState w (calls s ++ [git_call dir args])%list, match end_error r with None => Ok tt | Some e => Err e end).
Definition RunGitCommand (dir : string) (args : list string) : Flow W string :=
  result ← execCommand dir "git" args;
  match cr_Err result with
  | Some _ => fail (Msg ("git " +:+ Join " " args +:+ " failed: " +:+ Stderr result))
  | None => mret (Stdout result)
  end.
Definition InvokeAgent (dir prompt : string) : Flow W unit := fun s =>
  let (w, r) := sh_agent dir prompt (world s) in
  (mkState w (calls s ++ [Agent dir prompt])%list, match r with None => Ok tt | Some e => Err e end).

(** ** The commands *)
Definition validateGitRef (name : string) : option goerror :=
  if has_prefix name "-" then Some (Msg ("invalid git ref " +:+ quote name +:+ ": must not start with '-'")) else None.
Definition resolveRemote (remote : string) : string := if bool_decide (remote = "") then "origin" else remote.

Definition GitFetch (dir : string) : Flow W unit := RunGitCommandWithOutput dir ["fetch"; "origin"].
Definition GitCheckout (dir branch : string) : Flow W unit := check (validateGitRef branch);; RunGitCommandWithOutput dir ["checkout"; branch].
Definition GitPull (dir branch : string) : Flow W unit := check (validateGitRef branch);; RunGitCommandWithOutput dir ["pull"; "origin"; branch].
Definition GitMerge (dir branch message : string) : Flow W unit :=
  check (validateGitRef branch);; RunGitCommandWithOutput dir ["merge"; "-m"; message; "--"; branch].
Definition GitMergeOrigin (dir branch message : string) : Flow W unit := RunGitCommandWithOutput dir ["merge"; "origin/" +:+ branch; "-m"; message].
Definition GitPush (dir branch : string) : Flow W unit := check (validateGitRef branch);; RunGitCommandWithOutput dir ["push"; "origin"; branch].
Definition GitPushForce (dir branch : string) : Flow W unit :=
  check (validateGitRef branch);; RunGitCommandWithOutput dir ["push"; "origin"; branch; "--force"].
Definition GitReset (dir ref : string) : Flow W unit := check (validateGitRef ref);; RunGitCommandWithOutput dir ["reset"; "--hard"; ref].
Definition GitClean (dir : string) : Flow W unit := RunGitCommandWithOutput dir ["clean"; "-fd"].

Definition newline : ascii := Ascii.ascii_of_nat 10.
Definition GetConflictedFiles (dir : string) : Flow W (list string) :=
  output ← RunGitCommand dir ["diff"; "--name-only"; "--diff-filter=U"];
  let lines := Split newline (TrimSpace output) in
  mret (if bool_decide (lines = [""]) then [] else lines).
Definition HasUnmergedFiles (dir : string) : Flow W bool := files ← GetConflictedFiles dir; mret (negb (bool_decide (files = []))).

(** A failing log counts as new commits. *)
Definition log_has_commits (dir range : string) : Flow W bool :=
  r ← try (RunGitCommand dir ["log"; range; "--oneline"]);
  mret (match r with Err _ => true | Ok output => negb (bool_decide (TrimSpace output = "")) end).
Definition HasCommitsBetween (dir target source : string) : Flow W bool :=
  check (validateGitRef target);; check (validateGitRef source);; log_has_commits dir (target +:+ ".." +:+ source).
Definition HasCommitsBetweenRemote (dir remote target source : string) : Flow W bool :=
  let r := resolveRemote remote in
  check (validateGitRef r);; check (validateGitRef target);; check (validateGitRef source);;
  log_has_commits dir (r +:+ "/" +:+ target +:+ ".." +:+ source).

Definition IsCleanWorkingTree (dir : string) : Flow W bool :=
  output ← RunGitCommand dir ["status"; "--porcelain"]; mret (bool_decide (TrimSpace output = "")).
Definition GetCurrentBranch (path : string) : Flow W string :=
  output ← RunGitCommand path ["branch"; "--show-current"]; mret (TrimSpace output).

Definition GitFetchRemote (dir remote : string) : Flow W unit :=
  let r := resolveRemote remote in check (validateGitRef r);; RunGitCommandWithOutput dir ["fetch"; r].
Definition GitMergeRemote (dir remote branch message : string) : Flow W unit :=
  let r := resolveRemote remote in
  check (validateGitRef r);; check (validateGitRef branch);; RunGitCommandWithOutput dir ["merge"; r +:+ "/" +:+ branch; "-m"; message].
Definition GitPushRemote (dir remote branch : string) : Flow W unit :=
  let r := resolveRemote remote in check (validateGitRef r);; check (validateGitRef branch);; RunGitCommandWithOutput dir ["push"; r; branch].
Definition GitPullRemote (dir remote branch : string) : Flow W unit :=
  let r := resolveRemote remote in check (validateGitRef r);; check (validateGitRef branch);; RunGitCommandWithOutput dir ["pull"; r; branch].

Definition GitCheckoutDetached (dir ref : string) : Flow W unit :=
  check (validateGitRef ref);; RunGitCommandWithOutput dir ["checkout"; "--detach"; ref].
Definition GitCreateBranchFromHead (dir name : string) : Flow W unit :=
  check (validateGitRef name);; RunGitCommandWithOutput dir ["checkout"; "-b"; name].
Definition GitDeleteBranch (dir name : string) (force : bool) : Flow W unit :=
  check (validateGitRef name);; RunGitCommandWithOutput dir ["branch"; if force then "-D" else "-d"; "--"; name].
Definition GitPushRefspec (dir remote localRef remoteRef : string) : Flow W unit :=
  let r := resolveRemote remote in
  check (validateGitRef r);; check (validateGitRef localRef);; check (validateGitRef remoteRef);;
  RunGitCommandWithOutput dir ["push"; r; localRef +:+ ":" +:+ remoteRef].
Definition GitMergeAbort (dir : string) : Flow W unit := RunGitCommand dir ["merge"; "--abort"];; mret tt.

Definition getStashCount (dir : string) : Flow W Z :=
  output ← RunGitCommand dir ["stash"; "list"];
  let trimmed := TrimSpace output in
  mret (if bool_decide (trimmed = "") then 0 else Z.of_nat (length (Split newline trimmed))).
Definition GitStash (dir : string) : Flow W bool :=
  countBefore ← getStashCount dir;
  errorw "failed to stash changes: " (RunGitCommandWithOutput dir ["stash"]);;
  countAfter ← getStashCount dir;
  mret (countBefore <? countAfter)%Z.
Definition GitStashPop (dir : string) : Flow W unit := RunGitCommandWithOutput dir ["stash"; "pop"].

(** ** Which calls are made, whatever they answer *)
Definition only (P : call -> Prop) {A} (m : Flow W A) : Prop :=
  forall s, exists new, calls (m s).1 = (calls s ++ new)%list /\ Forall P new.

Lemma only_ret P {A} (a : A) : only P (mret a : Flow W A).
Proof. intros s. exists []. split; [by rewrite app_nil_r|by apply Forall_nil_2]. Qed.
Lemma only_fail P {A} e : only P (fail e : Flow W A).
Proof. intros s. exists []. split; [by rewrite app_nil_r|by apply Forall_nil_2]. Qed.
Lemma only_now P : only P (now : Flow W Z).
Proof. intros s. exists []. split; [by rewrite app_nil_r|by apply Forall_nil_2]. Qed.

(** After [m] the calls of [m2] as well. *)
Lemma only_more (P : call -> Prop) (s s1 s2 : state W) new more : calls s1 = (calls s ++ new)%list -> Forall P new ->
  calls s2 = (calls s1 ++ more)%list -> Forall P more -> exists all, calls s2 = (calls s ++ all)%list /\ Forall P all.
Proof. intros E1 H1 E2 H2. exists (new ++ more)%list. rewrite E2, E1, app_assoc. split; [done|by apply Forall_app_2]. Qed.

Lemma only_bind P {A B} (m : Flow W A) (f : A -> Flow W B) : only P m -> (forall a, only P (f a)) -> only P (m ≫= f).
Proof.
  intros Hm Hf s. unfold mbind, Flow_bind. destruct (Hm s) as (new & E & H). destruct (m s) as [s1 [a|e]]; cbn [fst] in *; [|by exists new].
  destruct (Hf a s1) as (more & E2 & H2). by eapply only_more.
Qed.
Lemma only_check P o {A} (m : Flow W A) : (o = None -> only P m) -> only P (check o;; m).
Proof. intros H. destruct o as [e|]; [exact (only_fail P e)|by apply H]. Qed.
Lemma only_wrap P (f : goerror -> goerror) {A} (m : Flow W A) :
  only P m -> only P (fun s => match m s with (s', Err e) => (s', Err (f e)) | r => r end).
Proof. intros Hm s. destruct (Hm s) as (new & E & H). exists new. by destruct (m s) as [s1 [a|e]]. Qed.
Lemma only_errorf P prefix {A} (m : Flow W A) : only P m -> only P (errorf prefix m).
Proof. apply (only_wrap P (fun e => Msg (prefix +:+ error_text e))). Qed.
Lemma only_errorw P prefix {A} (m : Flow W A) : only P m -> only P (errorw prefix m).
Proof. apply (only_wrap P (fun e => Wrapf prefix e "")). Qed.
Lemma only_try P {A} (m : Flow W A) : only P m -> only P (try m).
Proof. intros Hm s. destruct (Hm s) as (new & E & H). exists new. unfold try. by destruct (m s). Qed.
Lemma only_deferred P (c : Flow W unit) {A} (m : Flow W A) : only P c -> only P m -> only P (deferred c m).
Proof.
  intros Hc Hm s. unfold deferred. destruct (Hm s) as (new & E & H). destruct (m s) as [s1 r]. cbn [fst] in *.
  destruct (Hc s1) as (more & E2 & H2). by eapply only_more.
Qed.
Lemma only_execCommand (P : call -> Prop) dir name args : P (Run dir name args) -> only P (execCommand dir name args).
Proof. intros HP s. exists [Run dir name args]. unfold execCommand. destruct (sh_exec dir name args (world s)). split; [done|by apply Forall_singleton]. Qed.
Lemma only_stream (P : call -> Prop) dir args : P (git_call dir args) -> only P (RunGitCommandWithOutput dir args).
Proof. intros HP s. exists [git_call dir args]. unfold RunGitCommandWithOutput. destruct (sh_git dir args (world s)). split; [done|by apply Forall_singleton]. Qed.
Lemma only_agent (P : call -> Prop) dir prompt : P (Agent dir prompt) -> only P (InvokeAgent dir prompt).
Proof. intros HP s. exists [Agent dir prompt]. unfold InvokeAgent. destruct (sh_agent dir prompt (world s)). split; [done|by apply Forall_singleton]. Qed.
Lemma only_run (P : call -> Prop) dir args : P (git_call dir args) -> only P (RunGitCommand dir args).
Proof. intros HP. apply only_bind; [by apply only_execCommand|]. intros r. destruct (cr_Err r); [apply only_fail|apply only_ret]. Qed.
End calls.

(** A step for each form of a flow; the shapes of the calls are left. *)
Ltac only_step :=
  match goal with
  | |- only _ (check _;; _) => apply only_check; intros ?
  | |- only _ (_ ≫= _) => apply only_bind; [|intros ?]
  | |- only _ (mret _) => apply only_ret
  | |- only _ (fail _) => apply only_fail
  | |- only _ now => apply only_now
  | |- only _ (try _) => apply only_try
  | |- only _ (errorf _ _) => apply only_errorf
  | |- only _ (errorw _ _) => apply only_errorw
  | |- only _ (deferred _ _) => apply only_deferred
  | |- only _ (RunGitCommand _ _) => apply only_run
  | |- only _ (RunGitCommandWithOutput _ _) => apply only_stream
  | |- only _ (execCommand _ _ _) => apply only_execCommand
  | |- only _ (InvokeAgent _ _) => apply only_agent
  | |- only _ (if ?b then _ else _) => destruct b eqn:?
  | |- only _ (match ?x with _ => _ end) => destruct x eqn:?
  | |- only _ (let _ := _ in _) => cbv zeta
  end.

(** ** Options are options *)
Definition safe (ref : string) : Prop := has_prefix ref "-" = false.
Lemma validateGitRef_safe name : validateGitRef name = None -> safe name.
Proof. unfold validateGitRef, safe. by destruct (has_prefix name "-"). Qed.

Lemma safe_cons c a : c <> "-"%char -> safe (String c a).
Proof. intros H. unfold safe, has_prefix. cbn [String.prefix]. destruct (ascii_dec "-" c); [congruence|done]. Qed.
Lemma safe_app a b : safe a -> safe b -> safe (a +:+ b).
Proof.
  unfold safe, has_prefix. destruct a as [|c a]; [by rewrite append_nil_l|]. rewrite append_cons. cbn [String.prefix].
  destruct (ascii_dec "-" c); [|done]. by destruct a.
Qed.
End Git.
Create HintDb git_calls.
#[export] Hint Resolve Git.validateGitRef_safe Git.safe_app Git.safe_cons : git_calls.
