(* ===== verification/GitFlow.v ===== *)
(** * GitFlow: the workflows of git, [internal/cli/merge.go], [git_api.go], [push.go],
    [pull.go], [sync.go], [pr.go], [reset.go] and [conflict_resolution.go]

    Programs over [GitCalls]. Each restores what it changed with [defer]; the theorems
    say which commands run, in which order they are undone, and what is left when
    the undoing fails. *)
From S2P Require Import Prelude Paths WorktreeLock GitCalls.
Import Git.
Local Open Scope string_scope.

Module Flow.

Record RepoConfig := mkRepo { rp_Name : string; rp_Path : string; rp_DefaultBranch : string; rp_Remote : string }.
Record WorktreeInfo := mkWt { wt_Name : string; wt_Path : string; wt_Branch : string; wt_Workspace : string; wt_Repo : option RepoConfig }.

Section flows.
Context {W : Type} {shell : Shell W}.

(** ** [merge.go] *)

(** The clean-up that gives the stash back. *)
Definition pop_stash (repoPath : string) : Flow W unit :=
  r ← try (GitStashPop repoPath);
  match r with Ok _ => mret tt | Err _ => try (HasUnmergedFiles repoPath);; mret tt end.
Definition stashIfDirty (repoPath : string) : Flow W (Flow W unit) :=
  stashed ← GitStash repoPath; mret (if stashed : bool then pop_stash repoPath else mret tt).

Definition restore_branch (repoPath origBranch : string) : Flow W unit :=
  if bool_decide (origBranch = "") then mret tt else try (GitCheckout repoPath origBranch);; mret tt.
Definition checkoutTarget (repoPath targetBranch : string) : Flow W (Flow W unit * option goerror) :=
  r ← try (GetCurrentBranch repoPath);
  let restore := restore_branch repoPath (match r with Ok b => b | Err _ => "" end) in
  e ← try (GitCheckout repoPath targetBranch);
  mret (restore, match e with Ok _ => None | Err e => Some e end).

Definition isWorktreeConflictErr (err : option goerror) : bool :=
  match err with
  | None => false
  | Some e => contains (error_text e) "already used by worktree" || contains (error_text e) "already checked out"
  end.

Definition signature : string := String newline (String newline "Co-Authored-By: Claude Opus 4.5 <noreply@anthropic.com>").

(** The conflicted files, or the error. *)
Definition mergeSource (repoPath sourceBranch targetBranch : string) : Flow W (list string * option goerror) :=
  r ← try (GitMerge repoPath sourceBranch ("Merge " +:+ sourceBranch +:+ " into " +:+ targetBranch +:+ signature));
  match r with
  | Ok _ => mret ([], None)
  | Err e =>
      conflicts ← try (GetConflictedFiles repoPath);
      mret (match conflicts with
            | Ok ((_ :: _) as l) => (l, Some (Msg "merge conflicts detected"))
            | _ => ([], Some (Msg ("merge failed: " +:+ error_text e)))
            end)
  end.

(** ** [git_api.go]: push *)
Record PushResult := mkPush { Success : bool; Message : string; AlreadyUpToDate : bool; ConflictedFiles : list string }.
Definition up_to_date (sourceBranch : string) : PushResult :=
  mkPush true ("Already up to date (no new commits in " +:+ sourceBranch +:+ ")") true [].
Definition conflicted (l : list string) : PushResult := mkPush false "merge conflicts detected" false l.
Definition pushed (r targetBranch : string) : PushResult := mkPush true ("Pushed to " +:+ r +:+ "/" +:+ targetBranch) false [].

Definition none_new (hasCommits : res bool) : bool := match hasCommits with Ok b => negb b | Err _ => false end.
Definition temp_branch (t : Z) : string := "loom-push-temp-" +:+ itoa t.
Definition go_back (repoPath sourceBranch : string) : Flow W unit := try (GitCheckout repoPath sourceBranch);; mret tt.
Definition drop_branch (repoPath tempBranch : string) : Flow W unit := try (GitDeleteBranch repoPath tempBranch true);; mret tt.

Definition pushBranchInRepoDetachedResult (repoPath sourceBranch targetBranch remote : string) : Flow W PushResult :=
  let r := resolveRemote remote in
  t ← now;
  let tempBranch := temp_branch t in
  errorf ("checking out " +:+ r +:+ "/" +:+ targetBranch +:+ " detached: ") (GitCheckoutDetached repoPath (r +:+ "/" +:+ targetBranch));;
  deferred (go_back repoPath sourceBranch) (
    hasCommits ← try (HasCommitsBetweenRemote repoPath remote targetBranch sourceBranch);
    if none_new hasCommits then mret (up_to_date sourceBranch)
    else
      errorf "creating temp branch: " (GitCreateBranchFromHead repoPath tempBranch);;
      deferred (drop_branch repoPath tempBranch) (
        '(conflicts, mergeErr) ← mergeSource repoPath sourceBranch targetBranch;
        match mergeErr with
        | Some e => if bool_decide (conflicts = []) then fail e else mret (conflicted conflicts)
        | None =>
            errorf "pushing: " (GitPushRefspec repoPath remote tempBranch targetBranch);;
            mret (pushed r targetBranch)
        end)).

(** From the checked-out target branch on. *)
Definition push_target (repoPath sourceBranch targetBranch remote : string) : Flow W PushResult :=
  errorf ("pulling " +:+ targetBranch +:+ ": ") (GitPullRemote repoPath remote targetBranch);;
  hasCommits ← try (HasCommitsBetweenRemote repoPath remote targetBranch sourceBranch);
  if none_new hasCommits then mret (up_to_date sourceBranch)
  else
    '(conflicts, mergeErr) ← mergeSource repoPath sourceBranch targetBranch;
    match mergeErr with
    | Some e => if bool_decide (conflicts = []) then fail e else mret (conflicted conflicts)
    | None =>
        errorf "pushing: " (GitPushRemote repoPath remote targetBranch);;
        mret (pushed (resolveRemote remote) targetBranch)
    end.

Definition PushBranchInRepoResult (repoPath sourceBranch targetBranch remote : string) : Flow W PushResult :=
  errorf "fetching: " (GitFetchRemote repoPath remote);;
  stashCleanup ← errorf "stashing changes: " (stashIfDirty repoPath);
  deferred stashCleanup (
    '(restoreBranch, err) ← checkoutTarget repoPath targetBranch;
    deferred restoreBranch (
      match err with
      | Some e =>
          if isWorktreeConflictErr err then pushBranchInRepoDetachedResult repoPath sourceBranch targetBranch remote
          else fail (Msg ("checking out " +:+ targetBranch +:+ ": " +:+ error_text e))
      | None => push_target repoPath sourceBranch targetBranch remote
      end)).

(** ** Pull *)
Definition pull_message (sourceBranch : string) : string := "Pull from " +:+ sourceBranch +:+ signature.
Record PullResult := mkPull { pl_Success : bool; pl_Message : string; pl_AlreadyUpToDate : bool; pl_ConflictedFiles : list string }.

Definition PullRepoWorktreeResult (repoPath currentBranch sourceBranch remote : string) : Flow W PullResult :=
  let r := resolveRemote remote in
  errorf "fetching: " (GitFetchRemote repoPath remote);;
  m ← try (GitMergeRemote repoPath remote sourceBranch (pull_message sourceBranch));
  match m with
  | Err e =>
      conflicts ← try (GetConflictedFiles repoPath);
      try (GitMergeAbort repoPath);;
      match conflicts with
      | Ok ((_ :: _) as l) => mret (mkPull false "merge conflicts detected" false l)
      | _ => fail (Msg ("merge failed: " +:+ error_text e))
      end
  | Ok _ =>
      errorf "pushing: " (GitPushRemote repoPath remote currentBranch);;
      mret (mkPull true ("Pulled from " +:+ sourceBranch +:+ " and pushed to " +:+ r +:+ "/" +:+ currentBranch) false [])
  end.

(** ** [pr.go] *)
Record PRResult := mkPR { pr_URL : string; pr_Created : bool; pr_AlreadyExists : bool; pr_NoCommits : bool }.

Fixpoint one_line (s : string) : string :=
  match s with EmptyString => "" | String c s' => String (if bool_decide (c = newline) then " "%char else c) (one_line s') end.
Definition footer : string := "---" +:+ String newline "Created with [loom](https://github.com/tysonthomas9/loomcli)".
Definition pr_info (sourceBranch : string) (subjects : list string) : string * string :=
  match subjects with
  | [] | [""] => (sourceBranch, "")
  | [title] => (one_line title, footer)
  | title :: _ =>
      let lines := map (fun s => "- " +:+ s) (filter (fun s => s <> "") subjects) in
      (one_line title, Join newline lines +:+ String newline (String newline footer))
  end.
Definition generatePRInfo (repoPath remote targetBranch sourceBranch : string) : Flow W (string * string) :=
  let log_range range := RunGitCommand repoPath ["log"; range; "--format=%s"; "--reverse"] in
  output ← try (log_range (remote +:+ "/" +:+ targetBranch +:+ ".." +:+ remote +:+ "/" +:+ sourceBranch));
  output ← match output with
           | Ok text => mret (Ok text)
           | Err _ => try (log_range (remote +:+ "/" +:+ targetBranch +:+ ".." +:+ sourceBranch))
           end;
  mret (match output with
        | Ok text => pr_info sourceBranch (Split newline (TrimSpace text))
        | Err _ => (sourceBranch, "")
        end).

Definition getExistingPRURL (repoPath sourceBranch : string) : Flow W string :=
  check (validateGitRef sourceBranch);;
  result ← execCommand repoPath "gh" ["pr"; "view"; sourceBranch; "--json"; "url"; "-q"; ".url"];
  match cr_Err result with
  | Some _ => fail (Msg ("getting existing PR URL: " +:+ TrimSpace (Stderr result)))
  | None => mret (TrimSpace (Stdout result))
  end.

(** From the commits on: nothing new, a new request with its address, or the one there is. *)
Definition open_request (repoPath sourceBranch targetBranch r : string) (hasCommits : Flow W bool) (push : Flow W unit) : Flow W PRResult :=
  new ← try hasCommits;
  if none_new new then mret (mkPR "" false false true)
  else
    errorf "pushing branch: " push;;
    '(title, body) ← generatePRInfo repoPath r targetBranch sourceBranch;
    result ← execCommand repoPath "gh" ["pr"; "create"; "--base"; targetBranch; "--head"; sourceBranch; "--title"; title; "--body"; body];
    match cr_Err result with
    | Some _ =>
        let errMsg := Stderr result +:+ Stdout result in
        if contains errMsg "already exists" then url ← getExistingPRURL repoPath sourceBranch; mret (mkPR url false true false)
        else fail (Msg ("creating PR: " +:+ TrimSpace errMsg))
    | None => mret (mkPR (TrimSpace (Stdout result)) true false false)
    end.

Definition CreatePRResult (repoPath sourceBranch targetBranch remote : string) : Flow W PRResult :=
  let r := resolveRemote remote in
  check (validateGitRef sourceBranch);; check (validateGitRef targetBranch);; check (validateGitRef r);;
  errorf "fetching: " (GitFetchRemote repoPath remote);;
  open_request repoPath sourceBranch targetBranch r
    (HasCommitsBetweenRemote repoPath remote targetBranch sourceBranch) (GitPushRemote repoPath remote sourceBranch).
(** The command's, with the address alone. *)
Definition createPR (repoPath sourceBranch targetBranch remote : string) : Flow W string :=
  pr ← CreatePRResult repoPath sourceBranch targetBranch remote; mret (pr_URL pr).
Definition createPRLegacy (repoPath sourceBranch targetBranch : string) : Flow W string :=
  check (validateGitRef sourceBranch);; check (validateGitRef targetBranch);;
  errorf "fetching: " (GitFetch repoPath);;
  pr ← open_request repoPath sourceBranch targetBranch "origin" (HasCommitsBetween repoPath targetBranch sourceBranch) (GitPush repoPath sourceBranch);
  mret (pr_URL pr).

Definition checkGhInstalled : Flow W unit :=
  result ← execCommand "." "gh" ["--version"];
  match cr_Err result with
  | Some _ => fail (Msg "'gh' CLI not found. Install it from https://cli.github.com/ and run 'gh auth login'")
  | None => mret tt
  end.

(** ** The commands of the terminal: conflicts go to an agent *)
Section terminal.
(** The prompt for conflicts: source, target, files and what to push. *)
Context (conflict_prompt : string -> string -> list string -> string -> string).

Definition InvokeAgentForConflicts (workDir sourceBranch targetBranch : string) (conflicts : list string) : Flow W unit :=
  InvokeAgent workDir (conflict_prompt sourceBranch targetBranch conflicts targetBranch).
Definition resolveConflictsWithAgent : string -> string -> string -> list string -> Flow W unit := InvokeAgentForConflicts.
Definition resolveConflictsDetached (repoPath sourceBranch targetBranch : string) (conflicts : list string) (pushRef : string) : Flow W unit :=
  InvokeAgent repoPath (conflict_prompt sourceBranch targetBranch conflicts pushRef).

(** From the look for new commits on, once the target is checked out. *)
Definition merge_and_push (repoPath sourceBranch targetBranch : string) (hasCommits : Flow W bool)
    (resolve : list string -> Flow W unit) (push : Flow W unit) : Flow W unit :=
  new ← try hasCommits;
  if none_new new then mret tt
  else
    '(conflicts, mergeErr) ← mergeSource repoPath sourceBranch targetBranch;
    match mergeErr with
    | Some e => if bool_decide (conflicts = []) then fail e else errorf "resolving conflicts: " (resolve conflicts)
    | None => errorf "pushing: " push
    end.

(** [remote] with its name, and the new commits seen from it. *)
Definition push_detached (repoPath sourceBranch targetBranch remote : string) (hasCommits : Flow W bool) : Flow W unit :=
  let r := resolveRemote remote in
  t ← now;
  let tempBranch := temp_branch t in
  errorf ("checking out " +:+ r +:+ "/" +:+ targetBranch +:+ " detached: ") (GitCheckoutDetached repoPath (r +:+ "/" +:+ targetBranch));;
  deferred (go_back repoPath sourceBranch) (
    new ← try hasCommits;
    if none_new new then mret tt
    else
      errorf "creating temp branch: " (GitCreateBranchFromHead repoPath tempBranch);;
      deferred (drop_branch repoPath tempBranch) (
        '(conflicts, mergeErr) ← mergeSource repoPath sourceBranch targetBranch;
        match mergeErr with
        | Some e =>
            if bool_decide (conflicts = []) then fail e
            else errorf "resolving conflicts: " (resolveConflictsDetached repoPath sourceBranch targetBranch conflicts ("HEAD:" +:+ targetBranch))
        | None => errorf "pushing: " (GitPushRefspec repoPath remote tempBranch targetBranch)
        end)).
Definition pushBranchInRepoDetached (repoPath sourceBranch targetBranch remote : string) : Flow W unit :=
  push_detached repoPath sourceBranch targetBranch remote (HasCommitsBetweenRemote repoPath remote targetBranch sourceBranch).
Definition pushBranchDetached (scriptDir sourceBranch targetBranch : string) : Flow W unit :=
  push_detached scriptDir sourceBranch targetBranch "" (HasCommitsBetween scriptDir targetBranch sourceBranch).

(** The target checked out over a stash, and both undone. *)
Definition on_target (repoPath targetBranch : string) (detached body : Flow W unit) : Flow W unit :=
  stashCleanup ← errorf "stashing changes: " (stashIfDirty repoPath);
  deferred stashCleanup (
    '(restoreBranch, err) ← checkoutTarget repoPath targetBranch;
    deferred restoreBranch (
      match err with
      | Some e => if isWorktreeConflictErr err then detached else fail (Msg ("checking out " +:+ targetBranch +:+ ": " +:+ error_text e))
      | None => body
      end)).

Definition pushBranchInRepo (repoPath sourceBranch targetBranch remote : string) : Flow W unit :=
  errorf "fetching: " (GitFetchRemote repoPath remote);;
  on_target repoPath targetBranch (pushBranchInRepoDetached repoPath sourceBranch targetBranch remote) (
    errorf ("pulling " +:+ targetBranch +:+ ": ") (GitPullRemote repoPath remote targetBranch);;
    merge_and_push repoPath sourceBranch targetBranch (HasCommitsBetweenRemote repoPath remote targetBranch sourceBranch)
      (resolveConflictsWithAgent repoPath sourceBranch targetBranch) (GitPushRemote repoPath remote targetBranch)).

(** Without workspaces: errors are printed, with other words. *)
Definition pushBranch (scriptDir sourceBranch targetBranch : string) : Flow W unit :=
  try (
    errorf "Error fetching: " (GitFetch scriptDir);;
    on_target scriptDir targetBranch (pushBranchDetached scriptDir sourceBranch targetBranch) (
      errorf ("Error pulling " +:+ targetBranch +:+ ": ") (GitPull scriptDir targetBranch);;
      merge_and_push scriptDir sourceBranch targetBranch (HasCommitsBetween scriptDir targetBranch sourceBranch)
        (resolveConflictsWithAgent scriptDir sourceBranch targetBranch) (GitPush scriptDir targetBranch)));;
  mret tt.

(** A merge that may be left to the agent, and else a push. *)
Definition merge_into (repoPath currentBranch sourceBranch : string) (merge push : Flow W unit) : Flow W unit :=
  m ← try merge;
  match m with
  | Err e =>
      conflicts ← try (GetConflictedFiles repoPath);
      match conflicts with
      | Ok ((_ :: _) as l) => errorf "resolving conflicts: " (InvokeAgentForConflicts repoPath sourceBranch currentBranch l)
      | _ => fail (Msg ("merge failed: " +:+ error_text e))
      end
  | Ok _ => errorf "pushing: " push
  end.
Definition pullRepoWorktree (repoPath currentBranch sourceBranch remote : string) : Flow W unit :=
  errorf "fetching: " (GitFetchRemote repoPath remote);;
  merge_into repoPath currentBranch sourceBranch (GitMergeRemote repoPath remote sourceBranch (pull_message sourceBranch))
    (GitPushRemote repoPath remote currentBranch).
Definition pullWorktree (resolve : string -> res string) (worktreeName sourceBranch : string) : Flow W unit :=
  match resolve worktreeName with
  | Err _ => mret tt
  | Ok worktreePath =>
      try (
        currentBranch ← GetCurrentBranch worktreePath;
        GitFetch worktreePath;;
        merge_into worktreePath currentBranch sourceBranch (GitMergeOrigin worktreePath sourceBranch (pull_message sourceBranch))
          (GitPush worktreePath currentBranch));;
      mret tt
  end.

(** ** Every repository of a workspace: one that fails does not stop the others *)
Definition result : Type := string * option goerror.
Definition or_default (branch : string) (repo : RepoConfig) : string :=
  if bool_decide (branch = "") then if bool_decide (rp_DefaultBranch repo = "") then "main" else rp_DefaultBranch repo else branch.
Fixpoint each_repo (act : WorktreeInfo -> RepoConfig -> Flow W unit) (worktrees : list WorktreeInfo) : Flow W (list result) :=
  match worktrees with
  | [] => mret []
  | wt :: rest =>
      match wt_Repo wt with
      | None => each_repo act rest
      | Some repo =>
          r ← try (act wt repo);
          results ← each_repo act rest;
          mret ((wt_Name wt, match r with Ok _ => None | Err e => Some e end) :: results)
      end
  end.
Definition pushWorkspaceWorktrees (worktrees : list WorktreeInfo) (sourceBranch targetBranch : string) : Flow W (list result) :=
  each_repo (fun wt repo =>
    pushBranchInRepo (wt_Path wt) (if bool_decide (sourceBranch = "") then wt_Branch wt else sourceBranch) (or_default targetBranch repo) (rp_Remote repo)) worktrees.
Definition pullWorkspaceWorktrees (worktrees : list WorktreeInfo) (sourceBranch : string) : Flow W (list result) :=
  each_repo (fun wt repo => pullRepoWorktree (wt_Path wt) (wt_Branch wt) (or_default sourceBranch repo) (rp_Remote repo)) worktrees.
Definition prWorkspaceWorktrees (worktrees : list WorktreeInfo) (sourceBranch targetBranch : string) : Flow W (list result) :=
  each_repo (fun wt repo =>
    createPR (wt_Path wt) (if bool_decide (sourceBranch = "") then wt_Branch wt else sourceBranch) (or_default targetBranch repo) (rp_Remote repo);; mret tt) worktrees.

(** ** [sync.go] *)
Definition syncSingleWorkspace (worktrees : list WorktreeInfo) (syncPushOnly syncPullOnly : bool) : Flow W unit :=
  (if syncPullOnly then mret [] else pushWorkspaceWorktrees worktrees "" "");;
  (if syncPushOnly then mret [] else pullWorkspaceWorktrees worktrees "");;
  mret tt.
Fixpoint in_turn (l : list (Flow W unit)) : Flow W unit := match l with [] => mret tt | m :: l => m;; in_turn l end.
Definition pushAllWorktrees (scriptDir : string) (worktrees : list WorktreeInfo) (targetBranch : string) : Flow W unit :=
  in_turn (map (fun wt => pushBranch scriptDir (wt_Branch wt) targetBranch) worktrees).
Definition pullAllWorktrees (resolve : string -> res string) (worktrees : list WorktreeInfo) (sourceBranch : string) : Flow W unit :=
  in_turn (map (fun wt => pullWorktree resolve (wt_Name wt) sourceBranch) worktrees).
Definition runLegacySync (scriptDir : string) (resolve : string -> res string) (worktrees : list WorktreeInfo) (defaultBranch : string)
    (syncPushOnly syncPullOnly : bool) : Flow W unit :=
  (if syncPullOnly then mret tt else pushAllWorktrees scriptDir worktrees defaultBranch);;
  (if syncPushOnly then mret tt else pullAllWorktrees resolve worktrees defaultBranch).
End terminal.

(** ** Reset *)
Section reset.
(** What [CheckLock] finds in a worktree. *)
Context (CheckLock : string -> W -> res (option Lock.LockInfo * bool)).

Definition isProtectedBranch (branch : string) : bool := bool_decide (branch = "main" \/ branch = "master").
Definition check_lock (path : string) : Flow W (res (option Lock.LockInfo * bool)) := fun s => (s, Ok (CheckLock path (world s))).

Record ResetResult := mkReset { rs_Success : bool; rs_Message : string; rs_PreviousBranch : string }.
Record LockedError := mkLocked { le_AgentName : string; le_PID : Z; le_Duration : Z; le_TaskID : string }.
(** [Round(time.Second)] of a duration: halves away from zero. *)
Definition round_second (d : Z) : Z := (Z.sgn d * ((2 * Z.abs d + second) / (2 * second)) * second)%Z.

(** Everything that is not under version control or committed goes. *)
Definition discard_changes (path targetBranch : string) : Flow W unit :=
  errorf "resetting: " (GitReset path "HEAD");;
  errorf "cleaning: " (GitClean path);;
  errorf ("resetting to " +:+ targetBranch +:+ ": ") (GitReset path ("origin/" +:+ targetBranch)).

Definition ResetWorktreeResult (worktreePath worktreeName targetBranch : string) (force : bool) : Flow W (LockedError + ResetResult) :=
  lock ← check_lock worktreePath;
  match lock, force with
  | Ok (Some info, true), false =>
      t ← now; mret (inl (mkLocked (Lock.AgentName info) (Lock.PID info) (round_second (time_sub t (Lock.StartedAt info))) (Lock.TaskID info)))
  | _, _ =>
      currentBranch ← errorf "getting current branch: " (GetCurrentBranch worktreePath);
      if isProtectedBranch currentBranch && negb force then
        fail (Msg ("refusing to force-push to protected branch '" +:+ currentBranch +:+ "'; set force=true to override"))
      else
        errorf "fetching: " (GitFetch worktreePath);;
        discard_changes worktreePath targetBranch;;
        errorf "force pushing: " (GitPushForce worktreePath currentBranch);;
        mret (inr (mkReset true ("Reset complete: " +:+ worktreeName +:+ " is now at origin/" +:+ targetBranch) currentBranch))
  end.

(** An answer to the question at the terminal. *)
Definition confirmAction (response : res string) : bool :=
  match response with
  | Err _ => false
  | Ok line => let r := TrimSpace (Paths.ToLower line) in bool_decide (r = "y" \/ r = "yes")
  end.

(** The command: true when it is reset or the user declines. *)
Definition resetWorktree (resolve : string -> res string) (worktreeName targetBranch : string) (resetForce : bool) (confirm : option (res string)) : Flow W bool :=
  match resolve worktreeName with
  | Err _ => mret false
  | Ok worktreePath =>
      lock ← check_lock worktreePath;
      match lock, resetForce with
      | Ok (Some _, true), false => mret false
      | _, _ =>
          if match confirm with Some response => negb (confirmAction response) | None => false end then mret true
          else
            r ← try (
              currentBranch ← GetCurrentBranch worktreePath;
              GitFetch worktreePath;;
              discard_changes worktreePath targetBranch;;
              if isProtectedBranch currentBranch && negb resetForce then fail (Msg ("refusing to force-push to protected branch '" +:+ currentBranch +:+ "'."))
              else GitPushForce worktreePath currentBranch);
            mret (match r with Ok _ => true | Err _ => false end)
      end
  end.

Definition reset_branch (targetBranch : string) (explicitTarget : bool) (wt : WorktreeInfo) : string :=
  match wt_Repo wt with
  | Some repo => if negb explicitTarget && negb (bool_decide (rp_DefaultBranch repo = "")) then rp_DefaultBranch repo else targetBranch
  | None => targetBranch
  end.
(** The names of those that failed. *)
Fixpoint reset_each (resolve : string -> res string) (resetForce : bool) (targets : list (WorktreeInfo * string)) : Flow W (list string) :=
  match targets with
  | [] => mret []
  | (wt, branch) :: rest =>
      ok ← resetWorktree resolve (wt_Name wt) branch resetForce None;
      failed ← reset_each resolve resetForce rest;
      mret (if ok : bool then failed else wt_Name wt :: failed)
  end.
Definition resetAllWorktrees (resolve : string -> res string) (worktrees : list WorktreeInfo) (targetBranch : string) (explicitTarget resetForce : bool)
    (response : res string) : Flow W (list string) :=
  if bool_decide (worktrees = []) || negb (resetForce || confirmAction response) then mret []
  else reset_each resolve resetForce (map (fun wt => (wt, reset_branch targetBranch explicitTarget wt)) worktrees).
End reset.

(** ** The state of a worktree, [GetGitStatusSummary] *)
Record GitStatusSummary := mkStatus {
  gs_Branch : string; gs_TargetBranch : string; gs_IsClean : bool; gs_Ahead : Z; gs_Behind : Z;
  gs_ChangedFiles : list string; gs_ConflictedFiles : list string; gs_HasConflicts : bool; gs_StashCount : Z;
}.
Definition changed_file (line : string) : string := if (3 <? len line)%Z then str_drop 3 line else TrimSpace line.
Definition getChangedFiles (dir : string) : Flow W (list string) :=
  output ← RunGitCommand dir ["status"; "--porcelain"];
  let trimmed := TrimSpace output in
  mret (if bool_decide (trimmed = "") then [] else map changed_file (filter (fun line => line <> "") (Split newline trimmed))).
(** [x, _ := strconv.Atoi(s)]: 0 for what is no number, the nearest value for one out of range. *)
Definition Atoi_value (s : string) : Z :=
  match atoi s with
  | Some n => n
  | None =>
      match s with
      | String "-" t => match unsigned_value t with Some _ => min_int64 | None => 0 end
      | String "+" t => match unsigned_value t with Some _ => max_int64 | None => 0 end
      | _ => match unsigned_value s with Some _ => max_int64 | None => 0 end
      end
  end%Z.
(** [strings.Fields]. *)
Fixpoint Fields (s : string) : list string :=
  match s with
  | EmptyString => []
  | String c s' =>
      if is_space c then Fields s'
      else
        let begins := match s' with String d _ => negb (is_space d) | EmptyString => false end in
        match Fields s' with
        | w :: l => if begins then String c w :: l else String c "" :: w :: l
        | [] => [String c ""]
        end
  end.
Definition getAheadBehind (dir localBranch remoteBranch : string) : Flow W (Z * Z) :=
  if bool_decide (localBranch = "" \/ localBranch = "(detached)") then mret (0, 0)%Z
  else
    r ← try (RunGitCommand dir ["rev-list"; "--left-right"; "--count"; localBranch +:+ "...origin/" +:+ remoteBranch]);
    mret (match r with
          | Ok output => match Fields (TrimSpace output) with [a; b] => (Atoi_value a, Atoi_value b) | _ => (0, 0)%Z end
          | Err _ => (0, 0)%Z
          end).
Definition GetGitStatusSummary (worktreePath targetBranch : string) : Flow W GitStatusSummary :=
  b ← try (GetCurrentBranch worktreePath);
  let branch := match b with Ok b => b | Err _ => "(detached)" end in
  clean ← errorf "checking working tree: " (IsCleanWorkingTree worktreePath);
  c ← try (GetConflictedFiles worktreePath);
  let conflicts := match c with Ok l => l | Err _ => [] end in
  c ← try (getChangedFiles worktreePath);
  let changed := match c with Ok l => l | Err _ => [] end in
  '(ahead, behind) ← getAheadBehind worktreePath branch targetBranch;
  n ← try (getStashCount worktreePath);
  mret (mkStatus branch targetBranch clean ahead behind changed conflicts (negb (bool_decide (conflicts = []))) (match n with Ok n => n | Err _ => 0%Z end)).

(** ** What is run

    The calls of pushing, pulling and opening a request in a repository: no force, reset
    or clean, and no name where git looks for an option begins with a dash. *)
Inductive harmless (repo : string) : call -> Prop :=
| h_fetch r : safe r -> harmless repo (git_call repo ["fetch"; r])
| h_stash_list : harmless repo (git_call repo ["stash"; "list"])
| h_stash : harmless repo (git_call repo ["stash"])
| h_stash_pop : harmless repo (git_call repo ["stash"; "pop"])
| h_conflicts : harmless repo (git_call repo ["diff"; "--name-only"; "--diff-filter=U"])
| h_current : harmless repo (git_call repo ["branch"; "--show-current"])
| h_checkout b : safe b -> harmless repo (git_call repo ["checkout"; b])
| h_detach ref : safe ref -> harmless repo (git_call repo ["checkout"; "--detach"; ref])
| h_create t : harmless repo (git_call repo ["checkout"; "-b"; temp_branch t])
| h_drop t : harmless repo (git_call repo ["branch"; "-D"; "--"; temp_branch t])
| h_pull r b : safe r -> safe b -> harmless repo (git_call repo ["pull"; r; b])
| h_log range : safe range -> harmless repo (git_call repo ["log"; range; "--oneline"])
| h_subjects range : safe range -> harmless repo (git_call repo ["log"; range; "--format=%s"; "--reverse"])
| h_merge message b : safe b -> harmless repo (git_call repo ["merge"; "-m"; message; "--"; b])
| h_merge_remote ref message : safe ref -> harmless repo (git_call repo ["merge"; ref; "-m"; message])
| h_abort : harmless repo (git_call repo ["merge"; "--abort"])
| h_push r ref : safe r -> safe ref -> harmless repo (git_call repo ["push"; r; ref])
| h_create_pr base head title body : safe base -> safe head ->
    harmless repo (Run repo "gh" ["pr"; "create"; "--base"; base; "--head"; head; "--title"; title; "--body"; body])
| h_view_pr b : safe b -> harmless repo (Run repo "gh" ["pr"; "view"; b; "--json"; "url"; "-q"; ".url"])
| h_agent prompt : harmless repo (Agent repo prompt).
Hint Constructors harmless : git_calls.

Lemma temp_branch_safe t : safe (temp_branch t).
Proof. unfold temp_branch. rewrite append_cons. by apply safe_cons. Qed.
Hint Resolve temp_branch_safe : git_calls.
Hint Extern 1 (safe (String _ _)) => by apply safe_cons : git_calls.

(** Unfold an operation down to its calls, and find each of them in the list. *)
Ltac harmless_calls := repeat only_step; eauto 8 with git_calls.

Lemma mergeSource_calls repo source target : only (harmless repo) (mergeSource repo source target).
Proof. unfold mergeSource, GitMerge, GetConflictedFiles. harmless_calls. Qed.
Lemma commits_calls repo remote target source : only (harmless repo) (HasCommitsBetweenRemote repo remote target source).
Proof. unfold HasCommitsBetweenRemote, log_has_commits. harmless_calls. Qed.
Lemma stash_calls repo : only (harmless repo) (GitStash repo).
Proof. unfold GitStash, getStashCount. harmless_calls. Qed.
Lemma pop_calls repo : only (harmless repo) (pop_stash repo).
Proof. unfold pop_stash, GitStashPop, HasUnmergedFiles, GetConflictedFiles. harmless_calls. Qed.
Lemma checkout_calls repo b : only (harmless repo) (GitCheckout repo b).
Proof. unfold GitCheckout. harmless_calls. Qed.
Lemma restore_calls repo b : only (harmless repo) (restore_branch repo b).
Proof. unfold restore_branch. repeat only_step. apply checkout_calls. Qed.
Lemma current_calls repo : only (harmless repo) (GetCurrentBranch repo).
Proof. unfold GetCurrentBranch. harmless_calls. Qed.
Lemma fetch_calls repo remote : only (harmless repo) (GitFetchRemote repo remote).
Proof. unfold GitFetchRemote. cbv zeta. harmless_calls. Qed.
Lemma push_calls repo remote b : only (harmless repo) (GitPushRemote repo remote b).
Proof. unfold GitPushRemote. cbv zeta. harmless_calls. Qed.
Hint Resolve mergeSource_calls commits_calls stash_calls pop_calls checkout_calls restore_calls current_calls fetch_calls push_calls : git_calls.

(** The frame of a push: stash, check out, do, go back, unstash. *)
Lemma only_framed P repo target {A} (k : option goerror -> Flow W A) :
  only P (GitStash repo) -> only P (pop_stash repo) -> only P (GetCurrentBranch repo) -> (forall b, only P (GitCheckout repo b)) ->
  only P (k None) -> (forall s s' e, GitCheckout repo target s = (s', Err e) -> only P (k (Some e))) ->
  only P (stashCleanup ← errorf "stashing changes: " (stashIfDirty repo);
          deferred stashCleanup ('(restoreBranch, err) ← checkoutTarget repo target; deferred restoreBranch (k err))).
Proof.
  intros Hs Hp Hc Hb Hk Hk' s. unfold stashIfDirty, errorf, mbind, Flow_bind. destruct (Hs s) as (new & E & H). destruct (GitStash repo s) as [s1 [b|e]]; cbn [fst] in *; [|by exists new].
  cbn. assert (only P (if b then pop_stash repo else mret tt)) as Hclean by (destruct b; [done|apply only_ret]).
  assert (only P ('(restoreBranch, err) ← checkoutTarget repo target; deferred restoreBranch (k err))) as Hbody.
  { intros s'. unfold checkoutTarget, mbind, Flow_bind, try. destruct (Hc s') as (n1 & E1 & H1). destruct (GetCurrentBranch repo s') as [s2 r]. cbn [fst] in *.
    destruct (Hb target s2) as (n2 & E2 & H2). destruct (GitCheckout repo target s2) as [s3 r'] eqn:Ec. cbn [fst] in *. cbn.
    destruct (only_more P s' s2 s3 n1 n2 E1 H1 E2 H2) as (n3 & E3 & H3).
    assert (only P (deferred (restore_branch repo (match r with Ok b => b | Err _ => "" end)) (k (match r' with Ok _ => None | Err e => Some e end)))) as Hd.
    { apply only_deferred; [|destruct r'; [done|by eapply Hk']]. unfold restore_branch. repeat only_step. apply Hb. }
    destruct (Hd s3) as (n4 & E4 & H4). by eapply only_more. }
  destruct (only_deferred P _ _ Hclean Hbody s1) as (n2 & E2 & H2). by eapply only_more.
Qed.

Lemma PushResult_calls repo source target remote : only (harmless repo) (PushBranchInRepoResult repo source target remote).
Proof.
  apply only_bind; [apply only_errorf, fetch_calls|intros _].
  apply (only_framed _ repo target (fun err => match err with
    | Some e => if isWorktreeConflictErr err then pushBranchInRepoDetachedResult repo source target remote
                else fail (Msg ("checking out " +:+ target +:+ ": " +:+ error_text e))
    | None => push_target repo source target remote
    end)); auto with git_calls; [|intros s s' e _].
  all: unfold pushBranchInRepoDetachedResult, push_target, GitCheckoutDetached, go_back, drop_branch, GitCreateBranchFromHead, GitDeleteBranch, GitPushRefspec, GitPullRemote.
  all: harmless_calls.
Qed.

Lemma push_command_calls (prompt : string -> string -> list string -> string -> string) repo source target remote : only (harmless repo) (pushBranchInRepo prompt repo source target remote).
Proof.
  apply only_bind; [apply only_errorf, fetch_calls|intros _].
  apply (only_framed _ repo target (fun err => match err with
    | Some e => if isWorktreeConflictErr err then pushBranchInRepoDetached prompt repo source target remote
                else fail (Msg ("checking out " +:+ target +:+ ": " +:+ error_text e))
    | None => errorf ("pulling " +:+ target +:+ ": ") (GitPullRemote repo remote target);;
        merge_and_push repo source target (HasCommitsBetweenRemote repo remote target source)
          (resolveConflictsWithAgent prompt repo source target) (GitPushRemote repo remote target)
    end)); auto with git_calls; [|intros s s' e _].
  all: unfold pushBranchInRepoDetached, push_detached, merge_and_push, resolveConflictsDetached, resolveConflictsWithAgent, InvokeAgentForConflicts,
    GitCheckoutDetached, go_back, drop_branch, GitCreateBranchFromHead, GitDeleteBranch, GitPushRefspec, GitPullRemote.
  all: harmless_calls.
Qed.

Lemma PullResult_calls repo current source remote : only (harmless repo) (PullRepoWorktreeResult repo current source remote).
Proof.
  unfold PullRepoWorktreeResult, GitMergeRemote, GetConflictedFiles, GitMergeAbort. cbv zeta. harmless_calls.
Qed.
Lemma pull_command_calls (prompt : string -> string -> list string -> string -> string) repo current source remote : only (harmless repo) (pullRepoWorktree prompt repo current source remote).
Proof.
  unfold pullRepoWorktree, merge_into, InvokeAgentForConflicts, GitMergeRemote, GetConflictedFiles. cbv zeta. harmless_calls.
Qed.
Lemma CreatePR_calls repo source target remote : only (harmless repo) (CreatePRResult repo source target remote).
Proof.
  unfold CreatePRResult, open_request, generatePRInfo, getExistingPRURL. cbv zeta. harmless_calls.
Qed.

(** Pushing, pulling and opening a request, from the terminal or the API, run nothing but the
    listed commands of git and gh in their repository, whatever the names they are given and
    whatever the programs answer: nothing is forced, reset or removed but their own branch, and no
    name in the place of an option begins with a dash. *)
Theorem nothing_forced (prompt : string -> string -> list string -> string -> string) repo branch other remote :
  only (harmless repo) (PushBranchInRepoResult repo branch other remote) /\
  only (harmless repo) (pushBranchInRepo prompt repo branch other remote) /\
  only (harmless repo) (PullRepoWorktreeResult repo branch other remote) /\
  only (harmless repo) (pullRepoWorktree prompt repo branch other remote) /\
  only (harmless repo) (CreatePRResult repo branch other remote).
Proof.
  split_and!; [apply PushResult_calls | apply push_command_calls | apply PullResult_calls | apply pull_command_calls | apply CreatePR_calls].
Qed.

(** ** What is undone *)

(** Back to a branch, if there was one. *)
Definition home_calls (repo : string) (home : res string) : list call :=
  match home with
  | Ok b => if bool_decide (b = "") || has_prefix b "-" then [] else [git_call repo ["checkout"; b]]
  | Err _ => []
  end.
(** The stash given back, with a look for conflicts when that fails. *)
Definition stash_calls_back (repo : string) (stashed : bool) (l : list call) : Prop :=
  if stashed then l = [git_call repo ["stash"; "pop"]] \/ l = [git_call repo ["stash"; "pop"]; git_call repo ["diff"; "--name-only"; "--diff-filter=U"]]
  else l = [].
Definition not_stash (repo : string) (c : call) : Prop := forall args, c <> git_call repo ("stash" :: args).

Lemma stream_calls dir args s : calls (RunGitCommandWithOutput dir args s).1 = (calls s ++ [git_call dir args])%list.
Proof. unfold RunGitCommandWithOutput. by destruct (sh_git dir args (world s)). Qed.
Lemma run_calls dir args s : calls (RunGitCommand dir args s).1 = (calls s ++ [git_call dir args])%list.
Proof. unfold RunGitCommand, execCommand, mbind, Flow_bind. destruct (sh_exec dir "git" args (world s)) as [w r]. by destruct (cr_Err r). Qed.

Lemma restore_branch_calls repo home s :
  calls (restore_branch repo (match home with Ok b => b | Err _ => "" end) s).1 = (calls s ++ home_calls repo home)%list.
Proof.
  unfold restore_branch, home_calls. destruct home as [b|e]; [|cbn; by rewrite app_nil_r]. destruct (bool_decide (b = "")); [cbn; by rewrite app_nil_r|].
  cbn [orb]. unfold GitCheckout, validateGitRef, try, mbind, Flow_bind. destruct (has_prefix b "-"); [cbn; by rewrite app_nil_r|].
  cbn. pose proof (stream_calls repo ["checkout"; b] s) as E. destruct (RunGitCommandWithOutput repo ["checkout"; b] s) as [s' r]. cbn [fst] in E. exact E.
Qed.

Lemma pop_stash_calls repo s : exists l, calls (pop_stash repo s).1 = (calls s ++ l)%list /\ stash_calls_back repo true l.
Proof.
  unfold pop_stash, GitStashPop, try, mbind, Flow_bind. pose proof (stream_calls repo ["stash"; "pop"] s) as E.
  destruct (RunGitCommandWithOutput repo ["stash"; "pop"] s) as [s1 [a|e]]; cbn [fst] in E; [exists [git_call repo ["stash"; "pop"]]; split; [done|by left]|].
  exists [git_call repo ["stash"; "pop"]; git_call repo ["diff"; "--name-only"; "--diff-filter=U"]]. split; [|by right].
  unfold HasUnmergedFiles, GetConflictedFiles, mbind, Flow_bind. pose proof (run_calls repo ["diff"; "--name-only"; "--diff-filter=U"] s1) as E1.
  destruct (RunGitCommand repo ["diff"; "--name-only"; "--diff-filter=U"] s1) as [s2 [o|e']]; cbn [fst] in E1; cbn; by rewrite E1, E, <- app_assoc.
Qed.

Lemma framed_ends P repo target {A} (k : option goerror -> Flow W A) s s1 s2 stashed home :
  GitStash repo s = (s1, Ok stashed) -> GetCurrentBranch repo s1 = (s2, home) -> only P (GitCheckout repo target) -> (forall e, only P (k e)) ->
  exists body back, calls ((stashCleanup ← errorf "stashing changes: " (stashIfDirty repo);
          deferred stashCleanup ('(restoreBranch, err) ← checkoutTarget repo target; deferred restoreBranch (k err))) s).1 =
    (calls s2 ++ body ++ home_calls repo home ++ back)%list /\ Forall P body /\ stash_calls_back repo stashed back.
Proof.
  intros Es Ec Hb Hk. unfold stashIfDirty, errorf, mbind, Flow_bind. rewrite Es. cbn [mret Flow_ret]. unfold deferred at 1, mret, Flow_ret.
  unfold checkoutTarget, mbind, Flow_bind, try. rewrite Ec. destruct (Hb s2) as (n1 & E1 & H1). destruct (GitCheckout repo target s2) as [s3 r]. cbn [fst] in E1. unfold mret, Flow_ret.
  set (k' := k (match r with Ok _ => None | Err e => Some e end)). unfold deferred. destruct (Hk (match r with Ok _ => None | Err e => Some e end) s3) as (n2 & E2 & H2). fold k' in E2.
  destruct (k' s3) as [s4 a]. cbn [fst] in E2.
  pose proof (restore_branch_calls repo home s4) as E3. destruct (restore_branch repo _ s4) as [s5 u]. cbn [fst] in *.
  destruct stashed.
  - destruct (pop_stash_calls repo s5) as (back & E4 & H4). exists (n1 ++ n2)%list, back. rewrite E4, E3, E2, E1, <- !app_assoc.
    split; [done|]. split; [by apply Forall_app_2|done].
  - exists (n1 ++ n2)%list, []. cbn [fst]. rewrite E3, E2, E1, app_nil_r, <- !app_assoc. split; [done|]. split; [by apply Forall_app_2|done].
Qed.

(** Unfold a push down to its calls; none of them is the one to avoid. *)
Ltac calls_avoid :=
  unfold mergeSource, GitMerge, HasCommitsBetweenRemote, log_has_commits, GitPushRemote, GitStash, getStashCount, pop_stash, GitStashPop, HasUnmergedFiles,
    GetCurrentBranch, GitCheckoutDetached, go_back, drop_branch, GitCreateBranchFromHead, GitDeleteBranch, GitPushRefspec, GitPullRemote, GetConflictedFiles, GitCheckout;
  cbv zeta; repeat (intros; only_step); by repeat intro.

(** After a push, whatever happened in it, the branch it started on is checked out again and
    then the stash is given back, once if one was made and not at all otherwise; nothing
    in between touches the stash. *)
Theorem push_undone repo source target remote s s1 s2 s3 stashed home :
  GitFetchRemote repo remote s = (s1, Ok tt) -> GitStash repo s1 = (s2, Ok stashed) -> GetCurrentBranch repo s2 = (s3, home) ->
  exists body back, calls (PushBranchInRepoResult repo source target remote s).1 = (calls s3 ++ body ++ home_calls repo home ++ back)%list /\
  Forall (not_stash repo) body /\ stash_calls_back repo stashed back.
Proof.
  intros Ef Es Ec. unfold PushBranchInRepoResult. set (frame := (_ ← errorf "stashing changes: " _; _)).
  assert (errorf "fetching: " (GitFetchRemote repo remote) s = (s1, Ok tt)) as Ef' by (unfold errorf; by rewrite Ef).
  unfold mbind at 1, Flow_bind at 1. rewrite Ef'. subst frame.
  apply (framed_ends (not_stash repo) repo target (fun err => match err with
    | Some e => if isWorktreeConflictErr err then pushBranchInRepoDetachedResult repo source target remote
                else fail (Msg ("checking out " +:+ target +:+ ": " +:+ error_text e))
    | None => push_target repo source target remote
    end) s1 s2 s3 stashed home Es Ec); [unfold GitCheckout; repeat only_step; by intros ?|]. intros e.
  unfold pushBranchInRepoDetachedResult, push_target. calls_avoid.
Qed.

(** ** The way around a branch that is checked out elsewhere is never taken *)

Lemma exit_status_no_conflict n : isWorktreeConflictErr (Some (Msg ("exit status " +:+ itoa n))) = false.
Proof.
  assert (forall t, contains_byte t "y" = true -> contains ("exit status " +:+ itoa n) t = false) as H.
  { intros t Ht. destruct (contains _ t) eqn:E; [|done]. apply (contains_bytes _ _ "y") in E; [|done].
    by rewrite contains_byte_app, itoa_no_byte in E. }
  unfold isWorktreeConflictErr. cbn [error_text]. by rewrite !H.
Qed.

(** Git is started and ends by itself. *)
Definition plain_ends : Prop := forall dir args w, (sh_git dir args w).2 = Finished \/ exists n, (sh_git dir args w).2 = ExitStatus n.
Definition not_detached (c : call) : Prop := forall dir ref, c <> git_call dir ["checkout"; "--detach"; ref].

Lemma checkout_error repo target s s' e : plain_ends -> safe target -> GitCheckout repo target s = (s', Err e) -> isWorktreeConflictErr (Some e) = false.
Proof.
  intros Hp Hs E. unfold GitCheckout, validateGitRef in E. unfold safe in Hs. rewrite Hs in E. unfold check, mret, Flow_ret, mbind, Flow_bind, RunGitCommandWithOutput in E.
  destruct (Hp repo ["checkout"; target] (world s)) as [Ee|[n Ee]]; destruct (sh_git repo ["checkout"; target] (world s)) as [w r]; cbn [snd] in Ee; subst r; cbn in E; [done|].
  injection E as _ <-. apply exit_status_no_conflict.
Qed.

(** The error of a checkout whose output goes to the terminal is its exit status alone, so a target
    that is checked out in another worktree is never recognised: a push never takes the way around
    it over a detached head. *)
Theorem detached_never_taken (prompt : string -> string -> list string -> string -> string) repo source target remote :
  plain_ends -> safe target ->
  only not_detached (PushBranchInRepoResult repo source target remote) /\
  only not_detached (pushBranchInRepo prompt repo source target remote).
Proof.
  intros Hp Hs. split; (apply only_bind; [apply only_errorf; unfold GitFetchRemote; cbv zeta; repeat only_step; by repeat intro|intros _]).
  - apply (only_framed not_detached repo target (fun err => match err with
      | Some e => if isWorktreeConflictErr err then pushBranchInRepoDetachedResult repo source target remote
                  else fail (Msg ("checking out " +:+ target +:+ ": " +:+ error_text e))
      | None => push_target repo source target remote
      end)); [..|intros s s' e Ee; rewrite (checkout_error _ _ _ _ _ Hp Hs Ee); apply only_fail].
    all: unfold push_target; calls_avoid.
  - apply (only_framed not_detached repo target (fun err => match err with
    | Some e => if isWorktreeConflictErr err then pushBranchInRepoDetached prompt repo source target remote
                else fail (Msg ("checking out " +:+ target +:+ ": " +:+ error_text e))
    | None => errorf ("pulling " +:+ target +:+ ": ") (GitPullRemote repo remote target);;
        merge_and_push repo source target (HasCommitsBetweenRemote repo remote target source)
          (resolveConflictsWithAgent prompt repo source target) (GitPushRemote repo remote target)
    end)); [..|intros s s' e Ee; rewrite (checkout_error _ _ _ _ _ Hp Hs Ee); apply only_fail].
    all: unfold merge_and_push, resolveConflictsWithAgent, InvokeAgentForConflicts; calls_avoid.
Qed.

(** ** What a conflict leaves behind

    What git documents of the branch that is checked out and of unmerged files: a
    checkout is refused while files are unmerged and else fails without effect; of the
    commands of a push no other moves to another branch, reading changes nothing, and
    giving back the stash does not resolve files. *)
Class Repository (repo : string) := {
  checked_out : W -> string;
  unmerged : W -> bool;
  law_checkout : forall b w w' r, sh_git repo ["checkout"; b] w = (w', r) ->
    r = Finished /\ unmerged w = false /\ checked_out w' = b \/ r <> Finished /\ checked_out w' = checked_out w /\ unmerged w' = unmerged w;
  law_pull : forall r b w, checked_out (sh_git repo ["pull"; r; b] w).1 = checked_out w;
  law_merge : forall m b w, checked_out (sh_git repo ["merge"; "-m"; m; "--"; b] w).1 = checked_out w;
  law_pop : forall w, checked_out (sh_git repo ["stash"; "pop"] w).1 = checked_out w /\ (unmerged w = true -> unmerged (sh_git repo ["stash"; "pop"] w).1 = true);
  law_log : forall range w, checked_out (sh_exec repo "git" ["log"; range; "--oneline"] w).1 = checked_out w;
  law_diff : forall w w' r, sh_exec repo "git" ["diff"; "--name-only"; "--diff-filter=U"] w = (w', r) ->
    checked_out w' = checked_out w /\ unmerged w' = unmerged w /\ (cr_Err r = None -> TrimSpace (Stdout r) <> "" -> unmerged w = true);
}.

Section conflict.
Context (repo : string) {repository : Repository repo}.

Lemma checkout_head b s : unmerged (world s) = true ->
  checked_out (world (GitCheckout repo b s).1) = checked_out (world s) /\ unmerged (world (GitCheckout repo b s).1) = true.
Proof.
  intros Hu. unfold GitCheckout, check, validateGitRef, mbind, Flow_bind. destruct (has_prefix b "-"); [done|]. cbn [mret Flow_ret]. unfold mret, Flow_ret, RunGitCommandWithOutput.
  destruct (sh_git repo ["checkout"; b] (world s)) as [w r] eqn:E. cbn. destruct (law_checkout _ _ _ _ E) as [(_ & E' & _)|(_ & Eh & Eu)]; [congruence|].
  by rewrite Eu.
Qed.

(** An unmerged worktree stays as it is through the undoing. *)
Lemma restore_head home s : unmerged (world s) = true ->
  checked_out (world (restore_branch repo home s).1) = checked_out (world s) /\ unmerged (world (restore_branch repo home s).1) = true.
Proof.
  intros Hu. unfold restore_branch. destruct (bool_decide _); [done|]. destruct (checkout_head home s Hu) as [Eh Eu].
  unfold try, mbind, Flow_bind. destruct (GitCheckout repo home s) as [s' r]. cbn in *. done.
Qed.
Lemma diff_head s s' r : RunGitCommand repo ["diff"; "--name-only"; "--diff-filter=U"] s = (s', r) ->
  checked_out (world s') = checked_out (world s) /\ unmerged (world s') = unmerged (world s) /\ (forall o, r = Ok o -> TrimSpace o <> "" -> unmerged (world s) = true).
Proof.
  unfold RunGitCommand, execCommand, mbind, Flow_bind. destruct (sh_exec _ _ _ (world s)) as [w c] eqn:E. destruct (law_diff _ _ _ E) as (Eh & Eu & Ed).
  destruct (cr_Err c) eqn:Ec; intros [= <- <-]; cbn; (split_and!; [done|done|]); intros o [= <-]. by apply Ed.
Qed.
Lemma pop_head s : unmerged (world s) = true -> checked_out (world (pop_stash repo s).1) = checked_out (world s) /\ unmerged (world (pop_stash repo s).1) = true.
Proof.
  intros Hu. unfold pop_stash, GitStashPop, RunGitCommandWithOutput, try, mbind, Flow_bind. destruct (law_pop (world s)) as [Eh Ep]. specialize (Ep Hu).
  destruct (sh_git repo ["stash"; "pop"] (world s)) as [w r]. cbn [fst] in *. destruct (end_error r); [|done].
  unfold HasUnmergedFiles, GetConflictedFiles, mbind, Flow_bind. destruct (RunGitCommand _ _ _) as [s' o] eqn:E. apply diff_head in E as (Eh' & Eu' & _). cbn [world] in *.
  destruct o; cbn; by rewrite Eh', Eu'.
Qed.

Lemma conflicts_unmerged s s' l : GetConflictedFiles repo s = (s', Ok l) -> l <> [] ->
  checked_out (world s') = checked_out (world s) /\ unmerged (world s') = true.
Proof.
  unfold GetConflictedFiles, mbind, Flow_bind. destruct (RunGitCommand _ _ _) as [s1 [o|e]] eqn:E; [|done]. apply diff_head in E as (Eh & Eu & Ed).
  intros [= <- <-] Hl. split; [done|]. rewrite Eu. apply (Ed o); [done|]. intros Ho. apply Hl. by rewrite Ho.
Qed.

(** Conflicts found by the merge. *)
Lemma mergeSource_conflict source target s s' l e : mergeSource repo source target s = (s', Ok (l, e)) -> l <> [] ->
  checked_out (world s') = checked_out (world s) /\ unmerged (world s') = true.
Proof.
  unfold mergeSource, GitMerge, try, mbind, Flow_bind, check, validateGitRef. destruct (has_prefix source "-").
  - cbn. destruct (GetConflictedFiles repo s) as [s1 [[|x k]|e1]] eqn:E; intros [= <- <- _] Hl; try done. by eapply conflicts_unmerged.
  - unfold mret, Flow_ret, RunGitCommandWithOutput. match goal with |- context [sh_git repo ["merge"; "-m"; ?m; "--"; source] _] => pose proof (law_merge m source (world s)) as Eh end.
    destruct (sh_git repo _ (world s)) as [w r]. cbn [fst] in Eh. destruct (end_error r); [|intros [= _ <- _]; done].
    destruct (GetConflictedFiles repo _) as [s1 [[|x k]|e1]] eqn:E; intros [= <- <- _] Hl; try done. apply conflicts_unmerged in E; [|done]. cbn [world] in E. by rewrite <- Eh.
Qed.

Lemma pull_head remote b s : checked_out (world (GitPullRemote repo remote b s).1) = checked_out (world s).
Proof.
  unfold GitPullRemote, check, validateGitRef, mbind, Flow_bind. cbv zeta. destruct (has_prefix (resolveRemote remote) "-"); [done|]. destruct (has_prefix b "-"); [done|].
  unfold mret, Flow_ret, RunGitCommandWithOutput. pose proof (law_pull (resolveRemote remote) b (world s)) as Eh. by destruct (sh_git repo _ (world s)).
Qed.
Lemma commits_head remote target source s : checked_out (world (HasCommitsBetweenRemote repo remote target source s).1) = checked_out (world s).
Proof.
  unfold HasCommitsBetweenRemote, check, validateGitRef, mbind, Flow_bind. cbv zeta.
  destruct (has_prefix (resolveRemote remote) "-"); [done|]. destruct (has_prefix target "-"); [done|]. destruct (has_prefix source "-"); [done|].
  unfold mret, Flow_ret, log_has_commits, try, RunGitCommand, execCommand, mbind, Flow_bind. match goal with |- context [sh_exec repo "git" ["log"; ?range; _] _] => pose proof (law_log range (world s)) as Eh end.
  destruct (sh_exec repo "git" _ (world s)) as [w r]. cbn [fst] in Eh. by destruct (cr_Err r).
Qed.

Lemma push_target_conflict source target remote s s' r : push_target repo source target remote s = (s', Ok r) -> ConflictedFiles r <> [] ->
  checked_out (world s') = checked_out (world s) /\ unmerged (world s') = true.
Proof.
  unfold push_target, errorf, try, mbind, Flow_bind. pose proof (pull_head remote target s) as E1. destruct (GitPullRemote repo remote target s) as [s1 [u|e]]; [|done].
  pose proof (commits_head remote target source s1) as E2. destruct (HasCommitsBetweenRemote repo remote target source s1) as [s2 c]. cbn [fst] in *.
  destruct (none_new c); [by intros [= _ <-]|]. destruct (mergeSource repo source target s2) as [s3 [[l [e|]]|e]] eqn:Em; [| |done].
  - case_bool_decide as Hl; [done|]. intros [= <- <-] _. destruct (mergeSource_conflict _ _ _ _ _ _ Em Hl) as [Eh Eu]. by rewrite Eh, E2, E1.
  - destruct (GitPushRemote repo remote target s3) as [s4 [v|e]]; [|done]. by intros [= _ <-].
Qed.

(** A push that answers with conflicted files has not gone back: git refuses to leave a branch with
    unmerged files, so the worktree stays on the target branch, unmerged, and what was stashed is
    not restored onto its own branch. *)
Theorem conflict_stays_on_target source target remote s s' r :
  plain_ends -> safe target -> PushBranchInRepoResult repo source target remote s = (s', Ok r) -> ConflictedFiles r <> [] ->
  checked_out (world s') = target /\ unmerged (world s') = true.
Proof.
  intros Hp Hs E Hr. unfold PushBranchInRepoResult, stashIfDirty, errorf, mbind, Flow_bind in E.
  destruct (GitFetchRemote repo remote s) as [s1 [u|e]]; [|done]. destruct (GitStash repo s1) as [s2 [stashed|e]]; [|done].
  unfold mret, Flow_ret, deferred, checkoutTarget, try, mbind, Flow_bind in E. destruct (GetCurrentBranch repo s2) as [s3 home].
  destruct (GitCheckout repo target s3) as [s4 [v|e]] eqn:Ec.
  - unfold mret, Flow_ret in E. destruct (push_target repo source target remote s4) as [s5 [r'|e]] eqn:Et; [|by destruct (restore_branch _ _ _) as [s6 ?]].
    set (back := restore_branch repo _ s5) in E.
    assert (r' = r) as -> by congruence. destruct (push_target_conflict _ _ _ _ _ _ Et Hr) as [Eh Eu].
    destruct (restore_head (match home with Ok b => b | Err _ => "" end) s5 Eu) as [Eh1 Eu1]. fold back in Eh1, Eu1.
    assert (checked_out (world s4) = target) as Ht.
    { unfold GitCheckout, check, validateGitRef in Ec. unfold safe in Hs. rewrite Hs in Ec. unfold mret, Flow_ret, mbind, Flow_bind, RunGitCommandWithOutput in Ec.
      destruct (sh_git repo ["checkout"; target] (world s3)) as [w end_] eqn:Eg. destruct (law_checkout _ _ _ _ Eg) as [(_ & _ & Eb)|(Hn & _)].
      - by injection Ec as <- _.
      - destruct (Hp repo ["checkout"; target] (world s3)) as [Ep|[n Ep]]; rewrite Eg in Ep; cbn [snd] in Ep; subst end_; [done|]. by injection Ec. }
    injection E as <-. destruct stashed; [destruct (pop_head _ Eu1) as [Eh2 Eu2]; split; [congruence|done]|]. cbn [fst]. split; [congruence|done].
  - unfold mret, Flow_ret in E. rewrite (checkout_error _ _ _ _ _ Hp Hs Ec) in E. unfold fail in E. by destruct (restore_branch _ _ _).
Qed.
End conflict.

(** ** Protected branches *)

(** Without force the API refuses to reset a protected branch before anything is done; the command
    discards the changes and moves the branch first, and refuses to push it afterwards. *)
Theorem protected_branch_reset CheckLock resolve path name target branch confirm s s1 :
  resolve name = Ok path -> (forall info, CheckLock path (world s) <> Ok (Some info, true)) ->
  GetCurrentBranch path s = (s1, Ok branch) -> isProtectedBranch branch = true ->
  match confirm with Some response => confirmAction response = true | None => True end ->
  ResetWorktreeResult CheckLock path name target false s =
    (s1, Err (Msg ("refusing to force-push to protected branch '" +:+ branch +:+ "'; set force=true to override"))) /\
  forall s2, (GitFetch path;; discard_changes path target) s1 = (s2, Ok tt) ->
    resetWorktree CheckLock resolve name target false confirm s = (s2, Ok false).
Proof.
  intros Hr Hl Hc Hb Ha. split.
  - unfold ResetWorktreeResult, check_lock, mbind at 1, Flow_bind at 1. assert (forall k1 k2 : Flow W (LockedError + ResetResult), k2 s = k1 s -> match CheckLock path (world s), false with
      | Ok (Some info, true), false => t ← now; mret (inl (mkLocked (Lock.AgentName info) (Lock.PID info) (round_second (time_sub t (Lock.StartedAt info))) (Lock.TaskID info)))
      | _, _ => k2 end s = k1 s) as Hm.
    { intros k1 k2 E. destruct (CheckLock path (world s)) as [[[info|] []]|e] eqn:EL; try exact E. by destruct (Hl info). }
    apply (Hm (fun _ => _)). unfold errorf, mbind, Flow_bind. by rewrite Hc, Hb.
  - intros s2 E. unfold resetWorktree, check_lock, mbind at 1, Flow_bind at 1. rewrite Hr. cbn [fst snd].
    assert (forall k : Flow W bool, match CheckLock path (world s), false with Ok (Some _, true), false => mret false | _, _ => k end s = k s) as ->.
    { intros k. destruct (CheckLock path (world s)) as [[[info|] []]|e] eqn:EL; try done. by destruct (Hl info). }
    assert (match confirm with Some response => negb (confirmAction response) | None => false end = false) as -> by (destruct confirm; [by rewrite Ha|done]).
    unfold try, mbind, Flow_bind in *. rewrite Hc. destruct (GitFetch path s1) as [s4 [u|e]]; [|done]. rewrite E, Hb. done.
Qed.
End flows.

(** ** Witnesses: a repository in which every merge conflicts *)
Section witnesses.
Record demo := mkDemo { d_head : string; d_unmerged : bool; d_stash : nat }.

Definition demo_git (dir : string) (args : list string) (w : demo) : demo * run_end :=
  match args with
  | ["checkout"; b] => if d_unmerged w || bool_decide (b = "elsewhere") then (w, ExitStatus 128) else (mkDemo b false (d_stash w), Finished)
  | "merge" :: "-m" :: _ => (mkDemo (d_head w) true (d_stash w), ExitStatus 1)
  | ["stash"] => (mkDemo (d_head w) (d_unmerged w) (S (d_stash w)), Finished)
  | ["stash"; "pop"] => if d_unmerged w then (w, ExitStatus 1) else (mkDemo (d_head w) (d_unmerged w) (pred (d_stash w)), Finished)
  | _ => (w, Finished)
  end.
Definition demo_exec (dir name : string) (args : list string) (w : demo) : demo * CommandResult :=
  (w, mkResult (match args with
                | "diff" :: _ => if d_unmerged w then "a.go" else ""
                | ["stash"; "list"] => Join newline (repeat "stash" (d_stash w))
                | ["branch"; "--show-current"] => d_head w
                | ["log"; _; "--oneline"] => "1f00 work"
                | ["status"; _] => " M a.go"
                | _ => ""
                end) "" None).
#[local] Instance demo_shell : Shell demo := {| sh_exec := demo_exec; sh_git := demo_git; sh_agent _ _ w := (w, None); sh_now _ := 0%Z |}.

Definition at_home : state demo := mkState (mkDemo "falcon" false 0) [].
Definition push_falcon (target : string) : state demo * res PushResult := PushBranchInRepoResult "/wt/falcon" "falcon" target "" at_home.

Lemma demo_ends : plain_ends.
Proof.
  intros dir args w. cbn [sh_git demo_shell]. unfold demo_git. repeat case_match; cbn [snd]; try (by left); right; by eexists.
Qed.

#[local] Instance demo_repository : Repository "/wt/falcon".
Proof.
  refine {| checked_out := d_head; unmerged := d_unmerged |}.
  - intros b w w' r. cbn. destruct (d_unmerged w) eqn:E; cbn [orb]; [intros [= <- <-]; by right|]. case_bool_decide; intros [= <- <-]; [by right|by left].
  - done.
  - done.
  - intros w. cbn. by destruct (d_unmerged w) eqn:E.
  - done.
  - intros w w' r [= <- <-]. cbn. split_and!; [done|done|]. by destruct (d_unmerged w).
Defined.

Lemma push_undone_witness : exists body back,
  calls (push_falcon "main").1 = (body ++ [git_call "/wt/falcon" ["checkout"; "falcon"]] ++ back)%list /\ stash_calls_back "/wt/falcon" true back.
Proof.
  set (s1 := (GitFetchRemote "/wt/falcon" "" at_home).1). set (s2 := (GitStash "/wt/falcon" s1).1). set (s3 := (GetCurrentBranch "/wt/falcon" s2).1).
  destruct (push_undone "/wt/falcon" "falcon" "main" "" at_home s1 s2 s3 true (Ok "falcon")) as (body & back & E & _ & H); [vm_compute; reflexivity..|].
  exists (calls s3 ++ body)%list, back. split; [|exact H]. unfold push_falcon. rewrite E. by rewrite <- app_assoc.
Defined.

Lemma detached_never_taken_witness :
  (push_falcon "elsewhere").2 = Err (Msg "checking out elsewhere: exit status 128") /\
  only not_detached (PushBranchInRepoResult (W := demo) "/wt/falcon" "falcon" "elsewhere" "").
Proof.
  split; [vm_compute; reflexivity|]. apply (detached_never_taken (fun _ _ _ _ => "") "/wt/falcon" "falcon" "elsewhere" "" demo_ends eq_refl).
Defined.

Lemma conflict_stays_on_target_witness :
  (push_falcon "main").2 = Ok (conflicted ["a.go"]) /\ d_head (world (push_falcon "main").1) = "main" /\
  d_unmerged (world (push_falcon "main").1) = true /\ d_stash (world (push_falcon "main").1) = 1%nat.
Proof.
  assert (push_falcon "main" = ((push_falcon "main").1, Ok (conflicted ["a.go"]))) as E by (vm_compute; reflexivity).
  split; [by rewrite E|]. destruct (conflict_stays_on_target "/wt/falcon" "falcon" "main" "" at_home _ _ demo_ends eq_refl E) as [Eh Eu]; [done|].
  split; [exact Eh|]. split; [exact Eu|]. vm_compute. reflexivity.
Defined.

(** The first line of the status is trimmed with its leading blank: the name of a file
    that is changed and not staged loses its first letter. *)
Lemma changed_file_cut : (getChangedFiles "/wt/falcon" at_home).2 = Ok [".go"].
Proof. vm_compute. reflexivity. Qed.

(** On the way around, the temporary branch is removed while it is checked out, which git refuses. *)
Lemma temp_branch_removed_before_leaving : 
  calls (pushBranchInRepoDetachedResult "/wt/falcon" "falcon" "main" "" at_home).1 =
  map (fun args => Run "/wt/falcon" "git" args) [["checkout"; "--detach"; "origin/main"]; ["log"; "origin/main..falcon"; "--oneline"];
    ["checkout"; "-b"; "loom-push-temp-0"]; 
    ["merge"; "-m"; "Merge falcon into main" +:+ signature; "--"; "falcon"]; ["diff"; "--name-only"; "--diff-filter=U"];
    ["branch"; "-D"; "--"; "loom-push-temp-0"]; ["checkout"; "falcon"]].
Proof. vm_compute. reflexivity. Qed.
End witnesses.
End Flow.
