(* ===== verification/GitApi.v ===== *)
(** * GitApi: git over HTTP, [internal/webui/handlers_git.go], [gitops.go] and
    [internal/cli/gitops_impl.go]

    The handlers over the interface [GitOps], and the implementation by the workflows of
    [GitFlow]. Where the worktrees are, and the change of the configured branch, are
    arguments of the implementation. *)
From S2P Require Import Prelude Paths WorktreeLock FleetHandlers GitCalls GitFlow.
Import Git Flow.
Local Open Scope string_scope.

Module GitApi.

Record AgentWorktree := mkAgent {
  aw_Name : string; aw_Path : string; aw_Branch : string; aw_DefaultBranch : string; aw_Remote : string; aw_RepoName : string; aw_IsWorkspace : bool;
}.

Class GitOps (W : Type) := {
  ops_ResolveAgentWorktree : string -> Flow W AgentWorktree;
  ops_Push : string -> string -> string -> string -> Flow W PushResult;
  ops_Pull : string -> string -> string -> string -> Flow W PullResult;
  ops_CreatePR : string -> string -> string -> string -> Flow W PRResult;
  ops_Reset : string -> string -> string -> bool -> Flow W (LockedError + ResetResult);
  ops_Status : string -> string -> Flow W GitStatusSummary;
  ops_GetCurrentBranch : string -> Flow W string;
  ops_CheckGhInstalled : Flow W unit;
  ops_SetRepoDefaultBranch : string -> string -> Flow W unit;
  ops_ListAgentWorktrees : Flow W (list AgentWorktree);
}.

(** ** [gitops_impl.go] *)
Definition agent_of (wt : WorktreeInfo) : AgentWorktree :=
  match wt_Repo wt with
  | None => mkAgent (wt_Name wt) (wt_Path wt) (wt_Branch wt) "main" "" "" false
  | Some repo => mkAgent (wt_Name wt) (wt_Path wt) (wt_Branch wt) (if bool_decide (rp_DefaultBranch repo = "") then "main" else rp_DefaultBranch repo)
                   (rp_Remote repo) (rp_Name repo) true
  end.

Section implementation.
Context {W : Type} {shell : Shell W} (CheckLock : string -> W -> res (option Lock.LockInfo * bool)).
(** [NewResolver], [DiscoverWorktrees] and [SetRepoDefaultBranch] of the resolver. *)
Context (DiscoverWorktrees : Flow W (list WorktreeInfo)) (SetRepoDefaultBranch : string -> string -> Flow W unit).

Definition ResolveAgentWorktree (name : string) : Flow W AgentWorktree :=
  worktrees ← errorf "discovering worktrees: " DiscoverWorktrees;
  match List.find (fun wt => bool_decide (wt_Name wt = name)) worktrees with
  | Some wt => mret (agent_of wt)
  | None => fail (Msg ("worktree " +:+ quote name +:+ " not found"))
  end.
Definition ListAgentWorktrees : Flow W (list AgentWorktree) :=
  worktrees ← errorf "discovering worktrees: " DiscoverWorktrees; mret (map agent_of worktrees).

Definition GitOpsImpl : GitOps W := {|
  ops_ResolveAgentWorktree := ResolveAgentWorktree;
  ops_Push := PushBranchInRepoResult;
  ops_Pull := PullRepoWorktreeResult;
  ops_CreatePR := CreatePRResult;
  ops_Reset := ResetWorktreeResult CheckLock;
  ops_Status := GetGitStatusSummary;
  ops_GetCurrentBranch := GetCurrentBranch;
  ops_CheckGhInstalled := checkGhInstalled;
  ops_SetRepoDefaultBranch := SetRepoDefaultBranch;
  ops_ListAgentWorktrees := ListAgentWorktrees;
|}.
End implementation.

(** ** [handlers_git.go] *)
Record gitPushRequest := mkPushReq { pq_Target : string }.
Record gitPullRequest := mkPullReq { lq_Source : string }.
Record gitPRRequest := mkPRReq { rq_Target : string }.
Record gitResetRequest := mkResetReq { sq_Branch : string; sq_Force : bool }.
Record gitTargetRequest := mkTargetReq { tq_Branch : string }.
Record pushAllWorktreeResult := mkPushed { pw_Name : string; pw_Success : bool; pw_Message : string; pw_Error : string }.
Record pushAllResponse := mkPushAll { pa_Results : list pushAllWorktreeResult; pa_Pushed : Z; pa_Failed : Z }.

Inductive body :=
| ErrorBody (message : string)
| PushBody (r : PushResult)
| PullBody (r : PullResult)
| SyncBody (push : PushResult) (pull : option PullResult)
| PushAllBody (r : pushAllResponse)
| PRBody (r : PRResult)
| ResetBody (r : ResetResult)
| LockedBody (l : LockedError)
| StatusBody (s : GitStatusSummary)
| TargetBody (branch : string).
Abbreviation answer := (Z * body)%type.

(** [^[a-zA-Z0-9][a-zA-Z0-9_./-]*$], without two dots in a row. *)
Definition ref_char (c : ascii) : bool := Paths.name_char true c || bool_decide (c = "/"%char).
Definition validGitRef (s : string) : bool :=
  match s with
  | EmptyString => false
  | String c _ => Paths.name_char false c && negb (bool_decide (c ∈ ["_"; "-"]%char)) && forallb ref_char (String.list_ascii_of_string s)
  end.
Definition acceptable (ref : string) : bool := validGitRef ref && negb (contains ref "..").
Definition validAgentName : string -> bool := Paths.web_name_ok.

Section handlers.
Context {W : Type} {ops : GitOps W}.
Context {push_json : FleetApi.JsonBody gitPushRequest} {pull_json : FleetApi.JsonBody gitPullRequest} {pr_json : FleetApi.JsonBody gitPRRequest}
  {reset_json : FleetApi.JsonBody gitResetRequest} {target_json : FleetApi.JsonBody gitTargetRequest}.

(** A body that is not read leaves the fields empty. *)
Definition read_body {A} `{!FleetApi.JsonBody A} (zero : A) (text : string) : A := match FleetApi.decode_body text with inl a => a | inr _ => zero end.

Definition with_agent (name : string) (k : AgentWorktree -> Flow W answer) : Flow W answer :=
  if bool_decide (name = "") then mret (400, ErrorBody "missing agent name")%Z
  else if negb (validAgentName name) then mret (400, ErrorBody "invalid agent name: must match [a-zA-Z0-9_-]+")%Z
  else
    wt ← try (ops_ResolveAgentWorktree name);
    match wt with
    | Err _ => mret (404, ErrorBody ("agent worktree " +:+ quote name +:+ " not found"))%Z
    | Ok wt => k wt
    end.
(** What was asked for, or the worktree's own branch. *)
Definition chosen (asked : string) (wt : AgentWorktree) : string := if bool_decide (asked = "") then aw_DefaultBranch wt else asked.

Definition push_answer (r : res PushResult) : answer :=
  match r with
  | Err e => (502, ErrorBody (error_text e))
  | Ok result => (if negb (Success result) && negb (bool_decide (ConflictedFiles result = [])) then 409 else 200, PushBody result)
  end%Z.
Definition handleGitPush (name text : string) : Flow W answer :=
  with_agent name (fun wt =>
    let target := chosen (pq_Target (read_body (mkPushReq "") text)) wt in
    if negb (acceptable target) then mret (400, ErrorBody "invalid target branch name")%Z
    else r ← try (ops_Push (aw_Path wt) (aw_Branch wt) target (aw_Remote wt)); mret (push_answer r)).

Definition one_result (wt : AgentWorktree) (r : res PushResult) : pushAllWorktreeResult :=
  match r with
  | Err e => mkPushed (aw_Name wt) false "" (error_text e)
  | Ok result =>
      if AlreadyUpToDate result then mkPushed (aw_Name wt) true "already up to date" ""
      else if negb (Success result) then mkPushed (aw_Name wt) false "" (Message result)
      else mkPushed (aw_Name wt) true (Message result) ""
  end.
Definition count_result (r : res PushResult) (pushed failed : Z) : Z * Z :=
  match r with
  | Err _ => (pushed, failed + 1)
  | Ok result => if AlreadyUpToDate result then (pushed, failed) else if negb (Success result) then (pushed, failed + 1) else (pushed + 1, failed)
  end%Z.
Fixpoint push_each (worktrees : list AgentWorktree) (pushed failed : Z) : Flow W pushAllResponse :=
  match worktrees with
  | [] => mret (mkPushAll [] pushed failed)
  | wt :: rest =>
      r ← try (ops_Push (aw_Path wt) (aw_Branch wt) (aw_DefaultBranch wt) (resolveRemote (aw_Remote wt)));
      let '(pushed, failed) := count_result r pushed failed in
      more ← push_each rest pushed failed;
      mret (mkPushAll (one_result wt r :: pa_Results more) (pa_Pushed more) (pa_Failed more))
  end.
Definition handleGitPushAll : Flow W answer :=
  worktrees ← try ops_ListAgentWorktrees;
  match worktrees with
  | Err e => mret (500, ErrorBody ("listing worktrees: " +:+ error_text e))%Z
  | Ok worktrees => r ← push_each worktrees 0 0; mret (200, PushAllBody r)%Z
  end.

Definition pull_status (result : PullResult) : Z := (if negb (pl_Success result) && negb (bool_decide (pl_ConflictedFiles result = [])) then 409 else 200)%Z.
Definition handleGitPull (name text : string) : Flow W answer :=
  with_agent name (fun wt =>
    let source := chosen (lq_Source (read_body (mkPullReq "") text)) wt in
    if negb (acceptable source) then mret (400, ErrorBody "invalid source branch name")%Z
    else
      current ← try (ops_GetCurrentBranch (aw_Path wt));
      match current with
      | Err e => mret (500, ErrorBody ("getting current branch: " +:+ error_text e))%Z
      | Ok currentBranch =>
          r ← try (ops_Pull (aw_Path wt) currentBranch source (aw_Remote wt));
          mret (match r with Err e => (502, ErrorBody (error_text e))%Z | Ok result => (pull_status result, PullBody result) end)
      end).

Definition handleGitSync (name : string) : Flow W answer :=
  with_agent name (fun wt =>
    let target := aw_DefaultBranch wt in
    push ← try (ops_Push (aw_Path wt) (aw_Branch wt) target (aw_Remote wt));
    match push with
    | Err e => mret (502, ErrorBody ("push failed: " +:+ error_text e))%Z
    | Ok pushResult =>
        if negb (Success pushResult) && negb (bool_decide (ConflictedFiles pushResult = [])) then mret (409, SyncBody pushResult None)%Z
        else
          current ← try (ops_GetCurrentBranch (aw_Path wt));
          match current with
          | Err e => mret (500, ErrorBody ("getting current branch: " +:+ error_text e))%Z
          | Ok currentBranch =>
              r ← try (ops_Pull (aw_Path wt) currentBranch target (aw_Remote wt));
              mret (match r with
                    | Err e => (502, ErrorBody ("pull failed: " +:+ error_text e))%Z
                    | Ok result => (pull_status result, SyncBody pushResult (Some result))
                    end)
          end
    end).

Definition handleGitPR (name text : string) : Flow W answer :=
  with_agent name (fun wt =>
    gh ← try ops_CheckGhInstalled;
    match gh with
    | Err _ => mret (503, ErrorBody "gh CLI not installed: install from https://cli.github.com/ and run 'gh auth login'")%Z
    | Ok _ =>
        let target := chosen (rq_Target (read_body (mkPRReq "") text)) wt in
        if negb (acceptable target) then mret (400, ErrorBody "invalid target branch name")%Z
        else
          r ← try (ops_CreatePR (aw_Path wt) (aw_Branch wt) target (aw_Remote wt));
          mret (match r with
                | Err e => (502, ErrorBody (error_text e))
                | Ok result => (if pr_Created result then 201 else 200, PRBody result)
                end)%Z
    end).

Definition handleGitReset (name text : string) : Flow W answer :=
  with_agent name (fun wt =>
    let req := read_body (mkResetReq "" false) text in
    let target := chosen (sq_Branch req) wt in
    if negb (acceptable target) then mret (400, ErrorBody "invalid branch name")%Z
    else
      r ← try (ops_Reset (aw_Path wt) (aw_Name wt) target (sq_Force req));
      mret (match r with
            | Err e => (502, ErrorBody (error_text e))
            | Ok (inl locked) => (423, LockedBody locked)
            | Ok (inr result) => (200, ResetBody result)
            end)%Z).

Definition handleGitStatus (name : string) : Flow W answer :=
  with_agent name (fun wt =>
    r ← try (ops_Status (aw_Path wt) (aw_DefaultBranch wt));
    mret (match r with Err e => (500, ErrorBody ("getting git status: " +:+ error_text e)) | Ok s => (200, StatusBody s) end)%Z).

Definition handleGitTargetUpdate (name text : string) : Flow W answer :=
  with_agent name (fun wt =>
    match FleetApi.decode_body text with
    | inr _ => mret (400, ErrorBody "invalid request body")%Z
    | inl req =>
        let branch := tq_Branch req in
        if bool_decide (branch = "") then mret (400, ErrorBody "branch is required")%Z
        else if negb (acceptable branch) then mret (400, ErrorBody "invalid branch name")%Z
        else if negb (aw_IsWorkspace wt) then mret (400, ErrorBody "target branch update only supported in workspace mode")%Z
        else
          r ← try (ops_SetRepoDefaultBranch (aw_RepoName wt) branch);
          mret (match r with Err e => (500, ErrorBody ("updating target branch: " +:+ error_text e)) | Ok _ => (200, TargetBody branch) end)%Z
    end).

(** ** A push of everything *)

(** One result for each worktree in order, whatever happens; those that failed are counted. *)
Theorem push_all_counted worktrees pushed failed s : exists s' r, push_each worktrees pushed failed s = (s', Ok r) /\
  map pw_Name (pa_Results r) = map aw_Name worktrees /\
  pa_Failed r = (failed + Z.of_nat (length (filter (fun w => pw_Success w = false) (pa_Results r))))%Z /\
  (pushed <= pa_Pushed r <= pushed + Z.of_nat (length (filter (fun w => pw_Success w = true) (pa_Results r))))%Z.
Proof.
  revert pushed failed s. induction worktrees as [|wt l IH]; intros pushed failed s; [eexists _, _; split; [done|]; cbn; split_and!; [done|lia..]|].
  cbn [push_each]. unfold try, mbind, Flow_bind. destruct (ops_Push _ _ _ _ s) as [s1 r1].
  destruct (count_result r1 pushed failed) as [pushed' failed'] eqn:Ec. destruct (IH pushed' failed' s1) as (s2 & r2 & E & Hn & Hf & Hp). rewrite E.
  eexists _, _. split; [done|]. cbn [pa_Results pa_Pushed pa_Failed map]. split; [rewrite Hn; by destruct r1 as [[[] ? [] ?]|]|].
  destruct r1 as [[su msg up conflicts]|e]; unfold count_result, one_result in *; cbn [AlreadyUpToDate Success Message] in *;
    [destruct up, su; cbn [negb] in *|]; injection Ec as <- <-;
    repeat first [rewrite filter_cons_True by done | rewrite filter_cons_False by done]; cbn [length]; lia.
Qed.

(** ** Names in requests *)

(** A name that is accepted is no option and has no sign that git gives a meaning to in a
    refspec or a range. *)
Theorem acceptable_plain ref c : acceptable ref = true -> contains_byte ref c = true -> ref_char c = true /\ safe ref.
Proof.
  unfold acceptable. intros [Hv _]%andb_true_iff Hc. destruct ref as [|d ref]; [done|]. cbn [validGitRef] in Hv.
  apply andb_true_iff in Hv as [[_ Hd]%andb_true_iff Hall]. split.
  - rewrite forallb_forall in Hall. apply Hall. revert Hc. generalize (String d ref). intros t. induction t as [|x t IHt]; [done|].
    cbn [contains_byte]. intros [->%bool_decide_eq_true|Hc]%orb_true_iff; cbn; [by left|right; by apply IHt].
  - apply safe_cons. intros ->. done.
Qed.

(** Another name is refused before anything is asked of git. *)
Theorem bad_target_refused name text s s1 wt :
  name <> "" -> validAgentName name = true -> ops_ResolveAgentWorktree name s = (s1, Ok wt) ->
  acceptable (chosen (pq_Target (read_body (mkPushReq "") text)) wt) = false ->
  handleGitPush name text s = (s1, Ok (400%Z, ErrorBody "invalid target branch name")).
Proof.
  intros Hn Hv Hr Ha. unfold handleGitPush, with_agent. rewrite bool_decide_false, Hv by done. cbn [negb]. unfold try, mbind, Flow_bind. rewrite Hr. by rewrite Ha.
Qed.
End handlers.
End GitApi.
