(* ===== verification/Resolver.v ===== *)
(** * Resolver: where worktrees are, [internal/cli/worktree.go]

    The resolver over the configured workspaces or the directory of worktrees, the
    resolution of names, and the search for the integration branch. The configuration as it
    was loaded, the directories and the environment are arguments; branches come from git
    through [GitCalls]. *)
From S2P Require Import Prelude Paths GitCalls GitFlow.
Import Git Flow.
Local Open Scope Z_scope.
Local Open Scope string_scope.

Module Resolving.

Record WorkspaceConfig := mkWorkspace { ws_Path : string; ws_Repos : list RepoConfig }.
(** The fields that are read here. *)
Record LoomConfig := mkLoom { DefaultWorkspace : string; Workspaces : gmap string WorkspaceConfig }.
Inductive ResolverMode := ModeLegacy | ModeWorkspace.
Record Resolver := mkResolver { mode : ResolverMode; config : option LoomConfig; workspace : string }.

Section resolver.
Context {sorting : SliceSort}.

Definition workspace_names (cfg : LoomConfig) : list string := sort_slice str_lt (map fst (map_to_list (Workspaces cfg))).
(** The configured workspace, or the first by name. *)
Definition chosen_workspace (cfg : LoomConfig) : string :=
  if bool_decide (DefaultWorkspace cfg = "") then default "" (head (workspace_names cfg)) else DefaultWorkspace cfg.

Definition legacy : Resolver := mkResolver ModeLegacy None "".
Definition NewResolver (loaded : res (option LoomConfig)) : Resolver :=
  match loaded with
  | Ok (Some cfg) => if bool_decide (Workspaces cfg = ∅) then legacy else mkResolver ModeWorkspace (Some cfg) (chosen_workspace cfg)
  | _ => legacy
  end.

Definition SetWorkspace (name : string) (r : Resolver) : res Resolver :=
  match config r with
  | None => Err (Msg "no config loaded; cannot set workspace")
  | Some cfg =>
      match Workspaces cfg !! name with
      | None => Err (Msg ("workspace " +:+ quote name +:+ " not found in config"))
      | Some _ => Ok (mkResolver (mode r) (config r) name)
      end
  end.
Definition WorkspaceNames (r : Resolver) : list string :=
  match mode r, config r with ModeWorkspace, Some cfg => workspace_names cfg | _, _ => [] end.
Definition active (r : Resolver) : option WorkspaceConfig := cfg ← config r; Workspaces cfg !! workspace r.

(** ** Directories *)
Context (exists_ : string -> bool) (ReadDir : string -> res (list (string * bool))) (Getwd : res string).
Context (worktreesFlag LOOM_WORKTREES_DIR LOOM_DEFAULT_BRANCH : string).

Definition getWorktreesDirLegacy : string :=
  if negb (bool_decide (worktreesFlag = "")) then Paths.Clean worktreesFlag
  else if negb (bool_decide (LOOM_WORKTREES_DIR = "")) then Paths.Clean LOOM_WORKTREES_DIR
  else "worktrees".
Definition GetScriptDir : res string :=
  match Getwd with Ok d => Ok d | Err e => Err (Wrapf "failed to get current directory: " e "") end.
Definition ResolveWorktreesDir : res string :=
  let dir := getWorktreesDirLegacy in
  if Paths.IsAbs dir then Ok dir else match GetScriptDir with Ok d => Ok (Paths.Join d dir) | Err e => Err e end.
Definition GetWorktreesDir (r : Resolver) : string :=
  match mode r, active r with ModeWorkspace, Some ws => ws_Path ws | _, _ => getWorktreesDirLegacy end.

Definition repo_path (ws : WorkspaceConfig) (repo : RepoConfig) : string :=
  if Paths.IsAbs (rp_Path repo) then rp_Path repo else Paths.Join (ws_Path ws) (rp_Path repo).

(** ** Names *)
Definition resolveWorkspacePath (r : Resolver) (name : string) : res string :=
  if bool_decide (name = "") then Getwd
  else if Paths.IsAbs name then
    if exists_ name then Ok name else Err (Msg ("worktree path does not exist: " +:+ name))
  else
    match active r with
    | None => Err (Msg ("workspace " +:+ quote (workspace r) +:+ " not found in config"))
    | Some ws =>
        match List.find (fun repo => bool_decide (rp_Name repo = name)) (ws_Repos ws) with
        | None => Err (Msg ("repo '" +:+ name +:+ "' not found in workspace " +:+ quote (workspace r)))
        | Some repo =>
            if exists_ (repo_path ws repo) then Ok (repo_path ws repo)
            else Err (Msg ("repo '" +:+ name +:+ "' path does not exist: " +:+ repo_path ws repo))
        end
    end.
Definition ResolveWorktreePath (r : Resolver) (name : string) : res string :=
  match mode r with
  | ModeWorkspace => resolveWorkspacePath r name
  | ModeLegacy => Paths.resolveLegacyPath Getwd ResolveWorktreesDir exists_ name
  end.
Definition ResolveWorkspaceByName (r : Resolver) (name : string) : option string :=
  match mode r, config r with
  | ModeWorkspace, Some cfg =>
      if bool_decide (name = "") then None
      else match Workspaces cfg !! name with
           | Some ws => if bool_decide (ws_Path ws = "") then None else Some (ws_Path ws)
           | None => None
           end
  | _, _ => None
  end.

Record ResolvedTarget := mkTarget { WorkDir : string; AgentName : string }.
Definition root_target (r : Resolver) : res ResolvedTarget :=
  match active r with
  | Some ws => if bool_decide (ws_Path ws = "") then Err (Msg ("workspace " +:+ quote (workspace r) +:+ " has no path configured"))
               else Ok (mkTarget (ws_Path ws) (workspace r))
  | None => Err (Msg ("workspace " +:+ quote (workspace r) +:+ " has no path configured"))
  end.
(** With [r] from the configuration; names without workspaces go through the resolver of the
    process, [r0]. *)
Definition ResolveAgentTarget (r r0 : Resolver) (name : string) : res ResolvedTarget :=
  match mode r with
  | ModeWorkspace =>
      if negb (bool_decide (name = "")) && Paths.IsAbs name then
        if exists_ name then Ok (mkTarget name (Paths.Base name)) else Err (Msg ("path does not exist: " +:+ name))
      else
        match ResolveWorkspaceByName r name with
        | Some wsPath => Ok (mkTarget wsPath name)
        | None =>
            if bool_decide (name = "") then root_target r
            else match ResolveWorktreePath r name with
                 | Err e => Err (Wrapf ("'" +:+ name +:+ "' is not a workspace or repo name: ") e "")
                 | Ok _ => root_target r
                 end
        end
  | ModeLegacy =>
      match ResolveWorktreePath r0 name with
      | Err e => Err e
      | Ok worktreePath => Ok (mkTarget worktreePath (Paths.Base worktreePath))
      end
  end.

(** [GetBeadsDir], without its cache. *)
Definition GetBeadsDir (loaded : res (option LoomConfig)) : string :=
  match loaded with
  | Ok (Some cfg) =>
      if bool_decide (Workspaces cfg = ∅) then "."
      else match Workspaces cfg !! chosen_workspace cfg with
           | Some ws => if bool_decide (ws_Path ws = "") then "." else ws_Path ws
           | None => "."
           end
  | _ => "."
  end.

(** The first repository of that name. *)
Fixpoint set_branch (repoName branch : string) (repos : list RepoConfig) : option (list RepoConfig) :=
  match repos with
  | [] => None
  | repo :: rest =>
      if bool_decide (rp_Name repo = repoName) then Some (mkRepo (rp_Name repo) (rp_Path repo) branch (rp_Remote repo) :: rest)
      else l ← set_branch repoName branch rest; Some (repo :: l)
  end.
(** The configuration that is saved, and the resolver after it. *)
Definition SetRepoDefaultBranch (repoName branch : string) (r : Resolver) : res (Resolver * LoomConfig) :=
  match mode r, config r with
  | ModeWorkspace, Some cfg =>
      match Workspaces cfg !! workspace r with
      | None => Err (Msg ("workspace " +:+ quote (workspace r) +:+ " not found"))
      | Some ws =>
          match set_branch repoName branch (ws_Repos ws) with
          | None => Err (Msg ("repo " +:+ quote repoName +:+ " not found in workspace " +:+ quote (workspace r)))
          | Some repos =>
              let cfg := mkLoom (DefaultWorkspace cfg) (<[workspace r := mkWorkspace (ws_Path ws) repos]> (Workspaces cfg)) in
              Ok (mkResolver (mode r) (Some cfg) (workspace r), cfg)
          end
      end
  | _, _ => Err (Msg "target branch update only supported in workspace mode")
  end.

(** ** Discovery *)
Section discovery.
Context {W : Type} {shell : Shell W}.

Definition branch_of (path : string) : Flow W string :=
  r ← try (GetCurrentBranch path); mret (match r with Ok b => b | Err _ => "unknown" end).

Fixpoint legacy_entries (worktreesDir : string) (entries : list (string * bool)) : Flow W (list WorktreeInfo) :=
  match entries with
  | [] => mret []
  | (name, is_dir) :: rest =>
      let worktreePath := Paths.Join worktreesDir name in
      if negb is_dir || negb (exists_ (Paths.Join worktreePath ".git")) then legacy_entries worktreesDir rest
      else
        branch ← branch_of worktreePath;
        l ← legacy_entries worktreesDir rest;
        mret (mkWt name worktreePath branch "" None :: l)
  end.
Definition discoverLegacy : Flow W (list WorktreeInfo) :=
  match ResolveWorktreesDir with
  | Err e => fail e
  | Ok worktreesDir =>
      if negb (exists_ worktreesDir) then fail (Msg ("worktrees directory not found: " +:+ worktreesDir))
      else match ReadDir worktreesDir with
           | Err e => fail (Wrapf "failed to read worktrees directory: " e "")
           | Ok entries => legacy_entries worktreesDir entries
           end
  end.

Fixpoint workspace_repos (name : string) (ws : WorkspaceConfig) (repos : list RepoConfig) : Flow W (list WorktreeInfo) :=
  match repos with
  | [] => mret []
  | repo :: rest =>
      let repoPath := repo_path ws repo in
      if negb (exists_ (Paths.Join repoPath ".git")) then workspace_repos name ws rest
      else
        branch ← branch_of repoPath;
        l ← workspace_repos name ws rest;
        mret (mkWt (rp_Name repo) repoPath branch name (Some repo) :: l)
  end.
Definition discoverWorkspace (r : Resolver) : Flow W (list WorktreeInfo) :=
  match active r with
  | None => fail (Msg ("workspace " +:+ quote (workspace r) +:+ " not found in config"))
  | Some ws => workspace_repos (workspace r) ws (ws_Repos ws)
  end.
Definition DiscoverWorktrees (r : Resolver) : Flow W (list WorktreeInfo) :=
  match mode r with ModeWorkspace => discoverWorkspace r | ModeLegacy => discoverLegacy end.

(** ** The integration branch *)
Definition candidates (output : string) (worktrees : list WorktreeInfo) : list string :=
  let wtBranches := map (fun wt => "origin/" +:+ wt_Branch wt) worktrees in
  filter (fun branch => ~ (branch ∈ ["" ; "origin/HEAD"; "origin/main"; "origin/master"]) /\ ~ (branch ∈ wtBranches))
    (map TrimSpace (Split newline (TrimSpace output))).

(** Commits from a reference to a worktree's branch. *)
Definition commits_to (repoPath ref : string) (wt : WorktreeInfo) : Flow W (option Z) :=
  r ← try (RunGitCommand repoPath ["rev-list"; "--count"; ref +:+ "..origin/" +:+ wt_Branch wt]);
  mret (match r with Ok out => Some (Atoi_value (TrimSpace out)) | Err _ => None end).
Definition is_ancestor (repoPath ref : string) (wt : WorktreeInfo) : Flow W bool :=
  r ← try (RunGitCommand repoPath ["merge-base"; "--is-ancestor"; ref; "origin/" +:+ wt_Branch wt]);
  mret (match r with Ok _ => true | Err _ => false end).

(** The largest distance to a worktree; none when it is not an ancestor of all. *)
Fixpoint max_dist (ancestor : bool) (repoPath ref : string) (worktrees : list WorktreeInfo) (maxDist : Z) : Flow W (option Z) :=
  match worktrees with
  | [] => mret (Some maxDist)
  | wt :: rest =>
      ok ← (if ancestor then is_ancestor repoPath ref wt else mret true);
      if negb ok then mret None
      else
        dist ← commits_to repoPath ref wt;
        match dist with
        | None => mret None
        | Some dist => max_dist ancestor repoPath ref rest (if (maxDist <? dist)%Z then dist else maxDist)
        end
  end.
Fixpoint closest (repoPath : string) (worktrees : list WorktreeInfo) (cs : list string) (best : option (string * Z)) : Flow W (option (string * Z)) :=
  match cs with
  | [] => mret best
  | candidate :: rest =>
      maxDist ← max_dist true repoPath candidate worktrees 0;
      closest repoPath worktrees rest
        (match maxDist, best with
         | None, _ => best
         | Some d, None => Some (candidate, d)
         | Some d, Some (_, bestMaxDist) => if (d <? bestMaxDist)%Z then Some (candidate, d) else best
         end)
  end.
Definition ref_exists (repoPath ref : string) : Flow W bool :=
  r ← try (RunGitCommand repoPath ["rev-parse"; "--verify"; ref]); mret (match r with Ok _ => true | Err _ => false end).
Definition main_ref (repoPath : string) : Flow W (option string) :=
  main ← ref_exists repoPath "origin/main";
  if main : bool then mret (Some "origin/main")
  else master ← ref_exists repoPath "origin/master"; mret (if master : bool then Some "origin/master" else None).

Definition trim_origin (branch : string) : string := if has_prefix branch "origin/" then str_drop 7 branch else branch.
Definition detect_in (repoPath : string) (worktrees : list WorktreeInfo) : Flow W string :=
  output ← try (RunGitCommand repoPath ["branch"; "-r"; "--format=%(refname:short)"]);
  match output with
  | Err _ => mret ""
  | Ok output =>
      best ← closest repoPath worktrees (candidates output worktrees) None;
      match best with
      | None => mret ""
      | Some (bestBranch, bestMaxDist) =>
          ref ← main_ref repoPath;
          match ref with
          | None => mret ""
          | Some mainRef =>
              mainMaxDist ← max_dist false repoPath mainRef worktrees 0;
              mret (match mainMaxDist with
                    | Some d => if (d <=? bestMaxDist)%Z then "" else trim_origin bestBranch
                    | None => ""
                    end)
          end
      end
  end.
Definition DetectIntegrationBranch (worktrees : list WorktreeInfo) : Flow W string :=
  match worktrees with
  | [] | [_] => mret ""
  | wt :: _ => detect_in (wt_Path wt) worktrees
  end.

(** The result is kept for a minute, for whatever worktrees. *)
Record cache := mkCache { integrationBranchCache : string; integrationBranchCacheAt : Z }.
Definition integrationBranchTTL : Z := (60 * second)%Z.
Definition GetDefaultBranchForWorktrees (c : cache) (worktrees : list WorktreeInfo) : Flow W (string * cache) :=
  if negb (bool_decide (LOOM_DEFAULT_BRANCH = "")) then mret (LOOM_DEFAULT_BRANCH, c)
  else if (Z.of_nat (length worktrees) <? 2)%Z then mret ("main", c)
  else
    t ← now;
    if negb (bool_decide (integrationBranchCache c = "")) && (time_sub t (integrationBranchCacheAt c) <? integrationBranchTTL)%Z then mret (integrationBranchCache c, c)
    else
      detected ← DetectIntegrationBranch worktrees;
      let result := if bool_decide (detected = "") then "main" else detected in
      t ← now;
      mret (result, mkCache result t).

Definition GetDefaultBranch (c : cache) (r : Resolver) : Flow W (string * cache) :=
  if negb (bool_decide (LOOM_DEFAULT_BRANCH = "")) then mret (LOOM_DEFAULT_BRANCH, c)
  else
    match mode r with
    | ModeWorkspace =>
        mret (match active r with
              | Some ws => default "main" (head (filter (fun b => b <> "") (map rp_DefaultBranch (ws_Repos ws))))
              | None => "main"
              end, c)
    | ModeLegacy =>
        worktrees ← try (DiscoverWorktrees r);
        GetDefaultBranchForWorktrees c (match worktrees with Ok l => l | Err _ => [] end)
    end.

(** ** The search against its specification

    Reading git changes nothing here: [w] is the world throughout. *)
Section search.
Context (repoPath : string) (w : W) (static : forall args, (sh_exec repoPath "git" args w).1 = w).

(** What git answers; none for an error. *)
Definition git_says (args : list string) : option string :=
  let r := (sh_exec repoPath "git" args w).2 in match cr_Err r with Some _ => None | None => Some (Stdout r) end.
Definition distance (ref : string) (wt : WorktreeInfo) : option Z :=
  (fun out => Atoi_value (TrimSpace out)) <$> git_says ["rev-list"; "--count"; ref +:+ "..origin/" +:+ wt_Branch wt].
Definition below (ref : string) (wt : WorktreeInfo) : bool :=
  match git_says ["merge-base"; "--is-ancestor"; ref; "origin/" +:+ wt_Branch wt] with Some _ => true | None => false end.
(** The distance to the worktree that is farthest, of a reference below all of them. *)
Fixpoint farthest (ancestor : bool) (ref : string) (worktrees : list WorktreeInfo) : option Z :=
  match worktrees with
  | [] => Some 0%Z
  | wt :: rest =>
      if ancestor && negb (below ref wt) then None
      else d ← distance ref wt; m ← farthest ancestor ref rest; Some (Z.max d m)
  end.
Definition main_branch : option string :=
  match git_says ["rev-parse"; "--verify"; "origin/main"] with
  | Some _ => Some "origin/main"
  | None => match git_says ["rev-parse"; "--verify"; "origin/master"] with Some _ => Some "origin/master" | None => None end
  end.

Definition answers {A} (m : Flow W A) (a : A) : Prop := forall s, world s = w -> exists s', m s = (s', Ok a) /\ world s' = w.

Lemma answers_ret {A} (a : A) : answers (mret a) a.
Proof. intros s Hs. by exists s. Qed.
Lemma answers_bind {A B} (m : Flow W A) (f : A -> Flow W B) a b : answers m a -> answers (f a) b -> answers (m ≫= f) b.
Proof.
  intros Hm Hf s Hs. destruct (Hm s Hs) as (s1 & E & H1). destruct (Hf s1 H1) as (s2 & E2 & H2). exists s2. unfold mbind, Flow_bind. by rewrite E.
Qed.
Lemma answers_try args : answers (try (RunGitCommand repoPath args))
  (match git_says args with Some out => Ok out | None => Err (Msg ("git " +:+ Join " " args +:+ " failed: " +:+ Stderr (sh_exec repoPath "git" args w).2)) end).
Proof.
  intros s Hs. unfold try, RunGitCommand, execCommand, mbind, Flow_bind, git_says. rewrite Hs. pose proof (static args) as Hw.
  destruct (sh_exec repoPath "git" args w) as [w' r]. cbn in *. subst w'. destruct (cr_Err r); by eexists.
Qed.

Lemma answers_distance ref wt : answers (commits_to repoPath ref wt) (distance ref wt).
Proof. eapply answers_bind; [apply answers_try|]. unfold distance. destruct (git_says _); apply answers_ret. Qed.
Lemma answers_below ref wt : answers (is_ancestor repoPath ref wt) (below ref wt).
Proof. eapply answers_bind; [apply answers_try|]. unfold below. destruct (git_says _); apply answers_ret. Qed.
Lemma answers_exists ref : answers (ref_exists repoPath ref) (match git_says ["rev-parse"; "--verify"; ref] with Some _ => true | None => false end).
Proof. eapply answers_bind; [apply answers_try|]. destruct (git_says _); apply answers_ret. Qed.
Lemma answers_main : answers (main_ref repoPath) main_branch.
Proof.
  eapply answers_bind; [apply answers_exists|]. unfold main_branch. destruct (git_says ["rev-parse"; "--verify"; "origin/main"]); [apply answers_ret|].
  eapply answers_bind; [apply answers_exists|]. destruct (git_says _); apply answers_ret.
Qed.

Lemma answers_max_dist ancestor ref worktrees : forall m, (0 <= m)%Z -> answers (max_dist ancestor repoPath ref worktrees m) (Z.max m <$> farthest ancestor ref worktrees).
Proof.
  induction worktrees as [|wt rest IH]; intros m Hm; [cbn; rewrite Z.max_l by done; apply answers_ret|]. cbn [max_dist farthest].
  assert (answers (if ancestor then is_ancestor repoPath ref wt else mret true) (negb (ancestor && negb (below ref wt)))) as Hok.
  { destruct ancestor; [cbn [andb]; rewrite negb_involutive; apply answers_below|apply answers_ret]. }
  eapply answers_bind; [exact Hok|]. rewrite negb_involutive. destruct (ancestor && negb (below ref wt)); [apply answers_ret|].
  eapply answers_bind; [apply answers_distance|]. destruct (distance ref wt) as [d|]; [|apply answers_ret].
  cbn [mbind option_bind]. assert ((if (m <? d)%Z then d else m) = Z.max m d) as -> by (destruct (Z.ltb_spec m d); lia).
  intros s Hs. destruct (IH (Z.max m d) ltac:(lia) s Hs) as (s' & E & H). exists s'. split; [|done]. rewrite E. f_equal. f_equal.
  destruct (farthest ancestor ref rest) as [x|]; [|done]. cbn. f_equal. lia.
Qed.

(** The best of a list of candidates after those before them. *)
Definition is_best (worktrees : list WorktreeInfo) (cs : list string) (best : option (string * Z)) : Prop :=
  match best with
  | Some (c, d) => c ∈ cs /\ farthest true c worktrees = Some d /\ forall c' d', c' ∈ cs -> farthest true c' worktrees = Some d' -> (d <= d')%Z
  | None => forall c, c ∈ cs -> farthest true c worktrees = None
  end.
Lemma farthest_nonneg ancestor ref worktrees d : farthest ancestor ref worktrees = Some d -> (0 <= d)%Z.
Proof.
  revert d. induction worktrees as [|wt rest IH]; intros d; cbn; [intros [= <-]; lia|]. destruct (_ && _); [done|].
  destruct (distance ref wt) as [x|]; [|done]. destruct (farthest ancestor ref rest) as [y|]; [|done]. cbn. intros [= <-]. specialize (IH y eq_refl). lia.
Qed.

Lemma answers_closest worktrees cs : forall before best, is_best worktrees before best ->
  exists best', answers (closest repoPath worktrees cs best) best' /\ is_best worktrees (before ++ cs) best'.
Proof.
  induction cs as [|c cs IH]; intros before best Hb; [exists best; rewrite app_nil_r; split; [apply answers_ret|done]|].
  set (best1 := match farthest true c worktrees, best with
    | None, _ => best | Some d, None => Some (c, d) | Some d, Some (_, b) => if (d <? b)%Z then Some (c, d) else best end).
  assert (is_best worktrees (before ++ [c]) best1) as H1.
  { unfold best1, is_best in *. destruct (farthest true c worktrees) as [d|] eqn:E; destruct best as [[b e]|].
    - destruct Hb as (Hin & Hf & Hle). destruct (Z.ltb_spec d e).
      + split_and!; [apply elem_of_app; right; by apply list_elem_of_singleton|done|]. intros c' d' [Hc| ->%list_elem_of_singleton]%elem_of_app E'; [specialize (Hle _ _ Hc E'); lia|]. rewrite E in E'. injection E'. lia.
      + split_and!; [apply elem_of_app; by left|done|]. intros c' d' [Hc| ->%list_elem_of_singleton]%elem_of_app E'; [by eapply Hle|]. rewrite E in E'. injection E'. lia.
    - split_and!; [apply elem_of_app; right; by apply list_elem_of_singleton|done|]. intros c' d' [Hc| ->%list_elem_of_singleton]%elem_of_app E'; [by rewrite Hb in E'|]. rewrite E in E'. injection E'. lia.
    - destruct Hb as (Hin & Hf & Hle). split_and!; [apply elem_of_app; by left|done|]. intros c' d' [Hc| ->%list_elem_of_singleton]%elem_of_app E'; [by eapply Hle|]. by rewrite E in E'.
    - intros c' [Hc| ->%list_elem_of_singleton]%elem_of_app; [by apply Hb|done]. }
  destruct (IH _ _ H1) as (best' & Ha & Hb'). exists best'. split; [|by rewrite <- app_assoc in Hb'].
  cbn [closest]. eapply answers_bind; [by apply answers_max_dist|]. assert (Z.max 0 <$> farthest true c worktrees = farthest true c worktrees) as ->; [|exact Ha].
  destruct (farthest true c worktrees) as [d|] eqn:E; [|done]. cbn. apply farthest_nonneg in E. f_equal. lia.
Qed.

Definition listed (worktrees : list WorktreeInfo) : list string :=
  match git_says ["branch"; "-r"; "--format=%(refname:short)"] with Some output => candidates output worktrees | None => [] end.
(** A candidate below all worktrees, as near as any, and nearer than the main branch; or none
    where no candidate is nearer. *)
Definition integration_branch (worktrees : list WorktreeInfo) (b : string) : Prop :=
  (exists c d ref m, b = trim_origin c /\ c ∈ listed worktrees /\ farthest true c worktrees = Some d /\
     (forall c' d', c' ∈ listed worktrees -> farthest true c' worktrees = Some d' -> (d <= d')%Z) /\
     main_branch = Some ref /\ farthest false ref worktrees = Some m /\ (d < m)%Z) \/
  b = "" /\ forall c d ref m, c ∈ listed worktrees -> farthest true c worktrees = Some d ->
     main_branch = Some ref -> farthest false ref worktrees = Some m -> (m <= d)%Z.

Lemma answers_detect worktrees : exists b, answers (detect_in repoPath worktrees) b /\ integration_branch worktrees b.
Proof.
  pose proof (answers_try ["branch"; "-r"; "--format=%(refname:short)"]) as Hl. unfold integration_branch, listed.
  destruct (git_says ["branch"; "-r"; "--format=%(refname:short)"]) as [output|] eqn:El.
  2: { exists "". split; [|right; split; [done|]; intros c d ref m Hc; by apply elem_of_nil in Hc].
       eapply answers_bind; [exact Hl|]. apply answers_ret. }
  destruct (answers_closest worktrees (candidates output worktrees) [] None) as (best & Hb & Hbest); [intros c Hc; by apply elem_of_nil in Hc|].
  cbn [app] in Hbest. destruct best as [[c d]|].
  2: { exists "". split; [|right; split; [done|]; intros c d ref m Hc Hd; by rewrite Hbest in Hd].
       eapply answers_bind; [exact Hl|]. eapply answers_bind; [exact Hb|]. apply answers_ret. }
  destruct Hbest as (Hc & Hd & Hle).
  destruct main_branch as [ref|] eqn:Em; [destruct (farthest false ref worktrees) as [m|] eqn:Ef|].
  - assert (Z.max 0 <$> farthest false ref worktrees = Some m) as Em' by (rewrite Ef; cbn; f_equal; apply farthest_nonneg in Ef; lia).
    exists (if (m <=? d)%Z then "" else trim_origin c). split.
    + eapply answers_bind; [exact Hl|]. eapply answers_bind; [exact Hb|]. eapply answers_bind; [apply answers_main|]. rewrite Em.
      eapply answers_bind; [by apply answers_max_dist|]. rewrite Em'. apply answers_ret.
    + destruct (Z.leb_spec m d); [right; split; [done|]|left; by exists c, d, ref, m].
      intros c' d' ref' m' Hc' Hd' [= <-]. rewrite Ef. intros [= <-]. specialize (Hle _ _ Hc' Hd'). lia.
  - exists "". split; [|right; split; [done|]; intros c' d' ref' m' _ _ [= <-]; by rewrite Ef].
    eapply answers_bind; [exact Hl|]. eapply answers_bind; [exact Hb|]. eapply answers_bind; [apply answers_main|]. rewrite Em.
    eapply answers_bind; [by apply answers_max_dist|]. rewrite Ef. apply answers_ret.
  - exists "". split; [|by right].
    eapply answers_bind; [exact Hl|]. eapply answers_bind; [exact Hb|]. eapply answers_bind; [apply answers_main|]. rewrite Em. apply answers_ret.
Qed.

(** The integration branch is a remote branch, other than the main one and the worktrees' own,
    that is below every worktree's branch, at most as far from the farthest of them as
    any other such branch and nearer than the main branch; there is none only if no such
    branch is nearer than the main branch, or git does not list or compare them. *)
Theorem integration_branch_closest wt1 wt2 rest s :
  wt_Path wt1 = repoPath -> world s = w ->
  exists s' b, DetectIntegrationBranch (wt1 :: wt2 :: rest) s = (s', Ok b) /\ world s' = w /\ integration_branch (wt1 :: wt2 :: rest) b.
Proof.
  intros Hp Hs. destruct (answers_detect (wt1 :: wt2 :: rest)) as (b & Ha & Hb). destruct (Ha s Hs) as (s' & E & H).
  exists s', b. cbn [DetectIntegrationBranch]. by rewrite Hp.
Qed.
End search.
End discovery.

(** ** Setting a branch *)
Lemma set_branch_spec n branch repos repos' : set_branch n branch repos = Some repos' ->
  exists before repo after, repos = (before ++ repo :: after)%list /\ rp_Name repo = n /\ Forall (fun r => rp_Name r <> n) before /\
  repos' = (before ++ mkRepo n (rp_Path repo) branch (rp_Remote repo) :: after)%list.
Proof.
  revert repos'. induction repos as [|repo rest IH]; intros repos'; [done|]. cbn [set_branch]. case_bool_decide as Hn.
  - intros [= <-]. exists [], repo, rest. split_and!; [done|done|by apply Forall_nil_2|by rewrite <- Hn].
  - destruct (set_branch n branch rest) as [l|]; [|done]. intros [= <-]. destruct (IH l eq_refl) as (before & r & after & -> & Hr & Hb & ->).
    exists (repo :: before), r, after. split_and!; [done|done|by apply Forall_cons_2|done].
Qed.

Lemma find_app {A} (f : A -> bool) l k : List.find f (l ++ k) = match List.find f l with Some x => Some x | None => List.find f k end.
Proof. induction l as [|x l IH]; [done|]. cbn. by destruct (f x). Qed.

(** After a branch was set the named repository has it, and every name leads where it led. *)
Theorem branch_set n branch r r' cfg : SetRepoDefaultBranch n branch r = Ok (r', cfg) ->
  (exists ws repo, active r' = Some ws /\ List.find (fun repo => bool_decide (rp_Name repo = n)) (ws_Repos ws) = Some repo /\ rp_DefaultBranch repo = branch) /\
  config r' = Some cfg /\ workspace r' = workspace r /\ forall name, resolveWorkspacePath r' name = resolveWorkspacePath r name.
Proof.
  unfold SetRepoDefaultBranch, resolveWorkspacePath, active. destruct (mode r) eqn:Em; [done|]. destruct (config r) as [c|] eqn:Ec; [|done]. destruct (Workspaces c !! workspace r) as [ws|] eqn:Ew; [|done].
  destruct (set_branch n branch (ws_Repos ws)) as [repos|] eqn:Es; [|done]. intros [= <- <-]. apply set_branch_spec in Es as (before & repo & after & Er & Hn & Hb & ->).
  cbn [config workspace mode Workspaces mbind option_bind]. rewrite Ew, lookup_insert_eq. cbn [ws_Repos ws_Path].
  assert (List.find (fun repo => bool_decide (rp_Name repo = n)) before = None) as Hnone.
  { clear -Hb. induction Hb as [|x l Hx _ IH]; [done|]. cbn. by rewrite bool_decide_false. }
  split_and!; [|done|done|].
  - eexists _, _. split; [done|]. cbn [ws_Repos]. rewrite find_app, Hnone. cbn. rewrite bool_decide_true by done. by split.
  - intros name. rewrite Er, !find_app. destruct (bool_decide (name = "")); [done|]. destruct (Paths.IsAbs name); [done|].
    destruct (List.find (fun r => bool_decide (rp_Name r = name)) before) as [x|]; [done|]. cbn. rewrite Hn. case_bool_decide; [done|].
    by destruct (List.find _ after).
Qed.
End resolver.

(** ** Witnesses *)
Section witnesses.
Local Existing Instance InsertionSort.insertion_SliceSort.

(** Two worktrees that branched off [dev] two and three commits ago, and off main ten. *)
Definition demo_says (args : list string) : CommandResult :=
  let ok text := mkResult text "" None in let failed := mkResult "" "fatal" (Some (Msg "exit status 128")) in
  match args with
  | ["branch"; "-r"; _] => ok (Join newline ["origin/HEAD"; "origin/main"; "origin/dev"; "origin/old"; "origin/a"; "origin/b"])
  | ["merge-base"; _; _; _] => ok ""
  | ["rev-list"; "--count"; range] =>
      if contains range "dev..origin/a" then ok "2" else if contains range "dev" then ok "3" else if contains range "old" then ok "7" else ok "10"
  | ["rev-parse"; _; "origin/main"] => ok ""
  | _ => failed
  end.
#[local] Instance demo_shell : Shell unit := {| sh_exec _ _ args w := (w, demo_says args); sh_git _ _ w := (w, Finished); sh_agent _ _ w := (w, None); sh_now _ := 0%Z |}.
Definition wt_a : WorktreeInfo := mkWt "a" "/src/worktrees/a" "a" "" None.
Definition wt_b : WorktreeInfo := mkWt "b" "/src/worktrees/b" "b" "" None.

Lemma integration_branch_closest_witness :
  (DetectIntegrationBranch [wt_a; wt_b] (mkState tt [])).2 = Ok "dev" /\ integration_branch "/src/worktrees/a" tt [wt_a; wt_b] "dev".
Proof.
  assert (forall args, (sh_exec "/src/worktrees/a" "git" args tt).1 = tt) as static by done.
  destruct (integration_branch_closest "/src/worktrees/a" tt static wt_a wt_b [] (mkState tt []) eq_refl eq_refl) as (s' & b & E & _ & Hb).
  assert ((DetectIntegrationBranch [wt_a; wt_b] (mkState tt [])).2 = Ok "dev") as Hdev by (vm_compute; reflexivity).
  split; [exact Hdev|]. rewrite E in Hdev. injection Hdev as ->. exact Hb.
Defined.

(** The answer is kept for a minute whatever the worktrees: those of another repository get it too. *)
Lemma cached_for_all wt1 wt2 :
  (GetDefaultBranchForWorktrees "" (mkCache "dev" (- second)) [wt1; wt2] (mkState tt [])).2 = Ok ("dev", mkCache "dev" (- second)%Z).
Proof. vm_compute. reflexivity. Qed.
End witnesses.
End Resolving.
