(* ===== verification/ConfigCheck.v ===== *)
(** * ConfigCheck: validation, migration and resolution of configurations,
    [internal/cli/config_validate.go], [config_migrate.go], [config.go] and the
    registry of [backend.go]

    What a loaded configuration is checked for before the daemon uses it, with
    each problem reported; the migration of a file to the current version, with
    its backup; and the choice of a backend. The file system enters as an
    argument of the checks, and YAML as a class. *)
From S2P Require Import Prelude Paths DaemonConfig GitCalls GitFlow Resolver.
Local Open Scope Z_scope.
Local Open Scope string_scope.
Local Open Scope go_scope.

Module Check.
Import Config.

(** ** Reports *)
Record ValidationIssue := mkIssue { Severity : string; Field : string; Message : string }.
Abbreviation report := (list ValidationIssue).
Definition addError (field msg : string) (r : report) : report := (r ++ [mkIssue "error" field msg])%list.
Definition addWarning (field msg : string) (r : report) : report := (r ++ [mkIssue "warning" field msg])%list.
Definition HasErrors (r : report) : bool := existsb (fun i => bool_decide (Severity i = "error")) r.
Definition FormatIssues (r : report) : string :=
  match r with
  | [] => ""
  | _ => "config validation errors:" ++ String "010" "" ++
      foldr (fun i t => "  [" ++ Severity i ++ "] " ++ Field i ++ ": " ++ Message i ++ String "010" "" ++ t) "" r
  end.

(** ** Backends *)
Section registry.
Context {sorting : SliceSort}.

(** The registered names; what is behind a name is not looked at here. *)
Definition ListBackends (backends : gset string) : list string := sort_slice str_lt (elements backends).

Definition SetBackend (backends : gset string) (name : string) (active : string) : res unit * string :=
  if bool_decide (name ∈ backends) then (Ok tt, name)
  else (Err (Msg ("unknown backend " ++ quote name ++ "; available: [" ++ String.concat " " (ListBackends backends) ++ "]")), active).

(** The flag, the environment, the project's file, the global file, the default;
    a file that cannot be loaded is passed over. *)
Definition ResolveBackendName (flag env : string) (project global : res (option string)) : string :=
  let set (s : string) := negb (bool_decide (s = "")) in
  let from (file : res (option string)) := match file with Ok (Some b) => b | _ => "" end in
  if set flag then flag
  else if set env then env
  else if set (from project) then from project
  else if set (from global) then from global
  else "claude".

Definition ResolveAndSetBackend (backends : gset string) (flag env : string) (project global : res (option string)) (active : string) :=
  SetBackend backends (ResolveBackendName flag env project global) active.

(** ** The daemon's configuration *)
Definition validTaskFilters : list string := ["any"; "has_design"; "needs_design"].

Definition is_name_byte (c : ascii) : bool :=
  let n := nat_of_ascii c in
  ((97 <=? n) && (n <=? 122) || (65 <=? n) && (n <=? 90) || (48 <=? n) && (n <=? 57))%nat || bool_decide (c = "-" \/ c = "_")%char.
Fixpoint isValidWorktreeName (name : string) : bool :=
  match name with EmptyString => true | String c s => is_name_byte c && isValidWorktreeName s end.

Definition validateBackendName (backends : gset string) (field name : string) (r : report) : report :=
  if bool_decide (name = "") then r
  else
    let available := ListBackends backends in
    match available with
    | [] => r
    | _ =>
        if bool_decide (name ∈ available) then r
        else addError field (quote name ++ " is not a registered backend; available: " ++ String.concat ", " available) r
    end.

(** One agent, with the worktrees seen before it. *)
Definition validateAgentEntry (backends : gset string) (roles : gmap string RoleConfig) (i : nat) (a : AgentEntry)
    (st : gmap string nat * report) : gmap string nat * report :=
  let '(seen, r) := st in
  let field := "agents[" ++ itoa (Z.of_nat i) ++ "]" in
  let named := negb (bool_decide (Worktree a = "")) in
  let r := if named && negb (isValidWorktreeName (Worktree a))
           then addError (field ++ ".worktree") (quote (Worktree a) ++ " contains invalid characters; use only alphanumeric, hyphens, and underscores") r
           else r in
  let '(seen, r) :=
    if named then
      match seen !! Worktree a with
      | Some prevIdx => (seen, addError (field ++ ".worktree") (quote (Worktree a) ++ " is a duplicate (also used by agents[" ++ itoa (Z.of_nat prevIdx) ++ "])") r)
      | None => (<[Worktree a := i]> seen, r)
      end
    else (seen, r) in
  let r := if negb (bool_decide (Role a = "")) && negb (builtInRoles (Role a)) && bool_decide (roles !! Role a = None)
           then addError (field ++ ".role") (quote (Role a) ++ " is not a built-in role and not defined in roles") r
           else r in
  (seen, validateBackendName backends (field ++ ".backend") (ae_Backend a) r).

Fixpoint each_agent (backends : gset string) (roles : gmap string RoleConfig) (i : nat) (agents : list AgentEntry)
    (st : gmap string nat * report) : gmap string nat * report :=
  match agents with
  | [] => st
  | a :: rest => each_agent backends roles (S i) rest (validateAgentEntry backends roles i a st)
  end.
Definition validateAgentEntries (backends : gset string) (agents : list AgentEntry) (roles : gmap string RoleConfig) (r : report) : report :=
  (each_agent backends roles 0 agents (∅, r)).2.

(** [stat]: whether a path leads to something. *)
Definition validateRole (stat : string -> bool) (projectDir : string) (r : report) (e : string * RoleConfig) : report :=
  let '(name, rc) := e in
  let field := "roles." ++ name in
  let promptPath := if Paths.IsAbs (PromptFile rc) then PromptFile rc else Paths.Join projectDir (PromptFile rc) in
  let r := if negb (bool_decide (PromptFile rc = "")) && negb (stat promptPath)
           then addWarning (field ++ ".prompt_file") (quote (PromptFile rc) ++ " does not exist") r else r in
  if negb (bool_decide (rc_TaskFilter rc = "")) && negb (bool_decide (rc_TaskFilter rc ∈ validTaskFilters))
  then addError (field ++ ".task_filter") (quote (rc_TaskFilter rc) ++ " must be one of: " ++ String.concat ", " validTaskFilters) r
  else r.
(** In the order of their names. *)
Definition sorted_roles (roles : gmap string RoleConfig) : list (string * RoleConfig) :=
  sort_slice (fun a b => str_lt a.1 b.1) (map_to_list roles).
Definition validateRoles (stat : string -> bool) (roles : gmap string RoleConfig) (projectDir : string) (r : report) : report :=
  foldl (validateRole stat projectDir) r (sorted_roles roles).

Definition negative (field : string) (v : option Z) (r : report) : report :=
  match v with
  | Some n => if (n <? 0)%Z then addError ("daemon.restart_policy." ++ field) ("must be non-negative, got " ++ itoa n) r else r
  | None => r
  end.
Definition validateRestartPolicy (rp : RestartPolicy) (r : report) : report :=
  let r := negative "backoff_initial" (BackoffInitial rp) r in
  let r := negative "backoff_max" (BackoffMax rp) r in
  let r := match BackoffInitial rp, BackoffMax rp with
           | Some i, Some m => if (m <? i)%Z then addError "daemon.restart_policy.backoff_max" (itoa m ++ " must be >= backoff_initial (" ++ itoa i ++ ")") r else r
           | _, _ => r
           end in
  let r := negative "output_timeout" (OutputTimeout rp) r in
  negative "max_retries" (MaxRetries rp) r.

Definition ValidateProjectConfig (backends : gset string) (stat : string -> bool) (dc : option DaemonConfig) (projectDir : string) : report :=
  match dc with
  | None => []
  | Some dc =>
      let r := validateBackendName backends "backend" (dc_Backend dc) [] in
      let r := validateAgentEntries backends (dc_Agents dc) (dc_Roles dc) r in
      let r := validateRoles stat (dc_Roles dc) projectDir r in
      validateRestartPolicy (Policy (dc_Daemon dc)) r
  end.

(** [LoadDaemonConfig], from what loading the two files gives. *)
Definition LoadDaemonConfig (backends : gset string) (stat : string -> bool) (projectDir : string)
    (global : res (option GlobalFile)) (project : res (option ProjectFile)) : res DaemonConfig :=
  match global with
  | Err e => Err (Wrapf "loading global config: " e "")
  | Ok g =>
      match project with
      | Err e => Err (Wrapf "loading project config: " e "")
      | Ok p =>
          let? dc := merge_config g p in
          let vr := ValidateProjectConfig backends stat (Some dc) projectDir in
          if HasErrors vr then Err (Msg (FormatIssues vr)) else Ok dc
      end
  end.
End registry.

(** ** The global configuration *)

(** [ValidateRemoteName]: bytes of a name that is not ASCII are refused like its characters. *)
Definition is_remote_byte (c : ascii) : bool := is_name_byte c || bool_decide (c = "."%char).
Fixpoint bad_byte (name : string) : option ascii :=
  match name with EmptyString => None | String c s => if is_remote_byte c then bad_byte s else Some c end.
Definition ValidateRemoteName (name : string) : option goerror :=
  if bool_decide (name = "") then None
  else if (255 <? len name)%Z then Some (Msg "remote name too long (max 255 characters)")
  else if has_prefix name "-" then Some (Msg ("remote name " ++ quote name ++ " must not start with '-'"))
  else
    match bad_byte name with
    | Some c => Some (Msg ("remote name " ++ quote name ++ " contains invalid character " ++ quote (String c "") ++
                           "; use only alphanumeric, hyphens, underscores, and dots"))
    | None => None
    end.

(** Repositories, workspaces and the configuration are those of [Resolver]. *)
Abbreviation RepoConfig := Flow.RepoConfig.
Abbreviation WorkspaceConfig := Resolving.WorkspaceConfig.
Abbreviation LoomConfig := Resolving.LoomConfig.
Import Flow(rp_Name, rp_Path, rp_Remote).
Import Resolving(ws_Path, ws_Repos, DefaultWorkspace, Workspaces).

Inductive found := Missing | AFile | ADir.
#[export] Instance found_eq_dec : EqDecision found.
Proof. solve_decision. Defined.

(** [order]: the workspaces in the order the map is ranged over. *)
Section global.
Context (stat : string -> found) (order : gmap string WorkspaceConfig -> list (string * WorkspaceConfig)).

Fixpoint check_repos (field base : string) (i : nat) (repos : list RepoConfig) (r : report) : report :=
  match repos with
  | [] => r
  | repo :: rest =>
      let repoPath := if negb (Paths.IsAbs (rp_Path repo)) && negb (bool_decide (base = "")) then Paths.Join base (rp_Path repo) else rp_Path repo in
      let r := if negb (bool_decide (rp_Path repo = "")) && bool_decide (stat repoPath = Missing)
               then addWarning (field ++ ".repos[" ++ itoa (Z.of_nat i) ++ "].path") (quote (rp_Path repo) ++ " does not exist") r else r in
      check_repos field base (S i) rest r
  end.

Definition check_workspace (r : report) (e : string * WorkspaceConfig) : report :=
  let '(name, ws) := e in
  let field := "workspaces." ++ name in
  let r := if bool_decide (ws_Path ws = "") then r
           else match stat (ws_Path ws) with
                | Missing => addWarning (field ++ ".path") (quote (ws_Path ws) ++ " does not exist") r
                | AFile => addWarning (field ++ ".path") (quote (ws_Path ws) ++ " is not a directory") r
                | ADir => r
                end in
  check_repos field (ws_Path ws) 0 (ws_Repos ws) r.

Definition ValidateGlobalConfig (cfg : option LoomConfig) : report :=
  match cfg with
  | None => []
  | Some cfg =>
      let r := if negb (bool_decide (DefaultWorkspace cfg = "")) && bool_decide (Workspaces cfg !! DefaultWorkspace cfg = None)
               then addWarning "default_workspace" (quote (DefaultWorkspace cfg) ++ " is not defined in workspaces") [] else [] in
      foldl check_workspace r (order (Workspaces cfg))
  end.

Fixpoint check_remotes (path wsName : string) (i : nat) (repos : list RepoConfig) : option goerror :=
  match repos with
  | [] => None
  | repo :: rest =>
      match ValidateRemoteName (rp_Remote repo) with
      | Some e => Some (Wrapf ("invalid config " ++ path ++ ": workspace " ++ quote wsName ++ " repo " ++ itoa (Z.of_nat i) ++
                               " (" ++ quote (rp_Name repo) ++ "): ") e "")
      | None => check_remotes path wsName (S i) rest
      end
  end.
Fixpoint check_all_remotes (path : string) (wss : list (string * WorkspaceConfig)) : option goerror :=
  match wss with
  | [] => None
  | (wsName, ws) :: rest =>
      match check_remotes path wsName 0 (ws_Repos ws) with Some e => Some e | None => check_all_remotes path rest end
  end.

(** [LoadConfig], after the text was expanded: [parse] is the YAML library. *)
Definition LoadConfig (parse : string -> res LoomConfig) (path : string) (text : option (res string)) : res (option LoomConfig) :=
  match text with
  | None => Ok None
  | Some (Err e) => Err e
  | Some (Ok data) =>
      match parse data with
      | Err e => Err (Wrapf ("parsing config " ++ path ++ ": ") e "")
      | Ok cfg =>
          match check_all_remotes path (order (Workspaces cfg)) with
          | Some e => Err e
          | None =>
              let vr := ValidateGlobalConfig (Some cfg) in
              if HasErrors vr then Err (Msg (FormatIssues vr)) else Ok (Some cfg)
          end
      end
  end.
End global.

(** ** Migration ([config_migrate.go]) *)
Inductive value :=
| VInt (n : Z)
| VFloat (truncated : Z)     (** [int(n)] of a floating-point number *)
| VOther (text : string).
#[export] Instance value_eq_dec : EqDecision value.
Proof. solve_decision. Defined.
Abbreviation data := (gmap string value).

Definition CurrentConfigVersion : Z := 1.
Definition getConfigVersion (d : data) : Z :=
  match d !! "version" with Some (VInt n) | Some (VFloat n) => n | _ => 0 end.

Definition migrateV0ToV1 (d : data) : res data := Ok (<["version" := VInt 1]> d).
Definition migrations (version : Z) : option (data -> res data) := if bool_decide (version = 0%Z) then Some migrateV0ToV1 else None.

Fixpoint migrate_loop (fuel : nat) (version : Z) (d : data) : option (res data) :=
  if (version <? CurrentConfigVersion)%Z then
    match fuel with
    | O => None
    | S fuel =>
        match migrations version with
        | None => Some (Err (Msg ("no migration defined for version " ++ itoa version)))
        | Some fn =>
            match fn d with
            | Err e => Some (Err (Wrapf ("migrating from version " ++ itoa version ++ ": ") e ""))
            | Ok d' => migrate_loop fuel (getConfigVersion d') d'
            end
        end
    end
  else Some (Ok d).
Definition MigrateConfigData (fuel : nat) (d : data) : option (res data) :=
  let version := getConfigVersion d in
  if (CurrentConfigVersion <? version)%Z then
    Some (Err (Msg ("config version " ++ itoa version ++ " is newer than supported version " ++ itoa CurrentConfigVersion ++ "; please upgrade loom")))
  else migrate_loop fuel version d.

(** Files by path. A write that fails leaves [partial] in the file, if it was
    opened at all. *)
Class MigrationHost := {
  parse_yaml : string -> res (option data);
  print_yaml : data -> res string;
  write_error : string -> option (goerror * option string);
  timestamp : string;
}.
Abbreviation files := (gmap string string).

Section migration.
Context {host : MigrationHost}.

Definition WriteFile (path content : string) (fs : files) : option goerror * files :=
  match write_error path with
  | None => (None, <[path := content]> fs)
  | Some (e, Some partial) => (Some e, <[path := partial]> fs)
  | Some (e, None) => (Some e, fs)
  end.
Definition ENOENT : goerror := Sentinel "no such file or directory".

Definition BackupConfig (path : string) (fs : files) : res string * files :=
  match fs !! path with
  | None => (Err (Wrapf "reading config for backup: " ENOENT ""), fs)
  | Some content =>
      let backupPath := path ++ ".bak." ++ timestamp in
      match WriteFile backupPath content fs with
      | (Some e, fs') => (Err (Wrapf "writing backup: " e ""), fs')
      | (None, fs') => (Ok backupPath, fs')
      end
  end.

(** The old version, the path of the backup and the error. *)
Definition MigrateConfigFile (path : string) (fs : files) : (Z * string * option goerror) * files :=
  match fs !! path with
  | None => ((0%Z, "", Some (Wrapf "reading config: " ENOENT "")), fs)
  | Some content =>
      match parse_yaml content with
      | Err e => ((0%Z, "", Some (Wrapf "parsing config: " e "")), fs)
      | Ok parsed =>
          let d := default ∅ parsed in
          let oldVersion := getConfigVersion d in
          if bool_decide (oldVersion = CurrentConfigVersion) then ((oldVersion, "", None), fs)
          else
            match BackupConfig path fs with
            | (Err e, fs1) => ((oldVersion, "", Some e), fs1)
            | (Ok backupPath, fs1) =>
                match MigrateConfigData 1 d with
                | None => ((oldVersion, backupPath, None), fs1)
                | Some (Err e) => ((oldVersion, backupPath, Some e), fs1)
                | Some (Ok d') =>
                    match print_yaml d' with
                    | Err e => ((oldVersion, backupPath, Some (Wrapf "marshaling migrated config: " e "")), fs1)
                    | Ok out =>
                        match WriteFile path out fs1 with
                        | (Some e, fs2) => ((oldVersion, backupPath, Some (Wrapf "writing migrated config: " e "")), fs2)
                        | (None, fs2) => ((oldVersion, backupPath, None), fs2)
                        end
                    end
                end
            end
      end
  end.
End migration.

(** ** Reports *)
Lemma HasErrors_app r r' : HasErrors (r ++ r')%list = HasErrors r || HasErrors r'.
Proof. apply existsb_app. Qed.
Lemma HasErrors_error f m r : HasErrors (addError f m r) = true.
Proof. unfold addError. rewrite HasErrors_app. apply orb_true_r. Qed.
Lemma HasErrors_warning f m r : HasErrors (addWarning f m r) = HasErrors r.
Proof. unfold addWarning. rewrite HasErrors_app. apply orb_false_r. Qed.

(** A check that reports an error exactly when [b] holds. *)
Lemma HasErrors_if (b : bool) f m r : HasErrors (if b then addError f m r else r) = b || HasErrors r.
Proof. destruct b; [apply HasErrors_error|done]. Qed.
Lemma HasErrors_warn_if (b : bool) f m r : HasErrors (if b then addWarning f m r else r) = HasErrors r.
Proof. destruct b; [apply HasErrors_warning|done]. Qed.

Section accepted.
Context {sorting : SliceSort} (backends : gset string) (stat : string -> bool) (projectDir : string).

(** ** What is accepted *)
Definition backend_known (name : string) : Prop := name = "" \/ backends = ∅ \/ name ∈ backends.
Definition agent_ok (roles : gmap string RoleConfig) (a : AgentEntry) : Prop :=
  isValidWorktreeName (Worktree a) = true /\
  (Role a = "" \/ builtInRoles (Role a) = true \/ is_Some (roles !! Role a)) /\ backend_known (ae_Backend a).
Definition worktrees (agents : list AgentEntry) : list string := filter (fun n => n <> "") (Worktree <$> agents).
Definition non_negative (v : option Z) : Prop := match v with Some n => (0 <= n)%Z | None => True end.
Definition policy_ok (rp : RestartPolicy) : Prop :=
  non_negative (BackoffInitial rp) /\ non_negative (BackoffMax rp) /\ non_negative (OutputTimeout rp) /\ non_negative (MaxRetries rp) /\
  match BackoffInitial rp, BackoffMax rp with Some i, Some m => (i <= m)%Z | _, _ => True end.
Definition config_ok (dc : DaemonConfig) : Prop :=
  backend_known (dc_Backend dc) /\ Forall (agent_ok (dc_Roles dc)) (dc_Agents dc) /\ NoDup (worktrees (dc_Agents dc)) /\
  (forall name rc, dc_Roles dc !! name = Some rc -> rc_TaskFilter rc = "" \/ rc_TaskFilter rc ∈ validTaskFilters) /\
  policy_ok (Policy (dc_Daemon dc)).

Lemma backends_listed name : name ∈ ListBackends backends <-> name ∈ backends.
Proof. unfold ListBackends. by rewrite (sort_slice_perm string), elem_of_elements. Qed.

Lemma backend_checked f name r :
  HasErrors (validateBackendName backends f name r) = false <-> HasErrors r = false /\ backend_known name.
Proof.
  unfold validateBackendName, backend_known. case_bool_decide as Hn; [tauto|].
  destruct (ListBackends backends) as [|b l] eqn:El.
  - assert (backends = ∅) as -> by (apply set_eq; intros x; rewrite <- backends_listed, El; set_solver). tauto.
  - rewrite <- El. assert (backends <> ∅) as Hne.
    { intros E. assert (b ∈ backends) as Hb by (apply backends_listed; rewrite El; by left). rewrite E in Hb. set_solver. }
    case_bool_decide as Hin; rewrite backends_listed in Hin; [tauto|]. rewrite HasErrors_error. split; [done|tauto].
Qed.

Lemma agents_checked roles i agents seen r :
  HasErrors (each_agent backends roles i agents (seen, r)).2 = false <->
  HasErrors r = false /\ Forall (agent_ok roles) agents /\ NoDup (worktrees agents) /\ Forall (fun n => seen !! n = None) (worktrees agents).
Proof.
  revert i seen r. induction agents as [|a agents IH]; intros i seen r; cbn [each_agent].
  { split; [|by intros []]. intros H. split; [done|]. split; [constructor|]. split; constructor. }
  destruct (validateAgentEntry backends roles i a (seen, r)) as [seen' r'] eqn:E. rewrite IH.
  assert (HasErrors r' = false <-> HasErrors r = false /\ agent_ok roles a /\ (Worktree a <> "" -> seen !! Worktree a = None)) as Hr'.
  { unfold validateAgentEntry in E. destruct (bool_decide_reflect (Worktree a = "")) as [Hw|Hw]; simpl negb in E; simpl andb in E.
    - injection E as <- <-. rewrite backend_checked, HasErrors_if. unfold agent_ok. rewrite Hw. destruct (bool_decide_reflect (Role a = ""));
        destruct (builtInRoles (Role a)); destruct (bool_decide_reflect (roles !! Role a = None)) as [Hn|Hn]; simpl;
        rewrite <- ?not_eq_None_Some; naive_solver.
    - destruct (seen !! Worktree a) as [k|] eqn:Es; injection E as <- <-; rewrite backend_checked, HasErrors_if.
      + rewrite HasErrors_error, orb_true_r. naive_solver.
      + rewrite HasErrors_if. unfold agent_ok. destruct (isValidWorktreeName (Worktree a)); destruct (bool_decide_reflect (Role a = ""));
        destruct (builtInRoles (Role a)); destruct (bool_decide_reflect (roles !! Role a = None)) as [Hn|Hn]; simpl;
        rewrite <- ?not_eq_None_Some; naive_solver. }
  assert (seen' = if bool_decide (Worktree a = "") then seen else match seen !! Worktree a with Some _ => seen | None => <[Worktree a := i]> seen end) as Hs'.
  { unfold validateAgentEntry in E. destruct (bool_decide_reflect (Worktree a = "")) as [Hw|Hw]; simpl negb in E; simpl andb in E.
    - by injection E as <- _.
    - destruct (seen !! Worktree a); by injection E as <- _. }
  rewrite Hr', Forall_cons. unfold worktrees. cbn [fmap list_fmap]. rewrite filter_cons.
  destruct (decide (Worktree a <> "")) as [Hw|Hw].
  - rewrite bool_decide_false in Hs' by done. rewrite NoDup_cons, Forall_cons.
    destruct (seen !! Worktree a) eqn:Es; subst seen'; [naive_solver|].
    rewrite !Forall_forall. setoid_rewrite lookup_insert_None. naive_solver.
  - apply dec_stable in Hw. rewrite bool_decide_true in Hs' by done. subst seen'. naive_solver.
Qed.

Lemma roles_checked roles r :
  HasErrors (validateRoles stat roles projectDir r) = false <->
  HasErrors r = false /\ forall name rc, roles !! name = Some rc -> rc_TaskFilter rc = "" \/ rc_TaskFilter rc ∈ validTaskFilters.
Proof.
  assert (forall name rc, (name, rc) ∈ sorted_roles roles <-> roles !! name = Some rc) as Hin.
  { intros. unfold sorted_roles. by rewrite (sort_slice_perm (string * RoleConfig)), elem_of_map_to_list. }
  setoid_rewrite <- Hin. unfold validateRoles. clear Hin. generalize (sorted_roles roles). intros l. revert r.
  induction l as [|[name rc] l IH]; intros r.
  - simpl. split; [|by intros []]. intros H. split; [done|]. intros * Hn. by apply not_elem_of_nil in Hn.
  - cbn [foldl]. rewrite IH. unfold validateRole at 1. rewrite HasErrors_if, HasErrors_warn_if.
    assert ((forall n c, (n, c) ∈ (name, rc) :: l -> rc_TaskFilter c = "" \/ rc_TaskFilter c ∈ validTaskFilters) <->
      (rc_TaskFilter rc = "" \/ rc_TaskFilter rc ∈ validTaskFilters) /\
      (forall n c, (n, c) ∈ l -> rc_TaskFilter c = "" \/ rc_TaskFilter c ∈ validTaskFilters)) as ->.
    { split.
      - intros H. split; [apply (H name); by left|]. intros n c Hc. apply (H n). by right.
      - intros [H0 H] n c [[= -> ->]|Hc]%elem_of_cons; [done|by apply (H n)]. }
    destruct (bool_decide_reflect (rc_TaskFilter rc = "")) as [He|He];
      destruct (bool_decide_reflect (rc_TaskFilter rc ∈ validTaskFilters)) as [Hv|Hv]; simpl; try tauto; (split; [by intros []|tauto]).
Qed.

Lemma negative_checked f v r : HasErrors (negative f v r) = false <-> HasErrors r = false /\ non_negative v.
Proof.
  unfold negative, non_negative. destruct v as [n|]; [|tauto]. rewrite HasErrors_if. destruct (Z.ltb_spec n 0); simpl; [|intuition].
  split; [done|lia].
Qed.

Lemma policy_checked rp r : HasErrors (validateRestartPolicy rp r) = false <-> HasErrors r = false /\ policy_ok rp.
Proof.
  unfold validateRestartPolicy, policy_ok. rewrite !negative_checked.
  destruct (BackoffInitial rp) as [i|] eqn:Ei, (BackoffMax rp) as [m|] eqn:Em; rewrite ?HasErrors_if, ?negative_checked; try tauto.
  destruct (Z.ltb_spec m i); cbn [orb]; [|rewrite !negative_checked; tauto].
  split; [by intros [[[=] _] _]|]. intros (_ & _ & _ & _ & _ & Hle). lia.
Qed.

Lemma project_checked dc : HasErrors (ValidateProjectConfig backends stat (Some dc) projectDir) = false <-> config_ok dc.
Proof.
  unfold ValidateProjectConfig, config_ok. rewrite policy_checked, roles_checked. unfold validateAgentEntries.
  rewrite agents_checked, backend_checked. assert (Forall (fun n => (∅ : gmap string nat) !! n = None) (worktrees (dc_Agents dc))) as H.
  { apply Forall_forall. intros n _. apply lookup_empty. }
  naive_solver.
Qed.

Lemma name_no_byte name c : is_name_byte c = false -> isValidWorktreeName name = true -> contains_byte name c = false.
Proof.
  intros Hc. induction name as [|d name IH]; [done|]. simpl. intros [Hd Hn]%andb_true_iff. rewrite (IH Hn), orb_false_r.
  apply bool_decide_eq_false. congruence.
Qed.

Lemma name_bytes name : isValidWorktreeName name = true -> name <> "" ->
  Paths.plain_part name /\ Paths.validateWorktreeName name = None.
Proof.
  intros Hv Hne. pose proof (name_no_byte name "/" eq_refl Hv) as Hs. pose proof (name_no_byte name "." eq_refl Hv) as Hd.
  assert (Paths.plain_part name) as Hp by (split_and!; [done|by intros ->|by intros ->|done]). split; [done|].
  unfold Paths.validateWorktreeName. assert (Paths.Clean name = name) as ->.
  { unfold Paths.Clean. assert (Paths.IsAbs name = false) as Ha.
    { apply not_true_iff_false. intros [r ->]%has_prefix_spec. done. }
    rewrite Ha. unfold Paths.parts. rewrite Ha, (Split_none Paths.Separator name Hs), Paths.clean_parts_plain_id by (by constructor). done. }
  rewrite bool_decide_false by (by intros ->). simpl. destruct (has_prefix name "../") eqn:E; [|done].
  apply has_prefix_spec in E as [r ->]. done.
Qed.

(** The daemon's configuration is loaded exactly when both files load, the
    agents have their fields and keep to the limit, and: every backend named for
    the daemon or an agent is registered, if any is; the worktrees are distinct, of
    letters, digits, hyphens and underscores; every role is built in or defined;
    the roles' task filters are known; no limit or delay of the policy that is
    checked is negative, and the first delay is not above the greatest. Then each
    agent's worktree is one component of a path that passes the checks of names. *)
Theorem daemon_config_accepted global project dc :
  (LoadDaemonConfig backends stat projectDir global project = Ok dc <->
   exists g p, global = Ok g /\ project = Ok p /\ merge_config g p = Ok dc /\ config_ok dc) /\
  (LoadDaemonConfig backends stat projectDir global project = Ok dc ->
   NoDup (Worktree <$> dc_Agents dc) /\
   Forall (fun a => Paths.plain_part (Worktree a) /\ Paths.validateWorktreeName (Worktree a) = None) (dc_Agents dc)).
Proof.
  assert (LoadDaemonConfig backends stat projectDir global project = Ok dc <->
   exists g p, global = Ok g /\ project = Ok p /\ merge_config g p = Ok dc /\ config_ok dc) as Hiff.
  { unfold LoadDaemonConfig. destruct global as [g|e]; [|naive_solver]. destruct project as [p|e]; [|naive_solver].
    destruct (merge_config g p) as [dc'|e] eqn:Em;
      [|simpl; split; [done|]; intros (g' & p' & [= <-] & [= <-] & E & _); congruence].
    cbn [res_bind]. pose proof (project_checked dc') as Hc.
    destruct (HasErrors (ValidateProjectConfig backends stat (Some dc') projectDir)); [split; [done|]; intros (g' & p' & [= <-] & [= <-] & E & Hok)|split].
    - assert (dc' = dc) as -> by congruence. apply Hc in Hok. done.
    - intros [= <-]. exists g, p. split_and!; [done..|]. by apply Hc.
    - intros (g' & p' & [= <-] & [= <-] & E & _). congruence. }
  split; [done|]. intros (g & p & _ & _ & Em & Hok)%Hiff. destruct Hok as (_ & Ha & Hd & _).
  assert (Forall (fun a => Worktree a <> "") (dc_Agents dc)) as Hne.
  { destruct (proj1 (merge_config_valid g p)) as [Hv _].
    - exists dc. split; [done|]. unfold merge_config in Em. destruct p; destruct (validateAgents _ _); try done; injection Em as <-; done.
    - assert (dc_Agents dc = match p with Some p => pf_Agents p | None => [] end) as ->.
      { unfold merge_config in Em. destruct p; destruct (validateAgents _ _); try done; injection Em as <-; done. }
      eapply Forall_impl; [exact Hv|]. by intros a (? & _). }
  split.
  - unfold worktrees in Hd. rewrite filter_all in Hd; [done|]. by apply Forall_map.
  - apply Forall_forall. intros a Hin. rewrite Forall_forall in Ha. rewrite Forall_forall in Hne.
    destruct (Ha a Hin) as (Hn & _). apply name_bytes; [done|by apply Hne].
Qed.
End accepted.

(** ** Remotes *)

(** A remote that passes is no option of git, nor is the one used for it. *)
Theorem remote_is_no_option name : ValidateRemoteName name = None ->
  Git.validateGitRef (Git.resolveRemote name) = None /\ contains_byte name " " = false /\ contains_byte name "/" = false.
Proof.
  unfold ValidateRemoteName, Git.resolveRemote, Git.validateGitRef. case_bool_decide as Hn; [by subst|].
  destruct (_ <? _)%Z; [done|]. destruct (has_prefix name "-"); [done|]. destruct (bad_byte name) eqn:E; [done|]. intros _.
  assert (forall c, is_remote_byte c = false -> contains_byte name c = false) as H; [|by rewrite !H].
  intros c Hc. clear Hn. induction name as [|d name IH]; [done|]. simpl in *. destruct (is_remote_byte d) eqn:Ed; [|done].
  rewrite IH, orb_false_r by done. apply bool_decide_eq_false. congruence.
Qed.

(** ** Migration *)

(** The loop ends: one step for each version that is missing. *)
Lemma migrate_ends n d : (1 <= n)%nat ->
  MigrateConfigData n d = Some (
    let v := getConfigVersion d in
    if (1 <? v)%Z then Err (Msg ("config version " ++ itoa v ++ " is newer than supported version 1; please upgrade loom"))
    else if (v =? 1)%Z then Ok d
    else if (v =? 0)%Z then Ok (<["version" := VInt 1]> d)
    else Err (Msg ("no migration defined for version " ++ itoa v))).
Proof.
  intros Hn. unfold MigrateConfigData, CurrentConfigVersion. cbv zeta. destruct (Z.ltb_spec 1 (getConfigVersion d)); [done|].
  destruct n as [|n]; [lia|]. cbn [migrate_loop]. unfold CurrentConfigVersion, migrations.
  destruct (Z.ltb_spec (getConfigVersion d) 1); [|by rewrite (proj2 (Z.eqb_eq _ 1)) by lia].
  rewrite (proj2 (Z.eqb_neq _ 1)) by lia. destruct (Z.eqb_spec (getConfigVersion d) 0) as [E|E].
  - rewrite bool_decide_true by done. cbn [migrateV0ToV1].
    assert (getConfigVersion (<["version" := VInt 1]> d) = 1%Z) as -> by (unfold getConfigVersion; by rewrite lookup_insert_eq).
    by destruct n.
  - by rewrite bool_decide_false.
Qed.

Section migrating.
Context {host : MigrationHost}.

Lemma WriteFile_other path content fs e fs' p : WriteFile path content fs = (e, fs') -> p <> path -> fs' !! p = fs !! p.
Proof.
  unfold WriteFile. destruct (write_error path) as [[x [y|]]|]; intros [= <- <-] Hp; [|done|]; by rewrite lookup_insert_ne by done.
Qed.

Lemma append_longer s t : t <> "" -> s <> s ++ t.
Proof. intros Ht E. apply (f_equal String.length) in E. rewrite length_append in E. destruct t; [done|simpl in E; lia]. Qed.

(** Migrating a file never loses its text: whatever write fails, and wherever,
    the text is afterwards in the file or in its backup, and no other file is
    touched. Without an error the file either was of the current version and
    nothing has changed, or it has the printed data of the old text with the
    version set and every other field as it was, and the backup has the old text. *)
Theorem migration_loses_nothing path fs content :
  fs !! path = Some content ->
  let backup := path ++ ".bak." ++ timestamp in
  let '((old, bp, err), fs') := MigrateConfigFile path fs in
  (fs' !! path = Some content \/ fs' !! backup = Some content) /\
  (forall p, p <> path -> p <> backup -> fs' !! p = fs !! p) /\
  (err = None ->
   exists parsed, parse_yaml content = Ok parsed /\ old = getConfigVersion (default ∅ parsed) /\
     ((old = 1%Z /\ bp = "" /\ fs' = fs) \/
      (old = 0%Z /\ bp = backup /\ fs' !! backup = Some content /\
       exists out, print_yaml (<["version" := VInt 1]> (default ∅ parsed)) = Ok out /\ fs' !! path = Some out))).
Proof.
  intros Hc backup. assert (path <> backup) as Hne by (by apply append_longer). unfold MigrateConfigFile. rewrite Hc.
  destruct (parse_yaml content) as [parsed|e] eqn:Ep; [|by repeat split; [left|]].
  cbv zeta. unfold CurrentConfigVersion. case_bool_decide as Hv.
  { split; [by left|]. split; [done|]. intros _. exists parsed. split; [done|]. split; [done|]. by left. }
  unfold BackupConfig. rewrite Hc. fold backup. destruct (WriteFile backup content fs) as [[e|] fs1] eqn:Ew.
  { split; [left; by rewrite (WriteFile_other _ _ _ _ _ path Ew)|]. split; [|done]. intros p _ Hp. by apply (WriteFile_other _ _ _ _ _ p Ew). }
  assert (fs1 !! backup = Some content /\ fs1 !! path = Some content /\ forall p, p <> backup -> fs1 !! p = fs !! p) as (Hb & Hp & Ho).
  { split; [|split; [by rewrite (WriteFile_other _ _ _ _ _ path Ew)|intros p Hp; by apply (WriteFile_other _ _ _ _ _ p Ew)]].
    unfold WriteFile in Ew. destruct (write_error backup) as [[? [?|]]|]; try done. injection Ew as <-. by rewrite lookup_insert_eq. }
  rewrite migrate_ends by lia. cbv zeta. set (d := default ∅ parsed) in *.
  destruct (Z.ltb_spec 1 (getConfigVersion d)); [split; [by left|]; split; [|done]; intros; by apply Ho|].
  rewrite (proj2 (Z.eqb_neq _ 1)) by done. destruct (Z.eqb_spec (getConfigVersion d) 0) as [E0|E0];
    [|split; [by left|]; split; [|done]; intros; by apply Ho].
  destruct (print_yaml (<["version" := VInt 1]> d)) as [out|e] eqn:Eo; [|split; [by left|]; split; [|done]; intros; by apply Ho].
  destruct (WriteFile path out fs1) as [[e|] fs2] eqn:Ew2.
  - split; [right; by rewrite (WriteFile_other _ _ _ _ _ backup Ew2)|]. split; [|done]. intros p H1 H2.
    rewrite (WriteFile_other _ _ _ _ _ p Ew2) by done. by apply Ho.
  - split; [right; by rewrite (WriteFile_other _ _ _ _ _ backup Ew2)|]. split.
    { intros p H1 H2. rewrite (WriteFile_other _ _ _ _ _ p Ew2) by done. by apply Ho. }
    intros _. exists parsed. split; [done|]. split; [done|]. right. split; [done|]. split; [done|].
    split; [by rewrite (WriteFile_other _ _ _ _ _ backup Ew2)|]. exists out. split; [done|].
    unfold WriteFile in Ew2. destruct (write_error path) as [[? [?|]]|]; try done. injection Ew2 as <-. by rewrite lookup_insert_eq.
Qed.
End migrating.

(** ** Runs *)
#[local] Existing Instance InsertionSort.insertion_SliceSort.
Definition demo_backends : gset string := {["claude"; "codex"]}.
Definition demo_agent (w backend : string) (fallbacks : list string) : AgentEntry := mkAgent w "reviewer" true backend fallbacks None.
Definition demo_role (backend : string) : RoleConfig := mkRole "" "/p.md" "" "any" backend None None None None false None None.
Definition demo_project (agents : list AgentEntry) (backend : string) : ProjectFile := mkProject "codex" None {["reviewer" := demo_role backend]} agents.
Definition demo_load (p : ProjectFile) : res DaemonConfig := LoadDaemonConfig demo_backends (fun _ => true) "/p" (Ok None) (Ok (Some p)).

(** Back ends of roles and fallbacks are not looked up in the registry. *)
Example role_backend_unchecked :
  match demo_load (demo_project [demo_agent "w1" "" ["unknown"]] "unknown") with Ok _ => True | Err _ => False end /\
  match demo_load (demo_project [demo_agent "w1" "unknown" []] "") with Ok _ => False | Err _ => True end.
Proof. split; vm_compute; exact I. Qed.

Definition good_project : ProjectFile := demo_project [demo_agent "w1" "claude" []; demo_agent "w-2" "" ["codex"]] "".
Lemma daemon_config_accepted_witness :
  exists dc, demo_load good_project = Ok dc /\ NoDup (Worktree <$> dc_Agents dc) /\
    demo_load (demo_project [demo_agent "w1" "" []; demo_agent "w1" "" []] "") <> demo_load good_project.
Proof.
  destruct (demo_load good_project) as [dc|] eqn:E; [|vm_compute in E; discriminate]. exists dc. split; [reflexivity|]. split.
  - exact (proj1 (proj2 (daemon_config_accepted demo_backends (fun _ => true) "/p" (Ok None) (Ok (Some good_project)) dc) E)).
  - rewrite <- E. vm_compute. discriminate.
Defined.

Definition demo_host : MigrationHost := {|
  parse_yaml t := Ok (Some {["backend" := VOther t]});
  print_yaml d := Ok match d !! "version" with Some _ => "migrated" | None => "" end;
  write_error p := if bool_decide (p = "/c") then Some (Msg "no space left on device", Some "mig") else None;
  timestamp := "20260101T000000"; |}.
Definition demo_files : files := {["/c" := "old"]}.
Lemma migration_loses_nothing_witness :
  let r := MigrateConfigFile (host := demo_host) "/c" demo_files in
  r.2 !! "/c" = Some "mig" /\ (r.2 !! "/c" = Some "old" \/ r.2 !! "/c.bak.20260101T000000" = Some "old").
Proof.
  split; [vm_compute; reflexivity|].
  assert (demo_files !! "/c" = Some "old") as Hc by (vm_compute; reflexivity).
  exact (proj1 (migration_loses_nothing (host := demo_host) "/c" demo_files "old" Hc)).
Defined.
End Check.
