(* ===== verification/DaemonGit.v ===== *)
(** * DaemonGit: the daemon's own use of git and gh, [internal/cli/daemon_branch.go]
    and [daemon_pr.go]

    Switching a worktree to the branch of an epic with its work saved, and opening the
    request of an epic once. Programs are those of [GitCalls]; the JSON of gh and bd is a
    class. *)
From S2P Require Import Prelude GitCalls.
Import Git.
Local Open Scope Z_scope.
Local Open Scope string_scope.

Module DaemonGit.

Section daemon.
Context {W : Type} {shell : Shell W}.

(** ** Branches ([git.go], [daemon_branch.go]) *)
Definition BranchExistsLocally (dir branch : string) : Flow W bool :=
  check (validateGitRef branch);;
  r ← try (RunGitCommand dir ["rev-parse"; "--verify"; "refs/heads/" +:+ branch]);
  mret (match r with Ok _ => true | Err _ => false end).
Definition RemoteBranchExists (dir remote branch : string) : Flow W bool :=
  let r := resolveRemote remote in
  check (validateGitRef r);; check (validateGitRef branch);;
  r ← try (RunGitCommand dir ["rev-parse"; "--verify"; "refs/remotes/" +:+ r +:+ "/" +:+ branch]);
  mret (match r with Ok _ => true | Err _ => false end).
Definition GitCheckoutNewFromRef (dir branch startPoint : string) : Flow W unit :=
  check (validateGitRef branch);; check (validateGitRef startPoint);;
  RunGitCommandWithOutput dir ["checkout"; "-b"; branch; startPoint].

Definition commitWIP (worktreePath message : string) : Flow W unit :=
  errorw "git add failed: " (RunGitCommand worktreePath ["add"; "-A"]);;
  errorw "git commit failed: " (RunGitCommand worktreePath ["commit"; "-m"; message]);;
  mret tt.

(** A worktree that is not clean is committed, or else stashed. *)
Definition save_work (worktreePath current targetBranch : string) : Flow W unit :=
  clean ← errorw "failed to check working tree: " (IsCleanWorkingTree worktreePath);
  if (clean : bool) then mret tt
  else
    r ← try (commitWIP worktreePath ("WIP: daemon branch switch from " +:+ current +:+ " to " +:+ targetBranch));
    match r with
    | Ok _ => mret tt
    | Err err =>
        r2 ← try (GitStash worktreePath);
        match r2 with
        | Ok _ => mret tt
        | Err stashErr =>
            fail (Wrapf "dirty worktree and both WIP commit and stash failed: commit: " err (", stash: " +:+ error_text stashErr))
        end
    end.

(** The local branch, the remote one, or a new one. *)
Definition switch_branch (worktreePath targetBranch fallbackRef : string) : Flow W unit :=
  exists_ ← errorw "failed to check local branch: " (BranchExistsLocally worktreePath targetBranch);
  if (exists_ : bool) then GitCheckout worktreePath targetBranch
  else
    remoteExists ← errorw "failed to check remote branch: " (RemoteBranchExists worktreePath "" targetBranch);
    if (remoteExists : bool) then GitCheckoutNewFromRef worktreePath targetBranch ("origin/" +:+ targetBranch)
    else
      r ← try (GitCheckoutNewFromRef worktreePath targetBranch fallbackRef);
      match r with
      | Ok _ => mret tt
      | Err _ => GitCheckoutNewFromRef worktreePath targetBranch "HEAD"
      end.

Definition EnsureWorktreeBranch (worktreePath targetBranch fallbackRef : string) : Flow W unit :=
  current ← errorw "failed to get current branch: " (GetCurrentBranch worktreePath);
  if bool_decide (current = targetBranch) then mret tt
  else
    save_work worktreePath current targetBranch;;
    try (GitFetch worktreePath);;
    switch_branch worktreePath targetBranch fallbackRef.

(** ** Requests ([daemon_pr.go]) *)
Record epicChild := mkChild { ch_ID : string; ch_Title : string; ch_Status : string }.
Record epicPRInfo := mkEpic { Title : string; ep_ID : string; Children : list epicChild }.

Class EpicJson := {
  parse_prs : string -> res (list string);          (** the addresses *)
  parse_epics : string -> res (list epicPRInfo);
}.
Context {json : EpicJson} (beadsDir defaultBranch : string).

(** The answer of the first look is kept. *)
Definition defaultGhAvailable (known : option bool) : Flow W bool :=
  match known with
  | Some b => mret b
  | None => result ← execCommand "" "gh" ["--version"]; mret (bool_decide (cr_Err result = None))
  end.

Definition remoteBranchPushed (dir branch : string) : Flow W bool :=
  result ← execCommand dir "git" ["ls-remote"; "--heads"; "origin"; branch];
  mret (match cr_Err result with Some _ => false | None => negb (bool_decide (TrimSpace (Stdout result) = "")) end).

Definition getOpenPRForBranch (dir branch : string) : Flow W string :=
  result ← execCommand dir "gh" ["pr"; "list"; "--head"; branch; "--state"; "open"; "--json"; "url"; "--limit"; "1"];
  match cr_Err result with
  | Some e => fail (Wrapf "gh pr list failed: " e "")
  | None =>
      match parse_prs (Stdout result) with
      | Err e => fail (Wrapf "failed to parse PR list: " e "")
      | Ok [] => mret ""
      | Ok (url :: _) => mret url
      end
  end.

Definition getEpicInfo (epicID : string) : Flow W epicPRInfo :=
  result ← execCommand beadsDir "bd" ["show"; epicID; "--json"];
  match cr_Err result with
  | Some e => fail (Wrapf "bd show failed: " e "")
  | None =>
      match parse_epics (Stdout result) with
      | Err e => fail (Wrapf "failed to parse epic info: " e "")
      | Ok [] => fail (Msg ("no results for epic " +:+ epicID))
      | Ok (epic :: _) => mret epic
      end
  end.

Definition nl : string := String newline "".
Definition child_line (child : epicChild) : string :=
  (if bool_decide (ch_Status child = "closed") then "- [x] " else "- [ ] ") +:+
  ch_ID child +:+ ": " +:+ ch_Title child +:+ " (" +:+ ch_Status child +:+ ")" +:+ nl.
Definition buildPRBody (info : epicPRInfo) : string :=
  "## Epic: " +:+ Title info +:+ nl +:+ nl +:+ "### Tasks" +:+ nl +:+
  match Children info with
  | [] => "No tasks yet." +:+ nl
  | children => foldr (fun child t => child_line child +:+ t) "" children
  end +:+ nl +:+ "---" +:+ nl +:+ "*Auto-created by loom daemon*" +:+ nl.

Definition create_args (epicID branch : string) (info : epicPRInfo) : list string :=
  ["pr"; "create"; "--base"; defaultBranch; "--head"; branch; "--title"; Title info +:+ " (" +:+ epicID +:+ ")"; "--body"; buildPRBody info].
Definition createEpicPR (dir epicID branch : string) (info : epicPRInfo) : Flow W string :=
  result ← execCommand dir "gh" (create_args epicID branch info);
  match cr_Err result with
  | Some e => fail (Wrapf "gh pr create failed: " e "")
  | None => mret (TrimSpace (Stdout result))
  end.

Definition storeExternalRef (epicID prURL : string) : Flow W unit :=
  result ← execCommand beadsDir "bd" ["update"; epicID; "--external-ref"; prURL];
  match cr_Err result with
  | Some e => fail (Wrapf "bd update external-ref failed: " e "")
  | None => mret tt
  end.

Definition epicBranchName (epicID : string) : string := "epic/" +:+ epicID.

(** [available]: whether gh is installed. The address of a request that was made
    is returned for the event. *)
Definition EnsureEpicPR (available : bool) (worktreePath epicID : string) : Flow W (option string) :=
  if negb available then mret None
  else
    let branch := epicBranchName epicID in
    pushed ← remoteBranchPushed worktreePath branch;
    if negb (pushed : bool) then mret None
    else
      prURL ← errorw "failed to check for existing PR: " (getOpenPRForBranch worktreePath branch);
      if negb (bool_decide (prURL = "")) then try (storeExternalRef epicID prURL);; mret None
      else
        info ← errorw "failed to get epic info: " (getEpicInfo epicID);
        newURL ← errorw "failed to create PR: " (createEpicPR worktreePath epicID branch info);
        try (storeExternalRef epicID newURL);;
        mret (Some newURL).

(** ** The work is saved, and the branch is the one asked for *)

(** What git documents of the commands used: [on] is the branch checked out,
    [modified] whether tracked files differ from it, [has_branch] the local branches. *)
Class WorktreeLaws (dir : string) := {
  on : W -> string;
  modified : W -> bool;
  law_current : forall w w' r, sh_exec dir "git" ["branch"; "--show-current"] w = (w', r) ->
    on w' = on w /\ (cr_Err r = None -> TrimSpace (Stdout r) = on w);
  law_status : forall w w' r, sh_exec dir "git" ["status"; "--porcelain"] w = (w', r) ->
    on w' = on w /\ modified w' = modified w /\ (cr_Err r = None -> TrimSpace (Stdout r) = "" -> modified w = false);
  law_add : forall w, on (sh_exec dir "git" ["add"; "-A"] w).1 = on w;
  law_commit : forall m w0 w1 r1 w2 r2, sh_exec dir "git" ["add"; "-A"] w0 = (w1, r1) -> sh_exec dir "git" ["commit"; "-m"; m] w1 = (w2, r2) ->
    on w2 = on w1 /\ (cr_Err r1 = None -> cr_Err r2 = None -> modified w2 = false);
  law_stash : forall w, on (sh_git dir ["stash"] w).1 = on w /\ ((sh_git dir ["stash"] w).2 = Finished -> modified (sh_git dir ["stash"] w).1 = false);
  law_stash_list : forall w, on (sh_exec dir "git" ["stash"; "list"] w).1 = on w /\ modified (sh_exec dir "git" ["stash"; "list"] w).1 = modified w;
  law_fetch : forall w, on (sh_git dir ["fetch"; "origin"] w).1 = on w /\ modified (sh_git dir ["fetch"; "origin"] w).1 = modified w;
  has_branch : W -> string -> bool;
  law_rev_parse : forall ref w w' r, sh_exec dir "git" ["rev-parse"; "--verify"; ref] w = (w', r) ->
    on w' = on w /\ (cr_Err r = None -> forall b, ref = "refs/heads/" +:+ b -> has_branch w' b = true);
  law_checkout : forall b w, has_branch w b = true ->
    on (sh_git dir ["checkout"; b] w).1 = match (sh_git dir ["checkout"; b] w).2 with Finished => b | _ => on w end;
  law_checkout_new : forall b ref w, on (sh_git dir ["checkout"; "-b"; b; ref] w).1 = match (sh_git dir ["checkout"; "-b"; b; ref] w).2 with Finished => b | _ => on w end;
}.

(** What a flow leaves as it was. *)
Definition unchanged {X A : Type} (f : W -> X) (m : Flow W A) : Prop := forall s, f (world (m s).1) = f (world s).

Section keeping.
Context {X : Type} (f : W -> X).
Lemma unchanged_ret {A} (a : A) : unchanged f (mret a : Flow W A).
Proof. done. Qed.
Lemma unchanged_fail {A} e : unchanged f (fail e : Flow W A).
Proof. done. Qed.
Lemma unchanged_bind {A B} (m : Flow W A) (k : A -> Flow W B) : unchanged f m -> (forall a, unchanged f (k a)) -> unchanged f (m ≫= k).
Proof.
  intros Hm Hk s. unfold mbind, Flow_bind. specialize (Hm s). destruct (m s) as [s1 [a|e]]; cbn [fst] in *; [|done]. by rewrite Hk.
Qed.
Lemma unchanged_try {A} (m : Flow W A) : unchanged f m -> unchanged f (try m).
Proof. intros Hm s. specialize (Hm s). unfold try. by destruct (m s). Qed.
Lemma unchanged_errorw prefix {A} (m : Flow W A) : unchanged f m -> unchanged f (errorw prefix m).
Proof. intros Hm s. specialize (Hm s). unfold errorw. by destruct (m s) as [s1 [a|e]]. Qed.
Lemma unchanged_exec dir name args : (forall w, f (sh_exec dir name args w).1 = f w) -> unchanged f (execCommand dir name args).
Proof. intros H s. specialize (H (world s)). unfold execCommand. by destruct (sh_exec dir name args (world s)). Qed.
Lemma unchanged_run dir args : (forall w, f (sh_exec dir "git" args w).1 = f w) -> unchanged f (RunGitCommand dir args).
Proof. intros H. apply unchanged_bind; [by apply unchanged_exec|]. intros r. by destruct (cr_Err r). Qed.
Lemma unchanged_stream dir args : (forall w, f (sh_git dir args w).1 = f w) -> unchanged f (RunGitCommandWithOutput dir args).
Proof. intros H s. specialize (H (world s)). unfold RunGitCommandWithOutput. by destruct (sh_git dir args (world s)). Qed.
End keeping.

Ltac unchanged_step :=
  match goal with
  | |- unchanged _ (RunGitCommand _ _) => apply unchanged_run
  | |- unchanged _ (RunGitCommandWithOutput _ _) => apply unchanged_stream
  | |- unchanged _ (execCommand _ _ _) => apply unchanged_exec
  | |- unchanged _ (try _) => apply unchanged_try
  | |- unchanged _ (errorw _ _) => apply unchanged_errorw
  | |- unchanged _ (mret _) => apply unchanged_ret
  | |- unchanged _ (fail _) => apply unchanged_fail
  | |- unchanged _ (check ?o;; _) => destruct o; cbn [check]
  | |- unchanged _ (_ ≫= _) => apply unchanged_bind; [|intros ?]
  | |- unchanged _ (if ?b then _ else _) => destruct b
  | |- unchanged _ (match ?x with _ => _ end) => destruct x
  end.

(** The outcome of one command, for the flows that go on with it. *)
Lemma git_outcome dir args s s' (r : res string) : RunGitCommand dir args s = (s', r) ->
  exists cr, sh_exec dir "git" args (world s) = (world s', cr) /\
    match r with Ok o => cr_Err cr = None /\ o = Stdout cr | Err _ => cr_Err cr <> None end.
Proof.
  unfold RunGitCommand, execCommand, mbind, Flow_bind. destruct (sh_exec dir "git" args (world s)) as [w cr].
  destruct (cr_Err cr) eqn:E; intros [= <- <-]; exists cr; cbn; by rewrite ?E.
Qed.
Lemma stream_outcome dir args s s' (r : res unit) : RunGitCommandWithOutput dir args s = (s', r) ->
  world s' = (sh_git dir args (world s)).1 /\ (r = Ok tt <-> (sh_git dir args (world s)).2 = Finished).
Proof.
  unfold RunGitCommandWithOutput. destruct (sh_git dir args (world s)) as [w e]. intros [= <- <-]. split; [done|]. by destruct e.
Qed.

Section switching.
Context (dir : string) {laws : WorktreeLaws dir}.

Lemma stash_keeps_on : unchanged on (GitStash dir).
Proof.
  unfold GitStash, getStashCount. repeat unchanged_step; intros w; apply law_stash_list || apply law_stash.
Qed.

Lemma stash_saves s s' b : GitStash dir s = (s', Ok b) -> modified (world s') = false.
Proof.
  unfold GitStash, getStashCount, mbind, Flow_bind, errorw, mret, Flow_ret.
  destruct (RunGitCommand dir ["stash"; "list"] s) as [s1 [o1|e1]]; [|done].
  destruct (RunGitCommandWithOutput dir ["stash"] s1) as [s2 [[]|e2]] eqn:E2; [|done].
  destruct (RunGitCommand dir ["stash"; "list"] s2) as [s3 [o3|e3]] eqn:E3; [|done]. intros [= <- _].
  apply stream_outcome in E2 as [Ew Hf]. apply git_outcome in E3 as (cr & E3 & _).
  pose proof (proj2 (law_stash_list (world s2))) as Hl. rewrite E3 in Hl. cbn [fst] in Hl. rewrite Hl, Ew.
  apply (law_stash (world s1)). by apply Hf.
Qed.

Lemma commit_keeps_on m s s' r : commitWIP dir m s = (s', r) -> on (world s') = on (world s) /\ (r = Ok tt -> modified (world s') = false).
Proof.
  unfold commitWIP, mbind, Flow_bind, errorw, mret, Flow_ret.
  destruct (RunGitCommand dir ["add"; "-A"] s) as [s1 r1] eqn:E1. apply git_outcome in E1 as (c1 & E1 & H1).
  pose proof (law_add (world s)) as Ha. rewrite E1 in Ha. cbn [fst] in Ha.
  destruct r1 as [o1|e1]; [|by intros [= <- <-]].
  destruct (RunGitCommand dir ["commit"; "-m"; m] s1) as [s2 r2] eqn:E2. apply git_outcome in E2 as (c2 & E2 & H2).
  destruct (law_commit m _ _ _ _ _ E1 E2) as [Hon Hsaved].
  destruct r2 as [o2|e2]; intros [= <- <-]; (split; [congruence|]); [|done]. intros _. apply Hsaved; [apply H1|apply H2].
Qed.

(** Saving leaves the branch alone; when it succeeds nothing tracked is modified. *)
Lemma save_work_spec current target s s' r : save_work dir current target s = (s', r) ->
  on (world s') = on (world s) /\ (r = Ok tt -> modified (world s') = false).
Proof.
  unfold save_work, IsCleanWorkingTree, mbind, Flow_bind, errorw, try, mret, Flow_ret.
  destruct (RunGitCommand dir ["status"; "--porcelain"] s) as [s1 r1] eqn:E1. apply git_outcome in E1 as (c1 & E1 & H1).
  destruct (law_status _ _ _ E1) as (Hon & Hmod & Hclean). destruct r1 as [o1|e1]; [|by intros [= <- <-]].
  destruct H1 as [Hn ->]. case_bool_decide as Hb.
  { intros [= <- <-]. split; [done|]. intros _. rewrite Hmod. by apply Hclean. }
  destruct (commitWIP dir _ s1) as [s2 r2] eqn:E2. destruct (commit_keeps_on _ _ _ _ E2) as [Hon2 Hs2].
  destruct r2 as [[]|e2].
  { intros [= <- <-]. split; [congruence|]. intros _. by apply Hs2. }
  destruct (GitStash dir s2) as [s3 r3] eqn:E3. pose proof (stash_keeps_on s2) as Hon3. rewrite E3 in Hon3. cbn [fst] in Hon3.
  destruct r3 as [b|e3]; intros [= <- <-]; (split; [congruence|]); [|done]. intros _. by eapply stash_saves.
Qed.

Lemma checkout_new_spec target ref s s' r : GitCheckoutNewFromRef dir target ref s = (s', r) ->
  on (world s') = match r with Ok _ => target | Err _ => on (world s) end.
Proof.
  unfold GitCheckoutNewFromRef, check. destruct (validateGitRef target); [by intros [= <- <-]|].
  destruct (validateGitRef ref); [by intros [= <- <-]|]. unfold mbind, Flow_bind, mret, Flow_ret. intros E.
  apply stream_outcome in E as [-> Hr]. rewrite law_checkout_new.
  destruct (sh_git dir ["checkout"; "-b"; target; ref] (world s)).2 eqn:Ee; destruct r as [[]|err]; naive_solver.
Qed.

Lemma local_spec target s s' r : BranchExistsLocally dir target s = (s', r) ->
  on (world s') = on (world s) /\ (r = Ok true -> has_branch (world s') target = true).
Proof.
  unfold BranchExistsLocally, check. destruct (validateGitRef target); [by intros [= <- <-]|].
  unfold mbind, Flow_bind, mret, Flow_ret, try.
  destruct (RunGitCommand dir ["rev-parse"; "--verify"; "refs/heads/" +:+ target] s) as [s1 r1] eqn:E1. apply git_outcome in E1 as (c1 & E1 & H1).
  destruct (law_rev_parse _ _ _ _ E1) as [Hon Hb]. intros [= <- <-]. split; [done|]. destruct r1; [|done]. intros _. by apply (Hb (proj1 H1)).
Qed.

Lemma remote_keeps remote target : unchanged on (RemoteBranchExists dir remote target).
Proof.
  unfold RemoteBranchExists. cbv zeta. repeat unchanged_step; intros w;
  destruct (sh_exec dir "git" _ w) as [w' r] eqn:E; by apply (law_rev_parse _ _ _ _ E).
Qed.

Lemma switch_spec target fallback s s' r : switch_branch dir target fallback s = (s', r) ->
  on (world s') = match r with Ok _ => target | Err _ => on (world s) end.
Proof.
  unfold switch_branch, mbind, Flow_bind, errorw, try, mret, Flow_ret.
  destruct (BranchExistsLocally dir target s) as [s1 r1] eqn:E1. apply local_spec in E1 as [Hon1 Hb].
  destruct r1 as [[|]|e1]; [| |by intros [= <- <-]].
  { unfold GitCheckout, check. destruct (validateGitRef target); [by intros [= <- <-]|]. unfold mbind, Flow_bind, mret, Flow_ret. intros E.
    apply stream_outcome in E as [-> Hr]. rewrite (law_checkout target _ (Hb eq_refl)).
    destruct (sh_git dir ["checkout"; target] (world s1)).2 eqn:Ee; destruct r as [[]|err]; naive_solver. }
  pose proof (remote_keeps "" target s1) as Hon2. destruct (RemoteBranchExists dir "" target s1) as [s2 r2]. cbn [fst] in Hon2.
  destruct r2 as [[|]|e2]; [| |intros [= <- <-]; congruence].
  { intros E. apply checkout_new_spec in E. rewrite E. destruct r; congruence. }
  destruct (GitCheckoutNewFromRef dir target fallback s2) as [s3 r3] eqn:E3. apply checkout_new_spec in E3.
  destruct r3 as [[]|e3]; [by intros [= <- <-]|]. intros E. apply checkout_new_spec in E. rewrite E. destruct r; congruence.
Qed.

(** Switching a worktree to a branch succeeds exactly when that branch is then
    checked out; when it fails the worktree is on the branch it was on. Before any
    branch is checked out, nothing tracked is modified: the work was committed or
    stashed, or there was none; a fetch that fails does not matter. *)
Theorem branch_switched target fallback s s' r :
  EnsureWorktreeBranch dir target fallback s = (s', r) ->
  on (world s') = match r with Ok _ => target | Err _ => on (world s) end /\
  (r = Ok tt -> on (world s) <> target ->
   exists s1 s2 s3 current, GetCurrentBranch dir s = (s1, Ok current) /\ save_work dir current target s1 = (s2, Ok tt) /\
     s3 = (GitFetch dir s2).1 /\ modified (world s3) = false /\ switch_branch dir target fallback s3 = (s', Ok tt)).
Proof.
  unfold EnsureWorktreeBranch, mbind at 1, Flow_bind at 1, errorw at 1.
  destruct (GetCurrentBranch dir s) as [s1 r1] eqn:E1. assert (on (world s1) = on (world s) /\ forall c, r1 = Ok c -> c = on (world s)) as [Hon1 Hc].
  { unfold GetCurrentBranch, mbind, Flow_bind, mret, Flow_ret in E1. destruct (RunGitCommand dir ["branch"; "--show-current"] s) as [s0 r0] eqn:E0.
    apply git_outcome in E0 as (c0 & E0 & H0). destruct (law_current _ _ _ E0) as [Hon Ho]. destruct r0 as [o|e]; injection E1 as <- <-; (split; [done|]); [|done].
    intros c [= <-]. destruct H0 as [Hn ->]. by apply Ho. }
  destruct r1 as [current|e1]; [|by intros [= <- <-]]. specialize (Hc current eq_refl). case_bool_decide as Hcur.
  { intros [= <- <-]. split; [congruence|]. intros _ []. congruence. }
  unfold mbind, Flow_bind. destruct (save_work dir current target s1) as [s2 r2] eqn:E2. destruct (save_work_spec _ _ _ _ _ E2) as [Hon2 Hs2].
  destruct r2 as [[]|e2]; [|intros [= <- <-]; split; [congruence|done]].
  unfold try. destruct (GitFetch dir s2) as [s3 r3] eqn:E3.
  assert (on (world s3) = on (world s2) /\ modified (world s3) = modified (world s2)) as [Hon3 Hm3].
  { unfold GitFetch in E3. apply stream_outcome in E3 as [-> _]. apply law_fetch. }
  intros E. pose proof (switch_spec _ _ _ _ _ E) as Hsw. split; [rewrite Hsw; destruct r; congruence|]. intros -> _.
  exists s1, s2, s3, current. split_and!; [done|done|by rewrite E3|rewrite Hm3; by apply Hs2|done].
Qed.
End switching.

(** ** One request for a branch *)

(** What is known of gh and git about the requests of a branch: nobody else opens or
    closes one meanwhile; the list tells whether there is one; creating one that
    succeeds opens it, one that fails does not. *)
Class HubLaws (dir branch : string) := {
  pr_open : W -> bool;
  hub_list : forall w w' r, sh_exec dir "gh" ["pr"; "list"; "--head"; branch; "--state"; "open"; "--json"; "url"; "--limit"; "1"] w = (w', r) ->
    pr_open w' = pr_open w /\ (cr_Err r = None -> forall urls, parse_prs (Stdout r) = Ok urls -> pr_open w = negb (bool_decide (head urls = None \/ head urls = Some "")));
  hub_create : forall id info w w' r, sh_exec dir "gh" (create_args id branch info) w = (w', r) ->
    pr_open w' = match cr_Err r with None => true | Some _ => pr_open w end;
  hub_remote : forall w, pr_open (sh_exec dir "git" ["ls-remote"; "--heads"; "origin"; branch] w).1 = pr_open w;
  hub_bd : forall args w, pr_open (sh_exec beadsDir "bd" args w).1 = pr_open w;
}.

Definition creates (c : call) : Prop := exists dir rest, c = Run dir "gh" ("pr" :: "create" :: rest).

Section requests.
Context (worktreePath epicID : string) {laws : HubLaws worktreePath (epicBranchName epicID)}.

(** A stretch of a flow in which no request is created, and none is opened or closed. *)
Definition silent (s s' : state W) : Prop :=
  exists new, calls s' = (calls s ++ new)%list /\ Forall (fun c => ~ creates c) new /\ pr_open (world s') = pr_open (world s).
Definition quiet {A} (m : Flow W A) : Prop := only (fun c => ~ creates c) m /\ unchanged pr_open m.

Lemma silent_refl s : silent s s.
Proof. exists []. by rewrite app_nil_r. Qed.
Lemma silent_trans s1 s2 s3 : silent s1 s2 -> silent s2 s3 -> silent s1 s3.
Proof.
  intros (n1 & C1 & F1 & O1) (n2 & C2 & F2 & O2). exists (n1 ++ n2)%list.
  split_and!; [by rewrite C2, C1, <- app_assoc|by apply Forall_app|congruence].
Qed.
Lemma quiet_run {A} (m : Flow W A) s s' r : quiet m -> m s = (s', r) -> silent s s'.
Proof. intros [Ho Hk] E. specialize (Ho s). specialize (Hk s). rewrite E in Ho, Hk. destruct Ho as (new & ? & ?). by exists new. Qed.

Lemma store_quiet url : quiet (storeExternalRef epicID url).
Proof. unfold storeExternalRef. split; [repeat only_step; by intros (d & rest & [=])|repeat unchanged_step; intros w; apply hub_bd]. Qed.
Lemma info_quiet : quiet (getEpicInfo epicID).
Proof. unfold getEpicInfo. split; [repeat only_step; by intros (d & rest & [=])|repeat unchanged_step; intros w; apply hub_bd]. Qed.
Lemma pushed_quiet : quiet (remoteBranchPushed worktreePath (epicBranchName epicID)).
Proof. unfold remoteBranchPushed. split; [repeat only_step; by intros (d & rest & [=])|repeat unchanged_step; intros w; apply hub_remote]. Qed.
Lemma list_quiet : quiet (getOpenPRForBranch worktreePath (epicBranchName epicID)).
Proof.
  unfold getOpenPRForBranch. split; [repeat only_step; by intros (d & rest & [=])|]. repeat unchanged_step. intros w.
  destruct (sh_exec _ "gh" _ w) as [w' r] eqn:E. by apply (hub_list _ _ _ E).
Qed.

Lemma list_spec s s' r : getOpenPRForBranch worktreePath (epicBranchName epicID) s = (s', r) ->
  forall url, r = Ok url -> pr_open (world s) = negb (bool_decide (url = "")).
Proof.
  unfold getOpenPRForBranch, execCommand, mbind, Flow_bind, mret, Flow_ret, fail.
  destruct (sh_exec _ "gh" _ (world s)) as [w cr] eqn:E. pose proof (proj2 (hub_list _ _ _ E)) as Hl.
  destruct (cr_Err cr); [by intros [= <- <-]|]. destruct (parse_prs (Stdout cr)) as [urls|] eqn:Ep; [|by intros [= <- <-]].
  specialize (Hl eq_refl urls eq_refl). destruct urls as [|u urls]; intros [= <- <-] url [= <-]; rewrite Hl; simpl.
  - done.
  - f_equal. apply bool_decide_ext. naive_solver.
Qed.

Lemma create_spec info s s' r : createEpicPR worktreePath epicID (epicBranchName epicID) info s = (s', r) ->
  (exists c, calls s' = (calls s ++ [c])%list /\ creates c) /\ pr_open (world s') = match r with Ok _ => true | Err _ => pr_open (world s) end.
Proof.
  unfold createEpicPR, execCommand, mbind, Flow_bind, mret, Flow_ret, fail.
  destruct (sh_exec _ "gh" _ (world s)) as [w cr] eqn:E. pose proof (hub_create _ _ _ _ _ E) as Hc.
  by destruct (cr_Err cr); intros [= <- <-]; split; [eexists; split; [done|by do 2 eexists]|done|eexists; split; [done|by do 2 eexists]|done].
Qed.

(** What a run did: nothing, or the one request it made between quiet stretches. *)
Lemma request_run available s s' r : EnsureEpicPR available worktreePath epicID s = (s', r) ->
  (silent s s' /\ forall u, r = Ok u -> u = None /\
     (available = false \/ snd (remoteBranchPushed worktreePath (epicBranchName epicID) s) = Ok false \/ pr_open (world s) = true)) \/
  (available = true /\ pr_open (world s) = false /\ exists s3 s4 c, silent s s3 /\ silent s4 s' /\
     calls s4 = (calls s3 ++ [c])%list /\ creates c /\ pr_open (world s4) = match r with Ok _ => true | Err _ => false end).
Proof.
  unfold EnsureEpicPR. destruct available; cbn [negb]; [|intros [= <- <-]; left; split; [apply silent_refl|intros u [= <-]; auto]].
  unfold mbind at 1, Flow_bind at 1. destruct (remoteBranchPushed worktreePath (epicBranchName epicID) s) as [s1 r1] eqn:E1.
  pose proof (quiet_run _ _ _ _ pushed_quiet E1) as Q1. destruct r1 as [[|]|e1]; cbn [negb].
  2, 3: intros [= <- <-]; left; split; [done|]; by intros u [= <-]; auto.
  unfold mbind at 1, Flow_bind at 1, errorw at 1. destruct (getOpenPRForBranch worktreePath (epicBranchName epicID) s1) as [s2 r2] eqn:E2.
  pose proof (silent_trans _ _ _ Q1 (quiet_run _ _ _ _ list_quiet E2)) as Q2. pose proof (list_spec _ _ _ E2) as L2.
  destruct r2 as [url|e2]; [|by intros [= <- <-]; left]. specialize (L2 url eq_refl).
  assert (pr_open (world s1) = pr_open (world s)) as O1 by (by destruct Q1 as (? & _ & _ & ?)).
  destruct (bool_decide_reflect (url = "")) as [Hu|Hu]; cbn [negb] in *.
  2: { unfold mbind, Flow_bind, try. destruct (storeExternalRef epicID url s2) as [s3 r3] eqn:E3. intros [= <- <-]. left.
       split; [exact (silent_trans _ _ _ Q2 (quiet_run _ _ _ _ (store_quiet url) E3))|]. intros u [= <-]. split; [done|]. right. right. congruence. }
  unfold mbind at 1, Flow_bind at 1, errorw at 1. destruct (getEpicInfo epicID s2) as [s3 r3] eqn:E3.
  pose proof (silent_trans _ _ _ Q2 (quiet_run _ _ _ _ info_quiet E3)) as Q3.
  destruct r3 as [info|e3]; [|by intros [= <- <-]; left].
  unfold mbind at 1, Flow_bind at 1, errorw at 1. destruct (createEpicPR worktreePath epicID (epicBranchName epicID) info s3) as [s4 r4] eqn:E4.
  apply create_spec in E4 as [(c & C4 & Hc) O4]. assert (pr_open (world s) = false) as Hclosed by congruence.
  assert (pr_open (world s3) = false) as O3 by (destruct Q3 as (? & _ & _ & ->); done). rewrite O3 in O4.
  destruct r4 as [newURL|e4]; [|intros [= <- <-]; right; split_and!; [done..|]; exists s3, s4, c; split_and!; [done|apply silent_refl|done..]].
  unfold mbind, Flow_bind, try. destruct (storeExternalRef epicID newURL s4) as [s5 r5] eqn:E5. intros [= <- <-]. right. split_and!; [done..|].
  exists s3, s4, c. split_and!; [done|exact (quiet_run _ _ _ _ (store_quiet newURL) E5)|done..].
Qed.

(** A request is created only for a branch that has been pushed and has none
    open, and at most one in a run. After a run without an error gh is missing, or
    the branch is not on the remote, or it has an open request; running again then
    creates nothing. *)
Theorem one_request_per_branch available s s' r :
  EnsureEpicPR available worktreePath epicID s = (s', r) ->
  exists new, calls s' = (calls s ++ new)%list /\
    (Forall (fun c => ~ creates c) new \/
     (available = true /\ pr_open (world s) = false /\ exists a c b, new = (a ++ c :: b)%list /\ creates c /\ Forall (fun c => ~ creates c) (a ++ b))) /\
    (forall u, r = Ok u -> available = false \/ snd (remoteBranchPushed worktreePath (epicBranchName epicID) s) = Ok false \/ pr_open (world s') = true) /\
    (pr_open (world s) = true -> Forall (fun c => ~ creates c) new /\ pr_open (world s') = true).
Proof.
  intros E. apply request_run in E as [[(new & C & F & O) Hr]|(-> & Hs & s3 & s4 & c & (n3 & C3 & F3 & O3) & (n4 & C4 & F4 & O4) & Cc & Hc & Ho)].
  - exists new. split_and!; [done|by left| |by rewrite O]. intros u Hu. destruct (Hr u Hu) as (_ & [?|[?|?]]); [by left|by right; left|right; right; congruence].
  - exists (n3 ++ c :: n4)%list. split_and!.
    + by rewrite C4, Cc, C3, <- !app_assoc.
    + right. split_and!; [done..|]. exists n3, c, n4. split_and!; [done..|by apply Forall_app].
    + intros u ->. right. right. congruence.
    + by rewrite Hs.
Qed.
End requests.
End daemon.

(** ** Witnesses: a worktree with work in it, away from the remote's branches *)
Section witnesses.
Record home := mkHome { h_head : string; h_dirty : bool; h_branches : list string; h_pr : string }.

Definition has (w : home) (b : string) : bool := bool_decide (b ∈ h_branches w /\ TrimSpace b = b).
Definition home_git (dir : string) (args : list string) (w : home) : home * run_end :=
  match args with
  | ["checkout"; b] => if has w b then (mkHome b (h_dirty w) (h_branches w) (h_pr w), Finished) else (w, ExitStatus 1)
  | ["checkout"; _; b; ref] => if bool_decide (ref = "HEAD" /\ TrimSpace b = b) then (mkHome b (h_dirty w) (b :: h_branches w) (h_pr w), Finished) else (w, ExitStatus 128)
  | ["stash"] => (mkHome (h_head w) false (h_branches w) (h_pr w), Finished)
  | _ => (w, ExitStatus 128)
  end.
Definition answer (s : string) : CommandResult := mkResult s "" None.
Definition refusal : CommandResult := mkResult "" "" (Some (Msg "exit status 128")).
Definition home_exec (dir name : string) (args : list string) (w : home) : home * CommandResult :=
  if bool_decide (name = "gh") then
    match args with
    | _ :: "create" :: _ => (mkHome (h_head w) (h_dirty w) (h_branches w) "https://forge/pr/7", answer "https://forge/pr/7")
    | _ => (w, answer (h_pr w))
    end
  else
    match args with
    | "branch" :: _ => (w, answer (h_head w))
    | "status" :: _ => (w, answer (if h_dirty w then " M a.go" else ""))
    | "commit" :: _ => (mkHome (h_head w) false (h_branches w) (h_pr w), answer "")
    | ["rev-parse"; _; ref] => (w, if existsb (fun b => has w b && bool_decide (ref = "refs/heads/" +:+ b)) (h_branches w) then answer "" else refusal)
    | "ls-remote" :: _ => (w, answer "1f00 refs/heads/epic/e1")
    | _ => (w, answer "")
    end.
#[local] Instance home_shell : Shell home := {| sh_exec := home_exec; sh_git := home_git; sh_agent _ _ w := (w, None); sh_now _ := 0%Z |}.
#[local] Instance home_json : EpicJson := {|
  parse_prs s := Ok (if bool_decide (s = "") then [] else [s]);
  parse_epics s := Ok [mkEpic "Locks" "e1" [mkChild "t1" "First" "closed"; mkChild "t2" "Second" "open"]];
|}.

#[local] Instance home_laws : WorktreeLaws "/wt/falcon".
Proof.
  refine {| on w := TrimSpace (h_head w); modified := h_dirty; has_branch := has |}.
  - by intros w w' r [= <- <-].
  - intros w w' r [= <- <-]. cbn. by destruct (h_dirty w).
  - done.
  - intros m w0 w1 r1 w2 r2 [= <- <-] [= <- <-]. done.
  - done.
  - done.
  - done.
  - intros ref w w' r [= <- <-]. split; [done|]. destruct (existsb _ _) eqn:Hin; [|done]. intros _ b ->.
    apply existsb_exists in Hin as (b' & _ & [Hb E%bool_decide_eq_true]%andb_true_iff).
    apply append_inv_len in E as [_ E]; [|done]. by subst.
  - intros b w Hb. cbn. rewrite Hb. cbn. by apply bool_decide_eq_true in Hb as [_ ?].
  - intros b ref w. cbn. by case_bool_decide as Hb; [apply Hb|].
Defined.
#[local] Instance home_hub : HubLaws "/beads" "main" "/wt/falcon" "epic/e1".
Proof.
  refine {| pr_open w := negb (bool_decide (h_pr w = "")) |}; try done.
  - intros w w' r [= <- <-]. split; [done|]. intros _ urls [= <-]. case_bool_decide as Hp; simpl; [done|].
    by rewrite bool_decide_false by naive_solver.
  - by intros id info w w' r [= <- <-].
  - intros args w. cbn. unfold home_exec. rewrite (bool_decide_false ("bd" = "gh")) by done. repeat case_match; done.
Defined.

Definition at_work : state home := mkState (mkHome "falcon" true ["falcon"] "") [].
Definition switched : state home := (EnsureWorktreeBranch "/wt/falcon" "epic/e1" "origin/main" at_work).1.

Lemma branch_switched_witness : calls switched =
  map (fun args => Run "/wt/falcon" "git" args) [["branch"; "--show-current"]; ["status"; "--porcelain"]; ["add"; "-A"];
    ["commit"; "-m"; "WIP: daemon branch switch from falcon to epic/e1"]; ["fetch"; "origin"];
    ["rev-parse"; "--verify"; "refs/heads/epic/e1"]; ["rev-parse"; "--verify"; "refs/remotes/origin/epic/e1"];
    ["checkout"; "-b"; "epic/e1"; "origin/main"]; ["checkout"; "-b"; "epic/e1"; "HEAD"]] /\ h_head (world switched) = "epic/e1".
Proof.
  split; [vm_compute; reflexivity|].
  exact (proj1 (branch_switched "/wt/falcon" (laws := home_laws) "epic/e1" "origin/main" at_work switched (Ok tt) ltac:(vm_compute; reflexivity))).
Defined.

Definition requested : state home := (EnsureEpicPR "/beads" "main" true "/wt/falcon" "e1" switched).1.
Lemma one_request_per_branch_witness :
  (EnsureEpicPR "/beads" "main" true "/wt/falcon" "e1" switched).2 = Ok (Some "https://forge/pr/7") /\
  exists new, calls (EnsureEpicPR "/beads" "main" true "/wt/falcon" "e1" requested).1 = (calls requested ++ new)%list /\ Forall (fun c => ~ creates c) new.
Proof.
  split; [vm_compute; reflexivity|].
  destruct (one_request_per_branch "/beads" "main" "/wt/falcon" "e1" (laws := home_hub) true requested _ _ (surjective_pairing _)) as (new & C & _ & _ & H).
  exists new. split; [exact C|]. apply H. vm_compute. reflexivity.
Defined.
End witnesses.
End DaemonGit.
