(* ===== verification/DaemonLife.v ===== *)
(** * DaemonLife: the daemon as a process, [internal/cli/daemon_cmd.go],
    [daemon_health.go], and the start of [daemon.go]

    [Single]: the lock file that keeps a second daemon from starting, as a system
    of processes that make one system call at a time. [Control]: the paths of the
    daemon's files, the file with its process number, and stopping it. [Watchdog]:
    the agents a daemon is made of, what is reported of them, their worktrees at
    the start, and the health check that stops agents which write nothing. *)
From S2P Require Import Prelude Paths Rotation DaemonConfig AgentErr Supervisor GitCalls DaemonGit.
Local Open Scope Z_scope.

(** ** One daemon at a time ([runDaemon])

    The lock is [flock]'s: it belongs to the file that was opened, and goes with the
    handle or the process. *)
Module Single.

Inductive pc :=
| Starting                 (* before the lock file is opened *)
| Opened (ino : nat)       (* before [TryLockExclusive] *)
| Locked (ino : nat)       (* before an old PID file is removed *)
| Naming (ino : nat)       (* before the PID file is written *)
| Running (ino : nat)      (* agents are supervised *)
| Leaving (ino : nat)      (* the agents have stopped, the PID file is removed *)
| Unlinked (ino : nat)     (* the lock file is removed, its handle is open *)
| Gone.

(** [at_path]: the file that the name of the lock leads to; [made]: files made so far;
    [pid_file]: whose number the PID file holds. *)
Record sys := mkSys { at_path : option nat; made : nat; pid_file : option nat; procs : list pc }.

Definition set_proc (i : nat) (t : pc) (s : sys) : sys := mkSys (at_path s) (made s) (pid_file s) (<[i := t]> (procs s)).

(** The file whose lock a process holds. *)
Definition locks (t : pc) : option nat :=
  match t with Locked i | Naming i | Running i | Leaving i | Unlinked i => Some i | _ => None end.
Definition locked_by_any (ino : nat) (s : sys) : bool := existsb (fun t => bool_decide (locks t = Some ino)) (procs s).

Definition proc_step (i : nat) (t : pc) (s : sys) : option sys :=
  match t with
  | Starting =>
      match at_path s with
      | Some ino => Some (set_proc i (Opened ino) s)
      | None => Some (set_proc i (Opened (made s)) (mkSys (Some (made s)) (S (made s)) (pid_file s) (procs s)))
      end
  | Opened ino => Some (set_proc i (if locked_by_any ino s then Gone else Locked ino) s)
  | Locked ino => Some (set_proc i (Naming ino) (mkSys (at_path s) (made s) None (procs s)))
  | Naming ino => Some (set_proc i (Running ino) (mkSys (at_path s) (made s) (Some i) (procs s)))
  | Running ino => Some (set_proc i (Leaving ino) (mkSys (at_path s) (made s) None (procs s)))
  | Leaving ino => Some (set_proc i (Unlinked ino) (mkSys None (made s) (pid_file s) (procs s)))
  | Unlinked ino => Some (set_proc i Gone s)
  | Gone => None
  end.

(** [Crash]: a process ends anywhere, by a signal or by [os.Exit] on an error. *)
Inductive label := Begin | Step (i : nat) | Crash (i : nat).

Definition exec (l : label) (s : sys) : option sys :=
  match l with
  | Begin => Some (mkSys (at_path s) (made s) (pid_file s) (procs s ++ [Starting]))
  | Step i => t ← procs s !! i; proc_step i t s
  | Crash i => _ ← procs s !! i; Some (set_proc i Gone s)
  end.

Definition daemon_step (s : sys) (l : label) (s' : sys) : Prop := exec l s = Some s'.
Definition start : sys := mkSys None 0 None [].

(** A step that removes the lock file while another process is between opening it and
    asking for the lock. *)
Definition opened (t : pc) : bool := match t with Opened _ => true | _ => false end.
Definition straddles (s : sys) (l : label) : bool :=
  match l with
  | Step i => match procs s !! i with Some (Leaving _) => existsb opened (procs s) | _ => false end
  | _ => false
  end.
Definition calm_step (s : sys) (l : label) (s' : sys) : Prop := daemon_step s l s' /\ straddles s l = false.

(** The file of a process that has come to it by its name. *)
Definition uses (t : pc) : option nat :=
  match t with Opened i | Locked i | Naming i | Running i | Leaving i => Some i | _ => None end.
(** From the lock to its removal. *)
Definition supervises (t : pc) : bool :=
  match t with Locked _ | Naming _ | Running _ | Leaving _ => true | _ => false end.

Definition alone (s : sys) : Prop :=
  (forall i t ino, procs s !! i = Some t -> uses t = Some ino -> at_path s = Some ino) /\
  (forall i j t u ino, procs s !! i = Some t -> procs s !! j = Some u ->
     locks t = Some ino -> locks u = Some ino -> i = j) /\
  (forall i ino, procs s !! i = Some (Running ino) -> pid_file s = Some i).

Lemma supervises_uses t : supervises t = true -> exists ino, uses t = Some ino /\ locks t = Some ino.
Proof. destruct t; simpl; eauto; done. Qed.

Lemma alone_one s i j t u : alone s -> procs s !! i = Some t -> procs s !! j = Some u ->
  supervises t = true -> supervises u = true -> i = j.
Proof.
  intros (Hu & Hl & _) Hi Hj (a & Ha & Hla)%supervises_uses (b & Hb & Hlb)%supervises_uses.
  pose proof (Hu _ _ _ Hi Ha) as E1. pose proof (Hu _ _ _ Hj Hb) as E2. apply (Hl i j t u a); congruence.
Qed.

Lemma not_locked ino s j u : locked_by_any ino s = false -> procs s !! j = Some u -> locks u <> Some ino.
Proof.
  intros H Hj E. assert (locked_by_any ino s = true); [|congruence]. apply existsb_exists. exists u.
  split; [apply list_elem_of_In; by eapply list_elem_of_lookup_2|by apply bool_decide_true].
Qed.

(** A process that keeps, or gives up, the file it uses and the lock it holds. *)
Lemma alone_set i t0 t s path pid :
  alone s -> procs s !! i = Some t0 ->
  (forall ino, uses t = Some ino -> path = Some ino) ->
  (forall j u ino, j <> i -> procs s !! j = Some u -> uses u = Some ino -> path = Some ino) ->
  (forall ino, locks t = Some ino -> locks t0 = Some ino \/ locked_by_any ino s = false) ->
  (forall j ino, procs s !! j = Some (Running ino) -> j <> i -> pid = Some j) ->
  (forall ino, t = Running ino -> pid = Some i) ->
  forall n, alone (set_proc i t (mkSys path n pid (procs s))).
Proof.
  intros (Hu & Hl & Hp) Hi Ht Hpath Hlock Hpid Hrun n.
  assert (forall j u, <[i := t]> (procs s) !! j = Some u -> j = i /\ u = t \/ j <> i /\ procs s !! j = Some u) as Hat.
  { intros j u. destruct (decide (j = i)) as [->|Hne].
    - rewrite list_lookup_insert_eq by by eapply lookup_lt_Some. intros [= <-]. by left.
    - rewrite list_lookup_insert_ne by done. by right. }
  split; [|split]; simpl.
  - intros j u ino [[-> ->]|[Hne Hj]]%Hat; [by apply Ht|by eapply Hpath].
  - intros j k u v ino [[-> ->]|[Hne Hj]]%Hat [[-> ->]|[Hne' Hk]]%Hat Hx Hy; [done| | |by apply (Hl j k u v ino)].
    + destruct (Hlock _ Hx) as [H0|Hn]; [by apply (Hl i k t0 v ino)|]. by destruct (not_locked _ _ _ _ Hn Hk).
    + destruct (Hlock _ Hy) as [H0|Hn]; [by apply (Hl j i u t0 ino)|]. by destruct (not_locked _ _ _ _ Hn Hj).
  - intros j ino [[-> E]|[Hne Hj]]%Hat; [by eapply Hrun|by eapply Hpid].
Qed.

Lemma calm_step_alone s l s' : alone s -> calm_step s l s' -> alone s'.
Proof.
  intros Ha [E Hcalm]. pose proof Ha as (Hu & Hl & Hp). unfold daemon_step in E. destruct l as [|i|i]; simpl in E.
  - injection E as <-.
    assert (forall j u, (procs s ++ [Starting]) !! j = Some u -> procs s !! j = Some u \/ u = Starting) as Hat.
    { intros j u Hj. apply lookup_app_Some in Hj as [Hj|[_ Hj]]; [by left|]. right. by apply list_lookup_singleton_Some in Hj as [_ <-]. }
    split; [|split]; simpl.
    + intros j u ino [Hj| ->]%Hat; [by eapply Hu|done].
    + intros j k u v ino [Hj| ->]%Hat [Hk| ->]%Hat; try done. by eapply Hl.
    + intros j ino [Hj|E]%Hat; [by apply Hp in Hj|done].
  - destruct (procs s !! i) as [t|] eqn:Hi; [|done]. cbn [mbind option_bind] in E.
    assert (forall j ino, supervises t = true -> procs s !! j = Some (Running ino) -> j <> i -> False) as Honly.
    { intros j ino Ht Hj Hne. apply Hne. by apply (alone_one s j i (Running ino) t). }
    assert (forall j u ino, j <> i -> procs s !! j = Some u -> uses u = Some ino -> at_path s = Some ino) as Hkeep by (intros j u ino _ Hj; by eapply Hu).
    destruct t as [|ino|ino|ino|ino|ino|ino|]; simpl in E; simplify_eq; try done.
    + destruct (at_path s) as [ino|] eqn:Ep; injection E as <-; unfold set_proc.
      * rewrite Ep. eapply (alone_set i _ _ s (Some ino) (pid_file s)); try done. intros j x Hj _. by eapply Hp.
      * eapply (alone_set i _ _ s (Some (made s)) (pid_file s)); try done.
        -- intros j u x Hne Hj Hx. by specialize (Hkeep _ _ _ Hne Hj Hx).
        -- intros j x Hj _. by eapply Hp.
    + unfold set_proc. eapply (alone_set i _ _ s (at_path s) (pid_file s)); try done.
      * intros x Hx. apply (Hu _ _ _ Hi). destruct (locked_by_any ino s); [done|]. by injection Hx as ->.
      * intros x Hx. right. destruct (locked_by_any ino s) eqn:El; [done|]. by injection Hx as ->.
      * intros j x Hj _. by eapply Hp.
      * intros x. by destruct (locked_by_any ino s).
    + eapply (alone_set i _ _ s (at_path s) None); try done; [intros x [= ->]; by apply (Hu _ _ _ Hi)|intros x Hx; by left|].
      intros j x Hj Hne. by destruct (Honly j x).
    + eapply (alone_set i _ _ s (at_path s) (Some i)); try done; [intros x [= ->]; by apply (Hu _ _ _ Hi)|intros x Hx; by left|].
      intros j x Hj Hne. by destruct (Honly j x).
    + eapply (alone_set i _ _ s (at_path s) None); try done; [intros x [= ->]; by apply (Hu _ _ _ Hi)|intros x Hx; by left|].
      intros j x Hj Hne. by destruct (Honly j x).
    + eapply (alone_set i _ _ s None (pid_file s)); try done; [|intros x Hx; by left|intros j x Hj _; by eapply Hp].
      intros j u x Hne Hj Hx. destruct u; try done; try (destruct Hne; by eapply (alone_one s j i)).
      exfalso. unfold straddles in Hcalm. rewrite Hi in Hcalm. assert (existsb opened (procs s) = true); [|congruence].
      apply existsb_exists. eexists. split; [apply list_elem_of_In; by eapply list_elem_of_lookup_2|done].
    + eapply (alone_set i _ _ s (at_path s) (pid_file s)); try done. intros j x Hj _. by eapply Hp.
  - destruct (procs s !! i) as [t|] eqn:Hi; [|done]. cbn [mbind option_bind] in E. injection E as <-.
    eapply (alone_set i _ _ s (at_path s) (pid_file s)); try done; [intros j u ino _ Hj; by eapply Hu|]. intros j x Hj _. by eapply Hp.
Qed.

(** C13. One daemon at a time: whatever daemons start, end and crash, as long as none removes
    the lock file while another is between opening and locking it, at most one supervises;
    the PID file names the one that runs; and a daemon that asks for the lock meanwhile
    goes away without changing anything. *)
Theorem one_daemon ls s : steps calm_step start ls s ->
  (forall i j t u, procs s !! i = Some t -> procs s !! j = Some u -> supervises t = true -> supervises u = true -> i = j) /\
  (forall i ino, procs s !! i = Some (Running ino) -> pid_file s = Some i) /\
  (forall i j t ino, procs s !! i = Some t -> supervises t = true -> procs s !! j = Some (Opened ino) ->
     exec (Step j) s = Some (set_proc j Gone s)).
Proof.
  intros Hs. assert (alone s) as Ha.
  { eapply (steps_inv calm_step alone); [|exact Hs|by split_and!]. intros. by eapply calm_step_alone. }
  split; [intros i j t u Hi Hj; by apply (alone_one s i j t u)|]. split; [by apply Ha|].
  intros i j t ino Hi Ht Hj. simpl. rewrite Hj. cbn [mbind option_bind proc_step].
  destruct (locked_by_any ino s) eqn:El; [done|]. exfalso. apply supervises_uses in Ht as (a & Hua & Hla).
  destruct Ha as (Hu & _). pose proof (Hu _ _ _ Hi Hua). pose proof (Hu _ _ _ Hj eq_refl).
  eapply (not_locked _ _ _ _ El Hi). congruence.
Qed.

(** Daemon 0 ends after 1 has opened the lock file and before 1 asks for the lock: 1 then
    holds a file without a name, and 2 makes another. Both supervise; when 2 ends, no PID
    file is left for 1. *)
Definition straddling_trace : list label :=
  [Begin; Step 0; Step 0; Step 0; Step 0] ++ [Begin; Step 1] ++ [Step 0; Step 0; Step 0] ++
  [Step 1; Step 1; Step 1] ++ [Begin; Step 2; Step 2; Step 2; Step 2].
Theorem two_daemons :
  (exists s, steps daemon_step start straddling_trace s /\ procs s = [Gone; Running 0; Running 1] /\ pid_file s = Some 2%nat) /\
  (exists s, steps daemon_step start (straddling_trace ++ [Step 2; Step 2; Step 2]) s /\
     procs s = [Gone; Running 0; Gone] /\ pid_file s = None).
Proof.
  split; (eexists; split; [apply exec_all_steps; vm_compute; reflexivity|done]).
Qed.
End Single.

(** ** The daemon's files, and stopping it *)
Module Control.
Import Files Paths.
Local Open Scope string_scope.

(** A loop that looks every [pause] until a deadline: the looks are the times before them
    and what they find. [None] when the looks are used up. *)
Fixpoint poll (deadline : Z) (looks : list (Z * bool)) : option bool :=
  match looks with
  | [] => None
  | (t, found) :: rest => if (t <? deadline)%Z then if found then Some true else poll deadline rest else Some false
  end.

(** Each look comes at least [pause] after the one before. *)
Fixpoint paced {A} (pause from : Z) (looks : list (Z * A)) : Prop :=
  match looks with
  | [] => True
  | (t, _) :: rest => (from <= t)%Z /\ paced pause (t + pause) rest
  end.

Lemma poll_ends pause from deadline looks :
  (0 < pause)%Z -> paced pause from looks -> (deadline - from <= pause * (Z.of_nat (length looks) - 1))%Z -> looks <> [] ->
  is_Some (poll deadline looks).
Proof.
  intros Hp. revert from. induction looks as [|[t found] looks IH]; intros from Hl Hn Hne; [done|]. destruct Hl as [Ht Hl]. cbn [poll].
  destruct (Z.ltb_spec t deadline) as [Hd|]; [|by eexists]. destruct found; [by eexists|].
  apply (IH (t + pause)%Z); [done| |]; cbn [length] in Hn; [lia|]. intros ->. cbn in Hn. lia.
Qed.

(** *** Paths *)
(** [filepath.Abs]; the working directory may be unknown. *)
Definition Abs (cwd : option string) (path : string) : option string :=
  if IsAbs path then Some (Clean path) else (fun d => Join d path) <$> cwd.

(** The names of the entries a warning is printed for. *)
Definition validateDaemonPaths (cwd : option string) (configDir projectDir pidFilePath logDir : string) : list string :=
  omap (fun '(name, path) =>
    match Abs cwd path with
    | None => Some name
    | Some resolved =>
        let absProject := default "" (Abs cwd projectDir) in
        let absConfig := default "" (Abs cwd configDir) in
        if under resolved absProject then None
        else if bool_decide (configDir <> "") && under resolved absConfig then None
        else Some name
    end) [("pid_file", pidFilePath); ("log_dir", logDir)].

(** Without a warning, a file of the daemon lies in the project or in loom's own directory. *)
Theorem daemon_paths_inside cwd configDir projectDir pidFilePath logDir p :
  validateDaemonPaths cwd configDir projectDir pidFilePath logDir = [] -> p = pidFilePath \/ p = logDir ->
  IsAbs p = true -> IsAbs projectDir = true -> parts projectDir <> [] -> (configDir <> "" -> IsAbs configDir = true /\ parts configDir <> []) ->
  parts projectDir `prefix_of` parts p \/ configDir <> "" /\ parts configDir `prefix_of` parts p.
Proof.
  intros Hv Hp Ha Hpr Hne Hc.
  assert (under (Clean p) (Clean projectDir) = true \/ configDir <> "" /\ under (Clean p) (Clean configDir) = true) as H.
  { unfold validateDaemonPaths, Abs in Hv. rewrite Hpr in Hv. cbn [omap list_omap default] in Hv.
    destruct (decide (configDir = "")) as [->|Hd].
    - left. destruct Hp as [<-|<-]; rewrite Ha in Hv; repeat case_match; done.
    - destruct (Hc Hd) as [Hca _]. rewrite Hca, !(bool_decide_true (configDir <> "")) in Hv by done. cbn [default] in Hv.
      destruct Hp as [<-|<-]; rewrite Ha in Hv; repeat case_match; try done;
        repeat match goal with H : (true && _) = _ |- _ => cbn [andb] in H end; first [by left|by right]. }
  rewrite (Clean_abs p), (Clean_abs projectDir) in H by done.
  destruct H as [H|[Hd H]]; [left|right; split; [done|]; destruct (Hc Hd) as [Hca Hcn]; rewrite (Clean_abs configDir) in H by done];
    (eapply under_prefix; [| | |exact H]; [by apply parts_abs_plain|by apply parts_abs_plain|done]).
Qed.

(** *** The PID file *)
Definition newline : string := String "010" "".
Definition temp_path (path : string) (pid : Z) : string := path +:+ "." +:+ itoa pid +:+ ".tmp".

Definition replace_file (path text : string) (pid : Z) (w : world) : option goerror * world :=
  match WriteFile (temp_path path pid) text w with
  | (Some e, w1) => (Some e, w1)
  | (None, w1) =>
      match Rename (temp_path path pid) path w1 with
      | (Some e, w2) => (Some e, (Remove (temp_path path pid) w2).2)
      | (None, w2) => (None, w2)
      end
  end.

Definition writePIDFile (path : string) (pid : Z) : world -> option goerror * world := replace_file path (itoa pid +:+ newline) pid.

Definition IsProcessRunning (kill0 : Z -> bool) (pid : Z) : bool := if (pid <=? 0)%Z then false else kill0 pid.

Definition isLoomDaemonRunning (kill0 : Z -> bool) (pidFilePath : string) (w : world) : (Z * bool) * world :=
  match ReadFile pidFilePath w with
  | (Err _, w1) => ((0%Z, false), w1)
  | (Ok data, w1) =>
      (match atoi (TrimSpace data) with
       | None => (0%Z, false)
       | Some pid => if (pid <=? 0)%Z then (0%Z, false) else (pid, IsProcessRunning kill0 pid)
       end, w1)
  end.

Lemma temp_path_ne path pid : temp_path path pid <> path.
Proof. intros E%(f_equal String.length). unfold temp_path in E. rewrite !length_append in E. simpl in E. lia. Qed.

Lemma replace_file_whole path text pid w e w' : wf (files w) -> replace_file path text pid w = (e, w') ->
  wf (files w') /\ text_of (files w') path = (match e with None => Some text | Some _ => text_of (files w) path end).
Proof.
  intros Hwf. pose proof (temp_path_ne path pid) as Hne. unfold replace_file.
  destruct (WriteFile _ _ w) as [[e1|] w1] eqn:EW; apply WriteFile_text in EW as (Hwf1 & Ho1 & Ht1); try done.
  { intros [= <- <-]. split; [done|]. by apply Ho1. }
  destruct (Rename _ _ w1) as [[e2|] w2] eqn:ER; apply Rename_text in ER as (Hwf2 & Hok & Hbad); try done.
  - destruct (Remove _ w2) as [e3 w3] eqn:EM. apply Remove_text in EM as (Hwf3 & Ho3 & _); [|done].
    intros [= <- <-]. split; [done|]. rewrite Ho3, (Hbad ltac:(done)) by done. by apply Ho1.
  - intros [= <- <-]. split; [done|]. destruct (Hok eq_refl) as [-> _]. by apply Ht1.
Qed.

Lemma no_space_bytes s : (forall c, is_space c = true -> contains_byte s c = false) -> no_space s = true.
Proof.
  induction s as [|c s IH]; intros H; [done|]. cbn [no_space]. apply andb_true_iff. split.
  - destruct (is_space c) eqn:E; [|done]. specialize (H c E). cbn [contains_byte] in H. by rewrite bool_decide_true in H.
  - apply IH. intros d Hd. specialize (H d Hd). cbn [contains_byte] in H. by apply orb_false_iff in H as [_ ?].
Qed.
Lemma itoa_no_space z : no_space (itoa z) = true.
Proof.
  apply no_space_bytes. intros c Hc. apply itoa_no_byte; [|by intros ->].
  destruct c as [b0 b1 b2 b3 b4 b5 b6 b7]. destruct b0, b1, b2, b3, b4, b5, b6, b7; done.
Qed.

(** The PID file is replaced whole or not at all, whichever calls fail: after a write without
    an error the file names the daemon, and another process finds it running exactly
    when it is; after an error it is what it was. *)
Theorem pid_file_whole kill0 path pid w e w' :
  wf (files w) -> (0 < pid <= max_int64)%Z -> writePIDFile path pid w = (e, w') ->
  wf (files w') /\
  match e with
  | None => (isLoomDaemonRunning kill0 path (mkWorld (files w') [])).1 = (pid, kill0 pid)
  | Some _ => text_of (files w') path = text_of (files w) path
  end.
Proof.
  intros Hwf Hpid H. apply replace_file_whole in H as [Hwf' Ht]; [|done]. split; [done|]. destruct e; [done|].
  unfold isLoomDaemonRunning. rewrite ReadFile_quiet, Ht. unfold newline. rewrite TrimSpace_line by apply itoa_no_space.
  rewrite atoi_itoa, bool_decide_true by (unfold in_int64, min_int64; lia). simpl.
  destruct (Z.leb_spec pid 0); [lia|]. unfold IsProcessRunning. by destruct (Z.leb_spec pid 0); [lia|].
Qed.

(** *** [loom daemon stop] *)
Inductive outcome := NotRunning | Stopped | SignalFailed | StillRunning.
Definition stop_wait : Z := 30 * second.
Definition stop_pause : Z := 500000000.

(** What is said, and the process that SIGTERM was sent to. [looks] are the looks at the
    process after the signal: the times, and whether it is gone. *)
Definition runDaemonStop (kill0 : Z -> bool) (term : Z -> option goerror) (now : Z) (looks : list (Z * bool))
    (pidFilePath : string) (w : world) : option outcome * option Z :=
  let '((pid, running), _) := isLoomDaemonRunning kill0 pidFilePath w in
  if negb running then (Some NotRunning, None)
  else match term pid with
       | Some _ => (Some SignalFailed, Some pid)
       | None => (match poll (now + stop_wait) looks with
                  | Some true => Some Stopped
                  | Some false => Some StillRunning
                  | None => None
                  end, Some pid)
       end.

(** Stopping ends within sixty-one looks, half a second apart, and only the process in the file gets a
    signal, when it runs. *)
Theorem stop_ends kill0 term now looks path w :
  paced stop_pause now looks -> (61 <= length looks)%nat ->
  is_Some (runDaemonStop kill0 term now looks path w).1 /\
  forall pid, (runDaemonStop kill0 term now looks path w).2 = Some pid ->
    (0 < pid)%Z /\ kill0 pid = true /\ (isLoomDaemonRunning kill0 path w).1 = (pid, true).
Proof.
  intros Hl Hn. unfold runDaemonStop.
  assert (forall pid, (isLoomDaemonRunning kill0 path w).1 = (pid, true) -> (0 < pid)%Z /\ kill0 pid = true) as Hpid.
  { unfold isLoomDaemonRunning, IsProcessRunning. intros pid. destruct (ReadFile path w) as [[data|e] w1]; [|done]. cbn [fst].
    destruct (atoi (TrimSpace data)) as [q|]; [|done]. destruct (Z.leb_spec q 0); [done|]. by intros [= -> ?]. }
  destruct (isLoomDaemonRunning kill0 path w) as [[pid running] w1]. cbn [fst] in *.
  destruct running; cbn [negb]; [|split; [by eexists|done]]. specialize (Hpid pid eq_refl) as [H0 Hk].
  assert (is_Some (poll (now + stop_wait) looks)) as [b Hb].
  { apply (poll_ends stop_pause now); [done|done| |by destruct looks; simpl in *; [lia|]]. unfold stop_wait, stop_pause, second. lia. }
  rewrite Hb. destruct (term pid), b; (split; [by eexists|]); by intros q [= <-].
Qed.
End Control.

(** ** The agents of a daemon, and their health *)
Module Watchdog.
Import Files Config AgentErr Super Control.
Local Open Scope string_scope.

(** An agent with the parts that only processes and reports use: whether there is a command,
    its process (0 when not running), the log that the watchdog looks at, the last end. *)
Record Supervised := mkSupervised { su_agent : AgentProcess; su_cmd : bool; su_pid : Z; su_logFilePath : string; su_lastExit : Z }.

(** [NewDaemon]: the agents of the configuration, or the first that cannot be one. *)
Section new.
Context (ResolveAgentTarget : string -> res string) (role : DaemonConfig -> string -> Z -> res RoleConfig).

Definition new_agent (dc : DaemonConfig) (i : nat) (entry : AgentEntry) : res Supervised :=
  match ResolveAgentTarget (Worktree entry) with
  | Err e => Err (Wrapf ("agent[" +:+ itoa (Z.of_nat i) +:+ "] worktree " +:+ quote (Worktree entry) +:+ ": ") e "")
  | Ok workDir =>
      match role dc (Role entry) (Z.of_nat i) with
      | Err e => Err e
      | Ok rc => Ok (mkSupervised (mkProc entry rc workDir 0 0 0 "" None 0 false 0) false 0 "" 0)
      end
  end.

Fixpoint new_agents (dc : DaemonConfig) (i : nat) (entries : list AgentEntry) : res (list Supervised) :=
  match entries with
  | [] => Ok []
  | entry :: rest =>
      match new_agent dc i entry with
      | Err e => Err e
      | Ok a => match new_agents dc (S i) rest with Err e => Err e | Ok l => Ok (a :: l) end
      end
  end.

Definition NewDaemon (config : option DaemonConfig) : res (list Supervised) :=
  match config with
  | None => Err (Msg "daemon config is nil")
  | Some dc => if bool_decide (dc_Agents dc = []) then Err (Msg "no agents configured in loom.yaml") else new_agents dc 0 (dc_Agents dc)
  end.

Lemma new_agents_all dc i entries l : new_agents dc i entries = Ok l -> (fun a => entry (su_agent a)) <$> l = entries.
Proof.
  revert i l. induction entries as [|en rest IH]; intros i l; cbn [new_agents]; [by intros [= <-]|].
  unfold new_agent. destruct (ResolveAgentTarget _) as [dir|]; [|done]. destruct (role _ _ _) as [rc|]; [|done].
  destruct (new_agents dc (S i) rest) as [l'|] eqn:E; [|done]. intros [= <-]. cbn. f_equal. by eapply IH.
Qed.
End new.

(** *** Reports *)
Record SupervisedAgentStatus := mkSupervisedStatus {
  st_Worktree : string; st_Role : string; st_WorktreePath : string; st_PID : Z; st_RestartCount : Z;
  st_LastStart : Z; st_LastExit : Z; st_LastExitCode : Z; st_AssignedEpicID : string; st_CurrentBackend : string }.

Definition Agents (dc : DaemonConfig) (agents : list Supervised) : list SupervisedAgentStatus :=
  (fun a => let ap := su_agent a in
     mkSupervisedStatus (Worktree (entry ap)) (Role (entry ap)) (worktreePath ap) (su_pid a) (restartCount ap)
       (lastStart ap) (su_lastExit a) (lastExitCode ap) (assignedEpicID ap) (getEffectiveBackend dc ap)) <$> agents.

Record DaemonAgentStatus := mkAgentStatus {
  da_Worktree : string; da_Role : string; da_PID : Z; da_Status : string; da_TaskID : string; da_EpicID : string;
  da_CurrentBackend : string; da_RestartCount : Z; da_LastStart : Z; da_LastExit : Z; da_LastExitCode : Z }.
Record DaemonState := mkState { ds_PID : Z; ds_StartedAt : Z; ds_Agents : list DaemonAgentStatus }.

Section state.
Context {codec : JsonCodec DaemonState} (kill0 : Z -> bool).

Definition computeAgentStatus (ap : SupervisedAgentStatus) (maxRetries : Z) : string :=
  if ((0 <? st_PID ap) && IsProcessRunning kill0 (st_PID ap))%Z then "running"
  else if (maxRetries <? st_RestartCount ap)%Z then "failed"
  else "stopped".

Definition agent_state (maxRetries : Z) (ap : SupervisedAgentStatus) : DaemonAgentStatus :=
  mkAgentStatus (st_Worktree ap) (st_Role ap) (st_PID ap) (computeAgentStatus ap maxRetries) "" (st_AssignedEpicID ap)
    (st_CurrentBackend ap) (st_RestartCount ap) (st_LastStart ap) (st_LastExit ap) (st_LastExitCode ap).

Definition writeStateFile (path : string) (me startedAt : Z) (agents : list SupervisedAgentStatus) (maxRetries : Z) : world -> option goerror * world :=
  replace_file path (marshal (mkState me startedAt (agent_state maxRetries <$> agents))) me.

Definition readStateFile (path : string) (w : world) : res DaemonState * world :=
  match ReadFile path w with
  | (Err e, w1) => (Err e, w1)
  | (Ok data, w1) => (match unmarshal data with Some st => Ok st | None => Err (Msg "invalid character") end, w1)
  end.

(** A reader of the state file finds every agent as it was reported last, never a part of
    a report. *)
Theorem state_file_whole path me startedAt agents maxRetries w e w' :
  wf (files w) -> writeStateFile path me startedAt agents maxRetries w = (e, w') ->
  match e with
  | None => (readStateFile path (mkWorld (files w') [])).1 = Ok (mkState me startedAt (agent_state maxRetries <$> agents))
  | Some _ => (readStateFile path (mkWorld (files w') [])).1 = (readStateFile path (mkWorld (files w) [])).1
  end.
Proof.
  intros Hwf H. apply replace_file_whole in H as [_ Ht]; [|done]. unfold readStateFile.
  destruct e; rewrite !ReadFile_quiet, Ht; [by destruct (text_of (files w) path)|]. by rewrite unmarshal_marshal.
Qed.

(** How an agent whose supervisor has given it up is reported: as failed after too many
    restarts; but an error that is fatal at once leaves the count as it was, and such an
    agent is reported as stopped. *)
Theorem given_up_shown dc now ap ap' lastExit :
  shouldRestart dc now ap = (ap', false) ->
  let st := computeAgentStatus (mkSupervisedStatus "" "" "" 0 (restartCount ap') 0 lastExit 0 "" "") (getMaxRetries dc) in
  if match lastError ap with Some ae => IsFatal (Class ae) | None => false end
  then ap' = ap /\ st = (if getMaxRetries dc <? restartCount ap then "failed" else "stopped")%Z
  else st = "failed".
Proof.
  unfold shouldRestart, computeAgentStatus. cbn [st_PID st_RestartCount Z.ltb Z.compare andb].
  destruct (_ && _); [done|]. destruct (has_class NoWork (lastError ap)) eqn:En; [done|].
  destruct (match lastError ap with Some ae => IsFatal (Class ae) | None => false end); [by intros [= <-]|].
  destruct (_ && _); [done|]. intros [= <- Hle]. cbn [restartCount set_counts] in *.
  by destruct (Z.leb_spec (inc64 (restartCount ap)) (getMaxRetries dc)), (Z.ltb_spec (getMaxRetries dc) (inc64 (restartCount ap))); try lia.
Qed.
End state.

(** *** Worktrees at the start *)
Section reset.
Import Git DaemonGit.
Context {W : Type} {shell : Shell W}.

Definition reset_one (worktreePath defaultBranch : string) : Flow W unit :=
  r ← try (GetCurrentBranch worktreePath);
  match r with
  | Err _ => mret tt
  | Ok current =>
      if bool_decide (current = defaultBranch) then mret tt
      else
        clean ← try (IsCleanWorkingTree worktreePath);
        match clean with
        | Ok true => mret tt
        | _ => try (commitWIP worktreePath ("WIP: daemon startup reset from " +:+ current));; mret tt
        end;;
        try (GitCheckout worktreePath defaultBranch);; mret tt
  end.

Fixpoint resetWorktreeBranches (agents : list Supervised) : Flow W unit :=
  match agents with
  | [] => mret tt
  | a :: rest => reset_one (worktreePath (su_agent a)) (Worktree (entry (su_agent a)));; resetWorktreeBranches rest
  end.

(** What is run in a worktree at the start: questions, a commit of everything, and the change to
    the worktree's own branch. *)
Definition at_start (dir branch : string) (c : call) : Prop :=
  exists args, c = git_call dir args /\
    (args = ["branch"; "--show-current"] \/ args = ["status"; "--porcelain"] \/ args = ["add"; "-A"] \/
     (exists m, args = ["commit"; "-m"; m]) \/ args = ["checkout"; branch] /\ safe branch).

Lemma reset_one_calls dir branch : only (at_start dir branch) (reset_one dir branch).
Proof.
  unfold reset_one, GetCurrentBranch, IsCleanWorkingTree, commitWIP, GitCheckout.
  repeat only_step; eexists; (split; [reflexivity|]); eauto 8 using validateGitRef_safe.
Qed.

(** At the start every worktree is asked for its branch, its changes are committed, and its own
    branch is checked out; nothing else is run anywhere, nothing is forced, and no error
    keeps the daemon from starting. *)
Theorem worktrees_reset_gently agents s :
  only (fun c => exists a, a ∈ agents /\ at_start (worktreePath (su_agent a)) (Worktree (entry (su_agent a))) c) (resetWorktreeBranches agents) /\
  (resetWorktreeBranches agents s).2 = Ok tt.
Proof.
  split.
  - assert (forall l, (forall a, a ∈ l -> a ∈ agents) ->
      only (fun c => exists a, a ∈ agents /\ at_start (worktreePath (su_agent a)) (Worktree (entry (su_agent a))) c) (resetWorktreeBranches l)) as H; [|by apply H].
    induction l as [|a l IH]; intros Hl; cbn [resetWorktreeBranches]; [apply only_ret|]. apply only_bind; [|intros _; apply IH; set_solver].
    intros s0. destruct (reset_one_calls (worktreePath (su_agent a)) (Worktree (entry (su_agent a))) s0) as (new & -> & Hn).
    exists new. split; [done|]. eapply Forall_impl; [exact Hn|]. intros c Hc. exists a. split; [set_solver|done].
  - revert s. induction agents as [|a l IH]; intros s; [done|]. cbn [resetWorktreeBranches]. unfold mbind, Flow_bind.
    assert ((reset_one (worktreePath (su_agent a)) (Worktree (entry (su_agent a))) s).2 = Ok tt) as H.
    { unfold reset_one, mbind, Flow_bind, mret, Flow_ret, try. repeat (case_match; simplify_eq/=; try done). }
    destruct (reset_one _ _ s) as [s1 r]. simpl in H. subst r. apply IH.
Qed.
End reset.

(** *** Stopping an agent *)
Inductive signal := SIGTERM | SIGKILL.
Inductive target := ProcessGroup (pid : Z) | Process (pid : Z).
Definition kill_wait : Z := 5 * second.
Definition kill_pause : Z := 100000000.

(** [group_ok], [process_ok]: whether SIGTERM reaches the group, or else the process. A look is its
    time, the agent's process number then, and whether the process runs; [last] is the number
    after the deadline. The signals sent; [None] when the looks are used up. *)
Definition stopAgent (a : Supervised) (group_ok process_ok : bool) (now : Z) (looks : list (Z * (Z * bool))) (last : Z) : option (list (target * signal)) :=
  let pid := su_pid a in
  if negb (su_cmd a) || (pid =? 0)%Z then Some []
  else
    let sent := (ProcessGroup pid, SIGTERM) :: (if group_ok then [] else [(Process pid, SIGTERM)]) in
    if negb (group_ok || process_ok) then Some sent
    else
      match poll (now + kill_wait) ((fun '(t, (cur, runs)) => (t, (cur =? 0)%Z || negb runs)) <$> looks) with
      | None => None
      | Some true => Some sent
      | Some false => Some (sent ++ (if (last =? 0)%Z then [] else [(ProcessGroup pid, SIGKILL)]))%list
      end.

(** Stopping an agent takes at most fifty-one looks, a tenth of a second apart; signals go to its
    process and to the group it leads, and the group is killed only when the process has been
    seen running by every look of five seconds. *)
Theorem agent_stopped_in_time a group_ok process_ok now looks last :
  paced kill_pause now looks -> (51 <= length looks)%nat ->
  exists sent, stopAgent a group_ok process_ok now looks last = Some sent /\
  (forall t g, (t, g) ∈ sent -> t = ProcessGroup (su_pid a) \/ t = Process (su_pid a) /\ g = SIGTERM) /\
  (forall t, (t, SIGKILL) ∈ sent -> last <> 0 /\
     exists early late, looks = (early ++ late)%list /\ Forall (fun '(u, (cur, runs)) => u < now + kill_wait /\ cur <> 0 /\ runs = true) early /\
       match late with (u, _) :: _ => now + kill_wait <= u | [] => False end)%Z.
Proof.
  intros Hl Hn. unfold stopAgent. set (see := fun '(t, (cur, runs)) => (t, (cur =? 0)%Z || negb runs)).
  destruct (negb (su_cmd a) || _); [exists []; split_and!; [done|intros ?? []%not_elem_of_nil|intros ? []%not_elem_of_nil]|].
  set (sent := _ :: _). assert (forall t g, (t, g) ∈ sent -> (t = ProcessGroup (su_pid a) \/ t = Process (su_pid a)) /\ g = SIGTERM) as Hsent.
  { intros t g [[= -> ->]|Ht]%elem_of_cons; [by auto|]. destruct group_ok; [by apply not_elem_of_nil in Ht|].
    apply list_elem_of_singleton in Ht as [= -> ->]. by auto. }
  assert (forall t g, (t, g) ∈ sent -> t = ProcessGroup (su_pid a) \/ t = Process (su_pid a) /\ g = SIGTERM) as H1 by (intros t g [[]]%Hsent; auto).
  assert (forall t, (t, SIGKILL) ∉ sent) as H2 by (intros t [_ ?]%Hsent; done).
  destruct (negb (group_ok || process_ok)); [exists sent; split_and!; [done..|]; by intros t ?%H2|].
  assert (paced kill_pause now (see <$> looks)) as Hp.
  { clear Hn. revert Hl. generalize now. induction looks as [|[t [cur runs]] l IH]; intros n; [done|]. intros [? ?]. split; [done|]. by apply IH. }
  destruct (poll_ends kill_pause now (now + kill_wait) (see <$> looks)) as [b Hb].
  { done. } { done. } { rewrite length_fmap. unfold kill_wait, kill_pause, second. lia. } { by destruct looks; simpl in *; [lia|]. }
  rewrite Hb. destruct b; [exists sent; split_and!; [done..|]; by intros t ?%H2|].
  eexists. split; [reflexivity|]. split.
  - intros t g [Ht|Ht]%elem_of_app; [by apply H1|]. destruct (last =? 0)%Z; [by apply not_elem_of_nil in Ht|].
    apply list_elem_of_singleton in Ht as [= -> ->]. by left.
  - intros t [Ht|Ht]%elem_of_app; [by apply H2 in Ht|]. destruct (Z.eqb_spec last 0); [by apply not_elem_of_nil in Ht|]. split; [done|].
    clear - Hb. induction looks as [|[u [cur runs]] l IH]; [done|]. cbn in Hb.
    destruct (Z.ltb_spec u (now + kill_wait)) as [Hu|]; [|exists [], ((u, (cur, runs)) :: l); by split_and!].
    destruct (Z.eqb_spec cur 0); [done|]. destruct runs; [|done]. destruct (IH Hb) as (early & late & -> & He & Hlate).
    exists ((u, (cur, true)) :: early), late. split_and!; [done|by constructor|done].
Qed.

(** *** The health check *)
(** What is seen of an agent: the time, whether its process runs, when its log was written. *)
Record observation := mkObservation { ob_now : Z; ob_runs : bool; ob_mtime : option Z }.

Definition hung (dc : DaemonConfig) (a : Supervised) (ob : observation) : bool :=
  (0 <? getOutputTimeout dc)%Z && bool_decide (su_logFilePath a <> "") &&
  match ob_mtime ob with
  | None => false
  | Some lastOutput =>
      let lastOutput := if (lastOutput <? lastStart (su_agent a))%Z then lastStart (su_agent a) else lastOutput in
      (mul64 (getOutputTimeout dc) second <? time_sub (ob_now ob) lastOutput)%Z
  end.

(** The agents that are stopped, and the counts of the event. *)
Definition check_agent (dc : DaemonConfig) (seen : list Supervised * Z * Z) (at_ : Supervised * observation) : list Supervised * Z * Z :=
  let '(stopped, total, healthy) := seen in
  let '(a, ob) := at_ in
  let total := inc64 total in
  if (su_pid a =? 0)%Z then (stopped, total, healthy)
  else ((if hung dc a ob then stopped ++ [a] else stopped)%list, total, if ob_runs ob then inc64 healthy else healthy).

Definition checkAgentHealth (dc : DaemonConfig) (agents : list (Supervised * observation)) : list Supervised * Z * Z :=
  foldl (check_agent dc) ([], 0%Z, 0%Z) agents.

Definition silent (timeout : Z) (a : Supervised) (ob : observation) : bool :=
  negb (su_pid a =? 0)%Z && bool_decide (su_logFilePath a <> "") &&
  match ob_mtime ob with Some m => (timeout * second <? ob_now ob - Z.max m (lastStart (su_agent a)))%Z | None => false end.
Definition healthy (a : Supervised) (ob : observation) : bool := negb (su_pid a =? 0)%Z && ob_runs ob.

(** Times within nanoseconds of 1970, and a difference between them that [int64] holds. *)
Definition in_time (a : Supervised) (ob : observation) : Prop :=
  match ob_mtime ob with Some m => in_int64 (ob_now ob - Z.max m (lastStart (su_agent a))) | None => True end.

Lemma hung_silent dc a ob : (0 < getOutputTimeout dc)%Z -> (getOutputTimeout dc <= 9223372036)%Z -> in_time a ob ->
  su_pid a <> 0%Z -> hung dc a ob = silent (getOutputTimeout dc) a ob.
Proof.
  intros H0 Hm Ht Hp. unfold hung, silent, in_time in *. destruct (Z.ltb_spec 0 (getOutputTimeout dc)); [|lia]. destruct (Z.eqb_spec (su_pid a) 0); [done|].
  cbn [negb andb]. f_equal. destruct (ob_mtime ob) as [m|]; [|done].
  assert ((if (m <? lastStart (su_agent a))%Z then lastStart (su_agent a) else m) = Z.max m (lastStart (su_agent a))) as -> by (destruct (Z.ltb_spec m (lastStart (su_agent a))); lia).
  unfold mul64, time_sub, sat64, wrap64, second, in_int64, min_int64, max_int64 in *. rewrite Z.mod_small by lia.
  replace (getOutputTimeout dc * 1000000000 + 2 ^ 63 - 2 ^ 63)%Z with (getOutputTimeout dc * 1000000000)%Z by lia. f_equal. lia.
Qed.

(** The watchdog stops exactly the agents that run, have a log, and have written nothing to it
    for longer than the limit, counted from their start if that is later; and it counts
    every agent, and as healthy those whose process runs. *)
Theorem watchdog_exact dc agents :
  (0 < getOutputTimeout dc <= 9223372036)%Z -> Forall (fun '(a, ob) => in_time a ob) agents -> (Z.of_nat (length agents) <= max_int64)%Z ->
  checkAgentHealth dc agents =
    ((filter (fun '(a, ob) => silent (getOutputTimeout dc) a ob) agents).*1, Z.of_nat (length agents),
     Z.of_nat (length (filter (fun '(a, ob) => healthy a ob) agents))).
Proof.
  intros Ht Hin Hlen. unfold checkAgentHealth.
  assert (forall l stopped total h, Forall (fun '(a, ob) => in_time a ob) l ->
    (0 <= h <= total)%Z -> (total + Z.of_nat (length l) <= max_int64)%Z ->
    foldl (check_agent dc) (stopped, total, h) l = ((stopped ++ (filter (fun '(a, ob) => silent (getOutputTimeout dc) a ob) l).*1)%list,
      (total + Z.of_nat (length l))%Z, (h + Z.of_nat (length (filter (fun '(a, ob) => healthy a ob) l)))%Z)) as H.
  2:{ rewrite (H agents [] 0%Z 0%Z) by (done || lia). done. }
  induction l as [|[a ob] l IH]; intros stopped total h HF Hh Hl; [by rewrite app_nil_r, !Z.add_0_r|].
  inversion HF as [|x y Ha HF']; subst. cbn [length] in Hl. cbn [foldl]. unfold check_agent at 2.
  rewrite (inc64_id total) by (unfold in_int64, min_int64 in *; lia). rewrite !filter_cons.
  assert (silent (getOutputTimeout dc) a ob = negb (su_pid a =? 0)%Z && hung dc a ob) as Es.
  { destruct (Z.eqb_spec (su_pid a) 0) as [E|E]; [|by rewrite <- hung_silent by (done || lia)]. unfold silent. by rewrite E. }
  do 2 match goal with |- context [decide ?P] => let H := fresh "Hd" in destruct (decide P) as [H|H] end;
    rewrite Es in Hd; unfold healthy in Hd0; destruct (Z.eqb_spec (su_pid a) 0), (hung dc a ob), (ob_runs ob); try done;
    rewrite ?(inc64_id h) by (unfold in_int64, min_int64 in *; lia); rewrite IH by (done || lia);
    cbn [fmap list_fmap length fst]; rewrite <- ?app_assoc; cbn [app]; (apply pair_equal_spec; split; [apply pair_equal_spec; split; [done|lia]|lia]).
Qed.

(** A limit of more than 292 years is, as a duration, negative: every agent with a log is then
    stopped at each check. *)
Theorem huge_timeout_stops_all dc a ob m :
  getOutputTimeout dc = 9223372037%Z -> su_logFilePath a <> "" -> ob_mtime ob = Some m ->
  (0 <= ob_now ob - Z.max m (lastStart (su_agent a)))%Z -> hung dc a ob = true.
Proof.
  intros E Hlog Hm Hn. unfold hung. rewrite E, Hm, bool_decide_true by done. cbn [Z.ltb Z.compare andb].
  assert ((if (m <? lastStart (su_agent a))%Z then lastStart (su_agent a) else m) = Z.max m (lastStart (su_agent a))) as -> by (destruct (Z.ltb_spec m (lastStart (su_agent a))); lia).
  apply Z.ltb_lt. change (mul64 9223372037 second) with (-9223372036709551616)%Z. unfold time_sub, sat64, min_int64, max_int64. lia.
Qed.
End Watchdog.

(** ** The theorems at work *)
Section witnesses.
Import Single Files Control Watchdog Config Super.
Local Open Scope string_scope.

(** A second daemon opens the lock file while the first one runs. *)
Definition two_starts : list label := [Begin; Begin; Step 0; Step 0; Step 0; Step 0; Step 1].
Definition second_turned_away : sys := mkSys (Some 0%nat) 1 (Some 0%nat) [Running 0; Gone].

Lemma one_daemon_witness :
  exists s, steps calm_step start two_starts s /\ pid_file s = Some 0%nat /\ exec (Step 1) s = Some second_turned_away.
Proof.
  set (s := mkSys (Some 0%nat) 1 (Some 0%nat) [Running 0; Opened 0]).
  assert (steps calm_step start two_starts s) as Hs.
  { repeat (eapply steps_cons; [split; reflexivity|]). apply steps_nil. }
  exists s. destruct (one_daemon two_starts s Hs) as (_ & Hpid & Haway). split; [exact Hs|]. split.
  - by apply (Hpid 0%nat 0%nat).
  - exact (Haway 0%nat 1%nat (Running 0) 0%nat eq_refl eq_refl eq_refl).
Defined.

Definition pid_disk : world := mkWorld (mkFs {["/p/daemon.pid" := 0%nat]} {[0%nat := "41"]} 1) [None; None; None; Some (0%nat, Msg "io")].

Lemma pid_file_whole_witness :
  let r := writePIDFile "/p/daemon.pid" 57 pid_disk in
  r.1 = Some (Msg "io") /\ text_of (files r.2) "/p/daemon.pid" = Some "41".
Proof.
  assert (wf (files pid_disk)) as Hwf.
  { split; simpl; [intros x y i [<- <-]%lookup_singleton_Some [<- _]%lookup_singleton_Some; done|intros x i [_ <-]%lookup_singleton_Some; lia]. }
  cbv zeta. destruct (writePIDFile "/p/daemon.pid" 57 pid_disk) as [e w'] eqn:E.
  assert (e = Some (Msg "io")) as -> by (apply (f_equal fst) in E; vm_compute in E; congruence).
  split; [done|]. pose proof (pid_file_whole (fun _ => true) "/p/daemon.pid" 57 pid_disk _ w' Hwf ltac:(done) E) as [_ H]. simpl in H |- *. rewrite H. reflexivity.
Defined.

Definition silent_agent (pid : Z) (log : string) : Supervised := mkSupervised demo_agent true pid log 0.

Lemma watchdog_exact_witness :
  checkAgentHealth (demo_config true)
    [(silent_agent 7 "/l/a.log", mkObservation (1000 * second) true (Some (99 * second)));
     (silent_agent 8 "/l/b.log", mkObservation (1000 * second) true (Some (100 * second)));
     (silent_agent 0 "/l/c.log", mkObservation (1000 * second) false (Some 0))]
  = ([silent_agent 7 "/l/a.log"], 3, 2).
Proof.
  rewrite watchdog_exact; [vm_compute; reflexivity|vm_compute; split; [done|discriminate]| |done].
  repeat (apply Forall_cons_2; [vm_compute; split; discriminate|]). apply Forall_nil_2.
Defined.
End witnesses.
