(* ===== verification/Monitor.v ===== *)
(** * Monitor: what is reported of tasks and agents, [internal/cli/monitor.go],
    [monitor_types.go], [status.go] and the handlers of [serve_handlers.go]

    The queues of tasks from five questions to the tracker, the state of each worktree
    from its lock, its task and git, conflicts, statistics, and what [loom status] makes
    of them. The tracker's answers are an argument, git is the class of [GitCalls]. The
    questions are asked at the same time in the code; here each has its answer. Drawing
    on the terminal is left out. *)
From S2P Require Import Prelude Paths DaemonConfig TaskRouter WorktreeLock GitCalls GitFlow Metrics ConfigCheck.
Import Router.
Local Open Scope string_scope.
Local Open Scope Z_scope.

Module Monitor.

(** ** Tasks *)
(** The fields of an issue that the router does not look at. *)
Record MonIssue := mkMon { mi_issue : BdIssue; mi_Title : string; mi_Assignee : string }.

Record TaskInfo := mkTask { ti_ID : string; ti_Title : string; ti_Priority : Z; ti_Status : string }.
Record TaskSummary := mkSummary { NeedsPlanning : Z; sm_ReadyToImplement : Z; InProgress : Z; NeedReview : Z; Backlog : Z; Epics : Z }.

Definition task_of (status : string) (i : MonIssue) : TaskInfo := mkTask (ID (mi_issue i)) (mi_Title i) (Priority (mi_issue i)) status.
Definition with_status (i : MonIssue) : TaskInfo := task_of (Status (mi_issue i)) i.

(** The answers that could be had and read. *)
Record Answers := mkAnswers {
  an_ready : option (list MonIssue); an_inProgress : option (list MonIssue); an_review : option (list MonIssue);
  an_blocked : option (list MonIssue); an_closed : option (list MonIssue) }.

Section questions.
Context (BD : list string -> res string) (parse : string -> option (list MonIssue)).

Definition bd_issues (args : list string) : option (list MonIssue) := match BD args with Ok out => parse out | Err _ => None end.
Definition ask (readyLimit : Z) : Answers :=
  mkAnswers (bd_issues ["ready"; "--json"; "--limit"; itoa readyLimit]) (bd_issues ["list"; "--status=in_progress"; "--json"])
    (bd_issues ["list"; "--status=review"; "--json"]) (bd_issues ["blocked"; "--json"])
    (bd_issues ["list"; "--status=closed"; "--json"; "--limit"; "50"]).
End questions.

(** [buildUnclosedIDsFromResponses] *)
Definition ids_of (l : option (list MonIssue)) : gset string := list_to_set (map (fun i => ID (mi_issue i)) (default [] l)).
Definition buildUnclosedIDsFromResponses (a : Answers) : gset string :=
  ids_of (an_ready a) ∪ ids_of (an_inProgress a) ∪ ids_of (an_review a) ∪
  ids_of ((fun l => filter (fun i => Status (mi_issue i) <> "closed") l) <$> an_blocked a).

(** The loop over the ready issues: the summary, and the lists that are shown. *)
Record scan := mkScan { sc_summary : TaskSummary; sc_planning : list TaskInfo; sc_ready : list TaskInfo }.
Definition shown (n : nat) (l : list TaskInfo) (t : TaskInfo) : list TaskInfo := if (length l <? n)%nat then (l ++ [t])%list else l.
Definition scan_ready (unclosedIDs : gset string) (st : scan) (i : MonIssue) : scan :=
  let s := sc_summary st in
  let issue := mi_issue i in
  if negb (IsOpen issue) then st
  else if IsEpic issue then
    mkScan (mkSummary (NeedsPlanning s) (sm_ReadyToImplement s) (InProgress s) (NeedReview s) (Backlog s) (inc64 (Epics s))) (sc_planning st) (sc_ready st)
  else if HasUnclosedBlockers (Dependencies issue) unclosedIDs then
    mkScan (mkSummary (NeedsPlanning s) (sm_ReadyToImplement s) (InProgress s) (NeedReview s) (inc64 (Backlog s)) (Epics s)) (sc_planning st) (sc_ready st)
  else if ReadyToImplement issue then
    mkScan (mkSummary (NeedsPlanning s) (inc64 (sm_ReadyToImplement s)) (InProgress s) (NeedReview s) (Backlog s) (Epics s))
      (sc_planning st) (shown 5 (sc_ready st) (task_of "" i))
  else
    mkScan (mkSummary (inc64 (NeedsPlanning s)) (sm_ReadyToImplement s) (InProgress s) (NeedReview s) (Backlog s) (Epics s))
      (shown 5 (sc_planning st) (task_of "" i)) (sc_ready st).

Record Queues := mkQueues {
  q_summary : TaskSummary; q_needsPlanning : list TaskInfo; q_readyToImplement : list TaskInfo; q_review : list TaskInfo;
  q_inProgress : list TaskInfo; q_backlog : list TaskInfo; q_closed : list TaskInfo; q_agentTasks : gmap string TaskInfo }.

(** An agent's task is the last that is assigned to it. *)
Definition assign (m : gmap string TaskInfo) (i : MonIssue) : gmap string TaskInfo :=
  if bool_decide (mi_Assignee i = "") then m else <[mi_Assignee i := task_of "in_progress" i]> m.

Definition empty_summary : TaskSummary := mkSummary 0 0 0 0 0 0.
Definition collectTaskStatus (a : Answers) : Queues :=
  let unclosedIDs := buildUnclosedIDsFromResponses a in
  let st := foldl (scan_ready unclosedIDs) (mkScan empty_summary [] []) (default [] (an_ready a)) in
  let s := sc_summary st in
  let inProgress := default [] (an_inProgress a) in
  let review := default [] (an_review a) in
  let blocked := default [] (an_blocked a) in
  mkQueues
    (mkSummary (NeedsPlanning s) (sm_ReadyToImplement s) (Z.of_nat (length inProgress)) (Z.of_nat (length review))
       (add64 (Backlog s) (Z.of_nat (length blocked))) (Epics s))
    (sc_planning st) (sc_ready st) (task_of "" <$> take 5 review) (task_of "in_progress" <$> inProgress)
    (with_status <$> take 20 blocked) (with_status <$> take 50 (default [] (an_closed a))) (foldl assign ∅ inProgress).

(** [collectReadyTasksByPriority], of the answer to its own question. *)
Definition priority_slot (p : Z) : Z := if (p <? 0) || (4 <? p) then 4 else p.
Definition collectReadyTasksByPriority (answer : option (list MonIssue)) : gmap Z Z :=
  foldl (fun counts i =>
    let issue := mi_issue i in
    if negb (IsOpen issue) || IsEpic issue || HasNeedsRevision issue then counts
    else let p := priority_slot (Priority issue) in <[p := inc64 (default 0 (counts !! p))]> counts)
  (list_to_map (map (fun p => (p, 0)) [0; 1; 2; 3; 4])) (default [] answer).

(** *** The queues are exact *)
Definition counted {A} (p : A -> bool) (l : list A) : Z := Z.of_nat (length (filter (fun x => p x = true) l)).
Lemma counted_snoc {A} (p : A -> bool) l x : counted p (l ++ [x]) = counted p l + (if p x then 1 else 0).
Proof. unfold counted. rewrite filter_app, length_app, filter_cons. destruct (p x); simpl; lia. Qed.
Lemma counted_bound {A} (p : A -> bool) l : 0 <= counted p l <= Z.of_nat (length l).
Proof. unfold counted. pose proof (length_filter (fun x => p x = true) l). lia. Qed.

Definition open_epic (i : MonIssue) : bool := IsOpen (mi_issue i) && IsEpic (mi_issue i).
Definition waiting (u : gset string) (i : MonIssue) : bool :=
  IsWorkableTask (mi_issue i) && HasUnclosedBlockers (Dependencies (mi_issue i)) u.
Definition plannable (u : gset string) (i : MonIssue) : bool := IsAvailableForPlanning (mi_issue i) u.
Definition implementable (u : gset string) (i : MonIssue) : bool := IsAvailableForImplementation (mi_issue i) u.

Lemma shown_take n (l : list TaskInfo) t : shown n (take n l) t = take n (l ++ [t]).
Proof.
  unfold shown. rewrite length_take. destruct (Nat.ltb_spec (Nat.min n (length l)) n).
  - rewrite !take_ge by (rewrite ?length_app; simpl; lia). done.
  - by rewrite take_app_le by lia.
Qed.

Definition queued (p : MonIssue -> bool) (l : list MonIssue) : list TaskInfo := take 5 (task_of "" <$> filter (fun i => p i = true) l).
Lemma queued_snoc p l i : queued p (l ++ [i]) = if p i then shown 5 (queued p l) (task_of "" i) else queued p l.
Proof.
  unfold queued. rewrite filter_app, filter_cons. destruct (p i).
  - rewrite decide_True by done. rewrite fmap_app. symmetry. apply shown_take.
  - rewrite decide_False by done. by rewrite app_nil_r.
Qed.

(** The four ways of an open issue, by the predicates they are made of. *)
Lemma ways u i :
  let o := IsOpen (mi_issue i) in let e := IsEpic (mi_issue i) in let w := HasUnclosedBlockers (Dependencies (mi_issue i)) u in
  let d := HasDesign (mi_issue i) && negb (HasNeedsRevision (mi_issue i)) in
  plannable u i = o && negb e && negb w && negb d /\ implementable u i = o && negb e && negb w && d /\
  waiting u i = o && negb e && w /\ open_epic i = o && e.
Proof.
  cbv zeta. unfold plannable, implementable, waiting, open_epic, IsAvailableForPlanning, IsAvailableForImplementation, IsWorkableTask, NeedsPlan, ReadyToImplement.
  split; [|done]. by rewrite negb_andb, negb_involutive.
Qed.

Lemma scanned u l : Z.of_nat (length l) <= max_int64 ->
  foldl (scan_ready u) (mkScan empty_summary [] []) l =
  mkScan (mkSummary (counted (plannable u) l) (counted (implementable u) l) 0 0 (counted (waiting u) l) (counted open_epic l))
    (queued (plannable u) l) (queued (implementable u) l).
Proof.
  induction l as [|i l IH] using rev_ind; intros Hl; [done|]. rewrite length_app in Hl. cbn [length] in Hl.
  rewrite foldl_app, IH by lia. cbn [foldl]. rewrite !counted_snoc, !queued_snoc.
  pose proof (counted_bound (plannable u) l). pose proof (counted_bound (implementable u) l).
  pose proof (counted_bound (waiting u) l). pose proof (counted_bound open_epic l).
  destruct (ways u i) as (-> & -> & -> & ->). unfold scan_ready, ReadyToImplement.
  cbn [sc_summary sc_planning sc_ready NeedsPlanning sm_ReadyToImplement InProgress NeedReview Backlog Epics].
  destruct (IsOpen (mi_issue i)), (IsEpic (mi_issue i)), (HasUnclosedBlockers (Dependencies (mi_issue i)) u), (HasDesign (mi_issue i) && negb (HasNeedsRevision (mi_issue i)));
    cbn [negb andb]; rewrite ?Z.add_0_r, ?inc64_id by (unfold min_int64; lia); done.
Qed.

Definition known_unclosed (a : Answers) (id : string) : Prop :=
  exists i, ID (mi_issue i) = id /\
    (i ∈ default [] (an_ready a) \/ i ∈ default [] (an_inProgress a) \/ i ∈ default [] (an_review a) \/
     i ∈ default [] (an_blocked a) /\ Status (mi_issue i) <> "closed").

Lemma ids_of_elem l id : id ∈ ids_of l <-> exists i, ID (mi_issue i) = id /\ i ∈ default [] l.
Proof. unfold ids_of. rewrite elem_of_list_to_set, list_elem_of_fmap. naive_solver. Qed.
Lemma unclosed_known a id : id ∈ buildUnclosedIDsFromResponses a <-> known_unclosed a id.
Proof.
  unfold buildUnclosedIDsFromResponses, known_unclosed. rewrite !elem_of_union, !ids_of_elem.
  assert (forall i, i ∈ default [] ((fun l => filter (fun i => Status (mi_issue i) <> "closed") l) <$> an_blocked a) <->
    i ∈ default [] (an_blocked a) /\ Status (mi_issue i) <> "closed") as H.
  { intros i. destruct (an_blocked a) as [l|]; simpl; [rewrite list_elem_of_filter; tauto|]. set_solver. }
  setoid_rewrite H. naive_solver.
Qed.

(** The queues are exact: of the issues that are ready, each open one is counted once, as an
    epic, as waiting for an issue known not to be closed, or as what the router would take it
    for with the same knowledge; the first five of a queue are shown, in the tracker's order;
    and the backlog is the waiting ones with those the tracker calls blocked. *)
Theorem queues_exact a :
  let ready := default [] (an_ready a) in
  let blocked := default [] (an_blocked a) in
  let u := buildUnclosedIDsFromResponses a in
  let q := collectTaskStatus a in
  Z.of_nat (length ready) + Z.of_nat (length blocked) <= max_int64 ->
  (forall id, id ∈ u <-> known_unclosed a id) /\
  q_summary q = mkSummary (counted (plannable u) ready) (counted (implementable u) ready)
    (Z.of_nat (length (default [] (an_inProgress a)))) (Z.of_nat (length (default [] (an_review a))))
    (counted (waiting u) ready + Z.of_nat (length blocked)) (counted open_epic ready) /\
  q_needsPlanning q = queued (plannable u) ready /\ q_readyToImplement q = queued (implementable u) ready /\
  counted (fun i => IsOpen (mi_issue i)) ready =
    counted (plannable u) ready + counted (implementable u) ready + counted (waiting u) ready + counted open_epic ready.
Proof.
  intros ready blocked u q Hn. subst q. unfold collectTaskStatus. fold ready blocked u. cbv zeta.
  rewrite scanned by lia. cbn [q_summary q_needsPlanning q_readyToImplement sc_summary sc_planning sc_ready NeedsPlanning sm_ReadyToImplement Backlog Epics].
  pose proof (counted_bound (waiting u) ready). rewrite add64_id by (unfold in_int64, min_int64; lia).
  split; [apply unclosed_known|]. split_and!; try done. clear. induction ready as [|i l IH] using rev_ind; [done|]. rewrite !counted_snoc, IH.
  destruct (ways u i) as (-> & -> & -> & ->).
  destruct (IsOpen (mi_issue i)), (IsEpic (mi_issue i)), (HasUnclosedBlockers (Dependencies (mi_issue i)) u), (HasDesign (mi_issue i) && negb (HasNeedsRevision (mi_issue i))); cbn [negb andb]; lia.
Qed.

(** ** Agents *)
Record CommitDetail := mkCommit { cd_Hash : string; cd_Message : string; cd_URL : string }.
Record FileChange := mkChange { fc_Status : string; fc_Path : string }.
Record AgentStatus := mkAgentStatus {
  as_Name : string; as_Branch : string; as_Status : string; as_Ahead : Z; as_Behind : Z; as_Role : string; as_Workspace : string;
  as_DaemonManaged : bool; as_Commits : list CommitDetail; as_Changes : list FileChange }.

(** *** Git in a worktree *)
Section git.
Import Git.
Context {W : Type} {shell : Shell W}.

Definition getGitHubRemoteURL (path : string) : Flow W string :=
  r ← try (RunGitCommand path ["remote"; "get-url"; "origin"]);
  mret (match r with
        | Err _ => ""
        | Ok output =>
            let url := TrimSpace output in
            if has_prefix url "git@github.com:" then "https://github.com/" +:+ TrimSuffix (TrimPrefix url "git@github.com:") ".git"
            else if contains url "github.com" then TrimSuffix url ".git"
            else ""
        end).

(** [strings.SplitN(line, sep, 2)] with two parts. *)
Definition cut (sep : ascii) (line : string) : option (string * string) :=
  (fun n => (str_take n line, str_drop (S n) line)) <$> index_byte line sep.

Definition commit_of (githubURL line : string) : option CommitDetail :=
  (fun '(hash, message) => mkCommit hash message (if bool_decide (githubURL = "") then "" else githubURL +:+ "/commit/" +:+ hash)) <$> cut "|" line.
Definition getWorktreeCommitDetails (path defaultBranch : string) (limit : Z) (githubURL overrideBranch : string) : Flow W (list CommitDetail) :=
  let branch := if bool_decide (overrideBranch = "") then defaultBranch else overrideBranch in
  r ← try (RunGitCommand path ["log"; "origin/" +:+ branch +:+ "..HEAD"; "--format=%h|%s"; "-n"; itoa limit]);
  mret (match r with
        | Err _ => []
        | Ok output => let trimmed := TrimSpace output in if bool_decide (trimmed = "") then [] else omap (commit_of githubURL) (Split newline trimmed)
        end).

Definition change_of (line : string) : option FileChange :=
  if len line <? 4 then None else Some (mkChange (TrimSpace (str_take 2 line)) (str_drop 3 line)).
Fixpoint trim_end (s : string) : string :=
  match s with
  | EmptyString => ""
  | String c s' =>
      match trim_end s' with
      | EmptyString => if bool_decide (c ∈ [" "; "009"; "010"; "013"]%char) then "" else String c ""
      | t => String c t
      end
  end.
Definition getWorktreeFileChanges (path : string) : Flow W (list FileChange) :=
  r ← try (RunGitCommand path ["status"; "--porcelain"]);
  mret (match r with
        | Err _ => []
        | Ok output => let trimmed := trim_end output in if bool_decide (trimmed = "") then [] else omap change_of (take 20 (Split newline trimmed))
        end).

Definition getUncommittedChangesCount (path : string) : Flow W Z :=
  r ← try (RunGitCommand path ["status"; "--porcelain"]);
  mret (match r with
        | Err _ => 0
        | Ok output => let lines := Split newline (TrimSpace output) in if bool_decide (lines = [""]) then 0 else Z.of_nat (length lines)
        end).

Definition getWorktreeGitSyncStatus (path defaultBranch overrideBranch : string) : Flow W (Z * Z) :=
  let branch := if bool_decide (overrideBranch = "") then defaultBranch else overrideBranch in
  r ← try (RunGitCommand path ["rev-list"; "--left-right"; "--count"; "origin/" +:+ branch +:+ "...HEAD"]);
  mret (match r with
        | Ok output => match Flow.Fields output with [b; a] => (Flow.Atoi_value a, Flow.Atoi_value b) | _ => (0, 0) end
        | Err _ => (0, 0)
        end).
End git.

(** *** The daemon's agents, from its state file *)
Record DaemonAgentInfo := mkDaemonInfo { Managed : bool; di_Role : string }.
Definition no_daemon : DaemonAgentInfo := mkDaemonInfo false "".

(** The file's text, its decoding (the daemon's number, the worktrees with their roles), and
    which processes run. *)
Definition loadDaemonManagedAgents (decode : string -> option (Z * list (string * string))) (kill0 : Z -> bool) (file : res string)
    : gmap string DaemonAgentInfo :=
  match file with
  | Err _ => ∅
  | Ok data =>
      match decode data with
      | None => ∅
      | Some (pid, agents) =>
          if (pid <=? 0) || negb (Lock.IsProcessRunning kill0 pid) then ∅
          else foldl (fun m '(worktree, role) => if bool_decide (worktree = "") then m else <[worktree := mkDaemonInfo true role]> m) ∅ agents
      end
  end.

Section agents.
Import Git.
Context {W : Type} {shell : Shell W} {codec : JsonCodec Lock.LockInfo}.
Context (kill0 : Z -> bool) (lock_file : string -> option string) (fmt : Z -> string) (bd_show : string -> res (list string)).

(** The state of a worktree with a running agent: a task that the lock does not name yet is the
    one assigned to the agent. *)
Definition running_status (lockStatus : string) (task : option TaskInfo) : string :=
  if contains lockStatus "..." then
    match task with
    | None => lockStatus
    | Some task =>
        let durationPart := match index_of lockStatus " (" with Some i => str_drop i lockStatus | None => "" end in
        let taskStatus := Lock.getTaskStatus bd_show (ti_ID task) in
        if bool_decide (taskStatus = "needs_review") then
          (if has_prefix lockStatus "planning:" then "review: " else "working: ") +:+ ti_ID task +:+ durationPart
        else if bool_decide (taskStatus = "closed") then "done: " +:+ ti_ID task +:+ durationPart
        else match index_of lockStatus "..." with
             | Some i => str_take i lockStatus +:+ ti_ID task +:+ str_drop (i + 3) lockStatus
             | None => lockStatus
             end
    end
  else lockStatus.

Definition agent_state (now : Z) (agentTasks : gmap string TaskInfo) (wt : Flow.WorktreeInfo) : Flow W string :=
  let lockStatus := Lock.GetLockStatus kill0 now fmt bd_show (lock_file (Flow.wt_Path wt)) in
  let task := agentTasks !! Flow.wt_Name wt in
  if negb (bool_decide (lockStatus = "")) then mret (running_status lockStatus task)
  else
    match (t ← task; if bool_decide (ti_Status t = "in_progress") then Some t else None) with
    | Some t => mret ("error: " +:+ ti_ID t)
    | None =>
        clean ← try (IsCleanWorkingTree (Flow.wt_Path wt));
        match clean with
        | Ok true => mret "ready"
        | _ =>
            changes ← getUncommittedChangesCount (Flow.wt_Path wt);
            mret (if 0 <? changes then itoa changes +:+ " changes" else "dirty")
        end
    end.

(** The task that the lock of a running agent names. *)
Definition claims (wt : Flow.WorktreeInfo) : option string :=
  match Lock.CheckLock kill0 (lock_file (Flow.wt_Path wt)) with
  | (Some info, true) => if bool_decide (Lock.TaskID info = "") then None else Some (Lock.TaskID info)
  | _ => None
  end.
Definition claim (m : gmap string (list string)) (wt : Flow.WorktreeInfo) : gmap string (list string) :=
  match claims wt with
  | Some t => <[t := default [] (m !! t) ++ [Flow.wt_Name wt]]> m
  | None => m
  end%list.

Definition agent_of (now : Z) (daemon : gmap string DaemonAgentInfo) (agentTasks : gmap string TaskInfo) (defaultBranch branch githubURL : string)
    (wt : Flow.WorktreeInfo) : Flow W AgentStatus :=
  let info := default no_daemon (daemon !! Flow.wt_Name wt) in
  status ← agent_state now agentTasks wt;
  counts ← getWorktreeGitSyncStatus (Flow.wt_Path wt) defaultBranch branch;
  let '(ahead, behind) := counts : Z * Z in
  commits ← (if 0 <? ahead then getWorktreeCommitDetails (Flow.wt_Path wt) defaultBranch 10 githubURL branch else mret []);
  changes ← getWorktreeFileChanges (Flow.wt_Path wt);
  mret (mkAgentStatus (Flow.wt_Name wt) (Flow.wt_Branch wt) status ahead behind (di_Role info) (Flow.wt_Workspace wt) (Managed info) commits changes).

Fixpoint agents_of (now : Z) (daemon : gmap string DaemonAgentInfo) (agentTasks : gmap string TaskInfo) (defaultBranch branch githubURL : string)
    (worktrees : list Flow.WorktreeInfo) (found : list AgentStatus) : Flow W (list AgentStatus) :=
  match worktrees with
  | [] => mret found
  | wt :: rest =>
      a ← agent_of now daemon agentTasks defaultBranch branch githubURL wt;
      agents_of now daemon agentTasks defaultBranch branch githubURL rest (found ++ [a])%list
  end.

(** [worktrees]: what was discovered; the branch they are compared with comes from the resolver. *)
Definition collectAgentStatus (default_branch : Flow W string) (now : Z) (daemon : gmap string DaemonAgentInfo) (worktrees : res (list Flow.WorktreeInfo))
    (agentTasks : gmap string TaskInfo) (branch : string) : Flow W (list AgentStatus * gmap string (list string)) :=
  match worktrees with
  | Err _ => mret ([], ∅)
  | Ok worktrees =>
      defaultBranch ← default_branch;
      githubURL ← (match worktrees with wt :: _ => getGitHubRemoteURL (Flow.wt_Path wt) | [] => mret "" end);
      agents ← agents_of now daemon agentTasks defaultBranch branch githubURL worktrees [];
      mret (agents, foldl claim ∅ worktrees)
  end.

(** *** Conflicts *)
Definition TaskConflicts (taskIDToAgents : gmap string (list string)) : gmap string (list string) :=
  filter (fun '(_, agents) => (1 < length agents)%nat) taskIDToAgents.

Definition claimants (t : string) (worktrees : list Flow.WorktreeInfo) : list string :=
  Flow.wt_Name <$> filter (fun wt => claims wt = Some t) worktrees.

Lemma claims_lookup worktrees t : default [] (foldl claim ∅ worktrees !! t) = claimants t worktrees.
Proof.
  unfold claimants. induction worktrees as [|wt l IH] using rev_ind; [done|]. rewrite foldl_app, filter_app, fmap_app, <- IH. cbn [foldl].
  unfold claim at 1. rewrite filter_cons. destruct (claims wt) as [u|] eqn:E.
  - destruct (decide (u = t)) as [->|Hne].
    + rewrite lookup_insert_eq, decide_True by done. done.
    + rewrite lookup_insert_ne by done. rewrite decide_False by congruence. cbn. by rewrite app_nil_r.
  - rewrite decide_False by done. cbn. by rewrite app_nil_r.
Qed.

(** A conflict is a task that the locks of several running agents name; it comes with the names of
    their worktrees in the order of discovery. *)
Theorem conflicts_exact worktrees t names :
  TaskConflicts (foldl claim ∅ worktrees) !! t = Some names <-> names = claimants t worktrees /\ (1 < length names)%nat.
Proof.
  unfold TaskConflicts. rewrite map_lookup_filter_Some, <- claims_lookup. destruct (foldl claim ∅ worktrees !! t) as [l|]; simpl; split.
  - by intros [[= ->] H].
  - by intros [-> H].
  - by intros [? _].
  - by intros [-> H]; simpl in H; lia.
Qed.
End agents.

(** ** Statistics and what is behind *)
Section dashboard.
#[local] Existing Instances Git.Flow_ret Git.Flow_bind.
Context {F : Type} `{!Metrics.Float64 F}.

Record BdSummary := mkBdSummary {
  bs_Total : Z; bs_Open : Z; bs_Closed : Z; bs_InProgress : Z; bs_Blocked : Z; bs_Deferred : Z; bs_Pinned : Z }.
Record MonitorStats := mkStats {
  ms_Open : Z; ms_Closed : Z; ms_Total : Z; ms_Completion : F; ms_Remaining : Z; ms_InProgress : Z; ms_Review : Z; ms_Blocked : Z }.

Definition completion (closed total : Z) : F :=
  if 0 <? total then Metrics.f_mul (Metrics.f_div (Metrics.f_int closed) (Metrics.f_int total)) (Metrics.f_int 100) else Metrics.f_zero.
Definition not_negative (z : Z) : Z := if z <? 0 then 0 else z.
Definition collectStatistics (answer : option BdSummary) : MonitorStats :=
  match answer with
  | None => mkStats 0 0 0 Metrics.f_zero 0 0 0 0
  | Some s =>
      mkStats (bs_Open s) (bs_Closed s) (bs_Total s) (completion (bs_Closed s) (bs_Total s)) (not_negative (sub64 (bs_Total s) (bs_Closed s)))
        (bs_InProgress s)
        (not_negative (sub64 (sub64 (sub64 (sub64 (sub64 (sub64 (bs_Total s) (bs_Open s)) (bs_InProgress s)) (bs_Closed s)) (bs_Blocked s)) (bs_Deferred s)) (bs_Pinned s)))
        (bs_Blocked s)
  end.

(** The numbers of the dashboard: what remains is what is in the queues. *)
Definition tally (s : TaskSummary) (stats : MonitorStats) : MonitorStats :=
  let remaining := add64 (add64 (add64 (add64 (NeedsPlanning s) (sm_ReadyToImplement s)) (NeedReview s)) (InProgress s)) (Backlog s) in
  let total := add64 remaining (ms_Closed stats) in
  mkStats (ms_Open stats) (ms_Closed stats) total (completion (ms_Closed stats) total) remaining (ms_InProgress stats) (ms_Review stats) (ms_Blocked stats).

Record WorktreeSyncDetail := mkDetail { sd_Name : string; sd_Count : Z }.
Record SyncInfo := mkSync {
  DBSynced : bool; DBLastSync : string; DBError : string;
  GitNeedsPush : Z; GitNeedsPull : Z; GitPushDetails : list WorktreeSyncDetail; GitPullDetails : list WorktreeSyncDetail }.

Definition collectSyncBdStatus (answer : res string) : SyncInfo :=
  match answer with
  | Ok out => mkSync (negb (contains out "error") && negb (contains out "failed")) "recently" "" 0 0 [] []
  | Err _ => mkSync false "" "unable to check" 0 0 [] []
  end.

Definition completeSyncStatus (info : SyncInfo) (agents : list AgentStatus) : SyncInfo :=
  foldl (fun info a =>
    let info := if 0 <? as_Ahead a
      then mkSync (DBSynced info) (DBLastSync info) (DBError info) (inc64 (GitNeedsPush info)) (GitNeedsPull info)
             (GitPushDetails info ++ [mkDetail (as_Name a) (as_Ahead a)]) (GitPullDetails info)
      else info in
    if 0 <? as_Behind a
    then mkSync (DBSynced info) (DBLastSync info) (DBError info) (GitNeedsPush info) (inc64 (GitNeedsPull info))
           (GitPushDetails info) (GitPullDetails info ++ [mkDetail (as_Name a) (as_Behind a)])
    else info) info agents.

Record MonitorData := mkData {
  md_Agents : list AgentStatus; md_Queues : Queues; md_TaskConflicts : gmap string (list string); md_SyncStatus : SyncInfo; md_Stats : MonitorStats }.

(** [agents]: [collectAgentStatus], given the tasks of agents. *)
Definition collectMonitorData {W} (answers : Answers) (stats : option BdSummary) (sync : res string)
    (agents : gmap string TaskInfo -> Git.Flow W (list AgentStatus * gmap string (list string))) : Git.Flow W MonitorData :=
  let queues := collectTaskStatus answers in
  found ← agents (q_agentTasks queues);
  let '(agents, taskIDToAgents) := found : list AgentStatus * gmap string (list string) in
  mret (mkData agents queues (TaskConflicts taskIDToAgents) (completeSyncStatus (collectSyncBdStatus sync) agents)
    (tally (q_summary queues) (collectStatistics stats))).

(** ** [loom status] *)
Definition isActiveStatus (status : string) : bool :=
  has_prefix status "working:" || has_prefix status "planning:" || has_prefix status "review:" || has_prefix status "done:".

(** The identifier in a status: what is between the first ": " and " (". *)
Definition status_task (status : string) : string :=
  match index_of status ": " with
  | None => ""
  | Some i => let taskPart := str_drop (i + 2) status in
              match index_of taskPart " (" with Some j => str_take j taskPart | None => taskPart end
  end.

Record WorktreeStatusItem := mkItem { it_Name : string; it_Status : string; it_TaskID : string }.
Record WorktreesSummary := mkWorktrees { wo_Active : Z; wo_Idle : Z; wo_List : list WorktreeStatusItem }.
Definition worktrees_summary (agents : list AgentStatus) : WorktreesSummary :=
  foldl (fun s a =>
    let item := mkItem (as_Name a) (as_Status a) (status_task (as_Status a)) in
    if isActiveStatus (as_Status a) then mkWorktrees (inc64 (wo_Active s)) (wo_Idle s) (wo_List s ++ [item])
    else mkWorktrees (wo_Active s) (inc64 (wo_Idle s)) (wo_List s ++ [item])) (mkWorktrees 0 0 []) agents.

Inductive StatusIssue := StaleLock (worktree age : string) | NoRunningAgent (task : string).
Definition has_agent (task : TaskInfo) (agents : list AgentStatus) : bool := existsb (fun a => contains (as_Status a) (ti_ID task)) agents.
Definition detectIssues {codec : JsonCodec Lock.LockInfo} (kill0 : Z -> bool) (lock_file : string -> option string) (fmt : Z -> string) (now : Z)
    (worktrees : res (list Flow.WorktreeInfo)) (inProgress : list TaskInfo) (agents : list AgentStatus) : list StatusIssue :=
  omap (fun wt => match Lock.CheckLock kill0 (lock_file (Flow.wt_Path wt)) with
                  | (Some info, false) => Some (StaleLock (Flow.wt_Name wt) (fmt (time_sub now (Lock.StartedAt info))))
                  | _ => None
                  end) (match worktrees with Ok l => l | Err _ => [] end) ++
  omap (fun task => if has_agent task agents then None else Some (NoRunningAgent (ti_ID task))) inProgress.

(** The daemon as the PID file and the state file show it: its number and when it started; or
    whether a file without a process is left. *)
Inductive DaemonInfo := DaemonRunning (pid : Z) (started : option Z) | DaemonStale | DaemonNone.
Definition collectDaemonStatus (running : Z * bool) (state_started : option Z) (pid_file_there : bool) : DaemonInfo :=
  if running.2 then DaemonRunning running.1 state_started
  else if pid_file_there then DaemonStale else DaemonNone.

Definition resolveBackendSource (flag env : string) (project global : res (option string)) : string :=
  let from (file : res (option string)) := match file with Ok (Some b) => negb (bool_decide (b = "")) | _ => false end in
  if negb (bool_decide (flag = "")) then "flag"
  else if negb (bool_decide (env = "")) then "env"
  else if from project then "project"
  else if from global then "config"
  else "default".

(** [groupAgentsByWorkspace] *)
Definition group_name (a : AgentStatus) : string := if bool_decide (as_Workspace a = "") then "(legacy)" else as_Workspace a.
Definition groupAgentsByWorkspace (agents : list AgentStatus) : gmap string (list AgentStatus) :=
  foldl (fun groups a => <[group_name a := (default [] (groups !! group_name a) ++ [a])%list]> groups) ∅ agents.

Theorem groups_exact agents ws :
  default [] (groupAgentsByWorkspace agents !! ws) = filter (fun a => group_name a = ws) agents.
Proof.
  unfold groupAgentsByWorkspace. induction agents as [|a l IH] using rev_ind; [done|]. rewrite foldl_app, filter_app, <- IH. cbn [foldl]. rewrite filter_cons.
  destruct (decide (group_name a = ws)) as [->|Hne]; [by rewrite lookup_insert_eq|]. rewrite lookup_insert_ne by done. by rewrite app_nil_r.
Qed.

Lemma sync_push info agents : Z.of_nat (length agents) + Z.max (GitNeedsPush info) (GitNeedsPull info) <= max_int64 -> 0 <= GitNeedsPush info -> 0 <= GitNeedsPull info ->
  completeSyncStatus info agents = mkSync (DBSynced info) (DBLastSync info) (DBError info)
    (GitNeedsPush info + counted (fun a => 0 <? as_Ahead a) agents) (GitNeedsPull info + counted (fun a => 0 <? as_Behind a) agents)
    (GitPushDetails info ++ ((fun a => mkDetail (as_Name a) (as_Ahead a)) <$> filter (fun a => (0 <? as_Ahead a) = true) agents))
    (GitPullDetails info ++ ((fun a => mkDetail (as_Name a) (as_Behind a)) <$> filter (fun a => (0 <? as_Behind a) = true) agents)).
Proof.
  intros Hn H1 H2. unfold completeSyncStatus. induction agents as [|a l IH] using rev_ind.
  - simpl. rewrite !Z.add_0_r, !app_nil_r. by destruct info.
  - rewrite length_app in Hn. cbn [length] in Hn. rewrite foldl_app, IH by lia. clear IH. cbn [foldl]. rewrite !counted_snoc, !filter_app, !fmap_app, !filter_cons.
    pose proof (counted_bound (fun a => 0 <? as_Ahead a) l). pose proof (counted_bound (fun a => 0 <? as_Behind a) l).
    destruct (0 <? as_Ahead a), (0 <? as_Behind a); cbn [DBSynced DBLastSync DBError GitNeedsPush GitNeedsPull GitPushDetails GitPullDetails];
      repeat (rewrite decide_True by done || rewrite decide_False by done); rewrite ?Z.add_0_r, ?inc64_id, ?app_nil_r, ?app_assoc, ?Z.add_assoc by (unfold min_int64; lia); done.
Qed.

(** The task of an agent that died is not reported: the state of its worktree says "error" with
    the task's identifier, and that counts as an agent with the task. *)
Theorem dead_agent_not_reported {W} {shell : Git.Shell W} {codec : JsonCodec Lock.LockInfo} kill0 lock_file fmt bd_show now worktrees
    (agentTasks : gmap string TaskInfo) wt t (s : Git.state W) inProgress (agents : list AgentStatus) a :
  agentTasks !! Flow.wt_Name wt = Some t -> ti_Status t = "in_progress" ->
  Lock.GetLockStatus kill0 now fmt bd_show (lock_file (Flow.wt_Path wt)) = "" ->
  agent_state kill0 lock_file fmt bd_show now agentTasks wt s = (s, Ok (as_Status a)) -> a ∈ agents ->
  NoRunningAgent (ti_ID t) ∉ detectIssues kill0 lock_file fmt now worktrees inProgress agents.
Proof.
  intros Ht Hs Hl Hst Ha. unfold agent_state in Hst. rewrite Hl, Ht in Hst. cbn in Hst. rewrite Hs in Hst. cbn in Hst. injection Hst as Hst.
  unfold detectIssues. intros [Hin|Hin]%elem_of_app.
  - apply list_elem_of_omap in Hin as (w & _ & Hw). by repeat case_match.
  - apply list_elem_of_omap in Hin as (u & _ & Hu). destruct (has_agent u agents) eqn:E; [done|]. injection Hu as Hu.
    assert (has_agent u agents = true); [|congruence]. apply existsb_exists. exists a. split; [by apply list_elem_of_In|].
    rewrite <- Hst, Hu. apply contains_suffix.
Qed.
End dashboard.

(** The source that is named is the one the back end's name comes from. *)
Theorem source_tells_layer flag env project global :
  let name := Check.ResolveBackendName flag env project global in
  let source := resolveBackendSource flag env project global in
  source = "flag" /\ name = flag \/ source = "env" /\ name = env \/ source = "project" /\ project = Ok (Some name) \/
  source = "config" /\ global = Ok (Some name) \/ source = "default" /\ name = "claude".
Proof.
  unfold Check.ResolveBackendName, resolveBackendSource. destruct (bool_decide (flag = "")); [|by left]. destruct (bool_decide (env = "")); [|by right; left]. simpl.
  destruct project as [[p|]|]; simpl; try (destruct (bool_decide (p = "")); [|by right; right; left]);
    destruct global as [[g|]|]; simpl; try (destruct (bool_decide (g = "")); [|by right; right; right; left]); by right; right; right; right.
Qed.

(** ** At work *)
Section witnesses.
Definition demo_issue (id status type design : string) (deps : list Dependency) : MonIssue :=
  mkMon (mkIssue id status 1 type design [] deps) ("About " +:+ id) "".
Definition demo_answers : Answers := mkAnswers
  (Some [demo_issue "bd-1" "open" "task" "" []; demo_issue "bd-2" "open" "task" "do" []; demo_issue "bd-3" "open" "epic" "" [];
         demo_issue "bd-4" "open" "task" "do" [mkDep "bd-7" "blocks"]; demo_issue "bd-5" "in_progress" "task" "do" []])
  (Some [demo_issue "bd-7" "in_progress" "task" "" []]) None (Some [demo_issue "bd-8" "closed" "task" "" []]) None.

Lemma queues_exact_witness :
  let q := collectTaskStatus demo_answers in
  q_summary q = mkSummary 1 1 1 0 2 1 /\ q_readyToImplement q = [mkTask "bd-2" "About bd-2" 1 ""] /\ q_needsPlanning q = [mkTask "bd-1" "About bd-1" 1 ""].
Proof.
  destruct (queues_exact demo_answers ltac:(vm_compute; discriminate)) as (_ & Hs & Hp & Hr & _). cbv zeta. rewrite Hs, Hp, Hr. vm_compute. by split_and!.
Defined.

(** A closed issue that the tracker still lists as blocked is not known as unclosed, but is counted. *)
Example closed_issue_in_backlog :
  let a := mkAnswers None None None (Some [demo_issue "bd-8" "closed" "task" "" []]) None in
  buildUnclosedIDsFromResponses a = ∅ /\ Backlog (q_summary (collectTaskStatus a)) = 1.
Proof. split; vm_compute; reflexivity. Qed.
End witnesses.
End Monitor.
