(* ===== verification/TmuxSession.v ===== *)
(** * TmuxSession: starting and watching a session of tmux,
    [internal/cli/automode_tmux.go], [signal_dir_unix.go] and [complete.go]

    The command lines that are handed to a shell; the loop that shows what an agent
    writes to its log until its session is over; the signal by which an agent says
    that it is done. Commands are programs of [GitCalls]. What happens meanwhile (a
    tick, a key, the end) is a list of happenings, each with what the loop finds when
    it looks at the files. *)
From S2P Require Import Prelude Paths TaskRouter GitCalls GitFlow.
Import Git.
Local Open Scope string_scope.

Module Watch.

(** ** Command lines *)
Definition shellQuote (s : string) : string := "'" +:+ ReplaceAll s "'" "'\''" +:+ "'".

(** [TERM=dumb] is for Claude alone. *)
Definition loom_command (backend AgentType WorktreePath ParentID : string) : string :=
  (if bool_decide (backend <> "claude") then "" else "TERM=dumb ") +:+
  "loom " +:+ shellQuote AgentType +:+ " " +:+ shellQuote WorktreePath +:+ " --daemon-mode" +:+
  " --backend " +:+ shellQuote backend +:+
  (if bool_decide (ParentID = "") then "" else " --parent " +:+ shellQuote ParentID).

Definition router_command (AgentName logDir lockPath : string) : string :=
  "loom log-router --agent " +:+ shellQuote AgentName +:+ " --base-dir " +:+ shellQuote logDir +:+
  " --lock-path " +:+ shellQuote lockPath +:+ " --max-log-size 50".

Definition session_args (sessionName : string) (size : option (Z * Z)) (loomCmd : string) : list string :=
  ["new-session"; "-d"; "-s"; sessionName] ++
  match size with
  | Some (width, height) => if (0 <? width)%Z && (0 <? height)%Z then ["-x"; itoa width; "-y"; itoa height] else []
  | None => []
  end ++ [loomCmd].

(** [\x1b[I] and [\x1b[O], which a terminal sends when it is focused or not. *)
Definition focus_in : string := String "027" "[I".
Definition focus_out : string := String "027" "[O".
Definition filterFocusEscapes (data : string) : string := ReplaceAll (ReplaceAll data focus_in "") focus_out "".

(** ** Tmux *)
Section tmux.
Context {W : Type} {shell : Shell W}.

Definition tmux (args : list string) : Flow W (option goerror) := r ← execCommand "" "tmux" args; mret (cr_Err r).

Definition tmuxSessionExists (name : string) : Flow W bool :=
  e ← tmux ["has-session"; "-t"; name]; mret (bool_decide (e = None)).

Record PaneState := mkPane { Dead : bool; ExitStatus : Z; ExitSignal : string; PanePID : Z }.
Definition parse_pane (out : string) : res PaneState :=
  match Split "|" (TrimSpace out) with
  | [dead; status; signal; pid] =>
      let d := bool_decide (dead = "1") in
      Ok (mkPane d (if d then Flow.Atoi_value status else 0%Z) (if d then signal else "") (Flow.Atoi_value pid))
  | _ => Err (Msg ("unexpected format: " +:+ out))
  end.
Definition pane_format : string := "#{pane_dead}|#{pane_dead_status}|#{pane_dead_signal}|#{pane_pid}".
Definition getPaneState (sessionName : string) : Flow W PaneState :=
  r ← execCommand "" "tmux" ["list-panes"; "-t"; sessionName; "-F"; pane_format];
  match cr_Err r with
  | Some e => fail (Wrapf "failed to query pane state: " e "")
  | None => match parse_pane (Stdout r) with Ok s => mret s | Err e => fail e end
  end.
(** Dead also when it cannot be asked. *)
Definition tmuxPaneDead (sessionName : string) : Flow W bool :=
  r ← try (getPaneState sessionName); mret (match r with Ok s => Dead s | Err _ => true end).

Definition cleanupTmuxSession (name : string) : Flow W unit :=
  there ← tmuxSessionExists name;
  if negb (there : bool) then mret tt
  else tmux ["send-keys"; "-t"; name; "C-c"];; tmux ["kill-session"; "-t"; name];; mret tt.

Definition startTmuxSession (backend : string) (size : option (Z * Z)) (lockDir : string)
    (sessionName AgentType AgentName WorktreePath ParentID logFile : string) : Flow W unit :=
  tmux ["kill-session"; "-t"; sessionName];;
  e ← tmux (session_args sessionName size (loom_command backend AgentType WorktreePath ParentID));
  match e with
  | Some e => fail (Wrapf "tmux new-session failed: " e "")
  | None =>
      tmux ["set"; "-t"; sessionName; "focus-events"; "off"];;
      tmux ["pipe-pane"; "-t"; sessionName; "-o";
            router_command AgentName (Paths.Dir (Paths.Dir logFile)) (Paths.Join lockDir ".agent.lock")];;
      mret tt
  end.

(** ** The signal's directory *)
Record file_info := mkInfo { is_link : bool; is_dir : bool; owner : option Z }.
Definition checkSignalDir (uid : Z) (fi : file_info) (dir : string) : option goerror :=
  if is_link fi then Some (Msg ("signal directory is a symlink: " +:+ dir))
  else if negb (is_dir fi) then Some (Msg ("signal path is not a directory: " +:+ dir))
  else
    match owner fi with
    | None => Some (Msg ("failed to get ownership info for signal directory: " +:+ dir))
    | Some o =>
        if bool_decide (o = uid) then None
        else Some (Msg ("signal directory owned by uid " +:+ itoa o +:+ ", expected " +:+ itoa uid +:+ ": " +:+ dir))
    end.
Definition validateSignalDir (uid : Z) (lstat : res file_info) (dir : string) : option goerror :=
  match lstat with
  | Err e => Some (Wrapf "failed to check signal directory: " e "")
  | Ok fi => checkSignalDir uid fi dir
  end.
(** [lstat] as it is found ([None]: nothing there), [mkdir], and [lstat] again. *)
Definition ensureSignalDir (uid : Z) (lstat : res (option file_info)) (mkdir : option goerror) (again : res file_info) (dir : string) : option goerror :=
  match lstat with
  | Err e => Some (Wrapf "failed to check signal directory: " e "")
  | Ok (Some fi) => checkSignalDir uid fi dir
  | Ok None =>
      match mkdir with
      | Some e => Some (Wrapf "failed to create signal directory: " e "")
      | None =>
          match again with
          | Err e => Some (Wrapf "failed to stat newly created signal directory: " e "")
          | Ok fi => checkSignalDir uid fi dir
          end
      end
  end.

(** ** Showing the log *)

(** An open file: its size when asked, and what is there when it is read. *)
Record look := mkLook { size : nat; content : string }.
Record stream_state := mkStream { lastOffset : nat; printed : list string; poller : option Router.adaptivePoller }.

Definition polled (activity : bool) (st : stream_state) : stream_state :=
  mkStream (lastOffset st) (printed st) ((fun p => if activity then Router.hadActivity p else Router.hadNoActivity p) <$> poller st).
(** What is read is written to the terminal, if there is anything. *)
Definition show (from : nat) (chunk : string) (st : stream_state) : stream_state :=
  if bool_decide (chunk = "") then mkStream from (printed st) (poller st)
  else mkStream (from + String.length chunk) (printed st ++ [filterFocusEscapes chunk]) (poller st).
Definition read_at (from n : nat) (text : string) : string := str_take n (str_drop from text).

Definition streamRemainingLogContent (l : option look) (st : stream_state) : stream_state :=
  match l with
  | None => st
  | Some l =>
      if (lastOffset st <? size l)%nat then show (lastOffset st) (read_at (lastOffset st) (size l - lastOffset st) (content l)) st
      else if (size l <? lastOffset st)%nat then show 0 (read_at 0 (size l) (content l)) st
      else st
  end.
(** The same on a tick, with the poller told. *)
Definition stream_new (l : option look) (st : stream_state) : stream_state :=
  match l with
  | None => polled false st
  | Some k =>
      if bool_decide (size k = lastOffset st) then polled false st
      else
        let st' := streamRemainingLogContent l st in
        if bool_decide (printed st' = printed st) then st' else polled true st'
  end.

(** One turn of the wait for silence: the time, the end, the file, the time after it. *)
Record turn := mkTurn { t_now : Z; t_closed : bool; t_look : option look; t_after : Z }.
Inductive happening :=
| Closed
| Attached
| Ticked (signal : bool) (dir : option goerror) (now1 now2 : Z) (turns : list turn) (final new : option look).
Inductive ending := Unfinished | Stopped | Settled | Gone | Died (status : Z).

Definition silenceTimeout : Z := 10 * second.
Definition maxWait : Z := 30 * second.

Section watching.
Context (sessionName : string).

(** [Unfinished]: there are no more turns. *)
Fixpoint settle (deadline lastActivity : Z) (turns : list turn) (st : stream_state) : Flow W (stream_state * ending) :=
  match turns with
  | [] => mret (st, Unfinished)
  | t :: rest =>
      if negb (t_now t <? deadline)%Z then cleanupTmuxSession sessionName;; mret (st, Settled)
      else
        let st' := streamRemainingLogContent (t_look t) st in
        if t_closed t then cleanupTmuxSession sessionName;; mret (st', Stopped)
        else if (lastOffset st <? lastOffset st')%nat then settle deadline (t_after t) rest st'
        else if (silenceTimeout <=? time_sub (t_after t) lastActivity)%Z then cleanupTmuxSession sessionName;; mret (st', Settled)
        else settle deadline lastActivity rest st'
  end.

(** After an attachment that failed, whether there is still something to watch. *)
Definition after_attach (err : option goerror) : Flow W bool :=
  match err with
  | None => mret false
  | Some _ => there ← tmuxSessionExists sessionName; if (there : bool) then tmuxPaneDead sessionName else mret true
  end.

Fixpoint watch (hs : list happening) (st : stream_state) : Flow W (stream_state * ending) :=
  match hs with
  | [] => mret (st, Unfinished)
  | Closed :: _ => mret (st, Stopped)
  | Attached :: rest =>
      err ← tmux ["attach"; "-t"; sessionName];
      over ← after_attach err;
      if (over : bool) then cleanupTmuxSession sessionName;; mret (st, Gone)
      else watch rest (polled true st)
  | Ticked true (Some _) _ _ _ _ _ :: rest => watch rest st
  | Ticked true None now1 now2 turns _ _ :: _ => settle (now2 + maxWait) now1 turns st
  | Ticked false _ _ _ _ final new :: rest =>
      there ← tmuxSessionExists sessionName;
      if negb (there : bool) then mret (streamRemainingLogContent final st, Gone)
      else
        pane ← try (getPaneState sessionName);
        match pane with
        | Ok s =>
            if Dead s then cleanupTmuxSession sessionName;; mret (streamRemainingLogContent final st, Died (ExitStatus s))
            else watch rest (stream_new new st)
        | Err _ => watch rest (stream_new new st)
        end
  end.

(** From the size the log has already. *)
Definition streamUntilExit (useFixedPolling : bool) (stat : option nat) (hs : list happening) : Flow W (stream_state * ending) :=
  watch hs (mkStream (default 0 stat) [] (if useFixedPolling then None else Some Router.newAdaptivePoller)).
End watching.
End tmux.

(** ** What a shell makes of a command line *)

(** The words of a simple command as POSIX describes them, for the characters that
    occur outside of quotes here: blanks separate, a backslash keeps the next character,
    nothing is special between single quotes; [None] for anything else. *)
Definition plain_char (c : ascii) : bool :=
  let n := nat_of_ascii c in
  ((97 <=? n) && (n <=? 122) || (65 <=? n) && (n <=? 90) || (48 <=? n) && (n <=? 57))%nat || bool_decide (c ∈ ["-"; "_"; "="; "."; "/"]%char).
Definition add_char (w : option string) (c : ascii) : option string := Some (default "" w +:+ String c "").
Fixpoint sh_words (word : option string) (quoted : bool) (s : string) : option (list string) :=
  match s with
  | EmptyString => if quoted then None else Some (match word with Some w => [w] | None => [] end)
  | String c s' =>
      if quoted then if bool_decide (c = "'"%char) then sh_words word false s' else sh_words (add_char word c) true s'
      else if bool_decide (c = "'"%char) then sh_words (Some (default "" word)) true s'
      else if bool_decide (c = " "%char) then match word with Some w => cons w <$> sh_words None false s' | None => sh_words None false s' end
      else if bool_decide (c = "\"%char) then
        match s' with
        | String d s'' => if bool_decide (d = newline) then None else sh_words (add_char word d) false s''
        | EmptyString => None
        end
      else if plain_char c then sh_words (add_char word c) false s'
      else None
  end.

Fixpoint all_plain (s : string) : bool := match s with EmptyString => true | String c s' => plain_char c && all_plain s' end.

Lemma plain_not_special c : plain_char c = true -> c <> "'"%char /\ c <> " "%char /\ c <> "\"%char.
Proof. intros H. by split_and!; intros ->. Qed.

Lemma words_char word c s : plain_char c = true -> sh_words word false (String c s) = sh_words (add_char word c) false s.
Proof.
  intros H. destruct (plain_not_special c H) as (H1 & H2 & H3). cbn [sh_words].
  rewrite !bool_decide_false by done. by rewrite H.
Qed.
Lemma words_plain p w s : all_plain p = true -> sh_words (Some w) false (p +:+ s) = sh_words (Some (w +:+ p)) false s.
Proof.
  revert w. induction p as [|c p IH]; intros w H; [by rewrite append_empty, append_nil_l|]. cbn [all_plain] in H. apply andb_true_iff in H as [Hc Hp].
  rewrite append_cons, words_char by done. change (add_char (Some w) c) with (Some (w +:+ String c "")).
  by rewrite IH, append_assoc by done.
Qed.
Lemma words_start p s : all_plain p = true -> p <> "" -> sh_words None false (p +:+ s) = sh_words (Some p) false s.
Proof.
  intros H Hne. destruct p as [|c p]; [done|]. cbn [all_plain] in H. apply andb_true_iff in H as [Hc Hp].
  rewrite append_cons, words_char by done. by apply (words_plain p (String c "")).
Qed.
Lemma words_blank w s : sh_words (Some w) false (" " +:+ s) = cons w <$> sh_words None false s.
Proof. done. Qed.

(** What [shellQuote] wrote is read back, whatever it is. *)
Lemma words_quoted arg w s : sh_words (Some w) true (ReplaceAll arg "'" "'\''" +:+ "'" +:+ s) = sh_words (Some (w +:+ arg)) false s.
Proof.
  unfold ReplaceAll. revert w. induction arg as [|c arg IH]; intros w.
  { rewrite append_nil_l, append_empty. done. }
  cbn [replace_from]. destruct (has_prefix (String c arg) "'") eqn:E.
  - apply has_prefix_spec in E as [r [= -> ->]]. change (pred (String.length "'")) with 0. rewrite append_assoc.
    match goal with |- sh_words _ _ (_ +:+ ?t) = _ => change (sh_words (Some (w +:+ "'")) true t = sh_words (Some (w +:+ String "'" r)) false s) end.
    by rewrite IH, append_assoc.
  - rewrite append_cons. cbn [sh_words]. rewrite bool_decide_false; [|intros ->; by destruct arg].
    change (add_char (Some w) c) with (Some (w +:+ String c "")). by rewrite IH, append_assoc.
Qed.
Lemma words_arg arg s : sh_words None false (shellQuote arg +:+ s) = sh_words (Some arg) false s.
Proof. unfold shellQuote. rewrite !append_assoc. exact (words_quoted arg "" s). Qed.
Lemma words_end w : sh_words (Some w) false "" = Some [w].
Proof. done. Qed.

(** A word written out, and a blank after it. *)
Lemma words_word p s : all_plain p = true -> p <> "" -> sh_words None false (p +:+ " " +:+ s) = cons p <$> sh_words None false s.
Proof. intros H Hne. by rewrite words_start by done. Qed.

Ltac literal_start p := match goal with |- context [sh_words None false (?l +:+ ?t)] => change (l +:+ t) with (p +:+ " " +:+ t); rewrite (words_word p t eq_refl) by done end.
Ltac literal_next p := match goal with |- context [sh_words (Some ?w) false (?l +:+ ?t)] =>
  change (l +:+ t) with (" " +:+ p +:+ " " +:+ t); rewrite words_blank, (words_word p t eq_refl) by done end.

(** ** What is shown of the log *)

(** The looks at a log that is only appended to, in order: from [c] on the sizes do not
    shrink, and what is read is the beginning of the whole text [T]. *)
Fixpoint grows (T : string) (c : nat) (ls : list (option look)) : Prop :=
  match ls with
  | [] => True
  | None :: ls => grows T c ls
  | Some k :: ls => c <= size k <= String.length (content k) /\ has_prefix T (content k) = true /\ grows T (size k) ls
  end.

Lemma grows_le T c c' ls : c' <= c -> grows T c ls -> grows T c' ls.
Proof. revert c c'. induction ls as [|[k|] ls IH]; intros c c' Hle; [done| |by apply IH]. intros (? & ? & ?). split; [lia|done]. Qed.
Lemma grows_app T c l1 l2 : grows T c (l1 ++ l2) -> grows T c l1 /\ grows T c l2.
Proof.
  revert c. induction l1 as [|[k|] l1 IH]; intros c; cbn [app grows]; [done| |apply IH].
  intros (Hk & Hp & [H1 H2]%IH). split; [done|]. eapply grows_le; [|exact H2]. lia.
Qed.

Lemma grows_cons T c l ls : grows T c (l :: ls) -> grows T c [l] /\ grows T (match l with Some k => size k | None => c end) ls.
Proof. destruct l as [k|]; [|done]. by intros (? & ? & ?). Qed.

(** The text from [o] to where the stream is was shown, piece by piece. *)
Definition shown (T : string) (o : nat) (before : list string) (st : stream_state) : Prop :=
  exists chunks, printed st = (before ++ (filterFocusEscapes <$> chunks))%list /\
    o <= lastOffset st <= String.length T /\ foldr String.append "" chunks = read_at o (lastOffset st - o) T.

Lemma read_at_app o m n t : read_at o m t +:+ read_at (o + m) n t = read_at o (m + n) t.
Proof. unfold read_at. by rewrite str_take_add, str_drop_add. Qed.
Lemma str_take_app n t r : n <= String.length t -> str_take n (t +:+ r) = str_take n t.
Proof.
  revert n. induction t as [|c t IH]; intros n H; [by assert (n = 0) as -> by (simpl in H; lia); destruct r|].
  destruct n as [|n]; [done|]. rewrite append_cons. cbn [str_take]. by rewrite IH by (simpl in H; lia).
Qed.
Lemma read_at_prefix o n t r : o + n <= String.length t -> read_at o n (t +:+ r) = read_at o n t.
Proof.
  unfold read_at. revert o. induction t as [|c t IH]; intros o H.
  { assert (o = 0 /\ n = 0) as [-> ->] by (simpl in H; lia). by destruct r. }
  destruct o as [|o]; [by apply (str_take_app n (String c t) r)|]. rewrite append_cons. cbn [str_drop]. apply IH. simpl in H. lia.
Qed.
Lemma read_at_length o n t : o + n <= String.length t -> String.length (read_at o n t) = n.
Proof. intros H. unfold read_at. rewrite str_take_length; [done|]. rewrite length_str_drop. lia. Qed.

Lemma foldr_append_snoc l x : foldr String.append "" (l ++ [x])%list = foldr String.append "" l +:+ x.
Proof. induction l as [|y l IH]; [by rewrite append_nil_l; apply append_empty|]. cbn. by rewrite IH, append_assoc. Qed.

(** One look brings the stream to the size that was seen. *)
Lemma remaining_shown T o before l st : shown T o before st -> grows T (lastOffset st) [l] ->
  shown T o before (streamRemainingLogContent l st) /\
  lastOffset (streamRemainingLogContent l st) = match l with Some k => size k | None => lastOffset st end.
Proof.
  intros (chunks & Hp & Ho & Hc) Hg. destruct l as [k|]; [|split; [by exists chunks|done]]. destruct Hg as (Hk & [r ->]%has_prefix_spec & _).
  unfold streamRemainingLogContent. destruct (Nat.ltb_spec (lastOffset st) (size k)).
  - pose proof (read_at_length (lastOffset st) (size k - lastOffset st) (content k) ltac:(lia)) as Hl.
    unfold show. rewrite bool_decide_false by (intros E; rewrite E in Hl; simpl in Hl; lia). cbn [lastOffset]. rewrite Hl. split; [|lia].
    exists (chunks ++ [read_at (lastOffset st) (size k - lastOffset st) (content k)])%list. cbn [lastOffset printed]. rewrite length_append in *. split_and!; [|lia..|].
    + rewrite Hp, fmap_app. by rewrite <- app_assoc.
    + rewrite foldr_append_snoc, Hc, <- (read_at_prefix _ _ (content k) r) by lia.
      pose proof (read_at_app o (lastOffset st - o) (size k - lastOffset st) (content k +:+ r)) as E.
      replace (o + (lastOffset st - o)) with (lastOffset st) in E by lia. rewrite E. f_equal. lia.
  - replace (size k <? lastOffset st)%nat with false by (symmetry; apply Nat.ltb_ge; lia). split; [by exists chunks|lia].
Qed.
Lemma new_shown T o before l st : shown T o before st -> grows T (lastOffset st) [l] ->
  shown T o before (stream_new l st) /\ lastOffset (stream_new l st) = match l with Some k => size k | None => lastOffset st end.
Proof.
  intros Hs Hg. destruct (remaining_shown T o before l st Hs Hg) as [H1 H2]. unfold stream_new. destruct l as [k|]; [|done].
  case_bool_decide as E; [by rewrite E|]. by case_bool_decide.
Qed.
(** The looks a happening brings, in order. *)
Definition looks_in (h : happening) : list (option look) :=
  match h with
  | Ticked true _ _ _ turns _ _ => t_look <$> turns
  | Ticked false _ _ _ _ final new => [final; new]
  | _ => []
  end.

Section watched.
Context {W : Type} {shell : Shell W} (sessionName : string).

(** [m;; mret a] gives [a], whatever the command answers. *)
Lemma after_cleanup {A} (a : A) s s' r : (cleanupTmuxSession sessionName;; mret a : Flow W A) s = (s', r) -> r = Ok a.
Proof.
  unfold cleanupTmuxSession, tmuxSessionExists, tmux, execCommand, mbind, Flow_bind, mret, Flow_ret.
  destruct (sh_exec _ _ _ _) as [w cr]. destruct (negb _); [by intros [= _ <-]|].
  destruct (sh_exec _ _ ["send-keys"; _; _; _] _) as [w2 cr2]. destruct (sh_exec _ _ ["kill-session"; _; _] _) as [w3 cr3]. by intros [= _ <-].
Qed.

Lemma settle_shown T o before deadline last turns st s s' st' e :
  settle sessionName deadline last turns st s = (s', Ok (st', e)) -> grows T (lastOffset st) (t_look <$> turns) ->
  shown T o before st -> shown T o before st' /\ (e = Unfinished \/ e = Stopped \/ e = Settled).
Proof.
  revert last st s. induction turns as [|t turns IH]; intros last st s; cbn [settle].
  { unfold mret, Flow_ret. intros [= <- <- <-]. auto. }
  destruct (negb _); [intros [= -> ->]%after_cleanup; auto|]. cbv zeta.
  intros E [Hg1 Hg2]%grows_cons Hs. destruct (remaining_shown T o before (t_look t) st Hs Hg1) as [Hs' Ho]. rewrite <- Ho in Hg2.
  destruct (t_closed t); [apply after_cleanup in E as [= -> ->]; auto|].
  destruct (_ <? _)%nat; [by eapply IH|]. destruct (_ <=? _)%Z; [apply after_cleanup in E as [= -> ->]; auto|]. by eapply IH.
Qed.
Lemma tick_shown T o before final new hs st : shown T o before st ->
  grows T (lastOffset st) (flat_map looks_in (Ticked false None 0 0 [] final new :: hs)) ->
  shown T o before (streamRemainingLogContent final st) /\
  match final with Some k => lastOffset (streamRemainingLogContent final st) = size k | None => True end /\
  shown T o before (stream_new new st) /\ grows T (lastOffset (stream_new new st)) (flat_map looks_in hs).
Proof.
  intros Hs [Hf Hg]%grows_cons. destruct (remaining_shown T o before final st Hs Hf) as [H1 H2].
  apply grows_cons in Hg as [Hn Hg]. assert (grows T (lastOffset st) [new]) as Hn'.
  { eapply grows_le; [|exact Hn]. destruct final; [apply Hf|done]. }
  destruct (new_shown T o before new st Hs Hn') as [H3 H4]. split_and!; [done|by destruct final|done|].
  rewrite H4. eapply grows_le; [|exact Hg]. destruct new as [k|]; [done|]. destruct final; [apply Hf|done].
Qed.

(** What was found when the session was over. *)
Definition seen_over (hs : list happening) (st : stream_state) (e : ending) : Prop :=
  exists h, h ∈ hs /\ (h = Attached /\ e = Gone \/
    exists dir n1 n2 turns final new, h = Ticked false dir n1 n2 turns final new /\
      match final with Some k => lastOffset st = size k | None => True end).

Lemma seen_over_cons h hs st e : seen_over hs st e -> seen_over (h :: hs) st e.
Proof. intros (h' & Hin & H). exists h'. split; [by right|done]. Qed.

Lemma watch_shown T o before hs st s s' st' e :
  watch sessionName hs st s = (s', Ok (st', e)) -> grows T (lastOffset st) (flat_map looks_in hs) -> shown T o before st ->
  shown T o before st' /\ (e = Unfinished \/ e = Stopped \/ e = Settled \/ seen_over hs st' e).
Proof.
  revert st s. induction hs as [|h hs IH]; intros st s; cbn [watch].
  { intros [= <- <- <-]. auto. }
  destruct h as [| |signal dir n1 n2 turns final new].
  - intros [= <- <- <-]. auto.
  - unfold mbind at 1, Flow_bind at 1. destruct (tmux _ s) as [s1 [err|e1]]; [|done].
    unfold mbind at 1, Flow_bind at 1. destruct (after_attach _ err s1) as [s2 [over|e2]]; [|done].
    destruct over; intros E Hg Hs.
    + apply after_cleanup in E as [= -> ->]. split; [done|]. do 3 right. exists Attached. split; [by left|auto].
    + destruct (IH _ _ E Hg Hs) as [H1 H2]. split; [done|]. destruct H2 as [|[|[|]]]; auto using seen_over_cons.
  - destruct signal.
    + destruct dir; intros E [Hg1 Hg2]%grows_app Hs.
      * destruct (IH _ _ E Hg2 Hs) as [H1 H2]. split; [done|]. destruct H2 as [|[|[|]]]; auto using seen_over_cons.
      * destruct (settle_shown _ _ _ _ _ _ _ _ _ _ _ E Hg1 Hs) as [H1 H2]. split; [done|]. tauto.
    + unfold mbind at 1, Flow_bind at 1. destruct (tmuxSessionExists _ s) as [s1 [there|e1]]; [|by destruct dir].
      intros E Hg Hs. destruct (tick_shown T o before final new hs st Hs Hg) as (Hf1 & Hf2 & Hn1 & Hn2).
      assert (forall e, seen_over (Ticked false dir n1 n2 turns final new :: hs) (streamRemainingLogContent final st) e) as Hover.
      { intros e0. exists (Ticked false dir n1 n2 turns final new). split; [by left|]. right. by eexists _, _, _, _, _, _. }
      assert (forall s2, watch sessionName hs (stream_new new st) s2 = (s', Ok (st', e)) -> shown T o before st' /\
        (e = Unfinished \/ e = Stopped \/ e = Settled \/ seen_over (Ticked false dir n1 n2 turns final new :: hs) st' e)) as Hgo.
      { intros s2 E2. destruct (IH _ _ E2 Hn2 Hn1) as [H1 H2]. split; [done|]. destruct H2 as [|[|[|]]]; auto using seen_over_cons. }
      destruct there; cbn [negb] in E; [|injection E as <- <- <-; auto].
      unfold mbind at 1, Flow_bind at 1, try in E. destruct (getPaneState _ s1) as [s2 [p|e2]]; [|by eapply Hgo].
      destruct (Dead p); [|by eapply Hgo]. apply after_cleanup in E as [= -> ->]. auto.
Qed.
(** As long as the log is only appended to, what is shown is the log from where
    it was when the session began, piece by piece, each part once and in order, with the
    terminal's focus sequences taken out of each piece; however the watching ends, it has
    shown the log up to its last look, and when it ends because the session is over, and
    was not attached to, that look was made after the session was found to be over. *)
Theorem log_shown_whole T fixed stat hs s s' st' e :
  default 0 stat <= String.length T -> grows T (default 0 stat) (flat_map looks_in hs) ->
  streamUntilExit sessionName fixed stat hs s = (s', Ok (st', e)) ->
  (exists chunks, printed st' = filterFocusEscapes <$> chunks /\ default 0 stat <= lastOffset st' <= String.length T /\
     foldr String.append "" chunks = read_at (default 0 stat) (lastOffset st' - default 0 stat) T) /\
  (e = Unfinished \/ e = Stopped \/ e = Settled \/ seen_over hs st' e).
Proof.
  intros Ho Hg E. destruct (watch_shown T (default 0 stat) [] _ _ _ _ _ _ E Hg) as [(chunks & Hp & Hr) He].
  { exists []. split; [done|]. cbn [lastOffset]. split; [done|]. by rewrite Nat.sub_diag. }
  split; [|done]. exists chunks. done.
Qed.

(** Turns that follow each other after the sleep of 200 ms. *)
Fixpoint paced (now : Z) (turns : list turn) : Prop :=
  match turns with
  | [] => True
  | t :: rest => (now <= Watch.t_now t)%Z /\ paced (Watch.t_now t + 200 * millisecond) rest
  end.
(** The wait for silence ends, at the latest with its 151st turn. *)
Theorem settling_ends now1 now2 turns st s s' r :
  paced now2 turns -> 151 <= length turns ->
  settle sessionName (now2 + maxWait) now1 turns st s = (s', r) ->
  exists st' e, r = Ok (st', e) /\ (e = Stopped \/ e = Settled).
Proof.
  intros Hp Hl. assert (now2 + maxWait - now2 <= 200 * millisecond * (Z.of_nat (length turns) - 1))%Z as Hd.
  { unfold maxWait, second, millisecond. lia. }
  revert Hd. generalize (now2 + maxWait)%Z. intros deadline Hd. assert (turns <> []) as Hne by (intros ->; simpl in Hl; lia). clear Hl.
  revert now1 now2 st s Hne Hp Hd. induction turns as [|t turns IH]; intros now1 now2 st s Hne Hp Hd; [done|]. destruct Hp as [Ht Hp]. cbn [settle].
  destruct (Z.ltb_spec (Watch.t_now t) deadline) as [Hlt|Hge]; cbn [negb]; [|intros ->%after_cleanup; by eauto].
  cbv zeta. destruct (t_closed t); [intros ->%after_cleanup; by eauto|].
  assert (turns <> []) as Hne' by (intros ->; simpl in Hd; lia).
  assert (deadline - (Watch.t_now t + 200 * millisecond) <= 200 * millisecond * (Z.of_nat (length turns) - 1))%Z as Hd'.
  { rewrite length_cons in Hd. lia. }
  destruct (_ <? _)%nat; [by eapply IH|]. destruct (_ <=? _)%Z; [intros ->%after_cleanup; by eauto|]. by eapply IH.
Qed.

(** A file at the signal's place in a directory that is not trusted hides everything
    else: the end of the session is not looked for and the watching does not end. *)
Theorem untrusted_signal_blocks hs st s :
  Forall (fun h => exists e n1 n2 turns final new, h = Ticked true (Some e) n1 n2 turns final new) hs ->
  watch sessionName hs st s = (s, Ok (st, Unfinished)).
Proof. intros H. induction H as [|h hs (e & n1 & n2 & turns & final & new & ->) _ IH]; [done|exact IH]. Qed.
End watched.

(** ** Sequences at the edges *)

(** A sequence that is cut by the end of a piece is shown, and one that another one
    interrupts is put together by the removal. *)
Lemma cut_escape_shown : filterFocusEscapes (String "027" "[") +:+ filterFocusEscapes "I" = focus_in /\
  filterFocusEscapes (String "027" ("[" +:+ focus_in +:+ "I")) = focus_in.
Proof. split; reflexivity. Qed.

(** The directory of the signals is trusted only as a directory of one's own. *)
Lemma signal_dir_trusted uid fi dir : validateSignalDir uid (Ok fi) dir = None <-> is_link fi = false /\ is_dir fi = true /\ owner fi = Some uid.
Proof.
  unfold validateSignalDir, checkSignalDir. destruct (is_link fi), (is_dir fi), (owner fi) as [o|]; cbn [negb]; try naive_solver.
  case_bool_decide; naive_solver.
Qed.

(** ** Witnesses: a session that dies while its log grows *)
Section witnesses.
Definition host_exec (dir name : string) (args : list string) (w : nat) : nat * CommandResult :=
  match args with
  | "list-panes" :: _ => (S w, mkResult (if (w <? 1)%nat then "0|||41" else "1|3||41") "" None)
  | _ => (w, mkResult "" "" None)
  end.
#[local] Instance host_shell : Shell nat := {| sh_exec := host_exec; sh_git _ _ w := (w, Finished); sh_agent _ _ w := (w, None); sh_now _ := 0%Z |}.
Definition the_log : string := "old:one;two;".
Definition ticks : list happening := [
  Ticked false None 0 0 [] None (Some (mkLook 8 "old:one;"));
  Ticked false None 0 0 [] (Some (mkLook 12 the_log)) None].
Definition outcome := streamUntilExit "loom-task-falcon-7" false (Some 4) ticks (mkState 0 []).

Lemma log_shown_whole_witness : exists st, outcome.2 = Ok (st, Died 3) /\ printed st = ["one;"; "two;"] /\
  exists chunks, printed st = filterFocusEscapes <$> chunks /\ foldr String.append "" chunks = "one;two;".
Proof.
  exists (mkStream 12 ["one;"; "two;"] (Some (Router.hadActivity Router.newAdaptivePoller))).
  split; [vm_compute; reflexivity|]. split; [reflexivity|].
  destruct (log_shown_whole "loom-task-falcon-7" the_log false (Some 4) ticks (mkState 0 []) outcome.1
    (mkStream 12 ["one;"; "two;"] (Some (Router.hadActivity Router.newAdaptivePoller))) (Died 3)) as [(chunks & H1 & _ & H3) _].
  - simpl. lia.
  - repeat split; simpl; lia.
  - vm_compute. reflexivity.
  - exists chunks. split; [exact H1|exact H3].
Defined.
End witnesses.
End Watch.
