(* ===== verification/Workspaces.v ===== *)
(** * Workspaces: creating and removing workspaces,
    [internal/cli/workspace_cmd.go], and the saving of [config.go]

    A workspace is a directory with a git worktree for each of its repositories,
    entered in the global configuration. Git is a program of [GitCalls]; the file
    system and the configuration's library are the class [WorkspaceHost]. An exit of
    the command with an error is an error here, printed texts are left out. *)
From S2P Require Import Prelude Paths GitCalls GitFlow Resolver ConfigCheck.
Import Git.
Local Open Scope string_scope.

Module Workspaces.
Import Flow(RepoConfig, mkRepo, rp_Name, rp_Path).
Import Resolving(WorkspaceConfig, mkWorkspace, ws_Path, ws_Repos, LoomConfig, mkLoom, DefaultWorkspace).
Import Check(found, found_eq_dec, Missing, AFile, ADir, isValidWorktreeName).
#[local] Existing Instance found_eq_dec.
Abbreviation all_workspaces := Resolving.Workspaces.

Class WorkspaceHost (W : Type) := {
  host_stat : string -> W -> found;
  host_mkdir_all : string -> W -> W * option goerror;
  host_remove_all : string -> W -> W * option goerror;
  host_read : string -> W -> res string;
  host_write : string -> string -> W -> W * option goerror;
  host_abs : string -> W -> res string;                  (** [filepath.Abs] *)
  host_load : W -> res (option LoomConfig);              (** [LoadConfig] *)
  host_marshal : LoomConfig -> res string;
}.

Section commands.
Context {W : Type} {shell : Shell W} {host : WorkspaceHost W} {sorting : SliceSort} (config_dir : string).

Definition ask {A} (f : W -> A) : Flow W A := fun s => (s, Ok (f (world s))).
Definition ask_res {A} (f : W -> res A) : Flow W A := fun s => (s, f (world s)).
Definition act (f : W -> W * option goerror) : Flow W unit := fun s =>
  let (w, e) := f (world s) in (mkState w (calls s), match e with Some e => Err e | None => Ok tt end).

(** ** The configuration's file *)
Definition GetConfigPath : string := Paths.Join config_dir "config.yaml".
Definition GetWorkspaceDir (name : string) : string := Paths.join_all [config_dir; "workspaces"; name].

Definition SaveConfig (cfg : LoomConfig) : Flow W unit :=
  match host_marshal cfg with
  | Err e => fail (Wrapf "marshaling config: " e "")
  | Ok data =>
      if bool_decide (config_dir = "") then fail (Msg "cannot determine config directory")
      else
        errorw ("creating config dir " +:+ config_dir +:+ ": ") (act (host_mkdir_all config_dir));;
        errorw ("writing config " +:+ GetConfigPath +:+ ": ") (act (host_write GetConfigPath data))
  end.

(** [ResolveActiveWorkspace]; [order]: the workspaces as the map is ranged over. *)
Definition ResolveActiveWorkspace (order : list (string * WorkspaceConfig)) (cfg : res (option LoomConfig)) : res (option WorkspaceConfig) :=
  match cfg with
  | Err e => Err e
  | Ok None => Ok None
  | Ok (Some cfg) =>
      if bool_decide (all_workspaces cfg = ∅) then Ok None
      else if negb (bool_decide (DefaultWorkspace cfg = "")) then
        match all_workspaces cfg !! DefaultWorkspace cfg with
        | Some ws => Ok (Some ws)
        | None => Err (Msg ("default workspace " +:+ quote (DefaultWorkspace cfg) +:+ " not found in config"))
        end
      else Ok (snd <$> head order)
  end.
Definition IsWorkspaceMode (cfg : res (option LoomConfig)) : bool :=
  match cfg with Ok (Some cfg) => negb (bool_decide (all_workspaces cfg = ∅)) | _ => false end.

(** ** Creating *)
Definition isValidWorkspaceName (name : string) : bool := isValidWorktreeName name && negb (bool_decide (name = "")).

(** The path of a repository and the name it has in the workspace. *)
Fixpoint resolve_repos (rps : list string) (seenNames : gmap string string) : Flow W (list (string * string)) :=
  match rps with
  | [] => mret []
  | rp :: rest =>
      let rp := TrimSpace rp in
      if bool_decide (rp = "") then resolve_repos rest seenNames
      else
        absPath ← errorw ("cannot resolve path " +:+ quote rp +:+ ": ") (ask_res (host_abs rp));
        info ← ask (host_stat absPath);
        match info with
        | Missing => fail (Msg ("repo path does not exist: " +:+ absPath))
        | AFile => fail (Msg ("repo path is not a directory: " +:+ absPath))
        | ADir =>
            git ← ask (host_stat (Paths.Join absPath ".git"));
            if bool_decide (git = Missing) then fail (Msg ("not a git repository: " +:+ absPath))
            else
              let baseName := Paths.Base absPath in
              match seenNames !! baseName with
              | Some prev => fail (Msg ("duplicate repo name " +:+ quote baseName +:+ " from paths " +:+ prev +:+ " and " +:+ absPath))
              | None => resolved ← resolve_repos rest (<[baseName := absPath]> seenNames); mret ((absPath, baseName) :: resolved)
              end
        end
  end.

Definition worktree_add (wsDir branch : string) (repo : string * string) : list string :=
  ["worktree"; "add"; Paths.Join wsDir repo.2; "-b"; branch].
Definition worktree_remove (wsDir : string) (repo : string * string) : list string := ["worktree"; "remove"; Paths.Join wsDir repo.2].

(** Errors of the removal are not looked at. *)
Fixpoint undo_created (wsDir : string) (created : list (string * string)) : Flow W unit :=
  match created with
  | [] => mret tt
  | repo :: rest => try (RunGitCommand repo.1 (worktree_remove wsDir repo));; undo_created wsDir rest
  end.
Fixpoint create_worktrees (wsDir branch : string) (created todo : list (string * string)) : Flow W unit :=
  match todo with
  | [] => mret tt
  | repo :: rest =>
      r ← try (RunGitCommand repo.1 (worktree_add wsDir branch repo));
      match r with
      | Err e =>
          undo_created wsDir created;;
          try (act (host_remove_all wsDir));;
          fail (Wrapf ("git worktree add failed for " +:+ repo.2 +:+ ": ") e "")
      | Ok _ => create_worktrees wsDir branch (created ++ [repo]) rest
      end
  end.

(** The new workspace in the configuration. *)
Definition add_workspace (wsDir wsName : string) (dflt : bool) (repos : list (string * string)) (cfg : LoomConfig) : LoomConfig :=
  let wss := <[wsName := mkWorkspace wsDir ((fun repo => mkRepo repo.2 (Paths.Join wsDir repo.2) "" "") <$> repos)]> (all_workspaces cfg) in
  mkLoom (if dflt || bool_decide (size wss = 1%nat) then wsName else DefaultWorkspace cfg) wss.

Definition runWorkspaceCreate (wsName wsBranch wsRepos wsPath : string) (dflt : bool) : Flow W unit :=
  if negb (isValidWorkspaceName wsName) then fail (Msg ("workspace name " +:+ quote wsName +:+ " contains invalid characters"))
  else
    let branch := if bool_decide (wsBranch = "") then wsName else wsBranch in
    if negb (isValidWorkspaceName branch) || has_prefix branch "-" then fail (Msg ("branch name " +:+ quote branch +:+ " is invalid"))
    else
      let repoPaths := Split "," wsRepos in
      if bool_decide (repoPaths = [""]) then fail (Msg "--repos is required and must not be empty")
      else
        loaded ← ask_res host_load;
        let cfg := default (mkLoom "" ∅) loaded in
        if bool_decide (is_Some (all_workspaces cfg !! wsName)) then fail (Msg ("workspace " +:+ quote wsName +:+ " already exists"))
        else
          let wsDir := if bool_decide (wsPath = "") then GetWorkspaceDir wsName else wsPath in
          repos ← resolve_repos repoPaths ∅;
          if bool_decide (repos = []) then fail (Msg "no valid repos specified")
          else
            errorw ("cannot create workspace directory " +:+ wsDir +:+ ": ") (act (host_mkdir_all wsDir));;
            create_worktrees wsDir branch [] repos;;
            execCommand wsDir "bd" ["init"];;
            SaveConfig (add_workspace wsDir wsName dflt repos cfg).

(** ** Removing *)

(** The part of a path before its last component [.git]. *)
Fixpoint before_git (rev_parts : list string) : option (list string) :=
  match rev_parts with
  | [] => None
  | p :: rest => if bool_decide (p = ".git") then Some (rev rest) else before_git rest
  end.
Definition main_repo_of (worktreePath data : string) : string :=
  let content := TrimSpace data in
  if negb (has_prefix content "gitdir: ") then ""
  else
    let gitDir := str_drop 8 content in
    let gitDir := if Paths.IsAbs gitDir then gitDir else Paths.Join worktreePath gitDir in
    match before_git (rev (Split "/" (Paths.Clean gitDir))) with
    | Some parts => Join "/" parts
    | None => ""
    end.
Definition findMainRepoPath (worktreePath : string) : Flow W string :=
  r ← try (ask_res (host_read (Paths.Join worktreePath ".git")));
  mret (match r with Err _ => "" | Ok data => main_repo_of worktreePath data end).

(** Whether one of the repositories has a lock file. *)
Fixpoint some_locked (repos : list RepoConfig) : Flow W (option string) :=
  match repos with
  | [] => mret None
  | repo :: rest =>
      lock ← ask (host_stat (Paths.Join (rp_Path repo) ".agent.lock"));
      if bool_decide (lock = Missing) then some_locked rest else mret (Some (rp_Name repo))
  end.

(** One worktree; the error that is reported, if any. *)
Definition remove_worktree (force : bool) (wsPath : string) (repo : RepoConfig) : Flow W (option goerror) :=
  let repoPath := if Paths.IsAbs (rp_Path repo) then rp_Path repo else Paths.Join wsPath (rp_Path repo) in
  git ← ask (host_stat (Paths.Join repoPath ".git"));
  if bool_decide (git = Missing) then mret None
  else
    mainRepoPath ← findMainRepoPath repoPath;
    if bool_decide (mainRepoPath = "") then mret None
    else
      r ← try (RunGitCommand mainRepoPath ["worktree"; "remove"; repoPath]);
      match r with
      | Ok _ => mret None
      | Err e =>
          if force then
            r ← try (RunGitCommand mainRepoPath ["worktree"; "remove"; "--force"; repoPath]);
            mret (match r with Ok _ => None | Err e => Some e end)
          else mret (Some e)
      end.
Fixpoint remove_worktrees (force : bool) (wsPath : string) (repos : list RepoConfig) : Flow W (list goerror) :=
  match repos with
  | [] => mret []
  | repo :: rest =>
      e ← remove_worktree force wsPath repo;
      es ← remove_worktrees force wsPath rest;
      mret (match e with Some e => e :: es | None => es end)
  end.

Definition delete_workspace (wsName : string) (cfg : LoomConfig) : LoomConfig :=
  let wss := delete wsName (all_workspaces cfg) in
  if bool_decide (DefaultWorkspace cfg = wsName)
  then mkLoom (default "" (head (Resolving.workspace_names (mkLoom "" wss)))) wss
  else mkLoom (DefaultWorkspace cfg) wss.

Definition runWorkspaceRemove (wsName : string) (force keepWorktrees : bool) : Flow W unit :=
  loaded ← ask_res host_load;
  match loaded with
  | None => fail (Msg "No config found. Nothing to remove.")
  | Some cfg =>
      match all_workspaces cfg !! wsName with
      | None => fail (Msg ("Workspace " +:+ quote wsName +:+ " not found. Available: " +:+ String.concat ", " (Resolving.workspace_names cfg)))
      | Some ws =>
          locked ← (if force then mret None else some_locked (ws_Repos ws));
          match locked with
          | Some name => fail (Msg ("repo " +:+ quote name +:+ " has a running agent (lock file exists). Use --force to override."))
          | None =>
              (if keepWorktrees then mret tt
               else
                 errors ← remove_worktrees force (ws_Path ws) (ws_Repos ws);
                 if negb (bool_decide (errors = [])) && negb force then fail (Msg "Error removing worktrees")
                 else try (act (host_remove_all (ws_Path ws)));; mret tt);;
              SaveConfig (delete_workspace wsName cfg)
          end
      end
  end.

(** ** All worktrees or none *)

(** What is called to take back the worktrees that were made, in their order. *)
Lemma undo_calls wsDir created s :
  exists s', undo_created wsDir created s = (s', Ok tt) /\
    calls s' = (calls s ++ map (fun repo => Run repo.1 "git" (worktree_remove wsDir repo)) created)%list.
Proof.
  revert s. induction created as [|repo created IH]; intros s; cbn [undo_created].
  { eexists. split; [done|]. by rewrite app_nil_r. }
  unfold mbind at 1, Flow_bind at 1, try. destruct (RunGitCommand repo.1 (worktree_remove wsDir repo) s) as [s1 r] eqn:E.
  assert (calls s1 = (calls s ++ [Run repo.1 "git" (worktree_remove wsDir repo)])%list) as C.
  { unfold RunGitCommand, execCommand, mbind, Flow_bind in E. destruct (sh_exec _ _ _ _) as [w cr]. by destruct (cr_Err cr); injection E as <- _. }
  destruct (IH s1) as (s' & E' & C'). exists s'. split; [done|]. by rewrite C', C, <- app_assoc.
Qed.

Lemma git_call_made dir args s s' (r : res string) : RunGitCommand dir args s = (s', r) -> calls s' = (calls s ++ [Run dir "git" args])%list.
Proof.
  unfold RunGitCommand, execCommand, mbind, Flow_bind. destruct (sh_exec _ _ _ _) as [w cr]. by destruct (cr_Err cr); intros [= <- _].
Qed.

(** A workspace gets all of its worktrees or none: when one of them cannot be added,
    every one that was is removed again from the repository it was added to, in the same
    order, and nothing more is added; and without a failure each was added once. *)
Theorem worktrees_all_or_none wsDir branch repos s s' r :
  create_worktrees wsDir branch [] repos s = (s', r) ->
  let adds l := map (fun repo => Run repo.1 "git" (worktree_add wsDir branch repo)) l in
  let removes l := map (fun repo => Run repo.1 "git" (worktree_remove wsDir repo)) l in
  match r with
  | Ok _ => calls s' = (calls s ++ adds repos)%list
  | Err _ => exists made failed rest, repos = (made ++ failed :: rest)%list /\
      calls s' = (calls s ++ adds (made ++ [failed]) ++ removes made)%list
  end.
Proof.
  intros E adds removes. assert (forall todo created s s' r, create_worktrees wsDir branch created todo s = (s', r) ->
    match r with
    | Ok _ => calls s' = (calls s ++ adds todo)%list
    | Err _ => exists made failed rest, todo = (made ++ failed :: rest)%list /\
        calls s' = (calls s ++ adds (made ++ [failed]) ++ removes (created ++ made))%list
    end) as H; [|by apply H in E].
  clear. induction todo as [|repo todo IH]; intros created s s' r; cbn [create_worktrees].
  { intros [= <- <-]. by rewrite app_nil_r. }
  unfold mbind at 1, Flow_bind at 1, try at 1. destruct (RunGitCommand repo.1 (worktree_add wsDir branch repo) s) as [s1 r1] eqn:E1.
  apply git_call_made in E1. destruct r1 as [o|e].
  - intros E. apply IH in E. rewrite E1 in E. destruct r as [u|e]; [by rewrite E, <- app_assoc|].
    destruct E as (made & failed & rest & -> & C). exists (repo :: made), failed, rest. split; [done|].
    rewrite C, <- !app_assoc. cbn [app]. done.
  - unfold mbind at 1, Flow_bind at 1. destruct (undo_calls wsDir created s1) as (s2 & -> & C2).
    unfold mbind, Flow_bind, try, act. destruct (host_remove_all wsDir (world s2)) as [w o]. intros [= <- <-].
    exists [], repo, todo. split; [done|]. cbn [calls]. rewrite C2, E1, app_nil_r. by rewrite <- app_assoc.
Qed.

(** ** The configuration *)

(** The default is a workspace that exists, and there is one when there is a workspace. *)
Definition default_ok (cfg : LoomConfig) : Prop :=
  if bool_decide (all_workspaces cfg = ∅) then DefaultWorkspace cfg = ""
  else is_Some (all_workspaces cfg !! DefaultWorkspace cfg).

Inductive command :=
| Create (wsDir wsName : string) (dflt : bool) (repos : list (string * string))
| Remove (wsName : string).
Definition run_command (cfg : LoomConfig) (c : command) : LoomConfig :=
  match c with
  | Create wsDir wsName dflt repos => add_workspace wsDir wsName dflt repos cfg
  | Remove wsName => delete_workspace wsName cfg
  end.

Lemma add_default_ok wsDir wsName dflt repos cfg : default_ok cfg -> default_ok (add_workspace wsDir wsName dflt repos cfg).
Proof.
  unfold default_ok, add_workspace. cbv zeta. cbn [Resolving.Workspaces Resolving.DefaultWorkspace]. set (ws := mkWorkspace _ _). intros H.
  rewrite (bool_decide_false (<[wsName := ws]> (all_workspaces cfg) = ∅)) by apply insert_non_empty.
  destruct dflt; cbn [orb]; [by rewrite lookup_insert_eq|]. destruct (bool_decide_reflect (size (<[wsName := ws]> (all_workspaces cfg)) = 1)) as [Hs|Hs]; [by rewrite lookup_insert_eq|].
  case_bool_decide as He.
  - exfalso. apply Hs. by rewrite He, insert_empty, map_size_singleton.
  - destruct (decide (DefaultWorkspace cfg = wsName)) as [->|Hne]; [by rewrite lookup_insert_eq|]. by rewrite lookup_insert_ne.
Qed.

Lemma delete_default_ok wsName cfg : default_ok cfg -> default_ok (delete_workspace wsName cfg).
Proof.
  unfold default_ok, delete_workspace. cbv zeta. intros H. set (wss := delete wsName (all_workspaces cfg)).
  assert (forall n, head (Resolving.workspace_names (mkLoom "" wss)) = Some n -> is_Some (wss !! n)) as Hin.
  { intros n Hn. assert (n ∈ Resolving.workspace_names (mkLoom "" wss)) as Hn'.
    { destruct (Resolving.workspace_names _); [done|]. injection Hn as ->. by left. }
    unfold Resolving.workspace_names in Hn'. rewrite (sort_slice_perm string) in Hn'. apply list_elem_of_fmap in Hn' as ([k v] & -> & Hk).
    apply elem_of_map_to_list in Hk. by eexists. }
  assert (head (Resolving.workspace_names (mkLoom "" wss)) = None <-> wss = ∅) as Hnone.
  { unfold Resolving.workspace_names. rewrite head_None, sort_slice_nil. split; [intros E%map_eq_nil; by apply map_to_list_empty_iff|intros E; cbn [Resolving.Workspaces]; by rewrite E, map_to_list_empty]. }
  destruct (bool_decide_reflect (DefaultWorkspace cfg = wsName)) as [Hd|Hd]; cbn [Resolving.Workspaces Resolving.DefaultWorkspace]; fold wss.
  - destruct (head _) as [n|] eqn:Eh; cbn [default].
    + rewrite bool_decide_false; [by apply Hin|]. intros E. by apply Hnone in E.
    + rewrite bool_decide_true; [done|by apply Hnone].
  - destruct (bool_decide_reflect (all_workspaces cfg = ∅)) as [E|E].
    + rewrite bool_decide_true; [done|]. unfold wss. by rewrite E, delete_empty.
    + assert (is_Some (wss !! DefaultWorkspace cfg)) as Hs by (unfold wss; by rewrite lookup_delete_ne).
      rewrite bool_decide_false; [done|]. intros E'. rewrite E', lookup_empty in Hs. by destruct Hs.
Qed.

(** Whatever workspaces are created and removed, starting with none, the default is one
    of them as long as there are any; a command changes no other workspace. *)
Theorem default_always_defined cmds :
  default_ok (foldl run_command (mkLoom "" ∅) cmds) /\
  forall cfg c name, match c with Create _ n _ _ | Remove n => n <> name end ->
    all_workspaces (run_command cfg c) !! name = all_workspaces cfg !! name.
Proof.
  split.
  - assert (forall cfg, default_ok cfg -> default_ok (foldl run_command cfg cmds)) as H; [|by apply H].
    induction cmds as [|c cmds IH]; intros cfg Hc; [done|]. apply IH. destruct c; [by apply add_default_ok|by apply delete_default_ok].
  - intros cfg [wsDir n dflt repos|n] name Hn; cbn [run_command].
    + unfold add_workspace. cbv zeta. cbn. by rewrite lookup_insert_ne.
    + unfold delete_workspace. cbv zeta. case_bool_decide; cbn; by rewrite lookup_delete_ne.
Qed.
End commands.

(** ** The main repository of a worktree *)
Lemma trim_right_app a b : trim_right b <> "" -> trim_right (a +:+ b) = a +:+ trim_right b.
Proof.
  intros Hb. induction a as [|c a IH]; [by rewrite !append_nil_l|]. rewrite !append_cons. cbn [trim_right]. rewrite IH.
  by destruct a; [rewrite append_nil_l; destruct (trim_right b)|].
Qed.
Lemma trim_right_line s : trim_right (s +:+ String "010" "") = trim_right s.
Proof. induction s as [|c s IH]; [done|]. rewrite append_cons. cbn [trim_right]. by rewrite IH. Qed.

Lemma before_git_found l rest : Forall (fun p => p <> ".git") rest -> before_git (rev (l ++ ".git" :: rest)) = Some l.
Proof.
  intros H. rewrite rev_app_distr. cbn [rev]. rewrite <- app_assoc.
  assert (forall r, Forall (fun p => p <> ".git") r -> before_git (r ++ [".git"] ++ rev l) = Some l) as Hr.
  { intros r Hr. induction Hr as [|p r Hp Hr IH]; cbn [app before_git]; [by rewrite bool_decide_true, rev_involutive|].
    by rewrite bool_decide_false. }
  apply Hr. by apply Forall_rev.
Qed.

(** What git writes into a worktree leads back to the repository it belongs to,
    wherever that is, as long as the worktree's own name is not [.git] and does not
    end in a blank. *)
Theorem main_repo_found worktreePath l name :
  Forall Paths.plain_part l -> l <> [] -> Paths.plain_part name -> name <> ".git" -> trim_right name = name ->
  main_repo_of worktreePath ("gitdir: " +:+ Paths.abs_path (l ++ [".git"; "worktrees"; name]) +:+ String "010" "") = Paths.abs_path l.
Proof.
  intros Hl Hne Hn Hg Ht. unfold main_repo_of.
  assert (Forall Paths.plain_part (l ++ [".git"; "worktrees"; name])) as Hp.
  { apply Forall_app. split; [done|]. by repeat apply Forall_cons_2; [..|apply Forall_nil_2]. }
  assert (exists pre, Paths.abs_path (l ++ [".git"; "worktrees"; name]) = pre +:+ name) as [pre Epre].
  { destruct (Paths.abs_path_snoc (l ++ [".git"; "worktrees"]) name) as (d & E & _). rewrite <- app_assoc in E. cbn [app] in E.
    exists (d +:+ "/"). rewrite E. by rewrite append_assoc. }
  set (g := Paths.abs_path (l ++ [".git"; "worktrees"; name])) in *.
  assert (TrimSpace ("gitdir: " +:+ g +:+ String "010" "") = "gitdir: " +:+ g) as ->.
  { unfold TrimSpace. change (trim_left ("gitdir: " +:+ g +:+ String "010" "")) with ("gitdir: " +:+ g +:+ String "010" "").
    rewrite <- append_assoc, trim_right_line, Epre, <- append_assoc, trim_right_app; rewrite Ht; [done|by destruct Hn]. }
  change (has_prefix ("gitdir: " +:+ g) "gitdir: ") with (String.prefix "gitdir: " ("gitdir: " +:+ g)).
  assert (has_prefix ("gitdir: " +:+ g) "gitdir: " = true) as Hpre by (apply has_prefix_spec; by exists g). unfold has_prefix in Hpre. rewrite Hpre.
  cbn [negb]. change 8 with (String.length "gitdir: "). rewrite str_drop_append. unfold g. rewrite Paths.IsAbs_abs_path, Paths.Clean_abs_path by done.
  rewrite Paths.Split_abs_path by done. destruct (l ++ [".git"; "worktrees"; name])%list eqn:E; [by destruct l|]. rewrite <- E.
  change ("" :: l ++ [".git"; "worktrees"; name])%list with (("" :: l) ++ ".git" :: ["worktrees"; name])%list.
  rewrite before_git_found by (by repeat apply Forall_cons_2; [..|apply Forall_nil_2]). unfold Paths.abs_path. cbn [Join]. by destruct l.
Qed.
(** ** Witnesses: a disk of files by path, and git that refuses one repository *)
Section witnesses.
Import InsertionSort.
Record disk := mkDisk { d_files : gmap string string; d_config : option LoomConfig }.
Definition below (path p : string) : bool := has_prefix p (path +:+ "/").
Definition disk_stat (path : string) (w : disk) : found :=
  if bool_decide (is_Some (d_files w !! path)) then AFile
  else if existsb (fun e => below path e.1) (map_to_list (d_files w)) then ADir else Missing.
#[local] Instance disk_host : WorkspaceHost disk := {|
  host_stat := disk_stat;
  host_mkdir_all path w := (mkDisk (<[path +:+ "/." := ""]> (d_files w)) (d_config w), None);
  host_remove_all path w := (mkDisk (filter (fun e => (bool_decide (e.1 = path) || below path e.1) = false) (d_files w)) (d_config w), None);
  host_read path w := match d_files w !! path with Some data => Ok data | None => Err (Msg "is a directory") end;
  host_write path data w := (mkDisk (<[path := data]> (d_files w)) (d_config w), None);
  host_abs path _ := Ok path;
  host_load w := Ok (d_config w);
  host_marshal cfg := Ok (String.concat "," (map fst (map_to_list (all_workspaces cfg))));
|}.
#[local] Instance disk_shell : Shell disk := {|
  sh_exec dir name args w := (w, mkResult "" "" (match args with [_; "add"; _; _; _] => if bool_decide (dir = "/src/b") then Some (Msg "exit status 128") else None | _ => None end));
  sh_git _ _ w := (w, Finished); sh_agent _ _ w := (w, None); sh_now _ := 0%Z |}.

Definition two_repos : list (string * string) := [("/src/a", "a"); ("/src/b", "b")].
Definition at_disk (files : list (string * string)) (cfg : option LoomConfig) : state disk := mkState (mkDisk (list_to_map files) cfg) [].
Definition sources : list (string * string) := [("/src/a/.git/HEAD", ""); ("/src/b/.git/HEAD", "")].

Definition half_made := create_worktrees "/ws" "x" [] two_repos (at_disk sources None).
Lemma worktrees_all_or_none_witness :
  calls half_made.1 =
    [Run "/src/a" "git" ["worktree"; "add"; "/ws/a"; "-b"; "x"]; Run "/src/b" "git" ["worktree"; "add"; "/ws/b"; "-b"; "x"];
     Run "/src/a" "git" ["worktree"; "remove"; "/ws/a"]] /\
  exists made failed rest, two_repos = (made ++ failed :: rest)%list /\
    calls half_made.1 = (map (fun repo => Run repo.1 "git" (worktree_add "/ws" "x" repo)) (made ++ [failed]) ++
      map (fun repo => Run repo.1 "git" (worktree_remove "/ws" repo)) made)%list.
Proof.
  split; [vm_compute; reflexivity|].
  assert (half_made = (half_made.1, Err (Wrapf "git worktree add failed for b: " (Msg "git worktree add /ws/b -b x failed: ") ""))) as E
    by (vm_compute; reflexivity).
  destruct (worktrees_all_or_none "/ws" "x" two_repos (at_disk sources None) _ _ E) as (made & failed & rest & Er & C).
  exists made, failed, rest. split; [exact Er|exact C].
Defined.

Lemma main_repo_found_witness : main_repo_of "/ws/api" ("gitdir: /src/api/.git/worktrees/api" +:+ String "010" "") = "/src/api".
Proof.
  refine (main_repo_found "/ws/api" ["src"; "api"] "api" _ _ _ _ _); [|done|by split_and!|done|done].
  by repeat apply Forall_cons_2; [..|apply Forall_nil_2].
Defined.

(** A directory that was there before is emptied when a worktree cannot be added: [--path]
    may name one that has other files. *)
Lemma failed_create_empties_directory :
  let '(s', r) := runWorkspaceCreate "/cfg" "x" "" "/src/a,/src/b" "/home/me" false (at_disk (("/home/me/thesis.tex", "text") :: sources) None) in
  r <> Ok tt /\ d_files (world s') !! "/home/me/thesis.tex" = None /\ is_Some (d_files (world s') !! "/src/a/.git/HEAD").
Proof. vm_compute. split_and!; [done|done|by eexists]. Qed.

(** A workspace of repositories that are no worktrees is removed with its repositories. *)
Lemma remove_takes_repositories :
  let cfg := mkLoom "dev" {["dev" := mkWorkspace "/code" [mkRepo "api" "/code/api" "" ""]]} in
  let '(s', r) := runWorkspaceRemove "/cfg" "dev" false false (at_disk [("/code/api/.git/HEAD", ""); ("/code/api/main.go", "text")] (Some cfg)) in
  r = Ok tt /\ calls s' = [] /\ d_files (world s') !! "/code/api/main.go" = None.
Proof. vm_compute. by split_and!. Qed.
End witnesses.
End Workspaces.
