(* ===== verification/Backends.v ===== *)
(** * Backends: the programs that run agents, [internal/cli/backend.go],
    [backend_claude.go], [backend_codex.go], [backend_opencode.go],
    [backend_external.go], [backend_capabilities.go] and [process_guard.go]

    How an agent's program is started with its prompt and environment, the plug-ins
    found on the search path, the readiness of a backend, and the guard of a process
    as a system of goroutines. What the programs print is JSON read by a class; the
    collection of usage is in [Usage]. *)
From S2P Require Import Prelude Paths EnvSubst DaemonConfig Spawn.
Local Open Scope Z_scope.
Local Open Scope string_scope.
Local Open Scope go_scope.

Module Backends.
Import EnvSubst Spawn.

(** ** Starting an agent *)
Inductive stdin_source := Terminal | NoInput | Prompt (text : string) | PromptThenTerminal (text : string).
Record launch := mkLaunch { program : string; args : list string; work_dir : string; env : list string; stdin : stdin_source }.

Section starting.
Context (environ : list string).

Definition agent_env (workDir agentName : string) : list string :=
  (FilterEnv environ ++ [env_entry "LOOM_WORKTREE_PATH" workDir] ++
   (if bool_decide (agentName = "") then [] else [env_entry "BD_ACTOR" agentName]))%list.

Definition buildClaudeInteractiveCmd (workDir prompt agentName : string) : launch :=
  mkLaunch "claude" ["--dangerously-skip-permissions"; prompt] workDir (agent_env workDir agentName) Terminal.
Definition ContinueSession (workDir sessionID agentName : string) : launch :=
  mkLaunch "claude" ["--resume"; "--session-id"; sessionID; "--dangerously-skip-permissions"] workDir (agent_env workDir agentName) Terminal.
Definition buildCodexInteractiveCmd (workDir prompt agentName : string) : launch :=
  mkLaunch "codex" ["--dangerously-bypass-approvals-and-sandbox"; prompt] workDir (agent_env workDir agentName) Terminal.
Definition defaultCodexInvoker (isTerminal : bool) (workDir prompt agentName : string) : launch :=
  if negb isTerminal
  then mkLaunch "codex" ["exec"; "--dangerously-bypass-approvals-and-sandbox"; prompt] workDir (agent_env workDir agentName) NoInput
  else buildCodexInteractiveCmd workDir prompt agentName.
Definition buildOpenCodeInteractiveCmd (workDir prompt agentName : string) : launch :=
  mkLaunch "opencode" ["run"; prompt] workDir (agent_env workDir agentName) Terminal.

(** A prompt is written into a pipe before the program that reads it is started: a
    write of more than the pipe holds does not return. *)
Inductive outcome := Hangs | Refused (e : goerror) | Started (l : launch).
Record pipe_errors := mkErrors { pipe_err : option goerror; write_err : option goerror; stdout_err : option goerror; start_err : option goerror }.

Definition write_prompt (capacity : Z) (errs : pipe_errors) (prompt : string) (next : outcome) : outcome :=
  match pipe_err errs with
  | Some e => Refused (Wrapf "failed to create pipe: " e "")
  | None =>
      if (capacity <? len prompt)%Z then Hangs
      else match write_err errs with Some e => Refused (Wrapf "failed to write prompt to stdin: " e "") | None => next end
  end.
Definition start_piped (capacity : Z) (errs : pipe_errors) (prompt : string) (l : launch) : outcome :=
  write_prompt capacity errs prompt
    match stdout_err errs with
    | Some e => Refused (Wrapf "failed to create stdout pipe: " e "")
    | None => match start_err errs with Some e => Refused (Wrapf ("failed to start " ++ program l ++ ": ") e "") | None => Started l end
    end.

Definition defaultClaudeNonInteractiveInvoker (capacity : Z) (errs : pipe_errors) (workDir prompt agentName : string) : outcome :=
  start_piped capacity errs prompt
    (mkLaunch "claude" ["-p"; "--verbose"; "--output-format"; "stream-json"; "--dangerously-skip-permissions"] workDir (agent_env workDir agentName) (Prompt prompt)).
Definition InvokeStreaming (capacity : Z) (errs : pipe_errors) (workDir prompt agentName : string) : outcome :=
  defaultClaudeNonInteractiveInvoker capacity errs workDir prompt agentName.
Definition defaultCodexNonInteractiveInvoker (capacity : Z) (errs : pipe_errors) (workDir prompt agentName : string) : outcome :=
  start_piped capacity errs prompt
    (mkLaunch "codex" ["exec"; "--json"; "--dangerously-bypass-approvals-and-sandbox"] workDir (agent_env workDir agentName) (Prompt prompt)).
Definition defaultOpenCodeNonInteractiveInvoker (capacity : Z) (errs : pipe_errors) (workDir prompt agentName : string) : outcome :=
  start_piped capacity errs prompt
    (mkLaunch "opencode" ["run"; "--format"; "json"] workDir (agent_env workDir agentName) (Prompt prompt)).
Definition External_InvokeNonInteractive (binPath : string) (capacity : Z) (errs : pipe_errors) (workDir prompt agentName : string) : outcome :=
  start_piped capacity errs prompt
    (mkLaunch binPath ["invoke"; "--non-interactive"] workDir (agent_env workDir agentName) (Prompt prompt)).
Definition External_InvokeInteractive (binPath : string) (capacity : Z) (errs : pipe_errors) (workDir prompt agentName : string) : outcome :=
  write_prompt capacity errs prompt
    (Started (mkLaunch binPath ["invoke"; "--interactive"] workDir (agent_env workDir agentName) (PromptThenTerminal prompt))).
End starting.

(** ** The registry and the plug-ins on the search path *)
Inductive Backend := Builtin (name : string) | ExternalBackend (name binPath : string).
Definition backend_name (b : Backend) : string := match b with Builtin n | ExternalBackend n _ => n end.
Abbreviation registry := (gmap string Backend).

Definition RegisterBackend (b : Backend) (r : registry) : registry := <[backend_name b := b]> r.
Definition IsRegistered (r : registry) (name : string) : bool := bool_decide (is_Some (r !! name)).
Definition GetBackendByName (r : registry) (name : string) : option Backend := r !! name.

(** An entry of a directory; [de_mode]: its permissions, unless they cannot be asked. *)
Record DirEntry := mkEntry { de_name : string; de_dir : bool; de_mode : res Z }.
Definition plugin_prefix : string := "loom-backend-".
Definition executable (e : DirEntry) : bool := match de_mode e with Ok m => negb (Z.land m 73 =? 0)%Z | Err _ => false end.

Definition consider (dir : string) (e : DirEntry) (st : gset string * registry) : gset string * registry :=
  let '(seen, r) := st in
  if de_dir e then st
  else if negb (has_prefix (de_name e) plugin_prefix) then st
  else
    let backendName := str_drop (String.length plugin_prefix) (de_name e) in
    if bool_decide (backendName = "") then st
    else if bool_decide (backendName ∈ seen) then st
    else if IsRegistered r backendName then ({[backendName]} ∪ seen, r)
    else if negb (executable e) then st
    else ({[backendName]} ∪ seen, RegisterBackend (ExternalBackend backendName (Paths.Join dir (de_name e))) r).

(** Directories that cannot be read are passed over. *)
Definition scan_dir (read : string -> res (list DirEntry)) (st : gset string * registry) (dir : string) : gset string * registry :=
  match read dir with Ok entries => foldl (fun st e => consider dir e st) st entries | Err _ => st end.
Definition SplitList (path : string) : list string := if bool_decide (path = "") then [] else Split ":" path.
Definition DiscoverExternalBackends (read : string -> res (list DirEntry)) (pathEnv : string) (r : registry) : registry :=
  if bool_decide (pathEnv = "") then r else (foldl (scan_dir read) (∅, r) (SplitList pathEnv)).2.

(** ** Readiness *)
Record HealthStatus := mkHealth { Healthy : bool; Installed : bool; Version : string; APIKeySet : bool; Message : string }.
Definition join_issues (issues : list string) : string := match issues with [] => "ready" | _ => String.concat "; " issues end.

(** The first line of what the program prints about its version. *)
Definition detectBinaryVersion (out : option string) : string :=
  match out with None => "" | Some out => TrimSpace (default "" (head (Split (Ascii.ascii_of_nat 10) out))) end.
(** Claude and Codex: the program and a key. *)
Definition keyed_health (program key : string) (found : bool) (version : string) (getenv : string -> string) : HealthStatus :=
  let set := negb (bool_decide (getenv key = "")) in
  mkHealth (found && set) found (if found then version else "") set
    (join_issues ((if found then [] else [program +:+ " binary not found on PATH"]) ++ (if set then [] else [key +:+ " not set"]))%list).
Definition Claude_HealthCheck := keyed_health "claude" "ANTHROPIC_API_KEY".
Definition Codex_HealthCheck := keyed_health "codex" "OPENAI_API_KEY".
Definition OpenCode_HealthCheck (found : bool) (version : string) : HealthStatus :=
  if found then mkHealth true true version false "ready" else mkHealth false false "" false "opencode binary not found on PATH".

Record BackendMeta := mkMeta { DisplayName : string; meta_Version : string; Description : string; URL : string; BinaryName : string }.
Definition Claude_Meta (version : string) : BackendMeta :=
  mkMeta "Claude" version "Anthropic Claude Code CLI" "https://docs.anthropic.com/en/docs/claude-code" "claude".
Definition Codex_Meta (version : string) : BackendMeta := mkMeta "Codex" version "OpenAI Codex CLI" "https://github.com/openai/codex" "codex".
Definition OpenCode_Meta (version : string) : BackendMeta := mkMeta "OpenCode" version "OpenCode CLI" "https://github.com/opencode-ai/opencode" "opencode".

(** How a plug-in answers a question: its output, and whether it ended well, or badly,
    or left its output open for too long. *)
Inductive answered := Ended | TimedOutOpen | Broke (e : goerror).
Definition usable (a : answered) (out : string) : option goerror :=
  match a with
  | Ended => None
  | TimedOutOpen => if (0 <? len out)%Z then None else Some (Sentinel "exec: WaitDelay expired before I/O complete")
  | Broke e => Some e
  end.
Definition External_Meta (parse : string -> res BackendMeta) (name binPath : string) (a : answered) (out : string) : BackendMeta :=
  let plain := mkMeta name "" "" "" (Paths.Base binPath) in
  match usable a out with
  | Some _ => plain
  | None => match parse out with Ok meta => meta | Err _ => plain end
  end.
Definition External_HealthCheck (parse : string -> res HealthStatus) (exists_ : bool) (binPath : string) (a : answered) (out : string) : HealthStatus :=
  if negb exists_ then mkHealth false false "" false ("binary no longer found at " ++ binPath)
  else
    match usable a out with
    | Some e => mkHealth false true "" false ("health check failed: " ++ error_text e)
    | None =>
        match parse out with
        | Ok hs => hs
        | Err e => mkHealth false true "" false ("health check returned invalid JSON: " ++ error_text e)
        end
    end.

(** ** The guard of a process ([process_guard.go])

    Goroutines ask to signal the process or, after waiting for it, mark it; the mutex
    makes each of these one step, but the channel is closed in a step of its own. *)
Record processGuard := mkGuard { exited : bool; done_closed : nat; closers : nat; signals : nat }.
Definition newProcessGuard : processGuard := mkGuard false 0 0 0.
Inductive guard_step := Signal (fails : bool) | Mark | CloseDone.
Definition guard_exec (l : guard_step) (g : processGuard) : option (processGuard * bool) :=
  match l with
  | Signal fails =>
      if exited g then Some (g, false)
      else Some (if fails then g else mkGuard (exited g) (done_closed g) (closers g) (S (signals g)), negb fails)
  | Mark => if exited g then Some (g, true) else Some (mkGuard true (done_closed g) (S (closers g)) (signals g), true)
  | CloseDone => match closers g with O => None | S n => Some (mkGuard (exited g) (S (done_closed g)) n (signals g), true) end
  end.

(** ** What an agent finds in its environment *)

(** Whatever the environment of the program has, an agent finds its own worktree and, if
    it has one, its own name; of everything else it finds what the filter lets through. *)
Theorem agent_environment environ workDir agentName name :
  lookup_env (agent_env environ workDir agentName) name =
    if bool_decide (name = "BD_ACTOR" /\ agentName <> "") then Some agentName
    else if bool_decide (name = "LOOM_WORKTREE_PATH") then Some workDir
    else lookup_env (FilterEnv environ) name.
Proof.
  unfold agent_env. rewrite !lookup_env_app.
  rewrite (lookup_env_entry "LOOM_WORKTREE_PATH" workDir) by reflexivity.
  destruct (bool_decide_reflect (agentName = "")) as [Ha|Ha]; [|rewrite (lookup_env_entry "BD_ACTOR" agentName) by reflexivity].
  - rewrite (bool_decide_false (name = "BD_ACTOR" /\ _)) by tauto. simpl.
    destruct (bool_decide_reflect (name = "LOOM_WORKTREE_PATH")); [by rewrite bool_decide_true|by rewrite bool_decide_false].
  - rewrite (bool_decide_ext (name = "BD_ACTOR" /\ agentName <> "") ("BD_ACTOR" = name)) by naive_solver. case_bool_decide; [done|].
    by rewrite (bool_decide_ext ("LOOM_WORKTREE_PATH" = name) (name = "LOOM_WORKTREE_PATH")) by naive_solver; case_bool_decide.
Qed.

(** ** The prompt *)

(** A backend that is given its prompt on its input is started when every step succeeds
    and the prompt is no longer than what a pipe holds, and then it finds the whole
    prompt there; a longer prompt makes the start hang, before there is a program that
    could read it. *)
Theorem prompt_length_bounded capacity errs prompt l :
  match start_piped capacity errs prompt l with
  | Started l' => l' = l /\ len prompt <= capacity /\ errs = mkErrors None None None None
  | Hangs => pipe_err errs = None /\ capacity < len prompt
  | Refused _ => errs <> mkErrors None None None None
  end%Z.
Proof.
  unfold start_piped, write_prompt. destruct errs as [p w o st]. cbn [pipe_err write_err stdout_err start_err].
  destruct p; [done|]. destruct (Z.ltb_spec capacity (len prompt)); [done|].
  destruct w; [done|]. destruct o; [done|]. by destruct st.
Qed.

(** ** The plug-ins *)
Section discovery.
Context (read : string -> res (list DirEntry)).

(** All entries in the order they are looked at. *)
Definition entries_of (dir : string) : list (string * DirEntry) := match read dir with Ok es => pair dir <$> es | Err _ => [] end.
Definition plugin_of (n : string) (x : string * DirEntry) : option string :=
  if negb (de_dir x.2) && bool_decide (de_name x.2 = plugin_prefix +:+ n) && executable x.2 then Some (Paths.Join x.1 (de_name x.2)) else None.
(** The first executable file of the name. *)
Definition first_plugin (n : string) (xs : list (string * DirEntry)) : option string := head (omap (plugin_of n) xs).

Lemma first_plugin_snoc n xs x : first_plugin n (xs ++ [x])%list = match first_plugin n xs with Some p => Some p | None => plugin_of n x end.
Proof.
  unfold first_plugin. rewrite omap_app. destruct (omap (plugin_of n) xs) as [|p ps]; [|done]. cbn [app omap list_omap head].
  by destruct (plugin_of n x).
Qed.

Definition found_so_far (r : registry) (xs : list (string * DirEntry)) (st : gset string * registry) : Prop :=
  forall n, st.2 !! n = match r !! n with Some b => Some b | None => if bool_decide (n = "") then None else ExternalBackend n <$> first_plugin n xs end /\
    (n ∈ st.1 -> is_Some (st.2 !! n)) /\ (r !! n = None -> is_Some (st.2 !! n) -> n ∈ st.1).

Lemma not_this n x : de_name x.2 <> plugin_prefix +:+ n \/ de_dir x.2 = true \/ executable x.2 = false -> plugin_of n x = None.
Proof.
  intros H. unfold plugin_of. destruct (de_dir x.2); [done|]. destruct (executable x.2); [|by rewrite andb_false_r].
  rewrite bool_decide_false; [done|]. by destruct H as [|[|]].
Qed.

Lemma consider_found r xs x st : found_so_far r xs st -> found_so_far r (xs ++ [x]) (consider x.1 x.2 st).
Proof.
  intros H. assert ((forall n, n <> "" -> r !! n = None -> first_plugin n xs = None -> plugin_of n x = None) -> found_so_far r (xs ++ [x]) st) as Hsame.
  { intros Hn n. destruct (H n) as (H1 & H2 & H3). split_and!; [|done..]. rewrite H1. destruct (r !! n) eqn:Er; [done|].
    case_bool_decide as Hne; [done|]. rewrite first_plugin_snoc. destruct (first_plugin n xs) eqn:Ef; [done|]. by rewrite (Hn n Hne Er Ef). }
  unfold consider. destruct st as [seen cur]. destruct (de_dir x.2) eqn:Ed; [apply Hsame; intros; apply not_this; auto|].
  destruct (has_prefix (de_name x.2) plugin_prefix) eqn:Ep; cbn [negb].
  2: { apply Hsame. intros n _ _ _. apply not_this. left. intros E. rewrite E in Ep.
       assert (has_prefix (plugin_prefix +:+ n) plugin_prefix = true) by (apply has_prefix_spec; by exists n). congruence. }
  apply has_prefix_spec in Ep as [b Eb]. rewrite Eb, str_drop_append.
  assert (forall n, n <> b -> plugin_of n x = None) as Hother.
  { intros n Hn. apply not_this. left. rewrite Eb. intros E. apply append_inv_len in E as [_ E]; [|done]. congruence. }
  case_bool_decide as Hb; [apply Hsame; intros n Hn _ _; apply Hother; congruence|].
  destruct (H b) as (H1 & H2 & H3). cbn [fst snd] in H1, H2, H3. rewrite (bool_decide_false (b = "")) in H1 by done.
  destruct (bool_decide_reflect (b ∈ seen)) as [Hseen|Hseen].
  { apply Hsame. intros n Hn Hr Hf. apply Hother. intros ->. specialize (H2 Hseen). rewrite H1, Hr, Hf in H2. by destruct H2. }
  unfold IsRegistered. destruct (bool_decide_reflect (is_Some (cur !! b))) as [Hreg|Hreg].
  { assert (found_so_far r (xs ++ [x]) (seen, cur)) as Hs.
    { apply Hsame. intros n Hn Hr Hf. apply Hother. intros ->. rewrite H1, Hr, Hf in Hreg. by destruct Hreg. }
    intros n. destruct (Hs n) as (S1 & S2 & S3). cbn [fst snd] in *. split_and!; [done| |set_solver].
    intros [->%elem_of_singleton|Hn]%elem_of_union; [done|auto]. }
  rewrite <- eq_None_not_Some in Hreg. destruct (executable x.2) eqn:Ex; cbn [negb]; [|apply Hsame; intros; apply not_this; auto].
  intros n. destruct (H n) as (N1 & N2 & N3). cbn [fst snd] in *. unfold RegisterBackend. cbn [backend_name].
  rewrite first_plugin_snoc. destruct (decide (n = b)) as [->|Hne].
  - rewrite lookup_insert_eq. split_and!; [|by eexists|set_solver]. rewrite H1 in Hreg. destruct (r !! b); [done|].
    rewrite bool_decide_false by done. destruct (first_plugin b xs); [done|]. unfold plugin_of. rewrite Ed, Ex, bool_decide_true by done.
    cbn [negb andb fmap option_fmap option_map]. by rewrite Eb.
  - rewrite lookup_insert_ne by done. rewrite (Hother n Hne). split_and!; [|set_solver..]. rewrite N1. destruct (r !! n); [done|].
    case_bool_decide; [done|]. by destruct (first_plugin n xs).
Qed.

Lemma scan_dirs_found r dirs xs st : found_so_far r xs st -> found_so_far r (xs ++ flat_map entries_of dirs) (foldl (scan_dir read) st dirs).
Proof.
  revert xs st. induction dirs as [|d dirs IH]; intros xs st H; cbn [foldl flat_map]; [by rewrite app_nil_r|].
  rewrite app_assoc. apply IH. unfold scan_dir, entries_of. destruct (read d) as [es|e]; [|by rewrite app_nil_r].
  revert xs st H. induction es as [|e es IHe]; intros xs st H; cbn [foldl fmap list_fmap]; [by rewrite app_nil_r|].
  replace (xs ++ (d, e) :: (pair d <$> es))%list with ((xs ++ [(d, e)]) ++ (pair d <$> es))%list by (by rewrite <- app_assoc).
  apply IHe. by apply (consider_found r xs (d, e)).
Qed.

(** After the search each name stands for the backend registered before, if there
    was one, and else for the first executable file [loom-backend-<name>] of the search
    path, in the order of the path; nothing else is registered. *)
Theorem discovery_exact pathEnv r n :
  DiscoverExternalBackends read pathEnv r !! n =
    match r !! n with
    | Some b => Some b
    | None => if bool_decide (n = "") then None else ExternalBackend n <$> first_plugin n (flat_map entries_of (SplitList pathEnv))
    end.
Proof.
  assert (found_so_far r [] (∅, r)) as H0.
  { intros m. cbn [fst snd]. split_and!; [|set_solver|by intros -> []]. destruct (r !! m); [done|]. by case_bool_decide. }
  unfold DiscoverExternalBackends. case_bool_decide as Hp.
  - subst. destruct (H0 n) as (E & _). exact E.
  - destruct (scan_dirs_found r (SplitList pathEnv) [] _ H0 n) as (E & _). exact E.
Qed.
End discovery.

(** ** The guard *)

(** However signals and marks interleave: the channel is closed at most once, and once
    the process is marked no signal is sent. *)
Theorem guard_safe ls g : steps (fun s l s' => exists b, guard_exec l s = Some (s', b)) newProcessGuard ls g ->
  (done_closed g + closers g = if exited g then 1 else 0)%nat /\
  forall l g' b, exited g = true -> guard_exec l g = Some (g', b) -> signals g' = signals g.
Proof.
  intros H. split.
  - apply (steps_inv (fun s l s' => exists b, guard_exec l s = Some (s', b)) (fun g => done_closed g + closers g = if exited g then 1 else 0)%nat) with (2 := H); [|done].
    intros s l s' Hi [b E]. destruct l as [fails| |]; cbn [guard_exec] in E.
    + destruct (exited s) eqn:Ex; [by injection E as <- _; rewrite Ex|]. destruct fails; injection E as <- _; cbn; by rewrite ?Ex.
    + destruct (exited s) eqn:Ex; [by injection E as <- _; rewrite Ex|]. injection E as <- _. cbn. lia.
    + destruct (closers s) eqn:Ec; [done|]. injection E as <- _. cbn. lia.
  - intros l g' b Hx E. destruct l; cbn [guard_exec] in E; rewrite ?Hx in E; [by injection E as <- _..|]. destruct (closers g); [done|]. by injection E as <- _.
Qed.
End Backends.
