(* ===== verification/Secrets.v ===== *)
(** * Secrets: references to secrets in configuration files,
    [internal/cli/secrets.go] and [secrets_resolve.go]

    The chain of backends (environment, files, 1Password) behind a cache, the
    replacement of [$secret:name] in a string and in the string scalars of a
    YAML tree, and the masking of known values in a text. The file backend reads
    the tree of [FileAccess]; the [op] command is an argument. *)
From S2P Require Import Prelude Paths FileAccess EnvSubst IssueTypes.
Local Open Scope string_scope.
Local Open Scope go_scope.

Module Secrets.
Import Paths EnvSubst.

(** ** Strings *)
(** [toEnvName]: upper case, hyphens and dots become underscores. *)
Definition toEnvName (name : string) : string := ReplaceAll (ReplaceAll (ToUpper name) "-" "_") "." "_".

(** ** Backends *)
Record SecretBackend := mkBackend {
  Name : string;
  Resolve1 : string -> res (option string);   (** no value without an error: not found *)
}.

Definition EnvSecretBackend (env : gmap string string) : SecretBackend :=
  mkBackend "env" (fun name => Ok (env !! ("LOOM_SECRET_" ++ toEnvName name))).

(** [os.ReadFile]: links are followed, the last one too. *)
Definition ReadFile (t : Access.tree) (path : string) : res string :=
  match Access.walk t Access.MAXSYMLINKS [] (Split Separator path) with
  | Err e => Err e
  | Ok loc =>
      match Access.node_at t loc with
      | Some (Access.NFile content _) => Ok content
      | Some _ => Err Access.EISDIR
      | None => Err Access.ENOENT
      end
  end.

Definition first_line (data : string) : string :=
  match index_byte data "010"%char with Some idx => str_take idx data | None => data end.

(** The warning about the permissions goes to the terminal and changes nothing. *)
Definition FileResolve (t : Access.tree) (dir name : string) : res (option string) :=
  if has_prefix name "op://" then Ok None
  else if contains name ".." || contains name "/" || contains name "\" then
    Err (Msg ("secret name " ++ quote name ++ " contains path traversal characters"))
  else
    let path := Join dir name in
    let outside :=
      match Access.EvalSymlinks t path with
      | Ok resolved =>
          let absDir := match Access.EvalSymlinks t dir with Ok evalDir => evalDir | Err _ => dir end in
          negb (has_prefix resolved (absDir ++ "/")) && negb (bool_decide (resolved = absDir))
      | Err _ => false
      end in
    if outside then Err (Msg ("secret name " ++ quote name ++ " resolves outside secrets directory"))
    else
      match ReadFile t path with
      | Err e =>
          if Access.IsNotExist e then Ok None
          else Err (Wrapf ("reading secret file " ++ path ++ ": ") e "")
      | Ok data => Ok (Some (first_line data))
      end.
Definition FileSecretBackend (t : Access.tree) (dir : string) : SecretBackend := mkBackend "file" (FileResolve t dir).

Definition redactOpURI (uri : string) : string :=
  if negb (has_prefix uri "op://") then "op://***"
  else
    match Types.split_n 3 (str_drop 5 uri) with
    | [vault; item; _] => if bool_decide (vault = "" \/ item = "") then "op://***" else "op://" ++ vault ++ "/" ++ item ++ "/***"
    | _ => "op://***"
    end.

(** [op read name]: its output, or what it wrote to the standard error when it
    failed; [None] when there is no such program. *)
Definition OpResolve (op : option (string -> string + string)) (name : string) : res (option string) :=
  match op with
  | None => Ok None
  | Some read =>
      if negb (has_prefix name "op://") then Ok None
      else
        match read name with
        | inr stderr => Err (Msg ("op read " ++ redactOpURI name ++ ": " ++ TrimSpace stderr))
        | inl stdout => Ok (Some (TrimSpace stdout))
        end
  end.
Definition OnePasswordBackend (op : option (string -> string + string)) : SecretBackend := mkBackend "1password" (OpResolve op).

(** The chain of [NewSecretResolver]. *)
Definition default_backends (env : gmap string string) (t : Access.tree) (dir : string)
    (op : option (string -> string + string)) : list SecretBackend :=
  [EnvSecretBackend env; FileSecretBackend t dir; OnePasswordBackend op].

(** ** The resolver *)
Fixpoint first_found (backends : list SecretBackend) (name : string) : res (option string) :=
  match backends with
  | [] => Ok None
  | b :: rest =>
      match Resolve1 b name with
      | Err e => Err (Wrapf ("backend " ++ Name b ++ ": ") e "")
      | Ok (Some val) => Ok (Some val)
      | Ok None => first_found rest name
      end
  end.

Definition Resolve (backends : list SecretBackend) (name : string) (m : gmap string string) : res string * gmap string string :=
  match m !! name with
  | Some val => (Ok val, m)
  | None =>
      match first_found backends name with
      | Err e => (Err e, m)
      | Ok (Some val) => (Ok val, <[name := val]> m)
      | Ok None =>
          (Err (Msg ("secret " ++ quote name ++ " not found (tried: " ++ String.concat ", " (Name <$> backends) ++ ")")), m)
      end
  end.

(** [secretNamePattern]: the name of a match that starts here, as long as possible. *)
Definition is_name_char (c : ascii) : bool :=
  let n := nat_of_ascii c in
  ((97 <=? n) && (n <=? 122) || (65 <=? n) && (n <=? 90) || (48 <=? n) && (n <=? 57))%nat ||
  bool_decide (c = "_" \/ c = "." \/ c = "/" \/ c = "-")%char.
Fixpoint name_run (s : string) : string :=
  match s with
  | String c s' => if is_name_char c then String c (name_run s') else ""
  | EmptyString => ""
  end.
Definition marker : string := "$secret:".
Definition match_here (s : string) : option string :=
  if has_prefix s marker then
    let name := name_run (str_drop (String.length marker) s) in if bool_decide (name = "") then None else Some name
  else None.

(** One call of the replacement function. *)
Definition replace_ref (backends : list SecretBackend) (name : string) (st : option goerror * gmap string string)
    : string * (option goerror * gmap string string) :=
  match st with
  | (Some e, m) => (marker ++ name, (Some e, m))
  | (None, m) =>
      match Resolve backends name m with
      | (Ok val, m') => (val, (None, m'))
      | (Err e, m') => (marker ++ name, (Some e, m'))
      end
  end.

(** [ReplaceAllStringFunc]: matches from left to right, each after the one before. *)
Fixpoint replace_refs (backends : list SecretBackend) (skip : nat) (s : string) (st : option goerror * gmap string string)
    : string * (option goerror * gmap string string) :=
  match s with
  | EmptyString => ("", st)
  | String c s' =>
      match skip with
      | S k => replace_refs backends k s' st
      | O =>
          match match_here s with
          | Some name =>
              let '(v, st1) := replace_ref backends name st in
              let '(r, st2) := replace_refs backends (pred (String.length (marker ++ name))) s' st1 in (v ++ r, st2)
          | None => let '(r, st1) := replace_refs backends 0 s' st in (String c r, st1)
          end
      end
  end.

Definition ResolveAllInString (backends : list SecretBackend) (s : string) (m : gmap string string) : res string * gmap string string :=
  match replace_refs backends 0 s (None, m) with
  | (_, (Some e, m')) => (Err e, m')
  | (r, (None, m')) => (Ok r, m')
  end.

(** [order]: the values of the cache in the order the map is ranged over. *)
Definition MaskSecrets `{!SliceSort} (order : list string) (s : string) : string :=
  match order with
  | [] => s
  | _ =>
      let values := filter (fun v => (3 <= String.length v)%nat) order in
      foldl (fun s v => ReplaceAll s v "[REDACTED]") s
        (sort_slice (fun a b => (String.length b <? String.length a)%nat) values)
  end.

(** [Snapshot]: a copy. *)
Definition Snapshot (m : gmap string string) : gmap string string := m.

(** ** YAML trees *)
Section children.
Context (visit : node -> gmap string string -> res node * gmap string string).
Fixpoint each_child (l : list node) (m : gmap string string) : res (list node) * gmap string string :=
  match l with
  | [] => (Ok [], m)
  | x :: l' =>
      match visit x m with
      | (Err e, m1) => (Err e, m1)
      | (Ok x', m1) =>
          match each_child l' m1 with
          | (Err e, m2) => (Err e, m2)
          | (Ok l'', m2) => (Ok (x' :: l''), m2)
          end
      end
  end.
End children.

Fixpoint walkSecretNodes (backends : list SecretBackend) (n : node) (m : gmap string string) : res node * gmap string string :=
  match n with
  | Node kind tag value style line column content =>
      match kind with
      | ScalarNode =>
          if negb (bool_decide (tag = "" \/ tag = "!!str")) || negb (contains value marker) then (Ok n, m)
          else
            match ResolveAllInString backends value m with
            | (Err e, m') => (Err (Wrapf ("line " ++ itoa line ++ " col " ++ itoa column ++ ": ") e ""), m')
            | (Ok v, m') => (Ok (Node kind tag v style line column content), m')
            end
      | DocumentNode | MappingNode | SequenceNode =>
          match each_child (walkSecretNodes backends) content m with
          | (Err e, m') => (Err e, m')
          | (Ok c, m') => (Ok (Node kind tag value style line column c), m')
          end
      | AliasNode => (Ok n, m)
      end
  end.

Definition ResolveSecretsInBytes `{!Yaml} (backends : list SecretBackend) (data : string) (m : gmap string string) : res string * gmap string string :=
  if bool_decide (data = "") || negb (contains data marker) then (Ok data, m)
  else
    match Unmarshal data with
    | Err e => (Err (Wrapf "parsing YAML for secret resolution: " e ""), m)
    | Ok doc =>
        match walkSecretNodes backends doc m with
        | (Err e, m') => (Err e, m')
        | (Ok doc', m') =>
            match Encode doc' with
            | Err e => (Err (Wrapf "re-encoding YAML after secret resolution: " e ""), m')
            | Ok text =>
                match CloseEncoder with
                | Some e => (Err (Wrapf "closing YAML encoder: " e ""), m')
                | None => (Ok text, m')
                end
            end
        end
    end.

(** What both loaders of configuration ([LoadConfig], [LoadProjectFile]) do
    with the text of the file at [path] before it is parsed. *)
Definition load_text `{!Yaml} (path : string) (env : gmap string string) (backends : list SecretBackend)
    (data : string) : res string :=
  match ExpandConfigBytes env data with
  | Err e => Err (Wrapf ("expanding env vars in " ++ path ++ ": ") e "")
  | Ok expanded =>
      match (ResolveSecretsInBytes backends expanded ∅).1 with
      | Err e => Err (Wrapf ("resolving secrets in " ++ path ++ ": ") e "")
      | Ok text => Ok text
      end
  end.

(** ** Texts with references, as they are read

    The pieces of a text: bytes, and references with names as long as they can be. *)
Inductive piece :=
| Text (c : ascii)
| Ref (name : string).

Definition render_piece (p : piece) : string := match p with Text c => String c "" | Ref name => marker ++ name end.
Fixpoint render (ps : list piece) : string := match ps with [] => "" | p :: ps' => render_piece p ++ render ps' end.

(** No reference starts at a byte of text, and a name is not followed by more of it. *)
Fixpoint well_read (ps : list piece) : Prop :=
  match ps with
  | [] => True
  | p :: ps' => match_here (render ps) = match p with Text _ => None | Ref name => Some name end /\ well_read ps'
  end.

Fixpoint pieces (skip : nat) (s : string) : list piece :=
  match s with
  | EmptyString => []
  | String c s' =>
      match skip with
      | S k => pieces k s'
      | O =>
          match match_here s with
          | Some name => Ref name :: pieces (pred (String.length (marker ++ name))) s'
          | None => Text c :: pieces 0 s'
          end
      end
  end.

(** What a piece stands for when the names' values are known. *)
Definition value (m : gmap string string) (p : piece) : string :=
  match p with Text c => String c "" | Ref name => default "" (m !! name) end.
Fixpoint fill (m : gmap string string) (ps : list piece) : string :=
  match ps with [] => "" | p :: ps' => value m p ++ fill m ps' end.

(** ** Names and matches *)
Lemma name_run_spec s : exists rest, s = name_run s ++ rest /\ name_run rest = "".
Proof.
  induction s as [|c s IH]; [by exists ""|]. simpl. destruct (is_name_char c) eqn:E.
  - destruct IH as (rest & IH & Hr). exists rest. rewrite append_cons, <- IH. done.
  - exists (String c s). simpl. by rewrite E.
Qed.

Lemma name_run_byte s c : contains_byte (name_run s) c = true -> is_name_char c = true.
Proof.
  induction s as [|d s IH]; [done|]. simpl. destruct (is_name_char d) eqn:E; [|done]. simpl.
  intros [H|H]%orb_true_iff; [|by apply IH]. apply bool_decide_eq_true in H. by subst.
Qed.

Lemma match_here_spec s name : match_here s = Some name ->
  exists rest, s = (marker ++ name) ++ rest /\ name <> "" /\ name = name_run (name ++ rest).
Proof.
  unfold match_here. destruct (has_prefix s marker) eqn:E; [|done]. apply has_prefix_spec in E as [u ->].
  rewrite str_drop_append. cbv zeta. case_bool_decide as Hn; [done|]. intros [= <-].
  destruct (name_run_spec u) as (rest & E & _). exists rest. rewrite append_assoc, <- E. done.
Qed.

Lemma pieces_skip p t : pieces (String.length p) (p ++ t) = pieces 0 t.
Proof. induction p as [|c p IH]; [done|]. rewrite append_cons. exact IH. Qed.

Lemma marker_cons name : marker ++ name = String "$" ("secret:" ++ name).
Proof. done. Qed.

(** Reading a text: one piece, then the rest. *)
Lemma pieces_ind (P : string -> list piece -> Prop) :
  P "" [] ->
  (forall c s ps, match_here (String c s) = None -> P s ps -> P (String c s) (Text c :: ps)) ->
  (forall name rest ps, match_here ((marker ++ name) ++ rest) = Some name -> P rest ps ->
     P ((marker ++ name) ++ rest) (Ref name :: ps)) ->
  forall s, P s (pieces 0 s).
Proof.
  intros H0 Ht Hr s. induction s as [s IH] using (induction_ltof1 _ String.length). unfold ltof in IH.
  destruct s as [|c s]; [done|]. cbn [pieces]. destruct (match_here (String c s)) as [name|] eqn:E.
  - destruct (match_here_spec _ _ E) as (rest & Es & _ & _). rewrite Es in E. rewrite Es.
    assert (s = ("secret:" ++ name) ++ rest) as ->.
    { rewrite marker_cons, append_cons in Es. by injection Es. }
    change (pred (String.length (marker ++ name))) with (String.length ("secret:" ++ name)). rewrite pieces_skip.
    apply Hr; [done|]. apply IH. simpl. rewrite length_append. lia.
  - apply Ht; [done|]. apply IH. simpl. lia.
Qed.

Lemma pieces_read s : render (pieces 0 s) = s /\ well_read (pieces 0 s).
Proof.
  revert s. apply (pieces_ind (fun s ps => render ps = s /\ well_read ps)).
  - done.
  - intros c s ps E [<- Hw]. split; [done|]. split; [exact E|done].
  - intros name rest ps E [<- Hw]. split; [done|]. split; [exact E|done].
Qed.

Lemma well_read_pieces ps : well_read ps -> pieces 0 (render ps) = ps.
Proof.
  induction ps as [|[c|name] ps IH]; [done|intros [E Hw]..]; cbn [render render_piece] in *.
  - rewrite append_cons, append_nil_l in *. cbn [pieces]. by rewrite E, IH.
  - rewrite marker_cons, append_cons in *. cbn [pieces]. rewrite E.
    change (pred (String.length (marker ++ name))) with (String.length ("secret:" ++ name)). by rewrite pieces_skip, IH.
Qed.

(** ** Replacement, piece by piece *)
Section replacement.
Context (backends : list SecretBackend).

Fixpoint run (ps : list piece) (st : option goerror * gmap string string) : string * (option goerror * gmap string string) :=
  match ps with
  | [] => ("", st)
  | p :: ps' =>
      let '(v, st1) := match p with Text c => (String c "", st) | Ref name => replace_ref backends name st end in
      let '(r, st2) := run ps' st1 in (v ++ r, st2)
  end.

Lemma replace_refs_skip p t st : replace_refs backends (String.length p) (p ++ t) st = replace_refs backends 0 t st.
Proof. induction p as [|c p IH]; [done|]. rewrite append_cons. exact IH. Qed.

Lemma replace_refs_run s : forall st, replace_refs backends 0 s st = run (pieces 0 s) st.
Proof.
  revert s. apply (pieces_ind (fun s ps => forall st, replace_refs backends 0 s st = run ps st)).
  - done.
  - intros c s ps E IH st. cbn [replace_refs run]. rewrite E, IH. by destruct (run ps st).
  - intros name rest ps E IH st. rewrite marker_cons, append_cons in *. cbn [replace_refs run]. rewrite E.
    destruct (replace_ref backends name st) as [v st1].
    change (pred (String.length (marker ++ name))) with (String.length ("secret:" ++ name)).
    by rewrite replace_refs_skip, IH.
Qed.

Lemma run_failed ps e m : exists r, run ps (Some e, m) = (r, (Some e, m)).
Proof.
  induction ps as [|[c|name] ps [r IH]]; [by eexists|..]; cbn [run replace_ref]; rewrite IH; by eexists.
Qed.

Lemma Resolve_grows name m m' r : Resolve backends name m = (r, m') ->
  m ⊆ m' /\
  match r with
  | Ok v => m' !! name = Some v /\
            forall k w, m' !! k = Some w -> m !! k = Some w \/ k = name /\ first_found backends name = Ok (Some w)
  | Err _ => m' = m /\ m !! name = None
  end.
Proof.
  unfold Resolve. destruct (m !! name) as [v|] eqn:E; [|destruct (first_found backends name) as [[v|]|e] eqn:Ef];
    intros [= <- <-]; try done.
  - split; [done|]. split; [done|]. by left.
  - split; [by apply insert_subseteq|]. split; [by rewrite lookup_insert_eq|]. intros k w Hk.
    destruct (decide (k = name)) as [->|]; [|rewrite lookup_insert_ne in Hk by done; by left].
    rewrite lookup_insert_eq in Hk. injection Hk as ->. by right.
Qed.

(** The outcome of a text's pieces, read against the names known at the end. *)
Definition outcome (ps : list piece) (m m' : gmap string string) (e : option goerror) (r : string) : Prop :=
  m ⊆ m' /\
  (forall k w, m' !! k = Some w -> m !! k = Some w \/ Ref k ∈ ps /\ first_found backends k = Ok (Some w)) /\
  match e with
  | None => r = fill m' ps /\ forall k, Ref k ∈ ps -> is_Some (m' !! k)
  | Some err =>
      exists before name after, ps = (before ++ Ref name :: after)%list /\ (forall k, Ref k ∈ before -> is_Some (m' !! k)) /\
        m' !! name = None /\ (Resolve backends name m').1 = Err err
  end.

Lemma fill_mono m m' ps : m ⊆ m' -> (forall k, Ref k ∈ ps -> is_Some (m !! k)) -> fill m ps = fill m' ps.
Proof.
  intros Hm. induction ps as [|[c|name] ps IH]; intros Hk; [done|..]; simpl.
  - rewrite IH; [done|]. intros k Hin. apply Hk. by right.
  - rewrite IH by (intros k Hin; apply Hk; by right). f_equal.
    destruct (Hk name ltac:(by left)) as [v Hv]. rewrite Hv. by rewrite (lookup_weaken _ _ _ _ Hv Hm).
Qed.

Lemma run_outcome ps m r e m' : run ps (None, m) = (r, (e, m')) -> outcome ps m m' e r.
Proof.
  revert m r. induction ps as [|[c|name] ps IH]; intros m r; cbn [run].
  - intros [= <- <- <-]. split; [done|]. split; [by left|]. split; [done|]. intros k Hk. by apply not_elem_of_nil in Hk.
  - destruct (run ps (None, m)) as [r1 [e1 m1]] eqn:E. intros [= <- -> ->]. destruct (IH _ _ E) as (Hm & Hn & He).
    split; [done|]. split; [intros k w Hk; destruct (Hn k w Hk) as [|[Hin ?]]; [by left|right; split; [by right|done]]|].
    destruct e as [err|].
    + destruct He as (b & n & a & -> & Hb & Hrest). exists (Text c :: b), n, a. split; [done|]. split; [|done].
      intros k Hk. apply list_elem_of_In in Hk as [Hk|Hk]; [done|]. apply Hb. by apply list_elem_of_In.
    + destruct He as [-> Hk]. split; [done|]. intros k Hin. apply Hk. apply list_elem_of_In in Hin as [Hin|Hin]; [done|].
      by apply list_elem_of_In.
  - cbn [replace_ref]. destruct (Resolve backends name m) as [[v|err] m1] eqn:ER.
    + destruct (Resolve_grows _ _ _ _ ER) as (H1 & Hv & Hn1).
      destruct (run ps (None, m1)) as [r1 [e1 m2]] eqn:E. intros [= <- -> ->]. destruct (IH _ _ E) as (Hm & Hn & He).
      split; [by transitivity m1|]. split.
      { intros k w Hk. destruct (Hn k w Hk) as [H|[Hin ?]]; [|right; split; [by right|done]].
        destruct (Hn1 k w H) as [|[-> ?]]; [by left|]. right. split; [by left|done]. }
      pose proof (lookup_weaken _ _ _ _ Hv Hm) as Hv'. destruct e as [err|].
      * destruct He as (b & n & a & -> & Hb & Hrest). exists (Ref name :: b), n, a. split; [done|]. split; [|done].
        intros k Hk. apply list_elem_of_In in Hk as [[= <-]|Hk]; [by eexists|]. apply Hb. by apply list_elem_of_In.
      * destruct He as [-> Hk]. split; [simpl; by rewrite Hv'|]. intros k Hin.
        apply list_elem_of_In in Hin as [[= <-]|Hin]; [by eexists|]. apply Hk. by apply list_elem_of_In.
    + destruct (Resolve_grows _ _ _ _ ER) as (_ & -> & Hnone). destruct (run_failed ps err m) as [r1 ->].
      intros [= <- <- <-]. split; [done|]. split; [by left|]. exists [], name, ps. split; [done|].
      split; [intros k Hk; by apply not_elem_of_nil in Hk|]. split; [done|]. by rewrite ER.
Qed.
End replacement.

(** A text is read in one way as bytes and references with names as long as
    they can be. When all of these can be resolved, the result is the text with each
    reference replaced by its name's value, which is not looked at again; a name
    keeps the value it was first given, and new values are what the first
    backend that knows the name says. Otherwise the error is that of the first
    reference that has no value, and all before it are known. *)
Theorem references_replaced backends s m :
  exists ps, render ps = s /\ well_read ps /\ (forall qs, render qs = s -> well_read qs -> qs = ps) /\
    match ResolveAllInString backends s m with
    | (Ok r, m') => outcome backends ps m m' None r
    | (Err e, m') => outcome backends ps m m' (Some e) ""
    end.
Proof.
  destruct (pieces_read s) as [Hr Hw]. exists (pieces 0 s). split; [done|]. split; [done|]. split.
  { intros qs <- Hq. symmetry. by apply well_read_pieces. }
  unfold ResolveAllInString. rewrite replace_refs_run. destruct (run backends (pieces 0 s) (None, m)) as [r [e m']] eqn:E.
  apply run_outcome in E. by destruct e.
Qed.

(** ** Occurrences *)
(** A prefix without a byte ends before the first one. *)
Lemma has_prefix_cut p c t v : contains_byte v c = false -> has_prefix (p ++ String c t) v = true -> has_prefix p v = true.
Proof.
  intros Hv [rest E]%has_prefix_spec. apply has_prefix_spec. revert v Hv E. induction p as [|d p IH]; intros [|b v] Hv E.
  - by exists "".
  - rewrite append_nil_l, append_cons in E. injection E as <- _. simpl in Hv. by rewrite bool_decide_true in Hv.
  - by exists (String d p).
  - rewrite !append_cons in E. injection E as <- E. simpl in Hv. apply orb_false_iff in Hv as [_ Hv].
    destruct (IH v Hv E) as [r ->]. by exists r.
Qed.

(** A value without a byte occurs before or after each place where it stands. *)
Lemma contains_cut p c t v : v <> "" -> contains_byte v c = false ->
  contains (p ++ String c t) v = true -> contains p v = true \/ contains t v = true.
Proof.
  intros Hne Hv. induction p as [|d p IH].
  - rewrite append_nil_l, contains_cons. intros [H|H]%orb_true_iff; [|by right].
    apply (has_prefix_cut "" c t v Hv), has_prefix_spec in H as [r E]. by destruct v.
  - rewrite append_cons, !contains_cons. intros [H|H]%orb_true_iff.
    + left. by rewrite (has_prefix_cut (String d p) c t v Hv H).
    + destruct (IH H) as [->|]; [left; apply orb_true_r|by right].
Qed.

Definition mask : string := "[REDACTED]".
(** A value that a mask neither contains nor touches. *)
Definition apart (v : string) : Prop :=
  v <> "" /\ contains_byte v "[" = false /\ contains_byte v "]" = false /\ contains "REDACTED" v = false.

Lemma contains_mask p t v : apart v -> contains (p ++ mask ++ t) v = true -> contains p v = true \/ contains t v = true.
Proof.
  intros (Hne & Ho & Hc & Hr) H. change (mask ++ t) with (String "[" ("REDACTED" ++ String "]" t)) in H.
  destruct (contains_cut p _ _ v Hne Ho H) as [|H']; [by left|].
  destruct (contains_cut "REDACTED" _ t v Hne Hc H') as [H''|]; [congruence|by right].
Qed.

(** ** Replacing *)
Lemma ReplaceAll_gone v s : apart v -> contains (ReplaceAll s v mask) v = false.
Proof.
  intros Ha. apply (ReplaceAll_ind v mask (fun _ r => contains r v = false)); [by destruct Ha|done|].
  intros p t r Hp Hr. apply not_true_iff_false. intros [H|H]%contains_mask; [congruence..|done].
Qed.

Lemma ReplaceAll_absent old v s : old <> "" -> apart v -> contains s v = false -> contains (ReplaceAll s old mask) v = false.
Proof.
  intros Ho Ha. apply (ReplaceAll_ind old mask (fun s r => contains s v = false -> contains r v = false)); [done..|].
  intros p t r Hp IH Hs. apply not_true_iff_false. intros [H|H]%contains_mask; [..|done].
  - apply (contains_sub "" (old ++ t)) in H. rewrite append_nil_l in H. congruence.
  - rewrite IH in H; [done|]. apply not_true_iff_false. intros Ht. apply (contains_sub (p ++ old) "") in Ht.
    rewrite append_empty, append_assoc in Ht. congruence.
Qed.

Lemma masks_absent l v s : Forall (fun o => o <> "") l -> apart v -> contains s v = false ->
  contains (foldl (fun s o => ReplaceAll s o mask) s l) v = false.
Proof.
  intros Hl Ha. revert s. induction Hl as [|o l Ho Hl IH]; intros s Hs; [done|]. simpl. apply IH. by apply ReplaceAll_absent.
Qed.

Lemma masks_gone l v s : Forall (fun o => o <> "") l -> apart v -> v ∈ l ->
  contains (foldl (fun s o => ReplaceAll s o mask) s l) v = false.
Proof.
  intros Hl Ha Hv. revert s. induction Hl as [|o l Ho Hl IH]; intros s; [by apply not_elem_of_nil in Hv|].
  simpl. apply list_elem_of_In in Hv as [->|Hv]; [|apply IH; by apply list_elem_of_In].
  apply masks_absent; [done..|]. by apply ReplaceAll_gone.
Qed.

Section masking.
Context `{sorting : !SliceSort}.

Definition masked_values (order : list string) : list string :=
  sort_slice (fun a b => (String.length b <? String.length a)%nat) (filter (fun v => (3 <= String.length v)%nat) order).

Lemma masked_values_in order v : v ∈ masked_values order <-> v ∈ order /\ (3 <= String.length v)%nat.
Proof. unfold masked_values. rewrite (sort_slice_perm string), list_elem_of_filter. tauto. Qed.

Lemma MaskSecrets_fold order s : MaskSecrets order s = foldl (fun s o => ReplaceAll s o mask) s (masked_values order).
Proof.
  destruct order as [|o order]; [|done]. unfold masked_values. simpl.
  replace (sort_slice _ _) with (@nil string); [done|]. symmetry. by apply sort_slice_nil.
Qed.

Lemma masked_values_long order : Forall (fun o => o <> "") (masked_values order).
Proof. apply Forall_forall. intros v [_ Hl]%masked_values_in ->. simpl in Hl. lia. Qed.

(** C32. Whatever order the cache is ranged over in and however its values are
    sorted, no value of at least three bytes is left in a masked text, save one
    that has a bracket or lies in the word of the mask; and a text in which no
    such value occurs is not changed. *)
Theorem secrets_masked (m : gmap string string) order s :
  order ≡ₚ (map_to_list m).*2 ->
  (forall name v, m !! name = Some v -> (3 <= String.length v)%nat -> contains_byte v "[" = false -> contains_byte v "]" = false ->
     contains "REDACTED" v = false -> contains (MaskSecrets order s) v = false) /\
  ((forall name v, m !! name = Some v -> (3 <= String.length v)%nat -> contains s v = false) -> MaskSecrets order s = s).
Proof.
  intros Ho. assert (forall v, v ∈ order <-> exists name, m !! name = Some v) as Hin.
  { intros v. rewrite Ho, list_elem_of_fmap. split.
    - intros ([k w] & -> & Hkw). exists k. by apply elem_of_map_to_list.
    - intros [k H]. exists (k, v). by rewrite elem_of_map_to_list. }
  rewrite MaskSecrets_fold. split.
  - intros name v Hm Hl H1 H2 H3. apply masks_gone; [apply masked_values_long| |].
    + split; [by intros ->; simpl in Hl; lia|done].
    + apply masked_values_in. split; [|done]. apply Hin. by exists name.
  - intros Hs. assert (Forall (fun o => o <> "" /\ contains s o = false) (masked_values order)) as HF.
    { apply Forall_forall. intros v Hv. apply masked_values_in in Hv as [[name Hm]%Hin Hl]. split; [|by apply (Hs name)].
      intros ->. simpl in Hl. lia. }
    clear -HF. induction HF as [|o l [Ho Hc] _ IH]; [done|]. simpl. by rewrite (ReplaceAll_same o mask s Ho Hc).
Qed.
End masking.

(** ** Files *)

Lemma no_line_break s c : index_byte s c = None -> contains_byte s c = false.
Proof.
  induction s as [|d s IH]; [done|]. simpl. case_bool_decide; [done|]. destruct (index_byte s c); [done|]. by intros _; apply IH.
Qed.

(** A secret read from a file is the first line of a file below the place
    that the secrets' directory leads to, whatever links there are in the tree. *)
Theorem secret_file_confined t dir name v root :
  Access.walk t 255 [] (Split Separator dir) = Ok root -> FileResolve t dir name = Ok (Some v) ->
  exists loc content perm, root `prefix_of` loc /\ t !! loc = Some (Access.NFile content perm) /\
    v = first_line content /\ contains_byte v "010" = false.
Proof.
  intros Hroot. unfold FileResolve. destruct (has_prefix name "op://"); [done|]. destruct (_ || contains name "\"); [done|].
  set (outside := match Access.EvalSymlinks t (Join dir name) with Ok _ => _ | Err _ => _ end).
  cbv zeta. destruct outside eqn:Eo; [done|]. unfold outside in Eo. clear outside.
  unfold ReadFile. destruct (Access.walk t Access.MAXSYMLINKS [] _) as [loc|e] eqn:Ew; [|by destruct (Access.IsNotExist e)].
  destruct (Access.node_at t loc) as [[content perm| |]|] eqn:En; try done. intros [= <-].
  apply (Access.walk_mono t _ 255) in Ew; [|unfold Access.MAXSYMLINKS; lia].
  exists loc, content, perm. split; [|split; [by destruct loc|split; [done|]]].
  - assert (Access.EvalSymlinks t dir = Ok (abs_path root)) as Ed by (unfold Access.EvalSymlinks; by rewrite Hroot).
    assert (Access.EvalSymlinks t (Join dir name) = Ok (abs_path loc)) as Ep by (unfold Access.EvalSymlinks; by rewrite Ew).
    rewrite Ed, Ep in Eo. destruct (Access.EvalSymlinks_plain _ _ _ Ed) as (l1 & E1 & H1 & _).
    destruct (Access.EvalSymlinks_plain _ _ _ Ep) as (l2 & E2 & H2 & _).
    rewrite Hroot in E1. rewrite Ew in E2. injection E1 as <-. injection E2 as <-.
    destruct (decide (root = [])) as [->|Hne]; [by exists loc|]. apply under_prefix; [done..|]. unfold under.
    apply andb_false_iff in Eo as [Eo|Eo]; apply negb_false_iff in Eo; rewrite Eo; [apply orb_true_r|done].
  - unfold first_line. destruct (index_byte content "010") as [i|] eqn:Ei.
    + apply index_byte_spec in Ei as (p & w & -> & <- & Hp). by rewrite str_take_append.
    + by apply no_line_break.
Qed.

(** ** Trees *)
Lemma node_rect_all (P : node -> Prop) :
  (forall kind tag value style line column content, Forall P content -> P (Node kind tag value style line column content)) ->
  forall n, P n.
Proof.
  intros Hn. fix IH 1. intros [kind tag value style line column content]. apply Hn.
  induction content as [|x content IHc]; constructor; [apply IH|apply IHc].
Qed.

(** The tree without the values of its scalars. *)
Fixpoint skeleton (n : node) : node :=
  match n with
  | Node kind tag value style line column content =>
      Node kind tag (match kind with ScalarNode => "" | _ => value end) style line column (map skeleton content)
  end.

(** Neither the variables nor the secrets put into a configuration file can
    change its structure: both walks keep every node, its kind and its tag, and
    replace the values of scalars only. *)
Theorem structure_kept env backends n :
  (forall n', walkNodes env n = Ok n' -> skeleton n' = skeleton n) /\
  (forall m n' m', walkSecretNodes backends n m = (Ok n', m') -> skeleton n' = skeleton n).
Proof.
  induction n as [kind tag value style line column content IH] using node_rect_all.
  assert (forall c', EnvSubst.each_child (walkNodes env) content = Ok c' -> map skeleton c' = map skeleton content) as Hvars.
  { clear -IH. induction IH as [|x l [Hx _] _ IHl]; intros c'; simpl; [by intros [= <-]|].
    destruct (walkNodes env x) as [x'|]; [|done]. simpl. destruct (EnvSubst.each_child _ l) as [l'|]; [|done].
    intros [= <-]. simpl. by rewrite (Hx x' eq_refl), (IHl l' eq_refl). }
  assert (forall m c' m', each_child (walkSecretNodes backends) content m = (Ok c', m') ->
    map skeleton c' = map skeleton content) as Hsecrets.
  { clear -IH. induction IH as [|x l [_ Hx] _ IHl]; intros m c' m'; simpl; [by intros [= <- _]|].
    destruct (walkSecretNodes backends x m) as [[x'|] m1] eqn:Ex; [|done].
    destruct (each_child _ l m1) as [[l'|] m2] eqn:El; [|done].
    intros [= <- _]. simpl. by rewrite (Hx _ _ _ Ex), (IHl _ _ _ El). }
  split.
  - intros n'. destruct kind; cbn [walkNodes]; [| | | |by intros [= <-]].
    { destruct (expands _ _ _ _); [|by intros [= <-]]. destruct (ExpandEnvVars env value); [|done]. by intros [= <-]. }
    all: destruct (EnvSubst.each_child (walkNodes env) content) as [c'|]; [|done]; intros [= <-]; simpl; by rewrite (Hvars c').
  - intros m n' m'. destruct kind; cbn [walkSecretNodes]; [| | | |by intros [= <- _]].
    { destruct (_ || _); [by intros [= <- _]|]. destruct (ResolveAllInString backends value m) as [[v|] m1]; [|done]. by intros [= <- _]. }
    all: destruct (each_child (walkSecretNodes backends) content m) as [[c'|] m1] eqn:E; [|done];
      intros [= <- _]; simpl; by rewrite (Hsecrets _ _ _ E).
Qed.

(** ** 1Password *)
Lemma piece_names s name : Ref name ∈ pieces 0 s -> contains_byte name ":" = false.
Proof.
  revert s. apply (pieces_ind (fun s ps => Ref name ∈ ps -> contains_byte name ":" = false)).
  - intros H. by apply not_elem_of_nil in H.
  - intros c s ps _ IH [H|H]%list_elem_of_In; [done|]. by apply IH, list_elem_of_In.
  - intros name' rest ps E IH [[= ->]|H]%list_elem_of_In; [|by apply IH, list_elem_of_In].
    apply match_here_spec in E as (u & E & _ & ->). apply not_true_iff_false. by intros H%name_run_byte.
Qed.

Lemma Resolve_without_op env t dir op op' name m : contains_byte name ":" = false ->
  Resolve (default_backends env t dir op) name m = Resolve (default_backends env t dir op') name m.
Proof.
  intros Hn. assert (forall o, OpResolve o name = Ok None) as Ho.
  { intros [read|]; [|done]. unfold OpResolve. destruct (has_prefix name "op://") eqn:E; [|done].
    apply has_prefix_spec in E as [r ->]. done. }
  unfold Resolve. destruct (m !! name); [done|]. simpl. rewrite !Ho. done.
Qed.

(** References in a configuration never reach 1Password, though its backend is
    in the chain: the pattern of a name has no colon, so that the name in
    [$secret:op://vault/item/field] is [op]. *)
Theorem op_never_asked env t dir op op' s m :
  ResolveAllInString (default_backends env t dir op) s m = ResolveAllInString (default_backends env t dir op') s m.
Proof.
  unfold ResolveAllInString. rewrite !replace_refs_run.
  assert (forall name, Ref name ∈ pieces 0 s -> contains_byte name ":" = false) as Hn by apply piece_names.
  assert (forall st, run (default_backends env t dir op) (pieces 0 s) st = run (default_backends env t dir op') (pieces 0 s) st) as ->;
    [|done].
  induction (pieces 0 s) as [|p ps IH]; intros st; [done|]. cbn [run].
  assert (match p with Text c => (String c "", st) | Ref name => replace_ref (default_backends env t dir op) name st end =
    match p with Text c => (String c "", st) | Ref name => replace_ref (default_backends env t dir op') name st end) as ->.
  { destruct p as [c|name]; [done|]. destruct st as [[e|] m']; [done|]. cbn [replace_ref].
    by rewrite (Resolve_without_op env t dir op op' name m' (Hn name ltac:(by left))). }
  destruct (match p with Text c => _ | Ref name => _ end) as [v st1]. rewrite IH; [done|]. intros name Hin. apply Hn. by right.
Qed.

(** The field of a reference to 1Password is not in what is reported. *)
Theorem op_field_hidden vault item field :
  contains_byte vault "/" = false -> contains_byte item "/" = false -> vault <> "" -> item <> "" ->
  redactOpURI ("op://" ++ vault ++ "/" ++ item ++ "/" ++ field) = "op://" ++ vault ++ "/" ++ item ++ "/***".
Proof.
  intros Hv Hi H1 H2. unfold redactOpURI. rewrite (proj2 (has_prefix_spec _ "op://")) by (by eexists). simpl negb. cbv iota.
  change (str_drop 5 ("op://" ++ vault ++ "/" ++ item ++ "/" ++ field))
    with (str_drop (String.length "op://") ("op://" ++ vault ++ "/" ++ item ++ "/" ++ field)). rewrite str_drop_append.
  change ("/" ++ item ++ "/" ++ field) with (String "/" (item ++ String "/" field)).
  rewrite (Types.split_n_cut 1 vault) by done. rewrite (Types.split_n_cut 0 item) by done. simpl.
  rewrite bool_decide_false by (by intros [|]). done.
Qed.

(** ** Runs *)
#[local] Existing Instance InsertionSort.insertion_SliceSort.

(** A file that is one string. *)
Definition one_scalar : Yaml := {|
  Unmarshal text := Ok (Node DocumentNode "" "" 0 1 1 [Node ScalarNode "!!str" text 0 1 1 []]);
  Encode doc := match doc with Node _ _ _ _ _ _ [Node _ _ text _ _ _ _] => Ok text | _ => Err (Msg "not one string") end;
  CloseEncoder := None;
|}.
Definition demo_tree : Access.tree := {[
  ["s"] := Access.NDir; ["s"; "pw"] := Access.NFile ("hunter2" ++ String "010" "old") 384;
  ["s"; "far"] := Access.NLink "/etc/key"; ["etc"] := Access.NDir; ["etc"; "key"] := Access.NFile "root" 384 ]}.
Definition demo_backends : list SecretBackend := default_backends {[ "LOOM_SECRET_API_KEY" := "k$secret:pw" ]} demo_tree "/s" None.

(** An escaped dollar does not keep a reference from being resolved: the first
    pass makes it one. Values are not resolved again. *)
Example escaped_reference_resolved :
  load_text (H := one_scalar) "loom.yaml" ∅ demo_backends "$$secret:pw and $secret:api-key" = Ok "hunter2 and k$secret:pw" /\
  (Resolve demo_backends "far" ∅).1 = Err (Wrapf "backend file: " (Msg ("secret name " ++ quote "far" ++ " resolves outside secrets directory")) "").
Proof. split; vm_compute; reflexivity. Qed.

Definition demo_cache : gmap string string := {[ "a" := "hunter"; "b" := "hunter22" ]}.
Lemma secrets_masked_witness :
  (map_to_list demo_cache).*2 ≡ₚ (map_to_list demo_cache).*2 /\
  MaskSecrets (map_to_list demo_cache).*2 "pw hunter22, not hunter" = "pw [REDACTED], not [REDACTED]" /\
  contains (MaskSecrets (map_to_list demo_cache).*2 "pw hunter22, not hunter") "hunter22" = false /\
  contains (MaskSecrets (map_to_list demo_cache).*2 "pw hunter22, not hunter") "hunter" = false /\
  MaskSecrets (map_to_list demo_cache).*2 "nothing" = "nothing".
Proof.
  destruct (secrets_masked demo_cache (map_to_list demo_cache).*2 "pw hunter22, not hunter" (Permutation_refl _)) as [Hgone _].
  destruct (secrets_masked demo_cache (map_to_list demo_cache).*2 "nothing" (Permutation_refl _)) as [_ Hsame].
  split; [reflexivity|]. split; [vm_compute; reflexivity|]. split; [|split].
  - apply (Hgone "b"); first [vm_compute; reflexivity | vm_compute; lia].
  - apply (Hgone "a"); first [vm_compute; reflexivity | vm_compute; lia].
  - assert (map_Forall (fun _ v => contains "nothing" v = false) demo_cache) as HF by (refine (bool_decide_unpack _ _); vm_compute; exact I).
    apply Hsame. intros name v Hm _. exact (HF name v Hm).
Defined.

Lemma secret_file_confined_witness :
  FileResolve demo_tree "/s" "pw" = Ok (Some "hunter2") /\
  exists loc content perm, ["s"] `prefix_of` loc /\ demo_tree !! loc = Some (Access.NFile content perm) /\
    "hunter2" = first_line content /\ contains_byte "hunter2" "010" = false.
Proof.
  split; [vm_compute; reflexivity|]. apply (secret_file_confined demo_tree "/s" "pw" "hunter2" ["s"]); vm_compute; reflexivity.
Defined.

Lemma structure_kept_witness :
  let file := Node SequenceNode "" "" 0 1 1 [Node ScalarNode "!!str" "$secret:pw" 0 1 3 []; Node ScalarNode "!!str" "${X:-[1]}" 0 2 3 []] in
  exists n', walkNodes ∅ file = Ok n' /\ skeleton n' = skeleton file /\ n' <> file.
Proof.
  eexists. split; [vm_compute; reflexivity|]. split; [|discriminate].
  eapply (proj1 (structure_kept ∅ demo_backends _)). vm_compute. reflexivity.
Defined.
End Secrets.
