(* ===== verification/Usage.v ===== *)
(** * Usage: records of tokens and costs, [internal/usage], [cli/usage_cmd.go],
    [cli/serve_usage.go] and the readers of usage in the backends

    The collector of a session, the estimate of its cost, the file of records
    that several processes append to under a lock, and the summaries that the
    command and the web page show. JSON enters as a class, as do the operations
    on floating-point numbers ([Metrics.Float64]). *)
From S2P Require Import Prelude Scanner Metrics.
Local Open Scope Z_scope.
Local Open Scope go_scope.

Module Usage.
Import Metrics Scanner.

(** ** Sessions *)
Section usage.
Context {F : Type} `{floats : !Float64 F}.

Record SessionUsage := mkSession {
  AgentName : string;
  Backend : string;
  TaskID : string;
  EpicID : string;
  InputTokens : Z;
  OutputTokens : Z;
  CacheReadTokens : Z;
  CacheWriteTokens : Z;
  EstimatedCostUSD : F;
  StartedAt : Z;
  EndedAt : Z;
  ExitCode : Z;
  Model : string;
}.

Record PricingTier := mkTier { InputPerMTok : F; OutputPerMTok : F; CacheReadPerMTok : F; CacheWritePerMTok : F }.

(** A decimal constant is the nearest number to a quotient. *)
Definition cents (n : Z) : F := f_div (f_int n) (f_int 100).
Definition claude_tier : PricingTier := mkTier (cents 300) (cents 1500) (cents 30) (cents 375).
Definition DefaultPricing : gmap string PricingTier :=
  <["claude" := claude_tier]> (<["codex" := mkTier (cents 250) (cents 1000) f_zero f_zero]>
  (<["opencode" := mkTier (cents 300) (cents 1500) f_zero f_zero]> ∅)).

Definition EstimateCost (tier : PricingTier) (u : SessionUsage) : F :=
  let mtok := f_int 40000 in
  let cost := f_mul (f_div (f_int (InputTokens u)) mtok) (InputPerMTok tier) in
  let cost := f_add cost (f_mul (f_div (f_int (OutputTokens u)) mtok) (OutputPerMTok tier)) in
  let cost := f_add cost (f_mul (f_div (f_int (CacheReadTokens u)) mtok) (CacheReadPerMTok tier)) in
  f_add cost (f_mul (f_div (f_int (CacheWriteTokens u)) mtok) (CacheWritePerMTok tier)).

(** [ParseFloat]: [strconv.ParseFloat], the value when there is no error. *)
Definition ResolvePricing (ParseFloat : string -> option F) (env : gmap string string) (backend : string) : PricingTier :=
  let tier := match DefaultPricing !! backend with Some t => t | None => claude_tier end in
  let getenv k := default ""%string (env !! k) in
  let tier :=
    match ParseFloat (getenv "LOOM_COST_PER_MTOK_INPUT"%string), getenv "LOOM_COST_PER_MTOK_INPUT"%string with
    | Some f, String _ _ => mkTier f (OutputPerMTok tier) (CacheReadPerMTok tier) (CacheWritePerMTok tier)
    | _, _ => tier
    end in
  match ParseFloat (getenv "LOOM_COST_PER_MTOK_OUTPUT"%string), getenv "LOOM_COST_PER_MTOK_OUTPUT"%string with
  | Some f, String _ _ => mkTier (InputPerMTok tier) f (CacheReadPerMTok tier) (CacheWritePerMTok tier)
  | _, _ => tier
  end.

(** ** The collector ([collector.go]) *)
Record Collector := mkCollector {
  c_backend : string;
  c_agentName : string;
  inputTokens : Z;
  outputTokens : Z;
  cacheReadTokens : Z;
  cacheWriteTokens : Z;
  seen : gset string;
}.
Definition NewCollector (backend agentName : string) : Collector := mkCollector backend agentName 0 0 0 0 ∅.

(** The numbers of one call of [Accumulate]. *)
Record StreamUsage := mkStream { in_ : Z; out : Z; cacheRead : Z; cacheWrite : Z }.

Definition Accumulate (messageID : string) (u : StreamUsage) (c : Collector) : Collector :=
  let add seen' := mkCollector (c_backend c) (c_agentName c) (add64 (inputTokens c) (in_ u)) (add64 (outputTokens c) (out u))
    (add64 (cacheReadTokens c) (cacheRead u)) (add64 (cacheWriteTokens c) (cacheWrite u)) seen' in
  if bool_decide (messageID = ""%string) then add (seen c)
  else if bool_decide (messageID ∈ seen c) then c
  else add ({[messageID]} ∪ seen c).

Definition Finalize (ParseFloat : string -> option F) (env : gmap string string) (taskID epicID : string)
    (startedAt endedAt exitCode : Z) (c : Collector) : SessionUsage :=
  let u := mkSession (c_agentName c) (c_backend c) taskID epicID (inputTokens c) (outputTokens c) (cacheReadTokens c)
    (cacheWriteTokens c) f_zero startedAt endedAt exitCode "" in
  mkSession (c_agentName c) (c_backend c) taskID epicID (inputTokens c) (outputTokens c) (cacheReadTokens c)
    (cacheWriteTokens c) (EstimateCost (ResolvePricing ParseFloat env (c_backend c)) u) startedAt endedAt exitCode "".

(** ** What the backends collect from a line of output *)
Record EventMessage := mkMessage { m_ID : string; m_Usage : option StreamUsage }.
Record StreamEvent := mkStreamEvent { ev_Message : option EventMessage; ev_Usage : option StreamUsage }.

Definition collectClaudeStreamUsage (event : option StreamEvent) (c : Collector) : Collector :=
  match event with
  | None => c
  | Some ev =>
      let messageID := match ev_Message ev with Some m => m_ID m | None => ""%string end in
      match ev_Usage ev with
      | Some u => Accumulate messageID u c
      | None =>
          match ev_Message ev with
          | Some (mkMessage _ (Some u)) => Accumulate messageID u c
          | _ => c
          end
      end
  end.

(** Both other backends: no identifier, no cached tokens. *)
Definition collectCodexStreamUsage (event : option (option StreamUsage)) (c : Collector) : Collector :=
  match event with
  | Some (Some u) => Accumulate "" (mkStream (in_ u) (out u) 0 0) c
  | _ => c
  end.
Definition collectOpenCodeStreamUsage : option (option StreamUsage) -> Collector -> Collector := collectCodexStreamUsage.

(** ** The file of records ([store.go]) *)
Record Filter := mkFilter { f_AgentName : string; f_Backend : string; f_TaskID : string; f_EpicID : string; Since : Z; Until : Z }.

Definition matchesFilter (rec : SessionUsage) (f : Filter) : bool :=
  let other (want have : string) := negb (bool_decide (want = ""%string)) && negb (bool_decide (have = want)) in
  if other (f_AgentName f) (AgentName rec) then false
  else if other (f_Backend f) (Backend rec) then false
  else if other (f_TaskID f) (TaskID rec) then false
  else if other (f_EpicID f) (EpicID rec) then false
  else if negb (IsZero (Since f)) && (StartedAt rec <? Since f) then false
  else if negb (IsZero (Until f)) && (Until f <? EndedAt rec) then false
  else true.

(** JSON of a record is one line of text that is read back. *)
Class UsageJson := {
  usage_marshal : SessionUsage -> string;
  usage_unmarshal : string -> option SessionUsage;
  usage_read_back r : usage_unmarshal (usage_marshal r) = Some r;
  usage_not_empty r : usage_marshal r <> ""%string;
  usage_one_line r : contains_byte (usage_marshal r) LF = false /\ drop_cr (usage_marshal r) = usage_marshal r;
}.
Context `{json : !UsageJson}.

Definition line_of (r : SessionUsage) : string := (usage_marshal r +:+ String LF "")%string.

(** The loop over the lines: empty ones and those that are no record are passed over. *)
Fixpoint parse_lines (f : Filter) (lines : list string) : list SessionUsage :=
  match lines with
  | [] => []
  | line :: rest =>
      if bool_decide (line = ""%string) then parse_lines f rest
      else
        match usage_unmarshal line with
        | Some rec => if matchesFilter rec f then rec :: parse_lines f rest else parse_lines f rest
        | None => parse_lines f rest
        end
  end.

(** [file]: what opening the file gives, [None] when there is none. *)
Definition Read (file : res (option string)) (f : Filter) : list SessionUsage * option goerror :=
  match file with
  | Err e => ([], Some (Wrapf "open usage file: " e ""))
  | Ok None => ([], None)
  | Ok (Some text) =>
      let '(lines, err) := scan text in
      (parse_lines f lines, match err with Some e => Some (Wrapf "read usage file: " e "") | None => None end)
  end.

(** Appending, as processes do it: under the exclusive lock of the file, with
    any number of system calls for one record. [taken] notes, for each append
    that has had the lock, how much of its line is in the file. *)
Record disk := mkDisk { text : string; holder : option (nat * string); taken : list (SessionUsage * string) }.
Definition new_disk : disk := mkDisk "" None [].

Inductive event :=
| Take (p : nat) (r : SessionUsage)      (** opens the file and gets the lock *)
| Put (p : nat) (k : nat)                (** [k] more bytes reach the file *)
| Release (p : nat)                      (** all is written; the lock is given back *)
| Stop (p : nat).                        (** a write fails, or the process ends; the lock is given back *)

Definition exec (e : event) (s : disk) : option disk :=
  match e, holder s with
  | Take p r, None => Some (mkDisk (text s) (Some (p, line_of r)) (taken s ++ [(r, ""%string)]))
  | Put p k, Some (q, rest) =>
      if bool_decide (p = q) then
        Some (mkDisk (text s +:+ str_take k rest) (Some (q, str_drop k rest))
          (match rev (taken s) with
           | (r, part) :: before => rev before ++ [(r, part +:+ str_take k rest)%string]
           | [] => []
           end))
      else None
  | Release p, Some (q, rest) => if bool_decide (p = q /\ rest = ""%string) then Some (mkDisk (text s) None (taken s)) else None
  | Stop p, Some (q, _) => if bool_decide (p = q) then Some (mkDisk (text s) None (taken s)) else None
  | _, _ => None
  end.
Abbreviation dstep := (fun s e s' => exec e s = Some s').

(** ** Summaries *)
Record agentUsageSummary := mkAgentSummary { a_Name : string; a_Cost : F; a_Sessions : Z; a_InputTokens : Z; a_OutputTokens : Z }.
Record backendUsageSummary := mkBackendSummary { b_Name : string; b_Cost : F; b_Sessions : Z }.
Record UsageDailyCost := mkDay { d_Date : string; d_Cost : F; d_Sessions : Z }.

Definition add_agent (a : agentUsageSummary) (rec : SessionUsage) : agentUsageSummary :=
  mkAgentSummary (a_Name a) (f_add (a_Cost a) (EstimatedCostUSD rec)) (a_Sessions a + 1)
    (add64 (a_InputTokens a) (InputTokens rec)) (add64 (a_OutputTokens a) (OutputTokens rec)).
Definition add_backend (b : backendUsageSummary) (rec : SessionUsage) : backendUsageSummary :=
  mkBackendSummary (b_Name b) (f_add (b_Cost b) (EstimatedCostUSD rec)) (b_Sessions b + 1).
Definition add_day (d : UsageDailyCost) (rec : SessionUsage) : UsageDailyCost :=
  mkDay (d_Date d) (f_add (d_Cost d) (EstimatedCostUSD rec)) (d_Sessions d + 1).

(** The entry of a record's key, made when there is none, takes the record. *)
Definition entry {S : Type} (key : SessionUsage -> string) (init : string -> S) (add : S -> SessionUsage -> S)
    (m : gmap string S) (rec : SessionUsage) : gmap string S :=
  <[key rec := add (default (init (key rec)) (m !! key rec)) rec]> m.

Definition new_agent (n : string) := mkAgentSummary n f_zero 0 0 0.
Definition new_backend (n : string) := mkBackendSummary n f_zero 0.
Definition new_day (d : string) := mkDay d f_zero 0.

Record totals := mkTotals { t_input : Z; t_output : Z; t_read : Z; t_write : Z; t_cost : F }.
Definition no_totals : totals := mkTotals 0 0 0 0 f_zero.
Definition add_totals (t : totals) (rec : SessionUsage) : totals :=
  mkTotals (add64 (t_input t) (InputTokens rec)) (add64 (t_output t) (OutputTokens rec)) (add64 (t_read t) (CacheReadTokens rec))
    (add64 (t_write t) (CacheWriteTokens rec)) (f_add (t_cost t) (EstimatedCostUSD rec)).

Record usageAggregation := mkAgg {
  Totals : totals;
  SessionCount : Z;
  ByAgent : list agentUsageSummary;
  ByBackend : list backendUsageSummary;
}.

(** [range_]: a map's values in the order they are ranged over. *)
Section summaries.
Context `{sorting : !SliceSort} (f_lt : F -> F -> bool) (range_ : forall S : Type, gmap string S -> list S).

Definition agents_of (m : gmap string agentUsageSummary) : list agentUsageSummary :=
  sort_slice (fun a b => f_lt (a_Cost b) (a_Cost a)) (range_ _ m).
Definition backends_of (m : gmap string backendUsageSummary) : list backendUsageSummary :=
  sort_slice (fun a b => f_lt (b_Cost b) (b_Cost a)) (range_ _ m).
Definition days_of (m : gmap string UsageDailyCost) : list UsageDailyCost :=
  sort_slice (fun a b => str_lt (d_Date a) (d_Date b)) (range_ _ m).

(** One loop over the records, with two maps. *)
Definition aggregateUsage (records : list SessionUsage) : usageAggregation :=
  let '(t, am, bm) := foldl (fun '(t, am, bm) rec =>
    (add_totals t rec, entry AgentName new_agent add_agent am rec, entry Backend new_backend add_backend bm rec))
    (no_totals, ∅, ∅) records in
  mkAgg t (Z.of_nat (length records)) (agents_of am) (backends_of bm).

Record UsageResponse := mkResponse {
  r_Totals : totals;
  r_SessionCount : Z;
  r_ByAgent : list agentUsageSummary;
  r_ByBackend : list backendUsageSummary;
  DailyCosts : list UsageDailyCost;
  Sessions : list SessionUsage;
}.

(** With three; [day_of] is a time's date. *)
Definition buildUsageResponse (day_of : Z -> string) (records : list SessionUsage) : UsageResponse :=
  let '(t, am, bm, dm) := foldl (fun '(t, am, bm, dm) rec =>
    (add_totals t rec, entry AgentName new_agent add_agent am rec, entry Backend new_backend add_backend bm rec,
     entry (fun r => day_of (StartedAt r)) new_day add_day dm rec))
    (no_totals, ∅, ∅, ∅) records in
  mkResponse t (Z.of_nat (length records)) (agents_of am) (backends_of bm) (days_of dm) records.

(** The web page: a bad date is refused, a read that fails is an error. The last
    day of a range counts in full. *)
Inductive answer := Page (r : UsageResponse) | Refused (status : Z) (text : string).
Definition end_of_day (t : Z) : Z := t + (24 * hour - 1).
Definition date_bound (parse_date : string -> option Z) (s : string) : option Z :=
  if bool_decide (s = ""%string) then Some zero_time else parse_date s.

Definition handleUsage (day_of : Z -> string) (parse_date : string -> option Z) (store : option (res (option string)))
    (query : string -> string) : answer :=
  match store with
  | None => Refused 503 "usage store not initialized"
  | Some file =>
      match date_bound parse_date (query "since"%string) with
      | None => Refused 400 "invalid since date format, expected YYYY-MM-DD"
      | Some since =>
          match (if bool_decide (query "until"%string = ""%string) then Some zero_time
                 else end_of_day <$> parse_date (query "until"%string)) with
          | None => Refused 400 "invalid until date format, expected YYYY-MM-DD"
          | Some until =>
              match Read file (mkFilter (query "agent"%string) (query "backend"%string) "" (query "epic"%string) since until) with
              | (_, Some _) => Refused 500 "failed to read usage data"
              | (records, None) => Page (buildUsageResponse day_of records)
              end
          end
      end
  end.
End summaries.

(** The filter of the command: [midnight] begins the day of a time, [back] goes
    back some days. *)
Definition usage_filter (parse_date : string -> option Z) (midnight : Z -> Z) (back : Z -> Z -> Z) (now : Z)
    (agent backend epic since until : string) (today week : bool) : res Filter :=
  let? s := if today then Ok (midnight now)
            else if week then Ok (back 7 (midnight now))
            else if bool_decide (since = ""%string) then Ok zero_time
            else match parse_date since with Some t => Ok t | None => Err (Msg "invalid --since date format, expected YYYY-MM-DD") end in
  let? u := if bool_decide (until = ""%string) then Ok zero_time
            else match parse_date until with Some t => Ok (end_of_day t) | None => Err (Msg "invalid --until date format, expected YYYY-MM-DD") end in
  if negb (IsZero s) && negb (IsZero u) && (u <? s) then Err (Msg "--until must be after --since")
  else Ok (mkFilter agent backend "" epic s u).

(** [formatTokenCount]: groups of three digits from the right. *)
Fixpoint grouped (fuel : nat) (s : string) : string :=
  match fuel with
  | O => ""
  | S n => if bool_decide (s = ""%string) then ""%string else (String "," (str_take 3 s) +:+ grouped n (str_drop 3 s))%string
  end.
Definition formatTokenCount (n : Z) : string :=
  let s := itoa n in
  if (String.length s <=? 3)%nat then s
  else
    let remainder := (String.length s mod 3)%nat in
    let groups := grouped (String.length s) (str_drop remainder s) in
    if (0 <? remainder)%nat then (str_take remainder s +:+ groups)%string else str_drop 1 groups.

(** ** The collector *)

(** The calls that count: those without an identifier, and the first with each. *)
Fixpoint kept (known : gset string) (calls : list (string * StreamUsage)) : list StreamUsage :=
  match calls with
  | [] => []
  | (id, u) :: rest =>
      if bool_decide (id = ""%string) then u :: kept known rest
      else if bool_decide (id ∈ known) then kept known rest
      else u :: kept ({[id]} ∪ known) rest
  end.

Definition total (f : StreamUsage -> Z) (us : list StreamUsage) : Z := foldr (fun u n => f u + n) 0 us.
Definition collect (calls : list (string * StreamUsage)) (c : Collector) : Collector :=
  foldl (fun c call => Accumulate call.1 call.2 c) c calls.

Lemma wrap64_add x y : add64 (wrap64 x) y = wrap64 (x + y).
Proof.
  unfold add64, wrap64. f_equal.
  replace ((x + 2 ^ 63) mod 2 ^ 64 - 2 ^ 63 + y + 2 ^ 63) with ((x + 2 ^ 63) mod 2 ^ 64 + y) by lia.
  rewrite Z.add_mod_idemp_l by done. f_equal. lia.
Qed.

Lemma add64_add64 x y z : wrap64 (add64 x y + z) = wrap64 (x + (y + z)).
Proof. change (add64 (wrap64 (x + y)) z = wrap64 (x + (y + z))). rewrite wrap64_add. f_equal. lia. Qed.

(** What the collector has after some calls: each message once, whatever the order
    in which several goroutines report it. *)
Lemma collect_kept calls c :
  in_int64 (inputTokens c) -> in_int64 (outputTokens c) -> in_int64 (cacheReadTokens c) -> in_int64 (cacheWriteTokens c) ->
  collect calls c =
    mkCollector (c_backend c) (c_agentName c)
      (wrap64 (inputTokens c + total in_ (kept (seen c) calls))) (wrap64 (outputTokens c + total out (kept (seen c) calls)))
      (wrap64 (cacheReadTokens c + total cacheRead (kept (seen c) calls)))
      (wrap64 (cacheWriteTokens c + total cacheWrite (kept (seen c) calls)))
      (seen c ∪ list_to_set (filter (fun id => id <> ""%string) calls.*1)).
Proof.
  revert c. induction calls as [|[id u] calls IH]; intros c H1 H2 H3 H4.
  - simpl. rewrite !Z.add_0_r, !wrap64_id by done. destruct c; simpl in *. f_equal. set_solver.
  - cbn [collect foldl kept fst snd fmap list_fmap]. change (foldl _ ?x calls) with (collect calls x). unfold Accumulate. rewrite filter_cons.
    destruct (bool_decide (id = ""%string)) eqn:E0; [|destruct (bool_decide (id ∈ seen c)) eqn:E1].
    + apply bool_decide_eq_true in E0 as ->. rewrite decide_False by (by intros []). rewrite IH by apply wrap64_in. simpl.
      f_equal; apply add64_add64.
    + apply bool_decide_eq_false in E0. apply bool_decide_eq_true in E1. rewrite decide_True by done. rewrite IH by done.
      f_equal. set_solver.
    + apply bool_decide_eq_false in E0. rewrite decide_True by done. rewrite IH by apply wrap64_in. simpl.
      f_equal; try apply add64_add64. set_solver.
Qed.

Definition consistent (calls : list (string * StreamUsage)) : Prop :=
  forall id u u', id <> ""%string -> (id, u) ∈ calls -> (id, u') ∈ calls -> u = u'.

Lemma kept_perm known calls calls' : calls ≡ₚ calls' -> consistent calls -> kept known calls ≡ₚ kept known calls'.
Proof.
  intros P. revert known. induction P as [|[id u] l l' P IH|[id u] [id' u'] l|l l' l'' P1 IH1 P2 IH2]; intros known Hc.
  - done.
  - assert (consistent l) as Hl by (intros i x y Hi Hx Hy; apply (Hc i); [done|by right..]). simpl.
    repeat case_bool_decide; [by rewrite IH|by apply IH|by rewrite IH].
  - assert (id = id' -> id <> ""%string -> u = u') as Hsame.
    { intros -> Hne. apply (Hc id'); [done|right; left|left]. }
    simpl. destruct (decide (id = id')) as [->|Hne].
    + destruct (bool_decide_reflect (id' = ""%string)) as [|He]; [apply Permutation_swap|].
      destruct (bool_decide_reflect (id' ∈ known)) as [|Hk]; [done|]. rewrite bool_decide_true by (apply elem_of_union; left; by apply elem_of_singleton).
      by rewrite Hsame.
    + assert (forall x y, x <> y -> bool_decide (x ∈ ({[y]} ∪ known : gset string)) = bool_decide (x ∈ known)) as Hu.
      { intros x y Hxy. apply bool_decide_ext. rewrite elem_of_union, elem_of_singleton. naive_solver. }
      rewrite !Hu by done. repeat destruct (bool_decide (_ = ""%string)); repeat destruct (bool_decide (_ ∈ known)); try done; try apply Permutation_swap.
      rewrite (union_assoc_L {[id]}), (union_comm_L {[id]}), <- (union_assoc_L {[id']}). apply Permutation_swap.
  - rewrite IH1 by done. apply IH2. intros i x y Hi Hx Hy. apply (Hc i); [done|by rewrite P1..].
Qed.

Lemma total_perm f us us' : us ≡ₚ us' -> total f us = total f us'.
Proof. induction 1; simpl; lia. Qed.

(** A collector has each message once: the calls without an identifier, and one
    for each identifier. The order in which goroutines report them, and how often,
    makes no difference, as long as the numbers of a message are the same. *)
Theorem collector_counts_once b a calls calls' :
  calls ≡ₚ calls' -> consistent calls ->
  collect calls (NewCollector b a) = collect calls' (NewCollector b a) /\
  inputTokens (collect calls (NewCollector b a)) = wrap64 (total in_ (kept ∅ calls)) /\
  outputTokens (collect calls (NewCollector b a)) = wrap64 (total out (kept ∅ calls)).
Proof.
  intros P Hc. rewrite !collect_kept by (simpl; int64_lia). simpl. split; [|done].
  rewrite !(total_perm _ _ _ (kept_perm ∅ _ _ P Hc)). f_equal. apply leibniz_equiv. by rewrite P.
Qed.

(** A message of a session of Claude is reported twice, when it begins with its
    identifier and when it ends without one: both are counted. *)
Theorem delta_counted_again b a id start final :
  id <> ""%string -> 0 <= in_ start + in_ final < 2 ^ 63 ->
  inputTokens (collectClaudeStreamUsage (Some (mkStreamEvent None (Some final)))
    (collectClaudeStreamUsage (Some (mkStreamEvent (Some (mkMessage id (Some start))) None)) (NewCollector b a))) =
  in_ start + in_ final.
Proof.
  intros Hid H. simpl. unfold Accumulate. rewrite (bool_decide_false (id = ""%string)) by done. simpl.
  rewrite (bool_decide_false (id ∈ ∅)) by set_solver. simpl.
  change (add64 (wrap64 (0 + in_ start)) (in_ final) = in_ start + in_ final). rewrite wrap64_add.
  rewrite Z.add_0_l. apply wrap64_id. int64_lia.
Qed.

(** ** Appends under the lock *)
Definition records_of (evs : list event) : list SessionUsage := omap (fun e => match e with Take _ r => Some r | _ => None end) evs.
Definition parts (s : disk) : string := foldr (fun e t => e.2 +:+ t)%string ""%string (taken s).
Definition starts (p t : string) : Prop := exists rest, t = (p +:+ rest)%string.
Definition whole (e : SessionUsage * string) : Prop := e.2 = line_of e.1.

Definition disk_inv (evs : list event) (s : disk) : Prop :=
  text s = parts s /\ (taken s).*1 = records_of evs /\ Forall (fun e => starts e.2 (line_of e.1)) (taken s) /\
  match holder s with
  | Some (p, rest) => exists before r part, taken s = before ++ [(r, part)] /\ line_of r = (part +:+ rest)%string /\
      (Forall (fun e => match e with Stop _ => False | _ => True end) evs -> Forall whole before)
  | None => Forall (fun e => match e with Stop _ => False | _ => True end) evs -> Forall whole (taken s)
  end.

Lemma parts_app l l' : foldr (fun (e : SessionUsage * string) t => e.2 +:+ t)%string ""%string (l ++ l') =
  (foldr (fun e t => e.2 +:+ t) "" l +:+ foldr (fun e t => e.2 +:+ t) "" l')%string.
Proof. induction l as [|e l IH]; [done|]. simpl. by rewrite IH, append_assoc. Qed.

Lemma disk_invariant evs s : steps dstep new_disk evs s -> disk_inv evs s.
Proof.
  apply (steps_trace_inv dstep disk_inv); [unfold disk_inv; simpl; auto|].
  clear. intros evs s e s' (Ht & Hr & Hp & Hh) E. unfold disk_inv, parts, records_of in *. rewrite omap_app.
  destruct e as [p r|p k|p|p]; cbn [exec] in E; destruct (holder s) as [[q rest]|] eqn:Eh; try done.
  - injection E as <-. simpl. rewrite parts_app, fmap_app, Hr. simpl. rewrite !append_empty.
    split; [done|]. split; [done|]. split.
    + apply Forall_app. split; [done|]. constructor; [|done]. by exists (line_of r).
    + exists (taken s), r, ""%string. split; [done|]. split; [done|]. intros [Hf _]%Forall_app. by apply Hh.
  - case_bool_decide as Hpq; [|done]. injection E as <-. subst q. destruct Hh as (before & r & part & Eb & El & Hw). simpl.
    rewrite Eb in *. rewrite rev_app_distr. simpl. rewrite rev_involutive. rewrite parts_app in *. rewrite fmap_app in *. simpl in *.
    rewrite !append_empty, app_nil_r in *. rewrite Ht. apply Forall_app in Hp as [Hb _].
    split; [by rewrite append_assoc|]. split; [done|]. split.
    + apply Forall_app. split; [done|]. constructor; [|done]. exists (str_drop k rest). simpl. by rewrite append_assoc, str_take_drop.
    + exists before, r, (part +:+ str_take k rest)%string. split; [done|]. split; [by rewrite append_assoc, str_take_drop|].
      intros [Hf _]%Forall_app. by apply Hw.
  - case_bool_decide as Hpq; [|done]. destruct Hpq as [-> ->]. injection E as <-. simpl. rewrite app_nil_r.
    destruct Hh as (before & r & part & Eb & El & Hw). split; [done|]. split; [done|]. split; [done|].
    intros [Hf _]%Forall_app. rewrite Eb. apply Forall_app. split; [by apply Hw|]. constructor; [|done].
    unfold whole. simpl. by rewrite El, append_empty.
  - case_bool_decide as Hpq; [|done]. injection E as <-. simpl. rewrite app_nil_r. split; [done|]. split; [done|]. split; [done|].
    intros [_ Hf]%Forall_app. apply Forall_inv in Hf. done.
Qed.

(** *** What is read back *)

(** The lines of a file with torn appends: the text [g] of the last ones runs
    into the next line. *)
Fixpoint lines_of (g : string) (log : list (SessionUsage * string)) : list string :=
  match log with
  | [] => if bool_decide (g = ""%string) then [] else [g]
  | (r, part) :: rest =>
      if bool_decide (part = line_of r) then (g +:+ usage_marshal r)%string :: lines_of "" rest
      else lines_of (g +:+ part) rest
  end.

(** A start of a line without its end. *)
Lemma torn_start r part : starts part (line_of r) -> part <> line_of r -> contains_byte part LF = false.
Proof.
  intros [rest E] Hne. destruct (usage_one_line r) as [Hl _]. unfold line_of in *. revert part E Hne.
  induction (usage_marshal r) as [|c m IH]; intros part E Hne.
  - destruct part as [|d part]; [done|]. rewrite append_nil_l, append_cons in E. injection E as <- E.
    destruct part; [|done]. done.
  - simpl in Hl. apply orb_false_iff in Hl as [Hc Hl]. destruct part as [|d part]; [done|]. rewrite !append_cons in *. injection E as <- E.
    simpl. rewrite Hc. apply (IH Hl); [done|congruence].
Qed.

Lemma unterminated_cons w l : l <> [] -> unterminated (w :: l) = w :: unterminated l.
Proof. by destruct l. Qed.

Lemma unterminated_lines_of g log : contains_byte g LF = false -> Forall (fun e => starts e.2 (line_of e.1)) log ->
  unterminated (Split LF (g +:+ foldr (fun e t => e.2 +:+ t) "" log)%string) = lines_of g log.
Proof.
  intros Hg HF. revert g Hg. induction HF as [|[r part] log Hp HF IH]; intros g Hg; simpl.
  - rewrite append_empty, Split_none by done. done.
  - simpl in Hp. case_bool_decide as Hw.
    + subst part. unfold line_of. rewrite !append_assoc, append_cons, append_nil_l, <- append_assoc.
      destruct (usage_one_line r) as [Hl _].
      assert (contains_byte (g +:+ usage_marshal r) LF = false) as Hn by (by rewrite contains_byte_app, Hg, Hl).
      rewrite Split_cut by done. rewrite unterminated_cons.
      * f_equal. change (foldr _ _ log) with ("" +:+ foldr (fun (e : SessionUsage * string) t => e.2 +:+ t) "" log)%string.
        by apply IH.
      * generalize (foldr (fun (e : SessionUsage * string) t => (e.2 +:+ t)%string) ""%string log). intros t. destruct t; simpl; [done|].
        case_bool_decide; [done|]. by destruct (Split LF t).
    + rewrite <- append_assoc. apply IH. rewrite contains_byte_app, Hg. by apply (torn_start r).
Qed.

(** The records whose lines stand by themselves. *)
Fixpoint heard (clean : bool) (log : list (SessionUsage * string)) : list SessionUsage :=
  match log with
  | [] => []
  | (r, part) :: rest =>
      if bool_decide (part = line_of r) then (if clean then [r] else []) ++ heard true rest
      else heard (clean && bool_decide (part = ""%string)) rest
  end.

Lemma take_lines_ok l r : take_lines l = (r, None) -> r = map drop_cr l.
Proof.
  revert r. induction l as [|x l IH]; intros r; simpl; [by intros [= <-]|]. destruct (maxLine <=? len x); [done|].
  destruct (take_lines l) as [r' e]. intros [= <- ->]. by rewrite (IH r').
Qed.

Lemma parse_marshal f r rest :
  parse_lines f (usage_marshal r :: rest) = (if matchesFilter r f then [r] else []) ++ parse_lines f rest.
Proof. simpl. rewrite bool_decide_false by apply usage_not_empty. rewrite usage_read_back. by destruct (matchesFilter r f). Qed.

Lemma parse_sublist f line rest : sublist (parse_lines f rest) (parse_lines f (line :: rest)).
Proof.
  simpl. case_bool_decide; [done|]. destruct (usage_unmarshal line) as [r|]; [|done]. destruct (matchesFilter r f); [|done].
  by apply sublist_cons.
Qed.

Lemma heard_sublist f g log :
  sublist (filter (fun r => matchesFilter r f = true) (heard (bool_decide (g = ""%string)) log)) (parse_lines f (map drop_cr (lines_of g log))).
Proof.
  revert g. induction log as [|[r part] log IH]; intros g; simpl; [by apply sublist_nil_l|].
  case_bool_decide as Hw.
  - cbn [map]. rewrite filter_app. case_bool_decide as Hg.
    + subst g. rewrite append_nil_l. destruct (usage_one_line r) as [_ ->]. rewrite parse_marshal. apply sublist_app; [|apply (IH "")].
      rewrite filter_cons. simpl. by destruct (matchesFilter r f).
    + rewrite filter_nil, app_nil_l. etrans; [apply (IH "")|apply parse_sublist].
  - assert (bool_decide (g = ""%string) && bool_decide (part = ""%string) = bool_decide ((g +:+ part)%string = ""%string)) as ->.
    { destruct g as [|c g]; [done|]. rewrite append_cons. by rewrite (bool_decide_false (String c g = _)), (bool_decide_false (String c (g +:+ part) = _)) by done. }
    apply IH.
Qed.

Lemma heard_count clean log :
  (length (filter whole log) <= length (heard clean log) + length (filter (fun e => ~ whole e /\ e.2 <> ""%string) log) + if clean then 0 else 1)%nat.
Proof.
  revert clean. induction log as [|[r part] log IH]; intros clean; [simpl; lia|]. rewrite !filter_cons.
  pose proof (IH true) as IH1. pose proof (IH false) as IH0. pose proof (IH clean) as IHc.
  cbn [heard]. unfold whole in * |-. repeat case_decide; unfold whole in *; simpl in *; try tauto.
  all: rewrite ?length_app, ?andb_false_r, ?andb_true_r; destruct clean; simpl in *; lia.
Qed.

Lemma heard_whole log : Forall whole log -> heard true log = log.*1.
Proof. induction 1 as [|[r part] log Hw HF IH]; [done|]. simpl. rewrite bool_decide_true by done. by rewrite IH. Qed.

Definition lasting (e : event) : Prop := match e with Stop _ => False | _ => True end.

(** C31. Several processes append records to the file, with any number of writes
    for each. While no append is cut off, what is read when nobody writes is exactly
    the appended records that pass the filter, in the order in which they got the
    lock. One that is cut off costs itself and at most the one after it, all others
    are read, as long as no line gets too long for the reader. *)
Theorem usage_survives evs s f :
  steps dstep new_disk evs s -> holder s = None -> Forall (fun r => len (usage_marshal r) < maxLine) (records_of evs) ->
  (Forall lasting evs -> Read (Ok (Some (text s))) f = (filter (fun r => matchesFilter r f = true) (records_of evs), None)) /\
  ((scan (text s)).2 = None -> exists rs,
     sublist rs (records_of evs) /\ sublist (filter (fun r => matchesFilter r f = true) rs) (Read (Ok (Some (text s))) f).1 /\
     (length (filter whole (taken s)) <= length rs + length (filter (fun e => ~ whole e /\ e.2 <> ""%string) (taken s)))%nat).
Proof.
  intros Hs Hh Hlen. destruct (disk_invariant _ _ Hs) as (Ht & Hr & Hp & Hw). rewrite Hh in Hw.
  assert (unterminated (Split LF (text s)) = lines_of "" (taken s)) as HL.
  { rewrite Ht. unfold parts. rewrite <- (append_nil_l (foldr _ _ _)). by apply unterminated_lines_of. }
  unfold Read, scan. rewrite HL. split.
  - intros Hf. specialize (Hw Hf). assert (lines_of "" (taken s) = map usage_marshal (records_of evs)) as ->.
    { rewrite <- Hr. clear -Hw. induction Hw as [|[r part] log Hw HF IH]; [done|]. simpl. by rewrite bool_decide_true, IH by done. }
    rewrite take_plain.
    + f_equal. clear. induction (records_of evs) as [|r rs IH]; [done|]. cbn [map]. rewrite parse_marshal, IH, filter_cons.
      by destruct (matchesFilter r f).
    + apply Forall_map. eapply Forall_impl; [exact Hlen|]. intros r Hl. destruct (usage_one_line r). by repeat split.
  - destruct (take_lines (lines_of "" (taken s))) as [lines err] eqn:Et. simpl. intros ->. apply take_lines_ok in Et as ->.
    exists (heard true (taken s)). split; [|split].
    + rewrite <- Hr. clear. generalize true. induction (taken s) as [|[r part] log IH]; intros b; [done|]. simpl. case_bool_decide.
      * destruct b; simpl; [by apply sublist_skip|by apply sublist_cons].
      * apply sublist_cons, IH.
    + apply (heard_sublist f "" (taken s)).
    + pose proof (heard_count true (taken s)) as Hc. cbv iota in Hc. lia.
Qed.

(** ** Summaries *)
Section grouping.
Context {S : Type} (key : SessionUsage -> string) (init : string -> S) (add : S -> SessionUsage -> S) (name : S -> string) (count : S -> Z).
Context (name_init : forall k, name (init k) = k) (name_add : forall v r, name (add v r) = name v).
Context (count_init : forall k, count (init k) = 0) (count_add : forall v r, count (add v r) = count v + 1).

Definition with_key (k : string) (l : list SessionUsage) : list SessionUsage := filter (fun r => key r = k) l.
Definition groups (l : list SessionUsage) : gmap string S := foldl (entry key init add) ∅ l.

Lemma grouped_lookup l k :
  groups l !! k = match with_key k l with [] => None | rs => Some (foldl add (init k) rs) end.
Proof.
  unfold groups, with_key. induction l as [|r l IH] using rev_ind; [done|]. rewrite foldl_app. simpl. unfold entry at 1.
  rewrite filter_app, filter_cons, filter_nil. destruct (decide (key r = k)) as [<-|Hne].
  - rewrite lookup_insert_eq, IH. generalize (filter (fun r' => key r' = key r) l). intros rs.
    destruct rs as [|x rs]; [done|]. simpl. by rewrite foldl_app.
  - rewrite lookup_insert_ne by done. by rewrite IH, app_nil_r.
Qed.

Lemma grouped_name l k v : groups l !! k = Some v -> name v = k.
Proof.
  assert (forall rs v, name (foldl add v rs) = name v) as H.
  { induction rs as [|x rs IH]; intros w; [done|]. simpl. by rewrite IH, name_add. }
  rewrite grouped_lookup. destruct (with_key k l) as [|r rs]; [done|]. intros [= <-]. by rewrite H, name_add, name_init.
Qed.

Definition sum_of (l : list Z) : Z := foldr Z.add 0 l.
#[local] Instance sum_of_perm : Proper (Permutation ==> eq) sum_of.
Proof. intros l l'. induction 1; simpl; lia. Qed.

Lemma grouped_count l : sum_of (count <$> (map_to_list (groups l)).*2) = Z.of_nat (length l).
Proof.
  unfold groups. induction l as [|r l IH] using rev_ind; [simpl; by rewrite map_to_list_empty|]. rewrite foldl_app, length_app. simpl. unfold entry at 1.
  set (m := foldl (entry key init add) ∅ l) in *. destruct (m !! key r) as [v|] eqn:E; simpl.
  - rewrite <- (insert_delete_id _ _ _ E), map_to_list_insert in IH by apply lookup_delete_eq.
    rewrite <- insert_delete_eq, map_to_list_insert by apply lookup_delete_eq. csimpl in *. rewrite count_add. lia.
  - rewrite map_to_list_insert by done. csimpl. rewrite count_add, count_init. lia.
Qed.

(** One entry for each key that occurs, from exactly its records in their order. *)
Lemma grouped_spec l vs : vs ≡ₚ (map_to_list (groups l)).*2 ->
  NoDup (name <$> vs) /\ sum_of (count <$> vs) = Z.of_nat (length l) /\
  forall v, v ∈ vs <-> with_key (name v) l <> [] /\ v = foldl add (init (name v)) (with_key (name v) l).
Proof.
  intros P. split; [|split].
  - rewrite P. assert (name <$> (map_to_list (groups l)).*2 = (map_to_list (groups l)).*1) as ->; [|apply NoDup_fst_map_to_list].
    assert (forall e, e ∈ map_to_list (groups l) -> name e.2 = e.1) as Hn.
    { intros [k v] He%elem_of_map_to_list. by eapply grouped_name. }
    revert Hn. generalize (map_to_list (groups l)). intros es Hn. induction es as [|e es IH]; [done|]. csimpl. rewrite Hn by (by left). f_equal. apply IH. intros e' He. apply Hn. by right.
  - by rewrite <- grouped_count, P.
  - intros v. rewrite P, list_elem_of_fmap. split.
    + intros ([k w] & -> & Hin%elem_of_map_to_list). simpl. pose proof (grouped_name _ _ _ Hin) as Hn. rewrite Hn. rewrite grouped_lookup in Hin.
      destruct (with_key k l); [done|]. injection Hin as <-. done.
    + intros [Hne Hv]. exists (name v, v). split; [done|]. apply elem_of_map_to_list. rewrite grouped_lookup.
      destruct (with_key (name v) l); [done|]. by rewrite <- Hv.
Qed.
End grouping.

Lemma add_agents n rs :
  foldl add_agent (new_agent n) rs =
    mkAgentSummary n (foldl f_add f_zero (EstimatedCostUSD <$> rs)) (Z.of_nat (length rs))
      (wrap64 (sum_of (InputTokens <$> rs))) (wrap64 (sum_of (OutputTokens <$> rs))).
Proof.
  assert (forall c k i o, in_int64 i -> in_int64 o -> foldl add_agent (mkAgentSummary n c k i o) rs =
    mkAgentSummary n (foldl f_add c (EstimatedCostUSD <$> rs)) (k + Z.of_nat (length rs))
      (wrap64 (i + sum_of (InputTokens <$> rs))) (wrap64 (o + sum_of (OutputTokens <$> rs)))) as H.
  { induction rs as [|r rs IH]; intros c k i o Hi Ho; csimpl.
    - by rewrite !Z.add_0_r, !wrap64_id.
    - unfold add_agent at 2. csimpl. rewrite IH by apply wrap64_in. f_equal; [lia|apply add64_add64..]. }
  apply H; int64_lia.
Qed.

Lemma add_backends n rs :
  foldl add_backend (new_backend n) rs = mkBackendSummary n (foldl f_add f_zero (EstimatedCostUSD <$> rs)) (Z.of_nat (length rs)).
Proof.
  assert (forall c k, foldl add_backend (mkBackendSummary n c k) rs =
    mkBackendSummary n (foldl f_add c (EstimatedCostUSD <$> rs)) (k + Z.of_nat (length rs))) as H.
  { induction rs as [|r rs IH]; intros c k; csimpl; [by rewrite Z.add_0_r|]. unfold add_backend at 2. csimpl. rewrite IH. f_equal. lia. }
  apply H.
Qed.

Lemma add_days n rs :
  foldl add_day (new_day n) rs = mkDay n (foldl f_add f_zero (EstimatedCostUSD <$> rs)) (Z.of_nat (length rs)).
Proof.
  assert (forall c k, foldl add_day (mkDay n c k) rs =
    mkDay n (foldl f_add c (EstimatedCostUSD <$> rs)) (k + Z.of_nat (length rs))) as H.
  { induction rs as [|r rs IH]; intros c k; csimpl; [by rewrite Z.add_0_r|]. unfold add_day at 2. csimpl. rewrite IH. f_equal. lia. }
  apply H.
Qed.

Section summarised.
Context `{sorting : !SliceSort} (f_lt : F -> F -> bool) (range_ : forall S : Type, gmap string S -> list S).
Context (day_of : Z -> string).

Lemma aggregate_folds l : aggregateUsage f_lt range_ l =
  mkAgg (foldl add_totals no_totals l) (Z.of_nat (length l)) (agents_of f_lt range_ (groups AgentName new_agent add_agent l))
    (backends_of f_lt range_ (groups Backend new_backend add_backend l)).
Proof.
  unfold aggregateUsage, groups.
  assert (forall l t am bm, foldl (fun '(t, am, bm) rec => (add_totals t rec, entry AgentName new_agent add_agent am rec,
    entry Backend new_backend add_backend bm rec)) (t, am, bm) l =
    (foldl add_totals t l, foldl (entry AgentName new_agent add_agent) am l, foldl (entry Backend new_backend add_backend) bm l)) as H.
  { clear. induction l as [|r l IH]; intros t am bm; [done|]. apply IH. }
  by rewrite H.
Qed.

Lemma response_folds l : buildUsageResponse f_lt range_ day_of l =
  mkResponse (foldl add_totals no_totals l) (Z.of_nat (length l)) (agents_of f_lt range_ (groups AgentName new_agent add_agent l))
    (backends_of f_lt range_ (groups Backend new_backend add_backend l))
    (days_of range_ (groups (fun r => day_of (StartedAt r)) new_day add_day l)) l.
Proof.
  unfold buildUsageResponse, groups.
  assert (forall l t am bm dm, foldl (fun '(t, am, bm, dm) rec => (add_totals t rec, entry AgentName new_agent add_agent am rec,
    entry Backend new_backend add_backend bm rec, entry (fun r => day_of (StartedAt r)) new_day add_day dm rec)) (t, am, bm, dm) l =
    (foldl add_totals t l, foldl (entry AgentName new_agent add_agent) am l, foldl (entry Backend new_backend add_backend) bm l,
     foldl (entry (fun r => day_of (StartedAt r)) new_day add_day) dm l)) as H.
  { clear. induction l as [|r l IH]; intros t am bm dm; [done|]. apply IH. }
  by rewrite H.
Qed.

Context (ranged : forall S (m : gmap string S), range_ S m ≡ₚ (map_to_list m).*2).

(** The page and the command show the same summary. Every agent that has a
    session has one entry, with the number of its sessions, their tokens and their
    costs added up, and so has every backend and every day; the entries' sessions
    are together all of the sessions, and the days are in their order. *)
Theorem usage_summarised l :
  let agg := aggregateUsage f_lt range_ l in
  let page := buildUsageResponse f_lt range_ day_of l in
  (r_Totals page, r_SessionCount page, r_ByAgent page, r_ByBackend page) = (Totals agg, SessionCount agg, ByAgent agg, ByBackend agg) /\
  (NoDup (a_Name <$> ByAgent agg) /\ sum_of (a_Sessions <$> ByAgent agg) = SessionCount agg /\
   forall a, a ∈ ByAgent agg <-> exists rs, rs = filter (fun r => AgentName r = a_Name a) l /\ rs <> [] /\
     a = mkAgentSummary (a_Name a) (foldl f_add f_zero (EstimatedCostUSD <$> rs)) (Z.of_nat (length rs))
           (wrap64 (sum_of (InputTokens <$> rs))) (wrap64 (sum_of (OutputTokens <$> rs)))) /\
  (NoDup (b_Name <$> ByBackend agg) /\ sum_of (b_Sessions <$> ByBackend agg) = SessionCount agg /\
   forall b, b ∈ ByBackend agg <-> exists rs, rs = filter (fun r => Backend r = b_Name b) l /\ rs <> [] /\
     b = mkBackendSummary (b_Name b) (foldl f_add f_zero (EstimatedCostUSD <$> rs)) (Z.of_nat (length rs))) /\
  (NoDup (d_Date <$> DailyCosts page) /\ sum_of (d_Sessions <$> DailyCosts page) = SessionCount agg /\
   StronglySorted (fun d d' => str_lt (d_Date d') (d_Date d) = false) (DailyCosts page) /\
   forall d, d ∈ DailyCosts page <-> exists rs, rs = filter (fun r => day_of (StartedAt r) = d_Date d) l /\ rs <> [] /\
     d = mkDay (d_Date d) (foldl f_add f_zero (EstimatedCostUSD <$> rs)) (Z.of_nat (length rs))).
Proof.
  cbv zeta. rewrite aggregate_folds, response_folds. cbn [Totals SessionCount ByAgent ByBackend r_Totals r_SessionCount r_ByAgent r_ByBackend DailyCosts].
  split; [done|]. split; [|split].
  - destruct (grouped_spec AgentName new_agent add_agent a_Name a_Sessions ltac:(done) ltac:(done) ltac:(done) ltac:(done) l
      (agents_of f_lt range_ (groups AgentName new_agent add_agent l))) as (H1 & H2 & H3).
    { unfold agents_of. by rewrite (sort_slice_perm agentUsageSummary). }
    split; [done|]. split; [done|]. intros a. rewrite H3. setoid_rewrite add_agents. unfold with_key. naive_solver.
  - destruct (grouped_spec Backend new_backend add_backend b_Name b_Sessions ltac:(done) ltac:(done) ltac:(done) ltac:(done) l
      (backends_of f_lt range_ (groups Backend new_backend add_backend l))) as (H1 & H2 & H3).
    { unfold backends_of. by rewrite (sort_slice_perm backendUsageSummary). }
    split; [done|]. split; [done|]. intros a. rewrite H3. setoid_rewrite add_backends. unfold with_key. naive_solver.
  - destruct (grouped_spec (fun r => day_of (StartedAt r)) new_day add_day d_Date d_Sessions ltac:(done) ltac:(done) ltac:(done) ltac:(done) l
      (days_of range_ (groups (fun r => day_of (StartedAt r)) new_day add_day l))) as (H1 & H2 & H3).
    { unfold days_of. by rewrite (sort_slice_perm UsageDailyCost). }
    split; [done|]. split; [done|]. split.
    + apply sort_slice_sorted. split; [|split]; intros *.
      * apply str_lt_irrefl.
      * apply str_lt_trans.
      * apply str_lt_negtrans.
    + intros a. rewrite H3. setoid_rewrite add_days. unfold with_key. naive_solver.
Qed.
End summarised.

(** ** Display *)
Fixpoint strip (s : string) : string :=
  match s with "" => "" | String c s' => if bool_decide (c = ","%char) then strip s' else String c (strip s') end%string.
Lemma strip_app s t : strip (s +:+ t) = (strip s +:+ strip t)%string.
Proof. induction s as [|c s IH]; [done|]. rewrite append_cons. simpl. case_bool_decide; [done|]. by rewrite IH, append_cons. Qed.

Lemma grouped_strip n s : (String.length s <= n)%nat -> strip (grouped n s) = strip s.
Proof.
  revert s. induction n as [|n IH]; intros s Hs; cbn [grouped]; [destruct s; [done|simpl in Hs; lia]|]. case_bool_decide as He; [by subst|].
  rewrite strip_app, IH by (rewrite length_str_drop; destruct s; simpl in *; [done|lia]). change (strip (String "," (str_take 3 s))) with (strip (str_take 3 s)). by rewrite <- strip_app, str_take_drop.
Qed.

(** The separators are all that is added to a count. *)
Theorem token_count_shown n : strip (formatTokenCount n) = strip (itoa n).
Proof.
  unfold formatTokenCount. generalize (itoa n). clear n. intros s. destruct (_ <=? 3)%nat eqn:E3; [done|].
  assert (strip (grouped (String.length s) (str_drop (String.length s mod 3) s)) = strip (str_drop (String.length s mod 3) s)) as H
    by (apply grouped_strip; rewrite length_str_drop; lia).
  destruct (0 <? _)%nat eqn:E; [by rewrite strip_app, H, <- strip_app, str_take_drop|].
  apply Nat.ltb_ge in E. apply Nat.leb_gt in E3. replace (String.length s mod 3)%nat with 0%nat in * by lia.
  destruct s as [|c s]; [simpl in E3; lia|]. etrans; [|exact H]. done.
Qed.
End usage.

(** ** Runs *)
#[local] Existing Instance InsertionSort.insertion_SliceSort.
#[local] Instance whole_numbers : Float64 Z := {|
  f_zero := 0; f_int z := z; f_seconds d := d / second; f_add := Z.add; f_mul := Z.mul; f_div := Z.div |}.

Lemma bits_plain p c : contains_byte (bits p) c = true -> c = "0"%char \/ c = "1"%char.
Proof. induction p as [p IH|p IH|]; simpl; [..|done]; (intros [H|H]%orb_true_iff; [apply bool_decide_eq_true in H; subst; auto|auto]). Qed.

Lemma drop_cr_none s : contains_byte s CR = false -> drop_cr s = s.
Proof.
  induction s as [|c s IH]; [done|]. simpl. intros [Hc Hs]%orb_false_iff. rewrite Hc. destruct s; [done|]. by rewrite IH.
Qed.

Definition as_tuple (r : SessionUsage) := (AgentName r, Backend r, TaskID r, EpicID r, (InputTokens r, OutputTokens r, CacheReadTokens r,
  CacheWriteTokens r, EstimatedCostUSD (F := Z) r, StartedAt r, EndedAt r, ExitCode r), Model r).
Definition of_tuple '(a, b, t, e, (i, o, cr, cw, cost, st, en, ex), m) : SessionUsage (F := Z) := mkSession a b t e i o cr cw cost st en ex m.

Definition read_bits (s : string) : option (SessionUsage (F := Z)) :=
  match s with String "{" s' => of_tuple <$> decode (unbits s') | _ => None end.
#[local, program] Instance bit_json : UsageJson (F := Z) := {|
  usage_marshal r := String "{" (bits (encode (as_tuple r)));
  usage_unmarshal := read_bits;
|}.
Next Obligation. intros r. cbn. rewrite unbits_bits, decode_encode. by destruct r. Qed.
Next Obligation. done. Qed.
Next Obligation.
  intros r. assert (forall c, c <> "0"%char -> c <> "1"%char -> c <> "{"%char -> contains_byte (String "{" (bits (encode (as_tuple r)))) c = false) as H.
  { intros c H0 H1 H2. simpl. rewrite bool_decide_false by congruence. simpl. apply not_true_iff_false. intros [|]%bits_plain; done. }
  split; [by apply H|]. apply drop_cr_none. by apply H.
Qed.

Definition session (a b : string) (i cost t : Z) : SessionUsage (F := Z) := mkSession a b "bd-1" "" i 1 0 0 cost t (t + hour) 0 "".
Definition s1 := session "w1" "claude" 100 3 hour.
Definition s2 := session "w2" "codex" 50 5 (2 * hour).
Definition s3 := session "w1" "codex" 7 4 (30 * hour).
Definition everything : Filter := mkFilter "" "" "" "" zero_time zero_time.
(** Two processes; the second's record is written in two pieces. *)
Definition two_writers : list (event (F := Z)) :=
  [Take 1 s1; Put 1 4000; Release 1; Take 2 s2; Put 2 3; Put 2 4000; Release 2; Take 1 s3; Put 1 4000; Release 1].

Lemma usage_survives_witness :
  exists s, exec_all exec two_writers new_disk = Some s /\
    Read (Ok (Some (text s))) (mkFilter "w1" "" "" "" zero_time zero_time) = ([s1; s3], None).
Proof.
  destruct (exec_all exec two_writers new_disk) as [s|] eqn:E; [|vm_compute in E; discriminate]. exists s. split; [reflexivity|].
  assert (holder s = None) as Hh by (vm_compute in E; injection E as <-; reflexivity).
  refine (proj1 (usage_survives two_writers s (mkFilter "w1" "" "" "" zero_time zero_time) (exec_all_steps _ _ _ _ E) Hh _) _).
  - repeat (constructor; [vm_compute; reflexivity|]). constructor.
  - repeat (constructor; [exact I|]). constructor.
Defined.

(** A record that is cut off takes the next one with it. *)
Example torn_record_costs_the_next :
  (fun s => Read (Ok (Some (text s))) everything) <$>
    exec_all exec [Take 1 s1; Put 1 3; Stop 1; Take 2 s2; Put 2 4000; Release 2; Take 1 s3; Put 1 4000; Release 1] new_disk =
  Some ([s3], None).
Proof. vm_compute. reflexivity. Qed.

Definition values (S : Type) (m : gmap string S) : list S := (map_to_list m).*2.
Lemma usage_summarised_witness :
  ByAgent (aggregateUsage Z.ltb values [s1; s2; s3]) = [mkAgentSummary "w1" 7 2 107 2; mkAgentSummary "w2" 5 1 50 1] /\
  DailyCosts (buildUsageResponse Z.ltb values (fun t => itoa (t / (24 * hour))) [s1; s2; s3]) = [mkDay "0" 8 2; mkDay "1" 4 1] /\
  sum_of (a_Sessions <$> ByAgent (aggregateUsage Z.ltb values [s1; s2; s3])) = 3.
Proof.
  split; [vm_compute; reflexivity|]. split; [vm_compute; reflexivity|].
  exact (proj1 (proj2 (proj1 (proj2 (usage_summarised Z.ltb values (fun t => itoa (t / (24 * hour))) (fun S m => Permutation_refl _) [s1; s2; s3]))))).
Defined.

Lemma collector_counts_once_witness :
  let calls := [("m1", mkStream 10 1 0 0); ("", mkStream 5 1 0 0); ("m1", mkStream 10 1 0 0)]%string in
  inputTokens (collect calls (NewCollector "claude" "w1")) = 15.
Proof.
  cbv zeta. etrans; [refine (proj1 (proj2 (collector_counts_once "claude" "w1" _ _ (Permutation_refl _) _)))|vm_compute; reflexivity].
  intros id u u' Hid H1 H2. set_unfold. naive_solver.
Defined.
End Usage.
